(* ===== verification/_CoqProject ===== *)
-Q . S2P
Prelude.v
GoStrings.v
Json.v
JsonFacts.v
Regexp.v
Float.v
Domain.v
Policy.v
Sha256.v
Dedupe.v
Step.v
Payload.v
Encode.v
WorkItem.v
State.v
StateFacts.v
Project.v
Ledger.v
LedgerSafety.v
Gate.v
GateSafety.v
Access.v
Replay.v
Ports.v
Content.v
Envelope.v
Runner.v
Drive.v
Turn.v
Calendar.v
Watch.v
Memories.v
Evidence.v
MemoryFacts.v
MemorySafety.v
MemoryUse.v
MemorySearch.v
MemoryRecall.v
MemoryTool.v
MemoryToolSafety.v
Tools.v
Agent.v
ToolsSafety.v
Open.v
Dispatch.v
OpenSafety.v
DispatchSafety.v
Listing.v
ListingSafety.v
EventCycle.v
Spec.v
EventCycleSafety.v
EventCycleShortest.v
Registry.v
SpecSafety.v
Flow.v
Compensate.v
Worker.v
Pool.v
System.v
WorkerSafety.v
Ticket.v
TicketFacts.v
TicketSafety.v
Answer.v
Operate.v
OperateSafety.v
Channel.v
Inbox.v
TicketDoor.v
Consumer.v
ConsumerSafety.v
TicketDoorSafety.v
Announce.v
AnnounceSafety.v
NetGuard.v
