(* ===== verification/Prelude.v ===== *)
(** * FuseOne Agents: a verification library

    FuseOne Agents runs language-model agents on behalf of people. A run is a
    ledger of hash-chained steps; an engine folds the ledger into a state, asks
    a planner for the next action, and a gate rules on every call before it is
    made; workers lease runs, supervise their failures and undo what an
    abandoned run did. This library models the parts that decide what may
    happen. Everything is translated from the Go packages under src/internal;
    definitions keep the source's names ([T_M] for a method [M] of [T], [R_F]
    for a field, [zeroT] for Go's zero value).

    ** The parts and how they meet

    - A [Step] (domain/step.go) is sealed by [NewStep] onto the previous one:
      its hash covers every field and the previous hash (domain/hash.go).
    - The ledger (ledger/memory.go) seals and stores steps, refusing a lost
      lease, a moved head, a repeated idempotency key and a work item somebody
      else holds; its queue (ledger/queue_memory.go) leases runs to workers by
      epoch.
    - The engine (engine/fold.go) reads a run back as [Fold] of its steps;
      ledger/project.go keeps the same reading incrementally in a run's row.
    - The gate (gate/gate.go) rules on a [Request]: eight checks in a normative
      order, the operator's policies merged into the fifth, and a person's
      grant answering escalations only.
    - The run loop (engine/runner.go, act.go, resume.go) is one turn,
      [Advance]: load, recover, plan, rule, reserve, call, record. It is a
      program ([prog]) over its ports ([port], Ports.v): the ledger's
      operations, the planner, the tools, the content store, the catalogue, the
      dedupe store, the clock. A trace of a program is what it asked and what
      it was answered (Drive.v); the ledger's answers are those of Ledger.v,
      the others are arbitrary.
    - A worker (worker/turn.go) claims a run, keeps its lease, runs a turn and
      settles it: retried with backoff, parked for a person, switched to the
      fallback model, or, for an abandoned run, undone call by call
      (compensate/perform.go) after the plan of compensate/plan.go.
    - Around the runs: replay of recorded decisions (replay), the autonomy
      watch and budget alerts, the search for event cycles between agents
      (domain/event_cycle.go), and the tickets people file in a channel, whose
      approved revisions agents execute (ticket).
    - Agents propose facts and people teach them (memory): a store of
      assertions and of proposals, each resting on citations that are proved
      against the ledger, with labels that follow the evidence.
      An agent searches them and proposes more through two tools of its own.
    - An agent is a definition (spec): a file whose version is the digest of
      its bytes, parsed and checked before it is published, kept in a registry
      that never changes a version, and judged with the others in the graph of
      the events they emit and listen to. Before publishing, flow/flow.go shows
      the paths along which untrusted data could reach a tool that acts.
    - Runs start in one place, [Opener_Open] (trigger): by hand, by an event of
      a finished run, or by a schedule. Each intention has a key, and the ledger
      refuses its second run.
    - The tools come from servers (tools): a catalogue of what each offers,
      what the Curator ruled each one does, and the calls, which leave the
      catalogue and come back to one that may have changed. A tool server is
      dialled only where netguard/netguard.go allows.
    - People act on runs through the handlers of httpapi, which judge a trail
      they read and append to the one there is.
    - Conversations (channel): a message is written down before its sender is
      acknowledged (inbox.go), leased to one consumer, and becomes a run
      (open.go), a transition of a ticket (ticket_process.go) or a refusal; what
      happens to runs is said in the rooms that asked to hear it, and privately
      to people who may decide (reporter.go). Bulky payloads live outside the
      ledger, in the content store (engine/content_memory.go).
    - Principals (domain/principal.go) hold roles in scopes; an agent acts
      with the delegation of whoever triggered it.

    ** The files

    - [Prelude]: Go's results, 64-bit integers, time and record update; shared
      lemmas and tactics. [GoStrings], [Json], [JsonFacts], [Float], [Sha256]:
      what the code uses of the strings, slices, encoding/json, strconv and
      crypto/sha256 packages, executable at the level of bytes. [Regexp]: the
      expressions the code compiles, with a matcher proved against their
      meaning; the runes of a text (the tables of golang.org/x/text are an
      interface, with an ASCII instance); and domain/secret.
    - [Domain] (ids, installation, effect, verdict, autonomy, standing, stop,
      cost, budget, labels), [Calendar] (the periods of budget), [Policy]
      (policy, policy_match), [Access] (access, principal), [Dedupe] (dedupe):
      the vocabulary of src/internal/domain.
    - [Step] (step, hash), [Payload] (every payload with its JSON decoder),
      [Encode] (the encoders of the payloads the program writes), [WorkItem]
      (workitem and its link, alias, origin and provenance files).
    - [State] (engine/state, fold, investigation, fallback, idempotency, and
      the facts of workitem_link), [StateFacts].
    - [Project] (ledger/project). [Ledger] (ledger/memory, queue_memory, head,
      the work item files, simulations_memory), [LedgerSafety]. [Listing]
      (ledger/list_memory, stats_memory, activity_memory, fallback_evidence,
      domain/run_cursor, stats), [ListingSafety]. [Content]
      (engine/content_memory, domain/content, content_limit).
    - [Gate] (the gate package), [GateSafety]. [Replay] (replay).
    - [Ports], [Envelope], [Runner] (engine: ports, envelope, runner, act,
      resume, unavailable, memory_lookup, workitem_link_act): the run loop.
      [Drive]: traces, the discipline a program obeys on them, and running a
      program against a ledger; [Turn]: the theorems of one turn.
    - [Compensate] (compensate) with its theorem. [Worker] (worker/turn,
      supervision, fallback, abandon), [Pool], [WorkerSafety]. [System]: any
      number of workers and pools interleaved over one ledger.
    - [EventCycle] (domain/event_cycle, event_cycle_graph), [EventCycleSafety],
      [EventCycleShortest]. [Watch] (domain/agreement, autonomy/watch,
      budget/alerts).
    - [Memories] (domain/memory, memory_identity, memory_evidence and, of the
      memory package, merge, evidence_budget, clone, prepare, suggestion,
      accept, secret, memory, memory_suggest, filter), [Evidence]
      (memory/citation, evidence_resolver, hydrate, hydrate_memory, reconcile,
      reactivate, match), [MemoryFacts], [MemorySafety], [MemoryUse].
      [MemorySearch] (memory/search, order, filter and the listings),
      [MemoryRecall]; [MemoryTool] (memory/tool, tool_args, tool_result),
      [MemoryToolSafety].
    - [Agent] (domain/agent, approvals, webhook and the columns a version is
      stored in), [Spec] (spec: spec, steps, emits, triggers, fallback,
      webhook_github, event_graph, resolver, store), [Registry] (spec: registry,
      catalogue, approvals, events, state, retire, publisher, over the two
      tables they write), [SpecSafety]. [Flow] (flow) with its theorem.
    - [Open] (trigger/open, open_request, opener, version, rerun), [Dispatch]
      (trigger/events, events_source, events_artifacts, cron, and the feed of
      ledger/event_feed_memory), [OpenSafety], [DispatchSafety].
    - [Tools] (tools: catalog, servers, classify, invoke, rate_limit,
      result_cache, session_health, publication, metrics), [ToolsSafety].
      [NetGuard] (netguard, with the address parser of net/netip).
    - [Ticket] (ticket: store, validation, attempt and the memory files),
      [TicketFacts], [TicketSafety]. [Answer] (connectortools/ticket_answer)
      with its theorem.
    - [Operate] (httpapi: runs, approvals, approval_evidence, compensation,
      start_run, rerun, scoping, filters, mapping, fallback), [OperateSafety].
    - [Channel] (channel: configured, origin, ask), [Inbox] (inbox, ceiling)
      with its theorem, [TicketDoor] (the ticket files that route a message and
      handle it), [TicketDoorSafety], [Consumer] (open, consumer, ceiling),
      [ConsumerSafety], [Announce] (channel, errors, refusal, deliveries,
      postgres, fanout, addressing, direct, owner, ticket_approvals,
      announce_answer, reporter, cards, closer, router, notice, ticket_outcomes,
      ticket_review_rooms), [AnnounceSafety].

    ** What the theorems show

    - The system: whatever interleaving of workers, turns, undos, crashes and
      lost leases, an effect leaves at most once, every effect that left is
      accounted for on the ledger by a ruling or a recorded undo, and a worker
      only acts on history that is stored.
    - A turn: effects follow a recorded ruling, a turn extends only what it
      holds, the model speaks on its turn, a lost call is closed rather than
      repeated, what is written is read back.
    - The gate: [Evaluate] refines the specification [Gate.ruling]; tainted
      irreversible calls are blocked, denials always hold, budgets hold,
      grants answer only escalations. A replay asks each recorded decision
      again.
    - The chain: the head digest determines the run up to an explicit SHA-256
      collision; what is sealed verifies.
    - The ledger, over every state reachable by appends, claims, renewals and
      releases in any order: stored chains verify, keys are unique, a stale
      worker is fenced for good, a claim is exclusive, one head is extended
      once, a card has one open holder per agent, an alias one root.
    - The fold: a grant traces back to a standing human approval of that very
      call, questions stay consistent, taint is the union of the ledger; the
      projection agrees with it.
    - Workers: a failure is retried or parked and never swallowed, supervision
      never writes over a ruling, a live turn holds its lease; the backoff is
      the capped doubling. The compensation plan is what each call came to.
    - Event cycles: the search returns exactly the shortest cycles, all of them
      unless it says it was truncated, within its budget of work.
    - Tickets, over any sequence of requests: histories stay coherent,
      revisions only advance, an approved revision is executed at most once and
      as approved, outcomes are announced only once handed out.
    - Memories, over any sequence of requests and whatever the Unicode tables:
      rows stay valid and one per fact, a memory that is switched off returns
      only when its citations are proved again, what untrusted data proposed
      waits for a person, repetition confirms only what is clean and not shaped
      like a credential, a correction keeps a citation for every label.
      What a run recalls is the best of what it may read, within its byte
      budget and with its taint; a run that read untrusted data writes none.
    - Definitions: one that parses bounds its runs, a published version never
      changes and is read back as published, an agent starts only when somebody
      starts it, a publication reports the cycles of the graph it makes, and the
      static flow check covers every run of a definition.
    - Triggers: one intention opens one run through races, retries and failed
      lookups; no run starts against a pause, a stop, a stage or the data
      barrier; a sweep ends and has served every finished run it passed; a tick
      clears what is due.
    - The catalogue, over every history with calls in flight: a tool acts only
      under a ruling about the definition it has now, an answer from the cache
      was given before to the same question under the same authority, and no
      cache outgrows its limit.
    - People: a decision is recorded on exactly the question it was judged by,
      once, and every step a handler appends is in a scope the caller holds the
      permission in. A reader who follows a listing sees each run once, whatever
      is recorded meanwhile. The words of an answered ticket are the words a
      person approved.
    - Conversations: one ask is settled once and opens one run, in the name and
      scope its room was configured with, through races, lapsed leases and
      crashes; a message moves a ticket only as whoever wrote it is entitled to;
      a revision starts only after the questions of older ones were withdrawn;
      a ticket's words accumulate within their bounds. A sweep that tells people
      what happened says nothing twice that is on record, reaches only rooms
      that hear and people who may decide, and marks a run as reported only when
      it was; silence leaves a record of why.
    - The network guard: whatever spelling of an address or answer of the
      resolver, nothing in a blocked network is dialled.
    - Watches: a sweep only demotes, on float rates proven exact; a crossing is
      announced once per period; periods open at midnight UTC.
    - Access: listing agrees with checking, the company boundary, what
      machines are barred from, and when delegation is an intersection.
    - Theorems that record where the code departs from its comments:
      [failed_store_leaks_the_reservation], [escalation_lowers_the_floor],
      [delegate_widens_a_company_envelope], [stale_decision_reopens_the_row],
      [replay_blames_faithful_trails], [a_full_record_recounts_one_run],
      [a_stop_misses_a_pinned_version], [a_listing_shows_a_version_that_left],
      [a_silent_step_is_checked_as_the_whole_pack],
      [a_schedule_that_never_comes_stays_due],
      [off_memory_covers], [accepting_leaves_expired], [renewing_can_shorten],
      [closed_ticket_still_executes], [a_wide_page_ends_the_list],
      [an_abandonment_lands_on_a_finished_run],
      [a_resumption_lands_on_an_abandoned_run],
      [the_newest_answer_is_evicted], [a_stale_tool_keeps_its_effect],
      [a_company_room_starts_every_area],
      [a_lapsed_lease_exceeds_the_ceiling] and the
      first wait of [backoff_doubles_to_its_cap].

    ** Bounds and fuel

    Integers are 64-bit with wrap-around written out ([wrap64]); theorems that
    need exact sums say so, and ticket histories are bounded by the requests a
    64-bit version counter can count. The JSON scanner takes fuel twice the
    length of its input plus one, which it consumes a byte at a time; the
    coordination key search takes one more than the number of recorded keys,
    and [coordination_key_is_unused] shows that is enough; the queues of the
    event-cycle search take the size of the wiring plus one, which
    [cycle_search_is_bounded] rests on. The wait for another holder's dedupe
    reservation takes the ticks the clock allows. A sweep takes one page more
    than there are finished runs, which [sweeps_end] shows is enough; the groups
    of an IPv6 address take eight rounds, which is all an address has; a
    correction that loses races gives up after four, as the code does; the
    search for a whole word restarts past each occurrence and takes the length
    of the text. The store is the in-memory
    one; its clock, cancellation and random owner are arguments.

    ** What is not modelled

    The SQL of the Postgres ledger, memories, tickets, reservations and settings
    (the in-memory stores are the executable form of the same contracts; where
    only SQL exists - the inbox, the deliveries, the registry - each statement is
    modelled as an operation on the table); the HTTP transport and the console;
    chat clients, connectors, MCP transports and model providers, which are I/O
    around these definitions; sealed credentials; webhooks and GitHub events,
    whose signatures and secrets are cryptography outside src/; rendering a
    definition back to YAML; the audit, export and finance reports, simulation,
    regression and drift, which are queries over the ledger. The transcript built
    for the planner is an answer of a port. Third-party code is an argument of
    the definitions that call it: the YAML decoder, the cron parser, the Unicode
    tables, the compiler of an administrator's expressions, the resolver and the
    connection; so is what a component asks of another through a Go interface
    (the registry, pauses, stops and stages an opening asks). *)

From Stdlib Require Import ZArith Lia.
From stdpp Require Import base list strings gmap.

(** ** Go's [(value, error)] results

    A function of the source that returns a value and an error is a function
    into [result error A]; the two constructors are the two ways it returns. *)

Inductive result (E A : Type) : Type :=
| Ok (a : A)
| Err (e : E).

Arguments Ok {E A} a.
Arguments Err {E A} e.

#[global] Instance result_mret {E} : MRet (result E) := fun A a => Ok a.

#[global] Instance result_mbind {E} : MBind (result E) := fun A B f r =>
  match r with
  | Ok a => f a
  | Err e => Err e
  end.

#[global] Instance result_eq_dec {E A} `{EqDecision E, EqDecision A} :
  EqDecision (result E A).
Proof. solve_decision. Defined.

Definition is_ok {E A} (r : result E A) : bool :=
  match r with Ok _ => true | Err _ => false end.

(** [guard_err b e] is an early return: [if !b { return e }]. *)
Definition guard_err {E} (b : bool) (e : E) : result E unit :=
  if b then Ok tt else Err e.

Lemma result_bind_Ok {E A B} (f : A -> result E B) r b :
  r ≫= f = Ok b <-> exists a, r = Ok a /\ f a = Ok b.
Proof. destruct r; naive_solver. Qed.

Lemma result_bind_Err {E A B} (f : A -> result E B) r e :
  r ≫= f = Err e <-> r = Err e \/ exists a, r = Ok a /\ f a = Err e.
Proof. destruct r; naive_solver. Qed.

Lemma guard_err_Ok {E} (b : bool) (e : E) u : guard_err b e = Ok u <-> b = true.
Proof. destruct b, u; naive_solver. Qed.

(** ** 64-bit signed integers

    Go's [int64] (and [int], on the 64-bit targets the program is built for)
    wraps around. A value of that type is a [Z]; arithmetic on it goes through
    [wrap64]. *)

Definition int64_min : Z := (- 2 ^ 63)%Z.
Definition int64_max : Z := (2 ^ 63 - 1)%Z.
Definition in_int64 (z : Z) : bool := ((int64_min <=? z) && (z <=? int64_max))%Z.
Definition wrap64 (z : Z) : Z := ((z + 2 ^ 63) mod 2 ^ 64 - 2 ^ 63)%Z.
Definition add64 (a b : Z) : Z := wrap64 (a + b).
Definition sub64 (a b : Z) : Z := wrap64 (a - b).

Lemma in_int64_spec z :
  in_int64 z = true <-> (- 9223372036854775808 <= z <= 9223372036854775807)%Z.
Proof. unfold in_int64, int64_min, int64_max. rewrite andb_true_iff, !Z.leb_le. lia. Qed.

Lemma wrap64_id z : in_int64 z = true -> wrap64 z = z.
Proof.
  rewrite in_int64_spec. intros H. unfold wrap64.
  rewrite Z.mod_small; lia.
Qed.

Lemma wrap64_range z : in_int64 (wrap64 z) = true.
Proof.
  apply in_int64_spec. unfold wrap64.
  pose proof (Z.mod_pos_bound (z + 2 ^ 63) (2 ^ 64) ltac:(lia)). lia.
Qed.

(** ** Boolean tests of the source *)

Lemma bool_decide_iff_eq (P Q : Prop) `{Decision P, Decision Q} :
  (P <-> Q) -> bool_decide P = bool_decide Q.
Proof. apply bool_decide_ext. Qed.

Lemma existsb_In {A} (f : A -> bool) l : existsb f l = true <-> exists x, In x l /\ f x = true.
Proof. apply existsb_exists. Qed.

Lemma forallb_false {A} (f : A -> bool) l :
  forallb f l = false <-> exists x, In x l /\ f x = false.
Proof.
  induction l as [|x l IH]; simpl; [naive_solver|].
  rewrite andb_false_iff, IH. naive_solver.
Qed.

Lemma existsb_false {A} (f : A -> bool) l :
  existsb f l = false <-> forall x, In x l -> f x = false.
Proof.
  induction l as [|x l IH]; simpl; [naive_solver|].
  rewrite orb_false_iff, IH. naive_solver.
Qed.

Lemma exists_snoc {A} (P : A -> Prop) l x :
  (exists y, In y (l ++ [x]) /\ P y) <-> (exists y, In y l /\ P y) \/ P x.
Proof.
  setoid_rewrite in_app_iff. simpl. split.
  - intros (y & [Hy|[<-|[]]] & Hp); eauto.
  - intros [(y & Hy & Hp)|Hp]; eauto.
Qed.

(** ** Tactics

    [bsimp] turns the boolean tests in the context into propositions;
    [case_all] splits every [match] and [if] that blocks a hypothesis or the
    goal. *)

Create HintDb fuse discriminated.
Create Rewrite HintDb fuse_bool.
#[export] Hint Resolve wrap64_range : fuse.
#[export] Hint Rewrite @andb_true_iff @andb_false_iff @orb_true_iff @orb_false_iff
  @negb_true_iff @negb_false_iff Z.eqb_eq Z.eqb_neq Z.leb_le Z.leb_gt Z.ltb_lt Z.ltb_ge
  Nat.eqb_eq Nat.eqb_neq Nat.leb_le Nat.ltb_lt String.eqb_eq String.eqb_neq
  @bool_decide_eq_true @bool_decide_eq_false : fuse_bool.

Ltac bsimp := autorewrite with fuse_bool in *.

Ltac case_all :=
  repeat (simplify_eq/=;
    match goal with
    | H : context [match ?x with _ => _ end] |- _ => destruct x eqn:?
    | |- context [match ?x with _ => _ end] => destruct x eqn:?
    end); simplify_eq/=.

(** Splits only hypotheses, leaving the goal as it is written. *)
Ltac case_hyps :=
  repeat (simplify_eq/=;
    match goal with
    | H : context [match ?x with _ => _ end] |- _ => destruct x eqn:?
    end); simplify_eq/=.

(** Inverts a chain of binds that returned [Ok]. *)
Ltac inv_ok :=
  repeat match goal with
    | H : _ ≫= _ = Ok _ |- _ =>
        apply result_bind_Ok in H; destruct H as (? & ? & ?)
    | H : guard_err _ _ = Ok _ |- _ => apply guard_err_Ok in H
    | H : mret _ = Ok _ |- _ => injection H as <-
    | H : Ok _ = Ok _ |- _ => injection H as <-
    | H : Err _ = Ok _ |- _ => discriminate H
    end.

(** ** Time

    [time.Time] is the number of nanoseconds since the zero instant of the
    language (January 1, year 1, UTC), so [IsZero] is a comparison with 0. Every
    instant the program handles is in UTC; locations and monotonic readings are
    not modelled. [time.Duration] is an [int64] of nanoseconds. *)

Abbreviation Time := Z (only parsing).
Abbreviation Duration := Z (only parsing).

(** Nanoseconds from the zero instant to the Unix epoch. *)
Definition unix_epoch : Z := (62135596800 * 1000000000)%Z.
Definition Time_IsZero (t : Time) : bool := (t =? 0)%Z.
Definition Time_After (t u : Time) : bool := (u <? t)%Z.
Definition Time_Add (t : Time) (d : Duration) : Time := (t + d)%Z.
(** [Sub] saturates at the bounds of a [Duration]. *)
Definition Time_Sub (t u : Time) : Duration :=
  Z.max int64_min (Z.min int64_max (t - u)).
Definition Duration_Milliseconds (d : Duration) : Z := Z.quot d 1000000.
Definition Time_UnixMicro (t : Time) : Z := wrap64 ((t - unix_epoch) / 1000).
(** [Truncate(time.Microsecond)]: down to a multiple since the zero instant. *)
Definition Time_TruncateMicro (t : Time) : Time := (t - t mod 1000)%Z.

(** ** Assigning a field of a struct

    [r <| f := v |>] is [r] with the field [f] assigned. A record declares its
    [Eta] (itself, rebuilt field by field) once, and the setter of each field is
    derived from it by replacing that projection. *)

Class Eta (R : Type) := eta : R -> R.
Class Setter {R T : Type} (f : R -> T) := set_field : (T -> T) -> R -> R.
Arguments eta {R _} r /.
Arguments set_field {R T} f {_} g r /.

Ltac derive_setter :=
  lazymatch goal with
  | |- @Setter ?R ?T ?f =>
      let inst := constr:(_ : Eta R) in
      let body := eval red in inst in
      lazymatch eval pattern f in body with
      | ?F _ => let b := eval cbv beta in (fun (g : T -> T) (r : R) => F (fun x => g (f x)) r) in
                exact b
      end
  end.

#[export] Hint Extern 1 (Setter _) => derive_setter : typeclass_instances.

Notation "r <| f := v |>" := (set_field f (fun _ => v) r)
  (at level 1, left associativity, f at level 9, v at level 200,
   format "r  <| f  :=  v |>") : stdpp_scope.
