(* ===== verification/GoStrings.v ===== *)
(** * Go strings and sorted slices

    What the program uses of the packages [strings] and [slices]. A Go string
    is a sequence of bytes, which is what [string] is here. Case folding is
    modelled on ASCII letters only; white space is the whole Unicode
    [White_Space] set, by its UTF-8 encodings. *)

From Stdlib Require Import ZArith Lia Ascii String Sorting.Permutation Sorting.Sorted.
From stdpp Require Import base list strings gmap sorting.
From S2P Require Import Prelude.

Local Open Scope string_scope.

(** ** Prefixes, suffixes and cuts *)

(** [strings.HasPrefix(s, p)]. *)
Fixpoint has_prefix (p s : string) : bool :=
  match p, s with
  | EmptyString, _ => true
  | String a p', String b s' => Ascii.eqb a b && has_prefix p' s'
  | String _ _, EmptyString => false
  end.

Fixpoint drop_bytes (n : nat) (s : string) : string :=
  match n, s with
  | O, _ => s
  | S n', String _ s' => drop_bytes n' s'
  | S _, EmptyString => EmptyString
  end.

Fixpoint take_bytes (n : nat) (s : string) : string :=
  match n, s with
  | O, _ => EmptyString
  | S n', String a s' => String a (take_bytes n' s')
  | S _, EmptyString => EmptyString
  end.

(** [strings.CutPrefix(s, p)]: the rest, when [p] is a prefix. *)
Definition cut_prefix (p s : string) : option string :=
  if has_prefix p s then Some (drop_bytes (String.length p) s) else None.

(** [strings.HasSuffix] and [strings.CutSuffix]. *)
Definition has_suffix (p s : string) : bool :=
  (String.length p <=? String.length s)%nat &&
  String.eqb (drop_bytes (String.length s - String.length p) s) p.

Definition cut_suffix (p s : string) : option string :=
  if has_suffix p s then Some (take_bytes (String.length s - String.length p) s) else None.

(** [strings.Cut(s, sep)] for a separator of one byte. *)
Fixpoint cut_byte (c : ascii) (s : string) : option (string * string) :=
  match s with
  | EmptyString => None
  | String a s' =>
      if Ascii.eqb a c then Some (EmptyString, s')
      else match cut_byte c s' with
           | Some (l, r) => Some (String a l, r)
           | None => None
           end
  end.

(** [strings.Contains(s, sub)]. *)
Fixpoint contains_str (sub s : string) : bool :=
  has_prefix sub s ||
  match s with
  | EmptyString => false
  | String _ s' => contains_str sub s'
  end.

(** [strings.LastIndex(s, sub)], the byte offset of the last occurrence. *)
Fixpoint last_index (sub s : string) : option nat :=
  match s with
  | EmptyString => if has_prefix sub s then Some 0%nat else None
  | String _ s' =>
      match last_index sub s' with
      | Some n => Some (S n)
      | None => if has_prefix sub s then Some 0%nat else None
      end
  end.

(** [strings.Split(s, sep)] for a separator of one byte. *)
Fixpoint split_byte (c : ascii) (s : string) : list string :=
  match s with
  | EmptyString => [EmptyString]
  | String a s' =>
      if Ascii.eqb a c then EmptyString :: split_byte c s'
      else match split_byte c s' with
           | [] => [String a EmptyString]
           | p :: ps => String a p :: ps
           end
  end.

(** [strings.Join(l, sep)]. *)
Fixpoint join_str (sep : string) (l : list string) : string :=
  match l with
  | [] => EmptyString
  | [x] => x
  | x :: l' => x +:+ sep +:+ join_str sep l'
  end.

(** ** White space and case *)

Definition bytes_str (l : list nat) : string :=
  string_of_list_ascii (List.map ascii_of_nat l).

(** The UTF-8 encodings of the characters [unicode.IsSpace] accepts. *)
Definition space_encodings : list string :=
  List.map bytes_str
    ([[9]; [10]; [11]; [12]; [13]; [32]; [194; 133]; [194; 160]; [225; 154; 128]]%nat ++
     List.map (fun n => [226; 128; 128 + n]%nat) (seq 0 11) ++
     [[226; 128; 168]; [226; 128; 169]; [226; 128; 175]; [226; 129; 159]; [227; 128; 128]]%nat).

Definition strip_one_left (s : string) : option string :=
  match List.find (fun e => has_prefix e s) space_encodings with
  | Some e => Some (drop_bytes (String.length e) s)
  | None => None
  end.

Definition strip_one_right (s : string) : option string :=
  match List.find (fun e => has_suffix e s) space_encodings with
  | Some e => Some (take_bytes (String.length s - String.length e) s)
  | None => None
  end.

(** Each round removes at least one byte, so as many rounds as there are bytes
    are enough. *)
Fixpoint strip_rounds (f : string -> option string) (fuel : nat) (s : string) : string :=
  match fuel with
  | O => s
  | S n => match f s with Some s' => strip_rounds f n s' | None => s end
  end.

(** [strings.TrimSpace]. *)
Definition trim_space (s : string) : string :=
  let l := strip_rounds strip_one_left (String.length s) s in
  strip_rounds strip_one_right (String.length l) l.

Definition lower_ascii (c : ascii) : ascii :=
  let n := nat_of_ascii c in
  if ((65 <=? n) && (n <=? 90))%nat then ascii_of_nat (n + 32) else c.

(** [strings.ToLower], on ASCII letters. *)
Fixpoint to_lower (s : string) : string :=
  match s with
  | EmptyString => EmptyString
  | String c s' => String (lower_ascii c) (to_lower s')
  end.

(** [strings.EqualFold], on ASCII letters. *)
Definition equal_fold (a b : string) : bool := String.eqb (to_lower a) (to_lower b).

(** ** The byte-wise order on strings

    Go's [<] on strings compares bytes, as [String.compare] does. *)

Definition str_lt (a b : string) : Prop := String.compare a b = Lt.
Definition str_le (a b : string) : Prop := String.compare a b <> Gt.

#[export] Instance str_lt_dec a b : Decision (str_lt a b).
Proof. unfold str_lt. solve_decision. Defined.
#[export] Instance str_le_dec a b : Decision (str_le a b).
Proof. unfold str_le. apply _. Defined.

(** The sort order of [slices.Sort]. *)
Fixpoint insert_str (x : string) (l : list string) : list string :=
  match l with
  | [] => [x]
  | y :: l' => if String.leb x y then x :: l else y :: insert_str x l'
  end.

(** [slices.Sort]: equal strings are indistinguishable, so the sorted
    arrangement of a slice of strings is unique and any algorithm computes it. *)
Fixpoint sort_str (l : list string) : list string :=
  match l with
  | [] => []
  | x :: l' => insert_str x (sort_str l')
  end.

(** [slices.Compact]: drops an element equal to the one before it. *)
Fixpoint compact_from (prev : string) (l : list string) : list string :=
  match l with
  | [] => []
  | x :: l' => if String.eqb prev x then compact_from prev l' else x :: compact_from x l'
  end.

Definition compact_str (l : list string) : list string :=
  match l with
  | [] => []
  | x :: l' => x :: compact_from x l'
  end.

(** [slices.BinarySearch]: the loop of the standard library, with the
    half-open interval [i, j) as its state and its length as a measure. *)
Fixpoint search_loop (fuel : nat) (l : list string) (target : string) (i j : nat) : nat :=
  match fuel with
  | O => i
  | S n =>
      if (i <? j)%nat then
        let h := ((i + j) / 2)%nat in
        if String.ltb (nth h l EmptyString) target
        then search_loop n l target (h + 1) j
        else search_loop n l target i h
      else i
  end.

Definition binary_search (l : list string) (target : string) : bool :=
  let i := search_loop (List.length l) l target 0 (List.length l) in
  (i <? List.length l)%nat && String.eqb (nth i l EmptyString) target.

(** ** The order is total *)

Lemma str_app_cons x a b : String x a +:+ b = String x (a +:+ b).
Proof. reflexivity. Qed.

Lemma str_app_assoc a b c : (a +:+ b) +:+ c = a +:+ (b +:+ c).
Proof. induction a as [|x a IH]; [done|]. exact (f_equal (String x) IH). Qed.

Lemma str_app_nil a : a +:+ "" = a.
Proof. induction a as [|x a IH]; [done|]. exact (f_equal (String x) IH). Qed.

Lemma str_app_length a b : String.length (a +:+ b) = (String.length a + String.length b)%nat.
Proof. induction a as [|x a IH]; [done|]. exact (f_equal S IH). Qed.

Lemma compare_lt_trans a b c : str_lt a b -> str_lt b c -> str_lt a c.
Proof.
  unfold str_lt. revert b c.
  induction a as [|x a IH]; intros [|y b] [|z c]; simpl; try congruence.
  unfold Ascii.compare.
  destruct (N.compare_spec (N_of_ascii x) (N_of_ascii y)) as [E1|L1|]; try congruence;
  destruct (N.compare_spec (N_of_ascii y) (N_of_ascii z)) as [E2|L2|]; try congruence;
  intros H1 H2.
  - rewrite E1, E2, N.compare_refl. eauto.
  - rewrite E1. apply N.compare_lt_iff in L2 as ->. done.
  - rewrite <- E2. apply N.compare_lt_iff in L1 as ->. done.
  - assert (N_of_ascii x < N_of_ascii z)%N as ->%N.compare_lt_iff by lia. done.
Qed.

Lemma compare_refl_eq a : String.compare a a = Eq.
Proof.
  induction a as [|x a IH]; simpl; [done|].
  unfold Ascii.compare. by rewrite N.compare_refl.
Qed.

Lemma str_lt_irrefl a : ~ str_lt a a.
Proof. unfold str_lt. by rewrite compare_refl_eq. Qed.

Lemma str_le_lt_or_eq a b : str_le a b <-> str_lt a b \/ a = b.
Proof.
  unfold str_le, str_lt. destruct (String.compare a b) eqn:E.
  - apply String.compare_eq_iff in E. subst. naive_solver.
  - naive_solver.
  - split; [naive_solver|]. intros [| ->]; [done|]. by rewrite compare_refl_eq in E.
Qed.

Lemma str_le_trans a b c : str_le a b -> str_le b c -> str_le a c.
Proof.
  rewrite !str_le_lt_or_eq. intros [H1|<-] [H2|<-]; eauto using compare_lt_trans.
Qed.

Lemma str_lt_not_le a b : str_lt a b <-> ~ str_le b a.
Proof.
  unfold str_lt, str_le. rewrite (String.compare_antisym b a).
  destruct (String.compare a b); simpl; naive_solver.
Qed.

Lemma leb_str_le a b : String.leb a b = true <-> str_le a b.
Proof. unfold String.leb, str_le. destruct (String.compare a b); naive_solver. Qed.

Lemma ltb_str_lt a b : String.ltb a b = true <-> str_lt a b.
Proof. unfold String.ltb, str_lt. destruct (String.compare a b); naive_solver. Qed.

Lemma leb_false_lt a b : String.leb a b = false -> str_lt b a.
Proof.
  intros H. apply str_lt_not_le. intros Hle%leb_str_le. congruence.
Qed.

#[export] Instance str_le_transitive : Transitive str_le := str_le_trans.
#[export] Instance str_lt_transitive : Transitive str_lt := compare_lt_trans.
#[export] Hint Resolve str_lt_irrefl compare_lt_trans : fuse.

(** ** Sorting *)

Lemma insert_str_perm x l : Permutation (insert_str x l) (x :: l).
Proof.
  induction l as [|y l IH]; simpl; [done|].
  destruct (String.leb x y); [done|]. rewrite IH. constructor.
Qed.

Lemma sort_str_perm l : Permutation (sort_str l) l.
Proof.
  induction l as [|x l IH]; simpl; [done|]. by rewrite insert_str_perm, IH.
Qed.

Lemma insert_str_sorted x l : StronglySorted str_le l -> StronglySorted str_le (insert_str x l).
Proof.
  induction 1 as [|y l Hs IH Hy]; simpl; [repeat constructor|].
  destruct (String.leb x y) eqn:E.
  - apply leb_str_le in E. constructor; [by constructor|].
    constructor; [done|]. eapply List.Forall_impl; [|exact Hy]. intros z. by apply str_le_trans.
  - constructor; [done|]. apply leb_false_lt in E.
    assert (str_le y x) by (apply str_le_lt_or_eq; auto).
    rewrite (insert_str_perm x l). by constructor.
Qed.

Lemma sort_str_sorted l : StronglySorted str_le (sort_str l).
Proof. induction l; simpl; auto using insert_str_sorted, StronglySorted. Qed.

(** ** Compaction: a sorted slice becomes a strictly sorted one *)

Lemma compact_from_In p l x : In x (compact_from p l) \/ x = p <-> In x l \/ x = p.
Proof.
  revert p. induction l as [|y l IH]; intros p; simpl; [done|].
  destruct (String.eqb_spec p y) as [->|Hne].
  - rewrite IH. naive_solver.
  - simpl. specialize (IH y). naive_solver.
Qed.

Lemma compact_str_In l x : In x (compact_str l) <-> In x l.
Proof.
  destruct l as [|y l]; simpl; [done|].
  pose proof (compact_from_In y l x). naive_solver.
Qed.

Lemma compact_from_sorted p l :
  StronglySorted str_le (p :: l) -> StronglySorted str_lt (p :: compact_from p l).
Proof.
  revert p. induction l as [|y l IH]; intros p Hs; simpl; [repeat constructor|].
  inversion Hs as [|? ? Hs' Hp]; subst. inversion Hp as [|? ? Hpy Hpl]; subst.
  destruct (String.eqb_spec p y) as [->|Hne].
  - by apply IH.
  - specialize (IH _ Hs'). constructor; [done|].
    apply str_le_lt_or_eq in Hpy as [Hlt|]; [|done].
    constructor; [done|].
    inversion IH as [|? ? _ Hall]; subst. eapply List.Forall_impl; [|exact Hall].
    intros z. by apply compare_lt_trans.
Qed.

Lemma compact_str_sorted l : StronglySorted str_le l -> StronglySorted str_lt (compact_str l).
Proof.
  destruct l as [|x l]; simpl; [constructor|]. apply compact_from_sorted.
Qed.

(** [slices.Sort] followed by [slices.Compact]: a strictly sorted slice with
    the same elements. *)
Definition sort_compact (l : list string) : list string := compact_str (sort_str l).

Lemma sort_compact_In l x : In x (sort_compact l) <-> In x l.
Proof.
  unfold sort_compact. rewrite compact_str_In.
  split; apply Permutation_in; [|symmetry]; apply sort_str_perm.
Qed.

Lemma sort_compact_sorted l : StronglySorted str_lt (sort_compact l).
Proof. apply compact_str_sorted, sort_str_sorted. Qed.

#[export] Hint Resolve sort_compact_sorted : fuse.

(** A strictly sorted slice is determined by its elements. *)
Lemma strict_sorted_unique l1 l2 :
  StronglySorted str_lt l1 -> StronglySorted str_lt l2 ->
  (forall x, In x l1 <-> In x l2) -> l1 = l2.
Proof.
  intros H1. revert l2. induction H1 as [|x l1 Hs1 IH Hx]; intros l2 H2 Heq.
  - destruct l2 as [|y l2]; [done|]. destruct (Heq y) as [_ H]. destruct H; simpl; auto.
  - destruct H2 as [|y l2 Hs2 Hy]; [destruct (Heq x) as [H _]; destruct H; simpl; auto|].
    rewrite List.Forall_forall in Hx, Hy.
    assert (x = y) as ->.
    { destruct (Heq x) as [[|Hin] _]; [by left|done|].
      destruct (Heq y) as [_ [|Hin']]; [by left|done|].
      exfalso. apply (str_lt_irrefl x). eauto using compare_lt_trans. }
    f_equal. apply IH; [done|]. intros z.
    split; intros Hz.
    + destruct (proj1 (Heq z) (or_intror Hz)) as [->|]; [|done].
      exfalso. eapply str_lt_irrefl; eauto.
    + destruct (proj2 (Heq z) (or_intror Hz)) as [->|]; [|done].
      exfalso. eapply str_lt_irrefl; eauto.
Qed.

Lemma sort_compact_strict_id l : StronglySorted str_lt l -> sort_compact l = l.
Proof.
  intros H. apply strict_sorted_unique; auto using sort_compact_sorted, sort_compact_In.
Qed.

(** ** Binary search *)

Lemma strict_sorted_nth l i j :
  StronglySorted str_lt l -> (i < j)%nat -> (j < List.length l)%nat ->
  str_lt (nth i l "") (nth j l "").
Proof.
  intros H. revert i j. induction H as [|x l Hs IH Hx]; intros i j Hij Hj; simpl in *; [lia|].
  destruct j as [|j]; [lia|]. destruct i as [|i]; simpl.
  - rewrite List.Forall_forall in Hx. apply Hx, nth_In. lia.
  - apply IH; lia.
Qed.

(** The loop invariant: everything before [i] is below the target, everything
    from [j] on is not. It holds of the result, where the interval is empty. *)
Lemma search_loop_spec fuel l t i j :
  StronglySorted str_lt l -> (j - i <= fuel)%nat -> (i <= j)%nat -> (j <= List.length l)%nat ->
  (forall k, (k < i)%nat -> str_lt (nth k l "") t) ->
  (forall k, (j <= k)%nat -> (k < List.length l)%nat -> ~ str_lt (nth k l "") t) ->
  let r := search_loop fuel l t i j in
  (r <= List.length l)%nat /\
  (forall k, (k < r)%nat -> str_lt (nth k l "") t) /\
  (forall k, (r <= k)%nat -> (k < List.length l)%nat -> ~ str_lt (nth k l "") t).
Proof.
  intros Hs. revert i j.
  induction fuel as [|n IH]; intros i j Hf Hij Hj Hlo Hhi; cbn [search_loop].
  { assert (i = j) by lia. subst. auto. }
  destruct (Nat.ltb_spec i j) as [Hlt|]; [|assert (i = j) by lia; subst; auto].
  pose proof (Nat.div_mod (i + j) 2 ltac:(lia)) as Hdm.
  pose proof (Nat.mod_upper_bound (i + j) 2 ltac:(lia)).
  set (h := ((i + j) / 2)%nat) in *.
  assert (i <= h < j)%nat by lia.
  destruct (String.ltb (nth h l "") t) eqn:E.
  - apply ltb_str_lt in E. apply IH; try lia; [|done].
    intros k Hk. destruct (Nat.eq_dec k h) as [->|]; [done|].
    eapply compare_lt_trans; [apply (strict_sorted_nth l k h); auto; lia|done].
  - apply IH; try lia; [done|]. intros k Hk Hk' Hlt'.
    assert (str_lt (nth h l "") t); [|by rewrite (proj2 (ltb_str_lt _ _)) in E].
    destruct (Nat.eq_dec k h) as [->|]; [done|].
    eapply compare_lt_trans; [apply (strict_sorted_nth l h k); auto; lia|done].
Qed.

(** What a binary search finds is in the slice, sorted or not. *)
Lemma binary_search_sound l t : binary_search l t = true -> In t l.
Proof.
  unfold binary_search. rewrite andb_true_iff, Nat.ltb_lt, String.eqb_eq.
  intros [Hlt <-]. by apply nth_In.
Qed.

Lemma binary_search_In l t :
  StronglySorted str_lt l -> binary_search l t = true <-> In t l.
Proof.
  intros Hs. split; [apply binary_search_sound|]. intros Hin.
  destruct (In_nth l t "" Hin) as (k & Hk & Hnth).
  unfold binary_search.
  destruct (search_loop_spec (List.length l) l t 0 (List.length l)) as (Hr & Hlo & Hhi);
    auto; try lia.
  set (r := search_loop _ _ _ _ _) in *.
  assert (r = k) as ->.
  { destruct (Nat.lt_trichotomy r k) as [Hlt|[|Hlt]]; [|done|].
    - exfalso. apply (Hhi r); [lia|lia|]. rewrite <- Hnth. apply strict_sorted_nth; auto.
    - exfalso. apply (str_lt_irrefl t). rewrite <- Hnth at 1. auto. }
  rewrite Hnth, String.eqb_refl, andb_true_r. by apply Nat.ltb_lt.
Qed.

(** ** Lengths of prefixes and cuts *)

Lemma has_prefix_length p : forall s, has_prefix p s = true -> (String.length p <= String.length s)%nat.
Proof.
  induction p as [|a p IH]; intros s; cbn; [lia|]. destruct s as [|b s]; [done|].
  intros [_ H]%andb_true_iff. apply IH in H. cbn. lia.
Qed.

Lemma take_bytes_length n : forall s, (String.length (take_bytes n s) <= n)%nat.
Proof. induction n as [|n IH]; intros [|c s]; cbn; try lia. specialize (IH s). lia. Qed.

(** ** Splitting an append *)

Lemma str_app_inj a x y : a +:+ x = a +:+ y -> x = y.
Proof. induction a as [|c a IH]; [done|]. rewrite !str_app_cons. intros [= H]. by apply IH. Qed.

Lemma str_app_split a b x y :
  String.length a = String.length b -> a +:+ x = b +:+ y -> a = b /\ x = y.
Proof.
  revert b. induction a as [|c a IH]; intros [|d b] H E; simpl in H; try done.
  rewrite !str_app_cons in E. injection E as -> E. injection H as H.
  destruct (IH b H E) as [-> ->]. done.
Qed.

(** Two appends that agree, neither tail holding the byte, cut at it alike. *)
Lemma str_app_last_byte c a b x y :
  (forall n, String.get n x <> Some c) -> (forall n, String.get n y <> Some c) ->
  a +:+ String c x = b +:+ String c y -> a = b /\ x = y.
Proof.
  intros Hx Hy. revert b. induction a as [|d a IH]; intros [|e b] E.
  - by injection E.
  - rewrite str_app_cons in E. injection E as <- E. destruct (Hx (String.length b)). rewrite E.
    clear. induction b as [|f b IH]; simpl; [done|]. apply IH.
  - rewrite str_app_cons in E. injection E as -> E. destruct (Hy (String.length a)). rewrite <- E.
    clear. induction a as [|f a IH]; simpl; [done|]. apply IH.
  - rewrite !str_app_cons in E. injection E as -> E. by destruct (IH b E) as [-> ->].
Qed.

(** ** Trimming twice *)

Lemma drop_bytes_length n : forall s, String.length (drop_bytes n s) = (String.length s - n)%nat.
Proof. induction n as [|n IH]; intros [|c s]; cbn; auto. Qed.

Lemma has_prefix_take p : forall k s, has_prefix p (take_bytes k s) = true -> has_prefix p s = true.
Proof.
  induction p as [|a p IH]; intros [|k] [|b s]; cbn; try done.
  intros [-> H]%andb_true_iff. cbn. by eapply IH.
Qed.

Lemma take_take n : forall k s, exists j, take_bytes n (take_bytes k s) = take_bytes j s.
Proof.
  induction n as [|n IH]; intros [|k] [|c s]; cbn; try (by exists 0%nat).
  destruct (IH k s) as [j Hj]. exists (S j). cbn. by rewrite Hj.
Qed.

Lemma space_nonempty e : In e space_encodings -> (0 < String.length e)%nat.
Proof.
  assert (H : forallb (fun e => (0 <? String.length e)%nat) space_encodings = true) by (vm_compute; reflexivity).
  rewrite List.forallb_forall in H. intros He. by apply Nat.ltb_lt, H.
Qed.

Lemma strip_left_shorter s s' : strip_one_left s = Some s' -> (String.length s' < String.length s)%nat.
Proof.
  unfold strip_one_left. destruct (List.find _ _) as [e|] eqn:E; [|done]. intros [= <-].
  apply List.find_some in E as [Hin Hp]. apply has_prefix_length in Hp. apply space_nonempty in Hin.
  rewrite drop_bytes_length. lia.
Qed.

Lemma strip_right_shorter s s' : strip_one_right s = Some s' -> (String.length s' < String.length s)%nat.
Proof.
  unfold strip_one_right. destruct (List.find _ _) as [e|] eqn:E; [|done]. intros [= <-].
  apply List.find_some in E as [Hin Hs]. apply space_nonempty in Hin. unfold has_suffix in Hs.
  apply andb_true_iff in Hs as [Hl%Nat.leb_le _].
  pose proof (take_bytes_length (String.length s - String.length e) s). lia.
Qed.

Section Strip.
Context (f : string -> option string).
Hypothesis shorter : forall s s', f s = Some s' -> (String.length s' < String.length s)%nat.

Lemma strip_rounds_done n : forall s, (String.length s <= n)%nat -> f (strip_rounds f n s) = None.
Proof.
  induction n as [|n IH]; intros s Hn; cbn; destruct (f s) as [s'|] eqn:E; try done.
  - apply shorter in E. lia.
  - apply shorter in E. apply IH. lia.
Qed.

Lemma strip_rounds_still n s : f s = None -> strip_rounds f n s = s.
Proof. intros H. destruct n; cbn; [done|]. by rewrite H. Qed.
End Strip.

Lemma strip_right_prefix n : forall s, exists k, strip_rounds strip_one_right n s = take_bytes k s.
Proof.
  assert (Hall : forall s, take_bytes (String.length s) s = s) by (induction s; cbn; congruence).
  induction n as [|n IH]; intros s; cbn; [exists (String.length s); by rewrite Hall|].
  unfold strip_one_right at 1. destruct (List.find _ _) as [e|] eqn:E; [|exists (String.length s); by rewrite Hall].
  destruct (IH (take_bytes (String.length s - String.length e) s)) as [k ->]. apply take_take.
Qed.

Lemma trim_space_idem s : trim_space (trim_space s) = trim_space s.
Proof.
  set (l := strip_rounds strip_one_left (String.length s) s).
  assert (Hl : strip_one_left l = None) by (apply strip_rounds_done; [apply strip_left_shorter|lia]).
  set (r := strip_rounds strip_one_right (String.length l) l).
  assert (Hr : strip_one_right r = None) by (apply strip_rounds_done; [apply strip_right_shorter|lia]).
  assert (Hrl : strip_one_left r = None).
  { destruct (strip_right_prefix (String.length l) l) as [k Hk]. fold r in Hk. unfold strip_one_left in Hl |- *.
    destruct (List.find (fun e => has_prefix e l) space_encodings) eqn:El; [done|].
    destruct (List.find (fun e => has_prefix e r) space_encodings) as [e|] eqn:Er; [|done].
    apply List.find_some in Er as [Hin Hp]. rewrite Hk in Hp. apply has_prefix_take in Hp.
    by rewrite (List.find_none _ _ El e Hin) in Hp. }
  change (trim_space s) with r. unfold trim_space. cbv zeta.
  by rewrite (strip_rounds_still _ _ _ Hrl), (strip_rounds_still _ _ _ Hr).
Qed.

(** * Sorting a slice by a comparison

    What the code uses of [slices.SortFunc] and [sort.Slice]: insertion by a
    strict order, which is what sorting gives when no two different elements
    compare equal, whatever order a range over a map visited them in. *)

Local Close Scope string_scope.

Fixpoint insert_by {A} (before : A -> A -> bool) (x : A) (l : list A) : list A :=
  match l with
  | [] => [x]
  | y :: l' => if before x y then x :: l else y :: insert_by before x l'
  end.

Fixpoint sort_by {A} (before : A -> A -> bool) (l : list A) : list A :=
  match l with
  | [] => []
  | x :: l' => insert_by before x (sort_by before l')
  end.

Lemma insert_by_perm {A} (f : A -> A -> bool) x l : insert_by f x l ≡ₚ x :: l.
Proof.
  induction l as [|y l IH]; simpl; [done|]. destruct (f x y); [done|]. rewrite IH. constructor.
Qed.

Lemma sort_by_perm {A} (f : A -> A -> bool) l : sort_by f l ≡ₚ l.
Proof. induction l as [|x l IH]; simpl; [done|]. by rewrite insert_by_perm, IH. Qed.

Section SortBy.
Context {A : Type} (before : A -> A -> bool).
Hypothesis asym : forall x y, before x y = true -> before y x = false.
Hypothesis trans : forall x y z, before y x = false -> before z y = false -> before z x = false.

Local Abbreviation ordered := (StronglySorted (fun x y => before y x = false)).

Lemma insert_by_sorted x l : ordered l -> ordered (insert_by before x l).
Proof.
  induction 1 as [|y l H IH Hy]; simpl; [repeat constructor|].
  destruct (before x y) eqn:E.
  - constructor; [by constructor|]. constructor; [by apply asym|].
    eapply List.Forall_impl; [|exact Hy]. intros z Hz. apply (trans x y z); [by apply asym|done].
  - constructor; [done|]. apply list.Forall_forall. intros z Hz.
    rewrite insert_by_perm in Hz. apply elem_of_cons in Hz as [->|Hz]; [done|].
    rewrite list.Forall_forall in Hy. by apply Hy.
Qed.

Lemma sort_by_sorted l : ordered (sort_by before l).
Proof. induction l; simpl; [constructor|]. by apply insert_by_sorted. Qed.

Lemma sort_by_visit l l' :
  (forall x y, x ∈ l -> y ∈ l -> before x y = false -> before y x = false -> x = y) ->
  l ≡ₚ l' -> sort_by before l = sort_by before l'.
Proof.
  intros Hu Hp. apply (StronglySorted_unique_strong (fun x y => before y x = false));
    [|apply sort_by_sorted..|by rewrite !sort_by_perm].
  intros x y Hx Hy H1 H2. rewrite sort_by_perm in Hx. rewrite sort_by_perm, <- Hp in Hy.
  by apply Hu.
Qed.
End SortBy.

Lemma insert_by_ext {A} (f g : A -> A -> bool) x l :
  (forall y, y ∈ l -> f x y = g x y) -> insert_by f x l = insert_by g x l.
Proof.
  induction l as [|y l IH]; intros H; simpl; [done|]. rewrite (H y) by left.
  destruct (g x y); [done|]. f_equal. apply IH. intros z Hz. apply H. by right.
Qed.

Lemma sort_by_ext {A} (f g : A -> A -> bool) l :
  (forall x y, x ∈ l -> y ∈ l -> f x y = g x y) -> sort_by f l = sort_by g l.
Proof.
  induction l as [|x l IH]; intros H; simpl; [done|].
  rewrite IH by (intros y z Hy Hz; apply H; by right).
  apply insert_by_ext. intros y Hy. rewrite sort_by_perm in Hy. apply H; [left|by right].
Qed.

(** The first [n] of a sorted slice and the rest of it. *)
Lemma sort_by_cut {A} (before : A -> A -> bool) l n :
  (forall x y, before x y = true -> before y x = false) ->
  (forall x y z, before y x = false -> before z y = false -> before z x = false) ->
  let first := take n (sort_by before l) in let rest := drop n (sort_by before l) in
  first ++ rest ≡ₚ l /\ StronglySorted (fun x y => before y x = false) first /\
  forall x y, x ∈ first -> y ∈ rest -> before y x = false.
Proof.
  intros Ha Ht first rest. pose proof (sort_by_sorted before Ha Ht l) as Hs.
  assert (E : sort_by before l = first ++ rest) by (symmetry; apply take_drop).
  split; [by rewrite <- E, sort_by_perm|]. rewrite E in Hs. split.
  - by apply StronglySorted_app_1_l in Hs.
  - intros x y Hx Hy. by eapply StronglySorted_app_1_elem_of in Hs.
Qed.

Lemma filter_bool_perm {A} (f : A -> bool) (l l' : list A) :
  l ≡ₚ l' -> List.filter f l ≡ₚ List.filter f l'.
Proof.
  induction 1; simpl; [done| | |by etransitivity]; [destruct (f x); [by constructor|done]|].
  destruct (f x), (f y); try done. constructor.
Qed.

Local Open Scope string_scope.

(** ** Lexicographic orders *)

(** By a list of keys, the least first; ties go by name. *)
Fixpoint lex_before (x y : list Z) (i j : string) : bool :=
  match x, y with
  | a :: x, b :: y => if Z.eqb a b then lex_before x y i j else (a <? b)%Z
  | _, _ => String.ltb i j
  end.

Lemma lex_asym x : forall y i j, lex_before x y i j = true -> lex_before y x j i = false.
Proof.
  induction x as [|a x IH]; intros [|b y] i j; simpl; intros H;
    try (apply ltb_str_lt in H; destruct (String.ltb j i) eqn:E; [|done]; apply ltb_str_lt in E;
         exfalso; apply (str_lt_irrefl i); by eapply compare_lt_trans).
  rewrite (Z.eqb_sym b a). destruct (Z.eqb_spec a b) as [->|]; [by apply IH|]. lia.
Qed.

Lemma ltb_false_le i j : String.ltb i j = false -> str_le j i.
Proof.
  intros H. apply str_le_lt_or_eq. unfold String.ltb in H.
  rewrite String.compare_antisym in H. unfold str_lt.
  destruct (String.compare j i) eqn:E; simpl in H; [|by left|done].
  right. by apply String.compare_eq_iff.
Qed.

Lemma lex_trans x : forall y z i j k, List.length x = List.length y -> List.length y = List.length z ->
  lex_before y x j i = false -> lex_before z y k j = false -> lex_before z x k i = false.
Proof.
  induction x as [|a x IH]; intros [|b y] [|c z] i j k; simpl; try done; intros L1 L2 H1 H2.
  - apply ltb_false_le in H1, H2. destruct (String.ltb k i) eqn:E; [|done].
    apply ltb_str_lt, str_lt_not_le in E. exfalso. apply E. by eapply str_le_trans.
  - destruct (Z.eqb_spec b a), (Z.eqb_spec c b), (Z.eqb_spec c a); try lia.
    eapply IH; [..|exact H1|exact H2]; lia.
Qed.

Lemma lex_total x : forall y i j, List.length x = List.length y ->
  lex_before x y i j = false -> lex_before y x j i = false -> i = j.
Proof.
  induction x as [|a x IH]; intros [|b y] i j; simpl; try done; intros L H1 H2.
  - apply ltb_false_le in H1, H2. apply str_le_lt_or_eq in H1 as [H1|]; [|done].
    apply str_lt_not_le in H1. by exfalso.
  - rewrite (Z.eqb_sym b a) in H2. destruct (Z.eqb_spec a b) as [->|]; [|lia]. eapply IH; [..|done|done]. lia.
Qed.
