(* ===== verification/Json.v ===== *)
(** * JSON documents

    What the program uses of [encoding/json]: the grammar [json.Valid] and
    [Decoder.Decode] accept, decoding with [UseNumber] (a number is its
    literal), [json.Marshal] of a decoded document, and [CanonicalJSON] and
    [CanonicalCallArguments] of src/internal/domain on top of them. Documents
    are byte strings; the nesting limit of the decoder (10000) is not modelled. *)

From Stdlib Require Import ZArith Lia Ascii String DecimalString DecimalZ.
From stdpp Require Import base list strings gmap.
From S2P Require Import Prelude GoStrings.

Local Open Scope string_scope.

(** A decoded document. The fields of an object are in document order. *)
Inductive json : Type :=
| JNull
| JBool (b : bool)
| JNum (lit : string)
| JStr (s : string)
| JArr (l : list json)
| JObj (fields : list (string * json)).

(** ** Bytes *)

Definition byte_of (c : ascii) : N := N_of_ascii c.
Definition chr (n : N) : string := String (ascii_of_N n) EmptyString.
Definition between (lo hi n : N) : bool := ((lo <=? n) && (n <=? hi))%N.
Definition is_digit (c : ascii) : bool := between 48%N 57%N (byte_of c).
Definition is_ws (c : ascii) : bool :=
  let n := byte_of c in ((n =? 32) || (n =? 9) || (n =? 10) || (n =? 13))%N.

Definition hex_val (c : ascii) : option N :=
  let n := byte_of c in
  if between 48%N 57%N n then Some (n - 48)%N
  else if between 97%N 102%N n then Some (n - 87)%N
  else if between 65%N 70%N n then Some (n - 55)%N
  else None.

Definition hex4 (s : string) : option (N * string) :=
  match s with
  | String a (String b (String c (String d rest))) =>
      match hex_val a, hex_val b, hex_val c, hex_val d with
      | Some a, Some b, Some c, Some d =>
          Some ((((a * 16 + b) * 16 + c) * 16 + d)%N, rest)
      | _, _, _, _ => None
      end
  | _ => None
  end.

(** UTF-8 of a code point below 2^21. *)
Definition utf8 (r : N) : string :=
  if (r <? 128)%N then chr r
  else if (r <? 2048)%N then chr (192 + r / 64)%N +:+ chr (128 + r mod 64)%N
  else if (r <? 65536)%N then
    chr (224 + r / 4096)%N +:+ chr (128 + (r / 64) mod 64)%N +:+ chr (128 + r mod 64)%N
  else
    chr (240 + r / 262144)%N +:+ chr (128 + (r / 4096) mod 64)%N
      +:+ chr (128 + (r / 64) mod 64)%N +:+ chr (128 + r mod 64)%N.

Definition replacement : string := utf8 65533%N.

(** The length of the valid multi-byte encoding at the head of a string: no
    overlong form, no surrogate, nothing above U+10FFFF. *)
Definition rune_len (s : string) : option nat :=
  match s with
  | String a rest =>
      let x := byte_of a in
      let nth k := match String.get k rest with Some c => byte_of c | None => 0%N end in
      let cont k := between 128%N 191%N (nth k) in
      if between 194%N 223%N x then (if cont 0%nat then Some 2%nat else None)
      else if between 224%N 239%N x then
        let lo := if (x =? 224)%N then 160%N else 128%N in
        let hi := if (x =? 237)%N then 159%N else 191%N in
        if between lo hi (nth 0%nat) && cont 1%nat then Some 3%nat else None
      else if between 240%N 244%N x then
        let lo := if (x =? 240)%N then 144%N else 128%N in
        let hi := if (x =? 244)%N then 143%N else 191%N in
        if between lo hi (nth 0%nat) && cont 1%nat && cont 2%nat then Some 4%nat else None
      else None
  | EmptyString => None
  end.

(** ** Decoding *)

Fixpoint skip_ws (s : string) : string :=
  match s with
  | String c s' => if is_ws c then skip_ws s' else s
  | EmptyString => EmptyString
  end.

Fixpoint take_digits (s : string) : string * string :=
  match s with
  | String c s' =>
      if is_digit c then let '(d, r) := take_digits s' in (String c d, r) else (EmptyString, s)
  | EmptyString => (EmptyString, EmptyString)
  end.

Definition cut_char (c : ascii) (s : string) : option string :=
  match s with
  | String a r => if Ascii.eqb a c then Some r else None
  | EmptyString => None
  end.

(** [[.][0-9]+]: absent, or at least one digit. *)
Definition scan_fraction (s : string) : option (string * string) :=
  match cut_char "." s with
  | Some r =>
      let '(d, r') := take_digits r in
      if String.eqb d "" then None else Some (String "." d, r')
  | None => Some ("", s)
  end.

(** [[eE][+-]?[0-9]+]: absent, or at least one digit. *)
Definition scan_exponent (s : string) : option (string * string) :=
  match s with
  | String e r =>
      if ((byte_of e =? 101) || (byte_of e =? 69))%N then
        let '(sg, r) := match cut_char "+" r, cut_char "-" r with
                        | Some r', _ => ("+", r')
                        | _, Some r' => ("-", r')
                        | _, _ => ("", r)
                        end in
        let '(d, r') := take_digits r in
        if String.eqb d "" then None else Some (String e (sg +:+ d), r')
      else Some ("", s)
  | EmptyString => Some ("", s)
  end.

(** [-? (0 | [1-9][0-9]* ) ([.][0-9]+)? ([eE][+-]?[0-9]+)?] *)
Definition scan_number (s : string) : option (string * string) :=
  let '(sign, s) := match cut_char "-" s with Some r => ("-", r) | None => ("", s) end in
  let '(int, s) := match cut_char "0" s with Some r => ("0", r) | None => take_digits s end in
  if String.eqb int "" then None else
  match scan_fraction s with
  | None => None
  | Some (frac, s) =>
      match scan_exponent s with
      | None => None
      | Some (ex, s) => Some (sign +:+ int +:+ frac +:+ ex, s)
      end
  end.

(** The body of a string literal after its opening quote: the decoded bytes
    and what follows the closing quote. Every round consumes a byte. *)
Fixpoint scan_string (fuel : nat) (s : string) : option (string * string) :=
  match fuel with
  | O => None
  | S n =>
      let emit p r := match scan_string n r with
                      | Some (b, r') => Some (p +:+ b, r')
                      | None => None
                      end in
      match s with
      | EmptyString => None
      | String c rest =>
          let x := byte_of c in
          if (x =? 34)%N then Some (EmptyString, rest)
          else if (x <? 32)%N then None
          else if (x =? 92)%N then
            match rest with
            | String e r =>
                match byte_of e with
                | 34%N => emit (chr 34%N) r
                | 92%N => emit (chr 92%N) r
                | 47%N => emit (chr 47%N) r
                | 98%N => emit (chr 8%N) r
                | 102%N => emit (chr 12%N) r
                | 110%N => emit (chr 10%N) r
                | 114%N => emit (chr 13%N) r
                | 116%N => emit (chr 9%N) r
                | 117%N =>
                    match hex4 r with
                    | None => None
                    | Some (u, r) =>
                        if between 55296%N 56319%N u then
                          match r with
                          | String "\" (String "u" r2) =>
                              match hex4 r2 with
                              | None => None
                              | Some (v, r3) =>
                                  if between 56320%N 57343%N v
                                  then emit (utf8 (65536 + (u - 55296) * 1024 + (v - 56320))%N) r3
                                  else emit replacement r
                              end
                          | _ => emit replacement r
                          end
                        else if between 56320%N 57343%N u then emit replacement r
                        else emit (utf8 u) r
                    end
                | _ => None
                end
            | EmptyString => None
            end
          else if (x <? 128)%N then emit (String c EmptyString) rest
          else match rune_len s with
               | Some k => emit (take_bytes k s) (drop_bytes k s)
               | None => emit replacement rest
               end
      end
  end.

(** One value at the head of the input, after leading white space. *)
Fixpoint scan_value (fuel : nat) (s : string) : option (json * string) :=
  match fuel with
  | O => None
  | S n =>
      let s := skip_ws s in
      match s with
      | EmptyString => None
      | String c rest =>
          if (byte_of c =? 34)%N then
            match scan_string (String.length rest) rest with
            | Some (b, r) => Some (JStr b, r)
            | None => None
            end
          else if Ascii.eqb c "{" then
            match cut_char "}" (skip_ws rest) with
            | Some r => Some (JObj [], r)
            | None => scan_members n [] rest
            end
          else if Ascii.eqb c "[" then
            match cut_char "]" (skip_ws rest) with
            | Some r => Some (JArr [], r)
            | None => scan_items n [] rest
            end
          else match cut_prefix "null" s with
          | Some r => Some (JNull, r)
          | None =>
          match cut_prefix "true" s with
          | Some r => Some (JBool true, r)
          | None =>
          match cut_prefix "false" s with
          | Some r => Some (JBool false, r)
          | None =>
              match scan_number s with
              | Some (lit, r) => Some (JNum lit, r)
              | None => None
              end
          end end end
      end
  end
with scan_items (fuel : nat) (acc : list json) (s : string) : option (json * string) :=
  match fuel with
  | O => None
  | S n =>
      match scan_value n s with
      | None => None
      | Some (v, r) =>
          match cut_char "," (skip_ws r), cut_char "]" (skip_ws r) with
          | Some r', _ => scan_items n (acc ++ [v]) r'
          | _, Some r' => Some (JArr (acc ++ [v]), r')
          | _, _ => None
          end
      end
  end
with scan_members (fuel : nat) (acc : list (string * json)) (s : string)
    : option (json * string) :=
  match fuel with
  | O => None
  | S n =>
      match skip_ws s with
      | String q rest =>
          if (byte_of q =? 34)%N then
            match scan_string (String.length rest) rest with
            | None => None
            | Some (k, r) =>
                match cut_char ":" (skip_ws r) with
                | Some r =>
                    match scan_value n r with
                    | None => None
                    | Some (v, r) =>
                        match cut_char "," (skip_ws r), cut_char "}" (skip_ws r) with
                        | Some r', _ => scan_members n (acc ++ [(k, v)]) r'
                        | _, Some r' => Some (JObj (acc ++ [(k, v)]), r')
                        | _, _ => None
                        end
                    end
                | None => None
                end
            end
          else None
      | EmptyString => None
      end
  end.

(** The first document of a stream, as [Decoder.Decode] reads it, and what is
    left. A nested call always has consumed a byte, so twice the length of the
    input bounds the depth of the recursion. *)
Definition decode_first (s : string) : option (json * string) :=
  scan_value (S (2 * String.length s)) s.

(** [json.Unmarshal] into [any]: one document and nothing else. *)
Definition unmarshal (s : string) : option json :=
  match decode_first s with
  | Some (v, r) => if String.eqb (skip_ws r) "" then Some v else None
  | None => None
  end.

(** [json.Valid]. *)
Definition json_valid (s : string) : bool := bool_decide (is_Some (unmarshal s)).

(** ** Encoding *)

Definition hex_digit (n : N) : string := chr (if (n <? 10)%N then 48 + n else 87 + n)%N.

Definition escape_byte (c : ascii) : string :=
  match byte_of c with
  | 34%N => chr 92%N +:+ chr 34%N
  | 92%N => chr 92%N +:+ chr 92%N
  | 8%N => "\b" | 12%N => "\f" | 10%N => "\n" | 13%N => "\r" | 9%N => "\t"
  | n =>
      if ((n <? 32) || (n =? 60) || (n =? 62) || (n =? 38))%N
      then "\u00" +:+ hex_digit (n / 16)%N +:+ hex_digit (n mod 16)%N
      else String c EmptyString
  end.

(** The escaped bytes of a string: an invalid byte is written [\ufffd], and the
    two line separators are escaped. *)
Fixpoint escape_string (fuel : nat) (s : string) : string :=
  match fuel, s with
  | S n, String c rest =>
      if (byte_of c <? 128)%N then escape_byte c +:+ escape_string n rest
      else match rune_len s with
           | Some k =>
               let r := take_bytes k s in
               (if String.eqb r (utf8 8232%N) then "\u2028"
                else if String.eqb r (utf8 8233%N) then "\u2029" else r)
                 +:+ escape_string n (drop_bytes k s)
           | None => "\ufffd" +:+ escape_string n rest
           end
  | _, _ => EmptyString
  end.

Definition quote_json (s : string) : string :=
  chr 34%N +:+ escape_string (String.length s) s +:+ chr 34%N.

(** A Go map has one entry per key: the last one written stays. *)
Fixpoint insert_field {A} (k : string) (v : A) (l : list (string * A)) : list (string * A) :=
  match l with
  | [] => [(k, v)]
  | (k', v') :: l' =>
      if String.eqb k k' then (k, v) :: l'
      else if String.ltb k k' then (k, v) :: l
      else (k', v') :: insert_field k v l'
  end.

(** Decoding into [map[string]any] and back sorts the keys of every object and
    keeps the last value of a repeated one. *)
Fixpoint sort_keys (j : json) : json :=
  match j with
  | JArr l => JArr (List.map sort_keys l)
  | JObj fs =>
      JObj ((fix go (acc : list (string * json)) (fs : list (string * json)) :=
               match fs with
               | [] => acc
               | (k, v) :: fs' => go (insert_field k (sort_keys v) acc) fs'
               end) [] fs)
  | _ => j
  end.

(** Compact printing in field order. *)
Fixpoint print_json (j : json) : string :=
  match j with
  | JNull => "null"
  | JBool true => "true"
  | JBool false => "false"
  | JNum lit => lit
  | JStr s => quote_json s
  | JArr l => "[" +:+ join_str "," (List.map print_json l) +:+ "]"
  | JObj fs =>
      "{" +:+ join_str "," (List.map (fun '(k, v) => quote_json k +:+ ":" +:+ print_json v) fs)
          +:+ "}"
  end.

(** [json.Marshal] of a document decoded into [any]. *)
Definition marshal_any (j : json) : string := print_json (sort_keys j).

(** ** The two canonical forms of src/internal/domain *)

Definition CanonicalJSON (b : string) : string :=
  if String.eqb b "" then ""
  else match decode_first b with
       | None => b
       | Some (v, _) =>
           let out := marshal_any v in
           if String.eqb out "{}" || String.eqb out "null" then "" else out
       end.

Definition CanonicalCallArguments (raw : string) : string :=
  match decode_first raw with
  | None => raw
  | Some (v, rest) =>
      if String.eqb (skip_ws rest) "" then marshal_any v else raw
  end.

(** A field of an object decoded into a Go map: the last value wins. *)
Fixpoint map_get {A} (k : string) (fs : list (string * A)) : option A :=
  match fs with
  | [] => None
  | (k', v) :: fs' =>
      match map_get k fs' with
      | Some x => Some x
      | None => if String.eqb k k' then Some v else None
      end
  end.

(** ** Decimal integers *)

Definition print_Z (z : Z) : string := NilZero.string_of_int (Z.to_int z).
Definition parse_Z (s : string) : option Z :=
  match NilZero.int_of_string s with
  | Some d => Some (Z.of_int d)
  | None => None
  end.

(** An integer literal decoded into an [int64]: refused out of range. *)
Definition parse_int64 (s : string) : option Z :=
  match parse_Z s with
  | Some z => if in_int64 z then Some z else None
  | None => None
  end.

Lemma parse_print_Z z : parse_Z (print_Z z) = Some z.
Proof.
  unfold parse_Z, print_Z.
  rewrite NilZero.isi; [by rewrite DecimalZ.of_to|..];
    destruct z as [|p|p]; simpl; try discriminate;
    intros [= H]; by apply (DecimalPos.Unsigned.to_uint_nonnil p).
Qed.

Lemma parse_print_int64 z : in_int64 z = true -> parse_int64 (print_Z z) = Some z.
Proof. intros H. unfold parse_int64. by rewrite parse_print_Z, H. Qed.

Lemma print_Z_inj z1 z2 : print_Z z1 = print_Z z2 -> z1 = z2.
Proof. intros H. apply (f_equal parse_Z) in H. rewrite !parse_print_Z in H. congruence. Qed.
