(* ===== verification/JsonFacts.v ===== *)
(** * Printing and scanning agree

    What [json.Marshal] writes, [json.Unmarshal] reads back: strings through
    their escapes, number literals, arrays and objects. The canonical forms of
    src/internal/domain/canonical.go and call_arguments.go rest on it. *)

From Stdlib Require Import ZArith Lia Ascii String Decimal DecimalString DecimalZ DecimalFacts.
From stdpp Require Import base list strings sorting.
From S2P Require Import Prelude GoStrings Json.

Local Open Scope string_scope.

(** ** Valid UTF-8 *)

Fixpoint utf8_from (fuel : nat) (s : string) : bool :=
  match fuel, s with
  | _, EmptyString => true
  | O, _ => false
  | S n, String c rest =>
      if (byte_of c <? 128)%N then utf8_from n rest
      else match rune_len s with
           | Some k => utf8_from n (drop_bytes k s)
           | None => false
           end
  end.

(** [utf8.ValidString]. *)
Definition utf8_valid (s : string) : bool := utf8_from (String.length s) s.

(** A multi-byte encoding is decided by its own bytes. *)
Lemma rune_len_split s k :
  rune_len s = Some k ->
  (2 <= k)%nat /\ (k <= String.length s)%nat /\ s = take_bytes k s +:+ drop_bytes k s /\
  forall t, rune_len (take_bytes k s +:+ t) = Some k /\
    take_bytes k (take_bytes k s +:+ t) = take_bytes k s /\
    drop_bytes k (take_bytes k s +:+ t) = t.
Proof.
  destruct s as [|a s]; [discriminate|]. unfold rune_len at 1.
  destruct (between 194 223 (byte_of a)) eqn:H2;
    [|destruct (between 224 239 (byte_of a)) eqn:H3;
      [|destruct (between 240 244 (byte_of a)) eqn:H4]];
    destruct s as [|b s]; simpl String.get; try (by case_all);
    try (destruct s as [|c s]; simpl String.get; try (by case_all));
    try (destruct s as [|d s]; simpl String.get; try (by case_all)).
  all: repeat case_match; intros; simplify_eq.
  all: rewrite ?andb_false_r in *; try discriminate.
  all: repeat split; cbn [String.length take_bytes drop_bytes]; try lia.
  all: rewrite ?str_app_cons; try reflexivity.
  all: unfold rune_len; rewrite ?H2, ?H3, ?H4; cbn [String.get take_bytes drop_bytes];
    rewrite ?str_app_cons; cbn [String.get take_bytes drop_bytes]; try reflexivity.
  all: by repeat match goal with H : ?x = _ |- context [?x] => rewrite H end.
Qed.

(** ** Strings *)

(** One ASCII byte, escaped or not, is one round of the scanner. *)
Lemma scan_escaped_byte c n t :
  (byte_of c <? 128)%N = true ->
  scan_string (S n) (escape_byte c +:+ t) =
  match scan_string n t with
  | Some (b, r) => Some (String c b, r)
  | None => None
  end.
Proof.
  destruct c as [b0 b1 b2 b3 b4 b5 b6 b7].
  destruct b0, b1, b2, b3, b4, b5, b6, b7; intros H; try discriminate H; reflexivity.
Qed.

(** A multi-byte rune is one round too, escaped or as it is. *)
Lemma scan_escaped_rune s k n t :
  match s with String c _ => (byte_of c <? 128)%N = false | EmptyString => False end ->
  rune_len s = Some k ->
  let r := take_bytes k s in
  scan_string (S n) ((if String.eqb r (utf8 8232%N) then "\u2028"
                      else if String.eqb r (utf8 8233%N) then "\u2029" else r) +:+ t) =
  match scan_string n t with
  | Some (b, rest) => Some (r +:+ b, rest)
  | None => None
  end.
Proof.
  intros Hc Hk r. pose proof (rune_len_split _ _ Hk) as (H2 & Hlen & _ & Hsplit).
  destruct (String.eqb_spec r (utf8 8232%N)) as [->|_]; [reflexivity|].
  destruct (String.eqb_spec r (utf8 8233%N)) as [->|_]; [reflexivity|].
  destruct (Hsplit t) as (Hr & Ht & Hd). fold r in Hr, Ht, Hd.
  destruct s as [|c s]; [done|]. destruct k as [|k]; [lia|].
  assert (Hhead : r +:+ t = String c (take_bytes k s +:+ t)) by reflexivity.
  rewrite Hhead in *. cbn [scan_string].
  assert (Hx : (128 <= byte_of c)%N) by (by apply N.ltb_ge).
  destruct (N.eqb_spec (byte_of c) 34); [lia|].
  destruct (N.ltb_spec (byte_of c) 32); [lia|].
  destruct (N.eqb_spec (byte_of c) 92); [lia|].
  destruct (N.ltb_spec (byte_of c) 128); [lia|].
  by rewrite Hr, Ht, Hd.
Qed.

Lemma scan_string_escape n : forall s fuel rest,
  utf8_from n s = true -> (String.length s < fuel)%nat ->
  scan_string fuel (escape_string n s +:+ chr 34%N +:+ rest) = Some (s, rest).
Proof.
  induction n as [|n IH]; intros s fuel rest Hu Hf.
  - destruct s; [|discriminate]. destruct fuel; [simpl in Hf; lia|reflexivity].
  - destruct s as [|c s]; [destruct fuel; [simpl in Hf; lia|reflexivity]|].
    destruct fuel as [|fuel]; [lia|]. cbn [utf8_from escape_string String.length] in *.
    destruct (byte_of c <? 128)%N eqn:Hc.
    + rewrite str_app_assoc, scan_escaped_byte by done. rewrite IH by (done || lia). reflexivity.
    + destruct (rune_len (String c s)) as [k|] eqn:Hk; [|done].
      pose proof (rune_len_split _ _ Hk) as (H2 & Hlen & Hs & _).
      rewrite str_app_assoc, scan_escaped_rune by done.
      rewrite IH; [by rewrite <- Hs|done|].
      assert (Hl := f_equal String.length Hs). rewrite str_app_length in Hl.
      assert (String.length (take_bytes k (String c s)) <> 0%nat); [|simpl in *; lia].
      destruct k as [|k]; [lia|]. simpl. lia.
Qed.

Lemma escape_byte_length c : (1 <= String.length (escape_byte c))%nat.
Proof.
  destruct c as [[] [] [] [] [] [] [] []]; vm_compute; lia.
Qed.

Lemma escaped_rune_length r :
  (String.length r <=
   String.length (if String.eqb r (utf8 8232) then "\u2028"
                  else if String.eqb r (utf8 8233) then "\u2029" else r))%nat.
Proof.
  destruct (String.eqb_spec r (utf8 8232)) as [->|_]; [vm_compute; lia|].
  destruct (String.eqb_spec r (utf8 8233)) as [->|_]; [vm_compute; lia|done].
Qed.

Lemma escape_string_length n : forall s,
  utf8_from n s = true -> (String.length s <= String.length (escape_string n s))%nat.
Proof.
  induction n as [|n IH]; intros [|c s] Hu; try done.
  cbn [utf8_from escape_string] in *. destruct (byte_of c <? 128)%N eqn:Hc.
  - rewrite str_app_length. specialize (IH _ Hu). pose proof (escape_byte_length c).
    cbn [String.length]. lia.
  - destruct (rune_len (String c s)) as [k|] eqn:Hk; [|done]. specialize (IH _ Hu).
    pose proof (rune_len_split _ _ Hk) as (_ & _ & Hs & _).
    apply (f_equal String.length) in Hs. rewrite str_app_length in *. rewrite Hs.
    pose proof (escaped_rune_length (take_bytes k (String c s))). lia.
Qed.

Lemma quote_scanned s rest :
  utf8_valid s = true ->
  exists body, quote_json s +:+ rest = String (ascii_of_N 34) body /\
    scan_string (String.length body) body = Some (s, rest).
Proof.
  intros Hu. exists (escape_string (String.length s) s +:+ chr 34%N +:+ rest). split.
  - unfold quote_json. by rewrite !str_app_assoc.
  - apply scan_string_escape; [done|]. rewrite !str_app_length.
    pose proof (escape_string_length _ _ Hu). cbn [String.length chr]. lia.
Qed.

(** ** Numbers *)

(** What follows a value in a printed document. *)
Definition delimited (rest : string) : bool :=
  match rest with
  | EmptyString => true
  | String c _ => existsb (Ascii.eqb c) [","; "]"; "}"]%char
  end.

Definition number_ok (lit : string) : bool :=
  match scan_number lit with
  | Some (l, r) => String.eqb l lit && String.eqb r ""
  | None => false
  end.

Lemma delimited_digit rest : delimited rest = true -> take_digits rest = ("", rest).
Proof.
  destruct rest as [|c rest]; [done|]. cbn [delimited existsb]. rewrite !orb_true_iff.
  intros [H|[H|[H|H]]]; try discriminate H; apply Ascii.eqb_eq in H; by subst.
Qed.

Lemma take_digits_app s rest d r :
  delimited rest = true -> take_digits s = (d, r) ->
  take_digits (s +:+ rest) = (d, r +:+ rest).
Proof.
  intros Hd. revert d r. induction s as [|c s IH]; intros d r; cbn [take_digits].
  - intros [= <- <-]. exact (delimited_digit _ Hd).
  - rewrite str_app_cons. cbn [take_digits]. destruct (is_digit c).
    + destruct (take_digits s) as [d' r']. rewrite (IH _ _ eq_refl). by intros [= <- <-].
    + by intros [= <- <-].
Qed.

Lemma delimited_cut c rest :
  delimited rest = true -> existsb (Ascii.eqb c) [","; "]"; "}"]%char = false ->
  cut_char c rest = None.
Proof.
  destruct rest as [|a rest]; [done|]. cbn [delimited cut_char].
  destruct (Ascii.eqb_spec a c) as [->|]; [congruence|done].
Qed.

Lemma cut_char_app c s rest :
  delimited rest = true -> existsb (Ascii.eqb c) [","; "]"; "}"]%char = false ->
  cut_char c (s +:+ rest) = option_map (fun r => r +:+ rest) (cut_char c s).
Proof.
  intros Hd Hc. destruct s as [|a s]; [exact (delimited_cut _ _ Hd Hc)|].
  rewrite str_app_cons. cbn [cut_char]. by destruct (Ascii.eqb a c).
Qed.

Lemma scan_fraction_app s rest f r :
  delimited rest = true -> scan_fraction s = Some (f, r) ->
  scan_fraction (s +:+ rest) = Some (f, r +:+ rest).
Proof.
  intros Hd. unfold scan_fraction. rewrite cut_char_app by done.
  destruct (cut_char "." s) as [s'|]; cbn [option_map]; [|by intros [= <- <-]].
  destruct (take_digits s') as [d r'] eqn:Ht. rewrite (take_digits_app _ _ _ _ Hd Ht).
  destruct (String.eqb d ""); [done|]. by intros [= <- <-].
Qed.

Lemma scan_exponent_app s rest e r :
  delimited rest = true -> scan_exponent s = Some (e, r) ->
  scan_exponent (s +:+ rest) = Some (e, r +:+ rest).
Proof.
  intros Hd. destruct s as [|c s]; cbn [scan_exponent].
  - intros [= <- <-]. change ("" +:+ rest) with rest. destruct rest as [|c rest]; [done|].
    cbn [delimited existsb] in Hd. rewrite !orb_true_iff in Hd.
    destruct Hd as [H|[H|[H|H]]]; try discriminate H; apply Ascii.eqb_eq in H; by subst.
  - rewrite str_app_cons. cbn [scan_exponent].
    destruct ((byte_of c =? 101) || (byte_of c =? 69))%N; [|by intros [= <- <-]].
    rewrite !cut_char_app by done.
    destruct (cut_char "+" s) as [s'|]; cbn [option_map];
      [|destruct (cut_char "-" s) as [s'|]; cbn [option_map]];
      match goal with |- context [take_digits ?x] => destruct (take_digits x) as [d r'] eqn:Ht end;
      rewrite (take_digits_app _ _ _ _ Hd Ht); (destruct (String.eqb d ""); [done|]);
      by intros [= <- <-].
Qed.

(** A printed literal is scanned back up to whatever delimits it. *)
Lemma scan_number_app lit rest :
  number_ok lit = true -> delimited rest = true ->
  scan_number (lit +:+ rest) = Some (lit, rest).
Proof.
  unfold number_ok. intros H Hd.
  destruct (scan_number lit) as [[l r]|] eqn:E; [|done].
  bsimp. destruct H as [-> ->]. revert E. unfold scan_number. rewrite cut_char_app by done.
  destruct (cut_char "-" lit) as [s|]; cbn [option_map]; rewrite cut_char_app by done;
    (destruct (cut_char "0" _) as [s'|]; cbn [option_map];
     [|match goal with |- context [take_digits ?x] => destruct (take_digits x) as [d s'] eqn:Ht end;
       rewrite (take_digits_app _ _ _ _ Hd Ht)]);
    (destruct (String.eqb _ ""); [done|]);
    (destruct (scan_fraction s') as [[f s2]|] eqn:Ef; [|done]);
    rewrite (scan_fraction_app _ _ _ _ Hd Ef);
    (destruct (scan_exponent s2) as [[x s3]|] eqn:Ex; [|done]);
    rewrite (scan_exponent_app _ _ _ _ Hd Ex); intros [= -> ->]; reflexivity.
Qed.

(** ** Documents *)

Fixpoint json_ok (j : json) : bool :=
  match j with
  | JNum lit => number_ok lit
  | JStr s => utf8_valid s
  | JArr l => forallb json_ok l
  | JObj fs => forallb (fun '(k, v) => utf8_valid k && json_ok v) fs
  | JNull | JBool _ => true
  end.

(** Induction through the lists of a document. *)
Fixpoint json_rect_deep (P : json -> Prop)
    (Hnull : P JNull) (Hbool : forall b, P (JBool b)) (Hnum : forall l, P (JNum l))
    (Hstr : forall s, P (JStr s)) (Harr : forall l, Forall P l -> P (JArr l))
    (Hobj : forall fs, Forall (fun f => P (snd f)) fs -> P (JObj fs)) (j : json) : P j :=
  let rec := json_rect_deep P Hnull Hbool Hnum Hstr Harr Hobj in
  match j with
  | JNull => Hnull
  | JBool b => Hbool b
  | JNum l => Hnum l
  | JStr s => Hstr s
  | JArr l => Harr l ((fix go l := match l return Forall P l with
                       | [] => Forall_nil_2 _
                       | x :: l' => Forall_cons_2 _ x l' (rec x) (go l')
                       end) l)
  | JObj fs => Hobj fs ((fix go fs := match fs return Forall (fun f => P (snd f)) fs with
                         | [] => Forall_nil_2 _
                         | f :: fs' => Forall_cons_2 _ f fs' (rec (snd f)) (go fs')
                         end) fs)
  end.

(** The rounds the scanner needs for a printed document. *)
Fixpoint rounds (j : json) : nat :=
  match j with
  | JArr l => S (list_sum (List.map (fun v => S (rounds v)) l))
  | JObj fs => S (list_sum (List.map (fun f => S (rounds (snd f))) fs))
  | _ => 1
  end.

Lemma is_ws_not_delimited rest : delimited rest = true -> skip_ws rest = rest.
Proof.
  destruct rest as [|c rest]; [done|]. cbn [delimited existsb]. rewrite !orb_true_iff.
  intros [H|[H|[H|H]]]; try discriminate H; apply Ascii.eqb_eq in H; by subst.
Qed.

(** The first byte of a printed document. *)
Definition opens (c : ascii) : bool :=
  (byte_of c =? 34)%N || is_digit c || existsb (Ascii.eqb c) ["-"; "["; "{"; "n"; "t"; "f"]%char.

Lemma opens_not c :
  opens c = true ->
  is_ws c = false /\ Ascii.eqb c "]" = false /\ Ascii.eqb c "}" = false.
Proof. destruct c as [[] [] [] [] [] [] [] []]; vm_compute; auto; discriminate. Qed.

Lemma number_opens lit : number_ok lit = true ->
  exists c t, lit = String c t /\ (is_digit c = true \/ c = "-"%char).
Proof.
  unfold number_ok. destruct lit as [|c t]; [done|]. intros H. exists c, t. split; [done|].
  revert H. unfold scan_number. cbn [cut_char].
  destruct (Ascii.eqb_spec c "-") as [->|_]; [by right|]. cbn [cut_char].
  destruct (Ascii.eqb_spec c "0") as [->|_]; [by left|].
  cbn [take_digits]. destruct (is_digit c); [by left|]. by cbn.
Qed.

Lemma print_opens j : json_ok j = true ->
  exists c t, print_json j = String c t /\ opens c = true.
Proof.
  destruct j as [|[]|lit|s|l|fs]; cbn [json_ok print_json]; intros H; try (by eexists _, _).
  destruct (number_opens _ H) as (c & t & -> & Hc). exists c, t. split; [done|].
  unfold opens. destruct Hc as [-> | ->]; [by rewrite orb_true_r|done].
Qed.

Lemma number_first lit rest : number_ok lit = true ->
  exists c t, lit +:+ rest = String c t /\ is_ws c = false /\ (byte_of c =? 34)%N = false /\
    Ascii.eqb c "{" = false /\ Ascii.eqb c "[" = false /\
    has_prefix "null" (String c t) = false /\ has_prefix "true" (String c t) = false /\
    has_prefix "false" (String c t) = false.
Proof.
  intros H. destruct (number_opens _ H) as (c & t & -> & Hc).
  exists c, (t +:+ rest). split; [apply str_app_cons|].
  destruct Hc as [Hc| ->]; [|done]. cbn [has_prefix].
  destruct c as [[] [] [] [] [] [] [] []]; try discriminate Hc; done.
Qed.

Lemma join_cons sep x l : l <> [] -> join_str sep (x :: l) = x +:+ sep +:+ join_str sep l.
Proof. by destruct l. Qed.

Lemma cut_comma t : cut_char "," (skip_ws ("," +:+ t)) = Some t.
Proof. reflexivity. Qed.

Lemma cut_colon t : cut_char ":" (skip_ws (":" +:+ t)) = Some t.
Proof. reflexivity. Qed.

Lemma cut_quote t : skip_ws (String (ascii_of_N 34) t) = String (ascii_of_N 34) t.
Proof. reflexivity. Qed.

(** [scans j]: a printed [j] is scanned back, up to its delimiter. *)
Definition scans (j : json) : Prop :=
  json_ok j = true -> forall fuel rest, delimited rest = true -> (rounds j <= fuel)%nat ->
  scan_value fuel (print_json j +:+ rest) = Some (j, rest).

Lemma scan_items_print l : forall x acc fuel rest,
  Forall scans (x :: l) -> forallb json_ok (x :: l) = true ->
  (list_sum (List.map (fun v => S (rounds v)) (x :: l)) <= fuel)%nat ->
  scan_items fuel acc (join_str "," (List.map print_json (x :: l)) +:+ "]" +:+ rest) =
  Some (JArr (acc ++ x :: l), rest).
Proof.
  induction l as [|y l IH]; intros x acc fuel rest HF Hok Hf;
    apply Forall_cons in HF as [Hx HF]; cbn [forallb] in Hok; apply andb_true_iff in Hok as [Ox Hok];
    cbn [List.map list_sum fold_right] in Hf; (destruct fuel as [|fuel]; [lia|]); cbn [scan_items].
  - cbn [List.map join_str]. rewrite (Hx Ox fuel ("]" +:+ rest)) by (done || lia). reflexivity.
  - cbn [List.map]. rewrite join_cons by done. rewrite !str_app_assoc.
    rewrite (Hx Ox fuel _) by (done || lia). rewrite cut_comma.
    change (print_json y :: List.map print_json l) with (List.map print_json (y :: l)).
    erewrite (IH y (acc ++ [x])%list fuel rest) by (done || (cbn [List.map list_sum fold_right]; lia)).
    by rewrite <- app_assoc.
Qed.

Lemma scan_members_print l : forall k x acc fuel rest,
  Forall (fun f => scans (snd f)) ((k, x) :: l) ->
  forallb (fun '(k, v) => utf8_valid k && json_ok v) ((k, x) :: l) = true ->
  (list_sum (List.map (fun f => S (rounds (snd f))) ((k, x) :: l)) <= fuel)%nat ->
  scan_members fuel acc
    (join_str "," (List.map (fun '(k, v) => quote_json k +:+ ":" +:+ print_json v) ((k, x) :: l))
       +:+ "}" +:+ rest) =
  Some (JObj (acc ++ (k, x) :: l), rest).
Proof.
  induction l as [|[k' y] l IH]; intros k x acc fuel rest HF Hok Hf;
    apply Forall_cons in HF as [Hx HF]; cbn [forallb] in Hok; rewrite !andb_true_iff in Hok;
    destruct Hok as [[Ok Ox] Hok]; cbn [List.map list_sum fold_right snd] in *;
    (destruct fuel as [|fuel]; [lia|]); cbn [scan_members].
  - cbn [join_str]. rewrite !str_app_assoc.
    destruct (quote_scanned k (":" +:+ print_json x +:+ "}" +:+ rest) Ok) as (body & -> & Hs).
    rewrite cut_quote. change (byte_of (ascii_of_N 34) =? 34)%N with true. cbv iota.
    rewrite Hs, cut_colon.
    rewrite (Hx Ox fuel ("}" +:+ rest)) by (done || lia). reflexivity.
  - rewrite join_cons by done. rewrite !str_app_assoc.
    match goal with |- context [quote_json k +:+ ?t] =>
      destruct (quote_scanned k t Ok) as (body & -> & Hs) end.
    rewrite cut_quote. change (byte_of (ascii_of_N 34) =? 34)%N with true. cbv iota.
    rewrite Hs, cut_colon.
    rewrite (Hx Ox fuel _) by (done || lia). rewrite cut_comma.
    erewrite (IH k' y (acc ++ [(k, x)])%list fuel rest)
      by (done || (cbn [forallb]; by rewrite ?andb_true_iff) || (cbn [List.map list_sum fold_right snd]; lia)).
    by rewrite <- app_assoc.
Qed.

Lemma scan_print j : scans j.
Proof.
  induction j as [|[]|lit|s|l HF|fs HF] using json_rect_deep; intros Hok fuel rest Hd Hf;
    cbn [rounds] in Hf; (destruct fuel as [|fuel]; [lia|]); cbn [json_ok] in Hok; try reflexivity.
  - cbn [print_json]. destruct (number_first lit rest Hok) as (c & t & E & W & Q & B1 & B2 & N & T & F).
    cbn [scan_value]. rewrite E. cbn [skip_ws]. rewrite W, Q, B1, B2. unfold cut_prefix.
    rewrite N, T, F, <- E, scan_number_app by done. reflexivity.
  - cbn [print_json]. destruct (quote_scanned s rest Hok) as (body & -> & Hs).
    cbn [scan_value]. rewrite cut_quote. change (byte_of (ascii_of_N 34) =? 34)%N with true.
    cbv iota. by rewrite Hs.
  - destruct l as [|x l]; [reflexivity|]. cbn [forallb] in Hok.
    destruct (print_opens x ltac:(by apply andb_true_iff in Hok as [??])) as (c & t & E & Ho).
    pose proof (opens_not _ Ho) as (W & B & _).
    pose proof (scan_items_print l x [] fuel rest HF Hok ltac:(lia)) as Hs.
    cbn [print_json]. rewrite !str_app_assoc. cbn [scan_value].
    change (skip_ws ("[" +:+ ?t)) with ("[" +:+ t).
    rewrite str_app_cons. change (byte_of "[" =? 34)%N with false.
    change (Ascii.eqb "[" "{") with false. change (Ascii.eqb "[" "[") with true. cbv iota.
    change ("" +:+ ?t) with t. rewrite Hs.
    enough (cut_char "]" (skip_ws (join_str "," (List.map print_json (x :: l)) +:+ "]" +:+ rest)) = None)
      as -> by done.
    assert (exists u, join_str "," (List.map print_json (x :: l)) = String c u) as [u ->].
    { cbn [List.map]. rewrite E. destruct l; eexists; reflexivity. }
    rewrite str_app_cons. cbn [skip_ws]. rewrite W. cbn [cut_char]. by rewrite B.
  - destruct fs as [|[k x] fs]; [reflexivity|].
    pose proof (scan_members_print fs k x [] fuel rest HF Hok ltac:(lia)) as Hs.
    cbn [print_json]. rewrite !str_app_assoc. cbn [scan_value].
    change (skip_ws ("{" +:+ ?t)) with ("{" +:+ t).
    rewrite str_app_cons. change (byte_of "{" =? 34)%N with false.
    change (Ascii.eqb "{" "{") with true. cbv iota.
    change ("" +:+ ?t) with t. rewrite Hs.
    match goal with |- context [cut_char "}" ?y] => enough (cut_char "}" y = None) as -> by done end.
    cbn [List.map]. destruct fs; reflexivity.
Qed.

(** Twice the length of the input is fuel enough. *)
Lemma rounds_join {A} (f : A -> nat) (g : A -> string) l :
  Forall (fun a => (S (f a) <= 2 * String.length (g a))%nat) l ->
  (list_sum (List.map (fun a => S (f a)) l) <= 2 * String.length (join_str "," (List.map g l)))%nat.
Proof.
  induction l as [|x l IH]; intros HF; cbn [List.map list_sum fold_right]; [lia|].
  apply Forall_cons in HF as [Hx HF]. specialize (IH HF). unfold list_sum in IH.
  destruct l as [|y l]; [simpl in *; lia|].
  rewrite join_cons by done. rewrite !str_app_length. lia.
Qed.

Lemma rounds_length j : json_ok j = true -> (S (rounds j) <= 2 * String.length (print_json j))%nat.
Proof.
  induction j as [|[]|lit|s|l HF|fs HF] using json_rect_deep; intros Hok; cbn [json_ok] in Hok;
    try (cbn; lia).
  - destruct (number_opens _ Hok) as (c & t & -> & _). cbn. lia.
  - cbn [print_json rounds]. unfold quote_json. rewrite !str_app_length. cbn [String.length chr]. lia.
  - cbn [print_json rounds]. rewrite !str_app_length. cbn [String.length].
    enough (H : Forall (fun v => (S (rounds v) <= 2 * String.length (print_json v))%nat) l)
      by (pose proof (rounds_join rounds print_json l H); lia).
    rewrite List.forallb_forall in Hok. rewrite List.Forall_forall in *. auto.
  - cbn [print_json rounds]. rewrite !str_app_length. cbn [String.length].
    pose proof (rounds_join (fun f => rounds (snd f))
      (fun '(k, v) => quote_json k +:+ ":" +:+ print_json v) fs) as H.
    enough (Forall (fun f => (S (rounds (snd f)) <=
      2 * String.length (let '(k, v) := f in quote_json k +:+ ":" +:+ print_json v))%nat) fs)
      by (specialize (H ltac:(done)); lia).
    rewrite List.forallb_forall in Hok. rewrite List.Forall_forall in *.
    intros [k v] Hin. specialize (HF _ Hin). specialize (Hok _ Hin). cbn [snd] in *.
    apply andb_true_iff in Hok as [_ Hok]. specialize (HF Hok). rewrite !str_app_length. lia.
Qed.

Lemma decode_print j rest :
  json_ok j = true -> delimited rest = true -> decode_first (print_json j +:+ rest) = Some (j, rest).
Proof.
  intros Hok Hd. apply (scan_print j Hok); [done|].
  pose proof (rounds_length j Hok). rewrite str_app_length. lia.
Qed.

Lemma unmarshal_print j : json_ok j = true -> unmarshal (print_json j) = Some j.
Proof.
  intros Hok. unfold unmarshal. rewrite <- (str_app_nil (print_json j)).
  by rewrite (decode_print j "" Hok).
Qed.

(** ** Decoded documents are well formed *)

Inductive Utf8 : string -> Prop :=
| Utf8_nil : Utf8 ""
| Utf8_ascii c s : (byte_of c <? 128)%N = true -> Utf8 s -> Utf8 (String c s)
| Utf8_rune c s k :
    (byte_of c <? 128)%N = false -> rune_len (String c s) = Some k ->
    Utf8 (drop_bytes k (String c s)) -> Utf8 (String c s).

Lemma str_nil_app s : "" +:+ s = s.
Proof. reflexivity. Qed.

Lemma drop_length k s : (String.length (drop_bytes k s) = String.length s - k)%nat.
Proof. revert s. induction k as [|k IH]; intros [|c s]; simpl; auto. Qed.

Lemma take_all s : take_bytes (String.length s) s = s.
Proof. induction s; simpl; congruence. Qed.

Lemma utf8_from_mono n m s : (n <= m)%nat -> utf8_from n s = true -> utf8_from m s = true.
Proof.
  revert m s. induction n as [|n IH]; intros m [|c s] Hm; try done; try (by destruct m).
  destruct m as [|m]; [lia|]. cbn [utf8_from]. destruct (byte_of c <? 128)%N; [apply IH; lia|].
  destruct (rune_len _); [apply IH; lia|done].
Qed.

Lemma Utf8_valid s : Utf8 s <-> utf8_valid s = true.
Proof.
  split.
  - unfold utf8_valid. induction 1 as [|c s Hc H IH|c s k Hc Hk H IH]; [done|..];
      cbn [String.length utf8_from]; rewrite Hc; [done|]. rewrite Hk.
    revert IH. apply utf8_from_mono. rewrite drop_length. cbn [String.length].
    pose proof (rune_len_split _ _ Hk). lia.
  - unfold utf8_valid. generalize (String.length s). intros n. revert s.
    induction n as [|n IH]; intros [|c s] Hu; try (by constructor 1); try done.
    cbn [utf8_from] in Hu.
    destruct (byte_of c <? 128)%N eqn:Hc; [constructor; auto|].
    destruct (rune_len (String c s)) as [k|] eqn:Hk; [|done]. eapply Utf8_rune; eauto.
Qed.

Lemma Utf8_app a b : Utf8 a -> Utf8 b -> Utf8 (a +:+ b).
Proof.
  intros Ha Hb. induction Ha as [|c s Hc H IH|c s k Hc Hk H IH]; [done|..].
  - rewrite str_app_cons. by constructor.
  - pose proof (rune_len_split _ _ Hk) as (H2 & Hlen & Hs & Hsplit).
    rewrite Hs, str_app_assoc. set (r := take_bytes k (String c s)) in *.
    destruct (Hsplit (drop_bytes k (String c s) +:+ b)) as (Hr & _ & Hd).
    assert (Hh : exists u, r = String c u) by (destruct k; [lia|]; eexists; reflexivity).
    destruct Hh as [u Hu]. rewrite Hu, str_app_cons in *. eapply Utf8_rune; eauto. by rewrite Hd.
Qed.

Lemma Utf8_rune_only c s k :
  (byte_of c <? 128)%N = false -> rune_len (String c s) = Some k ->
  Utf8 (take_bytes k (String c s)).
Proof.
  intros Hc Hk. pose proof (rune_len_split _ _ Hk) as (H2 & _ & _ & Hsplit).
  destruct (Hsplit "") as (Hr & _ & Hd). rewrite str_app_nil in *.
  destruct k as [|k]; [lia|]. cbn [take_bytes] in *. eapply Utf8_rune; eauto.
  rewrite Hd. constructor.
Qed.

Lemma byte_of_ascii n : (n < 256)%N -> byte_of (ascii_of_N n) = n.
Proof. apply N_ascii_embedding. Qed.

Lemma between_true lo hi n : (lo <= n <= hi)%N -> between lo hi n = true.
Proof. intros H. unfold between. apply andb_true_iff. rewrite !N.leb_le. lia. Qed.
Lemma between_false lo hi n : (n < lo \/ hi < n)%N -> between lo hi n = false.
Proof. intros H. unfold between. apply andb_false_iff. rewrite !N.leb_gt. lia. Qed.

(** [lia] that knows division and remainder by constants. *)
Ltac dlia := zify; Z.to_euclidean_division_equations; lia.

(** The encoding of a code point that is no surrogate is valid. *)
Lemma utf8_Utf8 r :
  (r < 1114112)%N -> between 55296 57343 r = false -> Utf8 (utf8 r).
Proof.
  intros Hr Hs. unfold utf8, chr.
  destruct (N.ltb_spec r 128).
  { constructor; [|constructor]. rewrite byte_of_ascii by dlia. by apply N.ltb_lt. }
  assert (Hb : between 55296 57343 r = false -> (r < 55296 \/ 57343 < r)%N).
  { unfold between. rewrite andb_false_iff, !N.leb_gt. lia. }
  specialize (Hb Hs).
  assert (Hrune : forall c s k, (128 <= byte_of c)%N -> rune_len (String c s) = Some k ->
            k = S (String.length s) -> Utf8 (String c s)).
  { intros c s k Hc Hk ->. pose proof (Utf8_rune_only c s _ ltac:(by apply N.ltb_ge) Hk) as Hu.
    cbn [take_bytes] in Hu. by rewrite take_all in Hu. }
  destruct (N.ltb_spec r 2048); [|destruct (N.ltb_spec r 65536)]; repeat rewrite ?str_app_cons, ?str_nil_app;
    (eapply Hrune; [rewrite byte_of_ascii by dlia; dlia| |reflexivity]);
    unfold rune_len; cbn [String.get]; rewrite !byte_of_ascii by dlia.
  - rewrite !between_true by dlia. done.
  - rewrite (between_false 194 223), (between_true 224 239) by dlia.
    destruct (N.eqb_spec (224 + r / 4096) 224); destruct (N.eqb_spec (224 + r / 4096) 237);
      rewrite !between_true by dlia; done.
  - rewrite (between_false 194 223), (between_false 224 239), (between_true 240 244) by dlia.
    destruct (N.eqb_spec (240 + r / 262144) 240); destruct (N.eqb_spec (240 + r / 262144) 244);
      rewrite !between_true by dlia; done.
Qed.

Lemma hex_val_bound c v : hex_val c = Some v -> (v < 16)%N.
Proof.
  unfold hex_val, between. repeat case_match; intros; simplify_eq;
    repeat match goal with H : _ && _ = true |- _ => apply andb_true_iff in H as [?%N.leb_le ?%N.leb_le] end;
    lia.
Qed.

Lemma hex4_bound s v r : hex4 s = Some (v, r) -> (v < 65536)%N.
Proof.
  unfold hex4. intros H. case_hyps.
  repeat match goal with H : hex_val _ = Some _ |- _ => apply hex_val_bound in H end. lia.
Qed.

Lemma replacement_Utf8 : Utf8 replacement.
Proof. apply Utf8_valid. reflexivity. Qed.

Lemma chr_Utf8 n : (n < 128)%N -> Utf8 (chr n).
Proof.
  intros H. constructor; [|constructor]. rewrite byte_of_ascii by lia. by apply N.ltb_lt.
Qed.

(** What a string literal decodes to is valid UTF-8. *)
Lemma scan_string_Utf8 n : forall s b r, scan_string n s = Some (b, r) -> Utf8 b.
Proof.
  induction n as [|n IH]; intros s b r; [done|]. cbn [scan_string].
  assert (Hemit : forall p r', Utf8 p ->
    match scan_string n r' with Some (b, r') => Some (p +:+ b, r') | None => None end = Some (b, r) ->
    Utf8 b).
  { intros p r' Hp H. destruct (scan_string n r') as [[b' r'']|] eqn:E; [|done].
    injection H as <- <-. apply Utf8_app; eauto. }
  destruct s as [|c rest]; [done|].
  destruct (N.eqb_spec (byte_of c) 34); [intros [= <- <-]; constructor|].
  destruct (byte_of c <? 32)%N; [done|].
  destruct (N.eqb_spec (byte_of c) 92) as [_|_].
  - destruct rest as [|e rest]; [done|].
    assert (Hplain : forall k, (k < 128)%N -> forall r', 
      match scan_string n r' with Some (b, r') => Some (chr k +:+ b, r') | None => None end = Some (b, r) ->
      Utf8 b) by (intros; eapply Hemit; [by apply chr_Utf8|done]).
    generalize (byte_of e). intros x.
    repeat (case_match; try (discriminate || (by apply Hplain))).
    all: intros [= <- <-]; (apply Utf8_app; [|by eauto]); try apply replacement_Utf8.
    all: repeat match goal with H : hex4 _ = Some _ |- _ => apply hex4_bound in H end.
    all: repeat match goal with
      | H : between _ _ _ = true |- _ => apply andb_true_iff in H as [?%N.leb_le ?%N.leb_le]
      | H : between _ _ _ = false |- _ => apply andb_false_iff in H; rewrite !N.leb_gt in H
      end.
    all: apply utf8_Utf8; [lia|apply between_false; lia].
  - destruct (byte_of c <? 128)%N eqn:Hc.
    + apply Hemit. by repeat constructor.
    + destruct (rune_len (String c rest)) as [k|] eqn:Hk; [|apply Hemit, replacement_Utf8].
      apply Hemit. by eapply Utf8_rune_only.
Qed.

Lemma take_digits_spec s d r :
  take_digits s = (d, r) ->
  forall t, take_digits t = ("", t) -> take_digits (d +:+ t) = (d, t).
Proof.
  revert d r. induction s as [|c s IH]; intros d r; cbn [take_digits].
  - by intros [= <- <-].
  - destruct (is_digit c) eqn:Hc; [|by intros [= <- <-]].
    destruct (take_digits s) as [d' r'] eqn:E. intros [= <- <-] t Ht.
    rewrite str_app_cons. cbn [take_digits]. by rewrite Hc, (IH _ _ eq_refl t Ht).
Qed.

Lemma fraction_again s f r t :
  scan_fraction s = Some (f, r) -> take_digits t = ("", t) -> cut_char "." t = None ->
  scan_fraction (f +:+ t) = Some (f, t) /\ take_digits (f +:+ t) = ("", f +:+ t).
Proof.
  unfold scan_fraction. destruct (cut_char "." s) as [s'|]; [|intros [= <- <-] Ht Hc];
    [|rewrite str_nil_app, Hc; done].
  destruct (take_digits s') as [d r'] eqn:E. destruct (String.eqb d "") eqn:Hd; [done|].
  intros [= <- <-] Ht _. rewrite str_app_cons. cbn [cut_char].
  change (Ascii.eqb "." ".") with true. cbv iota.
  rewrite (take_digits_spec _ _ _ E t Ht), Hd. done.
Qed.

Lemma exponent_again s e r :
  scan_exponent s = Some (e, r) ->
  scan_exponent e = Some (e, "") /\ take_digits e = ("", e) /\ cut_char "." e = None.
Proof.
  destruct s as [|c s]; cbn [scan_exponent]; [by intros [= <- <-]|].
  destruct ((byte_of c =? 101) || (byte_of c =? 69))%N eqn:Hc; [|by intros [= <- <-]].
  assert (Hx : is_digit c = false /\ Ascii.eqb c "." = false).
  { clear -Hc. destruct c as [[] [] [] [] [] [] [] []]; try discriminate Hc; done. }
  destruct Hx as [Hx1 Hx2].
  destruct (cut_char "+" s) as [s'|]; [|destruct (cut_char "-" s) as [s'|]];
    match goal with |- context [take_digits ?x] => destruct (take_digits x) as [d r'] eqn:E end;
    (destruct (String.eqb d "") eqn:Hd; [done|]); intros [= <- <-];
    rewrite ?str_app_cons, ?str_nil_app; cbn [scan_exponent take_digits cut_char];
    rewrite Hc, Hx1, Hx2; (split; [|done]);
    pose proof (take_digits_spec _ _ _ E "" eq_refl) as Hd'; rewrite str_app_nil in Hd'.
  - cbn. rewrite Hd', Hd. done.
  - cbn. rewrite Hd', Hd. done.
  - assert (Hcut : cut_char "+" d = None /\ cut_char "-" d = None).
    { destruct d as [|a d]; [done|]. cbn [take_digits] in Hd'. cbn [cut_char].
      destruct (is_digit a) eqn:Ha; [|by injection Hd'].
      clear -Ha. destruct a as [[] [] [] [] [] [] [] []]; try discriminate Ha; done. }
    destruct Hcut as [-> ->]. by rewrite Hd', Hd.
Qed.

Lemma digits_head s d r c t :
  take_digits s = (d, r) -> d = String c t -> is_digit c = true.
Proof.
  destruct s as [|a s]; cbn [take_digits]; [congruence|].
  destruct (is_digit a) eqn:Ha; [|congruence]. destruct (take_digits s). congruence.
Qed.

Lemma scan_number_ok s lit r : scan_number s = Some (lit, r) -> number_ok lit = true.
Proof.
  unfold scan_number. intros H.
  destruct (match cut_char "-" s with Some r => ("-", r) | None => ("", s) end) as [sign s1] eqn:Es.
  destruct (match cut_char "0" s1 with Some r => ("0", r) | None => take_digits s1 end)
    as [int s2] eqn:Ei.
  destruct (String.eqb int "") eqn:Hi; [done|].
  destruct (scan_fraction s2) as [[f s3]|] eqn:Ef; [|done].
  destruct (scan_exponent s3) as [[e s4]|] eqn:Ee; [|done]. injection H as <- <-.
  destruct (exponent_again _ _ _ Ee) as (He & Hed & Hec).
  destruct (fraction_again _ _ _ e Ef Hed Hec) as (Hf & Hfd).
  assert (Hint : exists c t, int = String c t /\ is_digit c = true /\
    (match cut_char "0" (int +:+ f +:+ e) with
     | Some r => ("0", r) | None => take_digits (int +:+ f +:+ e) end) = (int, f +:+ e)).
  { destruct (cut_char "0" s1) as [s'|] eqn:Ez.
    - injection Ei as <- <-. by exists "0"%char, "".
    - destruct int as [|c t]; [done|]. exists c, t. split; [done|].
      pose proof (digits_head _ _ _ _ _ Ei eq_refl) as Hc. split; [done|].
      rewrite (take_digits_spec _ _ _ Ei _ Hfd). rewrite str_app_cons. cbn [cut_char].
      destruct s1 as [|a s1]; [done|]. cbn [cut_char] in Ez. cbn [take_digits] in Ei.
      destruct (is_digit a); [|done]. destruct (take_digits s1).
      injection Ei as -> -> ->. by destruct (Ascii.eqb c "0"). }
  destruct Hint as (c & t & -> & Hc & Hint).
  unfold number_ok, scan_number.
  assert (Hsign : (match cut_char "-" (sign +:+ String c t +:+ f +:+ e) with
    | Some r => ("-", r) | None => ("", sign +:+ String c t +:+ f +:+ e) end) =
    (sign, String c t +:+ f +:+ e)).
  { destruct (cut_char "-" s); injection Es as <- <-; [done|].
    rewrite str_nil_app, str_app_cons. cbn [cut_char].
    destruct (Ascii.eqb_spec c "-") as [->|]; [done|]. by rewrite ?str_app_cons. }
  rewrite Hsign, Hint, Hi, Hf, He, !String.eqb_refl. done.
Qed.

Lemma scan_ok n :
  (forall s v r, scan_value n s = Some (v, r) -> json_ok v = true) /\
  (forall acc s v r, forallb json_ok acc = true ->
     scan_items n acc s = Some (v, r) -> json_ok v = true) /\
  (forall acc s v r, forallb (fun '(k, v) => utf8_valid k && json_ok v) acc = true ->
     scan_members n acc s = Some (v, r) -> json_ok v = true).
Proof.
  induction n as [|n (IHv & IHi & IHm)]; [done|]. split_and!.
  - intros s v r. cbn [scan_value]. destruct (skip_ws s) as [|c rest]; [done|].
    destruct (byte_of c =? 34)%N.
    { destruct (scan_string _ _) as [[b r']|] eqn:E; [|done]. intros [= <- <-].
      by apply Utf8_valid, (scan_string_Utf8 _ _ _ _ E). }
    destruct (Ascii.eqb c "{").
    { destruct (cut_char "}" _); [by intros [= <- <-]|]. by apply IHm. }
    destruct (Ascii.eqb c "[").
    { destruct (cut_char "]" _); [by intros [= <- <-]|]. by apply IHi. }
    destruct (cut_prefix "null" _); [by intros [= <- <-]|].
    destruct (cut_prefix "true" _); [by intros [= <- <-]|].
    destruct (cut_prefix "false" _); [by intros [= <- <-]|].
    destruct (scan_number _) as [[lit r']|] eqn:E; [|done]. intros [= <- <-].
    exact (scan_number_ok _ _ _ E).
  - intros acc s v r Hacc. cbn [scan_items].
    destruct (scan_value n s) as [[x r1]|] eqn:E; [|done].
    assert (Ha : forallb json_ok (acc ++ [x]) = true)
      by (rewrite forallb_app, Hacc; cbn; by rewrite (IHv _ _ _ E)).
    destruct (cut_char "," _); [by apply IHi|]. destruct (cut_char "]" _); [|done].
    by intros [= <- <-].
  - intros acc s v r Hacc. cbn [scan_members]. destruct (skip_ws s) as [|q rest]; [done|].
    destruct (byte_of q =? 34)%N; [|done].
    destruct (scan_string _ rest) as [[k r1]|] eqn:Ek; [|done].
    destruct (cut_char ":" _) as [r2|]; [|done].
    destruct (scan_value n r2) as [[x r3]|] eqn:E; [|done].
    assert (Ha : forallb (fun '(k, v) => utf8_valid k && json_ok v) (acc ++ [(k, x)]) = true).
    { rewrite forallb_app, Hacc. cbn. rewrite (IHv _ _ _ E).
      by rewrite (proj1 (Utf8_valid k) (scan_string_Utf8 _ _ _ _ Ek)). }
    destruct (cut_char "," _); [by apply IHm|]. destruct (cut_char "}" _); [|done].
    by intros [= <- <-].
Qed.

Lemma decoded_ok s v r : decode_first s = Some (v, r) -> json_ok v = true.
Proof. apply (scan_ok _). Qed.

(** ** Sorting the keys of objects *)

Fixpoint sort_fields (acc fs : list (string * json)) : list (string * json) :=
  match fs with
  | [] => acc
  | (k, v) :: fs' => sort_fields (insert_field k (sort_keys v) acc) fs'
  end.

Lemma sort_keys_obj fs : sort_keys (JObj fs) = JObj (sort_fields [] fs).
Proof. reflexivity. Qed.

(** Sorted strictly by key, every value sorted already. *)
Definition sorted_fields (fs : list (string * json)) : Prop :=
  StronglySorted str_lt fs.*1 /\ Forall (fun f => sort_keys (snd f) = snd f) fs.

Lemma insert_field_In {A} k (v : A) l x :
  In x (insert_field k v l) -> x = (k, v) \/ In x l.
Proof.
  induction l as [|[k' v'] l IH]; simpl; [naive_solver|].
  destruct (String.eqb k k'); simpl; [naive_solver|].
  destruct (String.ltb k k'); simpl; naive_solver.
Qed.

Lemma ltb_false_gt k k' : String.eqb k k' = false -> String.ltb k k' = false -> str_lt k' k.
Proof.
  rewrite String.eqb_neq. intros Hne Hlt. apply str_lt_not_le. rewrite str_le_lt_or_eq.
  intros [H%ltb_str_lt|?]; congruence.
Qed.

Lemma insert_field_sorted k v l :
  sort_keys v = v -> sorted_fields l -> sorted_fields (insert_field k v l).
Proof.
  intros Hv. induction l as [|[k' v'] l IH]; intros [Hs HF]; cbn [insert_field].
  - split; repeat constructor; done.
  - cbn [fmap list_fmap fst] in Hs. apply StronglySorted_inv in Hs as [Hs Hk].
    apply Forall_cons in HF as [Hv' HF].
    destruct (String.eqb_spec k k') as [->|Hne]; [split; [by constructor|by constructor]|].
    destruct (String.ltb k k') eqn:Hlt.
    + apply ltb_str_lt in Hlt. split; [|by repeat constructor]. constructor; [by constructor|].
      constructor; [done|]. eapply List.Forall_impl; [|exact Hk].
      intros a Ha. by eapply compare_lt_trans.
    + destruct (IH (conj Hs HF)) as [Hs2 HF2]. split; [|by constructor].
      cbn [fmap list_fmap fst]. constructor; [done|].
      apply List.Forall_forall. intros a Ha. apply list_elem_of_In, list_elem_of_fmap in Ha.
      destruct Ha as ([k2 v2] & -> & Hin%list_elem_of_In). apply insert_field_In in Hin as [[= -> ->]|Hin].
      * apply ltb_false_gt; [by apply String.eqb_neq|done].
      * rewrite List.Forall_forall in Hk. apply Hk.
        apply list_elem_of_In, list_elem_of_fmap. exists (k2, v2). by rewrite list_elem_of_In.
Qed.

Lemma insert_field_last k v (l : list (string * json)) :
  Forall (fun f => str_lt (fst f) k) l -> insert_field k v l = (l ++ [(k, v)])%list.
Proof.
  induction l as [|[k' v'] l IH]; intros HF; cbn [insert_field]; [done|].
  apply Forall_cons in HF as [Hk HF]. cbn [fst] in Hk.
  destruct (String.eqb_spec k k') as [->|_]; [by apply str_lt_irrefl in Hk|].
  destruct (String.ltb k k') eqn:Hlt.
  - apply ltb_str_lt in Hlt. destruct (str_lt_irrefl k). by eapply compare_lt_trans.
  - by rewrite IH.
Qed.

Lemma sort_fields_sorted fs : forall acc,
  Forall (fun f => sort_keys (sort_keys (snd f)) = sort_keys (snd f)) fs ->
  sorted_fields acc -> sorted_fields (sort_fields acc fs).
Proof.
  induction fs as [|[k v] fs IH]; intros acc HF Ha; cbn [sort_fields]; [done|].
  apply Forall_cons in HF as [Hv HF]. apply IH; [done|]. by apply insert_field_sorted.
Qed.

Lemma sort_fields_id fs : forall acc,
  sorted_fields (acc ++ fs) -> sort_fields acc fs = (acc ++ fs)%list.
Proof.
  induction fs as [|[k v] fs IH]; intros acc [Hs HF]; cbn [sort_fields]; [by rewrite app_nil_r|].
  apply Forall_app in HF as HF'. destruct HF' as [_ HF']. apply Forall_cons in HF' as [Hv _].
  cbn [snd] in Hv. rewrite Hv, insert_field_last.
  - rewrite IH; by rewrite <- app_assoc.
  - rewrite fmap_app in Hs. apply List.Forall_forall. intros [k' v'] Hin.
    apply StronglySorted_app in Hs as (Hlt & _ & _). cbn [fst]. apply Hlt.
    + apply list_elem_of_fmap. exists (k', v'). by rewrite list_elem_of_In.
    + cbn. left.
Qed.

Lemma sort_keys_idem j : sort_keys (sort_keys j) = sort_keys j.
Proof.
  induction j as [| | | |l HF|fs HF] using json_rect_deep; try done.
  - cbn [sort_keys]. f_equal. rewrite List.map_map. apply List.map_ext_in.
    by rewrite List.Forall_forall in HF.
  - rewrite sort_keys_obj, sort_keys_obj. f_equal. apply (sort_fields_id _ []).
    apply sort_fields_sorted; [done|]. split; constructor.
Qed.

Lemma insert_field_ok k v (l : list (string * json)) :
  utf8_valid k && json_ok v = true ->
  forallb (fun '(k, v) => utf8_valid k && json_ok v) l = true ->
  forallb (fun '(k, v) => utf8_valid k && json_ok v) (insert_field k v l) = true.
Proof.
  intros Hv Hl. apply List.forallb_forall. intros x Hx. apply insert_field_In in Hx as [->|Hx]; [done|].
  rewrite List.forallb_forall in Hl. auto.
Qed.

Lemma sort_keys_ok j : json_ok j = true -> json_ok (sort_keys j) = true.
Proof.
  induction j as [| | | |l HF|fs HF] using json_rect_deep; try done.
  - cbn [sort_keys json_ok]. rewrite !List.forallb_forall. intros Hl x Hx.
    apply List.in_map_iff in Hx as (y & <- & Hy). rewrite List.Forall_forall in HF. auto.
  - rewrite sort_keys_obj. cbn [json_ok].
    assert (H : forall acc, forallb (fun '(k, v) => utf8_valid k && json_ok v) acc = true ->
      forallb (fun '(k, v) => utf8_valid k && json_ok v) fs = true ->
      forallb (fun '(k, v) => utf8_valid k && json_ok v) (sort_fields acc fs) = true); [|by apply H].
    induction fs as [|[k v] fs IH]; intros acc Ha Hf; cbn [sort_fields]; [done|].
    apply Forall_cons in HF as [Hv HF]. cbn [forallb snd] in *.
    apply andb_true_iff in Hf as [Hkv Hf]. apply IH; [done| |done].
    apply insert_field_ok; [|done]. apply andb_true_iff in Hkv as [-> Hok]. by rewrite Hv.
Qed.

Lemma decode_marshal v : json_ok v = true -> decode_first (marshal_any v) = Some (sort_keys v, "").
Proof.
  intros Hok. unfold marshal_any. rewrite <- (str_app_nil (print_json _)).
  apply decode_print; [by apply sort_keys_ok|done].
Qed.

Lemma marshal_any_inj v w :
  json_ok v = true -> json_ok w = true -> marshal_any v = marshal_any w -> sort_keys v = sort_keys w.
Proof.
  intros Hv Hw E. apply decode_marshal in Hv, Hw. rewrite E in Hv. congruence.
Qed.

(** ** Integers as number literals *)

Lemma nzhead_head d : match nzhead d with D0 _ => False | _ => True end.
Proof. induction d; simpl; auto. Qed.

Lemma uint_digits d : take_digits (NilEmpty.string_of_uint d) = (NilEmpty.string_of_uint d, "").
Proof. induction d as [|d IH|d IH|d IH|d IH|d IH|d IH|d IH|d IH|d IH|d IH]; cbn; rewrite ?IH; reflexivity. Qed.

Lemma digits_number c t :
  take_digits (String c t) = (String c t, "") -> Ascii.eqb c "0" = false ->
  scan_number (String c t) = Some (String c t, "") /\
  scan_number (String "-" (String c t)) = Some (String "-" (String c t), "").
Proof.
  intros Ht Hz. assert (Hm : Ascii.eqb c "-" = false).
  { pose proof (digits_head _ _ _ _ _ Ht eq_refl) as Hc. clear -Hc.
    destruct c as [[] [] [] [] [] [] [] []]; try discriminate Hc; done. }
  unfold scan_number. cbn [cut_char]. rewrite Hm. cbn [cut_char].
  change (Ascii.eqb "-" "-") with true. cbv iota. cbn [cut_char]. rewrite Hz, Ht.
  cbn [String.eqb scan_fraction cut_char scan_exponent].
  rewrite str_app_nil. split; [|reflexivity]. rewrite ?str_nil_app, ?str_app_nil. reflexivity.
Qed.

Lemma uint_number d : d <> Nil -> match d with D0 d' => d' = Nil | _ => True end ->
  number_ok (NilEmpty.string_of_uint d) = true /\
  number_ok (String "-" (NilEmpty.string_of_uint d)) = true.
Proof.
  intros Hn Hz. pose proof (uint_digits d) as Hd. unfold number_ok.
  destruct d; try done; try (subst; split; reflexivity);
    cbn [NilEmpty.string_of_uint] in *; destruct (digits_number _ _ Hd eq_refl) as [-> ->];
    by rewrite !String.eqb_refl.
Qed.

(** Every integer is printed as a number. *)
Lemma print_Z_number z : number_ok (print_Z z) = true.
Proof.
  pose proof (DecimalZ.to_of (Z.to_int z)) as H. rewrite DecimalZ.of_to in H. unfold print_Z.
  pose proof (nzhead_head) as Hh.
  destruct (Z.to_int z) as [d|d]; simpl in H |- *.
  - injection H as H. unfold unorm in H. specialize (Hh d).
    destruct (nzhead d); subst d; try (by apply uint_number); done.
  - specialize (Hh d). destruct (nzhead d); try discriminate H; injection H as H; subst d;
      try done; refine (proj2 (uint_number _ _ _)); done.
Qed.

(** ** The canonical form *)

Lemma marshal_sorted v : marshal_any (sort_keys v) = marshal_any v.
Proof. unfold marshal_any. by rewrite sort_keys_idem. Qed.

Lemma canonical_json_idem b : CanonicalJSON (CanonicalJSON b) = CanonicalJSON b.
Proof.
  unfold CanonicalJSON at 2 3. destruct (String.eqb_spec b "") as [->|Hb]; [done|].
  destruct (decode_first b) as [[v r]|] eqn:E.
  - destruct (String.eqb (marshal_any v) "{}" || String.eqb (marshal_any v) "null") eqn:Ho; [done|].
    unfold CanonicalJSON. rewrite (decode_marshal _ (decoded_ok _ _ _ E)), marshal_sorted, Ho.
    destruct (String.eqb_spec (marshal_any v) "") as [Hn|]; [by rewrite Hn|done].
  - unfold CanonicalJSON. apply String.eqb_neq in Hb. by rewrite Hb, E.
Qed.

Lemma canonical_arguments_idem a :
  CanonicalCallArguments (CanonicalCallArguments a) = CanonicalCallArguments a.
Proof.
  unfold CanonicalCallArguments at 2 3. destruct (decode_first a) as [[v r]|] eqn:E.
  - destruct (String.eqb (skip_ws r) "") eqn:Hr; unfold CanonicalCallArguments.
    + by rewrite (decode_marshal _ (decoded_ok _ _ _ E)), marshal_sorted.
    + by rewrite E, Hr.
  - unfold CanonicalCallArguments. by rewrite E.
Qed.

(** The canonical form of call arguments is canonical: taking it twice is
    taking it once (for the digested form of a document too), and two whole
    documents with the same canonical form are the same document up to the
    order and repetition of keys, so an idempotency key built on it separates
    calls whose arguments differ and joins calls written differently. *)
Theorem canonical_arguments_identify_the_document :
  (forall b, CanonicalJSON (CanonicalJSON b) = CanonicalJSON b) /\
  (forall a, CanonicalCallArguments (CanonicalCallArguments a) = CanonicalCallArguments a) /\
  (forall a b v w, unmarshal a = Some v -> unmarshal b = Some w ->
     CanonicalCallArguments a = CanonicalCallArguments b <-> sort_keys v = sort_keys w).
Proof.
  split; [exact canonical_json_idem|]. split; [exact canonical_arguments_idem|].
  intros a b v w Ha Hb. unfold unmarshal, CanonicalCallArguments in *.
  destruct (decode_first a) as [[v' ra]|] eqn:Ea; [|done].
  destruct (decode_first b) as [[w' rb]|] eqn:Eb; [|done].
  destruct (String.eqb (skip_ws ra) ""); [|done]. destruct (String.eqb (skip_ws rb) ""); [|done].
  simplify_eq. split; [|unfold marshal_any; by intros ->].
  apply marshal_any_inj; eapply decoded_ok; eassumption.
Qed.
