(* ===== verification/Float.v ===== *)
(** * Decimal text and [float64]

    What the program uses of [strconv] on floating point: [ParseFloat] of
    decimal text (hexadecimal literals are not modelled) and [FormatFloat] with
    the shortest precision. A finite number is a sign, a mantissa and an
    exponent of two; rounding is exact integer arithmetic, to nearest and ties
    to even. *)

From Stdlib Require Import ZArith Lia Ascii String.
From stdpp Require Import base list strings.
From S2P Require Import Prelude GoStrings Json.

Local Open Scope string_scope.
Local Open Scope Z_scope.

Inductive float64 : Type :=
| FNaN
| FInf (neg : bool)
| FFin (neg : bool) (mant : Z) (exp : Z).

(** [num / den] to nearest, ties to even; both positive or [num] zero. *)
Definition round_div (num den : Z) : Z :=
  let q := num / den in
  let r := num mod den in
  if (2 * r <? den) then q
  else if (den <? 2 * r) then q + 1
  else if Z.even q then q else q + 1.

Definition scale (z e : Z) : Z := if 0 <=? e then z * 2 ^ e else z.

(** The [float64] nearest to [num / den > 0]: the exponent puts the mantissa in
    [2^52, 2^53) or is the smallest one. [None] is out of range. *)
Definition round_ratio (neg : bool) (num den : Z) : option float64 :=
  if num =? 0 then Some (FFin neg 0 (-1074))
  else
    let e0 := Z.log2 num - Z.log2 den - 52 in
    let e1 := if scale num (- e0) <? scale den e0 * 2 ^ 52 then e0 - 1 else e0 in
    let e := Z.max e1 (-1074) in
    let m := round_div (scale num (- e)) (scale den e) in
    let '(m, e) := if m =? 2 ^ 53 then (2 ^ 52, e + 1) else (m, e) in
    if 971 <? e then None else Some (FFin neg m e).

(** The digits of a decimal literal: the integer they spell, and how many of
    them stand after the point. *)
Fixpoint digits_val (s : string) (acc : Z) : Z :=
  match s with
  | EmptyString => acc
  | String c s' => digits_val s' (acc * 10 + (Z.of_N (byte_of c) - 48))
  end.

Definition sign_of (s : string) : bool * string :=
  match s with
  | String "-" r => (true, r)
  | String "+" r => (false, r)
  | _ => (false, s)
  end.

Definition decimal_ratio (mant exp : Z) : Z * Z :=
  if 0 <=? exp then (mant * 10 ^ exp, 1) else (mant, 10 ^ (- exp)).

(** [strconv.ParseFloat(s, 64)]; [None] is an error, a value out of range
    included. *)
Definition parse_float (s : string) : option float64 :=
  let '(neg, body) := sign_of s in
  if existsb (equal_fold body) ["inf"; "infinity"] then Some (FInf neg)
  else if equal_fold s "nan" then Some FNaN
  else
    let '(int, r) := take_digits body in
    let '(frac, r) := match r with
                      | String "." r' => take_digits r'
                      | _ => ("", r)
                      end in
    if String.eqb (int +:+ frac) "" then None else
    let mant := digits_val (int +:+ frac) 0 in
    let fl := Z.of_nat (String.length frac) in
    match r with
    | EmptyString => let '(n, d) := decimal_ratio mant (- fl) in round_ratio neg n d
    | String e r' =>
        if equal_fold (String e "") "e" then
          let '(eneg, ds) := sign_of r' in
          let '(ed, rest) := take_digits ds in
          if String.eqb ed "" || negb (String.eqb rest "") then None
          else
            let ev := digits_val ed 0 in
            let ev := if eneg then - ev else ev in
            let '(n, d) := decimal_ratio mant (ev - fl) in round_ratio neg n d
        else None
    end.

(** The exact value as a fraction of two integers. *)
Definition float_ratio (m e : Z) : Z * Z := (scale m e, scale 1 (- e)).

(** [<] and [>] on [float64]: no comparison with NaN holds. *)
Definition float_lt (a b : float64) : bool :=
  let key neg m e := let '(n, d) := float_ratio m e in ((if neg : bool then - n else n), d) in
  match a, b with
  | FNaN, _ | _, FNaN => false
  | FInf na, FInf nb => na && negb nb
  | FInf na, FFin _ _ _ => na
  | FFin _ _ _, FInf nb => negb nb
  | FFin na ma ea, FFin nb mb eb =>
      let '(n1, d1) := key na ma ea in
      let '(n2, d2) := key nb mb eb in
      n1 * d2 <? n2 * d1
  end.

(** ** The shortest decimal that reads back as the same number *)

(** [floor(n/d * 10^p)], and the fraction [x / 10^p] as numerator and
    denominator. *)
Definition floor_scaled (n d p : Z) : Z :=
  if 0 <=? p then (n * 10 ^ p) / d else n / (d * 10 ^ (- p)).
Definition unscaled (x p : Z) : Z * Z :=
  if 0 <=? p then (x, 10 ^ p) else (x * 10 ^ (- p), 1).
Definition ratio_cmp (a b : Z * Z) : comparison := (fst a * snd b ?= fst b * snd a).

(** The number of integer digits of [n/d]: [10^(k-1) <= n/d < 10^k]. *)
Fixpoint decimal_point (fuel : nat) (n d k : Z) : Z :=
  match fuel with
  | O => k
  | S f =>
      let '(pn, pd) := unscaled 1 (- k) in
      let '(qn, qd) := unscaled 1 (1 - k) in
      if pn * d <=? n * pd then decimal_point f n d (k + 1)
      else if n * qd <? qn * d then decimal_point f n d (k - 1)
      else k
  end.

(** The first number of digits at which the truncation, or the truncation plus
    one, lies inside the interval that rounds to the number. *)
Fixpoint shortest_digits (fuel : nat) (n d dp nd : Z) (lo hi : Z * Z) (incl : bool) : Z * Z :=
  let p := nd - dp in
  let dn := floor_scaled n d p in
  match fuel with
  | O => (dn, nd)
  | S f =>
      let ok_down := match ratio_cmp lo (unscaled dn p) with
                     | Lt => true | Eq => incl | Gt => false end in
      let ok_up := match ratio_cmp (unscaled (dn + 1) p) hi with
                   | Lt => true | Eq => incl | Gt => false end in
      let exact := match ratio_cmp (unscaled dn p) (n, d) with Eq => true | _ => false end in
      if exact then (dn, nd)
      else if ok_down && ok_up then
        let '(tn, td) := unscaled (2 * dn + 1) p in
        match (tn * d ?= 2 * n * td) with
        | Lt => (dn + 1, nd)
        | Gt => (dn, nd)
        | Eq => (if Z.even dn then dn else dn + 1, nd)
        end
      else if ok_down then (dn, nd)
      else if ok_up then (dn + 1, nd)
      else shortest_digits f n d dp (nd + 1) lo hi incl
  end.

Fixpoint strip_zeros (fuel : nat) (x : Z) : Z :=
  match fuel with
  | O => x
  | S f => if (x =? 0) || negb (x mod 10 =? 0) then x else strip_zeros f (x / 10)
  end.

(** The digits and the place of the point: the number is [0.d1d2... * 10^dp]. *)
Definition shortest (m e : Z) : string * Z :=
  if m =? 0 then ("", 0)
  else
    let '(n, d) := float_ratio m e in
    let hi := (let '(a, b) := float_ratio (2 * m + 1) (e - 1) in (a, b)) in
    let lo := if (2 ^ 52 <? m) || (e =? -1074)
              then float_ratio (2 * m - 1) (e - 1)
              else float_ratio (4 * m - 1) (e - 2) in
    let dp := decimal_point 700 n d ((Z.log2 m + e) * 30103 / 100000 + 1) in
    let '(x, nd) := shortest_digits 17 n d dp 1 lo hi (Z.even m) in
    let dp' := if 10 ^ nd <=? x then dp + 1 else dp in
    (print_Z (strip_zeros 20 x), dp').

Fixpoint zeros (n : nat) : string :=
  match n with O => "" | S k => String "0" (zeros k) end.

Definition digits_f (ds : string) (dp : Z) : string :=
  let nd := Z.of_nat (String.length ds) in
  let int := if 0 <? dp
             then take_bytes (Z.to_nat dp) ds +:+ zeros (Z.to_nat (dp - nd))
             else "0" in
  if dp <? nd
  then int +:+ "." +:+ zeros (Z.to_nat (- dp)) +:+ drop_bytes (Z.to_nat dp) ds
  else int.

(** [strconv.FormatFloat(f, 'f', -1, 64)]. *)
Definition format_float (f : float64) : string :=
  match f with
  | FNaN => "NaN"
  | FInf neg => if neg then "-Inf" else "+Inf"
  | FFin neg m e =>
      let '(ds, dp) := shortest m e in
      (if neg then "-" else "") +:+ digits_f ds dp
  end.

(** [fmt.Sprint] of a [float64], which is the %g form of the shortest digits:
    with an exponent when it is below -4 or at least 6. *)
Definition sprint_float (f : float64) : string :=
  match f with
  | FNaN => "NaN"
  | FInf neg => if neg then "-Inf" else "+Inf"
  | FFin neg m e =>
      let '(ds, dp) := shortest m e in
      let x := dp - 1 in
      (if neg then "-" else "") +:+
      (if negb (m =? 0) && ((x <? -4) || (6 <=? x))
       then take_bytes 1 ds +:+
            (if (1 <? Z.of_nat (String.length ds)) then "." +:+ drop_bytes 1 ds else "") +:+
            "e" +:+ (if x <? 0 then "-" else "+") +:+
            (if Z.abs x <? 10 then "0" else "") +:+ print_Z (Z.abs x)
       else digits_f ds dp)
  end.

(** A number literal decoded into [float64], as [json.Unmarshal] does into
    [any]: out of range is an error. *)
Definition number_float (lit : string) : option float64 := parse_float lit.
