(* ===== verification/Domain.v ===== *)
(** * The domain vocabulary

    src/internal/domain: identifiers, scopes, effects, verdicts and stages; costs,
    budgets and ceilings (cost.go, budget.go); data-flow labels (labels.go). The distinct string types of the source are all [string] here;
    a [uint8] enumeration is its number, so a value no constant names is a value
    of the type, as it is in Go. *)

From Stdlib Require Import ZArith Lia Ascii String Sorting.Sorted.
From stdpp Require Import base list strings gmap.
From S2P Require Import Prelude GoStrings Json.

Local Open Scope string_scope.

Abbreviation CompanyID := string (only parsing).
Abbreviation AreaID := string (only parsing).
Abbreviation AgentID := string (only parsing).
Abbreviation VersionID := string (only parsing).
Abbreviation RunID := string (only parsing).
Abbreviation ToolID := string (only parsing).
Abbreviation UserID := string (only parsing).
Abbreviation WorkItemRef := string (only parsing).

(** ** Scopes (ids.go, installation.go) *)

Record Scope := MkScope { Company : CompanyID; Area : AreaID }.

#[export] Instance Scope_eq_dec : EqDecision Scope.
Proof. solve_decision. Defined.

Definition zeroScope : Scope := MkScope "" "".

(** The scope above every company. *)
Definition Installation : CompanyID := "*".

Definition Scope_IsInstallation (s : Scope) : bool :=
  String.eqb (Company s) Installation && String.eqb (Area s) "".

Definition Scope_Valid (s : Scope) : bool :=
  negb (String.eqb (Company s) "") && negb (String.eqb (Area s) "").

Definition Scope_String (s : Scope) : string := Company s +:+ "/" +:+ Area s.

(** Whether a grant in [s] reaches [other]. *)
Definition Scope_Contains (s other : Scope) : bool :=
  if String.eqb (Company s) Installation then String.eqb (Area s) ""
  else if negb (String.eqb (Company s) (Company other)) then false
  else String.eqb (Area s) "" || String.eqb (Area s) (Area other).

(** Reads the "company/area" form. *)
Definition ParseScope (v : string) : option Scope :=
  match cut_byte "/" v with
  | None => None
  | Some (company, area) =>
      if String.eqb company "" || String.eqb area "" then None
      else if String.eqb company Installation then None
      else Some (MkScope company area)
  end.

(** A byte an area or company identifier may hold. *)
Definition company_byte (c : ascii) : bool :=
  let n := byte_of c in
  between 97%N 122%N n || between 48%N 57%N n || N.eqb n 45.

Fixpoint all_bytes (f : ascii -> bool) (s : string) : bool :=
  match s with
  | EmptyString => true
  | String c s' => f c && all_bytes f s'
  end.

(** Refuses what cannot be a company. *)
Definition ValidCompanyID (id : string) : bool :=
  let trimmed := trim_space id in
  negb (String.eqb trimmed "") &&
  (String.length trimmed <=? 40)%nat &&
  all_bytes company_byte trimmed &&
  negb (has_prefix "-" trimmed) && negb (has_suffix "-" trimmed).

(** ** Tool identifiers (agent.go, memory.go, workitem.go, workitem_alias.go, ids.go) *)

Definition ToolContextRead : ToolID := "$fuseone.context.read".
Definition ToolTicketAnswer : ToolID := "$fuseone.ticket.answer".
Definition ToolMemoryFind : ToolID := "$fuseone.memory.find".
Definition ToolMemorySuggest : ToolID := "$fuseone.memory.suggest".
Definition ToolWorkItemClaim : ToolID := "$fuseone.work_item.claim".
Definition ToolWorkItemLink : ToolID := "$fuseone.work_item.link".

Definition ToolID_PlatformOwned (t : ToolID) : bool :=
  existsb (String.eqb t)
    [ToolContextRead; ToolTicketAnswer; ToolMemoryFind; ToolMemorySuggest;
     ToolWorkItemClaim; ToolWorkItemLink].

Definition ToolID_Server (t : ToolID) : string :=
  if ToolID_PlatformOwned t then ""
  else match cut_byte "." t with
       | None => ""
       | Some (server, _) => server
       end.

Definition ToolID_Coordination (t : ToolID) : bool :=
  String.eqb t ToolWorkItemClaim || String.eqb t ToolWorkItemLink.

Definition ToolID_CreatesPullRequest (t : ToolID) : bool :=
  match cut_byte "." t with
  | None => false
  | Some (server, name) =>
      negb (String.eqb server "") && String.eqb name "create_pull_request" &&
      negb (ToolID_PlatformOwned t)
  end.

(** ** Effects (effect.go): a [uint8] *)

Abbreviation Effect := Z (only parsing).
Definition EffectUnknown : Effect := 0%Z.
Definition EffectRead : Effect := 1%Z.
Definition EffectWrite : Effect := 2%Z.
Definition EffectDestructive : Effect := 3%Z.
Definition EffectFinancial : Effect := 4%Z.

Definition effectNames : list (Effect * string) :=
  [(EffectUnknown, "unknown"); (EffectRead, "read"); (EffectWrite, "write");
   (EffectDestructive, "destructive"); (EffectFinancial, "financial")].

Definition name_of (names : list (Z * string)) (e : Z) : option string :=
  match List.find (fun p => Z.eqb (fst p) e) names with
  | Some (_, n) => Some n
  | None => None
  end.

Definition Effect_String (e : Effect) : string :=
  match name_of effectNames e with
  | Some n => n
  | None => "effect(" +:+ print_Z e +:+ ")"
  end.

Definition Effect_Valid (e : Effect) : bool :=
  match name_of effectNames e with
  | Some _ => negb (Z.eqb e EffectUnknown)
  | None => false
  end.

Definition Effect_Reversible (e : Effect) : bool :=
  Z.eqb e EffectRead || Z.eqb e EffectWrite.

Definition Effect_AtLeast (e min : Effect) : bool := (min <=? e)%Z.

Definition ParseEffect (v : string) : option Effect :=
  match List.find (fun p => String.eqb (snd p) v && negb (Z.eqb (fst p) EffectUnknown))
          effectNames with
  | Some (e, _) => Some e
  | None => None
  end.

(** ** Verdicts (verdict.go): a [uint8], and compared as one *)

Abbreviation Verdict := Z (only parsing).
Definition VerdictUnknown : Verdict := 0%Z.
Definition VerdictAllow : Verdict := 1%Z.
Definition VerdictConstrain : Verdict := 2%Z.
Definition VerdictRequireApproval : Verdict := 3%Z.
Definition VerdictBlock : Verdict := 4%Z.
Definition VerdictDuplicate : Verdict := 5%Z.

Definition verdictNames : list (Verdict * string) :=
  [(VerdictUnknown, "unknown"); (VerdictAllow, "allow"); (VerdictConstrain, "constrain");
   (VerdictRequireApproval, "require_approval"); (VerdictBlock, "block");
   (VerdictDuplicate, "duplicate")].

Definition Verdict_String (v : Verdict) : string :=
  match name_of verdictNames v with
  | Some n => n
  | None => "verdict(" +:+ print_Z v +:+ ")"
  end.

Definition Verdict_Executable (v : Verdict) : bool :=
  Z.eqb v VerdictAllow || Z.eqb v VerdictConstrain.

Definition Verdict_Terminal (v : Verdict) : bool :=
  Z.eqb v VerdictBlock || Z.eqb v VerdictDuplicate.

Definition ParseVerdict (s : string) : option Verdict :=
  match List.find (fun p => String.eqb (snd p) s && negb (Z.eqb (fst p) VerdictUnknown))
          verdictNames with
  | Some (v, _) => Some v
  | None => None
  end.

(** ** Stages (autonomy.go) *)

Abbreviation Stage := string (only parsing).
Definition StageDraft : Stage := "draft".
Definition StageCopilot : Stage := "copilot".
Definition StageAutonomous : Stage := "autonomous".

Definition Stage_Valid (s : Stage) : bool :=
  existsb (String.eqb s) [StageDraft; StageCopilot; StageAutonomous].

Definition StageOf (s : string) : Stage := if Stage_Valid s then s else StageDraft.

Definition Stage_NeedsApproval (s : Stage) (effect : Effect) : bool :=
  String.eqb s StageCopilot && negb (Z.eqb effect EffectRead).

(** ** Standing approvals and stops (standing.go, stop.go) *)

Abbreviation StandingPolicy := string (only parsing).
Definition StandingAllowed : StandingPolicy := "".
Definition StandingForbidden : StandingPolicy := "forbidden".
Definition StandingPolicy_Forbidden (p : StandingPolicy) : bool := String.eqb p StandingForbidden.
Definition StandingPolicy_Validate (p : StandingPolicy) : bool :=
  String.eqb p StandingAllowed || String.eqb p StandingForbidden.

Definition StopInstallation : string := "installation".
Definition StopScope : string := "scope".
Definition StopAgent : string := "agent".

Definition StopLevel_Valid (l : string) : bool :=
  existsb (String.eqb l) [StopInstallation; StopScope; StopAgent].

Record Stop := {
  Stop_Level : string;
  Stop_Scope : Scope;
  Stop_Agent : AgentID;
  Stop_Reason : string;
  Stop_By : UserID;
  Stop_At : Time
}.

Definition Stop_Key (s : Stop) : string :=
  if String.eqb (Stop_Level s) StopInstallation then "installation"
  else if String.eqb (Stop_Level s) StopScope
       then "scope:" +:+ Company (Stop_Scope s) +:+ "/" +:+ Area (Stop_Scope s)
       else "agent:" +:+ Stop_Agent s.

Definition Stop_Covers (s : Stop) (scope : Scope) (agent : AgentID) : bool :=
  if String.eqb (Stop_Level s) StopInstallation then true
  else if String.eqb (Stop_Level s) StopScope then Scope_Contains (Stop_Scope s) scope
  else if String.eqb (Stop_Level s) StopAgent then String.eqb (Stop_Agent s) agent
  else false.

(** ** Facts about scopes *)

Lemma Contains_spec s o :
  Scope_Contains s o = true <->
  s = MkScope Installation "" \/
  (Company s <> Installation /\ Company s = Company o /\ (Area s = "" \/ Area s = Area o)).
Proof.
  destruct s as [c a]. unfold Scope_Contains. simpl.
  destruct (String.eqb_spec c Installation) as [->|Hc]; [rewrite String.eqb_eq; naive_solver|].
  destruct (String.eqb_spec c (Company o)) as [->|Hne]; simpl; [|naive_solver].
  bsimp. naive_solver.
Qed.

Lemma Contains_trans a b c :
  Scope_Contains a b = true -> Scope_Contains b c = true -> Scope_Contains a c = true.
Proof. rewrite !Contains_spec. destruct a, b, c; naive_solver. Qed.

Lemma cut_byte_app c l r :
  (forall x, String.get x l <> Some c) -> cut_byte c (l +:+ String c r) = Some (l, r).
Proof.
  induction l as [|a l IH]; intros Hl; simpl; [by rewrite Ascii.eqb_refl|].
  destruct (Ascii.eqb_spec a c) as [->|]; [by destruct (Hl 0%nat)|].
  rewrite IH; [done|]. intros x. exact (Hl (S x)).
Qed.

Lemma cut_byte_Some c s l r : cut_byte c s = Some (l, r) -> s = l +:+ String c r.
Proof.
  revert l r. induction s as [|a s IH]; intros l r; simpl; [done|].
  destruct (Ascii.eqb_spec a c) as [->|]; [naive_solver|].
  destruct (cut_byte c s) as [[l' r']|]; [|done]. intros [= <- <-].
  simpl. by rewrite (IH l' r').
Qed.

(** * Money, tokens and ceilings

    src/internal/domain/cost.go and budget.go. Every quantity is an [int64] and
    its arithmetic wraps. A ceiling of zero in a dimension is no ceiling. *)

Record Cost := MkCost {
  InputTokens : Z;
  OutputTokens : Z;
  CacheReadTokens : Z;
  CacheWriteTokens : Z;
  CacheWrite1hTokens : Z;
  Cost_Micros : Z
}.

#[export] Instance Cost_eq_dec : EqDecision Cost.
Proof. solve_decision. Defined.

Definition zeroCost : Cost := MkCost 0 0 0 0 0 0.

Definition Cost_Add (c o : Cost) : Cost :=
  MkCost (add64 (InputTokens c) (InputTokens o))
         (add64 (OutputTokens c) (OutputTokens o))
         (add64 (CacheReadTokens c) (CacheReadTokens o))
         (add64 (CacheWriteTokens c) (CacheWriteTokens o))
         (add64 (CacheWrite1hTokens c) (CacheWrite1hTokens o))
         (add64 (Cost_Micros c) (Cost_Micros o)).

Definition Cost_Sub (c o : Cost) : Cost :=
  MkCost (sub64 (InputTokens c) (InputTokens o))
         (sub64 (OutputTokens c) (OutputTokens o))
         (sub64 (CacheReadTokens c) (CacheReadTokens o))
         (sub64 (CacheWriteTokens c) (CacheWriteTokens o))
         (sub64 (CacheWrite1hTokens c) (CacheWrite1hTokens o))
         (sub64 (Cost_Micros c) (Cost_Micros o)).

Definition Cost_IsZero (c : Cost) : bool := bool_decide (c = zeroCost).

Definition Cost_TotalTokens (c : Cost) : Z :=
  add64 (add64 (add64 (InputTokens c) (OutputTokens c)) (CacheReadTokens c))
        (CacheWriteTokens c).

(** A run's envelope, and what a run has spent or reserved of it. *)
Record Budget := MkBudget {
  B_Micros : Z;
  B_Tokens : Z;
  B_ToolCalls : Z;
  B_Steps : Z;
  B_WallClockMS : Z
}.

Record Consumption := MkConsumption {
  C_Micros : Z;
  C_Tokens : Z;
  C_ToolCalls : Z;
  C_Steps : Z;
  C_WallClockMS : Z
}.

#[export] Instance Budget_eq_dec : EqDecision Budget.
Proof. solve_decision. Defined.
#[export] Instance Consumption_eq_dec : EqDecision Consumption.
Proof. solve_decision. Defined.

Definition zeroBudget : Budget := MkBudget 0 0 0 0 0.
Definition zeroConsumption : Consumption := MkConsumption 0 0 0 0 0.

(** One dimension of a ceiling that is set and breached. *)
Definition breaches (ceiling used : Z) : bool := ((0 <? ceiling) && (ceiling <? used))%Z.

(** The first ceiling breached, or the empty string. *)
Definition Budget_Exceeds (b : Budget) (c : Consumption) : string :=
  if breaches (B_Micros b) (C_Micros c) then "cost"
  else if breaches (B_Tokens b) (C_Tokens c) then "tokens"
  else if breaches (B_ToolCalls b) (C_ToolCalls c) then "tool calls"
  else if breaches (B_Steps b) (C_Steps c) then "steps"
  else if breaches (B_WallClockMS b) (C_WallClockMS c) then "wall clock"
  else "".

Definition minPositive (a b : Z) : Z :=
  if (a <=? 0)%Z then b
  else if (b <=? 0)%Z then a
  else if (a <? b)%Z then a
  else b.

Definition Budget_Narrow (b parent : Budget) : Budget :=
  MkBudget (minPositive (B_Micros b) (B_Micros parent))
           (minPositive (B_Tokens b) (B_Tokens parent))
           (minPositive (B_ToolCalls b) (B_ToolCalls parent))
           (minPositive (B_Steps b) (B_Steps parent))
           (minPositive (B_WallClockMS b) (B_WallClockMS parent)).

Definition remaining (ceiling spent : Z) : Z :=
  if (ceiling <=? 0)%Z then 0%Z
  else let left := sub64 ceiling spent in
       if (0 <? left)%Z then left else 1%Z.

Definition Headroom (ceiling : Budget) (spent : Consumption) : Budget :=
  MkBudget (remaining (B_Micros ceiling) (C_Micros spent))
           (remaining (B_Tokens ceiling) (C_Tokens spent))
           (remaining (B_ToolCalls ceiling) (C_ToolCalls spent))
           (remaining (B_Steps ceiling) (C_Steps spent))
           (remaining (B_WallClockMS ceiling) (C_WallClockMS spent)).

(** ** A consumption that fits

    The specification [Budget_Exceeds] implements: every dimension with a
    ceiling is within it. *)

Definition dim_fits (ceiling used : Z) : Prop := (0 < ceiling -> used <= ceiling)%Z.

Definition Fits (b : Budget) (c : Consumption) : Prop :=
  dim_fits (B_Micros b) (C_Micros c) /\ dim_fits (B_Tokens b) (C_Tokens c) /\
  dim_fits (B_ToolCalls b) (C_ToolCalls c) /\ dim_fits (B_Steps b) (C_Steps c) /\
  dim_fits (B_WallClockMS b) (C_WallClockMS c).

Lemma breaches_false c u : breaches c u = false <-> dim_fits c u.
Proof. unfold breaches, dim_fits. bsimp. lia. Qed.

Lemma exceeds_fits b c : Budget_Exceeds b c = "" <-> Fits b c.
Proof.
  unfold Budget_Exceeds, Fits. rewrite <- !breaches_false.
  repeat case_match; naive_solver.
Qed.

Lemma minPositive_fits a b u : dim_fits (minPositive a b) u <-> dim_fits a u /\ dim_fits b u.
Proof.
  unfold minPositive, dim_fits.
  destruct (Z.leb_spec a 0), (Z.leb_spec b 0), (Z.ltb_spec a b); lia.
Qed.

Lemma remaining_pos c s : (0 < c)%Z -> (0 < remaining c s)%Z.
Proof.
  unfold remaining. destruct (Z.leb_spec c 0); [lia|].
  destruct (Z.ltb_spec 0 (sub64 c s)); lia.
Qed.

#[export] Hint Resolve remaining_pos : fuse.

(** * Data-flow labels

    src/internal/domain/labels.go. A label set is a strictly sorted slice of
    strings; [Has] is a binary search, so it answers membership only on a slice
    that is sorted. [label_set] is that invariant, and every operation below
    establishes or keeps it. *)

Abbreviation Labels := (list string) (only parsing).

Definition LabelUntrusted : string := "untrusted".
Definition LabelPersonal : string := "personal".
Definition LabelSecret : string := "secret".
Definition labelCompanyPrefix : string := "company:".
Definition labelAreaPrefix : string := "area:".

Definition NewLabels (values : list string) : Labels :=
  sort_compact (List.filter (fun v => negb (String.eqb v "")) (List.map trim_space values)).

Definition Labels_Has (l : Labels) (v : string) : bool := binary_search l v.

Definition Labels_HasAny (l : Labels) (values : list string) : bool :=
  existsb (Labels_Has l) values.

(** A nil slice and an empty one are one value here. *)
Definition Labels_Clone (l : Labels) : Labels := l.

Definition Labels_Union (l other : Labels) : Labels :=
  match l, other with
  | [], _ => Labels_Clone other
  | _, [] => Labels_Clone l
  | _, _ => sort_compact (l ++ other)
  end.

Definition UnionAll (sets : list Labels) : Labels := fold_left Labels_Union sets [].

Definition Labels_String (l : Labels) : string := join_str "," l.

Definition LabelCompany (company : CompanyID) : string := labelCompanyPrefix +:+ company.
Definition LabelArea (scope : Scope) : string := labelAreaPrefix +:+ Scope_String scope.

Definition ScopeLabels (scope : Scope) : Labels :=
  if String.eqb (Company scope) "" || String.eqb (Company scope) Installation then []
  else if String.eqb (Area scope) "" then NewLabels [LabelCompany (Company scope)]
  else NewLabels [LabelCompany (Company scope); LabelArea scope].

(** ** The data barrier *)

(** The scope a label names, whether it parsed, and whether the label is one
    the platform reserves. *)
Definition scopeFromLabel (label : string) : Scope * bool * bool :=
  match cut_prefix labelCompanyPrefix label with
  | Some company =>
      if String.eqb company "" || String.eqb company Installation
      then (zeroScope, false, true)
      else (MkScope company "", true, true)
  | None =>
      match cut_prefix labelAreaPrefix label with
      | Some raw =>
          match ParseScope raw with
          | Some scope => (scope, true, true)
          | None => (zeroScope, false, true)
          end
      | None => (zeroScope, false, false)
      end
  end.

Record ScopeBoundaryViolation := {
  V_Label : string;
  V_Origin : Scope;
  V_Target : Scope
}.

(** [%q] of a label: its quotes and backslashes escaped. *)
Fixpoint quote_body (s : string) : string :=
  match s with
  | EmptyString => EmptyString
  | String c s' =>
      (match byte_of c with
       | 34%N => chr 92 +:+ chr 34
       | 92%N => chr 92 +:+ chr 92
       | _ => String c EmptyString
       end) +:+ quote_body s'
  end.

Definition go_quote (s : string) : string := chr 34 +:+ quote_body s +:+ chr 34.

Definition Violation_Error (v : ScopeBoundaryViolation) : string :=
  if bool_decide (V_Origin v = zeroScope)
  then "data label " +:+ go_quote (V_Label v) +:+ " is not a valid scope label"
  else "data from " +:+ Scope_String (V_Origin v) +:+ " cannot enter scope "
         +:+ Scope_String (V_Target v).

(** The first loop: refuses a reserved label that does not parse, and collects
    the companies some area label belongs to. *)
Fixpoint barrier_companies (target : Scope) (l : Labels) (seen : gset CompanyID)
    : result ScopeBoundaryViolation (gset CompanyID) :=
  match l with
  | [] => Ok seen
  | label :: l' =>
      let '(origin, ok, reserved) := scopeFromLabel label in
      if negb reserved then barrier_companies target l' seen
      else if negb ok then Err {| V_Label := label; V_Origin := zeroScope; V_Target := target |}
      else if negb (String.eqb (Area origin) "")
           then barrier_companies target l' ({[Company origin]} ∪ seen)
           else barrier_companies target l' seen
  end.

(** The second loop: the first label whose scope the target does not reach. A
    company label is passed over when an area label of that company is there. *)
Fixpoint barrier_check (target : Scope) (companies : gset CompanyID) (l : Labels)
    : result ScopeBoundaryViolation unit :=
  match l with
  | [] => Ok tt
  | label :: l' =>
      let '(origin, ok, reserved) := scopeFromLabel label in
      if negb reserved then barrier_check target companies l'
      else if negb ok then Err {| V_Label := label; V_Origin := zeroScope; V_Target := target |}
      else if String.eqb (Area origin) "" && bool_decide (Company origin ∈ companies)
           then barrier_check target companies l'
      else if negb (Scope_Contains target origin)
           then Err {| V_Label := label; V_Origin := origin; V_Target := target |}
      else barrier_check target companies l'
  end.

Definition Labels_ScopeBoundaryViolation (l : Labels) (target : Scope)
    : option ScopeBoundaryViolation :=
  match barrier_companies target l ∅ with
  | Err v => Some v
  | Ok companies =>
      match barrier_check target companies l with
      | Err v => Some v
      | Ok _ => None
      end
  end.

(** ** The invariant *)

Definition label_set (l : Labels) : Prop := StronglySorted str_lt l.

Lemma label_set_nil : label_set [].
Proof. constructor. Qed.

Lemma NewLabels_set vs : label_set (NewLabels vs).
Proof. apply sort_compact_sorted. Qed.

Lemma Union_set l o : label_set l -> label_set o -> label_set (Labels_Union l o).
Proof.
  intros Hl Ho. destruct l, o; simpl; auto. apply sort_compact_sorted.
Qed.

#[export] Hint Resolve label_set_nil NewLabels_set Union_set : fuse.

Lemma NewLabels_In vs x :
  In x (NewLabels vs) <-> x <> "" /\ exists v, In v vs /\ x = trim_space v.
Proof.
  unfold NewLabels. rewrite sort_compact_In, List.filter_In, in_map_iff.
  bsimp. naive_solver.
Qed.

Lemma Union_In l o x : In x (Labels_Union l o) <-> In x l \/ In x o.
Proof.
  destruct l as [|a l], o as [|b o]; simpl; try naive_solver.
  rewrite (sort_compact_In (a :: l ++ b :: o)). simpl. rewrite in_app_iff. naive_solver.
Qed.

Lemma UnionAll_In_from sets acc x :
  In x (fold_left Labels_Union sets acc) <-> In x acc \/ exists s, In s sets /\ In x s.
Proof.
  revert acc. induction sets as [|s sets IH]; intros acc; simpl; [naive_solver|].
  rewrite IH, Union_In. naive_solver.
Qed.

Lemma UnionAll_set_from sets acc :
  label_set acc -> Forall label_set sets -> label_set (fold_left Labels_Union sets acc).
Proof.
  intros Hacc H. revert acc Hacc. induction H; simpl; intros; auto with fuse.
Qed.

Lemma Has_In l v : label_set l -> Labels_Has l v = true <-> In v l.
Proof. apply binary_search_In. Qed.

Lemma HasAny_In l vs :
  label_set l -> Labels_HasAny l vs = true <-> exists v, In v vs /\ In v l.
Proof.
  intros Hl. unfold Labels_HasAny. rewrite existsb_exists.
  setoid_rewrite Has_In; [|done]. naive_solver.
Qed.

(** ** What the barrier lets through

    The specification of [Labels_ScopeBoundaryViolation]: every reserved label
    parses, and names a scope the target reaches unless it is a company label
    standing beside an area label of the same company. *)

Definition has_area_of (l : Labels) (company : CompanyID) : Prop :=
  exists label o, In label l /\ scopeFromLabel label = (o, true, true) /\
    Area o <> "" /\ Company o = company.

Definition label_allowed (l : Labels) (target : Scope) (label : string) : Prop :=
  match scopeFromLabel label with
  | (_, _, false) => True
  | (_, false, true) => False
  | (o, true, true) => (Area o = "" /\ has_area_of l (Company o)) \/ Scope_Contains target o = true
  end.

Lemma has_area_of_cons label l c :
  has_area_of (label :: l) c <->
  (exists o, scopeFromLabel label = (o, true, true) /\ Area o <> "" /\ Company o = c) \/
  has_area_of l c.
Proof.
  unfold has_area_of. split.
  - intros (lb & o & [<-|Hin] & Ho & Ha & Hc); [left|right]; eauto 10.
  - intros [(o & Ho)|(lb & o & Hin & Ho)]; [exists label, o|exists lb, o]; simpl; tauto.
Qed.

Lemma barrier_companies_Ok target l seen cs :
  barrier_companies target l seen = Ok cs ->
  forall c, c ∈ cs <-> c ∈ seen \/ has_area_of l c.
Proof.
  revert seen. induction l as [|label l IH]; intros seen H c; simpl in H.
  { simplify_eq. split; [by left|]. intros [|(lb & o & [] & _)]; done. }
  rewrite has_area_of_cons.
  destruct (scopeFromLabel label) as [[o ok] res] eqn:E.
  destruct res; simpl in H; [destruct ok; simpl in H; [|done]|].
  - destruct (String.eqb_spec (Area o) "") as [Ha|Ha]; simpl in H; rewrite (IH _ H).
    + split; [tauto|]. intros [|[(o' & [= <-] & ? & ?)|]]; tauto.
    + rewrite elem_of_union, elem_of_singleton.
      split; [intros [[->|]|]; eauto 10|]. intros [|[(o' & [= <-] & ? & <-)|]]; tauto.
  - rewrite (IH _ H). split; [tauto|]. intros [|[(o' & [=] & _)|]]; tauto.
Qed.

Lemma barrier_companies_Err target l seen v :
  barrier_companies target l seen = Err v -> exists label, In label l /\
    exists o, scopeFromLabel label = (o, false, true).
Proof.
  revert seen. induction l as [|label l IH]; intros seen H; simpl in H; [done|].
  destruct (scopeFromLabel label) as [[o ok] res] eqn:E.
  destruct res; simpl in H; [destruct ok; simpl in H|].
  - destruct (String.eqb (Area o) ""); simpl in H; apply IH in H as (x & ? & ?);
      exists x; simpl; auto.
  - exists label. simpl. eauto.
  - apply IH in H as (x & ? & ?). exists x; simpl; auto.
Qed.

Lemma barrier_check_Ok target cs full l :
  (forall c, c ∈ cs <-> has_area_of full c) ->
  barrier_check target cs l = Ok tt <-> Forall (label_allowed full target) l.
Proof.
  intros Hcs. induction l as [|label l IH]; simpl; [done|].
  rewrite List.Forall_cons_iff, <- IH. unfold label_allowed at 1.
  destruct (scopeFromLabel label) as [[o ok] res].
  destruct ok, res; simpl; try tauto; [|by split; [|intros [[] _]]].
  rewrite <- Hcs.
  destruct (String.eqb_spec (Area o) "") as [Ha|Ha]; simpl;
    [destruct (bool_decide_reflect (Company o ∈ cs)) as [Hin|Hout]|];
    destruct (Scope_Contains target o); simpl; intuition congruence.
Qed.

Lemma barrier_spec l target :
  Labels_ScopeBoundaryViolation l target = None <-> Forall (label_allowed l target) l.
Proof.
  unfold Labels_ScopeBoundaryViolation.
  destruct (barrier_companies target l ∅) as [cs|v] eqn:E.
  - pose proof (barrier_companies_Ok _ _ _ _ E) as Hcs.
    rewrite <- (barrier_check_Ok target cs l l) by (intros c; rewrite Hcs; set_solver).
    destruct (barrier_check target cs l) as [[]|]; naive_solver.
  - split; [done|]. intros Hall. apply barrier_companies_Err in E as (label & Hin & o & Ho).
    rewrite List.Forall_forall in Hall. specialize (Hall _ Hin).
    unfold label_allowed in Hall. by rewrite Ho in Hall.
Qed.
