(* ===== verification/Policy.v ===== *)
(** * Authored policies

    src/internal/domain/policy.go and policy_match.go: a policy is a row, and
    matching one against a call is a conjunction of conditions. *)

From Stdlib Require Import ZArith Lia Ascii String.
From stdpp Require Import base list strings.
From S2P Require Import Prelude GoStrings Json Float Domain.

Local Open Scope string_scope.

Definition PolicyAllow : string := "allow".
Definition PolicyEscalate : string := "escalate".
Definition PolicyDeny : string := "deny".
Definition PolicyMonitor : string := "monitor".
Definition PolicyEnforce : string := "enforce".
Definition ReachInstallation : string := "installation".
Definition ReachScopes : string := "scopes".
Definition ReachAgents : string := "agents".

Definition PolicyEffect_Verdict (e : string) : Verdict :=
  if String.eqb e PolicyDeny then VerdictBlock
  else if String.eqb e PolicyEscalate then VerdictRequireApproval
  else VerdictAllow.

Record Condition := { Cond_Field : string; Cond_Op : string; Cond_Value : string }.

Definition OpEquals : string := "eq".
Definition OpNotEquals : string := "ne".
Definition OpGreaterThan : string := "gt".
Definition OpLessThan : string := "lt".
Definition OpContains : string := "contains".
Definition OpIn : string := "in".

Record Policy := {
  P_Code : string;
  P_Name : string;
  P_Owner : string;
  P_Reason : string;
  P_Resource : string;
  P_Effects : list Effect;
  P_Reach : string;
  P_Scopes : list Scope;
  P_Agents : list AgentID;
  P_Conditions : list Condition;
  P_Effect : string;
  P_Mode : string;
  P_Enabled : bool
}.

Record PolicyInput := {
  In_Tool : ToolID;
  In_Effect : Effect;
  In_Agent : AgentID;
  In_Scope : Scope;
  In_Labels : Labels;
  In_Args : string
}.

(** ** Reading a field *)

(** [fmt.Sprint] of a decoded value, which [render] falls back to for objects. *)
Fixpoint sprint (j : json) : string :=
  match j with
  | JNull => "<nil>"
  | JBool true => "true"
  | JBool false => "false"
  | JNum lit => match number_float lit with Some f => sprint_float f | None => "" end
  | JStr s => s
  | JArr l => "[" +:+ join_str " " (List.map sprint l) +:+ "]"
  | JObj fs => "map[" +:+ join_str " " (List.map (fun '(k, v) => k +:+ ":" +:+ sprint v) fs) +:+ "]"
  end.

Definition render (value : json) : string :=
  match value with
  | JStr v => v
  | JNum lit => match number_float lit with Some f => format_float f | None => "" end
  | JBool v => if v then "true" else "false"
  | JNull => ""
  | JArr v => print_Z (Z.of_nat (List.length v))
  | JObj _ => sprint (sort_keys value)
  end.

(** Every number of the document is in range, or [json.Unmarshal] refuses it. *)
Fixpoint numbers_ok (j : json) : bool :=
  match j with
  | JNum lit => bool_decide (is_Some (number_float lit))
  | JArr l => forallb numbers_ok l
  | JObj fs => forallb (fun '(_, v) => numbers_ok v) fs
  | _ => true
  end.

(** Walks a path of object keys. *)
Fixpoint walk_path (current : json) (parts : list string) : option json :=
  match parts with
  | [] => Some current
  | part :: rest =>
      match current with
      | JObj fs => match map_get part fs with
                   | Some v => walk_path v rest
                   | None => None
                   end
      | _ => None
      end
  end.

(** Decoding into [map[string]any] leaves a JSON [null] as the nil map. *)
Definition argOf (args path : string) : option string :=
  if String.eqb args "" then None
  else match unmarshal args with
       | Some (JObj fs) =>
           if numbers_ok (JObj fs)
           then option_map render (walk_path (JObj fs) (split_byte "." path))
           else None
       | _ => None
       end.

Definition fieldOf (field : string) (inp : PolicyInput) : option string :=
  if String.eqb field "tool.id" then Some (In_Tool inp)
  else if String.eqb field "tool.effect" then Some (Effect_String (In_Effect inp))
  else if String.eqb field "agent.id" then Some (In_Agent inp)
  else if String.eqb field "scope.company" then Some (Company (In_Scope inp))
  else if String.eqb field "scope.area" then Some (Area (In_Scope inp))
  else if String.eqb field "data.taint" then
    match In_Labels inp with [] => None | l => Some (join_str "," l) end
  else match cut_prefix "args." field with
       | Some path => argOf (In_Args inp) path
       | None => None
       end.

(** ** Comparing *)

(** As numbers when both sides are, as text otherwise. *)
Definition compares (actual want op : string) : bool :=
  match parse_float actual, parse_float want with
  | Some l, Some r =>
      if String.eqb op OpGreaterThan then float_lt r l else float_lt l r
  | _, _ =>
      if String.eqb op OpGreaterThan then String.ltb want actual else String.ltb actual want
  end.

Definition inList (actual want : string) : bool :=
  let wanted := split_byte "," want in
  existsb (fun have => existsb (fun w => equal_fold (trim_space have) (trim_space w)) wanted)
    (split_byte "," actual).

Definition Condition_holds (c : Condition) (inp : PolicyInput) : bool :=
  let field := fieldOf (Cond_Field c) inp in
  let present := bool_decide (is_Some field) in
  let actual := default "" field in
  if String.eqb (Cond_Op c) OpEquals then present && equal_fold actual (Cond_Value c)
  else if String.eqb (Cond_Op c) OpNotEquals
       then negb present || negb (equal_fold actual (Cond_Value c))
  else if String.eqb (Cond_Op c) OpGreaterThan || String.eqb (Cond_Op c) OpLessThan
       then present && compares actual (Cond_Value c) (Cond_Op c)
  else if String.eqb (Cond_Op c) OpContains
       then present && contains_str (to_lower (Cond_Value c)) (to_lower actual)
  else if String.eqb (Cond_Op c) OpIn then present && inList actual (Cond_Value c)
  else false.

(** ** Matching *)

Definition globMatches (pattern value : string) : bool :=
  if String.eqb pattern "" || String.eqb pattern "*" then true
  else match cut_suffix "*" pattern with
       | Some prefix => has_prefix prefix value
       | None => String.eqb pattern value
       end.

Definition Policy_Applies (p : Policy) (inp : PolicyInput) : bool :=
  if negb (P_Enabled p) then false
  else if negb (globMatches (P_Resource p) (In_Tool inp)) then false
  else if negb (List.length (P_Effects p) =? 0)%nat &&
          negb (existsb (Z.eqb (In_Effect inp)) (P_Effects p)) then false
  else if String.eqb (P_Reach p) ReachAgents
       then existsb (String.eqb (In_Agent inp)) (P_Agents p)
  else if String.eqb (P_Reach p) ReachScopes
       then existsb (fun scope => Scope_Contains scope (In_Scope inp)) (P_Scopes p)
  else true.

Definition Policy_Matches (p : Policy) (inp : PolicyInput) : bool :=
  Policy_Applies p inp && forallb (fun c => Condition_holds c inp) (P_Conditions p).
