(* ===== verification/Sha256.v ===== *)
(** * SHA-256

    crypto/sha256 and encoding/hex of the language's standard library, as the
    ledger (domain/hash.go), the gate (gate/gate.go) and the content references
    use them: FIPS 180-4 over byte strings, executable. Nothing is assumed of
    the function; theorems that rest on it being hard to collide say so by
    exhibiting the collision. *)

From Stdlib Require Import ZArith NArith Lia Ascii String.
From stdpp Require Import base list strings.
From S2P Require Import Prelude GoStrings Json.

Local Open Scope N_scope.

Definition word_mask : N := 0xffffffff.
Definition add32 (a b : N) : N := N.land (a + b) word_mask.
Definition rotr (n x : N) : N :=
  N.lor (N.shiftr x n) (N.land (N.shiftl x (32 - n)) word_mask).
Definition not32 (x : N) : N := N.lxor x word_mask.

Definition ch (x y z : N) : N := N.lxor (N.land x y) (N.land (not32 x) z).
Definition maj (x y z : N) : N := N.lxor (N.lxor (N.land x y) (N.land x z)) (N.land y z).
Definition big_sigma0 (x : N) : N := N.lxor (N.lxor (rotr 2 x) (rotr 13 x)) (rotr 22 x).
Definition big_sigma1 (x : N) : N := N.lxor (N.lxor (rotr 6 x) (rotr 11 x)) (rotr 25 x).
Definition small_sigma0 (x : N) : N := N.lxor (N.lxor (rotr 7 x) (rotr 18 x)) (N.shiftr x 3).
Definition small_sigma1 (x : N) : N := N.lxor (N.lxor (rotr 17 x) (rotr 19 x)) (N.shiftr x 10).

(** The constants are, as FIPS 180-4 derives them, the first 32 bits of the
    fractional parts of the cube and square roots of the first primes; they are
    computed once, when the file is compiled. *)
Definition is_prime (n : N) : bool :=
  forallb (fun d => negb (N.eqb (n mod N.of_nat d) 0)) (seq 2 (N.to_nat n - 2)).

Definition primes (count : nat) : list N :=
  List.firstn count (List.filter is_prime (List.map N.of_nat (seq 2 310))).

(** The integer cube root of [n], decided bit by bit from bit [k] down. *)
Fixpoint cube_root (k : nat) (root n : N) : N :=
  match k with
  | O => root
  | S k' =>
      let trial := N.lor root (N.shiftl 1 (N.of_nat k')) in
      cube_root k' (if trial * trial * trial <=? n then trial else root) n
  end.

Definition round_constants : list N :=
  Eval vm_compute in
  List.map (fun p => N.land (cube_root 36 0 (N.shiftl p 96)) word_mask) (primes 64).

Record chaining := {
  ha : N; hb : N; hc : N; hd : N; he : N; hf : N; hg : N; hh : N
}.

Definition chaining_of (ws : list N) : chaining :=
  {| ha := nth 0 ws 0; hb := nth 1 ws 0; hc := nth 2 ws 0; hd := nth 3 ws 0;
     he := nth 4 ws 0; hf := nth 5 ws 0; hg := nth 6 ws 0; hh := nth 7 ws 0 |}.

Definition initial_chaining : chaining :=
  Eval vm_compute in
  chaining_of (List.map (fun p => N.land (N.sqrt (N.shiftl p 64)) word_mask) (primes 8)).

Definition sha_round (s : chaining) (kw : N) : chaining :=
  let t1 := add32 (add32 (add32 (hh s) (big_sigma1 (he s))) (ch (he s) (hf s) (hg s))) kw in
  let t2 := add32 (big_sigma0 (ha s)) (maj (ha s) (hb s) (hc s)) in
  {| ha := add32 t1 t2; hb := ha s; hc := hb s; hd := hc s;
     he := add32 (hd s) t1; hf := he s; hg := hf s; hh := hg s |}.

(** The 64 rounds over a sliding window of sixteen schedule words. *)
Fixpoint sha_rounds (ks : list N) (window : list N) (s : chaining) : chaining :=
  match ks, window with
  | k :: ks', w :: rest =>
      let next := add32 (add32 (small_sigma1 (nth 13 rest 0)) (nth 8 rest 0))
                        (add32 (small_sigma0 (nth 0 rest 0)) w) in
      sha_rounds ks' (rest ++ [next])%list (sha_round s (add32 k w))
  | _, _ => s
  end.

Definition compress (h : chaining) (block : list N) : chaining :=
  let s := sha_rounds round_constants block h in
  {| ha := add32 (ha h) (ha s); hb := add32 (hb h) (hb s); hc := add32 (hc h) (hc s);
     hd := add32 (hd h) (hd s); he := add32 (he h) (he s); hf := add32 (hf h) (hf s);
     hg := add32 (hg h) (hg s); hh := add32 (hh h) (hh s) |}.

(** ** Bytes *)

Fixpoint bytes_of (s : string) : list N :=
  match s with
  | EmptyString => []
  | String c s' => byte_of c :: bytes_of s'
  end.

(** [n] low-order bytes of [v], most significant first. *)
Fixpoint be_bytes (n : nat) (v : N) : string :=
  match n with
  | O => EmptyString
  | S n' => String (ascii_of_N (N.shiftr v (8 * N.of_nat n') mod 256)) (be_bytes n' v)
  end.

Fixpoint words_of (bs : list N) : list N :=
  match bs with
  | a :: b :: c :: d :: rest => (((a * 256 + b) * 256 + c) * 256 + d) :: words_of rest
  | _ => []
  end.

(** The message, a 1 bit, zeros, and the length in bits. *)
Definition sha_pad (bs : list N) : list N :=
  let len := N.of_nat (List.length bs) in
  let zeros := (119 - len mod 64) mod 64 in
  (bs ++ [128] ++ List.repeat 0 (N.to_nat zeros) ++
     bytes_of (be_bytes 8 (8 * len)))%list.

Fixpoint blocks (n : nat) (ws : list N) (h : chaining) : chaining :=
  match n with
  | O => h
  | S n' => blocks n' (skipn 16 ws) (compress h (firstn 16 ws))
  end.

Definition digest_bytes (h : chaining) : string :=
  (be_bytes 4 (ha h) +:+ be_bytes 4 (hb h) +:+ be_bytes 4 (hc h) +:+ be_bytes 4 (hd h) +:+
   be_bytes 4 (he h) +:+ be_bytes 4 (hf h) +:+ be_bytes 4 (hg h) +:+ be_bytes 4 (hh h))%string.

(** [sha256.Sum256], as a slice of 32 bytes. *)
Definition sha256 (s : string) : string :=
  let ws := words_of (sha_pad (bytes_of s)) in
  digest_bytes (blocks (List.length ws / 16) ws initial_chaining).

(** ** encoding/hex *)

Definition hex_char (n : N) : ascii :=
  ascii_of_N (if n <? 10 then 48 + n else 87 + n).

Fixpoint hex_encode (s : string) : string :=
  match s with
  | EmptyString => EmptyString
  | String c s' =>
      String (hex_char (byte_of c / 16)) (String (hex_char (byte_of c mod 16)) (hex_encode s'))
  end.

Lemma be_bytes_length n v : String.length (be_bytes n v) = n.
Proof. induction n; simpl; auto. Qed.

(** The FIPS 180-4 vectors for one block, the empty message and two blocks. *)
Example sha256_abc :
  hex_encode (sha256 "abc") =
  "ba7816bf8f01cfea414140de5dae2223b00361a396177a9cb410ff61f20015ad"%string.
Proof. vm_compute. reflexivity. Qed.

Example sha256_empty :
  hex_encode (sha256 "") =
  "e3b0c44298fc1c149afbf4c8996fb92427ae41e4649b934ca495991b7852b855"%string.
Proof. vm_compute. reflexivity. Qed.

Example sha256_two_blocks :
  hex_encode (sha256 "abcdbcdecdefdefgefghfghighijhijkijkljklmklmnlmnomnopnopq") =
  "248d6a61d20638b8e5c026930c3e6039a33ce45964ff2167f6ecedd419db06c1"%string.
Proof. vm_compute. reflexivity. Qed.
