(* ===== verification/Dedupe.v ===== *)
(** * Semantic duplicates

    src/internal/domain/dedupe.go: the Curator's declaration of what makes two
    calls the same external act, and the fingerprint of a call under it. The
    keys and records of src/internal/dedupe/store.go are the types the engine
    exchanges with the store. *)

From Stdlib Require Import ZArith Lia Ascii String.
From stdpp Require Import base list strings sorting.
From S2P Require Import Prelude GoStrings Json JsonFacts Domain Sha256.

Local Open Scope string_scope.

(** ** The declaration (domain/dedupe.go) *)

Definition MinToolDedupeWindowSeconds : Z := 1.
Definition MaxToolDedupeWindowSeconds : Z := (365 * 24 * 60 * 60)%Z.
Definition MaxToolDedupeArgPaths : nat := 8.

Record ToolDedupe := MkToolDedupe {
  TD_WindowSeconds : Z;
  TD_ArgPaths : list string
}.

Inductive DedupeError :=
| ErrWindow
| ErrNoPath
| ErrTooManyPaths
| ErrPathForm (path : string)
| ErrPathTwice (path : string)
| ErrArgsNotJSON
| ErrPathAbsent (path : string).

Definition ToolDedupe_Enabled (d : ToolDedupe) : bool :=
  negb (Z.eqb (TD_WindowSeconds d) 0) || negb (List.length (TD_ArgPaths d) =? 0)%nat.

(** [[A-Za-z_]] and [[A-Za-z0-9_-]]. *)
Definition segment_head (c : ascii) : bool :=
  let n := byte_of c in between 65 90 n || between 97 122 n || N.eqb n 95.
Definition segment_byte (c : ascii) : bool :=
  segment_head c || is_digit c || Ascii.eqb c "-".

Definition segment_form (s : string) : bool :=
  match s with
  | EmptyString => false
  | String c rest => segment_head c && all_bytes segment_byte rest
  end.

Definition splitDottedPath (path : string) : list string := split_byte "." path.

(** [dedupeArgPathPattern]: segments between dots, each of that form. *)
Definition dedupeArgPathPattern (path : string) : bool :=
  forallb segment_form (splitDottedPath path).

Fixpoint validate_paths (seen paths : list string) : result DedupeError unit :=
  match paths with
  | [] => Ok tt
  | path :: rest =>
      if negb (dedupeArgPathPattern path) then Err (ErrPathForm path)
      else if existsb (String.eqb path) seen then Err (ErrPathTwice path)
      else validate_paths (path :: seen) rest
  end.

Definition ToolDedupe_Validate (d : ToolDedupe) : result DedupeError unit :=
  if negb (ToolDedupe_Enabled d) then Ok tt
  else if (TD_WindowSeconds d <? MinToolDedupeWindowSeconds)%Z ||
          (MaxToolDedupeWindowSeconds <? TD_WindowSeconds d)%Z then Err ErrWindow
  else if (List.length (TD_ArgPaths d) =? 0)%nat then Err ErrNoPath
  else if (MaxToolDedupeArgPaths <? List.length (TD_ArgPaths d))%nat then Err ErrTooManyPaths
  else validate_paths [] (TD_ArgPaths d).

(** ** The fingerprint *)

Definition decodeDedupeArgs (args : string) : result DedupeError json :=
  match decode_first args with
  | Some (root, rest) => if String.eqb (skip_ws rest) "" then Ok root else Err ErrArgsNotJSON
  | None => Err ErrArgsNotJSON
  end.

Fixpoint value_at (segments : list string) (current : json) : option json :=
  match segments with
  | [] => Some current
  | segment :: rest =>
      match current with
      | JObj fs => match map_get segment fs with Some v => value_at rest v | None => None end
      | _ => None
      end
  end.

Definition valueAtPath (root : json) (path : string) : option json :=
  value_at (splitDottedPath path) root.

Definition zero_byte : string := chr 0.

Fixpoint fingerprint_bytes (root : json) (paths : list string) : result DedupeError string :=
  match paths with
  | [] => Ok ""
  | path :: rest =>
      match valueAtPath root path with
      | None => Err (ErrPathAbsent path)
      | Some v =>
          tail ← fingerprint_bytes root rest;
          mret (path +:+ zero_byte +:+ marshal_any v +:+ zero_byte +:+ tail)
      end
  end.

Definition Fingerprint (d : ToolDedupe) (args : string) : result DedupeError string :=
  _ ← ToolDedupe_Validate d;
  root ← decodeDedupeArgs args;
  bytes ← fingerprint_bytes root (sort_str (TD_ArgPaths d));
  mret ("sha256:" +:+ String.substring 0 16 (hex_encode (sha256 bytes))).

(** ** Keys and records (dedupe/store.go) *)

Definition StateReserved : string := "reserved".
Definition StatePending : string := "pending".
Definition StateConfirmed : string := "confirmed".

Record DedupeKey := MkDedupeKey {
  DK_Scope : Scope;
  DK_AgentID : AgentID;
  DK_Tool : ToolID;
  DK_Fingerprint : string
}.

Definition DedupeKey_Validate (k : DedupeKey) : bool :=
  Scope_Valid (DK_Scope k) && negb (String.eqb (DK_AgentID k) "") &&
  negb (String.eqb (DK_Tool k) "") && negb (String.eqb (DK_Fingerprint k) "").

Record DedupeRecord := MkDedupeRecord {
  DR_State : string;
  DR_RunID : RunID;
  DR_Seq : Z;
  DR_ExpiresAt : Time
}.

(** ** What a fingerprint depends on *)

(** Two documents agree on the declared paths. *)
Definition agree_on (paths : list string) (a b : json) : Prop :=
  forall path, In path paths ->
    match valueAtPath a path, valueAtPath b path with
    | Some v, Some w => sort_keys v = sort_keys w
    | None, None => True
    | _, _ => False
    end.

Lemma fingerprint_bytes_agree a b paths :
  agree_on paths a b -> fingerprint_bytes a paths = fingerprint_bytes b paths.
Proof.
  induction paths as [|path paths IH]; intros H; [done|]. cbn [fingerprint_bytes].
  pose proof (H path (or_introl eq_refl)) as Hp. rewrite IH by (intros q Hq; apply H; by right).
  destruct (valueAtPath a path), (valueAtPath b path); try done.
  unfold marshal_any. by rewrite Hp.
Qed.

#[local] Instance str_le_antisymm : AntiSymm (=) str_le.
Proof.
  intros a b Ha Hb. apply str_le_lt_or_eq in Ha as [Ha|?]; [|done].
  by apply str_lt_not_le in Ha.
Qed.

Lemma sort_str_same l l' : Permutation l l' -> sort_str l = sort_str l'.
Proof.
  intros H. apply (StronglySorted_unique str_le); [apply sort_str_sorted..|].
  by rewrite !sort_str_perm.
Qed.

(** A fingerprint identifies the external act and nothing else: under one
    valid declaration two calls whose arguments agree on the declared fields
    have the same fingerprint whatever their other fields, white space and key
    order, and the order in which the Curator listed the fields is immaterial. *)
Theorem fingerprint_reads_declared_fields d d' a b va vb :
  ToolDedupe_Validate d = Ok tt -> ToolDedupe_Validate d' = Ok tt ->
  Permutation (TD_ArgPaths d) (TD_ArgPaths d') ->
  decodeDedupeArgs a = Ok va -> decodeDedupeArgs b = Ok vb ->
  agree_on (TD_ArgPaths d) va vb ->
  Fingerprint d a = Fingerprint d' b.
Proof.
  intros Hd Hd' Hp Ha Hb Hag. unfold Fingerprint. rewrite Hd, Hd', Ha, Hb. cbn.
  rewrite (sort_str_same _ _ Hp). rewrite (fingerprint_bytes_agree va vb); [done|].
  intros path Hin. apply Hag. apply (Permutation_in _ (sort_str_perm _)) in Hin.
  by apply (Permutation_in _ (Permutation_sym Hp)).
Qed.

Lemma fingerprint_reads_declared_fields_witness :
  Fingerprint (MkToolDedupe 60 ["id"; "to.mail"])
    (bytes_str [123; 34; 105; 100; 34; 58; 49; 44; 34; 116; 111; 34; 58; 123; 34; 109; 97; 105; 108;
                34; 58; 34; 97; 34; 125; 44; 34; 116; 34; 58; 57; 125]) =
  Fingerprint (MkToolDedupe 90 ["to.mail"; "id"])
    (bytes_str [123; 34; 116; 111; 34; 58; 32; 123; 34; 109; 97; 105; 108; 34; 58; 34; 97; 34; 125;
                44; 34; 105; 100; 34; 58; 49; 125]).
Proof.
  eapply fingerprint_reads_declared_fields.
  1, 2: vm_compute; reflexivity.
  1: apply perm_swap.
  1, 2: vm_compute; reflexivity.
  intros path [<-|[<-|[]]]; vm_compute; reflexivity.
Defined.
