(* ===== verification/Step.v ===== *)
(** * Ledger steps and the hash chain

    src/internal/domain/step.go and hash.go. A step is one immutable entry of a
    run's chain; [NewStep] seals it after its predecessor, [VerifyLink] and
    [VerifyChain] check the seals, and [computeHash] is SHA-256 over a
    length-prefixed encoding of every field. *)

From Stdlib Require Import ZArith NArith Lia Ascii String.
From stdpp Require Import base list strings.
From S2P Require Import Prelude GoStrings Json Domain Sha256.

Local Open Scope string_scope.

(** ** Kinds *)

Abbreviation StepKind := string (only parsing).
Definition StepRunStarted : StepKind := "run_started".
Definition StepPlanned : StepKind := "planned".
Definition StepGateDecided : StepKind := "gate_decided".
Definition StepBudgetReserved : StepKind := "budget_reserved".
Definition StepToolCalled : StepKind := "tool_called".
Definition StepToolReturned : StepKind := "tool_returned".
Definition StepEffectReconciled : StepKind := "effect_reconciled".
Definition StepBudgetReconciled : StepKind := "budget_reconciled".
Definition StepApprovalRequested : StepKind := "approval_requested".
Definition StepApprovalDecided : StepKind := "approval_decided".
Definition StepResumed : StepKind := "resumed".
Definition StepAbandoned : StepKind := "abandoned".
Definition StepCompensationStarted : StepKind := "compensation_started".
Definition StepCompensated : StepKind := "compensated".
Definition StepFailed : StepKind := "failed".
Definition StepParked : StepKind := "parked".
Definition StepRunFinished : StepKind := "run_finished".
Definition StepModelFallback : StepKind := "model_fallback".
Definition StepWorkItemClaimed : StepKind := "work_item_claimed".
Definition StepWorkItemLinked : StepKind := "work_item_linked".

Definition stepKinds : list StepKind :=
  [StepRunStarted; StepPlanned; StepGateDecided; StepBudgetReserved; StepToolCalled;
   StepToolReturned; StepEffectReconciled; StepBudgetReconciled; StepApprovalRequested;
   StepApprovalDecided; StepResumed; StepAbandoned; StepCompensationStarted; StepCompensated;
   StepFailed; StepParked; StepRunFinished; StepModelFallback; StepWorkItemClaimed;
   StepWorkItemLinked].

Definition StepKind_Valid (k : StepKind) : bool := existsb (String.eqb k) stepKinds.
Definition StepKinds : list StepKind := sort_str stepKinds.
Definition StepKind_Terminal (k : StepKind) : bool :=
  String.eqb k StepRunFinished || String.eqb k StepParked.

(** ** Steps *)

Definition FirstSeq : Z := 1.

(** A nil slice and an empty one are one value: every reader of [Payload] and
    [PrevHash] asks for the length or compares bytes. *)
Record Step := MkStep {
  S_RunID : RunID;
  S_Seq : Z;
  S_Kind : StepKind;
  S_Scope : Scope;
  S_AgentID : AgentID;
  S_VersionID : VersionID;
  S_OnBehalfOf : UserID;
  S_Payload : string;
  S_Labels : Labels;
  S_Cost : Cost;
  S_IdemKey : string;
  S_PolicyHash : string;
  S_At : Time;
  S_PrevHash : string;
  S_Hash : string
}.

#[export] Instance Step_eq_dec : EqDecision Step.
Proof. solve_decision. Defined.

Inductive StepError :=
| ErrNoRun
| ErrInvalidKind
| ErrInvalidScope
| ErrInvalidSeq
| ErrSeqGap (run : RunID) (prev seq : Z)
| ErrChainBroken
| ErrHashMismatch.

(** ** The digest (hash.go) *)

Definition hashDomain : string := "fuseone.agents.step.v1".

(** [uint64(v)] big-endian. *)
Definition writeInt (v : Z) : string := be_bytes 8 (Z.to_N (v mod 2 ^ 64)).
Definition writeBytes (b : string) : string :=
  be_bytes 8 (N.of_nat (String.length b)) +:+ b.

Fixpoint writeLabels (ls : list string) : string :=
  match ls with
  | [] => ""
  | l :: ls' => writeBytes l +:+ writeLabels ls'
  end.

(** The bytes [computeHash] feeds the digest, in order. *)
Definition preimage (s : Step) : string :=
  writeBytes hashDomain +:+ writeBytes (S_PrevHash s) +:+ writeBytes (S_RunID s) +:+
  writeInt (S_Seq s) +:+ writeBytes (S_Kind s) +:+ writeBytes (Company (S_Scope s)) +:+
  writeBytes (Area (S_Scope s)) +:+ writeBytes (S_AgentID s) +:+
  writeBytes (S_VersionID s) +:+ writeBytes (S_OnBehalfOf s) +:+
  writeBytes (S_Payload s) +:+ writeInt (Z.of_nat (List.length (S_Labels s))) +:+
  writeLabels (S_Labels s) +:+ writeInt (InputTokens (S_Cost s)) +:+
  writeInt (OutputTokens (S_Cost s)) +:+ writeInt (CacheReadTokens (S_Cost s)) +:+
  writeInt (CacheWriteTokens (S_Cost s)) +:+ writeInt (Cost_Micros (S_Cost s)) +:+
  writeBytes (S_IdemKey s) +:+ writeBytes (S_PolicyHash s) +:+
  writeInt (Time_UnixMicro (S_At s)) +:+
  (if Z.eqb (CacheWrite1hTokens (S_Cost s)) 0 then ""
   else writeBytes "cache_write_1h" +:+ writeInt (CacheWrite1hTokens (S_Cost s))).

Definition computeHash (s : Step) : string := sha256 (preimage s).

(** ** Sealing and checking (step.go, hash.go) *)

(** The draft once [NewStep] has placed, truncated and canonicalised it. *)
Definition placed (prev : option Step) (s : Step) : Step :=
  MkStep (S_RunID s)
    (match prev with None => FirstSeq | Some p => add64 (S_Seq p) 1 end)
    (S_Kind s) (S_Scope s) (S_AgentID s) (S_VersionID s) (S_OnBehalfOf s)
    (CanonicalJSON (S_Payload s)) (NewLabels (S_Labels s)) (S_Cost s) (S_IdemKey s)
    (S_PolicyHash s) (Time_TruncateMicro (S_At s))
    (match prev with None => "" | Some p => S_Hash p end) "".

Definition with_hash (s : Step) (h : string) : Step :=
  MkStep (S_RunID s) (S_Seq s) (S_Kind s) (S_Scope s) (S_AgentID s) (S_VersionID s)
    (S_OnBehalfOf s) (S_Payload s) (S_Labels s) (S_Cost s) (S_IdemKey s) (S_PolicyHash s)
    (S_At s) (S_PrevHash s) h.

Definition NewStep (prev : option Step) (s : Step) : result StepError Step :=
  if String.eqb (S_RunID s) "" then Err ErrNoRun
  else if negb (StepKind_Valid (S_Kind s)) then Err ErrInvalidKind
  else if negb (Scope_Valid (S_Scope s)) then Err ErrInvalidScope
  else
    let s' := placed prev s in
    if (S_Seq s' <? FirstSeq)%Z then Err ErrInvalidSeq
    else Ok (with_hash s' (computeHash s')).

(** [None] is a link that holds. *)
Definition VerifyLink (s : Step) (prev : option Step) : option StepError :=
  match prev with
  | None =>
      if negb (Z.eqb (S_Seq s) FirstSeq) then Some ErrInvalidSeq
      else if negb (String.eqb (S_PrevHash s) "") then Some ErrChainBroken
      else if negb (String.eqb (S_Hash s) (computeHash s)) then Some ErrHashMismatch
      else None
  | Some p =>
      if negb (Z.eqb (S_Seq s) (add64 (S_Seq p) 1))
      then Some (ErrSeqGap (S_RunID s) (S_Seq p) (S_Seq s))
      else if negb (String.eqb (S_PrevHash s) (S_Hash p)) then Some ErrChainBroken
      else if negb (String.eqb (S_Hash s) (computeHash s)) then Some ErrHashMismatch
      else None
  end.

Fixpoint verify_from (prev : option Step) (steps : list Step) : option StepError :=
  match steps with
  | [] => None
  | s :: rest =>
      match VerifyLink s prev with
      | Some e => Some e
      | None => verify_from (Some s) rest
      end
  end.

Definition VerifyChain (steps : list Step) : option StepError := verify_from None steps.

(** The last step of a list, or the step before it. *)
Definition last_or (prev : option Step) (steps : list Step) : option Step :=
  match List.rev steps with
  | [] => prev
  | s :: _ => Some s
  end.

(** ** StepRef *)

Record StepRef := MkStepRef { Ref_Seq : Z; Ref_Kind : StepKind }.

(** ** The encoding is injective

    Every variable-length field is preceded by its length, so two steps with
    the same preimage are the same step. *)

Lemma append_inv a b x y :
  String.length a = String.length b -> a +:+ x = b +:+ y -> a = b /\ x = y.
Proof.
  revert b. induction a as [|c a IH]; intros [|d b] Hl H; try discriminate; [auto|].
  rewrite !str_app_cons in H.
  injection Hl as Hl. injection H as -> H. destruct (IH b Hl H) as [-> ->]. auto.
Qed.

(** What [be_bytes] reads back as. *)
Fixpoint be_value (acc : N) (s : string) : N :=
  match s with
  | EmptyString => acc
  | String c s' => be_value (acc * 256 + byte_of c)%N s'
  end.

Lemma be_value_bytes n v acc :
  be_value acc (be_bytes n v) = (acc * 2 ^ (8 * N.of_nat n) + v mod 2 ^ (8 * N.of_nat n))%N.
Proof.
  revert acc. induction n as [|n IH]; intros acc.
  { simpl. rewrite N.mod_1_r. lia. }
  cbn [be_bytes be_value]. rewrite IH. unfold byte_of.
  rewrite N_ascii_embedding by (apply N.mod_lt; lia).
  replace (8 * N.of_nat (S n))%N with (8 * N.of_nat n + 8)%N by lia.
  rewrite N.shiftr_div_pow2, !N.pow_add_r.
  set (m := (2 ^ (8 * N.of_nat n))%N).
  assert (m <> 0)%N by (apply N.pow_nonzero; lia).
  change (2 ^ 8)%N with 256%N. rewrite (N.Div0.mod_mul_r v m 256). lia.
Qed.

Lemma be_bytes_inj n v w :
  (v < 2 ^ (8 * N.of_nat n))%N -> (w < 2 ^ (8 * N.of_nat n))%N ->
  be_bytes n v = be_bytes n w -> v = w.
Proof.
  intros Hv Hw H. apply (f_equal (be_value 0)) in H.
  rewrite !be_value_bytes, !N.mod_small in H by done. lia.
Qed.

(** A length Go's [len] can return. *)
Definition small (s : string) : Prop := (Z.of_nat (String.length s) < 2 ^ 63)%Z.

Lemma writeBytes_inv a b x y :
  small a -> small b -> writeBytes a +:+ x = writeBytes b +:+ y -> a = b /\ x = y.
Proof.
  unfold small, writeBytes. intros Ha Hb H. rewrite !str_app_assoc in H.
  apply append_inv in H as [Hl H]; [|by rewrite !be_bytes_length].
  apply be_bytes_inj in Hl; [|change (2 ^ (8 * N.of_nat 8))%N with 18446744073709551616%N; lia..].
  apply append_inv in H; [done|lia].
Qed.

Lemma writeInt_inv a b x y :
  in_int64 a = true -> in_int64 b = true -> writeInt a +:+ x = writeInt b +:+ y -> a = b /\ x = y.
Proof.
  rewrite !in_int64_spec. intros Ha Hb H. unfold writeInt in H.
  apply append_inv in H as [Hl H]; [|by rewrite !be_bytes_length].
  pose proof (Z.mod_pos_bound a (2 ^ 64) ltac:(lia)).
  pose proof (Z.mod_pos_bound b (2 ^ 64) ltac:(lia)).
  apply be_bytes_inj in Hl; [|change (2 ^ (8 * N.of_nat 8))%N with 18446744073709551616%N; lia..].
  apply Z2N.inj in Hl; [|lia..]. split; [|done].
  apply (f_equal (fun z => (z + 2 ^ 63) mod 2 ^ 64)%Z) in Hl.
  rewrite !Z.add_mod_idemp_l in Hl by lia. rewrite !Z.mod_small in Hl by lia. lia.
Qed.

Lemma writeLabels_inv ls ms x y :
  Forall small ls -> Forall small ms -> List.length ls = List.length ms ->
  writeLabels ls +:+ x = writeLabels ms +:+ y -> ls = ms /\ x = y.
Proof.
  intros Hls. revert ms. induction Hls as [|l ls Hl Hls IH]; intros [|m ms] Hms Hlen H;
    try discriminate; [auto|].
  cbn [writeLabels] in H. rewrite !str_app_assoc in H. inversion Hms; subst.
  apply writeBytes_inv in H as [-> H]; [|done..].
  apply IH in H as [-> ->]; auto.
Qed.

(** A step as the language can hold it and [NewStep] leaves it: lengths and
    integers within their widths, an instant that is a whole microsecond. *)
Definition WfStep (s : Step) : Prop :=
  Forall small [S_PrevHash s; S_RunID s; S_Kind s; Company (S_Scope s); Area (S_Scope s);
                S_AgentID s; S_VersionID s; S_OnBehalfOf s; S_Payload s; S_IdemKey s;
                S_PolicyHash s] /\
  Forall small (S_Labels s) /\
  (Z.of_nat (List.length (S_Labels s)) < 2 ^ 63)%Z /\
  forallb in_int64 [S_Seq s; InputTokens (S_Cost s); OutputTokens (S_Cost s);
                    CacheReadTokens (S_Cost s); CacheWriteTokens (S_Cost s);
                    CacheWrite1hTokens (S_Cost s); Cost_Micros (S_Cost s)] = true /\
  (S_At s mod 1000 = 0)%Z /\ in_int64 ((S_At s - unix_epoch) / 1000) = true.

Lemma small_hashDomain : small hashDomain.
Proof. vm_compute. reflexivity. Qed.

Lemma small_marker : small "cache_write_1h".
Proof. vm_compute. reflexivity. Qed.

Lemma UnixMicro_inj t u :
  (t mod 1000 = 0)%Z -> (u mod 1000 = 0)%Z ->
  in_int64 ((t - unix_epoch) / 1000) = true -> in_int64 ((u - unix_epoch) / 1000) = true ->
  Time_UnixMicro t = Time_UnixMicro u -> t = u.
Proof.
  unfold Time_UnixMicro. intros Ht Hu Bt Bu H. rewrite !wrap64_id in H by done.
  unfold unix_epoch in *. clear Bt Bu. Z.div_mod_to_equations. lia.
Qed.

(** The optional trailer is empty or starts with its marker. *)
Lemma trailer_inv a b :
  in_int64 a = true -> in_int64 b = true ->
  (if Z.eqb a 0 then "" else writeBytes "cache_write_1h" +:+ writeInt a) =
  (if Z.eqb b 0 then "" else writeBytes "cache_write_1h" +:+ writeInt b) -> a = b.
Proof.
  intros Ha Hb H. destruct (Z.eqb_spec a 0), (Z.eqb_spec b 0); subst; try done.
  apply writeBytes_inv in H as [_ H]; [|apply small_marker..].
  rewrite <- (str_app_nil (writeInt a)), <- (str_app_nil (writeInt b)) in H.
  by apply writeInt_inv in H as [-> _].
Qed.

Lemma of_nat_in_int64 n : (Z.of_nat n < 2 ^ 63)%Z -> in_int64 (Z.of_nat n) = true.
Proof. rewrite in_int64_spec. lia. Qed.

Ltac peel H :=
  lazymatch type of H with
  | writeBytes _ +:+ _ = _ =>
      apply writeBytes_inv in H as [? H]; [|solve [auto using small_hashDomain]..]
  | writeInt _ +:+ _ = _ =>
      apply writeInt_inv in H as [? H];
      [|solve [auto using of_nat_in_int64 | unfold Time_UnixMicro; auto using wrap64_range]..]
  | writeLabels _ +:+ _ = _ => apply writeLabels_inv in H as [? H]; [|solve [auto | lia]..]
  end.

Lemma preimage_inj s t :
  WfStep s -> WfStep t -> preimage s = preimage t -> with_hash s "" = with_hash t "".
Proof.
  intros (Hs & Hsl & Hsn & Hsi & Hsm & Hsb) (Ht & Htl & Htn & Hti & Htm & Htb) H.
  rewrite !List.Forall_cons_iff in Hs, Ht. simpl in Hsi, Hti.
  rewrite !andb_true_iff in Hsi, Hti. destruct_and!.
  unfold preimage in H. repeat peel H. apply trailer_inv in H; [|done..].
  assert (S_At s = S_At t) by (apply UnixMicro_inj; done).
  destruct s as [? ? ? [] ? ? ? ? ? [] ? ? ? ? ?], t as [? ? ? [] ? ? ? ? ? [] ? ? ? ? ?].
  unfold with_hash. simpl in *. congruence.
Qed.

(** ** Chains *)

Lemma digest_nonempty s : computeHash s <> "".
Proof. intros H. apply (f_equal String.length) in H. discriminate H. Qed.

Lemma verify_from_snoc prev l s :
  verify_from prev (l ++ [s]) = None <->
  verify_from prev l = None /\ VerifyLink s (last_or prev l) = None.
Proof.
  revert prev. induction l as [|x l IH]; intros prev; simpl.
  - unfold last_or. simpl. destruct (VerifyLink s prev); naive_solver.
  - destruct (VerifyLink x prev); [naive_solver|]. rewrite IH.
    assert (last_or (Some x) l = last_or prev (x :: l)) as ->; [|done].
    unfold last_or. simpl. destruct (List.rev l); done.
Qed.

Lemma last_or_snoc prev l s : last_or prev (l ++ [s]) = Some s.
Proof. unfold last_or. by rewrite rev_app_distr. Qed.

Lemma VerifyLink_None s prev :
  VerifyLink s prev = None <->
  S_Seq s = match prev with None => FirstSeq | Some p => add64 (S_Seq p) 1 end /\
  S_PrevHash s = match prev with None => "" | Some p => S_Hash p end /\
  S_Hash s = computeHash s.
Proof. unfold VerifyLink. destruct prev; repeat case_match; bsimp; naive_solver. Qed.

Lemma computeHash_with_hash s h : computeHash (with_hash s h) = computeHash s.
Proof. reflexivity. Qed.

Lemma NewStep_sealed prev s t :
  NewStep prev s = Ok t ->
  t = with_hash (placed prev s) (computeHash (placed prev s)) /\ (FirstSeq <= S_Seq t)%Z /\
  S_RunID s <> "" /\ StepKind_Valid (S_Kind s) = true /\ Scope_Valid (S_Scope s) = true.
Proof.
  unfold NewStep. cbn zeta. destruct (String.eqb_spec (S_RunID s) ""); [done|].
  destruct (StepKind_Valid (S_Kind s)); [|done]. destruct (Scope_Valid (S_Scope s)); [|done].
  simpl negb. cbv iota. destruct (Z.ltb_spec (S_Seq (placed prev s)) FirstSeq); [done|].
  intros [= <-]. auto.
Qed.

Lemma NewStep_links prev s t : NewStep prev s = Ok t -> VerifyLink t prev = None.
Proof.
  intros H. apply NewStep_sealed in H as [-> _]. apply VerifyLink_None.
  rewrite computeHash_with_hash. by destruct prev.
Qed.

Lemma NewStep_extends c s t :
  VerifyChain c = None -> NewStep (last_or None c) s = Ok t -> VerifyChain (c ++ [t]) = None.
Proof.
  intros Hc Ht. apply verify_from_snoc. split; [done|]. by apply NewStep_links in Ht.
Qed.

(** In a chain that verifies the sequence counts the steps. *)
Lemma chain_last_seq c :
  VerifyChain c = None -> (Z.of_nat (List.length c) < 2 ^ 63)%Z ->
  match last_or None c with
  | None => c = []
  | Some s => S_Seq s = Z.of_nat (List.length c)
  end.
Proof.
  induction c as [|s c IH] using rev_ind; intros Hv Hl; [done|].
  rewrite last_or_snoc. apply verify_from_snoc in Hv as [Hv Hlink].
  apply VerifyLink_None in Hlink as [Hq _].
  rewrite length_app in Hl |- *. simpl in *.
  specialize (IH Hv ltac:(lia)). rewrite Hq. destruct (last_or None c) as [p|].
  - rewrite IH. unfold add64. rewrite wrap64_id; [lia|]. apply in_int64_spec. lia.
  - subst. reflexivity.
Qed.

(** Two steps of two chains whose digests agree and whose contents do not. *)
Definition collision (a b : list Step) : Prop :=
  exists s t, In s a /\ In t b /\ preimage s <> preimage t /\
    sha256 (preimage s) = sha256 (preimage t).

Lemma collision_app a b a' b' : collision a b -> collision (a ++ a') (b ++ b').
Proof.
  intros (s & t & ? & ? & ? & ?). exists s, t. rewrite !in_app_iff. auto.
Qed.

Lemma with_hash_eq s t : S_Hash s = S_Hash t -> with_hash s "" = with_hash t "" -> s = t.
Proof.
  destruct s, t. unfold with_hash. simpl. intros -> H. injection H as -> -> -> -> -> -> -> -> -> -> -> -> -> ->.
  reflexivity.
Qed.

(** ** Properties *)

(** The head digest names the whole run: two chains that verify and end in
    the same digest are the same chain, step for step and field for field,
    unless two of their own steps are an explicit SHA-256 collision. Altering,
    dropping, inserting or reordering any step therefore changes the head. *)
Theorem head_hash_determines_chain a s b t :
  Forall WfStep (a ++ [s]) -> Forall WfStep (b ++ [t]) ->
  VerifyChain (a ++ [s]) = None -> VerifyChain (b ++ [t]) = None -> S_Hash s = S_Hash t ->
  (a ++ [s] = b ++ [t])%list \/ collision (a ++ [s]) (b ++ [t]).
Proof.
  revert s b t. induction a as [|s' a IH] using rev_ind; intros s b t Wa Wb Va Vb Hh;
    apply verify_from_snoc in Va as [Va Ls], Vb as [Vb Lt];
    apply VerifyLink_None in Ls as (Sq & Sp & Sh), Lt as (Tq & Tp & Th);
    apply List.Forall_app in Wa as [Wa Ws], Wb as [Wb Wt];
    inversion Ws as [|? ? Ws' _]; inversion Wt as [|? ? Wt' _]; subst;
    (destruct (String.eqb_spec (preimage s) (preimage t)) as [E|E];
      [|right; exists s, t; rewrite !in_app_iff; simpl; unfold computeHash in *; intuition congruence]);
    pose proof (with_hash_eq _ _ Hh (preimage_inj _ _ Ws' Wt' E)) as <-.
  - destruct b as [|t' b _] using rev_ind; [by left|]. exfalso.
    rewrite last_or_snoc in Tp. apply verify_from_snoc in Vb as [_ Lt'].
    apply VerifyLink_None in Lt' as (_ & _ & Ht'). simpl in Sp. rewrite Sp, Ht' in Tp.
    by apply (digest_nonempty t').
  - rewrite last_or_snoc in Sp. destruct b as [|t' b _] using rev_ind.
    { exfalso. simpl in Tp. apply verify_from_snoc in Va as [_ La].
      apply VerifyLink_None in La as (_ & _ & Ha). rewrite Tp, Ha in Sp.
      by apply (digest_nonempty s'). }
    rewrite last_or_snoc in Tp.
    destruct (IH s' b t' Wa Wb Va Vb) as [->|Hc]; [congruence|by left|].
    right. by apply collision_app.
Qed.

(** Sealing and checking agree: a step [NewStep] seals after the end of a
    chain that verifies gives a chain that verifies, whatever the draft's own
    sequence, previous hash, hash, instant, labels or payload were. *)
Theorem sealing_preserves_the_chain c s t :
  VerifyChain c = None -> NewStep (last_or None c) s = Ok t ->
  VerifyChain (c ++ [t]) = None /\ label_set (S_Labels t) /\ (S_At t mod 1000 = 0)%Z.
Proof.
  intros Hc Ht. split; [by apply (NewStep_extends c s)|].
  apply NewStep_sealed in Ht as [-> _]. split; [apply NewLabels_set|].
  simpl. unfold Time_TruncateMicro. Z.div_mod_to_equations. lia.
Qed.

(** ** Witnesses *)

Definition draft (kind : StepKind) (payload : string) : Step :=
  MkStep "run-1" 0 kind (MkScope "acme" "cx") "triage" "v1" "ana" payload ["untrusted"; "a"]
    (MkCost 10 20 0 0 5 7) "" "" (unix_epoch + 1700000000123456789) "" "".

Definition seal (prev : option Step) (s : Step) : Step :=
  match NewStep prev s with Ok t => t | Err _ => s end.

Definition first_step : Step :=
  Eval vm_compute in seal None (draft StepRunStarted (chr 34 +:+ "x" +:+ chr 34)).
Definition second_step : Step :=
  Eval vm_compute in seal (Some first_step) (draft StepPlanned "").

Lemma first_step_wf : WfStep first_step.
Proof. repeat split; try (repeat constructor). Qed.

Lemma second_step_wf : WfStep second_step.
Proof. repeat split; try (repeat constructor). Qed.

Lemma head_hash_determines_chain_witness :
  ([first_step] ++ [second_step] = [first_step] ++ [second_step])%list \/
  collision ([first_step] ++ [second_step]) ([first_step] ++ [second_step]).
Proof.
  apply head_hash_determines_chain;
    [repeat constructor; apply first_step_wf || apply second_step_wf
    |repeat constructor; apply first_step_wf || apply second_step_wf
    |vm_compute; reflexivity|vm_compute; reflexivity|reflexivity].
Defined.

Lemma sealing_preserves_the_chain_witness :
  VerifyChain ([first_step] ++ [second_step]) = None /\
  label_set (S_Labels second_step) /\ (S_At second_step mod 1000 = 0)%Z.
Proof.
  apply (sealing_preserves_the_chain [first_step] (draft StepPlanned ""));
    vm_compute; reflexivity.
Defined.
