(* ===== verification/Payload.v ===== *)
(** * Typed payloads

    src/internal/domain/payload.go and the payload types declared beside it
    (cost.go, ticket.go, event_chain.go, fallback.go, workitem.go,
    workitem_link.go, workitem_origin.go, workitem_provenance.go, agent.go,
    verdict.go), with [json.Unmarshal] into them.

    [json.Unmarshal] into a struct writes into the value it is given: a key
    names a field exactly or up to case, an unknown key is skipped, [null]
    leaves a field as it is (or clears a pointer or a slice), and a value of the
    wrong type leaves the field as it is, is remembered as the call's error, and
    does not stop the rest. So a decoder here maps the current value to the new
    value and whether every field fitted. A repeated key decodes into what the
    earlier one left; a slice is decoded afresh. *)

From Stdlib Require Import ZArith Lia Ascii String.
From stdpp Require Import base list strings.
From S2P Require Import Prelude GoStrings Json Domain.

Local Open Scope string_scope.

(** ** Decoders *)

(** The value, and whether nothing of it was of the wrong type. *)
Definition Dec (A : Type) : Type := A * bool.
Definition decoder (A : Type) : Type := A -> json -> Dec A.

#[global] Instance Dec_ret : MRet Dec := fun A a => (a, true).
#[global] Instance Dec_bind : MBind Dec := fun A B f m =>
  let '(b, ok) := f (fst m) in (b, snd m && ok).

Definition d_string : decoder string := fun cur j =>
  match j with JStr s => (s, true) | JNull => (cur, true) | _ => (cur, false) end.

Definition d_bool : decoder bool := fun cur j =>
  match j with JBool b => (b, true) | JNull => (cur, true) | _ => (cur, false) end.

(** [int64], and [int] on a 64-bit target. *)
Definition d_int : decoder Z := fun cur j =>
  match j with
  | JNum lit => match parse_int64 lit with Some z => (z, true) | None => (cur, false) end
  | JNull => (cur, true)
  | _ => (cur, false)
  end.

Definition d_uint8 : decoder Z := fun cur j =>
  match j with
  | JNum lit =>
      match parse_Z lit with
      | Some z =>
          if ((0 <=? z) && (z <=? 255))%Z && negb (has_prefix "-" lit) then (z, true)
          else (cur, false)
      | None => (cur, false)
      end
  | JNull => (cur, true)
  | _ => (cur, false)
  end.

Fixpoint d_items {A} (zero : A) (d : decoder A) (l : list json) : Dec (list A) :=
  match l with
  | [] => mret []
  | j :: l' => a ← d zero j; rest ← d_items zero d l'; mret (a :: rest)
  end.

Definition d_list {A} (zero : A) (d : decoder A) : decoder (list A) := fun cur j =>
  match j with
  | JArr l => d_items zero d l
  | JNull => ([], true)
  | _ => (cur, false)
  end.

Definition d_ptr {A} (zero : A) (d : decoder A) : decoder (option A) := fun cur j =>
  match j with
  | JNull => (None, true)
  | _ => a ← d (default zero cur) j; mret (Some a)
  end.

(** A key is folded as the decoder folds it: ASCII letters, and the two
    non-ASCII runes that fold to one (U+017F to s, U+212A to k). *)
Fixpoint fold_key (s : string) : string :=
  match s with
  | String a (String b rest as tail) =>
      if ((byte_of a =? 197) && (byte_of b =? 191))%N then "s" +:+ fold_key rest
      else match rest with
           | String c rest' =>
               if ((byte_of a =? 226) && (byte_of b =? 132) && (byte_of c =? 170))%N
               then "k" +:+ fold_key rest'
               else to_lower (String a "") +:+ fold_key tail
           | EmptyString => to_lower (String a "") +:+ fold_key tail
           end
  | _ => to_lower s
  end.

(** Every value the object gives a field, in document order. *)
Fixpoint field {A} (name : string) (d : decoder A) (cur : A) (fs : list (string * json)) : Dec A :=
  match fs with
  | [] => (cur, true)
  | (k, v) :: fs' =>
      if String.eqb (fold_key k) (fold_key name)
      then a ← d cur v; field name d a fs'
      else field name d cur fs'
  end.

Definition d_struct {A} (fields : A -> list (string * json) -> Dec A) : decoder A := fun cur j =>
  match j with
  | JObj fs => fields cur fs
  | JNull => (cur, true)
  | _ => (cur, false)
  end.

(** ** Instants (time.Time.UnmarshalJSON): RFC 3339, strictly *)

Definition digit_val (c : ascii) : option Z :=
  if is_digit c then Some (Z.of_N (byte_of c) - 48)%Z else None.

Fixpoint read_digits (n : nat) (acc : Z) (s : string) : option (Z * string) :=
  match n, s with
  | O, _ => Some (acc, s)
  | S n', String c s' =>
      match digit_val c with
      | Some d => read_digits n' (10 * acc + d) s'
      | None => None
      end
  | S _, EmptyString => None
  end.

Definition expect (c : ascii) (s : string) : option string :=
  match s with
  | String a s' => if Ascii.eqb a c then Some s' else None
  | EmptyString => None
  end.

Definition leap_year (y : Z) : bool :=
  ((y mod 4 =? 0) && (negb (y mod 100 =? 0) || (y mod 400 =? 0)))%Z.

Definition month_days (y m : Z) : Z :=
  if (m =? 2)%Z then (if leap_year y then 29 else 28)%Z
  else if existsb (Z.eqb m) [4; 6; 9; 11]%Z then 30%Z else 31%Z.

(** Days from 0001-01-01 to a date of the proleptic Gregorian calendar. *)
Definition days_from_zero (y m d : Z) : Z :=
  let py := (y - 1)%Z in
  let months := fold_left (fun n i => n + month_days y i)%Z
                  (List.map Z.of_nat (seq 1 (Z.to_nat (m - 1)))) 0%Z in
  (365 * py + py / 4 - py / 100 + py / 400 + months + (d - 1))%Z.

(** The fraction of a second in nanoseconds; digits past the ninth are read and
    dropped. *)
Definition fraction (digits : string) : Z :=
  match parse_Z (take_bytes 9 (digits +:+ "000000000")) with Some n => n | None => 0%Z end.

Definition ParseTime (s : string) : option Time :=
  '(y, s) ← read_digits 4 0 s; s ← expect "-" s;
  '(mo, s) ← read_digits 2 0 s; s ← expect "-" s;
  '(d, s) ← read_digits 2 0 s; s ← expect "T" s;
  '(h, s) ← read_digits 2 0 s; s ← expect ":" s;
  '(mi, s) ← read_digits 2 0 s; s ← expect ":" s;
  '(sec, s) ← read_digits 2 0 s;
  '(ns, s) ← match s with
             | String "." r =>
                 let '(ds, r') := take_digits r in
                 if String.eqb ds "" then None else Some (fraction ds, r')
             | _ => Some (0%Z, s)
             end;
  offset ← match s with
           | String "Z" EmptyString => Some 0%Z
           | String c r =>
               if Ascii.eqb c "+" || Ascii.eqb c "-" then
                 '(oh, r) ← read_digits 2 0 r; r ← expect ":" r;
                 '(om, r) ← read_digits 2 0 r;
                 if String.eqb r "" && (oh <? 24)%Z && (om <? 60)%Z
                 then Some ((if Ascii.eqb c "-" then -1 else 1) * (oh * 3600 + om * 60))%Z
                 else None
               else None
           | EmptyString => None
           end;
  if ((1 <=? mo) && (mo <=? 12) && (1 <=? d) && (d <=? month_days y mo) &&
      (h <? 24) && (mi <? 60) && (sec <? 60))%Z
  then Some ((days_from_zero y mo d * 86400 + h * 3600 + mi * 60 + sec - offset) * 1000000000 + ns)%Z
  else None.

Definition d_time : decoder Time := fun cur j =>
  match j with
  | JStr s => match ParseTime s with Some t => (t, true) | None => (cur, false) end
  | JNull => (cur, true)
  | _ => (cur, false)
  end.

Example parse_epoch : ParseTime "1970-01-01T00:00:00Z" = Some unix_epoch.
Proof. vm_compute. reflexivity. Qed.
Example parse_offset :
  ParseTime "2024-02-29T23:30:00.5-03:00" =
  Some (unix_epoch + 1709260200 * 1000000000 + 500000000)%Z.
Proof. vm_compute. reflexivity. Qed.

(** [json.Unmarshal(payload, &p)] with [p] zero before: the value it leaves and
    whether it returned no error. Bytes that are no document change nothing. *)
Definition unmarshal_into {A} (zero : A) (d : decoder A) (b : string) : Dec A :=
  match unmarshal b with
  | Some j => d zero j
  | None => (zero, false)
  end.

(** The [decode] helpers of the readers: no payload is the zero value, and a
    document that does not fit is an error. *)
Definition decode_payload {A} (zero : A) (d : decoder A) (payload : string) : option A :=
  if String.eqb payload "" then Some zero
  else let '(a, ok) := unmarshal_into zero d payload in if ok then Some a else None.

(** [decodePayload] of the projections: best effort. *)
Definition decode_best_effort {A} (zero : A) (d : decoder A) (payload : string) : A :=
  if String.eqb payload "" then zero else fst (unmarshal_into zero d payload).

(** ** The payload types

    Each record is the struct of the source with its fields in order, and its
    decoder reads them under their JSON names. *)

Definition d_Consumption : decoder Consumption := d_struct (fun cur fs =>
  f0 ← field "micros" d_int (C_Micros cur) fs;
  f1 ← field "tokens" d_int (C_Tokens cur) fs;
  f2 ← field "tool_calls" d_int (C_ToolCalls cur) fs;
  f3 ← field "steps" d_int (C_Steps cur) fs;
  f4 ← field "wall_clock_ms" d_int (C_WallClockMS cur) fs;
  mret (MkConsumption f0 f1 f2 f3 f4)).

(** *** ticket.go *)

Record TicketRef := MkTicketRef {
  TR_Key : string;
  TR_Revision : Z
}.

#[export] Instance TicketRef_eq_dec : EqDecision TicketRef.
Proof. solve_decision. Defined.

Definition zeroTicketRef : TicketRef :=
  MkTicketRef "" 0%Z.

Definition d_TicketRef : decoder TicketRef := d_struct (fun cur fs =>
  f0 ← field "key" d_string (TR_Key cur) fs;
  f1 ← field "revision" d_int (TR_Revision cur) fs;
  mret (MkTicketRef f0 f1)).

Record TicketContext := MkTicketContext {
  TC_Ref : TicketRef;
  TC_RequestedBy : string;
  TC_AddressedBy : string
}.

#[export] Instance TicketContext_eq_dec : EqDecision TicketContext.
Proof. solve_decision. Defined.

Definition zeroTicketContext : TicketContext :=
  MkTicketContext zeroTicketRef "" "".

Definition d_TicketContext : decoder TicketContext := d_struct (fun cur fs =>
  f0 ← field "ref" d_TicketRef (TC_Ref cur) fs;
  f1 ← field "requested_by" d_string (TC_RequestedBy cur) fs;
  f2 ← field "addressed_by" d_string (TC_AddressedBy cur) fs;
  mret (MkTicketContext f0 f1 f2)).

(** *** agent.go *)

Record ContextArtifact := MkContextArtifact {
  CA_Name : string;
  CA_Kind : string;
  CA_Ref : string;
  CA_Digest : string;
  CA_SourceRun : string;
  CA_SourceAgent : string;
  CA_Labels : list string
}.

#[export] Instance ContextArtifact_eq_dec : EqDecision ContextArtifact.
Proof. solve_decision. Defined.

Definition zeroContextArtifact : ContextArtifact :=
  MkContextArtifact "" "" "" "" "" "" [].

Definition d_ContextArtifact : decoder ContextArtifact := d_struct (fun cur fs =>
  f0 ← field "name" d_string (CA_Name cur) fs;
  f1 ← field "kind" d_string (CA_Kind cur) fs;
  f2 ← field "ref" d_string (CA_Ref cur) fs;
  f3 ← field "digest" d_string (CA_Digest cur) fs;
  f4 ← field "source_run" d_string (CA_SourceRun cur) fs;
  f5 ← field "source_agent" d_string (CA_SourceAgent cur) fs;
  f6 ← field "labels" (d_list "" d_string) (CA_Labels cur) fs;
  mret (MkContextArtifact f0 f1 f2 f3 f4 f5 f6)).

(** *** event_chain.go *)

Record EventChain := MkEventChain {
  EC_Root : string;
  EC_Hop : Z
}.

#[export] Instance EventChain_eq_dec : EqDecision EventChain.
Proof. solve_decision. Defined.

Definition zeroEventChain : EventChain :=
  MkEventChain "" 0%Z.

Definition d_EventChain : decoder EventChain := d_struct (fun cur fs =>
  f0 ← field "root" d_string (EC_Root cur) fs;
  f1 ← field "hop" d_int (EC_Hop cur) fs;
  mret (MkEventChain f0 f1)).

Record EventsWithheld := MkEventsWithheld {
  EW_Reason : string;
  EW_Root : string;
  EW_Hop : Z;
  EW_Limit : Z
}.

#[export] Instance EventsWithheld_eq_dec : EqDecision EventsWithheld.
Proof. solve_decision. Defined.

Definition zeroEventsWithheld : EventsWithheld :=
  MkEventsWithheld "" "" 0%Z 0%Z.

Definition d_EventsWithheld : decoder EventsWithheld := d_struct (fun cur fs =>
  f0 ← field "reason" d_string (EW_Reason cur) fs;
  f1 ← field "root" d_string (EW_Root cur) fs;
  f2 ← field "hop" d_int (EW_Hop cur) fs;
  f3 ← field "limit" d_int (EW_Limit cur) fs;
  mret (MkEventsWithheld f0 f1 f2 f3)).

(** *** workitem_origin.go *)

Record RunWorkItem := MkRunWorkItem {
  RW_Ref : string;
  RW_Source : string;
  RW_FromRun : string
}.

#[export] Instance RunWorkItem_eq_dec : EqDecision RunWorkItem.
Proof. solve_decision. Defined.

Definition zeroRunWorkItem : RunWorkItem :=
  MkRunWorkItem "" "" "".

Definition d_RunWorkItem : decoder RunWorkItem := d_struct (fun cur fs =>
  f0 ← field "ref" d_string (RW_Ref cur) fs;
  f1 ← field "source" d_string (RW_Source cur) fs;
  f2 ← field "from_run" d_string (RW_FromRun cur) fs;
  mret (MkRunWorkItem f0 f1 f2)).

(** *** payload.go *)

Record RunOrigin := MkRunOrigin {
  RO_Channel : string;
  RO_Conversation : string;
  RO_Message : string;
  RO_Thread : string
}.

#[export] Instance RunOrigin_eq_dec : EqDecision RunOrigin.
Proof. solve_decision. Defined.

Definition zeroRunOrigin : RunOrigin :=
  MkRunOrigin "" "" "" "".

Definition d_RunOrigin : decoder RunOrigin := d_struct (fun cur fs =>
  f0 ← field "channel" d_string (RO_Channel cur) fs;
  f1 ← field "conversation" d_string (RO_Conversation cur) fs;
  f2 ← field "message" d_string (RO_Message cur) fs;
  f3 ← field "thread" d_string (RO_Thread cur) fs;
  mret (MkRunOrigin f0 f1 f2 f3)).

Record RunStartedPayload := MkRunStartedPayload {
  RS_Trigger : string;
  RS_InputRef : string;
  RS_Simulated : bool;
  RS_Simulation : string;
  RS_Case : string;
  RS_DatasetVersion : Z;
  RS_Origin : option RunOrigin;
  RS_Ticket : option TicketContext;
  RS_ContextArtifacts : list ContextArtifact;
  RS_SourceRun : string;
  RS_Chain : option EventChain;
  RS_WorkItem : option RunWorkItem
}.

#[export] Instance RunStartedPayload_eq_dec : EqDecision RunStartedPayload.
Proof. solve_decision. Defined.

Definition zeroRunStartedPayload : RunStartedPayload :=
  MkRunStartedPayload "" "" false "" "" 0%Z None None [] "" None None.

Definition d_RunStartedPayload : decoder RunStartedPayload := d_struct (fun cur fs =>
  f0 ← field "trigger" d_string (RS_Trigger cur) fs;
  f1 ← field "input_ref" d_string (RS_InputRef cur) fs;
  f2 ← field "simulated" d_bool (RS_Simulated cur) fs;
  f3 ← field "simulation" d_string (RS_Simulation cur) fs;
  f4 ← field "case" d_string (RS_Case cur) fs;
  f5 ← field "dataset_version" d_int (RS_DatasetVersion cur) fs;
  f6 ← field "origin" (d_ptr zeroRunOrigin d_RunOrigin) (RS_Origin cur) fs;
  f7 ← field "ticket" (d_ptr zeroTicketContext d_TicketContext) (RS_Ticket cur) fs;
  f8 ← field "context_artifacts" (d_list zeroContextArtifact d_ContextArtifact) (RS_ContextArtifacts cur) fs;
  f9 ← field "source_run" d_string (RS_SourceRun cur) fs;
  f10 ← field "chain" (d_ptr zeroEventChain d_EventChain) (RS_Chain cur) fs;
  f11 ← field "work_item" (d_ptr zeroRunWorkItem d_RunWorkItem) (RS_WorkItem cur) fs;
  mret (MkRunStartedPayload f0 f1 f2 f3 f4 f5 f6 f7 f8 f9 f10 f11)).

(** *** verdict.go *)

Record MonitoredPolicy := MkMonitoredPolicy {
  MP_Code : string;
  MP_Verdict : Z;
  MP_Reason : string
}.

#[export] Instance MonitoredPolicy_eq_dec : EqDecision MonitoredPolicy.
Proof. solve_decision. Defined.

Definition zeroMonitoredPolicy : MonitoredPolicy :=
  MkMonitoredPolicy "" 0%Z "".

Definition d_MonitoredPolicy : decoder MonitoredPolicy := d_struct (fun cur fs =>
  f0 ← field "code" d_string (MP_Code cur) fs;
  f1 ← field "verdict" d_uint8 (MP_Verdict cur) fs;
  f2 ← field "reason" d_string (MP_Reason cur) fs;
  mret (MkMonitoredPolicy f0 f1 f2)).

Record DuplicateEffect := MkDuplicateEffect {
  DE_RunID : string;
  DE_Seq : Z
}.

#[export] Instance DuplicateEffect_eq_dec : EqDecision DuplicateEffect.
Proof. solve_decision. Defined.

Definition zeroDuplicateEffect : DuplicateEffect :=
  MkDuplicateEffect "" 0%Z.

Definition d_DuplicateEffect : decoder DuplicateEffect := d_struct (fun cur fs =>
  f0 ← field "run_id" d_string (DE_RunID cur) fs;
  f1 ← field "seq" d_int (DE_Seq cur) fs;
  mret (MkDuplicateEffect f0 f1)).

Record GateDecidedPayload := MkGateDecidedPayload {
  GD_Tool : string;
  GD_Effect : Z;
  GD_Verdict : Z;
  GD_Rule : string;
  GD_Reason : string;
  GD_PolicyCode : string;
  GD_Monitored : list MonitoredPolicy;
  GD_Duplicate : option DuplicateEffect;
  GD_Stage : string;
  GD_Labels : list string;
  GD_ArgsDigest : string;
  GD_ContractDigest : string;
  GD_Budget : option Consumption;
  GD_Committed : option Consumption;
  GD_Estimate : option Consumption;
  GD_Projected : option Consumption;
  GD_Breached : string
}.

#[export] Instance GateDecidedPayload_eq_dec : EqDecision GateDecidedPayload.
Proof. solve_decision. Defined.

Definition zeroGateDecidedPayload : GateDecidedPayload :=
  MkGateDecidedPayload "" 0%Z 0%Z "" "" "" [] None "" [] "" "" None None None None "".

Definition d_GateDecidedPayload : decoder GateDecidedPayload := d_struct (fun cur fs =>
  f0 ← field "tool" d_string (GD_Tool cur) fs;
  f1 ← field "effect" d_uint8 (GD_Effect cur) fs;
  f2 ← field "verdict" d_uint8 (GD_Verdict cur) fs;
  f3 ← field "rule" d_string (GD_Rule cur) fs;
  f4 ← field "reason" d_string (GD_Reason cur) fs;
  f5 ← field "policy_code" d_string (GD_PolicyCode cur) fs;
  f6 ← field "monitored" (d_list zeroMonitoredPolicy d_MonitoredPolicy) (GD_Monitored cur) fs;
  f7 ← field "duplicate" (d_ptr zeroDuplicateEffect d_DuplicateEffect) (GD_Duplicate cur) fs;
  f8 ← field "stage" d_string (GD_Stage cur) fs;
  f9 ← field "labels" (d_list "" d_string) (GD_Labels cur) fs;
  f10 ← field "args_digest" d_string (GD_ArgsDigest cur) fs;
  f11 ← field "contract_digest" d_string (GD_ContractDigest cur) fs;
  f12 ← field "budget" (d_ptr zeroConsumption d_Consumption) (GD_Budget cur) fs;
  f13 ← field "committed" (d_ptr zeroConsumption d_Consumption) (GD_Committed cur) fs;
  f14 ← field "estimate" (d_ptr zeroConsumption d_Consumption) (GD_Estimate cur) fs;
  f15 ← field "projected" (d_ptr zeroConsumption d_Consumption) (GD_Projected cur) fs;
  f16 ← field "breached" d_string (GD_Breached cur) fs;
  mret (MkGateDecidedPayload f0 f1 f2 f3 f4 f5 f6 f7 f8 f9 f10 f11 f12 f13 f14 f15 f16)).

Record BudgetReservedPayload := MkBudgetReservedPayload {
  BR_Micros : Z;
  BR_Tokens : Z
}.

#[export] Instance BudgetReservedPayload_eq_dec : EqDecision BudgetReservedPayload.
Proof. solve_decision. Defined.

Definition zeroBudgetReservedPayload : BudgetReservedPayload :=
  MkBudgetReservedPayload 0%Z 0%Z.

Definition d_BudgetReservedPayload : decoder BudgetReservedPayload := d_struct (fun cur fs =>
  f0 ← field "micros" d_int (BR_Micros cur) fs;
  f1 ← field "tokens" d_int (BR_Tokens cur) fs;
  mret (MkBudgetReservedPayload f0 f1)).

Record BudgetReconciledPayload := MkBudgetReconciledPayload {
  BC_ReleasedMicros : Z;
  BC_ReleasedTokens : Z
}.

#[export] Instance BudgetReconciledPayload_eq_dec : EqDecision BudgetReconciledPayload.
Proof. solve_decision. Defined.

Definition zeroBudgetReconciledPayload : BudgetReconciledPayload :=
  MkBudgetReconciledPayload 0%Z 0%Z.

Definition d_BudgetReconciledPayload : decoder BudgetReconciledPayload := d_struct (fun cur fs =>
  f0 ← field "released_micros" d_int (BC_ReleasedMicros cur) fs;
  f1 ← field "released_tokens" d_int (BC_ReleasedTokens cur) fs;
  mret (MkBudgetReconciledPayload f0 f1)).

Record ToolCalledPayload := MkToolCalledPayload {
  TCd_Tool : string;
  TCd_Effect : Z;
  TCd_ArgsRef : string;
  TCd_ArgsDigest : string;
  TCd_ContractDigest : string
}.

#[export] Instance ToolCalledPayload_eq_dec : EqDecision ToolCalledPayload.
Proof. solve_decision. Defined.

Definition zeroToolCalledPayload : ToolCalledPayload :=
  MkToolCalledPayload "" 0%Z "" "" "".

Definition d_ToolCalledPayload : decoder ToolCalledPayload := d_struct (fun cur fs =>
  f0 ← field "tool" d_string (TCd_Tool cur) fs;
  f1 ← field "effect" d_uint8 (TCd_Effect cur) fs;
  f2 ← field "args_ref" d_string (TCd_ArgsRef cur) fs;
  f3 ← field "args_digest" d_string (TCd_ArgsDigest cur) fs;
  f4 ← field "contract_digest" d_string (TCd_ContractDigest cur) fs;
  mret (MkToolCalledPayload f0 f1 f2 f3 f4)).

(** *** workitem_provenance.go *)

Record PullRequestStamp := MkPullRequestStamp {
  PS_Ref : string;
  PS_Via : string
}.

#[export] Instance PullRequestStamp_eq_dec : EqDecision PullRequestStamp.
Proof. solve_decision. Defined.

Definition zeroPullRequestStamp : PullRequestStamp :=
  MkPullRequestStamp "" "".

Definition d_PullRequestStamp : decoder PullRequestStamp := d_struct (fun cur fs =>
  f0 ← field "ref" d_string (PS_Ref cur) fs;
  f1 ← field "via" d_string (PS_Via cur) fs;
  mret (MkPullRequestStamp f0 f1)).

Record ToolReturnedPayload := MkToolReturnedPayload {
  TRd_Tool : string;
  TRd_ResultRef : string;
  TRd_ResultDigest : string;
  TRd_ResultBytes : Z;
  TRd_Failed : bool;
  TRd_ErrorCode : string;
  TRd_Cached : bool;
  TRd_CachedFromRun : string;
  TRd_CachedFromSeq : Z;
  TRd_Context : option ContextArtifact;
  TRd_PullRequest : option PullRequestStamp
}.

#[export] Instance ToolReturnedPayload_eq_dec : EqDecision ToolReturnedPayload.
Proof. solve_decision. Defined.

Definition zeroToolReturnedPayload : ToolReturnedPayload :=
  MkToolReturnedPayload "" "" "" 0%Z false "" false "" 0%Z None None.

Definition d_ToolReturnedPayload : decoder ToolReturnedPayload := d_struct (fun cur fs =>
  f0 ← field "tool" d_string (TRd_Tool cur) fs;
  f1 ← field "result_ref" d_string (TRd_ResultRef cur) fs;
  f2 ← field "result_digest" d_string (TRd_ResultDigest cur) fs;
  f3 ← field "result_bytes" d_int (TRd_ResultBytes cur) fs;
  f4 ← field "failed" d_bool (TRd_Failed cur) fs;
  f5 ← field "error_code" d_string (TRd_ErrorCode cur) fs;
  f6 ← field "cached" d_bool (TRd_Cached cur) fs;
  f7 ← field "cached_from_run" d_string (TRd_CachedFromRun cur) fs;
  f8 ← field "cached_from_seq" d_int (TRd_CachedFromSeq cur) fs;
  f9 ← field "context" (d_ptr zeroContextArtifact d_ContextArtifact) (TRd_Context cur) fs;
  f10 ← field "pull_request" (d_ptr zeroPullRequestStamp d_PullRequestStamp) (TRd_PullRequest cur) fs;
  mret (MkToolReturnedPayload f0 f1 f2 f3 f4 f5 f6 f7 f8 f9 f10)).

Record EffectReconciledPayload := MkEffectReconciledPayload {
  ER_Tool : string;
  ER_ForSeq : Z;
  ER_ResultRef : string;
  ER_ResultDigest : string;
  ER_ResultBytes : Z;
  ER_Failed : bool;
  ER_ErrorCode : string
}.

#[export] Instance EffectReconciledPayload_eq_dec : EqDecision EffectReconciledPayload.
Proof. solve_decision. Defined.

Definition zeroEffectReconciledPayload : EffectReconciledPayload :=
  MkEffectReconciledPayload "" 0%Z "" "" 0%Z false "".

Definition d_EffectReconciledPayload : decoder EffectReconciledPayload := d_struct (fun cur fs =>
  f0 ← field "tool" d_string (ER_Tool cur) fs;
  f1 ← field "for_seq" d_int (ER_ForSeq cur) fs;
  f2 ← field "result_ref" d_string (ER_ResultRef cur) fs;
  f3 ← field "result_digest" d_string (ER_ResultDigest cur) fs;
  f4 ← field "result_bytes" d_int (ER_ResultBytes cur) fs;
  f5 ← field "failed" d_bool (ER_Failed cur) fs;
  f6 ← field "error_code" d_string (ER_ErrorCode cur) fs;
  mret (MkEffectReconciledPayload f0 f1 f2 f3 f4 f5 f6)).

Record ApprovalEvidence := MkApprovalEvidence {
  AE_Kind : string;
  AE_Ticket : TicketRef;
  AE_Ref : string;
  AE_Digest : string
}.

#[export] Instance ApprovalEvidence_eq_dec : EqDecision ApprovalEvidence.
Proof. solve_decision. Defined.

Definition zeroApprovalEvidence : ApprovalEvidence :=
  MkApprovalEvidence "" zeroTicketRef "" "".

Definition d_ApprovalEvidence : decoder ApprovalEvidence := d_struct (fun cur fs =>
  f0 ← field "kind" d_string (AE_Kind cur) fs;
  f1 ← field "ticket" d_TicketRef (AE_Ticket cur) fs;
  f2 ← field "ref" d_string (AE_Ref cur) fs;
  f3 ← field "digest" d_string (AE_Digest cur) fs;
  mret (MkApprovalEvidence f0 f1 f2 f3)).

Record ApprovalRequestedPayload := MkApprovalRequestedPayload {
  AR_Tool : string;
  AR_Rule : string;
  AR_Reason : string;
  AR_ExpiresAt : Time;
  AR_Effect : Z;
  AR_ArgsRef : string;
  AR_ArgsDigest : string;
  AR_ContractDigest : string;
  AR_Estimate : Consumption;
  AR_Labels : list string;
  AR_Evidence : option ApprovalEvidence
}.

#[export] Instance ApprovalRequestedPayload_eq_dec : EqDecision ApprovalRequestedPayload.
Proof. solve_decision. Defined.

Definition zeroApprovalRequestedPayload : ApprovalRequestedPayload :=
  MkApprovalRequestedPayload "" "" "" 0%Z 0%Z "" "" "" zeroConsumption [] None.

Definition d_ApprovalRequestedPayload : decoder ApprovalRequestedPayload := d_struct (fun cur fs =>
  f0 ← field "tool" d_string (AR_Tool cur) fs;
  f1 ← field "rule" d_string (AR_Rule cur) fs;
  f2 ← field "reason" d_string (AR_Reason cur) fs;
  f3 ← field "expires_at" d_time (AR_ExpiresAt cur) fs;
  f4 ← field "effect" d_uint8 (AR_Effect cur) fs;
  f5 ← field "args_ref" d_string (AR_ArgsRef cur) fs;
  f6 ← field "args_digest" d_string (AR_ArgsDigest cur) fs;
  f7 ← field "contract_digest" d_string (AR_ContractDigest cur) fs;
  f8 ← field "estimate" d_Consumption (AR_Estimate cur) fs;
  f9 ← field "labels" (d_list "" d_string) (AR_Labels cur) fs;
  f10 ← field "evidence" (d_ptr zeroApprovalEvidence d_ApprovalEvidence) (AR_Evidence cur) fs;
  mret (MkApprovalRequestedPayload f0 f1 f2 f3 f4 f5 f6 f7 f8 f9 f10)).

Record ApprovalDecidedPayload := MkApprovalDecidedPayload {
  AD_Approved : bool;
  AD_By : string;
  AD_Note : string;
  AD_AtSeq : Z;
  AD_StandingGrant : string
}.

#[export] Instance ApprovalDecidedPayload_eq_dec : EqDecision ApprovalDecidedPayload.
Proof. solve_decision. Defined.

Definition zeroApprovalDecidedPayload : ApprovalDecidedPayload :=
  MkApprovalDecidedPayload false "" "" 0%Z "".

Definition d_ApprovalDecidedPayload : decoder ApprovalDecidedPayload := d_struct (fun cur fs =>
  f0 ← field "approved" d_bool (AD_Approved cur) fs;
  f1 ← field "by" d_string (AD_By cur) fs;
  f2 ← field "note" d_string (AD_Note cur) fs;
  f3 ← field "at_seq" d_int (AD_AtSeq cur) fs;
  f4 ← field "standing_grant" d_string (AD_StandingGrant cur) fs;
  mret (MkApprovalDecidedPayload f0 f1 f2 f3 f4)).

Record ResumedPayload := MkResumedPayload {
  Rs_By : string;
  Rs_Note : string
}.

#[export] Instance ResumedPayload_eq_dec : EqDecision ResumedPayload.
Proof. solve_decision. Defined.

Definition zeroResumedPayload : ResumedPayload :=
  MkResumedPayload "" "".

Definition d_ResumedPayload : decoder ResumedPayload := d_struct (fun cur fs =>
  f0 ← field "by" d_string (Rs_By cur) fs;
  f1 ← field "note" d_string (Rs_Note cur) fs;
  mret (MkResumedPayload f0 f1)).

Record AbandonedPayload := MkAbandonedPayload {
  AB_By : string;
  AB_Reason : string;
  AB_Compensate : bool
}.

#[export] Instance AbandonedPayload_eq_dec : EqDecision AbandonedPayload.
Proof. solve_decision. Defined.

Definition zeroAbandonedPayload : AbandonedPayload :=
  MkAbandonedPayload "" "" false.

Definition d_AbandonedPayload : decoder AbandonedPayload := d_struct (fun cur fs =>
  f0 ← field "by" d_string (AB_By cur) fs;
  f1 ← field "reason" d_string (AB_Reason cur) fs;
  f2 ← field "compensate" d_bool (AB_Compensate cur) fs;
  mret (MkAbandonedPayload f0 f1 f2)).

Record CompensationStartedPayload := MkCompensationStartedPayload {
  CS_Tool : string;
  CS_ForSeq : Z
}.

#[export] Instance CompensationStartedPayload_eq_dec : EqDecision CompensationStartedPayload.
Proof. solve_decision. Defined.

Definition zeroCompensationStartedPayload : CompensationStartedPayload :=
  MkCompensationStartedPayload "" 0%Z.

Definition d_CompensationStartedPayload : decoder CompensationStartedPayload := d_struct (fun cur fs =>
  f0 ← field "tool" d_string (CS_Tool cur) fs;
  f1 ← field "for_seq" d_int (CS_ForSeq cur) fs;
  mret (MkCompensationStartedPayload f0 f1)).

Record CompensatedPayload := MkCompensatedPayload {
  CP_Tool : string;
  CP_ForSeq : Z;
  CP_Succeeded : bool;
  CP_BeforeInvoke : bool
}.

#[export] Instance CompensatedPayload_eq_dec : EqDecision CompensatedPayload.
Proof. solve_decision. Defined.

Definition zeroCompensatedPayload : CompensatedPayload :=
  MkCompensatedPayload "" 0%Z false false.

Definition d_CompensatedPayload : decoder CompensatedPayload := d_struct (fun cur fs =>
  f0 ← field "tool" d_string (CP_Tool cur) fs;
  f1 ← field "for_seq" d_int (CP_ForSeq cur) fs;
  f2 ← field "succeeded" d_bool (CP_Succeeded cur) fs;
  f3 ← field "before_invoke" d_bool (CP_BeforeInvoke cur) fs;
  mret (MkCompensatedPayload f0 f1 f2 f3)).

Record FailedPayload := MkFailedPayload {
  FP_Code : string;
  FP_Message : string;
  FP_Retryable : bool
}.

#[export] Instance FailedPayload_eq_dec : EqDecision FailedPayload.
Proof. solve_decision. Defined.

Definition zeroFailedPayload : FailedPayload :=
  MkFailedPayload "" "" false.

Definition d_FailedPayload : decoder FailedPayload := d_struct (fun cur fs =>
  f0 ← field "code" d_string (FP_Code cur) fs;
  f1 ← field "message" d_string (FP_Message cur) fs;
  f2 ← field "retryable" d_bool (FP_Retryable cur) fs;
  mret (MkFailedPayload f0 f1 f2)).

Record FailureSummary := MkFailureSummary {
  FS_Code : string;
  FS_Provider : string;
  FS_Status : Z;
  FS_RequestID : string;
  FS_Retryable : bool
}.

#[export] Instance FailureSummary_eq_dec : EqDecision FailureSummary.
Proof. solve_decision. Defined.

Definition zeroFailureSummary : FailureSummary :=
  MkFailureSummary "" "" 0%Z "" false.

Definition d_FailureSummary : decoder FailureSummary := d_struct (fun cur fs =>
  f0 ← field "code" d_string (FS_Code cur) fs;
  f1 ← field "provider" d_string (FS_Provider cur) fs;
  f2 ← field "status" d_int (FS_Status cur) fs;
  f3 ← field "request_id" d_string (FS_RequestID cur) fs;
  f4 ← field "retryable" d_bool (FS_Retryable cur) fs;
  mret (MkFailureSummary f0 f1 f2 f3 f4)).

Record InvestigationSummary := MkInvestigationSummary {
  IS_Tool : string;
  IS_Calls : Z;
  IS_ResultBytes : Z;
  IS_CachedCalls : Z;
  IS_ResultDigest : string
}.

#[export] Instance InvestigationSummary_eq_dec : EqDecision InvestigationSummary.
Proof. solve_decision. Defined.

Definition zeroInvestigationSummary : InvestigationSummary :=
  MkInvestigationSummary "" 0%Z 0%Z 0%Z "".

Definition d_InvestigationSummary : decoder InvestigationSummary := d_struct (fun cur fs =>
  f0 ← field "tool" d_string (IS_Tool cur) fs;
  f1 ← field "calls" d_int (IS_Calls cur) fs;
  f2 ← field "result_bytes" d_int (IS_ResultBytes cur) fs;
  f3 ← field "cached_calls" d_int (IS_CachedCalls cur) fs;
  f4 ← field "result_digest" d_string (IS_ResultDigest cur) fs;
  mret (MkInvestigationSummary f0 f1 f2 f3 f4)).

Record ParkedPayload := MkParkedPayload {
  PK_Reason : string;
  PK_Attempts : Z;
  PK_Failure : option FailureSummary;
  PK_Investigation : option InvestigationSummary
}.

#[export] Instance ParkedPayload_eq_dec : EqDecision ParkedPayload.
Proof. solve_decision. Defined.

Definition zeroParkedPayload : ParkedPayload :=
  MkParkedPayload "" 0%Z None None.

Definition d_ParkedPayload : decoder ParkedPayload := d_struct (fun cur fs =>
  f0 ← field "reason" d_string (PK_Reason cur) fs;
  f1 ← field "attempts" d_int (PK_Attempts cur) fs;
  f2 ← field "failure" (d_ptr zeroFailureSummary d_FailureSummary) (PK_Failure cur) fs;
  f3 ← field "investigation" (d_ptr zeroInvestigationSummary d_InvestigationSummary) (PK_Investigation cur) fs;
  mret (MkParkedPayload f0 f1 f2 f3)).

Record RunFinishedPayload := MkRunFinishedPayload {
  RF_Outcome : string;
  RF_OutcomeRef : string;
  RF_OutcomeDigest : string;
  RF_Artifacts : list ContextArtifact;
  RF_Reason : string;
  RF_StoppedBy : string;
  RF_HeadlineRef : string;
  RF_HeadlineDigest : string;
  RF_EventsWithheld : option EventsWithheld
}.

#[export] Instance RunFinishedPayload_eq_dec : EqDecision RunFinishedPayload.
Proof. solve_decision. Defined.

Definition zeroRunFinishedPayload : RunFinishedPayload :=
  MkRunFinishedPayload "" "" "" [] "" "" "" "" None.

Definition d_RunFinishedPayload : decoder RunFinishedPayload := d_struct (fun cur fs =>
  f0 ← field "outcome" d_string (RF_Outcome cur) fs;
  f1 ← field "outcome_ref" d_string (RF_OutcomeRef cur) fs;
  f2 ← field "outcome_digest" d_string (RF_OutcomeDigest cur) fs;
  f3 ← field "artifacts" (d_list zeroContextArtifact d_ContextArtifact) (RF_Artifacts cur) fs;
  f4 ← field "reason" d_string (RF_Reason cur) fs;
  f5 ← field "stopped_by" d_string (RF_StoppedBy cur) fs;
  f6 ← field "headline_ref" d_string (RF_HeadlineRef cur) fs;
  f7 ← field "headline_digest" d_string (RF_HeadlineDigest cur) fs;
  f8 ← field "events_withheld" (d_ptr zeroEventsWithheld d_EventsWithheld) (RF_EventsWithheld cur) fs;
  mret (MkRunFinishedPayload f0 f1 f2 f3 f4 f5 f6 f7 f8)).

(** *** fallback.go *)

Record ModelPair := MkModelPair {
  MPr_Provider : string;
  MPr_Model : string
}.

#[export] Instance ModelPair_eq_dec : EqDecision ModelPair.
Proof. solve_decision. Defined.

Definition zeroModelPair : ModelPair :=
  MkModelPair "" "".

Definition d_ModelPair : decoder ModelPair := d_struct (fun cur fs =>
  f0 ← field "provider" d_string (MPr_Provider cur) fs;
  f1 ← field "model" d_string (MPr_Model cur) fs;
  mret (MkModelPair f0 f1)).

Record ModelFallbackPayload := MkModelFallbackPayload {
  MF_From : ModelPair;
  MF_To : ModelPair;
  MF_Failure : FailureSummary;
  MF_Attempts : Z
}.

#[export] Instance ModelFallbackPayload_eq_dec : EqDecision ModelFallbackPayload.
Proof. solve_decision. Defined.

Definition zeroModelFallbackPayload : ModelFallbackPayload :=
  MkModelFallbackPayload zeroModelPair zeroModelPair zeroFailureSummary 0%Z.

Definition d_ModelFallbackPayload : decoder ModelFallbackPayload := d_struct (fun cur fs =>
  f0 ← field "from" d_ModelPair (MF_From cur) fs;
  f1 ← field "to" d_ModelPair (MF_To cur) fs;
  f2 ← field "failure" d_FailureSummary (MF_Failure cur) fs;
  f3 ← field "attempts" d_int (MF_Attempts cur) fs;
  mret (MkModelFallbackPayload f0 f1 f2 f3)).

(** *** workitem.go *)

Record WorkItemClaimedPayload := MkWorkItemClaimedPayload {
  WC_Ref : string
}.

#[export] Instance WorkItemClaimedPayload_eq_dec : EqDecision WorkItemClaimedPayload.
Proof. solve_decision. Defined.

Definition zeroWorkItemClaimedPayload : WorkItemClaimedPayload :=
  MkWorkItemClaimedPayload "".

Definition d_WorkItemClaimedPayload : decoder WorkItemClaimedPayload := d_struct (fun cur fs =>
  f0 ← field "ref" d_string (WC_Ref cur) fs;
  mret (MkWorkItemClaimedPayload f0)).

(** *** workitem_link.go *)

Record WorkItemLinkProof := MkWorkItemLinkProof {
  WP_Kind : string;
  WP_Seq : Z
}.

#[export] Instance WorkItemLinkProof_eq_dec : EqDecision WorkItemLinkProof.
Proof. solve_decision. Defined.

Definition zeroWorkItemLinkProof : WorkItemLinkProof :=
  MkWorkItemLinkProof "" 0%Z.

Definition d_WorkItemLinkProof : decoder WorkItemLinkProof := d_struct (fun cur fs =>
  f0 ← field "kind" d_string (WP_Kind cur) fs;
  f1 ← field "seq" d_int (WP_Seq cur) fs;
  mret (MkWorkItemLinkProof f0 f1)).

Record WorkItemLinkedPayload := MkWorkItemLinkedPayload {
  WL_Alias : string;
  WL_Root : string;
  WL_Proof : WorkItemLinkProof
}.

#[export] Instance WorkItemLinkedPayload_eq_dec : EqDecision WorkItemLinkedPayload.
Proof. solve_decision. Defined.

Definition zeroWorkItemLinkedPayload : WorkItemLinkedPayload :=
  MkWorkItemLinkedPayload "" "" zeroWorkItemLinkProof.

Definition d_WorkItemLinkedPayload : decoder WorkItemLinkedPayload := d_struct (fun cur fs =>
  f0 ← field "alias" d_string (WL_Alias cur) fs;
  f1 ← field "root" d_string (WL_Root cur) fs;
  f2 ← field "proof" d_WorkItemLinkProof (WL_Proof cur) fs;
  mret (MkWorkItemLinkedPayload f0 f1 f2)).


(** ** Methods of the payload types *)

Definition TicketRef_Valid (r : TicketRef) : bool :=
  negb (String.eqb (trim_space (TR_Key r)) "") && (0 <? TR_Revision r)%Z.

Definition TicketContext_Valid (c : TicketContext) : bool :=
  TicketRef_Valid (TC_Ref c) && negb (String.eqb (trim_space (TC_RequestedBy c)) "").

Definition ApprovalEvidence_Empty (e : ApprovalEvidence) : bool :=
  String.eqb (AE_Kind e) "" && negb (TicketRef_Valid (AE_Ticket e)) &&
  String.eqb (AE_Ref e) "" && String.eqb (AE_Digest e) "".

Definition ApprovalEvidence_Valid (e : ApprovalEvidence) : bool :=
  negb (String.eqb (AE_Kind e) "") && TicketRef_Valid (AE_Ticket e) &&
  negb (String.eqb (AE_Ref e) "") && negb (String.eqb (AE_Digest e) "").

Definition ApprovalDecisionKey (run : RunID) (atSeq : Z) : string :=
  "approval_decision:" +:+ run +:+ ":" +:+ print_Z atSeq.

Definition ModelPair_IsZero (p : ModelPair) : bool :=
  String.eqb (MPr_Provider p) "" && String.eqb (MPr_Model p) "".

(** ** Event chains (event_chain.go) *)

Definition MaxEventHops : Z := 8.
Definition TriggerEvent : string := "event".
Definition ReasonEventHopLimit : string := "event_hop_limit".
Definition ReasonEventChainUnknown : string := "event_chain_unknown".

Record ChainPosition := MkChainPosition { Pos_Trigger : string; Pos_Chain : option EventChain }.

(** The chain of a run this run's event opens, or why there is none. *)
Definition ChainPosition_Next (p : ChainPosition) (source : RunID) : EventsWithheld + EventChain :=
  if negb (String.eqb (Pos_Trigger p) TriggerEvent) then inr (MkEventChain source 1)
  else match Pos_Chain p with
       | None => inl (MkEventsWithheld ReasonEventChainUnknown "" 0 MaxEventHops)
       | Some c =>
           if (MaxEventHops <=? EC_Hop c)%Z
           then inl (MkEventsWithheld ReasonEventHopLimit (EC_Root c) (EC_Hop c) MaxEventHops)
           else inr (MkEventChain (EC_Root c) (add64 (EC_Hop c) 1))
       end.

(** Runs that events opened one after another: each is opened with the chain
    its source's position allowed, and is then a source itself. *)
Inductive opened_by_events (root : RunID) : nat -> ChainPosition -> Prop :=
| opened_root p : Pos_Trigger p <> TriggerEvent -> opened_by_events root 0 p
| opened_next n p source chain :
    opened_by_events root n p -> (n = 0%nat -> source = root) ->
    ChainPosition_Next p source = inr chain ->
    opened_by_events root (S n) (MkChainPosition TriggerEvent (Some chain)).

Lemma opened_chain root n p :
  opened_by_events root n p ->
  n = 0%nat \/ Pos_Trigger p = TriggerEvent /\ (Z.of_nat n <= MaxEventHops)%Z /\
    Pos_Chain p = Some (MkEventChain root (Z.of_nat n)).
Proof.
  induction 1 as [p Hp|n p source chain Hp IH Hsrc Hnext]; [by left|right].
  unfold ChainPosition_Next in Hnext. split; [done|].
  destruct Hp as [p Hp|n p source' chain' Hp' Hsrc' Hnext'].
  - apply String.eqb_neq in Hp. rewrite Hp in Hnext. injection Hnext as <-.
    rewrite Hsrc by done. split; [unfold MaxEventHops; lia|done].
  - destruct IH as [|(_ & Hle & Hc)]; [done|]. cbn [Pos_Chain Pos_Trigger] in *.
    injection Hc as ->. cbn in Hnext. destruct (Z.leb_spec MaxEventHops (Z.of_nat (S n))); [done|].
    unfold MaxEventHops in *. injection Hnext as <-. split; [lia|]. simpl.
    unfold add64. rewrite wrap64_id by (apply in_int64_spec; lia). do 2 f_equal. lia.
Qed.

(** A chain of events is bounded and counted: the [n]-th run events opened
    from a root carries that root and hop [n], no run further than eight hops is
    opened, and a run at the limit may publish nothing. So a cycle of agents
    listening to each other stops after eight runs. *)
Theorem event_chains_are_bounded root n p source :
  opened_by_events root n p ->
  (Z.of_nat n <= MaxEventHops)%Z /\
  (n <> 0%nat -> Pos_Chain p = Some (MkEventChain root (Z.of_nat n))) /\
  (Z.of_nat n = MaxEventHops ->
   ChainPosition_Next p source =
     inl (MkEventsWithheld ReasonEventHopLimit root MaxEventHops MaxEventHops)).
Proof.
  intros H. apply opened_chain in H as [-> | (Ht & Hle & Hc)].
  - unfold MaxEventHops. split; [lia|]. split; [done|]. intros E. exfalso. lia.
  - split; [done|]. split; [done|]. intros E.
    unfold ChainPosition_Next. by rewrite Ht, Hc, E.
Qed.

Lemma event_chains_are_bounded_witness :
  (Z.of_nat 1 <= MaxEventHops)%Z /\
  (1%nat <> 0%nat -> Some (MkEventChain "r" 1) = Some (MkEventChain "r" (Z.of_nat 1))) /\
  (Z.of_nat 1 = MaxEventHops ->
   ChainPosition_Next (MkChainPosition TriggerEvent (Some (MkEventChain "r" 1))) "s" =
     inl (MkEventsWithheld ReasonEventHopLimit "r" MaxEventHops MaxEventHops)).
Proof.
  apply (event_chains_are_bounded "r" 1
           (MkChainPosition TriggerEvent (Some (MkEventChain "r" 1))) "s").
  apply (opened_next "r" 0 (MkChainPosition "cron" None) "r");
    [apply opened_root; vm_compute; congruence|reflexivity|reflexivity].
Defined.
