(* ===== verification/Encode.v ===== *)
(** * Encoding payloads

    [json.Marshal] of the payload types of src/internal/domain, field by field
    with their [omitempty] and [omitzero] tags, as [mustJSON] of the engine
    applies it. A [codec] pairs an encoder with the decoder of [Payload]; its
    laws say that what the engine writes the fold reads back. *)

From Stdlib Require Import ZArith Lia Ascii String.
From stdpp Require Import base list strings.
From S2P Require Import Prelude GoStrings Json JsonFacts Domain Payload.

Local Open Scope string_scope.
Local Open Scope list_scope.

(** ** Codecs *)

Record codec (A : Type) := MkCodec {
  c_enc : A -> json;
  c_dec : decoder A;
  c_zero : A;
  (** What [omitempty] (or [omitzero]) leaves out. *)
  c_empty : A -> bool;
  (** Values of the Go type: integers in range and strings of valid UTF-8. *)
  c_ok : A -> Prop
}.
Arguments MkCodec {A}.
Arguments c_enc {A} _ _.
Arguments c_dec {A} _ _ _.
Arguments c_zero {A} _.
Arguments c_empty {A} _ _.
Arguments c_ok {A} _ _.

(** [json.Marshal]. *)
Definition marshal {A} (c : codec A) (a : A) : string := print_json (c_enc c a).

Class CodecLaws {A} (c : codec A) : Prop := {
  law_read : forall a, c_ok c a -> c_dec c (c_zero c) (c_enc c a) = (a, true);
  (** The ledger stores the canonical form, with the keys sorted. *)
  law_sorted : forall a, c_ok c a -> c_dec c (c_zero c) (sort_keys (c_enc c a)) = (a, true);
  law_json : forall a, c_ok c a -> json_ok (c_enc c a) = true;
  law_empty : forall a, c_empty c a = true -> a = c_zero c
}.

(** A value that is never written as [null]. *)
Class NeverNull {A} (c : codec A) : Prop := never_null : forall a, c_enc c a <> JNull.

Definition c_string : codec string :=
  MkCodec JStr d_string "" (fun s => String.eqb s "") (fun s => utf8_valid s = true).

Definition c_bool : codec bool := MkCodec JBool d_bool false negb (fun _ => True).

Definition c_int : codec Z :=
  MkCodec (fun z => JNum (print_Z z)) d_int 0%Z (fun z => Z.eqb z 0) (fun z => in_int64 z = true).

Definition c_uint8 : codec Z :=
  MkCodec (fun z => JNum (print_Z z)) d_uint8 0%Z (fun z => Z.eqb z 0) (fun z => (0 <= z <= 255)%Z).

Definition c_list {A} (c : codec A) : codec (list A) :=
  MkCodec (fun l => JArr (List.map (c_enc c) l)) (d_list (c_zero c) (c_dec c)) []
    (fun l => match l with [] => true | _ => false end) (Forall (c_ok c)).

Definition c_ptr {A} (c : codec A) : codec (option A) :=
  MkCodec (fun o => match o with Some a => c_enc c a | None => JNull end)
    (d_ptr (c_zero c) (c_dec c)) None
    (fun o => match o with None => true | _ => false end)
    (fun o => match o with Some a => c_ok c a | None => True end).

(** An instant is written only where it is not zero; none of the payloads the
    engine writes sets one, so a non-zero instant is outside the codec. *)
Definition c_time : codec Time :=
  MkCodec (fun _ => JNull) d_time 0%Z (fun t => Z.eqb t 0) (fun t => t = 0%Z).

(** The fields of a struct, in order: always written, or left out when empty. *)
Definition fld {A} (name : string) (c : codec A) (a : A) : list (string * json) :=
  [(name, c_enc c a)].
Definition fopt {A} (name : string) (c : codec A) (a : A) : list (string * json) :=
  if c_empty c a then [] else fld name c a.
Definition obj (fields : list (list (string * json))) : json := JObj (List.concat fields).

Definition struct_codec {A} `{EqDecision A} (e : A -> json) (d : decoder A) (zero : A)
    (ok : A -> Prop) : codec A :=
  MkCodec e d zero (fun a => bool_decide (a = zero)) ok.

(** ** The laws of the basic codecs *)

#[export] Instance laws_string : CodecLaws c_string.
Proof. split; cbn; auto. intros a. by rewrite String.eqb_eq. Qed.

#[export] Instance laws_bool : CodecLaws c_bool.
Proof. split; cbn; auto. by intros []. Qed.

#[export] Instance laws_int : CodecLaws c_int.
Proof.
  split; cbn; intros z H; [by rewrite parse_print_int64..|apply print_Z_number|by apply Z.eqb_eq].
Qed.

Lemma uint8_no_sign z : (0 <= z <= 255)%Z -> has_prefix "-" (print_Z z) = false.
Proof.
  intros H. assert (Hall : forallb (fun n => negb (has_prefix "-" (print_Z (Z.of_nat n)))) (seq 0 256) = true)
    by (vm_compute; reflexivity).
  rewrite List.forallb_forall in Hall. specialize (Hall (Z.to_nat z)).
  rewrite Z2Nat.id in Hall by lia. apply negb_true_iff, Hall, in_seq. lia.
Qed.

#[export] Instance laws_uint8 : CodecLaws c_uint8.
Proof.
  split; cbn [c_uint8 c_dec c_enc c_zero c_ok c_empty json_ok sort_keys]; intros z H;
    [| |apply print_Z_number|by apply Z.eqb_eq];
    unfold d_uint8; rewrite parse_print_Z, uint8_no_sign by done;
    by destruct (Z.leb_spec 0 z), (Z.leb_spec z 255); try lia.
Qed.

#[export] Instance laws_time : CodecLaws c_time.
Proof. split; cbn; intros t H; [by subst|by subst|done|by apply Z.eqb_eq]. Qed.

#[export] Instance laws_list {A} (c : codec A) `{!CodecLaws c} : CodecLaws (c_list c).
Proof.
  split; cbn.
  - intros l HF. induction HF as [|a l Ha HF IH]; [done|]. cbn.
    by rewrite law_read, IH.
  - intros l HF. induction HF as [|a l Ha HF IH]; [done|]. cbn.
    by rewrite law_sorted, IH.
  - intros l HF. induction HF as [|a l Ha HF IH]; [done|]. cbn. by rewrite law_json, IH.
  - by intros [].
Qed.

#[export] Instance laws_ptr {A} (c : codec A) `{!CodecLaws c, !NeverNull c} : CodecLaws (c_ptr c).
Proof.
  split; cbn.
  - intros [a|] Ha; [|done]. unfold d_ptr. pose proof (never_null a) as Hn.
    destruct (c_enc c a) eqn:E; try done; rewrite <- E; cbn; by rewrite law_read.
  - intros [a|] Ha; [|done]. unfold d_ptr. pose proof (never_null a) as Hn.
    pose proof (law_sorted a Ha) as Hs.
    destruct (c_enc c a) eqn:E; try done; cbn [sort_keys] in *; cbn; by rewrite Hs.
  - intros [a|] Ha; [by apply law_json|done].
  - by intros [].
Qed.

(** ** Reading the fields of an object back *)

Lemma Dec_bind_true {A B} (m : Dec A) (f : A -> Dec B) a r :
  m = (a, true) -> f a = r -> m ≫= f = r.
Proof. intros -> <-. cbn. by destruct (f a). Qed.

Definition other (k k' : string) : bool := negb (String.eqb (fold_key k') (fold_key k)).

(** The lemmas hold of the fields as written and of their canonical forms. *)
Section Fields.
Context (g : json -> json).

Definition under (fs : list (string * json)) : list (string * json) :=
  List.map (fun f => (fst f, g (snd f))) fs.

Lemma field_skip {A B} k k' (d : decoder A) cur (c : codec B) b l (opt : bool) :
  other k k' = true ->
  field k d cur (under (List.concat ((if opt then fopt k' c b else fld k' c b) :: l))) =
  field k d cur (under (List.concat l)).
Proof.
  unfold other. intros H%negb_true_iff. cbn [List.concat].
  destruct opt; unfold fopt; [destruct (c_empty c b); [done|]|]; cbn; by rewrite H.
Qed.

Lemma field_here {A} k (c : codec A) `{!CodecLaws c} a l (opt : bool) :
  c_dec c (c_zero c) (g (c_enc c a)) = (a, true) ->
  (forall cur, field k (c_dec c) cur (under (List.concat l)) = (cur, true)) ->
  field k (c_dec c) (c_zero c)
    (under (List.concat ((if opt then fopt k c a else fld k c a) :: l))) = (a, true).
Proof.
  intros Ha Hl. cbn [List.concat]. unfold fopt. destruct opt.
  - destruct (c_empty c a) eqn:E; [rewrite (law_empty _ E); apply Hl|].
    cbn. rewrite String.eqb_refl, Ha. cbn. by rewrite Hl.
  - cbn. rewrite String.eqb_refl, Ha. cbn. by rewrite Hl.
Qed.
End Fields.

Lemma under_id fs : under id fs = fs.
Proof. rewrite <- (List.map_id fs) at 2. apply List.map_ext. by intros []. Qed.

(** With distinct keys the order of the fields is immaterial. *)
Lemma field_perm {A} k (d : decoder A) fs fs' :
  Permutation fs fs' -> NoDup (List.map (fun f => fold_key (fst f)) fs) ->
  forall cur, field k d cur fs = field k d cur fs'.
Proof.
  induction 1 as [|[k1 v1] fs fs' H IH|[k1 v1] [k2 v2] fs|fs1 fs2 fs3 H1 IH1 H2 IH2]; intros Hn cur.
  - done.
  - cbn in *. apply NoDup_cons in Hn as [_ Hn]. unfold mbind, Dec_bind. by rewrite !IH.
  - cbn in *. apply NoDup_cons in Hn as [Hn _].
    destruct (String.eqb_spec (fold_key k1) (fold_key k)), (String.eqb_spec (fold_key k2) (fold_key k));
      try done. destruct Hn. apply list_elem_of_In. left. congruence.
  - rewrite IH1, IH2; [done| |done]. by rewrite <- H1.
Qed.

Lemma insert_field_perm k v (l : list (string * json)) :
  k ∉ l.*1 -> Permutation (insert_field k v l) ((k, v) :: l).
Proof.
  induction l as [|[k' v'] l IH]; cbn; [done|]. intros Hk. apply not_elem_of_cons in Hk as [Hne Hk].
  destruct (String.eqb_spec k k') as [->|_]; [done|]. destruct (String.ltb k k'); [done|].
  rewrite (IH Hk). apply Permutation_swap.
Qed.

Lemma sort_fields_perm fs : forall acc,
  NoDup (acc ++ fs).*1 -> Permutation (sort_fields acc fs) (acc ++ under sort_keys fs).
Proof.
  induction fs as [|[k v] fs IH]; intros acc Hn; cbn [sort_fields under List.map fst snd];
    [by rewrite app_nil_r|].
  rewrite fmap_app in Hn. cbn in Hn.
  assert (Hk : k ∉ acc.*1) by (apply NoDup_app in Hn as (_ & Hd & _); intros Hin; apply (Hd _ Hin); left).
  rewrite IH.
  - rewrite insert_field_perm by done. cbn. by rewrite Permutation_middle.
  - rewrite fmap_app, insert_field_perm by done. cbn. by rewrite Permutation_middle.
Qed.

(** The keys of an object whose fields are each absent or alone under a name. *)
Lemma keys_sublist l names :
  Forall2 (fun fs k => fs = [] \/ exists v : json, fs = [(k, v)]) l names ->
  sublist (A := string) (fst <$> List.concat l) names.
Proof.
  induction 1 as [|fs k l names H HF IH]; cbn; [done|].
  destruct H as [-> | [v ->]]; cbn; by constructor.
Qed.

Lemma field_sorted {A} k (d : decoder A) cur l names :
  Forall2 (fun fs k => fs = [] \/ exists v : json, fs = [(k, v)]) l names ->
  bool_decide (NoDup (List.map fold_key names)) = true ->
  field k d cur (sort_fields [] (List.concat l)) = field k d cur (under sort_keys (List.concat l)).
Proof.
  intros HF Hn%bool_decide_eq_true. apply keys_sublist in HF.
  assert (Hf : NoDup (List.map (fun f => fold_key (fst f)) (List.concat l))).
  { rewrite <- List.map_map. eapply sublist_NoDup; [exact Hn|]. by apply (fmap_sublist fold_key). }
  symmetry. apply field_perm.
  - symmetry. apply (sort_fields_perm _ []). cbn.
    eapply (NoDup_fmap_1 fold_key). by rewrite <- list_fmap_compose.
  - unfold under. by rewrite List.map_map.
Qed.

Lemma concat_ok l :
  forallb (fun '(k, v) => utf8_valid k && json_ok v) (List.concat l) =
  forallb (forallb (fun '(k, v) => utf8_valid k && json_ok v)) l.
Proof. induction l as [|x l IH]; [done|]. cbn. by rewrite forallb_app, IH. Qed.

Lemma field_ok {A} k (c : codec A) `{!CodecLaws c} a (opt : bool) :
  utf8_valid k = true -> c_ok c a ->
  forallb (fun '(k, v) => utf8_valid k && json_ok v) (if opt then fopt k c a else fld k c a) = true.
Proof.
  intros Hk Ha. unfold fopt. destruct opt; [destruct (c_empty c a); [done|]|];
    cbn; by rewrite Hk, law_json.
Qed.

(** The laws of a struct: each field is found under its name and under no
    other, its strings are valid, and only the zero value is empty. *)
Ltac skip_field :=
  lazymatch goal with
  | |- field ?k ?d ?cur (under ?g (List.concat (fopt ?k' ?c ?b :: ?l))) = _ =>
      refine (eq_trans (field_skip g k k' d cur c b l true eq_refl) _)
  | |- field ?k ?d ?cur (under ?g (List.concat (fld ?k' ?c ?b :: ?l))) = _ =>
      refine (eq_trans (field_skip g k k' d cur c b l false eq_refl) _)
  end.

Ltac read_field c a :=
  first [apply (law_read (c := c) a); assumption | apply (law_sorted (c := c) a); assumption].

Ltac find_field :=
  lazymatch goal with
  | |- field ?k _ _ (under ?g (List.concat (fopt ?k ?c ?a :: ?l))) = _ =>
      refine (field_here g k c a l true _ _); [read_field c a|intros; repeat skip_field; reflexivity]
  | |- field ?k _ _ (under ?g (List.concat (fld ?k ?c ?a :: ?l))) = _ =>
      refine (field_here g k c a l false _ _); [read_field c a|intros; repeat skip_field; reflexivity]
  | |- _ => skip_field; find_field
  end.

Lemma fopt_alone {A} k (c : codec A) a : fopt k c a = [] \/ exists v, fopt k c a = [(k, v)].
Proof. unfold fopt, fld. destruct (c_empty c a); eauto. Qed.

Lemma fld_alone {A} k (c : codec A) a : fld k c a = [] \/ exists v, fld k c a = [(k, v)].
Proof. unfold fld. eauto. Qed.

Ltac each_alone :=
  lazymatch goal with
  | |- Forall2 _ (fopt ?k ?c ?a :: _) _ =>
      eapply List.Forall2_cons; [exact (fopt_alone k c a)|each_alone]
  | |- Forall2 _ (fld ?k ?c ?a :: _) _ =>
      eapply List.Forall2_cons; [exact (fld_alone k c a)|each_alone]
  | |- Forall2 _ [] _ => apply List.Forall2_nil
  end.

Ltac struct_laws :=
  lazymatch goal with
  | |- CodecLaws ?c =>
      let c' := eval red in c in
      lazymatch c' with
      | struct_codec ?e ?d ?z ?ok =>
          change (CodecLaws (struct_codec e d z ok)); split;
          cbn [c_ok c_dec c_enc c_zero c_empty struct_codec]; intros p Hp;
          [ destruct_and? Hp; unfold d, e, d_struct, obj; cbv beta iota;
            rewrite <- (under_id (List.concat _));
            repeat (refine (Dec_bind_true _ _ _ _ _ _); [find_field|]); destruct p; reflexivity
          | destruct_and? Hp; unfold d, e, d_struct, obj; rewrite sort_keys_obj; cbv beta iota;
            repeat (refine (Dec_bind_true _ _ _ _ _ _);
              [refine (eq_trans (field_sorted _ _ _ _ _ _ _) _);
               [each_alone|vm_compute; reflexivity|find_field]|]);
            destruct p; reflexivity
          | destruct_and? Hp; unfold e, obj; cbn [json_ok];
            refine (eq_trans (concat_ok _) _); cbn [forallb];
            repeat lazymatch goal with |- _ && _ = true => apply andb_true_iff; split end;
            try reflexivity;
            lazymatch goal with
            | |- forallb _ (fopt ?k ?c ?a) = true =>
                exact (field_ok k c a true eq_refl ltac:(assumption))
            | |- forallb _ (fld ?k ?c ?a) = true =>
                exact (field_ok k c a false eq_refl ltac:(assumption))
            end
          | by apply bool_decide_eq_true in Hp ]
      end
  end.

#[export] Hint Extern 1 (NeverNull _) => (intros ?; discriminate) : typeclass_instances.

(** ** The payload types *)

Definition e_Consumption (p : Consumption) : json := obj [
  fopt "micros" c_int (C_Micros p);
  fopt "tokens" c_int (C_Tokens p);
  fopt "tool_calls" c_int (C_ToolCalls p);
  fopt "steps" c_int (C_Steps p);
  fopt "wall_clock_ms" c_int (C_WallClockMS p)].

Definition c_Consumption : codec Consumption :=
  struct_codec e_Consumption d_Consumption zeroConsumption (fun p =>
    c_ok c_int (C_Micros p) /\
    c_ok c_int (C_Tokens p) /\
    c_ok c_int (C_ToolCalls p) /\
    c_ok c_int (C_Steps p) /\
    c_ok c_int (C_WallClockMS p)).

#[export] Instance laws_Consumption : CodecLaws c_Consumption.
Proof. struct_laws. Qed.

Definition e_TicketRef (p : TicketRef) : json := obj [
  fld "key" c_string (TR_Key p);
  fld "revision" c_int (TR_Revision p)].

Definition c_TicketRef : codec TicketRef :=
  struct_codec e_TicketRef d_TicketRef zeroTicketRef (fun p =>
    c_ok c_string (TR_Key p) /\
    c_ok c_int (TR_Revision p)).

#[export] Instance laws_TicketRef : CodecLaws c_TicketRef.
Proof. struct_laws. Qed.

Definition e_TicketContext (p : TicketContext) : json := obj [
  fld "ref" c_TicketRef (TC_Ref p);
  fld "requested_by" c_string (TC_RequestedBy p);
  fopt "addressed_by" c_string (TC_AddressedBy p)].

Definition c_TicketContext : codec TicketContext :=
  struct_codec e_TicketContext d_TicketContext zeroTicketContext (fun p =>
    c_ok c_TicketRef (TC_Ref p) /\
    c_ok c_string (TC_RequestedBy p) /\
    c_ok c_string (TC_AddressedBy p)).

#[export] Instance laws_TicketContext : CodecLaws c_TicketContext.
Proof. struct_laws. Qed.

Definition e_ContextArtifact (p : ContextArtifact) : json := obj [
  fld "name" c_string (CA_Name p);
  fopt "kind" c_string (CA_Kind p);
  fld "ref" c_string (CA_Ref p);
  fld "digest" c_string (CA_Digest p);
  fld "source_run" c_string (CA_SourceRun p);
  fopt "source_agent" c_string (CA_SourceAgent p);
  fopt "labels" (c_list c_string) (CA_Labels p)].

Definition c_ContextArtifact : codec ContextArtifact :=
  struct_codec e_ContextArtifact d_ContextArtifact zeroContextArtifact (fun p =>
    c_ok c_string (CA_Name p) /\
    c_ok c_string (CA_Kind p) /\
    c_ok c_string (CA_Ref p) /\
    c_ok c_string (CA_Digest p) /\
    c_ok c_string (CA_SourceRun p) /\
    c_ok c_string (CA_SourceAgent p) /\
    c_ok (c_list c_string) (CA_Labels p)).

#[export] Instance laws_ContextArtifact : CodecLaws c_ContextArtifact.
Proof. struct_laws. Qed.

Definition e_EventChain (p : EventChain) : json := obj [
  fld "root" c_string (EC_Root p);
  fld "hop" c_int (EC_Hop p)].

Definition c_EventChain : codec EventChain :=
  struct_codec e_EventChain d_EventChain zeroEventChain (fun p =>
    c_ok c_string (EC_Root p) /\
    c_ok c_int (EC_Hop p)).

#[export] Instance laws_EventChain : CodecLaws c_EventChain.
Proof. struct_laws. Qed.

Definition e_EventsWithheld (p : EventsWithheld) : json := obj [
  fld "reason" c_string (EW_Reason p);
  fopt "root" c_string (EW_Root p);
  fopt "hop" c_int (EW_Hop p);
  fld "limit" c_int (EW_Limit p)].

Definition c_EventsWithheld : codec EventsWithheld :=
  struct_codec e_EventsWithheld d_EventsWithheld zeroEventsWithheld (fun p =>
    c_ok c_string (EW_Reason p) /\
    c_ok c_string (EW_Root p) /\
    c_ok c_int (EW_Hop p) /\
    c_ok c_int (EW_Limit p)).

#[export] Instance laws_EventsWithheld : CodecLaws c_EventsWithheld.
Proof. struct_laws. Qed.

Definition e_RunWorkItem (p : RunWorkItem) : json := obj [
  fld "ref" c_string (RW_Ref p);
  fld "source" c_string (RW_Source p);
  fopt "from_run" c_string (RW_FromRun p)].

Definition c_RunWorkItem : codec RunWorkItem :=
  struct_codec e_RunWorkItem d_RunWorkItem zeroRunWorkItem (fun p =>
    c_ok c_string (RW_Ref p) /\
    c_ok c_string (RW_Source p) /\
    c_ok c_string (RW_FromRun p)).

#[export] Instance laws_RunWorkItem : CodecLaws c_RunWorkItem.
Proof. struct_laws. Qed.

Definition e_RunOrigin (p : RunOrigin) : json := obj [
  fld "channel" c_string (RO_Channel p);
  fld "conversation" c_string (RO_Conversation p);
  fopt "message" c_string (RO_Message p);
  fopt "thread" c_string (RO_Thread p)].

Definition c_RunOrigin : codec RunOrigin :=
  struct_codec e_RunOrigin d_RunOrigin zeroRunOrigin (fun p =>
    c_ok c_string (RO_Channel p) /\
    c_ok c_string (RO_Conversation p) /\
    c_ok c_string (RO_Message p) /\
    c_ok c_string (RO_Thread p)).

#[export] Instance laws_RunOrigin : CodecLaws c_RunOrigin.
Proof. struct_laws. Qed.

Definition e_RunStartedPayload (p : RunStartedPayload) : json := obj [
  fld "trigger" c_string (RS_Trigger p);
  fopt "input_ref" c_string (RS_InputRef p);
  fopt "simulated" c_bool (RS_Simulated p);
  fopt "simulation" c_string (RS_Simulation p);
  fopt "case" c_string (RS_Case p);
  fopt "dataset_version" c_int (RS_DatasetVersion p);
  fopt "origin" (c_ptr c_RunOrigin) (RS_Origin p);
  fopt "ticket" (c_ptr c_TicketContext) (RS_Ticket p);
  fopt "context_artifacts" (c_list c_ContextArtifact) (RS_ContextArtifacts p);
  fopt "source_run" c_string (RS_SourceRun p);
  fopt "chain" (c_ptr c_EventChain) (RS_Chain p);
  fopt "work_item" (c_ptr c_RunWorkItem) (RS_WorkItem p)].

Definition c_RunStartedPayload : codec RunStartedPayload :=
  struct_codec e_RunStartedPayload d_RunStartedPayload zeroRunStartedPayload (fun p =>
    c_ok c_string (RS_Trigger p) /\
    c_ok c_string (RS_InputRef p) /\
    c_ok c_bool (RS_Simulated p) /\
    c_ok c_string (RS_Simulation p) /\
    c_ok c_string (RS_Case p) /\
    c_ok c_int (RS_DatasetVersion p) /\
    c_ok (c_ptr c_RunOrigin) (RS_Origin p) /\
    c_ok (c_ptr c_TicketContext) (RS_Ticket p) /\
    c_ok (c_list c_ContextArtifact) (RS_ContextArtifacts p) /\
    c_ok c_string (RS_SourceRun p) /\
    c_ok (c_ptr c_EventChain) (RS_Chain p) /\
    c_ok (c_ptr c_RunWorkItem) (RS_WorkItem p)).

#[export] Instance laws_RunStartedPayload : CodecLaws c_RunStartedPayload.
Proof. struct_laws. Qed.

Definition e_MonitoredPolicy (p : MonitoredPolicy) : json := obj [
  fld "code" c_string (MP_Code p);
  fld "verdict" c_uint8 (MP_Verdict p);
  fopt "reason" c_string (MP_Reason p)].

Definition c_MonitoredPolicy : codec MonitoredPolicy :=
  struct_codec e_MonitoredPolicy d_MonitoredPolicy zeroMonitoredPolicy (fun p =>
    c_ok c_string (MP_Code p) /\
    c_ok c_uint8 (MP_Verdict p) /\
    c_ok c_string (MP_Reason p)).

#[export] Instance laws_MonitoredPolicy : CodecLaws c_MonitoredPolicy.
Proof. struct_laws. Qed.

Definition e_DuplicateEffect (p : DuplicateEffect) : json := obj [
  fopt "run_id" c_string (DE_RunID p);
  fopt "seq" c_int (DE_Seq p)].

Definition c_DuplicateEffect : codec DuplicateEffect :=
  struct_codec e_DuplicateEffect d_DuplicateEffect zeroDuplicateEffect (fun p =>
    c_ok c_string (DE_RunID p) /\
    c_ok c_int (DE_Seq p)).

#[export] Instance laws_DuplicateEffect : CodecLaws c_DuplicateEffect.
Proof. struct_laws. Qed.

Definition e_GateDecidedPayload (p : GateDecidedPayload) : json := obj [
  fld "tool" c_string (GD_Tool p);
  fld "effect" c_uint8 (GD_Effect p);
  fld "verdict" c_uint8 (GD_Verdict p);
  fopt "rule" c_string (GD_Rule p);
  fopt "reason" c_string (GD_Reason p);
  fopt "policy_code" c_string (GD_PolicyCode p);
  fopt "monitored" (c_list c_MonitoredPolicy) (GD_Monitored p);
  fopt "duplicate" (c_ptr c_DuplicateEffect) (GD_Duplicate p);
  fopt "stage" c_string (GD_Stage p);
  fopt "labels" (c_list c_string) (GD_Labels p);
  fopt "args_digest" c_string (GD_ArgsDigest p);
  fopt "contract_digest" c_string (GD_ContractDigest p);
  fopt "budget" (c_ptr c_Consumption) (GD_Budget p);
  fopt "committed" (c_ptr c_Consumption) (GD_Committed p);
  fopt "estimate" (c_ptr c_Consumption) (GD_Estimate p);
  fopt "projected" (c_ptr c_Consumption) (GD_Projected p);
  fopt "breached" c_string (GD_Breached p)].

Definition c_GateDecidedPayload : codec GateDecidedPayload :=
  struct_codec e_GateDecidedPayload d_GateDecidedPayload zeroGateDecidedPayload (fun p =>
    c_ok c_string (GD_Tool p) /\
    c_ok c_uint8 (GD_Effect p) /\
    c_ok c_uint8 (GD_Verdict p) /\
    c_ok c_string (GD_Rule p) /\
    c_ok c_string (GD_Reason p) /\
    c_ok c_string (GD_PolicyCode p) /\
    c_ok (c_list c_MonitoredPolicy) (GD_Monitored p) /\
    c_ok (c_ptr c_DuplicateEffect) (GD_Duplicate p) /\
    c_ok c_string (GD_Stage p) /\
    c_ok (c_list c_string) (GD_Labels p) /\
    c_ok c_string (GD_ArgsDigest p) /\
    c_ok c_string (GD_ContractDigest p) /\
    c_ok (c_ptr c_Consumption) (GD_Budget p) /\
    c_ok (c_ptr c_Consumption) (GD_Committed p) /\
    c_ok (c_ptr c_Consumption) (GD_Estimate p) /\
    c_ok (c_ptr c_Consumption) (GD_Projected p) /\
    c_ok c_string (GD_Breached p)).

#[export] Instance laws_GateDecidedPayload : CodecLaws c_GateDecidedPayload.
Proof. struct_laws. Qed.

Definition e_BudgetReservedPayload (p : BudgetReservedPayload) : json := obj [
  fopt "micros" c_int (BR_Micros p);
  fopt "tokens" c_int (BR_Tokens p)].

Definition c_BudgetReservedPayload : codec BudgetReservedPayload :=
  struct_codec e_BudgetReservedPayload d_BudgetReservedPayload zeroBudgetReservedPayload (fun p =>
    c_ok c_int (BR_Micros p) /\
    c_ok c_int (BR_Tokens p)).

#[export] Instance laws_BudgetReservedPayload : CodecLaws c_BudgetReservedPayload.
Proof. struct_laws. Qed.

Definition e_BudgetReconciledPayload (p : BudgetReconciledPayload) : json := obj [
  fopt "released_micros" c_int (BC_ReleasedMicros p);
  fopt "released_tokens" c_int (BC_ReleasedTokens p)].

Definition c_BudgetReconciledPayload : codec BudgetReconciledPayload :=
  struct_codec e_BudgetReconciledPayload d_BudgetReconciledPayload zeroBudgetReconciledPayload (fun p =>
    c_ok c_int (BC_ReleasedMicros p) /\
    c_ok c_int (BC_ReleasedTokens p)).

#[export] Instance laws_BudgetReconciledPayload : CodecLaws c_BudgetReconciledPayload.
Proof. struct_laws. Qed.

Definition e_ToolCalledPayload (p : ToolCalledPayload) : json := obj [
  fld "tool" c_string (TCd_Tool p);
  fld "effect" c_uint8 (TCd_Effect p);
  fopt "args_ref" c_string (TCd_ArgsRef p);
  fopt "args_digest" c_string (TCd_ArgsDigest p);
  fopt "contract_digest" c_string (TCd_ContractDigest p)].

Definition c_ToolCalledPayload : codec ToolCalledPayload :=
  struct_codec e_ToolCalledPayload d_ToolCalledPayload zeroToolCalledPayload (fun p =>
    c_ok c_string (TCd_Tool p) /\
    c_ok c_uint8 (TCd_Effect p) /\
    c_ok c_string (TCd_ArgsRef p) /\
    c_ok c_string (TCd_ArgsDigest p) /\
    c_ok c_string (TCd_ContractDigest p)).

#[export] Instance laws_ToolCalledPayload : CodecLaws c_ToolCalledPayload.
Proof. struct_laws. Qed.

Definition e_PullRequestStamp (p : PullRequestStamp) : json := obj [
  fld "ref" c_string (PS_Ref p);
  fld "via" c_string (PS_Via p)].

Definition c_PullRequestStamp : codec PullRequestStamp :=
  struct_codec e_PullRequestStamp d_PullRequestStamp zeroPullRequestStamp (fun p =>
    c_ok c_string (PS_Ref p) /\
    c_ok c_string (PS_Via p)).

#[export] Instance laws_PullRequestStamp : CodecLaws c_PullRequestStamp.
Proof. struct_laws. Qed.

Definition e_ToolReturnedPayload (p : ToolReturnedPayload) : json := obj [
  fld "tool" c_string (TRd_Tool p);
  fopt "result_ref" c_string (TRd_ResultRef p);
  fopt "result_digest" c_string (TRd_ResultDigest p);
  fopt "result_bytes" c_int (TRd_ResultBytes p);
  fopt "failed" c_bool (TRd_Failed p);
  fopt "error_code" c_string (TRd_ErrorCode p);
  fopt "cached" c_bool (TRd_Cached p);
  fopt "cached_from_run" c_string (TRd_CachedFromRun p);
  fopt "cached_from_seq" c_int (TRd_CachedFromSeq p);
  fopt "context" (c_ptr c_ContextArtifact) (TRd_Context p);
  fopt "pull_request" (c_ptr c_PullRequestStamp) (TRd_PullRequest p)].

Definition c_ToolReturnedPayload : codec ToolReturnedPayload :=
  struct_codec e_ToolReturnedPayload d_ToolReturnedPayload zeroToolReturnedPayload (fun p =>
    c_ok c_string (TRd_Tool p) /\
    c_ok c_string (TRd_ResultRef p) /\
    c_ok c_string (TRd_ResultDigest p) /\
    c_ok c_int (TRd_ResultBytes p) /\
    c_ok c_bool (TRd_Failed p) /\
    c_ok c_string (TRd_ErrorCode p) /\
    c_ok c_bool (TRd_Cached p) /\
    c_ok c_string (TRd_CachedFromRun p) /\
    c_ok c_int (TRd_CachedFromSeq p) /\
    c_ok (c_ptr c_ContextArtifact) (TRd_Context p) /\
    c_ok (c_ptr c_PullRequestStamp) (TRd_PullRequest p)).

#[export] Instance laws_ToolReturnedPayload : CodecLaws c_ToolReturnedPayload.
Proof. struct_laws. Qed.

Definition e_ApprovalEvidence (p : ApprovalEvidence) : json := obj [
  fld "kind" c_string (AE_Kind p);
  fld "ticket" c_TicketRef (AE_Ticket p);
  fld "ref" c_string (AE_Ref p);
  fld "digest" c_string (AE_Digest p)].

Definition c_ApprovalEvidence : codec ApprovalEvidence :=
  struct_codec e_ApprovalEvidence d_ApprovalEvidence zeroApprovalEvidence (fun p =>
    c_ok c_string (AE_Kind p) /\
    c_ok c_TicketRef (AE_Ticket p) /\
    c_ok c_string (AE_Ref p) /\
    c_ok c_string (AE_Digest p)).

#[export] Instance laws_ApprovalEvidence : CodecLaws c_ApprovalEvidence.
Proof. struct_laws. Qed.

Definition e_ApprovalRequestedPayload (p : ApprovalRequestedPayload) : json := obj [
  fld "tool" c_string (AR_Tool p);
  fopt "rule" c_string (AR_Rule p);
  fopt "reason" c_string (AR_Reason p);
  fopt "expires_at" c_time (AR_ExpiresAt p);
  fopt "effect" c_uint8 (AR_Effect p);
  fopt "args_ref" c_string (AR_ArgsRef p);
  fopt "args_digest" c_string (AR_ArgsDigest p);
  fopt "contract_digest" c_string (AR_ContractDigest p);
  fopt "estimate" c_Consumption (AR_Estimate p);
  fopt "labels" (c_list c_string) (AR_Labels p);
  fopt "evidence" (c_ptr c_ApprovalEvidence) (AR_Evidence p)].

Definition c_ApprovalRequestedPayload : codec ApprovalRequestedPayload :=
  struct_codec e_ApprovalRequestedPayload d_ApprovalRequestedPayload zeroApprovalRequestedPayload (fun p =>
    c_ok c_string (AR_Tool p) /\
    c_ok c_string (AR_Rule p) /\
    c_ok c_string (AR_Reason p) /\
    c_ok c_time (AR_ExpiresAt p) /\
    c_ok c_uint8 (AR_Effect p) /\
    c_ok c_string (AR_ArgsRef p) /\
    c_ok c_string (AR_ArgsDigest p) /\
    c_ok c_string (AR_ContractDigest p) /\
    c_ok c_Consumption (AR_Estimate p) /\
    c_ok (c_list c_string) (AR_Labels p) /\
    c_ok (c_ptr c_ApprovalEvidence) (AR_Evidence p)).

#[export] Instance laws_ApprovalRequestedPayload : CodecLaws c_ApprovalRequestedPayload.
Proof. struct_laws. Qed.

Definition e_ApprovalDecidedPayload (p : ApprovalDecidedPayload) : json := obj [
  fld "approved" c_bool (AD_Approved p);
  fld "by" c_string (AD_By p);
  fopt "note" c_string (AD_Note p);
  fopt "at_seq" c_int (AD_AtSeq p);
  fopt "standing_grant" c_string (AD_StandingGrant p)].

Definition c_ApprovalDecidedPayload : codec ApprovalDecidedPayload :=
  struct_codec e_ApprovalDecidedPayload d_ApprovalDecidedPayload zeroApprovalDecidedPayload (fun p =>
    c_ok c_bool (AD_Approved p) /\
    c_ok c_string (AD_By p) /\
    c_ok c_string (AD_Note p) /\
    c_ok c_int (AD_AtSeq p) /\
    c_ok c_string (AD_StandingGrant p)).

#[export] Instance laws_ApprovalDecidedPayload : CodecLaws c_ApprovalDecidedPayload.
Proof. struct_laws. Qed.

Definition e_FailureSummary (p : FailureSummary) : json := obj [
  fld "code" c_string (FS_Code p);
  fopt "provider" c_string (FS_Provider p);
  fopt "status" c_int (FS_Status p);
  fopt "request_id" c_string (FS_RequestID p);
  fopt "retryable" c_bool (FS_Retryable p)].

Definition c_FailureSummary : codec FailureSummary :=
  struct_codec e_FailureSummary d_FailureSummary zeroFailureSummary (fun p =>
    c_ok c_string (FS_Code p) /\
    c_ok c_string (FS_Provider p) /\
    c_ok c_int (FS_Status p) /\
    c_ok c_string (FS_RequestID p) /\
    c_ok c_bool (FS_Retryable p)).

#[export] Instance laws_FailureSummary : CodecLaws c_FailureSummary.
Proof. struct_laws. Qed.

Definition e_CompensationStartedPayload (p : CompensationStartedPayload) : json := obj [
  fld "tool" c_string (CS_Tool p);
  fld "for_seq" c_int (CS_ForSeq p)].

Definition c_CompensationStartedPayload : codec CompensationStartedPayload :=
  struct_codec e_CompensationStartedPayload d_CompensationStartedPayload
    zeroCompensationStartedPayload (fun p =>
    c_ok c_string (CS_Tool p) /\
    c_ok c_int (CS_ForSeq p)).

#[export] Instance laws_CompensationStartedPayload : CodecLaws c_CompensationStartedPayload.
Proof. struct_laws. Qed.

Definition e_CompensatedPayload (p : CompensatedPayload) : json := obj [
  fld "tool" c_string (CP_Tool p);
  fld "for_seq" c_int (CP_ForSeq p);
  fld "succeeded" c_bool (CP_Succeeded p);
  fopt "before_invoke" c_bool (CP_BeforeInvoke p)].

Definition c_CompensatedPayload : codec CompensatedPayload :=
  struct_codec e_CompensatedPayload d_CompensatedPayload zeroCompensatedPayload (fun p =>
    c_ok c_string (CP_Tool p) /\
    c_ok c_int (CP_ForSeq p) /\
    c_ok c_bool (CP_Succeeded p) /\
    c_ok c_bool (CP_BeforeInvoke p)).

#[export] Instance laws_CompensatedPayload : CodecLaws c_CompensatedPayload.
Proof. struct_laws. Qed.

Definition e_FailedPayload (p : FailedPayload) : json := obj [
  fld "code" c_string (FP_Code p);
  fopt "message" c_string (FP_Message p);
  fld "retryable" c_bool (FP_Retryable p)].

Definition c_FailedPayload : codec FailedPayload :=
  struct_codec e_FailedPayload d_FailedPayload zeroFailedPayload (fun p =>
    c_ok c_string (FP_Code p) /\
    c_ok c_string (FP_Message p) /\
    c_ok c_bool (FP_Retryable p)).

#[export] Instance laws_FailedPayload : CodecLaws c_FailedPayload.
Proof. struct_laws. Qed.

Definition e_ModelPair (p : ModelPair) : json := obj [
  fld "provider" c_string (MPr_Provider p);
  fld "model" c_string (MPr_Model p)].

Definition c_ModelPair : codec ModelPair :=
  struct_codec e_ModelPair d_ModelPair zeroModelPair (fun p =>
    c_ok c_string (MPr_Provider p) /\
    c_ok c_string (MPr_Model p)).

#[export] Instance laws_ModelPair : CodecLaws c_ModelPair.
Proof. struct_laws. Qed.

Definition e_ModelFallbackPayload (p : ModelFallbackPayload) : json := obj [
  fld "from" c_ModelPair (MF_From p);
  fld "to" c_ModelPair (MF_To p);
  fld "failure" c_FailureSummary (MF_Failure p);
  fopt "attempts" c_int (MF_Attempts p)].

Definition c_ModelFallbackPayload : codec ModelFallbackPayload :=
  struct_codec e_ModelFallbackPayload d_ModelFallbackPayload zeroModelFallbackPayload (fun p =>
    c_ok c_ModelPair (MF_From p) /\
    c_ok c_ModelPair (MF_To p) /\
    c_ok c_FailureSummary (MF_Failure p) /\
    c_ok c_int (MF_Attempts p)).

#[export] Instance laws_ModelFallbackPayload : CodecLaws c_ModelFallbackPayload.
Proof. struct_laws. Qed.

Definition e_InvestigationSummary (p : InvestigationSummary) : json := obj [
  fld "tool" c_string (IS_Tool p);
  fld "calls" c_int (IS_Calls p);
  fopt "result_bytes" c_int (IS_ResultBytes p);
  fopt "cached_calls" c_int (IS_CachedCalls p);
  fopt "result_digest" c_string (IS_ResultDigest p)].

Definition c_InvestigationSummary : codec InvestigationSummary :=
  struct_codec e_InvestigationSummary d_InvestigationSummary zeroInvestigationSummary (fun p =>
    c_ok c_string (IS_Tool p) /\
    c_ok c_int (IS_Calls p) /\
    c_ok c_int (IS_ResultBytes p) /\
    c_ok c_int (IS_CachedCalls p) /\
    c_ok c_string (IS_ResultDigest p)).

#[export] Instance laws_InvestigationSummary : CodecLaws c_InvestigationSummary.
Proof. struct_laws. Qed.

Definition e_ParkedPayload (p : ParkedPayload) : json := obj [
  fld "reason" c_string (PK_Reason p);
  fopt "attempts" c_int (PK_Attempts p);
  fopt "failure" (c_ptr c_FailureSummary) (PK_Failure p);
  fopt "investigation" (c_ptr c_InvestigationSummary) (PK_Investigation p)].

Definition c_ParkedPayload : codec ParkedPayload :=
  struct_codec e_ParkedPayload d_ParkedPayload zeroParkedPayload (fun p =>
    c_ok c_string (PK_Reason p) /\
    c_ok c_int (PK_Attempts p) /\
    c_ok (c_ptr c_FailureSummary) (PK_Failure p) /\
    c_ok (c_ptr c_InvestigationSummary) (PK_Investigation p)).

#[export] Instance laws_ParkedPayload : CodecLaws c_ParkedPayload.
Proof. struct_laws. Qed.

Definition e_RunFinishedPayload (p : RunFinishedPayload) : json := obj [
  fopt "outcome" c_string (RF_Outcome p);
  fopt "outcome_ref" c_string (RF_OutcomeRef p);
  fopt "outcome_digest" c_string (RF_OutcomeDigest p);
  fopt "artifacts" (c_list c_ContextArtifact) (RF_Artifacts p);
  fopt "reason" c_string (RF_Reason p);
  fopt "stopped_by" c_string (RF_StoppedBy p);
  fopt "headline_ref" c_string (RF_HeadlineRef p);
  fopt "headline_digest" c_string (RF_HeadlineDigest p);
  fopt "events_withheld" (c_ptr c_EventsWithheld) (RF_EventsWithheld p)].

Definition c_RunFinishedPayload : codec RunFinishedPayload :=
  struct_codec e_RunFinishedPayload d_RunFinishedPayload zeroRunFinishedPayload (fun p =>
    c_ok c_string (RF_Outcome p) /\
    c_ok c_string (RF_OutcomeRef p) /\
    c_ok c_string (RF_OutcomeDigest p) /\
    c_ok (c_list c_ContextArtifact) (RF_Artifacts p) /\
    c_ok c_string (RF_Reason p) /\
    c_ok c_string (RF_StoppedBy p) /\
    c_ok c_string (RF_HeadlineRef p) /\
    c_ok c_string (RF_HeadlineDigest p) /\
    c_ok (c_ptr c_EventsWithheld) (RF_EventsWithheld p)).

#[export] Instance laws_RunFinishedPayload : CodecLaws c_RunFinishedPayload.
Proof. struct_laws. Qed.

Definition e_WorkItemClaimedPayload (p : WorkItemClaimedPayload) : json := obj [
  fld "ref" c_string (WC_Ref p)].

Definition c_WorkItemClaimedPayload : codec WorkItemClaimedPayload :=
  struct_codec e_WorkItemClaimedPayload d_WorkItemClaimedPayload zeroWorkItemClaimedPayload (fun p =>
    c_ok c_string (WC_Ref p)).

#[export] Instance laws_WorkItemClaimedPayload : CodecLaws c_WorkItemClaimedPayload.
Proof. struct_laws. Qed.

Definition e_WorkItemLinkProof (p : WorkItemLinkProof) : json := obj [
  fld "kind" c_string (WP_Kind p);
  fld "seq" c_int (WP_Seq p)].

Definition c_WorkItemLinkProof : codec WorkItemLinkProof :=
  struct_codec e_WorkItemLinkProof d_WorkItemLinkProof zeroWorkItemLinkProof (fun p =>
    c_ok c_string (WP_Kind p) /\
    c_ok c_int (WP_Seq p)).

#[export] Instance laws_WorkItemLinkProof : CodecLaws c_WorkItemLinkProof.
Proof. struct_laws. Qed.

Definition e_WorkItemLinkedPayload (p : WorkItemLinkedPayload) : json := obj [
  fld "alias" c_string (WL_Alias p);
  fld "root" c_string (WL_Root p);
  fld "proof" c_WorkItemLinkProof (WL_Proof p)].

Definition c_WorkItemLinkedPayload : codec WorkItemLinkedPayload :=
  struct_codec e_WorkItemLinkedPayload d_WorkItemLinkedPayload zeroWorkItemLinkedPayload (fun p =>
    c_ok c_string (WL_Alias p) /\
    c_ok c_string (WL_Root p) /\
    c_ok c_WorkItemLinkProof (WL_Proof p)).

#[export] Instance laws_WorkItemLinkedPayload : CodecLaws c_WorkItemLinkedPayload.
Proof. struct_laws. Qed.


(** ** What is written is read back *)

Definition read_payload {A} (c : codec A) (payload : string) : option A :=
  decode_payload (c_zero c) (c_dec c) payload.

Lemma print_null j : json_ok j = true -> print_json j = "null" -> j = JNull.
Proof.
  intros Hok E. pose proof (unmarshal_print j Hok) as H. rewrite E in H.
  by vm_compute in H; injection H.
Qed.

Lemma print_braces j : json_ok j = true -> print_json j = "{}" -> j = JObj [].
Proof.
  intros Hok E. pose proof (unmarshal_print j Hok) as H. rewrite E in H.
  by vm_compute in H; injection H.
Qed.

Lemma sort_keys_null j : sort_keys j = JNull -> j = JNull.
Proof. by destruct j. Qed.

(** The canonical payload of a sealed step decodes to what was marshalled. *)
Lemma read_canonical {A} (c : codec A) `{!CodecLaws c, !NeverNull c} a :
  c_dec c (c_zero c) (JObj []) = (c_zero c, true) ->
  c_ok c a -> read_payload c (CanonicalJSON (marshal c a)) = Some a.
Proof.
  intros Hz Ha. pose proof (law_json a Ha) as Hok. pose proof (sort_keys_ok _ Hok) as Hok'.
  unfold marshal, CanonicalJSON.
  destruct (String.eqb_spec (print_json (c_enc c a)) "") as [E|_].
  { destruct (print_opens _ Hok) as (x & t & E' & _). congruence. }
  pose proof (decode_print (c_enc c a) "" Hok eq_refl) as Hd. rewrite str_app_nil in Hd. rewrite Hd.
  unfold marshal_any.
  destruct (String.eqb_spec (print_json (sort_keys (c_enc c a))) "{}") as [E|_].
  { pose proof (law_sorted a Ha) as Hs. rewrite (print_braces _ Hok' E), Hz in Hs. simplify_eq.
    reflexivity. }
  destruct (String.eqb_spec (print_json (sort_keys (c_enc c a))) "null") as [E|_].
  { apply print_null, sort_keys_null in E; [|done]. by apply never_null in E. }
  cbn [orb]. unfold read_payload, decode_payload.
  destruct (String.eqb_spec (print_json (sort_keys (c_enc c a))) "") as [E|_].
  { destruct (print_opens _ Hok') as (x & t & E' & _). congruence. }
  unfold unmarshal_into. rewrite unmarshal_print by done. by rewrite law_sorted.
Qed.

(** [survives_sealing c]: every value the codec covers is what a reader decodes
    from the canonical payload of the step that carried it. *)
Definition survives_sealing {A} (c : codec A) : Prop :=
  forall a, c_ok c a -> read_payload c (CanonicalJSON (marshal c a)) = Some a.


Example sealed_park :
  read_payload c_ParkedPayload (CanonicalJSON (marshal c_ParkedPayload
    (MkParkedPayload "budget_exhausted" 2 None None))) =
  Some (MkParkedPayload "budget_exhausted" 2 None None).
Proof. vm_compute. reflexivity. Qed.
