(* ===== verification/WorkItem.v ===== *)
(** * Work items

    src/internal/domain/workitem.go, workitem_link.go, workitem_alias.go,
    workitem_origin.go and workitem_provenance.go: the canonical references of
    cards, what a link must say, and what proves one. A regular expression of
    the source is a function over the parts its literal separators cut; the
    classes between them exclude the separators, so the cut is unique. *)

From Stdlib Require Import ZArith Lia Ascii String.
From stdpp Require Import base list strings.
From S2P Require Import Prelude GoStrings Json Domain Sha256 Step Payload.

Local Open Scope string_scope.

(** ** References (workitem.go) *)

Definition MaxWorkItemRefBytes : nat := 512.

Definition is_upper (c : ascii) : bool := between 65%N 90%N (byte_of c).
Definition is_lower (c : ascii) : bool := between 97%N 122%N (byte_of c).
Definition is_alnum (c : ascii) : bool := is_upper c || is_lower c || is_digit c.

Definition length_in (lo hi : nat) (s : string) : bool :=
  (lo <=? String.length s)%nat && (String.length s <=? hi)%nat.

Definition first_is (f : ascii -> bool) (s : string) : bool :=
  match s with String c _ => f c | EmptyString => false end.

Fixpoint last_is (f : ascii -> bool) (s : string) : bool :=
  match s with
  | EmptyString => false
  | String c EmptyString => f c
  | String _ s' => last_is f s'
  end.

(** [[A-Za-z0-9](?:[A-Za-z0-9-]{0,37}[A-Za-z0-9])?] *)
Definition owner_form (s : string) : bool :=
  length_in 1 39 s && all_bytes (fun c => is_alnum c || Ascii.eqb c "-") s &&
  first_is is_alnum s && last_is is_alnum s.

(** [[A-Za-z0-9._-]{1,100}] *)
Definition repo_form (s : string) : bool :=
  length_in 1 100 s &&
  all_bytes (fun c => is_alnum c || Ascii.eqb c "." || Ascii.eqb c "_" || Ascii.eqb c "-") s.

(** [[1-9][0-9]{0,9}] *)
Definition number_form (s : string) : bool :=
  length_in 1 10 s && all_bytes is_digit s && first_is (fun c => negb (Ascii.eqb c "0")) s.

(** [githubWorkItem.FindStringSubmatch]: the three groups. *)
Definition githubWorkItem (ref : string) : option (string * string * string) :=
  rest ← cut_prefix "github:" ref;
  '(owner, rest) ← cut_byte "/" rest;
  '(repo, number) ← cut_byte "#" rest;
  if owner_form owner && repo_form repo && number_form number
  then Some (owner, repo, number) else None.

(** [^ghproject:[A-Za-z0-9_-]{1,128}$] *)
Definition projectWorkItem (ref : string) : bool :=
  match cut_prefix "ghproject:" ref with
  | Some id =>
      length_in 1 128 id &&
      all_bytes (fun c => is_alnum c || Ascii.eqb c "_" || Ascii.eqb c "-") id
  | None => false
  end.

Definition github_ref (owner repo number : string) : WorkItemRef :=
  "github:" +:+ owner +:+ "/" +:+ repo +:+ "#" +:+ number.

Definition ParseWorkItemRef (raw : string) : option WorkItemRef :=
  let ref := trim_space raw in
  if (MaxWorkItemRefBytes <? String.length ref)%nat then None
  else if projectWorkItem ref then Some ref
  else match githubWorkItem ref with
       | None => None
       | Some (owner, repo, number) =>
           if String.eqb repo "." || String.eqb repo ".." then None
           else Some (github_ref (to_lower owner) (to_lower repo) number)
       end.

(** ** Provenance (workitem_provenance.go) *)

Definition ProvenanceHostedGitHubApp : string := "github_hosted_mcp_app".

Definition TrustedProof (s : option PullRequestStamp) : bool :=
  match s with
  | None => false
  | Some s => String.eqb (PS_Via s) ProvenanceHostedGitHubApp
  end.

(** ** Links (workitem_link.go) *)

(** The sentinel errors of claims and links; the text each is wrapped with is
    left out. *)
Inductive WorkItemError :=
| ErrWorkItemHeld
| ErrWorkItemRunHoldsAnother
| ErrWorkItemInvalid
| ErrWorkItemLinkInvalid
| ErrWorkItemLinkedElsewhere
| ErrWorkItemLinkUnclaimed
| ErrWorkItemLinkNested
| ErrWorkItemLinkUnproven
| ErrRunWorkItemInvalid.

#[export] Instance WorkItemError_eq_dec : EqDecision WorkItemError.
Proof. solve_decision. Defined.

Definition is_canonical (ref : WorkItemRef) : bool :=
  match ParseWorkItemRef ref with
  | Some canonical => String.eqb canonical ref
  | None => false
  end.

Definition before_hash (s : string) : string :=
  match cut_byte "#" s with Some (l, _) => l | None => s end.

Definition linkSide (ref : WorkItemRef) : result WorkItemError string :=
  if negb (is_canonical ref) then Err ErrWorkItemLinkInvalid
  else match cut_prefix "github:" ref with
       | None => Err ErrWorkItemLinkInvalid
       | Some repo => Ok (before_hash repo)
       end.

Definition WorkItemLinkProof_validate (p : WorkItemLinkProof) : result WorkItemError unit :=
  if negb (String.eqb (WP_Kind p) StepToolReturned) &&
     negb (String.eqb (WP_Kind p) StepApprovalDecided) then Err ErrWorkItemLinkInvalid
  else if (WP_Seq p <? FirstSeq)%Z then Err ErrWorkItemLinkInvalid
  else Ok tt.

Definition WorkItemLinkedPayload_Validate (p : WorkItemLinkedPayload)
    : result WorkItemError unit :=
  alias ← linkSide (WL_Alias p);
  root ← linkSide (WL_Root p);
  if String.eqb (WL_Alias p) (WL_Root p) then Err ErrWorkItemLinkInvalid
  else if negb (String.eqb alias root) then Err ErrWorkItemLinkInvalid
  else WorkItemLinkProof_validate (WL_Proof p).

(** ** Proofs of a link (workitem_alias.go) *)

Definition JudgeTrustedPullRequestProof (returned : ToolReturnedPayload) (alias : WorkItemRef)
    : result WorkItemError unit :=
  let stamp := TRd_PullRequest returned in
  if negb (ToolID_CreatesPullRequest (TRd_Tool returned)) then Err ErrWorkItemLinkUnproven
  else if TRd_Failed returned then Err ErrWorkItemLinkUnproven
  else if TRd_Cached returned then Err ErrWorkItemLinkUnproven
  else if negb (TrustedProof stamp) then Err ErrWorkItemLinkUnproven
  else match stamp with
       | Some s => if String.eqb (PS_Ref s) alias then Ok tt else Err ErrWorkItemLinkUnproven
       | None => Err ErrWorkItemLinkUnproven
       end.

(** The canonical arguments of a link. *)
Definition LinkArgs (alias : WorkItemRef) : string := print_json (JObj [("ref", JStr alias)]).

Definition LinkArgsDigest (alias : WorkItemRef) : string :=
  "sha256:" +:+ String.substring 0 16 (hex_encode (sha256 (LinkArgs alias))).

Definition JudgeApprovalProof (decided : ApprovalDecidedPayload)
    (requested : ApprovalRequestedPayload) (decidedSeq : Z) (alias : WorkItemRef)
    : result WorkItemError unit :=
  if negb (AD_Approved decided) then Err ErrWorkItemLinkUnproven
  else if (AD_AtSeq decided <? FirstSeq)%Z || (decidedSeq <=? AD_AtSeq decided)%Z
       then Err ErrWorkItemLinkUnproven
  else if negb (String.eqb (AR_Tool requested) ToolWorkItemLink) then Err ErrWorkItemLinkUnproven
  else if negb (String.eqb (AR_ArgsDigest requested) (LinkArgsDigest alias))
       then Err ErrWorkItemLinkUnproven
  else Ok tt.

(** The one-root rule. *)
Definition JudgeAlias (p : WorkItemLinkedPayload) (aliasRoot : WorkItemRef)
    (aliasHasAliases rootIsAlias : bool) : result WorkItemError unit :=
  if String.eqb aliasRoot (WL_Root p) then Ok tt
  else if negb (String.eqb aliasRoot "") then Err ErrWorkItemLinkedElsewhere
  else if aliasHasAliases then Err ErrWorkItemLinkNested
  else if rootIsAlias then Err ErrWorkItemLinkNested
  else Ok tt.

(** [^https://github\.com/([^/?#]+)/([^/?#]+)/pull/([0-9]+)$] *)
Definition plain_segment (s : string) : bool :=
  negb (String.eqb s "") &&
  all_bytes (fun c => negb (Ascii.eqb c "/" || Ascii.eqb c "?" || Ascii.eqb c "#")) s.

Definition pullRequestURL (address : string) : option (string * string * string) :=
  rest ← cut_prefix "https://github.com/" address;
  '(owner, rest) ← cut_byte "/" rest;
  '(repo, rest) ← cut_byte "/" rest;
  number ← cut_prefix "pull/" rest;
  if plain_segment owner && plain_segment repo && negb (String.eqb number "") &&
     all_bytes is_digit number
  then Some (owner, repo, number) else None.

(** Unmarshalling [null] into a string leaves it empty. *)
Definition pullRequestRef (raw : json) : option WorkItemRef :=
  match d_string "" raw with
  | (address, true) =>
      match pullRequestURL address with
      | Some (owner, repo, number) => ParseWorkItemRef (github_ref owner repo number)
      | None => None
      end
  | _ => None
  end.

Definition named_step (answer : list (string * json)) (acc : option WorkItemRef) (name : string)
    : option WorkItemRef :=
  named ← acc;
  match map_get name answer with
  | None => Some named
  | Some raw =>
      match pullRequestRef raw with
      | None => None
      | Some ref =>
          if negb (String.eqb named "") && negb (String.eqb named ref) then None else Some ref
      end
  end.

Definition PullRequestNamed (body : string) : option WorkItemRef :=
  match unmarshal body with
  | Some (JObj answer) =>
      match fold_left (named_step answer) ["url"; "html_url"] (Some "") with
      | Some named => if String.eqb named "" then None else Some named
      | None => None
      end
  | _ => None
  end.

(** ** Inherited work items (workitem_origin.go) *)

Definition WorkItemFromEvent : string := "event".
Definition WorkItemFromGitHubDelivery : string := "github_delivery".

Definition RunWorkItem_Validate (w : RunWorkItem) : result WorkItemError unit :=
  if negb (is_canonical (RW_Ref w)) then Err ErrRunWorkItemInvalid
  else if String.eqb (RW_Source w) WorkItemFromEvent then
    if String.eqb (RW_FromRun w) "" then Err ErrRunWorkItemInvalid else Ok tt
  else if String.eqb (RW_Source w) WorkItemFromGitHubDelivery then
    if negb (String.eqb (RW_FromRun w) "") then Err ErrRunWorkItemInvalid
    else if negb (has_prefix "github:" (RW_Ref w)) then Err ErrRunWorkItemInvalid
    else Ok tt
  else Err ErrRunWorkItemInvalid.

Definition InheritWorkItem (source : RunID) (claimed : WorkItemRef)
    (inherited : option RunWorkItem) : option RunWorkItem :=
  let ref :=
    match inherited with
    | Some w =>
        if String.eqb claimed "" && is_ok (RunWorkItem_Validate w) then RW_Ref w else claimed
    | None => claimed
    end in
  if String.eqb ref "" then None
  else
    let out := MkRunWorkItem ref WorkItemFromEvent source in
    if is_ok (RunWorkItem_Validate out) then Some out else None.

(** ** Canonical references are fixed points *)

(** A byte no white space starts or ends with. *)
Definition printable (c : ascii) : bool := between 33%N 126%N (byte_of c).

Lemma strip_left_plain s : first_is printable s = true -> strip_one_left s = None.
Proof.
  intros Hs. unfold strip_one_left.
  destruct (List.find (fun e => has_prefix e s) space_encodings) as [e|] eqn:E; [|done].
  apply find_some in E as [Hin Hp]. exfalso.
  assert (forallb (fun e => first_is (fun c => negb (printable c)) e) space_encodings = true) as Hall
    by (vm_compute; reflexivity).
  rewrite forallb_forall in Hall. specialize (Hall e Hin).
  destruct e as [|a e], s as [|b s]; try done. simpl in *.
  apply andb_true_iff in Hp as [Hab _]. apply Ascii.eqb_eq in Hab as ->.
  by rewrite Hs in Hall.
Qed.

Lemma last_is_drop f n s : last_is f (drop_bytes n s) = true -> last_is f s = true.
Proof.
  revert s. induction n as [|n IH]; intros s; simpl; [done|]. destruct s as [|c s]; [done|].
  intros H. specialize (IH s H). destruct s; [done|exact IH].
Qed.

Lemma strip_right_plain s : last_is printable s = true -> strip_one_right s = None.
Proof.
  intros Hs. unfold strip_one_right.
  destruct (List.find (fun e => has_suffix e s) space_encodings) as [e|] eqn:E; [|done].
  apply find_some in E as [Hin Hp]. exfalso.
  assert (forallb (fun e => last_is (fun c => negb (printable c)) e) space_encodings = true) as Hall
    by (vm_compute; reflexivity).
  rewrite forallb_forall in Hall. specialize (Hall e Hin).
  apply andb_true_iff in Hp as [_ Hd]. apply String.eqb_eq in Hd. rewrite <- Hd in Hall.
  apply last_is_drop in Hall. clear Hd Hin. induction s as [|c s IH]; [done|].
  destruct s; simpl in *; [by rewrite Hs in Hall|auto].
Qed.

Lemma trim_space_plain s :
  first_is printable s = true -> last_is printable s = true -> trim_space s = s.
Proof.
  intros Hf Hl. unfold trim_space.
  assert (forall n, strip_rounds strip_one_left n s = s) as ->
    by (intros []; simpl; [done|by rewrite strip_left_plain]).
  destruct (String.length s); simpl; [done|]. by rewrite strip_right_plain.
Qed.

Lemma last_is_app f a b : b <> "" -> last_is f (a +:+ b) = last_is f b.
Proof.
  intros Hb. induction a as [|c a IH]; [done|]. rewrite str_app_cons.
  destruct a as [|d a]; [destruct b; done|]. exact IH.
Qed.

Lemma last_is_impl (f h : ascii -> bool) s :
  (forall c, f c = true -> h c = true) -> last_is f s = true -> last_is h s = true.
Proof. intros H. induction s as [|c [|d s] IH]; simpl in *; auto. Qed.

Lemma all_bytes_last f s : all_bytes f s = true -> s <> "" -> last_is f s = true.
Proof.
  induction s as [|c [|d s] IH]; simpl; intros H Hne; [done|by rewrite andb_true_r in H|].
  apply andb_true_iff in H as [_ H]. by apply IH.
Qed.

Lemma all_bytes_get f s c x :
  all_bytes f s = true -> f c = false -> String.get x s <> Some c.
Proof.
  revert x. induction s as [|a s IH]; intros x; simpl; [by destruct x|].
  rewrite andb_true_iff. intros [Ha Hs] Hc. destruct x; simpl; [congruence|by apply IH].
Qed.

Lemma to_lower_length s : String.length (to_lower s) = String.length s.
Proof. induction s; simpl; congruence. Qed.

Ltac all_256 c := destruct c as [[] [] [] [] [] [] [] []]; vm_compute; reflexivity.

Lemma all_bytes_lower f s :
  (forall c, f (lower_ascii c) = f c) -> all_bytes f (to_lower s) = all_bytes f s.
Proof. intros H. induction s; simpl; congruence. Qed.

Lemma first_is_lower f s : (forall c, f (lower_ascii c) = f c) -> first_is f (to_lower s) = first_is f s.
Proof. intros H. destruct s; simpl; congruence. Qed.

Lemma last_is_lower f s : (forall c, f (lower_ascii c) = f c) -> last_is f (to_lower s) = last_is f s.
Proof. intros H. induction s as [|c [|d s] IH]; simpl in *; auto. Qed.

Lemma to_lower_idem s : to_lower (to_lower s) = to_lower s.
Proof.
  induction s as [|c s IH]; simpl; [done|]. rewrite IH. f_equal. all_256 c.
Qed.

Lemma owner_form_lower s : owner_form (to_lower s) = owner_form s.
Proof.
  unfold owner_form, length_in. rewrite to_lower_length, all_bytes_lower, first_is_lower, last_is_lower;
    [done|intros c; all_256 c..].
Qed.

Lemma repo_form_lower s : repo_form (to_lower s) = repo_form s.
Proof.
  unfold repo_form, length_in. rewrite to_lower_length, all_bytes_lower; [done|intros c; all_256 c].
Qed.

Lemma cut_prefix_app p s : cut_prefix p (p +:+ s) = Some s.
Proof.
  unfold cut_prefix. assert (has_prefix p (p +:+ s) = true) as ->.
  { induction p as [|c p IH]; [done|]. rewrite str_app_cons. simpl. by rewrite Ascii.eqb_refl. }
  f_equal. induction p as [|c p IH]; [done|]. exact IH.
Qed.

Lemma has_prefix_app p s : has_prefix p s = true -> s = p +:+ drop_bytes (String.length p) s.
Proof.
  revert s. induction p as [|c p IH]; intros [|d s]; simpl; intros H; try done.
  apply andb_true_iff in H as [Hc H]. apply Ascii.eqb_eq in Hc as ->.
  rewrite str_app_cons. f_equal. by apply IH.
Qed.

Lemma cut_prefix_Some p s r : cut_prefix p s = Some r -> s = p +:+ r.
Proof.
  unfold cut_prefix. destruct (has_prefix p s) eqn:E; [|done]. intros [= <-].
  by apply has_prefix_app.
Qed.

Lemma githubWorkItem_ref o r n :
  owner_form o = true -> repo_form r = true -> number_form n = true ->
  githubWorkItem (github_ref o r n) = Some (o, r, n).
Proof.
  intros Ho Hr Hn. unfold githubWorkItem, github_ref.
  rewrite cut_prefix_app. cbn [mbind option_bind]. rewrite !str_app_cons.
  rewrite (cut_byte_app "/" o).
  2:{ intros x. unfold owner_form in Ho. bsimp. destruct_and!. by eapply all_bytes_get. }
  cbn [mbind option_bind].
  change ("" +:+ (r +:+ String "#" ("" +:+ n))) with (r +:+ String "#" n).
  rewrite (cut_byte_app "#" r).
  2:{ intros x. unfold repo_form in Hr. bsimp. destruct_and!. by eapply all_bytes_get. }
  cbn [mbind option_bind]. by rewrite Ho, Hr, Hn.
Qed.

Lemma githubWorkItem_Some ref o r n :
  githubWorkItem ref = Some (o, r, n) ->
  ref = github_ref o r n /\ owner_form o = true /\ repo_form r = true /\ number_form n = true.
Proof.
  unfold githubWorkItem. intros H.
  destruct (cut_prefix "github:" ref) as [rest|] eqn:E1; [|done]. cbn [mbind option_bind] in H.
  destruct (cut_byte "/" rest) as [[o' rest']|] eqn:E2; [|done]. cbn [mbind option_bind] in H.
  destruct (cut_byte "#" rest') as [[r' n']|] eqn:E3; [|done]. cbn [mbind option_bind] in H.
  destruct (owner_form o' && repo_form r' && number_form n') eqn:E4; [|done].
  injection H as -> -> ->. apply cut_prefix_Some in E1. apply cut_byte_Some in E2, E3.
  bsimp. destruct_and!. subst. auto.
Qed.

Lemma number_form_last n : number_form n = true -> n <> "" /\ last_is printable n = true.
Proof.
  unfold number_form, length_in. intros H. bsimp. destruct_and!.
  assert (n <> "") as Hne by (intros ->; simpl in *; lia). split; [done|].
  apply (last_is_impl is_digit); [intros c|by apply all_bytes_last].
  destruct c as [[] [] [] [] [] [] [] []]; vm_compute; congruence.
Qed.

Lemma github_ref_trim o r n : number_form n = true -> trim_space (github_ref o r n) = github_ref o r n.
Proof.
  intros Hn. apply number_form_last in Hn as [Hne Hl]. apply trim_space_plain; [done|].
  unfold github_ref. rewrite <- !str_app_assoc, last_is_app by done. exact Hl.
Qed.

Lemma project_trim s : projectWorkItem s = true -> trim_space s = s.
Proof.
  unfold projectWorkItem. destruct (cut_prefix "ghproject:" s) as [id|] eqn:E; [|done].
  apply cut_prefix_Some in E as ->. unfold length_in. intros H. bsimp. destruct_and!.
  assert (id <> "") as Hne by (intros ->; simpl in *; lia).
  apply trim_space_plain; [done|]. rewrite last_is_app by done.
  eapply last_is_impl; [|by apply all_bytes_last]. intros c.
  destruct c as [[] [] [] [] [] [] [] []]; vm_compute; congruence.
Qed.

Lemma github_ref_length o r n :
  String.length (github_ref (to_lower o) (to_lower r) n) = String.length (github_ref o r n).
Proof. unfold github_ref. rewrite !str_app_length, !to_lower_length. done. Qed.

Lemma to_lower_dots r d : (d = "." \/ d = "..") -> to_lower r = d -> r = d.
Proof.
  intros Hd H. assert (forall c, lower_ascii c = "."%char -> c = "."%char) as Hc.
  { intros c. destruct c as [[] [] [] [] [] [] [] []]; vm_compute; congruence. }
  destruct Hd as [-> | ->]; destruct r as [|a [|b [|c r]]]; simpl in H; try discriminate;
    injection H as; f_equal; auto using f_equal2.
Qed.

Lemma owner_no c o : owner_form o = true -> is_alnum c || Ascii.eqb c "-" = false ->
  forall x, String.get x o <> Some c.
Proof. unfold owner_form. intros Ho Hc x. bsimp. destruct_and!. eapply all_bytes_get; [done|by bsimp]. Qed.

Lemma all_bytes_app f a b : all_bytes f (a +:+ b) = all_bytes f a && all_bytes f b.
Proof.
  induction a as [|c a IH]; [done|]. rewrite str_app_cons. simpl. by rewrite IH, andb_assoc.
Qed.

Lemma all_bytes_impl (f h : ascii -> bool) s :
  (forall c, f c = true -> h c = true) -> all_bytes f s = true -> all_bytes h s = true.
Proof. intros H. induction s; simpl; [done|]. rewrite !andb_true_iff. naive_solver. Qed.

Definition not_hash (c : ascii) : bool := negb (Ascii.eqb c "#").

Lemma side_no_hash o r :
  owner_form o = true -> repo_form r = true -> all_bytes not_hash (o +:+ "/" +:+ r) = true.
Proof.
  unfold owner_form, repo_form. intros Ho Hr. bsimp. destruct_and!. rewrite !all_bytes_app.
  rewrite !andb_true_iff. repeat split;
    (eapply all_bytes_impl; [|eassumption]); intros c;
    destruct c as [[] [] [] [] [] [] [] []]; vm_compute; congruence.
Qed.

Lemma linkSide_Ok ref side :
  linkSide ref = Ok side ->
  exists o r n, ref = github_ref o r n /\ owner_form o = true /\ side = o +:+ "/" +:+ r.
Proof.
  unfold linkSide. destruct (is_canonical ref) eqn:Ec; [|done]. simpl.
  destruct (cut_prefix "github:" ref) as [rest|] eqn:Ep; [|done]. intros [= <-].
  unfold is_canonical in Ec. destruct (ParseWorkItemRef ref) as [ref'|] eqn:E; [|done].
  apply String.eqb_eq in Ec as ->. unfold ParseWorkItemRef in E. cbn zeta in E.
  destruct (_ <? _)%nat; [done|]. apply cut_prefix_Some in Ep as ->.
  destruct (projectWorkItem _) eqn:Ej.
  { injection E as E. rewrite E in Ej. discriminate Ej. }
  destruct (githubWorkItem _) as [[[o r] n]|] eqn:Eg; [|done].
  apply githubWorkItem_Some in Eg as (_ & Ho & Hr & _). destruct (_ || _); [done|].
  injection E as E. change (to_lower o +:+ "/" +:+ to_lower r +:+ "#" +:+ n = rest) in E.
  exists (to_lower o), (to_lower r), n. rewrite owner_form_lower.
  split; [by rewrite <- E|]. split; [done|].
  assert (rest = (to_lower o +:+ "/" +:+ to_lower r) +:+ String "#" n) as ->.
  { rewrite <- E, !str_app_assoc. reflexivity. }
  unfold before_hash. rewrite cut_byte_app; [done|]. intros x.
  eapply (all_bytes_get not_hash); [|done].
  by apply side_no_hash; rewrite ?owner_form_lower, ?repo_form_lower.
Qed.

(** ** Properties *)

(** The reference the ledger keys a card by is canonical: parsing a parsed
    reference gives it back, so two spellings of one issue (white space, case
    of owner and repository) are one key and a stored key never changes. *)
Theorem parsed_reference_is_canonical raw ref :
  ParseWorkItemRef raw = Some ref -> ParseWorkItemRef ref = Some ref.
Proof.
  unfold ParseWorkItemRef. cbn zeta. intros H.
  destruct (MaxWorkItemRefBytes <? String.length (trim_space raw))%nat eqn:El; [done|].
  destruct (projectWorkItem (trim_space raw)) eqn:Ep.
  - injection H as <-. rewrite project_trim by done. by rewrite El, Ep.
  - destruct (githubWorkItem (trim_space raw)) as [[[o r] n]|] eqn:Eg; [|done].
    apply githubWorkItem_Some in Eg as (Eq & Ho & Hr & Hn). rewrite Eq in El.
    destruct (String.eqb r "." || String.eqb r "..") eqn:Ed; [done|]. injection H as <-.
    rewrite github_ref_trim, github_ref_length, El by done.
    assert (projectWorkItem (github_ref (to_lower o) (to_lower r) n) = false) as -> by done.
    rewrite githubWorkItem_ref by (rewrite ?owner_form_lower, ?repo_form_lower; done).
    rewrite !to_lower_idem.
    destruct (String.eqb_spec (to_lower r) "."), (String.eqb_spec (to_lower r) "..");
      [..|done]; exfalso; bsimp; destruct Ed; eauto using to_lower_dots.
Qed.

(** A link stays in one repository: a payload [Validate] accepts names two
    different canonical GitHub references of the same owner and repository. *)
Theorem valid_link_stays_in_one_repository p :
  WorkItemLinkedPayload_Validate p = Ok tt ->
  exists o r n m, WL_Alias p = github_ref o r n /\ WL_Root p = github_ref o r m /\ n <> m /\
    is_canonical (WL_Alias p) = true /\ is_canonical (WL_Root p) = true.
Proof.
  unfold WorkItemLinkedPayload_Validate. intros H.
  destruct (linkSide (WL_Alias p)) as [a|] eqn:Ea; [|done]. cbn [mbind result_mbind] in H.
  destruct (linkSide (WL_Root p)) as [b|] eqn:Eb; [|done]. cbn [mbind result_mbind] in H.
  destruct (String.eqb_spec (WL_Alias p) (WL_Root p)) as [|Hne]; [done|].
  destruct (String.eqb_spec a b) as [<-|]; [|done].
  assert (is_canonical (WL_Alias p) = true /\ is_canonical (WL_Root p) = true) as [Ca Cb].
  { unfold linkSide in Ea, Eb. by destruct (is_canonical (WL_Alias p)), (is_canonical (WL_Root p)). }
  apply linkSide_Ok in Ea as (o & r & n & Ha & Ho & Hs), Eb as (o' & r' & m & Hb & Ho' & Hs').
  rewrite Hs in Hs'. apply (f_equal (cut_byte "/")) in Hs'.
  change ("/" +:+ r) with (String "/" r) in Hs'. change ("/" +:+ r') with (String "/" r') in Hs'.
  rewrite !cut_byte_app in Hs' by (by apply owner_no). injection Hs' as <- <-.
  exists o, r, n, m. repeat split; try done. congruence.
Qed.

Lemma parsed_reference_is_canonical_witness :
  ParseWorkItemRef "github:acme/site#42" = Some "github:acme/site#42".
Proof.
  apply (parsed_reference_is_canonical " github:Acme/Site#42 "). vm_compute. reflexivity.
Defined.

Definition sample_link : WorkItemLinkedPayload :=
  MkWorkItemLinkedPayload "github:acme/site#43" "github:acme/site#42"
    (MkWorkItemLinkProof StepToolReturned 7).

Lemma valid_link_stays_in_one_repository_witness :
  exists o r n m, WL_Alias sample_link = github_ref o r n /\
    WL_Root sample_link = github_ref o r m /\ n <> m /\
    is_canonical (WL_Alias sample_link) = true /\ is_canonical (WL_Root sample_link) = true.
Proof. apply valid_link_stays_in_one_repository. vm_compute. reflexivity. Defined.
