(* ===== verification/State.v ===== *)
(** * The run, folded from its ledger

    src/internal/engine/state.go, fold.go, investigation.go, fallback.go (the
    fold's part), workitem_link.go and idempotency.go. A run's state is not
    stored: it is [Fold] of its steps, and [Apply] is one step of the fold. *)

From Stdlib Require Import ZArith Lia Ascii String.
From stdpp Require Import base list strings gmap.
From S2P Require Import Prelude GoStrings Json Domain Sha256 Step Payload WorkItem.

Local Open Scope string_scope.

(** ** State (state.go) *)

Abbreviation Phase := Z (only parsing).
Definition PhaseUnstarted : Phase := 0%Z.
Definition PhaseRunning : Phase := 1%Z.
Definition PhaseAwaitingApproval : Phase := 2%Z.
Definition PhaseAwaitingTool : Phase := 3%Z.
Definition PhaseParked : Phase := 4%Z.
Definition PhaseFinished : Phase := 5%Z.
Definition PhaseCompensating : Phase := 6%Z.
Definition PhaseFailed : Phase := 7%Z.

Definition phaseNames : list string :=
  ["unstarted"; "running"; "awaiting_approval"; "awaiting_tool"; "parked"; "finished";
   "compensating"; "failed"].

Definition Phase_String (p : Phase) : string :=
  match nth_error phaseNames (Z.to_nat p) with
  | Some n => n
  | None => "phase(" +:+ print_Z p +:+ ")"
  end.

Record PendingApproval := MkPendingApproval {
  PA_Tool : ToolID;
  PA_Rule : string;
  PA_Reason : string;
  PA_AtSeq : Z;
  PA_Effect : Effect;
  PA_At : Time;
  PA_Evidence : ApprovalEvidence
}.

Record ApprovedCall := MkApprovedCall {
  AC_Tool : ToolID;
  AC_ArgsRef : string;
  AC_ArgsDigest : string;
  AC_ContractDigest : string;
  AC_Evidence : ApprovalEvidence;
  AC_AtSeq : Z;
  AC_DecidedBy : UserID
}.

(** workitem_link.go *)
Record workItemFacts := MkWorkItemFacts {
  wf_claim : WorkItemRef;
  wf_pullRequests : gmap string Z;
  wf_linkApprovals : gmap Z Z
}.

(** investigation.go *)
Record investigationCall := MkInvestigationCall { ic_tool : ToolID; ic_effect : Effect }.

Record investigationStreak := MkInvestigationStreak {
  is_tool : ToolID;
  is_resultDigest : string;
  is_resultBytes : Z;
  is_calls : Z;
  is_cachedCalls : Z
}.

Definition zeroStreak : investigationStreak := MkInvestigationStreak "" "" 0 0 0.

Record State := MkState {
  St_RunID : RunID;
  St_Scope : Scope;
  St_AgentID : AgentID;
  St_VersionID : VersionID;
  St_OnBehalfOf : UserID;
  St_Seq : Z;
  St_Phase : Phase;
  St_Head : StepRef;
  St_Spent : Consumption;
  St_Reserved : Consumption;
  St_Labels : Labels;
  St_ContextArtifacts : list ContextArtifact;
  St_Ticket : TicketContext;
  St_Chain : ChainPosition;
  St_Called : list ToolID;
  St_Planned : bool;
  St_Fallback : option ModelFallbackPayload;
  St_PendingApproval : option PendingApproval;
  St_Approved : option ApprovedCall;
  St_workItem : workItemFacts;
  St_PendingTool : ToolID;
  St_ConsecutiveBlocks : Z;
  St_ConsecutiveSkips : Z;
  St_startedAt : Time;
  St_requested : option ApprovedCall;
  St_executed : gset string;
  St_completed : gmap string Effect;
  St_completedReads : gmap string Z;
  St_pendingIdemKey : string;
  St_pendingEffect : Effect;
  St_pendingInvestigation : option investigationCall;
  St_investigation : investigationStreak
}.

Definition zeroState : State :=
  MkState "" zeroScope "" "" "" 0 PhaseUnstarted (MkStepRef 0 "") zeroConsumption zeroConsumption
    [] [] zeroTicketContext (MkChainPosition "" None) [] false None None None
    (MkWorkItemFacts "" ∅ ∅) "" 0 0 0 None ∅ ∅ ∅ "" 0 None zeroStreak.

#[export] Instance State_eta : Eta State := fun s =>
  MkState (St_RunID s) (St_Scope s) (St_AgentID s) (St_VersionID s) (St_OnBehalfOf s) (St_Seq s)
    (St_Phase s) (St_Head s) (St_Spent s) (St_Reserved s) (St_Labels s) (St_ContextArtifacts s)
    (St_Ticket s) (St_Chain s) (St_Called s) (St_Planned s) (St_Fallback s)
    (St_PendingApproval s) (St_Approved s) (St_workItem s) (St_PendingTool s)
    (St_ConsecutiveBlocks s) (St_ConsecutiveSkips s) (St_startedAt s) (St_requested s)
    (St_executed s) (St_completed s) (St_completedReads s) (St_pendingIdemKey s)
    (St_pendingEffect s) (St_pendingInvestigation s) (St_investigation s).

#[export] Instance Consumption_eta : Eta Consumption := fun c =>
  MkConsumption (C_Micros c) (C_Tokens c) (C_ToolCalls c) (C_Steps c) (C_WallClockMS c).

#[export] Instance workItemFacts_eta : Eta workItemFacts := fun w =>
  MkWorkItemFacts (wf_claim w) (wf_pullRequests w) (wf_linkApprovals w).

#[export] Instance ApprovedCall_eta : Eta ApprovedCall := fun c =>
  MkApprovedCall (AC_Tool c) (AC_ArgsRef c) (AC_ArgsDigest c) (AC_ContractDigest c)
    (AC_Evidence c) (AC_AtSeq c) (AC_DecidedBy c).

#[export] Instance investigationStreak_eta : Eta investigationStreak := fun i =>
  MkInvestigationStreak (is_tool i) (is_resultDigest i) (is_resultBytes i) (is_calls i)
    (is_cachedCalls i).

Definition State_Committed (s : State) : Consumption :=
  MkConsumption (add64 (C_Micros (St_Spent s)) (C_Micros (St_Reserved s)))
    (add64 (C_Tokens (St_Spent s)) (C_Tokens (St_Reserved s)))
    (C_ToolCalls (St_Spent s)) (C_Steps (St_Spent s)) (C_WallClockMS (St_Spent s)).

Definition AlreadyExecuted (s : State) (key : string) : bool := bool_decide (key ∈ St_executed s).

Definition CompletedAs (s : State) (key : string) (effect : Effect) : bool :=
  match St_completed s !! key with
  | Some recorded => Z.eqb recorded effect
  | None => false
  end.

Definition completedReadCount (s : State) (key : string) : Z :=
  default 0%Z (St_completedReads s !! key).

Definition State_Terminal (s : State) : bool :=
  Z.eqb (St_Phase s) PhaseFinished || Z.eqb (St_Phase s) PhaseFailed.

Definition State_Resumable (s : State) : bool :=
  existsb (Z.eqb (St_Phase s)) [PhaseRunning; PhaseAwaitingTool; PhaseParked; PhaseCompensating].

(** ** Investigation (investigation.go) *)

Definition maxRepeatedReadResults : Z := 3.

Definition resetInvestigation (s : State) : State :=
  s <| St_pendingInvestigation := None |> <| St_investigation := zeroStreak |>.

Definition recordInvestigationCall (s : State) (p : ToolCalledPayload) : State :=
  let s := s <| St_pendingInvestigation := Some (MkInvestigationCall (TCd_Tool p) (TCd_Effect p)) |> in
  if negb (Z.eqb (TCd_Effect p) EffectRead) then resetInvestigation s else s.

Definition sameInvestigationResult (s : State) (call : investigationCall)
    (p : ToolReturnedPayload) : bool :=
  (0 <? is_calls (St_investigation s))%Z &&
  String.eqb (is_tool (St_investigation s)) (ic_tool call) &&
  String.eqb (is_resultDigest (St_investigation s)) (TRd_ResultDigest p).

Definition recordInvestigationResult (s : State) (p : ToolReturnedPayload) : State :=
  let pending := St_pendingInvestigation s in
  let s := s <| St_pendingInvestigation := None |> in
  match pending with
  | None => resetInvestigation s
  | Some call =>
      if negb (String.eqb (ic_tool call) (TRd_Tool p)) || negb (Z.eqb (ic_effect call) EffectRead) ||
         TRd_Failed p || String.eqb (TRd_ResultDigest p) ""
      then resetInvestigation s
      else if sameInvestigationResult s call p then
        let i := St_investigation s in
        let i := i <| is_calls := add64 (is_calls i) 1 |> in
        s <| St_investigation :=
               if TRd_Cached p then i <| is_cachedCalls := add64 (is_cachedCalls i) 1 |> else i |>
      else
        s <| St_investigation :=
               MkInvestigationStreak (ic_tool call) (TRd_ResultDigest p) (TRd_ResultBytes p) 1
                 (if TRd_Cached p then 1 else 0) |>
  end.

Definition stalledInvestigation (s : State) : option InvestigationSummary :=
  let i := St_investigation s in
  if (is_calls i <? maxRepeatedReadResults)%Z then None
  else Some (MkInvestigationSummary (is_tool i) (is_calls i) (is_resultBytes i)
               (is_cachedCalls i) (is_resultDigest i)).

Definition ResultDigest (body : string) : string := "sha256:" +:+ hex_encode (sha256 body).

(** ** Idempotency (idempotency.go, workitem.go) *)

Definition readPollSeparator : string := ":poll:".
Definition coordinationAttemptSeparator : string := ":attempt:".
Definition unknownOutcomeAfterRestart : string := "unknown_outcome_after_restart".

Definition idempotencyKey (runID : RunID) (tool : ToolID) (args : string) : string :=
  String.substring 0 32
    (hex_encode (sha256 (runID +:+ "|" +:+ tool +:+ "|" +:+ CanonicalCallArguments args))).

Definition readIdempotencyBase (key : string) : string :=
  match last_index readPollSeparator key with
  | Some at_ => take_bytes at_ key
  | None => key
  end.

(** The first unused of base, base:attempt:2, base:attempt:3, ... The recorded
    keys are finite, so one more try than there are keys finds it. *)
Fixpoint coordination_search (executed : gset string) (base key : string) (n : Z) (fuel : nat)
    : string :=
  match fuel with
  | O => key
  | S fuel' =>
      if bool_decide (key ∈ executed)
      then coordination_search executed base
             (base +:+ coordinationAttemptSeparator +:+ print_Z n) (n + 1) fuel'
      else key
  end.

Definition coordinationIdempotencyKey (s : State) (base : string) : string :=
  coordination_search (St_executed s) base base 2 (S (size (St_executed s))).

Definition executionIdempotencyKey (s : State) (effect : Effect) (tool : ToolID) (base : string)
    : string :=
  if ToolID_Coordination tool then coordinationIdempotencyKey s base
  else if negb (Z.eqb effect EffectRead) || String.eqb tool ToolMemoryFind then base
  else
    let completed := completedReadCount s base in
    if Z.eqb completed 0 then base
    else base +:+ readPollSeparator +:+ print_Z (add64 completed 1).

Definition duplicateWithinRun (s : State) (effect : Effect) (tool : ToolID) (idemKey : string)
    : bool :=
  if negb (AlreadyExecuted s idemKey) then false
  else negb (Z.eqb effect EffectRead) || String.eqb tool ToolMemoryFind ||
       negb (CompletedAs s idemKey EffectRead).

(** ** The fold (fold.go) *)

Inductive EngineError :=
| ErrOutOfOrder (got want : Z)
| ErrDecode (kind : StepKind) (seq : Z)
| ErrInvalidTicket (seq : Z)
| ErrInvalidReconciled (seq : Z)
| ErrFallbackNamesNoPair (seq : Z)
| ErrUnhandledKind (kind : StepKind).

(** [decode(step, &p)]. *)
Definition decode {A} (step : Step) (zero : A) (d : decoder A) : result EngineError A :=
  match decode_payload zero d (S_Payload step) with
  | Some p => Ok p
  | None => Err (ErrDecode (S_Kind step) (S_Seq step))
  end.

(** [json.Unmarshal(step.Payload, &p) == nil], with no payload an error. *)
Definition unmarshal_payload {A} (step : Step) (zero : A) (d : decoder A) : option A :=
  let '(p, ok) := unmarshal_into zero d (S_Payload step) in if ok then Some p else None.

(** *** Work-item facts (workitem_link.go) *)

Definition noteLinkApproval (s : State) (step : Step) : State :=
  match unmarshal_payload step zeroApprovalDecidedPayload d_ApprovalDecidedPayload, St_requested s with
  | Some p, Some requested =>
      if negb (AD_Approved p) || negb (String.eqb (AC_Tool requested) ToolWorkItemLink) ||
         negb (Z.eqb (AD_AtSeq p) (AC_AtSeq requested)) then s
      else
        let w := St_workItem s in
        s <| St_workItem := w <| wf_linkApprovals := <[AD_AtSeq p := S_Seq step]> (wf_linkApprovals w) |> |>
  | _, _ => s
  end.

Definition notePullRequest (s : State) (step : Step) : State :=
  match unmarshal_payload step zeroToolReturnedPayload d_ToolReturnedPayload with
  | None => s
  | Some p =>
      match TRd_PullRequest p with
      | None => s
      | Some stamp =>
          if negb (is_ok (JudgeTrustedPullRequestProof p (PS_Ref stamp))) then s
          else
            let w := St_workItem s in
            match wf_pullRequests w !! PS_Ref stamp with
            | Some _ => s
            | None =>
                s <| St_workItem :=
                       w <| wf_pullRequests := <[PS_Ref stamp := S_Seq step]> (wf_pullRequests w) |> |>
            end
      end
  end.

Definition noteClaim (s : State) (step : Step) : State :=
  let w := St_workItem s in
  if negb (String.eqb (wf_claim w) "") then s
  else match unmarshal_payload step zeroWorkItemClaimedPayload d_WorkItemClaimedPayload with
       | None => s
       | Some p =>
           if is_canonical (WC_Ref p) then s <| St_workItem := w <| wf_claim := WC_Ref p |> |> else s
       end.

Definition noteWorkItem (s : State) (step : Step) : State :=
  if String.eqb (S_Kind step) StepWorkItemClaimed then noteClaim s step
  else if String.eqb (S_Kind step) StepToolReturned then notePullRequest s step
  else if String.eqb (S_Kind step) StepApprovalDecided then noteLinkApproval s step
  else s.

(** *** Decisions *)

Definition answers (s : State) (p : ApprovalDecidedPayload) : bool :=
  match St_PendingApproval s with
  | None => false
  | Some pending => Z.eqb (AD_AtSeq p) 0 || Z.eqb (AD_AtSeq p) (PA_AtSeq pending)
  end.

(** A refusal about something already approved and not yet called. *)
Definition withdraws (s : State) (p : ApprovalDecidedPayload) : bool :=
  match St_Approved s with
  | None => false
  | Some c => negb (AD_Approved p) && (Z.eqb (AD_AtSeq p) 0 || Z.eqb (AD_AtSeq p) (AC_AtSeq c))
  end.

(** The source dereferences [s.requested], which an open question always has
    beside it; [None] would be a nil dereference. *)
Definition decide_on (s : State) (p : ApprovalDecidedPayload) : State :=
  if answers s p then
    let s := if AD_Approved p
             then s <| St_Approved :=
                    option_map (fun c => c <| AC_DecidedBy := AD_By p |>) (St_requested s) |>
             else s in
    s <| St_PendingApproval := None |> <| St_requested := None |> <| St_Phase := PhaseRunning |>
  else if withdraws s p then s <| St_Approved := None |>
  else s.

(** *** One step *)

Definition clear_questions (s : State) : State :=
  s <| St_PendingApproval := None |> <| St_requested := None |> <| St_Approved := None |>.

Definition on_run_started (s : State) (step : Step) : result EngineError State :=
  p ← decode step zeroRunStartedPayload d_RunStartedPayload;
  let s := s <| St_RunID := S_RunID step |> <| St_Scope := S_Scope step |>
             <| St_AgentID := S_AgentID step |> <| St_VersionID := S_VersionID step |>
             <| St_OnBehalfOf := S_OnBehalfOf step |>
             <| St_ContextArtifacts := RS_ContextArtifacts p |>
             <| St_Chain := MkChainPosition (RS_Trigger p) (RS_Chain p) |> in
  s ← match RS_Ticket p with
      | None => Ok s
      | Some t => if negb (TicketContext_Valid t) then Err (ErrInvalidTicket (S_Seq step))
                  else Ok (s <| St_Ticket := t |>)
      end;
  Ok (s <| St_Phase := PhaseRunning |>).

Definition on_reserved (s : State) (step : Step) : result EngineError State :=
  p ← decode step zeroBudgetReservedPayload d_BudgetReservedPayload;
  let r := St_Reserved s in
  Ok (s <| St_Reserved := r <| C_Micros := add64 (C_Micros r) (BR_Micros p) |>
                            <| C_Tokens := add64 (C_Tokens r) (BR_Tokens p) |> |>).

Definition on_reconciled (s : State) (step : Step) : result EngineError State :=
  p ← decode step zeroBudgetReconciledPayload d_BudgetReconciledPayload;
  let r := St_Reserved s in
  Ok (s <| St_Reserved := r <| C_Micros := sub64 (C_Micros r) (BC_ReleasedMicros p) |>
                            <| C_Tokens := sub64 (C_Tokens r) (BC_ReleasedTokens p) |> |>).

Definition on_tool_called (s : State) (step : Step) : result EngineError State :=
  let s := s <| St_Approved := None |> in
  p ← decode step zeroToolCalledPayload d_ToolCalledPayload;
  let spent := St_Spent s in
  let s := s <| St_Spent := spent <| C_ToolCalls := add64 (C_ToolCalls spent) 1 |> |>
             <| St_Called := (St_Called s ++ [TCd_Tool p])%list |>
             <| St_PendingTool := TCd_Tool p |>
             <| St_pendingIdemKey := S_IdemKey step |>
             <| St_pendingEffect := TCd_Effect p |>
             <| St_Phase := PhaseAwaitingTool |> in
  let s := recordInvestigationCall s p in
  Ok (s <| St_ConsecutiveBlocks := 0%Z |> <| St_ConsecutiveSkips := 0%Z |>).

(** A returned call is remembered as completed unless its outcome is unknown. *)
Definition note_completed (s : State) (p : ToolReturnedPayload) : State :=
  let key := St_pendingIdemKey s in
  if negb (String.eqb key "") && negb (String.eqb (TRd_ErrorCode p) unknownOutcomeAfterRestart) then
    let s := s <| St_completed := <[key := St_pendingEffect s]> (St_completed s) |> in
    if Z.eqb (St_pendingEffect s) EffectRead then
      let base := readIdempotencyBase key in
      s <| St_completedReads :=
             <[base := add64 (completedReadCount s base) 1]> (St_completedReads s) |>
    else s
  else s.

Definition on_tool_returned (s : State) (step : Step) : result EngineError State :=
  p ← decode step zeroToolReturnedPayload d_ToolReturnedPayload;
  let s := note_completed s p in
  let s := s <| St_pendingIdemKey := "" |> <| St_pendingEffect := EffectUnknown |> in
  let s := recordInvestigationResult s p in
  Ok (s <| St_PendingTool := "" |> <| St_Phase := PhaseRunning |>).

Definition on_effect_reconciled (s : State) (step : Step) : result EngineError State :=
  p ← decode step zeroEffectReconciledPayload d_EffectReconciledPayload;
  if String.eqb (ER_Tool p) "" || (ER_ForSeq p <=? 0)%Z || String.eqb (ER_ResultRef p) "" ||
     String.eqb (ER_ResultDigest p) "" || (ER_ResultBytes p <? 0)%Z ||
     negb (Bool.eqb (ER_Failed p) (negb (String.eqb (ER_ErrorCode p) "")))
  then Err (ErrInvalidReconciled (S_Seq step))
  else Ok s.

Definition on_approval_requested (s : State) (step : Step) : result EngineError State :=
  p ← decode step zeroApprovalRequestedPayload d_ApprovalRequestedPayload;
  let evidence := default zeroApprovalEvidence (AR_Evidence p) in
  Ok (s <| St_PendingApproval :=
             Some (MkPendingApproval (AR_Tool p) (AR_Rule p) (AR_Reason p) (S_Seq step)
                     (AR_Effect p) (S_At step) evidence) |>
        <| St_requested :=
             Some (MkApprovedCall (AR_Tool p) (AR_ArgsRef p) (AR_ArgsDigest p)
                     (AR_ContractDigest p) evidence (S_Seq step) "") |>
        <| St_Phase := PhaseAwaitingApproval |>).

Definition on_gate_decided (s : State) (step : Step) : result EngineError State :=
  p ← decode step zeroGateDecidedPayload d_GateDecidedPayload;
  Ok (if Z.eqb (GD_Verdict p) VerdictDuplicate then
        s <| St_ConsecutiveSkips := add64 (St_ConsecutiveSkips s) 1 |>
          <| St_ConsecutiveBlocks := 0%Z |>
      else if negb (Verdict_Executable (GD_Verdict p)) &&
              negb (Z.eqb (GD_Verdict p) VerdictRequireApproval) then
        s <| St_ConsecutiveBlocks := add64 (St_ConsecutiveBlocks s) 1 |>
          <| St_ConsecutiveSkips := 0%Z |>
      else s).

Definition on_abandoned (s : State) (step : Step) : result EngineError State :=
  p ← decode step zeroAbandonedPayload d_AbandonedPayload;
  Ok ((clear_questions s) <| St_Phase := if AB_Compensate p then PhaseCompensating else PhaseFailed |>).

(** fallback.go *)
Definition applyFallback (s : State) (step : Step) : result EngineError State :=
  p ← decode step zeroModelFallbackPayload d_ModelFallbackPayload;
  if String.eqb (MPr_Provider (MF_To p)) "" || String.eqb (MPr_Model (MF_To p)) ""
  then Err (ErrFallbackNamesNoPair (S_Seq step))
  else Ok (s <| St_Fallback := Some p |>).

Definition applyWorkItemLink (s : State) (step : Step) : result EngineError State :=
  _ ← decode step zeroWorkItemLinkedPayload d_WorkItemLinkedPayload;
  Ok s.

Definition applyKind (s : State) (step : Step) : result EngineError State :=
  let kind := S_Kind step in
  if String.eqb kind StepRunStarted then on_run_started s step
  else if String.eqb kind StepBudgetReserved then on_reserved s step
  else if String.eqb kind StepBudgetReconciled then on_reconciled s step
  else if String.eqb kind StepToolCalled then on_tool_called s step
  else if String.eqb kind StepToolReturned then on_tool_returned s step
  else if String.eqb kind StepEffectReconciled then on_effect_reconciled s step
  else if String.eqb kind StepApprovalRequested then on_approval_requested s step
  else if String.eqb kind StepApprovalDecided then
    p ← decode step zeroApprovalDecidedPayload d_ApprovalDecidedPayload; Ok (decide_on s p)
  else if String.eqb kind StepParked then Ok (s <| St_Phase := PhaseParked |>)
  else if String.eqb kind StepResumed then
    Ok ((resetInvestigation (s <| St_ConsecutiveBlocks := 0%Z |> <| St_ConsecutiveSkips := 0%Z |>))
          <| St_Phase := PhaseRunning |>)
  else if String.eqb kind StepRunFinished then
    Ok ((clear_questions s) <| St_Phase := PhaseFinished |>)
  else if String.eqb kind StepGateDecided then on_gate_decided s step
  else if String.eqb kind StepAbandoned then on_abandoned s step
  else if String.eqb kind StepFailed then Ok ((clear_questions s) <| St_Phase := PhaseFailed |>)
  else if String.eqb kind StepPlanned then Ok (s <| St_Planned := true |>)
  else if String.eqb kind StepModelFallback then applyFallback s step
  else if String.eqb kind StepWorkItemLinked then applyWorkItemLink s step
  else if String.eqb kind StepCompensationStarted || String.eqb kind StepCompensated ||
          String.eqb kind StepWorkItemClaimed then Ok s
  else Err (ErrUnhandledKind kind).

(** What every step does to the state before its kind is looked at. *)
Definition account (s : State) (step : Step) : State :=
  let spent := St_Spent s in
  let started := if Time_IsZero (St_startedAt s) then S_At step else St_startedAt s in
  s <| St_Seq := S_Seq step |>
    <| St_Head := MkStepRef (S_Seq step) (S_Kind step) |>
    <| St_Spent :=
         MkConsumption (add64 (C_Micros spent) (Cost_Micros (S_Cost step)))
           (add64 (C_Tokens spent) (Cost_TotalTokens (S_Cost step))) (C_ToolCalls spent)
           (add64 (C_Steps spent) 1) (Duration_Milliseconds (Time_Sub (S_At step) started)) |>
    <| St_Labels := Labels_Union (St_Labels s) (S_Labels step) |>
    <| St_startedAt := started |>
    <| St_executed := if String.eqb (S_IdemKey step) "" then St_executed s
                      else {[S_IdemKey step]} ∪ St_executed s |>.

Definition Apply (s : State) (step : Step) : result EngineError State :=
  if negb (Z.eqb (S_Seq step) (add64 (St_Seq s) 1))
  then Err (ErrOutOfOrder (S_Seq step) (add64 (St_Seq s) 1))
  else applyKind (noteWorkItem (account s step) step) step.

Fixpoint fold_from (s : State) (steps : list Step) : result EngineError State :=
  match steps with
  | [] => Ok s
  | step :: rest => s' ← Apply s step; fold_from s' rest
  end.

Definition Fold (steps : list Step) : result EngineError State := fold_from zeroState steps.
