(* ===== verification/StateFacts.v ===== *)
(** * What the fold guarantees

    Theorems about src/internal/engine/fold.go: what a state folded from a
    ledger says about the steps it came from. The proofs go by induction on the
    ledger from its end, with one lemma per group of fields for the step. *)

From Stdlib Require Import ZArith Lia Ascii String Sorting.Sorted.
From stdpp Require Import base list strings gmap.
From S2P Require Import Prelude GoStrings Json Domain Sha256 Step Payload WorkItem State.

Local Open Scope string_scope.

(** ** Walking the transition *)

Ltac unfold_kinds H :=
  unfold applyKind, on_run_started, on_reserved, on_reconciled, on_tool_called,
    on_tool_returned, on_effect_reconciled, on_approval_requested, on_gate_decided, on_abandoned,
    applyFallback, applyWorkItemLink in H; cbn zeta in H.

(** One goal per kind, its payload decoded. *)
Ltac walk_kinds H :=
  unfold_kinds H;
  repeat match type of H with
    | (if ?b then _ else _) = Ok _ => destruct b eqn:?
    | _ ≫= _ = Ok _ => apply result_bind_Ok in H; destruct H as (? & ? & H); cbn beta in H
    | Err _ = Ok _ => discriminate H
    end;
  repeat match goal with
    | E : match ?x with _ => _ end = Ok _ |- _ => destruct x; try discriminate E
    | E : (if ?b then _ else _) = Ok _ |- _ => destruct b; try discriminate E
    | E : Ok _ = Ok _ |- _ => injection E as E; try subst
    end.

Lemma fold_from_app s a b :
  fold_from s (a ++ b) = s' ← fold_from s a; fold_from s' b.
Proof.
  revert s. induction a as [|x a IH]; intros s; simpl; [done|].
  destruct (Apply s x); simpl; [apply IH|done].
Qed.

Lemma fold_snoc steps step s' :
  Fold (steps ++ [step]) = Ok s' <-> exists s, Fold steps = Ok s /\ Apply s step = Ok s'.
Proof.
  unfold Fold. rewrite fold_from_app, result_bind_Ok. simpl.
  split; intros (s & H1 & H2); exists s; (split; [done|]); destruct (Apply s step); naive_solver.
Qed.

Lemma Apply_Ok s step s' :
  Apply s step = Ok s' <->
  S_Seq step = add64 (St_Seq s) 1 /\
  applyKind (noteWorkItem (account s step) step) step = Ok s'.
Proof. unfold Apply. case_match; bsimp; naive_solver. Qed.

(** ** The fields each part writes

    Each helper of the transition writes a few fields and no others. *)

Lemma noteWorkItem_shape s step :
  exists w, noteWorkItem s step = s <| St_workItem := w |>.
Proof.
  unfold noteWorkItem, noteClaim, notePullRequest, noteLinkApproval. cbn zeta.
  repeat case_match; first [exists (St_workItem s); by destruct s | eexists; reflexivity].
Qed.

Lemma recordCall_shape s p :
  exists a b, recordInvestigationCall s p =
    s <| St_pendingInvestigation := a |> <| St_investigation := b |>.
Proof.
  unfold recordInvestigationCall. cbn zeta. case_match; [do 2 eexists; reflexivity|].
  exists (Some (MkInvestigationCall (TCd_Tool p) (TCd_Effect p))), (St_investigation s). reflexivity.
Qed.

Lemma recordResult_shape s p :
  exists b, recordInvestigationResult s p =
    s <| St_pendingInvestigation := None |> <| St_investigation := b |>.
Proof.
  unfold recordInvestigationResult. cbn zeta. repeat case_match; eexists; reflexivity.
Qed.

Lemma note_completed_shape s p :
  exists a b, note_completed s p = s <| St_completed := a |> <| St_completedReads := b |>.
Proof.
  unfold note_completed. cbn zeta. repeat case_match;
    [do 2 eexists; reflexivity|eexists _, (St_completedReads s); reflexivity|].
  exists (St_completed s), (St_completedReads s). by destruct s.
Qed.

Lemma decide_shape s p :
  exists a b c ph, decide_on s p =
    s <| St_Approved := a |> <| St_PendingApproval := b |> <| St_requested := c |>
      <| St_Phase := ph |>.
Proof.
  unfold decide_on. cbn zeta. destruct (answers s p).
  - exists (if AD_Approved p then
              option_map (fun c => c <| AC_DecidedBy := AD_By p |>) (St_requested s)
            else St_Approved s), None, None, PhaseRunning.
    by destruct (AD_Approved p).
  - exists (if withdraws s p then None else St_Approved s), (St_PendingApproval s),
      (St_requested s), (St_Phase s).
    destruct (withdraws s p); [reflexivity|by destruct s].
Qed.

(** Replaces the helpers by the fields they write. *)
Ltac shapes :=
  repeat match goal with
    | |- context [recordInvestigationCall ?s ?p] =>
        let E := fresh in destruct (recordCall_shape s p) as (? & ? & E); rewrite E; clear E
    | |- context [recordInvestigationResult ?s ?p] =>
        let E := fresh in destruct (recordResult_shape s p) as (? & E); rewrite E; clear E
    | |- context [note_completed ?s ?p] =>
        let E := fresh in destruct (note_completed_shape s p) as (? & ? & E); rewrite E; clear E
    end.

(** What only [account] writes. *)
Definition ledger_facts (s : State) : Z * StepRef * Labels * Time * gset string :=
  (St_Seq s, St_Head s, St_Labels s, St_startedAt s, St_executed s).

Lemma applyKind_facts s step s' : applyKind s step = Ok s' -> ledger_facts s' = ledger_facts s.
Proof.
  intros H. walk_kinds H; shapes; try reflexivity.
  - match goal with |- context [decide_on s ?p] =>
      destruct (decide_shape s p) as (? & ? & ? & ? & E) end.
    by rewrite E.
  - by repeat case_match.
Qed.

Lemma Apply_facts s step s' :
  Apply s step = Ok s' ->
  S_Seq step = add64 (St_Seq s) 1 /\
  ledger_facts s' =
    (S_Seq step, MkStepRef (S_Seq step) (S_Kind step), Labels_Union (St_Labels s) (S_Labels step),
     (if Time_IsZero (St_startedAt s) then S_At step else St_startedAt s),
     (if String.eqb (S_IdemKey step) "" then St_executed s
      else {[S_IdemKey step]} ∪ St_executed s)).
Proof.
  intros H. apply Apply_Ok in H as [Hs H]. split; [done|].
  apply applyKind_facts in H as ->.
  destruct (noteWorkItem_shape (account s step) step) as (w & ->). reflexivity.
Qed.

(** ** Labels, keys and the sequence *)

Lemma fold_labels steps s :
  Fold steps = Ok s -> Forall (fun st => label_set (S_Labels st)) steps ->
  label_set (St_Labels s) /\
  forall l, In l (St_Labels s) <-> exists st, In st steps /\ In l (S_Labels st).
Proof.
  revert s. induction steps as [|step steps IH] using rev_ind; intros s' H Hl.
  { injection H as <-. simpl. split; [apply label_set_nil|]. naive_solver. }
  apply fold_snoc in H as (s & Hs & Ha). apply Apply_facts in Ha as [_ Hf].
  injection Hf as _ _ -> _ _. apply List.Forall_app in Hl as [Hl1 Hl2].
  apply List.Forall_cons_iff in Hl2 as [Hl2 _]. destruct (IH s Hs Hl1) as [IH1 IH2].
  split; [by apply Union_set|]. intros l. rewrite Union_In, IH2.
  by rewrite exists_snoc.
Qed.

Lemma fold_executed steps s :
  Fold steps = Ok s ->
  forall key, key ∈ St_executed s <-> key <> "" /\ exists st, In st steps /\ S_IdemKey st = key.
Proof.
  revert s. induction steps as [|step steps IH] using rev_ind; intros s' H key.
  { injection H as <-. simpl. set_solver. }
  apply fold_snoc in H as (s & Hs & Ha). apply Apply_facts in Ha as [_ Hf].
  injection Hf as _ _ _ _ ->. specialize (IH s Hs key).
  rewrite exists_snoc. destruct (String.eqb_spec (S_IdemKey step) "") as [E|E].
  - rewrite IH. intuition congruence.
  - rewrite elem_of_union, elem_of_singleton, IH. intuition congruence.
Qed.

Lemma fold_seq steps s :
  Fold steps = Ok s -> (Z.of_nat (List.length steps) < 2 ^ 63)%Z ->
  St_Seq s = Z.of_nat (List.length steps).
Proof.
  revert s. induction steps as [|step steps IH] using rev_ind; intros s' H Hn.
  { by injection H as <-. }
  apply fold_snoc in H as (s & Hs & Ha). apply Apply_facts in Ha as [Hq Hf].
  injection Hf as -> _ _ _ _. rewrite length_app in *. simpl in *.
  rewrite Hq, (IH s Hs ltac:(lia)). unfold add64. rewrite wrap64_id; [lia|].
  apply in_int64_spec. lia.
Qed.

(** ** Questions and grants *)

(** The fields an approval lives in. *)
Definition questions (s : State) :=
  (St_PendingApproval s, St_requested s, St_Approved s, St_Phase s).

(** A question and the call it is about stand together; one is open while the
    run waits for a person; and an ended run holds none. *)
Definition questions_ok (s : State) : Prop :=
  match St_PendingApproval s, St_requested s with
  | None, None => True
  | Some p, Some c => PA_AtSeq p = AC_AtSeq c /\ PA_Tool p = AC_Tool c
  | _, _ => False
  end /\
  (St_Phase s = PhaseAwaitingApproval -> is_Some (St_PendingApproval s)) /\
  (St_Phase s = PhaseFinished \/ St_Phase s = PhaseFailed \/ St_Phase s = PhaseCompensating ->
   St_PendingApproval s = None /\ St_requested s = None /\ St_Approved s = None).

Lemma questions_ok_frame s s' : questions s = questions s' -> questions_ok s -> questions_ok s'.
Proof. unfold questions. intros [= E1 E2 E3 E4]. unfold questions_ok. by rewrite E1, E2, E3, E4. Qed.

(** Moving to a phase that is neither waiting on a person nor an ending. *)
Lemma questions_ok_phase s ph a :
  ph = PhaseRunning \/ ph = PhaseAwaitingTool \/ ph = PhaseParked ->
  questions_ok s -> questions_ok (s <| St_Approved := a |> <| St_Phase := ph |>).
Proof.
  intros Hp (H1 & _ & _). unfold questions_ok. simpl. split; [done|].
  destruct Hp as [-> | [-> | ->]]; (split; [done|]); intros [|[|]]; done.
Qed.

Lemma questions_ok_ended s ph :
  ph <> PhaseAwaitingApproval -> questions_ok ((clear_questions s) <| St_Phase := ph |>).
Proof. intros Hp. unfold questions_ok. simpl. split; [done|]. split; [done|auto]. Qed.

Lemma questions_ok_decide s p : questions_ok s -> questions_ok (decide_on s p).
Proof.
  intros Hq. unfold decide_on. cbn zeta. destruct (answers s p).
  - unfold questions_ok. simpl. split; [done|]. split; [done|]. intros [|[|]]; done.
  - destruct (withdraws s p); [|done]. destruct Hq as (H1 & H2 & H3).
    unfold questions_ok. simpl. split; [done|]. split; [done|]. intros H. by destruct (H3 H) as (? & ? & ?).
Qed.

Ltac phase_case s ph a Hq :=
  apply (questions_ok_frame (s <| St_Approved := a |> <| St_Phase := ph |>)); [reflexivity|];
  apply questions_ok_phase; [tauto|exact Hq].

Lemma applyKind_questions s step s' :
  applyKind s step = Ok s' -> questions_ok s -> questions_ok s'.
Proof.
  intros H Hq. walk_kinds H; shapes; try exact Hq;
    try (apply (questions_ok_frame s); [reflexivity|exact Hq]);
    try phase_case s PhaseRunning (St_Approved s) Hq;
    try phase_case s PhaseParked (St_Approved s) Hq;
    try phase_case s PhaseAwaitingTool (@None ApprovedCall) Hq;
    try (by apply questions_ok_ended).
  - unfold questions_ok. simpl. split; [done|]. split; [by eexists|]. intros [|[|]]; done.
  - by apply questions_ok_decide.
  - apply (questions_ok_frame s); [|exact Hq]. by repeat case_match.
  - apply questions_ok_ended. by case_match.
Qed.

Lemma fold_questions steps s : Fold steps = Ok s -> questions_ok s.
Proof.
  revert s. induction steps as [|step steps IH] using rev_ind; intros s' H.
  { injection H as <-. unfold questions_ok. simpl. split; [done|]. split; [done|]. auto. }
  apply fold_snoc in H as (s & Hs & Ha). apply Apply_Ok in Ha as [_ Ha].
  eapply applyKind_questions; [exact Ha|].
  destruct (noteWorkItem_shape (account s step) step) as (w & ->).
  eapply questions_ok_frame; [|exact (IH s Hs)]. reflexivity.
Qed.

Lemma fold_step_seq steps s st :
  Fold steps = Ok s -> (Z.of_nat (List.length steps) < 2 ^ 63)%Z -> In st steps ->
  (1 <= S_Seq st <= Z.of_nat (List.length steps))%Z.
Proof.
  revert s. induction steps as [|step steps IH] using rev_ind; intros s' H Hn Hin; [done|].
  pose proof (fold_seq _ _ H Hn) as Hq.
  apply fold_snoc in H as (s & Hs & Ha). apply Apply_facts in Ha as [_ Hf].
  injection Hf as Hseq _ _ _ _. rewrite length_app in *. simpl in *.
  apply in_app_iff in Hin as [Hin|[<-|[]]]; [|lia]. specialize (IH s Hs ltac:(lia) Hin). lia.
Qed.

(** ** Where a grant comes from *)

(** The step is the request a call was approved from. *)
Definition requests (st : Step) (c : ApprovedCall) : Prop :=
  S_Kind st = StepApprovalRequested /\ S_Seq st = AC_AtSeq c /\
  exists p, decode st zeroApprovalRequestedPayload d_ApprovalRequestedPayload = Ok p /\
    AR_Tool p = AC_Tool c /\ AR_ArgsRef p = AC_ArgsRef c /\ AR_ArgsDigest p = AC_ArgsDigest c /\
    AR_ContractDigest p = AC_ContractDigest c /\
    default zeroApprovalEvidence (AR_Evidence p) = AC_Evidence c.

(** The step is a person's answer to that request. *)
Definition rules_on (st : Step) (approved : bool) (c : ApprovedCall)
    (named : ApprovalDecidedPayload -> Prop) : Prop :=
  S_Kind st = StepApprovalDecided /\
  exists q, decode st zeroApprovalDecidedPayload d_ApprovalDecidedPayload = Ok q /\
    AD_Approved q = approved /\ named q.

Definition approves (st : Step) (c : ApprovedCall) : Prop :=
  rules_on st true c (fun q =>
    AD_By q = AC_DecidedBy c /\ (AD_AtSeq q = 0%Z \/ AD_AtSeq q = AC_AtSeq c)).

Definition refuses (st : Step) (c : ApprovedCall) : Prop :=
  rules_on st false c (fun q => AD_AtSeq q = AC_AtSeq c).

(** A step after which a grant still stands. *)
Definition leaves_standing (c : ApprovedCall) (st : Step) : Prop :=
  S_Kind st <> StepToolCalled /\ ~ refuses st c.

Definition granted (steps : list Step) (c : ApprovedCall) : Prop :=
  exists pre req mid dec post,
    (steps = pre ++ req :: mid ++ dec :: post)%list /\
    requests req c /\ approves dec c /\ Forall (leaves_standing c) post.

Definition asked (steps : list Step) (c : ApprovedCall) : Prop :=
  exists pre req mid, (steps = pre ++ req :: mid)%list /\ requests req c.

Lemma asked_snoc steps step c : asked steps c -> asked (steps ++ [step]) c.
Proof.
  intros (pre & req & mid & -> & H). exists pre, req, (mid ++ [step])%list.
  by rewrite <- app_assoc.
Qed.

Lemma granted_snoc steps step c :
  granted steps c -> leaves_standing c step -> granted (steps ++ [step]) c.
Proof.
  intros (pre & req & mid & dec & post & -> & Hr & Ha & Hp) Hl.
  exists pre, req, mid, dec, (post ++ [step])%list. split.
  - by rewrite <- app_assoc, <- app_comm_cons, <- app_assoc.
  - rewrite List.Forall_app. auto.
Qed.

Lemma asked_granted steps step c by_ :
  asked steps c -> approves step (c <| AC_DecidedBy := by_ |>) ->
  granted (steps ++ [step]) (c <| AC_DecidedBy := by_ |>).
Proof.
  intros (pre & req & mid & -> & Hr) Ha. exists pre, req, mid, step, [].
  rewrite <- app_assoc. split; [done|]. split; [exact Hr|]. auto.
Qed.

(** How one step moves the request and the grant. *)
Lemma applyKind_requested s step s' c :
  applyKind s step = Ok s' -> St_Seq s = S_Seq step -> St_requested s' = Some c ->
  St_requested s = Some c \/ requests step c.
Proof.
  intros H Hq Hc. walk_kinds H; revert Hc; shapes; simpl; intros Hc; auto; try discriminate Hc.
  - right. injection Hc as <-. bsimp. unfold requests. simpl. eauto 12.
  - unfold decide_on in Hc. cbn zeta in Hc. repeat case_match; simpl in *; auto; done.
  - left. by repeat case_match.
Qed.

(** A decision keeps a grant, or makes one of the open request. *)
Lemma decide_approved s q c :
  questions_ok s -> St_Approved (decide_on s q) = Some c ->
  (St_Approved s = Some c /\
   (AD_Approved q = false -> AD_AtSeq q = AC_AtSeq c ->
    AC_AtSeq c = 0%Z \/ exists p, St_PendingApproval s = Some p /\ PA_AtSeq p = AC_AtSeq c)) \/
  exists c0, St_requested s = Some c0 /\ c = c0 <| AC_DecidedBy := AD_By q |> /\
    AD_Approved q = true /\ (AD_AtSeq q = 0%Z \/ AD_AtSeq q = AC_AtSeq c) /\
    St_PendingApproval (decide_on s q) = None.
Proof.
  intros (Hq & _ & _). unfold decide_on, answers. cbn zeta.
  destruct (St_PendingApproval s) as [p|] eqn:Ep.
  - destruct (St_requested s) as [c0|] eqn:Er; [|done].
    destruct (Z.eqb (AD_AtSeq q) 0 || Z.eqb (AD_AtSeq q) (PA_AtSeq p)) eqn:Ea.
    + destruct (AD_Approved q) eqn:Eap; simpl; [|intros Hc; left; split; [done|]].
      * intros [= <-]. right. exists c0. destruct Hq as [Hq _]. simpl. bsimp.
        intuition congruence.
      * intros _ E. bsimp. rewrite E in Ea. destruct Ea; eauto.
    + intros Hc. left. destruct (withdraws s q) eqn:Ew; [done|]. split; [done|].
      intros Hf E. unfold withdraws in Ew. rewrite Hc, Hf, E, Z.eqb_refl, orb_true_r in Ew. done.
  - intros Hc. left. destruct (withdraws s q) eqn:Ew; [done|]. split; [done|].
    intros Hf E. unfold withdraws in Ew. rewrite Hc, Hf, E, Z.eqb_refl, orb_true_r in Ew. done.
Qed.

Lemma applyKind_approved s step s' c :
  applyKind s step = Ok s' -> questions_ok s -> St_Approved s' = Some c ->
  (St_Approved s = Some c /\ S_Kind step <> StepToolCalled /\
   (refuses step c -> AC_AtSeq c = 0%Z \/
     exists p, St_PendingApproval s = Some p /\ PA_AtSeq p = AC_AtSeq c)) \/
  exists c0, St_requested s = Some c0 /\ c = c0 <| AC_DecidedBy := AC_DecidedBy c |> /\
    approves step c /\ St_PendingApproval s' = None.
Proof.
  intros H Hq Hc.
  destruct (String.eqb_spec (S_Kind step) StepApprovalDecided) as [Ek|Ek].
  - unfold applyKind in H. cbn zeta in H. rewrite Ek in H. cbn -[decode decide_on] in H.
    destruct (decode step zeroApprovalDecidedPayload d_ApprovalDecidedPayload) as [q|] eqn:Ed;
      [|done]. cbn in H. injection H as <-.
    apply decide_approved in Hc as [[Hc Hr]|(c0 & Hc0 & Hc & Hap & Hat & Hpn)]; [left|right|done].
    + split; [done|]. split; [by rewrite Ek|]. intros (_ & q' & Hq' & Hf & Hn).
      rewrite Ed in Hq'. injection Hq' as <-. auto.
    + exists c0. split; [done|]. split; [by rewrite Hc|]. split; [|done]. split; [done|].
      exists q. split; [done|]. split; [done|]. split; [by rewrite Hc|done].
  - left. assert (~ refuses step c) as Hnr by (by intros [? _]).
    assert (S_Kind step <> StepToolCalled) as Hnt.
    { intros Et. unfold applyKind in H. rewrite Et in H. cbn -[on_tool_called] in H.
      unfold on_tool_called in H. apply result_bind_Ok in H as (? & _ & H). injection H as <-.
      revert Hc. shapes. done. }
    split; [|by split]. walk_kinds H; revert Hc; shapes; simpl; intros Hc; try discriminate Hc;
      try done; [bsimp; done|]. by repeat case_match.
Qed.

(** The request and the grant of a state, traced to the ledger. *)
Definition traced (steps : list Step) (s : State) : Prop :=
  (forall c, St_requested s = Some c -> asked steps c) /\
  (forall c, St_Approved s = Some c -> granted steps c) /\
  (forall c p, St_Approved s = Some c -> St_PendingApproval s = Some p -> AC_AtSeq c <> PA_AtSeq p).

Lemma granted_seq steps s c :
  Fold steps = Ok s -> (Z.of_nat (List.length steps) < 2 ^ 63)%Z -> granted steps c ->
  (1 <= AC_AtSeq c <= Z.of_nat (List.length steps))%Z.
Proof.
  intros H Hn (pre & req & mid & dec & post & -> & (_ & <- & _) & _).
  eapply fold_step_seq; [done|done|]. rewrite in_app_iff. simpl. auto.
Qed.

Lemma applyKind_pending s step s' p :
  applyKind s step = Ok s' -> St_PendingApproval s' = Some p ->
  St_PendingApproval s = Some p \/ PA_AtSeq p = S_Seq step.
Proof.
  intros H Hc. walk_kinds H; revert Hc; shapes; simpl; intros Hc; auto; try discriminate Hc.
  - right. by injection Hc as <-.
  - unfold decide_on in Hc. cbn zeta in Hc. repeat case_match; simpl in *; auto; done.
  - left. by repeat case_match.
Qed.

Lemma fold_traced steps s :
  Fold steps = Ok s -> (Z.of_nat (List.length steps) < 2 ^ 63)%Z -> traced steps s.
Proof.
  revert s. induction steps as [|step steps IH] using rev_ind; intros s' H Hn.
  { injection H as <-. repeat split; done. }
  pose proof (fold_step_seq _ _ step H Hn) as Hseq.
  apply fold_snoc in H as (s & Hs & Ha). pose proof (fold_questions _ _ Hs) as Hq.
  rewrite length_app in Hn. simpl in Hn. destruct (IH s Hs ltac:(lia)) as (IH1 & IH2 & IH3).
  pose proof (fun c => granted_seq _ _ c Hs ltac:(lia)) as Hgs.
  apply Apply_Ok in Ha as [Hnext Ha]. pose proof (fold_seq _ _ Hs ltac:(lia)) as Hlen.
  rewrite Hlen in Hnext. unfold add64 in Hnext. rewrite wrap64_id in Hnext by (apply in_int64_spec; lia).
  destruct (noteWorkItem_shape (account s step) step) as (w & E). rewrite E in Ha. clear E.
  set (s1 := (account s step) <| St_workItem := w |>) in Ha.
  assert (questions_ok s1) as Hq1 by (eapply questions_ok_frame; [|exact Hq]; reflexivity).
  repeat split.
  - intros c Hc. eapply applyKind_requested in Hc as [Hc|Hc]; [..|exact Ha|reflexivity].
    + by apply asked_snoc, IH1.
    + exists steps, step, []. auto.
  - intros c Hc. eapply applyKind_approved in Hc as [(Hc & Hk & Hr)|(c0 & Hc0 & Hc & Hap & _)];
      [..|exact Ha|exact Hq1].
    + apply granted_snoc; [by apply IH2|]. split; [done|]. intros Href.
      specialize (Hgs c (IH2 c Hc)). destruct (Hr Href) as [|(p & Hp & Hpc)]; [lia|].
      by apply (IH3 c p Hc Hp).
    + rewrite Hc in Hap |- *. apply asked_granted; [by apply IH1|done].
  - intros c p Hc Hp. eapply applyKind_approved in Hc as [(Hc & _ & _)|(c0 & _ & _ & _ & Hn0)];
      [..|exact Ha|exact Hq1]; [|by rewrite Hp in Hn0].
    specialize (Hgs c (IH2 c Hc)).
    eapply applyKind_pending in Hp as [Hp|Hp]; [..|exact Ha]; [by apply IH3|lia].
Qed.

(** ** Coordination keys *)

(** The [k]-th key the search tries. *)
Definition attempt_key (base : string) (k : nat) : string :=
  match k with
  | O => base
  | S k' => base +:+ coordinationAttemptSeparator +:+ print_Z (Z.of_nat k' + 2)
  end.

Lemma attempt_key_inj base i j : attempt_key base i = attempt_key base j -> i = j.
Proof.
  assert (forall k, base <> base +:+ coordinationAttemptSeparator +:+ print_Z k) as Hne.
  { intros k E. apply (f_equal String.length) in E. rewrite !str_app_length in E.
    change (String.length coordinationAttemptSeparator) with 9%nat in E. lia. }
  destruct i as [|i], j as [|j]; simpl; intros E; [done|by apply Hne in E| |].
  - symmetry in E. by apply Hne in E.
  - apply str_app_inj, str_app_inj, print_Z_inj in E. lia.
Qed.

Lemma coordination_search_spec executed base fuel k :
  let key := coordination_search executed base (attempt_key base k) (Z.of_nat k + 2) fuel in
  ((key ∉ executed) /\ exists j, key = attempt_key base j) \/
  (forall i, (k <= i < k + fuel)%nat -> attempt_key base i ∈ executed).
Proof.
  revert k. induction fuel as [|fuel IH]; intros k; simpl; [right; lia|].
  case_bool_decide as Hin; [|left; eauto].
  specialize (IH (S k)). simpl in IH.
  replace (Z.of_nat k + 2 + 1)%Z with (Z.of_nat (S k) + 2)%Z by lia.
  destruct IH as [IH|IH]; [by left|right]. intros i Hi.
  destruct (decide (i = k)) as [->|]; [done|]. apply IH. lia.
Qed.

Lemma coordination_key_fresh s base :
  (coordinationIdempotencyKey s base ∉ St_executed s) /\
  exists j, coordinationIdempotencyKey s base = attempt_key base j.
Proof.
  unfold coordinationIdempotencyKey.
  destruct (coordination_search_spec (St_executed s) base (S (size (St_executed s))) 0) as [H|H];
    [done|exfalso].
  set (n := size (St_executed s)) in *.
  pose (keys := list_to_set (attempt_key base <$> seq 0 (S n)) : gset string).
  assert (keys ⊆ St_executed s) as Hsub.
  { intros x Hx. apply elem_of_list_to_set, list_elem_of_fmap in Hx as (i & -> & Hi).
    apply elem_of_seq in Hi. apply H. lia. }
  apply subseteq_size in Hsub. unfold keys in Hsub.
  rewrite size_list_to_set, length_fmap, length_seq in Hsub; [unfold n in Hsub; lia|].
  apply NoDup_fmap_2; [intros i j; apply attempt_key_inj|apply NoDup_seq].
Qed.

(** ** Every kind is interpreted *)

Lemma decode_not_unhandled {A} step (zero : A) d k : decode step zero d <> Err (ErrUnhandledKind k).
Proof. unfold decode. by case_match. Qed.

Lemma known_kind_handled s step k :
  StepKind_Valid (S_Kind step) = true -> applyKind s step <> Err (ErrUnhandledKind k).
Proof.
  intros Hv H. unfold StepKind_Valid in Hv. apply existsb_exists in Hv as (kind & Hin & Hk).
  apply String.eqb_eq in Hk. unfold applyKind in H. rewrite Hk in H. clear Hk.
  simpl in Hin. repeat destruct Hin as [<-|Hin]; try done; simpl in H; try discriminate H;
    unfold on_run_started, on_reserved, on_reconciled, on_tool_called, on_tool_returned,
      on_effect_reconciled, on_approval_requested, on_gate_decided, on_abandoned, applyFallback,
      applyWorkItemLink in H;
    apply result_bind_Err in H as [H|(p & _ & H)];
    try (by apply decode_not_unhandled in H); try discriminate H;
    repeat case_match; try discriminate H.
  all: apply result_bind_Err in H as [H|(? & _ & H)]; repeat case_match; discriminate H.
Qed.

(** ** Properties *)

(** C36. A grant is never invented: whenever a folded run holds an approved call
    it has not made, its ledger holds the request for exactly that tool, those
    arguments and that contract, after it a person's approval answering that
    request, and since then neither a call of any tool nor a refusal naming it. *)
Theorem grant_traces_to_a_standing_approval steps s c :
  Fold steps = Ok s -> (Z.of_nat (List.length steps) < 2 ^ 63)%Z -> St_Approved s = Some c ->
  granted steps c.
Proof. intros H Hn Hc. by apply (fold_traced steps s H Hn). Qed.

(** The fold keeps its questions straight: an open approval and the call it
    is about are set and cleared together (so deciding one never dereferences a
    missing request), a run waiting for a person always has a question open, and
    a run that finished, failed or is compensating holds no question and no
    grant. *)
Theorem questions_stay_consistent steps s : Fold steps = Ok s -> questions_ok s.
Proof. exact (fold_questions steps s). Qed.

(** Taint is exactly what the ledger recorded: on a ledger of sealed steps
    the run's labels are a label set holding every label of every step and no
    other, so no step ever removes one. *)
Theorem taint_is_the_union_of_the_ledger steps s :
  Fold steps = Ok s -> Forall (fun st => label_set (S_Labels st)) steps ->
  label_set (St_Labels s) /\
  forall l, Labels_Has (St_Labels s) l = true <-> exists st, In st steps /\ In l (S_Labels st).
Proof.
  intros H Hl. destruct (fold_labels steps s H Hl) as [Hs Hin].
  split; [done|]. intros l. by rewrite Has_In, Hin.
Qed.

(** Exactly once: a call whose key any step of the ledger carries is a
    duplicate for the folded run unless it is a read, other than the memory
    lookup, whose result the ledger recorded as a read. *)
Theorem recorded_key_is_a_duplicate steps s st effect tool :
  Fold steps = Ok s -> In st steps -> S_IdemKey st <> "" ->
  duplicateWithinRun s effect tool (S_IdemKey st) =
    negb (Z.eqb effect EffectRead) || String.eqb tool ToolMemoryFind ||
    negb (CompletedAs s (S_IdemKey st) EffectRead).
Proof.
  intros H Hin Hk. unfold duplicateWithinRun, AlreadyExecuted.
  rewrite bool_decide_eq_true_2; [done|]. apply (fold_executed _ _ H). eauto.
Qed.

(** The search for a coordination call's key always ends, and ends in a key
    the ledger does not hold: the first unused of the base and its numbered
    attempts. *)
Theorem coordination_key_is_unused s base effect tool :
  ToolID_Coordination tool = true ->
  AlreadyExecuted s (executionIdempotencyKey s effect tool base) = false /\
  exists k, executionIdempotencyKey s effect tool base = attempt_key base k.
Proof.
  intros Ht. unfold executionIdempotencyKey. rewrite Ht.
  destruct (coordination_key_fresh s base) as [Hf Hk].
  split; [by apply bool_decide_eq_false_2|done].
Qed.

(** The set of kinds is closed and every one is interpreted: the fold of a
    step [NewStep] accepts never fails for an unhandled kind. *)
Theorem sealed_kinds_are_interpreted prev draft step s k :
  NewStep prev draft = Ok step -> Apply s step <> Err (ErrUnhandledKind k).
Proof.
  intros Hn. apply NewStep_sealed in Hn as (-> & _ & _ & Hv & _). unfold Apply.
  case_match; [done|]. by apply known_kind_handled.
Qed.

(** ** Witnesses *)

Definition quoted (s : string) : string := chr 34 +:+ s +:+ chr 34.
Definition kv (k v : string) : string := quoted k +:+ ":" +:+ v.
Definition obj (l : list string) : string := "{" +:+ join_str "," l +:+ "}".

(** A step of a sample run, sealed after the steps before it. *)
Definition sample_step (kind : StepKind) (payload idem : string) (labels : list string) : Step :=
  MkStep "run-1" 0 kind (MkScope "acme" "cx") "triage" "v1" "ana" payload labels
    (MkCost 10 20 0 0 0 7) idem "" (unix_epoch + 1700000000000000000) "" "".

Fixpoint seal_all (done : list Step) (drafts : list Step) : list Step :=
  match drafts with
  | [] => done
  | d :: ds => seal_all (done ++ [seal (last_or None done) d])%list ds
  end.

Definition sample_run : list Step := Eval vm_compute in
  seal_all []
    [sample_step StepRunStarted (obj [kv "trigger" (quoted "cron")]) "" [];
     sample_step StepPlanned "" "" ["untrusted"];
     sample_step StepApprovalRequested
       (obj [kv "tool" (quoted "crm.update"); kv "args_digest" (quoted "d1"); kv "effect" "2"]) "" [];
     sample_step StepApprovalDecided
       (obj [kv "approved" "true"; kv "by" (quoted "rui"); kv "at_seq" "3"]) "k1" []].

Definition sample_state : State :=
  match Fold sample_run with Ok s => s | Err _ => zeroState end.

Lemma sample_folds : Fold sample_run = Ok sample_state.
Proof. vm_compute. reflexivity. Qed.

Definition sample_grant : ApprovedCall :=
  MkApprovedCall "crm.update" "" "d1" "" zeroApprovalEvidence 3 "rui".

Lemma grant_traces_to_a_standing_approval_witness : granted sample_run sample_grant.
Proof.
  apply (grant_traces_to_a_standing_approval sample_run sample_state);
    [apply sample_folds|vm_compute; reflexivity|vm_compute; reflexivity].
Defined.

Lemma questions_stay_consistent_witness : questions_ok sample_state.
Proof. apply (questions_stay_consistent sample_run). apply sample_folds. Defined.

Lemma sample_labels : Forall (fun st => label_set (S_Labels st)) sample_run.
Proof. repeat constructor. Qed.

Lemma taint_is_the_union_of_the_ledger_witness :
  label_set (St_Labels sample_state) /\
  forall l, Labels_Has (St_Labels sample_state) l = true <->
    exists st, In st sample_run /\ In l (S_Labels st).
Proof.
  apply taint_is_the_union_of_the_ledger; [apply sample_folds|apply sample_labels].
Defined.

Lemma recorded_key_is_a_duplicate_witness :
  duplicateWithinRun sample_state EffectWrite "crm.update" "k1" = true.
Proof.
  apply (recorded_key_is_a_duplicate sample_run sample_state (nth 3 sample_run first_step)
           EffectWrite "crm.update"); [apply sample_folds|vm_compute; auto|vm_compute; congruence].
Defined.

Lemma coordination_key_is_unused_witness :
  AlreadyExecuted sample_state
    (executionIdempotencyKey sample_state EffectWrite ToolWorkItemClaim "k1") = false /\
  exists k, executionIdempotencyKey sample_state EffectWrite ToolWorkItemClaim "k1" =
    attempt_key "k1" k.
Proof. apply coordination_key_is_unused. reflexivity. Defined.

Lemma sealed_kinds_are_interpreted_witness :
  Apply zeroState first_step <> Err (ErrUnhandledKind "x").
Proof.
  apply (sealed_kinds_are_interpreted None (draft StepRunStarted (chr 34 +:+ "x" +:+ chr 34))).
  vm_compute. reflexivity.
Defined.
