(* ===== verification/Project.v ===== *)
(** * The runs projection

    src/internal/ledger/project.go: what one step adds to the row a store keeps
    per run. The projection is a second reading of the ledger beside the
    engine's fold; the theorems compare the two. *)

From Stdlib Require Import ZArith Lia Ascii String.
From stdpp Require Import base list strings gmap.
From S2P Require Import Prelude GoStrings Json Domain Sha256 Step Payload WorkItem State StateFacts.

Local Open Scope string_scope.

(** ** Deltas *)

Definition reservationDelta (s : Step) : Z :=
  if String.eqb (S_Kind s) StepBudgetReserved then
    BR_Micros (decode_best_effort zeroBudgetReservedPayload d_BudgetReservedPayload (S_Payload s))
  else if String.eqb (S_Kind s) StepBudgetReconciled then
    sub64 0 (BC_ReleasedMicros
               (decode_best_effort zeroBudgetReconciledPayload d_BudgetReconciledPayload (S_Payload s)))
  else 0%Z.

Definition toolCallDelta (s : Step) : Z :=
  if String.eqb (S_Kind s) StepToolCalled then 1%Z else 0%Z.

Definition strPtr (v : string) : option string := if String.eqb v "" then None else Some v.

Definition requested_field (f : ApprovalRequestedPayload -> string) (s : Step) : option string :=
  if negb (String.eqb (S_Kind s) StepApprovalRequested) then None
  else strPtr (f (decode_best_effort zeroApprovalRequestedPayload d_ApprovalRequestedPayload
                    (S_Payload s))).

Definition pendingTool (s : Step) : option string := requested_field AR_Tool s.
Definition pendingRule (s : Step) : option string := requested_field AR_Rule s.
Definition pendingReason (s : Step) : option string := requested_field AR_Reason s.

Definition pendingAtSeq (s : Step) : option Z :=
  if negb (String.eqb (S_Kind s) StepApprovalRequested) then None else Some (S_Seq s).

Definition failureOf (s : Step) : option FailureSummary :=
  if negb (String.eqb (S_Kind s) StepParked) then None
  else match unmarshal_payload s zeroParkedPayload d_ParkedPayload with
       | Some p => PK_Failure p
       | None => None
       end.

Definition failureCode (s : Step) : option string := f ← failureOf s; strPtr (FS_Code f).
Definition failureProvider (s : Step) : option string := f ← failureOf s; strPtr (FS_Provider f).
Definition failureStatus (s : Step) : option Z :=
  f ← failureOf s; if Z.eqb (FS_Status f) 0 then None else Some (FS_Status f).
Definition failureRequestID (s : Step) : option string := f ← failureOf s; strPtr (FS_RequestID f).
Definition failureRetryable (s : Step) : option bool := f ← failureOf s; Some (FS_Retryable f).

(** The phase a step moves the row to, and when the run ended. *)
Definition projectPhase (s : Step) : option string * option Time :=
  let k := S_Kind s in
  if String.eqb k StepRunStarted then (Some "running", None)
  else if String.eqb k StepToolCalled then (Some "awaiting_tool", None)
  else if String.eqb k StepToolReturned || String.eqb k StepApprovalDecided
       then (Some "running", None)
  else if String.eqb k StepApprovalRequested then (Some "awaiting_approval", None)
  else if String.eqb k StepParked then (Some "parked", None)
  else if String.eqb k StepResumed then (Some "running", None)
  else if String.eqb k StepAbandoned then
    match unmarshal_payload s zeroAbandonedPayload d_AbandonedPayload with
    | Some p => if AB_Compensate p then (Some "compensating", None)
                else (Some "failed", Some (S_At s))
    | None => (Some "failed", Some (S_At s))
    end
  else if String.eqb k StepFailed then (Some "failed", Some (S_At s))
  else if String.eqb k StepRunFinished then (Some "finished", Some (S_At s))
  else (None, None).

Definition phaseOrRunning (p : option string) : string := default "running" p.

(** queue_memory.go, and the same loop in workitem_memory.go. *)
Definition phaseOf (steps : list Step) : string :=
  fold_left (fun phase s => default phase (fst (projectPhase s))) steps "".

(** ** Against the fold *)

(** The name a row holds for a folded phase; a run with no phase yet has none. *)
Definition phase_name (p : Phase) : string :=
  if Z.eqb p PhaseUnstarted then "" else Phase_String p.

Lemma phaseOf_snoc steps step :
  phaseOf (steps ++ [step]) = default (phaseOf steps) (fst (projectPhase step)).
Proof. unfold phaseOf. by rewrite fold_left_app. Qed.

Lemma decode_best_effort_Ok {A} step (zero : A) d p :
  decode step zero d = Ok p -> decode_best_effort zero d (S_Payload step) = p.
Proof.
  unfold decode, decode_payload, decode_best_effort. intros H.
  destruct (String.eqb (S_Payload step) ""); [by injection H|].
  destruct (unmarshal_into zero d (S_Payload step)) as [a []]; [by injection H|done].
Qed.

Lemma abandoned_decodes step p :
  decode step zeroAbandonedPayload d_AbandonedPayload = Ok p ->
  unmarshal_payload step zeroAbandonedPayload d_AbandonedPayload = Some p \/
  (unmarshal_payload step zeroAbandonedPayload d_AbandonedPayload = None /\ AB_Compensate p = false).
Proof.
  unfold decode, decode_payload, unmarshal_payload.
  destruct (String.eqb_spec (S_Payload step) "") as [->|].
  - intros [= <-]. right. by vm_compute.
  - destruct (unmarshal_into _ _ _) as [a []]; [|done]. intros [= <-]. auto.
Qed.

(** A decision step that answers the question open when it arrives. *)
Definition answered (s : State) (step : Step) : Prop :=
  S_Kind step = StepApprovalDecided ->
  forall q, decode step zeroApprovalDecidedPayload d_ApprovalDecidedPayload = Ok q ->
    answers s q = true.

Lemma applyKind_phase s step s' :
  applyKind s step = Ok s' -> answered s step ->
  phase_name (St_Phase s') = default (phase_name (St_Phase s)) (fst (projectPhase step)).
Proof.
  intros H Ha. unfold projectPhase.
  destruct (String.eqb_spec (S_Kind step) StepApprovalDecided) as [Ek|Ek].
  { unfold applyKind in H. cbn zeta in H. rewrite Ek in H |- *. cbn -[decode decide_on] in H.
    apply result_bind_Ok in H as (q & Hq & H). injection H as <-.
    unfold decide_on. rewrite (Ha Ek q Hq). by destruct (AD_Approved q). }
  clear Ha. walk_kinds H; shapes;
    repeat match goal with E : String.eqb (S_Kind step) _ = true |- _ =>
      apply String.eqb_eq in E; rewrite E end; try reflexivity; try done.
  - by repeat case_match.
  - match goal with E : decode _ _ _ = Ok ?p |- _ =>
      destruct (abandoned_decodes _ _ E) as [Hu|[Hu Hc]] end; rewrite Hu; simpl.
    + by case_match.
    + by rewrite Hc.
Qed.

(** Every decision of a ledger answers the question open at its place. *)
Definition all_answered (steps : list Step) : Prop :=
  forall pre step post s, (steps = pre ++ step :: post)%list -> Fold pre = Ok s -> answered s step.

Lemma all_answered_snoc steps step : all_answered (steps ++ [step]) -> all_answered steps.
Proof.
  intros H pre x post s -> Hs. apply (H pre x (post ++ [step])%list s); [|done].
  by rewrite <- app_assoc.
Qed.

Lemma fold_phase steps s :
  Fold steps = Ok s -> all_answered steps -> phaseOf steps = phase_name (St_Phase s).
Proof.
  revert s. induction steps as [|step steps IH] using rev_ind; intros s' H Hall.
  { by injection H as <-. }
  apply fold_snoc in H as (s & Hs & Ha). rewrite phaseOf_snoc, (IH s Hs) by
    (by eapply all_answered_snoc).
  apply Apply_Ok in Ha as [_ Ha]. apply applyKind_phase in Ha as ->.
  - destruct (noteWorkItem_shape (account s step) step) as (w & ->). reflexivity.
  - pose proof (Hall steps step [] s eq_refl Hs) as Hans.
    destruct (noteWorkItem_shape (account s step) step) as (w & ->). exact Hans.
Qed.

(** ** Sums *)

Definition sum_of (f : Step -> Z) (steps : list Step) : Z := fold_right (fun s n => f s + n)%Z 0%Z steps.

Lemma sum_of_snoc f steps step : sum_of f (steps ++ [step]) = (sum_of f steps + f step)%Z.
Proof. induction steps as [|x l IH]; simpl; lia. Qed.

Lemma wrap64_add_l a b : wrap64 (wrap64 a + b) = wrap64 (a + b).
Proof.
  unfold wrap64. f_equal.
  replace ((a + 2 ^ 63) mod 2 ^ 64 - 2 ^ 63 + b + 2 ^ 63)%Z with ((a + 2 ^ 63) mod 2 ^ 64 + b)%Z by lia.
  rewrite Z.add_mod_idemp_l by lia. f_equal. lia.
Qed.

Lemma wrap64_add_r a b : wrap64 (a + wrap64 b) = wrap64 (a + b).
Proof. rewrite Z.add_comm, wrap64_add_l. f_equal. lia. Qed.

(** What the fold's accounts and the projection's deltas count, step by step. *)
Lemma applyKind_accounts s step s' :
  applyKind s step = Ok s' ->
  C_Micros (St_Spent s') = C_Micros (St_Spent s) /\
  C_Steps (St_Spent s') = C_Steps (St_Spent s) /\
  C_ToolCalls (St_Spent s') = (if Z.eqb (toolCallDelta step) 0 then C_ToolCalls (St_Spent s)
                               else add64 (C_ToolCalls (St_Spent s)) 1) /\
  C_Micros (St_Reserved s') =
    (if String.eqb (S_Kind step) StepBudgetReserved || String.eqb (S_Kind step) StepBudgetReconciled
     then wrap64 (C_Micros (St_Reserved s) + reservationDelta step)
     else C_Micros (St_Reserved s)).
Proof.
  intros H. unfold toolCallDelta, reservationDelta.
  walk_kinds H; shapes;
    repeat match goal with E : String.eqb (S_Kind step) _ = true |- _ =>
      apply String.eqb_eq in E; rewrite E end;
    repeat match goal with E : decode _ _ _ = Ok _ |- _ =>
      apply decode_best_effort_Ok in E; rewrite ?E end; try done.
  - split; [done|]. split; [done|]. split; [done|]. simpl. unfold sub64. by rewrite wrap64_add_r.
  - match goal with |- context [decide_on s ?q] =>
      destruct (decide_shape s q) as (? & ? & ? & ? & ->) end. done.
  - by repeat case_match.
Qed.

Lemma fold_accounts steps s :
  Fold steps = Ok s ->
  C_Micros (St_Spent s) = wrap64 (sum_of (fun st => Cost_Micros (S_Cost st)) steps) /\
  C_Steps (St_Spent s) = wrap64 (Z.of_nat (List.length steps)) /\
  C_ToolCalls (St_Spent s) = wrap64 (sum_of toolCallDelta steps) /\
  C_Micros (St_Reserved s) = wrap64 (sum_of reservationDelta steps).
Proof.
  revert s. induction steps as [|step steps IH] using rev_ind; intros s' H.
  { by injection H as <-. }
  apply fold_snoc in H as (s & Hs & Ha). destruct (IH s Hs) as (I1 & I2 & I3 & I4).
  apply Apply_Ok in Ha as [_ Ha]. apply applyKind_accounts in Ha as (-> & -> & -> & ->).
  destruct (noteWorkItem_shape (account s step) step) as (w & ->).
  rewrite !sum_of_snoc, length_app, Nat2Z.inj_add. simpl.
  rewrite I1, I2, I3, I4. unfold add64. rewrite !wrap64_add_l.
  split; [done|]. split; [done|]. split.
  - unfold toolCallDelta. destruct (String.eqb _ _); simpl; [done|]. by rewrite Z.add_0_r.
  - unfold reservationDelta.
    destruct (String.eqb _ StepBudgetReserved), (String.eqb _ StepBudgetReconciled); simpl;
      rewrite ?Z.add_0_r; done.
Qed.

(** ** Properties *)

(** The projection and the fold keep the same books: on any ledger the engine
    can fold, the run's spend, its tool calls and its outstanding reservation
    are the 64-bit sums of the deltas the store adds per step. *)
Theorem projection_sums_match_the_fold steps s :
  Fold steps = Ok s ->
  C_Micros (St_Spent s) = wrap64 (sum_of (fun st => Cost_Micros (S_Cost st)) steps) /\
  C_ToolCalls (St_Spent s) = wrap64 (sum_of toolCallDelta steps) /\
  C_Micros (St_Reserved s) = wrap64 (sum_of reservationDelta steps).
Proof. intros H. apply fold_accounts in H. tauto. Qed.

(** Where every recorded decision answered the question then open, the phase
    the queue claims by is the phase the engine folds. *)
Theorem projected_phase_matches_the_fold steps s :
  Fold steps = Ok s -> all_answered steps -> phaseOf steps = phase_name (St_Phase s).
Proof. exact (fold_phase steps s). Qed.

Definition stale_run : list Step := Eval vm_compute in
  seal_all []
    [sample_step StepRunStarted (obj [kv "trigger" (quoted "cron")]) "" [];
     sample_step StepRunFinished "" "" [];
     sample_step StepApprovalDecided
       (obj [kv "approved" "false"; kv "by" (quoted "rui"); kv "at_seq" "9"]) "" []].

(** A decision nobody was waiting for parts the two readings: the engine
    leaves a finished run finished, while the projection puts its row back to
    running, where the queue may claim it. *)
Theorem stale_decision_reopens_the_row :
  match Fold stale_run with
  | Ok s => St_Phase s = PhaseFinished
  | Err _ => False
  end /\ phaseOf stale_run = "running".
Proof. vm_compute. auto. Qed.

(** ** Witnesses *)

Lemma projection_sums_match_the_fold_witness :
  C_Micros (St_Spent sample_state) = 28%Z /\ C_ToolCalls (St_Spent sample_state) = 0%Z /\
  C_Micros (St_Reserved sample_state) = 0%Z.
Proof. apply (projection_sums_match_the_fold sample_run sample_state). apply sample_folds. Defined.

Lemma projected_phase_matches_the_fold_witness :
  phaseOf (firstn 3 sample_run) = "awaiting_approval".
Proof.
  destruct (Fold (firstn 3 sample_run)) as [s|] eqn:E; [|vm_compute in E; discriminate E].
  rewrite (projected_phase_matches_the_fold _ s E).
  - vm_compute in E. injection E as <-. reflexivity.
  - intros pre step post s' H Hs Hk. exfalso.
    assert (In step (firstn 3 sample_run)) as Hin by (rewrite H, in_app_iff; simpl; auto).
    simpl in Hin. repeat destruct Hin as [<-|Hin]; try done; vm_compute in Hk; discriminate Hk.
Defined.
