(* ===== verification/Ledger.v ===== *)
(** * The ledger store and its queue

    src/internal/ledger/memory.go, queue_memory.go, head.go, workitem.go,
    workitem_memory.go, workitem_link.go, workitem_alias_memory.go,
    workitem_origin.go and queue_failure.go: the in-memory store, which the
    source holds to the same contract as the Postgres one. Every operation runs
    under the store's lock, so it is one transition of the state; a goroutine's
    interleaving is an order of transitions.

    The context's cancellation and the clock are arguments: [cancelled] is
    [ctx.Err() != nil] on entry, and [now] the instant the operation reads (an
    operation that reads the clock more than once is given one reading). *)

From Stdlib Require Import ZArith Lia Ascii String Sorting.Sorted.
From stdpp Require Import base list strings gmap.
From S2P Require Import Prelude GoStrings Json Domain Sha256 Step Payload WorkItem State StateFacts Project.

Local Open Scope string_scope.

(** ** State *)

Record leaseState := MkLeaseState {
  ls_attempts : Z;
  ls_nextAttemptAt : Time;
  ls_parkedAt : Z;
  ls_leasedUntil : Time;
  ls_epoch : Z
}.

Definition zeroLease : leaseState := MkLeaseState 0 0 0 0 0.

Record Memory := MkMemory {
  m_runs : gmap RunID (list Step);
  m_idems : gset string;
  m_leases : gmap RunID leaseState;
  m_owners : gmap RunID string;
  m_lastError : gmap RunID string;
  m_lastFailure : gmap RunID FailureSummary;
  m_lastFailureAt : gmap RunID Time;
  m_finishOrder : gmap RunID Z;
  m_finishSeq : Z
}.

#[export] Instance leaseState_eta : Eta leaseState := fun l =>
  MkLeaseState (ls_attempts l) (ls_nextAttemptAt l) (ls_parkedAt l) (ls_leasedUntil l) (ls_epoch l).

#[export] Instance Memory_eta : Eta Memory := fun m =>
  MkMemory (m_runs m) (m_idems m) (m_leases m) (m_owners m) (m_lastError m) (m_lastFailure m)
    (m_lastFailureAt m) (m_finishOrder m) (m_finishSeq m).

Definition NewMemory : Memory := MkMemory ∅ ∅ ∅ ∅ ∅ ∅ ∅ ∅ 0.

Inductive LedgerError :=
| ErrContext
| ErrLeaseLost
| ErrHeadMoved
| ErrIdemConflict
| ErrNotFound
| ErrNoClaimableRun
| ErrWorkItem (e : WorkItemError)
| ErrStep (e : StepError).

(** Reading a key a map does not hold gives the zero value. *)
Definition steps_of (m : Memory) (run : RunID) : list Step := default [] (m_runs m !! run).
Definition lease_of (m : Memory) (run : RunID) : leaseState := default zeroLease (m_leases m !! run).

(** ** Heads and leases (head.go, memory.go) *)

Definition headIs (expect : option StepRef) (head : option Step) : result LedgerError unit :=
  match expect with
  | None => Ok tt
  | Some e =>
      match head with
      | None => Err ErrHeadMoved
      | Some h =>
          if negb (Z.eqb (S_Seq h) (Ref_Seq e)) || negb (String.eqb (S_Kind h) (Ref_Kind e))
          then Err ErrHeadMoved else Ok tt
      end
  end.

Definition leaseHeld (m : Memory) (now : Time) (run : RunID) (epoch : Z) : bool :=
  let st := lease_of m run in
  Z.eqb (ls_epoch st) epoch && negb (Time_IsZero (ls_leasedUntil st)) &&
  Time_After (ls_leasedUntil st) now.

(** ** Reading a run's steps (queue_memory.go, workitem_memory.go, simulations_memory.go) *)

Record runIdentity := MkRunIdentity {
  ri_Scope : Scope;
  ri_AgentID : AgentID;
  ri_VersionID : VersionID;
  ri_OnBehalfOf : UserID
}.

Definition first_set (cur next : string) : string := if String.eqb cur "" then next else cur.

Definition identity_step (out : runIdentity) (s : Step) : runIdentity :=
  MkRunIdentity
    (MkScope (first_set (Company (ri_Scope out)) (Company (S_Scope s)))
       (first_set (Area (ri_Scope out)) (Area (S_Scope s))))
    (first_set (ri_AgentID out) (S_AgentID s))
    (first_set (ri_VersionID out) (S_VersionID s))
    (first_set (ri_OnBehalfOf out) (S_OnBehalfOf s)).

Definition identityOf (steps : list Step) : runIdentity :=
  fold_left identity_step steps (MkRunIdentity zeroScope "" "" "").

Definition startedPayload (opening : Step) : RunStartedPayload :=
  if negb (String.eqb (S_Kind opening) StepRunStarted) then zeroRunStartedPayload
  else match unmarshal_payload opening zeroRunStartedPayload d_RunStartedPayload with
       | Some p => p
       | None => zeroRunStartedPayload
       end.

Definition isSimulated (steps : list Step) : bool :=
  match steps with [] => false | first :: _ => RS_Simulated (startedPayload first) end.

Definition simulatedRun (steps : list Step) : bool :=
  match steps with
  | [] => false
  | first :: _ =>
      if negb (String.eqb (S_Kind first) StepRunStarted) then false
      else match unmarshal_payload first zeroRunStartedPayload d_RunStartedPayload with
           | Some p => RS_Simulated p
           | None => false
           end
  end.

(** ** Work-item claims (workitem.go, workitem_memory.go) *)

Definition claimedRef (s : Step) : result WorkItemError WorkItemRef :=
  if String.eqb (S_AgentID s) "" then Err ErrWorkItemInvalid
  else match unmarshal_payload s zeroWorkItemClaimedPayload d_WorkItemClaimedPayload with
       | None => Err ErrWorkItemInvalid
       | Some p => if is_canonical (WC_Ref p) then Ok (WC_Ref p) else Err ErrWorkItemInvalid
       end.

Definition speaksForRun (e : WorkItemError) (s : Step) (agent : AgentID) (scope : Scope)
    : result WorkItemError unit :=
  if negb (String.eqb (S_AgentID s) agent) || negb (bool_decide (S_Scope s = scope))
  then Err e else Ok tt.

Definition claimSpeaksForRun := speaksForRun ErrWorkItemInvalid.
Definition linkSpeaksForRun := speaksForRun ErrWorkItemLinkInvalid.

Definition judgeClaim (ref own : WorkItemRef) (heldElsewhere : bool) : result WorkItemError unit :=
  if String.eqb own ref then Ok tt
  else if negb (String.eqb own "") then Err ErrWorkItemRunHoldsAnother
  else if heldElsewhere then Err ErrWorkItemHeld
  else Ok tt.

Definition terminalPhase (phase : string) : bool :=
  String.eqb phase "finished" || String.eqb phase "failed".

Definition startedIdentity (steps : list Step) : result WorkItemError (AgentID * Scope) :=
  match steps with
  | [] => Err ErrWorkItemInvalid
  | first :: _ =>
      if negb (String.eqb (S_Kind first) StepRunStarted) then Err ErrWorkItemInvalid
      else let who := identityOf steps in Ok (ri_AgentID who, ri_Scope who)
  end.

(** The card a run holds: its first claim that can be keyed. *)
Fixpoint claimOfRun (steps : list Step) : option WorkItemRef :=
  match steps with
  | [] => None
  | st :: rest =>
      if String.eqb (S_Kind st) StepWorkItemClaimed then
        match claimedRef st with Ok ref => Some ref | Err _ => claimOfRun rest end
      else claimOfRun rest
  end.

(** Whether a run is another open holder of a card for an agent. *)
Definition holds_for (agent : AgentID) (ref : WorkItemRef) (steps : list Step) : bool :=
  negb (simulatedRun steps) &&
  match claimOfRun steps with
  | Some held =>
      String.eqb (ri_AgentID (identityOf steps)) agent && String.eqb held ref &&
      negb (terminalPhase (phaseOf steps))
  | None => false
  end.

Definition judge_claim_step (m : Memory) (s : Step) : result WorkItemError unit :=
  ref ← claimedRef s;
  '(agent, scope) ← startedIdentity (steps_of m (S_RunID s));
  _ ← claimSpeaksForRun s agent scope;
  let own := default "" (claimOfRun (steps_of m (S_RunID s))) in
  if simulatedRun (steps_of m (S_RunID s)) then judgeClaim ref own false
  else
    let heldElsewhere :=
      existsb (fun '(id, steps) => negb (String.eqb id (S_RunID s)) && holds_for agent ref steps)
        (map_to_list (m_runs m)) in
    judgeClaim ref own heldElsewhere.

(** workitem_origin.go *)
Definition judge_inheritance (s : Step) (opening : bool) : result WorkItemError unit :=
  match unmarshal_payload s zeroRunStartedPayload d_RunStartedPayload with
  | None => Ok tt
  | Some started =>
      match RS_WorkItem started with
      | None => Ok tt
      | Some item =>
          _ ← RunWorkItem_Validate item;
          if negb opening then Err ErrRunWorkItemInvalid
          else if String.eqb (S_AgentID s) "" then Err ErrRunWorkItemInvalid
          else Ok tt
      end
  end.

(** ** Work-item links (workitem_link.go, workitem_alias_memory.go) *)

Definition decodeLink (s : Step) (seq : Z) : result WorkItemError WorkItemLinkedPayload :=
  match unmarshal_payload s zeroWorkItemLinkedPayload d_WorkItemLinkedPayload with
  | None => Err ErrWorkItemLinkInvalid
  | Some p =>
      _ ← WorkItemLinkedPayload_Validate p;
      if (seq <=? WP_Seq (WL_Proof p))%Z then Err ErrWorkItemLinkInvalid else Ok p
  end.

Definition linkRootHeld (p : WorkItemLinkedPayload) (held : WorkItemRef)
    : result WorkItemError unit :=
  if String.eqb held "" then Err ErrWorkItemLinkUnclaimed
  else if negb (String.eqb held (WL_Root p)) then Err ErrWorkItemLinkUnclaimed
  else Ok tt.

Definition memoryStepAt (steps : list Step) (seq : Z) : option Step :=
  if (seq <? FirstSeq)%Z || (Z.of_nat (List.length steps) <? seq)%Z then None
  else nth_error steps (Z.to_nat (seq - FirstSeq)).

Definition judgeLinkProof (p : WorkItemLinkedPayload) (read : Z -> option Step)
    : result WorkItemError unit :=
  match read (WP_Seq (WL_Proof p)) with
  | None => Err ErrWorkItemLinkUnproven
  | Some proof =>
      if negb (String.eqb (S_Kind proof) (WP_Kind (WL_Proof p))) then Err ErrWorkItemLinkUnproven
      else if String.eqb (S_Kind proof) StepToolReturned then
        match unmarshal_payload proof zeroToolReturnedPayload d_ToolReturnedPayload with
        | None => Err ErrWorkItemLinkUnproven
        | Some returned => JudgeTrustedPullRequestProof returned (WL_Alias p)
        end
      else
        match unmarshal_payload proof zeroApprovalDecidedPayload d_ApprovalDecidedPayload with
        | None => Err ErrWorkItemLinkUnproven
        | Some decided =>
            let requested :=
              if (FirstSeq <=? AD_AtSeq decided)%Z && (AD_AtSeq decided <? S_Seq proof)%Z then
                match read (AD_AtSeq decided) with
                | Some request =>
                    if String.eqb (S_Kind request) StepApprovalRequested
                    then fst (unmarshal_into zeroApprovalRequestedPayload
                                d_ApprovalRequestedPayload (S_Payload request))
                    else zeroApprovalRequestedPayload
                | None => zeroApprovalRequestedPayload
                end
              else zeroApprovalRequestedPayload in
            JudgeApprovalProof decided requested (S_Seq proof) (WL_Alias p)
        end
  end.

(** Every link of every real run: its company, alias and root. The source keeps
    the first per company and alias in its map's order; reading one alias here
    takes the first of the same list. *)
Definition links_of (steps : list Step) : list (CompanyID * WorkItemRef * WorkItemRef) :=
  if simulatedRun steps then []
  else
    let company := Company (ri_Scope (identityOf steps)) in
    flat_map (fun st =>
      if negb (String.eqb (S_Kind st) StepWorkItemLinked) then []
      else match unmarshal_payload st zeroWorkItemLinkedPayload d_WorkItemLinkedPayload with
           | Some p => [(company, WL_Alias p, WL_Root p)]
           | None => []
           end) steps.

Definition aliasRows (m : Memory) : list (CompanyID * WorkItemRef * WorkItemRef) :=
  flat_map (fun '(_, steps) => links_of steps) (map_to_list (m_runs m)).

(** [links.root[ref]] of one company: the root, or the empty string. *)
Definition alias_root (rows : list (CompanyID * WorkItemRef * WorkItemRef))
    (company : CompanyID) (ref : WorkItemRef) : WorkItemRef :=
  match List.find (fun '(c, a, _) => String.eqb c company && String.eqb a ref) rows with
  | Some (_, _, root) => root
  | None => ""
  end.

(** The rows the source keeps: the first per company and alias. *)
Fixpoint first_rows (seen : list (CompanyID * WorkItemRef))
    (rows : list (CompanyID * WorkItemRef * WorkItemRef))
    : list (CompanyID * WorkItemRef * WorkItemRef) :=
  match rows with
  | [] => []
  | (c, a, r) :: rest =>
      if bool_decide ((c, a) ∈ seen) then first_rows seen rest
      else (c, a, r) :: first_rows ((c, a) :: seen) rest
  end.

Definition has_aliases (rows : list (CompanyID * WorkItemRef * WorkItemRef))
    (company : CompanyID) (ref : WorkItemRef) : bool :=
  existsb (fun '(c, _, r) => String.eqb c company && String.eqb r ref) (first_rows [] rows).

Definition judgeWorkItemLink (m : Memory) (s : Step) : result WorkItemError unit :=
  let steps := steps_of m (S_RunID s) in
  p ← decodeLink s (Z.of_nat (List.length steps) + FirstSeq);
  '(agent, scope) ← match startedIdentity steps with
                    | Ok who => Ok who
                    | Err _ => Err ErrWorkItemLinkInvalid
                    end;
  _ ← linkSpeaksForRun s agent scope;
  _ ← linkRootHeld p (default "" (claimOfRun steps));
  _ ← judgeLinkProof p (memoryStepAt steps);
  if simulatedRun steps then Ok tt
  else
    let rows := aliasRows m in
    JudgeAlias p (alias_root rows (Company scope) (WL_Alias p))
      (has_aliases rows (Company scope) (WL_Alias p))
      (negb (String.eqb (alias_root rows (Company scope) (WL_Root p)) "")).

Definition judgeWorkItem (m : Memory) (s : Step) : result WorkItemError unit :=
  if String.eqb (S_Kind s) StepWorkItemLinked then judgeWorkItemLink m s
  else if String.eqb (S_Kind s) StepRunStarted
       then judge_inheritance s (Nat.eqb (List.length (steps_of m (S_RunID s))) 0)
  else if negb (String.eqb (S_Kind s) StepWorkItemClaimed) then Ok tt
  else judge_claim_step m s.

(** ** Appending (memory.go) *)

Definition lift_err {E A} (f : E -> LedgerError) (r : result E A) : result LedgerError A :=
  match r with Ok a => Ok a | Err e => Err (f e) end.

(** What the store keeps of a sealed step. *)
Definition store_step (m : Memory) (sealed : Step) : Memory :=
  let run := S_RunID sealed in
  let m := m <| m_runs := <[run := (steps_of m run ++ [sealed])%list]> (m_runs m) |> in
  let m := if String.eqb (S_Kind sealed) StepRunFinished then
             let n := ((m_finishSeq m + 1) mod 2 ^ 64)%Z in
             m <| m_finishSeq := n |> <| m_finishOrder := <[run := n]> (m_finishOrder m) |>
           else m in
  let m := if negb (String.eqb (S_IdemKey sealed) "")
           then m <| m_idems := {[S_IdemKey sealed]} ∪ m_idems m |> else m in
  if negb (String.eqb (S_Kind sealed) StepParked) &&
     negb (String.eqb (S_Kind sealed) StepEffectReconciled)
  then m <| m_lastFailure := delete run (m_lastFailure m) |>
         <| m_lastFailureAt := delete run (m_lastFailureAt m) |>
  else m.

Definition append (m : Memory) (cancelled : bool) (now : Time) (epoch : option Z)
    (expect : option StepRef) (s : Step) : result LedgerError (Memory * Step) :=
  _ ← guard_err (negb cancelled) ErrContext;
  let prev := last_or None (steps_of m (S_RunID s)) in
  _ ← guard_err (match epoch with None => true | Some e => leaseHeld m now (S_RunID s) e end)
        ErrLeaseLost;
  _ ← headIs expect prev;
  _ ← guard_err (String.eqb (S_IdemKey s) "" || negb (bool_decide (S_IdemKey s ∈ m_idems m)))
        ErrIdemConflict;
  _ ← lift_err ErrWorkItem (judgeWorkItem m s);
  sealed ← lift_err ErrStep (NewStep prev s);
  mret (store_step m sealed, sealed).

Definition Append m cancelled now s := append m cancelled now None None s.
Definition AppendIfHead m cancelled now head s := append m cancelled now None (Some head) s.

Definition is_zero_ref (r : StepRef) : bool :=
  Z.eqb (Ref_Seq r) 0 && String.eqb (Ref_Kind r) "".

Definition AppendIfLeaseAndHead m cancelled now epoch head s :=
  append m cancelled now (Some epoch) (if is_zero_ref head then None else Some head) s.

Definition Fence (m : Memory) (cancelled : bool) (now : Time) (run : RunID) (epoch : Z)
    (head : StepRef) : result LedgerError unit :=
  _ ← guard_err (negb cancelled) ErrContext;
  _ ← guard_err (leaseHeld m now run epoch) ErrLeaseLost;
  if is_zero_ref head then Ok tt
  else headIs (Some head) (last_or None (steps_of m run)).

Definition Read (m : Memory) (cancelled : bool) (run : RunID) (fromSeq : Z)
    : result LedgerError (list Step) :=
  _ ← guard_err (negb cancelled) ErrContext;
  match m_runs m !! run with
  | None => Err ErrNotFound
  | Some steps =>
      if (fromSeq <=? FirstSeq)%Z then Ok steps
      else
        let idx := (fromSeq - FirstSeq)%Z in
        if (Z.of_nat (List.length steps) <=? idx)%Z then Ok []
        else Ok (skipn (Z.to_nat idx) steps)
  end.

Definition Head (m : Memory) (cancelled : bool) (run : RunID) : result LedgerError Step :=
  _ ← guard_err (negb cancelled) ErrContext;
  match last_or None (steps_of m run) with
  | None => Err ErrNotFound
  | Some s => Ok s
  end.

Definition Verify (m : Memory) (cancelled : bool) (run : RunID) : result LedgerError unit :=
  steps ← Read m cancelled run FirstSeq;
  match VerifyChain steps with None => Ok tt | Some e => Err (ErrStep e) end.

(** ** The queue (queue_memory.go, queue_postgres.go, queue_failure.go, domain/claim.go) *)

Definition claimablePhaseNames : list string := ["running"; "awaiting_tool"; "compensating"].
Definition claimable (phase : string) : bool := existsb (String.eqb phase) claimablePhaseNames.

Record Claim := MkClaim {
  Cl_RunID : RunID;
  Cl_Scope : Scope;
  Cl_AgentID : AgentID;
  Cl_VersionID : VersionID;
  Cl_OnBehalfOf : UserID;
  Cl_Phase : string;
  Cl_Attempts : Z;
  Cl_LeasedUntil : Time;
  Cl_Epoch : Z
}.

(** [CO_Err] is the failure's text; [None] is success. *)
Record ClaimOutcome := MkClaimOutcome {
  CO_Epoch : Z;
  CO_NextAttemptAt : Time;
  CO_Err : option string;
  CO_Failure : option FailureSummary;
  CO_Parked : bool
}.

Definition ClaimOutcome_Failed (o : ClaimOutcome) : bool := bool_decide (is_Some (CO_Err o)).
Definition ClaimOutcome_Reason (o : ClaimOutcome) : string := default "" (CO_Err o).

Definition outcomeReason (o : ClaimOutcome) : string :=
  match CO_Failure o with
  | Some f => if negb (String.eqb (FS_Code f) "") then FS_Code f else ClaimOutcome_Reason o
  | None => ClaimOutcome_Reason o
  end.

(** [slices.SortStableFunc] by the instant a run may be tried again. *)
Fixpoint insert_waiting (key : RunID -> Time) (x : RunID) (l : list RunID) : list RunID :=
  match l with
  | [] => [x]
  | y :: l' => if (key x <=? key y)%Z then x :: l else y :: insert_waiting key x l'
  end.

Definition sort_waiting (key : RunID -> Time) (l : list RunID) : list RunID :=
  fold_right (insert_waiting key) [] l.

(** The conditions a run passes to be handed out. *)
Definition eligible (m : Memory) (now : Time) (simulated : bool) (id : RunID) : bool :=
  let st := lease_of m id in
  let steps := steps_of m id in
  negb ((0 <? ls_parkedAt st)%Z && (Z.of_nat (List.length steps) <=? ls_parkedAt st)%Z) &&
  negb (Time_After (ls_nextAttemptAt st) now) &&
  negb (negb (Time_IsZero (ls_leasedUntil st)) && Time_After (ls_leasedUntil st) now) &&
  claimable (phaseOf steps) &&
  Bool.eqb (isSimulated steps) simulated.

Definition queue_order (m : Memory) : list RunID :=
  sort_waiting (fun id => ls_nextAttemptAt (lease_of m id))
    (sort_str (fst <$> map_to_list (m_runs m))).

(** What a claim writes, and what it hands the worker. *)
Definition take_lease (m : Memory) (now : Time) (lease : Duration) (owner : string) (id : RunID)
    : Memory * Claim :=
  let st := lease_of m id in
  let st := st <| ls_leasedUntil := Time_Add now lease |>
               <| ls_epoch := add64 (ls_epoch st) 1 |> in
  let steps := steps_of m id in
  let who := identityOf steps in
  (m <| m_leases := <[id := st]> (m_leases m) |> <| m_owners := <[id := owner]> (m_owners m) |>,
   MkClaim id (ri_Scope who) (ri_AgentID who) (ri_VersionID who) (ri_OnBehalfOf who)
     (phaseOf steps) (ls_attempts st) (ls_leasedUntil st) (ls_epoch st)).

Definition claim (m : Memory) (cancelled : bool) (now : Time) (owner : string) (lease : Duration)
    (simulated : bool) : result LedgerError (Memory * Claim) :=
  _ ← guard_err (negb cancelled) ErrContext;
  match List.find (eligible m now simulated) (queue_order m) with
  | Some id => Ok (take_lease m now lease owner id)
  | None => Err ErrNoClaimableRun
  end.

Definition Claim_ m cancelled now owner lease := claim m cancelled now owner lease false.
Definition claimSimulated m cancelled now owner lease := claim m cancelled now owner lease true.

Definition Renew (m : Memory) (cancelled : bool) (now : Time) (run : RunID) (epoch : Z)
    (lease : Duration) : result LedgerError Memory :=
  _ ← guard_err (negb cancelled) ErrContext;
  _ ← guard_err (leaseHeld m now run epoch) ErrLeaseLost;
  let st := lease_of m run in
  Ok (m <| m_leases := <[run := st <| ls_leasedUntil := Time_Add now lease |>]> (m_leases m) |>).

Definition released (m : Memory) (now : Time) (run : RunID) (o : ClaimOutcome) : leaseState :=
  let st := lease_of m run in
  MkLeaseState
    (if ClaimOutcome_Failed o then add64 (ls_attempts st) 1 else 0%Z)
    (if Time_IsZero (CO_NextAttemptAt o) then now else CO_NextAttemptAt o)
    (if CO_Parked o then Z.of_nat (List.length (steps_of m run)) else ls_parkedAt st)
    0 (ls_epoch st).

Definition Release (m : Memory) (cancelled : bool) (now : Time) (run : RunID) (o : ClaimOutcome)
    : result LedgerError Memory :=
  _ ← guard_err (negb cancelled) ErrContext;
  _ ← guard_err (leaseHeld m now run (CO_Epoch o)) ErrLeaseLost;
  let m' := m <| m_leases := <[run := released m now run o]> (m_leases m) |>
              <| m_owners := delete run (m_owners m) |>
              <| m_lastError := <[run := outcomeReason o]> (m_lastError m) |> in
  Ok match CO_Failure o with
     | Some f => m' <| m_lastFailure := <[run := f]> (m_lastFailure m) |>
                    <| m_lastFailureAt := <[run := now]> (m_lastFailureAt m) |>
     | None => m' <| m_lastFailure := delete run (m_lastFailure m) |>
                  <| m_lastFailureAt := delete run (m_lastFailureAt m) |>
     end.

(** ** The store as a transition system

    One constructor per operation that writes; an operation that fails leaves
    the store as it was. *)

Inductive op :=
| OpAppend (epoch : option Z) (expect : option StepRef) (s : Step)
| OpClaim (owner : string) (lease : Duration) (simulated : bool)
| OpRenew (run : RunID) (epoch : Z) (lease : Duration)
| OpRelease (run : RunID) (o : ClaimOutcome).

Inductive mem_step (m : Memory) (now : Time) : op -> Memory -> Prop :=
| step_append epoch expect s m' sealed :
    append m false now epoch expect s = Ok (m', sealed) ->
    mem_step m now (OpAppend epoch expect s) m'
| step_claim owner lease simulated m' c :
    claim m false now owner lease simulated = Ok (m', c) ->
    mem_step m now (OpClaim owner lease simulated) m'
| step_renew run epoch lease m' :
    Renew m false now run epoch lease = Ok m' ->
    mem_step m now (OpRenew run epoch lease) m'
| step_release run o m' :
    Release m false now run o = Ok m' ->
    mem_step m now (OpRelease run o) m'.

Inductive reachable : Memory -> Prop :=
| reach_new : reachable NewMemory
| reach_step m now o m' : reachable m -> mem_step m now o m' -> reachable m'.

(** A run of operations from one state to another, the operations in order. *)
Inductive mem_steps : Memory -> list op -> Memory -> Prop :=
| steps_nil m : mem_steps m [] m
| steps_cons m now o m1 os m' :
    mem_step m now o m1 -> mem_steps m1 os m' -> mem_steps m (o :: os) m'.
