(* ===== verification/LedgerSafety.v ===== *)
(** * What the ledger guarantees

    Theorems about src/internal/ledger: invariants of every state the store's
    operations can reach, first as what each operation does to the store, then
    as its promises over any history; and the fences that keep a worker who lost
    its run from writing to it. *)

From Stdlib Require Import ZArith Lia Ascii String Sorting.Sorted.
From stdpp Require Import base list strings gmap.
From S2P Require Import Prelude GoStrings Json Domain Sha256 Step Payload WorkItem State StateFacts Project Ledger.

Local Open Scope string_scope.

(** ** Inverting the operations *)

Lemma lift_err_Ok {E A} (f : E -> LedgerError) (r : result E A) a :
  lift_err f r = Ok a <-> r = Ok a.
Proof. destruct r; simpl; split; congruence. Qed.

Lemma append_Ok m cancelled now epoch expect s m' sealed :
  append m cancelled now epoch expect s = Ok (m', sealed) <->
  let prev := last_or None (steps_of m (S_RunID s)) in
  cancelled = false /\
  (forall e, epoch = Some e -> leaseHeld m now (S_RunID s) e = true) /\
  headIs expect prev = Ok tt /\
  (S_IdemKey s = "" \/ (S_IdemKey s ∉ m_idems m)) /\
  judgeWorkItem m s = Ok tt /\
  NewStep prev s = Ok sealed /\ m' = store_step m sealed.
Proof.
  unfold append. cbn zeta. split.
  - intros H. apply result_bind_Ok in H as ([] & Hc & H).
    apply result_bind_Ok in H as ([] & He & H). apply result_bind_Ok in H as ([] & Hh & H).
    apply result_bind_Ok in H as ([] & Hi & H). apply result_bind_Ok in H as ([] & Hj & H).
    apply result_bind_Ok in H as (x & Hs & H). injection H as <- <-.
    apply guard_err_Ok in Hc, He, Hi. apply lift_err_Ok in Hj. apply lift_err_Ok in Hs. bsimp.
    split; [done|]. split; [by intros e ->|]. tauto.
  - intros (-> & He & -> & Hi & -> & -> & ->). simpl.
    assert ((match epoch with None => true | Some e => leaseHeld m now (S_RunID s) e end) = true) as ->
      by (destruct epoch; auto). simpl.
    assert (String.eqb (S_IdemKey s) "" || negb (bool_decide (S_IdemKey s ∈ m_idems m)) = true) as ->
      by (bsimp; tauto). done.
Qed.

Lemma sealed_keeps prev s sealed :
  NewStep prev s = Ok sealed ->
  S_RunID sealed = S_RunID s /\ S_IdemKey sealed = S_IdemKey s /\ S_Kind sealed = S_Kind s /\
  S_Scope sealed = S_Scope s /\ S_AgentID sealed = S_AgentID s /\
  S_Payload sealed = CanonicalJSON (S_Payload s).
Proof. intros H. apply NewStep_sealed in H as [-> _]. done. Qed.

Lemma store_runs m sealed :
  m_runs (store_step m sealed) =
  <[S_RunID sealed := (steps_of m (S_RunID sealed) ++ [sealed])%list]> (m_runs m).
Proof. unfold store_step. cbn zeta. by repeat case_match. Qed.

Lemma store_idems m sealed :
  m_idems (store_step m sealed) =
  if String.eqb (S_IdemKey sealed) "" then m_idems m else {[S_IdemKey sealed]} ∪ m_idems m.
Proof. unfold store_step. cbn zeta. repeat case_match; bsimp; try done; congruence. Qed.

Lemma store_leases m sealed : m_leases (store_step m sealed) = m_leases m.
Proof. unfold store_step. cbn zeta. by repeat case_match. Qed.

Lemma claim_Ok m cancelled now owner lease simulated r :
  claim m cancelled now owner lease simulated = Ok r <->
  exists id, cancelled = false /\
    List.find (eligible m now simulated) (queue_order m) = Some id /\
    r = take_lease m now lease owner id.
Proof.
  unfold claim. rewrite result_bind_Ok. setoid_rewrite guard_err_Ok. split.
  - intros (_ & Hc & H). bsimp. destruct (List.find _ _) as [id|]; [|done].
    injection H as <-. eauto.
  - intros (id & -> & -> & ->). by exists tt.
Qed.

Lemma Renew_Ok m cancelled now run epoch lease m' :
  Renew m cancelled now run epoch lease = Ok m' ->
  leaseHeld m now run epoch = true /\
  m' = m <| m_leases :=
        <[run := (lease_of m run) <| ls_leasedUntil := Time_Add now lease |>]> (m_leases m) |>.
Proof.
  intros H. apply result_bind_Ok in H as ([] & _ & H).
  apply result_bind_Ok in H as ([] & Hl & H). apply guard_err_Ok in Hl. by injection H as <-.
Qed.

Lemma Release_Ok m cancelled now run o m' :
  Release m cancelled now run o = Ok m' ->
  leaseHeld m now run (CO_Epoch o) = true /\
  m' = let m1 := m <| m_leases := <[run := released m now run o]> (m_leases m) |>
                   <| m_owners := delete run (m_owners m) |>
                   <| m_lastError := <[run := outcomeReason o]> (m_lastError m) |> in
       match CO_Failure o with
       | Some f => m1 <| m_lastFailure := <[run := f]> (m_lastFailure m) |>
                      <| m_lastFailureAt := <[run := now]> (m_lastFailureAt m) |>
       | None => m1 <| m_lastFailure := delete run (m_lastFailure m) |>
                    <| m_lastFailureAt := delete run (m_lastFailureAt m) |>
       end.
Proof.
  intros H. apply result_bind_Ok in H as ([] & _ & H).
  apply result_bind_Ok in H as ([] & Hl & H). apply guard_err_Ok in Hl. injection H as <-.
  by destruct (CO_Failure o).
Qed.

(** Every operation but an append leaves the runs and the keys alone. *)
Lemma mem_step_runs m now o m' :
  mem_step m now o m' ->
  (m_runs m' = m_runs m /\ m_idems m' = m_idems m) \/
  exists epoch expect s sealed,
    o = OpAppend epoch expect s /\ append m false now epoch expect s = Ok (m', sealed).
Proof.
  destruct 1 as [? ? ? ? ? H|? ? ? ? ? H|? ? ? ? H|? ? ? H]; [right; eauto 10|left..].
  - apply claim_Ok in H as (id & _ & _ & H). unfold take_lease in H. by injection H as -> _.
  - by apply Renew_Ok in H as (_ & ->).
  - apply Release_Ok in H as (_ & ->). by case_match.
Qed.

Lemma steps_of_insert m run l r :
  default [] (<[run := l]> (m_runs m) !! r) = if decide (run = r) then l else steps_of m r.
Proof. case_decide; simplify_map_eq; done. Qed.

(** ** Chains *)

Definition chains_ok (m : Memory) : Prop :=
  forall run steps, m_runs m !! run = Some steps ->
    steps <> [] /\ VerifyChain steps = None /\ Forall (fun st => S_RunID st = run) steps.

Lemma chains_ok_of m run :
  chains_ok m -> VerifyChain (steps_of m run) = None /\
  Forall (fun st => S_RunID st = run) (steps_of m run).
Proof.
  intros H. unfold steps_of. destruct (m_runs m !! run) eqn:E; simpl; [|by split; [|constructor]].
  apply H in E. tauto.
Qed.

Lemma append_chains m cancelled now epoch expect s m' sealed :
  chains_ok m -> append m cancelled now epoch expect s = Ok (m', sealed) -> chains_ok m'.
Proof.
  intros Hm H. apply append_Ok in H as (_ & _ & _ & _ & _ & Hs & ->).
  destruct (sealed_keeps _ _ _ Hs) as (Er & _).
  intros run steps. rewrite store_runs, Er.
  intros [[<- <-]|[_ Hrun]]%lookup_insert_Some; [|by apply Hm].
  destruct (chains_ok_of m (S_RunID s) Hm) as [Hv Hf].
  split; [by destruct (steps_of m (S_RunID s))|]. split; [by eapply NewStep_extends|].
  apply List.Forall_app. auto.
Qed.

Lemma reachable_chains m : reachable m -> chains_ok m.
Proof.
  induction 1 as [|m now o m' _ IH Hs].
  { intros run steps H. unfold NewMemory in H. simpl in H. by rewrite lookup_empty in H. }
  apply mem_step_runs in Hs as [[Hr _]|(epoch & expect & s & sealed & _ & Ha)].
  - intros run steps H. rewrite Hr in H. by apply IH.
  - by eapply append_chains.
Qed.

(** ** Idempotency keys *)

(** Step [i] of run [run]. *)
Definition step_at (m : Memory) (run : RunID) (i : nat) (st : Step) : Prop :=
  exists steps, m_runs m !! run = Some steps /\ steps !! i = Some st.

Definition keys_ok (m : Memory) : Prop :=
  (forall run i st, step_at m run i st -> S_IdemKey st <> "" -> S_IdemKey st ∈ m_idems m) /\
  (forall r1 i1 s1 r2 i2 s2, step_at m r1 i1 s1 -> step_at m r2 i2 s2 ->
    S_IdemKey s1 <> "" -> S_IdemKey s1 = S_IdemKey s2 -> r1 = r2 /\ i1 = i2).

Lemma step_at_store m sealed run i st :
  step_at (store_step m sealed) run i st ->
  step_at m run i st \/
  (run = S_RunID sealed /\ i = List.length (steps_of m run) /\ st = sealed).
Proof.
  intros (steps & Hr & Hi). rewrite store_runs in Hr.
  apply lookup_insert_Some in Hr as [[<- <-]|[_ Hr]]; [|left; by exists steps].
  apply lookup_app_Some in Hi as [Hi|[Hle Hi]].
  - left. unfold steps_of in Hi. destruct (m_runs m !! S_RunID sealed) eqn:E; [|done].
    by eexists.
  - right. destruct (i - List.length (steps_of m (S_RunID sealed)))%nat eqn:Ei; [|done].
    simpl in Hi. injection Hi as <-. repeat split; lia.
Qed.

Lemma append_keys m cancelled now epoch expect s m' sealed :
  keys_ok m -> append m cancelled now epoch expect s = Ok (m', sealed) -> keys_ok m'.
Proof.
  intros [Hin Huniq] H. apply append_Ok in H as (_ & _ & _ & Hk & _ & Hs & ->).
  destruct (sealed_keeps _ _ _ Hs) as (_ & Ek & _). rewrite <- Ek in Hk.
  assert (forall run i st, step_at m run i st -> S_IdemKey st <> "" ->
            S_IdemKey st <> S_IdemKey sealed) as Hnew.
  { intros run i st Hat Hne E. destruct Hk as [Hk|Hk]; [congruence|].
    apply Hk. rewrite <- E. by eapply Hin. }
  split.
  - intros run i st Hat Hne. rewrite store_idems.
    apply step_at_store in Hat as [Hat|(_ & _ & ->)].
    + specialize (Hin _ _ _ Hat Hne). case_match; set_solver.
    + apply String.eqb_neq in Hne. rewrite Hne. set_solver.
  - intros r1 i1 s1 r2 i2 s2 H1 H2 Hne E.
    apply step_at_store in H1 as [H1|(-> & -> & ->)], H2 as [H2|(-> & -> & ->)].
    + by eapply Huniq.
    + by destruct (Hnew _ _ _ H1 Hne).
    + rewrite E in Hne. by destruct (Hnew _ _ _ H2 Hne).
    + done.
Qed.

Lemma reachable_keys m : reachable m -> keys_ok m.
Proof.
  induction 1 as [|m now o m' _ IH Hs].
  { split; intros * (steps & Hr & _); unfold NewMemory in Hr; simpl in Hr; by rewrite lookup_empty in Hr. }
  apply mem_step_runs in Hs as [[Hr Hk]|(epoch & expect & s & sealed & _ & Ha)].
  - unfold keys_ok, step_at. rewrite Hr, Hk. exact IH.
  - by eapply append_keys.
Qed.

(** ** Nothing recorded is lost *)

Lemma mem_step_prefix m now o m' run steps :
  mem_step m now o m' -> m_runs m !! run = Some steps ->
  exists more, m_runs m' !! run = Some (steps ++ more)%list.
Proof.
  intros H Hr. apply mem_step_runs in H as [[-> _]|(epoch & expect & s & sealed & _ & Ha)].
  - exists []. by rewrite app_nil_r.
  - apply append_Ok in Ha as (_ & _ & _ & _ & _ & Hs & ->).
    rewrite store_runs. destruct (decide (S_RunID sealed = run)) as [<-|Hne].
    + exists [sealed]. rewrite lookup_insert_eq. unfold steps_of. by rewrite Hr.
    + exists []. rewrite lookup_insert_ne, app_nil_r by done. done.
Qed.

Lemma mem_steps_prefix m os m' run steps :
  mem_steps m os m' -> m_runs m !! run = Some steps ->
  exists more, m_runs m' !! run = Some (steps ++ more)%list.
Proof.
  intros H. revert steps. induction H as [m|m now o m1 os m' Hs Hss IH]; intros steps Hr.
  - exists []. by rewrite app_nil_r.
  - destruct (mem_step_prefix _ _ _ _ _ _ Hs Hr) as (a & Ha).
    destruct (IH _ Ha) as (b & Hb). exists (a ++ b)%list. by rewrite app_assoc.
Qed.

(** ** Leases *)

Definition epoch_of (m : Memory) (run : RunID) : Z := ls_epoch (lease_of m run).

Lemma lease_of_insert m run st m' :
  m_leases m' = <[run := st]> (m_leases m) ->
  forall r, lease_of m' r = if decide (run = r) then st else lease_of m r.
Proof. intros E r. unfold lease_of. rewrite E. case_decide; simplify_map_eq; done. Qed.

Lemma mem_step_epoch m now o m' run :
  mem_step m now o m' ->
  epoch_of m' run = epoch_of m run \/ epoch_of m' run = add64 (epoch_of m run) 1.
Proof.
  unfold epoch_of. destruct 1 as [? ? ? ? ? H|? ? ? ? ? H|? ? ? ? H|? ? ? H].
  - apply append_Ok in H as (_ & _ & _ & _ & _ & _ & ->). left. unfold lease_of.
    by rewrite store_leases.
  - apply claim_Ok in H as (id & _ & _ & H). unfold take_lease in H. injection H as -> _.
    erewrite lease_of_insert by reflexivity. case_decide; subst; auto.
  - apply Renew_Ok in H as (_ & ->). erewrite lease_of_insert by reflexivity.
    case_decide; subst; auto.
  - apply Release_Ok in H as (_ & ->). left.
    erewrite lease_of_insert by (case_match; reflexivity). case_decide; subst; auto.
Qed.

Lemma mem_steps_epoch m os m' run :
  mem_steps m os m' -> (0 <= epoch_of m run)%Z ->
  (epoch_of m run + Z.of_nat (List.length os) < 2 ^ 63)%Z ->
  (epoch_of m run <= epoch_of m' run)%Z.
Proof.
  induction 1 as [m|m now o m1 os m' Hs Hss IH]; intros H0 Hn; [lia|].
  simpl in Hn. apply (mem_step_epoch _ _ _ _ run) in Hs as [Hs|Hs].
  - rewrite Hs in IH. apply IH; lia.
  - unfold add64 in Hs. rewrite wrap64_id in Hs by (apply in_int64_spec; lia).
    rewrite Hs in IH. specialize (IH ltac:(lia) ltac:(lia)). lia.
Qed.

Lemma not_held_refused m now run e :
  leaseHeld m now run e = false ->
  (forall expect s, S_RunID s = run -> append m false now (Some e) expect s = Err ErrLeaseLost) /\
  (forall lease, Renew m false now run e lease = Err ErrLeaseLost) /\
  (forall o, CO_Epoch o = e -> Release m false now run o = Err ErrLeaseLost) /\
  (forall head, Fence m false now run e head = Err ErrLeaseLost).
Proof.
  intros H. repeat split.
  - intros expect s <-. unfold append. by rewrite H.
  - intros lease. unfold Renew. by rewrite H.
  - intros o <-. unfold Release. by rewrite H.
  - intros head. unfold Fence. by rewrite H.
Qed.

Lemma not_held_stale m now run e : epoch_of m run <> e -> leaseHeld m now run e = false.
Proof. unfold leaseHeld, epoch_of. intros H. apply Z.eqb_neq in H. cbn zeta. by rewrite H. Qed.

(** ** The order the queue hands runs out in *)

Lemma insert_waiting_In key x l y : In y (insert_waiting key x l) <-> y = x \/ In y l.
Proof.
  induction l as [|z l IH]; simpl; [naive_solver|]. case_match; simpl; [naive_solver|].
  rewrite IH. naive_solver.
Qed.

Lemma sort_waiting_In key l y : In y (sort_waiting key l) <-> In y l.
Proof.
  induction l as [|x l IH]; simpl; [done|]. rewrite insert_waiting_In, IH. naive_solver.
Qed.

Definition waits_less (key : RunID -> Time) (a b : RunID) : Prop := (key a <= key b)%Z.

Lemma insert_waiting_sorted key x l :
  StronglySorted (waits_less key) l -> StronglySorted (waits_less key) (insert_waiting key x l).
Proof.
  unfold waits_less. induction 1 as [|y l Hl IH Hy]; simpl; [repeat constructor|].
  destruct (Z.leb_spec (key x) (key y)) as [Hle|Hgt].
  - constructor; [by constructor|]. constructor; [done|].
    eapply List.Forall_impl; [|exact Hy]. simpl. lia.
  - constructor; [done|]. rewrite List.Forall_forall in *. intros z Hz.
    apply insert_waiting_In in Hz as [->|Hz]; [lia|auto].
Qed.

Lemma sort_waiting_sorted key l : StronglySorted (waits_less key) (sort_waiting key l).
Proof. induction l; simpl; [constructor|by apply insert_waiting_sorted]. Qed.

Lemma queue_order_In m id : In id (queue_order m) <-> is_Some (m_runs m !! id).
Proof.
  unfold queue_order. rewrite sort_waiting_In.
  rewrite (Permutation_in' eq_refl (sort_str_perm _)).
  rewrite <- list_elem_of_In, list_elem_of_fmap. split.
  - intros ([i l] & -> & H). apply elem_of_map_to_list in H. by eexists.
  - intros [l H]. exists (id, l). by rewrite elem_of_map_to_list.
Qed.

Lemma find_sorted_min {A} (R : A -> A -> Prop) (f : A -> bool) l x :
  StronglySorted R l -> List.find f l = Some x -> forall y, In y l -> f y = true -> y = x \/ R x y.
Proof.
  induction 1 as [|a l Hl IH Ha]; simpl; [done|]. destruct (f a) eqn:Ef.
  - intros [= <-] y [->|Hy] _; [by left|right]. rewrite List.Forall_forall in Ha. auto.
  - intros Hf y [->|Hy] Hfy; [congruence|by apply IH].
Qed.

(** ** Orderly use

    What the engine brings to an append: a payload already in canonical form,
    and no step that takes an ended run back to work. *)

Definition orderly (m : Memory) (o : op) : Prop :=
  match o with
  | OpAppend _ _ s =>
      CanonicalJSON (S_Payload s) = S_Payload s /\
      (terminalPhase (phaseOf (steps_of m (S_RunID s))) = true ->
       terminalPhase (default (phaseOf (steps_of m (S_RunID s))) (fst (projectPhase s))) = true)
  | _ => True
  end.

Inductive reachable_orderly : Memory -> Prop :=
| orderly_new : reachable_orderly NewMemory
| orderly_step m now o m' :
    reachable_orderly m -> orderly m o -> mem_step m now o m' -> reachable_orderly m'.

Lemma orderly_reachable m : reachable_orderly m -> reachable m.
Proof. induction 1; [constructor|by eapply reach_step]. Qed.

(** ** Claims *)

Definition holder (m : Memory) (agent : AgentID) (ref : WorkItemRef) (id : RunID) : Prop :=
  exists steps, m_runs m !! id = Some steps /\ holds_for agent ref steps = true.

Definition claims_ok (m : Memory) : Prop :=
  (forall id steps, m_runs m !! id = Some steps -> claimOfRun steps <> None ->
    ri_AgentID (identityOf steps) <> "") /\
  (forall agent ref id1 id2, holder m agent ref id1 -> holder m agent ref id2 -> id1 = id2).

Lemma claimOfRun_snoc steps x :
  claimOfRun (steps ++ [x]) =
  match claimOfRun steps with
  | Some ref => Some ref
  | None =>
      if String.eqb (S_Kind x) StepWorkItemClaimed
      then match claimedRef x with Ok ref => Some ref | Err _ => None end
      else None
  end.
Proof.
  induction steps as [|st steps IH]; simpl; [by repeat case_match|].
  destruct (String.eqb (S_Kind st) StepWorkItemClaimed); [|done].
  by destruct (claimedRef st).
Qed.

Lemma identityOf_snoc steps x : identityOf (steps ++ [x]) = identity_step (identityOf steps) x.
Proof. unfold identityOf. by rewrite fold_left_app. Qed.

Lemma agent_stays steps x :
  ri_AgentID (identityOf steps) <> "" ->
  ri_AgentID (identityOf (steps ++ [x])) = ri_AgentID (identityOf steps).
Proof.
  intros H. rewrite identityOf_snoc. simpl. unfold first_set. apply String.eqb_neq in H. by rewrite H.
Qed.

Lemma simulated_snoc steps x : steps <> [] -> simulatedRun (steps ++ [x]) = simulatedRun steps.
Proof. by destruct steps. Qed.

(** A step that makes no claim makes no holder. *)
Lemma holds_for_kept agent ref steps x :
  steps <> [] -> ri_AgentID (identityOf steps) <> "" ->
  (terminalPhase (phaseOf steps) = true -> terminalPhase (phaseOf (steps ++ [x])) = true) ->
  claimOfRun (steps ++ [x]) = claimOfRun steps ->
  holds_for agent ref (steps ++ [x]) = true -> holds_for agent ref steps = true.
Proof.
  intros Hne Ha Ht Hc. unfold holds_for. rewrite simulated_snoc, Hc, agent_stays by done.
  destruct (claimOfRun steps) as [c|]; [|done].
  destruct (terminalPhase (phaseOf steps)); [|].
  - rewrite Ht by done. simpl. by rewrite !andb_false_r.
  - rewrite !andb_true_iff. tauto.
Qed.

Lemma is_canonical_nonempty ref : is_canonical ref = true -> ref <> "".
Proof. intros H ->. vm_compute in H. discriminate H. Qed.

Lemma claimedRef_Ok s ref :
  claimedRef s = Ok ref -> S_AgentID s <> "" /\ is_canonical ref = true.
Proof.
  unfold claimedRef. destruct (String.eqb_spec (S_AgentID s) ""); [done|].
  destruct (unmarshal_payload s _ _) as [p|]; [|done].
  destruct (is_canonical (WC_Ref p)) eqn:E; [|done]. by intros [= <-].
Qed.

Lemma claimOfRun_nonempty steps ref : claimOfRun steps = Some ref -> ref <> "".
Proof.
  induction steps as [|st steps IH]; simpl; [done|]. case_match; [|done].
  destruct (claimedRef st) as [r|] eqn:E; [|done]. intros [= <-].
  apply claimedRef_Ok in E as [_ E]. by apply is_canonical_nonempty.
Qed.

Lemma judgeClaim_Ok ref own b :
  judgeClaim ref (default "" own) b = Ok tt -> (forall r, own = Some r -> r <> "") -> ref <> "" ->
  own = Some ref \/ (own = None /\ b = false).
Proof.
  unfold judgeClaim. intros H Hown Hne. destruct own as [r|]; simpl in H.
  - left. destruct (String.eqb_spec r ref) as [->|]; [done|].
    specialize (Hown r eq_refl). apply String.eqb_neq in Hown. by rewrite Hown in H.
  - right. destruct ref; [done|]. simpl in H. destruct b; [discriminate H|by split].
Qed.

Lemma judge_claim_Ok m s :
  judge_claim_step m s = Ok tt ->
  let steps := steps_of m (S_RunID s) in
  let agent := ri_AgentID (identityOf steps) in
  exists ref, claimedRef s = Ok ref /\ steps <> [] /\ agent <> "" /\
    (claimOfRun steps = Some ref \/
     claimOfRun steps = None /\
     (simulatedRun steps = false ->
      forall id l, id <> S_RunID s -> m_runs m !! id = Some l -> holds_for agent ref l = false)).
Proof.
  unfold judge_claim_step. intros H. apply result_bind_Ok in H as (ref & Hr & H).
  apply result_bind_Ok in H as ([agent scope] & Hs & H).
  apply result_bind_Ok in H as ([] & Hsp & H). cbn zeta. exists ref. split; [done|].
  set (steps := steps_of m (S_RunID s)) in *.
  assert (steps <> [] /\ agent = ri_AgentID (identityOf steps)) as [Hne ->].
  { unfold startedIdentity in Hs. destruct steps; [done|]. destruct (negb _) in Hs; [done|].
    by injection Hs as <- <-. }
  destruct (claimedRef_Ok _ _ Hr) as [Ha Hcan]. apply is_canonical_nonempty in Hcan.
  unfold claimSpeaksForRun, speaksForRun in Hsp.
  destruct (String.eqb_spec (S_AgentID s) (ri_AgentID (identityOf steps))) as [Ea|]; [|done].
  split; [done|]. split; [congruence|].
  destruct (simulatedRun steps) eqn:Esim; apply judgeClaim_Ok in H as [H|[H Hb]];
    try (by left); try (by right); try done; try (by apply claimOfRun_nonempty).
  right. split; [done|]. intros _ id l Hid Hl. rewrite existsb_false in Hb.
  specialize (Hb (id, l)). simpl in Hb. apply String.eqb_neq in Hid. rewrite Hid in Hb.
  apply Hb. by rewrite <- list_elem_of_In, elem_of_map_to_list.
Qed.

(** A sealed step reads as its canonical draft. *)
Lemma sealed_reads prev s sealed :
  NewStep prev s = Ok sealed -> CanonicalJSON (S_Payload s) = S_Payload s ->
  claimedRef sealed = claimedRef s /\ fst (projectPhase sealed) = fst (projectPhase s) /\
  S_Payload sealed = S_Payload s.
Proof.
  intros H Hc. destruct (sealed_keeps _ _ _ H) as (_ & _ & Hk & _ & Ha & Hp). rewrite Hc in Hp.
  unfold claimedRef, projectPhase, unmarshal_payload. rewrite Ha, Hp, Hk.
  split; [done|]. split; [|done]. repeat (case_match; try done).
Qed.

(** The store after a step is appended to a run. *)
Section Appended.
Context (m : Memory) (run : RunID) (sealed : Step).
Context (Hrun : S_RunID sealed = run).
Let steps := steps_of m run.
Let m' := store_step m sealed.

Lemma appended_lookup id l :
  m_runs m' !! id = Some l ->
  (id = run /\ l = (steps ++ [sealed])%list) \/ (id <> run /\ m_runs m !! id = Some l).
Proof.
  unfold m'. rewrite store_runs, Hrun.
  intros [[<- <-]|[Hne H]]%lookup_insert_Some; [by left|right; auto].
Qed.

Lemma appended_old : steps <> [] -> m_runs m !! run = Some steps.
Proof. unfold steps, steps_of. by destruct (m_runs m !! run). Qed.

(** The run's claim did not change. *)
Lemma claims_kept :
  claims_ok m -> claimOfRun (steps ++ [sealed]) = claimOfRun steps ->
  (terminalPhase (phaseOf steps) = true -> terminalPhase (phaseOf (steps ++ [sealed])) = true) ->
  claims_ok m'.
Proof.
  intros [Hag Hun] Hkeep Hterm.
  assert (claimOfRun steps <> None -> steps <> []) as Hnil by (intros H ->; done).
  assert (claimOfRun steps <> None -> ri_AgentID (identityOf steps) <> "") as Hag'
    by (intros H; apply (Hag run); auto using appended_old).
  assert (forall agent ref id, holder m' agent ref id -> holder m agent ref id) as Hsub.
  { intros agent ref id (l & Hl & Hh). apply appended_lookup in Hl as [[-> ->]|[_ Hl]];
      [|by exists l].
    assert (claimOfRun steps <> None) as Hc.
    { intros E. unfold holds_for in Hh. rewrite Hkeep, E, andb_false_r in Hh. done. }
    exists steps. split; [by auto using appended_old|].
    eapply holds_for_kept; eauto. }
  split; [|eauto].
  intros id l Hl Hc. apply appended_lookup in Hl as [[-> ->]|[_ Hl]]; [|eauto].
  rewrite Hkeep in Hc. rewrite agent_stays; auto.
Qed.

(** The step is the run's first claim. *)
Lemma claims_made ref :
  claims_ok m -> claimedRef sealed = Ok ref -> claimOfRun steps = None -> steps <> [] ->
  ri_AgentID (identityOf steps) <> "" ->
  (simulatedRun steps = false -> forall id l, id <> run -> m_runs m !! id = Some l ->
    holds_for (ri_AgentID (identityOf steps)) ref l = false) ->
  claims_ok m'.
Proof.
  intros [Hag Hun] Hr Hnone Hne Ha Hfree. split.
  - intros id l Hl Hc. apply appended_lookup in Hl as [[-> ->]|[_ Hl]]; [|eauto].
    by rewrite agent_stays.
  - assert (forall agent r, holds_for agent r (steps ++ [sealed]) = true ->
              simulatedRun steps = false /\ agent = ri_AgentID (identityOf steps) /\ r = ref) as Hnew.
    { intros agent r Hh. unfold holds_for in Hh.
      rewrite simulated_snoc, claimOfRun_snoc, Hnone, Hr, agent_stays in Hh by done.
      destruct (String.eqb (S_Kind sealed) StepWorkItemClaimed); [|by rewrite andb_false_r in Hh].
      bsimp. destruct_and!. auto. }
    intros agent r id1 id2 (l1 & H1 & Hh1) (l2 & H2 & Hh2).
    apply appended_lookup in H1 as [[-> ->]|[N1 H1]], H2 as [[-> ->]|[N2 H2]]; [done| | |].
    + destruct (Hnew _ _ Hh1) as (Hsim & -> & ->). by rewrite (Hfree Hsim _ _ N2 H2) in Hh2.
    + destruct (Hnew _ _ Hh2) as (Hsim & -> & ->). by rewrite (Hfree Hsim _ _ N1 H1) in Hh1.
    + apply (Hun agent r); [by exists l1|by exists l2].
Qed.
End Appended.

Lemma append_claims m now epoch expect s m' sealed :
  claims_ok m -> orderly m (OpAppend epoch expect s) ->
  append m false now epoch expect s = Ok (m', sealed) -> claims_ok m'.
Proof.
  intros Hcl [Hcan Hterm] H. apply append_Ok in H as (_ & _ & _ & _ & Hj & Hs & ->).
  destruct (sealed_keeps _ _ _ Hs) as (Er & _ & Ek & _).
  destruct (sealed_reads _ _ _ Hs Hcan) as (Ecl & Eph & _).
  set (steps := steps_of m (S_RunID s)) in *.
  assert (terminalPhase (phaseOf steps) = true -> terminalPhase (phaseOf (steps ++ [sealed])) = true)
    as Hterm' by (rewrite phaseOf_snoc, Eph; exact Hterm).
  (* either the run keeps the claim it had, or this step is its first *)
  assert (claimOfRun (steps ++ [sealed]) = claimOfRun steps \/
          (S_Kind s = StepWorkItemClaimed /\ claimOfRun steps = None)) as Hcases.
  { rewrite claimOfRun_snoc, Ek. destruct (claimOfRun steps); [by left|].
    destruct (String.eqb_spec (S_Kind s) StepWorkItemClaimed); [by right|by left]. }
  destruct Hcases as [Hkeep|[Hk Hnone]].
  - by apply (claims_kept m (S_RunID s)).
  - unfold judgeWorkItem in Hj. rewrite Hk in Hj. simpl in Hj.
    destruct (judge_claim_Ok _ _ Hj) as (ref & Hr & Hne & Ha & [Hc|[_ Hfree]]);
      [by unfold steps in Hnone; rewrite Hnone in Hc|].
    apply (claims_made m (S_RunID s) sealed Er ref); [done|by rewrite Ecl|done..].
Qed.

Lemma orderly_claims m : reachable_orderly m -> claims_ok m.
Proof.
  induction 1 as [|m now o m' _ IH Ho Hs].
  { split; [|intros * (steps & Hr & _)]; [intros * Hr|]; unfold NewMemory in Hr; simpl in Hr;
      by rewrite lookup_empty in Hr. }
  apply mem_step_runs in Hs as [[Hr _]|(epoch & expect & s & sealed & -> & Ha)].
  - unfold claims_ok, holder. by rewrite Hr.
  - by eapply append_claims.
Qed.

(** ** Links *)

Abbreviation row := (CompanyID * WorkItemRef * WorkItemRef)%type (only parsing).

Lemma aliasRows_In m (r : row) :
  In r (aliasRows m) <-> exists id steps, m_runs m !! id = Some steps /\ In r (links_of steps).
Proof.
  unfold aliasRows. rewrite in_flat_map. split.
  - intros ([id steps] & Hin & Hr). rewrite <- list_elem_of_In, elem_of_map_to_list in Hin. eauto.
  - intros (id & steps & Hr & Hin). exists (id, steps).
    by rewrite <- list_elem_of_In, elem_of_map_to_list.
Qed.

(** One alias has one root, no root is itself an alias, and no root is empty. *)
Definition rows_ok (rows : list row) : Prop :=
  (forall c a r1 r2, In (c, a, r1) rows -> In (c, a, r2) rows -> r1 = r2) /\
  (forall c a r r', In (c, a, r) rows -> ~ In (c, r, r') rows) /\
  (forall c a r, In (c, a, r) rows -> r <> "").

Lemma alias_root_spec rows c a :
  rows_ok rows ->
  (alias_root rows c a <> "" -> In (c, a, alias_root rows c a) rows) /\
  (forall r, In (c, a, r) rows -> alias_root rows c a = r).
Proof.
  intros (Hone & _ & _). unfold alias_root.
  destruct (List.find _ rows) as [[[c' a'] r']|] eqn:E.
  - apply find_some in E as [Hin E]. bsimp. destruct E as [-> ->]. split; [done|].
    intros r Hr. by apply (Hone c a).
  - split; [done|]. intros r Hr. exfalso.
    apply (find_none _ _ E) in Hr. simpl in Hr. by rewrite !String.eqb_refl in Hr.
Qed.

Lemma first_rows_covers seen rows c a r :
  In (c, a, r) rows -> (c, a) ∈ seen \/ exists r', In (c, a, r') (first_rows seen rows).
Proof.
  revert seen. induction rows as [|[[c0 a0] r0] rows IH]; intros seen; simpl; [done|].
  intros [[= -> -> ->]|Hin].
  - case_bool_decide; [by left|right]. exists r. by left.
  - case_bool_decide; [by apply IH|].
    destruct (IH ((c0, a0) :: seen) Hin) as [Hs|(r' & Hr')]; [|right; exists r'; by right].
    apply elem_of_cons in Hs as [[= -> ->]|Hs]; [|by left]. right. exists r0. by left.
Qed.

Lemma first_rows_sub seen rows x : In x (first_rows seen rows) -> In x rows.
Proof.
  revert seen. induction rows as [|[[c0 a0] r0] rows IH]; intros seen; simpl; [done|].
  case_bool_decide; simpl; [eauto|]. intros [->|Hin]; eauto.
Qed.

Lemma has_aliases_false rows c ref :
  rows_ok rows -> has_aliases rows c ref = false -> forall a, ~ In (c, a, ref) rows.
Proof.
  intros (Hone & _ & _) H a Hin. unfold has_aliases in H. rewrite existsb_false in H.
  destruct (first_rows_covers [] rows c a ref Hin) as [Hs|(r' & Hr')]; [set_solver|].
  pose proof (first_rows_sub _ _ _ Hr') as Hr.
  rewrite (Hone c a r' ref Hr Hin) in Hr'. specialize (H _ Hr'). simpl in H.
  by rewrite !String.eqb_refl in H.
Qed.

(** The rows after a link the store accepted. *)
Lemma rows_ok_link rows rows' c p :
  rows_ok rows -> (forall x, In x rows' <-> In x rows \/ x = (c, WL_Alias p, WL_Root p)) ->
  WL_Root p <> "" -> WL_Alias p <> WL_Root p ->
  JudgeAlias p (alias_root rows c (WL_Alias p)) (has_aliases rows c (WL_Alias p))
    (negb (String.eqb (alias_root rows c (WL_Root p)) "")) = Ok tt ->
  rows_ok rows'.
Proof.
  intros Hok Hrows Hr0 Hself HJ. pose proof Hok as (Hone & Hflat & Hne).
  destruct (alias_root_spec rows c (WL_Alias p) Hok) as [Ha Hau].
  destruct (alias_root_spec rows c (WL_Root p) Hok) as [_ Hru].
  unfold JudgeAlias in HJ.
  destruct (String.eqb_spec (alias_root rows c (WL_Alias p)) (WL_Root p)) as [E|E].
  { rewrite E in Ha. specialize (Ha Hr0).
    assert (forall x, In x rows' <-> In x rows) as Hsame
      by (intros x; rewrite Hrows; split; [intros [| ->]|]; auto).
    unfold rows_ok. setoid_rewrite Hsame. done. }
  destruct (String.eqb_spec (alias_root rows c (WL_Alias p)) "") as [E0|]; [|done].
  destruct (has_aliases rows c (WL_Alias p)) eqn:Eh; [done|].
  destruct (String.eqb_spec (alias_root rows c (WL_Root p)) "") as [E1|]; [|done].
  pose proof (has_aliases_false _ _ _ Hok Eh) as Hna. simpl in HJ.
  assert (forall r, ~ In (c, WL_Alias p, r) rows) as Hnew
    by (intros r Hr; apply (Hne _ _ _ Hr); rewrite <- (Hau r Hr); done).
  assert (forall r, ~ In (c, WL_Root p, r) rows) as Hroot
    by (intros r Hr; apply (Hne _ _ _ Hr); rewrite <- (Hru r Hr); done).
  split; [|split].
  - intros c1 a r1 r2. rewrite !Hrows. intros [H1|H1] [H2|H2]; simplify_eq; auto.
    + by apply (Hone c1 a).
    + by destruct (Hnew r1).
    + by destruct (Hnew r2).
  - intros c1 a r r'. rewrite !Hrows. intros [H1|H1] [H2|H2]; simplify_eq.
    + by apply (Hflat c1 a r r').
    + by apply (Hna a).
    + by apply (Hroot r').
  - intros c1 a r. rewrite Hrows. intros [H1|[= -> -> ->]]; [by apply (Hne c1 a)|done].
Qed.

Lemma company_stays steps x :
  steps <> [] -> Forall (fun st => Scope_Valid (S_Scope st) = true) steps ->
  Company (ri_Scope (identityOf (steps ++ [x]))) = Company (ri_Scope (identityOf steps)).
Proof.
  intros Hne Hv. rewrite identityOf_snoc. simpl. unfold first_set.
  assert (Company (ri_Scope (identityOf steps)) <> "") as Hc.
  { destruct steps as [|st steps]; [done|]. inversion Hv as [|? ? Hst _]; subst.
    unfold Scope_Valid in Hst. bsimp. destruct Hst as [Hst _].
    assert (forall l out, Company (ri_Scope out) <> "" ->
              Company (ri_Scope (fold_left identity_step l out)) <> "") as Hkeep.
    { induction l as [|y l IH]; intros out Ho; simpl; [done|]. apply IH. simpl. unfold first_set.
      apply String.eqb_neq in Ho as Ho'. by rewrite Ho'. }
    apply (Hkeep steps (identity_step (MkRunIdentity zeroScope "" "" "") st)). exact Hst. }
  apply String.eqb_neq in Hc. by rewrite Hc.
Qed.

Definition scopes_valid (m : Memory) : Prop :=
  forall id steps, m_runs m !! id = Some steps ->
    steps <> [] /\ Forall (fun st => Scope_Valid (S_Scope st) = true) steps.

Lemma append_scopes m now epoch expect s m' sealed :
  scopes_valid m -> append m false now epoch expect s = Ok (m', sealed) -> scopes_valid m'.
Proof.
  intros Hm H. apply append_Ok in H as (_ & _ & _ & _ & _ & Hs & ->).
  intros id l Hl. apply (appended_lookup m (S_RunID sealed) sealed eq_refl) in Hl
    as [[-> ->]|[_ Hl]]; [|by apply Hm in Hl].
  split; [by destruct (steps_of m (S_RunID sealed))|]. apply List.Forall_app. split.
  - unfold steps_of. destruct (m_runs m !! S_RunID sealed) eqn:E; simpl; [|constructor].
    apply Hm in E. tauto.
  - constructor; [|constructor]. apply NewStep_sealed in Hs as (-> & _ & _ & _ & Hv). exact Hv.
Qed.

Lemma links_of_snoc steps x :
  steps <> [] -> Forall (fun st => Scope_Valid (S_Scope st) = true) steps ->
  links_of (steps ++ [x]) =
  (links_of steps ++
   (if simulatedRun steps || negb (String.eqb (S_Kind x) StepWorkItemLinked) then []
    else match unmarshal_payload x zeroWorkItemLinkedPayload d_WorkItemLinkedPayload with
         | Some p => [(Company (ri_Scope (identityOf steps)), WL_Alias p, WL_Root p)]
         | None => []
         end))%list.
Proof.
  intros Hne Hv. unfold links_of. rewrite simulated_snoc, company_stays by done.
  destruct (simulatedRun steps); simpl; [done|]. rewrite flat_map_app. simpl.
  by rewrite app_nil_r.
Qed.

Lemma judge_link_Ok m s :
  judgeWorkItemLink m s = Ok tt ->
  let steps := steps_of m (S_RunID s) in
  let company := Company (ri_Scope (identityOf steps)) in
  steps <> [] /\
  exists p, unmarshal_payload s zeroWorkItemLinkedPayload d_WorkItemLinkedPayload = Some p /\
    WorkItemLinkedPayload_Validate p = Ok tt /\ claimOfRun steps = Some (WL_Root p) /\
    judgeLinkProof p (memoryStepAt steps) = Ok tt /\
    (simulatedRun steps = false ->
     JudgeAlias p (alias_root (aliasRows m) company (WL_Alias p))
       (has_aliases (aliasRows m) company (WL_Alias p))
       (negb (String.eqb (alias_root (aliasRows m) company (WL_Root p)) "")) = Ok tt).
Proof.
  unfold judgeWorkItemLink. intros H. apply result_bind_Ok in H as (p & Hp & H).
  apply result_bind_Ok in H as ([agent scope] & Hs & H).
  apply result_bind_Ok in H as ([] & _ & H). apply result_bind_Ok in H as ([] & Hroot & H).
  apply result_bind_Ok in H as ([] & Hproof & H). cbn zeta.
  set (steps := steps_of m (S_RunID s)) in *.
  assert (steps <> [] /\ scope = ri_Scope (identityOf steps)) as [Hne ->].
  { unfold startedIdentity in Hs. destruct steps; [done|]. destruct (negb _) in Hs; [done|].
    by injection Hs as <- <-. }
  split; [done|]. exists p. unfold decodeLink in Hp.
  destruct (unmarshal_payload s _ _) as [p'|]; [|done].
  apply result_bind_Ok in Hp as ([] & Hv & Hp). destruct (_ <=? _)%Z; [done|]. injection Hp as ->.
  split; [done|]. split; [done|]. split.
  { unfold linkRootHeld in Hroot. destruct (claimOfRun steps) as [c|]; [|done]. simpl in Hroot.
    destruct (String.eqb c ""); [done|].
    destruct (String.eqb_spec c (WL_Root p)) as [Ec|]; [by rewrite Ec|done]. }
  split; [done|]. intros Hsim. by rewrite Hsim in H.
Qed.

Lemma validated_link p :
  WorkItemLinkedPayload_Validate p = Ok tt -> WL_Root p <> "" /\ WL_Alias p <> WL_Root p.
Proof.
  unfold WorkItemLinkedPayload_Validate. intros H. apply result_bind_Ok in H as (a & _ & H).
  apply result_bind_Ok in H as (b & Hb & H).
  destruct (String.eqb_spec (WL_Alias p) (WL_Root p)); [done|]. split; [|done].
  unfold linkSide in Hb. destruct (is_canonical (WL_Root p)) eqn:E; [|done].
  by apply is_canonical_nonempty.
Qed.

Lemma rows_split m run (x : row) :
  In x (aliasRows m) <->
  (exists id l, id <> run /\ m_runs m !! id = Some l /\ In x (links_of l)) \/
  In x (links_of (steps_of m run)).
Proof.
  rewrite aliasRows_In. split.
  - intros (id & l & Hl & Hx). destruct (decide (id = run)) as [->|Hne]; [right|left; eauto].
    unfold steps_of. by rewrite Hl.
  - intros [(id & l & _ & Hl & Hx)|Hx]; [eauto|]. unfold steps_of in Hx.
    destruct (m_runs m !! run) as [l|] eqn:E; [eauto|done].
Qed.

Lemma rows_after m sealed (x : row) :
  In x (aliasRows (store_step m sealed)) <->
  (exists id l, id <> S_RunID sealed /\ m_runs m !! id = Some l /\ In x (links_of l)) \/
  In x (links_of (steps_of m (S_RunID sealed) ++ [sealed])).
Proof.
  rewrite (rows_split _ (S_RunID sealed)). unfold steps_of at 1. rewrite store_runs, lookup_insert_eq.
  simpl. split; (intros [(id & l & Hid & Hl & Hx)|Hx]; [left|by right]); exists id, l;
    rewrite lookup_insert_ne in * by done; auto.
Qed.

Lemma append_rows m now epoch expect s m' sealed :
  scopes_valid m -> rows_ok (aliasRows m) -> orderly m (OpAppend epoch expect s) ->
  append m false now epoch expect s = Ok (m', sealed) -> rows_ok (aliasRows m').
Proof.
  intros Hv Hok [Hcan _] H. apply append_Ok in H as (_ & _ & _ & _ & Hj & Hs & ->).
  destruct (sealed_keeps _ _ _ Hs) as (Er & _ & Ek & _ & _ & Ep). rewrite Hcan in Ep.
  destruct (decide (links_of (steps_of m (S_RunID s) ++ [sealed]) =
                    links_of (steps_of m (S_RunID s)))) as [E|E].
  { assert (forall x, In x (aliasRows (store_step m sealed)) <-> In x (aliasRows m)) as Hsame
      by (intros x; rewrite rows_after, (rows_split m (S_RunID sealed)), Er, E; done).
    unfold rows_ok. setoid_rewrite Hsame. done. }
  destruct (String.eqb_spec (S_Kind s) StepWorkItemLinked) as [Hk|Hk].
  - unfold judgeWorkItem in Hj. rewrite Hk in Hj. simpl in Hj.
    destruct (judge_link_Ok _ _ Hj) as (Hne & p & Hp & Hval & _ & _ & HJ).
    assert (Forall (fun st => Scope_Valid (S_Scope st) = true) (steps_of m (S_RunID s))) as Hsc.
    { apply (Hv (S_RunID s)). by apply appended_old. }
    pose proof (links_of_snoc (steps_of m (S_RunID s)) sealed Hne Hsc) as Hl.
    rewrite Ek, Hk in Hl. unfold unmarshal_payload in Hp, Hl. rewrite Ep, Hp in Hl.
    destruct (simulatedRun (steps_of m (S_RunID s))) eqn:Esim; simpl in Hl;
      [by rewrite app_nil_r in Hl|].
    destruct (validated_link p Hval) as [Hr0 Hself].
    eapply (rows_ok_link (aliasRows m)); [done| |done|done|by apply HJ].
    intros x. rewrite rows_after, (rows_split m (S_RunID sealed)), Er, Hl, in_app_iff. simpl.
    intuition.
  - exfalso. apply E. destruct (decide (steps_of m (S_RunID s) = [])) as [E0|Hne].
    + rewrite E0. simpl. unfold links_of. simpl. rewrite Ek. apply String.eqb_neq in Hk.
      rewrite Hk. by repeat case_match.
    + rewrite links_of_snoc; [|done|].
      * rewrite Ek. apply String.eqb_neq in Hk. by rewrite Hk, orb_true_r, app_nil_r.
      * apply (Hv (S_RunID s)). by apply appended_old.
Qed.

Lemma orderly_rows m : reachable_orderly m -> scopes_valid m /\ rows_ok (aliasRows m).
Proof.
  induction 1 as [|m now o m' _ [IHv IHr] Ho Hs].
  { split; [intros id l H; unfold NewMemory in H; simpl in H; by rewrite lookup_empty in H|].
    split; [|split]; done. }
  apply mem_step_runs in Hs as [[Hr _]|(epoch & expect & s & sealed & -> & Ha)].
  - unfold scopes_valid, aliasRows. by rewrite Hr.
  - split; [by eapply append_scopes|by eapply append_rows].
Qed.

(** * The ledger's promises

    The properties of src/internal/ledger a run depends on: a chain that always
    verifies, keys recorded once, a history that is only added to, fences a
    stale worker cannot cross, and cards one open run holds at a time. *)

(** ** Properties *)

(** C17. Whatever appends, claims, renewals and releases have happened, in any
    order, verifying a run's chain succeeds if the store holds the run. *)
Theorem every_stored_chain_verifies m run :
  reachable m ->
  match m_runs m !! run with
  | Some steps => Verify m false run = Ok tt /\ Forall (fun st => S_RunID st = run) steps
  | None => Verify m false run = Err ErrNotFound
  end.
Proof.
  intros H. apply reachable_chains in H. unfold Verify, Read. simpl.
  destruct (m_runs m !! run) as [steps|] eqn:E; [|done].
  apply H in E as (_ & Hv & Hf). simpl. by rewrite Hv.
Qed.

(** An idempotency key is on the record once: two steps of any runs that
    carry the same key are the same step, so no retry, resume or second worker
    records an effect twice. *)
Theorem idempotency_keys_are_unique m r1 i1 s1 r2 i2 s2 :
  reachable m -> step_at m r1 i1 s1 -> step_at m r2 i2 s2 ->
  S_IdemKey s1 <> "" -> S_IdemKey s1 = S_IdemKey s2 -> r1 = r2 /\ i1 = i2 /\ s1 = s2.
Proof.
  intros H H1 H2 Hne E. destruct (proj2 (reachable_keys m H) _ _ _ _ _ _ H1 H2 Hne E) as [-> ->].
  destruct H1 as (l1 & L1 & S1), H2 as (l2 & L2 & S2). repeat split; congruence.
Qed.

(** The ledger is append-only: through any sequence of operations the steps
    a run had remain, unchanged and in place, as the beginning of its chain. *)
Theorem history_is_only_added_to m os m' run steps :
  mem_steps m os m' -> m_runs m !! run = Some steps ->
  exists more, m_runs m' !! run = Some (steps ++ more)%list.
Proof. apply mem_steps_prefix. Qed.

(** A worker fenced out stays out: once a run's epoch has passed the one a
    worker holds, then after any further operations, at any time, its appends,
    renewals, releases and fence checks for that run are all refused as a lost
    lease. *)
Theorem stale_worker_is_fenced m os m' run e now :
  mem_steps m os m' -> (e < epoch_of m run)%Z -> (0 <= epoch_of m run)%Z ->
  (epoch_of m run + Z.of_nat (List.length os) < 2 ^ 63)%Z ->
  (forall expect s, S_RunID s = run -> append m' false now (Some e) expect s = Err ErrLeaseLost) /\
  (forall lease, Renew m' false now run e lease = Err ErrLeaseLost) /\
  (forall o, CO_Epoch o = e -> Release m' false now run o = Err ErrLeaseLost) /\
  (forall head, Fence m' false now run e head = Err ErrLeaseLost).
Proof.
  intros H He H0 Hn. apply not_held_refused, not_held_stale.
  pose proof (mem_steps_epoch m os m' run H H0 Hn). lia.
Qed.

(** A claim is exclusive: the run it hands out had no live lease, is in a
    phase a worker may take, and belongs to the half of the queue asked for;
    afterwards the claim's epoch is the only one that holds the run, until its
    lease runs out. *)
Theorem claimed_run_is_exclusive m now owner lease simulated m' c e t :
  claim m false now owner lease simulated = Ok (m', c) -> (now + lease <> 0)%Z ->
  leaseHeld m now (Cl_RunID c) e = false /\ claimable (Cl_Phase c) = true /\
  isSimulated (steps_of m (Cl_RunID c)) = simulated /\
  leaseHeld m' t (Cl_RunID c) e = Z.eqb (Cl_Epoch c) e && (t <? Cl_LeasedUntil c)%Z.
Proof.
  intros H Hz. apply claim_Ok in H as (id & _ & Hf & H). apply find_some in Hf as [_ Hf].
  unfold take_lease in H. injection H as -> ->. simpl.
  unfold eligible in Hf. rewrite !andb_true_iff in Hf. destruct Hf as ((((_ & _) & Hl) & Hc) & Hsim).
  split; [|split; [done|split; [by apply Bool.eqb_prop|]]].
  - unfold leaseHeld. rewrite negb_true_iff in Hl. by rewrite <- andb_assoc, Hl, andb_false_r.
  - unfold leaseHeld, lease_of, Time_IsZero, Time_After. simpl. rewrite lookup_insert_eq. simpl.
    unfold Time_Add. destruct (Z.eqb_spec (now + lease) 0); [done|]. by rewrite andb_true_r.
Qed.

(** The queue is fair and complete: the run claimed may be tried no later
    than any other that could be claimed, and the queue is empty only when no
    run of the store could be. *)
Theorem claim_takes_the_longest_waiting m now owner lease simulated :
  match claim m false now owner lease simulated with
  | Ok (_, c) =>
      eligible m now simulated (Cl_RunID c) = true /\
      forall id, is_Some (m_runs m !! id) -> eligible m now simulated id = true ->
        (ls_nextAttemptAt (lease_of m (Cl_RunID c)) <= ls_nextAttemptAt (lease_of m id))%Z
  | Err e =>
      e = ErrNoClaimableRun /\
      forall id, is_Some (m_runs m !! id) -> eligible m now simulated id = false
  end.
Proof.
  unfold claim. simpl. destruct (List.find _ _) as [id|] eqn:E.
  - unfold take_lease. cbn [Cl_RunID]. split; [by apply find_some in E as [_ E]|]. intros id' Hin Hel. apply queue_order_In in Hin.
    destruct (find_sorted_min _ _ _ _ (sort_waiting_sorted _ _) E id' Hin Hel) as [->|H]; [done|exact H].
  - split; [done|]. intros id Hin. apply queue_order_In in Hin. by apply (find_none _ _ E).
Qed.

(** Two writers cannot both extend the same head: once a step was sealed
    onto a head, no later conditional append against that head succeeds,
    whatever happened in between. *)
Theorem head_is_extended_once m now epoch head s m1 sealed os m2 now2 s2 :
  reachable m -> append m false now epoch (Some head) s = Ok (m1, sealed) ->
  mem_steps m1 os m2 -> S_RunID s2 = S_RunID s ->
  (Z.of_nat (List.length (steps_of m2 (S_RunID s))) < 2 ^ 63)%Z ->
  AppendIfHead m2 false now2 head s2 = Err ErrHeadMoved.
Proof.
  intros Hre Ha Hos Er Hn.
  assert (reachable m1) as Hr1 by (eapply reach_step; [exact Hre|by econstructor]).
  assert (reachable m2) as Hr2.
  { clear Hn Er Ha. induction Hos; [done|]. apply IHHos. by eapply reach_step. }
  apply append_Ok in Ha as (_ & _ & Hh & _ & _ & Hs & ->).
  destruct (sealed_keeps _ _ _ Hs) as (Es & _).
  set (old := steps_of m (S_RunID s)) in *.
  assert (exists more, steps_of m2 (S_RunID s) = (old ++ sealed :: more)%list) as (more & Hst).
  { destruct (mem_steps_prefix _ _ _ (S_RunID s) (old ++ [sealed])%list Hos) as (more & Hm).
    - by rewrite store_runs, Es, lookup_insert_eq.
    - exists more. unfold steps_of. rewrite Hm. simpl. by rewrite <- app_assoc. }
  destruct (chains_ok_of m (S_RunID s) (reachable_chains _ Hre)) as [Hv _].
  destruct (chains_ok_of m2 (S_RunID s) (reachable_chains _ Hr2)) as [Hv2 _].
  pose proof (chain_last_seq _ Hv2 Hn) as Hq2.
  assert (Z.of_nat (List.length old) < Z.of_nat (List.length (steps_of m2 (S_RunID s))))%Z as Hlt
    by (rewrite Hst, length_app; simpl; lia).
  pose proof (chain_last_seq old Hv ltac:(lia)) as Hq.
  unfold AppendIfHead, append. simpl. rewrite Er. unfold headIs in Hh |- *.
  destruct (last_or None old) as [h|]; [|done]. destruct (_ || _) eqn:E in Hh; [done|].
  apply orb_false_iff in E as [E _]. rewrite negb_false_iff, Z.eqb_eq in E.
  destruct (last_or None (steps_of m2 (S_RunID s))) as [h2|]; [|done].
  assert (Z.eqb (S_Seq h2) (Ref_Seq head) = false) as -> by (apply Z.eqb_neq; lia). done.
Qed.

(** Under orderly use at most one open run of an agent holds a card at any
    time: the ledger refuses the second claim, and a run keeps the card it
    claimed until it finishes or fails. *)
Theorem one_open_run_holds_a_card m agent ref id1 id2 :
  reachable_orderly m -> holder m agent ref id1 -> holder m agent ref id2 -> id1 = id2.
Proof. intros H. apply (orderly_claims m H). Qed.

(** Under orderly use a pull request has one root in a company for good, and
    links are one level deep: no root is itself an alias. *)
Theorem an_alias_has_one_root m c a r1 r2 r3 :
  reachable_orderly m -> In (c, a, r1) (aliasRows m) -> In (c, a, r2) (aliasRows m) ->
  r1 = r2 /\ ~ In (c, r1, r3) (aliasRows m).
Proof.
  intros H H1 H2. destruct (orderly_rows m H) as [_ (Hone & Hflat & _)].
  split; [by apply (Hone c a)|by apply (Hflat c a)].
Qed.

(** ** Witnesses

    A store with two runs: the first starts and claims a card, the second
    starts. *)

Definition run_step (run : RunID) (kind : StepKind) (payload idem : string) : Step :=
  MkStep run 0 kind (MkScope "acme" "cx") "triage" "v1" "ana" payload [] zeroCost idem ""
    (unix_epoch + 1700000000000000000) "" "".

Definition card : string := obj [kv "ref" (quoted "github:acme/site#42")].
Definition open_draft (run : RunID) : Step :=
  run_step run StepRunStarted (obj [kv "trigger" (quoted "cron")]) "".
Definition claim_draft : Step := run_step "run-1" StepWorkItemClaimed card "key-1".

Definition opened_1 : Step := Eval vm_compute in seal None (open_draft "run-1").
Definition opened_2 : Step := Eval vm_compute in seal None (open_draft "run-2").
Definition claimed_1 : Step := Eval vm_compute in seal (Some opened_1) claim_draft.

Definition demo_1 : Memory := store_step NewMemory opened_1.
Definition demo_2 : Memory := store_step demo_1 claimed_1.
Definition demo_3 : Memory := store_step demo_2 opened_2.

Lemma demo_step_1 : append NewMemory false 0 None None (open_draft "run-1") = Ok (demo_1, opened_1).
Proof. vm_compute. reflexivity. Qed.

Lemma demo_step_2 :
  append demo_1 false 0 None (Some (MkStepRef 1 StepRunStarted)) claim_draft = Ok (demo_2, claimed_1).
Proof. vm_compute. reflexivity. Qed.

Lemma demo_step_3 : append demo_2 false 0 None None (open_draft "run-2") = Ok (demo_3, opened_2).
Proof. vm_compute. reflexivity. Qed.

Lemma demo_orderly : reachable_orderly demo_3.
Proof.
  eapply (orderly_step demo_2 0 (OpAppend None None (open_draft "run-2"))).
  - eapply (orderly_step demo_1 0 (OpAppend None (Some (MkStepRef 1 StepRunStarted)) claim_draft)).
    + eapply (orderly_step NewMemory 0 (OpAppend None None (open_draft "run-1"))).
      * constructor.
      * split; [vm_compute; reflexivity|by vm_compute].
      * econstructor. apply demo_step_1.
    + split; [vm_compute; reflexivity|by vm_compute].
    + econstructor. apply demo_step_2.
  - split; [vm_compute; reflexivity|by vm_compute].
  - econstructor. apply demo_step_3.
Qed.

Lemma demo_reachable : reachable demo_3.
Proof. apply orderly_reachable, demo_orderly. Qed.

Lemma demo_1_reachable : reachable demo_1.
Proof. eapply reach_step; [constructor|]. econstructor. apply demo_step_1. Qed.

Lemma every_stored_chain_verifies_witness :
  Verify demo_3 false "run-1" = Ok tt /\
  Forall (fun st => S_RunID st = "run-1") [opened_1; claimed_1].
Proof. apply (every_stored_chain_verifies demo_3 "run-1"). apply demo_reachable. Defined.

Lemma demo_at : step_at demo_3 "run-1" 1 claimed_1.
Proof. exists [opened_1; claimed_1]. vm_compute. auto. Qed.

Lemma idempotency_keys_are_unique_witness :
  "run-1" = "run-1" /\ 1%nat = 1%nat /\ claimed_1 = claimed_1.
Proof.
  apply (idempotency_keys_are_unique demo_3);
    [apply demo_reachable|apply demo_at|apply demo_at|vm_compute; congruence|reflexivity].
Defined.

Lemma demo_tail : mem_steps demo_2 [OpAppend None None (open_draft "run-2")] demo_3.
Proof.
  apply (steps_cons _ 0 _ demo_3); [econstructor; apply demo_step_3|constructor].
Qed.

Lemma history_is_only_added_to_witness :
  exists more, m_runs demo_3 !! "run-1" = Some ([opened_1; claimed_1] ++ more)%list.
Proof.
  apply (history_is_only_added_to demo_2 _ demo_3 "run-1" [opened_1; claimed_1] demo_tail).
  vm_compute. reflexivity.
Defined.

(** A first worker's claim and, after it ran out, a second's. *)
Definition taken_1 : Memory := fst (take_lease demo_3 100 10 "w1" "run-1").
Definition taken_2 : Memory := fst (take_lease taken_1 200 10 "w2" "run-1").

Lemma demo_claim :
  claim demo_3 false 100 "w1" 10 false = Ok (taken_1, snd (take_lease demo_3 100 10 "w1" "run-1")).
Proof. vm_compute. reflexivity. Qed.

Lemma demo_renew : mem_steps taken_2 [] taken_2.
Proof. constructor. Qed.

Lemma stale_worker_is_fenced_witness :
  (forall expect s, S_RunID s = "run-1" ->
     append taken_2 false 205 (Some 1%Z) expect s = Err ErrLeaseLost) /\
  (forall lease, Renew taken_2 false 205 "run-1" 1 lease = Err ErrLeaseLost) /\
  (forall o, CO_Epoch o = 1%Z -> Release taken_2 false 205 "run-1" o = Err ErrLeaseLost) /\
  (forall head, Fence taken_2 false 205 "run-1" 1 head = Err ErrLeaseLost).
Proof.
  apply (stale_worker_is_fenced taken_2 [] taken_2 "run-1" 1 205 demo_renew);
    vm_compute; congruence.
Defined.

Lemma claimed_run_is_exclusive_witness :
  leaseHeld demo_3 100 "run-1" 1 = false /\ claimable "running" = true /\
  isSimulated (steps_of demo_3 "run-1") = false /\
  leaseHeld taken_1 105 "run-1" 1 = Z.eqb 1 1 && (105 <? 110)%Z.
Proof.
  apply (claimed_run_is_exclusive demo_3 100 "w1" 10 false taken_1
           (snd (take_lease demo_3 100 10 "w1" "run-1")) 1 105 demo_claim).
  vm_compute. congruence.
Defined.

Lemma head_is_extended_once_witness :
  AppendIfHead demo_2 false 0 (MkStepRef 1 StepRunStarted) claim_draft = Err ErrHeadMoved.
Proof.
  apply (head_is_extended_once demo_1 0 None (MkStepRef 1 StepRunStarted) claim_draft demo_2
           claimed_1 [] demo_2 0 claim_draft demo_1_reachable demo_step_2);
    [constructor|reflexivity|vm_compute; reflexivity].
Defined.

Lemma demo_holder : holder demo_3 "triage" "github:acme/site#42" "run-1".
Proof. exists [opened_1; claimed_1]. vm_compute. auto. Qed.

Lemma one_open_run_holds_a_card_witness : "run-1" = "run-1".
Proof.
  apply (one_open_run_holds_a_card demo_3 "triage" "github:acme/site#42");
    [apply demo_orderly|apply demo_holder|apply demo_holder].
Defined.

(** The first run opens a pull request and links it to its card. *)
Definition returned_draft : Step :=
  run_step "run-1" StepToolReturned
    (obj [kv "pull_request" (obj [kv "ref" (quoted "github:acme/site#43");
                                  kv "via" (quoted ProvenanceHostedGitHubApp)]);
          kv "tool" (quoted "github.create_pull_request")]) "".
Definition link_draft : Step :=
  run_step "run-1" StepWorkItemLinked
    (obj [kv "alias" (quoted "github:acme/site#43");
          kv "proof" (obj [kv "kind" (quoted StepToolReturned); kv "seq" "3"]);
          kv "root" (quoted "github:acme/site#42")]) "".

Definition returned_1 : Step := Eval vm_compute in seal (Some claimed_1) returned_draft.
Definition linked_1 : Step := Eval vm_compute in seal (Some returned_1) link_draft.
Definition demo_4 : Memory := store_step demo_3 returned_1.
Definition demo_5 : Memory := store_step demo_4 linked_1.

Lemma demo_step_4 : append demo_3 false 0 None None returned_draft = Ok (demo_4, returned_1).
Proof. vm_compute. reflexivity. Qed.

Lemma demo_step_5 : append demo_4 false 0 None None link_draft = Ok (demo_5, linked_1).
Proof. vm_compute. reflexivity. Qed.

Lemma demo_linked : reachable_orderly demo_5.
Proof.
  eapply (orderly_step demo_4 0 (OpAppend None None link_draft)).
  - eapply (orderly_step demo_3 0 (OpAppend None None returned_draft)).
    + apply demo_orderly.
    + split; [vm_compute; reflexivity|by vm_compute].
    + econstructor. apply demo_step_4.
  - split; [vm_compute; reflexivity|by vm_compute].
  - econstructor. apply demo_step_5.
Qed.

Lemma an_alias_has_one_root_witness :
  "github:acme/site#42" = "github:acme/site#42" /\
  ~ In ("acme", "github:acme/site#42", "x") (aliasRows demo_5).
Proof.
  apply (an_alias_has_one_root demo_5 "acme" "github:acme/site#43" "github:acme/site#42"
           "github:acme/site#42" "x"); [apply demo_linked|vm_compute; auto|vm_compute; auto].
Defined.
