(* ===== verification/Gate.v ===== *)
(** * The Gate

    src/internal/gate: the deterministic checks every proposed action crosses
    before it becomes an effect. [Pack] is the capability set of a run,
    [Request] one proposed action, the [check...] functions the eight built-in
    checks in their normative order, [evaluatePolicies] the authored set, and
    [Evaluate] the ruling. *)

From Stdlib Require Import ZArith Lia Ascii String Sorting.Sorted.
From stdpp Require Import base list strings.
From S2P Require Import Prelude GoStrings Json Domain Policy Sha256.

Local Open Scope string_scope.

(** ** Capability packs (pack.go) *)

Abbreviation Pack := (list ToolID) (only parsing).

Definition NewPack (tools : list ToolID) : Pack := sort_compact tools.
Definition Pack_Allows (p : Pack) (tool : ToolID) : bool := binary_search p tool.
Definition Pack_Tools (p : Pack) : list ToolID := p.
Definition Pack_Empty (p : Pack) : bool := (List.length p =? 0)%nat.
Definition Pack_Narrow (p other : Pack) : Pack :=
  List.filter (fun t => Pack_Allows other t) p.

(** ** Requests (pack.go) *)

Record Request := {
  R_Scope : Scope;
  R_RunID : RunID;
  R_AgentID : AgentID;
  R_Seq : Z;
  R_Tool : ToolID;
  R_Effect : Effect;
  R_Args : string;
  R_ArgLabels : Labels;
  R_Pack : Pack;
  R_Stage : Stage;
  R_Compensating : ToolID;
  R_Budget : Budget;
  R_Committed : Consumption;
  R_Estimate : Consumption;
  R_IdemKey : string;
  R_AlreadyExecuted : bool;
  R_ApprovalGranted : bool;
  R_PendingReview : bool;
  R_LinkProven : bool;
  R_LinkRefusal : string
}.

(** ** Rules and results (gate.go) *)

Definition RulePassed : string := "passed".
Definition RuleCapability : string := "capability".
Definition RuleContract : string := "contract".
Definition RuleDataBarrier : string := "data_barrier".
Definition RuleTaint : string := "taint".
Definition RulePolicy : string := "policy".
Definition RuleBudget : string := "budget".
Definition RuleIdempotency : string := "idempotency".
Definition RuleApproval : string := "approval".
Definition RuleAutonomy : string := "autonomy".

Record check_result := {
  cr_verdict : Verdict;
  cr_reason : string;
  cr_budget : Budget;
  cr_committed : Consumption;
  cr_estimate : Consumption;
  cr_projected : Consumption;
  cr_breached : string
}.

Definition ruled (v : Verdict) (why : string) : check_result :=
  {| cr_verdict := v; cr_reason := why; cr_budget := zeroBudget;
     cr_committed := zeroConsumption; cr_estimate := zeroConsumption;
     cr_projected := zeroConsumption; cr_breached := "" |}.

Definition pass : check_result := ruled VerdictAllow "".
Definition stop (why : string) : check_result := ruled VerdictBlock why.
Definition duplicate (why : string) : check_result := ruled VerdictDuplicate why.
Definition needsHuman (why : string) : check_result := ruled VerdictRequireApproval why.

(** ** Coordination and review-queue writes (coordination.go, checks.go) *)

Definition coordinationWrite (r : Request) : bool :=
  if String.eqb (R_Tool r) ToolWorkItemLink && negb (R_LinkProven r) then false
  else ToolID_Coordination (R_Tool r) && Z.eqb (R_Effect r) EffectWrite.

Definition coordinationMisclassified (r : Request) : bool :=
  ToolID_Coordination (R_Tool r) && negb (Z.eqb (R_Effect r) EffectWrite).

Definition linkUnmakeable (r : Request) : string * bool :=
  (R_LinkRefusal r,
   String.eqb (R_Tool r) ToolWorkItemLink && negb (String.eqb (R_LinkRefusal r) "")).

Definition reviewQueueWrite (r : Request) : bool :=
  R_PendingReview r && String.eqb (R_Tool r) ToolMemorySuggest &&
  Z.eqb (R_Effect r) EffectWrite.

(** ** The checks (checks.go) *)

Definition checkAutonomy (r : Request) : check_result :=
  if (reviewQueueWrite r || coordinationWrite r) && String.eqb (R_Stage r) StageCopilot
  then pass
  else if Stage_NeedsApproval (R_Stage r) (R_Effect r) ||
          (negb (Stage_Valid (R_Stage r)) && negb (Z.eqb (R_Effect r) EffectRead))
  then needsHuman "gate.autonomy.copilot"
  else if String.eqb (R_Stage r) StageDraft && negb (Z.eqb (R_Effect r) EffectRead)
  then needsHuman "gate.autonomy.draft"
  else pass.

Definition checkCapability (r : Request) : check_result :=
  if Pack_Empty (R_Pack r) then stop "the run has no capability pack"
  else if Pack_Allows (R_Pack r) (R_Tool r) then pass
  else if negb (String.eqb (R_Compensating r) "") && Pack_Allows (R_Pack r) (R_Compensating r)
  then pass
  else stop ("tool " +:+ go_quote (R_Tool r) +:+ " is outside the run's capability pack").

Definition checkContract (r : Request) : check_result :=
  if negb (Effect_Valid (R_Effect r))
  then stop ("tool " +:+ go_quote (R_Tool r) +:+ " has no effect classification")
  else if coordinationMisclassified r
  then stop ("coordination tool " +:+ go_quote (R_Tool r) +:+
             " must be classified as a write, not " +:+ Effect_String (R_Effect r))
  else let '(why, refused) := linkUnmakeable r in
  if refused then stop why
  else if negb (String.eqb (R_Args r) "") && negb (json_valid (R_Args r))
  then stop "arguments are not valid JSON"
  else pass.

Definition checkDataBarrier (r : Request) : check_result :=
  match Labels_ScopeBoundaryViolation (R_ArgLabels r) (R_Scope r) with
  | Some violation => stop (Violation_Error violation)
  | None => pass
  end.

Definition checkTaint (r : Request) : check_result :=
  if negb (Labels_HasAny (R_ArgLabels r) [LabelUntrusted]) then pass
  else if reviewQueueWrite r || coordinationWrite r then pass
  else if Z.eqb (R_Effect r) EffectRead then pass
  else if Effect_Reversible (R_Effect r) then needsHuman "arguments derive from untrusted data"
  else stop "an irreversible action cannot derive from untrusted data".

Definition checkPolicy (r : Request) : check_result :=
  if negb (String.eqb (R_Compensating r) "") then pass
  else if reviewQueueWrite r || coordinationWrite r then pass
  else if Z.eqb (R_Effect r) EffectRead then pass
  else if Z.eqb (R_Effect r) EffectWrite then needsHuman "writes require approval by default"
  else stop "destructive and financial effects are denied by default".

Definition projection (r : Request) : Consumption :=
  let c := R_Committed r in
  let e := R_Estimate r in
  MkConsumption (add64 (C_Micros c) (C_Micros e)) (add64 (C_Tokens c) (C_Tokens e))
    (add64 (C_ToolCalls c) (C_ToolCalls e)) (add64 (C_Steps c) (C_Steps e))
    (add64 (C_WallClockMS c) (C_WallClockMS e)).

Definition checkBudget (r : Request) : check_result :=
  let projected := projection r in
  let dim := Budget_Exceeds (R_Budget r) projected in
  if negb (String.eqb dim "") then
    {| cr_verdict := VerdictBlock;
       cr_reason := "would exceed the run's " +:+ dim +:+ " ceiling";
       cr_budget := R_Budget r; cr_committed := R_Committed r; cr_estimate := R_Estimate r;
       cr_projected := projected; cr_breached := dim |}
  else pass.

Definition checkIdempotency (r : Request) : check_result :=
  if R_AlreadyExecuted r then
    if Z.eqb (R_Effect r) EffectRead
    then duplicate "this read is already recorded and is not safe to replay automatically"
    else duplicate "this effect is already recorded; replaying it would duplicate the effect"
  else pass.

(** The table: the order is normative. *)
Definition checkOrder : list (string * (Request -> check_result)) :=
  [(RuleCapability, checkCapability); (RuleContract, checkContract);
   (RuleDataBarrier, checkDataBarrier); (RuleTaint, checkTaint); (RulePolicy, checkPolicy);
   (RuleIdempotency, checkIdempotency); (RuleBudget, checkBudget);
   (RuleAutonomy, checkAutonomy)].

(** ** Authored policies (policies.go) *)

Record Monitored := MkMonitored { Mon_Code : string; Mon_Verdict : Verdict; Mon_Reason : string }.

Record policyResult := {
  pr_verdict : Verdict;
  pr_code : string;
  pr_reason : string;
  pr_allowed : bool;
  pr_monitors : list Monitored
}.

(** One policy of the loop. *)
Definition policy_step (inp : PolicyInput) (out : policyResult) (p : Policy) : policyResult :=
  if negb (Policy_Matches p inp) then out
  else
    let verdict := PolicyEffect_Verdict (P_Effect p) in
    if String.eqb (P_Mode p) PolicyMonitor then
      {| pr_verdict := pr_verdict out; pr_code := pr_code out; pr_reason := pr_reason out;
         pr_allowed := pr_allowed out;
         pr_monitors := pr_monitors out ++ [MkMonitored (P_Code p) verdict (P_Reason p)] |}
    else if String.eqb (P_Effect p) PolicyAllow then
      {| pr_verdict := pr_verdict out;
         pr_code := if String.eqb (pr_code out) "" then P_Code p else pr_code out;
         pr_reason := if String.eqb (pr_code out) "" then P_Reason p else pr_reason out;
         pr_allowed := true; pr_monitors := pr_monitors out |}
    else if (pr_verdict out <? verdict)%Z then
      {| pr_verdict := verdict; pr_code := P_Code p; pr_reason := P_Reason p;
         pr_allowed := pr_allowed out; pr_monitors := pr_monitors out |}
    else out.

Definition evaluatePolicies (set : list Policy) (inp : PolicyInput) : policyResult :=
  fold_left (policy_step inp) set
    {| pr_verdict := VerdictAllow; pr_code := ""; pr_reason := ""; pr_allowed := false;
       pr_monitors := [] |}.

Definition inputFrom (r : Request) : PolicyInput :=
  {| In_Tool := R_Tool r; In_Effect := R_Effect r; In_Agent := R_AgentID r;
     In_Scope := R_Scope r; In_Labels := R_ArgLabels r; In_Args := R_Args r |}.

(** ** The ruling (gate.go, domain/verdict.go) *)

Record Decision := {
  D_Verdict : Verdict;
  D_Rule : string;
  D_PolicyHash : string;
  D_Args : string;
  D_Reason : string;
  D_PolicyCode : string;
  D_Monitored : list Monitored;
  D_Budget : Budget;
  D_Committed : Consumption;
  D_Estimate : Consumption;
  D_Projected : Consumption;
  D_Breached : string
}.

(** A gate holds the policies in force and the hash that names them. *)
Record GateT := { policyHash : string; policies : list Policy }.

Definition policyVersion : string := "builtin/v6".

(** The digest of the rule names and the version, its first sixteen digits. *)
Definition builtinPolicyHash : string :=
  "sha256:" +:+
  String.substring 0 16
    (hex_encode (sha256 (fold_left (fun h c => h +:+ fst c) checkOrder "" +:+ policyVersion))).

Definition New : GateT := {| policyHash := builtinPolicyHash; policies := [] |}.

Definition WithPolicies (g : GateT) (hash : string) (set : list Policy) : GateT :=
  {| policyHash := hash; policies := set |}.

Definition mergePolicy (ladder : check_result) (authored : policyResult) : check_result :=
  if (VerdictAllow <? pr_verdict authored)%Z then ruled (pr_verdict authored) (pr_reason authored)
  else if pr_allowed authored then pass
  else ladder.

Definition monitoredFrom (authored : policyResult) : list Monitored := pr_monitors authored.

(** What one check says, once the authored set has been read. *)
Definition run_check (authored : policyResult) (r : Request)
    (c : string * (Request -> check_result)) : check_result :=
  let got := snd c r in
  if String.eqb (fst c) RulePolicy then mergePolicy got authored else got.

Definition decision_of (g : GateT) (authored : policyResult) (rule : string)
    (got : check_result) : Decision :=
  {| D_Verdict := cr_verdict got; D_Rule := rule; D_PolicyHash := policyHash g; D_Args := "";
     D_Reason := cr_reason got;
     D_PolicyCode := if String.eqb rule RulePolicy then pr_code authored else "";
     D_Monitored := monitoredFrom authored;
     D_Budget := cr_budget got; D_Committed := cr_committed got; D_Estimate := cr_estimate got;
     D_Projected := cr_projected got; D_Breached := cr_breached got |}.

Definition allow_decision (g : GateT) (authored : policyResult) (rule reason : string) : Decision :=
  {| D_Verdict := VerdictAllow; D_Rule := rule; D_PolicyHash := policyHash g; D_Args := "";
     D_Reason := reason; D_PolicyCode := ""; D_Monitored := monitoredFrom authored;
     D_Budget := zeroBudget; D_Committed := zeroConsumption; D_Estimate := zeroConsumption;
     D_Projected := zeroConsumption; D_Breached := "" |}.

(** The loop: a terminal ruling returns at once ([inl]); softer ones are
    remembered when they are worse than what was remembered before. *)
Fixpoint check_loop (g : GateT) (authored : policyResult) (r : Request)
    (worst : Decision) (checks : list (string * (Request -> check_result)))
    : Decision + Decision :=
  match checks with
  | [] => inr worst
  | c :: rest =>
      let got := run_check authored r c in
      if Z.eqb (cr_verdict got) VerdictAllow then check_loop g authored r worst rest
      else
        let d := decision_of g authored (fst c) got in
        if Verdict_Terminal (cr_verdict got) then inl d
        else if (D_Verdict worst <? cr_verdict got)%Z then check_loop g authored r d rest
        else check_loop g authored r worst rest
  end.

Definition Evaluate (g : GateT) (r : Request) : Decision :=
  let authored := evaluatePolicies (policies g) (inputFrom r) in
  match check_loop g authored r (allow_decision g authored RulePassed "") checkOrder with
  | inl d => d
  | inr worst =>
      if Z.eqb (D_Verdict worst) VerdictRequireApproval && R_ApprovalGranted r
      then allow_decision g authored RuleApproval "approved by a human for this run"
      else worst
  end.

(** ** The ruling, as a specification

    [Evaluate] folds over the table with an accumulator and an early return.
    What it promises is simpler: the first check that blocks is the one
    reported; if none does, the first that asks for a person; a grant answers
    only the second. *)

Definition authored_of (g : GateT) (r : Request) : policyResult :=
  evaluatePolicies (policies g) (inputFrom r).

(** What a check says of a request under a gate. *)
Definition says (g : GateT) (r : Request) (c : string * (Request -> check_result)) : Verdict :=
  cr_verdict (run_check (authored_of g r) r c).

Definition ruling (g : GateT) (r : Request) : Decision :=
  let report c := decision_of g (authored_of g r) (fst c) (run_check (authored_of g r) r c) in
  match List.find (fun c => Verdict_Terminal (says g r c)) checkOrder with
  | Some c => report c
  | None =>
      match List.find (fun c => Z.eqb (says g r c) VerdictRequireApproval) checkOrder with
      | Some c =>
          if R_ApprovalGranted r
          then allow_decision g (authored_of g r) RuleApproval "approved by a human for this run"
          else report c
      | None => allow_decision g (authored_of g r) RulePassed ""
      end
  end.

(** The verdicts a check can return. *)
Definition gate_verdict (v : Verdict) : Prop :=
  v = VerdictAllow \/ v = VerdictRequireApproval \/ v = VerdictBlock \/ v = VerdictDuplicate.

Lemma PolicyEffect_Verdict_cases e :
  PolicyEffect_Verdict e = VerdictAllow \/ PolicyEffect_Verdict e = VerdictRequireApproval \/
  PolicyEffect_Verdict e = VerdictBlock.
Proof. unfold PolicyEffect_Verdict. repeat case_match; auto. Qed.

(** The authored set folded: the strictest enforcing match, and whether an
    enforcing allow matched. *)
Lemma evaluatePolicies_from inp set acc :
  pr_verdict acc = VerdictAllow \/ pr_verdict acc = VerdictRequireApproval \/
  pr_verdict acc = VerdictBlock ->
  let out := fold_left (policy_step inp) set acc in
  pr_verdict out = VerdictAllow \/ pr_verdict out = VerdictRequireApproval \/
  pr_verdict out = VerdictBlock.
Proof.
  revert acc. induction set as [|p set IH]; intros acc Hacc; simpl; [done|].
  apply IH. unfold policy_step.
  pose proof (PolicyEffect_Verdict_cases (P_Effect p)).
  repeat case_match; simpl; auto.
Qed.

Lemma authored_verdict_cases g r :
  pr_verdict (authored_of g r) = VerdictAllow \/
  pr_verdict (authored_of g r) = VerdictRequireApproval \/
  pr_verdict (authored_of g r) = VerdictBlock.
Proof. apply evaluatePolicies_from. auto. Qed.

Lemma mergePolicy_verdict ladder a :
  gate_verdict (cr_verdict ladder) ->
  pr_verdict a = VerdictAllow \/ pr_verdict a = VerdictRequireApproval \/
    pr_verdict a = VerdictBlock ->
  gate_verdict (cr_verdict (mergePolicy ladder a)).
Proof. unfold mergePolicy, gate_verdict. intros. repeat case_match; simpl; tauto. Qed.

Ltac unfold_checks :=
  unfold checkCapability, checkContract, checkDataBarrier, checkTaint, checkPolicy,
    checkIdempotency, checkBudget, checkAutonomy, linkUnmakeable in *.

Lemma check_verdict r c : In c checkOrder -> gate_verdict (cr_verdict (snd c r)).
Proof.
  unfold gate_verdict. simpl. intros Hc.
  repeat destruct Hc as [<-|Hc]; try done; simpl; unfold_checks;
    repeat case_match; simpl; auto.
Qed.

Lemma says_verdict g r c : In c checkOrder -> gate_verdict (says g r c).
Proof.
  intros Hc. pose proof (check_verdict r c Hc).
  unfold says, run_check. case_match; [|done].
  apply mergePolicy_verdict; auto using authored_verdict_cases.
Qed.

Lemma check_loop_spec g r worst checks :
  (forall c, In c checks -> gate_verdict (says g r c)) ->
  D_Verdict worst = VerdictAllow \/ D_Verdict worst = VerdictRequireApproval ->
  check_loop g (authored_of g r) r worst checks =
  let report c := decision_of g (authored_of g r) (fst c) (run_check (authored_of g r) r c) in
  match List.find (fun c => Verdict_Terminal (says g r c)) checks with
  | Some c => inl (report c)
  | None =>
      inr (if Z.eqb (D_Verdict worst) VerdictRequireApproval then worst
           else match List.find (fun c => Z.eqb (says g r c) VerdictRequireApproval) checks with
                | Some c => report c
                | None => worst
                end)
  end.
Proof.
  revert worst. induction checks as [|c checks IH]; intros worst Hc Hw; cbn [check_loop List.find].
  { by case_match. }
  assert (forall c0, In c0 checks -> gate_verdict (says g r c0)) as Hc' by (simpl in *; auto).
  pose proof (Hc c (or_introl eq_refl)) as Hv. unfold says in Hv |- *.
  destruct Hv as [E|[E|[E|E]]]; rewrite E; cbn [Z.eqb Verdict_Terminal].
  - rewrite IH by done. reflexivity.
  - simpl. destruct Hw as [Ew|Ew]; rewrite Ew; simpl; rewrite IH by (simpl; auto); simpl;
      rewrite ?E, ?Ew; reflexivity.
  - reflexivity.
  - reflexivity.
Qed.

Lemma Evaluate_ruling g r : Evaluate g r = ruling g r.
Proof.
  unfold Evaluate, ruling. fold (authored_of g r).
  rewrite check_loop_spec by (auto using says_verdict).
  cbn zeta. destruct (List.find _ checkOrder) as [c|]; [done|].
  cbn [D_Verdict allow_decision Z.eqb VerdictAllow VerdictRequireApproval].
  destruct (List.find _ checkOrder) as [c|] eqn:E.
  - apply find_some in E as [_ E]. unfold says in E. simpl.
    rewrite E. simpl. by destruct (R_ApprovalGranted r).
  - by destruct (R_ApprovalGranted r).
Qed.

(** ** When an action proceeds *)

Definition Proceeds (g : GateT) (r : Request) : Prop :=
  Verdict_Executable (D_Verdict (Evaluate g r)) = true.

Lemma gate_verdict_not_executable v :
  gate_verdict v -> Verdict_Executable v = true <-> v = VerdictAllow.
Proof.
  intros [E|[E|[E|E]]]; rewrite E; cbv; split; intros; congruence.
Qed.

Lemma find_none_iff {A} (f : A -> bool) l : List.find f l = None <-> forall x, In x l -> f x = false.
Proof.
  split; [apply find_none|]. intros H. destruct (List.find f l) eqn:E; [|done].
  apply find_some in E as [Hin Hf]. rewrite H in Hf; done.
Qed.

Lemma proceeds_iff g r :
  Proceeds g r <->
  forall c, In c checkOrder ->
    says g r c = VerdictAllow \/
    (says g r c = VerdictRequireApproval /\ R_ApprovalGranted r = true).
Proof.
  unfold Proceeds. rewrite Evaluate_ruling. unfold ruling. split.
  - destruct (List.find (fun c => Verdict_Terminal _) checkOrder) as [c|] eqn:Et.
    { apply find_some in Et as [Hin Ht]. simpl. fold (says g r c). intros He.
      apply gate_verdict_not_executable in He; [|by apply says_verdict].
      by rewrite He in Ht. }
    rewrite find_none_iff in Et. intros He c Hin.
    pose proof (says_verdict g r c Hin) as Hv. specialize (Et c Hin).
    destruct (List.find (fun c => Z.eqb _ _) checkOrder) as [c'|] eqn:Ea.
    + destruct (R_ApprovalGranted r) eqn:Eg.
      * destruct Hv as [E|[E|[E|E]]]; rewrite E in Et |- *; auto; done.
      * apply find_some in Ea as [Hin' Ea]. simpl in He. fold (says g r c') in He.
        apply Z.eqb_eq in Ea. by rewrite Ea in He.
    + rewrite find_none_iff in Ea. specialize (Ea c Hin). apply Z.eqb_neq in Ea.
      destruct Hv as [E|[E|[E|E]]]; rewrite E in Et, Ea |- *; auto; done.
  - intros H.
    assert (List.find (fun c => Verdict_Terminal (says g r c)) checkOrder = None) as ->.
    { apply find_none_iff. intros c Hin. by destruct (H c Hin) as [->|[-> _]]. }
    destruct (List.find (fun c => Z.eqb _ _) checkOrder) as [c'|] eqn:Ea; [|done].
    apply find_some in Ea as [Hin Ea]. apply Z.eqb_eq in Ea.
    destruct (H c' Hin) as [E|[_ ->]]; [by rewrite E in Ea|done].
Qed.

(** A check of the table that rules alone, the policy check apart. *)
Lemma proceeds_check g r rule chk :
  Proceeds g r -> In (rule, chk) checkOrder -> rule <> RulePolicy ->
  cr_verdict (chk r) = VerdictAllow \/
  (cr_verdict (chk r) = VerdictRequireApproval /\ R_ApprovalGranted r = true).
Proof.
  intros Hp Hin Hr. destruct (proj1 (proceeds_iff g r) Hp _ Hin) as [H|H];
    unfold says, run_check in H; simpl in H; apply String.eqb_neq in Hr;
    rewrite Hr in H; auto.
Qed.

Ltac in_table := simpl; repeat (first [left; reflexivity | right]).

Lemma not_exempt_irreversible r :
  Effect_Reversible (R_Effect r) = false ->
  reviewQueueWrite r || coordinationWrite r = false.
Proof.
  unfold Effect_Reversible, reviewQueueWrite, coordinationWrite. intros H.
  apply orb_false_iff in H as [_ Hw]. rewrite Hw, !andb_false_r. by repeat case_match.
Qed.

(** The strictest enforcing match of the authored set. *)
Definition enforcing (inp : PolicyInput) (p : Policy) : Prop :=
  Policy_Matches p inp = true /\ P_Mode p <> PolicyMonitor.

Lemma policy_step_mono inp acc p : (pr_verdict acc <= pr_verdict (policy_step inp acc p))%Z.
Proof. unfold policy_step. repeat case_match; simpl; bsimp; lia. Qed.

Lemma policies_mono inp set acc :
  (pr_verdict acc <= pr_verdict (fold_left (policy_step inp) set acc))%Z.
Proof.
  revert acc. induction set as [|p set IH]; intros acc; simpl; [lia|].
  specialize (IH (policy_step inp acc p)). pose proof (policy_step_mono inp acc p). lia.
Qed.

Lemma enforcing_verdict inp set acc p :
  (VerdictAllow <= pr_verdict acc)%Z -> In p set -> enforcing inp p ->
  (PolicyEffect_Verdict (P_Effect p) <= pr_verdict (fold_left (policy_step inp) set acc))%Z.
Proof.
  intros Hacc Hin [Hm Hmode]. revert acc Hacc.
  induction set as [|q set IH]; intros acc Hacc; [done|]. simpl.
  destruct Hin as [->|Hin].
  - etransitivity; [|apply policies_mono]. unfold policy_step. rewrite Hm. simpl.
    apply String.eqb_neq in Hmode. rewrite Hmode.
    destruct (String.eqb_spec (P_Effect p) PolicyAllow) as [->|]; [done|].
    case_match; simpl; bsimp; lia.
  - apply IH; [done|]. pose proof (policy_step_mono inp acc q). lia.
Qed.

(** Watching policies change nothing but the list of watchers. *)
Definition same_ruling (a b : policyResult) : Prop :=
  pr_verdict a = pr_verdict b /\ pr_code a = pr_code b /\ pr_reason a = pr_reason b /\
  pr_allowed a = pr_allowed b.

#[export] Instance same_ruling_equiv : Equivalence same_ruling.
Proof. split; repeat intro; unfold same_ruling in *; intuition congruence. Qed.

Lemma policy_step_same inp a b p :
  same_ruling a b -> same_ruling (policy_step inp a p) (policy_step inp b p).
Proof.
  intros (Hv & Hc & Hr & Ha). unfold policy_step. rewrite Hv, Hc, Hr, Ha.
  repeat case_match; repeat split; simpl; auto.
Qed.

Lemma monitor_step_same inp a p : P_Mode p = PolicyMonitor -> same_ruling (policy_step inp a p) a.
Proof.
  intros Hm. unfold policy_step. rewrite Hm. repeat case_match; by repeat split.
Qed.

Definition not_monitored (p : Policy) : bool := negb (String.eqb (P_Mode p) PolicyMonitor).

Lemma monitors_same inp set a b :
  same_ruling a b ->
  same_ruling (fold_left (policy_step inp) set a)
    (fold_left (policy_step inp) (List.filter not_monitored set) b).
Proof.
  revert a b. induction set as [|p set IH]; intros a b Hab; simpl; [done|].
  unfold not_monitored at 1. destruct (String.eqb_spec (P_Mode p) PolicyMonitor) as [Hm|Hm]; simpl.
  - apply IH. etransitivity; [by apply monitor_step_same|done].
  - apply IH. by apply policy_step_same.
Qed.

Lemma run_check_same a b r c : same_ruling a b -> run_check a r c = run_check b r c.
Proof.
  intros (Hv & Hc & Hr & Ha). unfold run_check, mergePolicy. by rewrite Hv, Hr, Ha.
Qed.
