(* ===== verification/GateSafety.v ===== *)
(** * What the Gate guarantees

    Theorems about src/internal/gate. Each reads one promise of the table of
    checks off [proceeds_iff]: what must have been true of a request for the
    ruling to be executable. [Proceeds g r] is "the gate lets [r] run". *)

From Stdlib Require Import ZArith Lia Ascii String Sorting.Sorted.
From stdpp Require Import base list strings gmap.
From S2P Require Import Prelude GoStrings Json Domain Policy Gate.

Local Open Scope string_scope.

(** ** Helpers over single checks *)

(** The authored set recorded an allow only because some enforcing policy that
    allows matched. *)
Lemma allowed_has_policy inp set acc :
  pr_allowed (fold_left (policy_step inp) set acc) = true ->
  pr_allowed acc = true \/
  exists p, In p set /\ enforcing inp p /\ P_Effect p = PolicyAllow.
Proof.
  revert acc. induction set as [|p set IH]; intros acc; simpl; [auto|].
  intros H. apply IH in H as [H|(q & Hq & Hrest)]; [|right; eauto].
  unfold policy_step in H.
  destruct (Policy_Matches p inp) eqn:Em; simpl in H; [|auto].
  destruct (String.eqb_spec (P_Mode p) PolicyMonitor); [auto|].
  destruct (String.eqb_spec (P_Effect p) PolicyAllow) as [Ea|].
  - right. exists p. unfold enforcing. auto.
  - case_match; auto.
Qed.

Lemma escalated_has_policy inp set acc :
  pr_verdict (fold_left (policy_step inp) set acc) = VerdictRequireApproval ->
  pr_verdict acc = VerdictAllow ->
  exists p, In p set /\ enforcing inp p /\ P_Effect p = PolicyEscalate.
Proof.
  intros H Ha. assert (pr_verdict acc <> VerdictRequireApproval) as Hacc by (by rewrite Ha).
  clear Ha. revert acc H Hacc. induction set as [|p set IH]; intros acc H Hacc; simpl in H; [done|].
  destruct (Z.eq_dec (pr_verdict (policy_step inp acc p)) VerdictRequireApproval) as [E|E].
  - exists p. split; [by left|]. unfold policy_step in E.
    destruct (Policy_Matches p inp) eqn:Em; simpl in E; [|done].
    destruct (String.eqb_spec (P_Mode p) PolicyMonitor); [done|].
    destruct (String.eqb_spec (P_Effect p) PolicyAllow); [done|].
    split; [done|]. case_match; [|done]. simpl in E. unfold PolicyEffect_Verdict in E.
    destruct (String.eqb_spec (P_Effect p) PolicyDeny); [done|].
    by destruct (String.eqb_spec (P_Effect p) PolicyEscalate).
  - destruct (IH _ H E) as (q & ? & ?). exists q. split; [by right|done].
Qed.

Lemma find_ext {A} (f h : A -> bool) l : (forall x, f x = h x) -> List.find f l = List.find h l.
Proof. intros H. induction l as [|x l IH]; simpl; [done|]. by rewrite H, IH. Qed.

Lemma StronglySorted_filter {A} (R : A -> A -> Prop) f l :
  StronglySorted R l -> StronglySorted R (List.filter f l).
Proof.
  induction 1 as [|x l Hl IH Hx]; simpl; [constructor|].
  case_match; [|done]. constructor; [done|]. rewrite List.Forall_forall in *.
  intros y Hy. apply List.filter_In in Hy. naive_solver.
Qed.

(** The sums of the budget check, without the width. *)
Definition exact_sum (c e : Consumption) : Consumption :=
  MkConsumption (C_Micros c + C_Micros e) (C_Tokens c + C_Tokens e)
    (C_ToolCalls c + C_ToolCalls e) (C_Steps c + C_Steps e)
    (C_WallClockMS c + C_WallClockMS e).

Definition no_overflow (c e : Consumption) : Prop :=
  let s := exact_sum c e in
  in_int64 (C_Micros s) = true /\ in_int64 (C_Tokens s) = true /\
  in_int64 (C_ToolCalls s) = true /\ in_int64 (C_Steps s) = true /\
  in_int64 (C_WallClockMS s) = true.

Lemma projection_exact r :
  no_overflow (R_Committed r) (R_Estimate r) ->
  projection r = exact_sum (R_Committed r) (R_Estimate r).
Proof.
  intros (? & ? & ? & ? & ?). unfold projection, exact_sum, add64 in *. simpl in *.
  by rewrite !wrap64_id.
Qed.

(** Requests the witnesses evaluate. *)
Definition sample (tool : ToolID) (effect : Effect) (labels : list string) (granted : bool)
    : Request :=
  {| R_Scope := MkScope "acme" "cx"; R_RunID := "run-1"; R_AgentID := "triage"; R_Seq := 4%Z;
     R_Tool := tool; R_Effect := effect; R_Args := "{}"; R_ArgLabels := NewLabels labels;
     R_Pack := NewPack [tool; "crm.read"]; R_Stage := StageAutonomous; R_Compensating := "";
     R_Budget := MkBudget 100 0 10 0 0; R_Committed := MkConsumption 10 5 1 3 40;
     R_Estimate := MkConsumption 20 0 1 1 0; R_IdemKey := "k"; R_AlreadyExecuted := false;
     R_ApprovalGranted := granted; R_PendingReview := false; R_LinkProven := false;
     R_LinkRefusal := "" |}.

Definition rule_on (resource effect : string) : Policy :=
  {| P_Code := "P1"; P_Name := "one"; P_Owner := "ops"; P_Reason := "because";
     P_Resource := resource; P_Effects := []; P_Reach := ReachInstallation; P_Scopes := [];
     P_Agents := []; P_Conditions := []; P_Effect := effect; P_Mode := PolicyEnforce;
     P_Enabled := true |}.

Definition gate_with (ps : list Policy) : GateT := {| policyHash := "sha256:0"; policies := ps |}.

Lemma sample_label_set tool effect labels granted :
  label_set (R_ArgLabels (sample tool effect labels granted)).
Proof. apply NewLabels_set. Qed.

Lemma policy_check_in : In (RulePolicy, checkPolicy) checkOrder.
Proof. in_table. Qed.

Lemma find_first_block g r c pre post :
  checkOrder = (pre ++ c :: post)%list ->
  Verdict_Terminal (says g r c) = true ->
  (forall c', In c' (pre ++ [c])%list -> says g r c' <> VerdictDuplicate) ->
  D_Verdict (Evaluate g r) = VerdictBlock.
Proof.
  intros Hs Ht Hd. rewrite Evaluate_ruling. unfold ruling.
  assert (exists c0, List.find (fun c => Verdict_Terminal (says g r c)) checkOrder = Some c0 /\
            In c0 (pre ++ [c])%list) as (c0 & Hf & Hin).
  { rewrite Hs. clear Hs Hd. induction pre as [|x pre IH]; simpl.
    - rewrite Ht. eauto.
    - destruct (Verdict_Terminal (says g r x)); [eauto|].
      destruct IH as (c0 & ? & ?). eauto. }
  rewrite Hf. simpl. fold (says g r c0).
  apply find_some in Hf as [_ Hf]. unfold Verdict_Terminal in Hf.
  specialize (Hd c0 Hin). bsimp. tauto.
Qed.

Lemma early_check_never_duplicate g r c :
  In c [(RuleCapability, checkCapability); (RuleContract, checkContract);
        (RuleDataBarrier, checkDataBarrier); (RuleTaint, checkTaint)] ->
  says g r c <> VerdictDuplicate.
Proof.
  simpl. intros Hc. unfold says.
  repeat destruct Hc as [<-|Hc]; try done; cbn [run_check fst snd String.eqb]; unfold run_check;
    simpl; unfold_checks; repeat case_match; done.
Qed.

Lemma HasAny_untrusted l : label_set l -> In LabelUntrusted l -> Labels_HasAny l [LabelUntrusted] = true.
Proof. intros Hl Hin. apply HasAny_In; [done|]. exists LabelUntrusted. simpl. auto. Qed.

(** ** Properties *)

(** C4. The ruling of [Gate.Evaluate], computed by one pass over the table with
    a running worst decision and an early return, is the specification
    [ruling]: the first check of the normative order that blocks or reports a
    duplicate; failing that, the first that requires approval, unless a human
    granted this request; failing that, an allow. *)
Theorem evaluate_refines_ruling g r : Evaluate g r = ruling g r.
Proof. exact (Evaluate_ruling g r). Qed.

(** The gate lets a request run exactly when every check of the table
    allows it or asks for a person while a grant is present: a human's approval
    never overrides a check that blocks or finds a duplicate. *)
Theorem grant_answers_only_escalations g r :
  Proceeds g r <->
  forall c, In c checkOrder ->
    says g r c = VerdictAllow \/
    (says g r c = VerdictRequireApproval /\ R_ApprovalGranted r = true).
Proof. exact (proceeds_iff g r). Qed.

(** Arguments derived from untrusted data never reach an effect that cannot
    be undone: whatever policies are in force and whoever approved, the ruling
    on a tainted destructive, financial or unclassified call is a block. *)
Theorem tainted_irreversible_blocked g r :
  label_set (R_ArgLabels r) -> In LabelUntrusted (R_ArgLabels r) ->
  Effect_Reversible (R_Effect r) = false ->
  D_Verdict (Evaluate g r) = VerdictBlock.
Proof.
  intros Hl Hin He.
  apply (find_first_block g r (RuleTaint, checkTaint)
           [(RuleCapability, checkCapability); (RuleContract, checkContract);
            (RuleDataBarrier, checkDataBarrier)]
           [(RulePolicy, checkPolicy); (RuleIdempotency, checkIdempotency);
            (RuleBudget, checkBudget); (RuleAutonomy, checkAutonomy)]); [done| |].
  - unfold says, run_check. simpl. unfold checkTaint.
    rewrite HasAny_untrusted, not_exempt_irreversible, He by done. simpl.
    unfold Effect_Reversible in He. apply orb_false_iff in He as [-> _]. done.
  - intros c' Hc'. apply early_check_never_duplicate. exact Hc'.
Qed.

(** A write whose arguments derive from untrusted data runs only after a
    human granted it, even where an authored policy allows the tool outright;
    the platform's own review-queue and coordination writes are the exception. *)
Theorem tainted_write_needs_grant g r :
  Proceeds g r -> label_set (R_ArgLabels r) -> In LabelUntrusted (R_ArgLabels r) ->
  R_Effect r <> EffectRead -> reviewQueueWrite r || coordinationWrite r = false ->
  R_ApprovalGranted r = true.
Proof.
  intros Hp Hl Hin He Hx.
  destruct (proceeds_check g r RuleTaint checkTaint Hp ltac:(in_table) ltac:(done)) as [H|[_ H]];
    [|done].
  unfold checkTaint in H. rewrite HasAny_untrusted, Hx in H by done.
  apply Z.eqb_neq in He. rewrite He in H. simpl in H. by destruct (Effect_Reversible _).
Qed.

(** An enabled, enforcing deny that matches a call always stops it: no
    allow policy, whatever its place in the set, and no human grant lets the
    call run. *)
Theorem matching_deny_never_runs g r p :
  In p (policies g) -> enforcing (inputFrom r) p -> P_Effect p = PolicyDeny -> ~ Proceeds g r.
Proof.
  intros Hin He Hd Hp.
  assert (VerdictBlock <= pr_verdict (authored_of g r))%Z as Hv.
  { change VerdictBlock with (PolicyEffect_Verdict PolicyDeny). rewrite <- Hd.
    apply enforcing_verdict; done. }
  destruct (authored_verdict_cases g r) as [E|[E|E]]; try (rewrite E in Hv; done).
  pose proof (proj1 (proceeds_iff g r) Hp _ policy_check_in) as H.
  unfold says, run_check in H. simpl in H. unfold mergePolicy in H. rewrite E in H.
  simpl in H. naive_solver.
Qed.

(** Default deny: a destructive, financial or unclassified call that
    compensates nothing runs only if an enabled, enforcing policy matched it,
    and then either that policy allows it or it escalates and a human granted
    the call. *)
Theorem irreversible_needs_authored_rule g r :
  Proceeds g r -> R_Compensating r = "" -> Effect_Reversible (R_Effect r) = false ->
  exists p, In p (policies g) /\ enforcing (inputFrom r) p /\
    (P_Effect p = PolicyAllow \/
     (P_Effect p = PolicyEscalate /\ R_ApprovalGranted r = true)).
Proof.
  intros Hp Hc He.
  pose proof (proj1 (proceeds_iff g r) Hp _ policy_check_in) as H.
  unfold says, run_check in H. simpl in H. unfold mergePolicy in H.
  destruct (authored_verdict_cases g r) as [E|[E|E]]; rewrite E in H; simpl in H.
  - destruct (pr_allowed (authored_of g r)) eqn:Ea.
    + apply allowed_has_policy in Ea as [|(p & ? & ? & ?)]; [done|eauto 10].
    + exfalso. unfold checkPolicy in H. rewrite Hc, not_exempt_irreversible in H by done.
      apply orb_false_iff in He as [Hr Hw]. rewrite Hr, Hw in H. simpl in H. naive_solver.
  - destruct H as [H|[_ Hg]]; [done|].
    apply escalated_has_policy in E as (p & ? & ? & ?); [|done]. eauto 10.
  - naive_solver.
Qed.

(** Watching policies watch: taking every monitor-mode policy out of the set
    in force changes nothing of the ruling but the list of watchers. *)
Theorem monitored_policies_change_no_ruling g r :
  let g' := {| policyHash := policyHash g;
               policies := List.filter not_monitored (policies g) |} in
  let d := Evaluate g r in
  let d' := Evaluate g' r in
  D_Verdict d = D_Verdict d' /\ D_Rule d = D_Rule d' /\ D_Reason d = D_Reason d' /\
  D_PolicyCode d = D_PolicyCode d' /\ D_Breached d = D_Breached d'.
Proof.
  cbn zeta. rewrite !Evaluate_ruling. unfold ruling.
  set (g' := {| policyHash := _ |}).
  assert (same_ruling (authored_of g r) (authored_of g' r)) as Hs
    by (apply monitors_same; reflexivity).
  assert (forall c, run_check (authored_of g r) r c = run_check (authored_of g' r) r c) as Hr
    by (intros; by apply run_check_same).
  rewrite (find_ext (fun c => Verdict_Terminal (says g r c))
             (fun c => Verdict_Terminal (says g' r c)))
    by (intros; unfold says; by rewrite Hr).
  rewrite (find_ext (fun c => Z.eqb (says g r c) VerdictRequireApproval)
             (fun c => Z.eqb (says g' r c) VerdictRequireApproval))
    by (intros; unfold says; by rewrite Hr).
  destruct Hs as (_ & Hcode & _ & _).
  repeat case_match; cbn; rewrite ?Hr, ?Hcode; auto.
Qed.

(** A request the gate lets run keeps the run inside its envelope: when the
    sums of what is committed and what the call may cost fit in 64 bits, every
    dimension with a ceiling holds the exact sum. *)
Theorem proceeding_fits_budget g r :
  Proceeds g r -> no_overflow (R_Committed r) (R_Estimate r) ->
  Fits (R_Budget r) (exact_sum (R_Committed r) (R_Estimate r)).
Proof.
  intros Hp Ho.
  destruct (proceeds_check g r RuleBudget checkBudget Hp ltac:(in_table) ltac:(done)) as [H|[H _]];
    unfold checkBudget in H; apply exceeds_fits; rewrite <- projection_exact by done;
    destruct (String.eqb_spec (Budget_Exceeds (R_Budget r) (projection r)) ""); auto; done.
Qed.

(** A request the gate lets run is one the run's capability pack names, or
    one that undoes a tool the pack names; it has an effect classification; and
    every scope label on its arguments is one the run's scope may read. *)
Theorem proceeding_is_within_bounds g r :
  Proceeds g r -> StronglySorted str_lt (R_Pack r) ->
  (In (R_Tool r) (R_Pack r) \/ (R_Compensating r <> "" /\ In (R_Compensating r) (R_Pack r))) /\
  Effect_Valid (R_Effect r) = true /\
  Forall (label_allowed (R_ArgLabels r) (R_Scope r)) (R_ArgLabels r).
Proof.
  intros Hp Hs. split; [|split].
  - destruct (proceeds_check g r RuleCapability checkCapability Hp ltac:(in_table) ltac:(done))
      as [H|[H _]]; unfold checkCapability in H; case_all; try done;
      unfold Pack_Allows in *; bsimp; rewrite ?binary_search_In in * by done; tauto.
  - destruct (proceeds_check g r RuleContract checkContract Hp ltac:(in_table) ltac:(done))
      as [H|[H _]]; unfold checkContract, linkUnmakeable in H; case_all; try done; by bsimp.
  - destruct (proceeds_check g r RuleDataBarrier checkDataBarrier Hp ltac:(in_table) ltac:(done))
      as [H|[H _]]; unfold checkDataBarrier in H; apply barrier_spec; case_all; done.
Qed.

(** An effect already on the record is never run again: the gate lets no
    request proceed whose idempotency key has already executed, approved or
    not. *)
Theorem recorded_effect_never_repeats g r : R_AlreadyExecuted r = true -> ~ Proceeds g r.
Proof.
  intros Ha Hp.
  destruct (proceeds_check g r RuleIdempotency checkIdempotency Hp ltac:(in_table) ltac:(done))
    as [H|[H _]]; unfold checkIdempotency in H; rewrite Ha in H; by case_match.
Qed.

(** An agent in copilot (or at a stage the installation does not know) runs
    nothing but reads without a human's grant, the platform's review-queue and
    coordination writes in copilot apart; an authored allow does not lift it. *)
Theorem copilot_acts_only_when_granted g r :
  Proceeds g r -> R_Effect r <> EffectRead -> R_Stage r <> StageAutonomous ->
  (R_Stage r = StageCopilot /\ reviewQueueWrite r || coordinationWrite r = true) \/
  R_ApprovalGranted r = true.
Proof.
  intros Hp He Hs.
  destruct (proceeds_check g r RuleAutonomy checkAutonomy Hp ltac:(in_table) ltac:(done))
    as [H|[_ H]]; [|auto].
  apply Z.eqb_neq in He. apply String.eqb_neq in Hs.
  unfold checkAutonomy, Stage_NeedsApproval, Stage_Valid in H. simpl in H.
  rewrite He, Hs in H. case_all; try done; bsimp; naive_solver.
Qed.

(** Narrowing a capability pack by another gives exactly the tools both
    name, and the result is again a pack: delegation never widens. *)
Theorem narrow_is_intersection ts us t :
  Pack_Allows (Pack_Narrow (NewPack ts) (NewPack us)) t =
  Pack_Allows (NewPack ts) t && Pack_Allows (NewPack us) t.
Proof.
  apply eq_true_iff_eq. rewrite andb_true_iff. unfold Pack_Allows at 1 2.
  rewrite binary_search_In by (apply StronglySorted_filter, sort_compact_sorted).
  unfold Pack_Narrow. rewrite List.filter_In, binary_search_In by apply sort_compact_sorted.
  reflexivity.
Qed.

(** The built-in ladder denies a financial call outright, yet a single
    authored policy that only escalates it replaces that denial, and a grant
    then lets the call run: an escalation lowers the floor too, not an allow
    alone. *)
Theorem escalation_lowers_the_floor :
  let pay := sample "bank.pay" EffectFinancial [] true in
  D_Verdict (Evaluate (gate_with []) pay) = VerdictBlock /\
  Proceeds (gate_with [rule_on "bank.*" PolicyEscalate]) pay.
Proof. split; vm_compute; reflexivity. Qed.

(** ** Witnesses *)

Lemma tainted_irreversible_blocked_witness :
  D_Verdict (Evaluate (gate_with [rule_on "*" PolicyAllow])
               (sample "bank.pay" EffectFinancial [LabelUntrusted] true)) = VerdictBlock.
Proof.
  apply tainted_irreversible_blocked; [apply sample_label_set|vm_compute; auto|reflexivity].
Defined.

Lemma tainted_write_needs_grant_witness :
  R_ApprovalGranted (sample "crm.update" EffectWrite [LabelUntrusted] true) = true.
Proof.
  apply (tainted_write_needs_grant (gate_with [rule_on "crm.*" PolicyAllow]));
    [vm_compute; reflexivity|apply sample_label_set|vm_compute; auto|vm_compute; congruence|
     reflexivity].
Defined.

Lemma matching_deny_never_runs_witness :
  ~ Proceeds (gate_with [rule_on "*" PolicyAllow; rule_on "crm.*" PolicyDeny])
      (sample "crm.read" EffectRead [] true).
Proof.
  apply (matching_deny_never_runs _ _ (rule_on "crm.*" PolicyDeny));
    [simpl; auto|split; [reflexivity|vm_compute; congruence]|reflexivity].
Defined.

Lemma irreversible_needs_authored_rule_witness :
  exists p, In p [rule_on "bank.*" PolicyAllow] /\
    enforcing (inputFrom (sample "bank.pay" EffectFinancial [] false)) p /\
    (P_Effect p = PolicyAllow \/
     (P_Effect p = PolicyEscalate /\
      R_ApprovalGranted (sample "bank.pay" EffectFinancial [] false) = true)).
Proof.
  apply (irreversible_needs_authored_rule (gate_with [rule_on "bank.*" PolicyAllow])
           (sample "bank.pay" EffectFinancial [] false)); vm_compute; reflexivity.
Defined.

Lemma proceeding_fits_budget_witness :
  Fits (MkBudget 100 0 10 0 0) (MkConsumption 30 5 2 4 40).
Proof.
  apply (proceeding_fits_budget (gate_with []) (sample "crm.find" EffectRead [] false));
    [vm_compute; reflexivity|repeat split; reflexivity].
Defined.

Lemma proceeding_is_within_bounds_witness :
  let r := sample "crm.find" EffectRead ["company:acme"; "area:acme/cx"] false in
  (In (R_Tool r) (R_Pack r) \/ (R_Compensating r <> "" /\ In (R_Compensating r) (R_Pack r))) /\
  Effect_Valid (R_Effect r) = true /\
  Forall (label_allowed (R_ArgLabels r) (R_Scope r)) (R_ArgLabels r).
Proof.
  apply (proceeding_is_within_bounds (gate_with [])
           (sample "crm.find" EffectRead ["company:acme"; "area:acme/cx"] false));
    [vm_compute; reflexivity|apply sort_compact_sorted].
Defined.

(** The same request in copilot, its key already executed or not. *)
Definition in_copilot (r : Request) (executed : bool) : Request :=
  {| R_Scope := R_Scope r; R_RunID := R_RunID r; R_AgentID := R_AgentID r; R_Seq := R_Seq r;
     R_Tool := R_Tool r; R_Effect := R_Effect r; R_Args := R_Args r;
     R_ArgLabels := R_ArgLabels r; R_Pack := R_Pack r; R_Stage := StageCopilot;
     R_Compensating := R_Compensating r; R_Budget := R_Budget r;
     R_Committed := R_Committed r; R_Estimate := R_Estimate r; R_IdemKey := R_IdemKey r;
     R_AlreadyExecuted := executed; R_ApprovalGranted := R_ApprovalGranted r;
     R_PendingReview := R_PendingReview r; R_LinkProven := R_LinkProven r;
     R_LinkRefusal := R_LinkRefusal r |}.

Lemma recorded_effect_never_repeats_witness :
  ~ Proceeds (gate_with [rule_on "*" PolicyAllow])
      (in_copilot (sample "crm.update" EffectWrite [] true) true).
Proof. apply recorded_effect_never_repeats. reflexivity. Defined.

Lemma copilot_acts_only_when_granted_witness :
  let r := in_copilot (sample "crm.update" EffectWrite [] true) false in
  (R_Stage r = StageCopilot /\ reviewQueueWrite r || coordinationWrite r = true) \/
  R_ApprovalGranted r = true.
Proof.
  apply (copilot_acts_only_when_granted (gate_with [rule_on "*" PolicyAllow]));
    [vm_compute; reflexivity|vm_compute; congruence|vm_compute; congruence].
Defined.
