(* ===== verification/Access.v ===== *)
(** * Who may do what, and where

    src/internal/domain/access.go and principal.go: the closed table of roles
    and permissions, a principal's grants, and the delegation that makes an
    agent act for a person. *)

From Stdlib Require Import ZArith Lia Ascii String.
From stdpp Require Import base list strings sets.
From S2P Require Import Prelude GoStrings Json Domain.

Local Open Scope string_scope.

(** ** Roles and permissions (access.go) *)

Abbreviation Role := string (only parsing).
Definition RoleAdmin : Role := "admin".
Definition RoleAuthor : Role := "author".
Definition RoleApprover : Role := "approver".
Definition RoleCurator : Role := "curator".
Definition RoleAuditor : Role := "auditor".

Definition roles : list Role := [RoleAdmin; RoleAuthor; RoleApprover; RoleCurator; RoleAuditor].
Definition Role_Valid (r : Role) : bool := existsb (String.eqb r) roles.
Definition ParseRole (s : string) : option Role :=
  let r := to_lower (trim_space s) in
  if Role_Valid r then Some r else None.

Abbreviation Permission := string (only parsing).
Definition PermRunRead : Permission := "run:read".
Definition PermRunTrigger : Permission := "run:trigger".
Definition PermRunCancel : Permission := "run:cancel".
Definition PermApprovalAct : Permission := "approval:act".
Definition PermApprovalGrant : Permission := "approval:grant".
Definition PermAgentRead : Permission := "agent:read".
Definition PermAgentPublish : Permission := "agent:publish".
Definition PermCostRead : Permission := "cost:read".
Definition PermAuditRead : Permission := "audit:read".
Definition PermAuditExport : Permission := "audit:export".
Definition PermToolRead : Permission := "tool:read".
Definition PermToolClassify : Permission := "tool:classify".
Definition PermPackWrite : Permission := "pack:write".
Definition PermProviderWrite : Permission := "provider:write".
Definition PermBudgetWrite : Permission := "budget:write".
Definition PermBrandWrite : Permission := "brand:write".
Definition PermPolicyRead : Permission := "policy:read".
Definition PermPolicyWrite : Permission := "policy:write".
Definition PermIdentityWrite : Permission := "identity:write".
Definition PermScopeWrite : Permission := "scope:write".
Definition PermDataErase : Permission := "data:erase".
Definition PermCompanyWrite : Permission := "company:write".

Definition grants : list (Role * list Permission) :=
  [(RoleAdmin,
     [PermRunRead; PermRunTrigger; PermRunCancel; PermApprovalAct; PermApprovalGrant;
      PermAgentRead; PermAgentPublish; PermCostRead; PermAuditRead; PermAuditExport;
      PermToolRead; PermToolClassify; PermPackWrite; PermProviderWrite; PermBudgetWrite;
      PermBrandWrite; PermPolicyRead; PermPolicyWrite; PermIdentityWrite; PermScopeWrite;
      PermDataErase; PermCompanyWrite]);
   (RoleAuthor,
     [PermRunRead; PermRunTrigger; PermRunCancel; PermAgentRead; PermAgentPublish;
      PermPolicyRead; PermCostRead; PermToolRead]);
   (RoleApprover,
     [PermRunRead; PermApprovalAct; PermAgentRead; PermCostRead; PermPolicyRead]);
   (RoleCurator,
     [PermRunRead; PermRunTrigger; PermRunCancel; PermAgentRead; PermAgentPublish;
      PermCostRead; PermAuditRead; PermToolRead; PermToolClassify; PermPackWrite;
      PermProviderWrite; PermBudgetWrite; PermBrandWrite; PermPolicyRead; PermPolicyWrite;
      PermIdentityWrite; PermScopeWrite; PermDataErase; PermCompanyWrite]);
   (RoleAuditor,
     [PermRunRead; PermAgentRead; PermCostRead; PermAuditRead; PermAuditExport; PermToolRead;
      PermPolicyRead])].

(** Reading a key the map does not hold gives the nil slice. *)
Definition grants_of (r : Role) : list Permission :=
  match List.find (fun row => String.eqb (fst row) r) grants with
  | Some (_, ps) => ps
  | None => []
  end.

Definition Role_Allows (r : Role) (p : Permission) : bool := existsb (String.eqb p) (grants_of r).

Definition RolesAllowing (p : Permission) : list Role :=
  List.filter (fun r => Role_Allows r p) roles.

Definition Role_Permissions (r : Role) : list Permission := sort_str (grants_of r).

(** ** Principals (principal.go) *)

Record Grant := MkGrant { G_Scope : Scope; G_Role : Role }.

Abbreviation PrincipalKind := string (only parsing).
Definition PrincipalUser : PrincipalKind := "user".
Definition PrincipalService : PrincipalKind := "service".
Definition PrincipalAgent : PrincipalKind := "agent".

Record Principal := {
  Pr_ID : UserID;
  Pr_Subject : string;
  Pr_Display : string;
  Pr_Kind : PrincipalKind;
  Pr_Grants : list Grant;
  Pr_OnBehalfOf : UserID
}.

Definition barredFrom (p : Principal) (perm : Permission) : bool :=
  if negb (String.eqb (Pr_Kind p) PrincipalService) && negb (String.eqb (Pr_Kind p) PrincipalAgent)
  then false
  else String.eqb perm PermApprovalAct || String.eqb perm PermApprovalGrant ||
       String.eqb perm PermIdentityWrite.

Definition Principal_Can (p : Principal) (perm : Permission) (scope : Scope) : bool :=
  if barredFrom p perm then false
  else existsb (fun g => Scope_Contains (G_Scope g) scope && Role_Allows (G_Role g) perm)
         (Pr_Grants p).

Definition Principal_CanAnywhere (p : Principal) (perm : Permission) : bool :=
  if barredFrom p perm then false
  else existsb (fun g => Role_Allows (G_Role g) perm) (Pr_Grants p).

(** The scopes of the grants that carry the permission, each once, in order. *)
Definition scopes_step (perm : Permission) (out : list Scope) (g : Grant) : list Scope :=
  if Role_Allows (G_Role g) perm && negb (bool_decide (G_Scope g ∈ out))
  then (out ++ [G_Scope g])%list else out.

Definition Principal_ScopesFor (p : Principal) (perm : Permission) : list Scope :=
  if barredFrom p perm then []
  else fold_left (scopes_step perm) (Pr_Grants p) [].

(** The inner loop's [break] keeps at most one copy of each envelope grant. *)
Definition delegated (human : Principal) (e : Grant) : bool :=
  existsb (fun h => Scope_Contains (G_Scope e) (G_Scope h) && String.eqb (G_Role e) (G_Role h))
    (Pr_Grants human).

Definition Delegate (human : Principal) (agent : AgentID) (envelope : list Grant) : Principal :=
  {| Pr_ID := agent; Pr_Subject := agent; Pr_Display := agent; Pr_Kind := PrincipalAgent;
     Pr_Grants := List.filter (delegated human) envelope; Pr_OnBehalfOf := Pr_ID human |}.

(** ** Lemmas *)

Lemma Can_spec p perm s :
  Principal_Can p perm s = true <->
  barredFrom p perm = false /\
  exists g, In g (Pr_Grants p) /\ Scope_Contains (G_Scope g) s = true /\
    Role_Allows (G_Role g) perm = true.
Proof.
  unfold Principal_Can. destruct (barredFrom p perm); [naive_solver|].
  rewrite existsb_exists. setoid_rewrite andb_true_iff. naive_solver.
Qed.

Lemma scopes_step_In perm gs acc s :
  In s (fold_left (scopes_step perm) gs acc) <->
  In s acc \/ exists g, In g gs /\ G_Scope g = s /\ Role_Allows (G_Role g) perm = true.
Proof.
  revert acc. induction gs as [|g gs IH]; intros acc; simpl; [naive_solver|].
  rewrite IH. unfold scopes_step.
  assert ((exists g0, (g = g0 \/ In g0 gs) /\ G_Scope g0 = s /\ Role_Allows (G_Role g0) perm = true)
    <-> (G_Scope g = s /\ Role_Allows (G_Role g) perm = true) \/
        exists g0, In g0 gs /\ G_Scope g0 = s /\ Role_Allows (G_Role g0) perm = true) as ->.
  { split; [intros (x & [->|] & ?); eauto|intros [|(x & ? & ?)]; eauto]. }
  destruct (Role_Allows (G_Role g) perm); simpl; [|intuition congruence].
  destruct (bool_decide_reflect (G_Scope g ∈ acc)) as [Hin|Hout]; simpl.
  - rewrite list_elem_of_In in Hin. intuition congruence.
  - rewrite in_app_iff. simpl. intuition congruence.
Qed.

Lemma scopes_step_NoDup perm gs acc :
  NoDup acc -> NoDup (fold_left (scopes_step perm) gs acc).
Proof.
  revert acc. induction gs as [|g gs IH]; intros acc Hacc; simpl; [done|].
  apply IH. unfold scopes_step. case_match; [|done]. bsimp.
  apply NoDup_app. split; [done|]. split; [set_solver|apply NoDup_singleton].
Qed.

Lemma Contains_area_level e h :
  Area e <> "" -> Company e <> Installation -> Scope_Contains e h = true -> e = h.
Proof. rewrite Contains_spec. destruct e, h; naive_solver. Qed.

(** ** Properties *)

(** A listing filtered by [ScopesFor] shows exactly what [Can] would permit
    one resource at a time: a scope is reachable if and only if some listed
    scope contains it, and no scope is listed twice. *)
Theorem scopes_for_agrees_with_can p perm s :
  NoDup (Principal_ScopesFor p perm) /\
  (Principal_Can p perm s = true <->
   exists held, In held (Principal_ScopesFor p perm) /\ Scope_Contains held s = true).
Proof.
  unfold Principal_ScopesFor. rewrite Can_spec. destruct (barredFrom p perm).
  - split; [apply NoDup_nil_2|]. naive_solver.
  - split; [apply scopes_step_NoDup, NoDup_nil_2|].
    setoid_rewrite scopes_step_In. naive_solver.
Qed.

(** The company boundary: a principal holding grants in one company only can
    do nothing in another, and no grant below the installation carries any
    permission at the installation scope. *)
Theorem grants_stay_in_their_company p perm s c :
  (forall g, In g (Pr_Grants p) -> Company (G_Scope g) = c) -> c <> Installation ->
  Principal_Can p perm s = true -> Company s = c /\ ~ s = MkScope Installation "".
Proof.
  intros Hg Hc Hcan. apply Can_spec in Hcan as (_ & g & Hin & Hcon & _).
  specialize (Hg g Hin). apply Contains_spec in Hcon as [E|(? & E & _)].
  - rewrite E in Hg. simpl in Hg. congruence.
  - split; [congruence|]. intros ->. simpl in E. congruence.
Qed.

(** No service account and no agent can act on an approval, grant a standing
    approval or change identities, whatever roles its grants hold. *)
Theorem only_people_release_effects p perm s :
  Pr_Kind p = PrincipalService \/ Pr_Kind p = PrincipalAgent ->
  perm = PermApprovalAct \/ perm = PermApprovalGrant \/ perm = PermIdentityWrite ->
  Principal_Can p perm s = false /\ Principal_CanAnywhere p perm = false /\
  Principal_ScopesFor p perm = [].
Proof.
  intros Hk Hp. assert (barredFrom p perm = true) as Hb.
  { unfold barredFrom. destruct Hk as [-> | ->], Hp as [-> | [-> | ->]]; done. }
  unfold Principal_Can, Principal_CanAnywhere, Principal_ScopesFor. by rewrite Hb.
Qed.

(** Where an agent's envelope names areas, delegation is an intersection:
    the agent can do in a scope only what the person it acts for can. *)
Theorem delegate_within_areas human agent envelope perm s :
  (forall e, In e envelope -> Area (G_Scope e) <> "" /\ Company (G_Scope e) <> Installation) ->
  Pr_Kind human = PrincipalUser ->
  Principal_Can (Delegate human agent envelope) perm s = true ->
  Principal_Can human perm s = true.
Proof.
  intros He Hk Hcan. apply Can_spec in Hcan as (_ & g & Hin & Hcon & Hall). simpl in Hin.
  apply List.filter_In in Hin as [Hin Hd]. unfold delegated in Hd.
  apply existsb_exists in Hd as (h & Hh & Hm). apply andb_true_iff in Hm as [Hs Hr].
  apply String.eqb_eq in Hr. destruct (He g Hin) as [Ha Hc].
  apply (Contains_area_level _ _ Ha Hc) in Hs. apply Can_spec. split.
  - unfold barredFrom. by rewrite Hk.
  - exists h. by rewrite <- Hs, <- Hr.
Qed.

Definition person (gs : list Grant) : Principal :=
  {| Pr_ID := "ana"; Pr_Subject := "ana"; Pr_Display := "Ana"; Pr_Kind := PrincipalUser;
     Pr_Grants := gs; Pr_OnBehalfOf := "" |}.

(** Where the envelope names a whole company, delegation widens: an agent
    acting for an author of one area may trigger runs in another area of the
    company, which that author may not. *)
Theorem delegate_widens_a_company_envelope :
  let human := person [MkGrant (MkScope "acme" "cx") RoleAuthor] in
  let agent := Delegate human "triage" [MkGrant (MkScope "acme" "") RoleAuthor] in
  Principal_Can agent PermRunTrigger (MkScope "acme" "financeiro") = true /\
  Principal_Can human PermRunTrigger (MkScope "acme" "financeiro") = false.
Proof. vm_compute. auto. Qed.

(** ** Witnesses *)

Lemma grants_stay_in_their_company_witness :
  Company (MkScope "acme" "cx") = "acme" /\ ~ MkScope "acme" "cx" = MkScope Installation "".
Proof.
  apply (grants_stay_in_their_company (person [MkGrant (MkScope "acme" "") RoleAuthor])
           PermRunTrigger (MkScope "acme" "cx") "acme").
  - intros g [<-|[]]. reflexivity.
  - vm_compute. congruence.
  - reflexivity.
Defined.

Definition service : Principal :=
  {| Pr_ID := "bot"; Pr_Subject := "bot"; Pr_Display := "bot"; Pr_Kind := PrincipalService;
     Pr_Grants := [MkGrant (MkScope Installation "") RoleAdmin]; Pr_OnBehalfOf := "" |}.

Lemma only_people_release_effects_witness :
  Principal_Can service PermApprovalAct (MkScope "acme" "cx") = false /\
  Principal_CanAnywhere service PermApprovalAct = false /\
  Principal_ScopesFor service PermApprovalAct = [].
Proof. apply only_people_release_effects; left; reflexivity. Defined.

Lemma delegate_within_areas_witness :
  Principal_Can (person [MkGrant (MkScope "acme" "cx") RoleAuthor]) PermRunTrigger
    (MkScope "acme" "cx") = true.
Proof.
  apply (delegate_within_areas _ "triage" [MkGrant (MkScope "acme" "cx") RoleAuthor]).
  - intros e [<-|[]]. vm_compute. split; congruence.
  - reflexivity.
  - reflexivity.
Defined.
