(* ===== verification/Replay.v ===== *)
(** * Replay

    src/internal/replay/replay.go: a run's gate decisions asked again, under the
    policy set each step names. [snapshots] is the store of policy sets by hash
    and [packs] the capability packs of agent versions, arguments here ([None]
    is an error). The cache of sets is threaded as the source keeps it. *)

From Stdlib Require Import ZArith Lia Ascii String.
From stdpp Require Import base list strings gmap.
From S2P Require Import Prelude GoStrings Json Domain Policy Sha256 Step Payload Encode State Gate.

Local Open Scope string_scope.

Record Divergence := MkDivergence {
  Dv_Seq : Z;
  Dv_Tool : ToolID;
  Dv_Was : Verdict;
  Dv_Now : Verdict;
  Dv_WasRule : string;
  Dv_NowRule : string;
  Dv_Why : string
}.

Record Report := MkReport {
  Rp_RunID : RunID;
  Rp_Decisions : Z;
  Rp_Reproduced : Z;
  Rp_Divergences : list Divergence
}.

Definition Report_Faithful (r : Report) : bool :=
  (0 <? Rp_Decisions r)%Z && Z.eqb (Rp_Reproduced r) (Rp_Decisions r).

Inductive ReplayError := NothingToReplay | PackUnreadable.

(** [decode]: unlike the engine's, no payload is an error. *)
Definition replay_decode (s : Step) : option GateDecidedPayload :=
  if String.eqb (S_Payload s) "" then None
  else decode_payload zeroGateDecidedPayload d_GateDecidedPayload (S_Payload s).

Definition replay_request (pack : Pack) (s : Step) (recorded : GateDecidedPayload) : Request :=
  {| R_Scope := S_Scope s; R_RunID := S_RunID s; R_AgentID := S_AgentID s; R_Seq := S_Seq s;
     R_Tool := GD_Tool recorded; R_Effect := GD_Effect recorded; R_Args := "";
     R_ArgLabels := GD_Labels recorded; R_Pack := pack; R_Stage := GD_Stage recorded;
     R_Compensating := ""; R_Budget := zeroBudget; R_Committed := zeroConsumption;
     R_Estimate := zeroConsumption; R_IdemKey := ""; R_AlreadyExecuted := false;
     R_ApprovalGranted := Verdict_Executable (GD_Verdict recorded) &&
                          String.eqb (GD_Rule recorded) RuleApproval;
     R_PendingReview := false; R_LinkProven := false; R_LinkRefusal := "" |}.

Definition replayOne (pack : Pack) (s : Step) (recorded : GateDecidedPayload) (policies : list Policy)
    : Decision :=
  Evaluate (WithPolicies New (S_PolicyHash s) policies) (replay_request pack s recorded).

Section Replay.
Context (snapshots : string -> option (list Policy)) (packs : AgentID -> VersionID -> option Pack).

Definition setFor (cache : gmap string (list Policy)) (hash : string)
    : gmap string (list Policy) * option (list Policy) :=
  if String.eqb hash "" then (cache, Some [])
  else match cache !! hash with
       | Some set => (cache, Some set)
       | None => match snapshots hash with
                 | Some set => (<[hash := set]> cache, Some set)
                 | None => (cache, None)
                 end
       end.

Definition counted (r : Report) : Report :=
  MkReport (Rp_RunID r) (Rp_Decisions r + 1) (Rp_Reproduced r) (Rp_Divergences r).
Definition reproduced (r : Report) : Report :=
  MkReport (Rp_RunID r) (Rp_Decisions r) (Rp_Reproduced r + 1) (Rp_Divergences r).
Definition diverged (r : Report) (d : Divergence) : Report :=
  MkReport (Rp_RunID r) (Rp_Decisions r) (Rp_Reproduced r) (Rp_Divergences r ++ [d]).

Definition replay_step (pack : Pack) (acc : gmap string (list Policy) * Report) (s : Step)
    : gmap string (list Policy) * Report :=
  let '(cache, report) := acc in
  if negb (String.eqb (S_Kind s) StepGateDecided) then (cache, report)
  else
    let report := counted report in
    match replay_decode s with
    | None =>
        (cache, diverged report (MkDivergence (S_Seq s) "" 0 0 "" "" "the recorded decision cannot be read"))
    | Some recorded =>
        let unjudged why := MkDivergence (S_Seq s) (GD_Tool recorded) (GD_Verdict recorded) 0
                              (GD_Rule recorded) "" why in
        let '(cache, set) := setFor cache (S_PolicyHash s) in
        match set with
        | None =>
            (cache, diverged report (unjudged ("the policy set " +:+ S_PolicyHash s +:+ " was not kept")))
        | Some policies =>
            if negb (Stage_Valid (GD_Stage recorded))
            then (cache, diverged report (unjudged "the decision does not record the trust stage"))
            else
              let again := replayOne pack s recorded policies in
              if Z.eqb (D_Verdict again) (GD_Verdict recorded) && String.eqb (D_Rule again) (GD_Rule recorded)
              then (cache, reproduced report)
              else (cache, diverged report
                      (MkDivergence (S_Seq s) (GD_Tool recorded) (GD_Verdict recorded) (D_Verdict again)
                         (GD_Rule recorded) (D_Rule again) ""))
        end
    end.

Definition Replay_Run (steps : list Step) : result ReplayError Report :=
  match steps with
  | [] => Err NothingToReplay
  | first :: _ =>
      match packs (S_AgentID first) (S_VersionID first) with
      | None => Err PackUnreadable
      | Some pack => Ok (snd (fold_left (replay_step pack) steps (∅, MkReport (S_RunID first) 0 0 [])))
      end
  end.

(** ** What a replay shows *)

(** Each check rules the same on a request and on its replay. *)
Record replayable (g : GateT) (pack : Pack) (s : Step) (recorded : GateDecidedPayload) (r : Request) : Prop := {
  rp_scope : R_Scope r = S_Scope s;
  rp_agent : R_AgentID r = S_AgentID s;
  rp_pack : R_Pack r = pack;
  rp_acts : R_Compensating r = "";
  rp_args : R_Args r = "" \/ json_valid (R_Args r) = true;
  rp_budget : Budget_Exceeds (R_Budget r) (projection r) = "";
  rp_first : R_AlreadyExecuted r = false;
  rp_review : R_PendingReview r = false;
  rp_link : R_LinkProven r = false /\ R_LinkRefusal r = "";
  rp_tool : GD_Tool recorded = R_Tool r;
  rp_effect : GD_Effect recorded = R_Effect r;
  rp_labels : GD_Labels recorded = R_ArgLabels r;
  rp_stage : GD_Stage recorded = R_Stage r /\ Stage_Valid (R_Stage r) = true;
  rp_authored :
    pr_verdict (authored_of g r) = pr_verdict (authored_of g (replay_request pack s recorded)) /\
    pr_allowed (authored_of g r) = pr_allowed (authored_of g (replay_request pack s recorded));
  rp_verdict : GD_Verdict recorded = D_Verdict (Evaluate g r);
  rp_rule : GD_Rule recorded = D_Rule (Evaluate g r)
}.

Lemma replay_says g pack s recorded r c :
  replayable g pack s recorded r -> In c checkOrder ->
  says g (replay_request pack s recorded) c = says g r c.
Proof.
  intros [Hscope _ Hpack Hacts Hargs Hbudget Hfirst Hreview [Hproven Hrefusal] Htool Heffect Hlabels
    [Hstage _] [Hv Ha] _ _] Hc.
  assert (cr_verdict (snd c (replay_request pack s recorded)) = cr_verdict (snd c r)) as Hladder.
  { cbn in Hc. repeat destruct Hc as [<-|Hc]; try done; cbn [snd]; unfold_checks;
      unfold coordinationMisclassified, coordinationWrite, reviewQueueWrite; cbn;
      rewrite ?Hscope, ?Hpack, ?Hacts, ?Hfirst, ?Hreview, ?Hproven, ?Hrefusal, ?Htool, ?Heffect, ?Hlabels,
        ?Hstage; cbn; try done.
    - destruct Hargs as [-> | ->]; cbn; [done|]. by destruct (negb (String.eqb (R_Args r) "")).
    - by rewrite Hbudget. }
  unfold says, run_check. case_match; [|done].
  unfold mergePolicy. rewrite Hv, Ha. by repeat case_match.
Qed.

Lemma find_ext_in {A} (f g : A -> bool) l : (forall x, In x l -> f x = g x) -> List.find f l = List.find g l.
Proof.
  induction l as [|x l IH]; cbn; intros H; [done|]. rewrite (H x) by auto. rewrite IH by auto. done.
Qed.

(** The gate asked again answers the same. *)
Lemma replay_same g pack s recorded r :
  replayable g pack s recorded r ->
  D_Verdict (Evaluate g (replay_request pack s recorded)) = GD_Verdict recorded /\
  D_Rule (Evaluate g (replay_request pack s recorded)) = GD_Rule recorded.
Proof.
  intros H. rewrite (rp_verdict _ _ _ _ _ H), (rp_rule _ _ _ _ _ H).
  assert (R_ApprovalGranted (replay_request pack s recorded) =
    Verdict_Executable (D_Verdict (Evaluate g r)) && String.eqb (D_Rule (Evaluate g r)) RuleApproval) as Hgrant
    by (cbn; by rewrite (rp_verdict _ _ _ _ _ H), (rp_rule _ _ _ _ _ H)).
  rewrite !Evaluate_ruling in *. revert Hgrant. unfold ruling. cbv zeta.
  pose proof (fun c => replay_says g pack s recorded r c H) as Hsays.
  rewrite (find_ext_in (fun c => Verdict_Terminal (says g (replay_request pack s recorded) c))
                    (fun c => Verdict_Terminal (says g r c))) by (intros c Hc; by rewrite Hsays).
  rewrite (find_ext_in (fun c => Z.eqb (says g (replay_request pack s recorded) c) VerdictRequireApproval)
                    (fun c => Z.eqb (says g r c) VerdictRequireApproval)) by (intros c Hc; by rewrite Hsays).
  destruct (List.find (fun c => Verdict_Terminal (says g r c)) checkOrder) as [c|] eqn:E1.
  { apply find_some in E1 as [Hc _]. intros _. cbn. split; [|done]. by apply (Hsays c). }
  destruct (List.find (fun c => Z.eqb (says g r c) VerdictRequireApproval) checkOrder) as [c|] eqn:E2; [|done].
  apply find_some in E2 as [Hc Ev]. apply Z.eqb_eq in Ev. intros ->.
  destruct (R_ApprovalGranted r); cbn; [done|].
  change (cr_verdict (run_check (authored_of g r) r c)) with (says g r c).
  rewrite Ev. cbn. split; [|done]. change (says g (replay_request pack s recorded) c = VerdictRequireApproval).
  by rewrite Hsays.
Qed.

(** One decision, on its own: what diverges from the record, if anything. *)
Definition set_of (hash : string) : option (list Policy) :=
  if String.eqb hash "" then Some [] else snapshots hash.

Definition divergence_of (pack : Pack) (s : Step) : option Divergence :=
  match replay_decode s with
  | None => Some (MkDivergence (S_Seq s) "" 0 0 "" "" "the recorded decision cannot be read")
  | Some recorded =>
      let unjudged why := Some (MkDivergence (S_Seq s) (GD_Tool recorded) (GD_Verdict recorded) 0
                                  (GD_Rule recorded) "" why) in
      match set_of (S_PolicyHash s) with
      | None => unjudged ("the policy set " +:+ S_PolicyHash s +:+ " was not kept")
      | Some set =>
          if negb (Stage_Valid (GD_Stage recorded))
          then unjudged "the decision does not record the trust stage"
          else
            let again := replayOne pack s recorded set in
            if Z.eqb (D_Verdict again) (GD_Verdict recorded) && String.eqb (D_Rule again) (GD_Rule recorded)
            then None
            else Some (MkDivergence (S_Seq s) (GD_Tool recorded) (GD_Verdict recorded) (D_Verdict again)
                         (GD_Rule recorded) (D_Rule again) "")
      end
  end.

Definition is_decision (s : Step) : bool := String.eqb (S_Kind s) StepGateDecided.

Definition decisions_of (steps : list Step) : list Step := List.filter is_decision steps.

(** The report of some decisions, judged one by one. *)
Definition report_of (run : RunID) (pack : Pack) (decisions : list Step) : Report :=
  let ds := omap (divergence_of pack) decisions in
  MkReport run (Z.of_nat (List.length decisions))
    (Z.of_nat (List.length decisions) - Z.of_nat (List.length ds)) ds.

(** What the cache holds is what the store would answer. *)
Definition cache_ok (cache : gmap string (list Policy)) : Prop :=
  forall hash set, cache !! hash = Some set -> snapshots hash = Some set.

Lemma setFor_spec cache hash cache' set :
  cache_ok cache -> setFor cache hash = (cache', set) -> cache_ok cache' /\ set = set_of hash.
Proof.
  intros Hc. unfold setFor, set_of. case_match; [by intros [= <- <-]|].
  destruct (cache !! hash) as [x|] eqn:E; [intros [= <- <-]; split; [done|]; symmetry; by apply Hc|].
  destruct (snapshots hash) as [x|] eqn:Es; intros [= <- <-]; split; try done.
  intros h y [[<- <-]|[_ Hy]]%lookup_insert_Some; [done|by apply Hc].
Qed.

Lemma report_snoc run pack ds s :
  report_of run pack (ds ++ [s]) =
  match divergence_of pack s with
  | None => reproduced (counted (report_of run pack ds))
  | Some d => diverged (counted (report_of run pack ds)) d
  end.
Proof.
  unfold report_of, reproduced, diverged, counted. rewrite omap_app, !length_app. cbn.
  destruct (divergence_of pack s); cbn; f_equal; rewrite ?app_nil_r; try lia; done.
Qed.

Lemma replay_steps pack run rest : forall cache before,
  cache_ok cache ->
  snd (fold_left (replay_step pack) rest (cache, report_of run pack (decisions_of before))) =
  report_of run pack (decisions_of (before ++ rest)).
Proof.
  induction rest as [|s rest IH]; intros cache before Hc; cbn [fold_left]; [by rewrite app_nil_r|].
  assert (exists cache', cache_ok cache' /\
    replay_step pack (cache, report_of run pack (decisions_of before)) s =
    (cache', report_of run pack (decisions_of (before ++ [s])))) as (cache' & Hc' & ->).
  2: { rewrite IH by done. by rewrite <- app_assoc. }
  unfold decisions_of. rewrite List.filter_app. cbn [List.filter]. unfold replay_step, is_decision.
  destruct (String.eqb (S_Kind s) StepGateDecided) eqn:Ek; cbn [negb]; [|exists cache; by rewrite app_nil_r].
  rewrite report_snoc. unfold divergence_of. destruct (replay_decode s) as [recorded|] eqn:Ed; [|by exists cache].
  destruct (setFor cache (S_PolicyHash s)) as [cache' set] eqn:Es.
  apply setFor_spec in Es as [Hc' ->]; [|done]. exists cache'. split; [done|].
  destruct (set_of (S_PolicyHash s)) as [policies|]; [|done].
  destruct (negb (Stage_Valid (GD_Stage recorded))); [done|]. cbv zeta. by destruct (_ && _).
Qed.

(** C37. A replay is every recorded decision asked again on its own: with the
    pack of the version that ran, the report counts the run's gate decisions and
    lists, in order, exactly those whose verdict or rule the gate does not give
    again under the set their hash names, or that cannot be asked; the shared
    cache of sets changes nothing. A decision on a request [replayable] as
    recorded is never listed. *)
Theorem replay_asks_each_decision_again first rest pack :
  packs (S_AgentID first) (S_VersionID first) = Some pack ->
  Replay_Run (first :: rest) = Ok (report_of (S_RunID first) pack (decisions_of (first :: rest))) /\
  forall s recorded set r,
    replay_decode s = Some recorded -> set_of (S_PolicyHash s) = Some set ->
    replayable (WithPolicies New (S_PolicyHash s) set) pack s recorded r -> divergence_of pack s = None.
Proof.
  intros Hp. split.
  - unfold Replay_Run. rewrite Hp. f_equal.
    apply (replay_steps pack (S_RunID first) (first :: rest) ∅ []).
    intros hash set. by rewrite lookup_empty.
  - intros s recorded set r Hd Hs Hr. unfold divergence_of. rewrite Hd, Hs.
    destruct (rp_stage _ _ _ _ _ Hr) as [-> ->]. cbn [negb]. unfold replayOne.
    destruct (replay_same _ _ _ _ _ Hr) as [-> ->]. by rewrite Z.eqb_refl, String.eqb_refl.
Qed.
End Replay.

(** ** A trail replay blames wrongly *)

Module Blamed.

(** Decisions as the engine asks for them: a suggestion for the review queue, a
    call it has already made, and a tool of the run's pack that the step at hand
    does not offer. *)
Definition asked (tool : ToolID) (effect : Effect) (pack : Pack) (already review : bool) : Request :=
  {| R_Scope := MkScope "acme" "cx"; R_RunID := "run-1"; R_AgentID := "triage"; R_Seq := 3; R_Tool := tool;
     R_Effect := effect; R_Args := ""; R_ArgLabels := []; R_Pack := pack; R_Stage := StageAutonomous;
     R_Compensating := ""; R_Budget := zeroBudget; R_Committed := zeroConsumption;
     R_Estimate := zeroConsumption; R_IdemKey := "k"; R_AlreadyExecuted := already; R_ApprovalGranted := false;
     R_PendingReview := review; R_LinkProven := false; R_LinkRefusal := "" |}.

Definition whole : Pack := ["crm.find"; "crm.update"].
Definition suggesting : Pack := [ToolMemorySuggest].

Definition reviewed : Request := asked ToolMemorySuggest EffectWrite suggesting false true.
Definition repeated : Request := asked "crm.find" EffectRead whole true false.
Definition outside : Request := asked "crm.find" EffectRead ["crm.update"] false false.

(** The step the engine records of a decision. *)
Definition recorded_step (r : Request) : Step :=
  let d := Evaluate New r in
  MkStep (R_RunID r) (R_Seq r) StepGateDecided (R_Scope r) (R_AgentID r) "v1" "ana"
    (marshal c_GateDecidedPayload
       (MkGateDecidedPayload (R_Tool r) (R_Effect r) (D_Verdict d) (D_Rule d) (D_Reason d) "" [] None
          (R_Stage r) (R_ArgLabels r) "" "" None None None None ""))
    [] zeroCost "" (D_PolicyHash d) 0 "" "".

Definition asked_again (pack : Pack) (r : Request) : result ReplayError Report :=
  Replay_Run (fun _ => Some []) (fun _ _ => Some pack) [recorded_step r].

Definition blames (r : result ReplayError Report) : option (Z * list (Verdict * string * Verdict * string)) :=
  match r with
  | Ok rep => Some (Rp_Reproduced rep,
                    List.map (fun d => (Dv_Was d, Dv_WasRule d, Dv_Now d, Dv_NowRule d)) (Rp_Divergences rep))
  | Err _ => None
  end.
End Blamed.

(** Replay reports divergence on trails nothing is wrong with: a suggestion
    let through to the review queue, a call refused as already made, and a tool
    refused because the step at hand does not offer it are each recorded as the
    gate ruled, under policies that were kept and have not changed, and each is
    replayed to another ruling, because the request is rebuilt without the
    review, the duplicate or the step's envelope. *)
Theorem replay_blames_faithful_trails :
  Blamed.blames (Blamed.asked_again Blamed.suggesting Blamed.reviewed) =
    Some (0%Z, [(VerdictAllow, RulePassed, VerdictRequireApproval, RulePolicy)]) /\
  Blamed.blames (Blamed.asked_again Blamed.whole Blamed.repeated) =
    Some (0%Z, [(VerdictDuplicate, RuleIdempotency, VerdictAllow, RulePassed)]) /\
  Blamed.blames (Blamed.asked_again Blamed.whole Blamed.outside) =
    Some (0%Z, [(VerdictBlock, RuleCapability, VerdictAllow, RulePassed)]).
Proof. vm_compute. done. Qed.

Definition plain_read : Step := Blamed.recorded_step (Blamed.asked "crm.find" EffectRead Blamed.whole false false).

Lemma replay_asks_each_decision_again_witness :
  Replay_Run (fun _ => Some []) (fun _ _ => Some Blamed.whole) [plain_read] =
    Ok (report_of (fun _ => Some []) "run-1" Blamed.whole [plain_read]) /\
  Rp_Divergences (report_of (fun _ => Some []) "run-1" Blamed.whole [plain_read]) = [].
Proof.
  split; [|vm_compute; reflexivity].
  apply (replay_asks_each_decision_again (fun _ => Some []) (fun _ _ => Some Blamed.whole) plain_read []
           Blamed.whole eq_refl).
Defined.
