(* ===== verification/Ports.v ===== *)
(** * The engine's ports

    src/internal/engine/ports.go, and the types of errors.go, fallback.go and
    domain/memory.go the run loop carries. The loop is a program over its
    collaborators: every call it makes on a port is one constructor of [port],
    and a [prog] is a tree of such calls, one branch per possible answer. What a
    port answers is decided by whoever runs the program; the in-memory ledger
    answers the ledger's calls in [System], and every other port may answer
    anything of its type. *)

From Stdlib Require Import ZArith Lia Ascii String.
From stdpp Require Import base list strings gmap.
From S2P Require Import Prelude GoStrings Json Domain Policy Sha256 Dedupe Step Payload Encode WorkItem State Ledger Gate.

Local Open Scope string_scope.

(** ** Learning (domain/memory.go) *)

Abbreviation MemoryLearningMode := string (only parsing).
Definition MemoryLearningOff : MemoryLearningMode := "off".
Definition MemoryLearningReview : MemoryLearningMode := "review".
Definition MemoryLearningAutoConfirm : MemoryLearningMode := "auto_confirm".

Definition MemoryLearningMode_Valid (m : MemoryLearningMode) : bool :=
  existsb (String.eqb m) [MemoryLearningOff; MemoryLearningReview; MemoryLearningAutoConfirm].

Definition DefaultMemoryLearningMinObservations : Z := 3.
Definition DefaultMemoryLearningTTLDays : Z := 30.
Definition MaxMemoryEvidence : Z := 8.
Definition MaxMemoryLearningMinObservations : Z := MaxMemoryEvidence.
Definition MaxMemoryLearningTTLDays : Z := 365.

Record MemoryLearningPolicy := MkMemoryLearningPolicy {
  ML_Mode : MemoryLearningMode;
  ML_MinObservations : Z;
  ML_TTLDays : Z
}.

Definition MemoryLearningPolicy_Normalize (p : MemoryLearningPolicy) : MemoryLearningPolicy :=
  let mode := if MemoryLearningMode_Valid (ML_Mode p) then ML_Mode p else MemoryLearningOff in
  let mode := if String.eqb mode "" then MemoryLearningOff else mode in
  if String.eqb mode MemoryLearningOff then MkMemoryLearningPolicy MemoryLearningOff 0 0
  else
    let n := ML_MinObservations p in
    let n := if (n <=? 0)%Z then DefaultMemoryLearningMinObservations else n in
    let n := if (n <? 2)%Z then 2%Z else n in
    let n := if (MaxMemoryLearningMinObservations <? n)%Z then MaxMemoryLearningMinObservations else n in
    let d := ML_TTLDays p in
    let d := if (d <=? 0)%Z then DefaultMemoryLearningTTLDays else d in
    let d := if (MaxMemoryLearningTTLDays <? d)%Z then MaxMemoryLearningTTLDays else d in
    MkMemoryLearningPolicy mode n d.

Definition MemoryLearningPolicy_Enabled (p : MemoryLearningPolicy) : bool :=
  let mode := ML_Mode (MemoryLearningPolicy_Normalize p) in
  String.eqb mode MemoryLearningReview || String.eqb mode MemoryLearningAutoConfirm.

Definition ReviewRequired (p : MemoryLearningPolicy) (labels : Labels) : bool :=
  let mode := ML_Mode (MemoryLearningPolicy_Normalize p) in
  String.eqb mode MemoryLearningReview ||
  (String.eqb mode MemoryLearningAutoConfirm && Labels_HasAny labels [LabelUntrusted]).

(** ** What a caller supplies and gets back (ports.go) *)

Record Envelope := MkEnvelope {
  En_Name : string;
  En_Reaches : list ToolID;
  En_StopsWhen : string;
  En_Model : string;
  En_Effort : string
}.

Record Start := MkStart {
  Sa_RunID : RunID;
  Sa_Scope : Scope;
  Sa_AgentID : AgentID;
  Sa_VersionID : VersionID;
  Sa_OnBehalfOf : UserID;
  Sa_Pack : Pack;
  Sa_Steps : list Envelope;
  Sa_Budget : Budget;
  Sa_Ceiling : Budget;
  Sa_Stage : Stage;
  Sa_Trigger : string;
  Sa_LeaseEpoch : Z;
  Sa_MemoryLearning : MemoryLearningPolicy;
  Sa_StandingApprovals : StandingPolicy;
  Sa_PublishesEvents : bool
}.

Record Status := MkStatus { Ss_Phase : Phase; Ss_Seq : Z; Ss_Done : bool }.

(** ** Planning (ports.go, domain/payload.go, domain/prompt_digest.go) *)

Record ModelPriceUse := MkModelPriceUse { Pr_Status : string; Pr_NonZeroApplied : bool }.

Record PromptDigests := MkPromptDigests { Pg_Tools : string; Pg_System : list string }.

Record PromptInputBreakdown := MkPromptInputBreakdown {
  Pb_Unit : string;
  Pb_Instructions : Z;
  Pb_Platform : Z;
  Pb_Input : Z;
  Pb_Notes : Z;
  Pb_ToolSchemas : Z;
  Pb_ToolArguments : Z;
  Pb_ToolResults : Z;
  Pb_ToolArgumentsByTool : gmap string Z;
  Pb_ToolResultsByTool : gmap string Z;
  Pb_ToolResultsElided : Z;
  Pb_ToolResultsElidedByTool : gmap string Z;
  Pb_Total : Z;
  Pb_Digests : option PromptDigests
}.

(** What the model wants to do next. [Artifacts] lists the entries of the
    proposal's map in the order one range over it visits them. *)
Record Proposal := MkProposal {
  P_Tool : ToolID;
  P_Args : string;
  P_contractDigest : string;
  P_approvalEvidence : ApprovalEvidence;
  P_approvalAtSeq : Z;
  P_decidedBy : UserID;
  P_Estimate : Consumption;
  P_Cost : Cost;
  P_Prompt : PromptInputBreakdown;
  P_Provider : string;
  P_Model : string;
  P_ServedModel : string;
  P_Price : ModelPriceUse;
  P_Unavailable : list ToolID;
  P_Done : bool;
  P_Outcome : string;
  P_Artifacts : list (string * string);
  P_StoppedBy : string;
  P_Headline : string
}.

(** A planning attempt that failed after money was spent (errors.go); of the
    cause it wraps, the summary of a classified failure. *)
Record SpentPlanError := MkSpentPlanError {
  Sp_Cost : Cost;
  Sp_Prompt : PromptInputBreakdown;
  Sp_Price : ModelPriceUse;
  Sp_Provider : string;
  Sp_Model : string;
  Sp_ServedModel : string;
  Sp_Failure : option FailureSummary;
  Sp_Unavailable : list ToolID
}.

Inductive PlanError :=
| PlanFailed (failure : option FailureSummary)
| PlanSpent (e : SpentPlanError).

(** One entry of the conversation rebuilt from the ledger (transcript.go). *)
Record Turn := MkTurn {
  Tn_Kind : Z;
  Tn_Text : string;
  Tn_CallID : string;
  Tn_Tool : ToolID;
  Tn_Args : string;
  Tn_Failed : bool;
  Tn_Content : string;
  Tn_Elided : Z;
  Tn_OriginalBytes : Z;
  Tn_ContentDigest : string
}.

Definition TurnInput : Z := 0.

Record PlanInput := MkPlanInput {
  Pi_State : State;
  Pi_Transcript : list Turn;
  Pi_Budget : Budget;
  Pi_Ceiling : Budget;
  Pi_Model : string;
  Pi_Effort : string;
  Pi_Remaining : Consumption;
  Pi_Tools : list ToolID;
  Pi_Unavailable : list ToolID;
  Pi_MemoryLearning : MemoryLearningPolicy;
  Pi_Step : string;
  Pi_StopsWhen : string
}.

(** ** Tools (ports.go) *)

Record Call := MkCall {
  Ca_RunID : RunID;
  Ca_Seq : Z;
  Ca_Scope : Scope;
  Ca_AgentID : AgentID;
  Ca_Tool : ToolID;
  Ca_Args : string;
  Ca_ContractDigest : string;
  Ca_ApprovalEvidence : ApprovalEvidence;
  Ca_ApprovalAtSeq : Z;
  Ca_DecidedBy : UserID;
  Ca_OnBehalfOf : UserID;
  Ca_IdemKey : string;
  Ca_ContextArtifacts : list ContextArtifact;
  Ca_Ticket : TicketContext;
  Ca_At : Time;
  Ca_Labels : Labels;
  Ca_MemoryLearning : MemoryLearningPolicy
}.

Record ToolResult := MkToolResult {
  Tr_ResultRef : string;
  Tr_ResultDigest : string;
  Tr_ResultBytes : Z;
  Tr_Labels : Labels;
  Tr_Cost : Cost;
  Tr_Failed : bool;
  Tr_ErrorCode : string;
  Tr_Cached : bool;
  Tr_CachedFromRun : RunID;
  Tr_CachedFromSeq : Z;
  Tr_Context : option ContextArtifact;
  Tr_Provenance : string
}.

Record StandingGrant := MkStandingGrant { Sg_ID : string; Sg_By : UserID; Sg_Reason : string }.

(** What a worker resolves a run's version to (worker/worker.go, worker/fallback.go):
    whether there is a planner, and the fallback pair the version declares. *)
Record Fallback := MkFallback { Fb_From : ModelPair; Fb_To : ModelPair }.

Record Resolution := MkResolution {
  Rs_Start : Start;
  Rs_Planner : bool;
  Rs_Fallback : option Fallback
}.

(** What ends one round of the wait on another run's reservation (act.go). *)
Inductive Wake := WakeCancelled | WakeDeadline | WakeTick.

(** A collaborator's own failure: nothing of it matters but that it happened,
    and the summary it carries when it is one of the classified kinds. *)
Inductive PortError := PortFailed (failure : option FailureSummary).

(** ** The calls

    A call whose Go signature returns [(A, error)] answers a [result]. *)
Inductive port : Type -> Type :=
| LRead (run : RunID) (fromSeq : Z) : port (result LedgerError (list Step))
| LAppend (s : Step) : port (result LedgerError Step)
| LAppendIfHead (head : StepRef) (s : Step) : port (result LedgerError Step)
| LAppendIfLeaseAndHead (epoch : Z) (head : StepRef) (s : Step) : port (result LedgerError Step)
| LFence (run : RunID) (epoch : Z) (head : StepRef) : port (result LedgerError unit)
| OnTranscript (steps : list Step) : port (result PortError (list Turn))
| OnInitialSearch (text : string) : port string
| OnPlan (fallback : bool) (input : PlanInput) : port (result PlanError Proposal)
| OnReserve (call : Call) : port (result PortError unit)
| OnInvoke (call : Call) : port (ToolResult * bool)
| OnBinding (call : Call) : port string
| OnEvidence (call : Call) : port (result PortError ApprovalEvidence)
| OnEffect (tool : ToolID) : port Effect
| OnDedupeDecl (tool : ToolID) : port (option ToolDedupe)
| OnNow : port Time
| OnCtxErr : port bool
| OnLookup (key : DedupeKey) (now : Time) : port (result PortError (option DedupeRecord))
| OnDedupeReserve (key : DedupeKey) (run : RunID) (ttl : Duration) (now : Time)
    : port (result PortError DedupeRecord)
| OnConfirm (key : DedupeKey) (run : RunID) (seq : Z) (window : Duration) (now : Time)
    : port (result PortError unit)
| OnRelease (key : DedupeKey) (run : RunID) : port (result PortError unit)
| OnWait : port Wake
| OnPut (run : RunID) (seq : Z) (data : string) : port (result PortError string)
| OnGet (ref : string) : port (result PortError string)
| OnStanding (tool : ToolID) (agent : AgentID) (scope : Scope) (run : RunID) (at_ : Time)
    : port (result PortError (option StandingGrant))
| OnSchema (tool : ToolID) : port bool
| OnSession (tool : ToolID) : port (string * bool * bool)
| OnConnected (server : string) : port bool
| OnExpected (server : string) : port (result PortError bool)
| OnMetric (name : string) : port unit
| LHead (run : RunID) : port (result LedgerError Step)
| QueueClaim (owner : string) (lease : Duration) : port (result LedgerError Claim)
| QueueRelease (run : RunID) (outcome : ClaimOutcome) : port (result LedgerError unit)
| OnResolve (agent : AgentID) (version : VersionID) : port (result PortError Resolution)
| OnCeiling (scope : Scope) : port (result PortError (Budget * string))
| OnSpentSince (scope : Scope) (since : Time) : port (result PortError Consumption)
| OnStageOf (agent : AgentID) : port (result PortError Stage)
| OnLeaseCause : port bool.

(** ** Programs *)

Inductive prog (A : Type) : Type :=
| Ret (a : A)
| Do {R : Type} (op : port R) (k : R -> prog A).
Arguments Ret {A} a.
Arguments Do {A R} op k.

Fixpoint prog_bind {A B} (p : prog A) (f : A -> prog B) : prog B :=
  match p with
  | Ret a => f a
  | Do op k => Do op (fun r => prog_bind (k r) f)
  end.

(** Why a turn ended in an error. *)
Inductive RunError :=
| RunLedger (e : LedgerError)
| RunFold (e : EngineError)
| RunPlan (e : PlanError)
| RunPort (e : PortError)
| RunDedupe (e : DedupeError)
| RunDedupeState (state : string)
| RunDedupeInFlight
| RunCancelled
| RunServerUnavailable (server : string) (tools : list ToolID)
| RunNoFallbackPlanner
| RunFallbackUnrehearsed (failure : FailureSummary)
| RunNoContentStore
| RunNoExecutor (tool : ToolID)
| RunEvidenceIncomplete
| RunArgsMismatch
| RunSpendNotRecorded (fence : RunError) (e : LedgerError)
| RunNoPlanner (agent : AgentID) (version : VersionID).

(** A turn: calls on the ports, then a value or an error. *)
Definition turn (A : Type) : Type := prog (result RunError A).

#[global] Instance turn_ret : MRet turn := fun A a => Ret (Ok a).
#[global] Instance turn_bind : MBind turn := fun A B f m =>
  prog_bind m (fun r => match r with Ok a => f a | Err e => Ret (Err e) end).

Definition fail_with {A} (e : RunError) : turn A := Ret (Err e).

(** [call op] makes a call that cannot fail; [ask wrap op] one that can, and
    whose failure ends the turn as [wrap] says. *)
Definition call {R} (op : port R) : turn R := Do op (fun r => Ret (Ok r)).
Definition ask {E A} (wrap : E -> RunError) (op : port (result E A)) : turn A :=
  Do op (fun r => match r with Ok a => Ret (Ok a) | Err e => Ret (Err (wrap e)) end).

(** [attempt m] hands a turn's error to the code that inspects it. *)
Definition attempt {A} (m : turn A) : turn (result RunError A) :=
  prog_bind m (fun r => Ret (Ok r)).

(** The collaborators that may be nil, and what is fixed for the runner. The
    number of ticks a wait on a reservation delivers before its deadline is the
    timer's to decide. *)
Record Deps := MkDeps {
  D_Gate : GateT;
  D_Fallback : bool;
  D_Dedupe : bool;
  D_DedupePendingTTL : Duration;
  D_DedupeTicks : nat;
  D_Content : bool;
  D_Metrics : bool;
  D_Standing : bool;
  D_Schemas : bool;
  D_Servers : bool;
  D_Connections : bool;
  D_Binder : bool;
  D_Evidencer : bool
}.
