(* ===== verification/Content.v ===== *)
(** * Content

    src/internal/engine/content_memory.go, domain/content.go, domain/content_limit.go
    and the store of ports.go: bulky payloads live outside the ledger, under a
    reference made of their owner, a sequence number and a prefix of their digest.
    [ContentStore] is what the rest of the program relies on; the in-memory store
    implements it. *)

From Stdlib Require Import ZArith Lia Ascii String.
From stdpp Require Import base list strings gmap.
From S2P Require Import Prelude GoStrings Json JsonFacts Domain Sha256.

Local Open Scope string_scope.

(** ** Bounding one payload (domain/content_limit.go) *)

Definition DefaultContentLimit : Z := 1048576.

Definition truncation_notice (size limit : Z) : string :=
  bytes_str [10; 10]%nat +:+ "[truncated by FuseOne: the tool returned " +:+ print_Z size +:+
  " bytes and this installation stores " +:+ print_Z limit +:+ "]".

Definition Truncate (data : string) (limit : Z) : string * bool :=
  let size := Z.of_nat (String.length data) in
  if (limit <=? 0)%Z || (size <=? limit)%Z then (data, false)
  else
    let notice := truncation_notice size limit in
    let n := Z.of_nat (String.length notice) in
    if (limit <=? n)%Z then (take_bytes (Z.to_nat limit) notice, true)
    else (take_bytes (Z.to_nat (limit - n)) data +:+ notice, true).

(** ** The store (engine/content_memory.go) *)

(** [ErrContentContext]: the context was already cancelled. *)
Inductive ContentError := ErrContentContext | ErrContentAbsent (ref : string) | ErrContentErased (ref : string).

Record StoredMetadata := MkContentMetadata { CM_Digest : string; CM_Erased : bool }.

Record object := MkObject {
  ob_bytes : string;
  ob_kind : string;
  ob_digest : string;
  ob_owner : string;
  ob_at : Time;
  ob_erased : bool
}.

Record MemoryContent := MkMemoryContent { mc_data : gmap string object; mc_limit : Z }.

#[export] Instance MemoryContent_eta : Eta MemoryContent := fun m => MkMemoryContent (mc_data m) (mc_limit m).

Definition NewMemoryContent : MemoryContent := MkMemoryContent ∅ DefaultContentLimit.

Definition MemoryContent_WithLimit (m : MemoryContent) (bytes : Z) : MemoryContent := MkMemoryContent (mc_data m) bytes.

Definition content_digest (data : string) : string := hex_encode (sha256 data).

Definition content_ref (kind owner : string) (seq : Z) (data : string) : string :=
  kind +:+ "://" +:+ owner +:+ "/" +:+ print_Z seq +:+ "/" +:+ take_bytes 16 (content_digest data).

Definition object_of (m : MemoryContent) (kind owner : string) (at_ : Time) (data : string) : object :=
  MkObject (fst (Truncate data (mc_limit m))) kind (content_digest data) owner at_ false.

Definition MemoryContent_PutFor (m : MemoryContent) (cancelled : bool) (at_ : Time) (kind owner : string) (seq : Z) (data : string)
    : MemoryContent * result ContentError string :=
  if cancelled then (m, Err ErrContentContext)
  else
    let ref := content_ref kind owner seq data in
    if from_option ob_erased false (mc_data m !! ref) then (m, Ok ref)
    else (m <| mc_data := <[ref := object_of m kind owner at_ data]> (mc_data m) |>, Ok ref).

Definition MemoryContent_Put (m : MemoryContent) (cancelled : bool) (at_ : Time) (run : RunID) (seq : Z) (data : string)
    : MemoryContent * result ContentError string := MemoryContent_PutFor m cancelled at_ "run" run seq data.

Definition MemoryContent_RestoreFor (m : MemoryContent) (cancelled : bool) (at_ : Time) (kind owner : string) (seq : Z) (data : string)
    : MemoryContent * result ContentError string :=
  if cancelled then (m, Err ErrContentContext)
  else
    let ref := content_ref kind owner seq data in
    (m <| mc_data := <[ref := object_of m kind owner at_ data]> (mc_data m) |>, Ok ref).

Definition MemoryContent_Get (m : MemoryContent) (cancelled : bool) (ref : string) : result ContentError string :=
  if cancelled then Err ErrContentContext
  else match mc_data m !! ref with
       | None => Err (ErrContentAbsent ref)
       | Some held => if ob_erased held then Err (ErrContentErased ref) else Ok (ob_bytes held)
       end.

Definition MemoryContent_Metadata (m : MemoryContent) (cancelled : bool) (ref : string) : result ContentError StoredMetadata :=
  if cancelled then Err ErrContentContext
  else match mc_data m !! ref with
       | None => Err (ErrContentAbsent ref)
       | Some held => Ok (MkContentMetadata (ob_digest held) (ob_erased held))
       end.

Definition tombstone (held : object) : object :=
  MkObject "" "" (ob_digest held) (ob_owner held) (ob_at held) true.

Definition doomed (matches : object -> bool) (held : object) : bool := negb (ob_erased held) && matches held.

Definition MemoryContent_erase (m : MemoryContent) (cancelled : bool) (matches : object -> bool)
    : MemoryContent * result ContentError Z :=
  if cancelled then (m, Err ErrContentContext)
  else
    (m <| mc_data := (fun held => if doomed matches held then tombstone held else held) <$> mc_data m |>,
     Ok (Z.of_nat (size (filter (fun '(_, held) => doomed matches held = true) (mc_data m))))).

Definition MemoryContent_Erase (m : MemoryContent) (cancelled : bool) (kind owner : string) : MemoryContent * result ContentError Z :=
  MemoryContent_erase m cancelled (fun o => String.eqb (ob_kind o) kind && String.eqb (ob_owner o) owner).

Definition MemoryContent_ErasePast (m : MemoryContent) (cancelled : bool) (before : Time) : MemoryContent * result ContentError Z :=
  MemoryContent_erase m cancelled (fun o => (ob_at o <? before)%Z).

(** ** Histories

    What anybody may ask of the store, each with whether the request had been
    cancelled. *)
Inductive content_op :=
| PutOp (cancelled : bool) (at_ : Time) (kind owner : string) (seq : Z) (data : string)
| RestoreOp (cancelled : bool) (at_ : Time) (kind owner : string) (seq : Z) (data : string)
| EraseOp (cancelled : bool) (kind owner : string)
| ErasePastOp (cancelled : bool) (before : Time).

Definition content_do (m : MemoryContent) (op : content_op) : MemoryContent :=
  match op with
  | PutOp c at_ kind owner seq data => fst (MemoryContent_PutFor m c at_ kind owner seq data)
  | RestoreOp c at_ kind owner seq data => fst (MemoryContent_RestoreFor m c at_ kind owner seq data)
  | EraseOp c kind owner => fst (MemoryContent_Erase m c kind owner)
  | ErasePastOp c before => fst (MemoryContent_ErasePast m c before)
  end.

Definition content_run (ops : list content_op) (m : MemoryContent) : MemoryContent := fold_left content_do ops m.

(** The kinds the program uses hold no colon. *)
Definition plain_kind (kind : string) : Prop := forall n, String.get n kind <> Some ":"%char.

Definition op_plain (op : content_op) : Prop :=
  match op with
  | PutOp _ _ kind _ _ _ | RestoreOp _ _ kind _ _ _ => plain_kind kind
  | _ => True
  end.

(** The payloads an operation offers under a reference's owner and number. *)
Definition offers (op : content_op) (kind owner : string) (seq : Z) (data : string) : Prop :=
  match op with
  | PutOp _ _ k o n d | RestoreOp _ _ k o n d => k = kind /\ o = owner /\ n = seq /\ d = data
  | _ => False
  end.

Definition restores (op : content_op) (kind owner : string) : Prop :=
  match op with RestoreOp _ _ k o _ _ => k = kind /\ o = owner | _ => False end.

(** ** What callers rely on (engine/ports.go) *)

Class ContentStore (S : Type) := MkContentStore {
  content_put : S -> bool -> Time -> RunID -> Z -> string -> S * result ContentError string;
  content_get : S -> bool -> string -> result ContentError string;
  content_kept : S -> string -> string
}.

(** What a store keeps of a payload it gives back, unless the payload was
    erased; and what a small payload comes back as. *)
Class ContentLaws (S : Type) {C : ContentStore S} : Prop := MkContentLaws {
  put_get s s' c at_ run seq data ref :
    content_put s c at_ run seq data = (s', Ok ref) ->
    content_get s' false ref = Ok (content_kept s data) \/ content_get s' false ref = Err (ErrContentErased ref);
  put_named s s' c at_ run seq data ref :
    content_put s c at_ run seq data = (s', Ok ref) -> ref = content_ref "run" run seq data
}.

#[export] Instance memory_content : ContentStore MemoryContent := {|
  content_put := MemoryContent_Put;
  content_get := MemoryContent_Get;
  content_kept m data := fst (Truncate data (mc_limit m))
|}.

#[export] Instance memory_content_laws : ContentLaws MemoryContent.
Proof.
  split; intros s s' c at_ run seq data ref; simpl; unfold MemoryContent_Put, MemoryContent_PutFor.
  - destruct c; [done|]. destruct (from_option ob_erased false _) eqn:E; intros [= <- <-].
    + right. unfold MemoryContent_Get. by destruct (mc_data s !! _) as [held|]; simpl in E; rewrite ?E.
    + left. unfold MemoryContent_Get. simpl. by rewrite lookup_insert_eq.
  - destruct c; [done|]. by destruct (from_option ob_erased false _); intros [= _ <-].
Qed.

(** ** Bounds *)

Lemma take_bytes_exact n : forall s, (n <= String.length s)%nat -> String.length (take_bytes n s) = n.
Proof. induction n as [|n IH]; intros [|c s] H; simpl in *; try lia. f_equal. apply IH. lia. Qed.

(** A kept payload respects a positive limit, and a payload within it is kept
    whole. *)
Lemma Truncate_bound data limit :
  (0 < limit)%Z -> (Z.of_nat (String.length (fst (Truncate data limit))) <= limit)%Z.
Proof.
  intros H. unfold Truncate. destruct (Z.leb_spec limit 0), (Z.leb_spec (Z.of_nat (String.length data)) limit); cbn [fst orb]; try lia.
  set (notice := truncation_notice _ _). destruct (Z.leb_spec limit (Z.of_nat (String.length notice))); cbn [fst].
  - pose proof (take_bytes_length (Z.to_nat limit) notice). lia.
  - rewrite str_app_length.
    pose proof (take_bytes_length (Z.to_nat (limit - Z.of_nat (String.length notice))) data). lia.
Qed.

Lemma Truncate_whole data limit :
  (limit <= 0)%Z \/ (Z.of_nat (String.length data) <= limit)%Z -> fst (Truncate data limit) = data.
Proof.
  intros H. unfold Truncate.
  destruct (Z.leb_spec limit 0), (Z.leb_spec (Z.of_nat (String.length data)) limit); simpl; try done; lia.
Qed.

(** ** References *)

Lemma hex_encode_length s : String.length (hex_encode s) = (2 * String.length s)%nat.
Proof. induction s as [|c s IH]; simpl; lia. Qed.

Lemma content_digest_length data : String.length (content_digest data) = 64%nat.
Proof.
  unfold content_digest, sha256. rewrite hex_encode_length. unfold digest_bytes.
  rewrite !str_app_length, !be_bytes_length. lia.
Qed.

Lemma digest_prefix_length data : String.length (take_bytes 16 (content_digest data)) = 16%nat.
Proof. apply take_bytes_exact. rewrite content_digest_length. lia. Qed.

Lemma print_Z_no_slash z n : String.get n (print_Z z) <> Some "/"%char.
Proof.
  assert (U : forall d n, String.get n (DecimalString.NilEmpty.string_of_uint d) <> Some "/"%char).
  { intros d. induction d; intros [|k]; simpl; done. }
  assert (N : forall d n, String.get n (DecimalString.NilZero.string_of_uint d) <> Some "/"%char).
  { intros d k. unfold DecimalString.NilZero.string_of_uint. case_match; [by destruct k as [|[|k]]|..]; apply U. }
  unfold print_Z, DecimalString.NilZero.string_of_int. destruct (Z.to_int z); [apply N|].
  destruct n as [|n]; simpl; [done|apply N].
Qed.

(** A reference names its owner, its number and the start of its digest. *)
Lemma content_ref_inj k o n d k' o' n' d' :
  plain_kind k -> plain_kind k' -> content_ref k o n d = content_ref k' o' n' d' ->
  k = k' /\ o = o' /\ n = n' /\
  take_bytes 16 (content_digest d) = take_bytes 16 (content_digest d').
Proof.
  intros Pk Pk'. unfold content_ref. generalize (digest_prefix_length d), (digest_prefix_length d').
  set (h := take_bytes _ (content_digest d)). set (h' := take_bytes _ (content_digest d')). intros L L' E.
  change ("://" +:+ ?x) with (String ":" ("//" +:+ x)) in E.
  apply (f_equal (cut_byte ":")) in E. rewrite !cut_byte_app in E by done.
  injection E as -> E. rewrite <- !str_app_assoc in E.
  assert (E2 : (o +:+ "/" +:+ print_Z n +:+ "/") = (o' +:+ "/" +:+ print_Z n' +:+ "/") /\ h = h').
  { rewrite !str_app_assoc in E. clear -E L L'.
    pose proof (f_equal String.length E) as Hl. rewrite !str_app_length in Hl.
    apply (str_app_split _ _ h h'); [rewrite !str_app_length; lia|].
    by rewrite ?str_app_assoc. }
  destruct E2 as [E2 ->]. rewrite <- !str_app_assoc in E2.
  apply (str_app_split _ _ "/" "/") in E2 as [E2 _];
    [|apply (f_equal String.length) in E2; rewrite !str_app_length in E2; rewrite !str_app_length; lia].
  rewrite !str_app_assoc in E2. change ("/" +:+ ?x) with (String "/" x) in E2.
  apply str_app_last_byte in E2 as [-> E2]; [|intros; apply print_Z_no_slash..].
  by apply print_Z_inj in E2 as ->.
Qed.

(** ** What a reference keeps *)

#[local] Opaque content_digest content_ref Truncate.

Section Kept.
Context (kind owner : string) (seq : Z) (data : string).
Context (Pk : plain_kind kind).

(** Payloads that may come to stand under the reference. *)
Definition stands (limit : Z) (ops : list content_op) (o : object) : Prop :=
  ob_erased o = true \/
  exists d, (d = data \/ exists op, op ∈ ops /\ offers op kind owner seq d) /\
    take_bytes 16 (content_digest d) = take_bytes 16 (content_digest data) /\
    ob_bytes o = fst (Truncate d limit) /\ ob_digest o = content_digest d.

Definition kept_under (ops : list content_op) (m : MemoryContent) : Prop :=
  exists o, mc_data m !! content_ref kind owner seq data = Some o /\ stands (mc_limit m) ops o.

Lemma insert_keeps ops m k o n d at_ :
  plain_kind k -> kept_under ops m -> (forall op, op = PutOp false at_ k o n d \/ op = RestoreOp false at_ k o n d ->
    kept_under (ops ++ [op]) (m <| mc_data := <[content_ref k o n d := object_of m k o at_ d]> (mc_data m) |>)).
Proof using Pk.
  intros P (ob & E & S) op Hop.
  destruct (decide (content_ref k o n d = content_ref kind owner seq data)) as [R|R].
  - exists (object_of m k o at_ d). split; [simpl; by rewrite R, lookup_insert_eq|].
    apply content_ref_inj in R as (-> & -> & -> & R); [|done..].
    right. exists d. split_and!; [|done..]. right. exists op. split; [set_solver|].
    by destruct Hop as [-> | ->].
  - exists ob. split; [simpl; by rewrite lookup_insert_ne|].
    destruct S as [S|(d' & S & R')]; [by left|]. right. exists d'. split; [|done].
    destruct S as [S|(op' & S & ?)]; [by left|]. right. exists op'. set_solver.
Qed.

Lemma kept_weaken ops ops' m : ops ⊆ ops' -> kept_under ops m -> kept_under ops' m.
Proof using Pk.
  intros H (ob & E & S). exists ob. split; [done|]. destruct S as [S|(d & S & R)]; [by left|].
  right. exists d. split; [|done]. destruct S as [S|(op & S & ?)]; [by left|]. right. exists op. set_solver.
Qed.

Lemma erase_keeps ops c matches m :
  kept_under ops m -> kept_under ops (fst (MemoryContent_erase m c matches)).
Proof using Pk.
  intros (ob & E & S). unfold MemoryContent_erase. destruct c; [by exists ob|]. simpl.
  eexists. simpl. rewrite lookup_fmap, E. split; [reflexivity|].
  destruct (doomed matches ob); [by left|done].
Qed.

Lemma content_do_keeps ops m op :
  op_plain op -> kept_under ops m -> kept_under (ops ++ [op]) (content_do m op).
Proof using Pk.
  intros P K. assert (W : kept_under (ops ++ [op]) m) by (eapply kept_weaken; [|done]; set_solver).
  destruct op as [c at_ k o n d|c at_ k o n d|c k o|c b]; simpl in *.
  - unfold MemoryContent_PutFor. destruct c; [done|].
    destruct (from_option ob_erased false _); [done|]. apply insert_keeps; [done|done|by left].
  - unfold MemoryContent_RestoreFor. destruct c; [done|]. apply insert_keeps; [done|done|by right].
  - by apply erase_keeps.
  - by apply erase_keeps.
Qed.

Lemma content_run_keeps ops : forall done_ m,
  Forall op_plain ops -> kept_under done_ m -> kept_under (done_ ++ ops) (content_run ops m).
Proof using Pk.
  induction ops as [|op ops IH]; intros done_ m P K; [by rewrite app_nil_r|].
  apply Forall_cons in P as [P Ps]. simpl.
  rewrite (cons_middle op done_ ops), app_assoc.
  apply IH; [done|]. by apply content_do_keeps.
Qed.
End Kept.

Lemma content_do_limit m op : mc_limit (content_do m op) = mc_limit m.
Proof.
  destruct op as [c ?|c ?|c ?|c ?]; simpl;
    unfold MemoryContent_PutFor, MemoryContent_RestoreFor, MemoryContent_Erase, MemoryContent_ErasePast, MemoryContent_erase;
    destruct c; simpl; try done. by case_match.
Qed.

Lemma content_run_limit ops : forall m, mc_limit (content_run ops m) = mc_limit m.
Proof. induction ops as [|op ops IH]; intros m; simpl; [done|]. rewrite IH. apply content_do_limit. Qed.

(** A reference never comes to name something else. Once a payload was stored,
    reading its reference, after any sequence of other requests, gives that
    payload, cut to the store's limit, or says that it was erased. The only
    other thing it can give is a payload stored under the same kind, owner and
    number whose digest begins with the same sixteen digits. *)
Theorem a_reference_keeps_its_payload m c at_ kind owner seq data m1 ref ops :
  plain_kind kind -> Forall op_plain ops ->
  MemoryContent_PutFor m c at_ kind owner seq data = (m1, Ok ref) ->
  match MemoryContent_Get (content_run ops m1) false ref with
  | Ok bytes => exists d, bytes = fst (Truncate d (mc_limit m)) /\
      take_bytes 16 (content_digest d) = take_bytes 16 (content_digest data) /\
      (d = data \/ exists op, op ∈ ops /\ offers op kind owner seq d)
  | Err e => e = ErrContentErased ref
  end.
Proof.
  intros Pk Po H. unfold MemoryContent_PutFor in H. destruct c; [done|].
  assert (L : mc_limit m1 = mc_limit m) by (by case_match; simplify_eq).
  assert (kept_under kind owner seq data [] m1 /\ ref = content_ref kind owner seq data) as [K ->].
  { destruct (from_option ob_erased false _) eqn:E; injection H as <- <-; (split; [|done]).
    - destruct (mc_data m !! _) as [o|] eqn:Eo; [|done]. exists o. split; [done|]. by left.
    - eexists. simpl. rewrite lookup_insert_eq. split; [reflexivity|]. right. exists data.
      split_and!; [by left|done..]. }
  eapply content_run_keeps in K as (o & E & S); [|done|exact Po]. rewrite content_run_limit, L in S.
  unfold MemoryContent_Get. simpl in E. rewrite E.
  destruct (ob_erased o) eqn:Eo; [done|]. destruct S as [S|(d & S & R & B & _)]; [congruence|].
  exists d. split; [done|]. split; [done|]. simpl in S. destruct S; [by left|by right].
Qed.

(** ** Erasing an owner *)

Definition owned (m : MemoryContent) : Prop :=
  forall ref o, mc_data m !! ref = Some o -> ob_erased o = false ->
  plain_kind (ob_kind o) /\ exists seq d, ref = content_ref (ob_kind o) (ob_owner o) seq d.

Lemma owned_insert m k o n d at_ :
  plain_kind k -> owned m ->
  owned (m <| mc_data := <[content_ref k o n d := object_of m k o at_ d]> (mc_data m) |>).
Proof.
  intros P O ref ob. simpl. destruct (decide (content_ref k o n d = ref)) as [<-|D].
  - rewrite lookup_insert_eq. intros [= <-] _. split; [done|]. by exists n, d.
  - rewrite lookup_insert_ne by done. apply O.
Qed.

Lemma owned_erase m c matches : owned m -> owned (fst (MemoryContent_erase m c matches)).
Proof.
  intros O. unfold MemoryContent_erase. destruct c; [done|]. intros ref ob. simpl. rewrite lookup_fmap.
  destruct (mc_data m !! ref) as [o|] eqn:E; [|done]. simpl.
  destruct (doomed matches o); intros [= <-]; [done|]. by apply O.
Qed.

Lemma owned_do m op : op_plain op -> owned m -> owned (content_do m op).
Proof.
  intros P O. destruct op as [c at_ k o n d|c at_ k o n d|c k o|c b]; simpl in *.
  - unfold MemoryContent_PutFor. destruct c; [done|].
    destruct (from_option ob_erased false _); [done|]. by apply owned_insert.
  - unfold MemoryContent_RestoreFor. destruct c; [done|]. by apply owned_insert.
  - by apply owned_erase.
  - by apply owned_erase.
Qed.

Lemma owned_run ops : forall m, Forall op_plain ops -> owned m -> owned (content_run ops m).
Proof.
  induction ops as [|op ops IH]; intros m P O; [done|]. apply Forall_cons in P as [P Ps].
  simpl. apply IH; [done|]. by apply owned_do.
Qed.

Definition buried (m : MemoryContent) (ref : string) : Prop :=
  exists o, mc_data m !! ref = Some o /\ ob_erased o = true.

Lemma buried_do m op kind owner seq data :
  plain_kind kind -> op_plain op -> ~ restores op kind owner ->
  buried m (content_ref kind owner seq data) -> buried (content_do m op) (content_ref kind owner seq data).
Proof.
  intros Pk P R (ob & E & X).
  assert (Er : forall c matches, buried (fst (MemoryContent_erase m c matches)) (content_ref kind owner seq data)).
  { intros c matches. unfold MemoryContent_erase. destruct c; [by exists ob|]. simpl.
    exists ob. simpl. rewrite lookup_fmap, E. simpl. unfold doomed. by rewrite X. }
  destruct op as [c at_ k o n d|c at_ k o n d|c k o|c b]; simpl in *; [| |apply Er..].
  - unfold MemoryContent_PutFor. destruct c; [by exists ob|].
    destruct (from_option ob_erased false _) eqn:F; [by exists ob|]. exists ob. simpl.
    rewrite lookup_insert_ne; [done|]. intros N. rewrite N, E in F. simpl in F. congruence.
  - unfold MemoryContent_RestoreFor. destruct c; [by exists ob|]. exists ob. simpl.
    rewrite lookup_insert_ne; [done|]. intros N. apply content_ref_inj in N as (-> & -> & _); [|done..]. by apply R.
Qed.

Lemma buried_run ops kind owner seq data : forall m,
  plain_kind kind -> Forall op_plain ops -> (forall op, op ∈ ops -> ~ restores op kind owner) ->
  buried m (content_ref kind owner seq data) -> buried (content_run ops m) (content_ref kind owner seq data).
Proof.
  induction ops as [|op ops IH]; intros m Pk P R B; [done|]. apply Forall_cons in P as [P Ps]. simpl.
  apply IH; [done|done|set_solver|]. apply buried_do; [done|done|apply R; set_solver|done].
Qed.

(** Erasing an owner erases everything of that owner and nothing else. After any
    history, whatever was stored for the owner reads as erased, and goes on
    reading as erased through every later request until somebody restores
    content of that owner; a retried write brings nothing back. What belongs to
    any other owner or kind reads as it did. *)
Theorem an_erased_owner_stays_erased ops later kind owner seq data :
  plain_kind kind -> Forall op_plain ops -> Forall op_plain later ->
  let m := content_run ops NewMemoryContent in
  let erased := content_do m (EraseOp false kind owner) in
  let ref := content_ref kind owner seq data in
  (MemoryContent_Get m false ref <> Err (ErrContentAbsent ref) ->
   (forall op, op ∈ later -> ~ restores op kind owner) ->
   MemoryContent_Get (content_run later erased) false ref = Err (ErrContentErased ref)) /\
  (forall kind' owner' seq' data', plain_kind kind' -> (kind', owner') <> (kind, owner) ->
   let other := content_ref kind' owner' seq' data' in
   MemoryContent_Get erased false other = MemoryContent_Get m false other).
Proof.
  intros Pk P Pl m er ref.
  assert (O : owned m) by (apply owned_run; [done|]; intros r o E; simpl in E; by rewrite lookup_empty in E). split.
  - intros H R. assert (B : buried er ref).
    { unfold er, MemoryContent_Get in *. simpl in *. destruct (mc_data m !! ref) as [o|] eqn:E; [|done].
      unfold MemoryContent_Erase, MemoryContent_erase, buried. simpl. rewrite lookup_fmap, E. eexists. split; [reflexivity|].
      destruct (doomed _ o) eqn:D; [done|]. unfold doomed in D. destruct (ob_erased o) eqn:X; [done|].
      destruct (O _ _ E X) as (Po & n & d & F). apply content_ref_inj in F as (-> & -> & _); [|done..].
      by rewrite !String.eqb_refl in D. }
    eapply buried_run in B as (o & E & X); [|done|exact Pl|done].
    unfold MemoryContent_Get, ref. cbn match. by rewrite E, X.
  - intros k' o' n' d' Pk' N other. unfold er, MemoryContent_Get. simpl.
    unfold MemoryContent_Erase, MemoryContent_erase. simpl. rewrite lookup_fmap.
    destruct (mc_data m !! other) as [o|] eqn:E; [|done]. simpl.
    destruct (doomed _ o) eqn:D; [|done]. unfold doomed in D. bsimp. destruct D as (X & D1 & D2).
    destruct (O _ _ E X) as (Po & n & d & F). apply content_ref_inj in F as (-> & -> & _); [|done..]. by subst.
Qed.

Lemma plain_run : plain_kind "run".
Proof. by intros [|[|[|n]]]. Qed.

Lemma a_reference_keeps_its_payload_witness :
  match MemoryContent_Get (content_run [EraseOp false "run" "other"]
          (fst (MemoryContent_PutFor NewMemoryContent false 0 "run" "r" 1 "x"))) false (content_ref "run" "r" 1 "x") with
  | Ok bytes => exists d, bytes = fst (Truncate d DefaultContentLimit) /\
      take_bytes 16 (content_digest d) = take_bytes 16 (content_digest "x") /\
      (d = "x" \/ exists op, op ∈ [EraseOp false "run" "other"] /\ offers op "run" "r" 1 d)
  | Err e => e = ErrContentErased (content_ref "run" "r" 1 "x")
  end.
Proof.
  apply (a_reference_keeps_its_payload NewMemoryContent false 0 "run" "r" 1 "x"
           (fst (MemoryContent_PutFor NewMemoryContent false 0 "run" "r" 1 "x")) (content_ref "run" "r" 1 "x")
           [EraseOp false "run" "other"] plain_run);
    [by constructor|reflexivity].
Defined.

Lemma an_erased_owner_stays_erased_witness :
  MemoryContent_Get (content_run [PutOp false 5 "run" "r" 1 "x"]
    (content_do (content_run [PutOp false 0 "run" "r" 1 "x"] NewMemoryContent) (EraseOp false "run" "r")))
    false (content_ref "run" "r" 1 "x") = Err (ErrContentErased (content_ref "run" "r" 1 "x")).
Proof.
  refine (proj1 (an_erased_owner_stays_erased [PutOp false 0 "run" "r" 1 "x"] [PutOp false 5 "run" "r" 1 "x"]
    "run" "r" 1 "x" plain_run _ _) _ _).
  - constructor; [apply plain_run|constructor].
  - constructor; [apply plain_run|constructor].
  - vm_compute. discriminate.
  - intros op ->%list_elem_of_singleton. exact id.
Defined.
