(* ===== verification/Envelope.v ===== *)
(** * Envelopes

    src/internal/engine/envelope.go: what a run may reach at the step it has got
    to, which model that step is worth, and the tools forward movement has
    closed. *)

From Stdlib Require Import ZArith Lia Ascii String Sorting.Sorted.
From stdpp Require Import base list strings gmap.
From S2P Require Import Prelude GoStrings Json Domain Policy Sha256 Dedupe Step Payload Encode WorkItem State Ledger Gate Ports.

Local Open Scope string_scope.

(** The first step that reaches a tool. *)
Fixpoint step_from (i : nat) (steps : list Envelope) (tool : ToolID) : option nat :=
  match steps with
  | [] => None
  | step :: rest =>
      if existsb (String.eqb tool) (En_Reaches step) then Some i else step_from (S i) rest tool
  end.

Definition stepOf (steps : list Envelope) (tool : ToolID) : option nat := step_from 0 steps tool.

(** The furthest step whose tools the run has used; platform tools move nothing. *)
Definition advance_at (steps : list Envelope) (at_ : nat) (tool : ToolID) : nat :=
  if ToolID_PlatformOwned tool then at_
  else match stepOf steps tool with
       | Some i => if (at_ <? i)%nat then i else at_
       | None => at_
       end.

Definition StepAt (start : Start) (called : list ToolID) : nat :=
  fold_left (advance_at (Sa_Steps start)) called 0%nat.

Definition StepNameAt (start : Start) (called : list ToolID) : string :=
  match nth_error (Sa_Steps start) (StepAt start called) with
  | Some step => En_Name step
  | None => ""
  end.

Definition stepWorked (start : Start) (called : list ToolID) : bool :=
  existsb (fun tool => negb (ToolID_PlatformOwned tool) &&
             bool_decide (is_Some (stepOf (Sa_Steps start) tool))) called.

Definition SpendAt (start : Start) (called : list ToolID) : string * string :=
  let n := List.length (Sa_Steps start) in
  if (n =? 0)%nat then ("", "")
  else
    let at_ := if stepWorked start called then Nat.min (StepAt start called + 1) (n - 1) else 0%nat in
    match nth_error (Sa_Steps start) at_ with
    | Some step => (En_Model step, En_Effort step)
    | None => ("", "")
    end.

Definition stopsWhenAt (start : Start) (at_ : nat) : string :=
  match nth_error (Sa_Steps start) at_ with
  | Some step => En_StopsWhen step
  | None => ""
  end.

Definition envelopeOf (start : Start) (called : list ToolID) : Pack :=
  match Sa_Steps start with
  | [] => Sa_Pack start
  | _ =>
      NewPack (List.concat (List.map En_Reaches (skipn (StepAt start called) (Sa_Steps start))))
  end.

Definition withoutTool (pack : Pack) (remove : ToolID) : Pack :=
  NewPack (List.filter (fun tool => negb (String.eqb tool remove)) (Pack_Tools pack)).

Definition withTools (pack : Pack) (tools : list ToolID) : Pack := NewPack (Pack_Tools pack ++ tools)%list.

Definition envelopeForState (start : Start) (state : State) : Pack :=
  let pack := withoutTool (envelopeOf start (St_Called state)) ToolMemorySuggest in
  let pack := if TicketRef_Valid (TC_Ref (St_Ticket state))
              then withTools pack [ToolTicketAnswer] else pack in
  let pack := fold_left (fun pack tool =>
                if Pack_Allows (Sa_Pack start) tool then withTools pack [tool] else pack)
                [ToolWorkItemClaim; ToolWorkItemLink] pack in
  let pack := if MemoryLearningPolicy_Enabled (Sa_MemoryLearning start)
              then withTools pack [ToolMemoryFind; ToolMemorySuggest] else pack in
  match St_ContextArtifacts state with
  | [] => pack
  | _ => withTools pack [ToolContextRead]
  end.

(** The tools of the steps behind the run that this turn no longer offers, each
    once, in order. *)
Definition close_tool (open : Pack) (closed : list ToolID) (tool : ToolID) : list ToolID :=
  if Pack_Allows open tool || existsb (String.eqb tool) closed then closed
  else (closed ++ [tool])%list.

Definition closedTools (start : Start) (state : State) : list ToolID :=
  let at_ := StepAt start (St_Called state) in
  fold_left (close_tool (envelopeForState start state))
    (List.concat (List.map En_Reaches (firstn at_ (Sa_Steps start)))) [].

(** ** Facts *)

Lemma StronglySorted_NewPack ts : StronglySorted str_lt (NewPack ts).
Proof. apply sort_compact_sorted. Qed.

Lemma Pack_Allows_New ts t : Pack_Allows (NewPack ts) t = true <-> In t ts.
Proof.
  unfold Pack_Allows. rewrite binary_search_In by apply sort_compact_sorted. apply sort_compact_In.
Qed.

(** The envelope the gate is given is a sorted pack. *)
Lemma envelope_sorted start state :
  StronglySorted str_lt (envelopeForState start state).
Proof.
  unfold envelopeForState, withTools, withoutTool. cbn [fold_left].
  repeat case_match; apply StronglySorted_NewPack.
Qed.

Lemma step_from_bound steps : forall i tool j,
  step_from i steps tool = Some j -> (i <= j < i + List.length steps)%nat.
Proof.
  induction steps as [|step steps IH]; intros i tool j; cbn; [done|].
  destruct (existsb _ _); [intros [= <-]; lia|]. intros H. apply IH in H. lia.
Qed.

Lemma advance_le steps at_ tool : (at_ <= advance_at steps at_ tool)%nat.
Proof. unfold advance_at. repeat case_match; bsimp; lia. Qed.

Lemma advance_all_le steps called : forall at_, (at_ <= fold_left (advance_at steps) called at_)%nat.
Proof.
  induction called as [|tool called IH]; intros at_; cbn; [lia|].
  pose proof (advance_le steps at_ tool). pose proof (IH (advance_at steps at_ tool)). lia.
Qed.

(** The step a run is at is one the specification declares: the index the source
    slices by never runs past the end. *)
Lemma StepAt_in_range start called :
  Sa_Steps start <> [] -> (StepAt start called < List.length (Sa_Steps start))%nat.
Proof.
  intros Hne. unfold StepAt.
  assert (H : forall at_, (at_ < List.length (Sa_Steps start))%nat ->
    (fold_left (advance_at (Sa_Steps start)) called at_ < List.length (Sa_Steps start))%nat).
  { induction called as [|tool called IH]; intros at_ Hat; cbn; [done|]. apply IH.
    unfold advance_at. destruct (ToolID_PlatformOwned tool); [done|].
    destruct (stepOf (Sa_Steps start) tool) as [i|] eqn:E; [|done].
    apply step_from_bound in E. case_match; lia. }
  apply H. destruct (Sa_Steps start); [done|]. cbn. lia.
Qed.

Lemma StepAt_mono start called more :
  (StepAt start called <= StepAt start (called ++ more)%list)%nat.
Proof. unfold StepAt. rewrite fold_left_app. apply advance_all_le. Qed.

Lemma skipn_In {A} (l : list A) n m x : (n <= m)%nat -> In x (skipn m l) -> In x (skipn n l).
Proof.
  revert n m. induction l as [|a l IH]; intros n m Hle; [by rewrite !skipn_nil|].
  destruct m as [|m]; [by assert (n = 0)%nat as -> by lia|].
  destruct n as [|n]; cbn; [intros H; right; apply (IH 0%nat m); [lia|done]|apply IH; lia].
Qed.

(** Going back is refused: whatever a run calls next, its envelope only
    narrows, and a tool the steps it has reached and those after it do not name
    is outside every later envelope. *)
Theorem envelope_never_reopens start called more t :
  Sa_Steps start <> [] ->
  (Pack_Allows (envelopeOf start (called ++ more)%list) t = true ->
   Pack_Allows (envelopeOf start called) t = true) /\
  (Pack_Allows (envelopeOf start called) t = true <->
   exists step, In step (skipn (StepAt start called) (Sa_Steps start)) /\ In t (En_Reaches step)).
Proof.
  intros Hne.
  assert (Hin : forall called, Pack_Allows (envelopeOf start called) t = true <->
    exists step, In step (skipn (StepAt start called) (Sa_Steps start)) /\ In t (En_Reaches step)).
  { intros c. unfold envelopeOf. destruct (Sa_Steps start) eqn:E; [done|]. rewrite <- E.
    rewrite Pack_Allows_New, in_concat. split.
    - intros (reach & Hl & Ht). apply in_map_iff in Hl as (step & <- & Hs). eauto.
    - intros (step & Hs & Ht). exists (En_Reaches step). split; [by apply in_map|done]. }
  split; [|apply Hin]. rewrite !Hin. intros (step & Hs & Ht). exists step. split; [|done].
  eapply skipn_In; [apply StepAt_mono|exact Hs].
Qed.

Definition two_steps : Start :=
  MkStart "run" zeroScope "agent" "v1" "ana" []
    [MkEnvelope "look" ["crm.find"] "" "" ""; MkEnvelope "answer" ["mail.send"] "" "" ""]
    zeroBudget zeroBudget StageAutonomous "manual" 0 (MkMemoryLearningPolicy "off" 0 0) "" false.

Lemma envelope_never_reopens_witness :
  Pack_Allows (envelopeOf two_steps []) "crm.find" = true /\
  Pack_Allows (envelopeOf two_steps ["mail.send"]) "crm.find" = false /\
  (Pack_Allows (envelopeOf two_steps ([] ++ ["mail.send"])%list) "mail.send" = true ->
   Pack_Allows (envelopeOf two_steps []) "mail.send" = true).
Proof.
  split; [reflexivity|]. split; [reflexivity|].
  apply (envelope_never_reopens two_steps [] ["mail.send"] "mail.send"). discriminate.
Defined.
