(* ===== verification/Runner.v ===== *)
(** * The run loop

    src/internal/engine: runner.go (the loop), act.go (one proposal from the
    gate to the far side), resume.go (reopening a run), unavailable.go,
    workitem.go and workitem_link_act.go (the coordination tools the engine
    executes itself), event_chain.go, outcome.go and the engine's half of
    memory_lookup.go and fallback.go. A turn is a program over the ports; it
    keeps no state of its own. *)

From Stdlib Require Import ZArith Lia Ascii String.
From stdpp Require Import base list strings gmap.
From S2P Require Import Prelude GoStrings Json Domain Policy Sha256 Dedupe Step Payload Encode WorkItem State Ledger Gate Ports Envelope.

Local Open Scope string_scope.

(** ** Payloads only the loop writes (domain/payload.go, prompt_digest.go) *)

Record PlannedPayload := MkPlannedPayload {
  Pl_Node : string;
  Pl_ProposalRef : string;
  Pl_Provider : string;
  Pl_Model : string;
  Pl_ServedModel : string;
  Pl_Effort : string;
  Pl_Price : option ModelPriceUse;
  Pl_Prompt : option PromptInputBreakdown;
  Pl_UnavailableTools : list string;
  Pl_ClosedTools : list string
}.

(** A map is marshalled with its keys sorted. *)
Definition e_counts (m : gmap string Z) : json :=
  JObj (List.map (fun k => (k, JNum (print_Z (default 0%Z (m !! k))))) (sort_str (elements (dom m)))).

Definition counts_field (name : string) (m : gmap string Z) : list (string * json) :=
  if bool_decide (m = ∅) then [] else [(name, e_counts m)].

Definition e_PromptDigests (p : PromptDigests) : json := obj [
  fopt "tools" c_string (Pg_Tools p);
  fopt "system" (c_list c_string) (Pg_System p)].

Definition e_PromptInputBreakdown (p : PromptInputBreakdown) : json := obj [
  fld "unit" c_string (Pb_Unit p);
  fopt "instructions" c_int (Pb_Instructions p);
  fopt "platform" c_int (Pb_Platform p);
  fopt "input" c_int (Pb_Input p);
  fopt "notes" c_int (Pb_Notes p);
  fopt "tool_schemas" c_int (Pb_ToolSchemas p);
  fopt "tool_arguments" c_int (Pb_ToolArguments p);
  fopt "tool_results" c_int (Pb_ToolResults p);
  counts_field "tool_arguments_by_tool" (Pb_ToolArgumentsByTool p);
  counts_field "tool_results_by_tool" (Pb_ToolResultsByTool p);
  fopt "tool_results_elided" c_int (Pb_ToolResultsElided p);
  counts_field "tool_results_elided_by_tool" (Pb_ToolResultsElidedByTool p);
  fopt "total" c_int (Pb_Total p);
  match Pb_Digests p with Some d => [("digests", e_PromptDigests d)] | None => [] end].

Definition e_ModelPriceUse (p : ModelPriceUse) : json := obj [
  fld "status" c_string (Pr_Status p);
  fopt "non_zero_applied" c_bool (Pr_NonZeroApplied p)].

Definition e_PlannedPayload (p : PlannedPayload) : json := obj [
  fld "node" c_string (Pl_Node p);
  fopt "proposal_ref" c_string (Pl_ProposalRef p);
  fopt "provider" c_string (Pl_Provider p);
  fopt "model" c_string (Pl_Model p);
  fopt "servedModel" c_string (Pl_ServedModel p);
  fopt "effort" c_string (Pl_Effort p);
  match Pl_Price p with Some x => [("price", e_ModelPriceUse x)] | None => [] end;
  match Pl_Prompt p with Some x => [("prompt", e_PromptInputBreakdown x)] | None => [] end;
  fopt "unavailableTools" (c_list c_string) (Pl_UnavailableTools p);
  fopt "closedTools" (c_list c_string) (Pl_ClosedTools p)].

(** ** Small helpers (runner.go, act.go) *)

Definition digest (b : string) : string :=
  "sha256:" +:+ String.substring 0 16 (hex_encode (sha256 b)).

Definition headlineDigest (headline : string) : string :=
  if String.eqb headline "" then "" else digest headline.

Fixpoint firstNonEmpty (values : list string) : string :=
  match values with
  | [] => ""
  | v :: rest => if String.eqb v "" then firstNonEmpty rest else v
  end.

Definition status (s : State) : Status := MkStatus (St_Phase s) (St_Seq s) (State_Terminal s).

Definition remaining_budget (b : Budget) (c : Consumption) : Consumption :=
  MkConsumption (Z.max 0 (sub64 (B_Micros b) (C_Micros c))) (Z.max 0 (sub64 (B_Tokens b) (C_Tokens c)))
    (Z.max 0 (sub64 (B_ToolCalls b) (C_ToolCalls c))) (Z.max 0 (sub64 (B_Steps b) (C_Steps c))) 0.

Definition promptInputPayload (p : PromptInputBreakdown) : option PromptInputBreakdown :=
  if String.eqb (Pb_Unit p) "" && Z.eqb (Pb_Total p) 0 then None else Some p.

Definition pricePayload (p : ModelPriceUse) : option ModelPriceUse :=
  if String.eqb (Pr_Status p) "" then None else Some p.

(** A step literal of the source: a kind, and the fields it sets. *)
Record StepLiteral := MkStepLiteral {
  Lit_Kind : StepKind;
  Lit_Payload : string;
  Lit_Labels : Labels;
  Lit_Cost : Cost;
  Lit_IdemKey : string;
  Lit_PolicyHash : string
}.

#[export] Instance StepLiteral_eta : Eta StepLiteral := fun s =>
  MkStepLiteral (Lit_Kind s) (Lit_Payload s) (Lit_Labels s) (Lit_Cost s) (Lit_IdemKey s)
    (Lit_PolicyHash s).

Definition lit (kind : StepKind) (payload : string) : StepLiteral :=
  MkStepLiteral kind payload [] zeroCost "" "".

Definition withThisCall (estimate : Consumption) : Consumption :=
  estimate <| C_ToolCalls := add64 (C_ToolCalls estimate) 1 |>.

Definition budgetAsConsumption (b : Budget) : Consumption :=
  MkConsumption (B_Micros b) (B_Tokens b) (B_ToolCalls b) (B_Steps b) (B_WallClockMS b).

(** A budget, what was committed, the estimate and their sum, on a breach only. *)
Definition budgetEvidence (d : Decision)
    : option Consumption * option Consumption * option Consumption * option Consumption :=
  if String.eqb (D_Breached d) "" then (None, None, None, None)
  else (Some (budgetAsConsumption (D_Budget d)), Some (D_Committed d), Some (D_Estimate d),
        Some (D_Projected d)).

Definition pendingReviewWrite (start : Start) (p : Proposal) (effect : Effect) (labels : Labels)
    : bool :=
  String.eqb (P_Tool p) ToolMemorySuggest && Z.eqb effect EffectWrite &&
  ReviewRequired (Sa_MemoryLearning start) labels.

Definition eventsWithheld (start : Start) (state : State) : option EventsWithheld :=
  if negb (Sa_PublishesEvents start) then None
  else match ChainPosition_Next (St_Chain state) (St_RunID state) with
       | inl withheld => Some withheld
       | inr _ => None
       end.

#[export] Instance Proposal_eta : Eta Proposal := fun p =>
  MkProposal (P_Tool p) (P_Args p) (P_contractDigest p) (P_approvalEvidence p) (P_approvalAtSeq p)
    (P_decidedBy p) (P_Estimate p) (P_Cost p) (P_Prompt p) (P_Provider p) (P_Model p)
    (P_ServedModel p) (P_Price p) (P_Unavailable p) (P_Done p) (P_Outcome p) (P_Artifacts p)
    (P_StoppedBy p) (P_Headline p).

Definition zeroPrompt : PromptInputBreakdown :=
  MkPromptInputBreakdown "" 0 0 0 0 0 0 0 ∅ ∅ 0 ∅ 0 None.

Definition zeroProposal : Proposal :=
  MkProposal "" "" "" zeroApprovalEvidence 0 "" zeroConsumption zeroCost zeroPrompt "" "" ""
    (MkModelPriceUse "" false) [] false "" [] "" "".

#[export] Instance ToolResult_eta : Eta ToolResult := fun r =>
  MkToolResult (Tr_ResultRef r) (Tr_ResultDigest r) (Tr_ResultBytes r) (Tr_Labels r) (Tr_Cost r)
    (Tr_Failed r) (Tr_ErrorCode r) (Tr_Cached r) (Tr_CachedFromRun r) (Tr_CachedFromSeq r)
    (Tr_Context r) (Tr_Provenance r).

Definition zeroResult : ToolResult :=
  MkToolResult "" "" 0 [] zeroCost false "" false "" 0 None "".

#[export] Instance Call_eta : Eta Call := fun c =>
  MkCall (Ca_RunID c) (Ca_Seq c) (Ca_Scope c) (Ca_AgentID c) (Ca_Tool c) (Ca_Args c)
    (Ca_ContractDigest c) (Ca_ApprovalEvidence c) (Ca_ApprovalAtSeq c) (Ca_DecidedBy c)
    (Ca_OnBehalfOf c) (Ca_IdemKey c) (Ca_ContextArtifacts c) (Ca_Ticket c) (Ca_At c) (Ca_Labels c)
    (Ca_MemoryLearning c).

(** ** Links the engine may make (workitem_link_act.go) *)

Definition CodeWorkItemHeld : string := "work_item_held".
Definition CodeWorkItemRunHoldsAnother : string := "work_item_run_holds_another".
Definition CodeWorkItemRefInvalid : string := "work_item_ref_invalid".
Definition CodeWorkItemLinkRefInvalid : string := "work_item_link_ref_invalid".
Definition CodeWorkItemLinkUnclaimed : string := "work_item_link_unclaimed".
Definition CodeWorkItemLinkedElsewhere : string := "work_item_linked_elsewhere".
Definition CodeWorkItemLinkNested : string := "work_item_link_nested".
Definition CodeWorkItemLinkUnproven : string := "work_item_link_unproven".

(** [json.Unmarshal(args, &a)] into the one field the coordination tools read,
    its error ignored. *)
Definition claimArgs (args : string) : string :=
  fst (unmarshal_into "" (d_struct (fun cur fs => field "ref" d_string cur fs)) args).

Record claimAnswer := MkClaimAnswer {
  Cw_Claimed : bool; Cw_Ref : WorkItemRef; Cw_Reason : string; Cw_Message : string
}.

Definition e_claimAnswer (a : claimAnswer) : json := obj [
  fld "claimed" c_bool (Cw_Claimed a);
  fopt "ref" c_string (Cw_Ref a);
  fopt "reason" c_string (Cw_Reason a);
  fld "message" c_string (Cw_Message a)].

Record linkAnswer := MkLinkAnswer {
  La_Linked : bool; La_Alias : WorkItemRef; La_Root : WorkItemRef;
  La_Reason : string; La_Message : string
}.

Definition e_linkAnswer (a : linkAnswer) : json := obj [
  fld "linked" c_bool (La_Linked a);
  fopt "alias" c_string (La_Alias a);
  fopt "root" c_string (La_Root a);
  fopt "reason" c_string (La_Reason a);
  fld "message" c_string (La_Message a)].

(** The link a proposal would make, or why the record refuses it. *)
Definition proposedLink (state : State) (args : string) : linkAnswer + WorkItemLinkedPayload :=
  match ParseWorkItemRef (claimArgs args) with
  | None =>
      inl (MkLinkAnswer false "" "" CodeWorkItemLinkRefInvalid
             "ref must be the pull request as github:owner/repo#123")
  | Some alias =>
      let root := wf_claim (St_workItem state) in
      if String.eqb root "" then
        inl (MkLinkAnswer false alias "" CodeWorkItemLinkUnclaimed
               "this run holds no card; claim the card before linking its pull request")
      else
        let p := MkWorkItemLinkedPayload alias root (MkWorkItemLinkProof StepToolReturned FirstSeq) in
        if negb (is_ok (WorkItemLinkedPayload_Validate p)) then
          inl (MkLinkAnswer false alias root CodeWorkItemLinkRefInvalid
                 "ref must be a pull request in the same repository as the card this run holds")
        else inr p
  end.

Definition canonicalLink (p : Proposal) : Proposal :=
  if negb (String.eqb (P_Tool p) ToolWorkItemLink) then p
  else match ParseWorkItemRef (claimArgs (P_Args p)) with
       | Some alias => p <| P_Args := LinkArgs alias |>
       | None => p
       end.

Definition linkStanding (state : State) (p : Proposal) : bool * string :=
  if negb (String.eqb (P_Tool p) ToolWorkItemLink) then (false, "")
  else match proposedLink state (P_Args p) with
       | inl answer => (false, La_Message answer)
       | inr link => (bool_decide (is_Some (wf_pullRequests (St_workItem state) !! WL_Alias link)), "")
       end.

Definition linkProven (state : State) (p : Proposal) : bool := fst (linkStanding state p).
Definition linkRefusalOf (state : State) (p : Proposal) : string := snd (linkStanding state p).

Definition linkProof (state : State) (alias : WorkItemRef) (approvalAtSeq : Z)
    : option WorkItemLinkProof :=
  match wf_pullRequests (St_workItem state) !! alias with
  | Some seq => Some (MkWorkItemLinkProof StepToolReturned seq)
  | None =>
      match wf_linkApprovals (St_workItem state) !! approvalAtSeq with
      | Some seq =>
          if negb (Z.eqb approvalAtSeq 0) then Some (MkWorkItemLinkProof StepApprovalDecided seq)
          else None
      | None => None
      end
  end.

Definition claimRefusal (e : RunError) : option claimAnswer :=
  match e with
  | RunLedger (ErrWorkItem ErrWorkItemHeld) =>
      Some (MkClaimAnswer false "" CodeWorkItemHeld
              "another open run of this agent holds this card; pick another")
  | RunLedger (ErrWorkItem ErrWorkItemRunHoldsAnother) =>
      Some (MkClaimAnswer false "" CodeWorkItemRunHoldsAnother
              "this run already holds a different card; a run works on one card")
  | RunLedger (ErrWorkItem ErrWorkItemInvalid) =>
      Some (MkClaimAnswer false "" CodeWorkItemRefInvalid "the card reference is not usable")
  | _ => None
  end.

Definition linkRefusal (e : RunError) : option linkAnswer :=
  match e with
  | RunLedger (ErrWorkItem ErrWorkItemLinkedElsewhere) =>
      Some (MkLinkAnswer false "" "" CodeWorkItemLinkedElsewhere
              "this pull request is already linked to another card; it is not linked again")
  | RunLedger (ErrWorkItem ErrWorkItemLinkNested) =>
      Some (MkLinkAnswer false "" "" CodeWorkItemLinkNested
              "links are one level deep: the card is itself an alias, or the pull request already has aliases")
  | RunLedger (ErrWorkItem ErrWorkItemLinkUnclaimed) =>
      Some (MkLinkAnswer false "" "" CodeWorkItemLinkUnclaimed "this run holds no card to link to")
  | RunLedger (ErrWorkItem ErrWorkItemLinkUnproven) =>
      Some (MkLinkAnswer false "" "" CodeWorkItemLinkUnproven "the link's proof does not verify")
  | RunLedger (ErrWorkItem ErrWorkItemLinkInvalid) =>
      Some (MkLinkAnswer false "" "" CodeWorkItemLinkRefInvalid
              "the pull request reference is not usable")
  | _ => None
  end.

(** ** The loop *)

Section Runner.
Context (deps : Deps).

Definition when {A} (b : bool) (m : turn A) : turn unit :=
  if b then m ≫= fun _ => mret tt else mret tt.

(** *** Appending (runner.go) *)

Definition stamp (start : Start) (s : StepLiteral) : turn Step :=
  now ← call OnNow;
  mret (MkStep (Sa_RunID start) 0 (Lit_Kind s) (Sa_Scope start) (Sa_AgentID start)
          (Sa_VersionID start) (Sa_OnBehalfOf start) (Lit_Payload s) (Lit_Labels s) (Lit_Cost s)
          (Lit_IdemKey s) (Lit_PolicyHash s) now "" "").

(** The conditional append the turn's lease and head allow. *)
Definition append_op (state : State) (start : Start) (s : Step) : port (result LedgerError Step) :=
  let head := if (St_Seq state <? FirstSeq)%Z then MkStepRef 0 "" else St_Head state in
  if negb (Z.eqb (Sa_LeaseEpoch start) 0) then LAppendIfLeaseAndHead (Sa_LeaseEpoch start) head s
  else if is_zero_ref head then LAppend s
  else LAppendIfHead head s.

Definition Runner_append (state : State) (start : Start) (s : StepLiteral) : turn State :=
  s ← stamp start s;
  sealed ← ask RunLedger (append_op state start s);
  match Apply state sealed with
  | Ok state => mret state
  | Err e => fail_with (RunFold e)
  end.

Definition planned_key (state : State) (start : Start) : string :=
  "planned-spend:" +:+ Sa_RunID start +:+ ":" +:+ print_Z (add64 (St_Seq state) 1) +:+ ":" +:+
  print_Z (Sa_LeaseEpoch start).

(** A fenced planning record still lands its spend, under the same key. *)
Definition appendPlanned (state : State) (start : Start) (s : StepLiteral) : turn State :=
  let spent := negb (bool_decide (Lit_Cost s = zeroCost)) in
  let s := if spent then s <| Lit_IdemKey := planned_key state start |> else s in
  r ← attempt (Runner_append state start s);
  match r with
  | Ok next => mret next
  | Err err =>
      fenced ← match err with
               | RunLedger ErrHeadMoved | RunLedger ErrLeaseLost => mret true
               | _ => call OnCtxErr
               end;
      if negb fenced || negb spent then fail_with err
      else
        spend ← stamp start s;
        r ← call (LAppend spend);
        match r with
        | Err aerr =>
            match aerr with
            | ErrIdemConflict => fail_with err
            | _ => fail_with (RunSpendNotRecorded err aerr)
            end
        | Ok _ => fail_with err
        end
  end.

(** *** Opening and recovering (resume.go) *)

(** The state of a history, opened by its first step when it has none. *)
Definition open_run (start : Start) (steps : list Step) : turn State :=
  match Fold steps with
  | Err e => fail_with (RunFold e)
  | Ok state =>
      if negb (Z.eqb (St_Phase state) PhaseUnstarted) then mret state
      else Runner_append state start
             (lit StepRunStarted (marshal c_RunStartedPayload
                (MkRunStartedPayload (Sa_Trigger start) "" false "" "" 0 None None [] "" None None)))
  end.

Definition load (start : Start) : turn State :=
  r ← call (LRead (Sa_RunID start) FirstSeq);
  steps ← match r with
          | Ok steps => mret steps
          | Err ErrNotFound => mret []
          | Err e => fail_with (RunLedger e)
          end;
  open_run start steps.

Definition recoverOrphanedCall (state : State) (start : Start) : turn Status :=
  let outstanding := St_Reserved state in
  state ← Runner_append state start (lit StepToolReturned (marshal c_ToolReturnedPayload
            (MkToolReturnedPayload (St_PendingTool state) "" "" 0 true unknownOutcomeAfterRestart
               false "" 0 None None)));
  state ← Runner_append state start (lit StepBudgetReconciled (marshal c_BudgetReconciledPayload
            (MkBudgetReconciledPayload (C_Micros outstanding) (C_Tokens outstanding))));
  mret (status state).

Definition park (state : State) (start : Start) (reason : string) : turn Status :=
  state ← Runner_append state start
            (lit StepParked (marshal c_ParkedPayload (MkParkedPayload reason 0 None None)));
  mret (status state).

(** investigation.go *)
Definition parkInvestigation (state : State) (start : Start) (summary : InvestigationSummary)
    : turn Status :=
  state ← Runner_append state start (lit StepParked (marshal c_ParkedPayload
            (MkParkedPayload "investigation_stalled" 0 None (Some summary))));
  _ ← when (D_Metrics deps) (call (OnMetric "investigation_stalled"));
  mret (status state).

(** *** Content (runner.go, act.go) *)

Definition storeOutcome (run : RunID) (seq : Z) (outcome : string) : turn string :=
  if String.eqb outcome "" then mret ""
  else if negb (D_Content deps) then fail_with RunNoContentStore
  else ask RunPort (OnPut run seq outcome).

Definition store (run : RunID) (seq : Z) (args : string) : turn string :=
  if String.eqb args "" || negb (D_Content deps) then mret ""
  else ask RunPort (OnPut run seq args).

Definition resolve (ref : string) : turn string :=
  if String.eqb ref "" || negb (D_Content deps) then mret ""
  else ask RunPort (OnGet ref).

Fixpoint store_each (start : Start) (labels : Labels) (seq : Z) (artifacts : list (string * string))
    : turn (list ContextArtifact) :=
  match artifacts with
  | [] => mret []
  | (name, body) :: rest =>
      ref ← ask RunPort (OnPut (Sa_RunID start) seq body);
      out ← store_each start labels seq rest;
      mret (MkContextArtifact name "text" ref (digest body) (Sa_RunID start) (Sa_AgentID start)
              labels :: out)
  end.

Definition storeArtifacts (start : Start) (state : State) (seq : Z)
    (artifacts : list (string * string)) : turn (list ContextArtifact) :=
  match artifacts with
  | [] => mret []
  | _ => if negb (D_Content deps) then fail_with RunNoContentStore
         else store_each start (Labels_Clone (St_Labels state)) seq artifacts
  end.

(** outcome.go *)
Definition OutcomeOf (p : RunFinishedPayload) : turn string :=
  if String.eqb (RF_OutcomeRef p) "" then mret (RF_Outcome p)
  else if negb (D_Content deps) then fail_with RunNoContentStore
  else ask RunPort (OnGet (RF_OutcomeRef p)).

Definition HeadlineOf (p : RunFinishedPayload) : turn string :=
  if String.eqb (RF_HeadlineRef p) "" then mret ""
  else if negb (D_Content deps) then fail_with RunNoContentStore
  else ask RunPort (OnGet (RF_HeadlineRef p)).

(** *** The gate's request and its record (act.go) *)

Definition effectOf (tool : ToolID) : turn Effect :=
  if ToolID_Coordination tool then mret EffectWrite else call (OnEffect tool).

Definition gate_request (state : State) (start : Start) (p : Proposal) (effect : Effect)
    (idemKey : string) (already : bool) : Request :=
  {| R_Scope := Sa_Scope start; R_RunID := Sa_RunID start; R_AgentID := Sa_AgentID start;
     R_Seq := add64 (St_Seq state) 1; R_Tool := P_Tool p; R_Effect := effect; R_Args := P_Args p;
     R_ArgLabels := St_Labels state; R_Pack := envelopeForState start state;
     R_Stage := Sa_Stage start; R_Compensating := ""; R_Budget := Sa_Budget start;
     R_Committed := State_Committed state; R_Estimate := withThisCall (P_Estimate p);
     R_IdemKey := idemKey; R_AlreadyExecuted := already;
     R_ApprovalGranted :=
       match St_Approved state with
       | None => false
       | Some a => String.eqb (AC_Tool a) (P_Tool p) && String.eqb (AC_ArgsDigest a) (digest (P_Args p)) &&
                   String.eqb (AC_ContractDigest a) (P_contractDigest p)
       end;
     R_PendingReview := pendingReviewWrite start p effect (St_Labels state);
     R_LinkProven := linkProven state p; R_LinkRefusal := linkRefusalOf state p |}.

Definition Runner_decide (state : State) (start : Start) (p : Proposal) (effect : Effect)
    (idemKey : string) (already : bool) : Decision :=
  Evaluate (D_Gate deps) (gate_request state start p effect idemKey already).

Definition approvalBinding (c : Call) : turn string :=
  if D_Binder deps then call (OnBinding c) else mret "".

Definition appendGateDecision (state : State) (start : Start) (p : Proposal) (effect : Effect)
    (decision : Decision) (dup : option DuplicateEffect) : turn State :=
  let dup := if negb (Z.eqb (D_Verdict decision) VerdictDuplicate) then None else dup in
  let '(budget, committed, estimate, projected) := budgetEvidence decision in
  Runner_append state start
    (MkStepLiteral StepGateDecided
       (marshal c_GateDecidedPayload
          (MkGateDecidedPayload (P_Tool p) effect (D_Verdict decision) (D_Rule decision)
             (D_Reason decision) (D_PolicyCode decision)
             (List.map (fun m => MkMonitoredPolicy (Mon_Code m) (Mon_Verdict m) (Mon_Reason m))
                (D_Monitored decision))
             dup (Sa_Stage start) (St_Labels state) (digest (P_Args p)) (P_contractDigest p)
             budget committed estimate projected (D_Breached decision)))
       (Labels_Clone (St_Labels state)) zeroCost "" (D_PolicyHash decision)).

(** *** Standing approvals and refusals (act.go) *)

Definition StandingApprovalNotePrefix : string := "standing approval ".

Definition standingDecide (state : State) (start : Start) (p : Proposal) : turn Status :=
  if negb (D_Standing deps) || StandingPolicy_Forbidden (Sa_StandingApprovals start)
  then mret (status state)
  else
    now ← call OnNow;
    r ← call (OnStanding (P_Tool p) (Sa_AgentID start) (Sa_Scope start) (Sa_RunID start) now);
    match r with
    | Ok (Some grant) =>
        let atSeq := St_Seq state in
        state ← Runner_append state start
          (MkStepLiteral StepApprovalDecided
             (marshal c_ApprovalDecidedPayload
                (MkApprovalDecidedPayload true (Sg_By grant)
                   (StandingApprovalNotePrefix +:+ Sg_ID grant +:+ ": " +:+ Sg_Reason grant)
                   atSeq (Sg_ID grant)))
             (Labels_Clone (St_Labels state)) zeroCost (ApprovalDecisionKey (Sa_RunID start) atSeq) "");
        mret (status state)
    | _ => mret (status state)
    end.

Definition approvalEvidence (c : Call) : turn ApprovalEvidence :=
  if negb (D_Evidencer deps) then mret zeroApprovalEvidence
  else
    evidence ← ask RunPort (OnEvidence c);
    if negb (ApprovalEvidence_Empty evidence) && negb (ApprovalEvidence_Valid evidence)
    then fail_with RunEvidenceIncomplete
    else mret evidence.

Definition maxConsecutiveBlocks : Z := 3.

Definition refused (state : State) (start : Start) (p : Proposal) (decision : Decision)
    (effect : Effect) : turn Status :=
  if Z.eqb (D_Verdict decision) VerdictRequireApproval then
    now ← call OnNow;
    evidence ← approvalEvidence
      (MkCall (Sa_RunID start) (add64 (St_Seq state) 1) (Sa_Scope start) (Sa_AgentID start)
         (P_Tool p) (P_Args p) (P_contractDigest p) zeroApprovalEvidence 0 "" (Sa_OnBehalfOf start)
         "" [] (St_Ticket state) now (Labels_Clone (St_Labels state))
         (MkMemoryLearningPolicy "" 0 0));
    argsRef ← store (Sa_RunID start) (add64 (St_Seq state) 1) (P_Args p);
    let evidenceRef := if ApprovalEvidence_Empty evidence then None else Some evidence in
    state ← Runner_append state start
      (MkStepLiteral StepApprovalRequested
         (marshal c_ApprovalRequestedPayload
            (MkApprovalRequestedPayload (P_Tool p) (D_Rule decision) (D_Reason decision) 0 effect
               argsRef (digest (P_Args p)) (P_contractDigest p) (P_Estimate p) (St_Labels state)
               evidenceRef))
         (Labels_Clone (St_Labels state)) zeroCost "" "");
    standingDecide state start p
  else if String.eqb (D_Rule decision) RuleBudget then park state start "budget_exhausted"
  else if Z.eqb (D_Verdict decision) VerdictDuplicate &&
          (maxConsecutiveBlocks <=? St_ConsecutiveSkips state)%Z
  then park state start "no_progress"
  else if (maxConsecutiveBlocks <=? St_ConsecutiveBlocks state)%Z
  then park state start "no_progress"
  else mret (status state).

(** *** Semantic duplicates across runs (act.go) *)

Record semanticDedupe := MkSemanticDedupe {
  Sd_enabled : bool;
  Sd_key : DedupeKey;
  Sd_window : Duration;
  Sd_already : bool;
  Sd_source : option DuplicateEffect
}.

Definition zeroSemantic : semanticDedupe :=
  MkSemanticDedupe false (MkDedupeKey zeroScope "" "" "") 0 false None.

Definition duplicateSource (rec : DedupeRecord) : option DuplicateEffect :=
  if String.eqb (DR_RunID rec) "" || (DR_Seq rec <=? 0)%Z then None
  else Some (MkDuplicateEffect (DR_RunID rec) (DR_Seq rec)).

Definition semantic_dedupe (start : Start) (p : Proposal) : turn semanticDedupe :=
  if negb (D_Dedupe deps) || ToolID_Coordination (P_Tool p) then mret zeroSemantic
  else
    decl ← call (OnDedupeDecl (P_Tool p));
    match decl with
    | None => mret zeroSemantic
    | Some decl =>
        match Fingerprint decl (P_Args p) with
        | Err e => fail_with (RunDedupe e)
        | Ok fingerprint =>
            let key := MkDedupeKey (Sa_Scope start) (Sa_AgentID start) (P_Tool p) fingerprint in
            let window := wrap64 (TD_WindowSeconds decl * 1000000000) in
            now ← call OnNow;
            r ← call (OnLookup key now);
            match r with
            | Err _ => mret zeroSemantic
            | Ok found =>
                let already := match found with
                               | Some rec => String.eqb (DR_State rec) StateConfirmed
                               | None => false
                               end in
                mret (MkSemanticDedupe true key window already
                        (if already then found ≫= duplicateSource else None))
            end
        end
    end.

(** What a record says of this run's reservation: held, a duplicate, or neither
    while another run's is pending. *)
Inductive reservation :=
| Held
| Duplicate (source : option DuplicateEffect)
| Free
| PendingElsewhere.

Definition dedupeRecordOutcome (start : Start) (rec : DedupeRecord) : result RunError reservation :=
  if String.eqb (DR_State rec) StateConfirmed then Ok (Duplicate (duplicateSource rec))
  else if String.eqb (DR_State rec) StateReserved then Ok Held
  else if String.eqb (DR_State rec) StatePending && String.eqb (DR_RunID rec) (Sa_RunID start)
  then Ok Held
  else if String.eqb (DR_State rec) StatePending then Ok PendingElsewhere
  else Err (RunDedupeState (DR_State rec)).

Definition defaultDedupePendingTTL : Duration := (2 * 60 * 1000000000)%Z.
Definition dedupePendingTTL : Duration :=
  if (0 <? D_DedupePendingTTL deps)%Z then D_DedupePendingTTL deps else defaultDedupePendingTTL.

Definition of_result {A} (r : result RunError A) : turn A :=
  match r with Ok a => mret a | Err e => fail_with e end.

Definition dedupe_reserve (start : Start) (d : semanticDedupe) : turn DedupeRecord :=
  now ← call OnNow;
  ask RunPort (OnDedupeReserve (Sd_key d) (Sa_RunID start) dedupePendingTTL now).

Definition retryDedupeReservation (start : Start) (d : semanticDedupe) : turn reservation :=
  now ← call OnNow;
  found ← ask RunPort (OnLookup (Sd_key d) now);
  rec ← match found with Some rec => mret rec | None => dedupe_reserve start d end;
  of_result (dedupeRecordOutcome start rec).

(** The wait: cancellation, the deadline or a tick, until the reservation is
    settled. [ticks] bounds the ticks delivered before the deadline. *)
Fixpoint waitForDedupeReservation (ticks : nat) (start : Start) (d : semanticDedupe)
    : turn reservation :=
  match ticks with
  | O => fail_with RunDedupeInFlight
  | S ticks' =>
      wake ← call OnWait;
      match wake with
      | WakeCancelled => fail_with RunCancelled
      | WakeDeadline => fail_with RunDedupeInFlight
      | WakeTick =>
          res ← retryDedupeReservation start d;
          match res with
          | Held | Duplicate _ => mret res
          | Free | PendingElsewhere => waitForDedupeReservation ticks' start d
          end
      end
  end.

Definition reserveSemanticDedupe (start : Start) (d : semanticDedupe) : turn reservation :=
  if negb (Sd_enabled d) || negb (D_Dedupe deps) then mret Free
  else
    rec ← dedupe_reserve start d;
    res ← of_result (dedupeRecordOutcome start rec);
    match res with
    | PendingElsewhere => waitForDedupeReservation (D_DedupeTicks deps) start d
    | _ => mret res
    end.

(** *** Coordination tools (workitem.go, workitem_link_act.go) *)

Definition answer_call (c : Call) (state : State) (ok : bool) (reason : string) (body : string)
    : turn (State * ToolResult) :=
  let result := zeroResult <| Tr_ResultDigest := ResultDigest body |>
                           <| Tr_ResultBytes := Z.of_nat (String.length body) |>
                           <| Tr_Failed := negb ok |> <| Tr_ErrorCode := reason |> in
  if negb (D_Content deps) then mret (state, result)
  else
    ref ← ask RunPort (OnPut (Ca_RunID c) (Ca_Seq c) body);
    mret (state, result <| Tr_ResultRef := ref |>).

Definition answerClaim (state : State) (c : Call) (a : claimAnswer) : turn (State * ToolResult) :=
  answer_call c state (Cw_Claimed a) (Cw_Reason a) (print_json (e_claimAnswer a)).

Definition answerLink (state : State) (c : Call) (a : linkAnswer) : turn (State * ToolResult) :=
  answer_call c state (La_Linked a) (La_Reason a) (print_json (e_linkAnswer a)).

Definition claimWorkItem (state : State) (start : Start) (c : Call) : turn (State * ToolResult) :=
  match ParseWorkItemRef (claimArgs (Ca_Args c)) with
  | None => answerClaim state c (MkClaimAnswer false "" CodeWorkItemRefInvalid
              "ref must be github:owner/repo#123 or ghproject:<node id>")
  | Some ref =>
      r ← attempt (Runner_append state start
             (MkStepLiteral StepWorkItemClaimed
                (marshal c_WorkItemClaimedPayload (MkWorkItemClaimedPayload ref))
                (Labels_Clone (St_Labels state)) zeroCost "" ""));
      match r with
      | Ok next => answerClaim next c (MkClaimAnswer true ref ""
                     "the card is this run's until the run ends")
      | Err err =>
          match claimRefusal err with
          | None => fail_with err
          | Some refusal => answerClaim state c
              (MkClaimAnswer (Cw_Claimed refusal) ref (Cw_Reason refusal) (Cw_Message refusal))
          end
      end
  end.

Definition linkWorkItem (state : State) (start : Start) (c : Call) : turn (State * ToolResult) :=
  match proposedLink state (Ca_Args c) with
  | inl refusal => answerLink state c refusal
  | inr link =>
      match linkProof state (WL_Alias link) (Ca_ApprovalAtSeq c) with
      | None => answerLink state c
          (MkLinkAnswer false (WL_Alias link) (WL_Root link) CodeWorkItemLinkUnproven
             "this run's create_pull_request did not name this pull request, and no person approved the link")
      | Some proof =>
          r ← attempt (Runner_append state start
                 (MkStepLiteral StepWorkItemLinked
                    (marshal c_WorkItemLinkedPayload
                       (MkWorkItemLinkedPayload (WL_Alias link) (WL_Root link) proof))
                    (Labels_Clone (St_Labels state)) zeroCost "" ""));
          match r with
          | Ok next => answerLink next c
              (MkLinkAnswer true (WL_Alias link) (WL_Root link) ""
                 "the pull request is linked to the card this run holds")
          | Err err =>
              match linkRefusal err with
              | None => fail_with err
              | Some a => answerLink state c
                  (MkLinkAnswer (La_Linked a) (WL_Alias link) (WL_Root link) (La_Reason a)
                     (La_Message a))
              end
          end
      end
  end.

Definition reserve (c : Call) : turn unit :=
  if ToolID_Coordination (Ca_Tool c) then mret tt else ask RunPort (OnReserve c).

(** The call itself, fenced on the lease just before the effect leaves. *)
Definition execute (state : State) (start : Start) (c : Call) : turn (State * ToolResult) :=
  if String.eqb (Ca_Tool c) ToolWorkItemClaim then claimWorkItem state start c
  else if String.eqb (Ca_Tool c) ToolWorkItemLink then linkWorkItem state start c
  else if ToolID_Coordination (Ca_Tool c) then fail_with (RunNoExecutor (Ca_Tool c))
  else
    _ ← if negb (Z.eqb (Sa_LeaseEpoch start) 0)
        then ask RunLedger (LFence (Sa_RunID start) (Sa_LeaseEpoch start) (St_Head state))
        else mret tt;
    r ← call (OnInvoke c);
    let '(result, ok) := r in
    if ok : bool then mret (state, result)
    else mret (state, result <| Tr_Failed := true |>
                             <| Tr_ErrorCode := firstNonEmpty [Tr_ErrorCode result; "invoke_error"] |>).

Definition pullRequestOf (tool : ToolID) (result : ToolResult) : turn (option PullRequestStamp) :=
  if negb (ToolID_CreatesPullRequest tool) || Tr_Failed result || Tr_Cached result ||
     String.eqb (Tr_ResultRef result) "" || negb (D_Content deps) ||
     negb (String.eqb (Tr_Provenance result) ProvenanceHostedGitHubApp)
  then mret None
  else
    r ← call (OnGet (Tr_ResultRef result));
    match r with
    | Err _ => mret None
    | Ok body =>
        mret (option_map (fun ref => MkPullRequestStamp ref (Tr_Provenance result))
                (PullRequestNamed body))
    end.

(** *** From the gate to the far side (act.go) *)

Definition returned_payload (p : Proposal) (result : ToolResult) (stamp : option PullRequestStamp)
    : ToolReturnedPayload :=
  MkToolReturnedPayload (P_Tool p) (Tr_ResultRef result) (Tr_ResultDigest result)
    (Tr_ResultBytes result) (Tr_Failed result)
    (if Tr_Failed result then firstNonEmpty [Tr_ErrorCode result; "tool_error"] else "")
    (Tr_Cached result)
    (if Tr_Cached result then Tr_CachedFromRun result else "")
    (if Tr_Cached result then Tr_CachedFromSeq result else 0)
    (Tr_Context result) stamp.

Definition invoke (state : State) (start : Start) (p : Proposal) (effect : Effect)
    (idemKey : string) (semantic : semanticDedupe) (held : bool) : turn Status :=
  now ← call OnNow;
  let c := MkCall (Sa_RunID start) 0 (Sa_Scope start) (Sa_AgentID start) (P_Tool p) (P_Args p)
             (P_contractDigest p) (P_approvalEvidence p) (P_approvalAtSeq p) (P_decidedBy p)
             (Sa_OnBehalfOf start) idemKey (St_ContextArtifacts state) (St_Ticket state) now
             (Labels_Clone (St_Labels state))
             (MemoryLearningPolicy_Normalize (Sa_MemoryLearning start)) in
  _ ← reserve c;
  state ← Runner_append state start (lit StepBudgetReserved (marshal c_BudgetReservedPayload
            (MkBudgetReservedPayload (C_Micros (P_Estimate p)) (C_Tokens (P_Estimate p)))));
  argsRef ← store (Sa_RunID start) (add64 (St_Seq state) 1) (P_Args p);
  state ← Runner_append state start
            (MkStepLiteral StepToolCalled
               (marshal c_ToolCalledPayload
                  (MkToolCalledPayload (P_Tool p) effect argsRef (digest (P_Args p))
                     (P_contractDigest p)))
               (Labels_Clone (St_Labels state)) zeroCost idemKey "");
  let c := c <| Ca_Seq := St_Seq state |> in
  '(state, result) ← execute state start c;
  stamp ← pullRequestOf (P_Tool p) result;
  let returned := returned_payload p result stamp in
  state ← Runner_append state start
            (MkStepLiteral StepToolReturned (marshal c_ToolReturnedPayload returned)
               (Tr_Labels result) (Tr_Cost result) "" "");
  state ← Runner_append state start (lit StepBudgetReconciled (marshal c_BudgetReconciledPayload
            (MkBudgetReconciledPayload (C_Micros (P_Estimate p)) (C_Tokens (P_Estimate p)))));
  if held then
    if TRd_Failed returned then
      _ ← ask RunPort (OnRelease (Sd_key semantic) (Sa_RunID start));
      mret (status state)
    else
      now ← call OnNow;
      _ ← ask RunPort (OnConfirm (Sd_key semantic) (Sa_RunID start) (Ca_Seq c) (Sd_window semantic) now);
      mret (status state)
  else mret (status state).

Definition afterExecutableGate (state : State) (start : Start) (p : Proposal) (effect : Effect)
    (idemKey : string) (semantic : semanticDedupe) (decision : Decision) : turn Status :=
  r ← attempt (reserveSemanticDedupe start semantic);
  match r with
  | Err e =>
      _ ← appendGateDecision state start p effect decision None;
      fail_with e
  | Ok (Duplicate source) =>
      let decision := Runner_decide state start p effect idemKey true in
      state ← appendGateDecision state start p effect decision source;
      mret (status state)
  | Ok res =>
      state ← appendGateDecision state start p effect decision None;
      invoke state start p effect idemKey semantic (match res with Held => true | _ => false end)
  end.

Definition act (state : State) (start : Start) (p : Proposal) : turn Status :=
  binding ← approvalBinding
    (MkCall (Sa_RunID start) 0 (Sa_Scope start) (Sa_AgentID start) (P_Tool p) (P_Args p) ""
       zeroApprovalEvidence 0 "" (Sa_OnBehalfOf start) "" [] (St_Ticket state) 0 []
       (MkMemoryLearningPolicy "" 0 0));
  let p := p <| P_contractDigest := binding |> in
  effect ← effectOf (P_Tool p);
  let idemKey := executionIdempotencyKey state effect (P_Tool p)
                   (idempotencyKey (Sa_RunID start) (P_Tool p) (P_Args p)) in
  let perRun := duplicateWithinRun state effect (P_Tool p) idemKey in
  semantic ← semantic_dedupe start p;
  let decision := Runner_decide state start p effect idemKey (perRun || Sd_already semantic) in
  if negb (Verdict_Executable (D_Verdict decision)) ||
     Z.eqb (D_Verdict decision) VerdictRequireApproval
  then
    _ ← when (perRun && Z.eqb (D_Verdict decision) VerdictDuplicate && D_Metrics deps)
          (call (OnMetric "canonical_duplicate"));
    state ← appendGateDecision state start p effect decision (Sd_source semantic);
    refused state start p decision effect
  else afterExecutableGate state start p effect idemKey semantic decision.

Definition actApproved (state : State) (start : Start) (approved : ApprovedCall) : turn Status :=
  args ← resolve (AC_ArgsRef approved);
  if negb (String.eqb (digest args) (AC_ArgsDigest approved)) then fail_with RunArgsMismatch
  else act state start
         (zeroProposal <| P_Tool := AC_Tool approved |> <| P_Args := args |>
                       <| P_approvalEvidence := AC_Evidence approved |>
                       <| P_approvalAtSeq := AC_AtSeq approved |>
                       <| P_decidedBy := AC_DecidedBy approved |>).

(** *** Planning (runner.go, unavailable.go, fallback.go) *)

Definition implicate (server : string) (tool : ToolID) (m : gmap string (list ToolID))
    : gmap string (list ToolID) :=
  <[server := (default [] (m !! server) ++ [tool])%list]> m.

(** One pass over the offered tools: those nobody can describe, and the servers
    whose absence that implicates. *)
Fixpoint survey (offered missing : list ToolID) (implicated : gmap string (list ToolID))
    : turn (list ToolID * gmap string (list ToolID)) :=
  match offered with
  | [] => mret (missing, implicated)
  | id :: rest =>
      if ToolID_PlatformOwned id then survey rest missing implicated
      else
        described ← call (OnSchema id);
        let missing := if described : bool then missing else (missing ++ [id])%list in
        if negb (D_Connections deps) then survey rest missing implicated
        else
          s ← call (OnSession id);
          let '(server, live, owned) := s in
          if owned && negb live then survey rest missing (implicate server id implicated)
          else if negb owned && negb described then
            let prefix := ToolID_Server id in
            if String.eqb prefix "" then survey rest missing implicated
            else
              up ← call (OnConnected prefix);
              survey rest missing (if up : bool then implicated else implicate prefix id implicated)
          else survey rest missing implicated
  end.

Fixpoint first_expected (servers : list string) (implicated : gmap string (list ToolID)) : turn unit :=
  match servers with
  | [] => mret tt
  | server :: rest =>
      expected ← ask RunPort (OnExpected server);
      if expected : bool
      then fail_with (RunServerUnavailable server (default [] (implicated !! server)))
      else first_expected rest implicated
  end.

Definition unavailableTools (offered : list ToolID) : turn (list ToolID) :=
  if negb (D_Schemas deps) then mret []
  else
    '(missing, implicated) ← survey offered [] ∅;
    if negb (D_Connections deps) || negb (D_Servers deps) then mret missing
    else
      _ ← first_expected (sort_str (elements (dom implicated))) implicated;
      mret missing.

(** Who plans this turn, and with which model. *)
Definition plannerFor (state : State) (start : Start) (stepModel : string) : turn (bool * string) :=
  match St_Fallback state with
  | None => mret (false, stepModel)
  | Some fb =>
      if String.eqb (Sa_Stage start) StageAutonomous
      then fail_with (RunFallbackUnrehearsed (MF_Failure fb))
      else if negb (D_Fallback deps) then fail_with RunNoFallbackPlanner
      else mret (true, "")
  end.

Definition plan (state : State) (start : Start) : turn Proposal :=
  steps ← ask RunLedger (LRead (Sa_RunID start) FirstSeq);
  transcript ← ask RunPort (OnTranscript steps);
  let '(model, effort) := SpendAt start (St_Called state) in
  '(fallback, model) ← plannerFor state start model;
  let at_ := StepAt start (St_Called state) in
  let offered := Pack_Tools (envelopeForState start state) in
  unavailable ← unavailableTools offered;
  r ← call (OnPlan fallback
        (MkPlanInput state transcript (Sa_Budget start) (Sa_Ceiling start) model effort
           (remaining_budget (Sa_Budget start) (State_Committed state)) offered unavailable
           (MemoryLearningPolicy_Normalize (Sa_MemoryLearning start))
           (StepNameAt start (St_Called state)) (stopsWhenAt start at_)));
  match r with
  | Ok p => mret (p <| P_Unavailable := unavailable |>)
  | Err (PlanFailed f) => fail_with (RunPlan (PlanFailed f))
  | Err (PlanSpent e) =>
      fail_with (RunPlan (PlanSpent (MkSpentPlanError (Sp_Cost e) (Sp_Prompt e) (Sp_Price e)
        (Sp_Provider e) (Sp_Model e) (Sp_ServedModel e) (Sp_Failure e) unavailable)))
  end.

(** *** The first lookup (memory_lookup.go) *)

Definition initialMemoryFindLimit : Z := 10.

Definition shouldRunInitialMemoryLookup (state : State) (start : Start) : bool :=
  MemoryLearningPolicy_Enabled (Sa_MemoryLearning start) && negb (St_Planned state) &&
  negb (existsb (String.eqb ToolMemoryFind) (St_Called state)) &&
  Pack_Allows (envelopeForState start state) ToolMemoryFind.

Definition memory_args (search : string) : string := print_json (obj [
  fld "search" c_string search; fld "limit" c_int initialMemoryFindLimit]).

(** The terms of the first input of the conversation, if it has one. *)
Definition initialMemorySearch (start : Start) : turn string :=
  steps ← ask RunLedger (LRead (Sa_RunID start) FirstSeq);
  turns ← ask RunPort (OnTranscript steps);
  match List.find (fun t => Z.eqb (Tn_Kind t) TurnInput) turns with
  | Some t => call (OnInitialSearch (Tn_Text t))
  | None => mret ""
  end.

(** The status of the lookup's own call when it was made. *)
Definition initialMemoryLookup (state : State) (start : Start) : turn (option Status) :=
  if negb (shouldRunInitialMemoryLookup state start) then mret None
  else
    search ← initialMemorySearch start;
    if String.eqb search "" then mret None
    else
      let p := zeroProposal <| P_Tool := ToolMemoryFind |> <| P_Args := memory_args search |> in
      effect ← call (OnEffect (P_Tool p));
      let idemKey := idempotencyKey (Sa_RunID start) (P_Tool p) (P_Args p) in
      semantic ← semantic_dedupe start p;
      let decision := Runner_decide state start p effect idemKey
                        (AlreadyExecuted state idemKey || Sd_already semantic) in
      if negb (Verdict_Executable (D_Verdict decision)) ||
         Z.eqb (D_Verdict decision) VerdictRequireApproval
      then mret None
      else
        st ← afterExecutableGate state start p effect idemKey semantic decision;
        mret (Some st).

(** *** One turn (runner.go) *)

Definition planned_step (state : State) (start : Start) (cost : Cost)
    (provider model served : string) (price : ModelPriceUse) (prompt : PromptInputBreakdown)
    (unavailable : list ToolID) : StepLiteral :=
  MkStepLiteral StepPlanned
    (print_json (e_PlannedPayload
       (MkPlannedPayload (StepNameAt start (St_Called state)) "" provider model served ""
          (pricePayload price) (promptInputPayload prompt) unavailable (closedTools start state))))
    (Labels_Clone (St_Labels state)) cost "" "".

Definition RunFinishedByFinishTool : string := "finish_tool".

Definition finish (state : State) (start : Start) (p : Proposal) : turn Status :=
  let finishSeq := add64 (St_Seq state) 1 in
  ref ← storeOutcome (Sa_RunID start) finishSeq (P_Outcome p);
  headlineRef ← storeOutcome (Sa_RunID start) finishSeq (P_Headline p);
  artifacts ← storeArtifacts start state finishSeq (P_Artifacts p);
  state ← Runner_append state start
            (MkStepLiteral StepRunFinished
               (marshal c_RunFinishedPayload
                  (MkRunFinishedPayload "" ref (digest (P_Outcome p)) artifacts
                     RunFinishedByFinishTool (P_StoppedBy p) headlineRef
                     (headlineDigest (P_Headline p)) (eventsWithheld start state)))
               (Labels_Clone (St_Labels state)) zeroCost "" "");
  mret (status state).

(** The failure of a plan, its spend recorded first. *)
Definition plan_failed (state : State) (start : Start) (err : RunError) : turn Status :=
  match err with
  | RunPlan (PlanSpent e) =>
      _ ← when (D_Metrics deps) (call (OnMetric "planning"));
      _ ← appendPlanned state start
            (planned_step state start (Sp_Cost e) (Sp_Provider e) (Sp_Model e) (Sp_ServedModel e)
               (Sp_Price e) (Sp_Prompt e) (Sp_Unavailable e));
      fail_with err
  | _ => fail_with err
  end.

Definition plan_and_act (state : State) (start : Start) : turn Status :=
  r ← attempt (plan state start);
  match r with
  | Err err => plan_failed state start err
  | Ok p =>
      _ ← when (D_Metrics deps) (call (OnMetric "planning"));
      state ← appendPlanned state start
                (planned_step state start (P_Cost p) (P_Provider p) (P_Model p) (P_ServedModel p)
                   (P_Price p) (P_Prompt p) (P_Unavailable p));
      if P_Done p then finish state start p
      else if String.eqb (P_Tool p) "" then park state start "no_finish_action"
      else act state start (canonicalLink p)
  end.

Definition Advance (start : Start) : turn Status :=
  state ← load start;
  if State_Terminal state || Z.eqb (St_Phase state) PhaseAwaitingApproval then mret (status state)
  else if Z.eqb (St_Phase state) PhaseAwaitingTool then recoverOrphanedCall state start
  else match St_Approved state with
  | Some approved => actApproved state start approved
  | None =>
      match stalledInvestigation state with
      | Some summary => parkInvestigation state start summary
      | None =>
          looked ← initialMemoryLookup state start;
          match looked with
          | Some st => mret st
          | None => plan_and_act state start
          end
      end
  end.

End Runner.
