(* ===== verification/Drive.v ===== *)
(** * Reasoning about turns

    A program over the ports ([Ports.prog]) run by whoever answers its calls
    leaves a trace: each call with its answer, the newest first. [obeys] is a
    weakest precondition over such programs: a discipline every call must
    satisfy given the trace so far, and a postcondition on the trace and the
    value at the end. [held] and [pending] read off a trace what a turn knows:
    the steps its state is folded from, and the call it recorded and has not
    made. The second half runs such programs against the modelled ledger. *)

From Stdlib Require Import ZArith Lia Ascii String.
From stdpp Require Import base list strings gmap.
From S2P Require Import Prelude GoStrings Json Domain Policy Sha256 Dedupe Step Payload Encode WorkItem State StateFacts Ledger LedgerSafety Gate Ports Envelope Runner.

Local Open Scope string_scope.

(** ** Traces *)

Record event := Ev { ev_type : Type; ev_op : port ev_type; ev_answer : ev_type }.
Arguments Ev {ev_type} ev_op ev_answer.

(** [p] makes the calls of [more] and goes on as [p']. *)
Inductive unfolds {A} : prog A -> list event -> prog A -> list event -> Prop :=
| unfolds_here p tr : unfolds p tr p tr
| unfolds_call {R} (op : port R) (r : R) k tr p' tr' :
    unfolds (k r) (Ev op r :: tr) p' tr' -> unfolds (Do op k) tr p' tr'.

(** The step an append answered with. *)
Definition sealed_by {R} (op : port R) : R -> option Step :=
  match op in port R return R -> option Step with
  | LAppend _ | LAppendIfHead _ _ | LAppendIfLeaseAndHead _ _ _ =>
      fun r => match r with Ok sealed => Some sealed | Err _ => None end
  | _ => fun _ => None
  end.

Definition drafted {R} (op : port R) : option Step :=
  match op with
  | LAppend s | LAppendIfHead _ s | LAppendIfLeaseAndHead _ _ s => Some s
  | _ => None
  end.

(** The history a read answered with; a run nobody recorded has none. *)
Definition read_by {R} (op : port R) : R -> option (list Step) :=
  match op in port R return R -> option (list Step) with
  | LRead _ _ => fun r => match r with
                          | Ok steps => Some steps
                          | Err ErrNotFound => Some []
                          | Err _ => None
                          end
  | _ => fun _ => None
  end.

Definition invoked_by {R} (op : port R) : option Call :=
  match op with OnInvoke c => Some c | _ => None end.

(** The steps the turn's state is folded from: the history it first read, and
    every step it has sealed on top that folds. *)
Fixpoint held (tr : list event) : option (list Step) :=
  match tr with
  | [] => None
  | Ev op r :: tr =>
      match sealed_by op r with
      | Some sealed =>
          l ← held tr;
          if is_ok (Fold (l ++ [sealed])%list) then Some (l ++ [sealed])%list else None
      | None => match held tr with Some l => Some l | None => read_by op r end
      end
  end.

(** The key a recorded call, or a recorded undo, goes out under. *)
Definition called_key (kind : StepKind) (key : string) : option string :=
  if (String.eqb kind StepToolCalled || String.eqb kind StepCompensationStarted) &&
     negb (String.eqb key "") then Some key else None.

(** The key of the last call recorded, until the call leaves. *)
Fixpoint pending (tr : list event) : option string :=
  match tr with
  | [] => None
  | Ev op r :: tr =>
      match sealed_by op r, invoked_by op with
      | Some sealed, _ => called_key (S_Kind sealed) (S_IdemKey sealed)
      | None, Some _ => None
      | None, None => pending tr
      end
  end.

(** Every history read and every step sealed. *)
Definition reads_in (tr : list event) : list (list Step) :=
  omap (fun e => read_by (ev_op e) (ev_answer e)) tr.
Definition sealed_in (tr : list event) : list Step :=
  omap (fun e => sealed_by (ev_op e) (ev_answer e)) tr.

(** ** Disciplines *)

(** What the ledger port promises of an append's answer (ports.go): the draft,
    sealed after some predecessor. *)
Definition honest {R} (op : port R) (r : R) : Prop :=
  forall s sealed, drafted op = Some s -> sealed_by op r = Some sealed ->
    exists prev, NewStep prev s = Ok sealed.

Lemma unfolds_inv {A R} (op : port R) k (p' : prog A) tr tr' :
  unfolds (Do op k) tr p' tr' ->
  (p' = Do op k /\ tr' = tr) \/ exists r, unfolds (k r) (Ev op r :: tr) p' tr'.
Proof.
  intros H. exact
    match H in unfolds p t p' t' return
      match p with
      | Ret _ => True
      | Do op k => (p' = Do op k /\ t' = t) \/ exists r, unfolds (k r) (Ev op r :: t) p' t'
      end with
    | unfolds_here p t => match p with Ret _ => I | Do _ _ => or_introl (conj eq_refl eq_refl) end
    | unfolds_call op r k t p' t' Hu => or_intror (ex_intro _ r Hu)
    end.
Qed.

Lemma unfolds_ret {A} (a : A) p' tr tr' : unfolds (Ret a) tr p' tr' -> p' = Ret a /\ tr' = tr.
Proof.
  intros H. exact
    match H in unfolds p t p' t' return match p with Ret a => p' = Ret a /\ t' = t | Do _ _ => True end with
    | unfolds_here p t => match p with Ret _ => conj eq_refl eq_refl | Do _ _ => I end
    | unfolds_call _ _ _ _ _ _ _ => I
    end.
Qed.

(** The answer a read got. *)
Definition read_answer (e : event) : option (result LedgerError (list Step)) :=
  match ev_op e in port R return R -> option (result LedgerError (list Step)) with
  | LRead _ _ => Some
  | _ => fun _ => None
  end (ev_answer e).

Lemma unfolds_app {A} (p p' : prog A) tr tr' :
  unfolds p tr p' tr' -> exists new, tr' = (new ++ tr)%list.
Proof.
  induction 1 as [p tr|R op r k tr p' tr' _ (new & ->)]; [by exists []|].
  exists (new ++ [Ev op r])%list. by rewrite <- app_assoc.
Qed.

Lemma unfolds_honest {A R} (op : port R) r (p p' : prog A) tr tr' :
  unfolds p (Ev op r :: tr) p' tr' -> Forall (fun e => honest (ev_op e) (ev_answer e)) tr' ->
  honest op r.
Proof.
  intros (new & ->)%unfolds_app Hh. by apply List.Forall_elt in Hh.
Qed.

Section Obeys.
Context (rule : list event -> forall R, port R -> Prop).

Fixpoint obeys {A} (p : prog A) (tr : list event) (post : list event -> A -> Prop) : Prop :=
  match p with
  | Ret a => post tr a
  | Do op k => rule tr _ op /\ forall r, honest op r -> obeys (k r) (Ev op r :: tr) post
  end.

Lemma obeys_mono {A} (p : prog A) tr (post post' : list event -> A -> Prop) :
  obeys p tr post -> (forall tr' a, post tr' a -> post' tr' a) -> obeys p tr post'.
Proof.
  revert tr. induction p as [a|R op k IH]; intros tr; cbn; [auto|].
  intros [Hr Hk] Hpost. split; [done|]. intros r Hh. by apply (IH r _ (Hk r Hh)).
Qed.

Lemma obeys_prog_bind {A B} (p : prog A) (f : A -> prog B) tr post :
  obeys p tr (fun tr' a => obeys (f a) tr' post) -> obeys (prog_bind p f) tr post.
Proof.
  revert tr. induction p as [a|R op k IH]; intros tr; cbn; [done|].
  intros [Hr Hk]. split; [done|]. intros r Hh. by apply IH, Hk.
Qed.

(** The turn monad: on success go on, on failure stop. *)
Lemma obeys_bind {A B} (m : turn A) (f : A -> turn B) tr post :
  obeys m tr (fun tr' r => match r with Ok a => obeys (f a) tr' post | Err e => post tr' (Err e) end) ->
  obeys (m ≫= f) tr post.
Proof.
  intros H. apply obeys_prog_bind. eapply obeys_mono; [exact H|]. by intros tr' [a|e].
Qed.

Lemma obeys_attempt {A} (m : turn A) tr post :
  obeys m tr (fun tr' r => post tr' (Ok r)) -> obeys (attempt m) tr post.
Proof. intros H. by apply obeys_prog_bind. Qed.

(** Every call a program makes, in any run of it whose answers are honest,
    satisfies the rule. *)
Lemma obeys_unfolds {A} (p p' : prog A) tr tr' post :
  obeys p tr post -> unfolds p tr p' tr' ->
  Forall (fun e => honest (ev_op e) (ev_answer e)) tr' -> obeys p' tr' post.
Proof.
  intros H Hu. induction Hu as [|R op r k tr p' tr' Hu IH]; intros Hh; [done|].
  destruct H as [_ Hk]. apply IH; [|done]. apply Hk. by eapply unfolds_honest.
Qed.

(** A rule that does not look back holds of every call of the trace. *)
Lemma obeys_every {A} (p p' : prog A) tr tr' post (forbids : forall R, port R -> Prop) :
  (forall past R (op : port R), rule past R op -> forbids R op) ->
  obeys p tr post -> unfolds p tr p' tr' ->
  Forall (fun e => honest (ev_op e) (ev_answer e)) tr' ->
  Forall (fun e => forbids _ (ev_op e)) tr -> Forall (fun e => forbids _ (ev_op e)) tr'.
Proof.
  intros Hrule H Hu. induction Hu as [|R op r k tr p' tr' Hu IH]; intros Hh Htr; [done|].
  destruct H as [Hop Hk]. apply IH; [|done|].
  - apply Hk. by eapply unfolds_honest.
  - constructor; [|done]. by eapply Hrule.
Qed.

End Obeys.
Arguments obeys rule {A} p tr post.

(** What only grows with the trace carries one rule over to another. *)
Lemma obeys_weaken {A} (rule rule' : list event -> forall R, port R -> Prop)
    (inv : list event -> Prop) (p : prog A) tr post :
  (forall past R (op : port R) r, inv past -> inv (Ev op r :: past)) ->
  (forall past R (op : port R), inv past -> rule past R op -> rule' past R op) ->
  inv tr -> obeys rule p tr post -> obeys rule' p tr (fun tr' a => inv tr' /\ post tr' a).
Proof.
  intros Hgrow Hrule. revert tr. induction p as [a|R op k IH]; intros tr Hi; cbn; [done|].
  intros [Hop Hk]. split; [by apply Hrule|]. intros r Hh. apply IH; [by apply Hgrow|by apply Hk].
Qed.

(** Two facts of one program. *)
Lemma obeys_and {A} (rule rule' : list event -> forall R, port R -> Prop) (p : prog A) tr post post' :
  obeys rule p tr post -> obeys rule' p tr post' -> obeys rule p tr (fun tr' a => post tr' a /\ post' tr' a).
Proof.
  revert tr. induction p as [a|R op k IH]; intros tr; cbn; [done|].
  intros [Hop Hk] [_ Hk']. split; [done|]. intros r Hh. by apply IH; [apply Hk|apply Hk'].
Qed.

(** ** Programs that make only some calls *)

Section Only.
Context (allowed : forall R, port R -> Prop).

Fixpoint only {A} (p : prog A) : Prop :=
  match p with
  | Ret _ => True
  | Do op k => allowed _ op /\ forall r, only (k r)
  end.

Lemma only_bind {A B} (m : turn A) (f : A -> turn B) :
  only m -> (forall a, only (f a)) -> only (m ≫= f).
Proof.
  intros Hm Hf. change (only (prog_bind m (fun r => match r with Ok a => f a | Err e => Ret (Err e) end))).
  induction m as [[a|e]|R op k IH]; cbn in *; [apply Hf|done|]. destruct Hm. auto.
Qed.

Lemma only_attempt {A} (m : turn A) : only m -> only (attempt m).
Proof. unfold attempt. induction m as [a|R op k IH]; cbn; [done|]. intros []. auto. Qed.

Lemma only_call {R} (op : port R) : allowed _ op -> only (call op).
Proof. done. Qed.

Lemma only_ask {E A} (wrap : E -> RunError) (op : port (result E A)) :
  allowed _ op -> only (ask wrap op).
Proof. intros H. split; [done|]. by intros [a|e]. Qed.

Lemma only_obeys {A} (rule : list event -> forall R, port R -> Prop) (inv : list event -> Prop)
    (p : prog A) tr :
  (forall past R (op : port R) r, inv past -> allowed R op -> inv (Ev op r :: past)) ->
  (forall past R (op : port R), inv past -> allowed R op -> rule past R op) ->
  inv tr -> only p -> obeys rule p tr (fun tr' _ => inv tr').
Proof.
  intros Hgrow Hrule. revert tr. induction p as [a|R op k IH]; intros tr Hi; cbn; [done|].
  intros [Hop Hk]. split; [by apply Hrule|]. intros r _. apply IH; [by apply Hgrow|done].
Qed.
End Only.

Ltac only_tac :=
  repeat first
    [ exact I | done
    | progress cbn [mret turn_ret fail_with]
    | match goal with
      | |- only _ (_ ≫= _) => apply only_bind; [|intros ?]
      | |- only _ (call _) => apply only_call
      | |- only _ (ask _ _) => apply only_ask
      | |- only _ (attempt _) => apply only_attempt
      | |- only _ (match ?x with _ => _ end) => destruct x
      end ].

(** ** Quiet programs

    A quiet call neither reads nor writes the ledger nor invokes a tool nor
    consults the model. *)

Definition quiet_op {R} (op : port R) : bool :=
  match op with
  | LRead _ _ | LAppend _ | LAppendIfHead _ _ | LAppendIfLeaseAndHead _ _ _ | LFence _ _ _
  | OnPlan _ _ | OnInvoke _ | LHead _ | QueueClaim _ _ | QueueRelease _ _ => false
  | _ => true
  end.

Fixpoint quiet {A} (p : prog A) : Prop :=
  match p with
  | Ret _ => True
  | Do op k => quiet_op op = true /\ forall r, quiet (k r)
  end.

Lemma quiet_bind {A B} (m : turn A) (f : A -> turn B) :
  quiet m -> (forall a, quiet (f a)) -> quiet (m ≫= f).
Proof.
  intros Hm Hf. change (quiet (prog_bind m (fun r => match r with Ok a => f a | Err e => Ret (Err e) end))).
  induction m as [[a|e]|R op k IH]; cbn in *; [apply Hf|done|]. destruct Hm. auto.
Qed.

Lemma quiet_attempt {A} (m : turn A) : quiet m -> quiet (attempt m).
Proof. unfold attempt. induction m as [a|R op k IH]; cbn; [done|]. intros []. auto. Qed.

Lemma quiet_call {R} (op : port R) : quiet_op op = true -> quiet (call op).
Proof. done. Qed.

Lemma quiet_ask {E A} (wrap : E -> RunError) (op : port (result E A)) :
  quiet_op op = true -> quiet (ask wrap op).
Proof. intros H. split; [done|]. by intros [a|e]. Qed.

Ltac quiet_tac :=
  repeat first
    [ exact I | done
    | progress cbn [mret turn_ret fail_with]
    | match goal with
      | |- quiet (_ ≫= _) => apply quiet_bind; [|intros ?]
      | |- quiet (call _) => apply quiet_call
      | |- quiet (ask _ _) => apply quiet_ask
      | |- quiet (attempt _) => apply quiet_attempt
      | |- quiet (match ?x with _ => _ end) => destruct x
      end ].

(** Two traces a turn cannot tell apart: the same history held and the same
    call pending. *)
Definition same (tr tr' : list event) : Prop := held tr' = held tr /\ pending tr' = pending tr.

Lemma same_refl tr : same tr tr.
Proof. done. Qed.

Lemma same_trans tr1 tr2 tr3 : same tr1 tr2 -> same tr2 tr3 -> same tr1 tr3.
Proof. unfold same. intuition congruence. Qed.

Lemma quiet_event {R} (op : port R) r tr : quiet_op op = true -> same tr (Ev op r :: tr).
Proof. destruct op; try done; cbn; split; cbn; try done; by destruct (held tr). Qed.

Section Quiet.
Context (rule : list event -> forall R, port R -> Prop).
Context (quiet_allowed : forall tr R (op : port R), quiet_op op = true -> rule tr R op).

Lemma obeys_quiet {A} (p : prog A) tr post :
  quiet p -> (forall tr' a, same tr tr' -> post tr' a) -> obeys rule p tr post.
Proof.
  revert tr. induction p as [a|R op k IH]; intros tr; cbn; [auto using same_refl|].
  intros [Hq Hk] Hpost. split; [auto|]. intros r _. apply IH; [done|]. intros tr' a Hs.
  apply Hpost. eapply same_trans; [by apply (quiet_event op r)|done].
Qed.
End Quiet.

(** * Running programs

    How the in-memory ledger (src/internal/ledger) answers the calls a turn
    makes on it, and one worker driven against it, the other collaborators
    played by a function. *)

(** ** The ledger's answers *)

(** An append's new store, or the old one when it failed. *)
Definition served {A} (m : Memory) (r : result LedgerError (Memory * A))
    : Memory * result LedgerError A :=
  match r with Ok (m', a) => (m', Ok a) | Err e => (m, Err e) end.

(** How the in-memory ledger answers; [None] is another collaborator's call. *)
Definition serve {R} (m : Memory) (cancelled : bool) (now : Time) (op : port R)
    : option (Memory * R) :=
  match op in port R return option (Memory * R) with
  | LRead run fromSeq => Some (m, Read m cancelled run fromSeq)
  | LAppend s => Some (served m (Append m cancelled now s))
  | LAppendIfHead head s => Some (served m (AppendIfHead m cancelled now head s))
  | LAppendIfLeaseAndHead epoch head s =>
      Some (served m (AppendIfLeaseAndHead m cancelled now epoch head s))
  | LFence run epoch head => Some (m, Fence m cancelled now run epoch head)
  | LHead run => Some (m, Head m cancelled run)
  | QueueClaim owner lease => Some (served m (Claim_ m cancelled now owner lease))
  | QueueRelease run o => Some (served m (m' ← Release m cancelled now run o; mret (m', tt)))
  | _ => None
  end.

Lemma serve_spec {R} m cancelled now (op : port R) m' r :
  serve m cancelled now op = Some (m', r) ->
  invoked_by op = None /\
  ((sealed_by op r = None /\ (m' = m \/ exists o, mem_step m now o m')) \/
   exists epoch expect s sealed,
     drafted op = Some s /\ sealed_by op r = Some sealed /\
     append m false now epoch expect s = Ok (m', sealed)).
Proof.
  intros H.
  assert (forall epoch expect s (x : result LedgerError Step),
    served m (append m cancelled now epoch expect s) = (m', x) ->
    (match x with Ok y => Some y | Err _ => None end = None /\ (m' = m \/ exists o, mem_step m now o m')) \/
    exists epoch expect s' sealed, Some s = Some s' /\
      match x with Ok y => Some y | Err _ => None end = Some sealed /\
      append m false now epoch expect s' = Ok (m', sealed)) as Happ.
  { intros epoch expect s x Hx. unfold served in Hx.
    destruct (append m cancelled now epoch expect s) as [[m1 sealed]|e] eqn:E;
      injection Hx as <- <-; [|left; by auto]. right.
    assert (cancelled = false) as -> by (by apply append_Ok in E as (-> & _)).
    by exists epoch, expect, s, sealed. }
  destruct op as [| | | | | | | | | | | | | | | | | | | | | | | | | | | | | |owner lease|run o| | | | |];
    try discriminate H; (split; [done|]);
    first [left; split; [done|left]; by injection H as <- <- | injection H as H; by eapply Happ | left].
  - injection H as H. unfold served, Claim_ in H. split; [done|].
    destruct (claim m cancelled now owner lease false) as [[m1 c]|] eqn:E; injection H as <- <-;
      [right|by left].
    assert (cancelled = false) as -> by (by destruct cancelled). eexists. by econstructor.
  - injection H as H. unfold served in H. split; [done|].
    destruct (Release m cancelled now run o) as [m1|] eqn:E; injection H as <- <-; [right|by left].
    assert (cancelled = false) as -> by (by destruct cancelled). eexists. by econstructor.
Qed.

Lemma serve_honest {R} m cancelled now (op : port R) m' r :
  serve m cancelled now op = Some (m', r) -> honest op r.
Proof.
  intros H s sealed Hd Hs.
  apply serve_spec in H as [_ [[E _]|(epoch & expect & s' & x & Hd' & Hs' & Ha)]]; [congruence|].
  simplify_eq. apply append_Ok in Ha as (_ & _ & _ & _ & _ & Hn & _). eauto.
Qed.

Lemma other_honest {R} m (op : port R) r : serve m false 0 op = None -> honest op r.
Proof. intros H s sealed Hd. by destruct op. Qed.

(** ** One worker

    [stop] says before which call to halt. *)

Fixpoint drive {A} (answers : forall R, port R -> R) (stop : forall R, port R -> bool) (now : Time)
    (m : Memory) (p : prog A) (tr : list event) (calls : list Call)
    : Memory * prog A * list event * list Call :=
  match p with
  | Ret a => (m, Ret a, tr, calls)
  | @Do _ R op k =>
      if stop R op then (m, Do op k, tr, calls)
      else match serve m false now op with
           | Some (m', r) => drive answers stop now m' (k r) (Ev op r :: tr) calls
           | None => let r := answers R op in
                     drive answers stop now m (k r) (Ev op r :: tr)
                       (option_list (invoked_by op) ++ calls)
           end
  end.

Lemma serve_none {R} m cancelled now (op : port R) :
  serve m cancelled now op = None -> serve m false 0 op = None.
Proof. by destruct op. Qed.

Lemma drive_unfolds {A} answers stop now (p : prog A) : forall m tr calls m' p' tr' calls',
  drive answers stop now m p tr calls = (m', p', tr', calls') -> unfolds p tr p' tr'.
Proof.
  induction p as [a|R op k IH]; intros m tr calls m' p' tr' calls'; cbn.
  { intros [= <- <- <- <-]. constructor. }
  destruct (stop R op); [intros [= <- <- <- <-]; constructor|].
  destruct (serve m false now op) as [[m1 r]|]; intros Hd; econstructor; by eapply IH.
Qed.

Lemma drive_honest {A} answers stop now (p : prog A) : forall m tr calls m' p' tr' calls',
  drive answers stop now m p tr calls = (m', p', tr', calls') ->
  Forall (fun e => honest (ev_op e) (ev_answer e)) tr ->
  Forall (fun e => honest (ev_op e) (ev_answer e)) tr'.
Proof.
  induction p as [a|R op k IH]; intros m tr calls m' p' tr' calls'; cbn.
  { by intros [= <- <- <- <-]. }
  destruct (stop R op); [by intros [= <- <- <- <-]|].
  destruct (serve m false now op) as [[m1 r]|] eqn:Es; intros Hd Hh; eapply IH; try exact Hd;
    (constructor; [|done]).
  - by eapply serve_honest.
  - eapply other_honest, serve_none, Es.
Qed.

(** The call a program is about to make. *)
Definition about_to {A B} (f : forall R, port R -> option B) (p : prog A) : option B :=
  match p with Ret _ => None | @Do _ R op _ => f R op end.

(** ** A run to look at *)

Definition lookup_proposal : Proposal :=
  zeroProposal <| P_Tool := "crm.find" |> <| P_Args := "{}" |>.

(** Collaborators that agree to everything and plan one lookup. *)
Definition agreeable (R : Type) (op : port R) : R :=
  match op in port R return R with
  | LRead _ _ => Err ErrContext
  | LAppend _ | LAppendIfHead _ _ | LAppendIfLeaseAndHead _ _ _ => Err ErrContext
  | LFence _ _ _ => Err ErrContext
  | OnTranscript _ => Ok []
  | OnInitialSearch _ => ""
  | OnPlan _ _ => Ok lookup_proposal
  | OnReserve _ => Ok tt
  | OnInvoke _ => (zeroResult, true)
  | OnBinding _ => ""
  | OnEvidence _ => Ok zeroApprovalEvidence
  | OnEffect _ => EffectRead
  | OnDedupeDecl _ => None
  | OnNow => (unix_epoch + 1700000000000000000)%Z
  | OnCtxErr => false
  | OnLookup _ _ => Ok None
  | OnDedupeReserve _ _ _ _ => Err (PortFailed None)
  | OnConfirm _ _ _ _ _ => Ok tt
  | OnRelease _ _ => Ok tt
  | OnWait => WakeDeadline
  | OnPut _ _ _ => Ok "ref"
  | OnGet _ => Err (PortFailed None)
  | OnStanding _ _ _ _ _ => Ok None
  | OnSchema _ => true
  | OnSession _ => ("", true, true)
  | OnConnected _ => true
  | OnExpected _ => Ok false
  | OnMetric _ => tt
  | LHead _ => Err ErrContext
  | QueueClaim _ _ => Err ErrContext
  | QueueRelease _ _ => Err ErrContext
  | OnResolve _ _ => Err (PortFailed None)
  | OnCeiling _ => Err (PortFailed None)
  | OnSpentSince _ _ => Err (PortFailed None)
  | OnStageOf _ => Ok StageAutonomous
  | OnLeaseCause => false
  end.

Definition plain_deps : Deps :=
  MkDeps New false false 0 0 true false false false false false false false.

Definition one_step : Start :=
  MkStart "run-1" (MkScope "acme" "cx") "triage" "v1" "ana" ["crm.find"]
    [MkEnvelope "look" ["crm.find"] "" "" ""]
    (MkBudget 1000000 1000000 100 100 1000000) (MkBudget 0 0 0 0 0) StageAutonomous "manual" 0
    (MkMemoryLearningPolicy "off" 0 0) "" false.

(** The run driven from nothing to the call [stop] names. *)
Definition driven_to (stop : forall R, port R -> bool)
    : Memory * prog (result RunError Status) * list event * list Call :=
  drive agreeable stop 0 NewMemory (Advance plain_deps one_step) [] [].

Definition never (R : Type) (op : port R) : bool := false.
Definition at_invoke (R : Type) (op : port R) : bool := bool_decide (is_Some (invoked_by op)).
Definition at_plan (R : Type) (op : port R) : bool :=
  match op with OnPlan _ _ => true | _ => false end.
Definition at_call_record (R : Type) (op : port R) : bool :=
  match drafted op with Some s => String.eqb (S_Kind s) StepToolCalled | None => false end.

(** A turn that opens a run and makes one lookup writes seven steps. *)
Example one_lookup :
  let '(m, p, _, calls) := driven_to never in
  p = Ret (Ok (MkStatus PhaseRunning 7 false)) /\
  List.map S_Kind (steps_of m "run-1") =
    [StepRunStarted; StepPlanned; StepGateDecided; StepBudgetReserved; StepToolCalled;
     StepToolReturned; StepBudgetReconciled] /\
  List.map Ca_Tool calls = ["crm.find"].
Proof. vm_compute. done. Qed.
