(* ===== verification/Turn.v ===== *)
(** * What one turn may do

    Theorems about src/internal/engine: the discipline every turn of the run
    loop keeps towards its collaborators, whatever they answer. A turn writes
    only to its own run and only on top of the history it holds; it consults
    the model only when the run may move; and it lets an effect out only after
    the gate let the very request through on the recorded state, and the
    ruling, the reservation and the call were recorded on top of it. Last, what
    a turn does about a call whose answer was lost. *)

From Stdlib Require Import ZArith Lia Ascii String.
From stdpp Require Import base list strings gmap.
From S2P Require Import Prelude GoStrings Json Domain Policy Sha256 Dedupe Step Payload Encode WorkItem State StateFacts Ledger LedgerSafety Gate Ports Envelope Runner Drive.

Local Open Scope string_scope.

(** ** The discipline *)

(** The turn's state is the fold of the history [l] it holds. *)
Definition holds (tr : list event) (l : list Step) (state : State) : Prop :=
  held tr = Some l /\ Fold l = Ok state.

(** The head a conditional append names. *)
Definition head_of (state : State) : StepRef :=
  if (St_Seq state <? FirstSeq)%Z then MkStepRef 0 "" else St_Head state.

Section Discipline.
Context (deps : Deps) (start : Start).

(** A call the gate let through: [state] is what it judged. *)
Record let_through (state : State) (c : Call) (p : Proposal) (effect : Effect) (already : bool) : Prop := {
  through_proceeds : Proceeds (D_Gate deps) (gate_request state start p effect (Ca_IdemKey c) already);
  through_tool : P_Tool p = Ca_Tool c;
  through_args : P_Args p = Ca_Args c;
  through_contract : P_contractDigest p = Ca_ContractDigest c
}.

(** A call on record: the history the gate judged, its ruling, the reservation
    and the call, in this order and with nothing after them. *)
Record recorded (c : Call) (judged history : list Step) : Prop := {
  recorded_run : Ca_RunID c = Sa_RunID start;
  recorded_key : Ca_IdemKey c <> "";
  recorded_steps : exists ruling reservation call_,
    history = (judged ++ [ruling; reservation; call_])%list /\
    S_Kind ruling = StepGateDecided /\ S_Kind reservation = StepBudgetReserved /\
    S_Kind call_ = StepToolCalled /\ S_IdemKey call_ = Ca_IdemKey c /\ S_Seq call_ = Ca_Seq c
}.

Definition may_invoke (tr : list event) (c : Call) : Prop :=
  pending tr = Some (Ca_IdemKey c) /\
  (Sa_LeaseEpoch start <> 0%Z ->
     exists head tr', tr = Ev (LFence (Sa_RunID start) (Sa_LeaseEpoch start) head) (Ok tt) :: tr') /\
  exists judged history state p effect already,
    Fold judged = Ok state /\ let_through state c p effect already /\
    recorded c judged history /\ held tr = Some history.

(** A run whose next move is the model's. *)
Definition may_plan (tr : list event) (input : PlanInput) : Prop :=
  let state := Pi_State input in
  (exists l, holds tr l state) /\ State_Terminal state = false /\
  St_Phase state <> PhaseAwaitingApproval /\ St_Phase state <> PhaseAwaitingTool /\
  St_Approved state = None /\ stalledInvestigation state = None /\
  Pi_Tools input = Pack_Tools (envelopeForState start state).

(** An append nothing conditions: the opening of a run without a lease, or
    money already spent on planning. *)
Definition unconditional (tr : list event) (s : Step) : Prop :=
  (Sa_LeaseEpoch start = 0%Z /\ exists l state, holds tr l state /\ is_zero_ref (head_of state) = true) \/
  (S_Kind s = StepPlanned /\ S_Cost s <> zeroCost /\ S_IdemKey s <> "").

Definition on_top (tr : list event) (head : StepRef) : Prop :=
  exists l state, holds tr l state /\ head = head_of state.

Definition discipline (tr : list event) (R : Type) (op : port R) : Prop :=
  match op with
  | LRead run fromSeq => run = Sa_RunID start /\ fromSeq = FirstSeq
  | LAppend s => S_RunID s = Sa_RunID start /\ unconditional tr s
  | LAppendIfHead head s =>
      S_RunID s = Sa_RunID start /\ Sa_LeaseEpoch start = 0%Z /\ on_top tr head
  | LAppendIfLeaseAndHead epoch head s =>
      S_RunID s = Sa_RunID start /\ epoch = Sa_LeaseEpoch start /\ epoch <> 0%Z /\ on_top tr head
  | LFence run epoch head => run = Sa_RunID start /\ epoch = Sa_LeaseEpoch start
  | OnPlan _ input => may_plan tr input
  | OnInvoke c => may_invoke tr c
  | _ => True
  end.

Lemma quiet_disciplined tr R (op : port R) : quiet_op op = true -> discipline tr R op.
Proof. by destruct op. Qed.

Abbreviation obeying := (obeys discipline).

(** A program that keeps the discipline to its end. *)
Definition ends {A} (p : prog A) (tr : list event) : Prop := obeying p tr (fun _ _ => True).

Lemma ends_quiet {A} (p : prog A) tr : quiet p -> ends p tr.
Proof. intros H. by apply obeys_quiet; [apply quiet_disciplined| |]. Qed.

(** After a quiet turn the trace says the same. *)
Lemma quiet_then {A B} (m : turn A) (f : A -> turn B) tr post :
  quiet m -> (forall tr' a, same tr tr' -> obeying (f a) tr' post) ->
  (forall tr' e, same tr tr' -> post tr' (Err e)) ->
  obeying (m ≫= f) tr post.
Proof.
  intros Hq Hf He. apply obeys_bind. apply obeys_quiet; [apply quiet_disciplined|done|].
  intros tr' [a|e] Hs; auto.
Qed.

Lemma same_holds tr tr' l state : same tr tr' -> holds tr l state -> holds tr' l state.
Proof. intros [E _] [H1 H2]. split; congruence. Qed.

(** ** Appends *)

Lemma stamped_run s now :
  S_RunID (MkStep (Sa_RunID start) 0 (Lit_Kind s) (Sa_Scope start) (Sa_AgentID start)
    (Sa_VersionID start) (Sa_OnBehalfOf start) (Lit_Payload s) (Lit_Labels s) (Lit_Cost s)
    (Lit_IdemKey s) (Lit_PolicyHash s) now "" "") = Sa_RunID start.
Proof. done. Qed.

Lemma append_disciplined tr l state s :
  holds tr l state -> S_RunID s = Sa_RunID start -> discipline tr _ (append_op state start s).
Proof.
  intros Hh Hr. unfold append_op. fold (head_of state).
  destruct (Z.eqb_spec (Sa_LeaseEpoch start) 0) as [E|E]; cbn.
  - destruct (is_zero_ref (head_of state)) eqn:Ez; cbn; (split; [done|]).
    + left. eauto.
    + split; [done|]. by exists l, state.
  - repeat split; auto. by exists l, state.
Qed.

Lemma append_op_sealed state s r :
  sealed_by (append_op state start s) r = match r with Ok x => Some x | Err _ => None end /\
  drafted (append_op state start s) = Some s /\ read_by (append_op state start s) r = None /\
  invoked_by (append_op state start s) = None.
Proof. unfold append_op. by repeat case_match. Qed.

(** What the turn knows after a step landed. *)
Record landed (tr' : list event) (l : list Step) (s : StepLiteral) (sealed : Step) (state' : State)
    : Prop := {
  landed_holds : holds tr' (l ++ [sealed])%list state';
  landed_kind : S_Kind sealed = Lit_Kind s;
  landed_key : S_IdemKey sealed = Lit_IdemKey s;
  landed_payload : S_Payload sealed = CanonicalJSON (Lit_Payload s);
  landed_seq : St_Seq state' = S_Seq sealed;
  landed_pending : pending tr' = called_key (Lit_Kind s) (Lit_IdemKey s)
}.

Lemma append_obeys state s tr l post :
  holds tr l state ->
  (forall tr' sealed state', landed tr' l s sealed state' -> post tr' (Ok state')) ->
  (forall tr' e, match e with RunLedger _ => same tr tr' | _ => True end -> post tr' (Err e)) ->
  obeying (Runner_append state start s) tr post.
Proof.
  intros Hh Hok Herr. cbn. split; [done|]. intros now _.
  set (d := MkStep _ _ _ _ _ _ _ _ _ _ _ _ _ _ _).
  assert (same tr (Ev OnNow now :: tr)) as Hs by (by apply quiet_event).
  apply (same_holds _ _ _ _ Hs) in Hh.
  split; [by apply (append_disciplined _ l)|]. intros r Hhon.
  destruct (append_op_sealed state d r) as (Es & Ed & Er & Ei).
  destruct r as [sealed|e]; cbn.
  2: { apply Herr. eapply same_trans; [exact Hs|]. split; cbn -[append_op].
       - rewrite Es, Er. by destruct (held tr).
       - by rewrite Es, Ei. }
  destruct (Apply state sealed) as [state'|e] eqn:Ea; cbn; [|by apply Herr].
  destruct (Hhon d sealed Ed Es) as (prev & Hseal).
  destruct (sealed_keeps _ _ _ Hseal) as (_ & Hk & Hkind & _ & _ & Hpay).
  destruct Hh as [Hl Hf].
  assert (Fold (l ++ [sealed])%list = Ok state') as Hf' by (apply fold_snoc; eauto).
  apply (Hok _ sealed). split; [split; [|done]|done|done|done| |].
  - cbn -[append_op Fold] in Hl |- *. rewrite Es, Hl. cbn -[Fold]. by rewrite Hf'.
  - apply Apply_facts in Ea as [_ Hfacts]. by injection Hfacts.
  - cbn -[append_op]. by rewrite Es, Hkind, Hk.
Qed.

(** A step appended and the turn continued. *)
Lemma append_then {B} state s (f : State -> turn B) tr l post :
  holds tr l state ->
  (forall tr' sealed state', landed tr' l s sealed state' -> obeying (f state') tr' post) ->
  (forall tr' e, post tr' (Err e)) ->
  obeying (Runner_append state start s ≫= f) tr post.
Proof. intros Hh Hf He. apply obeys_bind. eapply append_obeys; eauto. Qed.

(** The state a turn goes on with is folded from what it holds. *)
Definition holding {A} (proj : A -> State) (tr : list event) (r : result RunError A) : Prop :=
  match r with Ok a => exists l, holds tr l (proj a) | Err _ => True end.

Lemma planned_key_nonempty state : planned_key state start <> "".
Proof. done. Qed.

Lemma appendPlanned_obeys state s tr l :
  holds tr l state -> Lit_Kind s = StepPlanned ->
  obeying (appendPlanned state start s) tr (holding id).
Proof.
  intros Hh Hk. unfold appendPlanned. cbv zeta.
  set (s' := if negb _ then _ else _).
  apply obeys_bind, obeys_attempt. eapply append_obeys; [exact Hh| |].
  - intros tr' sealed state' Hl. exists (l ++ [sealed])%list. apply Hl.
  - intros tr' e _.
    apply quiet_then; [by quiet_tac| |done]. intros tr1 fenced _. subst s'.
    destruct fenced; cbn; [|done]. case_bool_decide as Hc; cbn; [done|].
    split; [done|]. intros now _. split; [|by intros [sealed|[]] _].
    split; [done|]. right. cbn. by rewrite Hk.
Qed.

(** ** The call and what surrounds it *)

Lemma answer_obeys tr l state c ok reason body :
  holds tr l state -> obeying (answer_call deps c state ok reason body) tr (holding fst).
Proof.
  intros Hh. unfold answer_call. destruct (negb (D_Content deps)); cbn; [eauto|].
  split; [done|]. intros [ref|e] _; cbn; [|done]. exists l.
  eapply same_holds; [by apply quiet_event|done].
Qed.

(** An append whose refusal is an answer too. *)
Lemma coordinate_obeys {B} state s (f : result RunError State -> turn B) tr l post :
  holds tr l state ->
  (forall tr' sealed state', landed tr' l s sealed state' -> obeying (f (Ok state')) tr' post) ->
  (forall tr' e, match e with RunLedger _ => same tr tr' | _ => True end ->
     obeying (f (Err e)) tr' post) ->
  obeying (attempt (Runner_append state start s) ≫= f) tr post.
Proof. intros Hh Hok He. apply obeys_bind, obeys_attempt. eapply append_obeys; eauto. Qed.

Lemma claimWorkItem_obeys tr l state c :
  holds tr l state -> obeying (claimWorkItem deps state start c) tr (holding fst).
Proof.
  intros Hh. unfold claimWorkItem. case_match; [|by eapply answer_obeys].
  eapply coordinate_obeys; [exact Hh| |].
  - intros tr' sealed state' Hl. eapply answer_obeys, Hl.
  - intros tr' e He. destruct (claimRefusal e) eqn:E; [|done].
    eapply answer_obeys. destruct e; try done. by eapply same_holds.
Qed.

Lemma linkWorkItem_obeys tr l state c :
  holds tr l state -> obeying (linkWorkItem deps state start c) tr (holding fst).
Proof.
  intros Hh. unfold linkWorkItem. case_match; [by eapply answer_obeys|].
  case_match; [|by eapply answer_obeys]. eapply coordinate_obeys; [exact Hh| |].
  - intros tr' sealed state' Hl. eapply answer_obeys, Hl.
  - intros tr' e He. destruct (linkRefusal e) eqn:E; [|done].
    eapply answer_obeys. destruct e; try done. by eapply same_holds.
Qed.

(** Everything [may_invoke] asks but the fence. *)
Record cleared (tr : list event) (c : Call) : Prop := {
  cleared_pending : pending tr = Some (Ca_IdemKey c);
  cleared_record : exists judged history state p effect already,
    Fold judged = Ok state /\ let_through state c p effect already /\
    recorded c judged history /\ held tr = Some history
}.

Lemma cleared_same tr tr' c : same tr tr' -> cleared tr c -> cleared tr' c.
Proof. intros [Eh Ep] [H1 H2]. split; [congruence|]. by rewrite Eh. Qed.

Lemma invoke_op_obeys tr l state c :
  holds tr l state -> may_invoke tr c ->
  obeying (r ← call (OnInvoke c);
           let '(result, ok) := r in
           if ok : bool then mret (state, result)
           else mret (state, result <| Tr_Failed := true |>
                  <| Tr_ErrorCode := firstNonEmpty [Tr_ErrorCode result; "invoke_error"] |>))
    tr (holding fst).
Proof.
  intros [Hl Hf] Hm. cbn. split; [done|]. intros [result ok] _.
  destruct ok; cbn; exists l; (split; [|done]); cbn; by rewrite Hl.
Qed.

Lemma execute_obeys tr l state c :
  holds tr l state -> cleared tr c -> obeying (execute deps state start c) tr (holding fst).
Proof.
  intros Hh Hc. unfold execute. case_match; [by eapply claimWorkItem_obeys|].
  case_match; [by eapply linkWorkItem_obeys|]. case_match; [done|].
  destruct (Z.eqb_spec (Sa_LeaseEpoch start) 0) as [E|E].
  - apply invoke_op_obeys with l; [done|]. split; [apply Hc|]. split; [done|apply Hc].
  - cbn -[invoke]. split; [done|]. intros [[]|e] _; [|done].
    assert (same tr (Ev (LFence (Sa_RunID start) (Sa_LeaseEpoch start) (St_Head state)) (Ok tt) :: tr))
      as Hs by (split; cbn; [by destruct (held tr)|done]).
    apply invoke_op_obeys with l; [by eapply same_holds|].
    apply (cleared_same _ _ _ Hs) in Hc. split; [apply Hc|]. split; [eauto|apply Hc].
Qed.

Lemma append_ends {B} state s (f : State -> turn B) tr l :
  holds tr l state ->
  (forall tr' sealed state', landed tr' l s sealed state' -> ends (f state') tr') ->
  ends (Runner_append state start s ≫= f) tr.
Proof. intros Hh Hf. by eapply append_then. Qed.

Lemma quiet_ends {A B} (m : turn A) (f : A -> turn B) tr :
  quiet m -> (forall tr' a, same tr tr' -> ends (f a) tr') -> ends (m ≫= f) tr.
Proof. intros Hq Hf. by apply quiet_then. Qed.

Lemma then_ends {A B} (proj : A -> State) (m : turn A) (f : A -> turn B) tr :
  obeying m tr (holding proj) ->
  (forall tr' l a, holds tr' l (proj a) -> ends (f a) tr') -> ends (m ≫= f) tr.
Proof.
  intros Hm Hf. apply obeys_bind. eapply obeys_mono; [exact Hm|]. intros tr' [a|e]; cbn; [|done].
  intros [l Hl]. by eapply Hf.
Qed.

Lemma quiet_reserve c : quiet (reserve c).
Proof. unfold reserve. by quiet_tac. Qed.

Lemma quiet_store run seq args : quiet (store deps run seq args).
Proof. unfold store. by quiet_tac. Qed.

Lemma quiet_pullRequestOf tool result : quiet (pullRequestOf deps tool result).
Proof. unfold pullRequestOf. by quiet_tac. Qed.

Lemma invoke_ends tr judged ruling state0 state p effect key already semantic held_ :
  holds tr (judged ++ [ruling])%list state -> S_Kind ruling = StepGateDecided ->
  Fold judged = Ok state0 -> key <> "" ->
  Proceeds (D_Gate deps) (gate_request state0 start p effect key already) ->
  ends (invoke deps state start p effect key semantic held_) tr.
Proof.
  intros Hh Hg Hj Hk Hp. unfold invoke.
  apply (quiet_ends (call OnNow)); [done|]. intros tr1 now Hs1. cbv zeta.
  apply quiet_ends; [apply quiet_reserve|]. intros tr2 _ Hs2.
  eapply append_ends; [eapply same_holds; [exact Hs2|]; by eapply same_holds|].
  intros tr3 reservation state3 L3. apply quiet_ends; [apply quiet_store|]. intros tr4 argsRef Hs4.
  eapply append_ends; [by eapply same_holds, (landed_holds _ _ _ _ _ L3)|].
  intros tr5 called state5 L5. eapply then_ends.
  { eapply execute_obeys; [apply L5|]. split.
    { rewrite (landed_pending _ _ _ _ _ L5). apply String.eqb_neq in Hk. unfold called_key. cbn.
      by rewrite Hk. }
    eexists judged, _, state0, p, effect, already. split; [done|].
    split; [by split|]. split; [|apply L5]. split; [done|done|].
    exists ruling, reservation, called. rewrite <- !app_assoc. split; [done|]. split; [done|].
    split; [apply L3|]. split; [apply L5|]. split; [apply L5|]. cbn. symmetry. apply L5. }
  intros tr6 l6 [state6 result] H6.
  apply quiet_ends; [apply quiet_pullRequestOf|]. intros tr7 stamp Hs7.
  eapply append_ends; [by eapply same_holds|]. intros tr8 x8 state8 L8.
  eapply append_ends; [apply L8|]. intros tr9 x9 state9 L9. apply ends_quiet. by quiet_tac.
Qed.

(** ** From the proposal to the call *)

Lemma quiet_wait ticks d : quiet (waitForDedupeReservation deps ticks start d).
Proof.
  induction ticks as [|n IH]; cbn -[retryDedupeReservation]; [done|]. split; [done|].
  intros []; [done..|]. apply (quiet_bind (retryDedupeReservation deps start d));
    [unfold retryDedupeReservation, dedupe_reserve, of_result; by quiet_tac|].
  by intros [].
Qed.

Lemma quiet_reserveSemantic d : quiet (reserveSemanticDedupe deps start d).
Proof.
  unfold reserveSemanticDedupe, dedupe_reserve, of_result. quiet_tac. apply quiet_wait.
Qed.

Lemma quiet_semantic p : quiet (semantic_dedupe deps start p).
Proof. unfold semantic_dedupe. by quiet_tac. Qed.

Lemma gateDecision_ends {B} state p effect decision dup (f : State -> turn B) tr l :
  holds tr l state ->
  (forall tr' ruling state', holds tr' (l ++ [ruling])%list state' ->
     S_Kind ruling = StepGateDecided -> ends (f state') tr') ->
  ends (appendGateDecision state start p effect decision dup ≫= f) tr.
Proof.
  intros Hh Hf. unfold appendGateDecision. cbv zeta.
  destruct (budgetEvidence decision) as [[[? ?] ?] ?].
  eapply append_ends; [exact Hh|]. intros tr' sealed state' L. by eapply Hf; apply L.
Qed.

Lemma afterExecutableGate_ends tr l state p effect key already semantic :
  holds tr l state -> key <> "" ->
  Proceeds (D_Gate deps) (gate_request state start p effect key already) ->
  ends (afterExecutableGate deps state start p effect key semantic
          (Runner_decide deps state start p effect key already)) tr.
Proof.
  intros Hh Hk Hp. unfold afterExecutableGate.
  apply quiet_ends; [apply quiet_attempt, quiet_reserveSemantic|]. intros tr1 r Hs.
  apply (same_holds _ _ _ _ Hs) in Hh.
  assert (forall res, ends
    (state' ← appendGateDecision state start p effect
                (Runner_decide deps state start p effect key already) None;
     invoke deps state' start p effect key semantic res) tr1) as Hgo.
  { intros res. eapply gateDecision_ends; [exact Hh|]. intros tr2 ruling state2 H2 Hr.
    eapply invoke_ends; [exact H2|done|apply Hh|done|exact Hp]. }
  destruct r as [[]|e]; [apply Hgo| |apply Hgo|apply Hgo|].
  - eapply gateDecision_ends; [exact Hh|]. by intros.
  - eapply gateDecision_ends; [exact Hh|]. by intros.
Qed.

Lemma append_last tr l state s :
  holds tr l state -> ends (state' ← Runner_append state start s; mret (status state')) tr.
Proof. intros Hh. by eapply append_ends. Qed.

Lemma standingDecide_ends tr l state p :
  holds tr l state -> ends (standingDecide deps state start p) tr.
Proof.
  intros Hh. unfold standingDecide. case_match; [done|].
  apply (quiet_ends (call OnNow)); [done|]. intros tr1 now Hs1.
  apply quiet_ends; [done|]. intros tr2 [[grant|]|e] Hs2; [|done..]. cbv zeta.
  eapply append_last. eapply same_holds; [exact Hs2|]. by eapply same_holds.
Qed.

Lemma quiet_evidence c : quiet (approvalEvidence deps c).
Proof. unfold approvalEvidence. by quiet_tac. Qed.

Lemma refused_ends tr l state p decision effect :
  holds tr l state -> ends (refused deps state start p decision effect) tr.
Proof.
  intros Hh. unfold refused, park.
  case_match; [|repeat case_match; first [by eapply append_last | done]].
  apply (quiet_ends (call OnNow)); [done|]. intros tr1 now Hs1.
  apply quiet_ends; [apply quiet_evidence|]. intros tr2 evidence Hs2.
  apply quiet_ends; [apply quiet_store|]. intros tr3 ref Hs3. cbv zeta.
  eapply append_ends; [eapply same_holds; [exact Hs3|]; eapply same_holds; [exact Hs2|];
    by eapply same_holds|].
  intros tr4 sealed state4 L. eapply standingDecide_ends, L.
Qed.

Lemma idempotencyKey_nonempty run tool args : idempotencyKey run tool args <> "".
Proof. unfold idempotencyKey, sha256, digest_bytes. cbn [be_bytes]. by rewrite !str_app_cons. Qed.

Lemma executionKey_nonempty state effect tool base :
  base <> "" -> executionIdempotencyKey state effect tool base <> "".
Proof.
  intros Hb. unfold executionIdempotencyKey, coordinationIdempotencyKey. case_match.
  - generalize (S (size (St_executed state))), 2%Z. intros fuel.
    assert (forall key n, key <> "" -> coordination_search (St_executed state) base key n fuel <> "")
      as Hsearch; [|by intros; apply Hsearch].
    induction fuel as [|fuel IH]; intros key n Hk; cbn; [done|]. case_match; [|done].
    apply IH. destruct base; [done|]. by rewrite str_app_cons.
  - case_match; [done|]. cbv zeta. case_match; [done|]. destruct base; [done|].
    by rewrite str_app_cons.
Qed.

Lemma executable_proceeds state p effect key already :
  negb (Verdict_Executable (D_Verdict (Runner_decide deps state start p effect key already))) ||
  Z.eqb (D_Verdict (Runner_decide deps state start p effect key already)) VerdictRequireApproval
  = false ->
  Proceeds (D_Gate deps) (gate_request state start p effect key already).
Proof. intros H. apply orb_false_iff in H as [H _]. by apply negb_false_iff in H. Qed.

Lemma act_ends tr l state p : holds tr l state -> ends (act deps state start p) tr.
Proof.
  intros Hh. unfold act.
  apply quiet_ends; [unfold approvalBinding; by quiet_tac|]. intros tr1 binding Hs1. cbv zeta.
  apply quiet_ends; [unfold effectOf; by quiet_tac|]. intros tr2 effect Hs2.
  apply quiet_ends; [apply quiet_semantic|]. intros tr3 semantic Hs3.
  apply (same_holds _ _ _ _ Hs1) in Hh. apply (same_holds _ _ _ _ Hs2) in Hh.
  apply (same_holds _ _ _ _ Hs3) in Hh. case_match eqn:Ev.
  - apply quiet_ends; [unfold when; by quiet_tac|]. intros tr4 _ Hs4.
    eapply gateDecision_ends; [by eapply same_holds|]. intros tr5 ruling state5 H5 _.
    by eapply refused_ends.
  - eapply afterExecutableGate_ends; [exact Hh| |by apply executable_proceeds].
    apply executionKey_nonempty, idempotencyKey_nonempty.
Qed.

Lemma actApproved_ends tr l state approved :
  holds tr l state -> ends (actApproved deps state start approved) tr.
Proof.
  intros Hh. unfold actApproved.
  apply quiet_ends; [unfold resolve; by quiet_tac|]. intros tr1 args Hs. case_match; [done|].
  eapply act_ends. by eapply same_holds.
Qed.

(** ** Planning *)

Lemma quiet_survey offered : forall missing implicated, quiet (survey deps offered missing implicated).
Proof.
  induction offered as [|id rest IH]; intros missing implicated; cbn -[mbind call]; [done|].
  case_match; [apply IH|]. quiet_tac; apply IH.
Qed.

Lemma quiet_unavailable offered : quiet (unavailableTools deps offered).
Proof.
  unfold unavailableTools. case_match; [done|]. apply quiet_bind; [apply quiet_survey|].
  intros [missing implicated]. case_match; [done|]. apply quiet_bind; [|done].
  induction (sort_str _) as [|server rest IH]; cbn -[mbind ask]; [done|].
  apply quiet_bind; [by apply quiet_ask|]. intros []; [done|apply IH].
Qed.

(** Reading the history again changes nothing of what is held. *)
Lemma reread {B} (f : list Step -> turn B) tr l state post :
  holds tr l state ->
  (forall tr' steps, same tr tr' -> obeying (f steps) tr' post) ->
  (forall tr' e, same tr tr' -> post tr' (Err e)) ->
  obeying (ask RunLedger (LRead (Sa_RunID start) FirstSeq) ≫= f) tr post.
Proof.
  intros [Hl _] Hf He. cbn. split; [done|]. intros r _.
  assert (same tr (Ev (LRead (Sa_RunID start) FirstSeq) r :: tr)) as Hs by (split; cbn; by rewrite ?Hl).
  destruct r; cbn; auto.
Qed.

(** The run may move, and the move is the model's. *)
Record movable (state : State) : Prop := {
  movable_open : State_Terminal state = false;
  movable_asked : St_Phase state <> PhaseAwaitingApproval;
  movable_called : St_Phase state <> PhaseAwaitingTool;
  movable_granted : St_Approved state = None;
  movable_moving : stalledInvestigation state = None
}.

Lemma plan_obeys tr l state :
  holds tr l state -> movable state ->
  obeying (plan deps state start) tr (fun tr' _ => holds tr' l state).
Proof.
  intros Hh [M1 M2 M3 M4 M5]. unfold plan.
  eapply reread; [exact Hh| |by intros; eapply same_holds]. intros tr1 steps Hs1.
  apply (same_holds _ _ _ _ Hs1) in Hh. clear Hs1.
  apply quiet_then; [by quiet_tac| |by intros; eapply same_holds]. intros tr2 transcript Hs2.
  apply (same_holds _ _ _ _ Hs2) in Hh. clear Hs2. destruct (SpendAt _ _) as [model effort].
  apply quiet_then; [unfold plannerFor; by quiet_tac| |by intros; eapply same_holds].
  intros tr3 [fallback model'] Hs3. apply (same_holds _ _ _ _ Hs3) in Hh. clear Hs3. cbv zeta.
  apply quiet_then; [apply quiet_unavailable| |by intros; eapply same_holds].
  intros tr4 unavailable Hs4. apply (same_holds _ _ _ _ Hs4) in Hh. clear Hs4.
  cbn. split; [by repeat split; eauto|]. intros r _.
  assert (forall input, holds (Ev (OnPlan fallback input) r :: tr4) l state) as Hp.
  { intros input. destruct Hh as [Hl Hf]. split; [|done]. cbn. by rewrite Hl. }
  destruct r as [q|[|e]]; apply Hp.
Qed.

Lemma search_obeys tr l state :
  holds tr l state -> obeying (initialMemorySearch start) tr (fun tr' _ => holds tr' l state).
Proof.
  intros Hh. unfold initialMemorySearch. eapply reread; [exact Hh| |by intros; eapply same_holds].
  intros tr1 steps Hs1. apply (same_holds _ _ _ _ Hs1) in Hh.
  apply obeys_quiet; [apply quiet_disciplined|by quiet_tac|]. intros tr2 r Hs2. by eapply same_holds.
Qed.

(** A turn that has not ended goes on with the state it held. *)
Lemma initialMemoryLookup_obeys tr l state :
  holds tr l state ->
  obeying (initialMemoryLookup deps state start) tr
    (fun tr' r => match r with Ok None => holds tr' l state | _ => True end).
Proof.
  intros Hh. unfold initialMemoryLookup. case_match; [done|].
  apply obeys_bind. eapply obeys_mono; [by apply search_obeys|]. clear Hh.
  intros tr3 [search|e] Hh; [|done].
  case_match; [done|]. cbv zeta.
  apply quiet_then; [by quiet_tac| |done]. intros tr4 effect Hs4. apply (same_holds _ _ _ _ Hs4) in Hh.
  apply quiet_then; [apply quiet_semantic| |done]. intros tr5 semantic Hs5.
  apply (same_holds _ _ _ _ Hs5) in Hh. case_match eqn:Ev; [done|].
  apply obeys_bind. eapply obeys_mono; [eapply afterExecutableGate_ends|by intros ? []].
  - exact Hh.
  - apply idempotencyKey_nonempty.
  - by apply executable_proceeds.
Qed.

Lemma quiet_storeOutcome run seq outcome : quiet (storeOutcome deps run seq outcome).
Proof. unfold storeOutcome. by quiet_tac. Qed.

Lemma quiet_storeArtifacts state seq artifacts : quiet (storeArtifacts deps start state seq artifacts).
Proof.
  unfold storeArtifacts. case_match; [done|]. rename H into E. rewrite <- E. clear E.
  case_match; [done|]. generalize (Labels_Clone (St_Labels state)). intros labels.
  induction artifacts as [|[name body] rest IH]; cbn -[mbind ask]; [done|].
  apply quiet_bind; [by apply quiet_ask|]. intros ref. by apply quiet_bind.
Qed.

Lemma finish_ends tr l state p : holds tr l state -> ends (finish deps state start p) tr.
Proof.
  intros Hh. unfold finish. cbv zeta.
  apply quiet_ends; [apply quiet_storeOutcome|]. intros tr1 ref Hs1.
  apply quiet_ends; [apply quiet_storeOutcome|]. intros tr2 headline Hs2.
  apply quiet_ends; [apply quiet_storeArtifacts|]. intros tr3 artifacts Hs3.
  eapply append_last. eapply same_holds; [exact Hs3|]. eapply same_holds; [exact Hs2|].
  by eapply same_holds.
Qed.

Lemma plan_and_act_ends tr l state :
  holds tr l state -> movable state -> ends (plan_and_act deps state start) tr.
Proof.
  intros Hh Hm. unfold plan_and_act. apply obeys_bind, obeys_attempt.
  eapply obeys_mono; [by apply plan_obeys|]. cbv beta. intros tr1 [p|e] H1; cbv iota.
  - apply quiet_ends; [unfold when; by quiet_tac|]. intros tr2 _ Hs2.
    eapply then_ends; [eapply appendPlanned_obeys; [by eapply same_holds|done]|].
    intros tr3 l3 state3 H3. case_match; [by eapply finish_ends|].
    case_match; [by eapply append_last|]. by eapply act_ends.
  - unfold plan_failed. repeat case_match; try done.
    apply quiet_ends; [unfold when; by quiet_tac|]. intros tr2 _ Hs2.
    eapply then_ends; [eapply appendPlanned_obeys; [by eapply same_holds|done]|]. done.
Qed.

(** ** The turn *)

Lemma load_obeys tr : held tr = None -> obeying (load start) tr (holding id).
Proof.
  intros Hn. unfold load. apply obeys_bind. cbn -[Fold open_run mbind]. split; [done|]. intros r _.
  assert (forall steps, read_by (LRead (Sa_RunID start) FirstSeq) r = Some steps ->
    obeying (open_run start steps) (Ev (LRead (Sa_RunID start) FirstSeq) r :: tr) (holding id)) as Hgo.
  { intros steps Hr. unfold open_run. destruct (Fold steps) as [state|e] eqn:Ef; [|done].
    assert (holds (Ev (LRead (Sa_RunID start) FirstSeq) r :: tr) steps state) as Hh.
    { split; [|done]. cbn [held sealed_by]. by rewrite Hn. }
    case_match; [by exists steps|]. eapply append_obeys; [exact Hh| |done].
    intros tr' sealed state' L. exists (steps ++ [sealed])%list. apply L. }
  apply obeys_bind. destruct r as [steps|[]]; try done; by apply Hgo.
Qed.

Lemma recover_ends tr l state : holds tr l state -> ends (recoverOrphanedCall state start) tr.
Proof.
  intros Hh. unfold recoverOrphanedCall. cbv zeta. eapply append_ends; [exact Hh|].
  intros tr' sealed state' L. eapply append_last, L.
Qed.

Lemma parkInvestigation_ends tr l state summary :
  holds tr l state -> ends (parkInvestigation deps state start summary) tr.
Proof.
  intros Hh. unfold parkInvestigation. eapply append_ends; [exact Hh|]. intros tr' sealed state' L.
  apply ends_quiet. unfold when. by quiet_tac.
Qed.

Lemma Advance_ends tr0 : held tr0 = None -> ends (Advance deps start) tr0.
Proof.
  intros H0. unfold Advance. eapply then_ends; [by apply load_obeys|]. intros tr l state Hh. cbn [id] in Hh.
  case_match eqn:Eopen; [done|]. apply orb_false_iff in Eopen as [Et Ea].
  case_match eqn:Ecall; [by eapply recover_ends|]. bsimp.
  case_match eqn:Eg; [by eapply actApproved_ends|].
  case_match eqn:Ei; [by eapply parkInvestigation_ends|].
  apply obeys_bind. eapply obeys_mono; [by eapply initialMemoryLookup_obeys|].
  intros tr' [[st|]|e]; cbn; try done. intros H'. by eapply plan_and_act_ends.
Qed.

End Discipline.

(** ** What a turn may do *)

(** The lease and head an append is conditional on; 0 is no lease. *)
Definition append_condition {R} (op : port R) : option (Z * StepRef) :=
  match op with
  | LAppendIfHead head _ => Some (0%Z, head)
  | LAppendIfLeaseAndHead epoch head _ => Some (epoch, head)
  | _ => None
  end.

Definition honest_trace (tr : list event) : Prop :=
  Forall (fun e => honest (ev_op e) (ev_answer e)) tr.

Lemma turn_disciplined deps start R (op : port R) k tr :
  unfolds (Advance deps start) [] (Do op k) tr -> honest_trace tr -> discipline deps start tr R op.
Proof. intros Hu Hh. by destruct (obeys_unfolds _ _ _ _ _ _ (Advance_ends deps start [] eq_refl) Hu Hh). Qed.

(** C3. An effect leaves only on a recorded ruling. Whatever the collaborators
    answered, when a turn is about to invoke a tool the gate let exactly this
    call through, judging the state folded from the history the turn holds; and
    on top of that history, with nothing in between or after, the turn has
    recorded the ruling, the reservation and the call under the key the tool is
    given. Under a lease the call before is a fence that held. *)
Theorem effects_follow_a_recorded_ruling deps start c k tr :
  unfolds (Advance deps start) [] (Do (OnInvoke c) k) tr -> honest_trace tr ->
  may_invoke deps start tr c.
Proof. apply turn_disciplined. Qed.

(** A turn writes to its own run only, and only on top of the history it
    holds: every append names the head of that history and the turn's lease,
    except the opening of a run that has no lease, and money already spent on
    planning, which is recorded under a key of its own. *)
Theorem turns_extend_what_they_hold deps start R (op : port R) k tr s :
  unfolds (Advance deps start) [] (Do op k) tr -> honest_trace tr -> drafted op = Some s ->
  S_RunID s = Sa_RunID start /\
  match append_condition op with
  | Some (epoch, head) => epoch = Sa_LeaseEpoch start /\ on_top tr head
  | None => unconditional start tr s
  end.
Proof.
  intros Hu Hh Hd. pose proof (turn_disciplined _ _ _ _ _ _ Hu Hh) as H.
  destruct op; try done; injection Hd as <-; cbn in *; intuition.
Qed.

(** The model is consulted only on its turn: the run is neither over nor
    waiting on a person or a call in flight, no grant is waiting to be used, it
    is not stalled, and the tools it is offered are the envelope of the state
    folded from the history the turn holds. *)
Theorem model_speaks_on_its_turn deps start fallback input k tr :
  unfolds (Advance deps start) [] (Do (OnPlan fallback input) k) tr -> honest_trace tr ->
  may_plan start tr input.
Proof. apply turn_disciplined. Qed.

(** ** Witnesses *)

Lemma effects_follow_a_recorded_ruling_witness :
  exists c k tr, unfolds (Advance plain_deps one_step) [] (Do (OnInvoke c) k) tr /\
    Ca_Tool c = "crm.find" /\ may_invoke plain_deps one_step tr c.
Proof.
  assert (about_to (fun R op => option_map Ca_Tool (invoked_by op)) (driven_to at_invoke).1.1.2
          = Some "crm.find") as H by (vm_compute; reflexivity).
  destruct (driven_to at_invoke) as [[[m p] tr] calls] eqn:E. unfold driven_to in E.
  pose proof (drive_unfolds _ _ _ _ _ _ _ _ _ _ _ E) as Hu.
  assert (honest_trace tr) as Hh by (exact (drive_honest _ _ _ _ _ _ _ _ _ _ _ E ltac:(constructor))).
  clear E. cbn [fst snd] in H. destruct p as [a|R op k]; [done|].
  destruct op as [| | | | | | | | |c| | | | | | | | | | | | | | | | | | | | | | | | | | |]; try done.
  exists c, k, tr.
  split; [exact Hu|]. split; [by injection H|].
  apply (effects_follow_a_recorded_ruling plain_deps one_step c k tr Hu Hh).
Defined.

Lemma turns_extend_what_they_hold_witness :
  exists R (op : port R) k tr s, unfolds (Advance plain_deps one_step) [] (Do op k) tr /\
    S_Kind s = StepToolCalled /\ S_RunID s = Sa_RunID one_step.
Proof.
  assert (about_to (fun R op => option_map S_Kind (drafted op)) (driven_to at_call_record).1.1.2
          = Some StepToolCalled) as H by (vm_compute; reflexivity).
  destruct (driven_to at_call_record) as [[[m p] tr] calls] eqn:E. unfold driven_to in E.
  pose proof (drive_unfolds _ _ _ _ _ _ _ _ _ _ _ E) as Hu.
  assert (honest_trace tr) as Hh by (exact (drive_honest _ _ _ _ _ _ _ _ _ _ _ E ltac:(constructor))).
  clear E. cbn [fst snd] in H. destruct p as [a|R op k]; [done|]. cbn in H.
  destruct (drafted op) as [s|] eqn:Ed; [|done].
  exists R, op, k, tr, s.
  split; [exact Hu|]. split; [by injection H|].
  apply (turns_extend_what_they_hold plain_deps one_step R op k tr s Hu Hh Ed).
Defined.

Lemma model_speaks_on_its_turn_witness :
  exists fallback input k tr,
    unfolds (Advance plain_deps one_step) [] (Do (OnPlan fallback input) k) tr /\
    may_plan one_step tr input.
Proof.
  assert (is_Some (about_to (fun R op => if at_plan R op then Some tt else None)
                     (driven_to at_plan).1.1.2)) as H by (vm_compute; eauto).
  destruct (driven_to at_plan) as [[[m p] tr] calls] eqn:E. unfold driven_to in E.
  pose proof (drive_unfolds _ _ _ _ _ _ _ _ _ _ _ E) as Hu.
  assert (honest_trace tr) as Hh by (exact (drive_honest _ _ _ _ _ _ _ _ _ _ _ E ltac:(constructor))).
  clear E. cbn [fst snd] in H. destruct p as [a|R op k]; [by destruct H|].
  destruct op as [| | | | | | |fallback input| | | | | | | | | | | | | | | | | | | | | | | | | | | | |];
    try (by destruct H).
  exists fallback, input, k, tr.
  split; [exact Hu|]. apply (model_speaks_on_its_turn plain_deps one_step fallback input k tr Hu Hh).
Defined.

(** * Recovering a lost call

    src/internal/engine/resume.go. A worker that died between recording a call
    and recording its outcome leaves a run waiting on a tool. The next turn does
    not call again: it records the outcome as unknown and releases the
    reservation. *)

(** ** What the two steps of a recovery do to the state *)

Lemma returned_reopens s step s' :
  Apply s step = Ok s' -> S_Kind step = StepToolReturned ->
  St_Phase s' = PhaseRunning /\ St_PendingTool s' = "" /\ St_Reserved s' = St_Reserved s.
Proof.
  intros H Hk. apply Apply_Ok in H as [_ H]. unfold applyKind in H. rewrite Hk in H. cbn in H.
  unfold on_tool_returned in H. apply result_bind_Ok in H as (p & _ & H). injection H as <-.
  shapes. destruct (noteWorkItem_shape (account s step) step) as (w & ->). done.
Qed.

(** The decoder of a payload, as the fold calls it. *)
Lemma decode_written {A} (c : codec A) `{!CodecLaws c, !NeverNull c} step a :
  c_dec c (c_zero c) (JObj []) = (c_zero c, true) -> c_ok c a ->
  S_Payload step = CanonicalJSON (marshal c a) -> decode step (c_zero c) (c_dec c) = Ok a.
Proof.
  intros Hz Ha E. pose proof (read_canonical c a Hz Ha) as H. unfold read_payload in H.
  unfold decode. by rewrite E, H.
Qed.

Lemma reconciled_releases s step s' micros tokens :
  Apply s step = Ok s' -> S_Kind step = StepBudgetReconciled ->
  S_Payload step = CanonicalJSON (marshal c_BudgetReconciledPayload
                     (MkBudgetReconciledPayload micros tokens)) ->
  in_int64 micros = true -> in_int64 tokens = true ->
  St_Phase s' = St_Phase s /\ St_PendingTool s' = St_PendingTool s /\
  C_Micros (St_Reserved s') = sub64 (C_Micros (St_Reserved s)) micros /\
  C_Tokens (St_Reserved s') = sub64 (C_Tokens (St_Reserved s)) tokens.
Proof.
  intros H Hk E Hm Ht. apply Apply_Ok in H as [_ H]. unfold applyKind in H. rewrite Hk in H.
  cbn in H. unfold on_reconciled in H.
  pose proof (decode_written c_BudgetReconciledPayload step (MkBudgetReconciledPayload micros tokens)
    eq_refl (conj Hm Ht) E) as Hd.
  cbn [c_zero c_dec c_BudgetReconciledPayload struct_codec] in Hd. rewrite Hd in H. injection H as <-.
  by destruct (noteWorkItem_shape (account s step) step) as (w & ->).
Qed.

(** ** Reservations stay in range *)

Definition reserved_fits (s : State) : Prop :=
  in_int64 (C_Micros (St_Reserved s)) = true /\ in_int64 (C_Tokens (St_Reserved s)) = true.

Lemma applyKind_fits s step s' : reserved_fits s -> applyKind s step = Ok s' -> reserved_fits s'.
Proof.
  intros Hs H. walk_kinds H; shapes; try exact Hs; try (split; apply wrap64_range).
  - match goal with |- context [decide_on s ?p] =>
      destruct (decide_shape s p) as (? & ? & ? & ? & E) end.
    by rewrite E.
  - by repeat case_match.
Qed.

Lemma fold_fits steps s : Fold steps = Ok s -> reserved_fits s.
Proof.
  revert s. induction steps as [|step steps IH] using rev_ind; intros s' H.
  { injection H as <-. by split. }
  apply fold_snoc in H as (s & Hs & Ha). apply Apply_Ok in Ha as [_ Ha].
  eapply applyKind_fits; [|exact Ha].
  destruct (noteWorkItem_shape (account s step) step) as (w & ->). exact (IH s Hs).
Qed.

(** ** The recovering turn *)

(** The turn opened by reading [steps]. *)
Definition opened_with (start : Start) (steps : list Step) (tr : list event) : Prop :=
  exists tr', tr = (tr' ++ [Ev (LRead (Sa_RunID start) FirstSeq) (Ok steps)])%list.

Section Recovering.
Context (deps : Deps) (start : Start) (steps : list Step) (state : State).
Context (folds : Fold steps = Ok state) (waits : St_Phase state = PhaseAwaitingTool).

Let opening : list event := [Ev (LRead (Sa_RunID start) FirstSeq) (Ok steps)].

(** The history is closed, the reservation released. *)
Definition recovered (tr : list event) (st : Status) : Prop :=
  exists returned reconciled state',
    holds tr (steps ++ [returned; reconciled])%list state' /\ st = status state' /\
    S_Kind returned = StepToolReturned /\ S_Kind reconciled = StepBudgetReconciled /\
    St_Phase state' = PhaseRunning /\ St_PendingTool state' = "" /\
    C_Micros (St_Reserved state') = 0%Z /\ C_Tokens (St_Reserved state') = 0%Z.

Lemma sub64_self z : sub64 z z = 0%Z.
Proof. unfold sub64. by rewrite Z.sub_diag. Qed.

Lemma recover_obeys :
  obeys (discipline deps start) (recoverOrphanedCall state start) opening
    (fun tr r => match r with Ok st => recovered tr st | Err _ => True end).
Proof.
  unfold recoverOrphanedCall. cbv zeta.
  assert (holds opening steps state) as H0 by done.
  eapply append_then; [exact H0| |done]. intros tr1 returned state1 L1.
  eapply append_then; [apply L1| |done]. intros tr2 reconciled state2 L2.
  destruct (landed_holds _ _ _ _ _ L1) as [_ F1]. destruct (landed_holds _ _ _ _ _ L2) as [Hl F2].
  pose proof F2 as F2'. apply fold_snoc in F2' as (x & Hx & A2).
  rewrite F1 in Hx. injection Hx as <-.
  apply fold_snoc in F1 as (y & Hy & A1). rewrite folds in Hy. injection Hy as <-.
  destruct (fold_fits _ _ folds) as [Fm Ft].
  destruct (returned_reopens _ _ _ A1 (landed_kind _ _ _ _ _ L1)) as (P1 & T1 & R1).
  destruct (reconciled_releases _ _ _ _ _ A2 (landed_kind _ _ _ _ _ L2)
    (landed_payload _ _ _ _ _ L2) Fm Ft) as (P2 & T2 & R2 & R2').
  exists returned, reconciled, state2.
  rewrite <- app_assoc in Hl, F2. rewrite R1, sub64_self in R2, R2'.
  split; [by split|]. split; [done|]. split; [apply L1|]. split; [apply L2|].
  split; [congruence|]. split; [congruence|]. by split.
Qed.

(** It invokes nothing on the way. *)
Lemma recover_invokes_nothing tr :
  obeys (fun _ _ op => invoked_by op = None) (recoverOrphanedCall state start) tr (fun _ _ => True).
Proof.
  assert (forall state s tr f, (forall state' tr',
      obeys (fun _ _ op => invoked_by op = None) (f state') tr' (fun _ (_ : result RunError Status) => True)) ->
    obeys (fun _ _ op => invoked_by op = None) (Runner_append state start s ≫= f) tr (fun _ _ => True))
    as Happ.
  { intros st s tr0 f Hf. cbn -[append_op]. split; [done|]. intros now _.
    split; [unfold append_op; by repeat case_match|]. intros [sealed|e] _; [|done]. cbn.
    destruct (Apply st sealed); [apply Hf|done]. }
  unfold recoverOrphanedCall. cbv zeta. apply Happ. intros state1 tr1. by apply Happ.
Qed.

Lemma reads_then_recovers : exists k,
  Advance deps start = Do (LRead (Sa_RunID start) FirstSeq) k /\
  k (Ok steps) = recoverOrphanedCall state start.
Proof.
  eexists. split; [reflexivity|]. cbn -[Fold recoverOrphanedCall State_Terminal]. unfold open_run.
  rewrite folds, waits. cbn -[recoverOrphanedCall State_Terminal].
  assert (State_Terminal state = false) as -> by (unfold State_Terminal; by rewrite waits).
  cbn -[recoverOrphanedCall]. by rewrite waits.
Qed.

(** The rest of the turn, once the history is read. *)
Lemma recovery_unfolds p' tr :
  unfolds (Advance deps start) [] p' tr -> opened_with start steps tr ->
  unfolds (recoverOrphanedCall state start) opening p' tr.
Proof.
  destruct reads_then_recovers as (k & -> & Hk). intros Hu (tr0 & ->). rewrite <- Hk.
  apply unfolds_inv in Hu as [[_ E]|(r & Hu)]; [by destruct tr0|].
  destruct (unfolds_app _ _ _ _ Hu) as (new & E). apply app_inj_tail in E as [_ E].
  apply (f_equal read_answer) in E. cbn in E. injection E as E. by subst r.
Qed.

End Recovering.

(** A lost call is closed, not repeated. A turn that finds a call recorded
    without an outcome lets nothing out at any point; and when it returns, it
    has added exactly a result whose outcome is unknown and a release, after
    which the run may move again, waits on no tool and holds no reservation. *)
Theorem lost_call_is_closed_not_repeated deps start steps state p tr :
  Fold steps = Ok state -> St_Phase state = PhaseAwaitingTool ->
  unfolds (Advance deps start) [] p tr -> opened_with start steps tr -> honest_trace tr ->
  Forall (fun e => invoked_by (ev_op e) = None) tr /\
  (forall st, p = Ret (Ok st) -> recovered steps tr st).
Proof.
  intros Hf Hw Hu Ho Hh. apply (recovery_unfolds _ _ _ _ Hf Hw) in Hu; [|done]. split.
  - eapply (obeys_every _ _ _ _ _ _ (fun _ op => invoked_by op = None));
      [|apply recover_invokes_nothing|exact Hu|done|by repeat constructor]. by intros.
  - intros st ->. apply (obeys_unfolds _ _ _ _ _ _ (recover_obeys deps start _ _ Hf) Hu Hh).
Qed.

(** ** Witness: a worker that died with its call recorded *)

Definition orphaned : Memory := (driven_to at_invoke).1.1.1.
Definition rescued : Memory * prog (result RunError Status) * list event * list Call :=
  drive agreeable never 0 orphaned (Advance plain_deps one_step) [] [].

Lemma lost_call_is_closed_not_repeated_witness :
  exists state st, Fold (steps_of orphaned "run-1") = Ok state /\
    St_Phase state = PhaseAwaitingTool /\
    recovered (steps_of orphaned "run-1") rescued.1.2 st.
Proof.
  assert (exists state, Fold (steps_of orphaned "run-1") = Ok state /\
          St_Phase state = PhaseAwaitingTool) as (state & Hf & Hw).
  { vm_compute. eexists. split; reflexivity. }
  assert (rescued.1.1.2 = Ret (Ok (MkStatus PhaseRunning 7 false))) as Hp
    by (vm_compute; reflexivity).
  assert (opened_with one_step (steps_of orphaned "run-1") rescued.1.2) as Ho.
  { exists (removelast rescued.1.2). vm_compute. reflexivity. }
  exists state, (MkStatus PhaseRunning 7 false). split; [done|]. split; [done|].
  destruct rescued as [[[m p] tr] calls] eqn:E. unfold rescued in E.
  pose proof (drive_unfolds _ _ _ _ _ _ _ _ _ _ _ E) as Hu.
  assert (honest_trace tr) as Hh by (exact (drive_honest _ _ _ _ _ _ _ _ _ _ _ E ltac:(constructor))).
  clear E. cbn [fst snd] in *. rewrite Hp in Hu.
  apply (lost_call_is_closed_not_repeated plain_deps one_step _ state _ _ Hf Hw Hu Ho Hh).
  reflexivity.
Defined.

(** ** A reservation nobody releases

    Between the reservation and the record of the call the arguments go to the
    content store; an error there ends the turn with the run still running, so
    no recovery ever releases what was reserved. *)

Definition costly : Proposal := lookup_proposal <| P_Estimate := MkConsumption 5 0 0 0 0 |>.

(** Collaborators that plan a lookup estimated at five micros; [puts] is how the
    content store answers. *)
Definition storing (puts : result PortError string) (R : Type) (op : port R) : R :=
  match op in port R return R with
  | OnPlan _ _ => Ok costly
  | OnPut _ _ _ => puts
  | other => agreeable _ other
  end.

Definition after_turn (puts : result PortError string) (m : Memory) : Memory * result RunError Status :=
  match drive (storing puts) never 0 m (Advance plain_deps one_step) [] [] with
  | (m', Ret r, _, _) => (m', r)
  | (m', Do _ _, _, _) => (m', Err RunCancelled)
  end.

Definition reserved_micros (m : Memory) : option (Phase * Z) :=
  match Fold (steps_of m "run-1") with
  | Ok s => Some (St_Phase s, C_Micros (St_Reserved s))
  | Err _ => None
  end.

(** A turn whose content store fails after the reservation leaves it
    outstanding on a run that goes on: the failed turn ends with five micros
    reserved and the run running, and a whole further turn, its own call made
    and reconciled, leaves the five micros reserved still. The source says it
    reconciles on every path, including failure. *)
Theorem failed_store_leaks_the_reservation :
  let (m1, r1) := after_turn (Err (PortFailed None)) NewMemory in
  let (m2, r2) := after_turn (Ok "ref") m1 in
  r1 = Err (RunPort (PortFailed None)) /\ reserved_micros m1 = Some (PhaseRunning, 5%Z) /\
  is_ok r2 = true /\ reserved_micros m2 = Some (PhaseRunning, 5%Z).
Proof. vm_compute. repeat split. Qed.
