(* ===== verification/Calendar.v ===== *)
(** * Budget periods

    The windows of src/internal/domain/budget.go ([Period], [ScopeBudget],
    [BudgetMark]), over the Gregorian calendar Go's [time] package computes
    with: an instant is nanoseconds since 1 January of year 1 in UTC
    ([Prelude.Time]), so a day boundary is a multiple of a day, and the day of
    the month comes from the 400-year cycle of 146,097 days. *)

From Stdlib Require Import ZArith Lia Ascii String.
From stdpp Require Import base list strings.
From S2P Require Import Prelude GoStrings Json Domain.

Local Open Scope Z_scope.

(** ** Days and months *)

Definition day_ns : Z := 86400 * 1000000000.

(** The days of the 400-year cycle that starts on 1 March of a year divisible
    by 400; a year is counted from March, so that a leap day is its last. *)
Definition cycle_days : Z := 146097.

(** The year of the cycle and the day of that year. *)
Definition yoe (doe : Z) : Z := (doe - doe / 1460 + doe / 36524 - doe / 146096) / 365.
Definition year_start (y : Z) : Z := 365 * y + y / 4 - y / 100.
Definition doy (doe : Z) : Z := doe - year_start (yoe doe).

(** The month of the year, March being 0, and the day of the month. *)
Definition month_of (day : Z) : Z := (5 * day + 2) / 153.
Definition mday_of (day : Z) : Z := day - (153 * month_of day + 2) / 5 + 1.

(** 1 January of year 1 is 306 days after 1 March of year 0. *)
Definition doe_of (day : Z) : Z := (day + 306) mod cycle_days.
Definition mday (day : Z) : Z := mday_of (doy (doe_of day)).

Definition day_start (t : Time) : Time := t - t mod day_ns.
Definition month_start (t : Time) : Time := (t / day_ns - (mday (t / day_ns) - 1)) * day_ns.

(** ** Periods (budget.go) *)

Abbreviation Period := string (only parsing).
Definition PeriodDaily : Period := "daily"%string.
Definition PeriodMonthly : Period := "monthly"%string.

Definition Period_Valid (p : Period) : bool := String.eqb p PeriodDaily || String.eqb p PeriodMonthly.

Definition Period_Since (p : Period) (now : Time) : Time :=
  if String.eqb p PeriodDaily then day_start now else month_start now.

Record ScopeBudget := MkScopeBudget {
  SB_ScopeKind : string;
  SB_Scope : Scope;
  SB_Period : Period;
  SB_Budget : Budget;
  SB_Enabled : bool;
  SB_UpdatedBy : UserID;
  SB_UpdatedAt : Time
}.

Record BudgetMark := MkBudgetMark {
  BM_Scope : Scope;
  BM_Threshold : Z;
  BM_Since : Time;
  BM_SpentMicros : Z;
  BM_CeilingMicros : Z;
  BM_At : Time
}.

Definition BudgetMark_Key (m : BudgetMark) : string :=
  (Company (BM_Scope m) +:+ "/" +:+ Area (BM_Scope m))%string.

Definition BudgetMark_Describes (m : BudgetMark) (ceiling : ScopeBudget) (now : Time) : bool :=
  if negb (SB_Enabled ceiling) || (B_Micros (SB_Budget ceiling) <=? 0) || negb (Period_Valid (SB_Period ceiling))
  then false
  else if negb (bool_decide (BM_Scope m = SB_Scope ceiling)) ||
          negb (BM_CeilingMicros m =? B_Micros (SB_Budget ceiling))
  then false
  else BM_Since m =? Period_Since (SB_Period ceiling) now.

(** ** The calendar is the calendar

    A calendar kept by hand: the day after a day, with its month's length. *)

Definition leap (y : Z) : bool := (y mod 4 =? 0) && (negb (y mod 100 =? 0) || (y mod 400 =? 0)).

Definition month_days (y m : Z) : Z :=
  if m =? 2 then (if leap y then 29 else 28)
  else if (m =? 4) || (m =? 6) || (m =? 9) || (m =? 11) then 30 else 31.

Record date := MkDate { d_year : Z; d_month : Z; d_day : Z }.

Definition next_date (d : date) : date :=
  if d_day d <? month_days (d_year d) (d_month d) then MkDate (d_year d) (d_month d) (d_day d + 1)
  else if d_month d <? 12 then MkDate (d_year d) (d_month d + 1) 1
  else MkDate (d_year d + 1) 1 1.

(** The date of a day, by the formulas. *)
Definition date_of (day : Z) : date :=
  let mp := month_of (doy (doe_of day)) in
  let y := 400 * ((day + 306) / cycle_days) + yoe (doe_of day) in
  if mp <? 10 then MkDate y (mp + 3) (mday day) else MkDate (y + 1) (mp - 9) (mday day).

Lemma doe_range day : 0 <= doe_of day < cycle_days.
Proof. apply Z.mod_pos_bound. reflexivity. Qed.

Lemma doy_range doe : 0 <= doe < cycle_days -> 0 <= yoe doe <= 399 /\ 0 <= doy doe <= 365.
Proof.
  unfold doy, year_start, yoe, cycle_days. cbv zeta. intros H. Z.div_mod_to_equations. lia.
Qed.

(** The years of the cycle, one by one: each starts where the one before ends,
    and its first and last day belong to it. *)
Definition year_len (y : Z) : Z := if leap (y + 1) then 366 else 365.

Definition year_ok (y : Z) : bool :=
  (yoe (year_start y) =? y) && (yoe (year_start y + year_len y - 1) =? y) &&
  (year_start y + year_len y =? (if y =? 399 then cycle_days else year_start (y + 1))).

Lemma years_ok y : 0 <= y <= 399 -> year_ok y = true.
Proof.
  intros H. assert (A : forallb year_ok (seqZ 0 400) = true) by (vm_compute; reflexivity).
  rewrite forallb_forall in A. apply A. apply list_elem_of_In, elem_of_seqZ. lia.
Qed.

Lemma yoe_step doe : 0 <= doe -> yoe doe <= yoe (doe + 1).
Proof.
  intros H. unfold yoe. apply Z.div_le_mono; [lia|]. Z.div_mod_to_equations. lia.
Qed.

Lemma yoe_mono a b : 0 <= a <= b -> yoe a <= yoe b.
Proof.
  intros [H1 H2]. replace b with (a + Z.of_nat (Z.to_nat (b - a))) by lia.
  induction (Z.to_nat (b - a)) as [|n IH]; [rewrite Z.add_0_r; lia|].
  pose proof (yoe_step (a + Z.of_nat n) ltac:(lia)).
  replace (a + Z.of_nat (S n)) with (a + Z.of_nat n + 1) by lia. lia.
Qed.

Lemma year_start_pos y : 0 <= y -> 0 <= year_start y.
Proof. unfold year_start. intros H. Z.div_mod_to_equations. lia. Qed.

(** Which year a day of the cycle is in. *)
Lemma yoe_year y doe :
  0 <= y <= 399 -> year_start y <= doe < year_start y + year_len y -> yoe doe = y.
Proof.
  intros Hy H. pose proof (years_ok y Hy) as O. unfold year_ok in O.
  rewrite !andb_true_iff, !Z.eqb_eq in O. destruct O as [[O1 O2] _].
  pose proof (year_start_pos y ltac:(lia)).
  pose proof (yoe_mono (year_start y) doe ltac:(lia)).
  pose proof (yoe_mono doe (year_start y + year_len y - 1) ltac:(lia)). lia.
Qed.

Lemma doy_len doe : 0 <= doe < cycle_days -> 0 <= doy doe < year_len (yoe doe).
Proof.
  intros H. destruct (doy_range doe H) as [Hy Hd]. split; [lia|].
  destruct (Z.lt_ge_cases (doy doe) (year_len (yoe doe))) as [|C]; [done|exfalso].
  pose proof (years_ok (yoe doe) Hy) as O. unfold year_ok in O.
  rewrite !andb_true_iff, !Z.eqb_eq in O. destruct O as [_ O]. unfold doy in C.
  destruct (Z.eqb_spec (yoe doe) 399) as [E|D]; [lia|].
  pose proof (years_ok (yoe doe + 1) ltac:(lia)) as O'. unfold year_ok in O'.
  rewrite !andb_true_iff, !Z.eqb_eq in O'. destruct O' as [[O' _] _].
  pose proof (year_start_pos (yoe doe + 1) ltac:(lia)).
  pose proof (yoe_mono (year_start (yoe doe + 1)) doe ltac:(lia)). lia.
Qed.

(** The months of a year from March, day by day. *)
Definition month_len (y mp : Z) : Z :=
  if mp <? 10 then month_days y (mp + 3) else month_days (y + 1) (mp - 9).

Definition months_ok (long : bool) (d : Z) : bool :=
  let y := if long then 3 else 0 in
  (0 <=? month_of d) && (month_of d <=? 11) && (1 <=? mday_of d) && (mday_of d <=? month_len y (month_of d)) &&
  (mday_of (d - (mday_of d - 1)) =? 1) && (0 <=? d - (mday_of d - 1)) &&
  (if d =? (if long then 365 else 364) then (month_of d =? 11) && (mday_of d =? month_len y 11)
   else if mday_of d <? month_len y (month_of d)
        then (month_of (d + 1) =? month_of d) && (mday_of (d + 1) =? mday_of d + 1)
        else (month_of (d + 1) =? month_of d + 1) && (mday_of (d + 1) =? 1)).

Lemma months_checked (long : bool) d : 0 <= d < (if long then 366 else 365) -> months_ok long d = true.
Proof.
  intros H.
  assert (A : forallb (months_ok true) (seqZ 0 366) && forallb (months_ok false) (seqZ 0 365) = true)
    by (vm_compute; reflexivity).
  apply andb_true_iff in A as [A B]. rewrite forallb_forall in A, B.
  destruct long; [apply A|apply B]; apply list_elem_of_In, elem_of_seqZ; lia.
Qed.

Lemma month_len_leap y mp :
  0 <= mp <= 11 -> month_len y mp = month_len (if leap (y + 1) then 3 else 0) mp.
Proof.
  intros H. unfold month_len, month_days.
  destruct (Z.ltb_spec mp 10); [|destruct (leap (y + 1)) eqn:E].
  - destruct (Z.eqb_spec (mp + 3) 2); [lia|done].
  - by destruct (Z.eqb_spec (mp - 9) 2).
  - by destruct (Z.eqb_spec (mp - 9) 2).
Qed.

Lemma day_months doe :
  0 <= doe < cycle_days -> months_ok (leap (yoe doe + 1)) (doy doe) = true.
Proof. intros H. apply months_checked. exact (doy_len doe H). Qed.

(** The day of a month is one of its days, and the day that many days before is
    its first. *)
Lemma mday_first day : 1 <= mday day <= 31 /\ mday (day - (mday day - 1)) = 1.
Proof.
  pose proof (doe_range day) as H. pose proof (day_months _ H) as M.
  destruct (doy_len _ H) as [L0 L1]. destruct (doy_range _ H) as [Hy _].
  unfold months_ok in M. rewrite !andb_true_iff, !Z.leb_le, !Z.eqb_eq in M.
  destruct M as ((((((M1 & M2) & M3) & M4) & M5) & M6) & _). unfold mday.
  set (k := mday_of (doy (doe_of day)) - 1) in *.
  assert (month_len (if leap (yoe (doe_of day) + 1) then 3 else 0) (month_of (doy (doe_of day))) <= 31).
  { unfold month_len, month_days. repeat case_match; lia. }
  assert (E : doe_of (day - k) = doe_of day - k).
  { assert (year_start (yoe (doe_of day)) >= 0) by (pose proof (year_start_pos (yoe (doe_of day))); lia).
    unfold doy in M6. unfold doe_of in *. rewrite <- (Z.mod_small ((day + 306) mod cycle_days - k) cycle_days) by lia.
    rewrite Zminus_mod_idemp_l. f_equal. lia. }
  assert (Ey : yoe (doe_of day - k) = yoe (doe_of day)).
  { apply yoe_year; [done|]. unfold doy in *. lia. }
  split; [lia|]. rewrite E. unfold doy at 1. rewrite Ey.
  replace (doe_of day - k - year_start (yoe (doe_of day))) with (doy (doe_of day) - k) by (unfold doy; lia).
  exact M5.
Qed.

(** The day after: the next of its year, or the first of the year after. *)
Lemma day_after day :
  let y := 400 * ((day + 306) / cycle_days) + yoe (doe_of day) in
  let y' := 400 * ((day + 1 + 306) / cycle_days) + yoe (doe_of (day + 1)) in
  (doy (doe_of day) + 1 < year_len (yoe (doe_of day)) /\ y' = y /\
   doy (doe_of (day + 1)) = doy (doe_of day) + 1) \/
  (doy (doe_of day) + 1 = year_len (yoe (doe_of day)) /\ y' = y + 1 /\ doy (doe_of (day + 1)) = 0).
Proof.
  cbv zeta. pose proof (doe_range day) as H. destruct (doy_len _ H) as [L0 L1]. destruct (doy_range _ H) as [Hy _].
  pose proof (years_ok _ Hy) as O. unfold year_ok in O. rewrite !andb_true_iff, !Z.eqb_eq in O. destruct O as [_ O].
  assert (D : doe_of day + 1 < cycle_days -> doe_of (day + 1) = doe_of day + 1 /\
                (day + 1 + 306) / cycle_days = (day + 306) / cycle_days).
  { unfold doe_of, cycle_days. intros. Z.div_mod_to_equations. lia. }
  assert (D' : doe_of day + 1 = cycle_days -> doe_of (day + 1) = 0 /\
                (day + 1 + 306) / cycle_days = (day + 306) / cycle_days + 1).
  { unfold doe_of, cycle_days. intros. Z.div_mod_to_equations. lia. }
  destruct (Z.lt_ge_cases (doy (doe_of day) + 1) (year_len (yoe (doe_of day)))) as [C|C]; [left|right].
  - assert (doe_of day + 1 < cycle_days).
    { unfold doy in C. destruct (Z.eqb_spec (yoe (doe_of day)) 399); [lia|].
      destruct (Z.lt_ge_cases (doe_of day + 1) cycle_days); [done|]. assert (doe_of day = cycle_days - 1) as E by lia.
      rewrite E in n. done. }
    destruct (D H0) as [-> ->].
    assert (Ey : yoe (doe_of day + 1) = yoe (doe_of day)) by (apply yoe_year; [done|]; unfold doy in *; lia).
    rewrite Ey. split; [done|]. split; [done|]. unfold doy. rewrite Ey. lia.
  - assert (E : doe_of day + 1 = year_start (yoe (doe_of day)) + year_len (yoe (doe_of day))) by (unfold doy in *; lia).
    destruct (Z.eqb_spec (yoe (doe_of day)) 399) as [E9|D9].
    + destruct (D' ltac:(lia)) as [-> ->]. split; [lia|]. change (yoe 0) with 0. change (doy 0) with 0. lia.
    + assert (P : 0 <= yoe (doe_of day) + 1 <= 399) by lia.
      pose proof (years_ok _ P) as Q. unfold year_ok in Q. rewrite !andb_true_iff, !Z.eqb_eq in Q.
      destruct Q as [[Q1 _] Q3].
      assert (doe_of day + 1 < cycle_days).
      { rewrite E, O. destruct (Z.eqb_spec (yoe (doe_of day) + 1) 399) as [E'|D''].
        - rewrite E'. reflexivity.
        - pose proof (year_start_pos (yoe (doe_of day) + 1)). unfold year_start, cycle_days. Z.div_mod_to_equations. lia. }
      destruct (D H0) as [-> ->]. rewrite E, O, Q1. unfold doy. rewrite Q1. lia.
Qed.

(** The formulas follow the hand-kept calendar from day to day. *)
Lemma date_next day : date_of (day + 1) = next_date (date_of day).
Proof.
  pose proof (doe_range day) as H. pose proof (day_months _ H) as M. pose proof (day_after day) as A.
  unfold date_of, mday. cbv zeta in *. unfold months_ok in M. rewrite !andb_true_iff, !Z.leb_le in M.
  destruct M as ((((((M1 & M2) & M3) & M4) & _) & _) & M).
  set (y := 400 * ((day + 306) / cycle_days) + yoe (doe_of day)) in *.
  set (y' := 400 * ((day + 1 + 306) / cycle_days) + yoe (doe_of (day + 1))) in *.
  assert (Lp : leap (yoe (doe_of day) + 1) = leap (y + 1)).
  { unfold leap. set (e := (day + 306) / cycle_days) in *. set (a := yoe (doe_of day)) in *.
    replace (y + 1) with (a + 1 + 100 * e * 4) at 1 by (unfold y; lia). rewrite Z.mod_add by lia.
    replace (y + 1) with (a + 1 + 4 * e * 100) at 1 by (unfold y; lia). rewrite Z.mod_add by lia.
    replace (y + 1) with (a + 1 + e * 400) at 1 by (unfold y; lia). by rewrite Z.mod_add by lia. }
  rewrite Lp in *. unfold year_len in A. rewrite Lp in A.
  set (d := doy (doe_of day)) in *. rewrite <- month_len_leap in M4 by lia.
  rewrite <- (month_len_leap y 11), <- (month_len_leap y (month_of d)) in M by lia.
  assert (Nx : forall mm, next_date (if month_of d <? 10 then MkDate y (month_of d + 3) mm
                                     else MkDate (y + 1) (month_of d - 9) mm) =
     if mm <? month_len y (month_of d)
     then (if month_of d <? 10 then MkDate y (month_of d + 3) (mm + 1) else MkDate (y + 1) (month_of d - 9) (mm + 1))
     else if month_of d <? 9 then MkDate y (month_of d + 4) 1
     else if month_of d <? 11 then MkDate (y + 1) (month_of d - 8) 1 else MkDate (y + 1) 3 1).
  { intros mm. unfold next_date, month_len.
    destruct (Z.ltb_spec (month_of d) 10); simpl;
      match goal with |- context [mm <? ?b] => destruct (Z.ltb_spec mm b) end; try done.
    - destruct (Z.ltb_spec (month_of d) 9), (Z.ltb_spec (month_of d + 3) 12); try lia; [f_equal; lia|].
      destruct (Z.ltb_spec (month_of d) 11); [|lia]. f_equal; lia.
    - destruct (Z.ltb_spec (month_of d) 9); [lia|]. destruct (Z.ltb_spec (month_of d - 9) 12); [|lia].
      destruct (Z.ltb_spec (month_of d) 11); f_equal; lia. }
  rewrite Nx. destruct A as [(C & -> & ->)|(C & -> & ->)].
  - destruct (Z.eqb_spec d (if leap (y + 1) then 365 else 364)) as [E|_]; [destruct (leap (y + 1)); lia|].
    destruct (Z.ltb_spec (mday_of d) (month_len y (month_of d))); bsimp; destruct M as [-> ->]; [done|].
    destruct (Z.ltb_spec (month_of d + 1) 10), (Z.ltb_spec (month_of d) 9), (Z.ltb_spec (month_of d) 11);
      try lia; f_equal; lia.
  - destruct (Z.eqb_spec d (if leap (y + 1) then 365 else 364)) as [E|E]; [|destruct (leap (y + 1)); lia].
    bsimp. destruct M as [-> ->]. rewrite Z.ltb_irrefl.
    change (month_of 0) with 0. change (mday_of 0) with 1. simpl. f_equal; lia.
Qed.

(** A budget window is the UTC day or the calendar month. Whatever the
    instant, the window it falls in opened at a midnight no later than it and
    less than thirty-two days before, and every instant of the window opens the
    same window; a monthly window opens on the first of the month, a daily one
    on the same day, by the Gregorian calendar counted day by day. *)
Theorem windows_open_at_midnight p now :
  Period_Since p now <= now < Period_Since p now + (if String.eqb p PeriodDaily then 1 else 31) * day_ns /\
  Period_Since p now mod day_ns = 0 /\
  Period_Since p (Period_Since p now) = Period_Since p now /\
  d_day (date_of (Period_Since p now / day_ns)) =
    (if String.eqb p PeriodDaily then d_day (date_of (now / day_ns)) else 1) /\
  (forall day, date_of (day + 1) = next_date (date_of day)) /\ date_of 0 = MkDate 1 1 1.
Proof.
  assert (Hd : forall d, d_day (date_of d) = mday d) by (intros d; unfold date_of; by case_match).
  rewrite !Hd. pose proof (Z.mod_pos_bound now day_ns ltac:(reflexivity)) as B.
  pose proof (Z.div_mod now day_ns ltac:(discriminate)) as E. unfold Period_Since.
  assert (Ds : day_start now = now / day_ns * day_ns) by (unfold day_start; lia).
  split_and!; try exact date_next; try done; destruct (String.eqb p PeriodDaily).
  - lia.
  - unfold month_start. pose proof (mday_first (now / day_ns)) as [M _]. unfold day_ns in *. lia.
  - lia.
  - unfold month_start. pose proof (mday_first (now / day_ns)) as [M _]. unfold day_ns in *. lia.
  - rewrite Ds. apply Z.mod_mul. discriminate.
  - apply Z.mod_mul. discriminate.
  - rewrite Ds. unfold day_start. rewrite Z.mod_mul by discriminate. lia.
  - unfold month_start. rewrite Z.div_mul by discriminate.
    destruct (mday_first (now / day_ns)) as [_ M]. rewrite M. lia.
  - by rewrite Ds, Z.div_mul by discriminate.
  - unfold month_start. rewrite Z.div_mul by discriminate. apply mday_first.
Qed.

(** ** Instants as text *)

Local Open Scope string_scope.

Definition pad (width : nat) (z : Z) : string :=
  let s := print_Z z in String.concat "" (repeat "0" (width - String.length s)) +:+ s.

(** The date and time of day of an instant of year 0 or later, as the layout
    2006-01-02T15:04:05 writes it. *)
Definition date_time (t : Time) : string :=
  let d := date_of (t / day_ns) in
  let sec := (t mod day_ns / 1000000000)%Z in
  pad 4 (d_year d) +:+ "-" +:+ pad 2 (d_month d) +:+ "-" +:+ pad 2 (d_day d) +:+ "T" +:+
  pad 2 (sec / 3600) +:+ ":" +:+ pad 2 (sec / 60 mod 60)%Z +:+ ":" +:+ pad 2 (sec mod 60).

Fixpoint trim_zeros (s : string) : string :=
  match s with
  | EmptyString => EmptyString
  | String c s' =>
      let t := trim_zeros s' in if String.eqb t "" && Ascii.eqb c "0" then EmptyString else String c t
  end.

(** [time.Time.MarshalJSON] of an instant in UTC: RFC 3339 with as much of the
    nanoseconds as there is. *)
Definition rfc3339_nano (t : Time) : string :=
  let ns := (t mod 1000000000)%Z in
  date_time t +:+ (if Z.eqb ns 0 then "" else "." +:+ trim_zeros (pad 9 ns)) +:+ "Z".

Example rfc3339_sample : rfc3339_nano (unix_epoch + 1709251199 * 1000000000 + 250000000)%Z = "2024-02-29T23:59:59.25Z".
Proof. vm_compute. reflexivity. Qed.
