(* ===== verification/Watch.v ===== *)
(** * Sweeps over what was recorded

    src/internal/domain/agreement.go and src/internal/autonomy/watch.go: the
    share of proposals people agreed with, and the sweep that demotes agents
    they stopped agreeing with. src/internal/budget/alerts.go: the sweep that
    announces, once each, the thresholds a scope's spending crosses. Reading
    the stores is an argument of each sweep, and so is whether a write to them
    succeeds; logs and the administrative trail are left out. *)

From Stdlib Require Import ZArith Lia Ascii String.
From stdpp Require Import base list strings gmap.
From S2P Require Import Prelude GoStrings Json Float Domain Calendar.

Local Open Scope string_scope.
Local Open Scope Z_scope.

(** ** Agreement (agreement.go) *)

Record Agreement := MkAgreement { Ag_Agent : AgentID; Ag_Approved : Z; Ag_Refused : Z }.

Definition PromoteAfter : Z := 20.
Definition DemoteAfter : Z := 5.

(** The constants are the [float64] nearest to 0.95 and 0.8. *)
Definition PromoteAbove : option float64 := round_ratio false 95 100.
Definition DemoteBelow : option float64 := round_ratio false 8 10.

Definition Decided (a : Agreement) : Z := add64 (Ag_Approved a) (Ag_Refused a).

(** The quotient of two counts, each exact as a [float64] below 2^53. *)
Definition Rate (a : Agreement) : option float64 :=
  if Z.eqb (Decided a) 0 then Some (FFin false 0 (-1074)) else round_ratio false (Ag_Approved a) (Decided a).

(** [x < y] for values in range. *)
Definition below (x y : option float64) : bool :=
  match x, y with Some x, Some y => float_lt x y | _, _ => false end.

Definition SuggestsPromotion (a : Agreement) : bool :=
  (PromoteAfter <=? Decided a) && negb (below (Rate a) PromoteAbove).

Definition WarrantsDemotion (a : Agreement) : bool :=
  (DemoteAfter <=? Decided a) && below (Rate a) DemoteBelow.

(** *** The float comparison is the exact one *)

Lemma round_div_near num den :
  0 < den -> 2 * num - den <= 2 * den * round_div num den <= 2 * num + den.
Proof.
  intros Hd. unfold round_div. pose proof (Z.div_mod num den ltac:(lia)).
  pose proof (Z.mod_pos_bound num den Hd). repeat case_match; bsimp; nia.
Qed.

(** The mantissa and exponent of a quotient at most one, at most a half ulp
    from it. *)
Lemma quotient_float a d :
  0 < a <= d -> d < 2 ^ 45 ->
  exists m e, round_ratio false a d = Some (FFin false m e) /\ m <= 2 ^ 53 /\
    ((e = -53 /\ m = round_div (a * 2 ^ 53) d /\ d <= 2 * a) \/
     (e = -52 /\ m = 2 ^ 52 /\ d <= 2 * a /\ 2 ^ 53 <= round_div (a * 2 ^ 53) d) \/
     (e = -53 /\ m = 2 ^ 52 /\ 2 * a < d) \/ (e < -53 /\ 2 * a < d)).
Proof.
  intros Ha Hd. unfold round_ratio. destruct (Z.eqb_spec a 0); [lia|].
  pose proof (Z.log2_spec a ltac:(lia)) as [La Ua]. pose proof (Z.log2_spec d ltac:(lia)) as [Ld Ud].
  pose proof (Z.log2_le_mono a d ltac:(lia)) as Hl.
  assert (Z.log2 d < 45) as Hl45 by (apply Z.log2_lt_pow2; lia).
  pose proof (Z.log2_nonneg a) as Hna.
  set (e0 := Z.log2 a - Z.log2 d - 52). assert (-97 < e0 <= -52) as He0 by lia.
  assert (scale a (- e0) = a * 2 ^ (- e0)) as -> by (unfold scale; destruct (Z.leb_spec 0 (- e0)); [done|lia]).
  assert (forall e, e < 0 -> scale d e = d) as Hs by (intros e He; unfold scale; destruct (Z.leb_spec 0 e); [lia|done]).
  rewrite (Hs e0) by lia. cbv zeta.
  set (e1 := if a * 2 ^ (- e0) <? d * 2 ^ 52 then e0 - 1 else e0).
  assert (a * 2 ^ (- e1) < d * 2 ^ 53) as Hfit.
  { subst e1. destruct (Z.ltb_spec (a * 2 ^ (- e0)) (d * 2 ^ 52)).
    - replace (- (e0 - 1)) with (1 + - e0) by lia. rewrite Z.pow_add_r by lia. lia.
    - assert (a * 2 ^ (- e0) < 2 ^ (Z.log2 a + 1) * 2 ^ (- e0)) as H1
        by (apply Z.mul_lt_mono_pos_r; [apply Z.pow_pos_nonneg; lia|lia]).
      rewrite <- Z.pow_add_r in H1 by lia.
      replace (Z.log2 a + 1 + - e0) with (Z.log2 d + 53) in H1 by lia. rewrite Z.pow_add_r in H1 by lia. nia. }
  assert (-98 < e1 <= -52) as He1 by (subst e1; case_match; lia).
  replace (Z.max e1 (-1074)) with e1 by lia. rewrite (Hs e1) by lia.
  assert (scale a (- e1) = a * 2 ^ (- e1)) as -> by (unfold scale; destruct (Z.leb_spec 0 (- e1)); [done|lia]).
  pose proof (round_div_near (a * 2 ^ (- e1)) d ltac:(lia)) as Hr.
  set (m := round_div (a * 2 ^ (- e1)) d) in *. assert (m <= 2 ^ 53) as Hm by nia.
  assert (2 ^ 53 = 9007199254740992 /\ 2 ^ 52 = 4503599627370496) as [P53 P52] by done.
  assert ((e1 = -52 /\ a = d) \/ (e1 = -53 /\ a < d /\ d <= 2 * a) \/ (e1 < -53 /\ 2 * a < d)) as Hcase.
  { destruct (Z.eq_dec a d) as [E|Hne]; [|destruct (Z.lt_ge_cases (2 * a) d) as [Hlt|Hge]].
    - left. split; [|done]. subst e1 e0. rewrite E. replace (Z.log2 d - Z.log2 d - 52) with (-52) by lia.
      by rewrite Z.ltb_irrefl.
    - right; right. split; [|done]. assert (Z.log2 a + 1 <= Z.log2 d) as H1.
      { replace (Z.log2 a + 1) with (Z.log2 (2 * a)) by (rewrite Z.log2_double; lia). apply Z.log2_le_mono. lia. }
      subst e1. destruct (Z.ltb_spec (a * 2 ^ (- e0)) (d * 2 ^ 52)) as [|Hc]; [lia|].
      assert (e0 = -53 \/ e0 < -53) as [E|] by lia; [|lia]. rewrite E in Hc. change (- -53) with 53 in Hc. lia.
    - right; left. split; [|lia]. assert (Z.log2 d <= Z.log2 a + 1) as H1.
      { replace (Z.log2 a + 1) with (Z.log2 (2 * a)) by (rewrite Z.log2_double; lia). apply Z.log2_le_mono. lia. }
      assert (e0 = -52 \/ e0 = -53) as [E|E] by lia; subst e1; rewrite E.
      + change (- -52) with 52. destruct (Z.ltb_spec (a * 2 ^ 52) (d * 2 ^ 52)); lia.
      + change (- -53) with 53. destruct (Z.ltb_spec (a * 2 ^ 53) (d * 2 ^ 52)); lia. }
  assert (m = round_div (a * 2 ^ (- e1)) d) as Emd by done. clearbody m e1.
  assert (forall x, (if m =? 2 ^ 53 then (2 ^ 52, e1 + 1) else (m, e1)) = x ->
    exists m' e', x = (m', e') /\ m' <= 2 ^ 53 /\ e' <= -51 /\
      ((m = 2 ^ 53 /\ m' = 2 ^ 52 /\ e' = e1 + 1) \/ (m < 2 ^ 53 /\ m' = m /\ e' = e1))) as Hcarry.
  { intros x <-. destruct (Z.eqb_spec m (2 ^ 53)); eexists _, _; (split; [reflexivity|]); lia. }
  destruct (if m =? 2 ^ 53 then (2 ^ 52, e1 + 1) else (m, e1)) as [m' e'] eqn:Ex.
  destruct (Hcarry _ eq_refl) as (m2 & e2 & [= -> ->] & Hm2 & He2 & Hwhich). clear Hcarry Ex.
  exists m2, e2. replace (971 <? e2) with false by (symmetry; apply Z.ltb_ge; lia).
  split; [done|]. split; [done|]. destruct Hcase as [[E Ead]|[(E & Hlt & Hge)|[E Hlt]]].
  - right; left. rewrite E in *. change (- -52) with 52 in *.
    assert (m = 2 ^ 52) as Em by nia. assert (2 ^ 53 <= round_div (a * 2 ^ 53) d) as H53.
    { pose proof (round_div_near (a * 2 ^ 53) d ltac:(lia)). nia. }
    lia.
  - rewrite E in *. change (- -53) with 53 in *. rewrite <- Emd.
    destruct Hwhich as [(Em & -> & ->)|(Em & -> & ->)]; [right; left|left]; lia.
  - right; right. destruct Hwhich as [(Em & -> & ->)|(Em & -> & ->)]; lia.
Qed.

(** A share of at least a half, or less, against a threshold [p / q] between a
    half and one whose [float64] is [M / 2^53]. *)
Lemma share_below a d p q M :
  0 <= a <= d -> 0 < d < 2 ^ 45 -> 0 < q <= 100 -> q < 2 * p -> p < q ->
  round_ratio false p q = Some (FFin false M (-53)) -> 2 * p * 2 ^ 53 - q <= 2 * q * M < 2 * p * 2 ^ 53 + q -> 2 ^ 52 < M < 2 ^ 53 ->
  below (round_ratio false a d) (round_ratio false p q) = (a * q <? p * d).
Proof.
  intros Ha Hd Hq Hp Hpq EM HMn HMr. rewrite EM.
  assert (2 ^ 53 = 9007199254740992 /\ 2 ^ 52 = 4503599627370496 /\ 2 ^ 54 = 18014398509481984 /\
    2 ^ 45 = 35184372088832) as (P53 & P52 & P54 & P45) by done.
  destruct (Z.eq_dec a 0) as [-> |Hne].
  { change (round_ratio false 0 d) with (Some (FFin false 0 (-1074))). unfold below, float_lt, float_ratio.
    change (scale 0 (-1074)) with 0. assert (0 < scale 1 (- -1074)) as H1 by (vm_compute; done).
    destruct (Z.ltb_spec (0 * q) (p * d)); [|nia]. apply Z.ltb_lt.
    change (scale M (-53)) with M. nia. }
  destruct (quotient_float a d ltac:(lia) ltac:(lia)) as (m & e & -> & Hm & Hcase).
  unfold below, float_lt, float_ratio.
  assert (forall z x, x < 0 -> scale z x = z) as Hneg by (intros z x Hx; unfold scale; destruct (Z.leb_spec 0 x); [lia|done]).
  assert (forall x, 0 <= x -> scale 1 x = 2 ^ x) as Hpos by (intros x Hx; unfold scale; destruct (Z.leb_spec 0 x); lia).
  rewrite (Hneg m e), (Hneg M (-53)) by lia. rewrite (Hpos (- e)), (Hpos (- -53)) by lia. change (- -53) with 53.
  pose proof (round_div_near (a * 2 ^ 53) d ltac:(lia)) as Hr.
  destruct Hcase as [(-> & -> & Hh)|[(-> & -> & Hh & Hr')|[(-> & -> & Hh)|(He & Hh)]]].
  - change (- -53) with 53. destruct (Z.ltb_spec (a * q) (p * d)) as [Hlt|Hge].
    + apply Z.ltb_lt. apply Z.mul_lt_mono_pos_r; [lia|]. rewrite P53 in *. set (rd := round_div _ d) in *.
      clearbody rd. destruct (Z.lt_ge_cases rd M) as [|Hge]; [done|]. exfalso.
      assert (d * M <= d * rd) by (apply Z.mul_le_mono_nonneg_l; lia).
      assert (d * (2 * p * 9007199254740992 - q) <= d * (2 * q * M)) by (apply Z.mul_le_mono_nonneg_l; lia).
      assert (q * (2 * d * M) <= q * (2 * (a * 9007199254740992) + d)) by (apply Z.mul_le_mono_nonneg_l; lia).
      assert (q * d <= 100 * d) by (apply Z.mul_le_mono_nonneg_r; lia). lia.
    + apply Z.ltb_ge. apply Z.mul_le_mono_nonneg_r; [lia|]. rewrite P53 in *. set (rd := round_div _ d) in *.
      clearbody rd. destruct (Z.le_gt_cases M rd) as [|Hlt]; [done|]. exfalso.
      assert (d * rd <= d * (M - 1)) by (apply Z.mul_le_mono_nonneg_l; lia).
      assert (d * (2 * q * M) < d * (2 * p * 9007199254740992 + q)) by (apply Z.mul_lt_mono_pos_l; lia).
      assert (q * (2 * (a * 9007199254740992) - d) <= q * (2 * d * rd)) by (apply Z.mul_le_mono_nonneg_l; lia).
      assert (q * (d * rd) <= q * (d * (M - 1))) by (apply Z.mul_le_mono_nonneg_l; lia). lia.
  - change (- -52) with 52. rewrite P52, P53 in *.
    destruct (Z.ltb_spec (a * q) (p * d)) as [Hlt|Hge]; [|apply Z.ltb_ge; lia]. exfalso.
    set (rd := round_div _ d) in *. clearbody rd.
    assert (d * 9007199254740992 <= d * rd) by (apply Z.mul_le_mono_nonneg_l; lia).
    assert (q * (2 * d * rd) <= q * (2 * (a * 9007199254740992) + d)) by (apply Z.mul_le_mono_nonneg_l; lia).
    assert (q * (d * 9007199254740992) <= q * (d * rd)) by (apply Z.mul_le_mono_nonneg_l; lia).
    assert (p * d <= (q - 1) * d) by (apply Z.mul_le_mono_nonneg_r; lia).
    assert (q * d <= 100 * d) by (apply Z.mul_le_mono_nonneg_r; lia). lia.
  - assert (q * d < 2 * p * d) by (apply Z.mul_lt_mono_pos_r; lia).
    assert (q * (2 * a) < q * d) by (apply Z.mul_lt_mono_pos_l; lia). change (- -53) with 53.
    rewrite P52, P53 in *. destruct (Z.ltb_spec (a * q) (p * d)) as [Hlt|Hge]; [apply Z.ltb_lt; lia|lia].
  - assert (q * d < 2 * p * d) by (apply Z.mul_lt_mono_pos_r; lia).
    assert (q * (2 * a) < q * d) by (apply Z.mul_lt_mono_pos_l; lia).
    destruct (Z.ltb_spec (a * q) (p * d)) as [Hlt|Hge]; [|lia]. apply Z.ltb_lt.
    assert (2 ^ 54 <= 2 ^ (- e)) as He54 by (apply Z.pow_le_mono_r; lia). rewrite P53, P52, P54 in *.
    assert (M * 18014398509481984 <= M * 2 ^ (- e)) by (apply Z.mul_le_mono_nonneg_l; lia). lia.
Qed.

(** Below 2^45 decisions, the rates are compared as fractions. *)
Lemma promotion_exact a :
  0 <= Ag_Approved a -> 0 <= Ag_Refused a -> Ag_Approved a + Ag_Refused a < 2 ^ 45 ->
  SuggestsPromotion a =
    (20 <=? Ag_Approved a + Ag_Refused a) && (95 * (Ag_Approved a + Ag_Refused a) <=? 100 * Ag_Approved a).
Proof.
  intros Ha Hr Hd. unfold SuggestsPromotion, Decided, PromoteAfter.
  assert (add64 (Ag_Approved a) (Ag_Refused a) = Ag_Approved a + Ag_Refused a) as E
    by (unfold add64; apply wrap64_id, in_int64_spec; lia).
  unfold Rate, Decided. rewrite E. destruct (Z.leb_spec 20 (Ag_Approved a + Ag_Refused a)) as [H20|]; [|done].
  cbn [andb]. destruct (Z.eqb_spec (Ag_Approved a + Ag_Refused a) 0); [lia|]. unfold PromoteAbove.
  rewrite (share_below _ _ 95 100 8556839292003942); try lia; done.
Qed.

Lemma demotion_exact a :
  0 <= Ag_Approved a -> 0 <= Ag_Refused a -> Ag_Approved a + Ag_Refused a < 2 ^ 45 ->
  WarrantsDemotion a =
    (5 <=? Ag_Approved a + Ag_Refused a) && (10 * Ag_Approved a <? 8 * (Ag_Approved a + Ag_Refused a)).
Proof.
  intros Ha Hr Hd. unfold WarrantsDemotion, Decided, DemoteAfter.
  assert (add64 (Ag_Approved a) (Ag_Refused a) = Ag_Approved a + Ag_Refused a) as E
    by (unfold add64; apply wrap64_id, in_int64_spec; lia).
  unfold Rate, Decided. rewrite E. destruct (Z.leb_spec 5 (Ag_Approved a + Ag_Refused a)) as [H5|]; [|done].
  cbn [andb]. destruct (Z.eqb_spec (Ag_Approved a + Ag_Refused a) 0); [lia|]. unfold DemoteBelow.
  rewrite (share_below _ _ 8 10 7205759403792794); try lia; done.
Qed.

(** ** Demotion (watch.go) *)

Definition Window : Duration := 30 * 24 * 3600 * 1000000000.

Section Autonomy.
(** Whether the store takes a new stage. *)
Context (set_ok : AgentID -> bool).

(** One agent of the sweep: the stages written so far and how many. *)
Definition demote (stages : gmap AgentID Stage) (acc : gmap AgentID Stage * Z) (a : Agreement)
    : gmap AgentID Stage * Z :=
  let '(store, demoted) := acc in
  if negb (String.eqb (from_option id "" (stages !! Ag_Agent a)) StageAutonomous) || negb (WarrantsDemotion a)
  then acc
  else if negb (set_ok (Ag_Agent a)) then acc
  else (<[Ag_Agent a := StageCopilot]> store, demoted + 1).

(** The stages are read once, before any is written. *)
Definition Autonomy_Sweep (agreements : list Agreement) (stages : gmap AgentID Stage)
    : gmap AgentID Stage * Z :=
  fold_left (demote stages) agreements (stages, 0).

Definition Suggestions (agreements : list Agreement) (stages : gmap AgentID Stage) : list Agreement :=
  List.filter (fun a => String.eqb (from_option id "" (stages !! Ag_Agent a)) StageCopilot &&
                        SuggestsPromotion a) agreements.

Lemma demote_fold stages agreements : forall store n,
  (forall agent, store !! agent = stages !! agent \/
     (stages !! agent = Some StageAutonomous /\ store !! agent = Some StageCopilot /\
      exists a, In a agreements /\ Ag_Agent a = agent /\ WarrantsDemotion a = true)) ->
  forall rest, (forall a, In a rest -> In a agreements) ->
  forall agent, let store' := fst (fold_left (demote stages) rest (store, n)) in
    store' !! agent = stages !! agent \/
    (stages !! agent = Some StageAutonomous /\ store' !! agent = Some StageCopilot /\
     exists a, In a agreements /\ Ag_Agent a = agent /\ WarrantsDemotion a = true).
Proof.
  intros store n Hs rest. revert store n Hs. induction rest as [|a rest IH]; intros store n Hs Hin agent;
    cbn [fold_left]; [apply Hs|].
  assert (forall x, In x rest -> In x agreements) as Hin' by (intros; apply Hin; by right).
  destruct (demote stages (store, n) a) as [store1 n1] eqn:Ed. apply IH; [|done]. intros x. revert Ed.
  unfold demote. destruct (negb _ || negb _) eqn:E; [intros [= <- <-]; apply Hs|].
  destruct (set_ok (Ag_Agent a)); cbn [negb]; intros [= <- <-]; [|apply Hs].
  apply orb_false_iff in E as [Est Ew]. apply negb_false_iff in Est, Ew. apply String.eqb_eq in Est.
  destruct (decide (x = Ag_Agent a)) as [->|Hne].
  - right. rewrite lookup_insert_eq. split; [|split; [done|]].
    + destruct (stages !! Ag_Agent a) as [st|]; cbn in Est; [by rewrite Est|done].
    + exists a. split; [apply Hin; by left|done].
  - rewrite lookup_insert_ne by done. apply Hs.
Qed.
End Autonomy.

(** A sweep only ever demotes, one step, and only on what people decided:
    whatever the store refuses, an agent's stage after the sweep is what it was,
    or it went from autonomous to copilot and fewer than four fifths of at
    least five proposals were agreed with, counted exactly although the code
    compares floating-point rates; and nothing is suggested for promotion but a
    copilot agreed with on at least nineteen of twenty of at least twenty. *)
Theorem sweeps_only_demote set_ok agreements stages agent :
  Forall (fun a => 0 <= Ag_Approved a /\ 0 <= Ag_Refused a /\ Ag_Approved a + Ag_Refused a < 2 ^ 45) agreements ->
  let after := fst (Autonomy_Sweep set_ok agreements stages) in
  (after !! agent = stages !! agent \/
   (stages !! agent = Some StageAutonomous /\ after !! agent = Some StageCopilot /\
    exists a, In a agreements /\ Ag_Agent a = agent /\ 5 <= Ag_Approved a + Ag_Refused a /\
      10 * Ag_Approved a < 8 * (Ag_Approved a + Ag_Refused a))) /\
  (forall a, In a (Suggestions agreements stages) ->
     stages !! Ag_Agent a = Some StageCopilot /\ 20 <= Ag_Approved a + Ag_Refused a /\
     95 * (Ag_Approved a + Ag_Refused a) <= 100 * Ag_Approved a).
Proof.
  intros Hall. cbv zeta. rewrite List.Forall_forall in Hall. split.
  - destruct (demote_fold set_ok stages agreements stages 0 ltac:(by left) agreements ltac:(done) agent)
      as [|(H1 & H2 & a & Hin & Ha & Hw)]; [by left|]. right. split; [done|]. split; [done|]. exists a.
    destruct (Hall a Hin) as (Ha0 & Hr0 & Hb). rewrite (demotion_exact a Ha0 Hr0 Hb) in Hw. bsimp.
    split; [done|]. split; [done|]. lia.
  - intros a Hin. unfold Suggestions in Hin. apply filter_In in Hin as [Hin Hs]. bsimp. destruct Hs as [Hst Hp].
    destruct (Hall a Hin) as (Ha0 & Hr0 & Hb). rewrite (promotion_exact a Ha0 Hr0 Hb) in Hp. bsimp.
    split; [|lia]. destruct (stages !! Ag_Agent a); cbn in Hst; [by rewrite Hst|done].
Qed.

Definition overruled : list Agreement := [MkAgreement "triage" 15 4; MkAgreement "billing" 79 20].

Lemma sweeps_only_demote_witness :
  let stages := list_to_map [("triage", StageAutonomous); ("billing", StageAutonomous)] : gmap AgentID Stage in
  fst (Autonomy_Sweep (fun _ => true) overruled stages) !! "triage" = Some StageCopilot /\
  let after := fst (Autonomy_Sweep (fun _ => true) overruled stages) in
  (after !! "billing" = stages !! "billing" \/
   (stages !! "billing" = Some StageAutonomous /\ after !! "billing" = Some StageCopilot /\
    exists a, In a overruled /\ Ag_Agent a = "billing" /\ 5 <= Ag_Approved a + Ag_Refused a /\
      10 * Ag_Approved a < 8 * (Ag_Approved a + Ag_Refused a))).
Proof.
  split; [vm_compute; reflexivity|].
  apply (sweeps_only_demote (fun _ => true) overruled
           (list_to_map [("triage", StageAutonomous); ("billing", StageAutonomous)]) "billing").
  repeat constructor; cbn; lia.
Defined.

(** ** Budget alerts (alerts.go) *)

Definition Thresholds : list Z := [50; 80; 100].

Definition highestCrossed (spent ceiling : Z) : Z :=
  fold_left (fun reached t => if wrap64 (ceiling * t) <=? wrap64 (spent * 100) then t else reached) Thresholds 0.

Section Alerts.
(** What a scope spent since a time, [None] when it cannot be read, and whether
    the store takes a mark. *)
Context (spent_since : Scope -> Time -> option Consumption) (announce_ok : BudgetMark -> bool).

(** [None] is an error, [Some None] no news. *)
Definition check_ceiling (announced : gmap string BudgetMark) (now : Time) (ceiling : ScopeBudget)
    : option (option BudgetMark) :=
  if negb (SB_Enabled ceiling) || (B_Micros (SB_Budget ceiling) <=? 0) || String.eqb (SB_Period ceiling) ""
  then Some None
  else
    let since := Period_Since (SB_Period ceiling) now in
    match spent_since (SB_Scope ceiling) since with
    | None => None
    | Some spent =>
        let reached := highestCrossed (C_Micros spent) (B_Micros (SB_Budget ceiling)) in
        if Z.eqb reached 0 then Some None
        else
          let mark := MkBudgetMark (SB_Scope ceiling) reached since (C_Micros spent)
                        (B_Micros (SB_Budget ceiling)) now in
          match announced !! BudgetMark_Key mark with
          | Some said =>
              if Z.eqb (BM_Since said) since && Z.eqb (BM_CeilingMicros said) (BM_CeilingMicros mark) &&
                 (reached <=? BM_Threshold said)
              then Some None else Some (Some mark)
          | None => Some (Some mark)
          end
    end.

(** The marks stored, those announced in order, and whether it went to the end.
    What was announced before is read once, at the start. *)
Fixpoint sweep_ceilings (announced : gmap string BudgetMark) (now : Time) (ceilings : list ScopeBudget)
    (store : gmap string BudgetMark) (crossed : list BudgetMark)
    : gmap string BudgetMark * list BudgetMark * bool :=
  match ceilings with
  | [] => (store, crossed, true)
  | c :: rest =>
      match check_ceiling announced now c with
      | None => (store, crossed, false)
      | Some None => sweep_ceilings announced now rest store crossed
      | Some (Some mark) =>
          if announce_ok mark
          then sweep_ceilings announced now rest (<[BudgetMark_Key mark := mark]> store) (crossed ++ [mark])
          else (store, crossed, false)
      end
  end.

Definition Budget_Sweep (ceilings : list ScopeBudget) (store : gmap string BudgetMark) (now : Time)
    : gmap string BudgetMark * list BudgetMark * bool :=
  sweep_ceilings store now ceilings store [].
End Alerts.

(** Sweep after sweep, each with its own clock, ceilings and collaborators; the
    history is every mark announced, the newest first. A store keeps one
    ceiling per scope. *)
Definition ceiling_key (c : ScopeBudget) : string :=
  BudgetMark_Key (MkBudgetMark (SB_Scope c) 0 0 0 0 0).

Inductive swept : gmap string BudgetMark -> list BudgetMark -> Prop :=
| swept_none : swept ∅ []
| swept_next store history spent_since announce_ok ceilings now store' crossed ok :
    swept store history -> NoDup (List.map ceiling_key ceilings) ->
    Budget_Sweep spent_since announce_ok ceilings store now = (store', crossed, ok) ->
    swept store' (rev crossed ++ history).

(** The last mark of a key. *)
Definition last_mark (key : string) (history : list BudgetMark) : option BudgetMark :=
  List.find (fun m => String.eqb (BudgetMark_Key m) key) history.

(** A mark is news after the history before it: another period, another amount
    or a higher threshold; and the spending reached it. *)
Definition news (m : BudgetMark) (before : list BudgetMark) : Prop :=
  In (BM_Threshold m) Thresholds /\
  (0 <= BM_SpentMicros m < 2 ^ 56 -> 0 <= BM_CeilingMicros m < 2 ^ 56 ->
     BM_CeilingMicros m * BM_Threshold m <= BM_SpentMicros m * 100 /\
     Forall (fun t => BM_CeilingMicros m * t <= BM_SpentMicros m * 100 -> t <= BM_Threshold m) Thresholds) /\
  forall said, last_mark (BudgetMark_Key m) before = Some said ->
    BM_Since said <> BM_Since m \/ BM_CeilingMicros said <> BM_CeilingMicros m \/
    BM_Threshold said < BM_Threshold m.

Fixpoint all_news (history : list BudgetMark) : Prop :=
  match history with [] => True | m :: before => news m before /\ all_news before end.

Lemma highestCrossed_exact spent ceiling :
  0 <= spent < 2 ^ 56 -> 0 <= ceiling < 2 ^ 56 -> highestCrossed spent ceiling <> 0 ->
  ceiling * highestCrossed spent ceiling <= spent * 100 /\
  Forall (fun t => ceiling * t <= spent * 100 -> t <= highestCrossed spent ceiling) Thresholds.
Proof.
  intros Hs Hc. unfold highestCrossed, Thresholds. cbn [fold_left].
  rewrite !wrap64_id by (apply in_int64_spec; lia).
  destruct (Z.leb_spec (ceiling * 50) (spent * 100)); destruct (Z.leb_spec (ceiling * 80) (spent * 100));
    destruct (Z.leb_spec (ceiling * 100) (spent * 100)); intros Hne; (split; [lia|repeat constructor; lia]).
Qed.

Lemma highestCrossed_known spent ceiling :
  highestCrossed spent ceiling <> 0 -> In (highestCrossed spent ceiling) Thresholds.
Proof. unfold highestCrossed, Thresholds. cbn. repeat case_match; auto. Qed.

Lemma check_ceiling_mark spent_since announced now c mark :
  check_ceiling spent_since announced now c = Some (Some mark) ->
  BudgetMark_Key mark = ceiling_key c /\
  forall before, announced !! ceiling_key c = last_mark (ceiling_key c) before -> news mark before.
Proof.
  unfold check_ceiling. case_match; [done|]. destruct (spent_since _ _) as [spent|]; [|done]. cbv zeta.
  set (reached := highestCrossed (C_Micros spent) (B_Micros (SB_Budget c))).
  destruct (Z.eqb_spec reached 0) as [|Hne]; [done|].
  set (m := MkBudgetMark _ _ _ _ _ _). change (BudgetMark_Key m) with (ceiling_key c). intros Hm.
  assert (mark = m) as -> by (destruct (announced !! ceiling_key c); [case_match; congruence|congruence]).
  split; [done|]. intros before Hb. split; [by apply highestCrossed_known|].
  split; [intros H1 H2; by apply highestCrossed_exact|].
  change (BudgetMark_Key m) with (ceiling_key c). intros said Hsaid. rewrite Hb, Hsaid in Hm.
  destruct (Z.eqb_spec (BM_Since said) (BM_Since m)); [|by left].
  destruct (Z.eqb_spec (BM_CeilingMicros said) (BM_CeilingMicros m)); [|by right; left].
  right; right. change (reached <=? BM_Threshold said) with (BM_Threshold m <=? BM_Threshold said) in Hm.
  destruct (Z.leb_spec (BM_Threshold m) (BM_Threshold said)); [|done].
  cbn in Hm. replace (_ =? _) with true in Hm by (symmetry; by apply Z.eqb_eq).
  replace (BM_CeilingMicros said =? _) with true in Hm by (symmetry; by apply Z.eqb_eq). done.
Qed.

Lemma last_mark_cons key m h :
  last_mark key (m :: h) = if String.eqb (BudgetMark_Key m) key then Some m else last_mark key h.
Proof. done. Qed.

(** The store holds the last mark of every key, and a key not yet swept is as
    the sweep found it. *)
Lemma sweep_spec spent_since announce_ok announced now ceilings : forall store crossed history store' crossed' ok,
  NoDup (List.map ceiling_key ceilings) ->
  (forall key, store !! key = last_mark key (rev crossed ++ history)) ->
  (forall c, In c ceilings -> announced !! ceiling_key c = store !! ceiling_key c) ->
  all_news (rev crossed ++ history) ->
  sweep_ceilings spent_since announce_ok announced now ceilings store crossed = (store', crossed', ok) ->
  (forall key, store' !! key = last_mark key (rev crossed' ++ history)) /\ all_news (rev crossed' ++ history).
Proof.
  induction ceilings as [|c rest IH]; intros store crossed history store' crossed' ok Hn Hs Ha Hall;
    cbn [sweep_ceilings]; [by intros [= <- <- <-]|].
  apply NoDup_cons in Hn as [Hc Hn].
  destruct (check_ceiling spent_since announced now c) as [[mark|]|] eqn:E; [| |by intros [= <- <- <-]].
  2: { apply IH; auto. intros; apply Ha; by right. }
  destruct (announce_ok mark); [|by intros [= <- <- <-]].
  apply check_ceiling_mark in E as [Ek Hnews].
  specialize (Hnews (rev crossed ++ history)%list). rewrite <- Hs in Hnews. specialize (Hnews (Ha c (or_introl eq_refl))).
  apply IH; [done| | |].
  - intros key. rewrite rev_unit. cbn [app]. rewrite last_mark_cons, <- Hs.
    destruct (String.eqb_spec (BudgetMark_Key mark) key) as [->|]; [by rewrite lookup_insert_eq|by rewrite lookup_insert_ne].
  - intros c' Hc'. rewrite lookup_insert_ne; [apply Ha; by right|]. rewrite Ek. intros Heq. apply Hc.
    rewrite Heq. apply list_elem_of_In. by apply in_map.
  - rewrite rev_unit. cbn. done.
Qed.

(** A crossing is announced once: through any sequence of sweeps, whatever
    they could read or write, every mark announced names the highest threshold
    its spending reached, computed at 64 bits without overflow below 2^56
    micros, and differs from the last one announced for the same scope by its
    period, by the configured amount, or by a higher threshold. *)
Theorem crossings_are_announced_once store history :
  swept store history -> all_news history /\ forall key, store !! key = last_mark key history.
Proof.
  induction 1 as [|store history spent_since announce_ok ceilings now store' crossed ok Hs [Hall Hst] Hn E].
  - split; [done|]. intros key. by rewrite lookup_empty.
  - destruct (sweep_spec _ _ _ _ _ _ [] history _ _ _ Hn Hst ltac:(done) Hall E) as [H1 H2]. by split.
Qed.

Definition monthly : ScopeBudget :=
  MkScopeBudget "area" (MkScope "acme" "cx") PeriodMonthly (MkBudget 1000 0 0 0 0) true "ana" 0.

Definition at_spend (micros : Z) : Scope -> Time -> option Consumption :=
  fun _ _ => Some (MkConsumption micros 0 0 0 0).

Definition after_one : gmap string BudgetMark * list BudgetMark * bool :=
  Budget_Sweep (at_spend 600) (fun _ => true) [monthly] ∅ (unix_epoch + 1).
Definition after_two : gmap string BudgetMark * list BudgetMark * bool :=
  Budget_Sweep (at_spend 990) (fun _ => true) [monthly] after_one.1.1 (unix_epoch + 2).

Lemma crossings_are_announced_once_witness :
  List.map BM_Threshold (rev after_two.1.2 ++ rev after_one.1.2)%list = [80; 50] /\
  all_news (rev after_two.1.2 ++ (rev after_one.1.2 ++ []))%list.
Proof.
  split; [vm_compute; reflexivity|].
  apply (crossings_are_announced_once after_two.1.1).
  eapply (swept_next after_one.1.1 (rev after_one.1.2 ++ [])%list (at_spend 990) (fun _ => true) [monthly]
            (unix_epoch + 2) _ _ after_two.2).
  - eapply (swept_next ∅ [] (at_spend 600) (fun _ => true) [monthly] (unix_epoch + 1) _ _ after_one.2);
      [constructor|apply NoDup_singleton|vm_compute; reflexivity].
  - apply NoDup_singleton.
  - vm_compute. reflexivity.
Defined.
