(* ===== verification/Memories.v ===== *)
(** * The memories agents keep

    src/internal/domain/memory.go, memory_identity.go and memory_evidence.go,
    and the store of src/internal/memory: what one write leaves behind
    (merge.go, evidence_budget.go, clone.go), what a proposal becomes
    (prepare.go, suggestion.go, accept.go, secret.go) and the in-memory store
    (memory.go, memory_suggest.go, reactivate.go, match.go). The store's mutex
    makes each operation one step; an operation is a function from the store to
    the store and its answer. The wall clock and a cancelled context are
    arguments. A slice and its clone are one value here: no operation writes
    into a slice it did not build. *)

From Stdlib Require Import ZArith Lia Ascii String.
From stdpp Require Import base list strings gmap.
From S2P Require Import Prelude GoStrings Json Regexp Domain Sha256 Ports.

Local Open Scope string_scope.

(** ** Vocabulary (domain/memory.go) *)

Definition MaxMemoryKindBytes : nat := 64.
Definition MaxMemorySubjectBytes : nat := 200.
Definition MaxMemorySignatureBytes : nat := 200.
Definition MaxMemoryClaimBytes : nat := 1200.
Definition MaxMemoryFindLimit : Z := 10.
Definition MaxMemoryListLimit : Z := 100.
Definition MaxMemorySuggestLimit : Z := 100.
Definition ArtifactMemorySuggestion : string := "memory_suggestion".

Abbreviation MemoryStatus := string (only parsing).
Definition MemoryActive : MemoryStatus := "active".
Definition MemoryDisabled : MemoryStatus := "disabled".
Definition MemoryExpired : MemoryStatus := "expired".
Definition MemorySourceErased : MemoryStatus := "source_erased".

Definition MemoryStatus_Valid (s : MemoryStatus) : bool :=
  existsb (String.eqb s) [MemoryActive; MemoryDisabled; MemoryExpired; MemorySourceErased].

Abbreviation MemorySuggestionStatus := string (only parsing).
Definition MemorySuggestionPending : MemorySuggestionStatus := "pending".
Definition MemorySuggestionAccepted : MemorySuggestionStatus := "accepted".
Definition MemorySuggestionDismissed : MemorySuggestionStatus := "dismissed".
Definition MemorySuggestionAutoConfirmed : MemorySuggestionStatus := "auto_confirmed".
Definition MemorySuggestionCovered : MemorySuggestionStatus := "covered".
Definition MemorySuggestionSourceErased : MemorySuggestionStatus := "source_erased".

Definition MemorySuggestionStatus_Valid (s : MemorySuggestionStatus) : bool :=
  existsb (String.eqb s)
    [MemorySuggestionPending; MemorySuggestionAccepted; MemorySuggestionDismissed;
     MemorySuggestionAutoConfirmed; MemorySuggestionCovered; MemorySuggestionSourceErased].

Record MemoryEvidence := MkMemoryEvidence {
  ME_RunID : RunID;
  ME_SourceRunID : RunID;
  ME_Seq : Z;
  ME_Artifact : string;
  ME_Digest : string;
  ME_Labels : Labels
}.

#[export] Instance MemoryEvidence_eta : Eta MemoryEvidence := fun e =>
  MkMemoryEvidence (ME_RunID e) (ME_SourceRunID e) (ME_Seq e) (ME_Artifact e) (ME_Digest e) (ME_Labels e).
#[export] Instance MemoryEvidence_eq_dec : EqDecision MemoryEvidence.
Proof. solve_decision. Defined.

Record MemoryAssertion := MkMemoryAssertion {
  MA_ID : string;
  MA_Scope : Scope;
  MA_AgentID : AgentID;
  MA_Kind : string;
  MA_Subject : string;
  MA_Signature : string;
  MA_Claim : string;
  MA_Evidence : list MemoryEvidence;
  MA_Observations : Z;
  MA_Confirmed : Z;
  MA_Labels : Labels;
  MA_Status : MemoryStatus;
  MA_ExpiresAt : option Time;
  MA_CreatedBy : UserID;
  MA_CreatedAt : Time;
  MA_UpdatedBy : UserID;
  MA_UpdatedAt : Time
}.

#[export] Instance MemoryAssertion_eta : Eta MemoryAssertion := fun a =>
  MkMemoryAssertion (MA_ID a) (MA_Scope a) (MA_AgentID a) (MA_Kind a) (MA_Subject a) (MA_Signature a)
    (MA_Claim a) (MA_Evidence a) (MA_Observations a) (MA_Confirmed a) (MA_Labels a) (MA_Status a)
    (MA_ExpiresAt a) (MA_CreatedBy a) (MA_CreatedAt a) (MA_UpdatedBy a) (MA_UpdatedAt a).
#[export] Instance MemoryAssertion_eq_dec : EqDecision MemoryAssertion.
Proof. solve_decision. Defined.

Record MemorySuggestion := MkMemorySuggestion {
  MS_ID : string;
  MS_AssertionID : string;
  MS_Scope : Scope;
  MS_AgentID : AgentID;
  MS_Kind : string;
  MS_Subject : string;
  MS_Signature : string;
  MS_Claim : string;
  MS_Evidence : list MemoryEvidence;
  MS_Observations : Z;
  MS_Labels : Labels;
  MS_Status : MemorySuggestionStatus;
  MS_CoveredBy : string;
  MS_ExpiresAt : option Time;
  MS_CreatedBy : UserID;
  MS_CreatedAt : Time;
  MS_UpdatedBy : UserID;
  MS_UpdatedAt : Time
}.

#[export] Instance MemorySuggestion_eta : Eta MemorySuggestion := fun s =>
  MkMemorySuggestion (MS_ID s) (MS_AssertionID s) (MS_Scope s) (MS_AgentID s) (MS_Kind s) (MS_Subject s)
    (MS_Signature s) (MS_Claim s) (MS_Evidence s) (MS_Observations s) (MS_Labels s) (MS_Status s)
    (MS_CoveredBy s) (MS_ExpiresAt s) (MS_CreatedBy s) (MS_CreatedAt s) (MS_UpdatedBy s) (MS_UpdatedAt s).
#[export] Instance MemorySuggestion_eq_dec : EqDecision MemorySuggestion.
Proof. solve_decision. Defined.

Inductive MemorySuggestResult :=
  MemorySuggestPending | MemorySuggestAutoConfirmed | MemorySuggestAlreadyActive | MemorySuggestIgnored.

(** What a proposal came to. The suggestion is absent where the code leaves
    the zero value. *)
Record MemorySuggestionOutcome := MkMemorySuggestionOutcome {
  MO_Suggestion : option MemorySuggestion;
  MO_Assertion : option MemoryAssertion;
  MO_Result : MemorySuggestResult
}.

Record MemoryQuery := MkMemoryQuery {
  MQ_Scope : Scope;
  MQ_AgentID : AgentID;
  MQ_Kind : string;
  MQ_Subject : string;
  MQ_Signature : string;
  MQ_Search : string;
  MQ_Limit : Z;
  MQ_Now : Time
}.

Inductive MemoryError :=
| ErrMemoryContext
| ErrMemoryNotFound
| ErrMemoryInvalid
| ErrMemoryTerminal (status : MemoryStatus)
| ErrCovered (id : string)
| ErrMergeOrigin
| ErrEvidenceCannotExplain (label : string)
| ErrCanonicalConflict (first second key : string)
| ErrSecret
| ErrSecretSuspected
| ErrMovedMeanwhile
| ErrEvidenceInvalid
| ErrEvidenceSourceAbsent
| ErrEvidenceStore
| ErrNoProgress.

(** ** Learning policies *)

Definition AutoConfirms (p : MemoryLearningPolicy) (labels : Labels) : bool :=
  String.eqb (ML_Mode (MemoryLearningPolicy_Normalize p)) MemoryLearningAutoConfirm &&
  negb (Labels_HasAny labels [LabelUntrusted]).

Definition ForSuggestion (p : MemoryLearningPolicy) (labels : Labels) : MemoryLearningPolicy :=
  let p := MemoryLearningPolicy_Normalize p in
  if String.eqb (ML_Mode p) MemoryLearningAutoConfirm && Labels_HasAny labels [LabelUntrusted]
  then MkMemoryLearningPolicy MemoryLearningReview (ML_MinObservations p) (ML_TTLDays p)
  else p.

Definition Policy_ExpiresAt (p : MemoryLearningPolicy) (now : Time) : option Time :=
  let p := MemoryLearningPolicy_Normalize p in
  if String.eqb (ML_Mode p) MemoryLearningOff then None
  else Some (Time_Add now (ML_TTLDays p * (24 * 3600 * 1000000000)))%Z.

Definition MemoryLearningPolicy_Validate (p : MemoryLearningPolicy) : bool :=
  if negb (String.eqb (ML_Mode p) "") && negb (MemoryLearningMode_Valid (ML_Mode p)) then false
  else
    let p := MemoryLearningPolicy_Normalize p in
    if String.eqb (ML_Mode p) MemoryLearningOff then true
    else ((2 <=? ML_MinObservations p) && (ML_MinObservations p <=? MaxMemoryLearningMinObservations) &&
          (1 <=? ML_TTLDays p) && (ML_TTLDays p <=? MaxMemoryLearningTTLDays))%Z.

(** ** Validation: [true] where the code returns no error *)

Definition memoryKindPattern : re :=
  RAll [RBegin; RClass (fun c => lower_letter c || digit_char c);
        RAtMost 63 (RClass (or_one_of (fun c => lower_letter c || digit_char c) "_-")); REnd].

Definition validMemoryKind (v : string) : bool :=
  negb (String.eqb v "") && (String.length v <=? MaxMemoryKindBytes)%nat && MatchString memoryKindPattern v.

#[global] Arguments validMemoryKind v : simpl never.
#[global] Arguments trim_space s : simpl never.

(** A text that is there and fits. *)
Definition fits (limit : nat) (v : string) : bool :=
  negb (String.eqb (trim_space v) "") && (String.length v <=? limit)%nat.

Definition ValidateIdentity (a : MemoryAssertion) : bool :=
  Scope_Valid (MA_Scope a) && validMemoryKind (MA_Kind a) &&
  fits MaxMemorySubjectBytes (MA_Subject a) && fits MaxMemorySignatureBytes (MA_Signature a).

Definition cites (ev : MemoryEvidence) : bool :=
  negb (String.eqb (ME_RunID ev) "") && negb (String.eqb (trim_space (ME_Artifact ev)) "") &&
  negb (String.eqb (trim_space (ME_Digest ev)) "").

Definition evidence_count (l : list MemoryEvidence) : Z := Z.of_nat (List.length l).

Definition MemoryAssertion_Validate (a : MemoryAssertion) : bool :=
  ValidateIdentity a && fits MaxMemoryClaimBytes (MA_Claim a) &&
  ((1 <=? evidence_count (MA_Evidence a)) && (evidence_count (MA_Evidence a) <=? MaxMemoryEvidence))%Z &&
  forallb cites (MA_Evidence a) &&
  ((0 <=? MA_Observations a) && (0 <=? MA_Confirmed a) && (MA_Confirmed a <=? MA_Observations a))%Z &&
  (String.eqb (MA_Status a) "" || MemoryStatus_Valid (MA_Status a)).

(** The assertion a suggestion is validated as. *)
Definition suggestion_as_assertion (s : MemorySuggestion) : MemoryAssertion :=
  MkMemoryAssertion (MS_AssertionID s) (MS_Scope s) (MS_AgentID s) (MS_Kind s) (MS_Subject s)
    (MS_Signature s) (MS_Claim s) (MS_Evidence s) (MS_Observations s) 0 (MS_Labels s) MemoryActive
    (MS_ExpiresAt s) (MS_CreatedBy s) (MS_CreatedAt s) (MS_UpdatedBy s) (MS_UpdatedAt s).

Definition MemorySuggestion_Validate (s : MemorySuggestion) : bool :=
  MemoryAssertion_Validate (suggestion_as_assertion s) &&
  negb (String.eqb (MS_ID s) "") && negb (String.eqb (MS_AssertionID s) "") &&
  (String.eqb (MS_Status s) "" || MemorySuggestionStatus_Valid (MS_Status s)).

Definition bounded_limit (most limit : Z) : Z :=
  if (limit <=? 0)%Z then most else if (most <? limit)%Z then most else limit.

Definition MemoryFindLimit : Z -> Z := bounded_limit MaxMemoryFindLimit.
Definition MemorySuggestLimit : Z -> Z := bounded_limit MaxMemorySuggestLimit.
Definition MemoryListLimit : Z -> Z := bounded_limit MaxMemoryListLimit.

(** ** Identity *)

(** Every part followed by a zero byte. *)
Definition memory_parts (parts : list string) : string :=
  String.concat "" (List.map (fun v => v +:+ String "000" "") parts).

Definition short_digest (parts : list string) : string :=
  String.substring 0 24 (hex_encode (sha256 (memory_parts parts))).

(** The fields that name an assertion. *)
Definition named (a : MemoryAssertion) : list string :=
  [Company (MA_Scope a); Area (MA_Scope a); MA_AgentID a; MA_Kind a; MA_Subject a; MA_Signature a].

Definition MemoryAssertionID (a : MemoryAssertion) : string := "mem_" +:+ short_digest (named a).

Definition MemorySuggestionID (s : MemorySuggestion) : string :=
  "mems_" +:+ short_digest
    [Company (MS_Scope s); Area (MS_Scope s); MS_AgentID s; MS_Kind s; MS_Subject s; MS_Signature s;
     MS_Claim s].

Lemma MemoryAssertionID_named a b : named a = named b -> MemoryAssertionID a = MemoryAssertionID b.
Proof. unfold MemoryAssertionID. by intros ->. Qed.

#[global] Arguments MemoryAssertionID a : simpl never.
#[global] Arguments MemorySuggestionID s : simpl never.

Definition MemoryKindFact : string := "fact".

Definition DerivedMemoryIdentity (subject : string) : string * string :=
  (MemoryKindFact, trim_space subject).

Section Spelling.
Context {U : Unicode}.

Definition canonicalField (v : string) : string := ToLower (join_str " " (Fields (NFC v))).

Definition CanonicalIdentityKey (a : MemoryAssertion) : string :=
  "v1:sha256:" +:+ hex_encode (sha256 (memory_parts (List.map canonicalField (named a)))).
End Spelling.

#[global] Arguments CanonicalIdentityKey {U} a : simpl never.

(** ** Citations (domain/memory_evidence.go) *)

Definition SourceRun (e : MemoryEvidence) : RunID :=
  if String.eqb (ME_SourceRunID e) "" then ME_RunID e else ME_SourceRunID e.

Definition Evidence_Key (e : MemoryEvidence) : string :=
  memory_parts [ME_RunID e; SourceRun e; print_Z (ME_Seq e); ME_Artifact e; ME_Digest e].

#[global] Arguments Evidence_Key e : simpl never.

(** A citation folded into those that are there: the labels of a citation
    already known are joined with its own. *)
Fixpoint fold_into (ev : MemoryEvidence) (out : list MemoryEvidence) : option (list MemoryEvidence) :=
  match out with
  | [] => None
  | o :: rest =>
      if String.eqb (Evidence_Key o) (Evidence_Key ev)
      then Some (o <| ME_Labels := Labels_Union (ME_Labels o) (ME_Labels ev) |> :: rest)
      else cons o <$> fold_into ev rest
  end.

(** [boundedEvidence] stops taking new citations at [cap]; without one this is
    [boundedEvidenceOf]. *)
Definition fold_citation (cap : option nat) (out : list MemoryEvidence) (ev : MemoryEvidence)
    : list MemoryEvidence :=
  match fold_into ev out with
  | Some out => out
  | None =>
      if from_option (fun c => (List.length out =? c)%nat) false cap then out else (out ++ [ev])%list
  end.

Definition MaxEvidence : nat := Z.to_nat MaxMemoryEvidence.

Definition boundedEvidence (l : list MemoryEvidence) : list MemoryEvidence :=
  fold_left (fold_citation (Some MaxEvidence)) l [].

Definition boundedEvidenceOf (l : list MemoryEvidence) : list MemoryEvidence :=
  fold_left (fold_citation None) l [].

(** ** Which citations a memory keeps (memory/evidence_budget.go) *)

Definition carried (label : string) (l : list MemoryEvidence) : bool :=
  existsb (fun ev => Labels_Has (ME_Labels ev) label) l.

Definition provenanceLabels (evidence : list MemoryEvidence) (labels : Labels) : list string :=
  List.filter (fun label => carried label evidence) labels.

Definition is_taken (taken : gset string) (ev : MemoryEvidence) : bool :=
  bool_decide (Evidence_Key ev ∈ taken).

(** One citation per label that some citation carries. *)
Fixpoint keep_explaining (all : list MemoryEvidence) (labels : list string)
    (kept : list MemoryEvidence) (taken : gset string)
    : result MemoryError (list MemoryEvidence * gset string) :=
  match labels with
  | [] => Ok (kept, taken)
  | label :: rest =>
      if carried label kept then keep_explaining all rest kept taken
      else match List.find (fun ev => negb (is_taken taken ev) && Labels_Has (ME_Labels ev) label) all with
           | None => keep_explaining all rest kept taken
           | Some ev =>
               if (List.length kept =? MaxEvidence)%nat then Err (ErrEvidenceCannotExplain label)
               else keep_explaining all rest (kept ++ [ev])%list ({[Evidence_Key ev]} ∪ taken)
           end
  end.

(** The rest of the budget, the most recent first. *)
Fixpoint keep_recent (all : list MemoryEvidence) (kept : list MemoryEvidence) (taken : gset string)
    : list MemoryEvidence :=
  match all with
  | [] => kept
  | ev :: rest =>
      if (List.length kept =? MaxEvidence)%nat then kept
      else if is_taken taken ev then keep_recent rest kept taken
      else keep_recent rest (kept ++ [ev])%list ({[Evidence_Key ev]} ∪ taken)
  end.

Definition mergedEvidence (stored incoming : list MemoryEvidence) (labels : Labels)
    : result MemoryError (list MemoryEvidence) :=
  let all := boundedEvidenceOf (incoming ++ stored) in
  if (List.length all <=? MaxEvidence)%nat then Ok all
  else
    '(kept, taken) ← keep_explaining all (provenanceLabels all labels) [] ∅;
    Ok (keep_recent all kept taken).

(** ** What one write leaves behind (memory/merge.go) *)

Definition DefaultMemoryTTL : Duration := (30 * 24 * 3600 * 1000000000)%Z.

Abbreviation MergeOrigin := string (only parsing).
Definition OriginHuman : MergeOrigin := "human".
Definition OriginAccept : MergeOrigin := "accept".
Definition OriginAutoConfirm : MergeOrigin := "auto_confirm".

Definition MergeOrigin_Valid (o : MergeOrigin) : bool :=
  existsb (String.eqb o) [OriginHuman; OriginAccept; OriginAutoConfirm].

Inductive MergeOutcome := Inserted | Merged | Covered.

Record MergeInput := MkMergeInput {
  MI_Incoming : MemoryAssertion;
  MI_Stored : option MemoryAssertion;
  MI_Covering : option MemoryAssertion;
  MI_Origin : MergeOrigin;
  MI_Now : Time
}.

Definition learnedSomething (origin : MergeOrigin) (stored merged : list MemoryEvidence) : bool :=
  if String.eqb origin OriginAccept then false
  else existsb (fun ev => negb (existsb (fun s => String.eqb (Evidence_Key s) (Evidence_Key ev)) stored))
         merged.

Definition mergedExpiry (origin : MergeOrigin) (now : Time) (stored : MemoryAssertion)
    (merged : list MemoryEvidence) : option Time :=
  if negb (learnedSomething origin (MA_Evidence stored) merged) then MA_ExpiresAt stored
  else
    let renewed := Time_Add now DefaultMemoryTTL in
    match MA_ExpiresAt stored with
    | Some t => if Time_After t renewed then Some t else Some renewed
    | None => Some renewed
    end.

(** The stored row as a write over it leaves it. *)
Definition merged_row (i : MergeInput) (stored : MemoryAssertion) (evidence : list MemoryEvidence)
    : MemoryAssertion :=
  let incoming := MI_Incoming i in
  stored <| MA_Claim := MA_Claim incoming |>
         <| MA_Labels := Labels_Union (MA_Labels stored) (MA_Labels incoming) |>
         <| MA_Observations := Z.max (MA_Observations stored) (MA_Observations incoming) |>
         <| MA_Confirmed := Z.max (MA_Confirmed stored) (MA_Confirmed incoming) |>
         <| MA_UpdatedBy := MA_UpdatedBy incoming |>
         <| MA_UpdatedAt := MI_Now i |>
         <| MA_Evidence := evidence |>
         <| MA_ExpiresAt := mergedExpiry (MI_Origin i) (MI_Now i) stored evidence |>.

Definition Merge (i : MergeInput) : result MemoryError (MemoryAssertion * MergeOutcome) :=
  if negb (MergeOrigin_Valid (MI_Origin i)) then Err ErrMergeOrigin
  else match MI_Stored i with
       | None =>
           match MI_Covering i with
           | Some covering => Ok (covering, Covered)
           | None => Ok (MI_Incoming i, Inserted)
           end
       | Some stored =>
           if negb (String.eqb (MA_Status stored) MemoryActive) then Err (ErrMemoryTerminal (MA_Status stored))
           else
             evidence ← mergedEvidence (MA_Evidence stored) (MA_Evidence (MI_Incoming i))
                          (Labels_Union (MA_Labels stored) (MA_Labels (MI_Incoming i)));
             Ok (merged_row i stored evidence, Merged)
       end.

Definition coveredBy (covering : MemoryAssertion) : MemoryError := ErrCovered (MA_ID covering).

Definition oneOf (found : list MemoryAssertion) (key : string)
    : result MemoryError (option MemoryAssertion) :=
  match found with
  | [] => Ok None
  | [a] => Ok (Some a)
  | a :: b :: _ => Err (ErrCanonicalConflict (MA_ID a) (MA_ID b) key)
  end.

(** ** What a write becomes (memory/prepare.go, suggestion.go) *)

Definition mem_clean (v : string) : string := trim_space v.

Definition cleaned_assertion (a : MemoryAssertion) : MemoryAssertion :=
  a <| MA_Kind := mem_clean (MA_Kind a) |> <| MA_Subject := mem_clean (MA_Subject a) |>
    <| MA_Signature := mem_clean (MA_Signature a) |> <| MA_Claim := mem_clean (MA_Claim a) |>
    <| MA_Status := if String.eqb (MA_Status a) "" then MemoryActive else MA_Status a |>.

Definition stamped_assertion (a : MemoryAssertion) (by_ : UserID) (now : Time) : MemoryAssertion :=
  a <| MA_ID := MemoryAssertionID a |>
    <| MA_CreatedBy := by_ |> <| MA_UpdatedBy := by_ |>
    <| MA_CreatedAt := now |> <| MA_UpdatedAt := now |>
    <| MA_Labels := Labels_Union (MA_Labels a) (ScopeLabels (MA_Scope a)) |>.

Definition prepareAssertion (a : MemoryAssertion) (by_ : UserID) (now : Time)
    : result MemoryError MemoryAssertion :=
  let a := cleaned_assertion a in
  _ ← guard_err (MemoryAssertion_Validate a) ErrMemoryInvalid;
  Ok (stamped_assertion a by_ now).

(** The assertion whose identity a suggestion proposes. *)
Definition proposed (s : MemorySuggestion) : MemoryAssertion :=
  MkMemoryAssertion "" (MS_Scope s) (MS_AgentID s) (MS_Kind s) (MS_Subject s) (MS_Signature s)
    (MS_Claim s) (MS_Evidence s) (MS_Observations s) 0 [] MemoryActive None "" 0 "" 0.

(** The proposal cleaned, named and stamped. *)
Definition stamped_proposal (s : MemorySuggestion) (by_ : UserID) (now : Time) : MemorySuggestion :=
  let subject := mem_clean (MS_Subject s) in
  let kind := fst (DerivedMemoryIdentity subject) in
  let signature := snd (DerivedMemoryIdentity subject) in
  let s := s <| MS_Subject := subject |> <| MS_Kind := kind |> <| MS_Signature := signature |>
             <| MS_Claim := mem_clean (MS_Claim s) |>
             <| MS_Status := if String.eqb (MS_Status s) "" then MemorySuggestionPending else MS_Status s |>
             <| MS_Observations := if (MS_Observations s <=? 0)%Z then 1%Z else MS_Observations s |> in
  let s := s <| MS_AssertionID := MemoryAssertionID (proposed s) |> in
  s <| MS_ID := MemorySuggestionID s |>
    <| MS_CreatedBy := by_ |> <| MS_UpdatedBy := by_ |>
    <| MS_CreatedAt := now |> <| MS_UpdatedAt := now |>
    <| MS_Labels := Labels_Union (MS_Labels s) (ScopeLabels (MS_Scope s)) |>
    <| MS_Evidence := boundedEvidence (MS_Evidence s) |>.

Definition prepareSuggestion (s : MemorySuggestion) (by_ : UserID) (now : Time)
    : result MemoryError MemorySuggestion :=
  let s := stamped_proposal s by_ now in
  _ ← guard_err (MemorySuggestion_Validate s) ErrMemoryInvalid;
  Ok s.

#[global] Arguments prepareSuggestion s by_ now : simpl never.
#[global] Arguments stamped_proposal s by_ now : simpl never.

Definition hasNewEvidenceRun (old next : list MemoryEvidence) : bool :=
  existsb (fun ev => negb (existsb (fun o => String.eqb (ME_RunID o) (ME_RunID ev)) old)) next.

Definition mergeSuggestion (old next : MemorySuggestion) : MemorySuggestion :=
  if negb (String.eqb (MS_Status old) MemorySuggestionPending) then old
  else next <| MS_CreatedAt := MS_CreatedAt old |> <| MS_CreatedBy := MS_CreatedBy old |>
            <| MS_Observations := if hasNewEvidenceRun (MS_Evidence old) (MS_Evidence next)
                                  then add64 (MS_Observations old) 1 else MS_Observations old |>
            <| MS_Labels := Labels_Union (MS_Labels old) (MS_Labels next) |>
            <| MS_Evidence := boundedEvidence (MS_Evidence old ++ MS_Evidence next) |>.

Definition assertionFromSuggestion (s : MemorySuggestion) (confirmed : Z) (by_ : UserID) (now : Time)
    : MemoryAssertion :=
  MkMemoryAssertion (MS_AssertionID s) (MS_Scope s) (MS_AgentID s) (MS_Kind s) (MS_Subject s)
    (MS_Signature s) (MS_Claim s) (MS_Evidence s) (MS_Observations s) confirmed (MS_Labels s)
    MemoryActive (MS_ExpiresAt s) by_ now by_ now.

Definition identitiesForSuggestion (s : MemorySuggestion) : list MemoryAssertion :=
  let own := MkMemoryAssertion "" (MS_Scope s) (MS_AgentID s) (MS_Kind s) (MS_Subject s)
               (MS_Signature s) "" [] 0 0 [] "" None "" 0 "" 0 in
  let own := own <| MA_ID := MemoryAssertionID own |> in
  if String.eqb (MS_AgentID s) "" then [own]
  else
    let shared := own <| MA_AgentID := "" |> in
    [own; shared <| MA_ID := MemoryAssertionID shared |>].

(** ** Accepting (memory/accept.go) *)

Record AcceptInput := MkAcceptInput {
  AI_ID : string;
  AI_Scope : Scope;
  AI_By : UserID;
  AI_Reason : string;
  AI_Claim : option string;
  AI_Override : bool;
  AI_Now : Time
}.

Definition AcceptInput_validate (i : AcceptInput) : bool :=
  negb (String.eqb (trim_space (AI_Reason i)) "") &&
  from_option (fits MaxMemoryClaimBytes) true (AI_Claim i).

(** ** When a memory can be read (memory/filter.go, clone.go) *)

Definition expired (a : MemoryAssertion) (now : Time) : bool :=
  match MA_ExpiresAt a with Some t => negb (Time_After t now) | None => false end.

Definition effectiveStatus (a : MemoryAssertion) (now : Time) : MemoryAssertion :=
  if String.eqb (MA_Status a) MemoryActive && expired a now then a <| MA_Status := MemoryExpired |> else a.

Definition nowOrWall (wall t : Time) : Time := if Time_IsZero t then wall else t.

(** ** The store (memory/memory.go) *)

Record MemoryStore := MkMemoryStore {
  mem_values : gmap string MemoryAssertion;
  mem_suggestions : gmap string MemorySuggestion
}.

#[export] Instance MemoryStore_eta : Eta MemoryStore := fun m =>
  MkMemoryStore (mem_values m) (mem_suggestions m).

Definition NewMemoryStore : MemoryStore := MkMemoryStore ∅ ∅.

Definition systemMemory : UserID := "system:memory".

Definition put_value (m : MemoryStore) (id : string) (a : MemoryAssertion) : MemoryStore :=
  m <| mem_values := <[id := a]> (mem_values m) |>.

Definition put_suggestion (m : MemoryStore) (s : MemorySuggestion) : MemoryStore :=
  m <| mem_suggestions := <[MS_ID s := s]> (mem_suggestions m) |>.

Definition rows (m : MemoryStore) : list MemoryAssertion := (map_to_list (mem_values m)).*2.

Section Store.
Context {U : Unicode}.

(** Whether a stored row is the identity [a] names, by either of its names. *)
Definition same_identity (a held : MemoryAssertion) : bool :=
  bool_decide (MA_Scope held = MA_Scope a) && String.eqb (MA_AgentID held) (MA_AgentID a) &&
  (String.eqb (MA_ID held) (MA_ID a) ||
   String.eqb (CanonicalIdentityKey held) (CanonicalIdentityKey a)).

Definition id_before (x y : MemoryAssertion) : bool := String.ltb (MA_ID x) (MA_ID y).

Definition byIdentity (m : MemoryStore) (a : MemoryAssertion)
    : result MemoryError (option MemoryAssertion) :=
  oneOf (sort_by id_before (List.filter (same_identity a) (rows m))) (CanonicalIdentityKey a).

Definition neighbours (m : MemoryStore) (a : MemoryAssertion)
    : result MemoryError (option MemoryAssertion * option MemoryAssertion) :=
  stored ← byIdentity m a;
  match stored with
  | Some stored => Ok (Some stored, None)
  | None =>
      if String.eqb (MA_AgentID a) "" then Ok (None, None)
      else covering ← byIdentity m (a <| MA_AgentID := "" |>); Ok (None, covering)
  end.

Definition mergeInto (m : MemoryStore) (incoming : MemoryAssertion) (origin : MergeOrigin)
    : result MemoryError (MemoryStore * MemoryAssertion * MergeOutcome) :=
  '(stored, covering) ← neighbours m incoming;
  '(merged, outcome) ← Merge (MkMergeInput incoming stored covering origin (MA_UpdatedAt incoming));
  Ok (match outcome with Covered => m | _ => put_value m (MA_ID merged) merged end, merged, outcome).

(** The answer of an operation that wrote nothing. *)
Definition refused_with {A} (m : MemoryStore) (e : MemoryError) : MemoryStore * result MemoryError A :=
  (m, Err e).

Definition Assert (cancelled : bool) (a : MemoryAssertion) (by_ : UserID) (now : Time) (m : MemoryStore)
    : MemoryStore * result MemoryError MemoryAssertion :=
  if cancelled then refused_with m ErrMemoryContext
  else match (prepared ← prepareAssertion a by_ now; mergeInto m prepared OriginHuman) with
       | Err e => refused_with m e
       | Ok (_, merged, Covered) => refused_with m (coveredBy merged)
       | Ok (m', merged, _) => (m', Ok merged)
       end.

Definition Disable (cancelled : bool) (id : string) (scope : Scope) (by_ : UserID) (now : Time)
    (m : MemoryStore) : MemoryStore * result MemoryError unit :=
  if cancelled then refused_with m ErrMemoryContext
  else match mem_values m !! id with
       | Some a =>
           if negb (Scope_Contains scope (MA_Scope a)) then refused_with m ErrMemoryNotFound
           else (put_value m id (a <| MA_Status := MemoryDisabled |> <| MA_UpdatedBy := by_ |>
                                   <| MA_UpdatedAt := now |>), Ok tt)
       | None => refused_with m ErrMemoryNotFound
       end.

(** ** Credentials (memory/secret.go) *)

Definition SecretDecision (a : MemoryAssertion) (override : bool) (also : list string)
    : result MemoryError MemoryAssertion :=
  match LooksLikeSecret ([MA_Kind a; MA_Subject a; MA_Signature a; MA_Claim a] ++ also) with
  | SecretCertain => Err ErrSecret
  | SecretSuspected =>
      if negb override then Err ErrSecretSuspected
      else Ok (a <| MA_Labels := Labels_Union (MA_Labels a) (NewLabels [LabelSecret]) |>)
  | SecretNone => Ok a
  end.

Definition heldForReview (a : MemoryAssertion) : bool := negb (is_ok (SecretDecision a false [])).

Definition accepted (s : MemorySuggestion) (i : AcceptInput) : result MemoryError MemoryAssertion :=
  let a := assertionFromSuggestion s (MS_Observations s) (AI_By i) (AI_Now i) in
  let a := match AI_Claim i with Some claim => a <| MA_Claim := mem_clean claim |> | None => a end in
  _ ← guard_err (MemoryAssertion_Validate a) ErrMemoryInvalid;
  SecretDecision a (AI_Override i) [AI_Reason i].

(** ** The queue of proposals (memory/memory_suggest.go) *)

Fixpoint first_active (m : MemoryStore) (now : Time) (identities : list MemoryAssertion)
    : result MemoryError (option MemoryAssertion) :=
  match identities with
  | [] => Ok None
  | identity :: rest =>
      active ← byIdentity m identity;
      match active with
      | Some a =>
          if negb (String.eqb (MA_Status a) MemoryActive) || expired a now then first_active m now rest
          else Ok (Some a)
      | None => first_active m now rest
      end
  end.

Definition alreadyActiveSuggestion (m : MemoryStore) (s : MemorySuggestion) (wall now : Time)
    : result MemoryError (option MemorySuggestionOutcome) :=
  active ← first_active m (nowOrWall wall now) (identitiesForSuggestion s);
  Ok (option_map (fun a => MkMemorySuggestionOutcome (Some s) (Some a) MemorySuggestAlreadyActive) active).

Definition autoConfirmSuggestion (m : MemoryStore) (s : MemorySuggestion) (now : Time)
    : MemoryStore * result MemoryError MemorySuggestionOutcome :=
  let assertion := assertionFromSuggestion s (MS_Observations s) systemMemory now in
  if heldForReview assertion
  then (put_suggestion m s, Ok (MkMemorySuggestionOutcome (Some s) None MemorySuggestPending))
  else match mergeInto m assertion OriginAutoConfirm with
       | Err e => refused_with m e
       | Ok (_, merged, Covered) =>
           let s := s <| MS_Status := MemorySuggestionCovered |> <| MS_CoveredBy := MA_ID merged |>
                      <| MS_UpdatedBy := MA_UpdatedBy merged |> <| MS_UpdatedAt := MA_UpdatedAt merged |> in
           (put_suggestion m s,
            Ok (MkMemorySuggestionOutcome (Some s) (Some merged) MemorySuggestAlreadyActive))
       | Ok (m', merged, _) =>
           let s := s <| MS_Status := MemorySuggestionAutoConfirmed |>
                      <| MS_UpdatedBy := MA_UpdatedBy merged |> <| MS_UpdatedAt := MA_UpdatedAt merged |> in
           (put_suggestion m' s,
            Ok (MkMemorySuggestionOutcome (Some s) (Some merged) MemorySuggestAutoConfirmed))
       end.

(** The proposal as it stands once what was already noticed is folded in. *)
Definition noticed (m : MemoryStore) (s : MemorySuggestion) : MemorySuggestion :=
  match mem_suggestions m !! MS_ID s with Some old => mergeSuggestion old s | None => s end.

Definition Suggest (cancelled : bool) (wall : Time) (s : MemorySuggestion) (policy : MemoryLearningPolicy)
    (by_ : UserID) (now : Time) (m : MemoryStore)
    : MemoryStore * result MemoryError MemorySuggestionOutcome :=
  if cancelled then refused_with m ErrMemoryContext
  else
    let policy := MemoryLearningPolicy_Normalize policy in
    if negb (MemoryLearningPolicy_Enabled policy)
    then (m, Ok (MkMemorySuggestionOutcome None None MemorySuggestIgnored))
    else match prepareSuggestion s by_ now with
         | Err e => refused_with m e
         | Ok prepared =>
             match alreadyActiveSuggestion m prepared wall now with
             | Err e => refused_with m e
             | Ok (Some out) => (m, Ok out)
             | Ok None =>
                 let prepared := noticed m prepared in
                 if negb (String.eqb (MS_Status prepared) MemorySuggestionPending)
                 then (put_suggestion m prepared,
                       Ok (MkMemorySuggestionOutcome (Some prepared) None MemorySuggestIgnored))
                 else if AutoConfirms policy (MS_Labels prepared) &&
                         (ML_MinObservations policy <=? MS_Observations prepared)%Z
                 then autoConfirmSuggestion m prepared now
                 else (put_suggestion m prepared,
                       Ok (MkMemorySuggestionOutcome (Some prepared) None MemorySuggestPending))
             end
         end.

Definition pending_in (m : MemoryStore) (id : string) (scope : Scope) : option MemorySuggestion :=
  s ← mem_suggestions m !! id;
  if negb (Scope_Contains scope (MS_Scope s)) ||
     negb (String.eqb (MS_Status s) MemorySuggestionPending) then None else Some s.

Definition AcceptSuggestion (cancelled : bool) (i : AcceptInput) (m : MemoryStore)
    : MemoryStore * result MemoryError MemoryAssertion :=
  if cancelled then refused_with m ErrMemoryContext
  else if negb (AcceptInput_validate i) then refused_with m ErrMemoryInvalid
  else match pending_in m (AI_ID i) (AI_Scope i) with
       | None => refused_with m ErrMemoryNotFound
       | Some s =>
           match (assertion ← accepted s i; mergeInto m assertion OriginAccept) with
           | Err e => refused_with m e
           | Ok (m', merged, outcome) =>
               let s := match outcome with
                        | Covered => s <| MS_Status := MemorySuggestionCovered |>
                                       <| MS_CoveredBy := MA_ID merged |>
                        | _ => s <| MS_Status := MemorySuggestionAccepted |>
                        end in
               let s := s <| MS_UpdatedBy := AI_By i |> <| MS_UpdatedAt := AI_Now i |> in
               (m' <| mem_suggestions := <[AI_ID i := s]> (mem_suggestions m') |>, Ok merged)
           end
       end.

Definition DismissSuggestion (cancelled : bool) (id : string) (scope : Scope) (by_ : UserID) (now : Time)
    (m : MemoryStore) : MemoryStore * result MemoryError unit :=
  if cancelled then refused_with m ErrMemoryContext
  else match pending_in m id scope with
       | None => refused_with m ErrMemoryNotFound
       | Some s =>
           let s := s <| MS_Status := MemorySuggestionDismissed |> <| MS_UpdatedBy := by_ |>
                      <| MS_UpdatedAt := now |> in
           (m <| mem_suggestions := <[id := s]> (mem_suggestions m) |>, Ok tt)
       end.
End Store.
