(* ===== verification/Evidence.v ===== *)
(** * Proving citations, repairing and reviving memories

    src/internal/memory: the resolver of citations (evidence_resolver.go,
    citation.go), the repair of stored ones (hydrate.go, hydrate_memory.go,
    reconcile.go), reactivation (reactivate.go) and the question whether a fact
    is already here (match.go). The ledger and the content store are read
    through two functions, which answer alike while one resolution runs; that is
    also why the cache of runs a resolution keeps does not show. Reading the
    ledger happens outside the store's mutex: what is decided under the mutex
    takes the row that was read before it as an argument. *)

From Stdlib Require Import ZArith Lia Ascii String.
From stdpp Require Import base list strings gmap.
From S2P Require Import Prelude GoStrings Json Regexp Domain Step Payload State Ledger Ports Memories.

Local Open Scope string_scope.

(** ** Digests (memory/citation.go) *)

Definition trimDigest (v : string) : string :=
  if (7 <? String.length v)%nat then match cut_prefix "sha256:" v with Some r => r | None => v end else v.

(** [hex.DecodeString] refuses anything but hexadecimal digits. *)
Definition hex_only (v : string) : bool :=
  forallb (one_of "0123456789abcdefABCDEF") (list_ascii_of_string v).

Definition digestForm (v : string) : option string :=
  let v := trimDigest v in
  if negb ((String.length v =? 64)%nat || (String.length v =? 16)%nat) then None
  else if negb (hex_only v) then None else Some v.

Definition sameDigest (a b : string) : bool :=
  match digestForm a, digestForm b with
  | Some x, Some y =>
      if (String.length y <? String.length x)%nat then has_prefix y x else has_prefix x y
  | _, _ => false
  end.

(** ** What a step says about the bytes it named *)

Record citation := MkCitation { ct_ref : string; ct_digest : string; ct_sourceRun : RunID }.

Definition ArtifactFinalAnswer : string := "final_answer".

Definition proved (c : citation) : option citation :=
  if negb (String.eqb (ct_ref c) "") && negb (String.eqb (ct_digest c) "") then Some c else None.

Definition citationIn (step : Step) (artifact : string) : option citation :=
  if String.eqb (S_Kind step) StepRunFinished then
    p ← unmarshal_payload step zeroRunFinishedPayload d_RunFinishedPayload;
    if String.eqb artifact ArtifactFinalAnswer
    then proved (MkCitation (RF_OutcomeRef p) (RF_OutcomeDigest p) "")
    else a ← List.find (fun a => String.eqb (CA_Name a) artifact) (RF_Artifacts p);
         proved (MkCitation (CA_Ref a) (CA_Digest a) (CA_SourceRun a))
  else if String.eqb (S_Kind step) StepToolCalled then
    if negb (String.eqb artifact ArtifactMemorySuggestion) then None
    else
      p ← unmarshal_payload step zeroToolCalledPayload d_ToolCalledPayload;
      if negb (String.eqb (TCd_Tool p) ToolMemorySuggest) then None
      else proved (MkCitation (TCd_ArgsRef p) (TCd_ArgsDigest p) "")
  else None.

(** Whether this step is the one the citation names. *)
Definition cited_here (step : Step) (ev : MemoryEvidence) : option citation :=
  if (0 <? ME_Seq ev)%Z && negb (Z.eqb (S_Seq step) (ME_Seq ev)) then None
  else
    cite ← citationIn step (ME_Artifact ev);
    if negb (String.eqb (ME_Digest ev) "") && negb (sameDigest (ME_Digest ev) (ct_digest cite)) then None
    else Some cite.

(** The last such step among the first [n]. *)
Fixpoint citedStep (n : nat) (steps : list Step) (ev : MemoryEvidence) : option (nat * Step * citation) :=
  match n with
  | O => None
  | S n =>
      match (step ← steps !! n; cite ← cited_here step ev; Some (n, step, cite)) with
      | Some found => Some found
      | None => citedStep n steps ev
      end
  end.

(** ** Proving a citation (memory/evidence_resolver.go) *)

Record ContentMetadata := MkContentMetadata { CM_Digest : string; CM_Erased : bool }.

(** What the content store answers: nothing was ever there, it is away, or
    what it knows of the bytes. *)
Inductive content_answer := ContentAbsent | ContentAway | ContentIs (meta : ContentMetadata).

Definition labelsUpTo (steps : list Step) (at_ : nat) : Labels :=
  fold_left (fun out s => Labels_Union out (S_Labels s)) (take (S at_) steps) [].

Section Resolver.
Context (read : RunID -> result LedgerError (list Step)) (metadata : string -> content_answer).

Definition stepsOf (scope : Scope) (run : RunID) : result MemoryError (list Step) :=
  match read run with
  | Err ErrNotFound => Err ErrEvidenceSourceAbsent
  | Err _ => Err ErrEvidenceStore
  | Ok [] => Err ErrEvidenceSourceAbsent
  | Ok (s :: steps) =>
      if negb (Scope_Contains scope (S_Scope s)) then Err ErrEvidenceInvalid else Ok (s :: steps)
  end.

Definition prove (steps : list Step) (ev : MemoryEvidence) : result MemoryError MemoryEvidence :=
  match citedStep (List.length steps) steps ev with
  | None => Err ErrEvidenceInvalid
  | Some (at_, step, cite) =>
      match metadata (ct_ref cite) with
      | ContentAbsent => Err ErrEvidenceInvalid
      | ContentAway => Err ErrEvidenceStore
      | ContentIs meta =>
          if CM_Erased meta then Err ErrEvidenceSourceAbsent
          else if negb (sameDigest (ct_digest cite) (CM_Digest meta)) then Err ErrEvidenceInvalid
          else Ok (MkMemoryEvidence (ME_RunID ev) (ct_sourceRun cite) (S_Seq step) (ME_Artifact ev)
                     (CM_Digest meta) (labelsUpTo steps at_))
      end
  end.

Definition prove_one (scope : Scope) (ev : MemoryEvidence) : result MemoryError MemoryEvidence :=
  steps ← stepsOf scope (ME_RunID ev); prove steps ev.

Fixpoint Resolve (scope : Scope) (l : list MemoryEvidence) : result MemoryError (list MemoryEvidence) :=
  match l with
  | [] => Ok []
  | ev :: rest => r ← prove_one scope ev; rs ← Resolve scope rest; Ok (r :: rs)
  end.

(** ** What the ledger had to say (memory/hydrate.go) *)

Inductive proof_of := proofUnproved | proofProved | proofSourceAbsent.

Definition resolveEvidence (scope : Scope) (l : list MemoryEvidence)
    : result MemoryError (list MemoryEvidence * proof_of) :=
  match Resolve scope l with
  | Ok resolved => Ok (resolved, proofProved)
  | Err ErrEvidenceSourceAbsent => Ok ([], proofSourceAbsent)
  | Err ErrEvidenceInvalid => Ok ([], proofUnproved)
  | Err e => Err e
  end.
End Resolver.

#[export] Instance proof_of_eq_dec : EqDecision proof_of.
Proof. solve_decision. Defined.

Definition sameEvidence (a b : list MemoryEvidence) : bool :=
  (List.length a =? List.length b)%nat &&
  forallb (fun p => String.eqb (Evidence_Key (fst p)) (Evidence_Key (snd p)) &&
                    bool_decide (ME_Labels (fst p) = ME_Labels (snd p))) (combine a b).

Definition dedupeEvidence : list MemoryEvidence -> list MemoryEvidence := boundedEvidenceOf.

Definition hydratedProvenance (stored : list MemoryEvidence) (labels : Labels)
    (resolved : list MemoryEvidence) : list MemoryEvidence * Labels * bool :=
  let evidence := dedupeEvidence resolved in
  let derived := fold_left (fun d ev => Labels_Union d (ME_Labels ev)) evidence [] in
  let next := Labels_Union labels derived in
  (evidence, next, negb (sameEvidence stored evidence) || negb (bool_decide (labels = next))).

Record hydration := MkHydration { hy_next : MemoryAssertion; hy_provenance : bool; hy_key : bool }.

Definition hydration_writes (h : hydration) : bool := hy_provenance h || hy_key h.

Definition hydrated (stored : MemoryAssertion) (resolved : list MemoryEvidence) (proved keyMissing : bool)
    : hydration :=
  if negb proved then MkHydration stored false keyMissing
  else
    let '(evidence, labels, changed) := hydratedProvenance (MA_Evidence stored) (MA_Labels stored) resolved in
    MkHydration (stored <| MA_Evidence := evidence |> <| MA_Labels := labels |>) changed keyMissing.

(** ** The repair of one row, under the mutex (memory/hydrate_memory.go)

    [stored] is the row as the page read it; the answer says whether the row
    was written. *)

Definition hydrate_row (wall now : Time) (stored : MemoryAssertion) (resolved : list MemoryEvidence)
    (got : proof_of) (m : MemoryStore) : MemoryStore * bool :=
  match mem_values m !! MA_ID stored with
  | Some current =>
      if negb (sameEvidence (MA_Evidence current) (MA_Evidence stored)) then (m, false)
      else if bool_decide (got = proofSourceAbsent) && String.eqb (MA_Status current) MemoryActive then
        (put_value m (MA_ID stored)
           (current <| MA_Status := MemorySourceErased |> <| MA_UpdatedBy := systemMemory |>
                    <| MA_UpdatedAt := nowOrWall wall now |>), true)
      else
        let h := hydrated current resolved (bool_decide (got = proofProved)) false in
        if hydration_writes h then (put_value m (MA_ID stored) (hy_next h), true) else (m, false)
  | None => (m, false)
  end.

Definition hydrate_suggestion_row (wall now : Time) (stored : MemorySuggestion)
    (resolved : list MemoryEvidence) (got : proof_of) (m : MemoryStore) : MemoryStore * bool :=
  let write s := (m <| mem_suggestions := <[MS_ID stored := s]> (mem_suggestions m) |>, true) in
  match mem_suggestions m !! MS_ID stored, got with
  | Some current, proofSourceAbsent =>
      if String.eqb (MS_Status current) MemorySuggestionPending
      then write (current <| MS_Status := MemorySuggestionSourceErased |> <| MS_UpdatedBy := systemMemory |>
                          <| MS_UpdatedAt := nowOrWall wall now |>)
      else (m, false)
  | Some current, proofProved =>
      if negb (sameEvidence (MS_Evidence current) (MS_Evidence stored)) then (m, false)
      else
        let '(evidence, labels, changed) :=
          hydratedProvenance (MS_Evidence current) (MS_Labels current) resolved in
        if changed : bool then write (current <| MS_Evidence := evidence |> <| MS_Labels := labels |>)
        else (m, false)
  | _, _ => (m, false)
  end.

(** ** A page of the repair *)

Record HydratePage := MkHydratePage { HP_After : string; HP_Limit : Z; HP_Now : Time }.

Definition page_limit (p : HydratePage) : nat := Z.to_nat (MemoryListLimit (HP_Limit p)).

Record HydrateResult := MkHydrateResult {
  HR_Scanned : Z;
  HR_Repaired : Z;
  HR_SourceGone : Z;
  HR_Conflicted : Z;
  HR_Unproved : Z;
  HR_Cursor : string
}.

#[export] Instance HydrateResult_eta : Eta HydrateResult := fun r =>
  MkHydrateResult (HR_Scanned r) (HR_Repaired r) (HR_SourceGone r) (HR_Conflicted r) (HR_Unproved r)
    (HR_Cursor r).

Definition zeroHydrateResult : HydrateResult := MkHydrateResult 0 0 0 0 0 "".

Definition hydrationPage (m : MemoryStore) (p : HydratePage) : list MemoryAssertion :=
  take (page_limit p)
    (sort_by id_before (List.filter (fun a => String.ltb (HP_After p) (MA_ID a)) (rows m))).

Definition suggestion_before (x y : MemorySuggestion) : bool := String.ltb (MS_ID x) (MS_ID y).

Definition suggestionPage (m : MemoryStore) (p : HydratePage) : list MemorySuggestion :=
  take (page_limit p)
    (sort_by suggestion_before
       (List.filter (fun s => String.ltb (HP_After p) (MS_ID s)) ((map_to_list (mem_suggestions m)).*2))).

Definition scanned (id : string) (out : HydrateResult) : HydrateResult :=
  out <| HR_Scanned := add64 (HR_Scanned out) 1 |> <| HR_Cursor := id |>.

Definition tallied (got : proof_of) (out : HydrateResult) : HydrateResult :=
  match got with
  | proofUnproved => out <| HR_Unproved := add64 (HR_Unproved out) 1 |>
  | proofSourceAbsent => out <| HR_SourceGone := add64 (HR_SourceGone out) 1 |>
  | proofProved => out
  end.

Definition repaired (wrote : bool) (out : HydrateResult) : HydrateResult :=
  if wrote then out <| HR_Repaired := add64 (HR_Repaired out) 1 |> else out.

(** The cursor is cleared by a page that was not full. *)
Definition page_done (p : HydratePage) (out : HydrateResult) : HydrateResult :=
  if (HR_Scanned out <? MemoryListLimit (HP_Limit p))%Z then out <| HR_Cursor := "" |> else out.

Section Sweeps.
Context (read : RunID -> result LedgerError (list Step)) (metadata : string -> content_answer) (wall : Time).

Fixpoint hydrate_rows (now : Time) (candidates : list MemoryAssertion) (m : MemoryStore) (out : HydrateResult)
    : MemoryStore * HydrateResult * option MemoryError :=
  match candidates with
  | [] => (m, out, None)
  | stored :: rest =>
      let out := scanned (MA_ID stored) out in
      match resolveEvidence read metadata (MA_Scope stored) (MA_Evidence stored) with
      | Err e => (m, out, Some e)
      | Ok (resolved, got) =>
          let '(m, wrote) := hydrate_row wall now stored resolved got m in
          hydrate_rows now rest m (repaired wrote (tallied got out))
      end
  end.

Definition Hydrate (cancelled : bool) (p : HydratePage) (m : MemoryStore)
    : MemoryStore * HydrateResult * option MemoryError :=
  if cancelled then (m, zeroHydrateResult, Some ErrMemoryContext)
  else
    let '(m, out, err) := hydrate_rows (HP_Now p) (hydrationPage m p) m zeroHydrateResult in
    (m, match err with None => page_done p out | Some _ => out end, err).

Fixpoint hydrate_suggestion_rows (now : Time) (candidates : list MemorySuggestion) (m : MemoryStore)
    (out : HydrateResult) : MemoryStore * HydrateResult * option MemoryError :=
  match candidates with
  | [] => (m, out, None)
  | stored :: rest =>
      let out := scanned (MS_ID stored) out in
      match resolveEvidence read metadata (MS_Scope stored) (MS_Evidence stored) with
      | Err e => (m, out, Some e)
      | Ok (resolved, got) =>
          let '(m, wrote) := hydrate_suggestion_row wall now stored resolved got m in
          hydrate_suggestion_rows now rest m (repaired wrote (tallied got out))
      end
  end.

Definition HydrateSuggestions (cancelled : bool) (p : HydratePage) (m : MemoryStore)
    : MemoryStore * HydrateResult * option MemoryError :=
  if cancelled then (m, zeroHydrateResult, Some ErrMemoryContext)
  else
    let '(m, out, err) := hydrate_suggestion_rows (HP_Now p) (suggestionPage m p) m zeroHydrateResult in
    (m, match err with None => page_done p out | Some _ => out end, err).
End Sweeps.

(** ** Reconciliation (memory/reconcile.go) *)

Definition reconcilePage : Z := 100.

Record Totals := MkTotals {
  To_Pages : Z;
  To_Scanned : Z;
  To_Repaired : Z;
  To_SourceGone : Z;
  To_Conflicted : Z;
  To_Unproved : Z
}.

Definition zeroTotals : Totals := MkTotals 0 0 0 0 0 0.

Definition Totals_add (t : Totals) (out : HydrateResult) : Totals :=
  MkTotals (add64 (To_Pages t) 1) (add64 (To_Scanned t) (HR_Scanned out))
    (add64 (To_Repaired t) (HR_Repaired out)) (add64 (To_SourceGone t) (HR_SourceGone out))
    (add64 (To_Conflicted t) (HR_Conflicted out)) (add64 (To_Unproved t) (HR_Unproved out)).

Definition NeedsReview (t : Totals) : bool := ((0 <? To_Conflicted t) || (0 <? To_Unproved t))%Z.

Section Reconcile.
Context (cancelled : nat -> bool) (now : Time).

(** The pages of one table. [cancelled n] is whether the context is done when
    the page [n] is asked for. *)
Fixpoint walk_pages (page : bool -> HydratePage -> MemoryStore -> MemoryStore * HydrateResult * option MemoryError)
    (fuel n : nat) (cursor : string) (m : MemoryStore) (totals : Totals)
    : option (MemoryStore * Totals * option MemoryError) :=
  match fuel with
  | O => None
  | S fuel =>
      if cancelled n then Some (m, totals, Some ErrMemoryContext)
      else
        match page false (MkHydratePage cursor reconcilePage now) m with
        | (m, out, Some e) => Some (m, totals, Some e)
        | (m, out, None) =>
            let totals := Totals_add totals out in
            if String.eqb (HR_Cursor out) "" then Some (m, totals, None)
            else if String.leb (HR_Cursor out) cursor then Some (m, totals, Some ErrNoProgress)
            else walk_pages page fuel (S n) (HR_Cursor out) m totals
        end
  end.
End Reconcile.

Definition Reconcile (read : RunID -> result LedgerError (list Step)) (metadata : string -> content_answer)
    (wall now : Time) (cancelled cancelled' : nat -> bool) (fuel : nat) (m : MemoryStore)
    : option (MemoryStore * Totals * Totals * option MemoryError) :=
  '(m, assertions, err) ← walk_pages cancelled now (Hydrate read metadata wall) fuel 0 "" m zeroTotals;
  match err with
  | Some e => Some (m, assertions, zeroTotals, Some e)
  | None =>
      '(m, suggestions, err) ←
        walk_pages cancelled' now (HydrateSuggestions read metadata wall)
          fuel 0 "" m zeroTotals;
      Some (m, assertions, suggestions, err)
  end.

(** ** Bringing a disabled memory back (memory/reactivate.go) *)

Record ReactivateInput := MkReactivateInput {
  RI_ID : string;
  RI_Scope : Scope;
  RI_By : UserID;
  RI_Reason : string;
  RI_Now : Time
}.

Definition ReactivateInput_validate (i : ReactivateInput) : bool :=
  negb (String.eqb (trim_space (RI_Reason i)) "").

Definition reactivable (snapshot current : MemoryAssertion) (covering : option MemoryAssertion)
    (got : proof_of) : result MemoryError unit :=
  if negb (String.eqb (MA_Status current) MemoryDisabled) then Err (ErrMemoryTerminal (MA_Status current))
  else if negb (sameEvidence (MA_Evidence current) (MA_Evidence snapshot)) then Err ErrMovedMeanwhile
  else if negb (bool_decide (got = proofProved)) then Err ErrEvidenceInvalid
  else match covering with Some c => Err (coveredBy c) | None => Ok tt end.

Definition reactivated (current : MemoryAssertion) (i : ReactivateInput) : MemoryAssertion :=
  current <| MA_Status := MemoryActive |>
          <| MA_ExpiresAt := Some (Time_Add (RI_Now i) DefaultMemoryTTL) |>
          <| MA_UpdatedBy := RI_By i |> <| MA_UpdatedAt := RI_Now i |>.

Definition sourceGone : MemoryError := ErrMemoryTerminal MemorySourceErased.

Definition readForReactivation (cancelled : bool) (i : ReactivateInput) (m : MemoryStore)
    : result MemoryError MemoryAssertion :=
  if cancelled then Err ErrMemoryContext
  else if negb (ReactivateInput_validate i) then Err ErrMemoryInvalid
  else match mem_values m !! RI_ID i with
       | Some held =>
           if negb (Scope_Contains (RI_Scope i) (MA_Scope held)) then Err ErrMemoryNotFound
           else if negb (String.eqb (MA_Status held) MemoryDisabled) then Err (ErrMemoryTerminal (MA_Status held))
           else Ok held
       | None => Err ErrMemoryNotFound
       end.

Section Reactivation.
Context {U : Unicode}.

Definition coveringActive (m : MemoryStore) (a : MemoryAssertion) (wall now : Time)
    : result MemoryError (option MemoryAssertion) :=
  if String.eqb (MA_AgentID a) "" then Ok None
  else
    let shared := a <| MA_AgentID := "" |> in
    found ← byIdentity m (shared <| MA_ID := MemoryAssertionID shared |>);
    Ok (a ← found;
        if negb (String.eqb (MA_Status a) MemoryActive) || expired a (nowOrWall wall now) then None else Some a).

(** What is decided under the mutex, the ledger having been read about
    [snapshot]. *)
Definition reactivate_row (wall : Time) (i : ReactivateInput) (snapshot : MemoryAssertion) (got : proof_of)
    (m : MemoryStore) : MemoryStore * result MemoryError MemoryAssertion :=
  match mem_values m !! RI_ID i with
  | None => refused_with m ErrMemoryNotFound
  | Some current =>
      if bool_decide (got = proofSourceAbsent) then
        (if String.eqb (MA_Status current) MemoryDisabled &&
            sameEvidence (MA_Evidence current) (MA_Evidence snapshot)
         then put_value m (RI_ID i)
                (current <| MA_Status := MemorySourceErased |> <| MA_UpdatedBy := systemMemory |>
                         <| MA_UpdatedAt := nowOrWall wall (RI_Now i) |>)
         else m, Err sourceGone)
      else match (covering ← coveringActive m current wall (RI_Now i);
                  reactivable snapshot current covering got) with
           | Err e => refused_with m e
           | Ok _ => (put_value m (RI_ID i) (reactivated current i), Ok (reactivated current i))
           end
  end.

Definition Reactivate (read : RunID -> result LedgerError (list Step)) (metadata : string -> content_answer)
    (cancelled : bool) (wall : Time) (i : ReactivateInput) (m : MemoryStore)
    : MemoryStore * result MemoryError MemoryAssertion :=
  match (snapshot ← readForReactivation cancelled i m;
         '(_, got) ← resolveEvidence read metadata (MA_Scope snapshot) (MA_Evidence snapshot);
         Ok (snapshot, got)) with
  | Err e => refused_with m e
  | Ok (snapshot, got) => reactivate_row wall i snapshot got m
  end.

(** ** Whether a fact is already here (memory/match.go) *)

Record MatchInput := MkMatchInput {
  MT_Scope : Scope;
  MT_AgentID : AgentID;
  MT_Kind : string;
  MT_Subject : string;
  MT_Signature : string;
  MT_Now : Time
}.

Record Match := MkMatch {
  Mt_Own : option MemoryAssertion;
  Mt_Shared : option MemoryAssertion;
  Mt_Pending : option MemorySuggestion
}.

Definition match_identity (i : MatchInput) (agent : AgentID) : MemoryAssertion :=
  let a := MkMemoryAssertion "" (MT_Scope i) agent (mem_clean (MT_Kind i)) (mem_clean (MT_Subject i))
             (mem_clean (MT_Signature i)) "" [] 0 0 [] "" None "" 0 "" 0 in
  a <| MA_ID := MemoryAssertionID a |>.

Definition MatchInput_Validate (i : MatchInput) : bool := ValidateIdentity (match_identity i (MT_AgentID i)).

Definition asOf (wall now : Time) (a : option MemoryAssertion) : option MemoryAssertion :=
  (fun a => effectiveStatus a (nowOrWall wall now)) <$> a.

(** The first pending proposal of the identity that the range over the map
    meets; [visit] is the order it takes. *)
Definition pendingFor (i : MatchInput) (visit : list MemorySuggestion) : option MemorySuggestion :=
  List.find (fun s => String.eqb (MS_Status s) MemorySuggestionPending &&
                      String.eqb (CanonicalIdentityKey (proposed s))
                                 (CanonicalIdentityKey (match_identity i (MT_AgentID i)))) visit.

Definition Match_ (cancelled : bool) (wall : Time) (i : MatchInput) (visit : list MemorySuggestion)
    (m : MemoryStore) : result MemoryError Match :=
  if cancelled then Err ErrMemoryContext
  else if negb (MatchInput_Validate i) then Err ErrMemoryInvalid
  else
    own ← byIdentity m (match_identity i (MT_AgentID i));
    shared ← (if String.eqb (MT_AgentID i) "" then Ok None else byIdentity m (match_identity i ""));
    Ok (MkMatch (asOf wall (MT_Now i) own) (asOf wall (MT_Now i) shared) (pendingFor i visit)).
End Reactivation.
