(* ===== verification/MemoryFacts.v ===== *)
(** * Lemmas about memories

    What folding citations keeps, which citations survive a merge, which row an
    identity names, and what each operation of the store may change. *)

From Stdlib Require Import ZArith Lia Ascii String.
From stdpp Require Import base list strings gmap.
From S2P Require Import Prelude GoStrings Json Regexp Domain Sha256 Step Payload WorkItem State Ledger Ports Memories Evidence.

Local Open Scope string_scope.

(** ** Folding citations *)

Local Abbreviation relabelled o ev := (o <| ME_Labels := Labels_Union (ME_Labels o) (ME_Labels ev) |>).

Lemma fold_into_Some ev out out' :
  fold_into ev out = Some out' ->
  exists pre o post, out = (pre ++ o :: post)%list /\ Evidence_Key o = Evidence_Key ev /\
    out' = (pre ++ relabelled o ev :: post)%list.
Proof.
  revert out'. induction out as [|o out IH]; intros out' H; simpl in H; [done|].
  destruct (String.eqb_spec (Evidence_Key o) (Evidence_Key ev)) as [E|E].
  - injection H as <-. by exists [], o, out.
  - apply fmap_Some in H as (t & Ht & ->). destruct (IH _ Ht) as (pre & x & post & -> & Hk & ->).
    by exists (o :: pre), x, post.
Qed.

Lemma fold_into_None ev out :
  fold_into ev out = None <-> Evidence_Key ev ∉ map Evidence_Key out.
Proof.
  induction out as [|o out IH]; simpl; [split; [intros _; apply not_elem_of_nil|done]|].
  rewrite elem_of_cons. destruct (String.eqb_spec (Evidence_Key o) (Evidence_Key ev)) as [E|E].
  - split; [done|]. intros H. destruct H. by left.
  - rewrite fmap_None, IH. intuition congruence.
Qed.

(** A property of citations that does not look at labels, or is closed under
    their union. *)
Definition label_closed (P : MemoryEvidence -> Prop) : Prop :=
  forall o ev, P o -> P ev -> P (relabelled o ev).

Lemma fold_citation_Forall P cap out ev :
  label_closed P -> Forall P out -> P ev -> Forall P (fold_citation cap out ev).
Proof.
  intros Hc Ho Hev. unfold fold_citation. destruct (fold_into ev out) as [out'|] eqn:E.
  - apply fold_into_Some in E as (pre & o & post & -> & _ & ->).
    apply Forall_app in Ho as [H1 [H2 H3]%Forall_cons]. apply Forall_app.
    split; [done|]. apply Forall_cons. auto.
  - case_match; [done|]. apply Forall_app. auto.
Qed.

Lemma fold_citations_Forall P cap l : forall out,
  label_closed P -> Forall P out -> Forall P l -> Forall P (fold_left (fold_citation cap) l out).
Proof.
  induction l as [|ev l IH]; intros out Hc Ho Hl; simpl; [done|].
  apply Forall_cons in Hl as [Hev Hl]. apply IH; auto using fold_citation_Forall.
Qed.

Lemma fold_citation_keys cap out ev :
  NoDup (map Evidence_Key out) -> NoDup (map Evidence_Key (fold_citation cap out ev)).
Proof.
  intros Hd. unfold fold_citation. destruct (fold_into ev out) as [out'|] eqn:E.
  - apply fold_into_Some in E as (pre & o & post & -> & _ & ->).
    by rewrite !map_app in *.
  - apply fold_into_None in E. case_match; [done|]. rewrite map_app. apply NoDup_app. split; [done|].
    split; [|apply NoDup_singleton]. intros k Hk ->%list_elem_of_singleton. done.
Qed.

Lemma fold_citations_keys cap l : forall out,
  NoDup (map Evidence_Key out) -> NoDup (map Evidence_Key (fold_left (fold_citation cap) l out)).
Proof. induction l; intros out H; simpl; auto using fold_citation_keys. Qed.

Lemma fold_citation_length cap out ev :
  (List.length out <= List.length (fold_citation cap out ev) <= S (List.length out))%nat /\
  (forall c, cap = Some c -> (List.length out <= c -> List.length (fold_citation cap out ev) <= c)%nat).
Proof.
  unfold fold_citation. destruct (fold_into ev out) as [out'|] eqn:E.
  - apply fold_into_Some in E as (pre & o & post & -> & _ & ->). rewrite !length_app. simpl. split; lia.
  - destruct cap as [c|]; simpl; [destruct (Nat.eqb_spec (List.length out) c)|];
      rewrite ?length_app; simpl; (split; [lia|]); intros ? [= <-]; lia.
Qed.

Lemma fold_citations_length cap l : forall out,
  (List.length out <= List.length (fold_left (fold_citation cap) l out) <=
     List.length out + List.length l)%nat /\
  (forall c, cap = Some c -> (List.length out <= c ->
     List.length (fold_left (fold_citation cap) l out) <= c)%nat).
Proof.
  induction l as [|ev l IH]; intros out; simpl; [split; [lia|done]|].
  destruct (IH (fold_citation cap out ev)) as [[H1 H2] H3].
  destruct (fold_citation_length cap out ev) as [[H4 H5] H6]. split; [lia|]. auto.
Qed.

(** The first citation always stays. *)
Lemma fold_citations_nonempty cap l :
  l <> [] -> cap <> Some 0%nat -> fold_left (fold_citation cap) l [] <> [].
Proof.
  intros Hl Hc. destruct l as [|ev l]; [done|]. simpl.
  destruct (fold_citations_length cap l (fold_citation cap [] ev)) as [[H _] _].
  intros E. rewrite E in H. unfold fold_citation in H. simpl in H.
  destruct cap as [[|c]|]; simpl in H; try lia. done.
Qed.

(** ** The labels citations carry *)

Definition explains (l : list MemoryEvidence) (x : string) : Prop :=
  exists ev, ev ∈ l /\ x ∈ ME_Labels ev.

Lemma explains_app l1 l2 x : explains (l1 ++ l2) x <-> explains l1 x \/ explains l2 x.
Proof. unfold explains. setoid_rewrite elem_of_app. naive_solver. Qed.

Lemma explains_cons ev l x : explains (ev :: l) x <-> x ∈ ME_Labels ev \/ explains l x.
Proof. unfold explains. setoid_rewrite elem_of_cons. naive_solver. Qed.

Lemma explains_nil x : explains [] x <-> False.
Proof. unfold explains. split; [by intros (ev & []%not_elem_of_nil & _)|done]. Qed.

Lemma Union_elem l o x : x ∈ Labels_Union l o <-> x ∈ l \/ x ∈ o.
Proof. rewrite !list_elem_of_In. apply Union_In. Qed.

Lemma fold_citation_explains cap out ev x :
  explains (fold_citation cap out ev) x -> explains out x \/ x ∈ ME_Labels ev.
Proof.
  unfold fold_citation. destruct (fold_into ev out) as [out'|] eqn:E.
  - apply fold_into_Some in E as (pre & o & post & -> & _ & ->).
    rewrite !explains_app, !explains_cons. simpl. rewrite Union_elem. tauto.
  - case_match; [tauto|]. rewrite explains_app, explains_cons, explains_nil. tauto.
Qed.

Lemma fold_citation_all out ev x :
  explains (fold_citation None out ev) x <-> explains out x \/ x ∈ ME_Labels ev.
Proof.
  split; [apply fold_citation_explains|]. unfold fold_citation. destruct (fold_into ev out) as [out'|] eqn:E.
  - apply fold_into_Some in E as (pre & o & post & -> & _ & ->).
    rewrite !explains_app, !explains_cons. simpl. rewrite Union_elem. tauto.
  - simpl. rewrite explains_app, explains_cons. tauto.
Qed.

Lemma boundedEvidenceOf_explains l x : explains (boundedEvidenceOf l) x <-> explains l x.
Proof.
  unfold boundedEvidenceOf.
  assert (H : forall out, explains (fold_left (fold_citation None) l out) x <-> explains out x \/ explains l x).
  { induction l as [|ev l IH]; intros out; simpl; [rewrite explains_nil; tauto|].
    rewrite IH, fold_citation_all, explains_cons. tauto. }
  rewrite H, explains_nil. tauto.
Qed.

Definition well_labelled (ev : MemoryEvidence) : Prop := label_set (ME_Labels ev).

Lemma well_labelled_closed : label_closed well_labelled.
Proof. intros o ev Ho Hev. apply Union_set; done. Qed.

Lemma cites_closed : label_closed (fun ev => cites ev = true).
Proof. by intros o ev Ho _. Qed.

Lemma carried_explains label l :
  Forall well_labelled l -> carried label l = true <-> explains l label.
Proof.
  intros H. unfold carried, explains. rewrite existsb_exists.
  setoid_rewrite list_elem_of_In. rewrite List.Forall_forall in H.
  split; intros (ev & Hin & Hl); exists ev; (split; [done|]); by apply (Has_In _ _ (H ev Hin)).
Qed.

(** ** Which citations survive *)

(** Citations being kept: some of all of them, no more than the budget, and the
    keys taken are theirs. *)
Record keeping (all kept : list MemoryEvidence) (taken : gset string) : Prop := {
  kp_sub : kept ⊆ all;
  kp_fit : (List.length kept <= MaxEvidence)%nat;
  kp_taken : forall ev, ev ∈ all -> Evidence_Key ev ∈ taken -> ev ∈ kept
}.

Lemma keeping_nil all : keeping all [] ∅.
Proof. split; [intros ? []%not_elem_of_nil|simpl; lia|by intros ? ? []%not_elem_of_empty]. Qed.

(** Different citations of a fold have different keys. *)
Lemma key_unique all x y :
  NoDup (map Evidence_Key all) -> x ∈ all -> y ∈ all -> Evidence_Key x = Evidence_Key y -> x = y.
Proof.
  intros Hd Hx Hy E. induction all as [|z all IH]; [by apply not_elem_of_nil in Hx|].
  apply NoDup_cons in Hd as [Hz Hd]. apply elem_of_cons in Hx as [->|Hx], Hy as [->|Hy]; auto.
  - destruct Hz. rewrite E. by apply (list_elem_of_fmap_2 Evidence_Key).
  - destruct Hz. rewrite <- E. by apply (list_elem_of_fmap_2 Evidence_Key).
Qed.

Lemma keeping_snoc all kept taken ev :
  NoDup (map Evidence_Key all) -> ev ∈ all -> (List.length kept < MaxEvidence)%nat ->
  keeping all kept taken -> keeping all (kept ++ [ev]) ({[Evidence_Key ev]} ∪ taken).
Proof.
  intros Hd Hev Hlt [Hs Hf Ht]. split.
  - intros x [Hx| ->%list_elem_of_singleton]%elem_of_app; auto.
  - rewrite length_app. simpl. lia.
  - intros x Hx [E%elem_of_singleton|Hk]%elem_of_union; apply elem_of_app.
    + right. rewrite (key_unique all x ev) by done. by apply list_elem_of_here.
    + left. auto.
Qed.

Lemma keep_explaining_spec all labels kept taken kept' taken' :
  NoDup (map Evidence_Key all) -> Forall well_labelled all -> keeping all kept taken ->
  keep_explaining all labels kept taken = Ok (kept', taken') ->
  keeping all kept' taken' /\ kept ⊆ kept' /\
  forall x, x ∈ labels -> explains all x -> explains kept' x.
Proof.
  intros Hd Hw. revert kept taken. induction labels as [|label rest IH]; intros kept taken K H; simpl in H.
  { injection H as <- <-. split; [done|]. split; [done|]. by intros x []%not_elem_of_nil. }
  assert (Hwk : Forall well_labelled kept).
  { rewrite list.Forall_forall in *. intros x Hx. apply Hw. by apply (kp_sub _ _ _ K). }
  destruct (carried label kept) eqn:Ec; [|destruct (List.find _ all) as [ev|] eqn:Ef].
  - apply (carried_explains _ _ Hwk) in Ec. destruct (IH _ _ K H) as (K' & Hs & He).
    split; [done|]. split; [done|]. intros x [->|Hx]%elem_of_cons Ha; [|auto].
    destruct Ec as (o & Ho & Hl). exists o. auto.
  - destruct (Nat.eqb_spec (List.length kept) MaxEvidence) as [|Hne]; [done|].
    apply List.find_some in Ef as [Hin Hp]. apply list_elem_of_In in Hin.
    apply andb_true_iff in Hp as [_ Hl].
    pose proof (kp_fit _ _ _ K). assert (Hlt : (List.length kept < MaxEvidence)%nat) by lia.
    destruct (IH _ _ (keeping_snoc _ _ _ ev Hd Hin Hlt K) H) as (K' & Hs & He).
    split; [done|]. split; [set_solver|]. intros x [->|Hx]%elem_of_cons Ha; [|auto].
    exists ev. split; [apply Hs, elem_of_app; right; apply list_elem_of_here|].
    rewrite list.Forall_forall in Hw. apply list_elem_of_In, (Has_In _ _ (Hw ev Hin)). done.
  - destruct (IH _ _ K H) as (K' & Hs & He). split; [done|]. split; [done|].
    intros x [->|Hx]%elem_of_cons Ha; [|auto]. exfalso. destruct Ha as (o & Ho & Hl).
    pose proof (List.find_none _ _ Ef o (proj1 (list_elem_of_In _ _) Ho)) as Hn. simpl in Hn.
    assert (Hlo : Labels_Has (ME_Labels o) label = true).
    { rewrite list.Forall_forall in Hw. by apply (Has_In _ _ (Hw o Ho)), list_elem_of_In. }
    rewrite Hlo, andb_true_r, negb_false_iff in Hn. unfold is_taken in Hn. apply bool_decide_eq_true in Hn.
    assert (explains kept label) as Hx by (exists o; split; [by apply (kp_taken _ _ _ K)|done]).
    apply (carried_explains _ _ Hwk) in Hx. congruence.
Qed.

Lemma keep_recent_spec all kept taken : forall rest, rest ⊆ all ->
  NoDup (map Evidence_Key all) -> keeping all kept taken ->
  kept ⊆ keep_recent rest kept taken /\ keep_recent rest kept taken ⊆ all /\
  (List.length (keep_recent rest kept taken) <= MaxEvidence)%nat /\
  (rest <> [] -> kept <> [] \/ keep_recent rest kept taken <> []).
Proof.
  intros rest. revert kept taken. induction rest as [|ev rest IH]; intros kept taken Hr Hd K; simpl.
  { destruct K. naive_solver. }
  assert (Hin : ev ∈ all) by (apply Hr; apply list_elem_of_here).
  assert (Hr' : rest ⊆ all) by (intros x Hx; apply Hr; by apply list_elem_of_further).
  destruct (Nat.eqb_spec (List.length kept) MaxEvidence) as [E|E].
  { destruct K. split; [done|]. split; [done|]. split; [done|]. intros _. left. by intros ->. }
  unfold is_taken. destruct (bool_decide_reflect (Evidence_Key ev ∈ taken)) as [Ht|Ht].
  - destruct (IH _ _ Hr' Hd K) as (H1 & H2 & H3 & _). split; [done|]. split; [done|]. split; [done|].
    intros _. left. intros ->. by apply (kp_taken _ _ _ K ev Hin), not_elem_of_nil in Ht.
  - pose proof (kp_fit _ _ _ K). assert (Hlt : (List.length kept < MaxEvidence)%nat) by lia.
    destruct (IH _ _ Hr' Hd (keeping_snoc _ _ _ ev Hd Hin Hlt K)) as (H1 & H2 & H3 & _).
    split; [set_solver|]. split; [done|]. split; [done|]. intros _. right. intros E'.
    rewrite E' in H1. assert (ev ∈ @nil MemoryEvidence) as []%not_elem_of_nil.
    apply H1, elem_of_app. right. apply list_elem_of_here.
Qed.

(** What is known of all the citations of a fold holds of those it keeps. *)
Lemma mergedEvidence_spec stored incoming labels out :
  Forall well_labelled incoming -> Forall well_labelled stored ->
  mergedEvidence stored incoming labels = Ok out ->
  out ⊆ boundedEvidenceOf (incoming ++ stored) /\
  (List.length out <= MaxEvidence)%nat /\ (incoming <> [] -> out <> []) /\
  forall x, x ∈ labels -> explains incoming x \/ explains stored x -> explains out x.
Proof.
  intros Hi Hs. unfold mergedEvidence. set (all := boundedEvidenceOf (incoming ++ stored)).
  assert (Hd : NoDup (map Evidence_Key all)) by (apply fold_citations_keys; apply NoDup_nil_2).
  assert (Hw : Forall well_labelled all).
  { apply fold_citations_Forall; [apply well_labelled_closed|constructor|]. by apply Forall_app. }
  assert (Hne : incoming <> [] -> all <> []).
  { intros Hn. apply fold_citations_nonempty; [by destruct incoming|done]. }
  assert (He : forall x, explains incoming x \/ explains stored x -> explains all x).
  { intros x Hx. apply boundedEvidenceOf_explains, explains_app. done. }
  destruct (Nat.leb_spec (List.length all) MaxEvidence) as [Hle|Hgt].
  { intros [= <-]. naive_solver. }
  intros ([kept taken] & H & Ho)%result_bind_Ok. injection Ho as <-.
  apply keep_explaining_spec in H as (K & _ & Hx); [|done|done|apply keeping_nil].
  destruct (keep_recent_spec all kept taken all) as (H1 & H2 & H3 & H4); [done|done|done|].
  split; [done|]. split; [done|]. split.
  - intros _ E. destruct H4 as [Hk|Hk]; [intros E2; rewrite E2 in Hgt; simpl in Hgt; lia|destruct Hk|done].
    rewrite E in H1. destruct kept as [|o kept]; [done|].
    assert (o ∈ @nil MemoryEvidence) as []%not_elem_of_nil by (apply H1, list_elem_of_here).
  - intros x Hl Hex. destruct (Hx x) as (ev & Hev & Hlx).
    + unfold provenanceLabels. apply list_elem_of_In, List.filter_In.
      split; [by apply list_elem_of_In|]. apply carried_explains; auto.
    + auto.
    + exists ev. auto.
Qed.

(** ** What a row of the store is *)

Record row_ok (id : string) (a : MemoryAssertion) : Prop := {
  ro_id : MA_ID a = id;
  ro_named : id = MemoryAssertionID a;
  ro_valid : MemoryAssertion_Validate a = true;
  ro_scope : forall x, x ∈ ScopeLabels (MA_Scope a) -> x ∈ MA_Labels a;
  ro_labels : label_set (MA_Labels a);
  ro_cited : Forall well_labelled (MA_Evidence a)
}.

(** [Validate], test by test. *)
Record valid_row (a : MemoryAssertion) : Prop := {
  va_identity : ValidateIdentity a = true;
  va_claim : fits MaxMemoryClaimBytes (MA_Claim a) = true;
  va_some : MA_Evidence a <> [];
  va_few : (List.length (MA_Evidence a) <= MaxEvidence)%nat;
  va_cites : Forall (fun ev => cites ev = true) (MA_Evidence a);
  va_counts : (0 <= MA_Confirmed a <= MA_Observations a)%Z;
  va_status : MA_Status a = "" \/ MemoryStatus_Valid (MA_Status a) = true
}.

Lemma Validate_spec a : MemoryAssertion_Validate a = true <-> valid_row a.
Proof.
  unfold MemoryAssertion_Validate, evidence_count, MaxMemoryEvidence.
  rewrite !andb_true_iff, orb_true_iff, !Z.leb_le, forallb_forall, String.eqb_eq. split.
  - intros (((((H1 & H2) & [H3 H4]) & H5) & [[H6 H7] H8]) & H9). split; auto.
    + intros E. rewrite E in H3. simpl in H3. lia.
    + unfold MaxEvidence, MaxMemoryEvidence. lia.
    + apply List.Forall_forall. auto.
  - intros [H1 H2 H3 H4 H5 H6 H7]. unfold MaxEvidence, MaxMemoryEvidence in H4.
    rewrite List.Forall_forall in H5. split_and!; auto; try lia.
    destruct (MA_Evidence a); [done|]. simpl. lia.
Qed.

(** ** Rows by identity *)

Lemma rows_elem m a : a ∈ rows m <-> exists id, mem_values m !! id = Some a.
Proof.
  unfold rows. rewrite list_elem_of_fmap. split.
  - intros ([id b] & -> & H%elem_of_map_to_list). eauto.
  - intros [id H]. exists (id, a). split; [done|]. by apply elem_of_map_to_list.
Qed.

Section Identity.
Context {U : Unicode}.

Lemma byIdentity_Some m a r :
  byIdentity m a = Ok (Some r) -> r ∈ rows m /\ same_identity a r = true.
Proof.
  unfold byIdentity, oneOf. destruct (sort_by _ _) as [|x [|y l]] eqn:E; try done.
  intros [= ->]. assert (r ∈ [r]) as Hr by apply list_elem_of_here.
  rewrite <- E, sort_by_perm in Hr. apply list_elem_of_In, List.filter_In in Hr as [H1 H2].
  split; [by apply list_elem_of_In|done].
Qed.

Lemma byIdentity_None m a :
  byIdentity m a = Ok None <-> forall r, r ∈ rows m -> same_identity a r = false.
Proof.
  unfold byIdentity, oneOf. split.
  - destruct (sort_by _ _) as [|x [|y l]] eqn:E; try done. intros _ r Hr.
    destruct (same_identity a r) eqn:Es; [|done].
    assert (r ∈ @nil MemoryAssertion) as []%not_elem_of_nil.
    rewrite <- E, sort_by_perm. apply list_elem_of_In, List.filter_In. split; [by apply list_elem_of_In|done].
  - intros H. destruct (sort_by _ _) as [|x l] eqn:E; [done|].
    assert (x ∈ x :: l) as Hx by apply list_elem_of_here.
    rewrite <- E, sort_by_perm in Hx. apply list_elem_of_In, List.filter_In in Hx as [H1 H2].
    rewrite H in H2; [done|by apply list_elem_of_In].
Qed.

Lemma neighbours_Ok m a stored covering :
  neighbours m a = Ok (stored, covering) ->
  match stored with
  | Some r => r ∈ rows m /\ same_identity a r = true /\ covering = None
  | None => byIdentity m a = Ok None /\
            from_option (fun c => c ∈ rows m /\ same_identity (a <| MA_AgentID := "" |>) c = true) True covering
  end.
Proof.
  unfold neighbours. intros (s & Hs & H)%result_bind_Ok. destruct s as [r|].
  - injection H as <- <-. apply byIdentity_Some in Hs as [H1 H2]. auto.
  - destruct (String.eqb (MA_AgentID a) ""); [injection H as <- <-; by split|].
    apply result_bind_Ok in H as (c & Hc & H). injection H as <- <-. split; [done|].
    destruct c as [c|]; [|done]. by apply byIdentity_Some in Hc.
Qed.
End Identity.

(** ** What a write may do to a row *)

(** The row [new] is the row [old], later. *)
Record updates (old new : MemoryAssertion) : Prop := {
  up_id : MA_ID new = MA_ID old;
  up_named : named new = named old;
  up_created : MA_CreatedBy new = MA_CreatedBy old /\ MA_CreatedAt new = MA_CreatedAt old;
  up_labels : forall x, x ∈ MA_Labels old -> x ∈ MA_Labels new;
  up_observed : (MA_Observations old <= MA_Observations new)%Z;
  up_confirmed : (MA_Confirmed old <= MA_Confirmed new)%Z
}.

#[export] Instance updates_po : PreOrder updates.
Proof.
  split; [by constructor|]. intros a b c [? ? [] ? ? ?] [? ? [] ? ? ?].
  split; [congruence|congruence|split; congruence|auto|lia|lia].
Qed.

Lemma named_scope a b : named a = named b -> MA_Scope a = MA_Scope b.
Proof. unfold named. intros [= H1 H2 _ _ _ _]. destruct (MA_Scope a), (MA_Scope b). simpl in *. congruence. Qed.

Lemma updates_row_ok id old new :
  row_ok id old -> updates old new -> MemoryAssertion_Validate new = true ->
  label_set (MA_Labels new) -> Forall well_labelled (MA_Evidence new) -> row_ok id new.
Proof.
  intros [R1 R2 R3 R4 R5 R6] [U1 U2 _ U4 _ _] Hv Hl He. split; try done.
  - congruence.
  - rewrite R2. unfold MemoryAssertionID. by rewrite U2.
  - rewrite (named_scope _ _ U2). auto.
Qed.

Lemma Merge_Ok i merged outcome :
  Merge i = Ok (merged, outcome) ->
  match MI_Stored i with
  | Some stored =>
      outcome = Merged /\ MA_Status stored = MemoryActive /\
      exists evidence, merged = merged_row i stored evidence /\
        mergedEvidence (MA_Evidence stored) (MA_Evidence (MI_Incoming i))
          (Labels_Union (MA_Labels stored) (MA_Labels (MI_Incoming i))) = Ok evidence
  | None =>
      match MI_Covering i with
      | Some covering => merged = covering /\ outcome = Covered
      | None => merged = MI_Incoming i /\ outcome = Inserted
      end
  end.
Proof.
  unfold Merge. destruct (MergeOrigin_Valid _); [cbn [negb]|done]. destruct (MI_Stored i) as [stored|].
  - destruct (String.eqb_spec (MA_Status stored) MemoryActive) as [Ea|]; [cbn [negb]|done].
    intros (evidence & He & H)%result_bind_Ok. injection H as <- <-. eauto.
  - destruct (MI_Covering i); intros [= <- <-]; done.
Qed.

Lemma merged_row_updates i stored evidence : updates stored (merged_row i stored evidence).
Proof. split; simpl; try done; try lia. intros x Hx. apply Union_elem. by left. Qed.

(** A write over a row of the store: nothing is lost, the row stays valid, and
    every label some citation explained is still explained. *)
Lemma merged_row_ok i stored evidence :
  mergedEvidence (MA_Evidence stored) (MA_Evidence (MI_Incoming i))
    (Labels_Union (MA_Labels stored) (MA_Labels (MI_Incoming i))) = Ok evidence ->
  row_ok (MA_ID stored) stored -> row_ok (MA_ID (MI_Incoming i)) (MI_Incoming i) ->
  row_ok (MA_ID stored) (merged_row i stored evidence) /\
  forall x, x ∈ MA_Labels (merged_row i stored evidence) ->
    explains (MA_Evidence (MI_Incoming i)) x \/ explains (MA_Evidence stored) x -> explains evidence x.
Proof.
  intros He Rs Ri.
  destruct (mergedEvidence_spec _ _ _ _ (ro_cited _ _ Ri) (ro_cited _ _ Rs) He) as (Hsub & Hfit & Hne & Hex).
  pose proof (ro_valid _ _ Rs) as Vs. pose proof (ro_valid _ _ Ri) as Vi.
  apply Validate_spec in Vs as [], Vi as [].
  assert (Hall : forall P : MemoryEvidence -> Prop, label_closed P ->
    Forall P (MA_Evidence (MI_Incoming i)) -> Forall P (MA_Evidence stored) -> Forall P evidence).
  { intros P Hc H1 H2. rewrite list.Forall_forall. intros ev Hev. apply Hsub in Hev.
    assert (Forall P (boundedEvidenceOf (MA_Evidence (MI_Incoming i) ++ MA_Evidence stored))) as Hf.
    { apply fold_citations_Forall; [done|constructor|by apply Forall_app]. }
    rewrite list.Forall_forall in Hf. auto. }
  split; [|exact Hex]. apply (updates_row_ok _ stored); [done|apply merged_row_updates| | |].
  - apply Validate_spec. split; simpl; auto; [|lia]. apply Hall; [apply cites_closed|done|done].
  - apply Union_set; [apply Rs|apply Ri].
  - apply Hall; [apply well_labelled_closed|apply Ri|apply Rs].
Qed.

(** ** What a resolution answers *)

Lemma hex_printable v : hex_only v = true -> all_bytes printable v = true.
Proof.
  unfold hex_only. induction v as [|c v IH]; simpl; [done|]. rewrite !andb_true_iff. intros [H Hv].
  split; [|by apply IH]. clear -H. revert H.
  destruct c as [[] [] [] [] [] [] [] []]; vm_compute; first [reflexivity|discriminate|congruence].
Qed.

(** A digest that was accepted is not blank. *)
Lemma digestForm_visible v x : digestForm v = Some x -> trim_space v <> "".
Proof.
  unfold digestForm, trimDigest. intros H.
  destruct (Nat.ltb_spec 7 (String.length v)) as [Hl|Hl].
  2: { destruct (Nat.eqb_spec (String.length v) 64), (Nat.eqb_spec (String.length v) 16); simpl in H; try lia.
       done. }
  assert (Hgen : forall w, (String.length w = 64 \/ String.length w = 16)%nat -> hex_only w = true ->
            first_is printable w = true /\ last_is printable w = true).
  { intros w Hw Hh%hex_printable. destruct w as [|c w]; [simpl in Hw; lia|].
    split; [simpl in *; by apply andb_true_iff in Hh as [-> _]|by apply all_bytes_last]. }
  destruct (cut_prefix "sha256:" v) as [r|] eqn:E.
  - apply cut_prefix_Some in E as ->. destruct (_ || _) eqn:Hr in H; [|done]. simpl in H.
    destruct (hex_only r) eqn:Hh; [|done]. rewrite orb_true_iff, !Nat.eqb_eq in Hr.
    destruct (Hgen r Hr Hh) as [Hf Hla]. rewrite trim_space_plain; [done|done|].
    rewrite last_is_app; [done|by intros ->].
  - destruct (_ || _) eqn:Hr in H; [|done]. simpl in H. destruct (hex_only v) eqn:Hh; [|done].
    rewrite orb_true_iff, !Nat.eqb_eq in Hr. destruct (Hgen v Hr Hh) as [Hf Hla].
    rewrite trim_space_plain by done. intros ->. done.
Qed.

Lemma sameDigest_visible a b : sameDigest a b = true -> trim_space b <> "".
Proof.
  unfold sameDigest. destruct (digestForm a); [|done]. destruct (digestForm b) eqn:E; [|done].
  intros _. by eapply digestForm_visible.
Qed.

(** Every answer names labelled steps. *)
Definition labelled_ledger (read : RunID -> result LedgerError (list Step)) : Prop :=
  forall run steps, read run = Ok steps -> Forall (fun s => label_set (S_Labels s)) steps.

Lemma labelsUpTo_set steps n :
  Forall (fun s => label_set (S_Labels s)) steps -> label_set (labelsUpTo steps n).
Proof.
  intros H. unfold labelsUpTo. apply (Forall_take _ (S n)) in H. revert H. generalize (take (S n) steps).
  assert (Hgen : forall l acc, label_set acc -> Forall (fun s => label_set (S_Labels s)) l ->
            label_set (fold_left (fun out s => Labels_Union out (S_Labels s)) l acc)).
  { induction l as [|s l IH]; intros acc Ha Hl; simpl; [done|]. apply Forall_cons in Hl as [].
    apply IH; [by apply Union_set|done]. }
  intros l Hl. apply Hgen; [apply label_set_nil|done].
Qed.

Lemma prove_one_Ok read metadata scope ev r :
  prove_one read metadata scope ev = Ok r -> labelled_ledger read -> cites ev = true ->
  cites r = true /\ well_labelled r.
Proof.
  unfold prove_one. intros (steps & Hs & H)%result_bind_Ok Hread Hc.
  assert (Hl : Forall (fun s => label_set (S_Labels s)) steps).
  { unfold stepsOf in Hs. destruct (read (ME_RunID ev)) as [[|s l]|[]] eqn:E; try done.
    destruct (Scope_Contains _ _); [|done]. injection Hs as <-. by eapply Hread. }
  unfold prove in H. destruct (citedStep _ _ _) as [[[n step] cite]|]; [|done].
  destruct (metadata _) as [| |meta]; [done|done|]. destruct (CM_Erased meta); [done|].
  destruct (sameDigest _ _) eqn:Ed; [|done]. injection H as <-.
  split; [|by apply labelsUpTo_set]. unfold cites in *. simpl.
  rewrite !andb_true_iff, !negb_true_iff, !String.eqb_neq in *. destruct Hc as [[? ?] _].
  split; [done|]. by eapply sameDigest_visible.
Qed.

Lemma Resolve_Ok read metadata scope l out :
  Resolve read metadata scope l = Ok out ->
  Forall2 (fun ev r => prove_one read metadata scope ev = Ok r) l out.
Proof.
  revert out. induction l as [|ev l IH]; intros out H; simpl in H; [injection H as <-; constructor|].
  apply result_bind_Ok in H as (r & Hr & (rs & Hrs & H)%result_bind_Ok). injection H as <-.
  constructor; auto.
Qed.

Lemma resolveEvidence_proved read metadata scope l out :
  resolveEvidence read metadata scope l = Ok (out, proofProved) -> Resolve read metadata scope l = Ok out.
Proof. unfold resolveEvidence. intros H. case_all; done. Qed.

(** What a repair writes fits the row it repairs. *)
Lemma resolved_fits read metadata scope l out :
  Resolve read metadata scope l = Ok out -> labelled_ledger read ->
  Forall (fun ev => cites ev = true) l ->
  let e := dedupeEvidence out in
  Forall (fun ev => cites ev = true) e /\ Forall well_labelled e /\
  (List.length e <= List.length l)%nat /\ (l <> [] -> e <> []).
Proof.
  intros H%Resolve_Ok Hread Hc.
  assert (Hboth : Forall (fun r => cites r = true /\ well_labelled r) out).
  { clear -H Hread Hc. induction H; [constructor|]. apply Forall_cons in Hc as []. constructor; eauto using prove_one_Ok. }
  apply Forall_and in Hboth as [H1 H2]. pose proof (Forall2_length _ _ _ H) as Hl. cbv zeta.
  split; [apply fold_citations_Forall; [apply cites_closed|constructor|done]|].
  split; [apply fold_citations_Forall; [apply well_labelled_closed|constructor|done]|].
  split.
  - destruct (fold_citations_length None out []) as [[_ Hle] _]. unfold dedupeEvidence, boundedEvidenceOf.
    simpl in Hle. lia.
  - intros Hn. apply fold_citations_nonempty; [|done]. intros ->. by inversion H; subst.
Qed.
