(* ===== verification/MemorySafety.v ===== *)
(** * Memories over any history

    Theorems about src/internal/memory. The requests the store is sent arrive in
    any order; a repair and a reactivation read the ledger before they take the
    mutex, so each carries the row it read, whatever happened to that row since. *)

From Stdlib Require Import ZArith Lia Ascii String.
From stdpp Require Import base list strings gmap.
From S2P Require Import Prelude GoStrings Json Regexp Domain Sha256 Step Payload Encode WorkItem State Ledger Ports Memories Evidence MemoryFacts.

Local Open Scope string_scope.

(** ** Requests *)

(** What the resolver reads, and the wall clock. *)
Record world := MkWorld {
  w_read : RunID -> result LedgerError (list Step);
  w_metadata : string -> content_answer;
  w_wall : Time
}.

Inductive memory_request :=
| QAssert (cancelled : bool) (a : MemoryAssertion) (by_ : UserID) (now : Time)
| QDisable (cancelled : bool) (id : string) (scope : Scope) (by_ : UserID) (now : Time)
| QSuggest (cancelled : bool) (wall : Time) (s : MemorySuggestion) (policy : MemoryLearningPolicy)
    (by_ : UserID) (now : Time)
| QAccept (cancelled : bool) (i : AcceptInput)
| QDismiss (cancelled : bool) (id : string) (scope : Scope) (by_ : UserID) (now : Time)
| QReactivate (w : world) (i : ReactivateInput) (snapshot : MemoryAssertion)
| QHydrate (w : world) (now : Time) (stored : MemoryAssertion)
| QHydrateSuggestion (w : world) (now : Time) (stored : MemorySuggestion).

Definition resolve_in (w : world) (scope : Scope) (l : list MemoryEvidence)
    : result MemoryError (list MemoryEvidence * proof_of) :=
  resolveEvidence (w_read w) (w_metadata w) scope l.

Section Histories.
Context {U : Unicode}.

Definition remember (m : MemoryStore) (q : memory_request) : MemoryStore :=
  match q with
  | QAssert cancelled a by_ now => fst (Assert cancelled a by_ now m)
  | QDisable cancelled id scope by_ now => fst (Disable cancelled id scope by_ now m)
  | QSuggest cancelled wall s policy by_ now => fst (Suggest cancelled wall s policy by_ now m)
  | QAccept cancelled i => fst (AcceptSuggestion cancelled i m)
  | QDismiss cancelled id scope by_ now => fst (DismissSuggestion cancelled id scope by_ now m)
  | QReactivate w i snapshot =>
      match resolve_in w (MA_Scope snapshot) (MA_Evidence snapshot) with
      | Ok (_, got) => fst (reactivate_row (w_wall w) i snapshot got m)
      | Err _ => m
      end
  | QHydrate w now stored =>
      match resolve_in w (MA_Scope stored) (MA_Evidence stored) with
      | Ok (resolved, got) => fst (hydrate_row (w_wall w) now stored resolved got m)
      | Err _ => m
      end
  | QHydrateSuggestion w now stored =>
      match resolve_in w (MS_Scope stored) (MS_Evidence stored) with
      | Ok (resolved, got) => fst (hydrate_suggestion_row (w_wall w) now stored resolved got m)
      | Err _ => m
      end
  end.

Definition remembered (qs : list memory_request) : MemoryStore := fold_left remember qs NewMemoryStore.

(** What callers send: labels in their sorted form, one observation at most per
    proposal and no ending of it (the agent's tool sends neither), a ledger of labelled steps, and rows
    that were read from the store. *)
Definition request_ok (q : memory_request) : Prop :=
  match q with
  | QAssert _ a _ _ => label_set (MA_Labels a) /\ Forall well_labelled (MA_Evidence a)
  | QSuggest _ _ s _ _ _ =>
      label_set (MS_Labels s) /\ Forall well_labelled (MS_Evidence s) /\ (MS_Observations s <= 1)%Z /\
      MS_Status s = ""
  | QHydrate w _ stored => labelled_ledger (w_read w) /\ row_ok (MA_ID stored) stored
  | QHydrateSuggestion w _ stored =>
      labelled_ledger (w_read w) /\ row_ok (MS_AssertionID stored) (suggestion_as_assertion stored)
  | _ => True
  end.

(** ** What the store holds *)

Record proposal_ok (n : Z) (id : string) (s : MemorySuggestion) : Prop := {
  po_id : MS_ID s = id;
  po_row : row_ok (MS_AssertionID s) (suggestion_as_assertion s);
  po_seen : (MS_Observations s <= n + 1)%Z;
  po_status : MemorySuggestionStatus_Valid (MS_Status s) = true
}.

Record store_ok (n : Z) (m : MemoryStore) : Prop := {
  so_rows : forall id a, mem_values m !! id = Some a -> row_ok id a;
  so_queue : forall id s, mem_suggestions m !! id = Some s -> proposal_ok n id s
}.

Lemma store_ok_new : store_ok 0 NewMemoryStore.
Proof. split; intros ? ? H; simpl in H; by rewrite lookup_empty in H. Qed.

Lemma ScopeLabels_set scope : label_set (ScopeLabels scope).
Proof. unfold ScopeLabels. repeat case_match; apply label_set_nil || apply NewLabels_set. Qed.

Lemma prepareAssertion_Ok a by_ now p :
  prepareAssertion a by_ now = Ok p ->
  p = stamped_assertion (cleaned_assertion a) by_ now /\ MemoryAssertion_Validate (cleaned_assertion a) = true.
Proof.
  unfold prepareAssertion. intros (u & Hv%guard_err_Ok & H)%result_bind_Ok. by injection H as <-.
Qed.

(** Stamping changes no field that is validated or named. *)
Lemma stamped_assertion_ok a by_ now :
  MemoryAssertion_Validate a = true -> label_set (MA_Labels a) -> Forall well_labelled (MA_Evidence a) ->
  row_ok (MA_ID (stamped_assertion a by_ now)) (stamped_assertion a by_ now).
Proof.
  intros Hv Hl He. split; [reflexivity| |exact Hv| | |exact He].
  - apply MemoryAssertionID_named. reflexivity.
  - intros x Hx. apply Union_elem. by right.
  - apply Union_set; [exact Hl|apply ScopeLabels_set].
Qed.

Lemma prepareAssertion_ok a by_ now p :
  prepareAssertion a by_ now = Ok p -> label_set (MA_Labels a) -> Forall well_labelled (MA_Evidence a) ->
  row_ok (MA_ID p) p.
Proof. intros [-> Hv]%prepareAssertion_Ok Hl He. by apply stamped_assertion_ok. Qed.

Lemma prepareSuggestion_Ok s by_ now p :
  prepareSuggestion s by_ now = Ok p ->
  p = stamped_proposal s by_ now /\ MemorySuggestion_Validate p = true.
Proof.
  unfold prepareSuggestion. intros (u & Hv%guard_err_Ok & H)%result_bind_Ok. by injection H as <-.
Qed.

Section Stamped.
Context (s : MemorySuggestion) (by_ : UserID) (now : Time).
Let p := stamped_proposal s by_ now.

Lemma stamped_named : MS_AssertionID p = MemoryAssertionID (suggestion_as_assertion p).
Proof. apply MemoryAssertionID_named. reflexivity. Qed.

Lemma stamped_labels : MS_Labels p = Labels_Union (MS_Labels s) (ScopeLabels (MS_Scope s)).
Proof. reflexivity. Qed.

Lemma stamped_scope : MS_Scope p = MS_Scope s.
Proof. reflexivity. Qed.

Lemma stamped_evidence : MS_Evidence p = boundedEvidence (MS_Evidence s).
Proof. reflexivity. Qed.

Lemma stamped_seen : MS_Observations p = if (MS_Observations s <=? 0)%Z then 1%Z else MS_Observations s.
Proof. reflexivity. Qed.

Lemma stamped_status :
  MS_Status p = if String.eqb (MS_Status s) "" then MemorySuggestionPending else MS_Status s.
Proof. reflexivity. Qed.
End Stamped.

(** The row a proposal is validated as, from the proposal's own fields. *)
Lemma proposal_row_ok s :
  MS_AssertionID s = MemoryAssertionID (suggestion_as_assertion s) ->
  MemoryAssertion_Validate (suggestion_as_assertion s) = true ->
  (forall x, x ∈ ScopeLabels (MS_Scope s) -> x ∈ MS_Labels s) -> label_set (MS_Labels s) ->
  Forall well_labelled (MS_Evidence s) -> row_ok (MS_AssertionID s) (suggestion_as_assertion s).
Proof. by split. Qed.

Lemma prepareSuggestion_ok s by_ now p :
  prepareSuggestion s by_ now = Ok p -> label_set (MS_Labels s) -> Forall well_labelled (MS_Evidence s) ->
  (MS_Observations s <= 1)%Z -> proposal_ok 0 (MS_ID p) p.
Proof.
  intros [E Hv]%prepareSuggestion_Ok Hl He Ho.
  pose proof (stamped_named s by_ now) as H1. pose proof (stamped_labels s by_ now) as H2.
  pose proof (stamped_scope s by_ now) as H3. pose proof (stamped_evidence s by_ now) as H4.
  pose proof (stamped_seen s by_ now) as H5. pose proof (stamped_status s by_ now) as H6.
  rewrite <- E in H1, H2, H3, H4, H5, H6. clear E.
  unfold MemorySuggestion_Validate in Hv. rewrite !andb_true_iff in Hv. destruct Hv as [[[Hv _] _] Hst].
  split; [done| | |].
  - apply proposal_row_ok; [done|done| | |].
    + intros x Hx. rewrite H2. apply Union_elem. right. by rewrite <- H3.
    + rewrite H2. apply Union_set; [done|apply ScopeLabels_set].
    + rewrite H4. by apply fold_citations_Forall; [apply well_labelled_closed|constructor|].
  - rewrite H5. destruct (MS_Observations s <=? 0)%Z; lia.
  - rewrite H6 in *. revert Hst. destruct (String.eqb_spec (MS_Status s) "") as [|Hn]; [done|].
    rewrite orb_true_iff, String.eqb_eq. by intros [|].
Qed.

(** ** Writes of rows *)

(** A request that brings back the row [old], having proved its citations. *)
Definition revives (q : memory_request) (id : string) (old : MemoryAssertion) : Prop :=
  exists w i snapshot resolved, q = QReactivate w i snapshot /\ RI_ID i = id /\
    MA_Status old = MemoryDisabled /\ sameEvidence (MA_Evidence old) (MA_Evidence snapshot) = true /\
    Resolve (w_read w) (w_metadata w) (MA_Scope snapshot) (MA_Evidence snapshot) = Ok resolved.

Inductive row_write (q : memory_request) (m : MemoryStore) : string -> MemoryAssertion -> Prop :=
| rw_insert a : row_ok (MA_ID a) a -> byIdentity m a = Ok None -> row_write q m (MA_ID a) a
| rw_update id old new :
    mem_values m !! id = Some old -> updates old new -> row_ok id new ->
    (MA_Status new = MemoryActive -> MA_Status old = MemoryActive \/ revives q id old) ->
    row_write q m id new.

Definition rows_change (q : memory_request) (m m' : MemoryStore) : Prop :=
  mem_values m' = mem_values m \/
  exists id a, row_write q m id a /\ mem_values m' = <[id := a]> (mem_values m).

(** A proposal, later: it may end once, and never reopens. *)
Record proposal_updates (old new : MemorySuggestion) : Prop := {
  pu_labels : forall x, x ∈ MS_Labels old -> x ∈ MS_Labels new;
  pu_observed : (MS_Observations old <= MS_Observations new)%Z;
  pu_status : MS_Status old = MemorySuggestionPending \/ MS_Status new = MS_Status old;
  pu_confirmed : MS_Status new = MemorySuggestionAutoConfirmed ->
                 MS_Status old = MemorySuggestionAutoConfirmed \/ LabelUntrusted ∉ MS_Labels new
}.

Definition queue_change (n : Z) (m m' : MemoryStore) : Prop :=
  mem_suggestions m' = mem_suggestions m \/
  exists id s, mem_suggestions m' = <[id := s]> (mem_suggestions m) /\ proposal_ok (n + 1) id s /\
    forall old, mem_suggestions m !! id = Some old -> proposal_updates old s.

Record remembers (n : Z) (q : memory_request) (m m' : MemoryStore) : Prop := {
  rm_rows : rows_change q m m';
  rm_queue : queue_change n m m'
}.

Lemma remembers_same n q m : remembers n q m m.
Proof. split; by left. Qed.

Lemma mergeInto_change q n m a origin m' merged outcome :
  store_ok n m -> row_ok (MA_ID a) a -> mergeInto m a origin = Ok (m', merged, outcome) ->
  mem_suggestions m' = mem_suggestions m /\ rows_change q m m'.
Proof.
  intros S Ra. unfold mergeInto. intros ([stored covering] & Hn & ([r o] & HM & H)%result_bind_Ok)%result_bind_Ok.
  injection H as <- <- <-. split; [by destruct o|].
  apply neighbours_Ok in Hn. destruct stored as [st|].
  - destruct Hn as ([id Hst]%rows_elem & _ & ->). pose proof (so_rows _ _ S _ _ Hst) as Rs.
    apply Merge_Ok in HM as (-> & Ha & evidence & -> & He). cbn [MI_Incoming] in He.
    pose proof (ro_id _ _ Rs) as Hid. rewrite <- Hid in Rs.
    apply (merged_row_ok (MkMergeInput a (Some st) None origin (MA_UpdatedAt a))) in He as [Hrow _]; [|done|done].
    right. exists id, (merged_row (MkMergeInput a (Some st) None origin (MA_UpdatedAt a)) st evidence).
    rewrite Hid in Hrow. split; [|by rewrite <- Hid]. apply rw_update with st; try done.
    + apply merged_row_updates.
    + by left.
  - destruct Hn as [Hn _]. apply Merge_Ok in HM. cbn [MI_Stored MI_Covering MI_Incoming] in HM.
    destruct covering as [c|]; destruct HM as [-> ->]; [by left|].
    right. exists (MA_ID a), a. split; [by apply rw_insert|done].
Qed.

(** ** Each operation *)

Lemma Assert_remembers n cancelled a by_ now m :
  store_ok n m -> request_ok (QAssert cancelled a by_ now) ->
  remembers n (QAssert cancelled a by_ now) m (fst (Assert cancelled a by_ now m)).
Proof.
  intros S [Hl He]. unfold Assert. destruct cancelled; [apply remembers_same|].
  destruct (_ ≫= _) as [[[m' merged] o]|e] eqn:E; [|apply remembers_same].
  apply result_bind_Ok in E as (p & Hp & E).
  apply (mergeInto_change (QAssert false a by_ now)) with (n := n) in E as [Hs Hr];
    [|done|by eapply prepareAssertion_ok].
  destruct o; [split; [done|by left]..|apply remembers_same].
Qed.

Lemma row_update_same q n m id old new :
  store_ok n m -> mem_values m !! id = Some old -> updates old new ->
  (row_ok id old -> row_ok id new) ->
  (MA_Status new = MemoryActive -> MA_Status old = MemoryActive \/ revives q id old) ->
  remembers n q m (put_value m id new).
Proof.
  intros S Ho Hu Hk Hst. split; [|by left]. right. exists id, new. split; [|done].
  apply rw_update with old; auto. apply Hk, (so_rows _ _ S _ _ Ho).
Qed.

(** A write of the status and its stamp. *)
Lemma restatus_ok id a status by_ now expires :
  MemoryStatus_Valid status = true -> row_ok id a ->
  let new := a <| MA_Status := status |> <| MA_UpdatedBy := by_ |> <| MA_UpdatedAt := now |>
               <| MA_ExpiresAt := expires |> in
  row_ok id new /\ updates a new.
Proof.
  intros Hst [R1 R2 R3 R4 R5 R6]. cbv zeta. split; [|by split].
  split; try done. apply Validate_spec in R3 as []. apply Validate_spec. split; simpl; auto.
Qed.

Lemma Disable_remembers n cancelled id scope by_ now m :
  store_ok n m -> remembers n (QDisable cancelled id scope by_ now) m (fst (Disable cancelled id scope by_ now m)).
Proof.
  intros S. unfold Disable. destruct cancelled; [apply remembers_same|].
  destruct (mem_values m !! id) as [a|] eqn:E; [|apply remembers_same].
  destruct (Scope_Contains scope (MA_Scope a)); [|apply remembers_same]. simpl.
  destruct (restatus_ok id a MemoryDisabled by_ now (MA_ExpiresAt a) eq_refl (so_rows _ _ S _ _ E)) as [H1 H2].
  by apply (row_update_same _ n m id a).
Qed.

Lemma reactivate_remembers n w i snapshot m :
  store_ok n m -> remembers n (QReactivate w i snapshot) m (remember m (QReactivate w i snapshot)).
Proof.
  intros S. simpl. destruct (resolve_in _ _ _) as [[resolved got]|] eqn:Er; [|apply remembers_same].
  unfold reactivate_row. destruct (mem_values m !! RI_ID i) as [a|] eqn:E; [|apply remembers_same].
  pose proof (so_rows _ _ S _ _ E) as Ra.
  case_bool_decide as Hg.
  - simpl. destruct (_ && _); [|apply remembers_same].
    destruct (restatus_ok _ a MemorySourceErased systemMemory (nowOrWall (w_wall w) (RI_Now i))
                (MA_ExpiresAt a) eq_refl Ra) as [H1 H2].
    by apply (row_update_same _ n m (RI_ID i) a).
  - destruct (_ ≫= _) as [u|] eqn:Ec; [|apply remembers_same]. simpl.
    apply result_bind_Ok in Ec as (covering & _ & Hc). unfold reactivable in Hc.
    destruct (String.eqb_spec (MA_Status a) MemoryDisabled) as [Hd|]; [|done]. simpl in Hc.
    destruct (sameEvidence _ _) eqn:He; [|done]. simpl in Hc.
    case_bool_decide as Hp; [|done]. subst got. apply resolveEvidence_proved in Er.
    destruct (restatus_ok _ a MemoryActive (RI_By i) (RI_Now i)
                (Some (Time_Add (RI_Now i) DefaultMemoryTTL)) eq_refl Ra) as [H1 H2].
    apply (row_update_same _ n m (RI_ID i) a); [done|done|exact H2|intros _; exact H1|].
    intros _. right. by exists w, i, snapshot, resolved.
Qed.

Lemma hydrated_ok id a w scope l resolved :
  Resolve (w_read w) (w_metadata w) scope l = Ok resolved -> labelled_ledger (w_read w) ->
  Forall (fun ev => cites ev = true) l -> l <> [] -> (List.length l <= MaxEvidence)%nat ->
  row_ok id a ->
  let new := a <| MA_Evidence := dedupeEvidence resolved |>
               <| MA_Labels := Labels_Union (MA_Labels a)
                    (fold_left (fun d ev => Labels_Union d (ME_Labels ev)) (dedupeEvidence resolved) []) |> in
  row_ok id new /\ updates a new.
Proof.
  intros Hr Hl Hc Hn Hle R. cbv zeta. destruct (resolved_fits _ _ _ _ _ Hr Hl Hc) as (H1 & H2 & H3 & H4).
  assert (Hset : forall l acc, label_set acc -> Forall well_labelled l ->
            label_set (fold_left (fun d ev => Labels_Union d (ME_Labels ev)) l acc)).
  { induction l0 as [|ev l0 IH]; intros acc Ha Hf; simpl; [done|]. apply Forall_cons in Hf as [].
    apply IH; [by apply Union_set|done]. }
  assert (Hup : updates a (a <| MA_Evidence := dedupeEvidence resolved |>
               <| MA_Labels := Labels_Union (MA_Labels a)
                    (fold_left (fun d ev => Labels_Union d (ME_Labels ev)) (dedupeEvidence resolved) []) |>)).
  { split; simpl; try done. intros x Hx. apply Union_elem. by left. }
  split; [|exact Hup]. apply (updates_row_ok _ a); [done|exact Hup| | |done].
  - pose proof (ro_valid _ _ R) as V. apply Validate_spec in V as []. apply Validate_spec.
    split; simpl; auto. lia.
  - apply Union_set; [apply R|]. apply Hset; [apply label_set_nil|done].
Qed.

Lemma hydrate_remembers n w now stored m :
  store_ok n m -> request_ok (QHydrate w now stored) ->
  remembers n (QHydrate w now stored) m (remember m (QHydrate w now stored)).
Proof.
  intros S [Hw Hst]. simpl. destruct (resolve_in _ _ _) as [[resolved got]|] eqn:Er; [|apply remembers_same].
  unfold hydrate_row. destruct (mem_values m !! MA_ID stored) as [a|] eqn:E; [|apply remembers_same].
  pose proof (so_rows _ _ S _ _ E) as Ra. destruct (sameEvidence _ _); [|apply remembers_same]. simpl.
  destruct (bool_decide _ && _) eqn:Eg; simpl.
  { destruct (restatus_ok _ a MemorySourceErased systemMemory (nowOrWall (w_wall w) now)
                (MA_ExpiresAt a) eq_refl Ra) as [H1 H2].
    by apply (row_update_same _ n m (MA_ID stored) a). }
  destruct (hydration_writes _) eqn:Ew; [|apply remembers_same]. simpl.
  case_bool_decide as Hp; [|done]. subst got. apply resolveEvidence_proved in Er.
  pose proof (ro_valid _ _ Hst) as V. apply Validate_spec in V as [].
  destruct (hydrated_ok _ a w _ _ resolved Er Hw va_cites va_some va_few Ra) as [H1 H2].
  apply (row_update_same _ n m (MA_ID stored) a); [done|done|exact H2|intros _; exact H1|by left].
Qed.

(** ** The queue *)

Lemma queue_write n m m' id s :
  mem_suggestions m' = <[id := s]> (mem_suggestions m) -> proposal_ok (n + 1) id s ->
  (forall old, mem_suggestions m !! id = Some old -> proposal_updates old s) -> queue_change n m m'.
Proof. intros. right. eauto. Qed.

Lemma proposal_later n id s : proposal_ok n id s -> proposal_ok (n + 1) id s.
Proof. intros []. split; auto. lia. Qed.

(** A write of the ending and its stamp. *)
Lemma ended_ok n id s status covered by_ now :
  MemorySuggestionStatus_Valid status = true -> proposal_ok n id s ->
  proposal_ok n id (s <| MS_Status := status |> <| MS_CoveredBy := covered |>
                      <| MS_UpdatedBy := by_ |> <| MS_UpdatedAt := now |>).
Proof.
  intros Hst [P1 P2 P3 P4]. split; try done. destruct P2 as [R1 R2 R3 R4 R5 R6]. by split.
Qed.

Lemma ended_updates s status covered by_ now :
  MS_Status s = MemorySuggestionPending -> status <> MemorySuggestionAutoConfirmed ->
  proposal_updates s (s <| MS_Status := status |> <| MS_CoveredBy := covered |>
                        <| MS_UpdatedBy := by_ |> <| MS_UpdatedAt := now |>).
Proof. intros Hp Hs. split; simpl; auto; [lia]. Qed.

Lemma pending_in_Some m id scope s :
  pending_in m id scope = Some s ->
  mem_suggestions m !! id = Some s /\ MS_Status s = MemorySuggestionPending.
Proof.
  unfold pending_in. intros (t & Ht & H)%bind_Some. destruct (_ || _) eqn:E; [done|]. injection H as ->.
  apply orb_false_iff in E as [_ E%negb_false_iff%String.eqb_eq]. done.
Qed.

Lemma Dismiss_remembers n cancelled id scope by_ now m :
  store_ok n m ->
  remembers n (QDismiss cancelled id scope by_ now) m (fst (DismissSuggestion cancelled id scope by_ now m)).
Proof.
  intros S. unfold DismissSuggestion. destruct cancelled; [apply remembers_same|].
  destruct (pending_in m id scope) as [s|] eqn:E; [|apply remembers_same].
  apply pending_in_Some in E as [Hs Hp]. split; [by left|].
  eapply queue_write; [reflexivity| |].
  - apply (ended_ok _ _ s MemorySuggestionDismissed (MS_CoveredBy s) by_ now); [done|].
    apply proposal_later, (so_queue _ _ S _ _ Hs).
  - intros old Ho. rewrite Hs in Ho. injection Ho as <-.
    by apply (ended_updates s MemorySuggestionDismissed (MS_CoveredBy s) by_ now).
Qed.

Lemma accepted_ok s i a :
  row_ok (MS_AssertionID s) (suggestion_as_assertion s) -> accepted s i = Ok a -> row_ok (MA_ID a) a.
Proof.
  intros [R1 R2 R3 R4 R5 R6]. unfold accepted. intros (u & Hv%guard_err_Ok & H)%result_bind_Ok.
  set (b := match AI_Claim i with Some claim => _ | None => _ end) in *.
  assert (row_ok (MA_ID b) b) as Rb by (subst b; destruct (AI_Claim i); by split).
  unfold SecretDecision in H. destruct (LooksLikeSecret _); [by injection H as <-| |done].
  destruct (AI_Override i); [|done]. injection H as <-. destruct Rb as [B1 B2 B3 B4 B5 B6].
  split; try done; simpl.
  - intros x Hx. apply Union_elem. left. auto.
  - apply Union_set; [done|apply NewLabels_set].
Qed.

Lemma Accept_remembers n cancelled i m :
  store_ok n m -> remembers n (QAccept cancelled i) m (fst (AcceptSuggestion cancelled i m)).
Proof.
  intros S. unfold AcceptSuggestion. destruct cancelled; [apply remembers_same|].
  destruct (AcceptInput_validate i); [|apply remembers_same]. simpl.
  destruct (pending_in _ _ _) as [s|] eqn:E; [|apply remembers_same].
  apply pending_in_Some in E as [Hs Hp]. destruct (_ ≫= _) as [[[m' merged] o]|] eqn:Em; [|apply remembers_same].
  apply result_bind_Ok in Em as (a & Ha & Em). pose proof (so_queue _ _ S _ _ Hs) as Ps.
  apply (mergeInto_change (QAccept false i)) with (n := n) in Em as [Hq Hr];
    [|done|by eapply accepted_ok; [apply Ps|]].
  simpl. split; [exact Hr|].
  eapply (queue_write n m _ (AI_ID i)); [simpl; rewrite Hq; reflexivity| |].
  - apply proposal_later in Ps. destruct o.
    1,2: by apply (ended_ok _ _ s MemorySuggestionAccepted (MS_CoveredBy s) (AI_By i) (AI_Now i)).
    by apply (ended_ok _ _ s MemorySuggestionCovered (MA_ID merged) (AI_By i) (AI_Now i)).
  - intros old Ho. rewrite Hs in Ho. injection Ho as <-. destruct o.
    1,2: by apply (ended_updates s MemorySuggestionAccepted (MS_CoveredBy s) (AI_By i) (AI_Now i)).
    by apply (ended_updates s MemorySuggestionCovered (MA_ID merged) (AI_By i) (AI_Now i)).
Qed.

Lemma hydrate_suggestion_remembers n w now stored m :
  store_ok n m -> request_ok (QHydrateSuggestion w now stored) ->
  remembers n (QHydrateSuggestion w now stored) m (remember m (QHydrateSuggestion w now stored)).
Proof.
  intros S [Hw Hst]. simpl. destruct (resolve_in _ _ _) as [[resolved got]|] eqn:Er; [|apply remembers_same].
  pose proof (ro_valid _ _ Hst) as V. apply Validate_spec in V as [_ _ Hne Hle Hc _ _]. simpl in *.
  unfold hydrate_suggestion_row.
  destruct (mem_suggestions m !! MS_ID stored) as [s|] eqn:E; [|apply remembers_same].
  pose proof (proposal_later _ _ _ (so_queue _ _ S _ _ E)) as Ps. destruct got; [apply remembers_same| |].
  - destruct (sameEvidence _ _); [|apply remembers_same]. simpl.
    destruct (_ || _) eqn:Ew; [|apply remembers_same]. simpl. split; [by left|].
    apply resolveEvidence_proved in Er.
    destruct (hydrated_ok _ _ w _ _ resolved Er Hw Hc Hne Hle (po_row _ _ _ Ps)) as [H1 H2].
    eapply queue_write; [reflexivity| |].
    + destruct Ps as [P1 P2 P3 P4]. split; try done.
    + intros old Ho. rewrite E in Ho. injection Ho as <-. split; simpl; [apply H2|lia|by right|by left].
  - destruct (String.eqb_spec (MS_Status s) MemorySuggestionPending) as [Hp|]; [|apply remembers_same].
    split; [by left|]. eapply queue_write; [reflexivity| |].
    + by apply (ended_ok _ _ s MemorySuggestionSourceErased (MS_CoveredBy s) systemMemory (nowOrWall (w_wall w) now)).
    + intros old Ho. rewrite E in Ho. injection Ho as <-.
      by apply (ended_updates s MemorySuggestionSourceErased (MS_CoveredBy s) systemMemory (nowOrWall (w_wall w) now)).
Qed.

Lemma bounded_few l : (List.length (boundedEvidence l) <= MaxEvidence)%nat.
Proof.
  destruct (fold_citations_length (Some MaxEvidence) l []) as [_ H].
  apply (H MaxEvidence eq_refl). simpl. lia.
Qed.

Lemma mergeSuggestion_ok n id old next :
  (n + 2 <= int64_max)%Z -> proposal_ok n id old -> proposal_ok 0 id next ->
  MS_Status next = MemorySuggestionPending ->
  proposal_ok (n + 1) id (mergeSuggestion old next) /\ proposal_updates old (mergeSuggestion old next).
Proof.
  intros Hn Po Pn Hpn. unfold mergeSuggestion.
  destruct (String.eqb_spec (MS_Status old) MemorySuggestionPending) as [Hp|]; simpl.
  2: { split; [by apply proposal_later|]. split; auto; lia. }
  pose proof (ro_valid _ _ (po_row _ _ _ Po)) as Vo. apply Validate_spec in Vo as [_ _ So Fo Co No _].
  pose proof (ro_valid _ _ (po_row _ _ _ Pn)) as Vn. apply Validate_spec in Vn as [In Cl Sn Fn Cn Nn _].
  simpl in *. pose proof (po_seen _ _ _ Po) as Hseen.
  assert (Hadd : add64 (MS_Observations old) 1 = (MS_Observations old + 1)%Z).
  { unfold add64. apply wrap64_id, in_int64_spec. unfold int64_max in Hn. lia. }
  assert (Hall : forall P : MemoryEvidence -> Prop, label_closed P -> Forall P (MS_Evidence old) ->
            Forall P (MS_Evidence next) -> Forall P (boundedEvidence (MS_Evidence old ++ MS_Evidence next))).
  { intros P Hc H1 H2. apply fold_citations_Forall; [done|constructor|by apply Forall_app]. }
  destruct Po as [P1 [R1 R2 R3 R4 R5 R6] P3 P4], Pn as [Q1 [T1 T2 T3 T4 T5 T6] Q3 Q4]. split.
  - split; [done| |simpl; rewrite Hadd; destruct (hasNewEvidenceRun _ _); lia|done].
    split; try done; simpl.
    + apply Validate_spec. split; simpl; try done.
      * apply fold_citations_nonempty; [by destruct (MS_Evidence old)|done].
      * apply bounded_few.
      * by apply Hall; [apply cites_closed|..].
      * rewrite Hadd. destruct (hasNewEvidenceRun _ _); lia.
      * by right.
    + intros x Hx. apply Union_elem. right. by apply T4.
    + by apply Union_set.
    + by apply Hall; [apply well_labelled_closed|..].
  - split; simpl; [intros x Hx; apply Union_elem; by left| |by left|by rewrite Hpn].
    rewrite Hadd. destruct (hasNewEvidenceRun _ _); lia.
Qed.

Lemma noticed_ok n m p :
  (n + 2 <= int64_max)%Z -> (0 <= n)%Z -> store_ok n m -> proposal_ok 0 (MS_ID p) p ->
  MS_Status p = MemorySuggestionPending ->
  proposal_ok (n + 1) (MS_ID p) (noticed m p) /\
  forall old, mem_suggestions m !! MS_ID p = Some old -> proposal_updates old (noticed m p).
Proof.
  intros Hn H0 S Pp Hpp. unfold noticed. destruct (mem_suggestions m !! MS_ID p) as [old|] eqn:E.
  - destruct (mergeSuggestion_ok n _ old p Hn (so_queue _ _ S _ _ E) Pp Hpp) as [H1 H2].
    split; [done|]. by intros ? [= <-].
  - split; [|done]. destruct Pp as [P1 P2 P3 P4]. split; auto. lia.
Qed.

Lemma ended_after old s status covered by_ now :
  proposal_updates old s -> MS_Status s = MemorySuggestionPending ->
  status <> MemorySuggestionAutoConfirmed \/ LabelUntrusted ∉ MS_Labels s ->
  proposal_updates old (s <| MS_Status := status |> <| MS_CoveredBy := covered |>
                          <| MS_UpdatedBy := by_ |> <| MS_UpdatedAt := now |>).
Proof.
  intros [U1 U2 U3 _] Hp Hs. split; simpl; auto; [left; destruct U3; congruence|].
  intros ->. right. by destruct Hs.
Qed.

Lemma autoConfirm_remembers n q m s now :
  store_ok n m -> proposal_ok (n + 1) (MS_ID s) s -> MS_Status s = MemorySuggestionPending ->
  (forall old, mem_suggestions m !! MS_ID s = Some old -> proposal_updates old s) ->
  LabelUntrusted ∉ MS_Labels s ->
  remembers n q m (fst (autoConfirmSuggestion m s now)).
Proof.
  intros S Ps Hp Hu Hun. unfold autoConfirmSuggestion. destruct (heldForReview _); simpl.
  { split; [by left|]. eapply queue_write; [reflexivity|done|done]. }
  destruct (mergeInto _ _ _) as [[[m' merged] o]|] eqn:Em; [|apply remembers_same].
  assert (row_ok (MS_AssertionID s) (assertionFromSuggestion s (MS_Observations s) systemMemory now)) as Ra.
  { destruct (po_row _ _ _ Ps) as [R1 R2 R3 R4 R5 R6]. split; try done.
    apply Validate_spec in R3 as []. apply Validate_spec. split; simpl in *; auto. lia. }
  apply (mergeInto_change q) with (n := n) in Em as [Hq Hr]; [|done|done].
  destruct o; simpl.
  1,2: split; [exact Hr|]; eapply (queue_write n m _ (MS_ID s)); [simpl; rewrite Hq; reflexivity| |];
    [by apply (ended_ok _ _ s MemorySuggestionAutoConfirmed (MS_CoveredBy s) (MA_UpdatedBy merged) (MA_UpdatedAt merged))
    |intros old Ho;
     by apply (ended_after old s MemorySuggestionAutoConfirmed (MS_CoveredBy s) (MA_UpdatedBy merged) (MA_UpdatedAt merged)); [apply Hu| |right]].
  split; [by left|]. eapply (queue_write n m _ (MS_ID s)); [reflexivity| |].
  - by apply (ended_ok _ _ s MemorySuggestionCovered (MA_ID merged) (MA_UpdatedBy merged) (MA_UpdatedAt merged)).
  - intros old Ho.
    by apply (ended_after old s MemorySuggestionCovered (MA_ID merged) (MA_UpdatedBy merged) (MA_UpdatedAt merged)); [apply Hu| |left].
Qed.

Lemma Suggest_remembers n cancelled wall s policy by_ now m :
  (n + 2 <= int64_max)%Z -> (0 <= n)%Z -> store_ok n m -> request_ok (QSuggest cancelled wall s policy by_ now) ->
  remembers n (QSuggest cancelled wall s policy by_ now) m (fst (Suggest cancelled wall s policy by_ now m)).
Proof.
  intros Hn H0 S (Hl & He & Ho & Hst). unfold Suggest. destruct cancelled; [apply remembers_same|].
  destruct (MemoryLearningPolicy_Enabled _); [|apply remembers_same]. cbn [negb]. cbv zeta.
  destruct (prepareSuggestion s by_ now) as [p|] eqn:Ep; [|apply remembers_same].
  assert (Hpp : MS_Status p = MemorySuggestionPending).
  { apply prepareSuggestion_Ok in Ep as [-> _]. by rewrite stamped_status, Hst. }
  apply prepareSuggestion_ok in Ep; [|done..].
  destruct (alreadyActiveSuggestion _ _ _ _) as [[out|]|]; [apply remembers_same| |apply remembers_same].
  destruct (noticed_ok n m p Hn H0 S Ep Hpp) as [Pn Hu]. pose proof (po_id _ _ _ Pn) as Hid.
  rewrite <- Hid in Pn, Hu.
  destruct (String.eqb_spec (MS_Status (noticed m p)) MemorySuggestionPending) as [Hp|Hp]; simpl.
  - destruct (AutoConfirms _ _ && _) eqn:Ea.
    { apply autoConfirm_remembers; try done. apply andb_true_iff in Ea as [Ea _].
      apply andb_true_iff in Ea as [_ Ea%negb_true_iff]. intros Hin.
      assert (Labels_HasAny (MS_Labels (noticed m p)) [LabelUntrusted] = true); [|congruence].
      apply HasAny_In; [apply (po_row _ _ _ Pn)|]. exists LabelUntrusted. split; [by left|].
      by apply list_elem_of_In. }
    split; [by left|]. eapply queue_write; [reflexivity|done|done].
  - split; [by left|]. eapply queue_write; [reflexivity|done|done].
Qed.

(** Every request. *)
Lemma remember_remembers n q m :
  (n + 2 <= int64_max)%Z -> (0 <= n)%Z -> store_ok n m -> request_ok q -> remembers n q m (remember m q).
Proof.
  intros Hn H0 S Hq. destruct q; simpl.
  - by apply Assert_remembers.
  - by apply Disable_remembers.
  - by apply Suggest_remembers.
  - by apply Accept_remembers.
  - by apply Dismiss_remembers.
  - by apply reactivate_remembers.
  - by apply hydrate_remembers.
  - by apply hydrate_suggestion_remembers.
Qed.

Lemma remembers_ok n q m m' : store_ok n m -> remembers n q m m' -> store_ok (n + 1) m'.
Proof.
  intros S [Hr Hq]. split; intros id x Hx.
  - destruct Hr as [E|(k & a & Hw & E)]; rewrite E in Hx; [by apply (so_rows _ _ S)|].
    apply lookup_insert_Some in Hx as [[<- <-]|[_ Hx]]; [by destruct Hw|by apply (so_rows _ _ S)].
  - destruct Hq as [E|(k & s & E & Hs & _)]; rewrite E in Hx; [apply proposal_later, (so_queue _ _ S), Hx|].
    apply lookup_insert_Some in Hx as [[<- <-]|[_ Hx]]; [done|]. by apply proposal_later, (so_queue _ _ S).
Qed.

(** ** Over a history *)

Lemma memory_history_ok qs : forall n m, (0 <= n)%Z -> (n + Z.of_nat (List.length qs) + 1 <= int64_max)%Z ->
  store_ok n m -> Forall request_ok qs -> store_ok (n + Z.of_nat (List.length qs)) (fold_left remember qs m).
Proof.
  induction qs as [|q qs IH]; intros n m H0 Hn Sm Hq; [simpl in *; by rewrite Z.add_0_r|].
  apply Forall_cons in Hq as [Hq Hqs]. cbn [fold_left List.length] in *.
  replace (n + Z.of_nat (S (List.length qs)))%Z with ((n + 1) + Z.of_nat (List.length qs))%Z by lia.
  apply IH; [lia|lia| |done]. eapply remembers_ok; [done|]. apply remember_remembers; [lia|done..].
Qed.

(** Different facts under one name. *)
Definition names_collide : Prop :=
  exists a b, named a <> named b /\ MemoryAssertionID a = MemoryAssertionID b.

Lemma insert_collides n m a r :
  store_ok n m -> row_ok (MA_ID a) a -> byIdentity m a = Ok None -> mem_values m !! MA_ID a = Some r ->
  names_collide.
Proof.
  intros S Ra Hn Hr. pose proof (so_rows _ _ S _ _ Hr) as Rr.
  exists r, a. split; [|by rewrite <- (ro_named _ _ Rr), <- (ro_named _ _ Ra)].
  intros E. rewrite byIdentity_None in Hn. assert (r ∈ rows m) as Hin by (apply rows_elem; eauto).
  specialize (Hn r Hin). unfold same_identity in Hn. rewrite (named_scope _ _ E) in Hn.
  assert (MA_AgentID r = MA_AgentID a) as Ea by (unfold named in E; by injection E).
  rewrite Ea, (ro_id _ _ Rr), bool_decide_true, !String.eqb_refl in Hn by done. done.
Qed.

(** What became of a row: it is the same row, later, and if it is active again
    a request of the history brought it back. *)
Definition kept_row (qs : list memory_request) (id : string) (a b : MemoryAssertion) : Prop :=
  updates a b /\
  (MA_Status b = MemoryActive -> MA_Status a = MemoryActive \/
     exists q old, q ∈ qs /\ updates a old /\ revives q id old).

Lemma remembers_kept n q m m' id a :
  store_ok n m -> remembers n q m m' -> mem_values m !! id = Some a ->
  names_collide \/ exists b, mem_values m' !! id = Some b /\ kept_row [q] id a b.
Proof.
  intros S [Hr _] Ha. destruct Hr as [E|(k & b & Hw & E)].
  { right. exists a. rewrite E. split; [done|]. split; [done|by left]. }
  destruct (decide (k = id)) as [->|Hne].
  2: { right. exists a. rewrite E, lookup_insert_ne by done. split; [done|]. split; [done|by left]. }
  destruct Hw as [b Rb Hn|id old b Ho Hu Rb Hst].
  - left. by eapply insert_collides.
  - right. rewrite Ha in Ho. injection Ho as <-. exists b. rewrite E, lookup_insert_eq.
    split; [done|]. split; [done|]. intros Hb. destruct (Hst Hb) as [|Hv]; [by left|]. right.
    exists q, a. split; [apply list_elem_of_here|done].
Qed.

Lemma kept_row_app qs1 qs2 id a b c :
  kept_row qs1 id a b -> kept_row qs2 id b c -> kept_row (qs1 ++ qs2) id a c.
Proof.
  intros [U1 S1] [U2 S2]. split; [by trans b|]. intros Hc.
  destruct (S2 Hc) as [Hb|(q & old & Hq & Hu & Hv)].
  - destruct (S1 Hb) as [|(q & old & Hq & Hu & Hv)]; [by left|]. right. exists q, old.
    split; [apply elem_of_app; by left|done].
  - right. exists q, old. split; [apply elem_of_app; by right|]. split; [by trans b|done].
Qed.

Lemma history_kept qs : forall n m id a, (0 <= n)%Z -> (n + Z.of_nat (List.length qs) + 1 <= int64_max)%Z ->
  store_ok n m -> Forall request_ok qs -> mem_values m !! id = Some a ->
  names_collide \/ exists b, mem_values (fold_left remember qs m) !! id = Some b /\ kept_row qs id a b.
Proof.
  induction qs as [|q qs IH]; intros n m id a H0 Hn S Hq Ha.
  { right. exists a. split; [done|]. split; [done|by left]. }
  apply Forall_cons in Hq as [Hq Hqs]. cbn [fold_left List.length] in *.
  assert (Hr : remembers n q m (remember m q)) by (apply remember_remembers; [lia|done..]).
  destruct (remembers_kept _ _ _ _ _ _ S Hr Ha) as [|(b & Hb & K)]; [by left|].
  destruct (IH (n + 1)%Z (remember m q) id b) as [|(c & Hc & K')]; [lia|lia| |done|done|by left|].
  { by eapply remembers_ok. }
  right. exists c. split; [done|]. by apply (kept_row_app [q] qs id a b c).
Qed.

Lemma history_queue qs : forall n m id s, (0 <= n)%Z -> (n + Z.of_nat (List.length qs) + 1 <= int64_max)%Z ->
  store_ok n m -> Forall request_ok qs -> mem_suggestions m !! id = Some s ->
  exists s', mem_suggestions (fold_left remember qs m) !! id = Some s' /\
    (forall x, x ∈ MS_Labels s -> x ∈ MS_Labels s') /\
    (MS_Status s = MemorySuggestionPending \/ MS_Status s' = MS_Status s) /\
    (MS_Status s' = MemorySuggestionAutoConfirmed ->
     MS_Status s = MemorySuggestionAutoConfirmed \/ LabelUntrusted ∉ MS_Labels s).
Proof.
  induction qs as [|q qs IH]; intros n m id s H0 Hn S Hq Hs.
  { exists s. split; [done|]. split; [done|]. split; [by right|by left]. }
  apply Forall_cons in Hq as [Hq Hqs]. cbn [fold_left List.length] in *.
  assert (Hr : remembers n q m (remember m q)) by (apply remember_remembers; [lia|done..]).
  assert (exists t, mem_suggestions (remember m q) !! id = Some t /\ proposal_updates s t) as (t & Ht & Hu).
  { destruct (rm_queue _ _ _ _ Hr) as [E|(k & t & E & _ & Hu)].
    - exists s. rewrite E. split; [done|]. split; auto. lia.
    - destruct (decide (k = id)) as [->|Hne].
      + exists t. rewrite E, lookup_insert_eq. auto.
      + exists s. rewrite E, lookup_insert_ne by done. split; [done|]. split; auto. lia. }
  destruct (IH (n + 1)%Z (remember m q) id t) as (s' & Hs' & L & P & C); [lia|lia| |done|done|].
  { by eapply remembers_ok. }
  destruct Hu as [U1 _ U3 U4]. exists s'. split; [done|]. split; [auto|]. split.
  - destruct U3 as [|U3]; [by left|]. destruct P as [P|P]; [left; congruence|right; congruence].
  - intros Hc. destruct (C Hc) as [C'|C']; [destruct (U4 C') as [|U4']; [by left|right]|right]; auto.
Qed.

(** Whatever the memory store is sent, in any order and with repairs and
    reactivations deciding about rows that moved meanwhile, every row it holds
    is well formed: it is stored under the name its fields hash to, it passes
    the validation of the domain (one to eight citations that name a run, an
    artifact and a digest; consistent counts; bounded texts; a known status), it
    carries the labels of its scope, and its labels are a sorted set. So is
    every proposal of the queue. *)
Theorem memories_stay_sound qs :
  Forall request_ok qs -> (Z.of_nat (List.length qs) < int64_max)%Z ->
  store_ok (Z.of_nat (List.length qs)) (remembered qs).
Proof. intros Hq Hl. apply (memory_history_ok qs 0); [lia|lia|apply store_ok_new|done]. Qed.


(** What an agent noticed in untrusted data waits for a person. Once a
    proposal of the queue carries the untrusted label, no later sequence of
    requests, however often it is proposed again and under whatever learning
    policy, ends it as confirmed by repetition; and a proposal that ended in any
    way keeps that ending. *)
Theorem untrusted_proposals_wait_for_people qs1 qs2 id s :
  Forall request_ok (qs1 ++ qs2) -> (Z.of_nat (List.length (qs1 ++ qs2)) < int64_max)%Z ->
  mem_suggestions (remembered qs1) !! id = Some s ->
  exists s', mem_suggestions (remembered (qs1 ++ qs2)) !! id = Some s' /\
    (MS_Status s <> MemorySuggestionPending -> MS_Status s' = MS_Status s) /\
    (MS_Status s = MemorySuggestionPending -> LabelUntrusted ∈ MS_Labels s ->
     LabelUntrusted ∈ MS_Labels s' /\ MS_Status s' <> MemorySuggestionAutoConfirmed).
Proof.
  rewrite length_app, Forall_app. intros [H1 H2] Hl Hs. unfold remembered. rewrite fold_left_app.
  destruct (history_queue qs2 (Z.of_nat (List.length qs1)) (fold_left remember qs1 NewMemoryStore) id s)
    as (s' & Hs' & L & P & C); [lia|lia| |done|done|].
  { apply (memory_history_ok qs1 0); [lia|lia|apply store_ok_new|done]. }
  exists s'. split; [done|]. split; [intros Hn; by destruct P|]. intros Hp Hu. split; [auto|].
  intros Hc. destruct (C Hc) as [E|E]; [by rewrite Hp in E|done].
Qed.
End Histories.

(** ** Witnesses: a fact taught, switched off and brought back; a proposal read
    from untrusted data and proposed again *)

Module Recall.
#[local] Existing Instance ascii_unicode.

Definition scope : Scope := MkScope "acme" "ops".
Definition digest_of (c : ascii) : string := "sha256:" +:+ string_of_list_ascii (repeat c 64).

Definition closing : Step :=
  MkStep "run-1" 1 StepRunFinished scope "triage" "v1" "ana"
    (marshal c_RunFinishedPayload (MkRunFinishedPayload "done" "ref-1" (digest_of "a") [] "" "" "" "" None))
    [LabelUntrusted] zeroCost "" "" 0 "" "".

Definition outside : world :=
  MkWorld (fun run => if String.eqb run "run-1" then Ok [closing] else Err ErrNotFound)
    (fun ref => if String.eqb ref "ref-1" then ContentIs (MkContentMetadata (digest_of "a") false)
                else ContentAbsent) 5.

Definition cited (run : RunID) (c : ascii) : MemoryEvidence :=
  MkMemoryEvidence run "" 0 "final_answer" (digest_of c) [].

Definition taught (agent : AgentID) (subject claim : string) (expires : option Time) : MemoryAssertion :=
  MkMemoryAssertion "" scope agent "fact" subject subject claim [cited "run-1" "a"] 1 1 [] "" expires "" 0 "" 0.

Definition noticed_by (agent : AgentID) (run : RunID) (c : ascii) (labels : Labels) : MemorySuggestion :=
  MkMemorySuggestion "" "" scope agent "" "slack alerts" "" "alerts go to ops" [cited run c] 0 labels "" ""
    None "" 0 "" 0.

Definition teach : memory_request := QAssert false (taught "" "Slack Alerts" "alerts go to ops" None) "ana" 1.
Definition id : string := MemoryAssertionID (taught "" "Slack Alerts" "" None).
Definition switch_off : memory_request := QDisable false id scope "ana" 2.
Definition learning : MemoryLearningPolicy := MkMemoryLearningPolicy "auto_confirm" 2 30.
Definition propose (run : RunID) (c : ascii) (labels : Labels) : memory_request :=
  QSuggest false 9 (noticed_by "triage" run c labels) learning "agent:triage" 3.

Definition off : list memory_request := [teach; switch_off].
Definition row : MemoryAssertion :=
  default (taught "" "" "" None) (mem_values (remembered off) !! id).
Definition back : memory_request := QReactivate outside (MkReactivateInput id scope "ana" "checked" 4) row.

Definition asked : list memory_request := [propose "run-1" "a" [LabelUntrusted]].
Definition sid : string :=
  MemorySuggestionID ((noticed_by "triage" "run-1" "a" []) <| MS_Kind := "fact" |> <| MS_Signature := "slack alerts" |>).
Definition proposal : MemorySuggestion :=
  default (noticed_by "" "" "a" []) (mem_suggestions (remembered asked) !! sid).

Lemma requests_ok : Forall request_ok (off ++ [back]) /\ Forall request_ok (asked ++ [propose "run-2" "b" []]).
Proof.
  assert (L0 : label_set []) by constructor. assert (L1 : label_set [LabelUntrusted]) by repeat constructor.
  split; repeat (apply Forall_cons; split); try apply Forall_nil; try done;
    repeat split; simpl; repeat constructor; lia.
Qed.

Lemma row_held : mem_values (remembered off) !! id = Some row.
Proof. vm_compute. reflexivity. Qed.

Lemma proposal_held : mem_suggestions (remembered asked) !! sid = Some proposal.
Proof. vm_compute. reflexivity. Qed.
End Recall.

Lemma memories_stay_sound_witness :
  store_ok 3 (@remembered ascii_unicode (Recall.off ++ [Recall.back])).
Proof.
  apply (@memories_stay_sound ascii_unicode (Recall.off ++ [Recall.back])); [apply Recall.requests_ok|].
  vm_compute. reflexivity.
Defined.


Lemma untrusted_proposals_wait_for_people_witness :
  MS_Status Recall.proposal = MemorySuggestionPending /\ LabelUntrusted ∈ MS_Labels Recall.proposal /\
  exists s', mem_suggestions (@remembered ascii_unicode (Recall.asked ++ [Recall.propose "run-2" "b" []]))
      !! Recall.sid = Some s' /\
    (MS_Status Recall.proposal <> MemorySuggestionPending -> MS_Status s' = MS_Status Recall.proposal) /\
    (MS_Status Recall.proposal = MemorySuggestionPending -> LabelUntrusted ∈ MS_Labels Recall.proposal ->
     LabelUntrusted ∈ MS_Labels s' /\ MS_Status s' <> MemorySuggestionAutoConfirmed).
Proof.
  split; [vm_compute; reflexivity|]. split; [apply (bool_decide_eq_true_1 _); vm_compute; reflexivity|].
  apply (@untrusted_proposals_wait_for_people ascii_unicode Recall.asked [Recall.propose "run-2" "b" []]);
    [apply Recall.requests_ok|vm_compute; reflexivity|apply Recall.proposal_held].
Defined.
