(* ===== verification/MemoryUse.v ===== *)
(** * What the memory store promises its callers

    Theorems about src/internal/memory: one row per fact, what a write over a
    row keeps, when repetition confirms a proposal, and three places where a
    proposal ends without a memory anybody can read. *)

From Stdlib Require Import ZArith Lia Ascii String.
From stdpp Require Import base list strings gmap.
From S2P Require Import Prelude GoStrings Json Regexp Domain Sha256 Step Payload Encode WorkItem State Ledger Ports Memories Evidence MemoryFacts MemorySafety.

Local Open Scope string_scope.

Section Use.
Context {U : Unicode}.

(** ** One row per fact *)

Lemma CanonicalIdentityKey_named a b : named a = named b -> CanonicalIdentityKey a = CanonicalIdentityKey b.
Proof. unfold CanonicalIdentityKey. by intros ->. Qed.

(** Digests are compared, never evaluated. *)
#[local] Opaque CanonicalIdentityKey MemoryAssertionID MemorySuggestionID.

(** The identity of a row, as the spelling rule sees it. *)
Definition fact_of (a : MemoryAssertion) : Scope * AgentID * string :=
  (MA_Scope a, MA_AgentID a, CanonicalIdentityKey a).

Lemma fact_named a b : named a = named b -> fact_of a = fact_of b.
Proof.
  intros E. unfold fact_of. rewrite (named_scope _ _ E), (CanonicalIdentityKey_named _ _ E).
  unfold named in E. by injection E as _ _ -> _ _ _.
Qed.

Definition one_per_fact (m : MemoryStore) : Prop :=
  forall id1 id2 a1 a2, mem_values m !! id1 = Some a1 -> mem_values m !! id2 = Some a2 ->
    fact_of a1 = fact_of a2 -> id1 = id2.

Lemma same_identity_fact a held : fact_of held = fact_of a -> same_identity a held = true.
Proof.
  unfold fact_of, same_identity. rewrite !pair_eq. intros [[-> ->] ->].
  rewrite bool_decide_true, !String.eqb_refl by reflexivity. apply orb_true_r.
Qed.

Lemma remembers_one_per_fact n q m m' :
  store_ok n m -> remembers n q m m' -> one_per_fact m -> one_per_fact m'.
Proof.
  intros S [Hr _] H1. destruct Hr as [E|(k & b & Hw & E)]; unfold one_per_fact; rewrite E; [done|].
  assert (Hb : forall id a, mem_values m !! id = Some a -> fact_of a = fact_of b -> id = k).
  { intros id a Ha Hf. destruct Hw as [b Rb Hn|k old b Ho Hu Rb _].
    - rewrite byIdentity_None in Hn. specialize (Hn a). rewrite same_identity_fact in Hn by done.
      discriminate Hn. apply rows_elem. eauto.
    - apply (H1 id k a old Ha Ho). rewrite Hf. apply fact_named, Hu. }
  intros id1 id2 a1 a2 [[<- <-]|[Hk1 Ha1]]%lookup_insert_Some [[<- <-]|[Hk2 Ha2]]%lookup_insert_Some Hf.
  - done.
  - symmetry. by apply (Hb id2 a2).
  - by apply (Hb id1 a1).
  - by apply (H1 id1 id2 a1 a2).
Qed.

Lemma history_one_per_fact qs : forall n m, (0 <= n)%Z -> (n + Z.of_nat (List.length qs) + 1 <= int64_max)%Z ->
  store_ok n m -> Forall request_ok qs -> one_per_fact m -> one_per_fact (fold_left remember qs m).
Proof.
  induction qs as [|q qs IH]; intros n m H0 Hn Sm Hq H1; [done|].
  apply Forall_cons in Hq as [Hq Hqs]. cbn [fold_left List.length] in *.
  assert (Hr : remembers n q m (remember m q)) by (apply remember_remembers; [lia|done..]).
  apply (IH (n + 1)%Z); [lia|lia|by eapply remembers_ok|done|by eapply remembers_one_per_fact].
Qed.

Lemma rows_NoDup n m : store_ok n m -> NoDup (rows m).
Proof.
  intros S. unfold rows. apply NoDup_alt. intros i j a Hi Hj.
  apply list_lookup_fmap_Some in Hi as ([k1 a1] & E1 & Hi), Hj as ([k2 a2] & E2 & Hj). simpl in *. subst.
  assert (k1 = k2) as <-.
  { assert (H : forall i k, map_to_list (mem_values m) !! i = Some (k, a2) -> MA_ID a2 = k).
    { intros x k Hx. apply (so_rows _ _ S). apply elem_of_map_to_list. by eapply list_elem_of_lookup_2. }
    by rewrite <- (H i k1), (H j k2). }
  exact (NoDup_lookup _ i j _ (NoDup_map_to_list (mem_values m)) Hi Hj).
Qed.

(** Unless two facts collide, a question about an identity has one answer. *)
Lemma byIdentity_answers n m a :
  store_ok n m -> one_per_fact m -> MA_ID a = MemoryAssertionID a ->
  (exists found, byIdentity m a = Ok found) \/
  (exists b, named b <> named a /\ MemoryAssertionID b = MemoryAssertionID a).
Proof.
  intros S H1 Ha. unfold byIdentity, oneOf.
  destruct (sort_by _ _) as [|x [|y l]] eqn:E; [eauto|eauto|]. right.
  assert (Hin : forall z, z ∈ x :: y :: l -> z ∈ rows m /\ same_identity a z = true).
  { intros z Hz. rewrite <- E, sort_by_perm in Hz. apply list_elem_of_In, List.filter_In in Hz.
    by rewrite <- list_elem_of_In in Hz. }
  destruct (Hin x) as [[idx Hx]%rows_elem Sx]; [apply list_elem_of_here|].
  destruct (Hin y) as [[idy Hy]%rows_elem Sy]; [apply list_elem_of_further, list_elem_of_here|].
  assert (Hne : x <> y).
  { intros ->. assert (NoDup (y :: y :: l)) as Hd.
    { rewrite <- E, sort_by_perm.
      apply NoDup_ListNoDup, List.NoDup_filter, NoDup_ListNoDup. by eapply rows_NoDup. }
    apply NoDup_cons in Hd as [Hd _]. apply Hd, list_elem_of_here. }
  assert (Hfact : forall z id, mem_values m !! id = Some z -> same_identity a z = true ->
            fact_of z = fact_of a \/ (named z <> named a /\ MemoryAssertionID z = MemoryAssertionID a)).
  { intros z id Hz Hs. unfold same_identity in Hs. rewrite !andb_true_iff, orb_true_iff in Hs.
    destruct Hs as [[Hsc Hag] Hk]. apply bool_decide_eq_true in Hsc. apply String.eqb_eq in Hag.
    destruct Hk as [Hk|Hk]; apply String.eqb_eq in Hk; [|left; unfold fact_of; by rewrite Hsc, Hag, Hk].
    pose proof (so_rows _ _ S _ _ Hz) as Rz. destruct (decide (named z = named a)) as [En|En].
    - left. by apply fact_named.
    - right. split; [done|]. rewrite <- (ro_named _ _ Rz), <- Ha, <- Hk. symmetry. apply Rz. }
  destruct (Hfact x idx Hx Sx) as [Fx|]; [|eauto]. destruct (Hfact y idy Hy Sy) as [Fy|]; [|eauto].
  exfalso. apply Hne. assert (idx = idy) as <- by (apply (H1 _ _ _ _ Hx Hy); congruence). congruence.
Qed.

(** The store holds one row per fact: over any history no two rows have the
    same scope, agent and canonical spelling, so two people teaching the same
    fact in different case or spacing land on one memory, and a question about
    an identity is never refused for having two answers (short of a collision of
    truncated digests between differently named facts, which is exhibited). This
    holds whatever the Unicode tables say. *)
Theorem facts_have_one_row qs :
  Forall request_ok qs -> (Z.of_nat (List.length qs) < int64_max)%Z ->
  one_per_fact (remembered qs) /\
  forall a, MA_ID a = MemoryAssertionID a ->
    (exists found, byIdentity (remembered qs) a = Ok found) \/
    (exists b, named b <> named a /\ MemoryAssertionID b = MemoryAssertionID a).
Proof.
  intros Hq Hl. assert (H1 : one_per_fact (remembered qs)).
  { apply (history_one_per_fact qs 0); [lia|lia|apply store_ok_new|done|]. intros ? ? ? ? H.
    simpl in H. by rewrite lookup_empty in H. }
  split; [done|]. intros a. eapply byIdentity_answers; [|done].
  apply (memory_history_ok qs 0); [lia|lia|apply store_ok_new|done].
Qed.

(** ** Writing over a row *)

Lemma mergedExpiry_later origin now stored merged t :
  MA_ExpiresAt stored = Some t ->
  exists t', mergedExpiry origin now stored merged = Some t' /\ (t <= t')%Z.
Proof.
  intros E. unfold mergedExpiry, Time_After. rewrite E.
  destruct (learnedSomething _ _ _); simpl; [|exists t; split; [done|lia]].
  destruct (Z.ltb_spec (Time_Add now DefaultMemoryTTL) t); eexists; (split; [done|lia]).
Qed.

Lemma mergeInto_over n m a origin stored m' merged outcome :
  store_ok n m -> row_ok (MA_ID a) a -> byIdentity m a = Ok (Some stored) ->
  mergeInto m a origin = Ok (m', merged, outcome) ->
  let i := MkMergeInput a (Some stored) None origin (MA_UpdatedAt a) in
  outcome = Merged /\ mem_values m' !! MA_ID stored = Some merged /\ row_ok (MA_ID stored) stored /\
  exists evidence, merged = merged_row i stored evidence /\
    mergedEvidence (MA_Evidence stored) (MA_Evidence a) (Labels_Union (MA_Labels stored) (MA_Labels a)) = Ok evidence.
Proof.
  intros S Ra Hb. cbv zeta. unfold mergeInto, neighbours. rewrite Hb. cbn [mbind result_mbind].
  intros ([r o] & HM & H)%result_bind_Ok. injection H as <- <- <-.
  apply byIdentity_Some in Hb as [[id Hst]%rows_elem _]. pose proof (so_rows _ _ S _ _ Hst) as Rs.
  apply Merge_Ok in HM as (-> & _ & evidence & -> & He). rewrite (ro_id _ _ Rs).
  split; [done|]. split; [|eauto]. cbn [mem_values put_value set_field].
  rewrite <- (ro_id _ _ Rs). apply lookup_insert_eq.
Qed.

(** A correction keeps what a memory rests on. Teaching over a row the store
    already has replaces its claim and only that: the row carries the labels of
    both sides and the scope's, at most eight citations, and for every label
    that some citation of either side carried there is still a citation that
    carries it, so a taint never outlives the evidence that explains it; the
    expiry of the row is never brought forward. Where eight citations cannot
    explain every label the write is refused instead. *)
Theorem corrections_stay_explained n m a by_ now prepared stored m' merged :
  store_ok n m -> request_ok (QAssert false a by_ now) ->
  prepareAssertion a by_ now = Ok prepared -> byIdentity m prepared = Ok (Some stored) ->
  Assert false a by_ now m = (m', Ok merged) ->
  mem_values m' !! MA_ID stored = Some merged /\ updates stored merged /\
  MA_Claim merged = MA_Claim prepared /\
  (forall x, x ∈ MA_Labels merged <-> x ∈ MA_Labels stored \/ x ∈ MA_Labels a \/ x ∈ ScopeLabels (MA_Scope a)) /\
  (List.length (MA_Evidence merged) <= MaxEvidence)%nat /\
  (forall x, x ∈ MA_Labels merged -> explains (MA_Evidence a) x \/ explains (MA_Evidence stored) x ->
             explains (MA_Evidence merged) x) /\
  (forall t, MA_ExpiresAt stored = Some t -> exists t', MA_ExpiresAt merged = Some t' /\ (t <= t')%Z).
Proof.
  intros S [Hl He] Hp Hb H. pose proof (prepareAssertion_ok _ _ _ _ Hp Hl He) as Ra.
  unfold Assert in H. rewrite Hp in H. cbn [mbind result_mbind] in H.
  destruct (mergeInto m prepared OriginHuman) as [[[m1 r] o]|] eqn:Em; [|done].
  destruct (mergeInto_over n m prepared OriginHuman stored m1 r o S Ra Hb Em)
    as (-> & Hst & Rs & evidence & -> & Hev).
  injection H as <- <-. set (i := MkMergeInput _ _ _ _ _) in *.
  destruct (merged_row_ok i stored evidence Hev Rs Ra) as [Hrow Hex].
  apply prepareAssertion_Ok in Hp as [Ep _].
  assert (Hpl : MA_Labels prepared = Labels_Union (MA_Labels a) (ScopeLabels (MA_Scope a))) by (by rewrite Ep).
  assert (Hpe : MA_Evidence prepared = MA_Evidence a) by (by rewrite Ep). clear Ep.
  pose proof (ro_valid _ _ Hrow) as V. apply Validate_spec in V as []. cbn [MI_Incoming] in Hex. unfold i in Hex.
  cbn [MI_Incoming] in Hex. rewrite Hpe in Hex.
  split_and!; [done|apply merged_row_updates|done| |done|exact Hex|intros t; apply mergedExpiry_later].
  intros x. change (MA_Labels (merged_row i stored evidence))
    with (Labels_Union (MA_Labels stored) (MA_Labels prepared)). rewrite Hpl, !Union_elem. tauto.
Qed.

(** ** Confirmation by repetition *)

Lemma heldForReview_clean a :
  heldForReview a = false ->
  forall v, v ∈ [MA_Kind a; MA_Subject a; MA_Signature a; MA_Claim a] -> riskOf v = SecretNone.
Proof.
  unfold heldForReview, SecretDecision, LooksLikeSecret. rewrite app_nil_r.
  destruct (worst_risk _ _) eqn:E; [|done|done]. intros _. by apply worst_risk_none in E as [_ E].
Qed.

Lemma Normalize_min p :
  ML_Mode (MemoryLearningPolicy_Normalize p) <> MemoryLearningOff ->
  (2 <= ML_MinObservations (MemoryLearningPolicy_Normalize p) <= 8)%Z.
Proof.
  unfold MemoryLearningPolicy_Normalize, DefaultMemoryLearningMinObservations, MaxMemoryLearningMinObservations,
    MaxMemoryEvidence. cbv zeta. intros H. destruct (String.eqb _ MemoryLearningOff) in *; [done|].
  cbn [ML_MinObservations]. repeat case_match; lia.
Qed.

Lemma Normalize_mode p :
  ML_Mode (MemoryLearningPolicy_Normalize (MemoryLearningPolicy_Normalize p)) =
  ML_Mode (MemoryLearningPolicy_Normalize p).
Proof.
  assert (H : forall q, MemoryLearningMode_Valid (ML_Mode q) = true ->
            ML_Mode (MemoryLearningPolicy_Normalize q) = ML_Mode q).
  { intros q Hq. unfold MemoryLearningPolicy_Normalize. rewrite Hq. cbv zeta.
    destruct (String.eqb_spec (ML_Mode q) "") as [E|_]; [by rewrite E in Hq|].
    destruct (String.eqb_spec (ML_Mode q) MemoryLearningOff) as [E|_]; [by rewrite E|done]. }
  apply H. unfold MemoryLearningPolicy_Normalize. cbv zeta.
  destruct (MemoryLearningMode_Valid (ML_Mode p)) eqn:Ev; [|done].
  destruct (String.eqb (ML_Mode p) ""); [done|].
  destruct (String.eqb (ML_Mode p) MemoryLearningOff); [done|exact Ev].
Qed.

Lemma mergeInto_active n m a origin m' merged outcome :
  store_ok n m -> row_ok (MA_ID a) a -> MA_Status a = MemoryActive ->
  mergeInto m a origin = Ok (m', merged, outcome) -> outcome <> Covered ->
  mem_values m' !! MA_ID merged = Some merged /\ MA_Status merged = MemoryActive /\
  (MA_Confirmed a <= MA_Confirmed merged)%Z.
Proof.
  intros S Ra Hact H Hc. unfold mergeInto in H.
  apply result_bind_Ok in H as ([stored covering] & Hn & ([r o] & HM & H)%result_bind_Ok).
  injection H as <- <- <-. apply neighbours_Ok in Hn. destruct stored as [st|].
  - destruct Hn as (_ & _ & ->). apply Merge_Ok in HM as (-> & Hst & evidence & -> & _).
    split; [apply lookup_insert_eq|]. split; [exact Hst|]. simpl. lia.
  - apply Merge_Ok in HM. cbn [MI_Stored MI_Covering MI_Incoming] in HM.
    destruct covering as [c|]; destruct HM as [-> ->]; [done|].
    split; [apply lookup_insert_eq|]. split; [done|lia].
Qed.

(** What a confirmation by the policy leaves. *)
Lemma confirmed_clean n m s now m' out :
  store_ok n m -> proposal_ok (n + 1) (MS_ID s) s -> MS_Status s = MemorySuggestionPending ->
  autoConfirmSuggestion m s now = (m', Ok out) -> MO_Result out = MemorySuggestAutoConfirmed ->
  exists p a, MO_Suggestion out = Some p /\ MO_Assertion out = Some a /\
    (MS_ID p = MS_ID s /\ MS_Labels p = MS_Labels s /\ MS_Observations p = MS_Observations s /\
     [MS_Kind p; MS_Subject p; MS_Signature p; MS_Claim p] = [MS_Kind s; MS_Subject s; MS_Signature s; MS_Claim s]) /\
    (forall v, v ∈ [MS_Kind p; MS_Subject p; MS_Signature p; MS_Claim p] -> riskOf v = SecretNone) /\
    (mem_values m' !! MA_ID a = Some a /\ MA_Status a = MemoryActive) /\
    (MS_Observations s <= MA_Confirmed a)%Z.
Proof.
  intros S Ps Hp H Hr. unfold autoConfirmSuggestion in H. cbv zeta in H.
  destruct (heldForReview _) eqn:Eh; [injection H as _ <-; done|].
  destruct (mergeInto _ _ _) as [[[m1 merged] o]|] eqn:Em; [|done].
  assert (row_ok (MS_AssertionID s) (assertionFromSuggestion s (MS_Observations s) systemMemory now)) as Ra.
  { destruct (po_row _ _ _ Ps) as [R1 R2 R3 R4 R5 R6]. split; try done.
    apply Validate_spec in R3 as []. apply Validate_spec. split; simpl in *; auto. lia. }
  destruct o; [| |injection H as _ <-; done].
  all: injection H as <- <-; eexists _, merged; split; [reflexivity|]; split; [reflexivity|];
    split; [done|]; split; [exact (heldForReview_clean _ Eh)|];
    destruct (mergeInto_active n m (assertionFromSuggestion s (MS_Observations s) systemMemory now) OriginAutoConfirm _ _ _ S Ra eq_refl Em) as (V1 & V2 & V3); [done|];
    split; [done|exact V3].
Qed.

Lemma already_not_confirmed m p wall now o :
  alreadyActiveSuggestion m p wall now = Ok (Some o) -> MO_Result o = MemorySuggestAlreadyActive.
Proof.
  unfold alreadyActiveSuggestion. intros ([x|] & _ & H)%result_bind_Ok; [|discriminate H].
  by injection H as <-.
Qed.

(** An automatic confirmation comes from one branch of [Suggest] only. *)
Lemma Suggest_confirms cancelled m wall s policy by_ now m' out :
  Suggest cancelled wall s policy by_ now m = (m', Ok out) -> MO_Result out = MemorySuggestAutoConfirmed ->
  exists p, prepareSuggestion s by_ now = Ok p /\ MS_Status (noticed m p) = MemorySuggestionPending /\
    AutoConfirms (MemoryLearningPolicy_Normalize policy) (MS_Labels (noticed m p)) = true /\
    (ML_MinObservations (MemoryLearningPolicy_Normalize policy) <= MS_Observations (noticed m p))%Z /\
    autoConfirmSuggestion m (noticed m p) now = (m', Ok out).
Proof.
  unfold Suggest. destruct cancelled; [discriminate|].
  destruct (MemoryLearningPolicy_Enabled _); cbn [negb]; [|by intros [= _ <-]].
  destruct (prepareSuggestion s by_ now) as [p|]; [|discriminate].
  destruct (alreadyActiveSuggestion _ _ _ _) as [[o|]|] eqn:Eact; [| |discriminate].
  { apply already_not_confirmed in Eact. intros [= _ <-]. by rewrite Eact. }
  clear Eact. cbv zeta. intros H Hr. exists p. split; [reflexivity|]. revert H Hr.
  generalize (noticed m p). intros q.
  destruct (String.eqb_spec (MS_Status q) MemorySuggestionPending) as [Hp|_]; cbn [negb]; [|by intros [= _ <-]].
  destruct (AutoConfirms _ (MS_Labels q)); cbn [andb]; [|by intros [= _ <-]].
  destruct (Z.leb_spec (ML_MinObservations (MemoryLearningPolicy_Normalize policy)) (MS_Observations q));
    [|by intros [= _ <-]].
  auto.
Qed.

Lemma AutoConfirms_spec policy labels :
  label_set labels -> AutoConfirms (MemoryLearningPolicy_Normalize policy) labels = true ->
  ML_Mode (MemoryLearningPolicy_Normalize policy) = MemoryLearningAutoConfirm /\
  (2 <= ML_MinObservations (MemoryLearningPolicy_Normalize policy) <= 8)%Z /\ LabelUntrusted ∉ labels.
Proof.
  intros L [Emode Eun%negb_true_iff]%andb_true_iff. apply String.eqb_eq in Emode. rewrite Normalize_mode in Emode.
  split; [done|]. split; [apply Normalize_min; by rewrite Emode|].
  intros Hin. enough (Labels_HasAny labels [LabelUntrusted] = true) by congruence.
  apply HasAny_In; [done|]. exists LabelUntrusted. split; [by left|]. by apply list_elem_of_In.
Qed.

(** Repetition confirms only what is clean. When a proposal is answered as
    confirmed automatically, the agent's policy asks for that and for between
    two and eight observations, the proposal has been counted at least that
    often, no observation of it that was ever folded in carried the untrusted
    label, none of its texts looks like a credential, and the memory is stored
    and active. *)
Theorem repetition_confirms_only_clean n m wall s policy by_ now m' out :
  (n + 2 <= int64_max)%Z -> (0 <= n)%Z -> store_ok n m -> request_ok (QSuggest false wall s policy by_ now) ->
  Suggest false wall s policy by_ now m = (m', Ok out) -> MO_Result out = MemorySuggestAutoConfirmed ->
  let asked := MemoryLearningPolicy_Normalize policy in
  ML_Mode asked = MemoryLearningAutoConfirm /\ (2 <= ML_MinObservations asked <= 8)%Z /\
  exists p a, MO_Suggestion out = Some p /\ MO_Assertion out = Some a /\
    (ML_MinObservations asked <= MS_Observations p)%Z /\ (LabelUntrusted ∉ MS_Labels p) /\
    (forall old x, mem_suggestions m !! MS_ID p = Some old -> x ∈ MS_Labels old -> x ∈ MS_Labels p) /\
    (forall v, v ∈ [MS_Kind p; MS_Subject p; MS_Signature p; MS_Claim p] -> riskOf v = SecretNone) /\
    mem_values m' !! MA_ID a = Some a /\ MA_Status a = MemoryActive /\
    (ML_MinObservations asked <= MA_Confirmed a)%Z.
Proof.
  intros Hn H0 S (Hl & He & Ho & Hst) H Hr. cbv zeta.
  apply Suggest_confirms in H as (p & Ep & Hp & Ha & Hmin & H); [|exact Hr].
  assert (Hpp : MS_Status p = MemorySuggestionPending).
  { apply prepareSuggestion_Ok in Ep as [-> _]. by rewrite stamped_status, Hst. }
  apply prepareSuggestion_ok in Ep; [|assumption..].
  destruct (noticed_ok n m p Hn H0 S Ep Hpp) as [Pn Hu]. revert Pn Hu Hp Ha Hmin H.
  generalize (noticed m p). intros q Pn Hu Hp Ha Hmin H.
  pose proof (po_id _ _ _ Pn) as Hid. rewrite <- Hid in Pn, Hu.
  apply AutoConfirms_spec in Ha as (A1 & A2 & A3); [|apply (po_row _ _ _ Pn)].
  split; [exact A1|]. split; [exact A2|].
  destruct (confirmed_clean n m q now m' out S Pn Hp H Hr) as (q' & a & H1 & H2 & (E1 & E2 & E3 & _) & H4 & [H5 H5'] & H6).
  exists q', a. rewrite E1, E2, E3.
  split; [exact H1|]. split; [exact H2|]. split; [exact Hmin|]. split; [exact A3|].
  split; [|split; [exact H4|]; split; [exact H5|]; split; [exact H5'|lia]].
  intros old x Hold. by apply (pu_labels _ _ (Hu old Hold)).
Qed.
End Use.

(** ** Where a proposal ends otherwise than the manual says *)

Module Proposals.
#[local] Existing Instance ascii_unicode.
Import Recall.

(** Three distinct runs are asked for. *)
Definition three_runs : MemoryLearningPolicy := MkMemoryLearningPolicy "auto_confirm" 3 30.
Definition seen (run : RunID) (c : ascii) : memory_request :=
  QSuggest false 9 (noticed_by "triage" run c []) three_runs "agent:triage" 3.

(** One run proposing the fact eight times, with arguments spelled differently. *)
Definition eight_times : list memory_request :=
  map (seen "run-1") ["1"; "2"; "3"; "4"; "5"; "6"; "7"; "8"]%char.

Definition status_and_count (qs : list memory_request) : option (MemorySuggestionStatus * Z) :=
  (fun s => (MS_Status s, MS_Observations s)) <$> (mem_suggestions (remembered qs) !! sid).

Definition agree : memory_request := QAccept false (MkAcceptInput sid scope "ana" "right" None false 4).
End Proposals.

(** A full record forgets which runs it counted. A proposal counts a run only
    if none of its citations names it, and keeps the first eight citations: once
    one run has filled the record, a second run is never written down, so each of
    its repetitions counts as a new run. Here an agent whose policy asks for three
    distinct runs has a fact confirmed by two, the second repeating itself;
    without the full record the same repetition is not counted. *)
Theorem a_full_record_recounts_one_run :
  Proposals.status_and_count (map (Proposals.seen "run-1") ["1"; "2"; "3"]%char ++
                              map (Proposals.seen "run-2") ["a"; "b"; "c"]%char) =
    Some (MemorySuggestionPending, 2%Z) /\
  Proposals.status_and_count Proposals.eight_times = Some (MemorySuggestionPending, 1%Z) /\
  Proposals.status_and_count (Proposals.eight_times ++ map (Proposals.seen "run-2") ["a"; "b"]%char) =
    Some (MemorySuggestionAutoConfirmed, 3%Z).
Proof. vm_compute. auto. Qed.

(** A shared memory that is switched off still closes an agent's proposal as
    covered: nothing a run may read answers it, and the proposal is over. *)
Example off_memory_covers :
  let qs := [Recall.teach; Recall.switch_off; Recall.propose "run-1" "a" []; Proposals.agree] in
  fst <$> Proposals.status_and_count qs = Some MemorySuggestionCovered /\
  map MA_Status (@rows (@remembered ascii_unicode qs)) = [MemoryDisabled].
Proof. vm_compute. auto. Qed.

(** Accepting never renews, whatever citations it brings: over a memory that had
    expired, the accepted fact stays out of reach. *)
Example accepting_leaves_expired :
  let qs := [QAssert false (Recall.taught "triage" "Slack Alerts" "alerts go to dev" (Some 2%Z)) "ana" 1;
             Recall.propose "run-7" "b" []; Proposals.agree] in
  fst <$> Proposals.status_and_count qs = Some MemorySuggestionAccepted /\
  map (fun a => (MA_Claim a, List.length (MA_Evidence a), MA_ExpiresAt a, expired a 4%Z))
      (@rows (@remembered ascii_unicode qs)) = [("alerts go to ops", 2%nat, Some 2%Z, true)].
Proof. vm_compute. auto. Qed.

(** A memory with no expiry gains one when it is taught again with a new
    citation, though renewing is said never to shorten. *)
Example renewing_can_shorten :
  map MA_ExpiresAt (@rows (@remembered ascii_unicode
    [Recall.teach;
     QAssert false ((Recall.taught "" "Slack Alerts" "alerts go to ops" None)
                    <| MA_Evidence := [Recall.cited "run-2" "b"] |>) "ana" 5])) =
  [Some (5 + DefaultMemoryTTL)%Z].
Proof. vm_compute. auto. Qed.

Lemma facts_have_one_row_witness :
  @one_per_fact ascii_unicode (@remembered ascii_unicode (Recall.off ++ [Recall.back])) /\
  forall a, MA_ID a = MemoryAssertionID a ->
    (exists found, @byIdentity ascii_unicode (@remembered ascii_unicode (Recall.off ++ [Recall.back])) a = Ok found) \/
    (exists b, named b <> named a /\ MemoryAssertionID b = MemoryAssertionID a).
Proof.
  apply (@facts_have_one_row ascii_unicode (Recall.off ++ [Recall.back])); [apply Recall.requests_ok|].
  vm_compute. reflexivity.
Defined.

Module Corrected.
#[local] Existing Instance ascii_unicode.

Definition before : MemoryStore := remembered [Recall.teach].
Definition spelled : MemoryAssertion :=
  (Recall.taught "" "slack  ALERTS" "alerts go to dev" None) <| MA_Evidence := [Recall.cited "run-2" "b"] |>
    <| MA_Labels := ["pii"] |>.
Definition ready : MemoryAssertion := match prepareAssertion spelled "bia" 5 with Ok p => p | Err _ => spelled end.
Definition held : MemoryAssertion := default spelled (mem_values before !! Recall.id).
Definition left_ : MemoryAssertion := match snd (Assert false spelled "bia" 5 before) with Ok r => r | Err _ => spelled end.

Definition twice : MemoryStore := remembered [Recall.propose "run-1" "a" []].
Definition confirming : MemorySuggestion := Recall.noticed_by "triage" "run-2" "b" [].
Definition answer : MemorySuggestionOutcome :=
  match snd (Suggest false 9 confirming Recall.learning "agent:triage" 3 twice) with
  | Ok o => o | Err _ => MkMemorySuggestionOutcome None None MemorySuggestIgnored end.

Lemma before_ok : store_ok 1 before.
Proof.
  apply (memory_history_ok [Recall.teach] 0); [lia|vm_compute; discriminate|apply store_ok_new|].
  repeat constructor.
Qed.

Lemma twice_ok : store_ok 1 twice.
Proof.
  apply (memory_history_ok [Recall.propose "run-1" "a" []] 0); [lia|vm_compute; discriminate|apply store_ok_new|].
  repeat constructor; simpl; lia.
Qed.
End Corrected.

Lemma corrections_stay_explained_witness :
  mem_values (fst (@Assert ascii_unicode false Corrected.spelled "bia" 5 Corrected.before)) !! MA_ID Corrected.held =
    Some Corrected.left_ /\
  MA_Claim Corrected.left_ = MA_Claim Corrected.ready /\ "pii" ∈ MA_Labels Corrected.left_ /\
  MA_ID Corrected.left_ <> MA_ID Corrected.ready.
Proof.
  assert (Hq : request_ok (QAssert false Corrected.spelled "bia" 5)) by repeat constructor.
  destruct (@corrections_stay_explained ascii_unicode 1 Corrected.before Corrected.spelled "bia" 5 Corrected.ready
              Corrected.held (fst (@Assert ascii_unicode false Corrected.spelled "bia" 5 Corrected.before))
              Corrected.left_ Corrected.before_ok Hq ltac:(vm_compute; reflexivity) ltac:(vm_compute; reflexivity)
              ltac:(vm_compute; reflexivity)) as (H1 & _ & H3 & H4 & _).
  split; [exact H1|]. split; [exact H3|]. split; [|vm_compute; discriminate].
  apply H4. right. left. left.
Defined.

Lemma repetition_confirms_only_clean_witness :
  exists p a, MO_Suggestion Corrected.answer = Some p /\ MO_Assertion Corrected.answer = Some a /\
    (2 <= MS_Observations p)%Z /\
    mem_values (fst (@Suggest ascii_unicode false 9 Corrected.confirming Recall.learning "agent:triage" 3 Corrected.twice))
      !! MA_ID a = Some a.
Proof.
  assert (Hq : request_ok (QSuggest false 9 Corrected.confirming Recall.learning "agent:triage" 3))
    by (repeat constructor; simpl; lia).
  destruct (@repetition_confirms_only_clean ascii_unicode 1 Corrected.twice 9 Corrected.confirming Recall.learning
              "agent:triage" 3 (fst (@Suggest ascii_unicode false 9 Corrected.confirming Recall.learning "agent:triage" 3 Corrected.twice))
              Corrected.answer ltac:(vm_compute; discriminate) ltac:(lia) Corrected.twice_ok Hq
              ltac:(vm_compute; reflexivity) ltac:(vm_compute; reflexivity))
    as (_ & _ & p & a & H1 & H2 & H3 & _ & _ & _ & H7 & _).
  exists p, a. split; [exact H1|]. split; [exact H2|]. split; [exact H3|exact H7].
Defined.
