(* ===== verification/MemorySearch.v ===== *)
(** * Finding memories

    src/internal/memory/search.go, order.go, filter.go, the listings of
    memory.go and memory_suggest.go: the terms of a search, what it means for a
    row to match them, how the rows that match are ranked and where the list is
    cut. *)

From Stdlib Require Import ZArith Lia Ascii String.
From stdpp Require Import base list strings gmap sorting.
From S2P Require Import Prelude GoStrings Json Regexp Domain Ports Memories.

Local Open Scope string_scope.

(** ** Text (strings and unicode/utf8) *)

(** [strings.Index]. *)
Fixpoint index_str (sub s : string) : option nat :=
  if has_prefix sub s then Some 0%nat
  else match s with EmptyString => None | String _ s' => S <$> index_str sub s' end.

(** [strings.ContainsAny] with a set of ASCII characters. *)
Definition ContainsAny (s chars : string) : bool := existsb (one_of chars) (list_ascii_of_string s).

Definition RuneStart (b : N) : bool := negb ((128 <=? b)%N && (b <? 192)%N).

(** [utf8.DecodeLastRuneInString] of a text that is not empty. *)
Definition DecodeLastRune (s : string) : N :=
  let last := (String.length s - 1)%nat in
  if (byte_at last s <? 128)%N then byte_at last s
  else
    let back := List.filter (fun k => (String.length s - 4 <=? k)%nat && (k <? last)%nat)
                  [(String.length s - 2)%nat; (String.length s - 3)%nat; (String.length s - 4)%nat] in
    let start := default (String.length s - 5)%nat (List.find (fun k => RuneStart (byte_at k s)) back) in
    let '(r, size) := DecodeRune (drop_bytes start s) in
    if (start + size =? String.length s)%nat then r else RuneError.

(** [utf8.RuneLen] of a decoded rune. *)
Definition RuneLen (r : N) : nat :=
  if (r <? 128)%N then 1 else if (r <? 2048)%N then 2 else if (r <? 65536)%N then 3 else 4.

(** ** Terms (memory/search.go) *)

Definition maxSearchTerms : nat := 6.
Definition maxSearchTermBytes : nat := 64.

Record parsedSearchTerms := MkParsedSearchTerms {
  ps_terms : list string;
  ps_hasInput : bool;
  ps_omitted : nat
}.

(** The end of the longest run of whole runes that fits, reading [rs] from the
    byte [i]. *)
Fixpoint truncate_at (rs : list (N * nat)) (i last : nat) : nat :=
  match rs with
  | [] => last
  | (r, width) :: rs =>
      let next := (i + RuneLen r)%nat in
      if (maxSearchTermBytes <? next)%nat then last else truncate_at rs (i + width) next
  end.

Definition truncateSearchTerm (term : string) : string :=
  if (String.length term <=? maxSearchTermBytes)%nat then term
  else take_bytes (truncate_at (runes term) 0 0) term.

Definition search_punctuation : string := String "034" "'.,;:()[]{}<>!?".

Definition normalizeSearchTerm (raw : string) : string :=
  let term := Trim raw search_punctuation in
  truncateSearchTerm (if String.eqb term "" then trim_space raw else term).

Definition stopwords : list string := [
  "about"; "algum"; "alguma"; "algumas"; "alguns"; "anything"; "aquela";
  "aquele"; "aqueles"; "aquilo"; "aqui"; "are"; "com"; "coisa";
  "coisas"; "como"; "consegue"; "could"; "das"; "de"; "delas";
  "deles"; "do"; "dos"; "essa"; "essas"; "esse"; "esses"; "esta";
  "estas"; "este"; "estes"; "eu"; "favor"; "find"; "for"; "from";
  "isso"; "isto"; "know"; "me"; "na"; "nas"; "need"; "no"; "nos";
  "para"; "pela"; "pelas"; "pelo"; "pelos"; "please"; "por";
  "preciso"; "problem"; "problema"; "procure"; "procurar"; "quais";
  "qual"; "qualquer"; "que"; "queria"; "quero"; "saber"; "search";
  "sem"; "sobre"; "some"; "something"; "tell"; "that"; "the";
  "these"; "thing"; "this"; "those"; "uma"; "umas"; "uns"; "voce";
  "você"; "want"; "were"; "with"; "without"].

Definition searchStopword (term : string) : bool :=
  (RuneCount term <? 2)%nat || existsb (String.eqb term) stopwords.

Definition shortSearchTerm (term : string) : bool := (RuneCount term =? 2)%nat.

Definition boundedSearchTerms (groups : list (list string)) : list string * nat :=
  let all := List.concat groups in
  (take maxSearchTerms all, (List.length all - maxSearchTerms)%nat).

Definition minFindSearchMatches (terms : nat) : nat := if (terms <=? 1)%nat then terms else 2.

Section Search.
Context {U : Unicode}.

Definition strongSearchTerm (term : string) : bool :=
  if (String.length term <? 6)%nat then false
  else if ContainsAny term "_.-/:=" then true
  else existsb (fun r => IsLetter (fst r)) (runes term) && existsb (fun r => IsDigit (fst r)) (runes term).

(** The words of a query, told apart as they are read: those with weight of
    their own, and the ordinary ones. *)
Fixpoint sort_terms (raw : list string) (seen : gset string) (strong ordinary : list string)
    : list string * list string :=
  match raw with
  | [] => (strong, ordinary)
  | rawTerm :: raw =>
      let term := normalizeSearchTerm rawTerm in
      if String.eqb term "" || bool_decide (term ∈ seen) then sort_terms raw seen strong ordinary
      else
        let seen := {[term]} ∪ seen in
        if strongSearchTerm term then sort_terms raw seen (strong ++ [term])%list ordinary
        else if searchStopword term then sort_terms raw seen strong ordinary
        else sort_terms raw seen strong (ordinary ++ [term])%list
  end.

Definition parseSearchTerms (q : string) : parsedSearchTerms :=
  match Fields (ToLower (trim_space q)) with
  | [] => MkParsedSearchTerms [] false 0
  | raw =>
      let '(strong, ordinary) := sort_terms raw ∅ [] [] in
      let '(out, omitted) := boundedSearchTerms [strong; ordinary] in
      MkParsedSearchTerms out true omitted
  end.

Definition searchTerms (q : string) : list string := ps_terms (parseSearchTerms q).

(** ** Whether a text has a term *)

Definition searchBoundary (s : string) (before : bool) : bool :=
  if String.eqb s "" then true
  else
    let r := if before then fst (DecodeRune s) else DecodeLastRune s in
    negb (IsLetter r) && negb (IsDigit r).

(** Each round looks after the end of the occurrence the one before refused, so
    one more round than the text has bytes is enough. *)
Fixpoint bounded_from (fuel : nat) (haystack term : string) (start : nat) : bool :=
  match fuel with
  | O => false
  | S fuel =>
      match index_str term (drop_bytes start haystack) with
      | None => false
      | Some i =>
          let i := (i + start)%nat in
          let stop := (i + String.length term)%nat in
          (searchBoundary (take_bytes i haystack) false && searchBoundary (drop_bytes stop haystack) true) ||
          bounded_from fuel haystack term stop
      end
  end.

Definition containsBoundedSearchTerm (haystack term : string) : bool :=
  bounded_from (S (String.length haystack)) haystack term 0.

Definition searchTermMatches (haystack term : string) : bool :=
  if shortSearchTerm term then containsBoundedSearchTerm haystack term else contains_str term haystack.

Definition newline : string := String "010" "".

Definition fieldsContainTerms (terms fields : list string) : bool :=
  let haystack := ToLower (join_str newline fields) in forallb (searchTermMatches haystack) terms.

Definition searchable (a : MemoryAssertion) : string :=
  ToLower (join_str newline [MA_Subject a; MA_Signature a; MA_Claim a]).

(** How many of the terms a row has, and how many of the strong ones. *)
Definition searchMatchCounts (a : MemoryAssertion) (terms : list string) : nat * nat :=
  let matched := List.filter (searchTermMatches (searchable a)) terms in
  (List.length matched, List.length (List.filter strongSearchTerm matched)).

Definition hasStrongSearchTerm (terms : list string) : bool := existsb strongSearchTerm terms.

Definition suggestionContainsSearch (s : MemorySuggestion) (q : string) : bool :=
  let parsed := parseSearchTerms q in
  match ps_terms parsed with
  | [] => negb (ps_hasInput parsed)
  | terms => fieldsContainTerms terms [MS_Subject s; MS_Signature s; MS_Claim s]
  end.

Definition containsSearch (a : MemoryAssertion) (q : string) : bool :=
  let parsed := parseSearchTerms q in
  match ps_terms parsed with
  | [] => negb (ps_hasInput parsed)
  | terms => fieldsContainTerms terms [MA_Subject a; MA_Signature a; MA_Claim a]
  end.

Definition findSearchMatches (a : MemoryAssertion) (q : string) : bool :=
  let parsed := parseSearchTerms q in
  match ps_terms parsed with
  | [] => negb (ps_hasInput parsed)
  | terms =>
      let '(matched, strongMatched) := searchMatchCounts a terms in
      if hasStrongSearchTerm terms && (strongMatched =? 0)%nat then false
      else (minFindSearchMatches (List.length terms) <=? matched)%nat
  end.

Definition searchTermWeight (term : string) : Z := if strongSearchTerm term then 4 else 1.

Definition searchScore (a : MemoryAssertion) (terms : list string) : Z :=
  fold_left (fun score term =>
    if searchTermMatches (searchable a) term then (score + searchTermWeight term)%Z else score) terms 0%Z.

(** ** Whether a row answers a question (memory/filter.go) *)

Definition matchesField (got want : string) : bool :=
  String.eqb want "" || String.eqb got (trim_space want).

Definition containsScope (scopes : list Scope) (scope : Scope) : bool :=
  existsb (fun s => Scope_Contains s scope) scopes.

Definition memoryFindMatches (a : MemoryAssertion) (q : MemoryQuery) : bool :=
  if negb (bool_decide (MA_Scope a = MQ_Scope q)) ||
     negb (String.eqb (MA_AgentID a) "" || String.eqb (MA_AgentID a) (MQ_AgentID q)) then false
  else if negb (String.eqb (MA_Status a) MemoryActive) || expired a (MQ_Now q) then false
  else matchesField (MA_Kind a) (MQ_Kind q) && matchesField (MA_Subject a) (MQ_Subject q) &&
       matchesField (MA_Signature a) (MQ_Signature q) && findSearchMatches a (MQ_Search q).

Record ListFilter := MkListFilter {
  F_Scopes : list Scope;
  F_AgentID : AgentID;
  F_Status : string;
  F_Search : string;
  F_Limit : Z;
  F_Now : Time
}.

Definition listMatches (a : MemoryAssertion) (f : ListFilter) : bool :=
  if negb (containsScope (F_Scopes f) (MA_Scope a)) then false
  else if negb (String.eqb (F_AgentID f) "") &&
          negb (String.eqb (MA_AgentID a) "" || String.eqb (MA_AgentID a) (F_AgentID f)) then false
  else if MemoryStatus_Valid (F_Status f) &&
          negb (String.eqb (MA_Status (effectiveStatus a (F_Now f))) (F_Status f)) then false
  else containsSearch a (F_Search f).

Definition suggestionMatches (s : MemorySuggestion) (f : ListFilter) : bool :=
  if negb (containsScope (F_Scopes f) (MS_Scope s)) then false
  else if negb (String.eqb (F_AgentID f) "") &&
          negb (String.eqb (MS_AgentID s) "" || String.eqb (MS_AgentID s) (F_AgentID f)) then false
  else if MemorySuggestionStatus_Valid (F_Status f) && negb (String.eqb (MS_Status s) (F_Status f)) then false
  else suggestionContainsSearch s (F_Search f).

(** ** Ranking (memory/order.go) *)

(** [strings.Compare] and [Time.Compare]. *)
Definition sign_of (c : comparison) : Z := match c with Lt => -1 | Eq => 0 | Gt => 1 end%Z.
Definition str_cmp (x y : string) : Z := sign_of (String.compare x y).
Definition time_cmp (x y : Time) : Z := sign_of (Z.compare x y).

Definition updated_cmp (a b : MemoryAssertion) : Z :=
  let c := time_cmp (MA_UpdatedAt b) (MA_UpdatedAt a) in
  if negb (Z.eqb c 0) then c else str_cmp (MA_ID a) (MA_ID b).

Definition standing_cmp (a b : MemoryAssertion) : Z :=
  if negb (Z.eqb (MA_Confirmed a) (MA_Confirmed b)) then sub64 (MA_Confirmed b) (MA_Confirmed a)
  else if negb (Z.eqb (MA_Observations a) (MA_Observations b)) then sub64 (MA_Observations b) (MA_Observations a)
  else updated_cmp a b.

Definition sortAssertions (out : list MemoryAssertion) : list MemoryAssertion :=
  sort_by (fun a b => (standing_cmp a b <? 0)%Z) out.

Definition found_cmp (terms : list string) (a b : MemoryAssertion) : Z :=
  if negb (Z.eqb (searchScore a terms) (searchScore b terms)) then (searchScore b terms - searchScore a terms)%Z
  else standing_cmp a b.

Definition sortFindAssertions (out : list MemoryAssertion) (search : string) : list MemoryAssertion :=
  match searchTerms search with
  | [] => sortAssertions out
  | terms => sort_by (fun a b => (found_cmp terms a b <? 0)%Z) out
  end.

Definition sortByUpdated (out : list MemoryAssertion) : list MemoryAssertion :=
  sort_by (fun a b => (updated_cmp a b <? 0)%Z) out.

Definition sortSuggestionsByUpdated (out : list MemorySuggestion) : list MemorySuggestion :=
  sort_by (fun a b =>
    let c := time_cmp (MS_UpdatedAt b) (MS_UpdatedAt a) in
    ((if negb (Z.eqb c 0) then c else str_cmp (MS_ID a) (MS_ID b)) <? 0)%Z) out.

(** ** The listings *)

Definition Find (cancelled : bool) (wall : Time) (q : MemoryQuery) (m : MemoryStore)
    : result MemoryError (list MemoryAssertion) :=
  if cancelled then Err ErrMemoryContext
  else
    let q := MkMemoryQuery (MQ_Scope q) (MQ_AgentID q) (MQ_Kind q) (MQ_Subject q) (MQ_Signature q)
               (MQ_Search q) (MQ_Limit q) (nowOrWall wall (MQ_Now q)) in
    let out := List.filter (fun a => memoryFindMatches a q) (rows m) in
    Ok (take (Z.to_nat (MemoryFindLimit (MQ_Limit q))) (sortFindAssertions out (MQ_Search q))).

Definition List_ (cancelled : bool) (wall : Time) (f : ListFilter) (m : MemoryStore)
    : result MemoryError (list MemoryAssertion) :=
  if cancelled then Err ErrMemoryContext
  else
    let f := MkListFilter (F_Scopes f) (F_AgentID f) (F_Status f) (F_Search f) (F_Limit f)
               (nowOrWall wall (F_Now f)) in
    let out := List.filter (fun a => listMatches a f) (rows m) in
    Ok (take (Z.to_nat (MemoryListLimit (F_Limit f))) (sortByUpdated out)).

Definition ListSuggestions (cancelled : bool) (f : ListFilter) (m : MemoryStore)
    : result MemoryError (list MemorySuggestion) :=
  if cancelled then Err ErrMemoryContext
  else
    let out := List.filter (fun s => suggestionMatches s f) ((map_to_list (mem_suggestions m)).*2) in
    Ok (take (Z.to_nat (MemorySuggestLimit (F_Limit f))) (sortSuggestionsByUpdated out)).
End Search.
