(* ===== verification/MemoryRecall.v ===== *)
(** * What a run recalls

    Theorems about src/internal/memory/search.go, order.go and the listings: a
    question is answered with the best of the rows that may be read, whatever
    order the store visits them in, and the terms of a search are bounded. *)

From Stdlib Require Import ZArith Lia Ascii String.
From stdpp Require Import base list strings gmap sorting.
From S2P Require Import Prelude GoStrings Json JsonFacts Regexp Domain WorkItem Ports Memories MemoryFacts MemorySafety MemoryUse MemorySearch.

Local Open Scope string_scope.

Section Recall.
Context {U : Unicode}.

Definition rank (terms : list string) (a : MemoryAssertion) : list Z :=
  [- searchScore a terms; - MA_Confirmed a; - MA_Observations a; - MA_UpdatedAt a]%Z.

(** [a] goes before [b]: it has more of what was asked, or stands on more
    confirmations, more observations, or is more recent. *)
Definition ranks_before (terms : list string) (a b : MemoryAssertion) : bool :=
  lex_before (rank terms a) (rank terms b) (MA_ID a) (MA_ID b).

(** Counters as the Go type holds them. *)
Definition counted_row (a : MemoryAssertion) : Prop :=
  (0 <= MA_Confirmed a <= int64_max)%Z /\ (0 <= MA_Observations a <= int64_max)%Z.

Lemma sub64_counts x y : (0 <= x <= int64_max)%Z -> (0 <= y <= int64_max)%Z -> sub64 x y = (x - y)%Z.
Proof.
  intros Hx Hy. apply wrap64_id, in_int64_spec. unfold int64_max in *. lia.
Qed.

Lemma sign_before x y : (sign_of (Z.compare x y) <? 0)%Z = (x <? y)%Z.
Proof. unfold Z.ltb at 2. by destruct (Z.compare x y). Qed.

Lemma sign_zero x y : Z.eqb (sign_of (Z.compare x y)) 0 = Z.eqb x y.
Proof. destruct (Z.compare_spec x y); simpl; symmetry; [by apply Z.eqb_eq|apply Z.eqb_neq; lia..]. Qed.

Lemma found_before terms a b : counted_row a -> counted_row b ->
  (found_cmp terms a b <? 0)%Z = ranks_before terms a b.
Proof.
  intros [A1 A2] [B1 B2]. unfold found_cmp, standing_cmp, updated_cmp, ranks_before, rank, time_cmp, str_cmp.
  rewrite !sub64_counts by done. cbn [lex_before].
  rewrite sign_zero. rewrite (Z.eqb_sym (MA_UpdatedAt b)).
  assert (E : forall x y : Z, Z.eqb (- x) (- y) = Z.eqb x y) by (intros x y; destruct (Z.eqb_spec x y), (Z.eqb_spec (-x) (-y)); lia).
  rewrite !E. destruct (Z.eqb_spec (searchScore a terms) (searchScore b terms)); cbn [negb]; [|lia].
  destruct (Z.eqb_spec (MA_Confirmed a) (MA_Confirmed b)); cbn [negb]; [|lia].
  destruct (Z.eqb_spec (MA_Observations a) (MA_Observations b)); cbn [negb]; [|lia].
  destruct (Z.eqb_spec (MA_UpdatedAt a) (MA_UpdatedAt b)); cbn [negb]; [|rewrite sign_before; lia].
  unfold String.ltb. by destruct (String.compare (MA_ID a) (MA_ID b)).
Qed.

Lemma sortFind_ranked out q : Forall counted_row out ->
  sortFindAssertions out q = sort_by (ranks_before (searchTerms q)) out.
Proof.
  rewrite list.Forall_forall. intros H. unfold sortFindAssertions, sortAssertions.
  destruct (searchTerms q) as [|t terms] eqn:E; apply sort_by_ext; intros x y Hx Hy;
    rewrite <- found_before by auto; [|done]. unfold found_cmp. by simpl.
Qed.

Lemma ranks_asym terms a b : ranks_before terms a b = true -> ranks_before terms b a = false.
Proof. apply lex_asym. Qed.

Lemma ranks_trans terms a b c :
  ranks_before terms b a = false -> ranks_before terms c b = false -> ranks_before terms c a = false.
Proof. by apply lex_trans. Qed.

(** ** The terms of a search *)

Lemma truncate_at_bound rs : forall i last, (last <= maxSearchTermBytes)%nat ->
  (truncate_at rs i last <= maxSearchTermBytes)%nat.
Proof.
  induction rs as [|[r w] rs IH]; intros i last H; simpl; [done|].
  destruct (Nat.ltb_spec maxSearchTermBytes (i + RuneLen r)); [done|]. by apply IH.
Qed.

Lemma truncate_length t : (String.length (truncateSearchTerm t) <= maxSearchTermBytes)%nat.
Proof.
  unfold truncateSearchTerm. destruct (Nat.leb_spec (String.length t) maxSearchTermBytes); [done|].
  etransitivity; [apply take_bytes_length|]. apply truncate_at_bound. lia.
Qed.

Definition good_terms (seen : gset string) (l : list string) : Prop :=
  NoDup l /\ Forall (fun t => t <> "" /\ t ∈ seen /\ (String.length t <= maxSearchTermBytes)%nat) l.

Lemma sort_terms_good raw : forall seen strong ordinary,
  good_terms seen (strong ++ ordinary) ->
  exists seen', good_terms seen' ((sort_terms raw seen strong ordinary).1 ++ (sort_terms raw seen strong ordinary).2).
Proof.
  induction raw as [|r raw IH]; intros seen strong ordinary H; simpl; [eauto|].
  destruct (String.eqb_spec (normalizeSearchTerm r) "") as [|Hne]; simpl; [by apply IH|].
  destruct (bool_decide (normalizeSearchTerm r ∈ seen)) eqn:Es; [by apply IH|].
  apply bool_decide_eq_false in Es. set (t := normalizeSearchTerm r) in *.
  assert (Hg : forall l, l ≡ₚ t :: strong ++ ordinary -> good_terms ({[t]} ∪ seen) l).
  { intros l Hl. destruct H as [Hd Hf]. split.
    - rewrite Hl. constructor; [|done]. intros Hin. rewrite list.Forall_forall in Hf. by apply Hf in Hin as (_ & ? & _).
    - rewrite Hl. constructor.
      + split; [done|]. split; [set_solver|apply truncate_length].
      + eapply List.Forall_impl; [|exact Hf]. intros x (? & ? & ?). set_solver. }
  assert (Hw : good_terms ({[t]} ∪ seen) (strong ++ ordinary)).
  { destruct (Hg _ (Permutation_refl _)) as [Hd Hf]. by inversion Hd; inversion Hf. }
  destruct (strongSearchTerm t); [apply IH, Hg; solve_Permutation|].
  destruct (searchStopword t); apply IH; [done|]. apply Hg. solve_Permutation.
Qed.

Lemma parse_terms_good q :
  NoDup (searchTerms q) /\ (List.length (searchTerms q) <= maxSearchTerms)%nat /\
  Forall (fun t => t <> "" /\ (String.length t <= maxSearchTermBytes)%nat) (searchTerms q).
Proof.
  unfold searchTerms, parseSearchTerms. destruct (Fields _) as [|r raw]; [repeat constructor; simpl; lia|].
  destruct (sort_terms_good (r :: raw) ∅ [] []) as [seen [Hd Hf]]; [repeat constructor|].
  destruct (sort_terms (r :: raw) ∅ [] []) as [strong ordinary]. cbn [fst snd] in *.
  cbn [boundedSearchTerms ps_terms List.concat]. rewrite app_nil_r. split_and!.
  - eapply sublist_NoDup; [exact Hd|]. apply sublist_take.
  - rewrite length_take. lia.
  - apply Forall_take. eapply List.Forall_impl; [|exact Hf]. simpl. tauto.
Qed.

(** ** Whole words *)

Lemma drop_bytes_0 s : drop_bytes 0 s = s.
Proof. by destruct s. Qed.

Lemma drop_drop i : forall j s, drop_bytes j (drop_bytes i s) = drop_bytes (i + j) s.
Proof. induction i as [|i IH]; intros j [|c s]; simpl; try done; by destruct j. Qed.

Lemma index_Some sub s : forall i, index_str sub s = Some i ->
  has_prefix sub (drop_bytes i s) = true /\ forall j, (j < i)%nat -> has_prefix sub (drop_bytes j s) = false.
Proof.
  induction s as [|c s IH]; intros i; cbn [index_str]; destruct (has_prefix sub _) eqn:E.
  - intros [= <-]. split; [done|]. lia.
  - done.
  - intros [= <-]. split; [done|]. lia.
  - destruct (index_str sub s) as [k|]; [|done]. intros [= <-]. destruct (IH k eq_refl) as [H1 H2].
    split; [done|]. intros [|j] Hj; [done|]. apply H2. lia.
Qed.

Lemma index_None sub s : index_str sub s = None -> forall j, has_prefix sub (drop_bytes j s) = false.
Proof.
  induction s as [|c s IH]; cbn [index_str]; destruct (has_prefix sub _) eqn:E; try done.
  - by intros _ [|j].
  - destruct (index_str sub s); [done|]. intros _ [|j]; [done|]. by apply IH.
Qed.

(** [term] stands at the byte [i] with no letter or digit against it. *)
Definition whole_word (haystack term : string) (i : nat) : Prop :=
  has_prefix term (drop_bytes i haystack) = true /\
  searchBoundary (take_bytes i haystack) false = true /\
  searchBoundary (drop_bytes (i + String.length term) haystack) true = true.

(** No end of the term is also its beginning, so it never overlaps itself. *)
Definition unbordered (term : string) : bool :=
  forallb (fun k => negb (String.eqb (take_bytes (String.length term - k) term) (drop_bytes k term)))
    (seq 1 (String.length term - 1)).

Lemma take_app_le n a b : (n <= String.length a)%nat -> take_bytes n (a +:+ b) = take_bytes n a.
Proof.
  revert n. induction a as [|c a IH]; intros [|n] H; simpl in *; try done; [lia|].
  f_equal. apply IH. lia.
Qed.

Lemma drop_app_le n a b : (n <= String.length a)%nat -> drop_bytes n (a +:+ b) = drop_bytes n a +:+ b.
Proof.
  revert n. induction a as [|c a IH]; intros [|n] H; simpl in *; try done; [lia|].
  apply IH. lia.
Qed.

Lemma overlap_bordered t s k :
  has_prefix t s = true -> has_prefix t (drop_bytes k s) = true -> (0 < k < String.length t)%nat ->
  unbordered t = false.
Proof.
  intros H1%has_prefix_app H2%has_prefix_app Hk. destruct (unbordered t) eqn:E; [|done]. exfalso.
  unfold unbordered in E. rewrite forallb_forall in E. specialize (E k ltac:(apply in_seq; lia)).
  apply negb_true_iff, String.eqb_neq in E. apply E.
  rewrite H1, drop_app_le in H2 by lia. apply (f_equal (take_bytes (String.length t - k))) in H2.
  rewrite (take_app_le _ t) in H2 by lia. rewrite <- H2.
  rewrite take_app_le by (rewrite drop_length; lia).
  rewrite <- (drop_length k t). apply take_all.
Qed.

Lemma bounded_from_spec h t : unbordered t = true -> t <> "" -> forall fuel start,
  (String.length h < fuel + start)%nat -> (start <= String.length h)%nat ->
  bounded_from fuel h t start = true <-> exists i, (start <= i)%nat /\ whole_word h t i.
Proof.
  intros Hu Ht. assert (0 < String.length t)%nat as Hlt by (destruct t; [done|simpl; lia]).
  induction fuel as [|fuel IH]; intros start Hf Hs; [lia|]. cbn [bounded_from].
  destruct (index_str t (drop_bytes start h)) as [k|] eqn:E.
  - apply index_Some in E as [Hp Hmin]. rewrite drop_drop in Hp.
    rewrite (Nat.add_comm start k) in Hp. set (i := (k + start)%nat) in *. rewrite orb_true_iff, andb_true_iff.
    pose proof (has_prefix_length _ _ Hp) as Hlen. rewrite drop_length in Hlen.
    rewrite IH by lia. split.
    + intros [[B1 B2]|(j & Hj & Hw)]; [exists i; split; [lia|done]|exists j; split; [lia|done]].
    + intros (j & Hj & Hw). destruct (Nat.lt_trichotomy j i) as [Hji|[->|Hji]].
      * exfalso. destruct Hw as [Hw _]. specialize (Hmin (j - start)%nat ltac:(lia)). rewrite drop_drop in Hmin.
        replace (start + (j - start))%nat with j in Hmin by lia. congruence.
      * left. apply Hw.
      * right. exists j. split; [|done]. destruct (Nat.le_gt_cases (i + String.length t) j) as [|Hov]; [done|].
        exfalso. destruct Hw as [Hw _]. replace j with (i + (j - i))%nat in Hw by lia. rewrite <- drop_drop in Hw.
        rewrite (overlap_bordered t (drop_bytes i h) (j - i)) in Hu; [done|done|done|lia].
  - split; [done|]. intros (j & Hj & Hw & _). pose proof (index_None _ _ E (j - start)) as Hn.
    rewrite drop_drop in Hn. replace (start + (j - start))%nat with j in Hn by lia. congruence.
Qed.

(** A short search term matches whole words. The scan for a term of two
    characters, which moves past each place it refuses, finds the term exactly
    when it stands somewhere in the text with no letter or digit on either side,
    for every term that cannot overlap itself; the loop ends after at most one
    round per byte. *)
Theorem short_terms_match_whole_words haystack term :
  unbordered term = true -> term <> "" ->
  containsBoundedSearchTerm haystack term = true <-> exists i, whole_word haystack term i.
Proof.
  intros Hu Ht. unfold containsBoundedSearchTerm. rewrite bounded_from_spec by (done || lia).
  split; [intros (i & _ & H); eauto|]. intros [i H]. exists i. split; [lia|done].
Qed.

(** ** The answer *)

(** What a question of an agent may read. *)
Record readable (q : MemoryQuery) (now : Time) (a : MemoryAssertion) : Prop := {
  rd_scope : MA_Scope a = MQ_Scope q;
  rd_agent : MA_AgentID a = "" \/ MA_AgentID a = MQ_AgentID q;
  rd_active : MA_Status a = MemoryActive;
  rd_live : forall t, MA_ExpiresAt a = Some t -> (now < t)%Z;
  rd_search : findSearchMatches a (MQ_Search q) = true
}.

Definition at_time (q : MemoryQuery) (now : Time) : MemoryQuery :=
  MkMemoryQuery (MQ_Scope q) (MQ_AgentID q) (MQ_Kind q) (MQ_Subject q) (MQ_Signature q)
    (MQ_Search q) (MQ_Limit q) now.

Lemma find_matches_readable a q now : memoryFindMatches a (at_time q now) = true -> readable q now a.
Proof.
  unfold memoryFindMatches. cbn [at_time MQ_Scope MQ_AgentID MQ_Now MQ_Search MQ_Kind MQ_Subject MQ_Signature].
  destruct (bool_decide_reflect (MA_Scope a = MQ_Scope q)) as [Hs|]; cbn [negb orb]; [|done].
  destruct (String.eqb (MA_AgentID a) "" || _) eqn:Ea; cbn [negb]; [|done].
  destruct (String.eqb_spec (MA_Status a) MemoryActive) as [Hst|]; cbn [negb orb]; [|done].
  destruct (expired a now) eqn:Ee; [done|]. intros H. apply andb_true_iff in H as [_ H].
  split; try done.
  - apply orb_true_iff in Ea as [?%String.eqb_eq|?%String.eqb_eq]; auto.
  - intros t Ht. unfold expired in Ee. rewrite Ht in Ee. apply negb_false_iff in Ee.
    unfold Time_After in Ee. lia.
Qed.

Lemma find_limit_range z : (1 <= MemoryFindLimit z <= 10)%Z.
Proof.
  unfold MemoryFindLimit, bounded_limit, MaxMemoryFindLimit.
  destruct (Z.leb_spec z 0); [lia|]. destruct (Z.ltb_spec 10 z); lia.
Qed.

Lemma rows_distinct n m x y : store_ok n m -> x ∈ rows m -> y ∈ rows m -> MA_ID x = MA_ID y -> x = y.
Proof.
  intros S [i Hx]%rows_elem [j Hy]%rows_elem E.
  rewrite (ro_id _ _ (so_rows _ _ S _ _ Hx)), (ro_id _ _ (so_rows _ _ S _ _ Hy)) in E. congruence.
Qed.

Lemma sortFind_elem out q a : a ∈ sortFindAssertions out q <-> a ∈ out.
Proof. unfold sortFindAssertions, sortAssertions. destruct (searchTerms q); by rewrite sort_by_perm. Qed.

Lemma find_answer wall q m found : Find false wall q m = Ok found ->
  Forall (readable q (nowOrWall wall (MQ_Now q))) found /\ (List.length found <= 10)%nat.
Proof.
  pose proof (find_limit_range (MQ_Limit q)) as Hl. unfold Find. cbv zeta.
  cbn [MQ_Limit MQ_Search]. intros H. injection H as <-. split; [|rewrite length_take; lia].
  apply Forall_take, list.Forall_forall. intros a. rewrite sortFind_elem.
  intros [_ Ha]%list_elem_of_In%List.filter_In. by apply find_matches_readable.
Qed.

(** C31. What a run recalls is the best of what it may read. In any coherent store
    a question gets at most ten rows, or as many as it asked for; every row is of
    exactly the scope asked about, belongs to the asking agent or to all, is
    active and unexpired at the time of asking, and has what was searched for;
    the rows come best first, none of those left out ranks before any that is
    there, and nothing is left out while there is room. The answer does not
    depend on the order the store's map is visited in. *)
Theorem recall_is_the_best_readable n m wall q now found :
  store_ok n m -> Forall counted_row (rows m) -> now = nowOrWall wall (MQ_Now q) ->
  Find false wall q m = Ok found ->
  Forall (readable q now) found /\ (List.length found <= 10)%nat /\
  StronglySorted (fun a b => ranks_before (searchTerms (MQ_Search q)) b a = false) found /\
  (exists others,
     found ++ others ≡ₚ List.filter (fun a => memoryFindMatches a (at_time q now)) (rows m) /\
     (forall a b, a ∈ found -> b ∈ others -> ranks_before (searchTerms (MQ_Search q)) b a = false) /\
     (others <> [] -> Z.of_nat (List.length found) = MemoryFindLimit (MQ_Limit q))) /\
  (forall visited, visited ≡ₚ rows m ->
     take (Z.to_nat (MemoryFindLimit (MQ_Limit q)))
       (sortFindAssertions (List.filter (fun a => memoryFindMatches a (at_time q now)) visited) (MQ_Search q)) = found).
Proof.
  intros S Hc -> H. pose proof (find_limit_range (MQ_Limit q)) as Hl.
  unfold Find in H. cbv zeta in H. fold (at_time q (nowOrWall wall (MQ_Now q))) in H.
  cbn [at_time MQ_Limit MQ_Search] in H. set (now := nowOrWall wall (MQ_Now q)) in *.
  set (want := fun a => memoryFindMatches a (at_time q now)) in *.
  assert (Hcount : forall l, (forall a, a ∈ l -> a ∈ rows m) -> Forall counted_row (List.filter want l)).
  { intros l Hin. apply list.Forall_forall. intros a [Ha _]%list_elem_of_In%List.filter_In.
    rewrite list.Forall_forall in Hc. apply Hc, Hin, list_elem_of_In, Ha. }
  rewrite sortFind_ranked in H by (by apply Hcount).
  assert (Ef : take (Z.to_nat (MemoryFindLimit (MQ_Limit q)))
                 (sort_by (ranks_before (searchTerms (MQ_Search q))) (List.filter want (rows m))) = found)
    by congruence. clear H.
  destruct (sort_by_cut (ranks_before (searchTerms (MQ_Search q))) (List.filter want (rows m))
              (Z.to_nat (MemoryFindLimit (MQ_Limit q))) (ranks_asym _) (ranks_trans _)) as (Hp & Hs & Hb).
  cbv zeta in Hp, Hs, Hb. rewrite Ef in Hp, Hs, Hb.
  set (others := drop _ (sort_by _ _)) in Hp, Hb. split_and!.
  - apply list.Forall_forall. intros a Ha. apply find_matches_readable.
    assert (Hin : a ∈ List.filter want (rows m)) by (rewrite <- Hp; set_solver).
    by apply list_elem_of_In, List.filter_In in Hin as [_ Hin].
  - rewrite <- Ef, length_take. lia.
  - done.
  - exists others. split; [done|]. split; [done|]. intros Hne. rewrite <- Ef, length_take.
    enough (Z.to_nat (MemoryFindLimit (MQ_Limit q)) <= List.length (sort_by (ranks_before (searchTerms (MQ_Search q))) (List.filter want (rows m))))%nat by lia.
    destruct (Nat.le_gt_cases (Z.to_nat (MemoryFindLimit (MQ_Limit q)))
                (List.length (sort_by (ranks_before (searchTerms (MQ_Search q))) (List.filter want (rows m))))) as [|Hgt]; [done|].
    exfalso. apply Hne, drop_ge. lia.
  - intros visited Hv. rewrite <- Ef.
    rewrite sortFind_ranked by (apply Hcount; intros a Ha; by rewrite <- Hv). f_equal.
    apply sort_by_visit; [apply ranks_asym|apply ranks_trans| |by apply filter_bool_perm].
    intros x y [Hx _]%list_elem_of_In%List.filter_In [Hy _]%list_elem_of_In%List.filter_In H1 H2.
    apply (rows_distinct n m); [done|by rewrite <- Hv; apply list_elem_of_In..|].
    eapply (lex_total (rank _ x) (rank _ y)); [done|exact H1|exact H2].
Qed.
End Recall.

Module Asked.
#[local] Existing Instance ascii_unicode.

(** Two facts, one of them confirmed twice, and one that has expired. *)
Definition lesson (subject claim : string) (times : Z) (expires : option Time) : memory_request :=
  QAssert false ((Recall.taught "" subject claim expires) <| MA_Observations := times |> <| MA_Confirmed := times |>) "ana" 1.

Definition taught_store : MemoryStore :=
  remembered [lesson "slack alerts" "alerts go to ops" 1 None; lesson "slack archive" "alerts older than a year" 2 None;
              lesson "slack outage" "alerts were lost" 3 (Some 4%Z)].

Definition question : MemoryQuery := MkMemoryQuery Recall.scope "triage" "" "" "" "slack alerts" 1 9.
Definition answered : list MemoryAssertion :=
  match Find false 0 question taught_store with Ok l => l | Err _ => [] end.

Lemma taught_ok : store_ok 3 taught_store.
Proof.
  apply (memory_history_ok [_; _; _] 0); [lia|vm_compute; discriminate|apply store_ok_new|].
  repeat constructor.
Qed.

Lemma taught_counted : Forall counted_row (rows taught_store).
Proof.
  assert (H : forallb (fun a => (0 <=? MA_Confirmed a) && (MA_Confirmed a <=? int64_max) &&
                                (0 <=? MA_Observations a) && (MA_Observations a <=? int64_max))%Z (rows taught_store) = true)
    by (vm_compute; reflexivity).
  rewrite forallb_forall in H. apply list.Forall_forall. intros a Ha. apply list_elem_of_In, H in Ha.
  rewrite !andb_true_iff, !Z.leb_le in Ha. unfold counted_row. tauto.
Qed.
End Asked.

Lemma recall_is_the_best_readable_witness :
  map MA_Subject Asked.answered = ["slack archive"] /\
  Forall (@readable ascii_unicode Asked.question 9) Asked.answered /\ (List.length Asked.answered <= 10)%nat.
Proof.
  split; [vm_compute; reflexivity|].
  destruct (@recall_is_the_best_readable ascii_unicode 3 Asked.taught_store 0 Asked.question 9 Asked.answered
              Asked.taught_ok Asked.taught_counted ltac:(vm_compute; reflexivity) ltac:(vm_compute; reflexivity))
    as (H1 & H2 & _). split; [exact H1|exact H2].
Defined.

Lemma short_terms_match_whole_words_witness :
  @containsBoundedSearchTerm ascii_unicode "ops, dev-ok: go" "go" = true <->
  exists i, @whole_word ascii_unicode "ops, dev-ok: go" "go" i.
Proof. apply (@short_terms_match_whole_words ascii_unicode); [vm_compute; reflexivity|discriminate]. Defined.
