(* ===== verification/MemoryTool.v ===== *)
(** * The memory tools of an agent

    src/internal/memory/tool.go, tool_args.go, tool_result.go: the two tools an
    agent may call, the layer that answers them beside the other tools, what it
    reads of the arguments and what it writes back. *)

From Stdlib Require Import ZArith Lia Ascii String.
From stdpp Require Import base list strings gmap.
From S2P Require Import Prelude GoStrings Json Regexp Domain Sha256 Dedupe Step Payload Encode State Ports Calendar Memories MemorySearch.

Local Open Scope string_scope.

(** ** What the tools are listed as *)

Record ToolSuggestion := MkToolSuggestion {
  Tsu_Effect : Effect;
  Tsu_Untrusted : bool;
  Tsu_CompensatedBy : ToolID;
  Tsu_Why : string
}.

Record ToolEntry := MkToolEntry {
  Te_ID : ToolID;
  Te_Server : string;
  Te_Description : string;
  Te_Effect : Effect;
  Te_Untrusted : bool;
  Te_Native : bool;
  Te_Scope : Scope;
  Te_CompensatedBy : ToolID;
  Te_Dedupe : ToolDedupe;
  Te_Suggested : option ToolSuggestion;
  Te_Digest : string;
  Te_OnSurface : bool;
  Te_Stale : bool
}.

Definition CodeMemoryArgumentsInvalid : string := "memory_arguments_invalid".
Definition CodeMemoryLearningDisabled : string := "memory_learning_disabled".
Definition CodeMemoryUnavailable : string := "memory_unavailable".

Definition memoryToolDescription : string :=
  "Find governed structured memory assertions for this agent and scope.".
Definition memorySuggestDescription : string :=
  "Suggest a fact for review or automatic confirmation; the platform derives its identity from the subject.".

Definition MemoryToolEntry : ToolEntry :=
  MkToolEntry ToolMemoryFind "fuseone:memory" memoryToolDescription EffectRead true true
    (MkScope Installation "") "" (MkToolDedupe 0 []) None "" true false.

Definition MemorySuggestToolEntry : ToolEntry :=
  MkToolEntry ToolMemorySuggest "fuseone:memory" memorySuggestDescription EffectWrite false true
    (MkScope Installation "") "" (MkToolDedupe 0 []) None "" true false.

(** The last entry of each identifier, in their order. *)
Definition sortedToolEntries (l : list ToolEntry) : list ToolEntry :=
  let byID := fold_left (fun m e => <[Te_ID e := e]> m) l (∅ : gmap string ToolEntry) in
  sort_by (fun a b => String.ltb (Te_ID a) (Te_ID b)) ((map_to_list byID).*2).

(** [Tools] over the list of the layer below, when there is one. *)
Definition ToolList_Tools (base : option (result PortError (list ToolEntry)))
    : result PortError (list ToolEntry) :=
  out ← match base with None => Ok [] | Some r => r end;
  Ok (sortedToolEntries (out ++ [MemoryToolEntry; MemorySuggestToolEntry])%list).

(** ** Arguments (memory/tool_args.go) *)

Record findArgs := MkFindArgs {
  fa_Kind : string; fa_Subject : string; fa_Signature : string; fa_Search : string; fa_Limit : Z
}.

Record suggestArgs := MkSuggestArgs {
  sa_Kind : string; sa_Subject : string; sa_Signature : string; sa_Claim : string
}.

Definition zeroFindArgs : findArgs := MkFindArgs "" "" "" "" 0.
Definition zeroSuggestArgs : suggestArgs := MkSuggestArgs "" "" "" "".

Definition d_findArgs : decoder findArgs := d_struct (fun cur fs =>
  f1 ← field "kind" d_string (fa_Kind cur) fs;
  f2 ← field "subject" d_string (fa_Subject cur) fs;
  f3 ← field "signature" d_string (fa_Signature cur) fs;
  f4 ← field "search" d_string (fa_Search cur) fs;
  f5 ← field "limit" d_int (fa_Limit cur) fs;
  mret (MkFindArgs f1 f2 f3 f4 f5)).

Definition d_suggestArgs : decoder suggestArgs := d_struct (fun cur fs =>
  f1 ← field "kind" d_string (sa_Kind cur) fs;
  f2 ← field "subject" d_string (sa_Subject cur) fs;
  f3 ← field "signature" d_string (sa_Signature cur) fs;
  f4 ← field "claim" d_string (sa_Claim cur) fs;
  mret (MkSuggestArgs f1 f2 f3 f4)).

(** [DisallowUnknownFields]: every key of the object names a field. *)
Definition known_fields (names : list string) (j : json) : bool :=
  match j with
  | JObj fs => forallb (fun f => existsb (fun n => String.eqb (fold_key (fst f)) (fold_key n)) names) fs
  | _ => true
  end.

(** One document that fits, and the end of the input after it. *)
Definition decode_strict {A} (names : list string) (zero : A) (d : decoder A) (raw : string) : option A :=
  match decode_first raw with
  | None => None
  | Some (j, rest) =>
      let '(a, ok) := d zero j in
      if ok && known_fields names j && String.eqb (skip_ws rest) "" then Some a else None
  end.

Definition decodeFindArgs (raw : string) : option findArgs :=
  if String.eqb (trim_space raw) "" then Some zeroFindArgs
  else decode_strict ["kind"; "subject"; "signature"; "search"; "limit"] zeroFindArgs d_findArgs raw.

Definition decodeSuggestArgs (raw : string) : option suggestArgs :=
  decode_strict ["kind"; "subject"; "signature"; "claim"] zeroSuggestArgs d_suggestArgs raw.

Definition schema_text (extra : list (string * json)) (description : string) : json :=
  JObj ([("type", JStr "string"); ("description", JStr description)] ++ extra)%list.

Definition memoryFindSchema : list (string * json) := [
  ("kind", schema_text [] "Optional assertion kind to match exactly.");
  ("subject", schema_text [] "Optional subject to match exactly.");
  ("signature", schema_text [] "Optional signature to match exactly.");
  ("search", schema_text [] "Optional space-separated terms to search across subject, signature and claim. Only a small normalized term budget is used; the result reports when extra terms were omitted.");
  ("limit", JObj [("type", JStr "integer"); ("minimum", JNum "1");
                  ("maximum", JNum (print_Z MaxMemoryFindLimit));
                  ("description", JStr "Maximum assertions to return.")])].

Definition memorySuggestSchema : list (string * json) := [
  ("subject", schema_text [("maxLength", JNum (print_Z (Z.of_nat MaxMemorySubjectBytes)))]
     "Stable, specific name for this fact. Different facts need different subjects.");
  ("claim", schema_text [("maxLength", JNum (print_Z (Z.of_nat MaxMemoryClaimBytes)))]
     "Small falsifiable claim to remember.")].

(** ** What goes back to the model (memory/tool_result.go) *)

(** The layout 2006-01-02T15:04:05Z. *)
Definition timeFormat (t : Time) : string := date_time t +:+ "Z".

Record resultAssertion := MkResultAssertion {
  ra_ID : string; ra_Kind : string; ra_Subject : string; ra_Signature : string; ra_Claim : string;
  ra_Evidence : list MemoryEvidence; ra_Observations : Z; ra_Confirmed : Z;
  ra_ExpiresAt : option string; ra_UpdatedAt : string
}.

Definition resultAssertionFrom (a : MemoryAssertion) : resultAssertion :=
  MkResultAssertion (MA_ID a) (MA_Kind a) (MA_Subject a) (MA_Signature a) (MA_Claim a) (MA_Evidence a)
    (MA_Observations a) (MA_Confirmed a) (timeFormat <$> MA_ExpiresAt a) (timeFormat (MA_UpdatedAt a)).

Definition e_MemoryEvidence (e : MemoryEvidence) : json := obj [
  fld "run_id" c_string (ME_RunID e);
  fopt "source_run_id" c_string (ME_SourceRunID e);
  fopt "seq" c_int (ME_Seq e);
  fld "artifact" c_string (ME_Artifact e);
  fld "digest" c_string (ME_Digest e);
  fopt "labels" (c_list c_string) (ME_Labels e)].

Definition e_resultAssertion (r : resultAssertion) : json := obj [
  fld "id" c_string (ra_ID r);
  fld "kind" c_string (ra_Kind r);
  fld "subject" c_string (ra_Subject r);
  fld "signature" c_string (ra_Signature r);
  fld "claim" c_string (ra_Claim r);
  [("evidence", JArr (List.map e_MemoryEvidence (ra_Evidence r)))];
  fopt "observations" c_int (ra_Observations r);
  fopt "confirmed" c_int (ra_Confirmed r);
  match ra_ExpiresAt r with Some t => [("expires_at", JStr t)] | None => [] end;
  fld "updated_at" c_string (ra_UpdatedAt r)].

Definition maxMemoryResultBytes : nat := Z.to_nat 16384.

Definition marshalMemoryResult (assertions : list resultAssertion) (total : nat) (search : parsedSearchTerms)
    : string :=
  let omitted := (total - List.length assertions)%nat in
  print_json (obj ([
    [("assertions", JArr (List.map e_resultAssertion assertions))];
    if (0 <? omitted)%nat
    then [("omitted", JNum (print_Z (Z.of_nat omitted))); ("omitted_reason", JStr "result_byte_budget");
          ("byte_budget", JNum (print_Z 16384))]
    else []] ++
    (if (0 <? ps_omitted search)%nat
     then [fopt "search_terms_used" (c_list c_string) (ps_terms search);
           [("search_terms_omitted", JNum (print_Z (Z.of_nat (ps_omitted search))));
            ("search_terms_omitted_reason", JStr "search_term_budget");
            ("search_term_budget", JNum "6")]]
     else []))%list).

Record memoryResultStats := MkMemoryResultStats { mr_Returned : nat; mr_Omitted : nat }.

(** The assertions that fit, one more at a time, and their labels. *)
Fixpoint fitting (found : list MemoryAssertion) (total : nat) (search : parsedSearchTerms)
    (assertions : list resultAssertion) (labels : Labels) : list resultAssertion * Labels :=
  match found with
  | [] => (assertions, labels)
  | a :: found =>
      let next := (assertions ++ [resultAssertionFrom a])%list in
      if (maxMemoryResultBytes <? String.length (marshalMemoryResult next total search))%nat
      then (assertions, labels)
      else fitting found total search next (Labels_Union labels (MA_Labels a))
  end.

(** A first assertion that does not fit leaves none, which is the answer the
    source gives it in a branch of its own. *)
Definition memoryResult (found : list MemoryAssertion) (search : parsedSearchTerms)
    : string * Labels * memoryResultStats :=
  let '(assertions, labels) := fitting found (List.length found) search [] [] in
  (marshalMemoryResult assertions (List.length found) search, labels,
   MkMemoryResultStats (List.length assertions) (List.length found - List.length assertions)).

Definition zeroMemorySuggestion : MemorySuggestion :=
  MkMemorySuggestion "" "" (MkScope "" "") "" "" "" "" "" [] 0 [] "" "" None "" 0 "" 0.

Definition suggest_result_name (r : MemorySuggestResult) : string :=
  match r with
  | MemorySuggestPending => "pending"
  | MemorySuggestAutoConfirmed => "auto_confirmed"
  | MemorySuggestAlreadyActive => "already_active"
  | MemorySuggestIgnored => "ignored"
  end.

(** [memorySuggestResult], as it is marshalled. *)
Definition memorySuggestResult (out : MemorySuggestionOutcome) : json :=
  let s := default zeroMemorySuggestion (MO_Suggestion out) in
  let '(id, confirmed) :=
    match MO_Assertion out with
    | Some a => (MA_ID a, MA_Confirmed a)
    | None => (MS_AssertionID s, 0%Z)
    end in
  obj [fld "status" c_string (suggest_result_name (MO_Result out));
       fopt "suggestion_id" c_string (MS_ID s);
       fopt "assertion_id" c_string id;
       fopt "observations" c_int (MS_Observations s);
       fopt "confirmed" c_int confirmed].

(** ** The layer (memory/tool.go) *)

(** The tools and the catalogue below, the content store and the memories, each
    of which may be missing. The tools below answer anything. *)
Record Layer := MkLayer {
  ly_base : option (Call -> result PortError ToolResult);
  ly_reserve : Call -> result PortError unit;
  ly_catalog : option ((ToolID -> Effect * bool) * (ToolID -> option ToolDedupe));
  ly_content : option (RunID -> Z -> string -> result PortError string);
  ly_store : option MemoryStore
}.

#[export] Instance Layer_eta : Eta Layer := fun l =>
  MkLayer (ly_base l) (ly_reserve l) (ly_catalog l) (ly_content l) (ly_store l).

Definition owns (tool : ToolID) : bool := String.eqb tool ToolMemoryFind || String.eqb tool ToolMemorySuggest.

Definition Layer_Effect (l : Layer) (id : ToolID) : Effect * bool :=
  if String.eqb id ToolMemoryFind then (EffectRead, true)
  else if String.eqb id ToolMemorySuggest then (EffectWrite, true)
  else match ly_catalog l with None => (EffectUnknown, false) | Some (effect, _) => effect id end.

Definition Layer_Dedupe (l : Layer) (id : ToolID) : option ToolDedupe :=
  match ly_catalog l with
  | Some (_, dedupe) => if owns id then None else dedupe id
  | None => None
  end.

Definition Layer_Reserve (l : Layer) (call : Call) : result PortError unit :=
  if owns (Ca_Tool call) then Ok tt
  else match ly_base l with None => Err (PortFailed None) | Some _ => ly_reserve l call end.

Definition tool_failed (code : string) : ToolResult :=
  MkToolResult "" "" 0 [] zeroCost true code false "" 0 None "".

Definition tool_answer (ref body : string) (labels : Labels) : ToolResult :=
  MkToolResult ref (ResultDigest body) (Z.of_nat (String.length body)) labels zeroCost false "" false "" 0 None "".

Definition tool_digest (b : string) : string := "sha256:" +:+ String.substring 0 16 (hex_encode (sha256 b)).

Section Tool.
Context {U : Unicode}.

Definition layer_find (cancelled : bool) (wall : Time) (l : Layer) (call : Call) : result PortError ToolResult :=
  match decodeFindArgs (Ca_Args call), String.eqb (Ca_AgentID call) "", ly_store l, ly_content l with
  | Some args, false, Some store, Some put =>
      match Find cancelled wall
              (MkMemoryQuery (Ca_Scope call) (Ca_AgentID call) (fa_Kind args) (fa_Subject args)
                 (fa_Signature args) (fa_Search args) (fa_Limit args) 0) store with
      | Err _ => Ok (tool_failed CodeMemoryUnavailable)
      | Ok found =>
          let '(body, labels, _) := memoryResult found (parseSearchTerms (fa_Search args)) in
          ref ← put (Ca_RunID call) (Ca_Seq call) body;
          Ok (tool_answer ref body labels)
      end
  | _, _, _, _ => Ok (tool_failed CodeMemoryArgumentsInvalid)
  end.

(** The proposal of a call: the model chooses the subject and the claim. *)
Definition call_suggestion (call : Call) (args : suggestArgs) (policy : MemoryLearningPolicy) (now : Time)
    : MemorySuggestion :=
  MkMemorySuggestion "" "" (Ca_Scope call) (Ca_AgentID call) "" (sa_Subject args) "" (sa_Claim args)
    [MkMemoryEvidence (Ca_RunID call) "" 0 ArtifactMemorySuggestion (tool_digest (Ca_Args call)) []]
    0 (Ca_Labels call) "" "" (Policy_ExpiresAt policy now) "" 0 "" 0.

Definition layer_suggest (cancelled : bool) (wall : Time) (l : Layer) (call : Call)
    : Layer * result PortError ToolResult :=
  match decodeSuggestArgs (Ca_Args call), String.eqb (Ca_AgentID call) "", ly_store l, ly_content l with
  | Some args, false, Some store, Some put =>
      let policy := ForSuggestion (Ca_MemoryLearning call) (Ca_Labels call) in
      if negb (MemoryLearningPolicy_Enabled policy) then (l, Ok (tool_failed CodeMemoryLearningDisabled))
      else
        let now := nowOrWall wall (Ca_At call) in
        let suggestion := call_suggestion call args policy now in
        let by_ := "agent:" +:+ Ca_AgentID call in
        match prepareSuggestion suggestion by_ now with
        | Err _ => (l, Ok (tool_failed CodeMemoryArgumentsInvalid))
        | Ok _ =>
            let '(store, out) := Suggest cancelled wall suggestion policy by_ now store in
            let l := l <| ly_store := Some store |> in
            match out with
            | Err _ => (l, Ok (tool_failed CodeMemoryUnavailable))
            | Ok out =>
                let body := print_json (memorySuggestResult out) in
                (l, ref ← put (Ca_RunID call) (Ca_Seq call) body; Ok (tool_answer ref body []))
            end
        end
  | _, _, _, _ => (l, Ok (tool_failed CodeMemoryArgumentsInvalid))
  end.

Definition Layer_Invoke (cancelled : bool) (wall : Time) (l : Layer) (call : Call)
    : Layer * result PortError ToolResult :=
  if String.eqb (Ca_Tool call) ToolMemorySuggest then layer_suggest cancelled wall l call
  else if negb (String.eqb (Ca_Tool call) ToolMemoryFind)
  then (l, match ly_base l with None => Err (PortFailed None) | Some invoke => invoke call end)
  else (l, layer_find cancelled wall l call).
End Tool.
