(* ===== verification/MemoryToolSafety.v ===== *)
(** * What the memory tools may do

    Theorems about src/internal/memory/tool.go and tool_result.go: an answer
    keeps to its byte budget and carries the labels of everything in it, and a
    run that read untrusted data writes no memory. *)

From Stdlib Require Import ZArith Lia Ascii String DecimalString Decimal DecimalFacts DecimalPos DecimalZ.
From stdpp Require Import base list strings gmap.
From S2P Require Import Prelude GoStrings Json JsonFacts Regexp Domain Sha256 Dedupe Step Payload Encode State Ports Calendar Memories MemoryFacts MemorySafety MemoryUse MemorySearch MemoryRecall MemoryTool.

Local Open Scope string_scope.

(** ** The length of what is printed *)

Lemma of_uint_acc_ge u : forall acc, (Zpos acc * 10 ^ Z.of_nat (nb_digits u) <= Zpos (Pos.of_uint_acc u acc))%Z.
Proof.
  induction u; intros acc; cbn [nb_digits Pos.of_uint_acc]; [lia|..];
    etransitivity; try apply IHu; rewrite Nat2Z.inj_succ, Z.pow_succ_r by lia;
    rewrite ?Pos2Z.inj_add, Pos2Z.inj_mul; nia.
Qed.

Lemma to_uint_ge p : (10 ^ (Z.of_nat (nb_digits (Pos.to_uint p)) - 1) <= Zpos p)%Z.
Proof.
  pose proof (DecimalPos.Unsigned.of_to p) as E. pose proof (DecimalPos.Unsigned.to_of (Pos.to_uint p)) as F.
  rewrite E in F. cbn [N.to_uint] in F. destruct (Pos.to_uint p) as [|u|u|u|u|u|u|u|u|u|u]; [done| |..];
    [exfalso; unfold unorm in F; pose proof (nb_digits_nzhead u) as Hn; change (nzhead (D0 u)) with (nzhead u) in F;
     destruct (nzhead u); try discriminate F; injection F as ->; [discriminate E|cbn [nb_digits] in Hn; lia]|..];
    injection E as <-; cbn [nb_digits];
    match goal with |- (_ <= Zpos (Pos.of_uint_acc ?u ?a))%Z => pose proof (of_uint_acc_ge u a) as Hg end;
    replace (Z.of_nat (S (nb_digits u)) - 1)%Z with (Z.of_nat (nb_digits u)) by lia; nia.
Qed.

Lemma uint_string_length u : String.length (NilEmpty.string_of_uint u) = nb_digits u.
Proof. induction u; simpl; auto. Qed.

Lemma print_Z_length z k : (0 <= z < 10 ^ Z.of_nat k)%Z -> (1 <= k)%nat -> (String.length (print_Z z) <= k)%nat.
Proof.
  intros [H0 Hk] H1. unfold print_Z. destruct z as [|p|p]; [done| |lia].
  cbn [Z.to_int NilZero.string_of_int]. unfold NilZero.string_of_uint.
  pose proof (to_uint_ge p) as Hg. transitivity (Nat.max 1 (nb_digits (Pos.to_uint p))).
  { destruct (Pos.to_uint p) eqn:E; [simpl; lia|..]; rewrite <- E, uint_string_length; lia. }
  destruct (Nat.le_gt_cases (nb_digits (Pos.to_uint p)) k) as [|Hgt]; [lia|exfalso].
  assert (10 ^ Z.of_nat k <= 10 ^ (Z.of_nat (nb_digits (Pos.to_uint p)) - 1))%Z
    by (apply Z.pow_le_mono_r; lia). lia.
Qed.

Lemma escape_byte_most c : (String.length (escape_byte c) <= 6)%nat.
Proof. destruct c as [[] [] [] [] [] [] [] []]; vm_compute; lia. Qed.

Lemma escape_string_most n : forall s, (String.length (escape_string n s) <= 6 * String.length s)%nat.
Proof.
  induction n as [|n IH]; intros [|c s]; cbn [escape_string]; try (simpl; lia).
  destruct (byte_of c <? 128)%N.
  - rewrite str_app_length. pose proof (escape_byte_most c). specialize (IH s). cbn [String.length]. lia.
  - destruct (rune_len (String c s)) as [k|] eqn:Hk; rewrite str_app_length.
    + pose proof (rune_len_split _ _ Hk) as (Hr & _ & Hs & _). specialize (IH (drop_bytes k (String c s))).
      apply (f_equal String.length) in Hs. rewrite str_app_length in Hs.
      set (r := take_bytes k (String c s)) in *.
      assert (String.length (if String.eqb r (utf8 8232) then "\u2028"
                             else if String.eqb r (utf8 8233) then "\u2029" else r) <= 6 * String.length r)%nat.
      { destruct (String.eqb_spec r (utf8 8232)) as [->|_]; [vm_compute; lia|].
        destruct (String.eqb_spec r (utf8 8233)) as [->|_]; [vm_compute; lia|lia]. }
      lia.
    + specialize (IH s). cbn [String.length]. lia.
Qed.

Lemma quote_json_most s : (String.length (quote_json s) <= 6 * String.length s + 2)%nat.
Proof.
  unfold quote_json. rewrite !str_app_length. pose proof (escape_string_most (String.length s) s). simpl. lia.
Qed.

Lemma join_most b l : Forall (fun x => (String.length x <= b)%nat) l ->
  (String.length (join_str "," l) <= List.length l * (b + 1))%nat.
Proof.
  induction 1 as [|x l Hx Hl IH]; [done|]. destruct l as [|y l]; [simpl; lia|].
  change (join_str "," (x :: y :: l)) with (x +:+ "," +:+ join_str "," (y :: l)).
  rewrite !str_app_length. cbn [List.length String.length] in *. lia.
Qed.

Lemma join_sum l : (String.length (join_str "," l) <= sum_list_with (fun x => String.length x + 1) l)%nat.
Proof.
  induction l as [|x [|y l] IH]; [done|simpl; lia|].
  change (join_str "," (x :: y :: l)) with (x +:+ "," +:+ join_str "," (y :: l)).
  rewrite !str_app_length. cbn [sum_list_with String.length] in *. lia.
Qed.

Ltac known_lengths :=
  repeat match goal with
         | |- context [String.length (quote_json ?k)] =>
             let n := eval vm_compute in (String.length (quote_json k)) in
             change (String.length (quote_json k)) with n
         end.

(** ** An answer fits its budget *)

Lemma terms_printed_most terms :
  (List.length terms <= maxSearchTerms)%nat ->
  Forall (fun t => (String.length t <= maxSearchTermBytes)%nat) terms ->
  (String.length (print_json (JArr (List.map JStr terms))) <= 2400)%nat.
Proof.
  intros Hl Hf. cbn [print_json]. rewrite List.map_map. cbn [print_json].
  rewrite !str_app_length. cbn [String.length].
  pose proof (join_most 386 (List.map quote_json terms)) as H. rewrite length_map in H.
  unfold maxSearchTerms, maxSearchTermBytes in *.
  assert (Forall (fun x => (String.length x <= 386)%nat) (List.map quote_json terms)).
  { apply List.Forall_map. eapply List.Forall_impl; [|exact Hf]. intros t Ht. cbv beta in Ht |- *. 
    pose proof (quote_json_most t) as Hq. lia. }
  specialize (H ltac:(done)). change (List.map (fun x => quote_json x) terms) with (List.map quote_json terms). lia.
Qed.

Lemma empty_answer_fits total search :
  (List.length (ps_terms search) <= maxSearchTerms)%nat ->
  Forall (fun t => (String.length t <= maxSearchTermBytes)%nat) (ps_terms search) ->
  (Z.of_nat total <= int64_max)%Z -> (Z.of_nat (ps_omitted search) <= int64_max)%Z ->
  (String.length (marshalMemoryResult [] total search) <= maxMemoryResultBytes)%nat.
Proof.
  intros Hl Hf Ht Ho. unfold int64_max in *.
  assert (B : forall n, (Z.of_nat n <= 2 ^ 63 - 1)%Z -> (String.length (print_Z (Z.of_nat n)) <= 19)%nat).
  { intros n Hn. apply print_Z_length; [|lia]. change (10 ^ Z.of_nat 19)%Z with 10000000000000000000%Z. lia. }
  pose proof (B _ Ho) as B1. assert (Ht' : (Z.of_nat (total - 0) <= 2 ^ 63 - 1)%Z) by lia.
  pose proof (B _ Ht') as B2. pose proof (terms_printed_most _ Hl Hf) as B3.
  unfold marshalMemoryResult, obj, fopt, fld.
  change (c_enc (c_list c_string) (ps_terms search)) with (JArr (List.map JStr (ps_terms search))).
  revert B3. generalize (JArr (List.map JStr (ps_terms search))). intros printed B3. cbn [List.length print_json].
  rewrite !str_app_length. etransitivity; [apply Nat.add_le_mono_l, Nat.add_le_mono_r, join_sum|].
  destruct (0 <? total - 0)%nat, (0 <? ps_omitted search)%nat;
    [destruct (c_empty _ _)| |destruct (c_empty _ _)|]; cbn [List.concat app List.map sum_list_with];
    rewrite ?str_app_length; cbn [print_json]; known_lengths;
    set (x := String.length (print_Z (Z.of_nat (total - 0)))) in *;
    set (y := String.length (print_Z (Z.of_nat (ps_omitted search)))) in *;
    set (z := String.length (print_json printed)) in *; simpl; unfold maxMemoryResultBytes; lia.
Qed.

Section Tools.
Context {U : Unicode}.

Lemma fitting_spec total search found : forall kept labels,
  (String.length (marshalMemoryResult kept total search) <= maxMemoryResultBytes)%nat ->
  exists shown hidden, found = (shown ++ hidden)%list /\
    fitting found total search kept labels =
      ((kept ++ List.map resultAssertionFrom shown)%list,
       fold_left (fun ls a => Labels_Union ls (MA_Labels a)) shown labels) /\
    (String.length (marshalMemoryResult (kept ++ List.map resultAssertionFrom shown) total search) <=
     maxMemoryResultBytes)%nat.
Proof.
  induction found as [|a found IH]; intros kept labels Hk; cbn [fitting].
  { exists [], []. cbn [List.map]. by rewrite !app_nil_r. }
  destruct (Nat.ltb_spec maxMemoryResultBytes
              (String.length (marshalMemoryResult (kept ++ [resultAssertionFrom a]) total search))) as [|Hn].
  { exists [], (a :: found). cbn [List.map]. by rewrite !app_nil_r. }
  destruct (IH _ (Labels_Union labels (MA_Labels a)) Hn) as (shown & hidden & -> & E & Hs).
  exists (a :: shown), hidden. rewrite E. cbn [List.map fold_left]. by rewrite <- app_assoc in Hs |- *.
Qed.

Lemma union_all_In shown : forall labels x,
  x ∈ fold_left (fun ls a => Labels_Union ls (MA_Labels a)) shown labels <->
  x ∈ labels \/ exists a, a ∈ shown /\ x ∈ MA_Labels a.
Proof.
  induction shown as [|a shown IH]; intros labels x; cbn [fold_left]; [set_solver|].
  rewrite IH, list_elem_of_In, Union_In, <- !list_elem_of_In. set_solver.
Qed.

Lemma memoryResult_spec found q :
  (Z.of_nat (List.length found) <= int64_max)%Z -> (Z.of_nat (ps_omitted (parseSearchTerms q)) <= int64_max)%Z ->
  exists shown hidden, found = (shown ++ hidden)%list /\
    let '(body, labels, stats) := memoryResult found (parseSearchTerms q) in
    body = marshalMemoryResult (List.map resultAssertionFrom shown) (List.length found) (parseSearchTerms q) /\
    (String.length body <= maxMemoryResultBytes)%nat /\
    stats = MkMemoryResultStats (List.length shown) (List.length hidden) /\
    forall x, x ∈ labels <-> exists a, a ∈ shown /\ x ∈ MA_Labels a.
Proof.
  intros Hl Ho. destruct (parse_terms_good q) as (_ & Hn & Hf).
  destruct (fitting_spec (List.length found) (parseSearchTerms q) found [] []) as (shown & hidden & E & Ef & Hs).
  { apply empty_answer_fits; [exact Hn| |done|done]. eapply List.Forall_impl; [|exact Hf]. simpl. tauto. }
  exists shown, hidden. split; [done|]. unfold memoryResult. rewrite Ef. cbn [app] in *.
  split; [done|]. split; [done|]. rewrite length_map. split.
  - rewrite E, length_app. f_equal. lia.
  - intros x. rewrite union_all_In. set_solver.
Qed.

(** A memory answer keeps to its budget and carries its taint. When a run's
    lookup succeeds the store is as it was, the answer takes at most 16 KiB
    whatever was searched for and however long the rows are, and it shows a best
    part of the rows the call may read: active, unexpired, of its scope, its
    agent's or everybody's. The labels handed to the run are exactly the labels
    of the rows shown, so nothing untrusted is read without the run being marked. *)
Theorem recalled_taint_travels n cancelled wall l call store args l' r :
  store_ok n store -> Forall counted_row (rows store) -> ly_store l = Some store ->
  Ca_Tool call = ToolMemoryFind -> decodeFindArgs (Ca_Args call) = Some args ->
  (Z.of_nat (ps_omitted (parseSearchTerms (fa_Search args))) <= int64_max)%Z ->
  Layer_Invoke cancelled wall l call = (l', Ok r) -> Tr_Failed r = false ->
  let q := MkMemoryQuery (Ca_Scope call) (Ca_AgentID call) (fa_Kind args) (fa_Subject args)
             (fa_Signature args) (fa_Search args) (fa_Limit args) 0 in
  l' = l /\ (Tr_ResultBytes r <= 16384)%Z /\
  exists shown hidden, Find false wall q store = Ok (shown ++ hidden)%list /\
    Forall (readable q wall) shown /\
    (forall x, x ∈ Tr_Labels r <-> exists a, a ∈ shown /\ x ∈ MA_Labels a).
Proof.
  intros S Hc Hs Ht Hd Ho H Hf q. unfold Layer_Invoke in H. rewrite Ht in H.
  change (String.eqb ToolMemoryFind ToolMemorySuggest) with false in H.
  change (String.eqb ToolMemoryFind ToolMemoryFind) with true in H. cbn [negb] in H.
  apply pair_eq in H as [<- H]. split; [done|]. unfold layer_find in H. rewrite Hd, Hs in H.
  destruct (String.eqb (Ca_AgentID call) ""); [by injection H as <-|].
  destruct (ly_content l) as [put|]; [|by injection H as <-]. fold q in H.
  destruct (Find cancelled wall q store) as [found|] eqn:E; [|by injection H as <-].
  destruct cancelled; [done|].
  pose proof (find_answer wall q store found E) as [Hr Hl].
  destruct (memoryResult_spec found (fa_Search args)) as (shown & hidden & Ef & Hm); [unfold int64_max; lia|done|].
  destruct (memoryResult found (parseSearchTerms (fa_Search args))) as [[body labels] stats].
  destruct Hm as (_ & Hb & _ & Hx). apply result_bind_Ok in H as (ref & _ & H). injection H as <-.
  cbn [tool_answer Tr_ResultBytes Tr_Labels].
  split; [unfold maxMemoryResultBytes in Hb; lia|]. exists shown, hidden. rewrite <- Ef.
  split; [done|]. split; [|done]. rewrite Ef in Hr. by apply Forall_app in Hr as [? _].
Qed.

(** ** What a proposal may write *)

Lemma suggest_review_keeps_values m wall s policy by_ now m' out :
  ML_Mode (MemoryLearningPolicy_Normalize policy) <> MemoryLearningAutoConfirm ->
  Suggest false wall s policy by_ now m = (m', out) -> mem_values m' = mem_values m.
Proof.
  intros Hm. unfold Suggest. cbv zeta. destruct (negb (MemoryLearningPolicy_Enabled _)); [by intros [= <- _]|].
  destruct (prepareSuggestion s by_ now) as [p|]; [|by intros [= <- _]].
  destruct (alreadyActiveSuggestion _ _ _ _) as [[o|]|]; [by intros [= <- _]| |by intros [= <- _]].
  destruct (negb _); [by intros [= <- _]|].
  assert (E : AutoConfirms (MemoryLearningPolicy_Normalize policy) (MS_Labels (noticed m p)) = false).
  { unfold AutoConfirms. rewrite Normalize_mode. by destruct (String.eqb_spec (ML_Mode (MemoryLearningPolicy_Normalize policy)) MemoryLearningAutoConfirm). }
  rewrite E. cbn [andb]. by intros [= <- _].
Qed.

Lemma review_of_tainted p labels : label_set labels ->
  LabelUntrusted ∈ labels \/ ML_Mode (MemoryLearningPolicy_Normalize p) <> MemoryLearningAutoConfirm ->
  ML_Mode (MemoryLearningPolicy_Normalize (ForSuggestion p labels)) <> MemoryLearningAutoConfirm.
Proof.
  intros Hl H. unfold ForSuggestion. cbv zeta.
  destruct (String.eqb_spec (ML_Mode (MemoryLearningPolicy_Normalize p)) MemoryLearningAutoConfirm) as [E|E];
    cbn [andb]; [|by rewrite Normalize_mode].
  destruct H as [H|]; [|done]. assert (Labels_HasAny labels [LabelUntrusted] = true) as ->; [|done].
  apply HasAny_In; [done|]. exists LabelUntrusted. split; [by left|]. by apply list_elem_of_In.
Qed.

(** A run that read untrusted data writes no memory. Whatever tool such a run
    calls, with whatever arguments and under whatever learning policy its version
    has, the facts the store holds are exactly what they were; the same holds of
    any run whose policy does not confirm by repetition. What it proposes can only
    join the queue people review. *)
Theorem tainted_runs_write_no_memory cancelled wall l call l' r :
  label_set (Ca_Labels call) ->
  LabelUntrusted ∈ Ca_Labels call \/
    ML_Mode (MemoryLearningPolicy_Normalize (Ca_MemoryLearning call)) <> MemoryLearningAutoConfirm ->
  Layer_Invoke cancelled wall l call = (l', r) ->
  option_map mem_values (ly_store l') = option_map mem_values (ly_store l).
Proof.
  intros Hl Hm. unfold Layer_Invoke. destruct (String.eqb (Ca_Tool call) ToolMemorySuggest);
    [|destruct (negb _); by intros [= <- _]].
  unfold layer_suggest. destruct (decodeSuggestArgs _) as [args|]; [|by intros [= <- _]].
  destruct (String.eqb (Ca_AgentID call) ""); [by intros [= <- _]|].
  destruct (ly_store l) as [m|] eqn:Em; [|intros [= <- _]; by rewrite Em].
  destruct (ly_content l) as [put|]; [|intros [= <- _]; by rewrite Em]. cbv zeta.
  destruct (negb (MemoryLearningPolicy_Enabled _)); [intros [= <- _]; by rewrite Em|].
  destruct (prepareSuggestion _ _ _); [|intros [= <- _]; by rewrite Em].
  destruct (Suggest _ _ _ _ _ _ _) as [m' out] eqn:Es.
  assert (mem_values m' = mem_values m) as Hv.
  { destruct cancelled; [by injection Es as <- _|]. eapply suggest_review_keeps_values; [|exact Es].
    by apply review_of_tainted. }
  destruct out; intros [= <- _]; cbn [ly_store set_field option_map]; by rewrite Hv.
Qed.
End Tools.

Module Lookup.
#[local] Existing Instance ascii_unicode.

Definition layer : Layer :=
  MkLayer None (fun _ => Ok tt) None (Some (fun run seq _ => Ok (run +:+ ":" +:+ print_Z seq)))
    (Some (remembered [Recall.propose "run-1" "a" []])).

Definition looking (tool : ToolID) (args : string) (labels : Labels) : Call :=
  MkCall "run-2" 5 Recall.scope "triage" tool args "" zeroApprovalEvidence 0 "" "ana" "" [] zeroTicketContext 9 labels
    Recall.learning.

Definition find_args : string :=
  print_json (JObj [("search", JStr "slack alerts"); ("limit", JNum "2")]).
Definition suggest_args : string :=
  print_json (JObj [("subject", JStr "slack alerts"); ("claim", JStr "alerts go to ops")]).

Definition asking : Call := looking ToolMemoryFind find_args [].
Definition proposing : Call := looking ToolMemorySuggest suggest_args [LabelUntrusted].

Definition reading : Layer := layer <| ly_store := Some Asked.taught_store |>.
Definition read_back : ToolResult :=
  match snd (Layer_Invoke false 9 reading asking) with Ok r => r | Err _ => tool_failed "" end.
End Lookup.

Lemma recalled_taint_travels_witness :
  (Tr_ResultBytes Lookup.read_back <= 16384)%Z /\ Tr_Labels Lookup.read_back = ["area:acme/ops"; "company:acme"].
Proof.
  split; [|vm_compute; reflexivity].
  destruct (@recalled_taint_travels ascii_unicode 3 false 9 Lookup.reading Lookup.asking Asked.taught_store
              (MkFindArgs "" "" "" "slack alerts" 2) Lookup.reading Lookup.read_back Asked.taught_ok Asked.taught_counted
              eq_refl eq_refl ltac:(vm_compute; reflexivity) ltac:(vm_compute; discriminate)
              ltac:(vm_compute; reflexivity) ltac:(vm_compute; reflexivity)) as (_ & H & _).
  exact H.
Defined.

Lemma tainted_runs_write_no_memory_witness :
  option_map mem_values (ly_store (fst (@Layer_Invoke ascii_unicode false 9 Lookup.layer Lookup.proposing))) =
  option_map mem_values (ly_store Lookup.layer).
Proof.
  apply (@tainted_runs_write_no_memory ascii_unicode false 9 Lookup.layer Lookup.proposing _
           (snd (@Layer_Invoke ascii_unicode false 9 Lookup.layer Lookup.proposing)));
    [repeat constructor|left; left|].
  by destruct (Layer_Invoke _ _ _ _).
Defined.
