(* ===== verification/Tools.v ===== *)
(** * The catalogue of tools

    src/internal/tools: the servers an installation is connected to, the tools
    they offer, what the Curator rules each one does, and calling one - the one
    place something happens to the world. What a server answers is an argument of
    the call; what a call's outcome is recorded as (metrics, health) is part of
    its result.

    The catalogue is shared: a call reads it, leaves it while the server works
    and comes back to a catalogue others may have changed. Its two halves are two
    operations, and what it holds pointers to - a session, a cache - carries an
    identity, so that coming back to a replaced one is told apart. *)

From Stdlib Require Import ZArith Lia Ascii String.
From stdpp Require Import base list strings gmap.
From S2P Require Import Prelude GoStrings Json Float Domain Sha256 Dedupe Payload State Ports MemoryTool.

Local Open Scope string_scope.

(** ** Bounded codes (mcpmetrics, metrics.go) *)

Definition CodeMCPMetricOther : string := "other".
Definition CodeMCPNoCode : string := "none".
Definition CodeMCPInvokeError : string := "invoke_error".
Definition CodeMCPToolError : string := "tool_error".
Definition CodeMCPCacheHit : string := "cache_hit".
Definition CodeMCPUnknownTool : string := "unknown_tool".
Definition CodeMCPUnknownServer : string := "unknown_server".
Definition CodeMCPServerRateLimited : string := "mcp_server_rate_limited".

Definition metric_codes : list string :=
  [CodeMCPCacheHit; CodeMCPInvokeError; CodeMCPNoCode; "mcp_personal_credential_no_principal";
   "mcp_personal_credential_invalid"; "mcp_personal_credential_missing"; "mcp_personal_credential_read_failed";
   CodeMCPServerRateLimited; CodeMCPToolError; CodeMCPUnknownServer; CodeMCPUnknownTool].

Definition MCPMetricCode (code : string) : string :=
  if existsb (String.eqb code) metric_codes then code else CodeMCPMetricOther.

(** What is observed of a call. *)
Inductive Observation :=
| ObsCall (result code : string) (cached : bool)
| ObsHealth (server : string) (ok : bool) (code : string) (at_ : Time)
| ObsRefused (code : string).

Definition recordMCPToolHealth (server : string) (ok : bool) (code : string) (at_ : Time) : list Observation :=
  if String.eqb server "" then []
  else [ObsHealth server ok (if ok then CodeMCPNoCode else MCPMetricCode code) at_].

(** ** A tool as the platform sees it (catalog.go) *)

Record Suggestion := MkSuggestion {
  Su_Effect : Effect; Su_Untrusted : option bool; Su_CompensatedBy : ToolID; Su_Why : string
}.

Record Entry := MkEntry {
  En_ID : ToolID;
  En_Server : string;
  En_RemoteName : string;
  En_Description : string;
  En_Schema : option json;
  En_Digest : string;
  En_Stale : bool;
  En_Effect : Effect;
  En_OnSurface : bool;
  En_Suggested : option Suggestion;
  En_Untrusted : bool;
  En_CompensatedBy : ToolID;
  En_Dedupe : ToolDedupe;
  En_Provenance : string
}.

#[export] Instance Entry_eta : Eta Entry := fun e =>
  MkEntry (En_ID e) (En_Server e) (En_RemoteName e) (En_Description e) (En_Schema e) (En_Digest e) (En_Stale e)
    (En_Effect e) (En_OnSurface e) (En_Suggested e) (En_Untrusted e) (En_CompensatedBy e) (En_Dedupe e) (En_Provenance e).

Definition suggestionOf (s : option Suggestion) : option ToolSuggestion :=
  (fun s => MkToolSuggestion (Su_Effect s) (default true (Su_Untrusted s)) (Su_CompensatedBy s) (Su_Why s)) <$> s.

Definition entry_of (e : Entry) : ToolEntry :=
  MkToolEntry (En_ID e) (En_Server e) (En_Description e) (En_Effect e) (En_Untrusted e) false zeroScope
    (En_CompensatedBy e) (En_Dedupe e) (suggestionOf (En_Suggested e)) (En_Digest e) (En_OnSurface e) (En_Stale e).

(** ** The cache of read results (result_cache.go) *)

Definition defaultResultCacheEntries : Z := 256.
Definition resultCacheValueLimit : nat := 64 * 1024.

Record resultCacheKey := MkResultCacheKey {
  rk_tool : ToolID; rk_digest : string; rk_effect : Effect; rk_untrusted : bool; rk_argsDigest : string;
  rk_scope : string; rk_principal : string
}.

#[export] Instance resultCacheKey_eq_dec : EqDecision resultCacheKey.
Proof. solve_decision. Defined.

#[export] Instance resultCacheKey_countable : Countable resultCacheKey.
Proof.
  apply (inj_countable'
    (fun k => (rk_tool k, rk_digest k, rk_effect k, rk_untrusted k, rk_argsDigest k, rk_scope k, rk_principal k))
    (fun '(a, b, c, d, e, f, g) => MkResultCacheKey a b c d e f g)). by intros [].
Defined.

Record resultCacheEntry := MkResultCacheEntry {
  re_body : string; re_labels : Labels; re_sourceRun : RunID; re_sourceSeq : Z; re_expiresAt : Time
}.

Record resultCache := MkResultCache {
  rc_ttl : Duration; rc_maxEntries : Z; rc_entries : gmap resultCacheKey resultCacheEntry; rc_order : list resultCacheKey
}.

#[export] Instance resultCache_eta : Eta resultCache := fun c =>
  MkResultCache (rc_ttl c) (rc_maxEntries c) (rc_entries c) (rc_order c).

Record MCPResultCache := MkMCPResultCache { Mc_TTLSeconds : Z; Mc_MaxEntries : Z }.

Definition second_ns : Z := 1000000000.

Definition newResultCache (config : option MCPResultCache) : option resultCache :=
  c ← config;
  if (Mc_TTLSeconds c <=? 0)%Z then None
  else Some (MkResultCache (wrap64 (Mc_TTLSeconds c * second_ns))
               (if (Mc_MaxEntries c <=? 0)%Z then defaultResultCacheEntries else Mc_MaxEntries c) ∅ []).

Definition resultCacheable (entry : Entry) (content : bool) (cache : option resultCache) : bool :=
  content && bool_decide (is_Some cache) && Z.eqb (En_Effect entry) EffectRead.

Definition resultCacheKeyOf (entry : Entry) (call : Call) : resultCacheKey :=
  MkResultCacheKey (En_ID entry) (En_Digest entry) (En_Effect entry) (En_Untrusted entry)
    (hex_encode (sha256 (CanonicalCallArguments (Ca_Args call))))
    (Company (Ca_Scope call) +:+ "/" +:+ Area (Ca_Scope call)) (Ca_OnBehalfOf call).

(** What lapsed is forgotten; its place in the order is not. *)
Definition resultCache_get (c : resultCache) (key : resultCacheKey) (now : Time) : resultCache * option resultCacheEntry :=
  match rc_entries c !! key with
  | None => (c, None)
  | Some e =>
      if (re_expiresAt e <=? now)%Z then (c <| rc_entries := delete key (rc_entries c) |>, None) else (c, Some e)
  end.

Definition resultCache_has (c : resultCache) (key : resultCacheKey) (now : Time) : resultCache * bool :=
  let '(c, e) := resultCache_get c key now in (c, bool_decide (is_Some e)).

(** The oldest keys go while there are too many entries. *)
Fixpoint evict (max : Z) (entries : gmap resultCacheKey resultCacheEntry) (order : list resultCacheKey)
    : gmap resultCacheKey resultCacheEntry * list resultCacheKey :=
  match order with
  | [] => (entries, [])
  | victim :: rest =>
      if (max <? Z.of_nat (size entries))%Z then evict max (delete victim entries) rest else (entries, order)
  end.

Definition resultCache_put (c : resultCache) (key : resultCacheKey) (body : string) (labels : Labels) (run : RunID) (seq : Z)
    (now : Time) : resultCache :=
  if String.eqb body "" || (resultCacheValueLimit <? String.length body)%nat then c
  else
    let order := if bool_decide (is_Some (rc_entries c !! key)) then rc_order c else (rc_order c ++ [key])%list in
    let entries := <[key := MkResultCacheEntry body labels run seq (now + rc_ttl c)]> (rc_entries c) in
    let '(entries, order) := evict (rc_maxEntries c) entries order in
    c <| rc_entries := entries |> <| rc_order := order |>.

(** ** Rates (rate_limit.go) *)

(** [float64] arithmetic, each operation exact and then rounded. *)
Definition signed_ratio (neg : bool) (m e : Z) : Z * Z :=
  let '(n, d) := float_ratio m e in ((if neg then - n else n)%Z, d).

Definition float_of_ratio (num den : Z) : float64 :=
  match round_ratio (num <? 0)%Z (Z.abs num) den with Some f => f | None => FInf (num <? 0)%Z end.

Definition float_add (x y : float64) : float64 :=
  match x, y with
  | FFin s m e, FFin t n f =>
      let '(a, b) := signed_ratio s m e in let '(c, d) := signed_ratio t n f in float_of_ratio (a * d + c * b) (b * d)
  | FInf s, FInf t => if Bool.eqb s t then FInf s else FNaN
  | FNaN, _ | _, FNaN => FNaN
  | FInf s, _ | _, FInf s => FInf s
  end.

Definition float_neg (x : float64) : float64 :=
  match x with FFin s m e => FFin (negb s) m e | FInf s => FInf (negb s) | FNaN => FNaN end.

Definition float_sub (x y : float64) : float64 := float_add x (float_neg y).

Definition float_mul (x y : float64) : float64 :=
  match x, y with
  | FFin s m e, FFin t n f =>
      let '(a, b) := signed_ratio s m e in let '(c, d) := signed_ratio t n f in float_of_ratio (a * c) (b * d)
  | FNaN, _ | _, FNaN => FNaN
  | FInf s, FFin t n _ | FFin t n _, FInf s => if Z.eqb n 0 then FNaN else FInf (xorb s t)
  | FInf s, FInf t => FInf (xorb s t)
  end.

(** Of a finite number by a positive one, all the limiter divides. *)
Definition float_div (x y : float64) : float64 :=
  match x, y with
  | FFin s m e, FFin false n f =>
      if Z.eqb n 0 then FNaN
      else let '(a, b) := signed_ratio s m e in let '(c, d) := signed_ratio false n f in float_of_ratio (a * d) (b * c)
  | _, _ => FNaN
  end.

Definition float_int (z : Z) : float64 := float_of_ratio z 1.

Definition math_Min (x y : float64) : float64 :=
  match x, y with FNaN, _ | _, FNaN => FNaN | _, _ => if float_lt y x then y else x end.

(** [math.Ceil] as an [int64]; what does not fit is the least one, as on amd64. *)
Definition ceil_int64 (f : float64) : Z :=
  match f with
  | FFin s m e => let '(n, d) := signed_ratio s m e in
                  let c := (- ((- n) / d))%Z in if in_int64 c then c else int64_min
  | _ => int64_min
  end.

Definition Duration_Seconds (d : Duration) : float64 :=
  float_add (float_int (Z.quot d second_ns)) (float_div (float_int (Z.rem d second_ns)) (float_int second_ns)).

(** [x >= y], which no NaN is. *)
Definition float_ge (x y : float64) : bool :=
  match x, y with FNaN, _ | _, FNaN => false | _, _ => negb (float_lt x y) end.

Definition float_zero : float64 := FFin false 0 (-1074).

Record MCPRateLimit := MkMCPRateLimit { Ml_RatePerSecond : float64; Ml_Burst : Z }.

Record serverLimiter := MkServerLimiter { sl_rate : float64; sl_burst : float64; sl_tokens : float64; sl_last : Time }.

Definition newServerLimiter (limit : option MCPRateLimit) (now : Time) : option serverLimiter :=
  l ← limit;
  if float_ge float_zero (Ml_RatePerSecond l) || (Ml_Burst l <=? 0)%Z then None
  else let burst := float_int (Ml_Burst l) in Some (MkServerLimiter (Ml_RatePerSecond l) burst burst now).

(** The limiter afterwards, and how long to wait when the call may not go. *)
Definition limiter_allow (l : serverLimiter) (now : Time) : serverLimiter * option Duration :=
  let last := if (now <? sl_last l)%Z then now else sl_last l in
  let elapsed := Duration_Seconds (Time_Sub now last) in
  let tokens := math_Min (sl_burst l) (float_add (sl_tokens l) (float_mul elapsed (sl_rate l))) in
  let one := float_int 1 in
  if float_ge tokens one
  then (MkServerLimiter (sl_rate l) (sl_burst l) (float_sub tokens one) now, None)
  else
    let seconds := float_div (float_sub one tokens) (sl_rate l) in
    let wait := wrap64 (ceil_int64 (float_mul seconds (float_int 1000)) * 1000000) in
    (MkServerLimiter (sl_rate l) (sl_burst l) tokens now, Some (if (wait <=? 0)%Z then 1000000%Z else wait)).

(** ** Options of a server *)

Record serverOptions := MkServerOptions {
  so_rateLimit : option MCPRateLimit; so_cache : option MCPResultCache; so_callTimeout : Duration; so_provenance : string
}.

Definition WithRateLimit (limit : option MCPRateLimit) : option MCPRateLimit :=
  l ← limit; if float_ge float_zero (Ml_RatePerSecond l) || (Ml_Burst l <=? 0)%Z then None else Some l.

Definition WithCallTimeout (seconds : option Z) : Duration :=
  match seconds with
  | None => 0%Z
  | Some s => if (s <=? 0)%Z then 0%Z else wrap64 (s * second_ns)
  end.

Definition WithResultCache (cache : option MCPResultCache) : option MCPResultCache :=
  c ← cache;
  if (Mc_TTLSeconds c <=? 0)%Z then None
  else Some (MkMCPResultCache (Mc_TTLSeconds c) (if (Mc_MaxEntries c <=? 0)%Z then defaultResultCacheEntries else Mc_MaxEntries c)).

(** ** The catalogue *)

(** A session and a cache are known by when they were made. *)
Record Catalog := MkCatalog {
  ct_sessions : gmap string nat;
  ct_entries : gmap string Entry;
  ct_limiters : gmap string serverLimiter;
  ct_timeouts : gmap string Duration;
  ct_caches : gmap string (nat * resultCache);
  ct_made : nat
}.

#[export] Instance Catalog_eta : Eta Catalog := fun c =>
  MkCatalog (ct_sessions c) (ct_entries c) (ct_limiters c) (ct_timeouts c) (ct_caches c) (ct_made c).

Definition NewCatalog : Catalog := MkCatalog ∅ ∅ ∅ ∅ ∅ 0.
Definition defaultTimeout : Duration := (60 * second_ns)%Z.

Definition Lookup (c : Catalog) (id : ToolID) : option Entry := ct_entries c !! id.

Definition Catalog_Entries (c : Catalog) : list ToolEntry :=
  sort_by (fun a b => String.ltb (Te_ID a) (Te_ID b)) (List.map entry_of ((map_to_list (ct_entries c)).*2)).

Definition CountFrom (c : Catalog) (server : string) : nat :=
  List.length (List.filter (fun e => String.eqb (En_Server e) server) ((map_to_list (ct_entries c)).*2)).

Definition Catalog_Schema (c : Catalog) (id : ToolID) : option (string * string * option json) :=
  e ← ct_entries c !! id; if En_OnSurface e then Some (En_ID e, En_Description e, En_Schema e) else None.

Definition Catalog_CompensatedBy (c : Catalog) (id : ToolID) : option ToolID :=
  e ← ct_entries c !! id; if String.eqb (En_CompensatedBy e) "" then None else Some (En_CompensatedBy e).

(** Off the surface answers as absent. *)
Definition Catalog_Effect (c : Catalog) (id : ToolID) : option Effect :=
  e ← ct_entries c !! id; if En_OnSurface e then Some (En_Effect e) else None.

Definition Catalog_Dedupe (c : Catalog) (id : ToolID) : option ToolDedupe :=
  e ← ct_entries c !! id; if En_OnSurface e && ToolDedupe_Enabled (En_Dedupe e) then Some (En_Dedupe e) else None.

Definition Connected (c : Catalog) (server : string) : bool := bool_decide (is_Some (ct_sessions c !! server)).

Definition Catalog_Session (c : Catalog) (id : ToolID) : option (string * bool) :=
  e ← ct_entries c !! id; Some (En_Server e, Connected c (En_Server e)).

(** What the administration records (publication.go). *)
Definition Catalog_Publication (c : Catalog) : list string * list ToolEntry :=
  (sort_by String.ltb ((map_to_list (ct_sessions c)).*1), Catalog_Entries c).

(** *** Servers (servers.go) *)

Record Offered := MkOffered { Of_Name : string; Of_Description : string; Of_InputSchema : json }.

Record KnownTool := MkKnownTool { Kt_Effect : string; Kt_Untrusted : option bool; Kt_CompensatedBy : string; Kt_Why : string }.

Definition digestOf (server name description : string) (schema : json) : string :=
  hex_encode (sha256 (print_json (JObj
    [("server", JStr server); ("name", JStr name); ("description", JStr description); ("schema", sort_keys schema)]))).

Definition chosen_tool (surface : option (list string)) (name : string) : bool :=
  match surface with None => true | Some names => existsb (String.eqb name) names end.

Definition d_properties : decoder (option json) := fun cur j =>
  match j with JObj _ => (Some j, true) | JNull => (None, true) | _ => (cur, false) end.

Definition schemaProperties (schema : json) : option json :=
  let '(props, ok) := unmarshal_into None (d_struct (fun cur fs => field "properties" d_properties cur fs)) (marshal_any schema) in
  if ok then props else None.

(** A shipped opinion with an effect nobody knows is no opinion. *)
Definition suggestion (known : option (string -> string -> option KnownTool)) (server name : string) : option Suggestion :=
  suggest ← known; found ← suggest server name; effect ← ParseEffect (Kt_Effect found);
  Some (MkSuggestion effect (Kt_Untrusted found) (Kt_CompensatedBy found) (Kt_Why found)).

Definition imported (known : option (string -> string -> option KnownTool)) (server provenance : string)
    (surface : option (list string)) (t : Offered) : Entry :=
  MkEntry (server +:+ "." +:+ Of_Name t) server (Of_Name t) (Of_Description t) (schemaProperties (Of_InputSchema t))
    (digestOf server (Of_Name t) (Of_Description t) (Of_InputSchema t)) false EffectUnknown (chosen_tool surface (Of_Name t))
    (suggestion known server (Of_Name t)) true "" (MkToolDedupe 0 []) provenance.

Definition set_or_delete {A} (k : string) (v : option A) (m : gmap string A) : gmap string A :=
  match v with Some x => <[k := x]> m | None => delete k m end.

Definition without_server (name : string) (m : gmap string Entry) : gmap string Entry :=
  filter (fun '(_, e) => En_Server e <> name) m.

Definition import_all (entries : gmap string Entry) (es : list Entry) : gmap string Entry :=
  fold_left (fun m e => <[En_ID e := e]> m) es entries.

Inductive AddError := ErrServerName | ErrListTools.

(** [listed] is what the server answered when asked for its tools, and the
    digest of a tool offered twice is that of the last. *)
Definition AddServer (known : option (string -> string -> option KnownTool)) (c : Catalog) (name : string)
    (listed : result PortError (list Offered)) (surface : option (list string)) (opts : serverOptions) (now : Time)
    : Catalog * result AddError unit :=
  if String.eqb name "" then (c, Err ErrServerName)
  else match listed with
       | Err _ => (c, Err ErrListTools)
       | Ok tools =>
           (MkCatalog (<[name := ct_made c]> (ct_sessions c))
              (import_all (without_server name (ct_entries c)) (List.map (imported known name (so_provenance opts) surface) tools))
              (set_or_delete name (newServerLimiter (so_rateLimit opts) now) (ct_limiters c))
              (set_or_delete name (if (0 <? so_callTimeout opts)%Z then Some (so_callTimeout opts) else None) (ct_timeouts c))
              (set_or_delete name (pair (ct_made c) <$> newResultCache (so_cache opts)) (ct_caches c))
              (S (ct_made c)), Ok tt)
       end.

(** The catalogue afterwards and the session to close. *)
Definition RemoveServer (c : Catalog) (name : string) : Catalog * option nat :=
  (MkCatalog (delete name (ct_sessions c)) (without_server name (ct_entries c)) (delete name (ct_limiters c))
     (delete name (ct_timeouts c)) (delete name (ct_caches c)) (ct_made c), ct_sessions c !! name).

Definition Catalog_Close (c : Catalog) : Catalog :=
  c <| ct_sessions := ∅ |> <| ct_limiters := ∅ |> <| ct_caches := ∅ |>.

(** *** Rulings (classify.go) *)

Record ToolClassification := MkToolClassification {
  Tc_Tool : ToolID; Tc_Effect : Effect; Tc_Untrusted : bool; Tc_CompensatedBy : ToolID; Tc_Dedupe : ToolDedupe; Tc_Digest : string
}.

Definition ruling_ok (r : ToolClassification) : bool :=
  Effect_Valid (Tc_Effect r) && match ToolDedupe_Validate (Tc_Dedupe r) with Ok _ => true | Err _ => false end.

Definition with_ruling (e : Entry) (r : ToolClassification) : Entry :=
  e <| En_Effect := Tc_Effect r |> <| En_Untrusted := Tc_Untrusted r |> <| En_CompensatedBy := Tc_CompensatedBy r |>
    <| En_Dedupe := Tc_Dedupe r |>.

Definition apply_ruling (s : gmap string Entry * nat) (r : ToolClassification) : gmap string Entry * nat :=
  let '(entries, applied) := s in
  match entries !! Tc_Tool r with
  | None => s
  | Some e =>
      if negb (ruling_ok r) then s
      else if negb (String.eqb (Tc_Digest r) "") && negb (String.eqb (Tc_Digest r) (En_Digest e))
      then (<[Tc_Tool r := e <| En_Stale := true |>]> entries, applied)
      else (<[Tc_Tool r := with_ruling (e <| En_Stale := false |>) r]> entries, S applied)
  end.

Definition Sync (c : Catalog) (rulings : result PortError (list ToolClassification)) : Catalog * result PortError nat :=
  match rulings with
  | Err e => (c, Err e)
  | Ok rs => let '(entries, applied) := fold_left apply_ruling rs (ct_entries c, 0%nat) in
             (c <| ct_entries := entries |>, Ok applied)
  end.

Inductive ClassifyError := ErrInvalidEffect | ErrInvalidDedupe (e : DedupeError) | ErrClassifyUnknown (id : ToolID).

Definition Classify (c : Catalog) (r : ToolClassification) : Catalog * result ClassifyError unit :=
  if negb (Effect_Valid (Tc_Effect r)) then (c, Err ErrInvalidEffect)
  else match ToolDedupe_Validate (Tc_Dedupe r) with
       | Err e => (c, Err (ErrInvalidDedupe e))
       | Ok _ =>
           match ct_entries c !! Tc_Tool r with
           | None => (c, Err (ErrClassifyUnknown (Tc_Tool r)))
           | Some e => (c <| ct_entries := <[Tc_Tool r := with_ruling e r]> (ct_entries c) |>, Ok tt)
           end
       end.

(** *** Reserving a call (rate_limit.go) *)

Inductive ReserveError :=
| ErrUnknownTool (id : ToolID)
| ErrUnknownServer (server : string)
| ErrServerRateLimited (server : string) (retryAfter : Duration).

Definition cache_of (c : Catalog) (server : string) : option resultCache := snd <$> ct_caches c !! server.

(** The cache with that identity, if it is still the server's, is replaced. *)
Definition set_cache (c : Catalog) (server : string) (id : nat) (cache : resultCache) : Catalog :=
  match ct_caches c !! server with
  | Some (id', _) => if Nat.eqb id id' then c <| ct_caches := <[server := (id, cache)]> (ct_caches c) |> else c
  | None => c
  end.

(** Whether a fresh answer is at hand; looking forgets a lapsed one. *)
Definition cached_answer (c : Catalog) (content : bool) (entry : Entry) (call : Call) (now : Time)
    : Catalog * option resultCacheEntry :=
  match ct_caches c !! En_Server entry with
  | Some (id, cache) =>
      if resultCacheable entry content (Some cache) then
        let '(cache, e) := resultCache_get cache (resultCacheKeyOf entry call) now in
        (set_cache c (En_Server entry) id cache, e)
      else (c, None)
  | None => (c, None)
  end.

Definition refusal_seen (server code : string) (now : Time) : list Observation :=
  ObsRefused code :: recordMCPToolHealth server false code now.

Definition Reserve (c : Catalog) (content : bool) (call : Call) (now : Time)
    : Catalog * result ReserveError unit * list Observation :=
  match ct_entries c !! Ca_Tool call with
  | None => (c, Err (ErrUnknownTool (Ca_Tool call)), [ObsRefused CodeMCPUnknownTool])
  | Some entry =>
      let server := En_Server entry in
      if negb (En_OnSurface entry) then (c, Err (ErrUnknownTool (Ca_Tool call)), refusal_seen server CodeMCPUnknownTool now)
      else if negb (Connected c server) then (c, Err (ErrUnknownServer server), refusal_seen server CodeMCPUnknownServer now)
      else
        let '(c, hit) := cached_answer c content entry call now in
        if bool_decide (is_Some hit) then (c, Ok tt, [])
        else match ct_limiters c !! server with
             | None => (c, Ok tt, [])
             | Some l =>
                 let '(l, wait) := limiter_allow l now in
                 let c := c <| ct_limiters := <[server := l]> (ct_limiters c) |> in
                 match wait with
                 | None => (c, Ok tt, [])
                 | Some w => (c, Err (ErrServerRateLimited server w), refusal_seen server CodeMCPServerRateLimited now)
                 end
             end
  end.

(** *** Calling (invoke.go, session_health.go) *)

Definition nl : string := String "010" "".
Definition toolInvokeErrorLimit : nat := 4096.

Definition invocationErrorText (tool : ToolID) (code err : string) : string :=
  let text := "the tool failed: " +:+ code +:+ nl +:+ tool +:+ ": " +:+ err in
  if (String.length text <=? toolInvokeErrorLimit)%nat then text
  else
    let notice := nl +:+ nl +:+ "[truncated by FuseOne: the tool failure diagnostic had " +:+ print_Z (Z.of_nat (String.length text)) +:+
                  " bytes and this installation stores " +:+ print_Z (Z.of_nat toolInvokeErrorLimit) +:+ "]" in
    if (toolInvokeErrorLimit <=? String.length notice)%nat then take_bytes toolInvokeErrorLimit notice
    else take_bytes (toolInvokeErrorLimit - String.length notice) text +:+ notice.

(** What a server answered: parts of content, those that are text with it, and a
    structured value; or that the call failed, with the code its error carries
    and whether the connection is gone. *)
Record CallToolResult := MkCallToolResult { Cr_IsError : bool; Cr_Content : list (option string); Cr_Structured : option json }.
Record CallError := MkCallError { Ce_Text : string; Ce_Code : string; Ce_Closed : bool }.

Definition failureCodeOf (e : CallError) : string := if String.eqb (Ce_Code e) "" then CodeMCPInvokeError else Ce_Code e.

Definition flatten_step (b : string) (part : option string) : string :=
  match part with
  | Some t => if String.eqb b "" then t else b +:+ nl +:+ t
  | None => b
  end.

Definition flatten (res : CallToolResult) : string :=
  let b := fold_left flatten_step (Cr_Content res) "" in
  match Cr_Structured res with
  | Some v => if String.eqb b "" then marshal_any v else b
  | None => b
  end.

Inductive InvokeError :=
| InvUnknownTool (id : ToolID)
| InvUnknownServer (server : string)
| InvArguments
| InvStore (e : PortError)
| InvCall (e : CallError).

Definition zeroToolResult : ToolResult := MkToolResult "" "" 0 [] zeroCost false "" false "" 0 None "".

#[export] Instance ToolResult_eta : Eta ToolResult := fun r =>
  MkToolResult (Tr_ResultRef r) (Tr_ResultDigest r) (Tr_ResultBytes r) (Tr_Labels r) (Tr_Cost r) (Tr_Failed r)
    (Tr_ErrorCode r) (Tr_Cached r) (Tr_CachedFromRun r) (Tr_CachedFromSeq r) (Tr_Context r) (Tr_Provenance r).

(** What a call gives back: a result, or an error beside what there is of one. *)
Definition outcome : Type := result (ToolResult * InvokeError) ToolResult.

Abbreviation content_port := (option (RunID -> Z -> string -> result PortError string)) (only parsing).

(** What a call holds on to while the server works. *)
Record Flight := MkFlight { fl_entry : Entry; fl_session : nat; fl_cache : option nat; fl_args : option json; fl_timeout : Duration }.

Definition labels_of (entry : Entry) : Labels := if En_Untrusted entry then NewLabels [LabelUntrusted] else [].

(** [json.Unmarshal] of the arguments; no arguments are none. *)
Definition call_args (args : string) : option (option json) :=
  if String.eqb args "" then Some None
  else match decode_first args with
       | Some (v, rest) => if String.eqb (skip_ws rest) "" then Some (Some v) else None
       | None => None
       end.

(** Up to the call itself: an answer there already, or a call to make. *)
Definition invoke_start (c : Catalog) (content : content_port) (call : Call) (now : Time)
    : Catalog * (outcome + Flight) * list Observation :=
  match ct_entries c !! Ca_Tool call with
  | None => (c, inl (Err (zeroToolResult, InvUnknownTool (Ca_Tool call))), [])
  | Some entry =>
      let server := En_Server entry in
      if negb (En_OnSurface entry)
      then (c, inl (Err (zeroToolResult, InvUnknownTool (Ca_Tool call))), recordMCPToolHealth server false CodeMCPUnknownTool now)
      else match ct_sessions c !! server with
           | None => (c, inl (Err (zeroToolResult, InvUnknownServer server)), recordMCPToolHealth server false CodeMCPUnknownServer now)
           | Some session =>
               match call_args (Ca_Args call) with
               | None => (c, inl (Err (zeroToolResult, InvArguments)), [])
               | Some args =>
                   let '(c, hit) := cached_answer c (bool_decide (is_Some content)) entry call now in
                   match hit, content with
                   | Some e, Some put =>
                       match put (Ca_RunID call) (Ca_Seq call) (re_body e) with
                       | Err err => (c, inl (Err (zeroToolResult, InvStore err)), [])
                       | Ok ref =>
                           (c, inl (Ok (zeroToolResult <| Tr_ResultRef := ref |> <| Tr_ResultDigest := ResultDigest (re_body e) |>
                                          <| Tr_ResultBytes := Z.of_nat (String.length (re_body e)) |> <| Tr_Labels := re_labels e |>
                                          <| Tr_Cached := true |> <| Tr_CachedFromRun := re_sourceRun e |>
                                          <| Tr_CachedFromSeq := re_sourceSeq e |>)),
                            [ObsCall "ok" CodeMCPCacheHit true])
                       end
                   | _, _ =>
                       (c, inr (MkFlight entry session (fst <$> ct_caches c !! server) args
                                  (default defaultTimeout (ct_timeouts c !! server))), [])
                   end
               end
           end
  end.

(** Only the session that failed is retired. *)
Definition retireIfDead (c : Catalog) (server : string) (failed : nat) (e : CallError) : Catalog :=
  if negb (Ce_Closed e) then c
  else match ct_sessions c !! server with
       | Some current => if Nat.eqb current failed then c <| ct_sessions := delete server (ct_sessions c) |> else c
       | None => c
       end.

(** After the call, in the catalogue as it is by then. *)
Definition invoke_finish (c : Catalog) (content : content_port) (call : Call) (f : Flight)
    (answer : result CallError CallToolResult) (now : Time) : Catalog * outcome * list Observation :=
  let entry := fl_entry f in
  let server := En_Server entry in
  let out := zeroToolResult <| Tr_Labels := labels_of entry |> in
  match answer with
  | Err e =>
      let code := failureCodeOf e in
      let out := out <| Tr_Failed := true |> <| Tr_ErrorCode := code |> in
      let stored := match content with
                    | None => Ok ""
                    | Some put => put (Ca_RunID call) (Ca_Seq call) (invocationErrorText (Ca_Tool call) code (Ce_Text e))
                    end in
      match stored with
      | Err err => (c, Err (zeroToolResult, InvStore err), [])
      | Ok ref => (retireIfDead c server (fl_session f) e, Err (out <| Tr_ResultRef := ref |>, InvCall e),
                   ObsCall "error" code false :: recordMCPToolHealth server false code now)
      end
  | Ok res =>
      let out := out <| Tr_Failed := Cr_IsError res |> <| Tr_Provenance := En_Provenance entry |>
                     <| Tr_ErrorCode := if Cr_IsError res then CodeMCPToolError else "" |> in
      let obs := if Cr_IsError res
                 then ObsCall "error" CodeMCPToolError false :: recordMCPToolHealth server false CodeMCPToolError now
                 else ObsCall "ok" CodeMCPNoCode false :: recordMCPToolHealth server true CodeMCPNoCode now in
      let body := flatten res in
      let out := if Cr_IsError res then out
                 else out <| Tr_ResultDigest := ResultDigest body |> <| Tr_ResultBytes := Z.of_nat (String.length body) |> in
      match content with
      | None => (c, Ok out, obs)
      | Some put =>
          if String.eqb body "" then (c, Ok out, obs)
          else match put (Ca_RunID call) (Ca_Seq call) body with
               | Err err => (c, Err (zeroToolResult, InvStore err), obs)
               | Ok ref =>
                   let c := match fl_cache f, ct_caches c !! server with
                            | Some id, Some (id', cache) =>
                                if Nat.eqb id id' && Z.eqb (En_Effect entry) EffectRead && negb (Cr_IsError res)
                                then set_cache c server id
                                       (resultCache_put cache (resultCacheKeyOf entry call) body (labels_of entry) (Ca_RunID call) (Ca_Seq call) now)
                                else c
                            | _, _ => c
                            end in
                   (c, Ok (out <| Tr_ResultRef := ref |>), obs)
               end
      end
  end.
