(* ===== verification/Agent.v ===== *)
(** * Agents as published

    src/internal/domain/agent.go, approvals.go, webhook.go and the json tags of
    budget.go and memory.go: what a published version declares, how it is
    written to the registry's columns and read back. *)

From Stdlib Require Import ZArith Lia Ascii String.
From stdpp Require Import base list strings.
From S2P Require Import Prelude GoStrings Json JsonFacts Domain Payload Encode Ports.

Local Open Scope string_scope.

(** ** Triggers and events *)

Record AgentTrigger := MkAgentTrigger {
  At_Type : string;
  At_Schedule : string;
  At_Path : string;
  At_Event : string;
  At_From : string;
  At_Events : list string
}.

Record AgentEvent := MkAgentEvent { Ev_Event : string; Ev_Context : string; Ev_Artifacts : list string }.

Record EventEdge := MkEventEdge { Ee_From : AgentID; Ee_Event : string; Ee_To : AgentID }.

Definition WebhookFromGitHub : string := "github".

Record WebhookTrigger := MkWebhookTrigger { Wh_Path : string; Wh_From : string; Wh_Events : list string }.

#[export] Instance AgentTrigger_eq_dec : EqDecision AgentTrigger.
Proof. solve_decision. Defined.
#[export] Instance AgentEvent_eq_dec : EqDecision AgentEvent.
Proof. solve_decision. Defined.
#[export] Instance EventEdge_eq_dec : EqDecision EventEdge.
Proof. solve_decision. Defined.
#[export] Instance Budget_eq_dec : EqDecision Budget.
Proof. solve_decision. Defined.
#[export] Instance MemoryLearningPolicy_eq_dec : EqDecision MemoryLearningPolicy.
Proof. solve_decision. Defined.

(** ** How approvals arrive (approvals.go) *)

Record ApprovalPolicy := MkApprovalPolicy { Ay_Direct : bool; Ay_Notify : list UserID }.

#[export] Instance ApprovalPolicy_eq_dec : EqDecision ApprovalPolicy.
Proof. solve_decision. Defined.

Definition zeroApprovalPolicy : ApprovalPolicy := MkApprovalPolicy false [].

Definition MaxApprovalNotify : nat := 20.

(** One name at a time: trimmed, and left out when empty or already there. *)
Definition notify_name (out : list UserID) (one : UserID) : list UserID :=
  let id := trim_space one in
  if String.eqb id "" || existsb (String.eqb id) out then out else (out ++ [id])%list.

Definition ApprovalPolicy_Normalize (p : ApprovalPolicy) : ApprovalPolicy :=
  MkApprovalPolicy (Ay_Direct p) (fold_left notify_name (Ay_Notify p) []).

Inductive ApprovalPolicyError := ErrApprovalNotifyWithoutDirect | ErrApprovalNotifyTooMany.

Definition ApprovalPolicy_Validate (p : ApprovalPolicy) : option ApprovalPolicyError :=
  if negb (Ay_Direct p) && negb (bool_decide (Ay_Notify p = [])) then Some ErrApprovalNotifyWithoutDirect
  else if (MaxApprovalNotify <? List.length (Ay_Notify p))%nat then Some ErrApprovalNotifyTooMany
  else None.

(** ** A version in one row *)

Record AgentSummary := MkAgentSummary {
  As_Stage : Stage;
  As_Retired : bool;
  As_Started : bool;
  As_ID : AgentID;
  As_VersionID : VersionID;
  As_Scope : Scope;
  As_Name : string;
  As_Provider : string;
  As_Model : string;
  As_Effort : string;
  As_Fallback : ModelPair;
  As_CachePrefixTTL : string;
  As_ReplyLocale : string;
  As_Tools : list ToolID;
  As_Budget : Budget;
  As_MemoryLearning : MemoryLearningPolicy;
  As_Triggers : list AgentTrigger;
  As_StandingApprovals : StandingPolicy;
  As_PublishedBy : UserID;
  As_PublishedAt : Time;
  As_Latest : bool
}.

(** ** The columns of a version *)

Definition zeroAgentTrigger : AgentTrigger := MkAgentTrigger "" "" "" "" "" [].

Definition d_AgentTrigger : decoder AgentTrigger := d_struct (fun cur fs =>
  f0 ← field "type" d_string (At_Type cur) fs;
  f1 ← field "schedule" d_string (At_Schedule cur) fs;
  f2 ← field "path" d_string (At_Path cur) fs;
  f3 ← field "event" d_string (At_Event cur) fs;
  f4 ← field "from" d_string (At_From cur) fs;
  f5 ← field "events" (d_list "" d_string) (At_Events cur) fs;
  mret (MkAgentTrigger f0 f1 f2 f3 f4 f5)).

Definition e_AgentTrigger (t : AgentTrigger) : json := obj [
  fld "type" c_string (At_Type t);
  fopt "schedule" c_string (At_Schedule t);
  fopt "path" c_string (At_Path t);
  fopt "event" c_string (At_Event t);
  fopt "from" c_string (At_From t);
  fopt "events" (c_list c_string) (At_Events t)].

Definition c_AgentTrigger : codec AgentTrigger :=
  struct_codec e_AgentTrigger d_AgentTrigger zeroAgentTrigger (fun t =>
    c_ok c_string (At_Type t) /\
    c_ok c_string (At_Schedule t) /\
    c_ok c_string (At_Path t) /\
    c_ok c_string (At_Event t) /\
    c_ok c_string (At_From t) /\
    c_ok (c_list c_string) (At_Events t)).

#[export] Instance laws_AgentTrigger : CodecLaws c_AgentTrigger.
Proof. struct_laws. Qed.

Definition zeroAgentEvent : AgentEvent := MkAgentEvent "" "" [].

Definition d_AgentEvent : decoder AgentEvent := d_struct (fun cur fs =>
  f0 ← field "event" d_string (Ev_Event cur) fs;
  f1 ← field "context" d_string (Ev_Context cur) fs;
  f2 ← field "artifacts" (d_list "" d_string) (Ev_Artifacts cur) fs;
  mret (MkAgentEvent f0 f1 f2)).

Definition e_AgentEvent (e : AgentEvent) : json := obj [
  fld "event" c_string (Ev_Event e);
  fopt "context" c_string (Ev_Context e);
  fopt "artifacts" (c_list c_string) (Ev_Artifacts e)].

Definition c_AgentEvent : codec AgentEvent :=
  struct_codec e_AgentEvent d_AgentEvent zeroAgentEvent (fun e =>
    c_ok c_string (Ev_Event e) /\
    c_ok c_string (Ev_Context e) /\
    c_ok (c_list c_string) (Ev_Artifacts e)).

#[export] Instance laws_AgentEvent : CodecLaws c_AgentEvent.
Proof. struct_laws. Qed.

Definition d_Budget : decoder Budget := d_struct (fun cur fs =>
  f0 ← field "Micros" d_int (B_Micros cur) fs;
  f1 ← field "Tokens" d_int (B_Tokens cur) fs;
  f2 ← field "ToolCalls" d_int (B_ToolCalls cur) fs;
  f3 ← field "Steps" d_int (B_Steps cur) fs;
  f4 ← field "WallClockMS" d_int (B_WallClockMS cur) fs;
  mret (MkBudget f0 f1 f2 f3 f4)).

Definition e_Budget (b : Budget) : json := obj [
  fld "Micros" c_int (B_Micros b);
  fld "Tokens" c_int (B_Tokens b);
  fld "ToolCalls" c_int (B_ToolCalls b);
  fld "Steps" c_int (B_Steps b);
  fld "WallClockMS" c_int (B_WallClockMS b)].

Definition c_Budget : codec Budget :=
  struct_codec e_Budget d_Budget zeroBudget (fun b =>
    c_ok c_int (B_Micros b) /\
    c_ok c_int (B_Tokens b) /\
    c_ok c_int (B_ToolCalls b) /\
    c_ok c_int (B_Steps b) /\
    c_ok c_int (B_WallClockMS b)).

#[export] Instance laws_Budget : CodecLaws c_Budget.
Proof. struct_laws. Qed.

Definition zeroMemoryLearningPolicy : MemoryLearningPolicy := MkMemoryLearningPolicy "" 0 0.

Definition d_MemoryLearningPolicy : decoder MemoryLearningPolicy := d_struct (fun cur fs =>
  f0 ← field "mode" d_string (ML_Mode cur) fs;
  f1 ← field "min_observations" d_int (ML_MinObservations cur) fs;
  f2 ← field "ttl_days" d_int (ML_TTLDays cur) fs;
  mret (MkMemoryLearningPolicy f0 f1 f2)).

Definition e_MemoryLearningPolicy (p : MemoryLearningPolicy) : json := obj [
  fld "mode" c_string (ML_Mode p);
  fopt "min_observations" c_int (ML_MinObservations p);
  fopt "ttl_days" c_int (ML_TTLDays p)].

Definition c_MemoryLearningPolicy : codec MemoryLearningPolicy :=
  struct_codec e_MemoryLearningPolicy d_MemoryLearningPolicy zeroMemoryLearningPolicy (fun p =>
    c_ok c_string (ML_Mode p) /\
    c_ok c_int (ML_MinObservations p) /\
    c_ok c_int (ML_TTLDays p)).

#[export] Instance laws_MemoryLearningPolicy : CodecLaws c_MemoryLearningPolicy.
Proof. struct_laws. Qed.

Definition d_ApprovalPolicy : decoder ApprovalPolicy := d_struct (fun cur fs =>
  f0 ← field "direct" d_bool (Ay_Direct cur) fs;
  f1 ← field "notify" (d_list "" d_string) (Ay_Notify cur) fs;
  mret (MkApprovalPolicy f0 f1)).

Definition e_ApprovalPolicy (p : ApprovalPolicy) : json := obj [
  fopt "direct" c_bool (Ay_Direct p);
  fopt "notify" (c_list c_string) (Ay_Notify p)].

Definition c_ApprovalPolicy : codec ApprovalPolicy :=
  struct_codec e_ApprovalPolicy d_ApprovalPolicy zeroApprovalPolicy (fun p =>
    c_ok c_bool (Ay_Direct p) /\
    c_ok (c_list c_string) (Ay_Notify p)).

#[export] Instance laws_ApprovalPolicy : CodecLaws c_ApprovalPolicy.
Proof. struct_laws. Qed.
