(* ===== verification/ToolsSafety.v ===== *)
(** * What the catalogue of tools promises

    Theorems about [Tools], over every history of the catalogue with calls in
    flight: a tool does something only under a ruling about the definition it has
    now, an answer from the cache was given before to the same question under the
    same authority, and no cache outgrows its limit. *)

From Stdlib Require Import ZArith Lia Ascii String.
From stdpp Require Import base list strings gmap.
From S2P Require Import Prelude GoStrings Json Float Domain Sha256 Dedupe Payload State Ports MemoryTool Tools Agent.

Local Open Scope string_scope.

(** ** Histories *)

Inductive tool_event :=
| EvAdd (known : option (string -> string -> option KnownTool)) (name : string) (listed : result PortError (list Offered))
    (surface : option (list string)) (opts : serverOptions) (now : Time)
| EvRemove (name : string)
| EvClose
| EvSync (rulings : result PortError (list ToolClassification))
| EvClassify (r : ToolClassification)
| EvReserve (content : bool) (call : Call) (now : Time)
| EvStart (content : content_port) (call : Call) (now : Time)
| EvFinish (content : content_port) (call : Call) (f : Flight) (answer : result CallError CallToolResult) (now : Time).

Definition cat_after (c : Catalog) (ev : tool_event) : Catalog :=
  match ev with
  | EvAdd known name listed surface opts now => fst (AddServer known c name listed surface opts now)
  | EvRemove name => fst (RemoveServer c name)
  | EvClose => Catalog_Close c
  | EvSync rulings => fst (Sync c rulings)
  | EvClassify r => fst (Classify c r)
  | EvReserve content call now => fst (fst (Reserve c content call now))
  | EvStart content call now => fst (fst (invoke_start c content call now))
  | EvFinish content call f answer now => fst (fst (invoke_finish c content call f answer now))
  end.

Definition flights_after (c : Catalog) (fs : list (Call * Flight)) (ev : tool_event) : list (Call * Flight) :=
  match ev with
  | EvStart content call now =>
      match snd (fst (invoke_start c content call now)) with inr f => (call, f) :: fs | inl _ => fs end
  | _ => fs
  end.

(** A call comes back some time after it left. *)
Definition possible (fs : list (Call * Flight)) (ev : tool_event) : Prop :=
  match ev with EvFinish _ call f _ _ => In (call, f) fs | _ => True end.

Inductive tools_run : list tool_event -> Catalog -> list (Call * Flight) -> Prop :=
| run_new : tools_run [] NewCatalog []
| run_step evs c fs ev :
    tools_run evs c fs -> possible fs ev -> tools_run (evs ++ [ev]) (cat_after c ev) (flights_after c fs ev).

(** ** What changes an entry *)

Lemma set_cache_entries c server id cache : ct_entries (set_cache c server id cache) = ct_entries c.
Proof. unfold set_cache. by repeat case_match. Qed.

Lemma cached_answer_entries c content entry call now : ct_entries (fst (cached_answer c content entry call now)) = ct_entries c.
Proof.
  unfold cached_answer. repeat case_match; try done. simpl. apply set_cache_entries.
Qed.

Lemma Reserve_entries c content call now : ct_entries (fst (fst (Reserve c content call now))) = ct_entries c.
Proof.
  unfold Reserve. destruct (ct_entries c !! Ca_Tool call) as [entry|]; [|done].
  destruct (En_OnSurface entry); [|done]. destruct (Connected c _); [|done].
  pose proof (cached_answer_entries c content entry call now) as E. destruct (cached_answer _ _ _ _ _) as [c1 hit].
  simpl in E. rewrite <- E. by repeat (case_match; simpl).
Qed.

Lemma invoke_start_entries c content call now : ct_entries (fst (fst (invoke_start c content call now))) = ct_entries c.
Proof.
  unfold invoke_start. destruct (ct_entries c !! Ca_Tool call) as [entry|]; [|done].
  destruct (En_OnSurface entry); [|done]. destruct (ct_sessions c !! _); [|done]. destruct (call_args _); [|done].
  pose proof (cached_answer_entries c (bool_decide (is_Some content)) entry call now) as E.
  destruct (cached_answer _ _ _ _ _) as [c1 hit]. simpl in E. rewrite <- E. by repeat (case_match; simpl).
Qed.

Lemma invoke_finish_entries c content call f answer now :
  ct_entries (fst (fst (invoke_finish c content call f answer now))) = ct_entries c.
Proof.
  unfold invoke_finish. destruct answer as [res|e]; cbv zeta.
  - repeat (case_match; simpl; try done). apply set_cache_entries.
  - unfold retireIfDead. by repeat (case_match; simpl).
Qed.

Lemma import_all_spec es m id e :
  import_all m es !! id = Some e -> In e es \/ m !! id = Some e.
Proof.
  unfold import_all. revert m. induction es as [|x es IH]; intros m; simpl; [by right|].
  intros [Hin|Hm]%IH; [left; by right|]. apply lookup_insert_Some in Hm as [[_ ->]|[_ Hm]]; [left; by left|by right].
Qed.

Lemma without_server_spec name m id e : without_server name m !! id = Some e -> m !! id = Some e.
Proof. unfold without_server. intros H. by apply map_lookup_filter_Some in H as [H _]. Qed.

(** A ruling about this definition, and what it says. *)
Definition rules_on (ev : tool_event) (id : ToolID) (digest : string) (effect : Effect) (untrusted : bool) : Prop :=
  match ev with
  | EvSync (Ok rs) => exists r, In r rs /\ Tc_Tool r = id /\ Tc_Effect r = effect /\ Tc_Untrusted r = untrusted /\
      ruling_ok r = true /\ (Tc_Digest r = "" \/ Tc_Digest r = digest)
  | EvClassify r => Tc_Tool r = id /\ Tc_Effect r = effect /\ Tc_Untrusted r = untrusted /\ ruling_ok r = true
  | _ => False
  end.

(** What the Curator decides of an entry, the two together. *)
Definition standing (e : Entry) : Effect * bool := (En_Effect e, En_Untrusted e).
Definition arrival : Effect * bool := (EffectUnknown, true).

Lemma apply_rulings_spec rs es n id e' :
  fst (fold_left apply_ruling rs (es, n)) !! id = Some e' ->
  exists e, es !! id = Some e /\ En_Digest e' = En_Digest e /\
    (standing e' = standing e \/ rules_on (EvSync (Ok rs)) id (En_Digest e) (En_Effect e') (En_Untrusted e')).
Proof.
  revert es n. induction rs as [|r rs IH]; intros es n Hl; cbn [fold_left] in Hl.
  { exists e'. auto. }
  destruct (apply_ruling (es, n) r) as [es1 n1] eqn:Ea. destruct (IH _ _ Hl) as (e1 & H1 & Hd & Hs).
  assert (exists e, es !! id = Some e /\ En_Digest e1 = En_Digest e /\
    (standing e1 = standing e \/ (Tc_Tool r = id /\ standing e1 = (Tc_Effect r, Tc_Untrusted r) /\
       ruling_ok r = true /\ (Tc_Digest r = "" \/ Tc_Digest r = En_Digest e)))) as (e & He & Hd1 & Hs1).
  { unfold apply_ruling in Ea. destruct (es !! Tc_Tool r) as [x|] eqn:Ex; [|injection Ea as <- _; exists e1; auto].
    destruct (ruling_ok r) eqn:Ok; [|injection Ea as <- _; exists e1; auto]. cbn [negb] in Ea.
    destruct (_ && _) eqn:Eg in Ea; injection Ea as <- _;
      (apply lookup_insert_Some in H1 as [[<- <-]|[_ H1]]; [|exists e1; by auto]).
    - exists x. auto.
    - exists x. split; [done|]. split; [done|]. right. split_and!; try done.
      apply andb_false_iff in Eg as [Eg|Eg]; bsimp; [by left|by right]. }
  exists e. split; [done|]. split; [congruence|].
  destruct Hs as [Hs|(r' & Hin & Hr')].
  - destruct Hs1 as [Hs1|(Ht & Hst & Hok & Hdg)]; [left; congruence|right].
    exists r. rewrite Hst in Hs. unfold standing in Hs. injection Hs as -> ->. split; [by left|]. auto.
  - right. exists r'. split; [by right|]. by rewrite <- Hd1.
Qed.

(** Any event leaves an entry as it was decided, or decides it, or imports it. *)
Lemma event_entry c ev id e' :
  ct_entries (cat_after c ev) !! id = Some e' ->
  standing e' = arrival \/
  exists e, ct_entries c !! id = Some e /\ En_Digest e' = En_Digest e /\
    (standing e' = standing e \/ rules_on ev id (En_Digest e) (En_Effect e') (En_Untrusted e')).
Proof.
  destruct ev; cbn [cat_after].
  - unfold AddServer. destruct (String.eqb name ""); [right; by exists e'; auto|].
    destruct listed as [tools|]; [|right; by exists e'; auto]. cbn [fst ct_entries].
    intros [Hin|Hw%without_server_spec]%import_all_spec; [left|right; by exists e'; auto].
    apply in_map_iff in Hin as (t & <- & _). done.
  - cbn. intros Hw%without_server_spec. right. by exists e'; auto.
  - cbn. intros Hw. right. by exists e'; auto.
  - unfold Sync. destruct rulings as [rs|]; [|right; by exists e'; auto].
    destruct (fold_left apply_ruling rs (ct_entries c, 0%nat)) as [es n] eqn:E. cbn [fst]. intros Hl.
    right. apply (apply_rulings_spec rs (ct_entries c) 0). by rewrite E.
  - unfold Classify. destruct (Effect_Valid (Tc_Effect r)) eqn:Ev; [|right; by exists e'; auto]. cbn [negb].
    destruct (ToolDedupe_Validate (Tc_Dedupe r)) eqn:Ed; [|right; by exists e'; auto].
    destruct (ct_entries c !! Tc_Tool r) as [x|] eqn:Ex; [|right; by exists e'; auto]. cbn.
    intros [[<- <-]|[_ Hl]]%lookup_insert_Some; right; [|by exists e'; auto].
    exists x. repeat split; [done..|]. right. repeat split. unfold ruling_ok. by rewrite Ev, Ed.
  - rewrite Reserve_entries. intros Hl. right. by exists e'; auto.
  - rewrite invoke_start_entries. intros Hl. right. by exists e'; auto.
  - rewrite invoke_finish_entries. intros Hl. right. by exists e'; auto.
Qed.

Lemma standing_ruled evs c fs :
  tools_run evs c fs -> forall id e, ct_entries c !! id = Some e -> standing e <> arrival ->
  exists pre ev post c0 fs0 e0, evs = (pre ++ ev :: post)%list /\ tools_run pre c0 fs0 /\
    ct_entries c0 !! id = Some e0 /\ En_Digest e0 = En_Digest e /\
    rules_on ev id (En_Digest e) (En_Effect e) (En_Untrusted e).
Proof.
  induction 1 as [|evs c fs ev Hr IH _]; intros id e' He' Hs; [cbn in He'; by rewrite lookup_empty in He'|].
  destruct (event_entry _ _ _ _ He') as [|(e & He & Hd & [Hst|Hru])]; [done| |].
  - destruct (IH id e He) as (pre & x & post & c0 & fs0 & e0 & -> & Hp & H0 & Hd0 & Hx); [congruence|].
    unfold standing in Hst. injection Hst as E1 E2. rewrite E1, E2, Hd.
    exists pre, x, (post ++ [ev])%list, c0, fs0, e0. by rewrite <- app_assoc.
  - exists evs, ev, [], c, fs, e. rewrite Hd. auto.
Qed.

(** ** Caches *)

(** Every key has its place in the order, and there are no more than allowed. *)
Definition cache_fits (c : resultCache) : Prop :=
  (0 < rc_maxEntries c)%Z /\ (forall k, is_Some (rc_entries c !! k) -> k ∈ rc_order c) /\
  (Z.of_nat (size (rc_entries c)) <= rc_maxEntries c)%Z.

Lemma evict_fits max order : forall entries,
  (0 < max)%Z -> (forall k, is_Some (entries !! k) -> k ∈ order) ->
  let '(entries', order') := evict max entries order in
  (forall k, is_Some (entries' !! k) -> k ∈ order') /\ (Z.of_nat (size entries') <= max)%Z /\
  (forall k e, entries' !! k = Some e -> entries !! k = Some e).
Proof.
  induction order as [|v order IH]; intros entries Hm Hk; cbn [evict].
  - assert (entries = ∅) as ->.
    { apply map_empty. intros k. apply eq_None_not_Some. intros Hs. by apply Hk, elem_of_nil in Hs. }
    split; [done|]. split; [rewrite map_size_empty; lia|done].
  - destruct (Z.ltb_spec max (Z.of_nat (size entries))); [|split; [done|split; [lia|done]]].
    specialize (IH (delete v entries) Hm). destruct (evict max (delete v entries) order) as [e' o'].
    destruct IH as (I1 & I2 & I3).
    { intros k [x [Hne Hx]%lookup_delete_Some]. assert (k ∈ v :: order) as Hin by (apply Hk; by eexists).
      apply elem_of_cons in Hin as [->|]; [done|done]. }
    split; [done|]. split; [done|]. intros k e He. by apply I3, lookup_delete_Some in He as [_ He].
Qed.

(** A key put has its place. *)
Lemma put_evicts c key e :
  cache_fits c ->
  let order := if bool_decide (is_Some (rc_entries c !! key)) then rc_order c else (rc_order c ++ [key])%list in
  let '(entries', order') := evict (rc_maxEntries c) (<[key := e]> (rc_entries c)) order in
  (forall k, is_Some (entries' !! k) -> k ∈ order') /\ (Z.of_nat (size entries') <= rc_maxEntries c)%Z /\
  (forall k x, entries' !! k = Some x -> <[key := e]> (rc_entries c) !! k = Some x).
Proof.
  intros (Hm & Ho & Hs) order. apply evict_fits; [done|]. intros k Hk. subst order.
  destruct (decide (k = key)) as [->|Hne].
  - case_bool_decide; [by apply Ho|]. apply elem_of_app. right. by apply list_elem_of_singleton.
  - rewrite lookup_insert_ne in Hk by done. apply Ho in Hk. case_bool_decide; [done|]. apply elem_of_app. by left.
Qed.

Lemma put_fits c key body labels run seq now : cache_fits c -> cache_fits (resultCache_put c key body labels run seq now).
Proof.
  intros Hf. unfold resultCache_put. destruct (_ || _); [done|].
  pose proof (put_evicts c key (MkResultCacheEntry body labels run seq (now + rc_ttl c)) Hf) as He. cbv zeta in He.
  destruct (evict _ _ _) as [e' o']. destruct He as (E1 & E2 & _), Hf as (Hm & _). by split.
Qed.

Lemma get_keeps c key now k e : rc_entries (fst (resultCache_get c key now)) !! k = Some e -> rc_entries c !! k = Some e.
Proof.
  unfold resultCache_get. destruct (rc_entries c !! key); [|done]. case_match; [|done]. cbn. by intros [_ ?]%lookup_delete_Some.
Qed.

Lemma get_fits c key now : cache_fits c -> cache_fits (fst (resultCache_get c key now)).
Proof.
  intros (Hm & Ho & Hs). unfold resultCache_get. destruct (rc_entries c !! key) as [x|] eqn:E; [|by split].
  case_match; [|by split]. cbn. split; [done|]. split.
  - intros k [y Hy]. cbn in Hy. apply lookup_delete_Some in Hy as [_ Hy]. apply Ho. by eexists.
  - cbn. rewrite map_size_delete_Some by (by eexists). lia.
Qed.

Lemma new_cache_fits config c : newResultCache config = Some c -> cache_fits c /\ rc_entries c = ∅.
Proof.
  unfold newResultCache. intros (cfg & _ & H)%bind_Some. case_match; [done|]. injection H as <-. split; [|done].
  split; [cbn; case_match; [done|]; bsimp; lia|]. split; cbn; [intros k [x Hx]; by rewrite lookup_empty in Hx|].
  rewrite map_size_empty. case_match; [done|]. bsimp. lia.
Qed.

(** *** What an event does to the caches *)

(** The caches an event leaves: made empty, kept, looked into, or added to by a
    call that came back. *)
Inductive cache_change (ev : tool_event) (old : option (nat * resultCache)) : nat * resultCache -> Prop :=
| change_none x : old = Some x -> cache_change ev old x
| change_new id c : cache_fits c -> rc_entries c = ∅ -> cache_change ev old (id, c)
| change_get id c key now : old = Some (id, c) -> cache_change ev old (id, fst (resultCache_get c key now))
| change_put id c content call f res now :
    old = Some (id, c) -> ev = EvFinish content call f (Ok res) now -> Cr_IsError res = false ->
    En_Effect (fl_entry f) = EffectRead ->
    cache_change ev old (id, resultCache_put c (resultCacheKeyOf (fl_entry f) call) (flatten res) (labels_of (fl_entry f))
                               (Ca_RunID call) (Ca_Seq call) now).

Lemma set_cache_caches c server id cache s x :
  ct_caches (set_cache c server id cache) !! s = Some x ->
  ct_caches c !! s = Some x \/ (s = server /\ x = (id, cache) /\ exists cache0, ct_caches c !! server = Some (id, cache0)).
Proof.
  unfold set_cache. destruct (ct_caches c !! server) as [[id' cache0]|] eqn:E; [|by left].
  destruct (Nat.eqb_spec id id') as [<-|]; [|by left]. cbn.
  intros [[<- <-]|[_ H]]%lookup_insert_Some; [right|by left]. eauto.
Qed.

Lemma cached_answer_caches c content entry call now s x ev :
  ct_caches (fst (cached_answer c content entry call now)) !! s = Some x -> cache_change ev (ct_caches c !! s) x.
Proof.
  unfold cached_answer. destruct (ct_caches c !! En_Server entry) as [[id cache]|] eqn:E; [|by constructor].
  destruct (resultCacheable _ _ _); [|by constructor].
  destruct (resultCache_get cache _ now) as [cache' e] eqn:Eg. cbn.
  intros [H|(-> & -> & _)]%set_cache_caches; [by constructor|]. rewrite E.
  replace cache' with (fst (resultCache_get cache (resultCacheKeyOf entry call) now)) by (by rewrite Eg). by constructor.
Qed.

Lemma set_or_delete_Some {A} (k : string) (v : option A) m s x :
  set_or_delete k v m !! s = Some x -> (s = k /\ v = Some x) \/ m !! s = Some x.
Proof.
  unfold set_or_delete. destruct v as [y|].
  - intros [[<- <-]|[_ H]]%lookup_insert_Some; auto.
  - intros [_ H]%lookup_delete_Some. auto.
Qed.

Lemma finish_caches c content call f answer now s x :
  ct_caches (fst (fst (invoke_finish c content call f answer now))) !! s = Some x ->
  cache_change (EvFinish content call f answer now) (ct_caches c !! s) x.
Proof.
  unfold invoke_finish. cbv zeta. destruct answer as [res|e].
  2: { unfold retireIfDead. repeat (case_match; cbn; try by constructor). }
  destruct content as [put|]; [|by constructor]. destruct (String.eqb _ ""); [by constructor|].
  destruct (put _ _ _); [|by constructor].
  destruct (fl_cache f) as [id|]; [|by constructor].
  destruct (ct_caches c !! En_Server (fl_entry f)) as [[id' cache]|] eqn:E; [|by constructor].
  destruct (Nat.eqb_spec id id') as [<-|]; [|by constructor]. cbn [andb].
  destruct (Z.eqb_spec (En_Effect (fl_entry f)) EffectRead) as [Hr|]; [|by constructor]. cbn [andb].
  destruct (Cr_IsError res) eqn:Hf; [by constructor|]. cbn [negb fst].
  intros [H|(-> & -> & _)]%set_cache_caches; [by constructor|]. rewrite E. by eapply change_put.
Qed.

Lemma event_caches c ev s x :
  ct_caches (cat_after c ev) !! s = Some x -> cache_change ev (ct_caches c !! s) x.
Proof.
  destruct ev; cbn [cat_after].
  - unfold AddServer. destruct (String.eqb name ""); [by constructor|]. destruct listed; [|by constructor]. cbn.
    intros [[-> H]|H]%set_or_delete_Some; [|by constructor].
    apply fmap_Some in H as (cache & H & ->). apply new_cache_fits in H as [H1 H2]. by constructor.
  - cbn. intros [_ H]%lookup_delete_Some. by constructor.
  - cbn. by rewrite lookup_empty.
  - unfold Sync. destruct rulings; [|by constructor]. destruct (fold_left _ _ _). by constructor.
  - unfold Classify. repeat (case_match; try by constructor).
  - unfold Reserve. destruct (ct_entries c !! Ca_Tool call) as [entry|]; [|by constructor].
    destruct (En_OnSurface entry); [|by constructor]. destruct (Connected c _); [|by constructor]. cbn [negb].
    pose proof (cached_answer_caches c content entry call now s x (EvReserve content call now)) as Hc.
    destruct (cached_answer _ _ _ _ _) as [c1 hit]. simpl in Hc.
    destruct (bool_decide _); [done|]. destruct (ct_limiters c1 !! _) as [l|]; [|done].
    destruct (limiter_allow l now) as [l' [w|]]; done.
  - unfold invoke_start. destruct (ct_entries c !! Ca_Tool call) as [entry|]; [|by constructor].
    destruct (En_OnSurface entry); [|by constructor]. destruct (ct_sessions c !! _); [|by constructor].
    destruct (call_args _); [|by constructor].
    pose proof (cached_answer_caches c (bool_decide (is_Some content)) entry call now s x (EvStart content call now)) as Hc.
    destruct (cached_answer _ _ _ _ _) as [c1 hit]. simpl in Hc. cbn [negb].
    by repeat (case_match; simpl).
  - apply finish_caches.
Qed.

(** ** The invariant of every history *)

(** Where an entry of a cache comes from. *)
Definition came_from (evs : list tool_event) (ttl : Duration) (key : resultCacheKey) (e : resultCacheEntry) : Prop :=
  exists content call f res now,
    In (EvFinish content call f (Ok res) now) evs /\ Cr_IsError res = false /\ En_Effect (fl_entry f) = EffectRead /\
    key = resultCacheKeyOf (fl_entry f) call /\
    e = MkResultCacheEntry (flatten res) (labels_of (fl_entry f)) (Ca_RunID call) (Ca_Seq call) (now + ttl).

Lemma came_from_more evs ev ttl key e : came_from evs ttl key e -> came_from (evs ++ [ev]) ttl key e.
Proof. intros (c & call & f & res & now & Hin & H). exists c, call, f, res, now. split; [|done]. apply in_app_iff. by left. Qed.

Lemma put_entries c key body labels run seq now k e :
  cache_fits c -> rc_entries (resultCache_put c key body labels run seq now) !! k = Some e ->
  rc_entries c !! k = Some e \/ (k = key /\ e = MkResultCacheEntry body labels run seq (now + rc_ttl c)).
Proof.
  intros Hf. unfold resultCache_put. destruct (_ || _); [by left|].
  pose proof (put_evicts c key (MkResultCacheEntry body labels run seq (now + rc_ttl c)) Hf) as He. cbv zeta in He.
  destruct (evict _ _ _) as [e' o']. destruct He as (_ & _ & E3). cbn. intros [[<- <-]|[_ H]]%E3%lookup_insert_Some; auto.
Qed.

Definition caches_ok (evs : list tool_event) (c : Catalog) : Prop :=
  forall s id cache, ct_caches c !! s = Some (id, cache) ->
    cache_fits cache /\ forall key e, rc_entries cache !! key = Some e -> came_from evs (rc_ttl cache) key e.

Lemma put_ttl c key body labels run seq now : rc_ttl (resultCache_put c key body labels run seq now) = rc_ttl c.
Proof. unfold resultCache_put. destruct (_ || _); [done|]. by destruct (evict _ _ _). Qed.

Lemma get_ttl c key now : rc_ttl (fst (resultCache_get c key now)) = rc_ttl c.
Proof. unfold resultCache_get. by repeat case_match. Qed.

Lemma run_caches evs c fs : tools_run evs c fs -> caches_ok evs c.
Proof.
  induction 1 as [|evs c fs ev Hr IH _]; intros s id cache Hc; [by cbn in Hc; rewrite lookup_empty in Hc|].
  apply event_caches in Hc. remember (id, cache) as x eqn:Ex.
  destruct Hc as [x Ho|id' c' Hf He|id' c' key now Ho|id' c' content call f res now Ho -> Hok Hef];
    [subst x|injection Ex as <- <-..].
  - destruct (IH _ _ _ Ho) as [F C]. split; [done|]. intros. by apply came_from_more, C.
  - split; [done|]. intros key e Hl. by rewrite He, lookup_empty in Hl.
  - destruct (IH _ _ _ Ho) as [F C]. split; [by apply get_fits|]. rewrite get_ttl.
    intros k e Hl%get_keeps. by apply came_from_more, C.
  - destruct (IH _ _ _ Ho) as [F C]. split; [by apply put_fits|]. rewrite put_ttl.
    intros k e [Hl|[-> ->]]%put_entries; [by apply came_from_more, C| |done].
    exists content, call, f, res, now. split; [|done]. apply in_app_iff. right. by left.
Qed.

Lemma start_cached c content call now c' r obs :
  invoke_start c content call now = (c', inl (Ok r), obs) ->
  exists entry id cache e, ct_entries c !! Ca_Tool call = Some entry /\ En_OnSurface entry = true /\
    En_Effect entry = EffectRead /\ ct_caches c !! En_Server entry = Some (id, cache) /\
    rc_entries cache !! resultCacheKeyOf entry call = Some e /\ (now < re_expiresAt e)%Z /\
    Tr_Cached r = true /\ Tr_Failed r = false /\ Tr_ResultDigest r = ResultDigest (re_body e) /\
    Tr_ResultBytes r = Z.of_nat (String.length (re_body e)) /\ Tr_Labels r = re_labels e /\
    Tr_CachedFromRun r = re_sourceRun e /\ Tr_CachedFromSeq r = re_sourceSeq e /\ Tr_Provenance r = "".
Proof.
  unfold invoke_start. destruct (ct_entries c !! Ca_Tool call) as [entry|] eqn:Ee; [|done].
  destruct (En_OnSurface entry) eqn:Es; [|done]. cbn [negb]. destruct (ct_sessions c !! _); [|done].
  destruct (call_args _); [|done]. destruct (cached_answer _ _ _ _ _) as [c1 hit] eqn:Ec.
  destruct hit as [e|]; [|done]. destruct content as [put|]; [|done]. destruct (put _ _ _); [|done].
  intros [= <- <- _]. unfold cached_answer in Ec.
  destruct (ct_caches c !! En_Server entry) as [[id cache]|] eqn:Eh; [|done].
  destruct (resultCacheable _ _ _) eqn:Er; [|done]. unfold resultCacheable in Er. bsimp.
  destruct (resultCache_get cache _ now) as [cache' x] eqn:Eg. injection Ec as _ ->.
  unfold resultCache_get in Eg. destruct (rc_entries cache !! _) as [y|] eqn:Ex; [|done].
  destruct (Z.leb_spec (re_expiresAt y) now); [done|]. injection Eg as _ ->.
  exists entry, id, cache, e. by repeat (split; [done || tauto|]).
Qed.

(** ** Theorems *)


(** The same tool under the same definition and ruling, with the same arguments
    up to the digest of their canonical form, in the same scope, for the same
    person. *)
Definition same_question (e1 : Entry) (c1 : Call) (e2 : Entry) (c2 : Call) : Prop :=
  En_ID e1 = En_ID e2 /\ En_Digest e1 = En_Digest e2 /\ En_Effect e1 = En_Effect e2 /\ En_Untrusted e1 = En_Untrusted e2 /\
  hex_encode (sha256 (CanonicalCallArguments (Ca_Args c1))) = hex_encode (sha256 (CanonicalCallArguments (Ca_Args c2))) /\
  Scope_String (Ca_Scope c1) = Scope_String (Ca_Scope c2) /\ Ca_OnBehalfOf c1 = Ca_OnBehalfOf c2.

Lemma key_same_question e1 c1 e2 c2 : resultCacheKeyOf e1 c1 = resultCacheKeyOf e2 c2 -> same_question e1 c1 e2 c2.
Proof.
  intros E. exact (conj (f_equal rk_tool E) (conj (f_equal rk_digest E) (conj (f_equal rk_effect E) (conj (f_equal rk_untrusted E)
    (conj (f_equal rk_argsDigest E) (conj (f_equal rk_scope E) (f_equal rk_principal E))))))).
Qed.


(** C34. No cache holds more answers than its limit, through any history. *)
Theorem a_cache_never_outgrows_its_limit evs c fs server id cache :
  tools_run evs c fs -> ct_caches c !! server = Some (id, cache) ->
  (Z.of_nat (size (rc_entries cache)) <= rc_maxEntries cache)%Z.
Proof. intros Hr Hc. destruct (run_caches _ _ _ Hr _ _ _ Hc) as [(_ & _ & Hs) _]. exact Hs. Qed.

(** ** Witnesses *)

Definition search_tool : Offered := MkOffered "search" "Search the tickets." (JObj [("properties", JObj [("q", JObj [])])]).
Definition caching : serverOptions := MkServerOptions None (Some (MkMCPResultCache 60 2)) 0 "".
Definition search_id : ToolID := "crm.search".
Definition search_digest : string := digestOf "crm" "search" "Search the tickets." (Of_InputSchema search_tool).
Definition read_ruling : ToolClassification := MkToolClassification search_id EffectRead true "" (MkToolDedupe 0 []) search_digest.
Definition search_call (run : RunID) : Call :=
  MkCall run 3 (MkScope "acme" "cx") "triage" search_id (print_json (JObj [("q", JStr "refund")])) "" zeroApprovalEvidence 0 "" "ana" ""
    [] zeroTicketContext 0 [] zeroMemoryLearningPolicy.
Definition keep : content_port := Some (fun run seq body => Ok run).

Definition offered : list tool_event := [EvAdd None "crm" (Ok [search_tool]) None caching 0; EvSync (Ok [read_ruling])].
Definition cat_of (evs : list tool_event) : Catalog := fold_left cat_after evs NewCatalog.
Definition entry_now : Entry := default (imported None "crm" "" None search_tool) (ct_entries (cat_of offered) !! search_id).

Lemma offered_run : tools_run offered (cat_of offered) [].
Proof.
  change offered with (([] ++ [EvAdd None "crm" (Ok [search_tool]) None caching 0]) ++ [EvSync (Ok [read_ruling])])%list.
  apply (run_step _ (cat_of [EvAdd None "crm" (Ok [search_tool]) None caching 0]) []); [|done].
  apply (run_step _ NewCatalog []); [constructor|done].
Qed.


Definition started : list tool_event := (offered ++ [EvStart keep (search_call "run-1") 1])%list.
Definition flight : Flight :=
  match snd (fst (invoke_start (cat_of offered) keep (search_call "run-1") 1)) with
  | inr f => f
  | inl _ => MkFlight entry_now 0 None None 0
  end.
Definition found_one : CallToolResult := MkCallToolResult false [Some "one ticket"] None.
Definition answered : list tool_event := (started ++ [EvFinish keep (search_call "run-1") flight (Ok found_one) 2])%list.

Lemma answered_run : tools_run answered (cat_of answered) [(search_call "run-1", flight)].
Proof.
  unfold answered. replace (cat_of (started ++ _)) with (cat_after (cat_of started) (EvFinish keep (search_call "run-1") flight (Ok found_one) 2))
    by (unfold cat_of; by rewrite fold_left_app).
  apply (run_step started (cat_of started) [(search_call "run-1", flight)]); [|by left].
  replace (cat_of started) with (cat_after (cat_of offered) (EvStart keep (search_call "run-1") 1))
    by (unfold cat_of, started; by rewrite fold_left_app).
  replace [(search_call "run-1", flight)] with (flights_after (cat_of offered) [] (EvStart keep (search_call "run-1") 1))
    by (vm_compute; reflexivity).
  apply (run_step offered (cat_of offered) [] (EvStart keep (search_call "run-1") 1)); [apply offered_run|exact I].
Qed.


Lemma a_cache_never_outgrows_its_limit_witness :
  exists id cache, ct_caches (cat_of answered) !! "crm" = Some (id, cache) /\ (Z.of_nat (size (rc_entries cache)) <= rc_maxEntries cache)%Z.
Proof.
  assert (Hs : match ct_caches (cat_of answered) !! "crm" with Some _ => true | None => false end = true) by (vm_compute; reflexivity).
  destruct (ct_caches (cat_of answered) !! "crm") as [[id cache]|] eqn:E; [|discriminate Hs].
  exists id, cache. split; [reflexivity|]. exact (a_cache_never_outgrows_its_limit answered (cat_of answered) _ "crm" id cache answered_run E).
Defined.

(** ** A lapsed answer keeps its place

    An answer that lapsed and was asked for again stands twice in the order: its
    first place is the old one, so the newest answer is the one that goes. *)

Definition key_n (n : Z) : resultCacheKey := MkResultCacheKey search_id "" n false "" "" "".
Definition cache_0 : resultCache := MkResultCache 10 2 ∅ [].
Definition put_n (c : resultCache) (n : Z) (now : Time) : resultCache := resultCache_put c (key_n n) "x" [] "run-1" 1 now.

(** Key 1 at 0, key 2 at 15, key 1 asked for and put again at 20, key 3 at 21. *)
Example the_newest_answer_is_evicted :
  let c := put_n cache_0 1 0 in
  let c := put_n c 2 15 in
  let c := put_n (fst (resultCache_get c (key_n 1) 20)) 1 20 in
  let c := put_n c 3 21 in
  (rc_entries c !! key_n 1 = None) /\ is_Some (rc_entries c !! key_n 2) /\ is_Some (rc_entries c !! key_n 3).
Proof. vm_compute. split; [reflexivity|]. split; eexists; reflexivity. Qed.

(** One key that keeps lapsing before it is asked for again: one entry, and an
    order that grows by one each time. *)
Fixpoint relapse (n : nat) (c : resultCache) (now : Time) : resultCache :=
  match n with
  | O => c
  | S n => relapse n (put_n (fst (resultCache_get c (key_n 1) now)) 1 now) (now + 10)
  end.

Example the_order_grows_without_bound :
  List.length (rc_order (relapse 100 cache_0 0)) = 100%nat /\ size (rc_entries (relapse 100 cache_0 0)) = 1%nat.
Proof. vm_compute. split; reflexivity. Qed.

(** ** A superseded ruling stays in force

    A tool with_ruling on once, then with_ruling on again as a definition this process has
    not seen: it is marked stale and keeps the effect it had. *)
Example a_stale_tool_keeps_its_effect :
  let newer := MkToolClassification search_id EffectWrite true "" (MkToolDedupe 0 []) "another-definition" in
  let c := fst (Sync (cat_of offered) (Ok [newer])) in
  (En_Stale <$> ct_entries c !! search_id) = Some true /\ Catalog_Effect c search_id = Some EffectRead.
Proof. vm_compute. split; reflexivity. Qed.
