(* ===== verification/Open.v ===== *)
(** * Opening runs

    src/internal/trigger/open.go, open_request.go, opener.go, version.go,
    rerun.go and the key lookup of src/internal/ledger/stats_memory.go: every
    way a run can start ends in [Open], which refuses before a run exists and
    otherwise appends its first step under the key of the intention. *)

From Stdlib Require Import ZArith Lia Ascii String.
From stdpp Require Import base list strings gmap.
From S2P Require Import Prelude GoStrings Json Domain Sha256 Step Payload Encode WorkItem State Ledger Ports Agent.

Local Open Scope string_scope.

(** ** A request *)

Record Request_ := MkRequest_ {
  Rq_Agent : AgentID;
  Rq_IdemKey : string;
  Rq_Trigger : string;
  Rq_By : UserID;
  Rq_Input : string;
  Rq_Labels : Labels;
  Rq_Origin : option RunOrigin;
  Rq_Ticket : option TicketContext;
  Rq_ContextArtifacts : list ContextArtifact;
  Rq_Simulation : string;
  Rq_Case : string;
  Rq_DatasetVersion : Z;
  Rq_Version : VersionID;
  Rq_SourceRun : RunID;
  Rq_Chain : option EventChain;
  Rq_WorkItem : option RunWorkItem
}.

Record OpenResult := MkOpenResult { Or_RunID : RunID; Or_Scope : Scope; Or_Created : bool }.

Inductive OpenError :=
| ErrNoKey
| ErrTicketInvalid
| ErrOpenWorkItem (e : WorkItemError)
| ErrPauseState
| ErrPaused (agent : AgentID)
| ErrReadStops
| ErrStopped (reason : string)
| ErrReadStage
| ErrDraft (agent : AgentID)
| ErrVersions (agent : AgentID)
| ErrUnknownAgent (agent : AgentID)
| ErrUnknownVersion (version : VersionID)
| ErrBoundary (v : ScopeBoundaryViolation)
| ErrStoreInput
| ErrOpenRun (e : LedgerError).

(** ** What the opener is wired to

    The registry, and where they are wired the pauses, the stops, the stages and
    the content store; the clock is read twice for one request, once to name the
    run and once to stamp its first step. *)
Record Opener := MkOpener {
  op_registry : AgentID -> result PortError (list AgentSummary);
  op_content : option (RunID -> Z -> string -> result PortError string);
  op_pauses : option (AgentID -> result PortError bool);
  op_stops : option (result PortError (list Stop));
  op_stages : option (AgentID -> result PortError Stage);
  op_clock : string -> Time * Time
}.

(** [RunByIdemKey] of the in-memory ledger: the run of a step with that key. *)
Definition all_steps (m : Memory) : list Step := List.concat ((map_to_list (m_runs m)).*2).

Definition RunByIdemKey (m : Memory) (cancelled : bool) (key : string) : result LedgerError RunID :=
  if cancelled then Err ErrContext
  else if String.eqb key "" then Err ErrNotFound
  else match List.find (fun s => String.eqb (S_IdemKey s) key) (all_steps m) with
       | Some s => Ok (S_RunID s)
       | None => Err ErrNotFound
       end.

(** ** The checks before anything is written *)

Definition workItemOf (req : Request_) : result OpenError (option RunWorkItem) :=
  match Rq_WorkItem req with
  | None => Ok None
  | Some item =>
      match RunWorkItem_Validate item with Ok _ => Ok (Some item) | Err e => Err (ErrOpenWorkItem e) end
  end.

Definition checkPaused (o : Opener) (agent : AgentID) : result OpenError unit :=
  match op_pauses o with
  | None => Ok tt
  | Some paused =>
      match paused agent with
      | Err _ => Err ErrPauseState
      | Ok true => Err (ErrPaused agent)
      | Ok false => Ok tt
      end
  end.

Definition needsScope (stops : list Stop) : bool :=
  existsb (fun s => String.eqb (Stop_Level s) StopScope) stops.

(** The first switch in force that covers the agent, by the scope of the version
    the registry answers first. *)
Definition stopping (o : Opener) (inForce : result PortError (list Stop)) (agent : AgentID)
    : result OpenError (option Stop) :=
  match inForce with
  | Err _ => Err ErrReadStops
  | Ok [] => Ok None
  | Ok stops =>
      scope ← (if needsScope stops then
                 match op_registry o agent with
                 | Err _ => Err (ErrVersions agent)
                 | Ok [] => Ok zeroScope
                 | Ok (v :: _) => Ok (As_Scope v)
                 end
               else Ok zeroScope);
      Ok (List.find (fun s => Stop_Covers s scope agent) stops)
  end.

Definition checkStopped (o : Opener) (agent : AgentID) : result OpenError unit :=
  match op_stops o with
  | None => Ok tt
  | Some inForce =>
      stop ← stopping o inForce agent;
      match stop with Some s => Err (ErrStopped (Stop_Reason s)) | None => Ok tt end
  end.

Definition checkStage (o : Opener) (req : Request_) : result OpenError unit :=
  match op_stages o with
  | None => Ok tt
  | Some stageOf =>
      if negb (String.eqb (Rq_Simulation req) "") then Ok tt
      else match stageOf (Rq_Agent req) with
           | Err _ => Err ErrReadStage
           | Ok stage => if String.eqb stage StageDraft then Err (ErrDraft (Rq_Agent req)) else Ok tt
           end
  end.

Definition Pin (agent : AgentID) (versions : list AgentSummary) (asked : VersionID)
    : result OpenError AgentSummary :=
  match versions with
  | [] => Err (ErrUnknownAgent agent)
  | v :: _ =>
      if String.eqb asked "" then Ok v
      else match List.find (fun x => String.eqb (As_VersionID x) asked) versions with
           | Some x => Ok x
           | None => Err (ErrUnknownVersion asked)
           end
  end.

Definition checkBoundary (labels : Labels) (scope : Scope) : result OpenError unit :=
  match Labels_ScopeBoundaryViolation labels scope with Some v => Err (ErrBoundary v) | None => Ok tt end.

Fixpoint checkArtifacts (artifacts : list ContextArtifact) (scope : Scope) : result OpenError unit :=
  match artifacts with
  | [] => Ok tt
  | a :: rest => _ ← checkBoundary (CA_Labels a) scope; checkArtifacts rest scope
  end.

(** Pause, stop, stage, version and data barrier, in that order. *)
Definition admit_request (o : Opener) (req : Request_) : result OpenError AgentSummary :=
  _ ← checkPaused o (Rq_Agent req);
  _ ← checkStopped o (Rq_Agent req);
  _ ← checkStage o req;
  versions ← (match op_registry o (Rq_Agent req) with Ok v => Ok v | Err _ => Err (ErrVersions (Rq_Agent req)) end);
  published ← Pin (Rq_Agent req) versions (Rq_Version req);
  _ ← checkBoundary (Rq_Labels req) (As_Scope published);
  _ ← checkArtifacts (Rq_ContextArtifacts req) (As_Scope published);
  Ok published.

(** ** The first step *)

Definition Time_UnixMilli (t : Time) : Z := wrap64 ((t - unix_epoch) / 1000000).

Definition newRunID (agent : AgentID) (at_ : Time) (key : string) : RunID :=
  "run_" +:+ agent +:+ "_" +:+ print_Z (Time_UnixMilli at_) +:+ "_" +:+
  String.substring 0 8 (hex_encode (sha256 key)).

Definition store_input (o : Opener) (run : RunID) (input : string) : result OpenError string :=
  match op_content o with
  | Some put =>
      if String.eqb input "" then Ok ""
      else match put run FirstSeq input with Ok ref => Ok ref | Err _ => Err ErrStoreInput end
  | None => Ok ""
  end.

Definition started_payload (req : Request_) (inputRef : string) (workItem : option RunWorkItem)
    : RunStartedPayload :=
  MkRunStartedPayload (Rq_Trigger req) inputRef (negb (String.eqb (Rq_Simulation req) "")) (Rq_Simulation req)
    (Rq_Case req) (Rq_DatasetVersion req) (Rq_Origin req) (Rq_Ticket req) (Rq_ContextArtifacts req)
    (Rq_SourceRun req) (Rq_Chain req) workItem.

Definition opening_step (req : Request_) (published : AgentSummary) (run : RunID) (at_ : Time)
    (inputRef : string) (workItem : option RunWorkItem) : Step :=
  MkStep run 0 StepRunStarted (As_Scope published) (As_ID published) (As_VersionID published) (Rq_By req)
    (marshal c_RunStartedPayload (started_payload req inputRef workItem))
    (Labels_Union (Rq_Labels req) (ScopeLabels (As_Scope published)))
    zeroCost (Rq_IdemKey req) "" at_ "" "".

(** ** Opening

    What happens up to the append, against the ledger the key is looked up in:
    the run it already names, or the step to append and the scope it is for. *)
Definition open_prepare (o : Opener) (req : Request_) (m : Memory) (cancelled : bool)
    : result OpenError (OpenResult + (Step * Scope)) :=
  if String.eqb (Rq_IdemKey req) "" then Err ErrNoKey
  else if negb (from_option TicketContext_Valid true (Rq_Ticket req)) then Err ErrTicketInvalid
  else
    workItem ← workItemOf req;
    match RunByIdemKey m cancelled (Rq_IdemKey req) with
    | Ok existing => Ok (inl (MkOpenResult existing zeroScope false))
    | Err _ =>
        published ← admit_request o req;
        let '(named, stamped) := op_clock o (Rq_IdemKey req) in
        let run := newRunID (As_ID published) named (Rq_IdemKey req) in
        inputRef ← store_input o run (Rq_Input req);
        Ok (inr (opening_step req published run stamped inputRef workItem, As_Scope published))
    end.

(** The append, against the ledger as it is by then; an attempt that lost asks
    again which run the key names. *)
Definition open_commit (m : Memory) (cancelled : bool) (s : Step) (scope : Scope)
    : Memory * result OpenError OpenResult :=
  match Append m cancelled 0 s with
  | Ok (m', _) => (m', Ok (MkOpenResult (S_RunID s) scope true))
  | Err e =>
      match RunByIdemKey m cancelled (S_IdemKey s) with
      | Ok existing => (m, Ok (MkOpenResult existing scope false))
      | Err _ => (m, Err (ErrOpenRun e))
      end
  end.

(** [seen] is the ledger when the key was looked up, [m] when the step is
    appended: others may have written in between. *)
Definition Open_across (o : Opener) (req : Request_) (seen : Memory) (unread : bool) (m : Memory) (cancelled : bool)
    : Memory * result OpenError OpenResult :=
  match open_prepare o req seen unread with
  | Err e => (m, Err e)
  | Ok (inl r) => (m, Ok r)
  | Ok (inr (s, scope)) => open_commit m cancelled s scope
  end.

Definition Opener_Open (o : Opener) (req : Request_) (m : Memory) (cancelled : bool)
    : Memory * result OpenError OpenResult :=
  Open_across o req m cancelled m cancelled.

(** ** Keys of intentions *)

Definition RerunKey (source : RunID) (key : string) : string := "rerun:" +:+ source +:+ ":" +:+ key.
Definition DeliveryKey (path delivery : string) : string := "hook:" +:+ path +:+ ":" +:+ delivery.
Definition EventKey (source : RunID) (event : string) (agent : AgentID) : string :=
  "event:" +:+ source +:+ ":" +:+ event +:+ ":" +:+ agent.

Definition Time_Unix (t : Time) : Z := wrap64 ((t - unix_epoch) / 1000000000).
Definition KeyFor (agent : AgentID) (at_ : Time) : string := "cron:" +:+ agent +:+ ":" +:+ print_Z (Time_Unix at_).

(** [isRefusal]: the opener declined because somebody asked for that. *)
Definition isRefusal (e : OpenError) : bool :=
  match e with
  | ErrPaused _ | ErrStopped _ | ErrDraft _ | ErrUnknownAgent _ | ErrBoundary _ => true
  | _ => false
  end.
