(* ===== verification/Dispatch.v ===== *)
(** * Events and schedules

    src/internal/trigger/events.go, events_source.go, events_artifacts.go and
    cron.go, over the feed of src/internal/ledger/event_feed_memory.go,
    starts_finishes.go and list_memory.go: finished runs open the runs that
    listen to what they publish, and schedules open runs when they come due. *)

From Stdlib Require Import ZArith Lia Ascii String.
From stdpp Require Import base list strings gmap.
From S2P Require Import Prelude GoStrings Json Domain Sha256 Step Payload Encode WorkItem State Project Ledger Ports Calendar Agent Open.

Local Open Scope string_scope.

(** ** A run in one row (domain/run.go, ledger/list_memory.go) *)

Record PendingApprovalSummary := MkPendingApprovalSummary {
  PA_Tool : ToolID; PA_Rule : string; PA_Reason : string; PA_AtSeq : Z
}.

Record RunSummary := MkRunSummary {
  Ru_RunID : RunID;
  Ru_Scope : Scope;
  Ru_AgentID : AgentID;
  Ru_VersionID : VersionID;
  Ru_OnBehalfOf : UserID;
  Ru_Phase : string;
  Ru_Seq : Z;
  Ru_Cost : Cost;
  Ru_ReservedMicros : Z;
  Ru_ToolCalls : Z;
  Ru_Labels : Labels;
  Ru_StartedAt : Time;
  Ru_EndedAt : Time;
  Ru_UpdatedAt : Time;
  Ru_PendingApproval : option PendingApprovalSummary;
  Ru_Failure : option FailureSummary
}.

#[export] Instance RunSummary_eta : Eta RunSummary := fun r =>
  MkRunSummary (Ru_RunID r) (Ru_Scope r) (Ru_AgentID r) (Ru_VersionID r) (Ru_OnBehalfOf r) (Ru_Phase r)
    (Ru_Seq r) (Ru_Cost r) (Ru_ReservedMicros r) (Ru_ToolCalls r) (Ru_Labels r) (Ru_StartedAt r)
    (Ru_EndedAt r) (Ru_UpdatedAt r) (Ru_PendingApproval r) (Ru_Failure r).

Definition summarise_step (s : RunSummary) (step : Step) : RunSummary :=
  let s := s <| Ru_Seq := S_Seq step |> <| Ru_UpdatedAt := S_At step |>
             <| Ru_Cost := Cost_Add (Ru_Cost s) (S_Cost step) |>
             <| Ru_ReservedMicros := add64 (Ru_ReservedMicros s) (reservationDelta step) |>
             <| Ru_ToolCalls := add64 (Ru_ToolCalls s) (toolCallDelta step) |>
             <| Ru_Labels := Labels_Union (Ru_Labels s) (S_Labels step) |> in
  let s := if String.eqb (S_Kind step) StepApprovalRequested then
             let p := decode_best_effort zeroApprovalRequestedPayload d_ApprovalRequestedPayload (S_Payload step) in
             s <| Ru_PendingApproval := Some (MkPendingApprovalSummary (AR_Tool p) (AR_Rule p) (AR_Reason p) (S_Seq step)) |>
           else if negb (String.eqb (S_Kind step) StepRunStarted) && negb (String.eqb (S_Kind step) StepEffectReconciled)
           then s <| Ru_PendingApproval := None |> else s in
  let s := if String.eqb (S_Kind step) StepRunFinished then s <| Ru_EndedAt := S_At step |> else s in
  if String.eqb (S_Kind step) StepParked
  then s <| Ru_Failure := PK_Failure (decode_best_effort zeroParkedPayload d_ParkedPayload (S_Payload step)) |> else s.

(** Of a run with at least one step. *)
Definition summarise (first : Step) (steps : list Step) : RunSummary :=
  let who := identityOf steps in
  fold_left summarise_step steps
    (MkRunSummary (S_RunID first) (ri_Scope who) (ri_AgentID who) (ri_VersionID who) (ri_OnBehalfOf who)
       (phaseOf steps) 0 zeroCost 0 0 [] (S_At first) 0 0 None None).

(** ** The feed of finished runs (domain/event_feed.go, ledger/event_feed_memory.go) *)

Record FinishCursor := MkFinishCursor { Fc_Xid : Z; Fc_Run : RunID }.

Definition FinishCursor_Before (c o : FinishCursor) : bool :=
  if negb (Z.eqb (Fc_Xid c) (Fc_Xid o)) then (Fc_Xid c <? Fc_Xid o)%Z else String.ltb (Fc_Run c) (Fc_Run o).

Record FinishedRun := MkFinishedRun { Fr_Run : RunSummary; Fr_At : FinishCursor }.

Record EventListener := MkEventListener { El_Agent : AgentID; El_Version : VersionID }.

Definition limitOrDefault (limit : Z) : nat :=
  Z.to_nat (if (limit <=? 0)%Z || (500 <? limit)%Z then 50 else limit).

(** The row of one finished run past the cursor, when it is a real one. *)
Definition finished_row (m : Memory) (after : FinishCursor) (entry : RunID * Z) : option FinishedRun :=
  let '(id, order) := entry in
  let at_ := MkFinishCursor order id in
  match steps_of m id with
  | (first :: _) as steps =>
      if negb (FinishCursor_Before after at_) || isSimulated steps then None
      else
        let summary := summarise first steps in
        if String.eqb (Ru_Phase summary) "finished" then Some (MkFinishedRun summary at_) else None
  | [] => None
  end.

Definition FinishedSince (m : Memory) (after : FinishCursor) (limit : Z) : list FinishedRun :=
  take (limitOrDefault limit)
    (sort_by (fun a b => FinishCursor_Before (Fr_At a) (Fr_At b))
       (omap (finished_row m after) (map_to_list (m_finishOrder m)))).

Definition AdvanceEventCursor (cursor to : FinishCursor) : FinishCursor :=
  if FinishCursor_Before cursor to then to else cursor.

Definition startOrFinish (kind : StepKind) : bool :=
  String.eqb kind StepRunStarted || String.eqb kind StepWorkItemClaimed || String.eqb kind StepRunFinished.

(** The opening, claiming and closing steps of one run of a batch; the moment it
    opened is part of its address. *)
Definition StartsAndFinishes (m : Memory) (r : RunSummary) : list Step :=
  match steps_of m (Ru_RunID r) with
  | (first :: _) as steps =>
      if Z.eqb (S_At first) (Ru_StartedAt r) then List.filter (fun s => startOrFinish (S_Kind s)) steps else []
  | [] => []
  end.

(** ** What a finished run publishes (events_source.go) *)

Inductive SweepError :=
| ErrListeners
| ErrEmits (agent : AgentID) (version : VersionID)
| ErrStart (run : RunID)
| ErrFinished (run : RunID)
| ErrPublish (event : string) (agent : AgentID) (e : OpenError).

Record Subscriptions := MkSubscriptions {
  su_emits : AgentID -> VersionID -> result PortError (list AgentEvent);
  su_listeners : result PortError (string -> list EventListener)
}.

Definition listened (events : list AgentEvent) (listeners : string -> list EventListener) : list AgentEvent :=
  List.filter (fun e => negb (bool_decide (listeners (Ev_Event e) = []))) events.

(** Each pinned version is asked once per page. *)
Fixpoint candidates (subs : Subscriptions) (listeners : string -> list EventListener)
    (seen : gmap (string * string) (list AgentEvent)) (page : list FinishedRun)
    : result SweepError (list (RunSummary * list AgentEvent)) :=
  match page with
  | [] => Ok []
  | finished :: page =>
      let run := Fr_Run finished in
      let key := (Ru_AgentID run, Ru_VersionID run) in
      declared ← (match seen !! key with
                  | Some events => Ok events
                  | None =>
                      match su_emits subs (Ru_AgentID run) (Ru_VersionID run) with
                      | Ok events => Ok events
                      | Err _ => Err (ErrEmits (Ru_AgentID run) (Ru_VersionID run))
                      end
                  end);
      rest ← candidates subs listeners (<[key := declared]> seen) page;
      match listened declared listeners with
      | [] => Ok rest
      | events => Ok ((run, events) :: rest)
      end
  end.

Record source := MkSource {
  sr_run : RunSummary;
  sr_steps : list Step;
  sr_next : EventChain;
  sr_workItem : option RunWorkItem
}.

(** The run's place in a chain, from its sealed start. *)
Definition positionOf (run : RunID) (steps : list Step) : result SweepError ChainPosition :=
  match List.find (fun s => String.eqb (S_Kind s) StepRunStarted) steps with
  | None => Err (ErrStart run)
  | Some step =>
      match unmarshal_payload step zeroRunStartedPayload d_RunStartedPayload with
      | Some p => Ok (MkChainPosition (RS_Trigger p) (RS_Chain p))
      | None => Err (ErrStart run)
      end
  end.

(** The canonical reference a claim step holds, or none. *)
Definition claim_ref (step : Step) : WorkItemRef :=
  match unmarshal_payload step zeroWorkItemClaimedPayload d_WorkItemClaimedPayload with
  | Some p => if is_canonical (WC_Ref p) then WC_Ref p else ""
  | None => ""
  end.

Definition inheritance_step (acc : bool * WorkItemRef * option RunWorkItem) (step : Step)
    : bool * WorkItemRef * option RunWorkItem :=
  let '(started, claimed, inherited) := acc in
  if String.eqb (S_Kind step) StepRunStarted && negb started then
    (true, claimed,
     match unmarshal_payload step zeroRunStartedPayload d_RunStartedPayload with
     | Some p => RS_WorkItem p
     | None => inherited
     end)
  else if String.eqb (S_Kind step) StepWorkItemClaimed && String.eqb claimed ""
  then (started, claim_ref step, inherited)
  else acc.

Definition inheritanceOf (run : RunID) (steps : list Step) : option RunWorkItem :=
  let '(_, claimed, inherited) := fold_left inheritance_step steps (false, "", None) in
  InheritWorkItem run claimed inherited.

(** [None] where its events go no further. *)
Definition sourceOf (run : RunSummary) (steps : list Step) : result SweepError (option source) :=
  position ← positionOf (Ru_RunID run) steps;
  match ChainPosition_Next position (Ru_RunID run) with
  | inl _ => Ok None
  | inr next => Ok (Some (MkSource run steps next (inheritanceOf (Ru_RunID run) steps)))
  end.

(** ** The claim-checks an event grants (events_artifacts.go) *)

Definition ArtifactFinalAnswer_ : string := "final_answer".

Definition finalAnswerArtifact (source : RunSummary) (p : RunFinishedPayload) : option ContextArtifact :=
  if String.eqb (RF_OutcomeRef p) "" || String.eqb (RF_OutcomeDigest p) "" then None
  else Some (MkContextArtifact ArtifactFinalAnswer_ "text" (RF_OutcomeRef p) (RF_OutcomeDigest p)
               (Ru_RunID source) (Ru_AgentID source) (Ru_Labels source)).

Definition normalizeArtifact (source : RunSummary) (a : ContextArtifact) : option ContextArtifact :=
  if String.eqb (CA_Name a) "" || String.eqb (CA_Ref a) "" || String.eqb (CA_Digest a) "" then None
  else Some (MkContextArtifact (CA_Name a) (CA_Kind a) (CA_Ref a) (CA_Digest a)
               (if String.eqb (CA_SourceRun a) "" then Ru_RunID source else CA_SourceRun a)
               (if String.eqb (CA_SourceAgent a) "" then Ru_AgentID source else CA_SourceAgent a)
               (if bool_decide (CA_Labels a = []) then Ru_Labels source else CA_Labels a)).

Definition note_artifact (out : gmap string ContextArtifact) (a : option ContextArtifact) : gmap string ContextArtifact :=
  match a with Some a => <[CA_Name a := a]> out | None => out end.

Fixpoint publishedArtifacts (source : RunSummary) (steps : list Step) (out : gmap string ContextArtifact)
    : result SweepError (gmap string ContextArtifact) :=
  match steps with
  | [] => Ok out
  | step :: steps =>
      if negb (String.eqb (S_Kind step) StepRunFinished) then publishedArtifacts source steps out
      else match unmarshal_payload step zeroRunFinishedPayload d_RunFinishedPayload with
           | None => Err (ErrFinished (Ru_RunID source))
           | Some p =>
               let out := note_artifact out (finalAnswerArtifact source p) in
               publishedArtifacts source steps
                 (fold_left (fun out a => note_artifact out (normalizeArtifact source a)) (RF_Artifacts p) out)
           end
  end.

Definition contextArtifacts (source : RunSummary) (steps : list Step) (event : AgentEvent)
    : result SweepError (list ContextArtifact) :=
  match Ev_Artifacts event with
  | [] => Ok []
  | names =>
      published ← publishedArtifacts source steps ∅;
      Ok (omap (fun name => published !! name) names)
  end.

(** ** The dispatcher (events.go) *)

Definition inputFor (source : RunSummary) (event : AgentEvent) (artifacts : list ContextArtifact) : string :=
  print_json (obj [
    fld "event" c_string (Ev_Event event);
    fld "from_run" c_string (Ru_RunID source);
    fld "from_agent" c_string (Ru_AgentID source);
    fopt "context" c_string (Ev_Context event);
    fopt "artifacts" (c_list c_string) (Ev_Artifacts event);
    fopt "context_artifacts" (c_list c_ContextArtifact) artifacts]).

Definition event_request (src : source) (event : AgentEvent) (listener : EventListener)
    (artifacts : list ContextArtifact) : Request_ :=
  let run := sr_run src in
  MkRequest_ (El_Agent listener) (EventKey (Ru_RunID run) (Ev_Event event) (El_Agent listener)) TriggerEvent
    (Ru_OnBehalfOf run) (inputFor run event artifacts) (Ru_Labels run) None None artifacts "" "" 0
    (El_Version listener) "" (Some (sr_next src)) (sr_workItem src).

Definition openListener (o : Opener) (src : source) (event : AgentEvent) (listener : EventListener)
    (artifacts : list ContextArtifact) (m : Memory) : Memory * result SweepError bool :=
  if String.eqb (El_Agent listener) (Ru_AgentID (sr_run src)) then (m, Ok false)
  else match Opener_Open o (event_request src event listener artifacts) m false with
       | (m', Ok r) => (m', Ok (Or_Created r))
       | (m', Err e) => if isRefusal e then (m', Ok false) else (m', Err (ErrPublish (Ev_Event event) (El_Agent listener) e))
       end.

(** [f] on each item in turn, the ledger and a count passed along; the first
    error ends it with what was settle_count so far. *)
Fixpoint each {A} (f : A -> Memory -> Memory * result SweepError nat) (l : list A) (m : Memory) (n : nat)
    : Memory * nat * option SweepError :=
  match l with
  | [] => (m, n, None)
  | a :: l =>
      match f a m with
      | (m', Ok k) => each f l m' (n + k)
      | (m', Err e) => (m', n, Some e)
      end
  end.

Definition settle_count (r : Memory * nat * option SweepError) : Memory * result SweepError nat :=
  let '(m, n, e) := r in (m, match e with None => Ok n | Some e => Err e end).

Definition publish (o : Opener) (src : source) (listeners : list EventListener) (event : AgentEvent) (m : Memory)
    : Memory * result SweepError nat :=
  match contextArtifacts (sr_run src) (sr_steps src) event with
  | Err e => (m, Err e)
  | Ok artifacts =>
      settle_count (each (fun listener m =>
        let '(m, r) := openListener o src event listener artifacts m in
        (m, match r with Ok true => Ok 1%nat | Ok false => Ok 0%nat | Err e => Err e end)) listeners m 0)
  end.

Definition dispatch_candidate (o : Opener) (listeners : string -> list EventListener) (steps_of_run : RunSummary -> list Step)
    (c : RunSummary * list AgentEvent) (m : Memory) : Memory * result SweepError nat :=
  let '(run, events) := c in
  match sourceOf run (steps_of_run run) with
  | Err e => (m, Err e)
  | Ok None => (m, Ok 0%nat)
  | Ok (Some src) =>
      settle_count (each (fun event m => publish o src (listeners (Ev_Event event)) event m) events m 0)
  end.

Definition dispatchPage (o : Opener) (subs : Subscriptions) (listeners : string -> list EventListener)
    (page : list FinishedRun) (m : Memory) : Memory * nat * option SweepError :=
  match candidates subs listeners ∅ page with
  | Err e => (m, 0%nat, Some e)
  | Ok pending =>
      let read := m in
      each (dispatch_candidate o listeners (StartsAndFinishes read)) pending m 0
  end.

(** Page after page until one is short: [fuel] pages at most. *)
Fixpoint sweep_pages (fuel : nat) (o : Opener) (subs : Subscriptions) (listeners : string -> list EventListener)
    (limit : Z) (m : Memory) (cursor : FinishCursor) (opened : nat)
    : option (Memory * FinishCursor * nat * option SweepError) :=
  match fuel with
  | O => None
  | S fuel =>
      match FinishedSince m cursor limit with
      | [] => Some (m, cursor, opened, None)
      | page =>
          match dispatchPage o subs listeners page m with
          | (m', n, Some e) => Some (m', cursor, (opened + n)%nat, Some e)
          | (m', n, None) =>
              let cursor' :=
                match last page with Some f => AdvanceEventCursor cursor (Fr_At f) | None => cursor end in
              if (Z.of_nat (List.length page) <? limit)%Z then Some (m', cursor', (opened + n)%nat, None)
              else sweep_pages fuel o subs listeners limit m' cursor' (opened + n)
          end
      end
  end.

(** One sweep: every page holds a finished run and moves the cursor past it. *)
Definition Sweep (o : Opener) (subs : Subscriptions) (limit : Z) (m : Memory) (cursor : FinishCursor)
    : option (Memory * FinishCursor * nat * option SweepError) :=
  match su_listeners subs with
  | Err _ => Some (m, cursor, 0%nat, Some ErrListeners)
  | Ok listeners => sweep_pages (S (size (m_finishOrder m))) o subs listeners limit m cursor 0
  end.

(** ** Schedules (cron.go)

    The cron expressions are parsed by github.com/robfig/cron: [cron] is its
    parser, and gives the [Next] of the schedule it read. *)

Record Due := MkDue { Du_Agent : AgentID; Du_Schedule : string; Du_At : Time }.

Definition Grace : Duration := (2 * 60 * 1000000000)%Z.

Definition momentInput (d : Due) : string :=
  print_json (JObj [("trigger", JStr "cron"); ("moment", JStr (rfc3339_nano (Du_At d)));
                    ("schedule", JStr (Du_Schedule d))]).

(** The rows of trigger_schedules: the next moment of each agent's schedule. *)
Definition Schedules : Type := gmap (string * string) Time.

Definition schedules_due (rows : Schedules) (now : Time) : list Due :=
  sort_by (fun a b => (Du_At a <? Du_At b)%Z)
    (omap (fun '((agent, schedule), at_) => if (at_ <=? now)%Z then Some (MkDue agent schedule at_) else None)
       (map_to_list rows)).

Definition schedules_advance (rows : Schedules) (agent : AgentID) (schedule : string) (next : Time) : Schedules :=
  alter (fun _ => next) (agent, schedule) rows.

Section Scheduler.
Context (cron : string -> option (Time -> Time)).

Definition NextAfter (schedule : string) (t : Time) : option Time := next ← cron schedule; Some (next t).

Definition ValidSchedule (schedule : string) : bool :=
  match cron schedule with Some _ => true | None => false end.

(** Reconciles an agent's rows with what its newest version declares: one that is
    still declared keeps its moment, and nothing is written when one of the
    schedules does not parse. *)
Fixpoint sync_declared (agent : AgentID) (from : Time) (schedules : list string) (rows : Schedules) : option Schedules :=
  match schedules with
  | [] => Some rows
  | schedule :: schedules =>
      next ← NextAfter schedule from;
      sync_declared agent from schedules
        (match rows !! (agent, schedule) with Some _ => rows | None => <[(agent, schedule) := next]> rows end)
  end.

Definition schedules_sync (rows : Schedules) (agent : AgentID) (schedules : list string) (from : Time) : option Schedules :=
  rows ← sync_declared agent from schedules rows;
  Some (filter (fun '((a, schedule), _) => a <> agent \/ schedule ∈ schedules) rows).

Definition cron_request (d : Due) : Request_ :=
  MkRequest_ (Du_Agent d) (KeyFor (Du_Agent d) (Du_At d)) "cron" "" (momentInput d) [] None None [] "" "" 0 ""
    "" None None.

(** One due moment; [stuck] are the rows whose advance fails. *)
Definition tick_one (o : Opener) (stuck : Due -> bool) (now : Time) (acc : Memory * Schedules * nat) (d : Due)
    : Memory * Schedules * nat :=
  let '(m, rows, opened) := acc in
  match NextAfter (Du_Schedule d) now with
  | None => acc
  | Some next =>
      if stuck d then acc
      else
        let rows := schedules_advance rows (Du_Agent d) (Du_Schedule d) next in
        if (Grace <? Time_Sub now (Du_At d))%Z then (m, rows, opened)
        else match Opener_Open o (cron_request d) m false with
             | (m', Ok r) => (m', rows, if Or_Created r then S opened else opened)
             | (m', Err _) => (m', rows, opened)
             end
  end.

Definition Tick (o : Opener) (stuck : Due -> bool) (now : Time) (m : Memory) (rows : Schedules)
    : Memory * Schedules * nat :=
  fold_left (tick_one o stuck now) (schedules_due rows now) (m, rows, 0%nat).
End Scheduler.
