(* ===== verification/OpenSafety.v ===== *)
(** * What opening a run promises

    Theorems about src/internal/trigger/open.go: one run per intention whatever
    races, and no run that a pause, a stop, a stage or the data barrier forbids. *)

From Stdlib Require Import ZArith Lia Ascii String.
From stdpp Require Import base list strings gmap.
From S2P Require Import Prelude GoStrings Json JsonFacts Domain Sha256 Step Payload Encode WorkItem State StateFacts Project Ledger LedgerSafety Ports Agent Open.

Local Open Scope string_scope.

(** ** Which run a key names *)

Lemma all_steps_at m st : st ∈ all_steps m <-> exists run i, step_at m run i st.
Proof.
  unfold all_steps. rewrite list_elem_of_In, in_concat. split.
  - intros (steps & Hs & Hst). apply list_elem_of_In, list_elem_of_fmap in Hs as ([run l] & -> & Hl%elem_of_map_to_list).
    apply list_elem_of_In, list_elem_of_lookup in Hst as [i Hi]. exists run, i, l. done.
  - intros (run & i & steps & Hr & Hi). exists steps. split; [|by eapply list_elem_of_In, list_elem_of_lookup_2].
    apply list_elem_of_In, list_elem_of_fmap. exists (run, steps). split; [done|]. by apply elem_of_map_to_list.
Qed.

(** [key] is on the record, in the run [run]. *)
Definition recorded (m : Memory) (key : string) (run : RunID) : Prop :=
  exists i st, step_at m run i st /\ S_IdemKey st = key.

Lemma step_at_run m run i st : reachable m -> step_at m run i st -> S_RunID st = run.
Proof.
  intros H%reachable_chains (steps & Hr & Hi). apply H in Hr as (_ & _ & Hf).
  rewrite list.Forall_forall in Hf. by eapply Hf, list_elem_of_lookup_2.
Qed.

Lemma recorded_unique m key r1 r2 : reachable m -> key <> "" -> recorded m key r1 -> recorded m key r2 -> r1 = r2.
Proof.
  intros H Hk (i1 & s1 & A1 & E1) (i2 & s2 & A2 & E2).
  by destruct (proj2 (reachable_keys m H) _ _ _ _ _ _ A1 A2 ltac:(congruence) ltac:(congruence)).
Qed.

Lemma RunByIdemKey_Ok m key run : reachable m -> RunByIdemKey m false key = Ok run <-> key <> "" /\ recorded m key run.
Proof.
  intros H. unfold RunByIdemKey. destruct (String.eqb_spec key "") as [->|Hk]; [split; [done|naive_solver]|].
  destruct (List.find _ (all_steps m)) as [st|] eqn:E.
  - apply List.find_some in E as [Hin Ek%String.eqb_eq].
    apply list_elem_of_In, all_steps_at in Hin as (r & i & Hat).
    rewrite (step_at_run _ _ _ _ H Hat). split.
    + intros [= <-]. split; [done|]. by exists i, st.
    + intros [_ Hr]. f_equal. eapply recorded_unique; [done|done| |done]. by exists i, st.
  - split; [done|]. intros [_ (i & st & Hat & Ek)].
    assert (Hin : st ∈ all_steps m) by (apply all_steps_at; eauto).
    apply list_elem_of_In in Hin. apply (List.find_none _ _ E) in Hin. by rewrite Ek, String.eqb_refl in Hin.
Qed.

Lemma RunByIdemKey_absent m cancelled key : reachable m -> key <> "" ->
  (exists e, RunByIdemKey m cancelled key = Err e) \/ exists run, RunByIdemKey m cancelled key = Ok run /\ recorded m key run.
Proof.
  intros H Hk. destruct cancelled; [left; by eexists|].
  destruct (RunByIdemKey m false key) as [run|e] eqn:E; [right|left; eauto].
  exists run. split; [done|]. by apply RunByIdemKey_Ok in E as [_ ?].
Qed.

Lemma reachable_steps m os m' : reachable m -> mem_steps m os m' -> reachable m'.
Proof. intros H S. induction S as [|m now o m1 os m' H1 _ IH]; [done|]. apply IH. by eapply reach_step. Qed.

Lemma recorded_kept m os m' key run : mem_steps m os m' -> recorded m key run -> recorded m' key run.
Proof.
  intros S (i & st & (steps & Hr & Hi) & E). destruct (mem_steps_prefix m os m' run steps S Hr) as [more Hm].
  exists i, st. split; [|done]. exists (steps ++ more)%list. split; [done|]. by apply lookup_app_l_Some.
Qed.

(** ** What an opening does to the ledger *)

(** Nothing, or one append of a first step. *)
Definition opening_of (m m' : Memory) (s : Step) : Prop :=
  exists sealed, append m false 0 None None s = Ok (m', sealed).

Lemma prepared_new o req m cancelled s scope :
  open_prepare o req m cancelled = Ok (inr (s, scope)) ->
  Rq_IdemKey req <> "" /\ from_option TicketContext_Valid true (Rq_Ticket req) = true /\
  exists workItem published inputRef,
    workItemOf req = Ok workItem /\ admit_request o req = Ok published /\ scope = As_Scope published /\
    store_input o (newRunID (As_ID published) (fst (op_clock o (Rq_IdemKey req))) (Rq_IdemKey req)) (Rq_Input req) = Ok inputRef /\
    s = opening_step req published (newRunID (As_ID published) (fst (op_clock o (Rq_IdemKey req))) (Rq_IdemKey req))
          (snd (op_clock o (Rq_IdemKey req))) inputRef workItem.
Proof.
  unfold open_prepare. destruct (String.eqb_spec (Rq_IdemKey req) "") as [|Hk]; [done|].
  destruct (from_option _ _ _); cbn [negb]; [|done]. intros (w & Hw & H)%result_bind_Ok.
  destruct (RunByIdemKey m cancelled (Rq_IdemKey req)); [done|]. apply result_bind_Ok in H as (p & Hp & H).
  destruct (op_clock o (Rq_IdemKey req)) as [named stamped]. apply result_bind_Ok in H as (ref & Hr & H).
  injection H as <- <-. split; [done|]. split; [done|]. by exists w, p, ref.
Qed.

Lemma opening_key req p run at_ ref w : S_IdemKey (opening_step req p run at_ ref w) = Rq_IdemKey req.
Proof. done. Qed.

Lemma opened_recorded m m' s : reachable m -> opening_of m m' s -> recorded m' (S_IdemKey s) (S_RunID s).
Proof.
  intros H [sealed E]. apply append_Ok in E as (_ & _ & _ & _ & _ & Hs & ->). apply sealed_keeps in Hs as (R & K & _).
  exists (List.length (steps_of m (S_RunID sealed))), sealed. split; [|done].
  exists (steps_of m (S_RunID sealed) ++ [sealed])%list. rewrite store_runs, R. split; [by rewrite lookup_insert_eq|].
  rewrite <- R. by apply list_lookup_middle.
Qed.

Lemma opening_step_of m m' s : opening_of m m' s -> mem_steps m [OpAppend None None s] m'.
Proof. intros [sealed E]. eapply steps_cons; [by eapply step_append|constructor]. Qed.

Lemma committed m cancelled s scope m' r :
  open_commit m cancelled s scope = (m', r) ->
  (cancelled = false /\ opening_of m m' s /\ r = Ok (MkOpenResult (S_RunID s) scope true)) \/
  (m' = m /\ ((exists run, RunByIdemKey m cancelled (S_IdemKey s) = Ok run /\ r = Ok (MkOpenResult run scope false)) \/
              exists e, Append m cancelled 0 s = Err e /\ r = Err (ErrOpenRun e))).
Proof.
  unfold open_commit. destruct (Append m cancelled 0 s) as [[m1 sealed]|e] eqn:E.
  - intros [= <- <-]. left. assert (cancelled = false) as ->.
    { unfold Append in E. by apply append_Ok in E as (? & _). }
    split; [done|]. split; [by exists sealed|done].
  - destruct (RunByIdemKey m cancelled (S_IdemKey s)) as [run|]; intros [= <- <-]; right; split; eauto.
Qed.

(** Whatever a successful opening answers, the key is on the record of that run. *)
Lemma Open_across_Ok o req seen unread m cancelled m' r os :
  reachable seen -> mem_steps seen os m -> Open_across o req seen unread m cancelled = (m', Ok r) ->
  Rq_IdemKey req <> "" /\ recorded m' (Rq_IdemKey req) (Or_RunID r) /\
  (m' = m \/ exists s, S_IdemKey s = Rq_IdemKey req /\ opening_of m m' s) /\
  (Or_Created r = true -> exists s scope,
     open_prepare o req seen unread = Ok (inr (s, scope)) /\ opening_of m m' s /\
     r = MkOpenResult (S_RunID s) scope true).
Proof.
  intros Hs Hm. pose proof (reachable_steps _ _ _ Hs Hm) as Hr. unfold Open_across.
  destruct (open_prepare o req seen unread) as [[r0|[s scope]]|e] eqn:E; [| |done].
  - intros [= <- <-]. unfold open_prepare in E. destruct (String.eqb_spec (Rq_IdemKey req) "") as [|Hk]; [done|].
    destruct (negb _); [done|]. apply result_bind_Ok in E as (w & _ & E).
    destruct (RunByIdemKey_absent seen unread (Rq_IdemKey req) Hs Hk) as [[e Ee]|(run & Ee & Hrec)]; rewrite Ee in E.
    { apply result_bind_Ok in E as (p & _ & E). destruct (op_clock _ _). by apply result_bind_Ok in E as (? & _ & E). }
    injection E as <-. split; [done|]. split; [by eapply recorded_kept|]. split; [by left|done].
  - intros H. pose proof (prepared_new _ _ _ _ _ _ E) as (Hk & _ & w & p & ref & _ & _ & _ & _ & Es).
    assert (Ek : S_IdemKey s = Rq_IdemKey req) by (rewrite Es; apply opening_key).
    split; [done|]. apply committed in H as [(_ & Ho & [= ->])|[-> [(run & Hq & [= ->])|(e & _ & [=])]]].
    + split; [rewrite <- Ek; by apply opened_recorded with m|]. split; [right; eauto|]. intros _. eauto.
    + split; [|split; [by left|done]]. cbn [Or_RunID]. rewrite <- Ek.
      destruct cancelled; [done|]. by apply RunByIdemKey_Ok in Hq as [_ ?].
Qed.

(** A key that is on record opens nothing more. *)
Lemma no_second_opening m m' key run s :
  reachable m -> key <> "" -> recorded m key run -> S_IdemKey s = key -> ~ opening_of m m' s.
Proof.
  intros Rm Hne (i & st & Hat & Est) Es [sealed E]. apply append_Ok in E as (_ & _ & _ & [Hi|Hi] & _); [congruence|].
  apply Hi. rewrite Es, <- Est. apply (proj1 (reachable_keys _ Rm) _ _ _ Hat). congruence.
Qed.

(** C18. One intention opens one run. Whoever asks, from whatever moment of the
    ledger each attempt read its key, through races, retries and lookups that
    failed: once an attempt under a key has answered with a run, every later
    attempt under that key that succeeds answers with the same run, opens
    nothing and leaves the ledger as it is. *)
Theorem an_intention_opens_one_run o1 req1 seen1 u1 m1 c1 m1' r1 o2 req2 seen2 u2 m2 c2 m2' r2 os1 os2 os3 :
  reachable seen1 -> mem_steps seen1 os1 m1 -> Open_across o1 req1 seen1 u1 m1 c1 = (m1', Ok r1) ->
  reachable seen2 -> mem_steps seen2 os2 m2 -> mem_steps m1' os3 m2 ->
  Open_across o2 req2 seen2 u2 m2 c2 = (m2', Ok r2) -> Rq_IdemKey req1 = Rq_IdemKey req2 ->
  Or_RunID r2 = Or_RunID r1 /\ Or_Created r2 = false /\ m2' = m2.
Proof.
  intros S1 M1 O1 S2 M2 Hlater O2 Hk.
  destruct (Open_across_Ok _ _ _ _ _ _ _ _ _ S1 M1 O1) as (Hne & R1 & _).
  destruct (Open_across_Ok _ _ _ _ _ _ _ _ _ S2 M2 O2) as (_ & R2 & Hm & Hc).
  pose proof (reachable_steps _ _ _ S2 M2) as Rm2.
  pose proof (recorded_kept _ _ _ _ _ Hlater R1) as R1'. rewrite Hk in R1', Hne.
  assert (Hsame : forall s, S_IdemKey s = Rq_IdemKey req2 -> ~ opening_of m2 m2' s) by (intros s; by eapply no_second_opening).
  destruct Hm as [->|(s & Es & Ho)]; [|by destruct (Hsame s)].
  split; [by eapply recorded_unique|]. split; [|done].
  destruct (Or_Created r2); [|done]. destruct (Hc eq_refl) as (s & scope & E & Ho & _).
  apply prepared_new in E as (_ & _ & w & p & ref & _ & _ & _ & _ & ->). exfalso. by eapply Hsame, Ho.
Qed.

(** ** What is never opened *)

(** The scope the opener judges stops by: of the version published now. *)
Definition current_scope (o : Opener) (agent : AgentID) : Scope :=
  match op_registry o agent with Ok (v :: _) => As_Scope v | _ => zeroScope end.

Lemma checkPaused_Ok o agent : checkPaused o agent = Ok tt ->
  forall paused, op_pauses o = Some paused -> paused agent = Ok false.
Proof. unfold checkPaused. intros H paused E. rewrite E in H. by destruct (paused agent) as [[]|]. Qed.

Lemma covers_zero s scope agent : String.eqb (Stop_Level s) StopScope = false ->
  Stop_Covers s scope agent = Stop_Covers s zeroScope agent.
Proof. unfold Stop_Covers. by intros ->. Qed.

Lemma checkStopped_Ok o agent : checkStopped o agent = Ok tt ->
  forall inForce, op_stops o = Some inForce -> exists stops, inForce = Ok stops /\
    forall s, s ∈ stops -> Stop_Covers s (current_scope o agent) agent = false.
Proof.
  unfold checkStopped. intros H inForce E. rewrite E in H. apply result_bind_Ok in H as (found & Hf & H).
  destruct found as [s|]; [done|]. unfold stopping in Hf. destruct inForce as [stops|]; [|done].
  exists stops. split; [done|]. intros s Hs.
  assert (Hf' : exists scope, (if needsScope stops then match op_registry o agent with
            | Err _ => Err (ErrVersions agent) | Ok [] => Ok zeroScope | Ok (v :: _) => Ok (As_Scope v) end
            else Ok zeroScope) = Ok scope /\ List.find (fun s => Stop_Covers s scope agent) stops = None).
  { destruct stops as [|s0 stops]; [by apply not_elem_of_nil in Hs|].
    apply result_bind_Ok in Hf as (scope & Hsc & Hf). exists scope. split; [done|]. by injection Hf. }
  clear Hf. destruct Hf' as (scope & Hsc & Hf).
  pose proof (List.find_none _ _ Hf s (proj1 (list_elem_of_In _ _) Hs)) as Hn. cbv beta in Hn.
  unfold current_scope. destruct (needsScope stops) eqn:En.
  - destruct (op_registry o agent) as [[|v vs]|]; [by injection Hsc as <-|by injection Hsc as <-|done].
  - injection Hsc as <-. rewrite covers_zero; [done|]. unfold needsScope in En.
    destruct (String.eqb (Stop_Level s) StopScope) eqn:El; [|done].
    enough (existsb (fun s => String.eqb (Stop_Level s) StopScope) stops = true) by congruence.
    apply existsb_exists. exists s. split; [by apply list_elem_of_In|done].
Qed.

Lemma checkStage_Ok o req : checkStage o req = Ok tt -> Rq_Simulation req = "" ->
  forall stageOf, op_stages o = Some stageOf -> exists stage, stageOf (Rq_Agent req) = Ok stage /\ stage <> StageDraft.
Proof.
  unfold checkStage. intros H Hs stageOf E. rewrite E, Hs in H. cbn [String.eqb negb] in H.
  destruct (stageOf (Rq_Agent req)) as [stage|]; [|done].
  destruct (String.eqb_spec stage StageDraft); [done|]. eauto.
Qed.

Lemma Pin_Ok agent versions asked p : Pin agent versions asked = Ok p ->
  p ∈ versions /\ (asked = "" -> head versions = Some p) /\ (asked <> "" -> As_VersionID p = asked).
Proof.
  unfold Pin. destruct versions as [|v vs]; [done|]. destruct (String.eqb_spec asked "") as [->|Ha].
  - intros [= ->]. split; [left|done].
  - destruct (List.find _ _) as [x|] eqn:E; [|done]. intros [= ->]. apply List.find_some in E as [Hx Ex%String.eqb_eq].
    split; [by apply list_elem_of_In|done].
Qed.

Lemma checkArtifacts_Ok artifacts scope : checkArtifacts artifacts scope = Ok tt ->
  Forall (fun a => Labels_ScopeBoundaryViolation (CA_Labels a) scope = None) artifacts.
Proof.
  induction artifacts as [|a rest IH]; [constructor|]. cbn [checkArtifacts]. intros ([] & Ha & H)%result_bind_Ok.
  constructor; [|by apply IH]. unfold checkBoundary in Ha. by destruct (Labels_ScopeBoundaryViolation _ _).
Qed.

(** What was asked of everything that can forbid a run. *)
Record permitted (o : Opener) (req : Request_) (published : AgentSummary) : Prop := {
  pm_running : forall paused, op_pauses o = Some paused -> paused (Rq_Agent req) = Ok false;
  pm_unstopped : forall inForce, op_stops o = Some inForce -> exists stops, inForce = Ok stops /\
    forall s, s ∈ stops -> Stop_Covers s (current_scope o (Rq_Agent req)) (Rq_Agent req) = false;
  pm_staged : Rq_Simulation req = "" -> forall stageOf, op_stages o = Some stageOf ->
    exists stage, stageOf (Rq_Agent req) = Ok stage /\ stage <> StageDraft;
  pm_version : exists versions, op_registry o (Rq_Agent req) = Ok versions /\ published ∈ versions /\
    (Rq_Version req = "" -> head versions = Some published) /\
    (Rq_Version req <> "" -> As_VersionID published = Rq_Version req);
  pm_labels : Labels_ScopeBoundaryViolation (Rq_Labels req) (As_Scope published) = None;
  pm_artifacts : Forall (fun a => Labels_ScopeBoundaryViolation (CA_Labels a) (As_Scope published) = None)
                   (Rq_ContextArtifacts req)
}.

Lemma admitted_permitted o req published : admit_request o req = Ok published -> permitted o req published.
Proof.
  unfold admit_request. intros ([] & H1 & ([] & H2 & ([] & H3 & H)%result_bind_Ok)%result_bind_Ok)%result_bind_Ok.
  apply result_bind_Ok in H as (versions & H4 & (p & H5 & ([] & H6 & ([] & H7 & H)%result_bind_Ok)%result_bind_Ok)%result_bind_Ok).
  injection H as ->. split.
  - by apply checkPaused_Ok.
  - by apply checkStopped_Ok.
  - by apply checkStage_Ok.
  - exists versions. destruct (op_registry o (Rq_Agent req)); [|done]. injection H4 as ->.
    split; [done|]. by apply Pin_Ok in H5.
  - unfold checkBoundary in H6. by destruct (Labels_ScopeBoundaryViolation _ _).
  - by apply checkArtifacts_Ok.
Qed.

(** The step an opening added, and what was asked before it was. *)
Lemma opening_first_step o req seen unread m m' s scope :
  open_prepare o req seen unread = Ok (inr (s, scope)) -> opening_of m m' s ->
  exists published sealed, permitted o req published /\ scope = As_Scope published /\
    m_runs m' !! S_RunID s = Some (steps_of m (S_RunID s) ++ [sealed])%list /\
    S_Kind sealed = StepRunStarted /\ S_IdemKey sealed = Rq_IdemKey req /\ S_Scope sealed = As_Scope published /\
    S_AgentID sealed = As_ID published /\ S_VersionID sealed = As_VersionID published /\ S_OnBehalfOf sealed = Rq_By req /\
    (forall x, x ∈ S_Labels sealed <-> x <> "" /\ exists v,
       (v ∈ Rq_Labels req \/ v ∈ ScopeLabels (As_Scope published)) /\ x = trim_space v).
Proof.
  intros E [sealed Ha]. apply prepared_new in E as (_ & _ & w & p & ref & _ & Hp & -> & _ & ->). exists p, sealed.
  apply append_Ok in Ha as (_ & _ & _ & _ & _ & Hn & ->). apply NewStep_sealed in Hn as [-> _].
  split; [by apply admitted_permitted|]. split; [done|].
  split; [rewrite store_runs; by rewrite lookup_insert_eq|].
  split_and!; try done. intros x. cbn. rewrite list_elem_of_In, NewLabels_In.
  setoid_rewrite Union_In. by setoid_rewrite <- list_elem_of_In.
Qed.


(** ** Examples, and where the code departs from its comments *)

Module Doors.
Definition ops : Scope := MkScope "acme" "ops".
Definition sales : Scope := MkScope "acme" "sales".
Definition stop_at (area : Scope) : Stop := {| Stop_Level := StopScope; Stop_Scope := area; Stop_Agent := "";
  Stop_Reason := "incident"; Stop_By := "ana"; Stop_At := 0%Z |}.
Definition stop_ops : Stop := stop_at ops.

Definition version (agent : AgentID) (v : VersionID) (scope : Scope) : AgentSummary :=
  MkAgentSummary StageCopilot false true agent v scope agent "openai" "m" "" zeroModelPair "" "" ["crm.read"]
    (MkBudget 100 0 0 0 0) (MkMemoryLearningPolicy "" 0 0) [] StandingAllowed "ana" 0 true.

(** An agent published first in one area and then in another. *)
Definition moved : list AgentSummary := [version "triage" "v2" sales; version "triage" "v1" ops].

Definition opener (stops : list Stop) : Opener :=
  MkOpener (fun agent => if String.eqb agent "triage" then Ok moved else Ok []) None
    (Some (fun _ => Ok false)) (Some (Ok stops)) (Some (fun _ => Ok StageCopilot))
    (fun _ => (unix_epoch, unix_epoch)).

Definition ask (key : string) (version : VersionID) : Request_ :=
  MkRequest_ "triage" key "manual" "ana" "" [] None None [] "" "" 0 version "" None None.

Definition asked (stops : list Stop) (key : string) (version : VersionID) : Memory * result OpenError OpenResult :=
  Opener_Open (opener stops) (ask key version) NewMemory false.
Definition answered (r : Memory * result OpenError OpenResult) : OpenResult :=
  match snd r with Ok r => r | Err _ => MkOpenResult "" zeroScope false end.
End Doors.

(** A stop misses a pinned version. The switches in force are judged by the
    scope of the agent's current version, while the run is opened in the scope of
    the version asked for: with a stop on an area in force, a run of a version
    published there is opened in that area, and a stop on the area of the current
    version refuses that run instead. *)
Theorem a_stop_misses_a_pinned_version :
  (let r := Doors.answered (Doors.asked [Doors.stop_ops] "k1" "v1") in
   Or_Created r = true /\ Or_Scope r = Doors.ops /\
   Stop_Covers Doors.stop_ops (Or_Scope r) "triage" = true) /\
  snd (Doors.asked [Doors.stop_at Doors.sales] "k1" "v1") = Err (ErrStopped "incident").
Proof. vm_compute. auto. Qed.

(** Two deliveries of different hooks can share a key. *)
Example delivery_keys_collide : DeliveryKey "billing" "eu:42" = DeliveryKey "billing:eu" "42".
Proof. reflexivity. Qed.

(** So can two listeners of one run's events. *)
Example event_keys_collide run : EventKey run "deploy" "eu:watch" = EventKey run "deploy:eu" "watch".
Proof. reflexivity. Qed.

Lemma an_intention_opens_one_run_witness :
  let r1 := Doors.asked [] "k1" "" in
  let r2 := Opener_Open (Doors.opener [Doors.stop_ops]) (Doors.ask "k1" "v1") (fst r1) false in
  Or_RunID (Doors.answered r2) = Or_RunID (Doors.answered r1) /\ Or_Created (Doors.answered r2) = false /\ fst r2 = fst r1.
Proof.
  intros r1 r2.
  assert (H1 : Open_across (Doors.opener []) (Doors.ask "k1" "") NewMemory false NewMemory false =
               (fst r1, Ok (Doors.answered r1))) by (vm_compute; reflexivity).
  assert (Hr : reachable (fst r1)).
  { destruct (Open_across_Ok _ _ _ _ _ _ _ _ [] reach_new (steps_nil _) H1) as (_ & _ & [->|(s & _ & Ho)] & _); [constructor|].
    apply opening_step_of in Ho. eapply reachable_steps; [constructor|done]. }
  apply (an_intention_opens_one_run (Doors.opener []) (Doors.ask "k1" "") NewMemory false NewMemory false (fst r1)
           (Doors.answered r1) (Doors.opener [Doors.stop_ops]) (Doors.ask "k1" "v1") (fst r1) false (fst r1) false
           (fst r2) (Doors.answered r2) [] [] []);
    [constructor|constructor|exact H1|exact Hr|constructor|constructor|vm_compute; reflexivity|reflexivity].
Defined.

