(* ===== verification/DispatchSafety.v ===== *)
(** * What the dispatcher promises

    Theorems about src/internal/trigger/events.go: a sweep that ends well has
    served every finished run behind its cursor, and it always ends. *)

From Stdlib Require Import ZArith Lia Ascii String.
From stdpp Require Import base list strings gmap sorting.
From S2P Require Import Prelude GoStrings Json JsonFacts Domain Sha256 Step Payload Encode WorkItem State StateFacts Project Ledger LedgerSafety Ports Calendar Agent Open Dispatch OpenSafety.

Local Open Scope string_scope.

(** ** A ledger that only opens runs *)

Inductive opens : Memory -> Memory -> Prop :=
| opens_refl m : opens m m
| opens_more m m1 m2 s : S_Kind s = StepRunStarted -> opening_of m m1 s -> opens m1 m2 -> opens m m2.

Lemma opens_trans m1 m2 m3 : opens m1 m2 -> opens m2 m3 -> opens m1 m3.
Proof. induction 1 as [|m m1 m2 s K Ho _ IH]; [done|]. intros H. eapply opens_more; eauto. Qed.

Lemma opens_steps m m' : opens m m' -> exists os, mem_steps m os m'.
Proof.
  induction 1 as [m|m m1 m2 s K Ho _ [os IH]]; [exists []; constructor|].
  destruct Ho as [sealed E]. eexists. eapply steps_cons; [by eapply step_append|done].
Qed.

Lemma opens_reachable m m' : opens m m' -> reachable m -> reachable m'.
Proof. intros [os H]%opens_steps R. by eapply reachable_steps. Qed.

Lemma opens_recorded m m' key run : opens m m' -> recorded m key run -> recorded m' key run.
Proof. intros [os H]%opens_steps. by eapply recorded_kept. Qed.

Lemma store_started m sealed : S_Kind sealed = StepRunStarted -> m_finishOrder (store_step m sealed) = m_finishOrder m.
Proof. intros K. unfold store_step. rewrite K. cbn zeta. by destruct (String.eqb (S_IdemKey sealed) ""). Qed.

(** A run that changed ends in a start. *)
Definition restarted (l : list Step) : Prop := exists before st, l = (before ++ [st])%list /\ S_Kind st = StepRunStarted.

Lemma opens_kept m m' : opens m m' ->
  m_finishOrder m' = m_finishOrder m /\ forall id, steps_of m' id = steps_of m id \/ restarted (steps_of m' id).
Proof.
  induction 1 as [m|m m1 m2 s K Ho _ IH]; [auto|]. destruct IH as [IH1 IH2].
  destruct Ho as [sealed E]. apply append_Ok in E as (_ & _ & _ & _ & _ & Hn & ->).
  apply sealed_keeps in Hn as (_ & _ & Ks & _). rewrite K in Ks. split; [by rewrite IH1, store_started|].
  intros id. destruct (IH2 id) as [E|]; [|by right]. rewrite E.
  assert (Hs := steps_of_insert m (S_RunID sealed) (steps_of m (S_RunID sealed) ++ [sealed]) id).
  rewrite <- store_runs in Hs. fold (steps_of (store_step m sealed) id) in Hs. rewrite Hs.
  case_decide as Hid; [|by left]. right. by exists (steps_of m (S_RunID sealed)), sealed.
Qed.

Lemma restarted_running l : restarted l -> phaseOf l = "running".
Proof. intros (before & st & -> & K). rewrite phaseOf_snoc. unfold projectPhase. by rewrite K. Qed.

Lemma summarise_step_keeps s st : Ru_Phase (summarise_step s st) = Ru_Phase s /\ Ru_RunID (summarise_step s st) = Ru_RunID s.
Proof. unfold summarise_step. cbn zeta. by repeat case_match. Qed.

Lemma summarise_keeps first steps :
  Ru_Phase (summarise first steps) = phaseOf steps /\ Ru_RunID (summarise first steps) = S_RunID first.
Proof.
  unfold summarise. cbn zeta. generalize (phaseOf steps) as ph. intros ph.
  match goal with |- Ru_Phase (fold_left _ _ ?r) = _ /\ _ =>
    assert (E : Ru_Phase r = ph /\ Ru_RunID r = S_RunID first) by done; revert E; generalize r end.
  induction steps as [|st l IH]; intros r E; [done|]. cbn [fold_left]. apply IH.
  destruct (summarise_step_keeps r st) as [-> ->]. done.
Qed.

(** A row that is finished after the openings was the same row before them. *)
Lemma finished_row_back m m' after entry f :
  opens m m' -> finished_row m' after entry = Some f ->
  finished_row m after entry = Some f /\ steps_of m' (fst entry) = steps_of m (fst entry).
Proof.
  intros [_ Hk]%opens_kept. destruct entry as [id order]. unfold finished_row; cbn [fst].
  destruct (Hk id) as [E|Hr]; [by rewrite E|]. destruct (steps_of m' id) as [|first steps] eqn:Es; [done|].
  destruct (_ || _); [done|]. cbn zeta. destruct (summarise_keeps first (first :: steps)) as [Hp _].
  rewrite Hp, (restarted_running _ Hr). done.
Qed.

(** ** Serving one listener *)

Definition served (o : Opener) (src : source) (event : AgentEvent) (listener : EventListener) (m : Memory) : Prop :=
  El_Agent listener = Ru_AgentID (sr_run src) \/
  (exists run, recorded m (EventKey (Ru_RunID (sr_run src)) (Ev_Event event) (El_Agent listener)) run) \/
  exists artifacts e, contextArtifacts (sr_run src) (sr_steps src) event = Ok artifacts /\
    admit_request o (event_request src event listener artifacts) = Err e /\ isRefusal e = true.

Lemma served_kept o src event listener m m' : opens m m' -> served o src event listener m -> served o src event listener m'.
Proof.
  intros H [S|[[run S]|S]]; [by left|right; left; exists run; by eapply opens_recorded|by right; right].
Qed.

Lemma Open_opens o req m m' r : Opener_Open o req m false = (m', r) -> opens m m'.
Proof.
  unfold Opener_Open, Open_across. destruct (open_prepare o req m false) as [[r0|[s scope]]|e] eqn:E.
  - intros [= <- _]. constructor.
  - intros H. apply prepared_new in E as (_ & _ & w & p & ref & _ & _ & _ & _ & Es).
    apply committed in H as [(_ & Ho & _)|[-> _]]; [|constructor].
    apply (opens_more m m' m' s); [by rewrite Es|exact Ho|constructor].
  - intros [= <- _]. constructor.
Qed.

(** A refusal comes from the checks, never from the ledger. *)
Lemma Open_refused o req m m' e :
  Opener_Open o req m false = (m', Err e) -> isRefusal e = true -> admit_request o req = Err e.
Proof.
  unfold Opener_Open, Open_across. destruct (open_prepare o req m false) as [[r0|[s scope]]|e0] eqn:E.
  - done.
  - intros H. apply committed in H as [(_ & _ & [=])|[_ [(run & _ & [=])|(e1 & _ & [= ->])]]]. done.
  - intros [= _ <-]. unfold open_prepare in E. destruct (String.eqb _ ""); [by injection E as <-|].
    destruct (negb _); [by injection E as <-|]. unfold workItemOf in E.
    assert (Hrest : forall w : option RunWorkItem, match RunByIdemKey m false (Rq_IdemKey req) with
        | Ok existing => Ok (inl (MkOpenResult existing zeroScope false))
        | Err _ => published ← admit_request o req;
            let '(named, stamped) := op_clock o (Rq_IdemKey req) in
            let run := newRunID (As_ID published) named (Rq_IdemKey req) in
            inputRef ← store_input o run (Rq_Input req);
            Ok (inr (opening_step req published run stamped inputRef w, As_Scope published)) end =
        (Err e0 : result OpenError (OpenResult + (Step * Scope))) -> isRefusal e0 = true -> admit_request o req = Err e0).
    { intros w. destruct (RunByIdemKey _ _ _); [done|]. destruct (admit_request o req) as [p|e1]; cbn [mbind result_mbind].
      - destruct (op_clock _ _). unfold store_input. destruct (op_content o) as [put|]; [|done].
        destruct (String.eqb (Rq_Input req) ""); [done|]. destruct (put _ _ _); [done|]. by intros [= <-].
      - by intros [= ->]. }
    destruct (Rq_WorkItem req) as [item|]; [|by eapply (Hrest None)].
    destruct (RunWorkItem_Validate item); [by eapply (Hrest (Some item))|]. by injection E as <-.
Qed.

Lemma openListener_serves o src event listener artifacts m m' b :
  reachable m -> contextArtifacts (sr_run src) (sr_steps src) event = Ok artifacts ->
  openListener o src event listener artifacts m = (m', Ok b) -> served o src event listener m'.
Proof.
  intros R Ha. unfold openListener. destruct (String.eqb_spec (El_Agent listener) (Ru_AgentID (sr_run src))); [by left|].
  destruct (Opener_Open _ _ m false) as [m1 [r|e]] eqn:E.
  - intros [= <- _]. right. left. exists (Or_RunID r). unfold Opener_Open in E.
    by apply (Open_across_Ok _ _ _ _ _ _ _ _ [] R (steps_nil _)) in E as (_ & ? & _).
  - destruct (isRefusal e) eqn:Er; [|done]. intros [= <- _]. right. right. exists artifacts, e.
    split; [done|]. split; [by eapply Open_refused|done].
Qed.

Lemma openListener_opens o src event listener artifacts m m' r :
  openListener o src event listener artifacts m = (m', r) -> opens m m'.
Proof.
  unfold openListener. destruct (String.eqb _ _); [intros [= <- _]; constructor|].
  destruct (Opener_Open _ _ m false) as [m1 [x|e]] eqn:E; apply Open_opens in E; [by intros [= <- _]|].
  destruct (isRefusal e); by intros [= <- _].
Qed.

(** ** Serving a list in turn *)

Section Each.
Context {A : Type} (f : A -> Memory -> Memory * result SweepError nat).
Hypothesis f_opens : forall a m m' r, f a m = (m', r) -> opens m m'.

Lemma each_opens l : forall m n m' n' e, each f l m n = (m', n', e) -> opens m m'.
Proof.
  induction l as [|a l IH]; intros m n m' n' e; cbn [each]; [intros [= <- _ _]; constructor|].
  destruct (f a m) as [m1 [k|x]] eqn:E; apply f_opens in E; [|by intros [= <- _ _]].
  intros H. eapply opens_trans; [exact E|by eapply IH].
Qed.

Lemma settle_count_opens l m n m' r : settle_count (each f l m n) = (m', r) -> opens m m'.
Proof.
  unfold settle_count. destruct (each f l m n) as [[m1 k] e] eqn:E. intros [= <- _]. by eapply each_opens.
Qed.

Context (P : A -> Memory -> Prop).
Hypothesis P_kept : forall a m m', opens m m' -> P a m -> P a m'.
Hypothesis P_done : forall a m m' k, reachable m -> f a m = (m', Ok k) -> P a m'.

Lemma each_all l : forall m n m' n', reachable m -> each f l m n = (m', n', None) -> forall a, a ∈ l -> P a m'.
Proof.
  induction l as [|a l IH]; intros m n m' n' R; cbn [each]; [intros _ a Ha; by apply not_elem_of_nil in Ha|].
  destruct (f a m) as [m1 [k|x]] eqn:E; [|done]. intros H b [->|Hb]%elem_of_cons.
  - eapply P_kept; [by eapply each_opens|by eapply P_done].
  - eapply IH; [|exact H|done]. eapply opens_reachable; [by eapply f_opens|done].
Qed.

Lemma settle_count_all l m n m' k : reachable m -> settle_count (each f l m n) = (m', Ok k) -> forall a, a ∈ l -> P a m'.
Proof.
  intros R. unfold settle_count. destruct (each f l m n) as [[m1 j] [e|]] eqn:E; [done|].
  intros [= <- _]. by eapply each_all.
Qed.
End Each.

Lemma publish_opens o src listeners event m m' r : publish o src listeners event m = (m', r) -> opens m m'.
Proof.
  unfold publish. destruct (contextArtifacts _ _ event) as [arts|]; [|intros [= <- _]; constructor].
  apply settle_count_opens. intros l m1 m2 x.
  destruct (openListener o src event l arts m1) as [m3 y] eqn:E. intros [= <- _]. by eapply openListener_opens.
Qed.

Lemma publish_serves o src listeners event m m' k :
  reachable m -> publish o src listeners event m = (m', Ok k) ->
  forall l, l ∈ listeners -> served o src event l m'.
Proof.
  unfold publish. intros R. destruct (contextArtifacts _ _ event) as [arts|] eqn:Ea; [|done]. intros H.
  refine (settle_count_all _ _ (fun l m1 => served o src event l m1) _ _ _ _ _ _ _ R H).
  - intros l m1 m2 x. destruct (openListener o src event l arts m1) as [m3 y] eqn:E. intros [= <- _].
    by eapply openListener_opens.
  - intros l m1 m2. apply served_kept.
  - intros l m1 m2 j R1. cbn beta. destruct (openListener o src event l arts m1) as [m3 [b|e]] eqn:E; [|done].
    intros [= <- _]. by eapply openListener_serves.
Qed.

(** Every listener of every event of a source is served; a run whose events go
    no further has none. *)
Definition answered (o : Opener) (listeners : string -> list EventListener) (steps : list Step)
    (c : RunSummary * list AgentEvent) (m : Memory) : Prop :=
  exists from, sourceOf (fst c) steps = Ok from /\
    forall src event l, from = Some src -> event ∈ snd c -> l ∈ listeners (Ev_Event event) -> served o src event l m.

Lemma answered_kept o listeners steps c m m' : opens m m' -> answered o listeners steps c m -> answered o listeners steps c m'.
Proof. intros H (from & E & Ha). exists from. split; [done|]. intros. eapply served_kept; [done|by eapply Ha]. Qed.

Lemma dispatch_opens o listeners read c m m' r : dispatch_candidate o listeners read c m = (m', r) -> opens m m'.
Proof.
  destruct c as [run events]. unfold dispatch_candidate.
  destruct (sourceOf run (read run)) as [[src|]|]; [|intros [= <- _]; constructor..].
  apply settle_count_opens. intros event m1 m2 x. apply publish_opens.
Qed.

Lemma dispatch_answers o listeners read c m m' k :
  reachable m -> dispatch_candidate o listeners read c m = (m', Ok k) -> answered o listeners (read (fst c)) c m'.
Proof.
  destruct c as [run events]. unfold dispatch_candidate, answered. cbn [fst snd]. intros R.
  destruct (sourceOf run (read run)) as [[src|]|]; [|by exists None|done].
  intros H. exists (Some src). split; [done|]. intros src' event l [= <-] He Hl.
  eapply (settle_count_all (fun event m => publish o src (listeners (Ev_Event event)) event m)
    (fun _ _ _ _ E => publish_opens _ _ _ _ _ _ _ E)
    (fun event m => forall l, l ∈ listeners (Ev_Event event) -> served o src event l m)); [| |exact R|exact H|done|done].
  - intros a m1 m2 H1 H2 x Hx. eapply served_kept; eauto.
  - intros a m1 m2 j R1 E. by eapply publish_serves.
Qed.

(** ** One page *)

Lemma candidates_spec subs listeners page : forall seen pending,
  (forall key events, seen !! key = Some events -> su_emits subs (fst key) (snd key) = Ok events) ->
  candidates subs listeners seen page = Ok pending ->
  forall f, f ∈ page -> exists declared, su_emits subs (Ru_AgentID (Fr_Run f)) (Ru_VersionID (Fr_Run f)) = Ok declared /\
    (listened declared listeners = [] \/ (Fr_Run f, listened declared listeners) ∈ pending).
Proof.
  induction page as [|x page IH]; intros seen pending Hs; cbn [candidates]; [intros _ f Hf; by apply not_elem_of_nil in Hf|].
  set (key := (Ru_AgentID (Fr_Run x), Ru_VersionID (Fr_Run x))).
  match goal with |- context [mbind _ ?d] => destruct d as [declared|] eqn:Ed end; cbn [mbind result_mbind]; [|done].
  assert (Hd : su_emits subs (fst key) (snd key) = Ok declared).
  { destruct (seen !! key) eqn:E; [apply Hs in E; by injection Ed as <-|].
    cbn [key fst snd]. destruct (su_emits subs _ _); [by injection Ed as <-|done]. }
  destruct (candidates subs listeners _ page) as [rest|] eqn:Er; cbn [mbind result_mbind]; [|done]. intros H.
  assert (Hp : pending = match listened declared listeners with [] => rest | events => (Fr_Run x, events) :: rest end).
  { destruct (listened declared listeners); by injection H as <-. }
  intros f [->|Hf]%elem_of_cons.
  - exists declared. split; [done|]. subst pending. destruct (listened declared listeners); [by left|right; left].
  - eapply IH in Er as (d & Hd' & [Hl|Hl]); [| | |exact Hf].
    + exists d. split; [done|by left].
    + exists d. split; [done|right]. subst pending. destruct (listened declared listeners); [done|by right].
    + intros key' events. destruct (decide (key' = key)) as [->|Hne]; [rewrite lookup_insert_eq; by intros [= <-]|].
      rewrite lookup_insert_ne by done. apply Hs.
Qed.

(** What a finished run declared has been answered. *)
Definition delivered (o : Opener) (subs : Subscriptions) (listeners : string -> list EventListener)
    (steps : list Step) (run : RunSummary) (m : Memory) : Prop :=
  exists declared, su_emits subs (Ru_AgentID run) (Ru_VersionID run) = Ok declared /\
    (listened declared listeners = [] \/ answered o listeners steps (run, listened declared listeners) m).

Lemma page_opens o subs listeners page m m' n e : dispatchPage o subs listeners page m = (m', n, e) -> opens m m'.
Proof.
  unfold dispatchPage. destruct (candidates _ _ _ _) as [pending|]; [|intros [= <- _ _]; constructor].
  apply each_opens. intros c m1 m2 r. apply dispatch_opens.
Qed.

Lemma page_delivers o subs listeners page m m' n :
  reachable m -> dispatchPage o subs listeners page m = (m', n, None) ->
  forall f, f ∈ page -> delivered o subs listeners (StartsAndFinishes m (Fr_Run f)) (Fr_Run f) m'.
Proof.
  unfold dispatchPage. intros R. destruct (candidates _ _ _ _) as [pending|] eqn:Ec; [|done]. intros H f Hf.
  eapply candidates_spec in Ec as (declared & Hd & Hp); [|intros key events; by rewrite lookup_empty|exact Hf].
  exists declared. split; [done|]. destruct Hp as [?|Hp]; [by left|right].
  refine (each_all _ _ (fun c m1 => answered o listeners (StartsAndFinishes m (fst c)) c m1) _ _ _ _ _ _ _ R H _ Hp).
  - intros c m1 m2 r. apply dispatch_opens.
  - intros c m1 m2. apply answered_kept.
  - intros c m1 m2 j R1. by apply dispatch_answers.
Qed.

(** ** The feed *)

Lemma cursor_order c d : FinishCursor_Before c d = lex_before [Fc_Xid c] [Fc_Xid d] (Fc_Run c) (Fc_Run d).
Proof. unfold FinishCursor_Before. cbn [lex_before]. by destruct (Z.eqb (Fc_Xid c) (Fc_Xid d)). Qed.

Lemma cursor_asym c d : FinishCursor_Before c d = true -> FinishCursor_Before d c = false.
Proof. rewrite !cursor_order. apply lex_asym. Qed.

Lemma cursor_trans c d e :
  FinishCursor_Before d c = false -> FinishCursor_Before e d = false -> FinishCursor_Before e c = false.
Proof. rewrite !cursor_order. by apply lex_trans. Qed.

Lemma cursor_total c d : FinishCursor_Before c d = false -> FinishCursor_Before d c = false -> c = d.
Proof.
  destruct c as [x i], d as [y j]. rewrite !cursor_order. cbn [Fc_Xid Fc_Run]. intros H1 H2.
  assert (i = j) as -> by (by eapply lex_total with (x := [x]) (y := [y])). cbn [lex_before] in H1, H2.
  destruct (Z.eqb_spec x y) as [->|]; [done|]. destruct (Z.eqb_spec y x); [done|]. lia.
Qed.

Lemma cursor_irrefl c : FinishCursor_Before c c = false.
Proof. destruct (FinishCursor_Before c c) eqn:E; [|done]. by rewrite (cursor_asym _ _ E) in E. Qed.

Definition past_rows (m : Memory) (after : FinishCursor) : list FinishedRun :=
  omap (finished_row m after) (map_to_list (m_finishOrder m)).

Lemma row_at m after entry f : finished_row m after entry = Some f ->
  Fr_At f = MkFinishCursor (snd entry) (fst entry) /\ FinishCursor_Before after (Fr_At f) = true.
Proof.
  destruct entry as [id order]. unfold finished_row. destruct (steps_of m id); [done|].
  destruct (FinishCursor_Before after _) eqn:E; [|done]. destruct (isSimulated _); [done|]. cbn [negb orb].
  destruct (String.eqb _ _); [|done]. by intros [= <-].
Qed.

(** Moving the cursor only hides rows it has reached. *)
Lemma row_moved m after after' entry f : finished_row m after entry = Some f ->
  finished_row m after' entry = if FinishCursor_Before after' (Fr_At f) then Some f else None.
Proof.
  intros H. destruct (row_at _ _ _ _ H) as [Ha Hb]. destruct entry as [id order]. unfold finished_row in H |- *.
  rewrite Ha in Hb |- *. cbn [fst snd] in Hb |- *. destruct (steps_of m id); [done|].
  rewrite Hb in H. cbn [negb orb] in H. destruct (isSimulated _); [done|]. rewrite orb_false_r.
  by destruct (FinishCursor_Before after' _).
Qed.

Lemma page_cut m after limit :
  let page := FinishedSince m after limit in
  (forall f, f ∈ page -> f ∈ past_rows m after) /\
  (forall f, f ∈ past_rows m after -> f ∈ page \/
     List.length page = limitOrDefault limit /\ forall g, g ∈ page -> FinishCursor_Before (Fr_At f) (Fr_At g) = false).
Proof.
  pose proof (sort_by_cut (fun a b => FinishCursor_Before (Fr_At a) (Fr_At b)) (past_rows m after) (limitOrDefault limit)
    (fun _ _ => cursor_asym _ _) (fun _ _ _ => cursor_trans _ _ _)) as (Hp & _ & Hc).
  cbv zeta. unfold FinishedSince. fold (past_rows m after). split.
  - intros f Hf. rewrite <- Hp. apply elem_of_app. by left.
  - intros f Hf. rewrite <- Hp in Hf. apply elem_of_app in Hf as [Hf|Hf]; [by left|right]. split; [|by intros g Hg; apply Hc].
    rewrite length_take. apply list_elem_of_In, In_nth_error in Hf as [i Hi]. 
    assert (Hl : (i < List.length (drop (limitOrDefault limit) (sort_by (fun a b => FinishCursor_Before (Fr_At a) (Fr_At b)) (past_rows m after))))%nat)
      by (apply nth_error_Some; congruence).
    rewrite length_drop in Hl. lia.
Qed.

Lemma rows_unique m after f g : f ∈ past_rows m after -> g ∈ past_rows m after -> Fr_At f = Fr_At g -> f = g.
Proof.
  intros ([i x] & _ & Hf)%list_elem_of_omap ([j y] & _ & Hg)%list_elem_of_omap E.
  pose proof (row_at _ _ _ _ Hf) as [Ef _]. pose proof (row_at _ _ _ _ Hg) as [Eg _].
  rewrite Ef, Eg in E. injection E as -> ->. cbn [fst snd] in *. congruence.
Qed.

(** A row left out of a page is past the last row of the page. *)
Lemma left_for_later m after limit f g :
  f ∈ past_rows m after -> g ∈ FinishedSince m after limit -> f ∈ FinishedSince m after limit \/
  List.length (FinishedSince m after limit) = limitOrDefault limit /\ FinishCursor_Before (Fr_At g) (Fr_At f) = true.
Proof.
  intros Hf Hg. destruct (page_cut m after limit) as [Hp Hc].
  destruct (Hc f Hf) as [?|[Hl Hb]]; [by left|].
  destruct (FinishCursor_Before (Fr_At g) (Fr_At f)) eqn:E; [by right|left].
  by rewrite (rows_unique m after f g Hf (Hp g Hg) (cursor_total _ _ (Hb g Hg) E)).
Qed.

Lemma rows_back m m' after f : opens m m' -> f ∈ past_rows m' after -> f ∈ past_rows m after.
Proof.
  intros Ho (entry & He & Hf)%list_elem_of_omap. apply list_elem_of_omap. exists entry.
  rewrite (proj1 (opens_kept _ _ Ho)) in He. split; [done|]. by eapply finished_row_back.
Qed.

(** The steps a row is read by are the ones it had when its page was read. *)
Lemma starts_back m m' after f : reachable m' -> opens m m' -> f ∈ past_rows m' after ->
  StartsAndFinishes m' (Fr_Run f) = StartsAndFinishes m (Fr_Run f).
Proof.
  intros R Ho ([id order] & He & Hf)%list_elem_of_omap.
  destruct (finished_row_back _ _ _ _ _ Ho Hf) as [_ E]. cbn [fst] in E.
  assert (Hid : Ru_RunID (Fr_Run f) = id).
  { destruct (chains_ok_of m' id (reachable_chains _ R)) as [_ Hall]. unfold finished_row in Hf.
    destruct (steps_of m' id) as [|first steps]; [done|]. destruct (_ || _); [done|].
    cbn zeta in Hf. destruct (String.eqb _ _); [|done]. injection Hf as <-. cbn [Fr_Run].
    destruct (summarise_keeps first (first :: steps)) as [_ ->]. by inversion Hall. }
  unfold StartsAndFinishes. by rewrite Hid, E.
Qed.

Lemma advance_past cursor to f : FinishCursor_Before cursor to = true ->
  FinishCursor_Before (AdvanceEventCursor cursor to) f = FinishCursor_Before to f.
Proof. unfold AdvanceEventCursor. by intros ->. Qed.

Lemma last_row (page : list FinishedRun) g0 rest : page = g0 :: rest -> exists g, last page = Some g /\ g ∈ page.
Proof.
  intros ->. destruct (last (g0 :: rest)) as [g|] eqn:E; [|by apply last_None in E].
  exists g. split; [done|]. by apply last_Some_elem_of.
Qed.

(** A page, once dispatched, stays delivered to the end of the sweep. *)
Lemma page_settled o subs listeners page m m1 k m2 cursor f :
  reachable m -> dispatchPage o subs listeners page m = (m1, k, None) -> opens m1 m2 -> f ∈ past_rows m2 cursor -> f ∈ page ->
  delivered o subs listeners (StartsAndFinishes m2 (Fr_Run f)) (Fr_Run f) m2.
Proof.
  intros R Ed Ho2 Hf Hin. pose proof (opens_trans _ _ _ (page_opens _ _ _ _ _ _ _ _ Ed) Ho2) as Ho.
  rewrite (starts_back m m2 cursor f) by (done || by eapply opens_reachable).
  destruct (page_delivers _ _ _ _ _ _ _ R Ed f Hin) as (d & Hd & [?|Ha]); exists d; (split; [done|]); [by left|right].
  eapply answered_kept; [exact Ho2|exact Ha].
Qed.

Lemma limit_positive limit : limitOrDefault limit <> 0%nat.
Proof. unfold limitOrDefault. destruct (limit <=? 0)%Z eqn:E1, (500 <? limit)%Z; cbn; lia. Qed.

Lemma full_page limit : (limit <= 500)%Z -> (Z.of_nat (limitOrDefault limit) <? limit)%Z = false.
Proof.
  intros H. unfold limitOrDefault. apply Z.ltb_ge.
  destruct (Z.leb_spec limit 0), (Z.ltb_spec 500 limit); cbn [orb]; lia.
Qed.

(** A row is in its page, or in the rows past the page of a full one. *)
Lemma page_or_later m m2 cursor limit g0 rest f :
  FinishedSince m cursor limit = g0 :: rest -> opens m m2 -> f ∈ past_rows m2 cursor ->
  exists g, last (g0 :: rest) = Some g /\ FinishCursor_Before cursor (Fr_At g) = true /\
    (f ∈ g0 :: rest \/
     List.length (g0 :: rest) = limitOrDefault limit /\ f ∈ past_rows m2 (AdvanceEventCursor cursor (Fr_At g))).
Proof.
  intros Ep Ho Hf. destruct (last_row _ g0 rest eq_refl) as (g & Hlast & Hg). exists g. split; [done|].
  pose proof (page_cut m cursor limit) as [Hpage _]. rewrite Ep in Hpage.
  assert (Hpast : FinishCursor_Before cursor (Fr_At g) = true).
  { apply Hpage, list_elem_of_omap in Hg as (entry & _ & Hrow). by apply row_at in Hrow as [_ ?]. }
  split; [done|]. destruct (left_for_later m cursor limit f g) as [Hin|[Hl Hb]];
    [by eapply rows_back|by rewrite Ep|left; by rewrite <- Ep|right]. rewrite Ep in Hl.
  split; [done|]. apply list_elem_of_omap in Hf as (entry & He & Hrow). apply list_elem_of_omap. exists entry.
  split; [done|]. by rewrite (row_moved _ _ _ _ _ Hrow), advance_past, Hb.
Qed.

Lemma pages_deliver o subs listeners limit fuel : forall m cursor opened m' cursor' n e,
  (limit <= 500)%Z -> reachable m ->
  sweep_pages fuel o subs listeners limit m cursor opened = Some (m', cursor', n, e) ->
  opens m m' /\ forall f, f ∈ past_rows m' cursor ->
    delivered o subs listeners (StartsAndFinishes m' (Fr_Run f)) (Fr_Run f) m' \/ e <> None /\ f ∈ past_rows m' cursor'.
Proof.
  induction fuel as [|fuel IH]; intros m cursor opened m' cursor' n e Hlim R; cbn [sweep_pages]; [done|].
  pose proof (fun m2 => page_or_later m m2 cursor limit) as Hrow. pose proof (page_cut m cursor limit) as [_ Hcut].
  destruct (FinishedSince m cursor limit) as [|g0 rest] eqn:Ep.
  { intros [= <- _ _]. split; [constructor|]. intros f Hf. destruct (Hcut f Hf) as [Hin|[Hl _]]; [by apply not_elem_of_nil in Hin|].
    by destruct (limit_positive limit). }
  destruct (dispatchPage o subs listeners (g0 :: rest) m) as [[m1 k] [e1|]] eqn:Ed;
    pose proof (page_opens _ _ _ _ _ _ _ _ Ed) as Ho1.
  { intros [= <- <- _ <-]. split; [done|]. intros f Hf. by right. }
  destruct (_ <? limit)%Z eqn:El; intros H.
  - injection H as <- _ _ _. split; [done|]. intros f Hf. left.
    destruct (Hrow m1 g0 rest f eq_refl Ho1 Hf) as (g & _ & _ & [Hin|[Hl _]]).
    + by eapply page_settled; [| |constructor| |].
    + by rewrite Hl, full_page in El.
  - apply IH in H as [Ho2 Hd]; [|done|by eapply opens_reachable]. split; [by eapply opens_trans|]. intros f Hf.
    destruct (Hrow m' g0 rest f eq_refl (opens_trans _ _ _ Ho1 Ho2) Hf) as (g & Hg & _ & [Hin|[_ Hlater]]).
    + left. by eapply page_settled.
    + apply Hd. by rewrite Hg.
Qed.

(** ** The end of a sweep *)

Lemma omap_shrinks {A B} (f g : A -> option B) l :
  (forall x, is_Some (f x) -> is_Some (g x)) ->
  (List.length (omap f l) <= List.length (omap g l))%nat /\
  ((exists x, x ∈ l /\ f x = None /\ is_Some (g x)) -> (List.length (omap f l) < List.length (omap g l))%nat).
Proof.
  intros H. induction l as [|x l [IH1 IH2]]; [split; [done|]; intros (x & Hx & _); by apply not_elem_of_nil in Hx|].
  cbn. pose proof (H x) as Hx. destruct (f x) eqn:Ef, (g x) eqn:Eg; cbn; try (by destruct Hx); (split; [lia|]);
    intros (y & [->|Hy]%elem_of_cons & Hf & Hg); try (rewrite Hf in Ef; done); try (rewrite Eg in Hg; by destruct Hg);
    try (assert (E := IH2 (ex_intro _ y (conj Hy (conj Hf Hg))))); lia.
Qed.

Lemma page_moves m m1 cursor limit g :
  opens m m1 -> g ∈ FinishedSince m cursor limit ->
  (List.length (past_rows m1 (AdvanceEventCursor cursor (Fr_At g))) < List.length (past_rows m cursor))%nat.
Proof.
  intros Ho Hg. destruct (page_cut m cursor limit) as [Hp _].
  apply Hp, list_elem_of_omap in Hg as (entry & He & Hrow). pose proof (row_at _ _ _ _ Hrow) as [_ Hpast].
  unfold past_rows at 1. rewrite (proj1 (opens_kept _ _ Ho)).
  apply omap_shrinks.
  - intros x [f Hf]. destruct (finished_row_back _ _ _ _ _ Ho Hf) as [Hm _]. pose proof (row_at _ _ _ _ Hm) as [Ha Hb].
    rewrite (advance_past _ _ _ Hpast) in Hb. rewrite (row_moved _ _ cursor _ _ Hm).
    destruct (FinishCursor_Before cursor (Fr_At f)) eqn:Ec; [by exists f|].
    by rewrite (cursor_trans _ _ _ Ec (cursor_asym _ _ Hpast)) in Hb.
  - exists entry. split; [done|]. split; [|by exists g].
    destruct (finished_row m1 _ entry) as [f|] eqn:Hf; [|done].
    destruct (finished_row_back _ _ _ _ _ Ho Hf) as [Hm _]. pose proof (row_at _ _ _ _ Hm) as [Ha Hb].
    rewrite (advance_past _ _ _ Hpast), Ha, <- (proj1 (row_at _ _ _ _ Hrow)), cursor_irrefl in Hb. done.
Qed.

Lemma pages_end o subs listeners limit fuel : forall m cursor opened,
  (List.length (past_rows m cursor) < fuel)%nat -> sweep_pages fuel o subs listeners limit m cursor opened <> None.
Proof.
  induction fuel as [|fuel IH]; intros m cursor opened Hf; [lia|]. cbn [sweep_pages].
  destruct (FinishedSince m cursor limit) as [|g0 rest] eqn:Ep; [done|].
  destruct (dispatchPage o subs listeners (g0 :: rest) m) as [[m1 k] [e1|]] eqn:Ed; [done|].
  destruct (last_row _ g0 rest eq_refl) as (g & -> & Hg). destruct (_ <? limit)%Z; [done|]. apply IH.
  rewrite <- Ep in Hg. pose proof (page_moves m m1 cursor limit g (page_opens _ _ _ _ _ _ _ _ Ed) Hg). lia.
Qed.

Lemma omap_bounded {A B} (f : A -> option B) l : (List.length (omap f l) <= List.length l)%nat.
Proof. induction l as [|x l IH]; cbn; [done|]. destruct (f x); cbn; lia. Qed.

Lemma rows_bounded m cursor : (List.length (past_rows m cursor) <= size (m_finishOrder m))%nat.
Proof. unfold past_rows. rewrite <- length_map_to_list. apply omap_bounded. Qed.

(** C24. A sweep leaves nothing behind. After a sweep in pages of at most five
    hundred, every real run that is finished past the cursor it began at has been
    dispatched: each event its pinned version declares has reached each of its
    listeners, which means that a run with that intention's key is in the ledger,
    that the opener's checks refuse it, or that the listener is the publisher, and
    a chain at its last hop publishes nothing. A sweep that a run could not be
    dispatched in ends with an error, and each run it did not dispatch is still
    past the cursor it leaves, for the next one. *)
Theorem sweeps_leave_nothing_behind o subs listeners limit m cursor m' cursor' n e :
  (limit <= 500)%Z -> reachable m -> su_listeners subs = Ok listeners ->
  Sweep o subs limit m cursor = Some (m', cursor', n, e) ->
  forall f, f ∈ past_rows m' cursor ->
    delivered o subs listeners (StartsAndFinishes m' (Fr_Run f)) (Fr_Run f) m' \/ e <> None /\ f ∈ past_rows m' cursor'.
Proof.
  intros Hl R E H. unfold Sweep in H. rewrite E in H. by apply (pages_deliver _ _ _ _ _ _ _ _ _ _ _ _ Hl R) in H as [_ Hd].
Qed.

(** C40. A sweep ends. Page after page, every page moves the cursor past a
    finished run and opens only runs that are not finished, so that the sweep has
    read its last page after as many pages as there are finished runs, whatever
    the page size, the subscriptions and the refusals. *)
Theorem sweeps_end o subs limit m cursor : Sweep o subs limit m cursor <> None.
Proof.
  unfold Sweep. destruct (su_listeners subs) as [listeners|]; [|done].
  apply pages_end. pose proof (rows_bounded m cursor). lia.
Qed.

(** ** Witness: a finished run starts the one agent that listens to it *)

Module Relay.
Definition ops : Scope := MkScope "acme" "ops".
Definition opener : Opener :=
  MkOpener (fun agent => Ok [Doors.version agent "v1" ops]) None (Some (fun _ => Ok false)) (Some (Ok []))
    (Some (fun _ => Ok StageCopilot)) (fun _ => (unix_epoch, unix_epoch)).

Definition first : Memory :=
  fst (Opener_Open opener (MkRequest_ "triage" "k1" "manual" "ana" "" [] None None [] "" "" 0 "" "" None None) NewMemory false).
Definition run : RunID := newRunID "triage" unix_epoch "k1".
Definition closing : Step :=
  MkStep run 0 StepRunFinished ops "triage" "v1" "ana"
    (marshal c_RunFinishedPayload (MkRunFinishedPayload "done" "ref-1" "sha256:1" [] "" "" "" "" None))
    [LabelUntrusted] zeroCost "" "" 0 "" "".
Definition finished : Memory := match Append first false 0 closing with Ok (m, _) => m | Err _ => first end.

Definition subs : Subscriptions :=
  MkSubscriptions (fun _ _ => Ok [MkAgentEvent "sorted" "" ["final_answer"]])
    (Ok (fun event => if String.eqb event "sorted" then [MkEventListener "watch" "v1"; MkEventListener "triage" "v1"] else [])).
Definition start : FinishCursor := MkFinishCursor 0 "".
Definition swept : Memory * FinishCursor * nat * option SweepError :=
  match Sweep opener subs 1 finished start with Some r => r | None => (finished, start, 0%nat, None) end.
Definition after : Memory := fst (fst (fst swept)).

Lemma first_reachable : reachable first.
Proof.
  unfold first. destruct (Opener_Open _ _ NewMemory false) as [m r] eqn:E. apply Open_opens in E.
  cbn [fst]. eapply opens_reachable; [exact E|constructor].
Qed.

Lemma closed_by : exists sealed, Append first false 0 closing = Ok (finished, sealed).
Proof.
  unfold finished. destruct (Append first false 0 closing) as [[m sealed]|] eqn:E; [by exists sealed|].
  vm_compute in E. discriminate.
Qed.

Lemma finished_reachable : reachable finished.
Proof.
  destruct closed_by as [sealed E]. unfold Append in E. generalize dependent finished. intros m E.
  apply (reach_step first 0 (OpAppend None None closing) m first_reachable). by eapply step_append.
Qed.
End Relay.

Lemma sweeps_leave_nothing_behind_witness :
  snd (fst Relay.swept) = 1%nat /\ snd Relay.swept = None /\
  exists f, past_rows Relay.after Relay.start = [f] /\ Ru_RunID (Fr_Run f) = Relay.run /\
    exists listeners, su_listeners Relay.subs = Ok listeners /\
    delivered Relay.opener Relay.subs listeners (StartsAndFinishes Relay.after (Fr_Run f)) (Fr_Run f) Relay.after.
Proof.
  split; [vm_compute; reflexivity|]. split; [vm_compute; reflexivity|].
  assert (E : exists f, past_rows Relay.after Relay.start = [f] /\ Ru_RunID (Fr_Run f) = Relay.run)
    by (eexists; vm_compute; auto).
  destruct E as (f & Ef & Hr). assert (Hf : f ∈ past_rows Relay.after Relay.start) by (rewrite Ef; left).
  assert (Hs : Sweep Relay.opener Relay.subs 1 Relay.finished Relay.start =
    Some (Relay.after, snd (fst (fst Relay.swept)), snd (fst Relay.swept), None)) by (vm_compute; reflexivity).
  exists f. split; [exact Ef|]. split; [exact Hr|]. eexists. split; [reflexivity|].
  refine (match sweeps_leave_nothing_behind Relay.opener Relay.subs _ 1 Relay.finished Relay.start Relay.after
    (snd (fst (fst Relay.swept))) (snd (fst Relay.swept)) None _ Relay.finished_reachable eq_refl Hs f Hf with
    or_introl D => D | or_intror D => match proj1 D eq_refl with end end).
  lia.
Defined.

(** ** The scheduler *)

Section Ticking.
Context (cron : string -> option (Time -> Time)).

(** A moment was given to the opener, and a run it answered with is in the ledger. *)
Definition offered (o : Opener) (d : Due) (m m' : Memory) : Prop :=
  exists m1 m2 r, opens m m1 /\ opens m2 m' /\ Opener_Open o (cron_request d) m1 false = (m2, r) /\
    forall opened, r = Ok opened -> recorded m' (KeyFor (Du_Agent d) (Du_At d)) (Or_RunID opened).

Lemma offered_wider o d m0 m m' m'' : opens m0 m -> opens m' m'' -> offered o d m m' -> offered o d m0 m''.
Proof.
  intros H0 H2 (m1 & m2 & r & Ha & Hb & E & Hr). exists m1, m2, r. split; [by eapply opens_trans|].
  split; [by eapply opens_trans|]. split; [done|]. intros x Hx. eapply opens_recorded; eauto.
Qed.

Definition row_of (d : Due) : string * string := (Du_Agent d, Du_Schedule d).

Lemma tick_one_spec o stuck now d m rows n m' rows' n' next :
  reachable m -> cron (Du_Schedule d) = Some next -> stuck d = false ->
  tick_one cron o stuck now (m, rows, n) d = (m', rows', n') ->
  opens m m' /\ rows' = alter (fun _ => next now) (row_of d) rows /\
  ((Grace <? Time_Sub now (Du_At d))%Z = true -> m' = m /\ n' = n) /\
  ((Grace <? Time_Sub now (Du_At d))%Z = false -> offered o d m m').
Proof.
  intros R Hc Hs. unfold tick_one, NextAfter. rewrite Hc. cbn [mbind option_bind]. rewrite Hs.
  destruct (Grace <? _)%Z; [intros [= <- <- <-]; split; [constructor|done]|].
  destruct (Opener_Open o (cron_request d) m false) as [m1 r] eqn:E. intros H.
  assert (m' = m1 /\ rows' = alter (fun _ => next now) (row_of d) rows) as [-> ->]
    by (destruct r; injection H as <- <- _; done). pose proof (Open_opens _ _ _ _ _ E) as Ho.
  split; [done|]. split; [done|]. split; [done|]. intros _. exists m, m1, r. split; [constructor|]. split; [constructor|].
  split; [done|]. intros x ->. unfold Opener_Open in E. by apply (Open_across_Ok _ _ _ _ _ _ _ _ [] R (steps_nil _)) in E as (_ & ? & _).
Qed.

Lemma tick_all o stuck now : forall dues m rows n m' rows' n',
  reachable m -> (forall d, d ∈ dues -> is_Some (cron (Du_Schedule d)) /\ stuck d = false) ->
  fold_left (tick_one cron o stuck now) dues (m, rows, n) = (m', rows', n') ->
  opens m m' /\
  (forall key t, rows' !! key = Some t ->
     (exists d next, d ∈ dues /\ row_of d = key /\ cron (Du_Schedule d) = Some next /\ t = next now) \/
     (rows !! key = Some t /\ forall d, d ∈ dues -> row_of d <> key)) /\
  (forall d, d ∈ dues -> (Grace <? Time_Sub now (Du_At d))%Z = false -> offered o d m m').
Proof.
  induction dues as [|d dues IH]; intros m rows n m' rows' n' R Hd; cbn [fold_left].
  { intros [= <- <- _]. split; [constructor|]. split; [|by intros d Hd0; apply not_elem_of_nil in Hd0].
    intros key t Ht. right. split; [done|]. intros d Hd0. by apply not_elem_of_nil in Hd0. }
  destruct (Hd d ltac:(left)) as [[next Hc] Hs].
  destruct (tick_one cron o stuck now (m, rows, n) d) as [[m1 rows1] n1] eqn:E.
  destruct (tick_one_spec _ _ _ _ _ _ _ _ _ _ _ R Hc Hs E) as (Ho1 & Hr1 & _ & Hf). intros H.
  apply IH in H as (Ho2 & Hr & Ha); [|by eapply opens_reachable|by intros x Hx; apply Hd; right].
  split; [by eapply opens_trans|]. split.
  - intros key t Ht. destruct (Hr key t Ht) as [(x & nx & Hx & Hrest)|[Ht1 Hn]];
      [left; exists x, nx; split; [by right|done]|]. subst rows1.
    apply (lookup_alter_Some (M := gmap (string * string))) in Ht1 as [(<- & t0 & _ & ->)|[Hne Ht1]].
    + left. by exists d, next; repeat split; [left|..].
    + right. split; [done|]. by intros x [->|Hx]%elem_of_cons; [|apply Hn].
  - intros x [->|Hx]%elem_of_cons Hg.
    + eapply offered_wider; [constructor|exact Ho2|by apply Hf].
    + eapply offered_wider; [exact Ho1|constructor|by apply Ha].
Qed.

Lemma due_spec rows now d : d ∈ schedules_due rows now <-> rows !! row_of d = Some (Du_At d) /\ (Du_At d <= now)%Z.
Proof.
  unfold schedules_due. rewrite (sort_by_perm _ _), list_elem_of_omap. split.
  - intros ([[a s] t] & He%elem_of_map_to_list & Hd). destruct (Z.leb_spec t now); [|done]. by injection Hd as <-.
  - intros [Hr Hn]. exists (row_of d, Du_At d). split; [by apply elem_of_map_to_list|]. cbn.
    destruct (Z.leb_spec (Du_At d) now); [by destruct d|lia].
Qed.

(** What an agent publishes is what it fires by: another agent's rows stay, a
    schedule still declared keeps its moment, a new one starts at the next, and
    one that is gone is deleted. *)
Lemma sync_declared_spec agent from schedules : forall rows rows',
  sync_declared cron agent from schedules rows = Some rows' ->
  forall a s, rows' !! (a, s) =
    if decide (rows !! (a, s) = None /\ a = agent /\ s ∈ schedules) then NextAfter cron s from else rows !! (a, s).
Proof.
  unfold Schedules. induction schedules as [|x l IH]; intros rows rows'; cbn [sync_declared].
  { intros [= <-] a s. case_decide as H; [|done]. destruct H as (_ & _ & Hin). by apply not_elem_of_nil in Hin. }
  intros (next & Hn & H)%bind_Some a s. unfold Schedules in *. rewrite (IH _ _ H a s). clear IH H.
  destruct (rows !! (agent, x)) as [t|] eqn:E.
  - repeat case_decide; set_solver.
  - destruct (decide ((agent, x) = (a, s))) as [[= <- <-]|Hne].
    + rewrite (lookup_insert_eq (M := gmap (string * string))). rewrite decide_False by naive_solver.
      rewrite decide_True by set_solver. done.
    + rewrite (lookup_insert_ne (M := gmap (string * string))) by done. repeat case_decide; set_solver.
Qed.

Lemma schedules_sync_spec rows agent schedules from rows' :
  schedules_sync cron rows agent schedules from = Some rows' ->
  (forall a s, a <> agent -> rows' !! (a, s) = rows !! (a, s)) /\
  forall s, rows' !! (agent, s) =
    if decide (s ∈ schedules) then match rows !! (agent, s) with Some t => Some t | None => NextAfter cron s from end else None.
Proof.
  unfold schedules_sync, Schedules in *. intros (r & Hr & [= <-])%bind_Some. pose proof (sync_declared_spec _ _ _ _ _ Hr) as Hs. unfold Schedules in Hs. split.
  - intros a s Ha. apply option_eq. intros t. rewrite map_lookup_filter_Some, Hs.
    rewrite decide_False by (by intros (_ & ? & _)). split; [by intros [? _]|]. intros H. split; [done|by left].
  - intros s. apply option_eq. intros t. rewrite map_lookup_filter_Some, Hs.
    destruct (decide (s ∈ schedules)) as [Hin|Hin]; [|split; [by intros [_ [?|?]]|done]].
    assert (Hkeep : agent <> agent \/ s ∈ schedules) by (by right).
    destruct (rows !! (agent, s)) as [t0|] eqn:E; [rewrite decide_False by (by intros [? _])|rewrite decide_True by done];
      (split; [by intros [? _]|by intros ?]).
Qed.

(** A tick clears what is due. When every schedule that is due has a next
    moment later than now, and its row can be advanced, a tick of the scheduler
    leaves no row due at the moment it ran: a moment is taken by one tick. Each
    due moment within two minutes of its time is given to the opener, and a run
    the opener answers with stands in the ledger under the moment's key. *)
Theorem a_tick_clears_what_is_due o stuck now m rows m' rows' n :
  reachable m ->
  (forall d, d ∈ schedules_due rows now ->
     (exists t, NextAfter cron (Du_Schedule d) now = Some t /\ (now < t)%Z) /\ stuck d = false) ->
  Tick cron o stuck now m rows = (m', rows', n) ->
  schedules_due rows' now = [] /\
  forall d, d ∈ schedules_due rows now -> (Time_Sub now (Du_At d) <= Grace)%Z -> offered o d m m'.
Proof.
  intros R Hd H. unfold Tick in H.
  assert (Hc : forall d, d ∈ schedules_due rows now -> is_Some (cron (Du_Schedule d)) /\ stuck d = false).
  { intros d Hin. destruct (Hd d Hin) as [(t & Hn & _) Hs]. split; [|done]. unfold NextAfter in Hn.
    by destruct (cron (Du_Schedule d)). }
  apply tick_all in H as (_ & Hr & Ha); [|done..]. split; [|intros d Hin Hg; apply Ha; [done|by apply Z.ltb_ge]].
  destruct (schedules_due rows' now) as [|d l] eqn:E; [done|]. exfalso.
  assert (Hin : d ∈ schedules_due rows' now) by (rewrite E; left). apply due_spec in Hin as [Ht Hle].
  destruct (Hr _ _ Ht) as [(d0 & next & Hd0 & Hk & Hc0 & Hn)|[Ht0 Hno]].
  - destruct (Hd d0 Hd0) as [(t & Hn0 & Hlt) _]. unfold NextAfter in Hn0. rewrite Hc0 in Hn0. injection Hn0 as <-. lia.
  - by apply (Hno d); [apply due_spec|].
Qed.
End Ticking.

(** ** Witness: a schedule of every hour, and one that never comes *)

Module Clockwork.
Definition hour : Duration := (3600 * 1000000000)%Z.
Definition hourly (schedule : string) : option (Time -> Time) :=
  if String.eqb schedule "0 * * * *" then Some (fun t => (t + hour)%Z)
  else if String.eqb schedule "0 0 30 2 *" then Some (fun _ => 0%Z) else None.
Definition now : Time := (unix_epoch + 1000000000)%Z.
Definition due_rows : Schedules := {[("triage", "0 * * * *") := unix_epoch]}.
Definition ticked := Tick hourly Relay.opener (fun _ => false) now NewMemory due_rows.
End Clockwork.

Lemma a_tick_clears_what_is_due_witness :
  schedules_due Clockwork.due_rows Clockwork.now = [MkDue "triage" "0 * * * *" unix_epoch] /\ snd Clockwork.ticked = 1%nat /\
  schedules_due (snd (fst Clockwork.ticked)) Clockwork.now = [].
Proof.
  assert (E : schedules_due Clockwork.due_rows Clockwork.now = [MkDue "triage" "0 * * * *" unix_epoch]) by (vm_compute; reflexivity).
  split; [exact E|]. split; [vm_compute; reflexivity|].
  apply (a_tick_clears_what_is_due Clockwork.hourly Relay.opener (fun _ => false) Clockwork.now NewMemory Clockwork.due_rows
    (fst (fst Clockwork.ticked)) (snd (fst Clockwork.ticked)) (snd Clockwork.ticked) reach_new).
  - rewrite E. intros d ->%list_elem_of_singleton. split; [|reflexivity].
    exists (Clockwork.now + Clockwork.hour)%Z. split; [reflexivity|]. vm_compute. reflexivity.
  - unfold Clockwork.ticked. destruct (Tick _ _ _ _ _ _) as [[? ?] ?]. reflexivity.
Defined.

(** A schedule that parses and never comes, such as the thirtieth of February,
    has the zero time as its next moment: its row stays due at every tick and is
    given to no opener. *)
Example a_schedule_that_never_comes_stays_due :
  let rows : Schedules := {[("triage", "0 0 30 2 *") := 0%Z]} in
  ValidSchedule Clockwork.hourly "0 0 30 2 *" = true /\
  schedules_due rows Clockwork.now = [MkDue "triage" "0 0 30 2 *" 0] /\
  Tick Clockwork.hourly Relay.opener (fun _ => false) Clockwork.now NewMemory rows = (NewMemory, rows, 0%nat).
Proof. intros rows. split; [reflexivity|]. split; vm_compute; reflexivity. Qed.
