(* ===== verification/Listing.v ===== *)
(** * Reading the ledger in bulk

    src/internal/ledger/list_memory.go, stats_memory.go, activity_memory.go,
    fallback_evidence.go and src/internal/domain/run_cursor.go, stats.go: pages
    of runs, what they cost, how long they took, and the counts of decisions an
    agent is trusted by. Every reading ranges over a map, so none may depend on
    the order it is visited in. *)

From Stdlib Require Import ZArith Lia Ascii String.
From stdpp Require Import base list strings gmap.
From S2P Require Import Prelude GoStrings Json JsonFacts Regexp Float Domain Step Payload Encode State Project Ledger Ports Calendar Watch Agent Open Dispatch.

Local Open Scope string_scope.

(** ** Base64 without padding, over the URL alphabet (encoding/base64) *)

Definition b64_char (n : N) : ascii :=
  ascii_of_N (if n <? 26 then 65 + n else if n <? 52 then 71 + n
              else if n <? 62 then n - 4 else if n =? 62 then 45 else 95)%N.

Definition b64_value (c : ascii) : option N :=
  let n := byte_of c in
  if between 65 90 n then Some (n - 65)%N
  else if between 97 122 n then Some (n - 71)%N
  else if between 48 57 n then Some (n + 4)%N
  else if (n =? 45)%N then Some 62%N
  else if (n =? 95)%N then Some 63%N else None.

Fixpoint b64_encode (s : string) : string :=
  match s with
  | String a (String b (String c s')) =>
      let v := ((byte_of a * 256 + byte_of b) * 256 + byte_of c)%N in
      String (b64_char (v / 262144)) (String (b64_char (v / 4096 mod 64))
        (String (b64_char (v / 64 mod 64)) (String (b64_char (v mod 64)) (b64_encode s'))))
  | String a (String b EmptyString) =>
      let v := ((byte_of a * 256 + byte_of b) * 4)%N in
      String (b64_char (v / 4096)) (String (b64_char (v / 64 mod 64)) (String (b64_char (v mod 64)) EmptyString))
  | String a EmptyString =>
      let v := (byte_of a * 16)%N in
      String (b64_char (v / 64)) (String (b64_char (v mod 64)) EmptyString)
  | EmptyString => EmptyString
  end.

(** The decoder skips line ends; the last quantum may be two or three digits. *)
Fixpoint b64_digits (s : string) : option (list N) :=
  match s with
  | EmptyString => Some []
  | String c s' =>
      if Ascii.eqb c "010" || Ascii.eqb c "013" then b64_digits s'
      else v ← b64_value c; vs ← b64_digits s'; Some (v :: vs)
  end.

Fixpoint b64_bytes (ds : list N) : option string :=
  match ds with
  | a :: b :: c :: d :: ds' =>
      let v := (((a * 64 + b) * 64 + c) * 64 + d)%N in
      rest ← b64_bytes ds';
      Some (chr (v / 65536) +:+ chr (v / 256 mod 256) +:+ chr (v mod 256) +:+ rest)
  | [a; b; c] =>
      let v := (((a * 64 + b) * 64 + c) / 4)%N in Some (chr (v / 256) +:+ chr (v mod 256))
  | [a; b] => Some (chr ((a * 64 + b) / 16))
  | [_] => None
  | [] => Some ""
  end.

Definition b64_decode (s : string) : option string := b64_digits s ≫= b64_bytes.

(** ** Positions in the list of runs (domain/run_cursor.go) *)

Record RunCursor := MkRunCursor { Rc_StartedAt : Time; Rc_RunID : RunID }.

Definition RunCursorAt (s : RunSummary) : RunCursor := MkRunCursor (Ru_StartedAt s) (Ru_RunID s).

(** An instant past the year 9999 has no JSON form. *)
Definition RunCursor_Encode (c : option RunCursor) : string :=
  match c with
  | None => ""
  | Some c =>
      if (9999 <? d_year (date_of (Rc_StartedAt c / day_ns)))%Z then ""
      else b64_encode (print_json (JObj [("t", JStr (rfc3339_nano (Rc_StartedAt c))); ("r", JStr (Rc_RunID c))]))
  end.

Definition d_RunCursor : decoder RunCursor := d_struct (fun cur fs =>
  f0 ← field "t" d_time (Rc_StartedAt cur) fs;
  f1 ← field "r" d_string (Rc_RunID cur) fs;
  mret (MkRunCursor f0 f1)).

Definition DecodeRunCursor (token : string) : option RunCursor :=
  if String.eqb token "" then None
  else
    raw ← b64_decode token;
    let '(c, ok) := unmarshal_into (MkRunCursor 0 "") d_RunCursor raw in
    if negb ok || String.eqb (Rc_RunID c) "" then None else Some c.

(** Whether a row falls past the position. *)
Definition RunCursor_Before (c : option RunCursor) (s : RunSummary) : bool :=
  match c with
  | None => true
  | Some c =>
      if Z.eqb (Ru_StartedAt s) (Rc_StartedAt c) then String.ltb (Ru_RunID s) (Rc_RunID c)
      else (Ru_StartedAt s <? Rc_StartedAt c)%Z
  end.

(** ** Narrowing (domain/stats.go, ledger/stats_memory.go) *)

Record RunFilter := MkRunFilter {
  Rf_Scope : Scope;
  Rf_AgentID : AgentID;
  Rf_VersionID : VersionID;
  Rf_Scopes : list Scope;
  Rf_DeclaredPairOnly : bool;
  Rf_Since : Time;
  Rf_Until : Time;
  Rf_After : option RunCursor;
  Rf_Search : string
}.

#[export] Instance RunFilter_eta : Eta RunFilter := fun f =>
  MkRunFilter (Rf_Scope f) (Rf_AgentID f) (Rf_VersionID f) (Rf_Scopes f) (Rf_DeclaredPairOnly f)
    (Rf_Since f) (Rf_Until f) (Rf_After f) (Rf_Search f).

Definition zeroRunFilter : RunFilter := MkRunFilter zeroScope "" "" [] false 0 0 None "".

Definition withinAny (scope : Scope) (allowed : list Scope) : bool :=
  existsb (fun a => Scope_Contains a scope) allowed.

Definition fellBack (steps : list Step) : bool := existsb (fun s => String.eqb (S_Kind s) StepModelFallback) steps.

Definition stepWithinWindow (step : Step) (f : RunFilter) : bool :=
  (Time_IsZero (Rf_Since f) || negb (S_At step <? Rf_Since f)%Z) &&
  (Time_IsZero (Rf_Until f) || (S_At step <? Rf_Until f)%Z).

(** Grouping into a map of buckets: each element updates the bucket of its key,
    which is [init] before the first. *)
Definition group `{Countable K} {A B} (key : A -> K) (init : A -> B) (f : B -> A -> B) (l : list A) : gmap K B :=
  fold_left (fun m a => <[key a := f (default (init a) (m !! key a)) a]> m) l ∅.

Definition buckets `{Countable K} {B} (before : B -> B -> bool) (m : gmap K B) : list B := sort_by before ((map_to_list m).*2).

(** The first position of a percentile in [n] sorted values:
    [min(max(int(math.Ceil(p*float64(n)))-1, 0), n-1)], [p] one of the two
    constants the code uses. *)
Definition float_mul_int (p : option float64) (n : nat) : option float64 :=
  match p with
  | Some (FFin neg m e) => let '(num, den) := float_ratio m e in round_ratio neg (num * Z.of_nat n) den
  | _ => None
  end.

Definition float_ceil (f : option float64) : Z :=
  match f with
  | Some (FFin false m e) => let '(num, den) := float_ratio m e in (- ((- num) / den))%Z
  | _ => 0
  end.

Definition percentileDisc (values : list Z) (p : option float64) : Z :=
  match values with
  | [] => 0
  | _ =>
      let sorted := sort_by Z.ltb values in
      let n := List.length values in
      let i := (float_ceil (float_mul_int p n) - 1)%Z in
      nth (Z.to_nat (Z.min (Z.max i 0) (Z.of_nat n - 1))) sorted 0%Z
  end.

Definition half : option float64 := round_ratio false 1 2.
Definition ninety_fifth : option float64 := round_ratio false 95 100.

(** When a run opened and closed: the last of each, and whether both are known. *)
Definition span (steps : list Step) : option (Time * Time) :=
  let last_at kind := fold_left (fun t s => if String.eqb (S_Kind s) kind then S_At s else t) steps 0%Z in
  let started := last_at StepRunStarted in
  let ended := last_at StepRunFinished in
  if Time_IsZero started || Time_IsZero ended then None else Some (started, ended).

Section Reading.
Context `{Unicode}.

Definition matchesSearch (first : Step) (q : string) : bool :=
  contains_str (ToLower q) (ToLower (S_RunID first)) || contains_str (ToLower q) (ToLower (S_AgentID first)).

Definition matches (first : Step) (f : RunFilter) : bool :=
  let differs want got := negb (String.eqb want "") && negb (String.eqb got want) in
  if differs (Company (Rf_Scope f)) (Company (S_Scope first)) then false
  else if differs (Area (Rf_Scope f)) (Area (S_Scope first)) then false
  else if differs (Rf_AgentID f) (S_AgentID first) then false
  else if differs (Rf_VersionID f) (S_VersionID first) then false
  else if negb (Time_IsZero (Rf_Since f)) && (S_At first <? Rf_Since f)%Z then false
  else if negb (Time_IsZero (Rf_Until f)) && negb (S_At first <? Rf_Until f)%Z then false
  else if negb (String.eqb (Rf_Search f) "") && negb (matchesSearch first (Rf_Search f)) then false
  else if negb (bool_decide (Rf_Scopes f = [])) && negb (withinAny (S_Scope first) (Rf_Scopes f)) then false
  else true.

(** The runs of the store with a step that match, each with its first step. *)
Definition matching_runs (m : Memory) (f : RunFilter) : list (Step * list Step) :=
  omap (fun steps => match steps with
                     | first :: _ => if matches first f then Some (first, steps) else None
                     | [] => None
                     end) ((map_to_list (m_runs m)).*2).

(** *** Pages of runs (list_memory.go) *)

Definition newest_first (a b : RunSummary) : bool :=
  if Z.eqb (Ru_StartedAt a) (Ru_StartedAt b) then String.ltb (Ru_RunID b) (Ru_RunID a)
  else (Ru_StartedAt b <? Ru_StartedAt a)%Z.

Definition listed (f : RunFilter) (phase : string) (r : Step * list Step) : option RunSummary :=
  let summary := summarise (fst r) (snd r) in
  if negb (String.eqb phase "") && negb (String.eqb (Ru_Phase summary) phase) then None
  else if negb (Time_IsZero (Rf_Until f)) && Time_After (Ru_StartedAt summary) (Rf_Until f) then None
  else if negb (RunCursor_Before (Rf_After f) summary) then None
  else Some summary.

Definition ListRuns (m : Memory) (cancelled : bool) (f : RunFilter) (phase : string) (limit : Z)
    : result LedgerError (list RunSummary) :=
  if cancelled then Err ErrContext
  else Ok (take (limitOrDefault limit) (sort_by newest_first (omap (listed f phase) (matching_runs m f)))).

(** Where the following page starts, or nothing when this one ended the list
    (httpapi/runs.go); the position travels as the token [RunCursor_Encode]
    makes of it. *)
Definition nextPage (summaries : list RunSummary) (limit : Z) : option RunCursor :=
  if (Z.of_nat (List.length summaries) <? limit)%Z then None else RunCursorAt <$> last summaries.

(** A reader who follows the positions it is handed, each page read from the
    store as it is by then; whether the list came to its end. *)
Fixpoint browse (f : RunFilter) (phase : string) (limit : Z) (after : option RunCursor) (stores : list Memory)
    : list RunSummary * bool :=
  match stores with
  | [] => ([], false)
  | m :: stores =>
      match ListRuns m false (f <| Rf_After := after |>) phase limit with
      | Err _ => ([], false)
      | Ok page =>
          match nextPage page limit with
          | None => (page, true)
          | Some c => let '(rows, ended) := browse f phase limit (Some c) stores in ((page ++ rows)%list, ended)
          end
      end
  end.

(** *** Costs *)

Record CostBucket := MkCostBucket { Cb_Key : string; Cb_Cost : Cost; Cb_Runs : Z }.

Definition rollupColumn (groupBy : string) : bool :=
  existsb (String.eqb groupBy) [""; "agent"; "area"; "company"; "day"].

Definition rollupKey (s : RunSummary) (groupBy : string) : string :=
  if String.eqb groupBy "area" then Area (Ru_Scope s)
  else if String.eqb groupBy "company" then Company (Ru_Scope s)
  else if String.eqb groupBy "day" then take_bytes 10 (date_time (Ru_StartedAt s))
  else Ru_AgentID s.

Inductive RollupError := RollupContext | RollupUnbounded | RollupColumn (groupBy : string).

Definition CostRollup (m : Memory) (cancelled : bool) (f : RunFilter) (groupBy : string)
    : result RollupError (list CostBucket) :=
  if cancelled then Err RollupContext
  else if Time_IsZero (Rf_Until f) then Err RollupUnbounded
  else if negb (rollupColumn groupBy) then Err (RollupColumn groupBy)
  else
    let rows := List.filter (fun s => negb (Time_After (Ru_StartedAt s) (Rf_Until f)))
                  (List.map (fun r => summarise (fst r) (snd r)) (matching_runs m f)) in
    Ok (buckets (fun a b => String.ltb (Cb_Key a) (Cb_Key b))
          (group (fun s => rollupKey s groupBy) (fun _ => MkCostBucket "" zeroCost 0)
             (fun b s => MkCostBucket (rollupKey s groupBy) (Cost_Add (Cb_Cost b) (Ru_Cost s)) (add64 (Cb_Runs b) 1))
             rows)).

Definition SpentSince (m : Memory) (cancelled : bool) (scope : Scope) (since : Time) : result LedgerError Consumption :=
  if cancelled then Err ErrContext
  else Ok (fold_left (fun out r =>
             let s := summarise (fst r) (snd r) in
             MkConsumption (add64 (C_Micros out) (Cost_Micros (Ru_Cost s)))
               (add64 (C_Tokens out) (Cost_TotalTokens (Ru_Cost s)))
               (add64 (C_ToolCalls out) (Ru_ToolCalls s)) (add64 (C_Steps out) (Ru_Seq s)) (C_WallClockMS out))
             (matching_runs m (zeroRunFilter <| Rf_Scope := scope |> <| Rf_Since := since |>)) zeroConsumption).

(** *** Counts and durations (stats_memory.go) *)

Record RunStats := MkRunStats {
  Rs_Total : Z; Rs_ByPhase : gmap string Z; Rs_MedianDurationMS : Z; Rs_P95DurationMS : Z; Rs_Ended : Z
}.

Definition Stats (m : Memory) (cancelled : bool) (f : RunFilter) : result LedgerError RunStats :=
  if cancelled then Err ErrContext
  else
    let runs := matching_runs m f in
    let durations := omap (fun r => span (snd r) ≫= fun '(started, ended) =>
                            Some (Duration_Milliseconds (Time_Sub ended started))) runs in
    Ok (MkRunStats (Z.of_nat (List.length runs))
          (group (fun r => phaseOf (snd r)) (fun _ => 0%Z) (fun n _ => add64 n 1) runs)
          (percentileDisc durations half) (percentileDisc durations ninety_fifth)
          (Z.of_nat (List.length durations))).

Definition hour_ns : Z := (3600 * 1000000000)%Z.

Record ThroughputBucket := MkThroughputBucket {
  Tb_At : Time; Tb_ByPhase : gmap string Z; Tb_ByAgent : gmap string Z; Tb_Total : Z; Tb_Micros : Z
}.

Definition tally (k : string) (m : gmap string Z) : gmap string Z := <[k := add64 (default 0%Z (m !! k)) 1]> m.

Definition Throughput (m : Memory) (cancelled : bool) (f : RunFilter) : result LedgerError (list ThroughputBucket) :=
  if cancelled then Err ErrContext
  else
    let hour (r : Step * list Step) := (S_At (fst r) - S_At (fst r) mod hour_ns)%Z in
    Ok (buckets (fun a b => (Tb_At a <? Tb_At b)%Z)
          (group hour (fun r => MkThroughputBucket (hour r) ∅ ∅ 0 0)
             (fun b r => MkThroughputBucket (Tb_At b) (tally (phaseOf (snd r)) (Tb_ByPhase b))
                (tally (S_AgentID (fst r)) (Tb_ByAgent b)) (add64 (Tb_Total b) 1)
                (add64 (Tb_Micros b) (Cost_Micros (Ru_Cost (summarise (fst r) (snd r))))))
             (matching_runs m f))).

Record RecordedDecision := MkRecordedDecision {
  Rd_RunID : RunID; Rd_Seq : Z; Rd_At : Time; Rd_Scope : Scope; Rd_AgentID : AgentID; Rd_Tool : ToolID;
  Rd_Verdict : Verdict; Rd_Rule : string; Rd_PolicyCode : string; Rd_Effect : Effect; Rd_Labels : Labels
}.

Definition decisionOf (step : Step) : RecordedDecision :=
  let p := fst (unmarshal_into zeroGateDecidedPayload d_GateDecidedPayload (S_Payload step)) in
  MkRecordedDecision (S_RunID step) (S_Seq step) (S_At step) (S_Scope step) (S_AgentID step) (GD_Tool p)
    (GD_Verdict p) (GD_Rule p) (GD_PolicyCode p) (GD_Effect p) (GD_Labels p).

Definition later_decision (a b : RecordedDecision) : bool :=
  if Z.eqb (Rd_At a) (Rd_At b) then (Rd_Seq b <? Rd_Seq a)%Z else (Rd_At b <? Rd_At a)%Z.

Definition Decisions (m : Memory) (cancelled : bool) (f : RunFilter) (limit : Z)
    : result LedgerError (list RecordedDecision) :=
  if cancelled then Err ErrContext
  else
    let scoped := f <| Rf_Since := 0%Z |> <| Rf_Until := 0%Z |> in
    let found := List.concat (List.map (fun r =>
      List.map decisionOf (List.filter (fun s => String.eqb (S_Kind s) StepGateDecided && stepWithinWindow s f) (snd r)))
      (matching_runs m scoped)) in
    let sorted := sort_by later_decision found in
    Ok (if (0 <? limit)%Z then take (Z.to_nat limit) sorted else sorted).

(** *** Activity and agreement (activity_memory.go) *)

Record AgentActivity := MkAgentActivity {
  Aa_AgentID : AgentID; Aa_Runs : Z; Aa_Finished : Z; Aa_Waiting : Z; Aa_CostMicros : Z;
  Aa_LastPhase : string; Aa_LastRunAt : Time; aa_lastRun : RunID
}.

Definition newer (s : RunSummary) (best : Time) (bestID : RunID) : bool :=
  Time_After (Ru_StartedAt s) best || (Z.eqb (Ru_StartedAt s) best && String.ltb bestID (Ru_RunID s)).

Definition activity_step (a : AgentActivity) (s : RunSummary) : AgentActivity :=
  let newest := newer s (Aa_LastRunAt a) (aa_lastRun a) in
  MkAgentActivity (Ru_AgentID s) (add64 (Aa_Runs a) 1)
    (if String.eqb (Ru_Phase s) "finished" then add64 (Aa_Finished a) 1 else Aa_Finished a)
    (if String.eqb (Ru_Phase s) "awaiting_approval" || String.eqb (Ru_Phase s) "parked"
     then add64 (Aa_Waiting a) 1 else Aa_Waiting a)
    (add64 (Aa_CostMicros a) (Cost_Micros (Ru_Cost s)))
    (if newest then Ru_Phase s else Aa_LastPhase a)
    (if newest then Ru_StartedAt s else Aa_LastRunAt a)
    (if newest then Ru_RunID s else aa_lastRun a).

Definition Agents_Activity (m : Memory) (cancelled : bool) (f : RunFilter) : result LedgerError (list AgentActivity) :=
  if cancelled then Err ErrContext
  else
    let runs := List.filter (fun r => negb (Rf_DeclaredPairOnly f && fellBack (snd r))) (matching_runs m f) in
    Ok (buckets (fun a b => String.ltb (Aa_AgentID a) (Aa_AgentID b))
          (group Ru_AgentID (fun _ => MkAgentActivity "" 0 0 0 0 "" 0 "") activity_step
             (List.map (fun r => summarise (fst r) (snd r)) runs))).

(** The decisions people made, read from the trail: those of a step that
    records one. *)
Definition decided (step : Step) : option ApprovalDecidedPayload :=
  let '(p, ok) := unmarshal_into zeroApprovalDecidedPayload d_ApprovalDecidedPayload (S_Payload step) in
  if ok then Some p else None.

Definition count_decision (a : Agreement) (d : Step * ApprovalDecidedPayload) : Agreement :=
  if AD_Approved (snd d) then MkAgreement (Ag_Agent a) (add64 (Ag_Approved a) 1) (Ag_Refused a)
  else MkAgreement (Ag_Agent a) (Ag_Approved a) (add64 (Ag_Refused a) 1).

(** Simulations and runs that fell back are not evidence. *)
Definition counted_decisions (m : Memory) (since : Time) : list (Step * ApprovalDecidedPayload) :=
  let runs := List.filter (fun steps => negb (isSimulated steps || fellBack steps)) ((map_to_list (m_runs m)).*2) in
  omap (fun s => d ← decided s; Some (s, d))
    (List.filter (fun s => String.eqb (S_Kind s) StepApprovalDecided && negb (S_At s <? since)%Z) (List.concat runs)).

Definition Ledger_Agreement (m : Memory) (cancelled : bool) (since : Time) : result LedgerError (list Agreement) :=
  if cancelled then Err ErrContext
  else Ok (buckets (fun a b => String.ltb (Ag_Agent a) (Ag_Agent b))
             (group (fun d => S_AgentID (fst d)) (fun d => MkAgreement (S_AgentID (fst d)) 0 0) count_decision
                (counted_decisions m since))).

Definition versionSteps (m : Memory) (f : RunFilter) (kind : StepKind) : list Step :=
  let runFilter := f <| Rf_Since := 0%Z |> <| Rf_Until := 0%Z |> in
  List.concat (List.map (fun r =>
    if isSimulated (snd r) || fellBack (snd r) then []
    else List.filter (fun s => String.eqb (S_Kind s) kind && stepWithinWindow s f) (snd r)) (matching_runs m runFilter)).

Definition versionStepKey (s : Step) : string := S_AgentID s +:+ String "000" (S_VersionID s).

Definition by_version (a b : AgentID * VersionID) : bool :=
  if String.eqb (fst a) (fst b) then String.ltb (snd a) (snd b) else String.ltb (fst a) (fst b).

Record VersionAgreement := MkVersionAgreement {
  Va_Agent : AgentID; Va_Version : VersionID; Va_Approved : Z; Va_Refused : Z
}.

Definition Version_Agreement (m : Memory) (cancelled : bool) (f : RunFilter) : result LedgerError (list VersionAgreement) :=
  if cancelled then Err ErrContext
  else Ok (buckets (fun a b => by_version (Va_Agent a, Va_Version a) (Va_Agent b, Va_Version b))
             (group (fun d => versionStepKey (fst d))
                (fun d => MkVersionAgreement (S_AgentID (fst d)) (S_VersionID (fst d)) 0 0)
                (fun a (d : Step * ApprovalDecidedPayload) =>
                   if AD_Approved (snd d)
                   then MkVersionAgreement (Va_Agent a) (Va_Version a) (add64 (Va_Approved a) 1) (Va_Refused a)
                   else MkVersionAgreement (Va_Agent a) (Va_Version a) (Va_Approved a) (add64 (Va_Refused a) 1))
                (omap (fun s => d ← decided s; Some (s, d)) (versionSteps m f StepApprovalDecided)))).

Record VersionGateBlocks := MkVersionGateBlocks {
  Vb_Agent : AgentID; Vb_Version : VersionID; Vb_Blocks : Z; vb_runs : gset string
}.

Definition Vb_Runs (b : VersionGateBlocks) : Z := Z.of_nat (size (vb_runs b)).

Definition blocked_step (s : Step) : bool :=
  let '(p, ok) := unmarshal_into zeroGateDecidedPayload d_GateDecidedPayload (S_Payload s) in
  ok && Z.eqb (GD_Verdict p) VerdictBlock.

Definition Version_GateBlocks (m : Memory) (cancelled : bool) (f : RunFilter) : result LedgerError (list VersionGateBlocks) :=
  if cancelled then Err ErrContext
  else Ok (buckets (fun a b => by_version (Vb_Agent a, Vb_Version a) (Vb_Agent b, Vb_Version b))
             (group versionStepKey (fun s => MkVersionGateBlocks (S_AgentID s) (S_VersionID s) 0 ∅)
                (fun b s => MkVersionGateBlocks (Vb_Agent b) (Vb_Version b) (add64 (Vb_Blocks b) 1) ({[S_RunID s]} ∪ vb_runs b))
                (List.filter blocked_step (versionSteps m f StepGateDecided)))).
End Reading.
