(* ===== verification/ListingSafety.v ===== *)
(** * Pages of runs and counts of decisions

    Theorems about the readings of [Listing]: a reader who follows the
    positions it is handed sees each run once, whatever is opened and recorded
    in the meantime, and the counts an agent is trusted by are those of the
    decisions in the trail. *)

From Stdlib Require Import ZArith Lia Ascii String.
From stdpp Require Import base list strings gmap sorting.
From S2P Require Import Prelude GoStrings Json Regexp Domain Step Payload State Project Ledger LedgerSafety Ports Watch Agent Open Dispatch OpenSafety Listing.

Local Open Scope string_scope.

(** ** The order of the list *)

(** Rows compare by their positions alone. *)
Definition same_position (a b : RunSummary) : Prop := RunCursorAt a = RunCursorAt b.

Lemma newest_first_lex a b :
  newest_first a b = lex_before [Ru_StartedAt b] [Ru_StartedAt a] (Ru_RunID b) (Ru_RunID a).
Proof. unfold newest_first. simpl. by rewrite Z.eqb_sym. Qed.

Lemma newest_first_asym a b : newest_first a b = true -> newest_first b a = false.
Proof. rewrite !newest_first_lex. apply lex_asym. Qed.

Lemma newest_first_trans x y z :
  newest_first y x = false -> newest_first z y = false -> newest_first z x = false.
Proof. rewrite !newest_first_lex. intros H1 H2. by eapply (lex_trans [_] [_] [_]); [..|exact H2|exact H1]. Qed.

Lemma newest_first_total a b :
  newest_first a b = false -> newest_first b a = false -> Ru_RunID a = Ru_RunID b.
Proof. rewrite !newest_first_lex. intros H1 H2. by eapply (lex_total [_] [_]); [..|exact H2|exact H1]. Qed.

Lemma newest_first_irrefl a : newest_first a a = false.
Proof. destruct (newest_first a a) eqn:E; [|done]. by rewrite <- (newest_first_asym _ _ E). Qed.

Lemma newest_first_position a a' b b' :
  same_position a a' -> same_position b b' -> newest_first a b = newest_first a' b'.
Proof. unfold same_position, RunCursorAt, newest_first. intros [= -> ->] [= -> ->]. done. Qed.

Lemma newest_first_strict x y z :
  newest_first x y = true -> newest_first y z = true -> newest_first x z = true.
Proof.
  intros H1 H2. destruct (newest_first x z) eqn:E; [done|].
  pose proof (newest_first_asym _ _ H1) as H1'.
  pose proof (newest_first_trans _ _ _ E H1') as C. by rewrite H2 in C.
Qed.

Lemma Before_newest c s : RunCursor_Before (Some (RunCursorAt c)) s = newest_first c s.
Proof. unfold RunCursor_Before, newest_first. simpl. by rewrite Z.eqb_sym. Qed.

(** ** Rows *)

Lemma summarise_position first steps :
  Ru_RunID (summarise first steps) = S_RunID first /\ Ru_StartedAt (summarise first steps) = S_At first /\
  Ru_Phase (summarise first steps) = phaseOf steps.
Proof.
  unfold summarise. set (s0 := MkRunSummary _ _ _ _ _ _ _ _ _ _ _ _ _ _ _ _).
  assert (H : forall s, Ru_RunID (fold_left summarise_step steps s) = Ru_RunID s /\
                        Ru_StartedAt (fold_left summarise_step steps s) = Ru_StartedAt s /\
                        Ru_Phase (fold_left summarise_step steps s) = Ru_Phase s).
  { clear. induction steps as [|x l IH]; intros s; simpl; [done|]. destruct (IH (summarise_step s x)) as (-> & -> & ->).
    unfold summarise_step. by repeat case_match. }
  apply (H s0).
Qed.

(** ** Rows of different runs *)

Lemma keyed_NoDup {K V R} (key : R -> K) (h : V -> option R) (l : list (K * V)) :
  NoDup (l.*1) -> (forall k v r, (k, v) ∈ l -> h v = Some r -> key r = k) -> NoDup (key <$> omap h (l.*2)).
Proof.
  induction l as [|[k v] l IH]; intros Hn Hk; [constructor|]. apply NoDup_cons in Hn as [Hnew Hn].
  assert (IH' : NoDup (key <$> omap h (l.*2))) by (apply IH; [done|]; intros; eapply Hk; [by right|done]).
  cbn. destruct (h v) as [r|] eqn:E; [|done]. simpl. constructor; [|done].
  rewrite (Hk k v r) by (done || left). intros (r' & -> & Hr')%list_elem_of_fmap.
  apply list_elem_of_omap in Hr' as (v' & Hv' & E'). apply list_elem_of_fmap in Hv' as ([k' w] & -> & Hin).
  apply Hnew. rewrite (Hk k' w r') by (done || by right). by apply (list_elem_of_fmap_2 fst _ (k', w)).
Qed.

Lemma omap_omap {A B C} (f : A -> option B) (g : B -> option C) (l : list A) :
  omap g (omap f l) = omap (fun a => f a ≫= g) l.
Proof. induction l as [|a l IH]; [done|]. cbn. destruct (f a); cbn; [by rewrite IH|done]. Qed.

Lemma omap_id_some {A} (l : list A) : omap Some l = l.
Proof. induction l as [|a l IH]; [done|]. cbn. by f_equal. Qed.

Lemma sorted_strict l :
  StronglySorted (fun x y => newest_first y x = false) l -> NoDup (Ru_RunID <$> l) ->
  StronglySorted (fun x y => newest_first x y = true) l.
Proof.
  induction 1 as [|x l Hl IH Hx]; intros Hn; constructor; apply NoDup_cons in Hn as [Hnew Hn]; [auto|].
  rewrite list.Forall_forall in Hx |- *. intros y Hy. destruct (newest_first x y) eqn:E; [done|].
  exfalso. apply Hnew. rewrite (newest_first_total x y E (Hx y Hy)). by apply list_elem_of_fmap_2.
Qed.

Section Pages.
  Context `{Unicode}.

(** The runs a reader may expect to find: those of the store that match. *)
Definition shows (m : Memory) (f : RunFilter) (phase : string) (run : RunID) : Prop :=
  exists first more, m_runs m !! run = Some (first :: more) /\ matches first f = true /\
    (phase = "" \/ phaseOf (first :: more) = phase).

(** The stores a reading went through, each of which has become [mend]. *)
Definition read_from (mend : Memory) (stores : list Memory) : Prop :=
  Forall (fun m => chains_ok m /\ exists os, mem_steps m os mend) stores.

(** A row says when its run opened. *)
Definition opened_at (m : Memory) (s : RunSummary) : Prop :=
  exists first more, m_runs m !! Ru_RunID s = Some (first :: more) /\ S_At first = Ru_StartedAt s.

Lemma matches_after f c first : matches first (f <| Rf_After := c |>) = matches first f.
Proof. done. Qed.

Lemma matches_until f first :
  matches first f = true -> negb (Time_IsZero (Rf_Until f)) && Time_After (S_At first) (Rf_Until f) = false.
Proof.
  unfold matches, Time_After. intros M. destruct (Time_IsZero (Rf_Until f)); [done|]. simpl.
  repeat (case_match; try done). simpl in *. lia.
Qed.

Lemma matching_run m f r :
  r ∈ matching_runs m f <->
  exists run, m_runs m !! run = Some (snd r) /\ head (snd r) = Some (fst r) /\ matches (fst r) f = true.
Proof.
  unfold matching_runs. rewrite list_elem_of_omap. split.
  - intros (steps & Hin & Hm). apply list_elem_of_fmap in Hin as ([run steps'] & -> & Hin). simpl in *.
    apply elem_of_map_to_list in Hin. destruct steps' as [|first more]; [done|]. case_match; [|done].
    injection Hm as <-. by exists run.
  - destruct r as [first steps]. simpl. intros (run & Hr & Hh & Hm). exists steps. split.
    + apply list_elem_of_fmap. exists (run, steps). split; [done|]. by apply elem_of_map_to_list.
    + destruct steps; [done|]. injection Hh as ->. by rewrite Hm.
Qed.

Lemma rows_of m f phase s :
  s ∈ omap (listed f phase) (matching_runs m f) <->
  exists run first more, m_runs m !! run = Some (first :: more) /\ matches first f = true /\
    s = summarise first (first :: more) /\ (phase = "" \/ phaseOf (first :: more) = phase) /\
    RunCursor_Before (Rf_After f) s = true.
Proof.
  rewrite list_elem_of_omap. split.
  - intros ([first steps] & Hin & Hl). apply matching_run in Hin as (run & Hr & Hh & Hm). cbn [fst snd] in *.
    destruct steps as [|x more]; [done|]. injection Hh as ->. exists run, first, more.
    unfold listed in Hl. cbn [fst snd] in Hl. destruct (summarise_position first (first :: more)) as (_ & _ & Ep).
    rewrite Ep in Hl. set (row := summarise _ _) in *. clearbody row.
    destruct (negb (String.eqb phase "") && _) eqn:Hp; [done|]. destruct (_ && _) in Hl; [done|].
    destruct (RunCursor_Before _ _) eqn:Hb in Hl; [|done]. injection Hl as ->. repeat split; try done.
    destruct (String.eqb_spec phase ""); [by left|right]. simpl in Hp. by apply negb_false_iff, String.eqb_eq in Hp.
  - intros (run & first & more & Hr & Hm & -> & Hp & Hb). exists (first, first :: more). split.
    { apply matching_run. by exists run. }
    unfold listed. cbn [fst snd]. destruct (summarise_position first (first :: more)) as (_ & Ea & Ep).
    rewrite Ep, Ea, matches_until, Hb by done.
    destruct Hp as [->| ->]; [done|]. by rewrite String.eqb_refl, andb_false_r.
Qed.

(** A page is the first listing of the sorted list. *)
Definition listing m f phase := sort_by newest_first (omap (listed f phase) (matching_runs m f)).

Lemma page_of m f phase limit : ListRuns m false f phase limit = Ok (take (limitOrDefault limit) (listing m f phase)).
Proof. done. Qed.

Lemma rows_sorted m f phase : StronglySorted (fun x y => newest_first y x = false) (listing m f phase).
Proof. apply sort_by_sorted; [apply newest_first_asym|apply newest_first_trans]. Qed.

Lemma runs_distinct m f phase : chains_ok m -> NoDup (Ru_RunID <$> listing m f phase).
Proof.
  intros Hm. unfold listing. rewrite sort_by_perm. unfold matching_runs. rewrite omap_omap.
  apply keyed_NoDup; [apply NoDup_fst_map_to_list|]. intros run steps r Hin Hr.
  apply elem_of_map_to_list in Hin. destruct (Hm run steps Hin) as (_ & _ & Hf).
  destruct steps as [|first more]; [done|]. apply Forall_cons in Hf as [Hf _]. rewrite <- Hf.
  cbn in Hr. destruct (matches first f); [|done]. simpl in Hr. unfold listed in Hr. cbn [fst snd] in Hr.
  destruct (summarise_position first (first :: more)) as (E & _). set (s := summarise _ _) in *. clearbody s.
  repeat (case_match; [done|]). by injection Hr as <-.
Qed.

Lemma rows_strict m f phase : chains_ok m -> StronglySorted (fun x y => newest_first x y = true) (listing m f phase).
Proof. intros Hm. apply sorted_strict; [apply rows_sorted|by apply runs_distinct]. Qed.

(** *** Positions stay *)

Lemma opened_at_kept m os m' s : mem_steps m os m' -> opened_at m s -> opened_at m' s.
Proof.
  intros Hs (first & more & Hr & Ha). destruct (mem_steps_prefix _ _ _ _ _ Hs Hr) as (l & Hl).
  by exists first, (more ++ l)%list.
Qed.

Lemma opened_at_position m s s' :
  opened_at m s -> opened_at m s' -> Ru_RunID s = Ru_RunID s' -> same_position s s'.
Proof.
  intros (f1 & l1 & H1 & A1) (f2 & l2 & H2 & A2) E. rewrite E, H2 in H1. injection H1 as <- <-.
  unfold same_position, RunCursorAt. congruence.
Qed.

Lemma row_opened_at m f phase s : chains_ok m -> s ∈ listing m f phase -> opened_at m s.
Proof.
  unfold listing. rewrite sort_by_perm, rows_of. intros Hm (run & first & more & Hr & _ & -> & _).
  destruct (summarise_position first (first :: more)) as (E1 & E2 & _).
  destruct (Hm _ _ Hr) as (_ & _ & Hf). apply Forall_cons in Hf as [Hf _].
  exists first, more. by rewrite E1, E2, Hf.
Qed.

Lemma row_is_a_run mend stores f phase m s :
  read_from mend stores -> m ∈ stores -> s ∈ listing m (f <| Rf_After := None |>) phase ->
  exists m' first more, m' ∈ stores /\ m_runs m' !! Ru_RunID s = Some (first :: more) /\
    matches first f = true /\ s = summarise first (first :: more) /\ (phase = "" \/ Ru_Phase s = phase).
Proof.
  unfold read_from. rewrite list.Forall_forall. intros Hr Hin Hs. destruct (Hr m Hin) as (Hm & _).
  unfold listing in Hs. rewrite sort_by_perm, rows_of in Hs. destruct Hs as (run & first & more & H1 & H2 & -> & H4 & _).
  destruct (summarise_position first (first :: more)) as (E1 & _ & E3).
  destruct (Hm _ _ H1) as (_ & _ & Hf). apply Forall_cons in Hf as [Hf _].
  exists m, first, more. rewrite E1, E3, Hf. auto.
Qed.

(** Rows in order are of different runs, each with one moment it opened at. *)
Lemma sorted_ids_differ mend l :
  StronglySorted (fun x y => newest_first x y = true) l -> (forall s, s ∈ l -> opened_at mend s) ->
  NoDup (Ru_RunID <$> l).
Proof.
  induction 1 as [|x l Hl IH Hx]; intros Ho; simpl; constructor; [|apply IH; intros; apply Ho; by right].
  intros (y & E & Hy)%list_elem_of_fmap. rewrite list.Forall_forall in Hx. specialize (Hx y Hy).
  rewrite (newest_first_position x y y y) in Hx; [by rewrite newest_first_irrefl in Hx| |done].
  eapply opened_at_position; [apply Ho; left|apply Ho; by right|done].
Qed.

Lemma shows_kept m os m' f run : mem_steps m os m' -> shows m f "" run -> shows m' f "" run.
Proof.
  intros Hs (first & more & Hr & Hm & _). destruct (mem_steps_prefix _ _ _ _ _ Hs Hr) as (l & Hl).
  exists first, (more ++ l)%list. auto.
Qed.

Lemma shown_row m f phase run :
  chains_ok m -> shows m f phase run -> exists s, Ru_RunID s = run /\ opened_at m s /\
    forall c, RunCursor_Before c s = true -> s ∈ listing m (f <| Rf_After := c |>) phase.
Proof.
  intros Hm (first & more & Hr & Hf & Hp). exists (summarise first (first :: more)).
  destruct (summarise_position first (first :: more)) as (E1 & E2 & _).
  destruct (Hm _ _ Hr) as (_ & _ & Hc). apply Forall_cons in Hc as [Hc _]. repeat split; [congruence| |].
  - exists first, more. by rewrite E1, E2, Hc.
  - intros c Hb. unfold listing. rewrite sort_by_perm, rows_of. exists run, first, more. auto.
Qed.

(** *** Reading on *)

Lemma Before_position c s s' : same_position s s' -> RunCursor_Before c s = RunCursor_Before c s'.
Proof. unfold same_position, RunCursorAt, RunCursor_Before. by intros [= -> ->]. Qed.

Lemma Before_onwards after x s :
  RunCursor_Before after x = true -> newest_first x s = true -> RunCursor_Before after s = true.
Proof.
  destruct after as [[t r]|]; [|done]. set (c := x <| Ru_StartedAt := t |> <| Ru_RunID := r |>).
  change (Some (MkRunCursor t r)) with (Some (RunCursorAt c)). rewrite !Before_newest. apply newest_first_strict.
Qed.

Lemma row_past m f c phase s :
  s ∈ listing m (f <| Rf_After := c |>) phase ->
  RunCursor_Before c s = true /\ s ∈ listing m (f <| Rf_After := None |>) phase.
Proof.
  unfold listing. rewrite !sort_by_perm, !rows_of. intros (run & first & more & H1 & H2 & H3 & H4 & H5).
  split; [done|]. exists run, first, more. auto.
Qed.

Lemma nextPage_None page limit : nextPage page limit = None -> (Z.of_nat (List.length page) < limit)%Z \/ page = [].
Proof.
  unfold nextPage. case_match; [left; lia|]. destruct page; [by right|]. by rewrite last_cons; case_match.
Qed.

Lemma nextPage_Some page limit c :
  nextPage page limit = Some c -> exists front s, page = (front ++ [s])%list /\ c = RunCursorAt s.
Proof.
  unfold nextPage. case_match; [done|]. intros (s & Hl & ->)%fmap_Some.
  apply last_Some in Hl as (front & ->). eauto.
Qed.

(** What a page says: its listing follow the position asked for, in order, and
    whatever it leaves out follows its last row. *)
Lemma page_spec m f c phase n :
  chains_ok m ->
  let page := take n (listing m (f <| Rf_After := c |>) phase) in
  StronglySorted (fun x y => newest_first x y = true) page /\
  (forall s, s ∈ page -> RunCursor_Before c s = true /\ s ∈ listing m (f <| Rf_After := None |>) phase) /\
  (forall run, shows m f phase run -> exists s, Ru_RunID s = run /\ opened_at m s /\
     (RunCursor_Before c s = true -> s ∈ page \/ (n <= List.length page)%nat /\ forall x, x ∈ page -> newest_first x s = true)).
Proof.
  intros Hm page. pose proof (rows_strict m (f <| Rf_After := c |>) phase Hm) as Hs.
  rewrite <- (take_drop n (listing _ _ _)) in Hs. fold page in Hs. split; [by eapply StronglySorted_app_1_l|]. split.
  - intros s Hin. apply row_past. unfold page in Hin. rewrite <- (take_drop n (listing _ _ _)). apply elem_of_app. by left.
  - intros run Hsh. destruct (shown_row m f phase run Hm Hsh) as (s & Er & Ho & Hin). exists s. repeat split; [done..|].
    intros Hb. specialize (Hin c Hb). rewrite <- (take_drop n (listing _ _ _)) in Hin.
    apply elem_of_app in Hin as [Hin|Hin]; [by left|right]. split.
    + unfold page. rewrite length_take. destruct (drop n _) eqn:E; [by apply elem_of_nil in Hin|].
      apply (f_equal List.length) in E. rewrite length_drop in E. cbn [List.length] in E. lia.
    + intros x Hx. by eapply StronglySorted_app_1_elem_of in Hs.
Qed.

Lemma limit_kept limit : (1 <= limit <= 500)%Z -> Z.of_nat (limitOrDefault limit) = limit.
Proof. intros Hl. unfold limitOrDefault. destruct (Z.leb_spec limit 0), (Z.ltb_spec 500 limit); try lia. cbn [orb]. lia. Qed.

(** Where a run opened by then stands is where it stands later. *)
Lemma page_reaches mend m os f c phase n s :
  chains_ok m -> mem_steps m os mend -> opened_at mend s -> shows m f phase (Ru_RunID s) ->
  RunCursor_Before c s = true ->
  let page := take n (listing m (f <| Rf_After := c |>) phase) in
  Ru_RunID s ∈ Ru_RunID <$> page \/ (n <= List.length page)%nat /\ forall x, x ∈ page -> newest_first x s = true.
Proof.
  intros Hm Hos Hs Hsh Hb page. destruct (page_spec m f c phase n Hm) as (_ & _ & Pc).
  destruct (Pc _ Hsh) as (s' & Es & Ho & Hin).
  assert (P : same_position s' s) by (eapply opened_at_position; [by eapply opened_at_kept|done..]).
  rewrite (Before_position _ _ _ P) in Hin. destruct (Hin Hb) as [Hp|[Hn Hx]].
  - left. rewrite <- Es. by apply list_elem_of_fmap_2.
  - right. split; [done|]. intros x Hxp. rewrite <- (newest_first_position x x s' s); by auto.
Qed.

(** Joining a page to what follows its last row. *)
Lemma sorted_join page z found :
  StronglySorted (fun x y => newest_first x y = true) (page ++ [z]) ->
  StronglySorted (fun x y => newest_first x y = true) found ->
  (forall s, s ∈ found -> newest_first z s = true) ->
  StronglySorted (fun x y => newest_first x y = true) ((page ++ [z]) ++ found).
Proof.
  intros Hp Hf Hz. apply StronglySorted_app_2; [|done..].
  intros x s Hx Hs. apply elem_of_app in Hx as [Hx|Hx%list_elem_of_singleton]; [|subst; auto].
  eapply newest_first_strict; [|by apply Hz].
  eapply StronglySorted_app_1_elem_of in Hp; [exact Hp|done|]. by apply list_elem_of_singleton.
Qed.

Lemma browse_spec mend f phase limit :
  (1 <= limit <= 500)%Z -> forall stores after found ended,
  read_from mend stores -> browse f phase limit after stores = (found, ended) ->
  StronglySorted (fun x y => newest_first x y = true) found /\
  (forall s, s ∈ found -> RunCursor_Before after s = true /\
     exists m, m ∈ stores /\ s ∈ listing m (f <| Rf_After := None |>) phase) /\
  (ended = true -> forall s, (forall m, m ∈ stores -> shows m f phase (Ru_RunID s)) ->
     opened_at mend s -> RunCursor_Before after s = true -> Ru_RunID s ∈ Ru_RunID <$> found).
Proof.
  intros Hl stores. induction stores as [|m stores IH]; intros after found ended Hr Hb.
  { injection Hb as <- <-. split; [constructor|]. split; [by intros s ?%elem_of_nil|done]. }
  apply Forall_cons in Hr as [[Hm [os Hos]] Hr]. cbn [browse] in Hb. rewrite page_of in Hb.
  pose proof (limit_kept limit Hl) as Hn.
  destruct (page_spec m f after phase (limitOrDefault limit) Hm) as (Ps & Pr & _).
  pose proof (fun s => page_reaches mend m os f after phase (limitOrDefault limit) s Hm Hos) as Pc.
  set (page := take _ _) in *. clearbody page.
  destruct (nextPage page limit) as [c|] eqn:En.
  - destruct (browse f phase limit (Some c) stores) as [found' ended'] eqn:Eb. injection Hb as <- <-.
    destruct (IH _ _ _ Hr Eb) as (IHs & IHr & IHc). apply nextPage_Some in En as (front & z & -> & ->).
    assert (Hz : forall s, s ∈ found' -> newest_first z s = true).
    { intros s Hs. rewrite <- Before_newest. by apply IHr. }
    assert (Hend : z ∈ (front ++ [z])%list) by (apply elem_of_app; right; by apply list_elem_of_singleton).
    split; [by apply sorted_join|]. split.
    + intros s [Hs|Hs]%elem_of_app.
      * destruct (Pr s Hs) as [B R]. split; [done|]. exists m. split; [left|done].
      * destruct (IHr s Hs) as [B (m' & Hm' & R)]. split; [|exists m'; split; [by right|done]].
        eapply Before_onwards; [by apply (Pr z)|by apply Hz].
    + intros He s Hsh Ho Hbf. rewrite fmap_app. apply elem_of_app.
      destruct (Pc s Ho (Hsh m ltac:(left)) Hbf) as [Hp|[_ Hx]]; [by left|right].
      apply IHc; [done|intros m' Hm'; apply Hsh; by right|done|]. rewrite Before_newest. by apply Hx.
  - injection Hb as <- <-. split; [done|]. split.
    + intros s Hs. destruct (Pr s Hs) as [B R]. split; [done|]. exists m. split; [left|done].
    + intros _ s Hsh Ho Hbf. destruct (Pc s Ho (Hsh m ltac:(left)) Hbf) as [Hp|[Hlen _]]; [done|exfalso].
      apply nextPage_None in En as [|En]; [lia|]. rewrite En in Hlen. simpl in Hlen. lia.
Qed.

(** The stores of the pages, each later than the one before. *)
Fixpoint evolves (m : Memory) (stores : list Memory) : Prop :=
  match stores with
  | [] => True
  | m' :: stores => (exists os, mem_steps m os m') /\ evolves m' stores
  end.

Lemma mem_steps_trans m1 os1 m2 os2 m3 :
  mem_steps m1 os1 m2 -> mem_steps m2 os2 m3 -> mem_steps m1 (os1 ++ os2)%list m3.
Proof. induction 1; intros H23; [done|]. econstructor; [done|]. by apply IHmem_steps. Qed.

(** Every store of the reading has become the last. *)
Lemma evolves_to m stores :
  reachable m -> evolves m stores -> exists mend, read_from mend (m :: stores) /\ mend ∈ m :: stores.
Proof.
  revert m. induction stores as [|m' stores IH]; intros m Hm Hev.
  - exists m. split; [|left]. apply list.Forall_singleton. split; [by apply reachable_chains|]. exists []. constructor.
  - destruct Hev as [[os Hos] Hev]. assert (Hm' : reachable m') by (by eapply reachable_steps).
    destruct (IH m' Hm' Hev) as (mend & Hr & Hin). exists mend. split; [|by right].
    apply Forall_cons. split; [|done]. split; [by apply reachable_chains|].
    apply Forall_cons in Hr as [(_ & os' & Hos') _]. eexists. by eapply mem_steps_trans.
Qed.

Lemma evolves_shows m stores f run :
  evolves m stores -> shows m f "" run -> forall m', m' ∈ m :: stores -> shows m' f "" run.
Proof.
  revert m. induction stores as [|m1 stores IH]; intros m Hev Hsh m' Hm'.
  - apply list_elem_of_singleton in Hm'. by subst.
  - apply elem_of_cons in Hm' as [->|Hm']; [done|]. destruct Hev as [[os Hos] Hev].
    apply (IH m1); [done|by eapply shows_kept|done].
Qed.

(** C23. A reader who starts with the newest page and follows each position to its
    end, while runs are opened and recorded between one page and the next, is
    shown every run that matched from the first page to the last exactly once,
    newest first, each as the store had it when its page was read; without a
    phase to match that is every matching run there was at the start. *)
Theorem paging_shows_each_run_once m stores f phase limit found :
  reachable m -> evolves m stores -> (1 <= limit <= 500)%Z ->
  browse f phase limit None (m :: stores) = (found, true) ->
  NoDup (Ru_RunID <$> found) /\
  StronglySorted (fun x y => newest_first x y = true) found /\
  (forall s, s ∈ found -> exists m' first more, m' ∈ m :: stores /\ m_runs m' !! Ru_RunID s = Some (first :: more) /\
     matches first f = true /\ s = summarise first (first :: more) /\ (phase = "" \/ Ru_Phase s = phase)) /\
  (forall run, (forall m', m' ∈ m :: stores -> shows m' f phase run) -> run ∈ Ru_RunID <$> found) /\
  (phase = "" -> forall run, shows m f phase run -> run ∈ Ru_RunID <$> found).
Proof.
  intros Hm Hev Hl Hb. destruct (evolves_to m stores Hm Hev) as (mend & Hr & Hend).
  destruct (browse_spec mend f phase limit Hl _ _ _ _ Hr Hb) as (Hs & Hrow & Hall).
  assert (Hopen : forall s, s ∈ found -> opened_at mend s).
  { intros s Hin. destruct (Hrow s Hin) as (_ & m' & Hm' & Hin').
    unfold read_from in Hr. rewrite list.Forall_forall in Hr. destruct (Hr m' Hm') as (Hc & os & Hos).
    eapply opened_at_kept; [exact Hos|]. by eapply row_opened_at. }
  assert (Hfind : forall run, (forall m', m' ∈ m :: stores -> shows m' f phase run) -> run ∈ Ru_RunID <$> found).
  { intros run Hsh. unfold read_from in Hr. rewrite list.Forall_forall in Hr. destruct (Hr mend Hend) as (Hc & _).
    destruct (shown_row mend f phase run Hc (Hsh mend Hend)) as (s & <- & Ho & _). by apply (Hall eq_refl). }
  split; [by eapply sorted_ids_differ|]. split; [done|]. split; [|split; [done|]].
  - intros s Hin. destruct (Hrow s Hin) as (_ & m' & Hm' & Hin'). by eapply row_is_a_run.
  - intros -> run Hsh. apply Hfind. by apply evolves_shows.
Qed.
End Pages.

(** ** Counting *)

(** What a bucket holds is the fold over the elements of its key alone. *)
Lemma group_from `{Countable K} {A B} (key : A -> K) (init : A -> B) (f : B -> A -> B) l :
  forall (m : gmap K B) k,
  fold_left (fun m a => <[key a := f (default (init a) (m !! key a)) a]> m) l m !! k =
  match m !! k with
  | Some b => Some (fold_left f (List.filter (fun a => bool_decide (key a = k)) l) b)
  | None =>
      match List.filter (fun a => bool_decide (key a = k)) l with
      | [] => None
      | (a :: _) as l' => Some (fold_left f l' (init a))
      end
  end.
Proof.
  induction l as [|a l IH]; intros m k; simpl; [by destruct (m !! k)|]. rewrite IH.
  case_bool_decide as E.
  - rewrite E, lookup_insert_eq. by destruct (m !! k).
  - rewrite lookup_insert_ne by done. by destruct (m !! k).
Qed.

Lemma group_lookup `{Countable K} {A B} (key : A -> K) (init : A -> B) (f : B -> A -> B) l k :
  group key init f l !! k =
  match List.filter (fun a => bool_decide (key a = k)) l with
  | [] => None
  | (a :: _) as l' => Some (fold_left f l' (init a))
  end.
Proof. unfold group. by rewrite group_from, lookup_empty. Qed.

Lemma buckets_elem `{Countable K} {B} (before : B -> B -> bool) (m : gmap K B) b :
  b ∈ buckets before m <-> exists k, m !! k = Some b.
Proof.
  unfold buckets. rewrite sort_by_perm, list_elem_of_fmap. split.
  - intros ([k b'] & -> & Hin). apply elem_of_map_to_list in Hin. by exists k.
  - intros [k Hk]. exists (k, b). split; [done|]. by apply elem_of_map_to_list.
Qed.

Abbreviation decision := (Step * ApprovalDecidedPayload)%type (only parsing).

Definition answered (ok : bool) (ds : list decision) : Z :=
  Z.of_nat (List.length (List.filter (fun d => Bool.eqb (AD_Approved (snd d)) ok) ds)).

Lemma add64_below a b : (0 <= a)%Z -> (0 <= b)%Z -> (a + b < 2 ^ 63)%Z -> add64 a b = (a + b)%Z.
Proof. intros Ha Hb Hs. apply wrap64_id, in_int64_spec. lia. Qed.

Lemma count_decisions (ds : list decision) a :
  (0 <= Ag_Approved a)%Z -> (0 <= Ag_Refused a)%Z ->
  (Ag_Approved a + Ag_Refused a + Z.of_nat (List.length ds) < 2 ^ 63)%Z ->
  fold_left count_decision ds a =
  MkAgreement (Ag_Agent a) (Ag_Approved a + answered true ds) (Ag_Refused a + answered false ds).
Proof.
  revert a. induction ds as [|d ds IH]; intros [g y n] Hy Hn Hb; unfold answered in *;
    cbn [Ag_Agent Ag_Approved Ag_Refused List.length List.filter fold_left] in *.
  - simpl. by rewrite !Z.add_0_r.
  - rewrite Nat2Z.inj_succ in Hb. unfold count_decision at 2. destruct (AD_Approved (snd d));
      cbn [Ag_Agent Ag_Approved Ag_Refused Bool.eqb]; rewrite add64_below by lia;
      rewrite IH by (cbn [Ag_Approved Ag_Refused]; lia); cbn [Ag_Agent Ag_Approved Ag_Refused List.length]; f_equal; lia.
Qed.

Lemma filter_decide_eq {A} (key : A -> string) k l :
  List.filter (fun a => bool_decide (key a = k)) l = List.filter (fun a => String.eqb (key a) k) l.
Proof. induction l as [|a l IH]; simpl; [done|]. rewrite IH. by destruct (String.eqb_spec (key a) k); case_bool_decide. Qed.

Lemma length_filter_le {A} (f : A -> bool) l : (List.length (List.filter f l) <= List.length l)%nat.
Proof. induction l as [|a l IH]; simpl; [lia|]. destruct (f a); simpl; lia. Qed.

(** The counts an agent's autonomy is moved by are the counts of the trail: an
    agent has a row exactly when somebody decided about it since then in a real
    run on its declared pair, one row, and the row holds the number of those
    decisions that approve and the number that refuse - also those a standing
    grant made. *)
Theorem agreement_counts_the_trail m since listing :
  Ledger_Agreement m false since = Ok listing ->
  (Z.of_nat (List.length (counted_decisions m since)) < 2 ^ 63)%Z ->
  NoDup (Ag_Agent <$> listing) /\
  forall a, a ∈ listing <->
    let mine := List.filter (fun d => String.eqb (S_AgentID (fst d)) (Ag_Agent a)) (counted_decisions m since) in
    mine <> [] /\ Ag_Approved a = answered true mine /\ Ag_Refused a = answered false mine.
Proof.
  unfold Ledger_Agreement. intros [= <-] Hb. set (ds := counted_decisions m since) in *. clearbody ds.
  assert (Hg : forall k, group (fun d : decision => S_AgentID (fst d)) (fun d => MkAgreement (S_AgentID (fst d)) 0 0) count_decision ds !! k =
    match List.filter (fun d => String.eqb (S_AgentID (fst d)) k) ds with
    | [] => None
    | l => Some (MkAgreement k (answered true l) (answered false l))
    end).
  { intros k. rewrite group_lookup, filter_decide_eq.
    destruct (List.filter _ ds) as [|d l] eqn:E; [done|]. rewrite count_decisions; cbn [Ag_Agent Ag_Approved Ag_Refused].
    - assert (Hd : In d (List.filter (fun d : decision => String.eqb (S_AgentID (fst d)) k) ds)) by (rewrite E; by left).
      apply filter_In in Hd as [_ Hd%String.eqb_eq]. by rewrite Hd.
    - lia.
    - lia.
    - pose proof (length_filter_le (fun d : decision => String.eqb (S_AgentID (fst d)) k) ds). rewrite E in H. lia. }
  split.
  - unfold buckets. rewrite sort_by_perm. rewrite <- (omap_id_some ((map_to_list _).*2)).
    apply keyed_NoDup; [apply NoDup_fst_map_to_list|]. intros k b r Hin [= <-].
    apply elem_of_map_to_list in Hin. rewrite Hg in Hin. case_match; [done|]. by injection Hin as <-.
  - intros a. rewrite buckets_elem. split.
    + intros [k Hk]. rewrite Hg in Hk. case_match eqn:E; [done|]. injection Hk as <-. cbn [Ag_Agent Ag_Approved Ag_Refused].
      by rewrite E.
    + intros (Hne & Ha & Hr). exists (Ag_Agent a). rewrite Hg. case_match; [done|]. destruct a. simpl in *. congruence.
Qed.

(** ** Witnesses *)

Definition opened_0 : Step := Eval vm_compute in seal None (open_draft "run-0").
Definition demo_late : Memory := store_step demo_3 opened_0.

Lemma demo_late_step : append demo_3 false 0 None None (open_draft "run-0") = Ok (demo_late, opened_0).
Proof. vm_compute. reflexivity. Qed.

(** Pages of one row; a third run opens after the first page, at the instant the
    others opened at. *)
Lemma paging_shows_each_run_once_witness :
  let found := fst (browse (H := ascii_unicode) zeroRunFilter "" 1 None [demo_3; demo_late; demo_late; demo_late]) in
  Ru_RunID <$> found = ["run-2"; "run-1"; "run-0"] /\ NoDup (Ru_RunID <$> found) /\ "run-1" ∈ Ru_RunID <$> found.
Proof.
  assert (Hb : browse (H := ascii_unicode) zeroRunFilter "" 1 None [demo_3; demo_late; demo_late; demo_late] =
    (fst (browse (H := ascii_unicode) zeroRunFilter "" 1 None [demo_3; demo_late; demo_late; demo_late]), true)) by (vm_compute; reflexivity).
  assert (Hev : evolves demo_3 [demo_late; demo_late; demo_late]).
  { split; [|split; [|split; [|done]]]; [|exists []; constructor..].
    eexists. apply (steps_cons _ 0 (OpAppend None None (open_draft "run-0")) demo_late); [econstructor; apply demo_late_step|constructor]. }
  destruct (paging_shows_each_run_once (H := ascii_unicode) demo_3 [demo_late; demo_late; demo_late] zeroRunFilter "" 1 _
              demo_reachable Hev ltac:(lia) Hb) as (H1 & _ & _ & _ & H5).
  split; [vm_compute; reflexivity|]. split; [exact H1|]. apply H5; [done|].
  exists opened_1, [claimed_1]. split; [vm_compute; reflexivity|]. split; [vm_compute; reflexivity|by left].
Defined.

(** Nobody looked at the one decision here: a standing grant made it. *)
Definition granted : Step :=
  run_step "run-1" StepApprovalDecided
    (print_json (JObj [("approved", JBool true); ("by", JStr "ana"); ("standing_grant", JStr "grant-7")])) "".
Definition demo_granted : Memory := store_step demo_3 granted.

Lemma agreement_counts_the_trail_witness :
  let listing := [MkAgreement "triage" 1 0] in
  Ledger_Agreement demo_granted false 0 = Ok listing /\
  AD_StandingGrant <$> (snd <$> counted_decisions demo_granted 0) = ["grant-7"] /\ NoDup (Ag_Agent <$> listing).
Proof.
  assert (E : Ledger_Agreement demo_granted false 0 = Ok [MkAgreement "triage" 1 0]) by (vm_compute; reflexivity).
  split; [exact E|]. split; [vm_compute; reflexivity|].
  apply (agreement_counts_the_trail demo_granted 0 _ E). vm_compute. reflexivity.
Defined.
