(* ===== verification/EventCycle.v ===== *)
(** * Event cycles

    src/internal/domain/event_cycle.go and event_cycle_graph.go: the cycles of
    the static event graph that pass through one agent, found within a budget of
    work. The graph is kept as the agents declare it (what each emits, what each
    listens to); every declaration read, listener looked at and edge followed
    spends one unit. Queues and paths are walked on fuel: a queue holds each
    agent of the wiring at most once, so its size and one are enough. *)

From Stdlib Require Import ZArith Lia String Sorting.Sorted.
From stdpp Require Import base list strings gmap.
From S2P Require Import Prelude GoStrings Domain.

Local Open Scope string_scope.

Record AgentWiring := MkAgentWiring { AW_Emits : list string; AW_Listens : list string; AW_Scope : Scope }.
Abbreviation EventWiring := (gmap AgentID AgentWiring).
Abbreviation EventCycle := (list AgentID).

Definition MaxEventCycles : nat := 16.
Definition MaxCycleWork : Z := 100000.

Record EventCycleSearch := MkSearch { ES_Cycles : list EventCycle; ES_Truncated : bool; ES_Work : Z }.

(** ** The graph (event_cycle_graph.go) *)

Record cycleGraph := MkGraph {
  g_wiring : EventWiring;
  g_listeners : gmap string (list AgentID);
  g_emitters : gmap string (list AgentID);
  g_kept : gset AgentID;
  g_next : gmap AgentID (list AgentID);
  g_work : Z;
  g_limit : Z;
  g_exhausted : bool
}.

#[export] Instance cycleGraph_eta : Eta cycleGraph := fun g =>
  MkGraph (g_wiring g) (g_listeners g) (g_emitters g) (g_kept g) (g_next g) (g_work g) (g_limit g)
    (g_exhausted g).

Definition spend (g : cycleGraph) : cycleGraph * bool :=
  if (g_limit g <=? g_work g)%Z then (g <| g_exhausted := true |>, false)
  else (g <| g_work := (g_work g + 1)%Z |>, true).

Definition allow (g : cycleGraph) (limit : Z) : cycleGraph :=
  g <| g_limit := limit |> <| g_exhausted := false |>.

(** What an agent declares; one nobody declared, nothing. *)
Definition emits (w : EventWiring) (a : AgentID) : list string := from_option AW_Emits [] (w !! a).
Definition listens (w : EventWiring) (a : AgentID) : list string := from_option AW_Listens [] (w !! a).

Definition agents_of (index : gmap string (list AgentID)) (e : string) : list AgentID :=
  from_option id [] (index !! e).

Definition appendOnce (agents : list AgentID) (a : AgentID) : list AgentID :=
  match last agents with
  | Some b => if String.eqb b a then agents else agents ++ [a]
  | None => agents ++ [a]
  end.

Definition note_listener (a : AgentID) (e : string) (g : cycleGraph) : cycleGraph :=
  g <| g_listeners := <[e := appendOnce (agents_of (g_listeners g) e) a]> (g_listeners g) |>.
Definition note_emitter (a : AgentID) (e : string) (g : cycleGraph) : cycleGraph :=
  g <| g_emitters := <[e := appendOnce (agents_of (g_emitters g) e) a]> (g_emitters g) |>.

(** One unit of work per item, until the budget is gone. *)
Fixpoint spending {A} (f : A -> cycleGraph -> cycleGraph) (l : list A) (g : cycleGraph) : cycleGraph * bool :=
  match l with
  | [] => (g, true)
  | x :: l =>
      let '(g, ok) := spend g in
      if ok then spending f l (f x g) else (g, false)
  end.

Fixpoint index_agents (agents : list AgentID) (g : cycleGraph) : cycleGraph * bool :=
  match agents with
  | [] => (g, true)
  | a :: rest =>
      let '(g, ok) := spending (note_listener a) (listens (g_wiring g) a) g in
      if negb ok then (g, false)
      else
        let '(g, ok) := spending (note_emitter a) (emits (g_wiring g) a) g in
        if negb ok then (g, false) else index_agents rest g
  end.

Definition index (g : cycleGraph) : cycleGraph * bool :=
  index_agents (sort_str (elements (dom (g_wiring g)))) g.

(** [reach]'s variables: the graph it spends from, the agents seen, the events
    read and the queue. *)
Record reaching := MkReaching {
  r_graph : cycleGraph;
  r_seen : gset AgentID;
  r_read : gset string;
  r_queue : list AgentID
}.

Fixpoint reach_agents (tos : list AgentID) (r : reaching) : reaching * bool :=
  match tos with
  | [] => (r, true)
  | to :: rest =>
      let '(g, ok) := spend (r_graph r) in
      if negb ok then (MkReaching g (r_seen r) (r_read r) (r_queue r), false)
      else if bool_decide (to ∈ r_seen r) then reach_agents rest (MkReaching g (r_seen r) (r_read r) (r_queue r))
      else reach_agents rest (MkReaching g ({[to]} ∪ r_seen r) (r_read r) (r_queue r ++ [to]))
  end.

Fixpoint reach_events (agentsOf : gmap string (list AgentID)) (events : list string) (r : reaching)
    : reaching * bool :=
  match events with
  | [] => (r, true)
  | e :: rest =>
      if bool_decide (e ∈ r_read r) then reach_events agentsOf rest r
      else
        let '(r, ok) := reach_agents (agents_of agentsOf e)
                          (MkReaching (r_graph r) (r_seen r) ({[e]} ∪ r_read r) (r_queue r)) in
        if negb ok then (r, false) else reach_events agentsOf rest r
  end.

Fixpoint reach_loop (fuel : nat) (events : AgentID -> list string) (agentsOf : gmap string (list AgentID))
    (r : reaching) : reaching :=
  match fuel, r_queue r with
  | S fuel, a :: rest =>
      if g_exhausted (r_graph r) then r
      else
        let '(r', ok) := reach_events agentsOf (events a)
                           (MkReaching (r_graph r) (r_seen r) (r_read r) rest) in
        if negb ok then r' else reach_loop fuel events agentsOf r'
  | _, _ => r
  end.

Definition reach (g : cycleGraph) (start : AgentID) (events : AgentID -> list string)
    (agentsOf : gmap string (list AgentID)) : cycleGraph * gset AgentID :=
  let r := reach_loop (S (size (g_wiring g))) events agentsOf (MkReaching g {[start]} ∅ [start]) in
  (r_graph r, r_seen r).

Definition newCycleGraph (w : EventWiring) (agent : AgentID) (limit : Z) : cycleGraph :=
  let g := MkGraph w ∅ ∅ ∅ ∅ 0 limit false in
  let '(g, ok) := index g in
  if negb ok then g
  else
    let '(g, reached) := reach g agent (emits w) (g_listeners g) in
    let '(g, reaching) := reach g agent (listens w) (g_emitters g) in
    g <| g_kept := reached ∩ reaching |>.

(** The kept agents one event's listeners add, one unit of work each. *)
Fixpoint keep_listeners (tos : list AgentID) (g : cycleGraph) (set : gset AgentID)
    : cycleGraph * option (gset AgentID) :=
  match tos with
  | [] => (g, Some set)
  | to :: rest =>
      let '(g, ok) := spend g in
      if negb ok then (g, None)
      else keep_listeners rest g (if bool_decide (to ∈ g_kept g) then {[to]} ∪ set else set)
  end.

Fixpoint keep_events (events : list string) (g : cycleGraph) (set : gset AgentID)
    : cycleGraph * option (gset AgentID) :=
  match events with
  | [] => (g, Some set)
  | e :: rest =>
      let '(g, r) := keep_listeners (agents_of (g_listeners g) e) g set in
      match r with
      | None => (g, None)
      | Some set => keep_events rest g set
      end
  end.

Definition successors (g : cycleGraph) (a : AgentID) : cycleGraph * option (list AgentID) :=
  if g_exhausted g then (g, None)
  else match g_next g !! a with
       | Some next => (g, Some next)
       | None =>
           let '(g, r) := keep_events (emits (g_wiring g) a) g ∅ in
           match r with
           | None => (g, None)
           | Some set =>
               let next := sort_str (elements set) in
               (g <| g_next := <[a := next]> (g_next g) |>, Some next)
           end
       end.

(** [pathTo]: the parents walked back from the last agent. *)
Fixpoint path_back (fuel : nat) (parent : gmap AgentID AgentID) (first at_ : AgentID) : list AgentID :=
  match fuel with
  | O => []
  | S fuel =>
      at_ :: (if String.eqb at_ first then []
              else path_back fuel parent first (from_option id "" (parent !! at_)))
  end.

Definition pathTo (parent : gmap AgentID AgentID) (first last : AgentID) : EventCycle :=
  rev (path_back (S (size parent)) parent first last).

(** One agent's listeners: the agent itself ends the search, others join the
    queue the first time they are met. *)
Fixpoint visit (agent from : AgentID) (next : list AgentID) (parent : gmap AgentID AgentID)
    (queue : list AgentID) : option EventCycle * gmap AgentID AgentID * list AgentID :=
  match next with
  | [] => (None, parent, queue)
  | to :: rest =>
      if String.eqb to agent then (Some (pathTo parent agent from), parent, queue)
      else match parent !! to with
           | Some _ => visit agent from rest parent queue
           | None => visit agent from rest (<[to := from]> parent) (queue ++ [to])
           end
  end.

Fixpoint shortest_loop (fuel : nat) (agent : AgentID) (g : cycleGraph) (parent : gmap AgentID AgentID)
    (queue : list AgentID) : cycleGraph * option EventCycle :=
  match fuel, queue with
  | S fuel, a :: rest =>
      let '(g, r) := successors g a in
      match r with
      | None => (g, None)
      | Some next =>
          match visit agent a next parent rest with
          | (Some cycle, _, _) => (g, Some cycle)
          | (None, parent, queue) => shortest_loop fuel agent g parent queue
          end
      end
  | _, _ => (g, None)
  end.

Definition shortestCycle (g : cycleGraph) (agent : AgentID) : cycleGraph * option EventCycle :=
  shortest_loop (S (size (g_wiring g))) agent g ∅ [agent].

(** ** The search (event_cycle.go) *)

Record cycleSearch := MkCycleSearch {
  cs_graph : cycleGraph;
  cs_onPath : gset AgentID;
  cs_found : list EventCycle
}.

Definition stopped (s : cycleSearch) : bool :=
  (MaxEventCycles <=? List.length (cs_found s))%nat || g_exhausted (cs_graph s).

Section Walk.
Context (agent : AgentID).

(** The listeners in order; [go] walks on through one of them. *)
Fixpoint walk_each (go : AgentID -> cycleSearch -> cycleSearch) (next : list AgentID) (s : cycleSearch)
    : cycleSearch :=
  match next with
  | [] => s
  | to :: rest =>
      if stopped s then s
      else
        let '(g, ok) := spend (cs_graph s) in
        if negb ok then MkCycleSearch g (cs_onPath s) (cs_found s)
        else if bool_decide (to ∈ cs_onPath s)
        then walk_each go rest (MkCycleSearch g (cs_onPath s) (cs_found s))
        else
          let s := go to (MkCycleSearch g ({[to]} ∪ cs_onPath s) (cs_found s)) in
          walk_each go rest (MkCycleSearch (cs_graph s) (cs_onPath s ∖ {[to]}) (cs_found s))
  end.

(** [walk] on a path that ends in [at_] and may grow by [more] agents. *)
Fixpoint walk (more : nat) (path : list AgentID) (at_ : AgentID) (s : cycleSearch) : cycleSearch :=
  let '(g, r) := successors (cs_graph s) at_ in
  let s := MkCycleSearch g (cs_onPath s) (cs_found s) in
  match r with
  | None => s
  | Some next =>
      match more with
      | O =>
          if binary_search next agent then
            let '(g, ok) := spend g in
            MkCycleSearch g (cs_onPath s) (if ok then cs_found s ++ [path] else cs_found s)
          else s
      | S more => walk_each (fun to => walk more (path ++ [to]) to) next s
      end
  end.

(** [for length := 1; length <= len(g.kept) && !search.stopped(); length++] *)
Fixpoint walk_lengths (rounds : nat) (more : nat) (s : cycleSearch) : cycleSearch :=
  match rounds with
  | O => s
  | S rounds => if stopped s then s else walk_lengths rounds (S more) (walk more [agent] agent s)
  end.
End Walk.

Definition EventCyclesThrough (w : EventWiring) (agent : AgentID) : EventCycleSearch :=
  let g := newCycleGraph w agent (Z.quot MaxCycleWork 2) in
  let '(g, first) := successors g agent in
  match first with
  | None => MkSearch [] true (g_work g)
  | Some [] => MkSearch [] false (g_work g)
  | Some _ =>
      let s := walk_lengths agent (size (g_kept g)) 0 (MkCycleSearch g {[agent]} []) in
      let truncated := stopped s in
      match cs_found s with
      | [] =>
          let '(g, shortest) := shortestCycle (allow (cs_graph s) MaxCycleWork) agent in
          MkSearch (option_list shortest) (truncated || g_exhausted g) (g_work g)
      | found => MkSearch found (truncated || g_exhausted (cs_graph s)) (g_work (cs_graph s))
      end
  end.

(** A ring of three, a pair on it, and an agent that hears itself. *)
Definition ring : EventWiring :=
  let at_ := MkScope "acme" "cx" in
  list_to_map [("a", MkAgentWiring ["x"; "self"] ["z"; "self"; "y"] at_);
               ("b", MkAgentWiring ["y"] ["x"] at_); ("c", MkAgentWiring ["z"] ["y"] at_)].

Example ring_cycles :
  EventCyclesThrough ring "a" = MkSearch [["a"]; ["a"; "b"]; ["a"; "b"; "c"]] false 32.
Proof. vm_compute. reflexivity. Qed.
