(* ===== verification/Spec.v ===== *)
(** * Agent definitions

    src/internal/spec/spec.go, steps.go, emits.go, triggers.go, fallback.go,
    webhook_github.go, event_graph.go, resolver.go and store.go: a definition is
    a file, its version is the digest of its bytes, and what it declares is
    checked before it can run. The YAML of the front matter is read by
    gopkg.in/yaml.v3, a parameter. *)

From Stdlib Require Import ZArith Lia Ascii String.
From stdpp Require Import base list strings gmap.
From S2P Require Import Prelude GoStrings Json JsonFacts Regexp Domain Sha256 Payload Encode Gate Ports Memories Agent EventCycle.

Local Open Scope string_scope.

(** ** What a definition says (spec.go, steps.go) *)

Record Trigger := MkTrigger {
  Tg_Type : string;
  Tg_Schedule : string;
  Tg_Path : string;
  Tg_Event : string;
  Tg_From : string;
  Tg_Events : list string
}.

Record SpecStep := MkSpecStep {
  Sp_Name : string;
  Sp_Reaches : list ToolID;
  Sp_StopsWhen : string;
  Sp_Model : string;
  Sp_Effort : string
}.

Abbreviation Emits := (list AgentEvent) (only parsing).

Record Spec := MkSpec {
  Sc_ID : AgentID;
  Sc_Name : string;
  Sc_Company : CompanyID;
  Sc_Area : AreaID;
  Sc_Version : VersionID;
  Sc_Provider : string;
  Sc_Model : string;
  Sc_Effort : string;
  Sc_Fallback : ModelPair;
  Sc_CachePrefixTTL : string;
  Sc_ReplyLocale : string;
  Sc_Tools : list ToolID;
  Sc_Budget : Budget;
  Sc_MemoryLearning : MemoryLearningPolicy;
  Sc_Approvals : ApprovalPolicy;
  Sc_StandingApprovals : StandingPolicy;
  Sc_Triggers : list Trigger;
  Sc_Emits : Emits;
  Sc_Steps : list SpecStep;
  Sc_Instructions : string;
  Sc_Source : string
}.

#[export] Instance Spec_eta : Eta Spec := fun s =>
  MkSpec (Sc_ID s) (Sc_Name s) (Sc_Company s) (Sc_Area s) (Sc_Version s) (Sc_Provider s) (Sc_Model s)
    (Sc_Effort s) (Sc_Fallback s) (Sc_CachePrefixTTL s) (Sc_ReplyLocale s) (Sc_Tools s) (Sc_Budget s)
    (Sc_MemoryLearning s) (Sc_Approvals s) (Sc_StandingApprovals s) (Sc_Triggers s) (Sc_Emits s)
    (Sc_Steps s) (Sc_Instructions s) (Sc_Source s).

(** The wire shape of the YAML block. *)
Record frontmatter := MkFrontmatter {
  Fm_ID : string;
  Fm_Name : string;
  Fm_Company : string;
  Fm_Area : string;
  Fm_Provider : string;
  Fm_Model : string;
  Fm_Effort : string;
  Fm_Fallback : option ModelPair;
  Fm_CacheTTL : string;
  Fm_Locale : string;
  Fm_Tools : list string;
  Fm_Triggers : list Trigger;
  Fm_Emits : Emits;
  Fm_Steps : list SpecStep;
  Fm_Budget : Budget;
  Fm_MemoryLearning : option MemoryLearningPolicy;
  Fm_Approvals : option ApprovalPolicy;
  Fm_Standing : StandingPolicy
}.

(** ** Splitting the file *)

(** [strings.TrimLeft] with a set of bytes. *)
Fixpoint trim_left_set (set : string) (s : string) : string :=
  match s with
  | String c s' => if one_of set c then trim_left_set set s' else s
  | EmptyString => ""
  end.

(** What stands before the first [sub], and after it. *)
Fixpoint cut_str (sub s : string) : option (string * string) :=
  match cut_prefix sub s with
  | Some rest => Some ("", rest)
  | None =>
      match s with
      | EmptyString => None
      | String c s' => match cut_str sub s' with Some (before, rest) => Some (String c before, rest) | None => None end
      end
  end.

Definition trim_prefix (p s : string) : string := from_option id s (cut_prefix p s).

Definition byte_order_mark : string := bytes_str [239; 187; 191].
Definition cr_lf : string := bytes_str [13; 10].
Definition blank_bytes : string := bytes_str [32; 9; 13; 10].
Definition closing_fence : string := bytes_str [10; 45; 45; 45].

Definition split (data : string) : option (string * string) :=
  let text := trim_left_set blank_bytes (trim_prefix byte_order_mark data) in
  match cut_prefix "---" text with
  | None => None
  | Some rest =>
      match cut_str closing_fence (trim_left_set cr_lf rest) with
      | None => None
      | Some (front, body) => Some (front, trim_left_set cr_lf body)
      end
  end.

Definition versionOf (data : string) : VersionID := "v" +:+ String.substring 0 12 (hex_encode (sha256 data)).

(** ** What cannot run safely *)

Inductive Problem :=
| PNoID
| PNoArea
| PCompany
| PNoBody
| PNoTools
| PNoCeiling
| PNoProvider
| PCacheTTL
| PFallbackHalf
| PFallbackSame
| PSourceOutsideWebhook (type : string)
| PEventsWithoutSource
| PUnknownSource (from : string)
| PNoGitHubEvents
| PPing
| PGitHubEvent (name : string)
| PChannelNames
| PTriggerType (type : string)
| PEmitUnnamed
| PEmitTwice (event : string)
| PStepPlatform (step : string) (tool : ToolID)
| PStepOutside (step : string) (tool : ToolID)
| PMemoryLearning
| PStanding.

Inductive SpecError :=
| ErrNoFrontmatter
| ErrFrontmatterYAML
| ErrSpecApprovals (e : ApprovalPolicyError)
| ErrSpecProblems (problems : list Problem).

Definition TriggerCron : string := "cron".
Definition TriggerWebhook : string := "webhook".
Definition TriggerEvent_ : string := "event".
Definition TriggerChannel : string := "channel".

Definition valueOf (p : option ModelPair) : ModelPair := default zeroModelPair p.
Definition pairOrNil (p : ModelPair) : option ModelPair := if ModelPair_IsZero p then None else Some p.

Definition fallbackProblems (s : Spec) : list Problem :=
  let f := Sc_Fallback s in
  if ModelPair_IsZero f then []
  else if String.eqb (MPr_Provider f) "" || String.eqb (MPr_Model f) "" then [PFallbackHalf]
  else if bool_decide (f = MkModelPair (Sc_Provider s) (Sc_Model s)) then [PFallbackSame]
  else [].

Definition githubName : re :=
  RSeq (RClass lower_letter) (RStar (RClass (or_one_of (fun c => lower_letter c || digit_char c) "_"))).

Definition githubEvent : re :=
  RAll [RBegin; githubName; RAlt REps (RSeq (RClass (Ascii.eqb ".")) githubName); REnd].

Definition githubEventProblems (events : list string) : list Problem :=
  match events with
  | [] => [PNoGitHubEvents]
  | _ =>
      List.concat (List.map (fun e =>
        if String.eqb e "ping" then [PPing]
        else if negb (MatchString githubEvent e) then [PGitHubEvent e] else []) events)
  end.

Definition sourceProblems (t : Trigger) : list Problem :=
  if negb (String.eqb (Tg_Type t) TriggerWebhook) then
    if negb (String.eqb (Tg_From t) "") || negb (bool_decide (Tg_Events t = []))
    then [PSourceOutsideWebhook (Tg_Type t)] else []
  else if String.eqb (Tg_From t) "" then
    (if bool_decide (Tg_Events t = []) then [] else [PEventsWithoutSource])
  else if String.eqb (Tg_From t) WebhookFromGitHub then githubEventProblems (Tg_Events t)
  else [PUnknownSource (Tg_From t)].

Definition triggerProblems (triggers : list Trigger) : list Problem :=
  List.concat (List.map (fun t =>
    (sourceProblems t ++
     (if String.eqb (Tg_Type t) TriggerCron || String.eqb (Tg_Type t) TriggerWebhook ||
         String.eqb (Tg_Type t) TriggerEvent_ then []
      else if String.eqb (Tg_Type t) TriggerChannel then
        (if negb (String.eqb (Tg_Schedule t) "") || negb (String.eqb (Tg_Path t) "") ||
            negb (String.eqb (Tg_Event t) "") then [PChannelNames] else [])
      else [PTriggerType (Tg_Type t)]))%list) triggers).

Fixpoint emit_problems (seen : list string) (emits : Emits) : list Problem :=
  match emits with
  | [] => []
  | one :: rest =>
      if String.eqb (Ev_Event one) "" then PEmitUnnamed :: emit_problems seen rest
      else if existsb (String.eqb (Ev_Event one)) seen then PEmitTwice (Ev_Event one) :: emit_problems seen rest
      else emit_problems (Ev_Event one :: seen) rest
  end.

Definition emitProblems (emits : Emits) : list Problem := emit_problems [] emits.

Definition stepProblems (steps : list SpecStep) (tools : list ToolID) : list Problem :=
  List.concat (List.map (fun step =>
    List.concat (List.map (fun tool =>
      if ToolID_PlatformOwned tool then [PStepPlatform (Sp_Name step) tool]
      else if negb (existsb (String.eqb tool) tools) then [PStepOutside (Sp_Name step) tool]
      else []) (Sp_Reaches step))) steps).

Definition problem_if (b : bool) (p : Problem) : list Problem := if b then [p] else [].

Definition validate (s : Spec) : option SpecError :=
  let problems := List.concat [
    problem_if (String.eqb (Sc_ID s) "") PNoID;
    problem_if (String.eqb (Sc_Area s) "") PNoArea;
    problem_if (negb (String.eqb (Sc_Company s) "") && negb (ValidCompanyID (Sc_Company s))) PCompany;
    problem_if (String.eqb (Sc_Instructions s) "") PNoBody;
    problem_if (bool_decide (Sc_Tools s = [])) PNoTools;
    problem_if ((B_Micros (Sc_Budget s) <=? 0) && (B_Steps (Sc_Budget s) <=? 0))%Z PNoCeiling;
    problem_if (String.eqb (Sc_Provider s) "") PNoProvider;
    problem_if (negb (existsb (String.eqb (Sc_CachePrefixTTL s)) [""; "5m"; "1h"])) PCacheTTL;
    fallbackProblems s;
    triggerProblems (Sc_Triggers s);
    emitProblems (Sc_Emits s);
    stepProblems (Sc_Steps s) (Sc_Tools s)] in
  match ApprovalPolicy_Validate (Sc_Approvals s) with
  | Some e => Some (ErrSpecApprovals e)
  | None =>
      let problems := (problems ++
        problem_if (negb (MemoryLearningPolicy_Validate (Sc_MemoryLearning s))) PMemoryLearning ++
        problem_if (negb (StandingPolicy_Validate (Sc_StandingApprovals s))) PStanding)%list in
      match problems with [] => None | _ => Some (ErrSpecProblems problems) end
  end.

(** ** Parsing *)

Definition spec_of (fm : frontmatter) (source data body : string) : Spec :=
  let learning := match Fm_MemoryLearning fm with
                  | Some p => MemoryLearningPolicy_Normalize p
                  | None => MkMemoryLearningPolicy MemoryLearningOff 0 0
                  end in
  let approvals := from_option ApprovalPolicy_Normalize zeroApprovalPolicy (Fm_Approvals fm) in
  MkSpec (Fm_ID fm) (Fm_Name fm) (Fm_Company fm) (Fm_Area fm) (versionOf data) (Fm_Provider fm) (Fm_Model fm)
    (Fm_Effort fm) (valueOf (Fm_Fallback fm)) (Fm_CacheTTL fm) (Fm_Locale fm) (Fm_Tools fm) (Fm_Budget fm)
    learning approvals (Fm_Standing fm) (Fm_Triggers fm) (Fm_Emits fm) (Fm_Steps fm) (trim_space body) source.

Section Parsing.
(** [yaml.Unmarshal] of the front matter. *)
Context (yaml : string -> option frontmatter).

Definition Parse (source data : string) : result SpecError Spec :=
  match split data with
  | None => Err ErrNoFrontmatter
  | Some (front, body) =>
      match yaml front with
      | None => Err ErrFrontmatterYAML
      | Some fm =>
          let s := spec_of fm source data body in
          match validate s with
          | Some e => Err e
          | None => Ok s
          end
      end
  end.
End Parsing.

(** ** What the triggers amount to (triggers.go, webhook_github.go) *)

Definition CronSchedules (s : Spec) : list string :=
  omap (fun t => if String.eqb (Tg_Type t) TriggerCron && negb (String.eqb (Tg_Schedule t) "")
                 then Some (Tg_Schedule t) else None) (Sc_Triggers s).

Definition Webhooks (s : Spec) : list WebhookTrigger :=
  omap (fun t => if negb (String.eqb (Tg_Type t) TriggerWebhook) || String.eqb (Tg_Path t) "" then None
                 else Some (MkWebhookTrigger (trim_prefix "/" (Tg_Path t)) (Tg_From t) (Tg_Events t))) (Sc_Triggers s).

Definition StartableFromConversation (s : Spec) : bool :=
  existsb (fun t => String.eqb (Tg_Type t) TriggerChannel) (Sc_Triggers s).

(** ** The event graph (event_graph.go) *)

Definition listenedEvents (s : Spec) : list string :=
  omap (fun t => if String.eqb (Tg_Type t) TriggerEvent_ && negb (String.eqb (Tg_Event t) "")
                 then Some (Tg_Event t) else None) (Sc_Triggers s).

Definition wiringOf (s : Spec) : AgentWiring :=
  MkAgentWiring (List.map Ev_Event (Sc_Emits s)) (listenedEvents s) (MkScope (Sc_Company s) (Sc_Area s)).

Definition WiringOf (specs : list Spec) : EventWiring :=
  fold_left (fun w s => <[Sc_ID s := wiringOf s]> w) specs ∅.

Definition WiringWith (published : EventWiring) (draft : Spec) : EventWiring :=
  <[Sc_ID draft := wiringOf draft]> published.

Definition edgesFrom (from : AgentID) (event : string) (listeners : list AgentID) : list EventEdge :=
  match listeners with
  | [] => [MkEventEdge from event ""]
  | _ => List.map (MkEventEdge from event) listeners
  end.

(** The agents that declare a listener of an event, once per declaration, in
    name order. *)
Definition listeners_of (w : EventWiring) (agents : list AgentID) (event : string) : list AgentID :=
  List.concat (List.map (fun a => List.map (fun _ => a) (List.filter (String.eqb event) (listens w a))) agents).

Definition EdgesOf (w : EventWiring) : list EventEdge :=
  let agents := sort_str (elements (dom w)) in
  let emitted := List.concat (List.map (emits w) agents) in
  (List.concat (List.map (fun from =>
     List.concat (List.map (fun event => edgesFrom from event (listeners_of w agents event)) (emits w from))) agents) ++
   List.concat (List.map (fun to =>
     omap (fun event => if existsb (String.eqb event) emitted then None else Some (MkEventEdge "" event to))
       (listens w to)) agents))%list.

(** ** A run of a version (resolver.go) *)

Definition envelopes (s : Spec) : list Envelope :=
  List.map (fun step => MkEnvelope (Sp_Name step) (Sp_Reaches step) (Sp_StopsWhen step) (Sp_Model step) (Sp_Effort step))
    (Sc_Steps s).

(** The start [Resolve] hands to the worker: the run's own identity and trust are
    filled in from its first step and its agent's state. *)
Definition resolved_start (s : Spec) : Start :=
  MkStart "" zeroScope "" "" "" (NewPack (Sc_Tools s)) (envelopes s) (Sc_Budget s) zeroBudget ""
    "worker" 0 (MemoryLearningPolicy_Normalize (Sc_MemoryLearning s)) (Sc_StandingApprovals s)
    (negb (bool_decide (Sc_Emits s = []))).

Definition declaredPair (s : Spec) : ModelPair := MkModelPair (Sc_Provider s) (Sc_Model s).

Definition spec_fallback (s : Spec) : option Fallback :=
  if ModelPair_IsZero (Sc_Fallback s) then None else Some (MkFallback (declaredPair s) (Sc_Fallback s)).

(** ** The versions a process loaded (store.go) *)

Record Store := MkStore {
  st_byVersion : gmap (string * string) Spec;
  st_current : gmap string VersionID;
  st_history : gmap string (list VersionID)
}.

Definition NewStore : Store := MkStore ∅ ∅ ∅.

Definition Store_Publish (st : Store) (s : Spec) : option Store :=
  if String.eqb (Sc_ID s) "" || String.eqb (Sc_Version s) "" then None
  else
    let key := (Sc_ID s, Sc_Version s) in
    let st := match st_byVersion st !! key with
              | Some _ => st
              | None =>
                  MkStore (<[key := s]> (st_byVersion st)) (st_current st)
                    (<[Sc_ID s := (default [] (st_history st !! Sc_ID s) ++ [Sc_Version s])%list]> (st_history st))
              end in
    Some (MkStore (st_byVersion st) (<[Sc_ID s := Sc_Version s]> (st_current st)) (st_history st)).

Definition Store_Get (st : Store) (agent : AgentID) (version : VersionID) : option Spec :=
  version ← (if String.eqb version "" then st_current st !! agent else Some version);
  st_byVersion st !! (agent, version).

Definition Store_Agents (st : Store) : list AgentID := sort_str (elements (dom (st_current st))).
Definition Store_Versions (st : Store) (agent : AgentID) : list VersionID := default [] (st_history st !! agent).
