(* ===== verification/EventCycleSafety.v ===== *)
(** * The cycles found are the cycles there are

    Against the graph itself: an edge is an event one agent emits and another
    listens to, and [all_cycles] enumerates the elementary cycles through an
    agent by length and then by name, with no budget, pruning or memory. The
    search of [EventCycle] names a beginning of that enumeration, all of it when
    it does not say it was truncated; a search that ran out before any cycle
    names a shortest one. Last, what the search keeps by itself: its work and
    answers are bounded, and every cycle it names is one. *)

From Stdlib Require Import ZArith Lia String Sorting.Sorted.
From stdpp Require Import base list strings gmap.
From S2P Require Import Prelude GoStrings Domain EventCycle.

Local Open Scope string_scope.

(** ** The graph *)

Section Graph.
Context (w : EventWiring).

Definition edge (a b : AgentID) : Prop := exists e, e ∈ emits w a /\ e ∈ listens w b.

Definition edgeb (a b : AgentID) : bool :=
  existsb (fun e => existsb (String.eqb e) (listens w b)) (emits w a).

Lemma edgeb_edge a b : edgeb a b = true <-> edge a b.
Proof.
  unfold edgeb, edge. rewrite existsb_In. setoid_rewrite existsb_In. setoid_rewrite String.eqb_eq.
  setoid_rewrite list_elem_of_In. naive_solver.
Qed.

#[export] Instance edge_dec a b : Decision (edge a b).
Proof. refine (cast_if (decide (edgeb a b = true))); by rewrite <- edgeb_edge. Defined.

Lemma listens_dom e a : e ∈ listens w a -> a ∈ dom w.
Proof.
  unfold listens. intros H. apply elem_of_dom. destruct (w !! a); [done|]. by apply elem_of_nil in H.
Qed.

Lemma emits_dom e a : e ∈ emits w a -> a ∈ dom w.
Proof.
  unfold emits. intros H. apply elem_of_dom. destruct (w !! a); [done|]. by apply elem_of_nil in H.
Qed.

(** The agents of [K] one step from [a], in name order. *)
Definition next_of (K : gset AgentID) (a : AgentID) : list AgentID :=
  sort_str (elements (filter (fun b => edge a b) K)).

Lemma sort_elements_sorted (X : gset AgentID) : StronglySorted str_lt (sort_str (elements X)).
Proof.
  assert (NoDup (sort_str (elements X))) as Hn by (rewrite sort_str_perm; apply NoDup_elements).
  pose proof (sort_str_sorted (elements X)) as Hs. revert Hn Hs.
  induction (sort_str (elements X)) as [|x l IH]; intros Hn Hs; constructor.
  - apply IH; [by inversion Hn|by inversion Hs].
  - apply NoDup_cons in Hn as [Hx _]. apply StronglySorted_inv in Hs as [_ Hall].
    rewrite List.Forall_forall in *. intros y Hy. specialize (Hall y Hy).
    apply str_le_lt_or_eq in Hall as [| ->]; [done|]. by apply list_elem_of_In in Hy.
Qed.

Lemma sort_elements_In (X : gset AgentID) a : In a (sort_str (elements X)) <-> a ∈ X.
Proof.
  rewrite <- elem_of_elements, list_elem_of_In.
  split; apply Permutation_in; [|symmetry]; apply sort_str_perm.
Qed.

Lemma next_of_In K a b : In b (next_of K a) <-> edge a b /\ b ∈ K.
Proof. unfold next_of. rewrite sort_elements_In, elem_of_filter. done. Qed.

Lemma next_of_sorted K a : StronglySorted str_lt (next_of K a).
Proof. apply sort_elements_sorted. Qed.

End Graph.
#[export] Hint Resolve next_of_sorted : fuse.

(** ** Accounts *)

(** Exhausted is the budget gone. *)
Definition spent_out (g : cycleGraph) : Prop := g_exhausted g = true -> (g_limit g <= g_work g)%Z.

(** What spending leaves alone, and what it costs. *)
Record tally (g g' : cycleGraph) : Prop := {
  tally_wiring : g_wiring g' = g_wiring g;
  tally_listeners : g_listeners g' = g_listeners g;
  tally_emitters : g_emitters g' = g_emitters g;
  tally_kept : g_kept g' = g_kept g;
  tally_limit : g_limit g' = g_limit g;
  tally_work : (g_work g <= g_work g')%Z;
  tally_within : (g_work g <= g_limit g -> g_work g' <= g_limit g')%Z;
  tally_exhausted : g_exhausted g = true -> g_exhausted g' = true;
  tally_spent : spent_out g -> spent_out g'
}.

Lemma tally_refl g : tally g g.
Proof. by split. Qed.

Lemma tally_trans g1 g2 g3 : tally g1 g2 -> tally g2 g3 -> tally g1 g3.
Proof.
  intros [] []. split; first [congruence|lia|by auto].
Qed.

Lemma tally_live g g' : tally g g' -> g_exhausted g' = false -> g_exhausted g = false.
Proof. intros H E. destruct (g_exhausted g) eqn:Eg; [|done]. apply H in Eg. congruence. Qed.

(** One unit: the memory stays, and a refusal is final. *)
Lemma spend_spec g g' ok :
  spend g = (g', ok) -> tally g g' /\ g_next g' = g_next g /\ (ok = false -> g_exhausted g' = true).
Proof.
  unfold spend. case_match eqn:E; intros [= <- <-].
  - apply Z.leb_le in E. split; [|done]. split; cbn; auto; first [lia|by intros _ _].
  - apply Z.leb_gt in E. split; [|done]. split; cbn; auto; try lia. unfold spent_out. cbn.
    intros H Hx. specialize (H Hx). lia.
Qed.

Ltac spending_tac :=
  match goal with
  | |- context [spend ?g] =>
      let g' := fresh "g" in let ok := fresh "ok" in let E := fresh "E" in
      destruct (spend g) as [g' ok] eqn:E; apply spend_spec in E as (? & ? & ?)
  | H : context [spend ?g] |- _ =>
      let g' := fresh "g" in let ok := fresh "ok" in let E := fresh "E" in
      destruct (spend g) as [g' ok] eqn:E; apply spend_spec in E as (? & ? & ?)
  end.

(** ** Reading the declarations *)

Lemma appendOnce_In l a b : b ∈ appendOnce l a <-> b ∈ l \/ b = a.
Proof.
  unfold appendOnce. destruct (last l) as [c|] eqn:E.
  - destruct (String.eqb_spec c a) as [->|]; [|set_solver].
    apply last_Some in E as (l' & ->). set_solver.
  - set_solver.
Qed.

Lemma agents_of_insert idx e l e' :
  agents_of (<[e := l]> idx) e' = if decide (e = e') then l else agents_of idx e'.
Proof. unfold agents_of. case_decide as E; [subst; by rewrite lookup_insert_eq|by rewrite lookup_insert_ne]. Qed.

(** Who the listeners' index names, and the emitters'. *)
Definition names (idx : gmap string (list AgentID)) (said : string -> AgentID -> Prop) : Prop :=
  forall e a, a ∈ agents_of idx e <-> said e a.

Lemma names_note idx said a e :
  names idx said ->
  names (<[e := appendOnce (agents_of idx e) a]> idx) (fun e' b => said e' b \/ (e' = e /\ b = a)).
Proof.
  intros H e' b. rewrite agents_of_insert. case_decide as E; [subst e'; rewrite appendOnce_In|];
    rewrite (H _ b); naive_solver.
Qed.

Lemma names_iff idx (said said' : string -> AgentID -> Prop) :
  (forall e a, said e a <-> said' e a) -> names idx said -> names idx said'.
Proof. intros H Hn e a. by rewrite (Hn e a). Qed.

Lemma index_listeners a l : forall g g' said,
  spending (note_listener a) l g = (g', true) -> names (g_listeners g) said ->
  g_wiring g' = g_wiring g /\ g_emitters g' = g_emitters g /\
  names (g_listeners g') (fun e b => said e b \/ (e ∈ l /\ b = a)).
Proof.
  induction l as [|e l IH]; intros g g' said; cbn [spending].
  { intros [= <-] Hn. do 2 (split; [done|]). eapply names_iff; [|exact Hn]. set_solver. }
  spending_tac. destruct ok; [|done]. intros Hs Hn.
  eapply IH in Hs as (H1' & H2' & H3'); [|cbn; rewrite (tally_listeners _ _ H); by apply names_note].
  cbn in *. rewrite H1', H2'. split; [apply H|]. split; [apply H|].
  eapply names_iff; [|exact H3']. set_solver.
Qed.

Lemma index_emitters a l : forall g g' said,
  spending (note_emitter a) l g = (g', true) -> names (g_emitters g) said ->
  g_wiring g' = g_wiring g /\ g_listeners g' = g_listeners g /\
  names (g_emitters g') (fun e b => said e b \/ (e ∈ l /\ b = a)).
Proof.
  induction l as [|e l IH]; intros g g' said; cbn [spending].
  { intros [= <-] Hn. do 2 (split; [done|]). eapply names_iff; [|exact Hn]. set_solver. }
  spending_tac. destruct ok; [|done]. intros Hs Hn.
  eapply IH in Hs as (H1' & H2' & H3'); [|cbn; rewrite (tally_emitters _ _ H); by apply names_note].
  cbn in *. rewrite H1', H2'. split; [apply H|]. split; [apply H|].
  eapply names_iff; [|exact H3']. set_solver.
Qed.

(** The index after some agents. *)
Definition indexed (w : EventWiring) (agents : list AgentID) (g : cycleGraph) : Prop :=
  g_wiring g = w /\
  names (g_listeners g) (fun e a => a ∈ agents /\ e ∈ listens w a) /\
  names (g_emitters g) (fun e a => a ∈ agents /\ e ∈ emits w a).

Lemma index_agents_spec w rest : forall done_ g g',
  indexed w done_ g -> index_agents rest g = (g', true) -> indexed w (done_ ++ rest) g'.
Proof.
  induction rest as [|a rest IH]; intros done_ g g' (Hw & Hl & He); cbn [index_agents].
  { intros [= <-]. by rewrite app_nil_r. }
  destruct (spending (note_listener a) _ g) as [g1 ok1] eqn:E1. destruct ok1; [|done]. cbn [negb].
  destruct (index_listeners _ _ _ _ _ E1 Hl) as (W1 & M1 & L1).
  destruct (spending (note_emitter a) _ g1) as [g2 ok2] eqn:E2. destruct ok2; [|done]. cbn [negb].
  rewrite <- M1 in He. destruct (index_emitters _ _ _ _ _ E2 He) as (W2 & M2 & L2). intros Hi.
  rewrite cons_middle, app_assoc. eapply IH; [|exact Hi].
  split; [congruence|]. rewrite M2. rewrite W1, Hw in *.
  split; (eapply names_iff; [|eassumption]); intros e b; cbn; set_solver.
Qed.

(** ** Reaching *)

Section Reach.
Context (events : AgentID -> list string) (agentsOf : gmap string (list AgentID)) (D : gset AgentID).
Context (HD : forall e a, a ∈ agents_of agentsOf e -> a ∈ D).

(** The agents seen are those done with and those queued, each once. *)
Record queued (P : gset AgentID) (r : reaching) : Prop := {
  queued_seen : r_seen r = P ∪ list_to_set (r_queue r);
  queued_once : NoDup (r_queue r);
  queued_new : forall a, a ∈ r_queue r -> a ∉ P;
  queued_known : r_seen r ⊆ D
}.

Record reached (r r' : reaching) (ok : bool) : Prop := {
  reached_tally : tally (r_graph r) (r_graph r');
  reached_next : g_next (r_graph r') = g_next (r_graph r);
  reached_seen : r_seen r ⊆ r_seen r';
  reached_read : r_read r ⊆ r_read r';
  reached_stop : ok = false -> g_exhausted (r_graph r') = true
}.

Lemma reached_refl r : reached r r true.
Proof. split; auto using tally_refl; [reflexivity..|done]. Qed.

Lemma reached_trans r1 r2 r3 ok : reached r1 r2 true -> reached r2 r3 ok -> reached r1 r3 ok.
Proof. intros [] []. split; [by eapply tally_trans|congruence|set_solver|set_solver|done]. Qed.

Lemma reach_agents_spec P tos : forall r r' ok,
  queued P r -> (forall a, a ∈ tos -> a ∈ D) -> reach_agents tos r = (r', ok) ->
  queued P r' /\ reached r r' ok /\ r_read r' = r_read r /\ (ok = true -> forall a, a ∈ tos -> a ∈ r_seen r').
Proof.
  induction tos as [|to rest IH]; intros r r' ok Hq Hd; cbn [reach_agents].
  { intros [= <- <-]. split; [done|]. split; [apply reached_refl|]. split; [done|]. intros _ a ?%elem_of_nil. done. }
  destruct (spend (r_graph r)) as [g ok1] eqn:E. apply spend_spec in E as (Ht & Hn & Hx).
  destruct ok1; cbn [negb].
  2: { intros [= <- <-]. split; [by destruct Hq; split|]. split; [split; cbn; auto; reflexivity|]. done. }
  assert (forall seen queue, r_seen r ⊆ seen -> reached r (MkReaching g seen (r_read r) queue) true) as Hgo
    by (intros seen queue Hs; by split).
  case_bool_decide as Hin; intros Hr; apply IH in Hr as (Q' & R' & Rd' & S').
  - split; [done|]. split; [eapply reached_trans; [|exact R']; by apply Hgo|]. split; [done|].
    intros Hok a [->|Ha]%elem_of_cons; [|by apply S']. by apply (reached_seen _ _ _ R').
  - destruct Hq as [H1 H2 H3 H4]. by split.
  - intros; apply Hd; set_solver.
  - split; [done|]. split; [eapply reached_trans; [|exact R']; apply Hgo; set_solver|]. split; [done|].
    intros Hok a [->|Ha]%elem_of_cons; [|by apply S']. apply (reached_seen _ _ _ R'). cbn. set_solver.
  - destruct Hq as [H1 H2 H3 H4]. split; cbn.
    + rewrite H1, list_to_set_app_L. cbn. clear. set_solver.
    + apply NoDup_app. split; [done|]. split; [set_solver|]. apply NoDup_singleton.
    + intros a [Ha|Ha]%elem_of_app; [by apply H3|]. set_solver.
    + specialize (Hd to). set_solver.
  - intros; apply Hd; set_solver.
Qed.

(** Every event read has all its agents seen. *)
Definition covered (r : reaching) : Prop :=
  forall e a, e ∈ r_read r -> a ∈ agents_of agentsOf e -> a ∈ r_seen r.

Lemma reach_events_spec P es : forall r r' ok,
  queued P r -> covered r -> reach_events agentsOf es r = (r', ok) ->
  queued P r' /\ reached r r' ok /\ (ok = true -> covered r' /\ forall e, e ∈ es -> e ∈ r_read r').
Proof.
  induction es as [|e rest IH]; intros r r' ok Hq Hc; cbn [reach_events].
  { intros [= <- <-]. split; [done|]. split; [apply reached_refl|]. set_solver. }
  case_bool_decide as Hin.
  { intros Hr. destruct (IH _ _ _ Hq Hc Hr) as (Q & R & S'). split; [done|]. split; [done|].
    intros Hok. destruct (S' Hok) as [C1 C2]. split; [done|].
    intros e' [->|He]%elem_of_cons; [|by apply C2]. by apply (reached_read _ _ _ R). }
  set (r0 := MkReaching (r_graph r) (r_seen r) ({[e]} ∪ r_read r) (r_queue r)).
  destruct (reach_agents (agents_of agentsOf e) r0) as [r1 ok1] eqn:E1.
  assert (queued P r0) as Hq0 by (by destruct Hq; split).
  destruct (reach_agents_spec P _ _ _ _ Hq0 ltac:(intros; by eapply HD) E1) as (Q1 & R1 & Rd1 & S1).
  assert (reached r r1 ok1) as R01 by (destruct R1; split; cbn in *; auto; set_solver).
  destruct ok1; cbn [negb].
  2: { intros [= <- <-]. by split. }
  assert (covered r1) as C1.
  { intros e' a He Ha. rewrite Rd1 in He. cbn in He. apply elem_of_union in He as [->%elem_of_singleton|He].
    - by apply S1.
    - apply (reached_seen _ _ _ R01). by eapply Hc. }
  intros Hr. destruct (IH _ _ _ Q1 C1 Hr) as (Q & R & S'). split; [done|].
  split; [by eapply reached_trans|]. intros Hok. destruct (S' Hok) as [C2 C3]. split; [done|].
  intros e' [->|He]%elem_of_cons; [|by apply C3]. apply (reached_read _ _ _ R). rewrite Rd1. cbn. set_solver.
Qed.

(** An agent done with has all its events read. *)
Definition handled (P : gset AgentID) (r : reaching) : Prop :=
  forall a e, a ∈ P -> e ∈ events a -> e ∈ r_read r.

(** Enough fuel: every round is done with one more agent of [D]. *)
Lemma reach_loop_spec fuel : forall P r,
  queued P r -> covered r -> handled P r -> (size D <= fuel + size P)%nat ->
  let r' := reach_loop fuel events agentsOf r in
  reached r r' true /\
  (g_exhausted (r_graph r') = false ->
     r_seen r' ⊆ D /\
     forall a e b, a ∈ r_seen r' -> e ∈ events a -> b ∈ agents_of agentsOf e -> b ∈ r_seen r').
Proof.
  induction fuel as [|fuel IH]; intros P r Hq Hc Hh Hf; cbv zeta.
  { cbn [reach_loop]. split; [apply reached_refl|]. intros _. split; [apply Hq|].
    assert (r_seen r ≡ P) as HP.
    { destruct Hq as [H1 H2 H3 H4]. apply set_equiv. intros x. split; [|set_solver]. intros Hx.
      destruct (decide (x ∈ P)) as [|Hn]; [done|]. exfalso.
      assert (size ({[x]} ∪ P) <= size D)%nat as Hs by (apply subseteq_size; set_solver).
      rewrite size_union, size_singleton in Hs by set_solver. lia. }
    intros a e b Ha He Hb. eapply Hc; [|exact Hb]. eapply Hh; [|exact He]. set_solver. }
  cbn [reach_loop]. destruct (r_queue r) as [|a rest] eqn:Eq.
  { split; [apply reached_refl|]. intros _. split; [apply Hq|]. intros x e b Hx He Hb.
    eapply Hc; [|exact Hb]. eapply Hh; [|exact He]. destruct Hq as [H1 _ _ _]. rewrite Eq in H1. set_solver. }
  destruct (g_exhausted (r_graph r)) eqn:Ex.
  { split; [apply reached_refl|congruence]. }
  set (r0 := MkReaching (r_graph r) (r_seen r) (r_read r) rest).
  destruct (reach_events agentsOf (events a) r0) as [r1 ok1] eqn:E1.
  assert (a ∉ P) as Ha by (apply (queued_new _ _ Hq); rewrite Eq; apply list_elem_of_here).
  assert (queued ({[a]} ∪ P) r0) as Hq0.
  { destruct Hq as [H1 H2 H3 H4]. rewrite Eq in *. apply NoDup_cons in H2 as [H5 H6]. split; cbn; [rewrite H1; cbn; clear; set_solver|done| |done].
    intros x Hx. specialize (H3 x). set_solver. }
  destruct (reach_events_spec _ _ _ _ _ Hq0 Hc E1) as (Q1 & R1 & S1).
  assert (reached r r1 ok1) as R01 by (by destruct R1; split).
  destruct ok1; cbn [negb].
  2: { split; [destruct R01; by split|]. intros Hx. by rewrite (reached_stop _ _ _ R01) in Hx. }
  destruct (S1 eq_refl) as [C1 C2].
  destruct (IH ({[a]} ∪ P) r1 Q1 C1) as [R2 S2].
  - intros x e [->%elem_of_singleton|Hx]%elem_of_union He; [by apply C2|].
    apply (reached_read _ _ _ R1). by eapply Hh.
  - rewrite size_union, size_singleton by set_solver. lia.
  - split; [by eapply reached_trans|done].
Qed.
End Reach.

Lemma reach_spec w g start events agentsOf g' seen :
  (forall e a, a ∈ agents_of agentsOf e -> a ∈ dom w) -> g_wiring g = w ->
  reach g start events agentsOf = (g', seen) ->
  tally g g' /\ g_next g' = g_next g /\
  (g_exhausted g' = false ->
     start ∈ seen /\ seen ⊆ {[start]} ∪ dom w /\
     forall a e b, a ∈ seen -> e ∈ events a -> b ∈ agents_of agentsOf e -> b ∈ seen).
Proof.
  intros HD Hw. unfold reach. intros [= <- <-]. set (r0 := MkReaching g {[start]} ∅ [start]).
  destruct (reach_loop_spec events agentsOf ({[start]} ∪ dom w) ltac:(intros; apply elem_of_union; eauto)
    (S (size (g_wiring g))) ∅ r0) as [R S'].
  - split; cbn; [set_solver|apply NoDup_singleton|set_solver|set_solver].
  - by intros e a ?%elem_of_empty.
  - by intros a e ?%elem_of_empty.
  - rewrite Hw, size_empty, <- size_dom.
    rewrite size_union_alt, size_singleton.
    pose proof (subseteq_size (dom w ∖ {[start]}) (dom w) ltac:(set_solver)). lia.
  - split; [apply R|]. split; [apply R|]. intros Hx. destruct (S' Hx) as [S1 S2].
    split; [|done]. apply (reached_seen _ _ _ R). cbn. set_solver.
Qed.

(** ** The graph a search reads *)

Lemma spending_tally {A} (f : A -> cycleGraph -> cycleGraph) l :
  (forall x g, g_work (f x g) = g_work g /\ g_limit (f x g) = g_limit g /\ g_exhausted (f x g) = g_exhausted g) ->
  forall g g' ok, spending f l g = (g', ok) ->
  g_limit g' = g_limit g /\ (g_work g <= g_limit g -> g_work g' <= g_limit g')%Z /\
  (ok = false -> g_exhausted g' = true) /\ (spent_out g -> spent_out g').
Proof.
  intros Hf. induction l as [|x l IH]; intros g g' ok; cbn [spending]; [by intros [= <- <-]|].
  destruct (spend g) as [g1 ok1] eqn:E. apply spend_spec in E as (Ht & _ & Hx).
  destruct (Hf x g1) as (F1 & F2 & F3). destruct ok1.
  - intros (H1 & H2 & H3 & H4)%IH. rewrite F2 in *. split; [by rewrite H1; apply Ht|].
    split; [|split; [done|]].
    + intros Hle. apply H2. rewrite F1. by apply Ht.
    + intros Hs. apply H4. unfold spent_out. rewrite F1, F2, F3. by apply Ht.
  - intros [= <- <-]. split; [apply Ht|]. split; [apply Ht|]. split; [done|apply Ht].
Qed.

Lemma index_agents_tally agents : forall g g' ok,
  index_agents agents g = (g', ok) ->
  g_limit g' = g_limit g /\ (g_work g <= g_limit g -> g_work g' <= g_limit g')%Z /\
  (ok = false -> g_exhausted g' = true) /\ (spent_out g -> spent_out g').
Proof.
  induction agents as [|a rest IH]; intros g g' ok; cbn [index_agents]; [by intros [= <- <-]|].
  destruct (spending (note_listener a) _ g) as [g1 ok1] eqn:E1.
  apply spending_tally in E1 as (L1 & W1 & X1 & S1); [|done]. destruct ok1; cbn [negb].
  2: { intros [= <- <-]. auto. }
  destruct (spending (note_emitter a) _ g1) as [g2 ok2] eqn:E2.
  apply spending_tally in E2 as (L2 & W2 & X2 & S2); [|done]. destruct ok2; cbn [negb].
  2: { intros [= <- <-]. split; [congruence|]. auto 10. }
  intros (L3 & W3 & X3 & S3)%IH. split; [congruence|]. auto 10.
Qed.

Lemma index_agents_next agents : forall g g' ok,
  index_agents agents g = (g', ok) -> g_next g' = g_next g.
Proof.
  assert (forall (f : string -> cycleGraph -> cycleGraph) l,
    (forall x g, g_next (f x g) = g_next g) -> forall g g' ok,
    spending f l g = (g', ok) -> g_next g' = g_next g) as Hs.
  { intros f l Hf. induction l as [|x l IH]; intros g g' ok; cbn [spending]; [by intros [= <- <-]|].
    destruct (spend g) as [g1 ok1] eqn:E. apply spend_spec in E as (_ & Hn & _).
    destruct ok1; [intros ->%IH; by rewrite Hf|by intros [= <- <-]]. }
  induction agents as [|a rest IH]; intros g g' ok; cbn [index_agents]; [by intros [= <- <-]|].
  destruct (spending (note_listener a) _ g) as [g1 ok1] eqn:E1. apply Hs in E1; [|done].
  destruct ok1; cbn [negb]; [|by intros [= <- <-]].
  destruct (spending (note_emitter a) _ g1) as [g2 ok2] eqn:E2. apply Hs in E2; [|done].
  destruct ok2; cbn [negb]; [|intros [= <- <-]; congruence]. intros ->%IH. congruence.
Qed.

(** What a search relies on: the listeners are the declared ones and whatever
    is remembered is right. *)
Record graph_ok (w : EventWiring) (K : gset AgentID) (g : cycleGraph) : Prop := {
  graph_wiring : g_wiring g = w;
  graph_listeners : names (g_listeners g) (fun e a => e ∈ listens w a);
  graph_kept : g_kept g = K;
  graph_next : forall a next, g_next g !! a = Some next -> next = next_of w K a
}.

(** The kept agents: those on a way from the agent and back to it. *)
Record closed (w : EventWiring) (agent : AgentID) (F B : gset AgentID) : Prop := {
  closed_from : agent ∈ F;
  closed_onward : forall a b, a ∈ F -> edge w a b -> b ∈ F;
  closed_to : agent ∈ B;
  closed_back : forall a b, b ∈ B -> edge w a b -> a ∈ B
}.

Lemma index_spec w limit g' :
  index (MkGraph w ∅ ∅ ∅ ∅ 0 limit false) = (g', true) ->
  g_wiring g' = w /\ names (g_listeners g') (fun e a => e ∈ listens w a) /\
  names (g_emitters g') (fun e a => e ∈ emits w a) /\ g_next g' = ∅.
Proof.
  unfold index. intros E. pose proof (index_agents_next _ _ _ _ E) as Hn.
  apply (index_agents_spec w _ []) in E.
  2: { split; [done|]. split; intros e a; unfold agents_of; cbn; rewrite lookup_empty; cbn; set_solver. }
  destruct E as (Hw & Hl & He). cbn in *.
  assert (forall a, a ∈ sort_str (elements (dom w)) <-> a ∈ dom w) as Hdom
    by (intros a; by rewrite list_elem_of_In, sort_elements_In).
  split; [done|]. split; [|split; [|done]]; (eapply names_iff; [|eassumption]); intros e a; cbn; rewrite Hdom.
  - split; [by intros []|]. eauto using listens_dom.
  - split; [by intros []|]. eauto using emits_dom.
Qed.

Lemma newCycleGraph_spec w agent limit :
  (0 <= limit)%Z -> let g := newCycleGraph w agent limit in
  (g_work g <= g_limit g)%Z /\ g_limit g = limit /\ spent_out g /\
  (g_exhausted g = false -> exists F B, closed w agent F B /\ graph_ok w (F ∩ B) g /\
     (F ∩ B ⊆ {[agent]} ∪ dom w)).
Proof.
  intros H0. cbv zeta. unfold newCycleGraph.
  destruct (index _) as [g1 ok1] eqn:E1. pose proof (index_agents_tally _ _ _ _ E1) as (L1 & W1 & X1 & P1).
  assert (spent_out g1) as Q1 by (by apply P1).
  destruct ok1; cbn [negb].
  2: { split; [by apply W1|]. split; [done|]. split; [done|]. rewrite X1 by done. done. }
  destruct (index_spec _ _ _ E1) as (Hw1 & Hl1 & He1 & Hn1).
  destruct (reach g1 agent (emits w) (g_listeners g1)) as [g2 F] eqn:E2.
  apply (reach_spec w) in E2 as (T2 & N2 & S2); [|intros e a ?%Hl1; by eapply listens_dom|done].
  destruct (reach g2 agent (listens w) (g_emitters g2)) as [g3 B] eqn:E3.
  rewrite (tally_emitters _ _ T2) in E3.
  apply (reach_spec w) in E3 as (T3 & N3 & S3);
    [|intros e a ?%He1; by eapply emits_dom|by rewrite (tally_wiring _ _ T2)].
  pose proof (tally_trans _ _ _ T2 T3) as T. cbn.
  split; [apply T, W1; done|]. split; [by rewrite (tally_limit _ _ T)|].
  split; [exact (tally_spent _ _ T Q1)|].
  intros Hx. destruct (S2 (tally_live _ _ T3 Hx)) as (F1 & F2 & F3). destruct (S3 Hx) as (B1 & B2 & B3).
  exists F, B. split; [|split; [split; cbn|]].
  - split; [done| |done|].
    + intros a b Ha (e & H1 & H2). eapply F3; [done|exact H1|]. by apply Hl1.
    + intros a b Hb (e & H1 & H2). eapply B3; [exact Hb|exact H2|]. by apply He1.
  - by rewrite (tally_wiring _ _ T).
  - by rewrite (tally_listeners _ _ T).
  - done.
  - intros a next. rewrite N3, N2, Hn1, lookup_empty. done.
  - set_solver.
Qed.

(** ** Successors *)

Lemma keep_listeners_spec tos : forall g set g' r,
  keep_listeners tos g set = (g', r) ->
  tally g g' /\ g_next g' = g_next g /\
  match r with
  | None => g_exhausted g' = true
  | Some set' => g_exhausted g' = g_exhausted g /\
      forall a, a ∈ set' <-> a ∈ set \/ (a ∈ tos /\ a ∈ g_kept g)
  end.
Proof.
  induction tos as [|to rest IH]; intros g set g' r; cbn [keep_listeners].
  { intros [= <- <-]. split; [apply tally_refl|]. split; [done|]. split; [done|]. set_solver. }
  assert (forall g1, spend g = (g1, true) -> g_exhausted g1 = g_exhausted g) as Hlive
    by (intros g1; unfold spend; by case_match; intros [= <-]).
  destruct (spend g) as [g1 ok1] eqn:E. specialize (Hlive g1).
  apply spend_spec in E as (Ht & Hn & Hx).
  destruct ok1; cbn [negb]; [|intros [= <- <-]; auto].
  intros (T & N & S')%IH. split; [by eapply tally_trans|]. split; [congruence|].
  destruct r as [set'|]; [|done]. destruct S' as [Sx S']. split; [by rewrite Sx, Hlive|].
  intros a. rewrite S'. rewrite (tally_kept _ _ Ht), elem_of_cons. clear - Ht.
  case_bool_decide as Hk; [rewrite elem_of_union, elem_of_singleton|];
    destruct (decide (a = to)) as [->|]; tauto.
Qed.

Lemma keep_events_spec es : forall g set g' r,
  keep_events es g set = (g', r) ->
  tally g g' /\ g_next g' = g_next g /\
  match r with
  | None => g_exhausted g' = true
  | Some set' => g_exhausted g' = g_exhausted g /\
      forall a, a ∈ set' <-> a ∈ set \/ (a ∈ g_kept g /\ exists e, e ∈ es /\ a ∈ agents_of (g_listeners g) e)
  end.
Proof.
  induction es as [|e rest IH]; intros g set g' r; cbn [keep_events].
  { intros [= <- <-]. split; [apply tally_refl|]. split; [done|]. split; [done|]. set_solver. }
  destruct (keep_listeners _ g set) as [g1 r1] eqn:E. apply keep_listeners_spec in E as (T1 & N1 & S1).
  destruct r1 as [set1|]; [|by intros [= <- <-]]. destruct S1 as [X1 S1].
  intros (T & N & S')%IH. split; [by eapply tally_trans|]. split; [congruence|].
  destruct r as [set'|]; [|done]. destruct S' as [X S']. split; [congruence|].
  intros a. rewrite S', S1, (tally_kept _ _ T1), (tally_listeners _ _ T1).
  setoid_rewrite elem_of_cons. naive_solver.
Qed.

Lemma successors_spec w K g a g' r :
  graph_ok w K g -> successors g a = (g', r) ->
  tally g g' /\ graph_ok w K g' /\
  match r with
  | None => g_exhausted g' = true
  | Some next => g_exhausted g' = false /\ next = next_of w K a
  end.
Proof.
  intros Hok. unfold successors. destruct (g_exhausted g) eqn:Ex.
  { intros [= <- <-]. split; [apply tally_refl|done]. }
  destruct (g_next g !! a) as [next|] eqn:En.
  { intros [= <- <-]. split; [apply tally_refl|]. split; [done|]. split; [done|]. by apply (graph_next _ _ _ Hok). }
  destruct (keep_events _ g ∅) as [g1 r1] eqn:E. apply keep_events_spec in E as (T & N & S').
  destruct Hok as [H1 H2 H3 H4].
  assert (graph_ok w K g1) as Hok1.
  { split; [by rewrite (tally_wiring _ _ T)|by rewrite (tally_listeners _ _ T)|by rewrite (tally_kept _ _ T)|].
    by rewrite N. }
  destruct r1 as [set|]; [|by intros [= <- <-]]. destruct S' as [X S']. intros [= <- <-].
  assert (set = filter (fun b => edge w a b) K) as ->.
  { apply set_eq. intros b. rewrite S', elem_of_filter, H3, H1. unfold edge. setoid_rewrite (H2 _ b). set_solver. }
  split; [by destruct T; split|]. split; [|split; [cbn; congruence|done]].
  destruct Hok1. split; cbn; auto. intros b next [[<- <-]|[_ Hb]]%lookup_insert_Some; [done|auto].
Qed.

(** * Event cycles: the search against its reference

    The walk of src/internal/domain/event_cycle.go names a beginning of
    [all_cycles], the unbounded enumeration of the elementary cycles through an
    agent; the breadth-first fallback of event_cycle_graph.go names a shortest
    one; and no search spends more than its budget. *)

(** ** The cycles there are *)

Section Cycles.
Context (w : EventWiring) (agent : AgentID).

(** From [at_] along [rest] and back to the agent. *)
Fixpoint chained (at_ : AgentID) (rest : list AgentID) : Prop :=
  match rest with
  | [] => edge w at_ agent
  | b :: rest => edge w at_ b /\ chained b rest
  end.

(** A closed path that visits no agent twice, named from the agent. *)
Definition elementary (c : EventCycle) : Prop :=
  exists rest, c = agent :: rest /\ NoDup c /\ chained agent rest.

(** The ways on from a path that ends in [at_], [more] agents longer, through
    agents of [K] in name order. *)
Fixpoint extensions (K : gset AgentID) (more : nat) (path : list AgentID) (at_ : AgentID) : list EventCycle :=
  match more with
  | O => if decide (edge w at_ agent) then [path] else []
  | S more =>
      flat_map (fun to => if decide (to ∈ path) then [] else extensions K more (path ++ [to]) to)
        (next_of w K at_)
  end.

Definition everyone : gset AgentID := {[agent]} ∪ dom w.

(** Shortest first, and in name order at each length. *)
Definition all_cycles : list EventCycle :=
  flat_map (fun more => extensions everyone more [agent] agent) (seq 0 (S (size w))).

Lemma extensions_In K more : forall path at_ c,
  In c (extensions K more path at_) <->
  exists rest, c = (path ++ rest)%list /\ List.length rest = more /\ chained at_ rest /\ NoDup rest /\
    forall x, x ∈ rest -> (x ∉ path) /\ x ∈ K.
Proof.
  induction more as [|more IH]; intros path at_ c; cbn [extensions].
  { case_decide as He.
    - split.
      + intros [<-|[]]. exists []. rewrite app_nil_r. split_and!; try done; [constructor|by intros x ?%elem_of_nil].
      + intros (rest & -> & Hl & _). destruct rest; [|done]. rewrite app_nil_r. by left.
    - split; [done|]. intros (rest & _ & Hl & Hc & _). by destruct rest. }
  rewrite in_flat_map. split.
  - intros (to & Hto & Hc). apply next_of_In in Hto as [He Hk]. case_decide as Hin; [done|].
    apply IH in Hc as (rest & -> & Hl & Hch & Hn & Hx). exists (to :: rest).
    rewrite <- app_assoc. split; [done|]. split; [cbn; congruence|]. split; [done|].
    split.
    + constructor; [|done]. intros Ht. apply Hx in Ht as [Ht _]. set_solver.
    + intros x [->|Hr]%elem_of_cons; [done|]. apply Hx in Hr as [Hr ?]. set_solver.
  - intros (rest & -> & Hl & Hch & Hn & Hx). destruct rest as [|to rest]; [done|].
    destruct Hch as [He Hch]. apply NoDup_cons in Hn as [Hto Hn].
    destruct (Hx to) as [Hp Hk]; [apply list_elem_of_here|]. exists to. rewrite next_of_In. split; [done|].
    case_decide as Hin; [done|]. apply IH. exists rest. rewrite <- app_assoc.
    split; [done|]. split; [by injection Hl|]. split; [done|]. split; [done|].
    intros x Hr. destruct (Hx x) as [Hxp Hxk]; [by apply list_elem_of_further|].
    split; [|done]. rewrite elem_of_app, list_elem_of_singleton. intros [| ->]; done.
Qed.

Lemma chained_dom at_ rest x : chained at_ rest -> x ∈ rest -> x ∈ dom w.
Proof.
  revert at_. induction rest as [|b rest IH]; intros at_; cbn; [by intros _ ?%elem_of_nil|].
  intros [(e & _ & He) Hc] [->|Hx]%elem_of_cons; [by eapply listens_dom|by eapply IH].
Qed.

(** Distinct agents of a set are no more than its size. *)
Lemma NoDup_size (l : list AgentID) (X : gset AgentID) :
  NoDup l -> (forall x, x ∈ l -> x ∈ X) -> (List.length l <= size X)%nat.
Proof.
  intros Hn Hx. rewrite <- (size_list_to_set (C := gset AgentID) l Hn). apply subseteq_size. set_solver.
Qed.

Lemma everyone_size : (size everyone <= S (size w))%nat.
Proof.
  unfold everyone. rewrite size_union_alt, size_singleton, <- size_dom.
  pose proof (subseteq_size (dom w ∖ {[agent]}) (dom w) ltac:(set_solver)). lia.
Qed.

Lemma all_cycles_In c : In c all_cycles <-> elementary c.
Proof.
  unfold all_cycles. rewrite in_flat_map. split.
  - intros (more & _ & Hc). apply extensions_In in Hc as (rest & -> & _ & Hc & Hn & Hx).
    exists rest. split; [done|]. split; [|done]. constructor; [|done].
    intros Ha. apply Hx in Ha as [Ha _]. set_solver.
  - intros (rest & -> & Hn & Hc). exists (List.length rest). rewrite in_seq. split.
    + assert (List.length (agent :: rest) <= size everyone)%nat as Hl.
      { apply NoDup_size; [done|]. intros x [->|Hx]%elem_of_cons; [unfold everyone; set_solver|].
        apply elem_of_union. right. by eapply chained_dom. }
      pose proof everyone_size. cbn in Hl. lia.
    + apply extensions_In. apply NoDup_cons in Hn as [Ha Hn]. exists rest. split_and!; try done.
      intros x Hx. split; [set_solver|]. apply elem_of_union. right. by eapply chained_dom.
Qed.

Lemma extensions_NoDup K more : forall path at_, NoDup (extensions K more path at_).
Proof.
  induction more as [|more IH]; intros path at_; cbn [extensions].
  { case_decide; [apply NoDup_singleton|constructor]. }
  assert (NoDup (next_of w K at_)) as Hn.
  { unfold next_of. rewrite sort_str_perm. apply NoDup_elements. }
  induction (next_of w K at_) as [|to next IHn]; cbn; [constructor|].
  apply NoDup_cons in Hn as [Hto Hn]. apply NoDup_app. split; [case_decide; [constructor|apply IH]|].
  split; [|by apply IHn]. intros c Hc Hc'. case_decide; [by apply elem_of_nil in Hc|].
  apply list_elem_of_In, extensions_In in Hc as (r1 & -> & _).
  apply list_elem_of_In, in_flat_map in Hc' as (to' & Hto' & Hc'). case_decide; [done|].
  apply extensions_In in Hc' as (r2 & E & _). rewrite <- !app_assoc in E. apply app_inv_head in E.
  injection E as -> _. apply Hto. by apply list_elem_of_In.
Qed.

Lemma all_cycles_NoDup : NoDup all_cycles.
Proof.
  unfold all_cycles. generalize 0%nat as from. generalize (S (size w)) as n.
  induction n as [|n IH]; intros from; cbn [seq flat_map]; [constructor|].
  apply NoDup_app. split; [apply extensions_NoDup|]. split; [|apply IH].
  intros c Hc Hc'. apply list_elem_of_In, extensions_In in Hc as (r1 & -> & H1 & _).
  apply list_elem_of_In, in_flat_map in Hc' as (more & Hm & Hc'). apply in_seq in Hm.
  apply extensions_In in Hc' as (r2 & E & H2 & _). apply app_inv_head in E. subst. lia.
Qed.

Lemma flat_map_nil_in {A C} (f : A -> list C) l : (forall x, In x l -> f x = []) -> flat_map f l = [].
Proof. induction l as [|x l IH]; cbn; intros H; [done|]. rewrite (H x), IH; auto. Qed.

(** ** Pruning loses nothing *)

Section Pruned.
Context (F B : gset AgentID).
Context (HFB : closed w agent F B).

Lemma chained_back at_ rest : chained at_ rest -> at_ ∈ B.
Proof.
  revert at_. induction rest as [|b rest IH]; intros at_; cbn.
  - intros He. eapply (closed_back _ _ _ _ HFB); [apply HFB|done].
  - intros [He Hc]. eapply (closed_back _ _ _ _ HFB); [by apply IH|done].
Qed.

Lemma chained_kept at_ rest x : at_ ∈ F -> chained at_ rest -> x ∈ rest -> x ∈ F ∩ B.
Proof.
  revert at_. induction rest as [|b rest IH]; intros at_ Hat; cbn; [by intros _ ?%elem_of_nil|].
  intros [He Hc] Hx. assert (b ∈ F) as Hb by (by eapply (closed_onward _ _ _ _ HFB)).
  apply elem_of_cons in Hx as [->|Hx]; [|by eapply IH].
  apply elem_of_intersection. split; [done|]. by eapply chained_back.
Qed.

Lemma strict_filter (f : AgentID -> bool) l : StronglySorted str_lt l -> StronglySorted str_lt (List.filter f l).
Proof.
  induction l as [|x l IH]; cbn; intros H; [constructor|]. apply StronglySorted_inv in H as [Hs Hf].
  destruct (f x); [|by apply IH]. constructor; [by apply IH|].
  rewrite List.Forall_forall in *. intros y [Hy _]%filter_In. by apply Hf.
Qed.

Lemma flat_map_filter {A C} (f g : A -> list C) (keep : A -> bool) l :
  (forall x, In x l -> g x = if keep x then f x else []) -> flat_map f (List.filter keep l) = flat_map g l.
Proof.
  induction l as [|x l IH]; cbn; intros H; [done|]. rewrite <- IH by (intros; apply H; auto).
  rewrite (H x) by auto. by destruct (keep x).
Qed.

Lemma extensions_kept more : forall path at_,
  at_ ∈ F -> (F ∩ B ⊆ everyone) ->
  extensions (F ∩ B) more path at_ = extensions everyone more path at_.
Proof.
  induction more as [|more IH]; intros path at_ Hat Hsub; cbn [extensions]; [done|].
  assert (next_of w (F ∩ B) at_ =
          List.filter (fun b => bool_decide (b ∈ F ∩ B)) (next_of w everyone at_)) as ->.
  { apply strict_sorted_unique; [auto with fuse|apply strict_filter; auto with fuse|].
    intros b. rewrite filter_In, !next_of_In, bool_decide_eq_true. set_solver. }
  apply flat_map_filter. intros to [He _]%next_of_In.
  assert (to ∈ F) as Hto by (by eapply (closed_onward _ _ _ _ HFB)).
  case_bool_decide as Hk; [case_decide; [done|]; by rewrite IH|].
  case_decide; [done|]. destruct (extensions everyone more (path ++ [to]) to) as [|c l] eqn:E; [done|].
  assert (In c (extensions everyone more (path ++ [to]) to)) as Hc by (rewrite E; by left).
  apply extensions_In in Hc as (rest & _ & _ & Hc & _). destruct Hk. apply elem_of_intersection.
  split; [done|]. by eapply chained_back.
Qed.

(** Cycles of kept agents only: none is longer than they are many. *)
Lemma kept_cycles :
  (F ∩ B ⊆ everyone) ->
  flat_map (fun more => extensions (F ∩ B) more [agent] agent) (seq 0 (size (F ∩ B))) = all_cycles.
Proof.
  intros Hsub. unfold all_cycles.
  assert (size (F ∩ B) <= S (size w))%nat as Hle
    by (etrans; [by apply subseteq_size|apply everyone_size]).
  replace (S (size w)) with (size (F ∩ B) + (S (size w) - size (F ∩ B)))%nat by lia.
  rewrite seq_app, flat_map_app. rewrite <- (app_nil_r (flat_map _ (seq 0 (size (F ∩ B))))). f_equal.
  - apply flat_map_ext. intros more. apply extensions_kept; [apply HFB|done].
  - symmetry. apply flat_map_nil_in. intros more Hm%in_seq.
    destruct (extensions everyone more [agent] agent) as [|c l] eqn:E; [done|].
    assert (In c (extensions everyone more [agent] agent)) as Hc by (rewrite E; by left).
    apply extensions_In in Hc as (rest & _ & Hl & Hc & Hn & Hx).
    assert (List.length (agent :: rest) <= size (F ∩ B))%nat as Hlen.
    { apply NoDup_size.
      - constructor; [|done]. intros Ha. apply Hx in Ha as [Ha _]. set_solver.
      - intros x [->|Hr]%elem_of_cons; [apply elem_of_intersection; split; apply HFB|].
        eapply chained_kept; [apply HFB|exact Hc|done]. }
    cbn in Hlen. lia.
Qed.
End Pruned.
End Cycles.

(** ** The walk *)

Section Walking.
Context (w : EventWiring) (agent : AgentID) (K : gset AgentID).
Context (HK : agent ∈ K).

(** From [s] to [s'] a beginning of [all] was named, all of it unless the
    search stopped. *)
Record walked (s s' : cycleSearch) (all : list EventCycle) : Prop := {
  walked_ok : graph_ok w K (cs_graph s');
  walked_tally : tally (cs_graph s) (cs_graph s');
  walked_path : cs_onPath s' = cs_onPath s;
  walked_found : exists l, cs_found s' = (cs_found s ++ l)%list /\ l `prefix_of` all /\
    (stopped s' = false -> l = all);
  walked_few : (List.length (cs_found s) < MaxEventCycles)%nat ->
    (List.length (cs_found s') <= MaxEventCycles)%nat
}.

Lemma stopped_live s : stopped s = false -> g_exhausted (cs_graph s) = false /\ (List.length (cs_found s) < MaxEventCycles)%nat.
Proof. unfold stopped. rewrite orb_false_iff, Nat.leb_gt. tauto. Qed.

Lemma exhausted_stops s : g_exhausted (cs_graph s) = true -> stopped s = true.
Proof. unfold stopped. intros ->. by rewrite orb_true_r. Qed.

(** The search gave up: nothing new is named. *)
Lemma walked_stop s s' all :
  graph_ok w K (cs_graph s') -> tally (cs_graph s) (cs_graph s') -> cs_onPath s' = cs_onPath s ->
  cs_found s' = cs_found s -> stopped s' = true -> walked s s' all.
Proof.
  intros Hg Ht Hp Hf Hs. split; [done|done|done| |rewrite Hf; lia]. exists []. rewrite app_nil_r.
  split; [done|]. split; [apply prefix_nil|congruence].
Qed.

Lemma walked_none s s' :
  graph_ok w K (cs_graph s') -> tally (cs_graph s) (cs_graph s') -> cs_onPath s' = cs_onPath s ->
  cs_found s' = cs_found s -> walked s s' [].
Proof.
  intros Hg Ht Hp Hf. split; [done|done|done| |rewrite Hf; lia]. exists []. by rewrite app_nil_r.
Qed.

Lemma walked_seq s1 s2 s3 all1 all2 :
  (stopped s2 = true -> s3 = s2) ->
  walked s1 s2 all1 -> (stopped s2 = false -> walked s2 s3 all2) -> walked s1 s3 (all1 ++ all2).
Proof.
  intros Hstop [G1 T1 P1 (l1 & E1 & X1 & F1) B1] H2. destruct (stopped s2) eqn:Es.
  - rewrite (Hstop eq_refl). split; [done|done|done| |done]. exists l1. split; [done|].
    split; [by apply prefix_app_r|]. congruence.
  - destruct (H2 eq_refl) as [G2 T2 P2 (l2 & E2 & X2 & F2) B2]. specialize (F1 eq_refl). subst l1.
    split; [done|by eapply tally_trans|congruence| |].
    + exists (all1 ++ l2)%list. rewrite E2, E1, app_assoc. split; [done|]. split; [by apply prefix_app|].
      intros Hs. by rewrite F2.
    + intros Hl. apply B2. apply stopped_live in Es as [_ Es]. exact Es.
Qed.

Lemma graph_ok_tally g g' : tally g g' -> g_next g' = g_next g -> graph_ok w K g -> graph_ok w K g'.
Proof.
  intros T N [H1 H2 H3 H4]. split.
  - by rewrite (tally_wiring _ _ T).
  - by rewrite (tally_listeners _ _ T).
  - by rewrite (tally_kept _ _ T).
  - by rewrite N.
Qed.

(** One listener after another; [go] does what [all] says for each. *)
Lemma walk_each_spec go (all : AgentID -> list EventCycle) (path : list AgentID) next : forall s,
  graph_ok w K (cs_graph s) -> cs_onPath s = list_to_set path ->
  (forall to s, to ∉ path -> graph_ok w K (cs_graph s) -> cs_onPath s = {[to]} ∪ list_to_set path ->
     walked s (go to s) (all to)) ->
  walked s (walk_each go next s) (flat_map (fun to => if decide (to ∈ path) then [] else all to) next).
Proof.
  induction next as [|to rest IH]; intros s Hg Hp Hgo; cbn [walk_each flat_map].
  { apply walked_none; auto using tally_refl. }
  destruct (stopped s) eqn:Es; [apply walked_stop; auto using tally_refl|].
  destruct (spend (cs_graph s)) as [g ok] eqn:E. apply spend_spec in E as (T & N & X).
  pose proof (graph_ok_tally _ _ T N Hg) as Hg1. destruct ok; cbn [negb].
  2: { apply walked_stop; auto. apply exhausted_stops. by apply X. }
  assert (bool_decide (to ∈ cs_onPath s) = bool_decide (to ∈ path)) as ->
    by (apply bool_decide_ext; rewrite Hp; apply elem_of_list_to_set).
  destruct (decide (to ∈ path)) as [Hin|Hin]; [rewrite bool_decide_true by done|rewrite bool_decide_false by done].
  - set (s1 := MkCycleSearch g (cs_onPath s) (cs_found s)). cbn [app].
    destruct (IH s1 Hg1 Hp Hgo) as [G' T' P' F' B']. split; [done| |done|done|done].
    exact (tally_trans _ _ _ T T').
  - set (s1 := MkCycleSearch g ({[to]} ∪ cs_onPath s) (cs_found s)).
    destruct (Hgo to s1 Hin Hg1) as [G2 T2 P2 F2 B2]; [by cbn; rewrite Hp|].
    set (s2 := go to s1) in *. set (s3 := MkCycleSearch (cs_graph s2) (cs_onPath s2 ∖ {[to]}) (cs_found s2)).
    assert (cs_onPath s3 = cs_onPath s) as P3.
    { cbn. rewrite P2. cbn. rewrite Hp. apply set_eq. clear - Hin. set_solver. }
    apply (walked_seq s s3).
    + intros Hs. destruct rest; cbn [walk_each]; [done|]. by rewrite Hs.
    + split; [done|exact (tally_trans _ _ _ T T2)|done|exact F2|exact B2].
    + intros _. apply IH; [done|by rewrite P3|done].
Qed.

Lemma walk_spec more : forall path at_ s,
  graph_ok w K (cs_graph s) -> cs_onPath s = list_to_set path ->
  walked s (walk agent more path at_ s) (extensions w agent K more path at_).
Proof.
  induction more as [|more IH]; intros path at_ s Hg Hp; cbn [walk extensions];
    destruct (successors (cs_graph s) at_) as [g r] eqn:E;
    apply (successors_spec w K) in E as (T & Hg1 & Hr); try done;
    destruct r as [next|]; try (by apply walked_stop; [done|done|done|done|apply exhausted_stops]);
    destruct Hr as [Hx ->].
  - assert (binary_search (next_of w K at_) agent = bool_decide (edge w at_ agent)) as ->.
    { apply eq_iff_eq_true. rewrite (binary_search_In _ _ (next_of_sorted w K at_)), next_of_In, bool_decide_eq_true.
      tauto. }
    destruct (decide (edge w at_ agent)) as [He|He]; [rewrite bool_decide_true by done|
      rewrite bool_decide_false by done; by apply walked_none].
    destruct (spend g) as [g2 ok] eqn:E2. apply spend_spec in E2 as (T2 & N2 & X2).
    pose proof (graph_ok_tally _ _ T2 N2 Hg1) as Hg2. pose proof (tally_trans _ _ _ T T2) as T12.
    destruct ok; [|apply walked_stop; auto; apply exhausted_stops; by apply X2].
    split; [done|done|done| |]; cbn.
    + exists [path]. done.
    + rewrite length_app. cbn. unfold MaxEventCycles. lia.
  - set (s1 := MkCycleSearch g (cs_onPath s) (cs_found s)).
    enough (walked s1 (walk_each (fun to => walk agent more (path ++ [to]) to) (next_of w K at_) s1)
              (flat_map (fun to => if decide (to ∈ path) then [] else extensions w agent K more (path ++ [to]) to)
                 (next_of w K at_))) as [G' T' P' F' B'].
    { split; [done|exact (tally_trans _ _ _ T T')|done|done|done]. }
    apply (walk_each_spec _ (fun to => extensions w agent K more (path ++ [to]) to)); [done|done|].
    intros to s2 Hto Hg2 Hp2. apply IH; [done|]. rewrite Hp2, list_to_set_app_L. cbn. clear. set_solver.
Qed.

Lemma walk_lengths_spec rounds : forall more s,
  graph_ok w K (cs_graph s) -> cs_onPath s = {[agent]} ->
  walked s (walk_lengths agent rounds more s)
    (flat_map (fun more => extensions w agent K more [agent] agent) (seq more rounds)).
Proof.
  induction rounds as [|rounds IH]; intros more s Hg Hp; cbn [walk_lengths seq flat_map].
  { apply walked_none; auto using tally_refl. }
  destruct (stopped s) eqn:Es; [apply walked_stop; auto using tally_refl|].
  pose proof (walk_spec more [agent] agent s Hg) as W. specialize (W ltac:(rewrite Hp; cbn; clear; set_solver)).
  eapply walked_seq; [|exact W|].
  - intros Hs. destruct rounds; cbn [walk_lengths]; [done|]. by rewrite Hs.
  - intros _. apply IH; [apply W|]. by rewrite (walked_path _ _ _ W).
Qed.
End Walking.
