(* ===== verification/EventCycleShortest.v ===== *)
(** * Event cycles: the fallback names a shortest cycle

    [shortestCycle] (src/internal/domain/event_cycle_graph.go) walks breadth
    first from the agent. Its parents form a tree whose depths grow along the
    queue, so the first way back to the agent is as short as any, and a queue
    that empties is a graph without one. *)

From Stdlib Require Import ZArith Lia String Sorting.Sorted.
From stdpp Require Import base list strings gmap.
From S2P Require Import Prelude GoStrings Domain EventCycle EventCycleSafety.

Local Open Scope string_scope.

Section Shortest.
Context (w : EventWiring) (agent : AgentID) (K : gset AgentID).
Context (HK : agent ∈ K) (Hsub : K ⊆ everyone w agent).

Implicit Types (parent : gmap AgentID AgentID) (d : AgentID -> nat) (P : gset AgentID).

(** ** The tree *)

(** [d] is the depth of every agent met. *)
Record tree parent d : Prop := {
  tree_root : d agent = 0%nat;
  tree_parent : forall to p, parent !! to = Some p ->
    to <> agent /\ to ∈ K /\ edge w p to /\ (p = agent \/ p ∈ dom parent) /\ d to = S (d p)
}.

Definition met parent (x : AgentID) : Prop := x = agent \/ x ∈ dom parent.

Lemma tree_step parent d x :
  tree parent d -> met parent x -> x <> agent ->
  exists p, parent !! x = Some p /\ edge w p x /\ met parent p /\ d x = S (d p).
Proof.
  intros Ht [->|Hx] Hne; [done|]. apply elem_of_dom in Hx as (p & Hp).
  destruct (tree_parent _ _ Ht _ _ Hp) as (_ & _ & He & Hm & Hd). by exists p.
Qed.

(** Back to the agent along the parents, and on along [tail]. *)
Lemma path_back_chained parent d fuel : forall v tail,
  tree parent d -> met parent v -> (d v < fuel)%nat -> chained w agent v tail ->
  exists rest, (rev (path_back fuel parent agent v) ++ tail)%list = agent :: rest /\ chained w agent agent rest.
Proof.
  induction fuel as [|fuel IH]; intros v tail Ht Hm Hd Hc; [lia|]. cbn [path_back rev].
  destruct (String.eqb_spec v agent) as [->|Hne]; [cbn; eauto|].
  destruct (tree_step _ _ _ Ht Hm Hne) as (p & Hp & He & Hmp & Hdp). rewrite Hp. cbn [from_option id rev].
  rewrite <- app_assoc. cbn [app]. apply IH; [done|done|lia|]. by split.
Qed.

Lemma path_back_facts parent d fuel : forall v,
  tree parent d -> met parent v -> (d v < fuel)%nat ->
  List.length (path_back fuel parent agent v) = S (d v) /\
  NoDup (path_back fuel parent agent v) /\
  forall x, x ∈ path_back fuel parent agent v -> met parent x /\ (d x <= d v)%nat.
Proof.
  induction fuel as [|fuel IH]; intros v Ht Hm Hd; [lia|]. cbn [path_back].
  destruct (String.eqb_spec v agent) as [->|Hne].
  - cbn. rewrite (tree_root _ _ Ht). split; [done|]. split; [apply NoDup_singleton|].
    intros x ->%list_elem_of_singleton. split; [by left|]. by rewrite (tree_root _ _ Ht).
  - destruct (tree_step _ _ _ Ht Hm Hne) as (p & Hp & He & Hmp & Hdp). rewrite Hp. cbn [from_option id].
    destruct (IH p Ht Hmp) as (L & N & X); [lia|]. split; [cbn; lia|]. split.
    + constructor; [|done]. intros Hin. apply X in Hin as [_ Hin]. lia.
    + intros x [->|Hx]%elem_of_cons; [done|]. apply X in Hx as [? ?]. split; [done|lia].
Qed.

Lemma depth_bound parent d v : tree parent d -> met parent v -> (d v <= size parent)%nat.
Proof.
  intros Ht Hm. destruct (path_back_facts parent d (S (d v)) v Ht Hm) as (L & N & X); [lia|].
  assert (S (d v) <= size ({[agent]} ∪ dom parent))%nat as Hs.
  { rewrite <- L. apply NoDup_size; [done|]. intros x Hx. apply X in Hx as [[->|Hx] _]; set_solver. }
  rewrite size_union_alt, size_singleton in Hs.
  pose proof (subseteq_size (dom parent ∖ {[agent]}) (dom parent) ltac:(set_solver)) as Hd.
  rewrite size_dom in Hd. lia.
Qed.

(** A way back from [v] closes a cycle as long as [v] is deep. *)
Lemma pathTo_elementary parent d v :
  tree parent d -> met parent v -> edge w v agent ->
  elementary w agent (pathTo parent agent v) /\ List.length (pathTo parent agent v) = S (d v).
Proof.
  intros Ht Hm He. unfold pathTo. pose proof (depth_bound _ _ _ Ht Hm) as Hb.
  destruct (path_back_facts parent d (S (size parent)) v Ht Hm) as (L & N & _); [lia|].
  destruct (path_back_chained parent d (S (size parent)) v [] Ht Hm) as (rest & E & Hc); [lia|done|].
  rewrite app_nil_r in E. split.
  - exists rest. split; [done|]. split; [|done].
    apply NoDup_ListNoDup, NoDup_rev, NoDup_ListNoDup, N.
  - by rewrite length_rev.
Qed.

(** ** The walk *)

(** [P] are the agents done with, [from] is at hand and [queue] waits; depths
    grow from one to the next. *)
Record bfs P (from : AgentID) parent (queue : list AgentID) d : Prop := {
  bfs_tree : tree parent d;
  bfs_cover : forall x, met parent x <-> x ∈ P \/ x = from \/ x ∈ queue;
  bfs_once : NoDup (from :: queue);
  bfs_apart : forall x, x ∈ from :: queue -> x ∉ P;
  bfs_done : forall u v, u ∈ P -> edge w u v -> v ∈ K -> v <> agent /\ v ∈ dom parent /\ (d v <= S (d u))%nat;
  bfs_low : forall x, x ∈ P -> (d x <= d from)%nat;
  bfs_high : forall x, x ∈ queue -> (d from <= d x <= S (d from))%nat;
  bfs_sorted : StronglySorted (fun x y => (d x <= d y)%nat) queue
}.

(** Agents shallower than the one at hand are done with, so no way back was
    shorter. *)
Lemma bfs_minimal P from parent queue d u rest i :
  bfs P from parent queue d -> met parent u -> (d u <= i)%nat -> chained w agent u rest ->
  (forall x, x ∈ rest -> x ∈ K) -> (d from <= i + List.length rest)%nat.
Proof.
  intros Hb. revert u i. induction rest as [|b rest IH]; intros u i Hm Hd Hc Hk; cbn in *.
  all: destruct (le_lt_dec (d from) (d u)) as [|Hlt]; [lia|].
  all: assert (u ∈ P) as Hu
    by (apply (bfs_cover _ _ _ _ _ Hb) in Hm as [|[->|Hq]]; [done|lia|
          apply (bfs_high _ _ _ _ _ Hb) in Hq; lia]).
  - destruct (bfs_done _ _ _ _ _ Hb u agent Hu Hc HK) as [Hne _]. done.
  - destruct Hc as [He Hc]. assert (b ∈ K) as Hbk by (apply Hk, list_elem_of_here).
    destruct (bfs_done _ _ _ _ _ Hb u b Hu He Hbk) as (_ & Hmb & Hdb).
    enough (d from <= S i + List.length rest)%nat by lia.
    apply (IH b); [by right|lia|done|]. intros x Hx. by apply Hk, list_elem_of_further.
Qed.

Definition shortest (c : EventCycle) : Prop :=
  elementary w agent c /\
  forall c', elementary w agent c' -> (forall x, x ∈ c' -> x ∈ K) -> (List.length c <= List.length c')%nat.

Lemma bfs_found P from parent queue d :
  bfs P from parent queue d -> edge w from agent -> shortest (pathTo parent agent from).
Proof.
  intros Hb He. assert (met parent from) as Hm by (apply (bfs_cover _ _ _ _ _ Hb); auto).
  destruct (pathTo_elementary parent d from (bfs_tree _ _ _ _ _ Hb) Hm He) as [Hel Hl].
  split; [done|]. intros c' (rest & -> & _ & Hc) Hk. rewrite Hl. cbn.
  enough (d from <= 0 + List.length rest)%nat by lia.
  eapply bfs_minimal; [done|by left|by rewrite (tree_root _ _ (bfs_tree _ _ _ _ _ Hb))|done|].
  intros x Hx. by apply Hk, list_elem_of_further.
Qed.

(** Nothing met is more than one deeper than the agent at hand. *)
Lemma bfs_shallow P from parent queue d x :
  bfs P from parent queue d -> met parent x -> (d x <= S (d from))%nat.
Proof.
  intros Hb Hm. apply (bfs_cover _ _ _ _ _ Hb) in Hm as [Hx|[->|Hx]]; [|lia|].
  - apply (bfs_low _ _ _ _ _ Hb) in Hx. lia.
  - apply (bfs_high _ _ _ _ _ Hb) in Hx. lia.
Qed.

Definition deepen d (to : AgentID) (n : nat) : AgentID -> nat := fun x => if decide (x = to) then n else d x.

(** A new agent joins the end of the queue one deeper than the one at hand. *)
Lemma bfs_push P from parent queue d to :
  bfs P from parent queue d -> to <> agent -> to ∈ K -> edge w from to -> parent !! to = None ->
  bfs P from (<[to := from]> parent) (queue ++ [to]) (deepen d to (S (d from))) /\
  (forall x, met parent x -> deepen d to (S (d from)) x = d x).
Proof.
  intros [Ht Hcov Hon Hap Hdn Hlo Hhi Hso] Hne Hk He Hnone.
  assert (~ met parent to) as Hnew by (intros [->|Hin]; [done|]; apply elem_of_dom in Hin as [? ?]; congruence).
  assert (forall x, met parent x -> deepen d to (S (d from)) x = d x) as Hold.
  { intros x Hx. unfold deepen. rewrite decide_False; [done|]. by intros ->. }
  assert (met parent from) as Hf by (apply Hcov; auto).
  assert (forall x, x ∈ P -> met parent x) as HP by (intros x Hx; apply Hcov; auto).
  assert (forall x, x ∈ queue -> met parent x) as HQ by (intros x Hx; apply Hcov; auto).
  assert (deepen d to (S (d from)) to = S (d from)) as Hto by (unfold deepen; by rewrite decide_True).
  split; [|done]. split.
  - split; [by rewrite Hold; [apply Ht|left]|]. intros x p [[<- <-]|[Hx Hp]]%lookup_insert_Some.
    + split_and!; try done; [|by rewrite Hto, Hold]. destruct Hf as [->|Hf]; [by left|right]. set_solver.
    + destruct (tree_parent _ _ Ht x p Hp) as (H1 & H2 & H3 & H4 & H5).
      split_and!; try done; [destruct H4; [by left|right; set_solver]|].
      rewrite !Hold; [done|by destruct H4; [left|right]|]. right. apply elem_of_dom. by eexists.
  - intros x. unfold met. rewrite dom_insert_L, elem_of_union, elem_of_singleton, elem_of_app, list_elem_of_singleton.
    specialize (Hcov x). unfold met in Hcov. tauto.
  - apply NoDup_cons in Hon as [Hfq Hon]. apply NoDup_cons. split.
    + rewrite elem_of_app, list_elem_of_singleton. intros [| ->]; [done|]. by apply Hnew.
    + apply NoDup_app. split; [done|]. split; [|apply NoDup_singleton].
      intros x Hx ->%list_elem_of_singleton. by apply Hnew, HQ.
  - intros x [->|Hx]%elem_of_cons; [apply Hap, list_elem_of_here|].
    apply elem_of_app in Hx as [Hx| ->%list_elem_of_singleton]; [by apply Hap, list_elem_of_further|].
    intros Hx. by apply Hnew, HP.
  - intros u v Hu Huv Hv. destruct (Hdn u v Hu Huv Hv) as (H1 & H2 & H3).
    split; [done|]. split; [set_solver|]. rewrite !Hold; [done|by apply HP|by right].
  - intros x Hx. rewrite !Hold by auto. by apply Hlo.
  - rewrite (Hold from) by done. intros x [Hx| ->%list_elem_of_singleton]%elem_of_app; [|rewrite Hto; lia].
    rewrite Hold by auto. by apply Hhi.
  - assert (StronglySorted (fun x y => deepen d to (S (d from)) x <= deepen d to (S (d from)) y)%nat queue) as Hs'.
    { clear - Hso HQ Hold. induction Hso as [|x l Hs IH Hx]; constructor.
      - apply IH. intros; apply HQ. by apply list_elem_of_further.
      - rewrite List.Forall_forall in *. intros y Hy. rewrite !Hold; [by apply Hx|..]; apply HQ;
          [apply list_elem_of_further, list_elem_of_In, Hy|apply list_elem_of_here]. }
    clear - Hs' Hhi Hto Hold HQ. induction queue as [|x l IH]; [repeat constructor|].
    apply StronglySorted_inv in Hs' as [Hs Hx]. cbn. constructor.
    + apply IH; [intros y Hy; apply Hhi; by apply list_elem_of_further|
                 intros y Hy; apply HQ; by apply list_elem_of_further|done].
    + apply Forall_app. split; [done|]. constructor; [|constructor]. rewrite Hto, Hold by (apply HQ, list_elem_of_here).
      apply Hhi, list_elem_of_here.
Qed.

(** The listeners of the agent at hand. *)
Lemma visit_spec P from next : forall parent queue d found parent' queue',
  bfs P from parent queue d -> (forall v, In v next -> edge w from v /\ v ∈ K) ->
  visit agent from next parent queue = (found, parent', queue') ->
  match found with
  | Some c => shortest c
  | None => exists d', bfs P from parent' queue' d' /\ met parent' from /\
      forall v, In v next \/ v ∈ dom parent -> v <> agent /\ v ∈ dom parent' /\ (In v next -> (d' v <= S (d' from))%nat)
  end.
Proof.
  induction next as [|to rest IH]; intros parent queue d found parent' queue' Hb Hn; cbn [visit].
  { intros [= <- <- <-]. exists d. split; [done|]. split; [apply (bfs_cover _ _ _ _ _ Hb); auto|].
    intros v [[]|Hv]. split; [|done]. apply elem_of_dom in Hv as (p & Hp).
    by apply (tree_parent _ _ (bfs_tree _ _ _ _ _ Hb) _ _ Hp). }
  destruct (Hn to (or_introl eq_refl)) as [He Hk].
  destruct (String.eqb_spec to agent) as [->|Hne].
  { intros [= <- <- <-]. by eapply bfs_found. }
  assert (forall v, In v rest -> edge w from v /\ v ∈ K) as Hrest by (intros; apply Hn; by right).
  destruct (parent !! to) as [p|] eqn:Ep; intros Hv.
  - specialize (IH _ _ _ _ _ _ Hb Hrest Hv). destruct found as [c|]; [done|].
    destruct IH as (d' & Hb' & Hm & IH). exists d'. split; [done|]. split; [done|].
    intros v Hv'. assert (In v rest \/ v ∈ dom parent) as Hv''.
    { destruct Hv' as [[->|]|]; [|auto..]. right. apply elem_of_dom. by eexists. }
    destruct (IH v Hv'') as (H1 & H2 & H3). split; [done|]. split; [done|]. intros [->|]; [|auto].
    (* already met: no deeper than one below the agent at hand *)
    apply (bfs_shallow _ _ _ _ _ _ Hb'). by right.
  - destruct (bfs_push _ _ _ _ _ to Hb Hne Hk He Ep) as [Hb1 Hold].
    specialize (IH _ _ _ _ _ _ Hb1 Hrest Hv). destruct found as [c|]; [done|].
    destruct IH as (d' & Hb' & Hm & IH). exists d'. split; [done|]. split; [done|].
    intros v Hv'. assert (In v rest \/ v ∈ dom (<[to := from]> parent)) as Hv'' by set_solver.
    destruct (IH v Hv'') as (H1 & H2 & H3). split; [done|]. split; [done|]. intros [->|]; [|auto].
    apply (bfs_shallow _ _ _ _ _ _ Hb'). by right.
Qed.

(** The agent at hand is done with. *)
Lemma bfs_next P from parent queue d x rest :
  bfs P from parent queue d -> queue = x :: rest ->
  (forall v, edge w from v -> v ∈ K -> v <> agent /\ v ∈ dom parent /\ (d v <= S (d from))%nat) ->
  bfs ({[from]} ∪ P) x parent rest d.
Proof.
  intros [Ht Hcov Hon Hap Hdn Hlo Hhi Hso] -> Hf.
  apply NoDup_cons in Hon as [Hfq Hon]. apply StronglySorted_inv in Hso as [Hso Hx].
  rewrite List.Forall_forall in Hx.
  assert (d from <= d x)%nat as Hle by (apply Hhi, list_elem_of_here).
  split; [done| |done| | | | |done].
  - intros y. rewrite Hcov, elem_of_union, elem_of_singleton, elem_of_cons. tauto.
  - intros y Hy. rewrite elem_of_union, elem_of_singleton. intros [->|HP]; [done|].
    by apply (Hap y); [apply list_elem_of_further|].
  - intros u v [->%elem_of_singleton|Hu]%elem_of_union Huv Hv; [by apply Hf|by apply Hdn].
  - intros y [->%elem_of_singleton|Hy]%elem_of_union; [done|]. specialize (Hlo y Hy). lia.
  - intros y Hy. split; [apply Hx; by apply list_elem_of_In|].
    specialize (Hhi y (list_elem_of_further _ _ _ Hy)). lia.
Qed.

(** Nothing waits: every agent met was done with, and none led back. *)
Lemma bfs_empty P from parent d u rest :
  bfs P from parent [] d ->
  (forall v, edge w from v -> v ∈ K -> v <> agent /\ v ∈ dom parent /\ (d v <= S (d from))%nat) ->
  met parent u -> chained w agent u rest -> (forall x, x ∈ rest -> x ∈ K) -> False.
Proof.
  intros Hb Hf. revert u. induction rest as [|b rest IH]; intros u Hm Hc Hk.
  all: assert (forall v, edge w u v -> v ∈ K -> v <> agent /\ v ∈ dom parent) as Hu.
  1,3: intros v He Hv; apply (bfs_cover _ _ _ _ _ Hb) in Hm as [Hu|[->|Hq]];
       [edestruct (bfs_done _ _ _ _ _ Hb u v) as (? & ? & _); eauto|
        edestruct (Hf v) as (? & ? & _); eauto|by apply elem_of_nil in Hq].
  - by destruct (Hu agent Hc HK).
  - destruct Hc as [He Hc]. apply (IH b); [right|done|intros; by apply Hk, list_elem_of_further].
    apply (Hu b He). apply Hk, list_elem_of_here.
Qed.

Lemma met_known P from parent queue d x :
  bfs P from parent queue d -> x ∈ P \/ x = from \/ x ∈ queue -> x ∈ everyone w agent.
Proof.
  intros Hb Hx. apply (bfs_cover _ _ _ _ _ Hb) in Hx as [->|Hx]; [unfold everyone; set_solver|].
  apply elem_of_dom in Hx as (p & Hp). apply Hsub. by apply (tree_parent _ _ (bfs_tree _ _ _ _ _ Hb) _ _ Hp).
Qed.

(** Enough fuel: each round is done with one more agent. *)
Lemma shortest_loop_spec fuel : forall P from rest parent d g g' r,
  bfs P from parent rest d -> graph_ok w K g ->
  (size (everyone w agent) <= fuel + size P)%nat ->
  shortest_loop fuel agent g parent (from :: rest) = (g', r) ->
  tally g g' /\
  match r with
  | Some c => shortest c
  | None => g_exhausted g' = false ->
      forall c, elementary w agent c -> (forall x, x ∈ c -> x ∈ K) -> False
  end.
Proof.
  induction fuel as [|fuel IH]; intros P from rest parent d g g' r Hb Hg Hf; cbn [shortest_loop].
  { exfalso. assert (size ({[from]} ∪ P) <= size (everyone w agent))%nat as Hs.
    { apply subseteq_size. intros x [->%elem_of_singleton|Hx]%elem_of_union; eapply met_known; eauto. }
    rewrite size_union, size_singleton in Hs; [lia|].
    apply disjoint_singleton_l. apply (bfs_apart _ _ _ _ _ Hb), list_elem_of_here. }
  destruct (successors g from) as [g1 r1] eqn:E1. apply (successors_spec w K) in E1 as (T1 & Hg1 & Hr1); [|done].
  destruct r1 as [next|]; [|intros [= <- <-]; split; [done|congruence]].
  destruct Hr1 as [Hx ->].
  destruct (visit agent from (next_of w K from) parent rest) as [[found parent1] queue1] eqn:Ev.
  eapply visit_spec in Ev; [|exact Hb|by intros v Hv%next_of_In].
  destruct found as [c|]; [by intros [= <- <-]|].
  destruct Ev as (d1 & Hb1 & Hm1 & Hv1).
  assert (forall v, edge w from v -> v ∈ K -> v <> agent /\ v ∈ dom parent1 /\ (d1 v <= S (d1 from))%nat) as Hdone.
  { intros v He Hv. assert (In v (next_of w K from)) as Hin by (by apply next_of_In).
    destruct (Hv1 v (or_introl Hin)) as (H1 & H2 & H3). auto. }
  destruct queue1 as [|x queue1].
  - destruct fuel; cbn [shortest_loop]; intros [= <- <-]; (split; [done|]); intros _ c (rest' & -> & _ & Hc) Hk;
      (eapply bfs_empty; [exact Hb1|exact Hdone|left; reflexivity|exact Hc|]); intros y Hy; by apply Hk, list_elem_of_further.
  - intros Hl. eapply IH in Hl as [T2 Hr]; [|by eapply bfs_next|done|].
    + split; [by eapply tally_trans|done].
    + rewrite size_union, size_singleton; [lia|].
      apply disjoint_singleton_l. apply (bfs_apart _ _ _ _ _ Hb1), list_elem_of_here.
Qed.

Lemma shortestCycle_spec g g' r :
  graph_ok w K g -> shortestCycle g agent = (g', r) ->
  tally g g' /\
  match r with
  | Some c => shortest c
  | None => g_exhausted g' = false ->
      forall c, elementary w agent c -> (forall x, x ∈ c -> x ∈ K) -> False
  end.
Proof.
  intros Hg. unfold shortestCycle. apply (shortest_loop_spec _ ∅ agent [] ∅ (fun _ => 0%nat)); [|done|].
  - split; [split; [done|by intros to p; rewrite lookup_empty]| | | | | | |constructor].
    + intros x. unfold met. rewrite dom_empty_L. set_solver.
    + apply NoDup_singleton.
    + intros x _. apply not_elem_of_empty.
    + by intros u v ?%elem_of_empty.
    + done.
    + by intros x ?%elem_of_nil.
  - rewrite (graph_wiring _ _ _ Hg), size_empty. pose proof (everyone_size w agent). lia.
Qed.
End Shortest.

(** ** What a search answers *)

(** An elementary cycle no longer than any other through the agent. *)
Definition shortest_through (w : EventWiring) (agent : AgentID) (c : EventCycle) : Prop :=
  elementary w agent c /\ forall c', elementary w agent c' -> (List.length c <= List.length c')%nat.

(** An answer of a search over the wiring, whatever its budget left. *)
Record search_answers (w : EventWiring) (agent : AgentID) (s : EventCycleSearch) : Prop := {
  answer_work : (ES_Work s <= MaxCycleWork)%Z;
  answer_few : (List.length (ES_Cycles s) <= MaxEventCycles)%nat;
  answer_exact : ES_Truncated s = false -> ES_Cycles s = all_cycles w agent;
  answer_prefix : ES_Cycles s `prefix_of` all_cycles w agent \/
    exists c, ES_Cycles s = [c] /\ shortest_through w agent c;
  answer_none : ES_Cycles s = [] -> all_cycles w agent <> [] ->
    ES_Truncated s = true /\ (Z.quot MaxCycleWork 2 <= ES_Work s)%Z
}.

Lemma elementary_kept w agent F B c x :
  closed w agent F B -> elementary w agent c -> x ∈ c -> x ∈ F ∩ B.
Proof.
  intros H (rest & -> & _ & Hc) [->|Hx]%elem_of_cons; [apply elem_of_intersection; split; apply H|].
  eapply chained_kept; [done|apply H|exact Hc|done].
Qed.

(** An agent whose events start no kept agent is on no cycle. *)
Lemma no_way_out w agent F B :
  closed w agent F B -> next_of w (F ∩ B) agent = [] -> all_cycles w agent = [].
Proof.
  intros H Hn. destruct (all_cycles w agent) as [|c l] eqn:E; [done|]. exfalso.
  assert (elementary w agent c) as Hc by (apply all_cycles_In; rewrite E; by left).
  pose proof (fun x => elementary_kept w agent F B c x H Hc) as Hk. destruct Hc as (rest & -> & _ & Hc).
  assert (exists b, b ∈ F ∩ B /\ edge w agent b) as (b & Hb & He).
  { destruct rest as [|b rest]; [exists agent|exists b]; (split; [apply Hk; set_solver|apply Hc]). }
  assert (In b (next_of w (F ∩ B) agent)) as Hin by (by apply next_of_In). by rewrite Hn in Hin.
Qed.

Lemma allow_ok w K g limit : graph_ok w K g -> graph_ok w K (allow g limit).
Proof. by intros []; split. Qed.

(** The walk came back with nothing: the reserve goes to one shortest cycle. *)
Lemma fallback_answers w agent F B g truncated g' r :
  closed w agent F B -> F ∩ B ⊆ everyone w agent -> graph_ok w (F ∩ B) g ->
  (g_work g <= MaxCycleWork)%Z -> (truncated = false -> all_cycles w agent = []) ->
  shortestCycle (allow g MaxCycleWork) agent = (g', r) ->
  search_answers w agent (MkSearch (option_list r) (truncated || g_exhausted g') (g_work g')).
Proof.
  intros HFB Hsub Hok Hw Htr E.
  eapply (shortestCycle_spec w agent (F ∩ B)) in E as [T Hr];
    [|apply elem_of_intersection; split; apply HFB|done|by apply allow_ok].
  assert (g_limit g' = MaxCycleWork) as Hlim by (by rewrite (tally_limit _ _ T)).
  assert (g_work g' <= MaxCycleWork)%Z as Hwork by (rewrite <- Hlim; by apply T).
  assert (forall c, elementary w agent c -> forall x, x ∈ c -> x ∈ F ∩ B) as Hk
    by (intros; by eapply elementary_kept).
  destruct r as [c|]; cbn [option_list].
  - destruct Hr as [Hel Hmin].
    assert (In c (all_cycles w agent)) as Hin by (by apply all_cycles_In).
    split; cbn -[all_cycles]; [done|unfold MaxEventCycles; lia| | |done].
    + intros [Ht _]%orb_false_iff. by rewrite (Htr Ht) in Hin.
    + right. exists c. split; [done|]. split; [done|]. intros c' Hc'. apply Hmin; [done|by apply Hk].
  - split; cbn -[all_cycles]; [done|unfold MaxEventCycles; lia| | |].
    + intros [Ht _]%orb_false_iff. by rewrite (Htr Ht).
    + left. apply prefix_nil.
    + intros _ Hne. assert (g_exhausted g' = true) as Hx.
      { destruct (g_exhausted g') eqn:Ex; [done|]. exfalso. destruct (all_cycles w agent) as [|c l] eqn:Ea; [done|].
        assert (elementary w agent c) as Hc by (apply all_cycles_In; rewrite Ea; by left).
        by apply (Hr eq_refl c Hc), Hk. }
      split; [by rewrite Hx, orb_true_r|].
      assert (spent_out g') as Hs by (by apply T). specialize (Hs Hx). rewrite Hlim in Hs.
      etrans; [|exact Hs]. by vm_compute.
Qed.

Lemma through_answers w agent : search_answers w agent (EventCyclesThrough w agent).
Proof.
  unfold EventCyclesThrough.
  destruct (newCycleGraph_spec w agent (Z.quot MaxCycleWork 2) ltac:(by vm_compute)) as (W0 & L0 & S0 & G0).
  set (g0 := newCycleGraph w agent (Z.quot MaxCycleWork 2)) in *.
  assert (forall g, g_limit g = Z.quot MaxCycleWork 2 -> (g_work g <= g_limit g)%Z -> (g_work g <= MaxCycleWork)%Z) as Hhalf
    by (intros g ->; change (Z.quot MaxCycleWork 2) with 50000%Z; unfold MaxCycleWork; lia).
  assert (forall g, g_limit g = Z.quot MaxCycleWork 2 -> (g_work g <= g_limit g)%Z -> spent_out g ->
    g_exhausted g = true -> search_answers w agent (MkSearch [] true (g_work g))) as Hout.
  { intros g Hl Hw Hs Hx. split; cbn -[all_cycles]; [by apply Hhalf|unfold MaxEventCycles; lia|done|left; apply prefix_nil|].
    intros _ _. split; [done|]. rewrite <- Hl. by apply Hs. }
  destruct (g_exhausted g0) eqn:Ex.
  { unfold successors. rewrite Ex. by apply Hout. }
  destruct (G0 eq_refl) as (F & B & HFB & Hok & Hsub).
  destruct (successors g0 agent) as [g1 first] eqn:E1.
  apply (successors_spec w (F ∩ B)) in E1 as (T1 & Hok1 & Hf); [|done].
  assert (g_limit g1 = Z.quot MaxCycleWork 2) as L1 by (by rewrite (tally_limit _ _ T1)).
  assert (g_work g1 <= g_limit g1)%Z as W1 by (by apply T1).
  destruct first as [next|]; [|apply Hout; auto; by apply T1]. destruct Hf as [Ex1 ->].
  destruct (next_of w (F ∩ B) agent) as [|x0 next] eqn:En.
  { pose proof (no_way_out w agent F B HFB En) as Hnone.
    split; cbn -[all_cycles]; [by apply Hhalf|unfold MaxEventCycles; lia|done|left; apply prefix_nil|by rewrite Hnone]. }
  rewrite (graph_kept _ _ _ Hok1).
  pose proof (walk_lengths_spec w agent (F ∩ B) ltac:(apply elem_of_intersection; split; apply HFB)
    (size (F ∩ B)) 0 (MkCycleSearch g1 {[agent]} []) Hok1 eq_refl) as Hwalk.
  rewrite (kept_cycles w agent F B HFB Hsub) in Hwalk.
  set (s := walk_lengths agent (size (F ∩ B)) 0 (MkCycleSearch g1 {[agent]} [])) in *.
  destruct Hwalk as [Gs Ts _ (l & El & Hpre & Hall) Hfew]. cbn in El, Hfew.
  assert (g_limit (cs_graph s) = Z.quot MaxCycleWork 2) as Ls by (by rewrite (tally_limit _ _ Ts)).
  assert (g_work (cs_graph s) <= g_limit (cs_graph s))%Z as Ws by (by apply Ts).
  rewrite El in *. destruct l as [|c l].
  - destruct (shortestCycle _ agent) as [g2 r] eqn:E2.
    eapply fallback_answers; [exact HFB|exact Hsub|exact Gs|by apply Hhalf| |exact E2].
    intros Hs. by rewrite <- Hall.
  - split; cbn -[all_cycles]; [by apply Hhalf|apply Hfew; unfold MaxEventCycles; lia| |by left|done].
    intros [Hs _]%orb_false_iff. by apply Hall.
Qed.

(** C15. The search for event cycles is exact and says when it is not. [all_cycles]
    lists, once each, shortest first and then by name, exactly the elementary
    cycles of the event graph through the agent; an answer that is not marked
    truncated is that list, and any answer is a beginning of it or, when the
    walk ran out before any cycle, one shortest cycle. *)
Theorem event_cycles_are_exact w agent :
  NoDup (all_cycles w agent) /\ (forall c, In c (all_cycles w agent) <-> elementary w agent c) /\
  let s := EventCyclesThrough w agent in
  (ES_Truncated s = false -> ES_Cycles s = all_cycles w agent) /\
  (ES_Cycles s `prefix_of` all_cycles w agent \/
   exists c, ES_Cycles s = [c] /\ shortest_through w agent c).
Proof.
  split; [apply all_cycles_NoDup|]. split; [apply all_cycles_In|]. split; apply through_answers.
Qed.

(** The search ends within its budget whatever the graph: it spends at most
    [MaxCycleWork] and names at most [MaxEventCycles] cycles; and when the agent
    is on a cycle it names one unless it spent at least half of the budget, and
    then says it was truncated. *)
Theorem cycle_search_is_bounded w agent :
  let s := EventCyclesThrough w agent in
  (ES_Work s <= MaxCycleWork)%Z /\ (List.length (ES_Cycles s) <= MaxEventCycles)%nat /\
  forall c, elementary w agent c ->
    ES_Cycles s <> [] \/ (ES_Truncated s = true /\ (Z.quot MaxCycleWork 2 <= ES_Work s)%Z).
Proof.
  cbv zeta. pose proof (through_answers w agent) as H. split; [apply H|]. split; [apply H|].
  intros c Hc%all_cycles_In.
  destruct (ES_Cycles (EventCyclesThrough w agent)) as [|x l] eqn:E; [|by left].
  right. apply (answer_none _ _ _ H); [done|]. intros Ea. by rewrite Ea in Hc.
Qed.
