(* ===== verification/Registry.v ===== *)
(** * Published versions and the state beside them

    src/internal/spec/registry.go, catalogue.go, approvals.go, events.go,
    state.go, retire.go and publisher.go, over the two tables they write:
    agent_specs, whose rows are inserted once and never changed, and agent_state.
    A json column gives back the document it was given. *)

From Stdlib Require Import ZArith Lia Ascii String.
From stdpp Require Import base list strings gmap.
From S2P Require Import Prelude GoStrings Json JsonFacts Domain Payload Encode Gate Ports Memories MemoryTool Agent Dispatch EventCycle Spec.

Local Open Scope string_scope.

(** ** The rows *)

Record SpecRow := MkSpecRow {
  rw_company : string;
  rw_area : string;
  rw_name : string;
  rw_provider : string;
  rw_model : string;
  rw_effort : string;
  rw_cache_prefix_ttl : string;
  rw_reply_locale : string;
  rw_tools : list string;
  rw_budget : string;
  rw_triggers : string;
  rw_instructions : string;
  rw_source : string;
  rw_published_by : string;
  rw_published_at : Time;
  rw_emits : string;
  rw_steps : string;
  rw_memory_learning : string;
  rw_approvals : string;
  rw_fallback_provider : string;
  rw_fallback_model : string;
  rw_standing_approvals : string
}.

Record StateRow := MkStateRow {
  sw_paused : bool;
  sw_stage : string;
  sw_current : option string;
  sw_retired : bool;
  sw_changed_by : string
}.

Record Tables := MkTables {
  tb_specs : gmap (string * string) SpecRow;
  tb_state : gmap string StateRow
}.

Definition no_tables : Tables := MkTables ∅ ∅.

(** A row as the table makes it. *)
Definition new_state : StateRow := MkStateRow true StageDraft None false "".

Inductive RegistryError :=
| ErrNotPublished
| ErrNotPublishable
| ErrOtherCompany
| ErrColumn
| ErrUnreadableApprovals
| ErrStageRefused (stage : Stage)
| ErrNotAStage.

(** ** Writing a version (registry.go) *)

Definition triggersOf (s : Spec) : list AgentTrigger :=
  List.map (fun t => MkAgentTrigger (Tg_Type t) (Tg_Schedule t) (Tg_Path t) (Tg_Event t) (Tg_From t) (Tg_Events t))
    (Sc_Triggers s).

Definition read_trigger (t : AgentTrigger) : Trigger :=
  MkTrigger (At_Type t) (At_Schedule t) (At_Path t) (At_Event t) (At_From t) (At_Events t).

#[export] Instance SpecStep_eq_dec : EqDecision SpecStep.
Proof. solve_decision. Defined.

Definition zeroSpecStep : SpecStep := MkSpecStep "" [] "" "" "".

Definition d_SpecStep : decoder SpecStep := d_struct (fun cur fs =>
  f0 ← field "name" d_string (Sp_Name cur) fs;
  f1 ← field "reaches" (d_list "" d_string) (Sp_Reaches cur) fs;
  f2 ← field "stops_when" d_string (Sp_StopsWhen cur) fs;
  f3 ← field "model" d_string (Sp_Model cur) fs;
  f4 ← field "effort" d_string (Sp_Effort cur) fs;
  mret (MkSpecStep f0 f1 f2 f3 f4)).

Definition e_SpecStep (s : SpecStep) : json := obj [
  fld "name" c_string (Sp_Name s);
  fopt "reaches" (c_list c_string) (Sp_Reaches s);
  fopt "stops_when" c_string (Sp_StopsWhen s);
  fopt "model" c_string (Sp_Model s);
  fopt "effort" c_string (Sp_Effort s)].

Definition c_SpecStep : codec SpecStep :=
  struct_codec e_SpecStep d_SpecStep zeroSpecStep (fun s =>
    c_ok c_string (Sp_Name s) /\
    c_ok (c_list c_string) (Sp_Reaches s) /\
    c_ok c_string (Sp_StopsWhen s) /\
    c_ok c_string (Sp_Model s) /\
    c_ok c_string (Sp_Effort s)).

#[export] Instance laws_SpecStep : CodecLaws c_SpecStep.
Proof. struct_laws. Qed.

(** [Emits.UnmarshalJSON]: an item is an event name, or an event. *)
Definition d_emit (item : json) : option AgentEvent :=
  match d_string "" item with
  | (name, true) => Some (MkAgentEvent name "" [])
  | _ => match d_AgentEvent zeroAgentEvent item with (e, true) => Some e | _ => None end
  end.

Definition d_Emits : decoder (list AgentEvent) := fun cur j =>
  match j with
  | JNull => ([], true)
  | JArr items => match mapM d_emit items with Some out => (out, true) | None => (cur, false) end
  | _ => (cur, false)
  end.

(** [json.Unmarshal] of a column. *)
Definition read_column {A} (zero : A) (d : decoder A) (column : string) : result RegistryError A :=
  match unmarshal_into zero d column with
  | (a, true) => Ok a
  | _ => Err ErrColumn
  end.

Definition row_of_spec (s : Spec) (by_ : UserID) (company : CompanyID) (now : Time) : SpecRow :=
  MkSpecRow company (Sc_Area s) (Sc_Name s) (Sc_Provider s) (Sc_Model s) (Sc_Effort s) (Sc_CachePrefixTTL s)
    (Sc_ReplyLocale s) (Sc_Tools s) (marshal c_Budget (Sc_Budget s)) (marshal (c_list c_AgentTrigger) (triggersOf s))
    (Sc_Instructions s) (Sc_Source s) by_ now (marshal (c_list c_AgentEvent) (Sc_Emits s))
    (marshal (c_list c_SpecStep) (Sc_Steps s))
    (marshal c_MemoryLearningPolicy (MemoryLearningPolicy_Normalize (Sc_MemoryLearning s)))
    (marshal c_ApprovalPolicy (ApprovalPolicy_Normalize (Sc_Approvals s)))
    (MPr_Provider (Sc_Fallback s)) (MPr_Model (Sc_Fallback s)) (Sc_StandingApprovals s).

(** Insert, or nothing where the version is already there. *)
Definition publishOn (t : Tables) (s : Spec) (by_ : UserID) (company : CompanyID) (now : Time) : result RegistryError Tables :=
  if String.eqb company "" || String.eqb company Installation then Err ErrNotPublishable
  else if negb (String.eqb (Sc_Company s) "") && negb (String.eqb (Sc_Company s) company) then Err ErrOtherCompany
  else
    let key := (Sc_ID s, Sc_Version s) in
    Ok (match tb_specs t !! key with
        | Some _ => t
        | None => MkTables (<[key := row_of_spec s by_ company now]> (tb_specs t)) (tb_state t)
        end).

(** ** Reading a version *)

(** [decodeApprovals]: one document of the fields this version knows. *)
Definition decodeApprovals (raw : string) : result RegistryError ApprovalPolicy :=
  if String.eqb raw "" || String.eqb raw "null" then Err ErrUnreadableApprovals
  else
    match decode_first raw with
    | None => Err ErrUnreadableApprovals
    | Some (j, _) =>
        match d_ApprovalPolicy zeroApprovalPolicy j with
        | (p, true) =>
            if known_fields ["direct"; "notify"] j then
              let p := ApprovalPolicy_Normalize p in
              match ApprovalPolicy_Validate p with
              | None => Ok p
              | Some _ => Err ErrUnreadableApprovals
              end
            else Err ErrUnreadableApprovals
        | _ => Err ErrUnreadableApprovals
        end
    end.

Definition row_spec (agent : AgentID) (version : VersionID) (r : SpecRow) : result RegistryError Spec :=
  budget ← read_column zeroBudget d_Budget (rw_budget r);
  triggers ← read_column [] (d_list zeroAgentTrigger d_AgentTrigger) (rw_triggers r);
  emits ← read_column [] d_Emits (rw_emits r);
  steps ← read_column [] (d_list zeroSpecStep d_SpecStep) (rw_steps r);
  learning ← read_column zeroMemoryLearningPolicy d_MemoryLearningPolicy (rw_memory_learning r);
  approvals ← decodeApprovals (rw_approvals r);
  Ok (MkSpec agent (rw_name r) (rw_company r) (rw_area r) version (rw_provider r) (rw_model r) (rw_effort r)
        (MkModelPair (rw_fallback_provider r) (rw_fallback_model r)) (rw_cache_prefix_ttl r) (rw_reply_locale r)
        (rw_tools r) budget (MemoryLearningPolicy_Normalize learning) approvals (rw_standing_approvals r)
        (List.map read_trigger triggers) emits steps (rw_instructions r) (rw_source r)).

Definition Registry_Get (t : Tables) (agent : AgentID) (version : VersionID) : result RegistryError Spec :=
  match tb_specs t !! (agent, version) with
  | None => Err ErrNotPublished
  | Some r => row_spec agent version r
  end.

Definition Registry_ApprovalPolicy (t : Tables) (agent : AgentID) (version : VersionID) : result RegistryError ApprovalPolicy :=
  match tb_specs t !! (agent, version) with
  | None => Err ErrNotPublished
  | Some r => decodeApprovals (rw_approvals r)
  end.

(** ** Which version is current (catalogue.go)

    The one somebody chose, else the newest. *)

Record VersionRow := MkVersionRow { vr_agent : AgentID; vr_version : VersionID; vr_row : SpecRow }.

Definition chosen (t : Tables) (v : VersionRow) : bool :=
  match tb_state t !! vr_agent v with
  | Some st => bool_decide (sw_current st = Some (vr_version v))
  | None => false
  end.

(** The choice first, then the newest; two published at one instant, which the
    query leaves open, by name. *)
Definition current_key (t : Tables) (v : VersionRow) : list Z :=
  [if chosen t v then 0%Z else 1%Z; Z.opp (rw_published_at (vr_row v))].

Definition current_before (t : Tables) (a b : VersionRow) : bool :=
  lex_before (current_key t a) (current_key t b) (vr_version a) (vr_version b).

Definition version_rows (t : Tables) : list VersionRow :=
  List.map (fun '((a, v), r) => MkVersionRow a v r) (map_to_list (tb_specs t)).

Definition rows_of_agent (t : Tables) (agent : AgentID) : list VersionRow :=
  sort_by (current_before t) (List.filter (fun v => String.eqb (vr_agent v) agent) (version_rows t)).

Definition scope_matches (scope : Scope) (r : SpecRow) : bool :=
  (String.eqb (Company scope) "" || String.eqb (rw_company r) (Company scope)) &&
  (String.eqb (Area scope) "" || String.eqb (rw_area r) (Area scope)).

(** A row as a list shows it. *)
Definition scanAgent (v : VersionRow) (latest : bool) : result RegistryError AgentSummary :=
  let r := vr_row v in
  budget ← read_column zeroBudget d_Budget (rw_budget r);
  triggers ← read_column [] (d_list zeroAgentTrigger d_AgentTrigger) (rw_triggers r);
  learning ← read_column zeroMemoryLearningPolicy d_MemoryLearningPolicy (rw_memory_learning r);
  Ok (MkAgentSummary "" false false (vr_agent v) (vr_version v) (MkScope (rw_company r) (rw_area r)) (rw_name r)
        (rw_provider r) (rw_model r) (rw_effort r) (MkModelPair (rw_fallback_provider r) (rw_fallback_model r))
        (rw_cache_prefix_ttl r) (rw_reply_locale r) (rw_tools r) budget (MemoryLearningPolicy_Normalize learning)
        triggers (rw_standing_approvals r) (rw_published_by r) (rw_published_at r) latest).

Fixpoint collect {A B} (f : A -> result RegistryError B) (l : list A) : result RegistryError (list B) :=
  match l with
  | [] => Ok []
  | a :: l => b ← f a; bs ← collect f l; Ok (b :: bs)
  end.

(** The agents of the rows a listing is about, by name. *)
Definition listed_agents (vs : list VersionRow) : list AgentID := sort_compact (List.map vr_agent vs).

(** One row per agent: the rows of the scope, and then the current of each. *)
Definition List_current (t : Tables) (scope : Scope) : result RegistryError (list AgentSummary) :=
  let held := List.filter (fun v => scope_matches scope (vr_row v)) (version_rows t) in
  collect (fun v => scanAgent v true)
    (omap (fun agent => hd_error (sort_by (current_before t) (List.filter (fun v => String.eqb (vr_agent v) agent) held)))
       (listed_agents held)).

Definition Registry_Versions (t : Tables) (agent : AgentID) : result RegistryError (list AgentSummary) :=
  match rows_of_agent t agent with
  | [] => Ok []
  | v :: vs => s ← scanAgent v true; rest ← collect (fun v => scanAgent v false) vs; Ok (s :: rest)
  end.

Definition Declaring (t : Tables) (tool : ToolID) : result RegistryError (list AgentSummary) :=
  current ← List_current t zeroScope;
  Ok (List.filter (fun a => existsb (String.eqb tool) (As_Tools a)) current).

(** ** Who publishes what and what starts whom (events.go, event_graph.go) *)

Definition latest (t : Tables) : result RegistryError (list Spec) :=
  summaries ← List_current t zeroScope;
  collect (fun s => Registry_Get t (As_ID s) (As_VersionID s)) summaries.

Definition EmitsOf (t : Tables) (agent : AgentID) (version : VersionID) : result RegistryError (list AgentEvent) :=
  s ← Registry_Get t agent version; Ok (Sc_Emits s).

Definition listeners_from (specs : list Spec) (event : string) : list EventListener :=
  List.concat (List.map (fun s =>
    omap (fun tr => if String.eqb (Tg_Type tr) TriggerEvent_ && negb (String.eqb (Tg_Event tr) "") && String.eqb (Tg_Event tr) event
                    then Some (MkEventListener (Sc_ID s) (Sc_Version s)) else None) (Sc_Triggers s)) specs).

Definition Listeners (t : Tables) : result RegistryError (string -> list EventListener) :=
  specs ← latest t; Ok (listeners_from specs).

(** The two columns a graph is drawn from. *)
Definition declaredEvents (v : VersionRow) : result RegistryError (AgentID * AgentWiring) :=
  let r := vr_row v in
  emits ← read_column [] d_Emits (rw_emits r);
  triggers ← read_column [] (d_list zeroAgentTrigger d_AgentTrigger) (rw_triggers r);
  Ok (vr_agent v,
      MkAgentWiring (List.map Ev_Event emits)
        (omap (fun tr => if String.eqb (At_Type tr) TriggerEvent_ && negb (String.eqb (At_Event tr) "")
                         then Some (At_Event tr) else None) triggers)
        (MkScope (rw_company r) (rw_area r))).

Definition current_rows (t : Tables) : list VersionRow :=
  omap (fun agent => hd_error (rows_of_agent t agent)) (listed_agents (version_rows t)).

Definition wiring (t : Tables) : result RegistryError EventWiring :=
  declared ← collect declaredEvents (current_rows t);
  Ok (fold_left (fun w '(a, x) => <[a := x]> w) declared ∅).

(** ** The state beside a version (state.go, retire.go) *)

Definition with_state (t : Tables) (agent : AgentID) (f : StateRow -> StateRow) : Tables :=
  MkTables (tb_specs t) (<[agent := f (default new_state (tb_state t !! agent))]> (tb_state t)).

(** An agent with no row is paused. *)
Definition IsPaused (t : Tables) (agent : AgentID) : bool :=
  from_option sw_paused true (tb_state t !! agent).

Definition State_StageOf (t : Tables) (agent : AgentID) : Stage :=
  match tb_state t !! agent with Some st => StageOf (sw_stage st) | None => StageDraft end.

Definition SetStage (t : Tables) (agent : AgentID) (stage : Stage) (by_ : UserID) : result RegistryError Tables :=
  if negb (Stage_Valid stage) then Err ErrNotAStage
  else Ok (with_state t agent (fun st => MkStateRow (sw_paused st) stage (sw_current st) (sw_retired st) by_)).

Definition SetPaused (t : Tables) (agent : AgentID) (paused : bool) (by_ : UserID) : Tables :=
  with_state t agent (fun st => MkStateRow paused (sw_stage st) (sw_current st) (sw_retired st) by_).

Definition EnsurePaused (t : Tables) (agent : AgentID) (by_ : UserID) : Tables :=
  match tb_state t !! agent with
  | Some _ => t
  | None => with_state t agent (fun st => MkStateRow true (sw_stage st) (sw_current st) (sw_retired st) by_)
  end.

Definition makeCurrentOn (t : Tables) (agent : AgentID) (version : VersionID) : Tables :=
  with_state t agent (fun st => MkStateRow (sw_paused st) (sw_stage st) (Some version) (sw_retired st) (sw_changed_by st)).

Definition Retire (t : Tables) (agent : AgentID) (by_ : UserID) : Tables :=
  with_state t agent (fun st => MkStateRow true (sw_stage st) (sw_current st) true by_).

Definition Restore (t : Tables) (agent : AgentID) (by_ : UserID) : Tables :=
  match tb_state t !! agent with
  | None => t
  | Some _ => with_state t agent (fun st => MkStateRow true (sw_stage st) (sw_current st) false by_)
  end.

(** ** Publishing (publisher.go) *)

Record Publication := MkPublication {
  Pu_Spec : Spec;
  Pu_By : UserID;
  Pu_Company : CompanyID;
  Pu_RefuseStages : list Stage
}.

Record Published := MkPublished { Pd_EventCycles : EventCycleSearch; Pd_Scopes : gmap string Scope }.

Definition inCompany (s : Spec) (company : CompanyID) : Spec :=
  if String.eqb (Sc_Company s) "" then s <| Sc_Company := company |> else s.

Definition JudgedIn (w : EventWiring) (agent : AgentID) : Published :=
  let found := EventCyclesThrough w agent in
  MkPublished found
    (fold_left (fun scopes a => <[a := from_option AW_Scope zeroScope (w !! a)]> scopes)
       (List.concat (ES_Cycles found)) ∅).

(** The row is made where there is none, and its stage is judged. *)
Definition refuseStage (t : Tables) (agent : AgentID) (refused : list Stage) : result RegistryError Tables :=
  match refused with
  | [] => Ok t
  | _ =>
      let t := match tb_state t !! agent with Some _ => t | None => with_state t agent id end in
      let stage := from_option sw_stage StageDraft (tb_state t !! agent) in
      if existsb (String.eqb (StageOf stage)) refused then Err (ErrStageRefused stage) else Ok t
  end.

(** One transaction: an error leaves the tables as they were. *)
Definition Publisher_Publish (t : Tables) (pub : Publication) (now : Time) : result RegistryError (Tables * Published) :=
  let s := Pu_Spec pub in
  t1 ← refuseStage t (Sc_ID s) (Pu_RefuseStages pub);
  w ← wiring t1;
  let judged := JudgedIn (WiringWith w (inCompany s (Pu_Company pub))) (Sc_ID s) in
  t2 ← publishOn t1 s (Pu_By pub) (Pu_Company pub) now;
  Ok (makeCurrentOn t2 (Sc_ID s) (Sc_Version s), judged).
