(* ===== verification/SpecSafety.v ===== *)
(** * What definitions and their registry promise

    Normal forms of the policies a definition carries, and the columns a version
    is stored in: what was written is what is read. Then the theorems: what
    parsing bounds, what publishing keeps and how a publication is judged. *)

From Stdlib Require Import ZArith Lia Ascii String Sorting.Sorted.
From stdpp Require Import base list strings gmap sorting.
From S2P Require Import Prelude GoStrings Json JsonFacts Regexp Domain Sha256 Payload Encode State Gate Ports Envelope Memories MemoryTool Agent Dispatch EventCycle Spec EventCycleSafety EventCycleShortest Registry.

Local Open Scope string_scope.

(** ** Normal forms *)

Lemma notify_names l : forall out, NoDup out -> Forall (fun x => x <> "" /\ trim_space x = x) out ->
  NoDup (fold_left notify_name l out) /\ Forall (fun x => x <> "" /\ trim_space x = x) (fold_left notify_name l out).
Proof.
  induction l as [|x l IH]; intros out Hn Hf; cbn [fold_left]; [done|]. apply IH; unfold notify_name; cbn zeta;
    destruct (String.eqb_spec (trim_space x) ""); cbn [orb]; try done;
    destruct (existsb (String.eqb (trim_space x)) out) eqn:E; try done.
  - apply NoDup_app. split; [done|]. split; [|apply NoDup_singleton]. intros y Hy ->%list_elem_of_singleton.
    apply list_elem_of_In in Hy. assert (existsb (String.eqb (trim_space x)) out = true); [|congruence].
    apply existsb_exists. exists (trim_space x). by rewrite String.eqb_refl.
  - apply Forall_app. split; [done|]. constructor; [|constructor]. split; [done|apply trim_space_idem].
Qed.

Lemma notify_kept l : forall out, NoDup (out ++ l) -> Forall (fun x => x <> "" /\ trim_space x = x) l ->
  fold_left notify_name l out = (out ++ l)%list.
Proof.
  induction l as [|x l IH]; intros out Hn Hf; cbn [fold_left]; [by rewrite app_nil_r|].
  inversion Hf as [|? ? [Hx Ht] Hf']; subst. unfold notify_name at 2. cbn zeta. rewrite Ht.
  destruct (String.eqb_spec x ""); [done|]. cbn [orb].
  destruct (existsb (String.eqb x) out) eqn:E.
  - apply existsb_exists in E as (y & Hy & ->%String.eqb_eq). apply NoDup_app in Hn as (_ & Hd & _).
    exfalso. apply (Hd y); [by apply list_elem_of_In|left].
  - rewrite IH; [by rewrite <- app_assoc|by rewrite <- app_assoc|done].
Qed.

Lemma approvals_normal p : ApprovalPolicy_Normalize (ApprovalPolicy_Normalize p) = ApprovalPolicy_Normalize p.
Proof.
  unfold ApprovalPolicy_Normalize. cbn [Ay_Direct Ay_Notify]. f_equal.
  destruct (notify_names (Ay_Notify p) [] (NoDup_nil_2) (Forall_nil_2 _)) as [Hn Hf]. by apply (notify_kept _ []).
Qed.

Lemma learning_normal p :
  MemoryLearningPolicy_Normalize (MemoryLearningPolicy_Normalize p) = MemoryLearningPolicy_Normalize p.
Proof.
  destruct p as [mode n d]. unfold MemoryLearningPolicy_Normalize at 2 3. cbn [ML_Mode ML_MinObservations ML_TTLDays].
  destruct (MemoryLearningMode_Valid mode) eqn:Ev; [|done]. unfold MemoryLearningMode_Valid in Ev.
  apply existsb_exists in Ev as (x & Hx & ->%String.eqb_eq).
  repeat destruct Hx as [<-|Hx]; try done; cbn -[Z.leb Z.ltb];
    unfold MemoryLearningPolicy_Normalize; cbn -[Z.leb Z.ltb]; f_equal;
    unfold DefaultMemoryLearningMinObservations, MaxMemoryLearningMinObservations,
      DefaultMemoryLearningTTLDays, MaxMemoryLearningTTLDays;
    repeat match goal with |- context [if ?b then _ else _] =>
      lazymatch b with context [if _ then _ else _] => fail | _ => destruct b eqn:? end end; lia.
Qed.

(** ** Columns *)

Lemma read_marshalled {A} (c : codec A) `{!CodecLaws c} a :
  c_ok c a -> read_column (c_zero c) (c_dec c) (marshal c a) = Ok a.
Proof.
  intros H. unfold read_column, unmarshal_into, marshal. rewrite unmarshal_print by (by apply law_json).
  by rewrite law_read.
Qed.

Lemma read_emit e : c_ok c_AgentEvent e -> d_emit (c_enc c_AgentEvent e) = Some e.
Proof.
  intros He. unfold d_emit. assert (Hs : d_string "" (c_enc c_AgentEvent e) = ("", false)) by reflexivity. rewrite Hs.
  pose proof (law_read (c := c_AgentEvent) e He) as Hr. unfold c_AgentEvent in Hr |- *.
  cbn [struct_codec c_dec c_zero c_enc] in Hr |- *. by rewrite Hr.
Qed.

Lemma mapM_emits l : Forall (c_ok c_AgentEvent) l -> mapM d_emit (List.map (c_enc c_AgentEvent) l) = Some l.
Proof.
  intros H. apply mapM_Some_2. induction H as [|e l He _ IH]; cbn [List.map]; constructor; [by apply read_emit|done].
Qed.

Lemma read_emits l : c_ok (c_list c_AgentEvent) l -> read_column [] d_Emits (marshal (c_list c_AgentEvent) l) = Ok l.
Proof.
  intros H. unfold read_column, unmarshal_into, marshal. rewrite unmarshal_print by (by apply law_json).
  cbn [c_list c_enc d_Emits]. by rewrite mapM_emits.
Qed.

Lemma approvals_known p : known_fields ["direct"; "notify"] (c_enc c_ApprovalPolicy p) = true.
Proof.
  destruct p as [[] [|x l]]; cbn [c_ApprovalPolicy struct_codec c_enc e_ApprovalPolicy obj fopt c_empty c_bool c_list negb
    Ay_Direct Ay_Notify List.concat fld known_fields List.app forallb fst]; vm_compute; reflexivity.
Qed.

Lemma read_approvals p :
  c_ok c_ApprovalPolicy p -> ApprovalPolicy_Normalize p = p -> ApprovalPolicy_Validate p = None ->
  decodeApprovals (marshal c_ApprovalPolicy p) = Ok p.
Proof.
  intros Hok Hn Hv. pose proof (law_json (c := c_ApprovalPolicy) p Hok) as Hj. unfold decodeApprovals, marshal.
  destruct (String.eqb_spec (print_json (c_enc c_ApprovalPolicy p)) "") as [E|_].
  { destruct (print_opens _ Hj) as (x & t & E' & _). congruence. }
  destruct (String.eqb_spec (print_json (c_enc c_ApprovalPolicy p)) "null") as [E|_]; [by apply print_null in E|].
  cbn [orb]. pose proof (decode_print _ "" Hj eq_refl) as Hd. rewrite str_app_nil in Hd. rewrite Hd.
  pose proof (law_read (c := c_ApprovalPolicy) p Hok) as Hr. unfold c_ApprovalPolicy in Hr |- *.
  cbn [struct_codec c_dec c_zero] in Hr. rewrite Hr. fold c_ApprovalPolicy. rewrite approvals_known. cbn zeta. by rewrite Hn, Hv.
Qed.

Lemma learning_ok p : c_ok c_MemoryLearningPolicy (MemoryLearningPolicy_Normalize p).
Proof.
  destruct p as [mode n d]. unfold MemoryLearningPolicy_Normalize. cbn [ML_Mode ML_MinObservations ML_TTLDays].
  destruct (MemoryLearningMode_Valid mode) eqn:Ev; [|vm_compute; auto]. unfold MemoryLearningMode_Valid in Ev.
  apply existsb_exists in Ev as (x & Hx & ->%String.eqb_eq).
  repeat destruct Hx as [<-|Hx]; try done; cbn -[Z.leb Z.ltb in_int64]; (split; [reflexivity|]); split;
    unfold in_int64, DefaultMemoryLearningMinObservations, MaxMemoryLearningMinObservations,
      DefaultMemoryLearningTTLDays, MaxMemoryLearningTTLDays;
    repeat match goal with |- context [if ?b then _ else _] =>
      lazymatch b with context [if _ then _ else _] => fail | _ => destruct b eqn:? end end;
    apply andb_true_iff; split; apply Z.leb_le; unfold int64_min, int64_max; unfold MaxMemoryEvidence in *; bsimp; lia.
Qed.

(** The values of a definition that JSON can carry: integers of 64 bits and
    strings of valid UTF-8. *)
Record encodable (s : Spec) : Prop := {
  en_budget : c_ok c_Budget (Sc_Budget s);
  en_triggers : c_ok (c_list c_AgentTrigger) (triggersOf s);
  en_emits : c_ok (c_list c_AgentEvent) (Sc_Emits s);
  en_steps : c_ok (c_list c_SpecStep) (Sc_Steps s);
  en_approvals : c_ok c_ApprovalPolicy (Sc_Approvals s)
}.

(** A definition with its policies in normal form, as [Parse] leaves them. *)
Record settled_spec (s : Spec) : Prop := {
  se_learning : MemoryLearningPolicy_Normalize (Sc_MemoryLearning s) = Sc_MemoryLearning s;
  se_approvals : ApprovalPolicy_Normalize (Sc_Approvals s) = Sc_Approvals s;
  se_valid : ApprovalPolicy_Validate (Sc_Approvals s) = None
}.

Lemma read_triggers s : List.map read_trigger (triggersOf s) = Sc_Triggers s.
Proof. unfold triggersOf. rewrite List.map_map. rewrite <- (List.map_id (Sc_Triggers s)) at 2. by apply List.map_ext; intros []. Qed.

Lemma row_read s by_ company now : encodable s -> settled_spec s ->
  row_spec (Sc_ID s) (Sc_Version s) (row_of_spec s by_ company now) = Ok (s <| Sc_Company := company |>).
Proof.
  intros E N. unfold row_spec, row_of_spec. cbn [rw_budget rw_triggers rw_emits rw_steps rw_memory_learning rw_approvals].
  assert (Hb : read_column zeroBudget d_Budget (marshal c_Budget (Sc_Budget s)) = Ok (Sc_Budget s))
    by exact (read_marshalled c_Budget _ (en_budget _ E)).
  assert (Ht : read_column [] (d_list zeroAgentTrigger d_AgentTrigger) (marshal (c_list c_AgentTrigger) (triggersOf s)) =
    Ok (triggersOf s)) by exact (read_marshalled (c_list c_AgentTrigger) _ (en_triggers _ E)).
  assert (Hp : read_column [] (d_list zeroSpecStep d_SpecStep) (marshal (c_list c_SpecStep) (Sc_Steps s)) = Ok (Sc_Steps s))
    by exact (read_marshalled (c_list c_SpecStep) _ (en_steps _ E)).
  pose proof (read_marshalled c_MemoryLearningPolicy _ (learning_ok (Sc_MemoryLearning s))) as Hm.
  change (c_zero c_MemoryLearningPolicy) with zeroMemoryLearningPolicy in Hm.
  change (c_dec c_MemoryLearningPolicy) with d_MemoryLearningPolicy in Hm.
  rewrite (se_approvals _ N), Hb, Ht, (read_emits _ (en_emits _ E)), Hp, Hm,
    (read_approvals _ (en_approvals _ E) (se_approvals _ N) (se_valid _ N)).
  cbn [mbind result_mbind]. rewrite read_triggers, learning_normal, (se_learning _ N). by destruct s as [? ? ? ? ? ? ? ? []].
Qed.

(** * What definitions and the registry promise

    Theorems about src/internal/spec: what a parsed definition may reach, that a
    published version never changes, that an agent starts only when somebody
    says so, and that a publication is judged in the graph it makes. *)

(** ** What parsing leaves *)

Lemma concat_nil {A} (l : list (list A)) : List.concat l = [] -> forall x, In x l -> x = [].
Proof.
  induction l as [|y l IH]; cbn; [done|]. intros [H1 H2]%app_eq_nil x [<-|Hx]; [done|by apply IH].
Qed.

Lemma parsed_validate yaml source data s : Parse yaml source data = Ok s ->
  validate s = None /\ settled_spec s /\ Sc_Version s = versionOf data.
Proof.
  unfold Parse. destruct (split data) as [[front body]|]; [|done]. destruct (yaml front) as [fm|]; [|done].
  cbn zeta. destruct (validate (spec_of fm source data body)) as [e|] eqn:E; [done|]. intros [= <-].
  split; [done|]. split; [|done]. constructor.
  - cbn. destruct (Fm_MemoryLearning fm); [apply learning_normal|done].
  - cbn. destruct (Fm_Approvals fm); [apply approvals_normal|done].
  - unfold validate in E. by destruct (ApprovalPolicy_Validate _).
Qed.

(** The checks of a definition, each of them passed. *)
Lemma validate_parts s : validate s = None ->
  (String.eqb (Sc_ID s) "" = false /\ Sc_Tools s <> [] /\
   ((0 < B_Micros (Sc_Budget s)) \/ (0 < B_Steps (Sc_Budget s)))%Z) /\
  triggerProblems (Sc_Triggers s) = [] /\ emitProblems (Sc_Emits s) = [] /\
  stepProblems (Sc_Steps s) (Sc_Tools s) = [].
Proof.
  unfold validate. cbn zeta. destruct (ApprovalPolicy_Validate _); [done|].
  destruct (_ ++ _)%list eqn:E; [intros _|done]. apply app_eq_nil in E as [E _]. pose proof (concat_nil _ E) as H. clear E.
  assert (Hi : forall b p, problem_if b p = [] -> b = false) by (by intros []).
  split; [|repeat split; apply H; cbn; auto 20].
  split; [eapply Hi, H; cbn; auto|]. split.
  - intros Ht. specialize (H (problem_if (bool_decide (Sc_Tools s = [])) PNoTools) ltac:(cbn; auto 20)). apply Hi in H.
    by apply bool_decide_eq_false in H.
  - specialize (H (problem_if ((B_Micros (Sc_Budget s) <=? 0) && (B_Steps (Sc_Budget s) <=? 0))%Z PNoCeiling) ltac:(cbn; auto 20)).
    apply Hi, andb_false_iff in H as [H|H]; apply Z.leb_gt in H; auto.
Qed.

Lemma steps_narrow steps tools : stepProblems steps tools = [] ->
  forall step tool, In step steps -> In tool (Sp_Reaches step) -> ToolID_PlatformOwned tool = false /\ In tool tools.
Proof.
  intros H step tool Hs Ht. unfold stepProblems in H.
  pose proof (concat_nil _ H _ (List.in_map _ _ _ Hs)) as H1. cbn beta in H1.
  pose proof (concat_nil _ H1 _ (List.in_map _ _ _ Ht)) as H2. cbn beta in H2.
  destruct (ToolID_PlatformOwned tool); [done|]. destruct (existsb _ _) eqn:E; [|done].
  apply existsb_exists in E as (x & Hx & ->%String.eqb_eq). done.
Qed.

(** ** What a run of a definition may reach *)

Lemma envelope_within start called tool :
  In tool (envelopeOf start called) ->
  In tool (Sa_Pack start) \/ exists step, In step (Sa_Steps start) /\ In tool (En_Reaches step).
Proof.
  unfold envelopeOf. destruct (Sa_Steps start) as [|e l] eqn:E; [by left|]. unfold NewPack. rewrite sort_compact_In. intros H.
  apply in_concat in H as (reaches & Hr & Ht). apply in_map_iff in Hr as (step & <- & Hs). right. exists step.
  split; [|done]. rewrite <- (firstn_skipn (StepAt start called) (e :: l)). apply in_app_iff. by right.
Qed.

Lemma in_with (b : bool) pack tools tool :
  In tool (if b then withTools pack tools else pack) -> In tool pack \/ In tool tools.
Proof.
  destruct b; [|by left]. unfold withTools, Pack_Tools, NewPack. by rewrite sort_compact_In, in_app_iff.
Qed.

(** What the state adds to the envelope is the platform's own. *)
Lemma state_adds_platform start state tool :
  Pack_Allows (envelopeForState start state) tool = true ->
  In tool (envelopeOf start (St_Called state)) \/ ToolID_PlatformOwned tool = true.
Proof.
  intros H%binary_search_sound. unfold envelopeForState in H. cbn [fold_left] in H.
  assert (Hp : forall ts, In tool ts -> forallb ToolID_PlatformOwned ts = true -> ToolID_PlatformOwned tool = true)
    by (intros ts Hin Hf; rewrite List.forallb_forall in Hf; by apply Hf).
  assert (Hstep : forall (b : bool) pack ts, In tool (if b then withTools pack ts else pack) ->
    forallb ToolID_PlatformOwned ts = true -> In tool pack \/ ToolID_PlatformOwned tool = true).
  { intros b pack ts [Hin|Hin]%in_with Hf; [by left|right; by eapply Hp]. }
  assert (Hlast : forall pack, In tool (match St_ContextArtifacts state with [] => pack | _ => withTools pack [ToolContextRead] end) ->
    In tool pack \/ ToolID_PlatformOwned tool = true).
  { intros pack. destruct (St_ContextArtifacts state); [by left|]. intros Hin. by apply (Hstep true _ _ Hin). }
  apply Hlast in H as [H|?]; [|by right]. clear Hlast.
  do 4 (apply Hstep in H as [H|?]; [|by right|reflexivity]).
  left. unfold withoutTool, Pack_Tools, NewPack in H. rewrite sort_compact_In, filter_In in H. by destruct H.
Qed.

(** C27. A definition bounds its runs. A definition that parses has an identity, a
    capability pack and a ceiling on its cost or its steps, and its version is
    the digest of its file. Whatever a run of it has done so far, and whatever
    its state, the envelope its calls are judged by holds only tools the
    definition lists, and the platform's own. *)
Theorem definitions_bound_their_runs yaml source data s start state tool :
  Parse yaml source data = Ok s ->
  Sa_Pack start = Sa_Pack (resolved_start s) -> Sa_Steps start = Sa_Steps (resolved_start s) ->
  Pack_Allows (envelopeForState start state) tool = true ->
  Sc_ID s <> "" /\ Sc_Tools s <> [] /\ ((0 < B_Micros (Sc_Budget s)) \/ (0 < B_Steps (Sc_Budget s)))%Z /\
  Sc_Version s = versionOf data /\ (In tool (Sc_Tools s) \/ ToolID_PlatformOwned tool = true).
Proof.
  intros (Hv & _ & Hver)%parsed_validate Hpack Hsteps H.
  destruct (validate_parts s Hv) as ((Hid & Ht & Hb) & _ & _ & Hst).
  split; [intros E; by rewrite E in Hid|]. do 3 (split; [done|]).
  apply state_adds_platform in H as [H|H]; [|by right]. left.
  apply envelope_within in H as [H|(step & Hs & H)].
  - rewrite Hpack in H. cbn [resolved_start Sa_Pack] in H. unfold NewPack in H. by rewrite sort_compact_In in H.
  - rewrite Hsteps in Hs. cbn [resolved_start Sa_Steps] in Hs. apply in_map_iff in Hs as (st & <- & Hs).
    by apply (steps_narrow _ _ Hst st tool).
Qed.

(** ** Every write of the registry *)

Inductive registry_op :=
| RPublish (pub : Publication) (now : Time)
| RRegister (s : Spec) (by_ : UserID) (company : CompanyID) (now : Time)
| RMakeCurrent (agent : AgentID) (version : VersionID)
| RSetStage (agent : AgentID) (stage : Stage) (by_ : UserID)
| RSetPaused (agent : AgentID) (paused : bool) (by_ : UserID)
| REnsurePaused (agent : AgentID) (by_ : UserID)
| RRetire (agent : AgentID) (by_ : UserID)
| RRestore (agent : AgentID) (by_ : UserID).

Definition or_unchanged {A} (t : Tables) (r : result RegistryError A) (f : A -> Tables) : Tables :=
  match r with Ok a => f a | Err _ => t end.

Definition registry_step (t : Tables) (o : registry_op) : Tables :=
  match o with
  | RPublish pub now => or_unchanged t (Publisher_Publish t pub now) fst
  | RRegister s by_ company now => or_unchanged t (publishOn t s by_ company now) id
  | RMakeCurrent agent version => makeCurrentOn t agent version
  | RSetStage agent stage by_ => or_unchanged t (SetStage t agent stage by_) id
  | RSetPaused agent paused by_ => SetPaused t agent paused by_
  | REnsurePaused agent by_ => EnsurePaused t agent by_
  | RRetire agent by_ => Retire t agent by_
  | RRestore agent by_ => Restore t agent by_
  end.

Definition registry_run (ops : list registry_op) (t : Tables) : Tables := fold_left registry_step ops t.

Lemma publishOn_keeps t s by_ company now t' : publishOn t s by_ company now = Ok t' ->
  tb_state t' = tb_state t /\
  (forall key r, tb_specs t !! key = Some r -> tb_specs t' !! key = Some r) /\
  tb_specs t' !! (Sc_ID s, Sc_Version s) =
    Some (default (row_of_spec s by_ company now) (tb_specs t !! (Sc_ID s, Sc_Version s))) /\
  forall key, key <> (Sc_ID s, Sc_Version s) -> tb_specs t' !! key = tb_specs t !! key.
Proof.
  unfold publishOn. destruct (_ || _); [done|]. destruct (_ && _); [done|]. intros [= <-].
  destruct (tb_specs t !! (Sc_ID s, Sc_Version s)) as [r|] eqn:E; [done|]. cbn [tb_specs tb_state]. split; [done|].
  split; [intros key r Hr; rewrite lookup_insert_ne; [done|congruence]|].
  split; [by rewrite lookup_insert_eq|]. intros key Hne. by rewrite lookup_insert_ne by congruence.
Qed.

Lemma refuseStage_keeps t agent refused t' : refuseStage t agent refused = Ok t' ->
  tb_specs t' = tb_specs t /\ tb_state t' = tb_state t \/
  tb_specs t' = tb_specs t /\ tb_state t !! agent = None /\ tb_state t' = <[agent := new_state]> (tb_state t).
Proof.
  unfold refuseStage. destruct refused; [intros [= <-]; by left|]. cbn zeta.
  destruct (tb_state t !! agent) as [st|] eqn:E; destruct (existsb _ _); try done; intros [= <-]; [by left|right].
  unfold with_state. cbn. by rewrite E.
Qed.

Lemma publish_parts t pub now t' judged : Publisher_Publish t pub now = Ok (t', judged) ->
  exists t1 w t2, refuseStage t (Sc_ID (Pu_Spec pub)) (Pu_RefuseStages pub) = Ok t1 /\ wiring t1 = Ok w /\
    publishOn t1 (Pu_Spec pub) (Pu_By pub) (Pu_Company pub) now = Ok t2 /\
    t' = makeCurrentOn t2 (Sc_ID (Pu_Spec pub)) (Sc_Version (Pu_Spec pub)) /\
    judged = JudgedIn (WiringWith w (inCompany (Pu_Spec pub) (Pu_Company pub))) (Sc_ID (Pu_Spec pub)).
Proof.
  unfold Publisher_Publish. cbn zeta. intros (t1 & H1 & H)%result_bind_Ok. apply result_bind_Ok in H as (w & Hw & H).
  apply result_bind_Ok in H as (t2 & H2 & [= <- <-]). by exists t1, w, t2.
Qed.

Lemma specs_kept t o key r : tb_specs t !! key = Some r -> tb_specs (registry_step t o) !! key = Some r.
Proof.
  intros H. destruct o; cbn [registry_step]; try done; unfold or_unchanged.
  - destruct (Publisher_Publish t pub now) as [[t' judged]|] eqn:E; [|done]. cbn [fst].
    apply publish_parts in E as (t1 & w & t2 & H1 & _ & H2 & -> & _). cbn.
    apply publishOn_keeps in H2 as (_ & Hk & _). apply Hk. by apply refuseStage_keeps in H1 as [[-> _]|[-> _]].
  - destruct (publishOn t s by_ company now) eqn:E; [|done]. apply publishOn_keeps in E as (_ & Hk & _). by apply Hk.
  - unfold SetStage. by destruct (negb _).
  - unfold EnsurePaused. by destruct (tb_state t !! agent).
  - unfold Restore. by destruct (tb_state t !! agent).
Qed.

Lemma run_kept ops : forall t key r, tb_specs t !! key = Some r -> tb_specs (registry_run ops t) !! key = Some r.
Proof.
  induction ops as [|o ops IH]; intros t key r H; [done|]. cbn. apply IH. by apply specs_kept.
Qed.


(** ** Starting an agent *)

Definition halts (agent : AgentID) (o : registry_op) : bool :=
  match o with
  | RSetPaused a paused _ => String.eqb a agent && paused
  | RRetire a _ => String.eqb a agent
  | _ => false
  end.

Lemma with_state_paused t a f agent :
  (forall st, sw_paused (f st) = sw_paused st) -> IsPaused (with_state t a f) agent = IsPaused t agent.
Proof.
  intros H. unfold IsPaused, with_state. cbn. destruct (decide (a = agent)) as [->|Hne].
  - rewrite lookup_insert_eq. cbn. rewrite H. by destruct (tb_state t !! agent).
  - by rewrite lookup_insert_ne.
Qed.

Lemma with_state_other t a f agent : a <> agent -> IsPaused (with_state t a f) agent = IsPaused t agent.
Proof. intros H. unfold IsPaused, with_state. cbn. by rewrite lookup_insert_ne. Qed.

Lemma with_state_sets t agent f b : (forall st, sw_paused (f st) = b) -> IsPaused (with_state t agent f) agent = b.
Proof. intros H. unfold IsPaused, with_state. cbn. rewrite lookup_insert_eq. cbn. apply H. Qed.

Lemma publishOn_paused t s by_ company now t' agent : publishOn t s by_ company now = Ok t' -> IsPaused t' agent = IsPaused t agent.
Proof. intros (H & _)%publishOn_keeps. unfold IsPaused. by rewrite H. Qed.

Lemma refuseStage_paused t a refused t' agent : refuseStage t a refused = Ok t' -> IsPaused t' agent = IsPaused t agent.
Proof.
  intros [[_ H]|(_ & Hn & H)]%refuseStage_keeps; unfold IsPaused; rewrite H; [done|].
  destruct (decide (a = agent)) as [->|Hne]; [by rewrite lookup_insert_eq, Hn|by rewrite lookup_insert_ne].
Qed.

(** A write that starts an agent is one that says so. *)
Lemma started_by t o agent : IsPaused (registry_step t o) agent = false ->
  (IsPaused t agent = false /\ halts agent o = false) \/ exists by_, o = RSetPaused agent false by_.
Proof.
  destruct o as [pub now|s by_ company now|a v|a stage by_|a paused by_|a by_|a by_|a by_];
    cbn [registry_step halts]; unfold or_unchanged; intros H.
  - left. destruct (Publisher_Publish t pub now) as [[t' judged]|] eqn:E; [|done]. cbn [fst] in H.
    apply publish_parts in E as (t1 & w & t2 & H1 & _ & H2 & -> & _). unfold makeCurrentOn in H.
    rewrite with_state_paused in H by done.
    by rewrite (publishOn_paused _ _ _ _ _ _ agent H2), (refuseStage_paused _ _ _ _ agent H1) in H.
  - left. destruct (publishOn t s by_ company now) eqn:E; [|done]. unfold id in H.
    by rewrite (publishOn_paused _ _ _ _ _ _ agent E) in H.
  - left. unfold makeCurrentOn in H. by rewrite with_state_paused in H.
  - left. unfold SetStage in H. destruct (negb _); [done|]. unfold id in H. by rewrite with_state_paused in H.
  - unfold SetPaused in H. destruct (String.eqb_spec a agent) as [->|Hne]; cbn [andb].
    + rewrite (with_state_sets _ _ _ paused) in H by done. subst paused. right. by exists by_.
    + left. by rewrite with_state_other in H.
  - left. unfold EnsurePaused in H. destruct (tb_state t !! a) eqn:E; [done|].
    destruct (decide (a = agent)) as [->|Hne]; [by rewrite (with_state_sets _ _ _ true) in H|by rewrite with_state_other in H].
  - left. unfold Retire in H. destruct (String.eqb_spec a agent) as [->|Hne];
      [by rewrite (with_state_sets _ _ _ true) in H|by rewrite with_state_other in H].
  - left. unfold Restore in H. destruct (tb_state t !! a) eqn:E; [|done].
    destruct (decide (a = agent)) as [->|Hne]; [by rewrite (with_state_sets _ _ _ true) in H|by rewrite with_state_other in H].
Qed.

(** An agent starts only when somebody starts it. From an empty installation,
    after any sequence of publications, rollbacks, promotions, pauses,
    retirements and restorations, an agent that may open runs was started by
    name, and nothing since then has paused or retired it: publishing, choosing a
    version, promoting and restoring start nothing. *)
Theorem agents_start_only_when_told ops agent :
  IsPaused (registry_run ops no_tables) agent = false ->
  exists before by_ after, ops = (before ++ RSetPaused agent false by_ :: after)%list /\
    Forall (fun o => halts agent o = false) after.
Proof.
  induction ops as [|o ops IH] using rev_ind; [done|]. unfold registry_run. rewrite fold_left_app. cbn [fold_left].
  intros [[H Hh]|[by_ ->]]%started_by; [|by exists ops, by_, []].
  destruct (IH H) as (before & by_ & after & -> & Hf). exists before, by_, (after ++ [o])%list.
  split; [by rewrite <- app_assoc|]. apply Forall_app. split; [done|]. by constructor.
Qed.

(** ** Which version is current *)

Lemma current_asym t a b : current_before t a b = true -> current_before t b a = false.
Proof. apply lex_asym. Qed.

Lemma current_trans t a b c :
  current_before t b a = false -> current_before t c b = false -> current_before t c a = false.
Proof. by apply lex_trans. Qed.

Lemma in_version_rows t v : v ∈ version_rows t <-> tb_specs t !! (vr_agent v, vr_version v) = Some (vr_row v).
Proof.
  unfold version_rows. rewrite list_elem_of_In, in_map_iff. split.
  - intros ([[a n] r] & <- & Hin%list_elem_of_In). by apply elem_of_map_to_list in Hin.
  - intros H. exists ((vr_agent v, vr_version v), vr_row v). split; [by destruct v|].
    by apply list_elem_of_In, elem_of_map_to_list.
Qed.

Lemma version_rows_NoDup t : NoDup (version_rows t).
Proof.
  unfold version_rows. apply (NoDup_fmap_2_strong (fun '((a, v), r) => MkVersionRow a v r)); [|apply NoDup_map_to_list].
  by intros [[a v] r] [[a' v'] r'] _ _ [= -> -> ->].
Qed.

Definition agent_rows (t : Tables) (agent : AgentID) : list VersionRow :=
  List.filter (fun v => String.eqb (vr_agent v) agent) (version_rows t).

Lemma in_agent_rows t agent v :
  v ∈ agent_rows t agent <-> vr_agent v = agent /\ tb_specs t !! (agent, vr_version v) = Some (vr_row v).
Proof.
  unfold agent_rows. rewrite list_elem_of_In, filter_In, <- list_elem_of_In, in_version_rows, String.eqb_eq.
  split; [intros [H <-]; done|intros [<- H]; done].
Qed.

Lemma agent_rows_NoDup t agent : NoDup (agent_rows t agent).
Proof. apply NoDup_ListNoDup, List.NoDup_filter, NoDup_ListNoDup, version_rows_NoDup. Qed.

Lemma in_rows_of_agent t agent v :
  v ∈ rows_of_agent t agent <-> vr_agent v = agent /\ tb_specs t !! (agent, vr_version v) = Some (vr_row v).
Proof. unfold rows_of_agent. rewrite (sort_by_perm _ _). apply in_agent_rows. Qed.

Lemma agent_rows_total t t0 agent x y : x ∈ agent_rows t agent -> y ∈ agent_rows t agent ->
  current_before t0 x y = false -> current_before t0 y x = false -> x = y.
Proof.
  intros [Ax Rx]%in_agent_rows [Ay Ry]%in_agent_rows H1 H2. unfold current_before in H1, H2.
  assert (E : vr_version x = vr_version y) by (eapply lex_total; [|exact H1|exact H2]; done). destruct x as [a v r], y as [a' v' r']. cbn in *. subst. congruence.
Qed.

(** Two tables that agree on an agent list its versions in the same order. *)
Lemma rows_agree t t' agent :
  (forall v, tb_specs t' !! (agent, v) = tb_specs t !! (agent, v)) ->
  from_option sw_current None (tb_state t' !! agent) = from_option sw_current None (tb_state t !! agent) ->
  rows_of_agent t' agent = rows_of_agent t agent.
Proof.
  intros Hs Hc. unfold rows_of_agent. fold (agent_rows t' agent) (agent_rows t agent).
  assert (Hch : forall v, vr_agent v = agent -> chosen t' v = chosen t v).
  { intros v Hv. unfold chosen. rewrite Hv. destruct (tb_state t' !! agent), (tb_state t !! agent); cbn in Hc; try done;
      [by rewrite Hc|by rewrite Hc|by rewrite <- Hc]. }
  rewrite (sort_by_ext (current_before t') (current_before t)).
  2:{ intros x y [Hx _]%in_agent_rows [Hy _]%in_agent_rows. unfold current_before, current_key.
      by rewrite (Hch x Hx), (Hch y Hy). }
  apply sort_by_visit; [apply current_asym|apply current_trans|by intros; eapply agent_rows_total|].
  apply NoDup_Permutation; [apply agent_rows_NoDup|apply agent_rows_NoDup|].
  intros v. rewrite !in_agent_rows. by rewrite Hs.
Qed.

(** The version somebody chose is the one in force. *)
Lemma chosen_first t agent version r st :
  tb_specs t !! (agent, version) = Some r -> tb_state t !! agent = Some st -> sw_current st = Some version ->
  hd_error (rows_of_agent t agent) = Some (MkVersionRow agent version r).
Proof.
  intros Hr Hst Hc. set (v := MkVersionRow agent version r).
  assert (Hin : v ∈ rows_of_agent t agent) by (apply in_rows_of_agent; done).
  assert (Hch : chosen t v = true) by (unfold chosen; cbn [v vr_agent vr_version]; by rewrite Hst, Hc, bool_decide_eq_true_2).
  pose proof (sort_by_sorted (current_before t) (current_asym t) (current_trans t) (agent_rows t agent)) as Hs.
  pose proof (fun x => proj1 (in_rows_of_agent t agent x)) as Hall.
  unfold rows_of_agent in *. fold (agent_rows t agent) in *.
  destruct (sort_by (current_before t) (agent_rows t agent)) as [|h l]; [by apply not_elem_of_nil in Hin|].
  apply elem_of_cons in Hin as [->|Hin]; [done|]. cbn. inversion Hs as [|? ? _ Hf]; subst.
  rewrite List.Forall_forall in Hf. specialize (Hf v (proj1 (list_elem_of_In _ _) Hin)). cbn beta in Hf.
  destruct (Hall h ltac:(left)) as [Ha Hh]. destruct (chosen t h) eqn:Eh.
  - unfold chosen in Eh. rewrite Ha, Hst, Hc in Eh. apply bool_decide_eq_true in Eh. destruct h as [a v' r']. cbn in *.
    injection Eh as <-. subst a. f_equal. unfold v. congruence.
  - unfold current_before, current_key in Hf. rewrite Hch, Eh in Hf. done.
Qed.

(** ** The graph of what is published *)

Lemma collect_Forall2 {A B} (f : A -> result RegistryError B) l : forall bs,
  collect f l = Ok bs <-> Forall2 (fun a b => f a = Ok b) l bs.
Proof.
  induction l as [|a l IH]; intros bs; cbn [collect].
  - split; [intros [= <-]; constructor|by inversion 1].
  - split.
    + intros (b & Hb & H)%result_bind_Ok. apply result_bind_Ok in H as (bs' & Hbs & [= <-]).
      constructor; [done|by apply IH].
    + inversion 1 as [|? b ? bs' Hb Hbs]; subst. rewrite Hb. cbn. apply IH in Hbs. by rewrite Hbs.
Qed.

Lemma fold_insert l : forall (w : EventWiring) a, NoDup (l.*1) ->
  (forall x, (a, x) ∈ l -> fold_left (fun w '(a, x) => <[a := x]> w) l w !! a = Some x) /\
  (a ∉ l.*1 -> fold_left (fun w '(a, x) => <[a := x]> w) l w !! a = w !! a).
Proof.
  induction l as [|[b y] l IH]; intros w a Hn; cbn [fold_left].
  { split; [intros x Hx; by apply not_elem_of_nil in Hx|done]. }
  cbn in Hn. apply NoDup_cons in Hn as [Hb Hn]. destruct (IH (<[b := y]> w) a Hn) as [H1 H2]. split.
  - intros x [[= -> ->]|Hx]%elem_of_cons; [rewrite H2 by done; by rewrite lookup_insert_eq|by apply H1].
  - cbn. intros [Hab Ha]%not_elem_of_cons. rewrite H2 by done. by rewrite lookup_insert_ne.
Qed.

Lemma in_listed t a : a ∈ listed_agents (version_rows t) <-> rows_of_agent t a <> [].
Proof.
  unfold listed_agents. rewrite list_elem_of_In, sort_compact_In, in_map_iff. split.
  - intros (v & <- & Hv%list_elem_of_In). apply in_version_rows in Hv. intros E.
    assert (Hin : v ∈ rows_of_agent t (vr_agent v)) by (by apply in_rows_of_agent). rewrite E in Hin. by apply not_elem_of_nil in Hin.
  - intros H. destruct (rows_of_agent t a) as [|v l] eqn:E; [done|].
    assert (Hin : v ∈ rows_of_agent t a) by (rewrite E; left). apply in_rows_of_agent in Hin as [<- Hr].
    exists v. split; [done|]. by apply list_elem_of_In, in_version_rows.
Qed.

Lemma head_of_agent t a v : hd_error (rows_of_agent t a) = Some v -> vr_agent v = a.
Proof.
  intros H. assert (Hin : v ∈ rows_of_agent t a) by (destruct (rows_of_agent t a); [done|]; injection H as ->; left).
  by apply in_rows_of_agent in Hin as [? _].
Qed.

Lemma in_current_rows t v : v ∈ current_rows t <-> hd_error (rows_of_agent t (vr_agent v)) = Some v.
Proof.
  unfold current_rows. rewrite list_elem_of_omap. split.
  - intros (a & _ & H). by rewrite (head_of_agent _ _ _ H).
  - intros H. exists (vr_agent v). split; [|done]. apply in_listed. by destruct (rows_of_agent t (vr_agent v)).
Qed.

Lemma omap_heads t l : NoDup l -> NoDup (vr_agent <$> omap (fun agent => hd_error (rows_of_agent t agent)) l).
Proof.
  induction 1 as [|a l Ha Hl IH]; cbn; [constructor|]. destruct (hd_error (rows_of_agent t a)) as [v|] eqn:E; [|done].
  cbn. apply NoDup_cons. split; [|done]. rewrite (head_of_agent _ _ _ E). intros (v' & -> & Hv)%list_elem_of_fmap.
  apply list_elem_of_omap in Hv as (b & Hb & Hv). by rewrite (head_of_agent _ _ _ Hv) in Ha.
Qed.

Lemma sorted_NoDup l : StronglySorted str_lt l -> NoDup l.
Proof.
  induction 1 as [|x l _ IH Hf]; [constructor|]. apply NoDup_cons. split; [|done]. intros Hx%list_elem_of_In.
  rewrite List.Forall_forall in Hf. by apply (str_lt_irrefl x), Hf.
Qed.

Lemma declared_agent v a x : declaredEvents v = Ok (a, x) -> a = vr_agent v.
Proof.
  unfold declaredEvents. intros (e & _ & H)%result_bind_Ok. by apply result_bind_Ok in H as (tr & _ & [= <- _]).
Qed.

(** The graph, agent by agent. *)
Lemma wiring_lookup t w a : wiring t = Ok w ->
  match hd_error (rows_of_agent t a) with
  | Some v => exists x, declaredEvents v = Ok (a, x) /\ w !! a = Some x
  | None => w !! a = None
  end.
Proof.
  unfold wiring. intros (declared & Hd & [= <-])%result_bind_Ok. apply collect_Forall2 in Hd.
  assert (Hfst : declared.*1 = vr_agent <$> current_rows t).
  { clear -Hd. induction Hd as [|v [b x] l bs Hb _ IH]; [done|]. cbn. by rewrite IH, (declared_agent _ _ _ Hb). }
  assert (Hn : NoDup (declared.*1)).
  { rewrite Hfst. apply omap_heads, sorted_NoDup, sort_compact_sorted. }
  destruct (fold_insert declared ∅ a Hn) as [H1 H2]. destruct (hd_error (rows_of_agent t a)) as [v|] eqn:E.
  - assert (Hin : v ∈ current_rows t) by (apply in_current_rows; by rewrite (head_of_agent _ _ _ E)).
    apply list_elem_of_lookup in Hin as [i Hi]. destruct (Forall2_lookup_l _ _ _ _ _ Hd Hi) as ([b x] & Hb & Hx).
    pose proof (declared_agent _ _ _ Hx) as Eb. rewrite (head_of_agent _ _ _ E) in Eb. subst b. exists x. split; [done|].
    apply H1. by apply list_elem_of_lookup_2 in Hb.
  - rewrite H2; [apply lookup_empty|]. rewrite Hfst. intros (v & -> & Hv)%list_elem_of_fmap. apply in_current_rows in Hv. congruence.
Qed.

Lemma wiring_exists t : (forall v, v ∈ current_rows t -> exists y, declaredEvents v = Ok y) -> exists w, wiring t = Ok w.
Proof.
  intros H. assert (Hc : exists bs, collect declaredEvents (current_rows t) = Ok bs).
  { induction (current_rows t) as [|v l IH]; [by exists []|]. destruct (H v ltac:(left)) as [y Hy].
    destruct IH as [bs Hbs]; [intros v' Hv'; apply H; by right|]. exists (y :: bs). cbn. by rewrite Hy, Hbs. }
  destruct Hc as [bs Hbs]. unfold wiring. rewrite Hbs. cbn. eauto.
Qed.

(** ** A publication *)

Lemma listened_stored s : omap (fun tr => if String.eqb (At_Type tr) TriggerEvent_ && negb (String.eqb (At_Event tr) "")
    then Some (At_Event tr) else None) (triggersOf s) = listenedEvents s.
Proof. unfold triggersOf, listenedEvents. induction (Sc_Triggers s) as [|tr l IH]; [done|]. cbn. by rewrite IH. Qed.

(** The row of a version says what the definition says about events. *)
Definition declares (s : Spec) (company : CompanyID) (r : SpecRow) : Prop :=
  rw_emits r = marshal (c_list c_AgentEvent) (Sc_Emits s) /\
  rw_triggers r = marshal (c_list c_AgentTrigger) (triggersOf s) /\
  rw_company r = company /\ rw_area r = Sc_Area s.

Lemma declared_row s company r version : encodable s -> declares s company r ->
  (Sc_Company s = "" \/ Sc_Company s = company) ->
  declaredEvents (MkVersionRow (Sc_ID s) version r) = Ok (Sc_ID s, wiringOf (inCompany s company)).
Proof.
  intros E (He & Ht & Hc & Ha) Hs. unfold declaredEvents. cbn [vr_row vr_agent]. rewrite He, Ht, Hc, Ha.
  rewrite (read_emits _ (en_emits _ E)).
  assert (Hr : read_column [] (d_list zeroAgentTrigger d_AgentTrigger) (marshal (c_list c_AgentTrigger) (triggersOf s)) =
    Ok (triggersOf s)) by exact (read_marshalled (c_list c_AgentTrigger) _ (en_triggers _ E)).
  rewrite Hr. cbn [mbind result_mbind]. rewrite listened_stored. unfold wiringOf, inCompany.
  destruct (String.eqb_spec (Sc_Company s) "") as [E0|Hne]; [done|]. by destruct Hs as [|<-].
Qed.

Lemma publishOn_company t s by_ company now t' : publishOn t s by_ company now = Ok t' ->
  Sc_Company s = "" \/ Sc_Company s = company.
Proof.
  unfold publishOn. destruct (_ || _); [done|]. destruct (String.eqb_spec (Sc_Company s) ""); [by left|].
  destruct (String.eqb_spec (Sc_Company s) company); [by right|done].
Qed.

(** The version becomes the one in force, and the other agents keep theirs. *)
Lemma published_rows t pub now t' judged : Publisher_Publish t pub now = Ok (t', judged) ->
  let s := Pu_Spec pub in
  hd_error (rows_of_agent t' (Sc_ID s)) = Some (MkVersionRow (Sc_ID s) (Sc_Version s)
    (default (row_of_spec s (Pu_By pub) (Pu_Company pub) now) (tb_specs t !! (Sc_ID s, Sc_Version s)))) /\
  exists t1 w, wiring t1 = Ok w /\ judged = JudgedIn (WiringWith w (inCompany s (Pu_Company pub))) (Sc_ID s) /\
    forall a, a <> Sc_ID s -> rows_of_agent t' a = rows_of_agent t1 a.
Proof.
  intros (t1 & w & t2 & H1 & Hw & H2 & -> & ->)%publish_parts s. fold s in H1, H2 |- *.
  assert (Hspec : tb_specs t1 = tb_specs t) by (by apply refuseStage_keeps in H1 as [[-> _]|[-> _]]).
  apply publishOn_keeps in H2 as (Hst & _ & Hrow & Hother). rewrite Hspec in Hrow. split.
  - eapply chosen_first; [exact Hrow|cbn; by rewrite lookup_insert_eq|done].
  - exists t1, w. split; [done|]. split; [done|]. intros a Ha. apply rows_agree.
    + intros v. cbn. apply Hother. congruence.
    + cbn. rewrite lookup_insert_ne by done. by rewrite Hst.
Qed.

(** A publication is judged in the graph it makes. When a version is published,
    it becomes the one in force, and the cycles the publication reports are those
    of the graph of events as it stands once the version is written, through the
    published agent: the same answer a search of the new graph would give, exact
    whenever it is not truncated. *)
Theorem publications_are_judged_in_their_graph t pub now t' judged :
  Publisher_Publish t pub now = Ok (t', judged) ->
  encodable (Pu_Spec pub) ->
  (forall r, tb_specs t !! (Sc_ID (Pu_Spec pub), Sc_Version (Pu_Spec pub)) = Some r -> declares (Pu_Spec pub) (Pu_Company pub) r) ->
  exists w', wiring t' = Ok w' /\ judged = JudgedIn w' (Sc_ID (Pu_Spec pub)) /\
    search_answers w' (Sc_ID (Pu_Spec pub)) (Pd_EventCycles judged) /\
    option_map vr_version (hd_error (rows_of_agent t' (Sc_ID (Pu_Spec pub)))) = Some (Sc_Version (Pu_Spec pub)).
Proof.
  intros H E Hold. pose proof (published_rows _ _ _ _ _ H) as (Hhead & t1 & w & Hw & -> & Hrows).
  set (s := Pu_Spec pub) in *. set (w' := WiringWith w (inCompany s (Pu_Company pub))).
  assert (Hc : Sc_Company s = "" \/ Sc_Company s = Pu_Company pub).
  { apply publish_parts in H as (? & ? & t2 & _ & _ & H2 & _). by eapply publishOn_company. }
  assert (Hdecl : declaredEvents (MkVersionRow (Sc_ID s) (Sc_Version s) (default (row_of_spec s (Pu_By pub) (Pu_Company pub) now)
    (tb_specs t !! (Sc_ID s, Sc_Version s)))) = Ok (Sc_ID s, wiringOf (inCompany s (Pu_Company pub)))).
  { apply declared_row; [done| |done]. destruct (tb_specs t !! (Sc_ID s, Sc_Version s)) as [r|]; [by apply Hold|done]. }
  assert (Hex : exists w0, wiring t' = Ok w0).
  { apply wiring_exists. intros v Hv%in_current_rows. destruct (decide (vr_agent v = Sc_ID s)) as [Ea|Ea].
    - rewrite Ea, Hhead in Hv. injection Hv as <-. eauto.
    - rewrite (Hrows _ Ea) in Hv. pose proof (wiring_lookup t1 w (vr_agent v) Hw) as L. rewrite Hv in L.
      destruct L as (x & Hx & _). eauto. }
  destruct Hex as [w0 Hw0]. assert (w0 = w') as ->.
  { apply map_eq. intros a. pose proof (wiring_lookup t' w0 a Hw0) as L0. unfold w', WiringWith.
    assert (Hid : Sc_ID (inCompany s (Pu_Company pub)) = Sc_ID s) by (unfold inCompany; by destruct (String.eqb _ _)).
    rewrite Hid. destruct (decide (a = Sc_ID s)) as [->|Hne].
    - rewrite Hhead, Hdecl in L0. destruct L0 as (x & [= <-] & ->). by rewrite lookup_insert_eq.
    - rewrite lookup_insert_ne by done. rewrite (Hrows _ Hne) in L0. pose proof (wiring_lookup t1 w a Hw) as L1.
      destruct (hd_error (rows_of_agent t1 a)); [|by rewrite L0, L1].
      destruct L0 as (x & Hx & ->), L1 as (x1 & Hx1 & ->). congruence. }
  exists w'. split; [done|]. split; [done|]. split; [apply through_answers|by rewrite Hhead].
Qed.

(** ** Witnesses: an agent that listens to what it publishes, published, moved to
    another area and retired *)

Module Press.
Definition line_end : string := String (ascii_of_nat 10) "".
Definition file : string := "---" +:+ line_end +:+ "id: triage" +:+ line_end +:+ "---" +:+ line_end +:+ line_end +:+ "Sort the tickets.".
Definition front (area : AreaID) : frontmatter :=
  MkFrontmatter "triage" "Triage" "" area "openai" "m" "" None "" "" ["crm.read"; "crm.reply"]
    [MkTrigger "event" "" "" "sorted" "" []; MkTrigger "webhook" "" "/hook" "" "github" ["pull_request.labeled"]]
    [MkAgentEvent "sorted" "" ["final_answer"]]
    [MkSpecStep "read" ["crm.read"] "" "" ""; MkSpecStep "answer" ["crm.reply"] "no customer" "big" ""]
    (MkBudget 500 0 0 60 0) (Some (MkMemoryLearningPolicy "review" 0 0)) (Some (MkApprovalPolicy true [" ana "; "ana"])) "".
Definition yaml (area : AreaID) (text : string) : option frontmatter := if String.eqb text "id: triage" then Some (front area) else None.
Definition parsed (area : AreaID) (data : string) : Spec :=
  match Parse (yaml area) "triage.md" data with Ok s => s | Err _ => spec_of (front area) "" "" "" end.
Definition spec : Spec := parsed "ops" file.

Definition registered : Tables :=
  match publishOn no_tables spec "ana" "acme" 1 with Ok t => t | Err _ => no_tables end.
Definition later : list registry_op :=
  [RSetPaused "triage" false "bo"; RMakeCurrent "triage" "v0"; RSetStage "triage" StageCopilot "bo"; RRetire "triage" "bo"].

Definition publication : Publication := MkPublication spec "ana" "acme" [StageAutonomous].
Definition published : Tables * Published :=
  match Publisher_Publish registered publication 2 with Ok r => r | Err _ => (registered, JudgedIn ∅ "") end.

Lemma encoded : encodable spec.
Proof.
  let e := eval vm_compute in spec in assert (E : spec = e) by (vm_compute; reflexivity). rewrite E. clear E.
  constructor; cbn [Sc_Budget Sc_Emits Sc_Steps Sc_Approvals triggersOf Sc_Triggers List.map];
    repeat first [split | apply List.Forall_cons | apply List.Forall_nil | exact I | (vm_compute; reflexivity)].
Qed.

(** The same agent, then published in another area. *)
Definition moved : Tables :=
  match Publisher_Publish (fst published) (MkPublication (parsed "sales" (file +:+ " Politely.")) "ana" "acme" []) 3 with
  | Ok r => fst r | Err _ => no_tables end.
Definition shown (area : AreaID) : list (VersionID * AreaID * bool) :=
  match List_current moved (MkScope "acme" area) with
  | Ok l => List.map (fun a => (As_VersionID a, Area (As_Scope a), As_Latest a)) l
  | Err _ => []
  end.
End Press.


Lemma agents_start_only_when_told_witness :
  exists before by_ after, [RRegister Press.spec "ana" "acme" 1%Z; RSetPaused "triage" false "bo"; RMakeCurrent "triage" "v0"] =
    (before ++ RSetPaused "triage" false by_ :: after)%list /\ Forall (fun o => halts "triage" o = false) after.
Proof. apply agents_start_only_when_told. vm_compute. reflexivity. Defined.

Lemma publications_are_judged_in_their_graph_witness :
  exists w', wiring (fst Press.published) = Ok w' /\ snd Press.published = JudgedIn w' "triage" /\
    ES_Cycles (Pd_EventCycles (snd Press.published)) = [["triage"]].
Proof.
  destruct (publications_are_judged_in_their_graph Press.registered Press.publication 2 (fst Press.published) (snd Press.published))
    as (w' & Hw & Hj & _); [vm_compute; reflexivity|exact Press.encoded| |].
  - intros r Hr. vm_compute in Hr. injection Hr as <-. repeat split; vm_compute; reflexivity.
  - exists w'. split; [exact Hw|]. split; [exact Hj|]. vm_compute. reflexivity.
Defined.

Lemma definitions_bound_their_runs_witness :
  Pack_Allows (envelopeForState (resolved_start Press.spec) zeroState) "crm.reply" = true /\
  (In "crm.reply" (Sc_Tools Press.spec) \/ ToolID_PlatformOwned "crm.reply" = true).
Proof.
  assert (H : Pack_Allows (envelopeForState (resolved_start Press.spec) zeroState) "crm.reply" = true) by (vm_compute; reflexivity).
  split; [exact H|].
  apply (definitions_bound_their_runs (Press.yaml "ops") "triage.md" Press.file Press.spec (resolved_start Press.spec) zeroState);
    [vm_compute; reflexivity|reflexivity|reflexivity|exact H].
Defined.

(** A listing shows a version that is not current. The rows of the scope asked
    about are kept before the current one of each agent is picked, so that an
    agent that moved to another area is listed twice: where it runs, and in the
    area it left, there with an older version that is said to be the latest. *)
Theorem a_listing_shows_a_version_that_left :
  Press.shown "sales" = [(versionOf (Press.file +:+ " Politely."), "sales", true)] /\
  Press.shown "ops" = [(versionOf Press.file, "ops", true)] /\
  option_map vr_version (hd_error (rows_of_agent Press.moved "triage")) = Some (versionOf (Press.file +:+ " Politely.")).
Proof. split; [vm_compute; reflexivity|]. split; vm_compute; reflexivity. Qed.
