(* ===== verification/Flow.v ===== *)
(** * Static flow

    src/internal/flow/flow.go: does data the platform did not author reach a tool
    that acts on the world? The answer an author gets before publishing, against
    what the run loop lets a run of the definition do. The second half is the
    theorem that the check covers every run. *)

From Stdlib Require Import ZArith Lia Ascii String.
From stdpp Require Import base list strings gmap.
From S2P Require Import Prelude GoStrings Json Domain Payload Encode State Gate Ports Envelope Memories Agent Dispatch EventCycle Spec Registry SpecSafety.

Local Open Scope string_scope.

(** ** What is asked and answered *)

Record FlowCatalogue := MkFlowCatalogue {
  fc_effect : ToolID -> option Effect;
  fc_untrusted : ToolID -> bool
}.

Record FlowEnvelope := MkFlowEnvelope { fe_Name : string; fe_Reaches : list ToolID }.

Record Path := MkPath {
  Pt_From : ToolID;
  Pt_To : ToolID;
  Pt_FromStep : string;
  Pt_ToStep : string;
  Pt_Effect : Effect
}.

Definition BlocksPublication (p : Path) : bool := Effect_Valid (Pt_Effect p) && negb (Effect_Reversible (Pt_Effect p)).

Record Finding := MkFinding { Fi_Paths : list Path; Fi_Unclassified : list ToolID }.

(** The effect of a tool; unknown where the catalogue has none. *)
Definition effect_of (c : FlowCatalogue) (tool : ToolID) : Effect := default EffectUnknown (fc_effect c tool).

Definition note_unclassified (c : FlowCatalogue) (seen : list ToolID) (tool : ToolID) : list ToolID :=
  if bool_decide (fc_effect c tool = None) && negb (existsb (String.eqb tool) seen) then (seen ++ [tool])%list else seen.

(** The tools a step brings data in with, and where each sits. *)
Definition step_sources (c : FlowCatalogue) (name : string) (reaches : list ToolID) : list (ToolID * string) :=
  List.map (fun tool => (tool, name)) (List.filter (fc_untrusted c) reaches).

Definition acts (c : FlowCatalogue) (tool : ToolID) : bool :=
  negb (Z.eqb (effect_of c tool) EffectRead) && Effect_Valid (effect_of c tool).

Definition step_paths (c : FlowCatalogue) (name : string) (reaches : list ToolID) (sources : list (ToolID * string)) : list Path :=
  List.concat (List.map (fun tool =>
    List.map (fun '(from, at_) => MkPath from tool at_ name (effect_of c tool)) sources)
    (List.filter (acts c) reaches)).

Fixpoint flow_steps (c : FlowCatalogue) (pack : list ToolID) (steps : list FlowEnvelope) (sources : list (ToolID * string)) : list Path :=
  match steps with
  | [] => []
  | step :: steps =>
      let reaches := match fe_Reaches step with [] => pack | reaches => reaches end in
      let sources := (sources ++ step_sources c (fe_Name step) reaches)%list in
      (step_paths c (fe_Name step) reaches sources ++ flow_steps c pack steps sources)%list
  end.

Definition Check (pack : list ToolID) (steps : list FlowEnvelope) (c : FlowCatalogue) : Finding :=
  let steps := match steps with [] => [MkFlowEnvelope "" pack] | _ => steps end in
  MkFinding (flow_steps c pack steps []) (fold_left (note_unclassified c) pack []).

Definition Clean (f : Finding) : bool := bool_decide (Fi_Paths f = []) && bool_decide (Fi_Unclassified f = []).

(** The steps of a definition as the check reads them. *)
Definition envelopesOf (s : Spec) : list FlowEnvelope :=
  List.map (fun step => MkFlowEnvelope (Sp_Name step) (Sp_Reaches step)) (Sc_Steps s).

(** ** Paths *)

Definition step_reaches (pack : list ToolID) (step : FlowEnvelope) : list ToolID :=
  match fe_Reaches step with [] => pack | reaches => reaches end.

Lemma acting_path c name reaches sources from at_ tool :
  In (from, at_) sources -> In tool reaches -> acts c tool = true ->
  In (MkPath from tool at_ name (effect_of c tool)) (step_paths c name reaches sources).
Proof.
  intros Hs Ht Ha. unfold step_paths. apply in_concat. eexists. split; [apply in_map_iff; exists tool; split; [reflexivity|]|].
  - by apply filter_In.
  - apply in_map_iff. by exists (from, at_).
Qed.

Lemma carried_path c pack steps : forall sources from at_ step tool,
  In (from, at_) sources -> In step steps -> In tool (step_reaches pack step) -> acts c tool = true ->
  In (MkPath from tool at_ (fe_Name step) (effect_of c tool)) (flow_steps c pack steps sources).
Proof.
  induction steps as [|x steps IH]; intros sources from at_ step tool Hs Hin Ht Ha; [done|]. destruct Hin as [<-|Hin];
    cbn [flow_steps]; fold (step_reaches pack x); apply in_app_iff.
  - left. apply acting_path; [|done|done]. apply in_app_iff. by left.
  - right. apply IH; [|done|done|done]. apply in_app_iff. by left.
Qed.

(** A tool that brings data in is a source of every step from its own on. *)
Lemma later_path c pack steps : forall sources i j si sj from tool,
  nth_error steps i = Some si -> nth_error steps j = Some sj -> (i <= j)%nat ->
  In from (step_reaches pack si) -> fc_untrusted c from = true ->
  In tool (step_reaches pack sj) -> acts c tool = true ->
  In (MkPath from tool (fe_Name si) (fe_Name sj) (effect_of c tool)) (flow_steps c pack steps sources).
Proof.
  induction steps as [|x steps IH]; intros sources [|i] [|j] si sj from tool Hi Hj Hle Hf Hu Ht Ha; cbn in Hi, Hj; try done; try lia;
    cbn [flow_steps]; fold (step_reaches pack x); apply in_app_iff.
  - injection Hi as ->. injection Hj as ->. left. apply acting_path; [|done|done]. apply in_app_iff. right.
    apply in_map_iff. exists from. split; [done|]. by apply filter_In.
  - injection Hi as ->. right. apply carried_path; [|by eapply nth_error_In|done|done]. apply in_app_iff. right.
    apply in_map_iff. exists from. split; [done|]. by apply filter_In.
  - right. by apply (IH _ i j); [..|lia| | | |].
Qed.

(** ** What a run can do *)

Lemma step_from_spec steps : forall i tool j, step_from i steps tool = Some j ->
  exists step, nth_error steps (j - i) = Some step /\ In tool (En_Reaches step) /\ (i <= j)%nat.
Proof.
  induction steps as [|x steps IH]; intros i tool j; cbn [step_from]; [done|].
  destruct (existsb (String.eqb tool) (En_Reaches x)) eqn:E.
  - intros [= <-]. exists x. rewrite Nat.sub_diag. apply existsb_exists in E as (y & Hy & ->%String.eqb_eq). done.
  - intros (step & Hn & Hin & Hle)%IH. exists step. replace (j - i)%nat with (S (j - S i)) by lia. split; [done|]. split; [done|lia].
Qed.

Lemma step_from_found steps : forall i tool step, In step steps -> In tool (En_Reaches step) ->
  exists j, step_from i steps tool = Some j.
Proof.
  induction steps as [|x steps IH]; intros i tool step Hin Ht; [done|]. destruct Hin as [<-|Hin]; cbn [step_from].
  - assert (existsb (String.eqb tool) (En_Reaches x) = true) as -> by (apply existsb_exists; exists tool; by rewrite String.eqb_refl).
    eauto.
  - destruct (existsb _ _); [eauto|by eapply IH].
Qed.

(** A run that has called a tool of a step never stands before that step. *)
Lemma called_step start called tool j :
  In tool called -> ToolID_PlatformOwned tool = false -> stepOf (Sa_Steps start) tool = Some j ->
  (j <= StepAt start called)%nat.
Proof.
  intros Hin Hp Hs. unfold StepAt. generalize 0%nat as at_. induction called as [|x called IH]; intros at_; [done|].
  cbn [fold_left]. destruct Hin as [->|Hin]; [|by apply IH].
  pose proof (advance_all_le (Sa_Steps start) called (advance_at (Sa_Steps start) at_ tool)) as Hle.
  unfold advance_at in Hle at 1. rewrite Hp, Hs in Hle. destruct (at_ <? j)%nat eqn:E; [lia|].
  apply Nat.ltb_ge in E. lia.
Qed.

(** A tool the envelope of a run with steps holds is reached by a step it has not
    left behind. *)
Lemma allowed_step start called tool :
  Sa_Steps start <> [] -> In tool (envelopeOf start called) ->
  exists k step, (StepAt start called <= k)%nat /\ nth_error (Sa_Steps start) k = Some step /\ In tool (En_Reaches step).
Proof.
  intros Hne. unfold envelopeOf. destruct (Sa_Steps start) as [|e l] eqn:E; [done|]. unfold NewPack. rewrite sort_compact_In.
  intros (reaches & (step & <- & Hs)%in_map_iff & Ht)%in_concat. apply In_nth_error in Hs as [i Hi].
  exists (StepAt start called + i)%nat, step. split; [lia|]. split; [|done]. by rewrite nth_error_skipn in Hi.
Qed.

(** * What the static check promises

    The paths of src/internal/flow/flow.go against the envelopes of
    src/internal/engine/envelope.go: no run of a definition can act on data it
    read along a path its author was not shown. *)

Lemma reaches_held pack step tool : In tool (fe_Reaches step) -> In tool (step_reaches pack step).
Proof. unfold step_reaches. by destruct (fe_Reaches step). Qed.

(** The steps of a definition, as the run loop and as the check read them. *)
Lemma same_step s k step : nth_error (envelopes s) k = Some step ->
  exists flow_step, nth_error (envelopesOf s) k = Some flow_step /\ fe_Reaches flow_step = En_Reaches step.
Proof.
  unfold envelopes, envelopesOf. rewrite !nth_error_map. destruct (nth_error (Sc_Steps s) k) as [st|]; [|done].
  intros [= <-]. by eexists.
Qed.

Lemma check_path s c from tool i j si sj :
  nth_error (envelopes s) i = Some si -> nth_error (envelopes s) j = Some sj -> (i <= j)%nat ->
  In from (En_Reaches si) -> fc_untrusted c from = true -> In tool (En_Reaches sj) -> acts c tool = true ->
  exists p, In p (Fi_Paths (Check (Sc_Tools s) (envelopesOf s) c)) /\
    Pt_From p = from /\ Pt_To p = tool /\ Pt_Effect p = effect_of c tool.
Proof.
  intros Hi Hj Hle Hf Hu Ht Ha. destruct (same_step _ _ _ Hi) as (fi & Hfi & Ri), (same_step _ _ _ Hj) as (fj & Hfj & Rj).
  exists (MkPath from tool (fe_Name fi) (fe_Name fj) (effect_of c tool)). split; [|done].
  unfold Check. cbn [Fi_Paths]. destruct (envelopesOf s) as [|e l] eqn:E; [by destruct i|].
  eapply (later_path c (Sc_Tools s) (e :: l) [] i j); eauto; apply reaches_held; congruence.
Qed.

Lemma check_path_whole s c from tool :
  Sc_Steps s = [] -> In from (Sc_Tools s) -> fc_untrusted c from = true -> In tool (Sc_Tools s) -> acts c tool = true ->
  exists p, In p (Fi_Paths (Check (Sc_Tools s) (envelopesOf s) c)) /\
    Pt_From p = from /\ Pt_To p = tool /\ Pt_Effect p = effect_of c tool.
Proof.
  intros Hs Hf Hu Ht Ha. exists (MkPath from tool "" "" (effect_of c tool)). split; [|done].
  unfold Check, envelopesOf. rewrite Hs. cbn [List.map Fi_Paths].
  apply (later_path c (Sc_Tools s) [MkFlowEnvelope "" (Sc_Tools s)] [] 0 0 (MkFlowEnvelope "" (Sc_Tools s)) (MkFlowEnvelope "" (Sc_Tools s)));
    [done|done|lia| |done| |done]; unfold step_reaches; cbn; by destruct (Sc_Tools s).
Qed.


(** ** Witness, and a step that reaches nothing *)

Module Watched.
Definition thinking : Spec :=
  Press.spec <| Sc_Tools := ["crm.read"; "db.drop"] |>
             <| Sc_Steps := [MkSpecStep "gather" ["crm.read"] "" "" ""; MkSpecStep "think" [] "" "" ""] |>.
Definition drops : FlowCatalogue :=
  MkFlowCatalogue (fun t => if String.eqb t "db.drop" then Some EffectDestructive else Some EffectRead) (String.eqb "crm.read").
Definition catalogue : FlowCatalogue :=
  MkFlowCatalogue (fun t => if String.eqb t "crm.read" then Some EffectRead else if String.eqb t "crm.reply" then Some EffectWrite else None)
    (fun t => String.eqb t "crm.read").
Definition read_once : State := zeroState <| St_Called := ["crm.read"] |>.
End Watched.


(** A step that reaches nothing is checked as if it reached the whole pack: the
    check reports a destructive path, which refuses the publication, through a
    tool no run of the definition is ever allowed to call. *)
Theorem a_silent_step_is_checked_as_the_whole_pack :
  existsb BlocksPublication (Fi_Paths (Check (Sc_Tools Watched.thinking) (envelopesOf Watched.thinking) Watched.drops)) = true /\
  forall state, Pack_Allows (envelopeForState (resolved_start Watched.thinking) state) "db.drop" = false.
Proof.
  split; [vm_compute; reflexivity|]. intros state. apply not_true_iff_false. intros [H|H]%state_adds_platform; [|done].
  apply allowed_step in H as (k & step & _ & Hk & Hin); [|done].
  destruct k as [|[|k]]; cbn in Hk; [| |by rewrite nth_error_nil in Hk]; injection Hk as <-; cbn in Hin; by destruct_or? Hin.
Qed.
