(* ===== verification/Compensate.v ===== *)
(** * Compensation

    src/internal/compensate: plan.go works out from the trail what a run left
    standing; perform.go undoes it, one act at a time, each attempt recorded
    before the call leaves. [catalogue] is the Curator's ruling on what undoes
    what, an argument here ("" is a tool nothing undoes). A failure's text is
    not modelled: [UndoWhy] names what stopped an undo. The second half shows
    the plan is what each recorded call came to. *)

From Stdlib Require Import ZArith Lia Ascii String.
From stdpp Require Import base list strings gmap.
From S2P Require Import Prelude GoStrings Json Domain Policy Sha256 Dedupe Step Payload Encode WorkItem State Ledger Gate Ports Envelope Runner.

Local Open Scope string_scope.

(** ** Planning (plan.go) *)

Record Act := MkAct {
  Act_Tool : ToolID;
  Act_Seq : Z;
  Act_Undo : ToolID;
  Act_ResultRef : string;
  Act_Attempted : bool;
  Act_Failed : bool
}.

(** [call]: one tool invocation as the trail records it. *)
Record trail_call := MkTrailCall {
  tc_tool : ToolID;
  tc_seq : Z;
  tc_effect : Effect;
  tc_returned : bool;
  tc_failed : bool;
  tc_undone : bool;
  tc_attempted : bool;
  tc_compensationFailed : bool;
  tc_undo : ToolID;
  tc_resultRef : string
}.

#[export] Instance trail_call_eta : Eta trail_call := fun c =>
  MkTrailCall (tc_tool c) (tc_seq c) (tc_effect c) (tc_returned c) (tc_failed c) (tc_undone c)
    (tc_attempted c) (tc_compensationFailed c) (tc_undo c) (tc_resultRef c).

(** The map of calls and the order they were made in. The source's map holds
    pointers: rewriting the entry of a sequence is writing through one. *)
Record trail := MkTrail { tl_calls : gmap Z trail_call; tl_order : list Z }.

Definition called_now (s : Step) (p : ToolCalledPayload) : trail_call :=
  MkTrailCall (TCd_Tool p) (S_Seq s) (TCd_Effect p) false false false false false "" "".

Definition returned_with (p : ToolReturnedPayload) (c : trail_call) : trail_call :=
  c <| tc_returned := true |> <| tc_failed := TRd_Failed p |> <| tc_resultRef := TRd_ResultRef p |>.

Definition undo_started (p : CompensationStartedPayload) (c : trail_call) : trail_call :=
  c <| tc_attempted := true |> <| tc_undo := CS_Tool p |>.

Definition undo_recorded (p : CompensatedPayload) (c : trail_call) : trail_call :=
  let safeBeforeInvoke := CP_BeforeInvoke p && negb (tc_attempted c) && negb (tc_undone c) in
  let c := if CP_Succeeded p
           then c <| tc_attempted := true |> <| tc_compensationFailed := false |> <| tc_undone := true |>
           else if safeBeforeInvoke then c <| tc_compensationFailed := false |>
           else if negb (tc_undone c) then c <| tc_attempted := true |> <| tc_compensationFailed := true |>
           else c in
  if negb (String.eqb (CP_Tool p) "") && negb safeBeforeInvoke then c <| tc_undo := CP_Tool p |> else c.

(** The most recent call still waiting for its answer. *)
Definition pending_call (t : trail) : option Z :=
  List.find (fun q => match tl_calls t !! q with Some c => negb (tc_returned c) | None => false end)
    (rev (tl_order t)).

Definition revise (t : trail) (q : Z) (f : trail_call -> trail_call) : trail :=
  MkTrail (alter f q (tl_calls t)) (tl_order t).

Definition plan_step (t : trail) (s : Step) : trail :=
  if String.eqb (S_Kind s) StepToolCalled then
    match decode_payload zeroToolCalledPayload d_ToolCalledPayload (S_Payload s) with
    | Some p => MkTrail (<[S_Seq s := called_now s p]> (tl_calls t)) (tl_order t ++ [S_Seq s])
    | None => t
    end
  else if String.eqb (S_Kind s) StepToolReturned then
    match decode_payload zeroToolReturnedPayload d_ToolReturnedPayload (S_Payload s) with
    | Some p => match pending_call t with Some q => revise t q (returned_with p) | None => t end
    | None => t
    end
  else if String.eqb (S_Kind s) StepCompensationStarted then
    match decode_payload zeroCompensationStartedPayload d_CompensationStartedPayload (S_Payload s) with
    | Some p => revise t (CS_ForSeq p) (undo_started p)
    | None => t
    end
  else if String.eqb (S_Kind s) StepCompensated then
    match decode_payload zeroCompensatedPayload d_CompensatedPayload (S_Payload s) with
    | Some p => revise t (CP_ForSeq p) (undo_recorded p)
    | None => t
    end
  else t.

Definition trail_of (steps : list Step) : trail := fold_left plan_step steps (MkTrail ∅ []).

Section Plan.
Context (catalogue : ToolID -> ToolID).

(** The act a call leaves behind, if any. *)
Definition act_of (c : trail_call) : option Act :=
  if Z.eqb (tc_effect c) EffectRead then None
  else if negb (tc_returned c) || tc_failed c || tc_undone c then None
  else Some (MkAct (tc_tool c) (tc_seq c)
               (if String.eqb (tc_undo c) "" then catalogue (tc_tool c) else tc_undo c)
               (tc_resultRef c) (tc_attempted c) (tc_compensationFailed c)).

Definition Plan (steps : list Step) : list Act :=
  let t := trail_of steps in
  omap (fun q => tl_calls t !! q ≫= act_of) (rev (tl_order t)).
End Plan.

(** ** Performing (perform.go) *)

Inductive UndoWhy :=
| WhyDone
| WhyNothingUndoes
| WhyRecordedFailure
| WhyUnknownOutcome
| WhyRefused (rule : string)
| WhyResultUnreadable
| WhyNotReserved
| WhyInvokeError
| WhyToolFailed (code : string).

Record UndoOutcome := MkUndoOutcome { UO_Act : Act; UO_Done : bool; UO_Why : UndoWhy }.

Definition compensation_key (run : RunID) (seq : Z) : string :=
  "compensate:" +:+ run +:+ ":" +:+ print_Z seq.

Definition codeOr (code : string) : string :=
  if String.eqb code "" then "the tool reported a failure" else code.

Section Perform.
Context (deps : Deps) (start : Start).

Definition undo_request (seq : Z) (act : Act) (effect : Effect) : Request :=
  {| R_Scope := Sa_Scope start; R_RunID := Sa_RunID start; R_AgentID := Sa_AgentID start;
     R_Seq := seq; R_Tool := Act_Undo act; R_Effect := effect; R_Args := ""; R_ArgLabels := [];
     R_Pack := Sa_Pack start; R_Stage := Sa_Stage start; R_Compensating := Act_Tool act;
     R_Budget := Sa_Budget start; R_Committed := zeroConsumption; R_Estimate := zeroConsumption;
     R_IdemKey := compensation_key (Sa_RunID start) (Act_Seq act); R_AlreadyExecuted := false;
     R_ApprovalGranted := true; R_PendingReview := false; R_LinkProven := false;
     R_LinkRefusal := "" |}.

(** A step of the run as the compensation drafts it. *)
Definition undo_draft (kind : StepKind) (payload : string) (key : string) (now : Time) : Step :=
  MkStep (Sa_RunID start) 0 kind (Sa_Scope start) (Sa_AgentID start) (Sa_VersionID start)
    (Sa_OnBehalfOf start) payload [] zeroCost key "" now "" "".

Definition recordResult (act : Act) (succeeded beforeInvoke : bool) (why : UndoWhy)
    : turn UndoOutcome :=
  now ← call OnNow;
  let s := undo_draft StepCompensated
             (marshal c_CompensatedPayload
                (MkCompensatedPayload (Act_Undo act) (Act_Seq act) succeeded beforeInvoke)) "" now in
  _ ← ask RunLedger (if negb (Z.eqb (Sa_LeaseEpoch start) 0)
                     then LAppendIfLeaseAndHead (Sa_LeaseEpoch start) (MkStepRef 0 "") s
                     else LAppend s);
  mret (MkUndoOutcome act succeeded why).

Definition record_undo (act : Act) (succeeded : bool) (why : UndoWhy) : turn UndoOutcome :=
  recordResult act succeeded false why.

Definition recordBeforeInvoke (act : Act) (why : UndoWhy) : turn UndoOutcome :=
  recordResult act false true why.

Definition recordStarted (act : Act) (head : Step) (idemKey : string) : turn Step :=
  now ← call OnNow;
  let s := undo_draft StepCompensationStarted
             (marshal c_CompensationStartedPayload
                (MkCompensationStartedPayload (Act_Undo act) (Act_Seq act))) idemKey now in
  let expected := MkStepRef (S_Seq head) (S_Kind head) in
  ask RunLedger (if negb (Z.eqb (Sa_LeaseEpoch start) 0)
                 then LAppendIfLeaseAndHead (Sa_LeaseEpoch start) expected s
                 else LAppendIfHead expected s).

(** What the original call answered with; [None] when it cannot be read. *)
Definition undoArgs (act : Act) : turn (option string) :=
  if String.eqb (Act_ResultRef act) "" || negb (D_Content deps) then mret (Some "")
  else r ← call (OnGet (Act_ResultRef act));
       match r with Ok args => mret (Some args) | Err _ => mret None end.

Definition undo_call (act : Act) (args : string) (seq : Z) : Call :=
  MkCall (Sa_RunID start) seq (Sa_Scope start) (Sa_AgentID start) (Act_Undo act) args ""
    zeroApprovalEvidence 0 "" (Sa_OnBehalfOf start) (compensation_key (Sa_RunID start) (Act_Seq act))
    [] zeroTicketContext 0 [] (MkMemoryLearningPolicy "" 0 0).

(** The last answer before the undo leaves. *)
Definition undo_fence (started : Step) : turn unit :=
  if negb (Z.eqb (Sa_LeaseEpoch start) 0)
  then ask RunLedger (LFence (Sa_RunID start) (Sa_LeaseEpoch start)
                        (MkStepRef (S_Seq started) (S_Kind started)))
  else mret tt.

Definition performOne (act : Act) : turn UndoOutcome :=
  effect ← call (OnEffect (Act_Undo act));
  head ← ask RunLedger (LHead (Sa_RunID start));
  let decision := Evaluate (D_Gate deps) (undo_request (add64 (S_Seq head) 1) act effect) in
  if negb (Verdict_Executable (D_Verdict decision))
  then recordBeforeInvoke act (WhyRefused (D_Rule decision))
  else
    args ← undoArgs act;
    match args with
    | None => recordBeforeInvoke act WhyResultUnreadable
    | Some args =>
        let idemKey := compensation_key (Sa_RunID start) (Act_Seq act) in
        r ← call (OnReserve (undo_call act args 0));
        match r with
        | Err _ => recordBeforeInvoke act WhyNotReserved
        | Ok _ =>
            started ← recordStarted act head idemKey;
            _ ← undo_fence started;
            answer ← call (OnInvoke (undo_call act args (S_Seq started)));
            let '(result, ok) := answer in
            if negb ok then record_undo act false WhyInvokeError
            else if Tr_Failed result then record_undo act false (WhyToolFailed (codeOr (Tr_ErrorCode result)))
            else record_undo act true WhyDone
        end
    end.

(** What is reported of an act without touching it; [None] when it is to be
    performed. *)
Definition left_standing (act : Act) : option UndoOutcome :=
  if String.eqb (Act_Undo act) "" then Some (MkUndoOutcome act false WhyNothingUndoes)
  else if Act_Failed act then Some (MkUndoOutcome act false WhyRecordedFailure)
  else if Act_Attempted act then Some (MkUndoOutcome act false WhyUnknownOutcome)
  else None.

(** The outcomes so far come back with the error that stopped it. *)
Fixpoint perform_from (out : list UndoOutcome) (plan : list Act)
    : prog (list UndoOutcome * option RunError) :=
  match plan with
  | [] => Ret (out, None)
  | act :: rest =>
      match left_standing act with
      | Some outcome => perform_from (out ++ [outcome]) rest
      | None =>
          prog_bind (performOne act) (fun r =>
            match r with
            | Err e => Ret (out, Some e)
            | Ok outcome => perform_from (out ++ [outcome]) rest
            end)
      end
  end.

Definition Perform (plan : list Act) : prog (list UndoOutcome * option RunError) :=
  perform_from [] plan.
End Perform.

(** * What a compensation plan says

    src/internal/compensate/plan.go keeps one map of calls and rewrites its
    entries while it reads the trail. Here the same plan is read off locally:
    the fate of one call is a fold over the steps after it, its answer found by
    matching calls and answers like brackets. [plan_is_each_calls_fate] shows
    the two agree on every trail; what an act says of earlier attempts follows
    from the local reading. *)

(** ** Steps as the plan reads them *)

Inductive note :=
| NoteCalled (p : ToolCalledPayload)
| NoteReturned (p : ToolReturnedPayload)
| NoteStarted (p : CompensationStartedPayload)
| NoteCompensated (p : CompensatedPayload)
| NoteOther.

Definition or_other {A} (f : A -> note) (o : option A) : note :=
  match o with Some a => f a | None => NoteOther end.

Definition note_of (s : Step) : note :=
  if String.eqb (S_Kind s) StepToolCalled then
    or_other NoteCalled (decode_payload zeroToolCalledPayload d_ToolCalledPayload (S_Payload s))
  else if String.eqb (S_Kind s) StepToolReturned then
    or_other NoteReturned (decode_payload zeroToolReturnedPayload d_ToolReturnedPayload (S_Payload s))
  else if String.eqb (S_Kind s) StepCompensationStarted then
    or_other NoteStarted
      (decode_payload zeroCompensationStartedPayload d_CompensationStartedPayload (S_Payload s))
  else if String.eqb (S_Kind s) StepCompensated then
    or_other NoteCompensated (decode_payload zeroCompensatedPayload d_CompensatedPayload (S_Payload s))
  else NoteOther.

Lemma plan_step_note t s :
  plan_step t s =
  match note_of s with
  | NoteCalled p => MkTrail (<[S_Seq s := called_now s p]> (tl_calls t)) (tl_order t ++ [S_Seq s])
  | NoteReturned p => match pending_call t with Some q => revise t q (returned_with p) | None => t end
  | NoteStarted p => revise t (CS_ForSeq p) (undo_started p)
  | NoteCompensated p => revise t (CP_ForSeq p) (undo_recorded p)
  | NoteOther => t
  end.
Proof. unfold plan_step, note_of, or_other. by repeat case_match; simplify_eq. Qed.

(** ** The fate of one call *)

(** [ft_depth] is the number of later calls still waiting for their answer. *)
Record fate := MkFate { ft_depth : nat; ft_call : trail_call }.

Definition waiting (f : fate) : bool := negb (tc_returned (ft_call f)).

Definition fate_if (q : Z) (g : trail_call -> trail_call) (f : fate) : fate :=
  if Z.eqb (tc_seq (ft_call f)) q then MkFate (ft_depth f) (g (ft_call f)) else f.

Definition fate_step (f : fate) (s : Step) : fate :=
  match note_of s with
  | NoteCalled _ => if waiting f then MkFate (S (ft_depth f)) (ft_call f) else f
  | NoteReturned p =>
      if waiting f then
        match ft_depth f with
        | O => MkFate O (returned_with p (ft_call f))
        | S d => MkFate d (ft_call f)
        end
      else f
  | NoteStarted p => fate_if (CS_ForSeq p) (undo_started p) f
  | NoteCompensated p => fate_if (CP_ForSeq p) (undo_recorded p) f
  | NoteOther => f
  end.

Definition fate_of (s : Step) (p : ToolCalledPayload) (after : list Step) : fate :=
  fold_left fate_step after (MkFate 0 (called_now s p)).

(** The fates of the calls of a trail, in the order they were made. *)
Fixpoint fates_in (steps : list Step) : list fate :=
  match steps with
  | [] => []
  | s :: after =>
      match note_of s with
      | NoteCalled p => fate_of s p after :: fates_in after
      | _ => fates_in after
      end
  end.

Lemma fates_snoc steps s :
  fates_in (steps ++ [s]) =
  (map (fun f => fate_step f s) (fates_in steps) ++
   match note_of s with NoteCalled p => [MkFate 0 (called_now s p)] | _ => [] end)%list.
Proof.
  induction steps as [|x steps IH]; simpl; [by destruct (note_of s)|].
  destruct (note_of x); [|done..]. unfold fate_of at 1. rewrite fold_left_app. simpl.
  by rewrite IH.
Qed.

Definition fate_seq (f : fate) : Z := tc_seq (ft_call f).

Lemma undo_recorded_kept p c :
  tc_tool (undo_recorded p c) = tc_tool c /\ tc_seq (undo_recorded p c) = tc_seq c /\
  tc_effect (undo_recorded p c) = tc_effect c /\ tc_returned (undo_recorded p c) = tc_returned c /\
  tc_failed (undo_recorded p c) = tc_failed c /\ tc_resultRef (undo_recorded p c) = tc_resultRef c.
Proof. unfold undo_recorded. cbv zeta. by repeat case_match. Qed.

Lemma fate_step_seq f s : fate_seq (fate_step f s) = fate_seq f.
Proof.
  unfold fate_step, fate_if, fate_seq. repeat case_match; try done. simpl. apply undo_recorded_kept.
Qed.

Lemma fates_seqs steps q : q ∈ map fate_seq (fates_in steps) -> q ∈ map S_Seq steps.
Proof.
  induction steps as [|s steps IH]; simpl; [done|].
  assert (forall l f, fate_seq (fold_left fate_step l f) = fate_seq f) as Hf.
  { induction l as [|x l IHl]; intros f; simpl; [done|]. by rewrite IHl, fate_step_seq. }
  destruct (note_of s); simpl; rewrite ?elem_of_cons; [|auto..].
  unfold fate_of. rewrite Hf. simpl. naive_solver.
Qed.

Lemma fates_NoDup steps : NoDup (map S_Seq steps) -> NoDup (map fate_seq (fates_in steps)).
Proof.
  induction steps as [|s steps IH]; simpl; [done|]. rewrite NoDup_cons. intros [Hn Hd].
  assert (forall l f, fate_seq (fold_left fate_step l f) = fate_seq f) as Hf.
  { induction l as [|x l IHl]; intros f; simpl; [done|]. by rewrite IHl, fate_step_seq. }
  destruct (note_of s); simpl; auto. apply NoDup_cons. split; [|auto].
  unfold fate_of. rewrite Hf. intros H. by apply Hn, fates_seqs.
Qed.

(** ** The trail represents the fates *)

Record represents (t : trail) (fs : list fate) : Prop := {
  rep_order : tl_order t = map fate_seq fs;
  rep_calls : forall f, f ∈ fs -> tl_calls t !! fate_seq f = Some (ft_call f)
}.

(** Each call still waiting counts the calls after it that wait too. *)
Fixpoint depths_ok (fs : list fate) : Prop :=
  match fs with
  | [] => True
  | f :: rest =>
      (waiting f = true -> ft_depth f = List.length (List.filter waiting rest)) /\ depths_ok rest
  end.

Lemma represents_revise t fs q g :
  NoDup (map fate_seq fs) -> represents t fs -> (forall c, tc_seq (g c) = tc_seq c) ->
  represents (revise t q g) (map (fate_if q g) fs).
Proof.
  intros Hd [H1 H2] Hg.
  assert (Hs : forall f, fate_seq (fate_if q g f) = fate_seq f).
  { intros f. unfold fate_if, fate_seq. by case_match; simpl. }
  split; simpl.
  - rewrite H1, map_map. apply map_ext. intros f. by rewrite Hs.
  - intros f' Hf'. apply list_elem_of_fmap in Hf' as (f & -> & Hf). rewrite Hs.
    specialize (H2 f Hf). unfold fate_if. fold (fate_seq f).
    destruct (Z.eqb_spec (fate_seq f) q) as [<-|D].
    + by rewrite lookup_alter_eq, H2.
    + by rewrite lookup_alter_ne.
Qed.

Lemma fate_if_waiting q g f :
  (forall c, tc_returned (g c) = tc_returned c) ->
  waiting (fate_if q g f) = waiting f /\ ft_depth (fate_if q g f) = ft_depth f.
Proof. intros Hg. unfold fate_if, waiting. case_match; simpl; by rewrite ?Hg. Qed.

Lemma depths_map (h : fate -> fate) fs :
  (forall f, waiting (h f) = waiting f /\ ft_depth (h f) = ft_depth f) ->
  depths_ok fs -> depths_ok (map h fs).
Proof.
  intros Hh. assert (Hl : forall l, List.length (List.filter waiting (map h l)) =
                             List.length (List.filter waiting l)).
  { induction l as [|x l IH]; simpl; [done|]. destruct (Hh x) as [-> _].
    by destruct (waiting x); simpl; rewrite IH. }
  induction fs as [|f fs IH]; simpl; [done|]. intros [H1 H2]. destruct (Hh f) as [-> ->].
  rewrite Hl. auto.
Qed.

(** A call on top: everybody who waits now has one more to wait for. *)
Lemma depths_called fs f0 :
  waiting f0 = true -> ft_depth f0 = 0%nat -> depths_ok fs ->
  depths_ok (map (fun f => if waiting f then MkFate (S (ft_depth f)) (ft_call f) else f) fs ++ [f0]).
Proof.
  intros Hw H0. set (h := fun f => _).
  assert (Hh : forall f, waiting (h f) = waiting f) by (intros f; unfold h; by case_match eqn:E; unfold waiting in *).
  assert (Hl : forall l, List.length (List.filter waiting (map h l ++ [f0])) =
                         S (List.length (List.filter waiting l))).
  { induction l as [|x l IH]; simpl; [by rewrite Hw|]. rewrite Hh. by destruct (waiting x); simpl; rewrite IH. }
  induction fs as [|f fs IH]; simpl; [done|]. intros [H1 H2]. split; [|auto].
  rewrite Hh, Hl. intros Hwf. unfold h. rewrite Hwf. simpl. by rewrite H1.
Qed.

(** An answer: the innermost waiting call takes it. *)

Definition answered (p : ToolReturnedPayload) (f : fate) : fate :=
  if waiting f then
    match ft_depth f with
    | O => MkFate O (returned_with p (ft_call f))
    | S d => MkFate d (ft_call f)
    end
  else f.

Lemma find_split {A} (P : A -> bool) l x :
  List.find P l = Some x -> exists a b, l = (a ++ x :: b)%list /\ P x = true /\ Forall (fun y => P y = false) a.
Proof.
  induction l as [|y l IH]; simpl; [done|]. destruct (P y) eqn:E.
  - intros [= ->]. by exists [], l.
  - intros (a & b & -> & H1 & H2)%IH. exists (y :: a), b. split_and!; [done|done|by constructor].
Qed.

Lemma pending_find t fs :
  represents t fs -> pending_call t = option_map fate_seq (List.find waiting (rev fs)).
Proof.
  intros [H1 H2]. unfold pending_call. rewrite H1, <- map_rev.
  assert (forall f, f ∈ rev fs -> f ∈ fs) as Hin.
  { intros f Hf. apply list_elem_of_In, in_rev, list_elem_of_In. done. }
  induction (rev fs) as [|f l IH]; simpl; [done|].
  rewrite (H2 f) by (apply Hin, list_elem_of_here). fold (waiting f).
  destruct (waiting f); [done|]. apply IH. intros g Hg. by apply Hin, list_elem_of_further.
Qed.

Lemma filter_none (P : fate -> bool) l :
  Forall (fun y => P y = false) l -> List.filter P l = [].
Proof. induction 1 as [|y l H _ IH]; simpl; [done|]. by rewrite H. Qed.

Lemma map_quiet p l : Forall (fun y => waiting y = false) l -> map (answered p) l = l.
Proof.
  induction 1 as [|y l H _ IH]; simpl; [done|]. unfold answered at 1. by rewrite H, IH.
Qed.

(** What the answer does to a trail whose last waiting call is [f]. *)
Lemma answered_map p l1 f l2 :
  waiting f = true -> Forall (fun y => waiting y = false) l2 -> depths_ok (l1 ++ f :: l2) ->
  exists l1', map (answered p) (l1 ++ f :: l2) = (l1' ++ MkFate 0 (returned_with p (ft_call f)) :: l2)%list /\
    Forall2 (fun x y => ft_call y = ft_call x) l1 l1' /\
    depths_ok (l1' ++ MkFate 0 (returned_with p (ft_call f)) :: l2) /\
    S (List.length (List.filter waiting l1')) = List.length (List.filter waiting (l1 ++ [f])).
Proof.
  intros Hw Hq. induction l1 as [|x l1 IH]; simpl; intros [H1 H2].
  - exists []. simpl. rewrite (filter_none _ _ Hq) in H1. specialize (H1 Hw).
    rewrite Hw. simpl. split_and!; [|constructor|done|done|done].
    unfold answered at 1. rewrite Hw, H1. by rewrite map_quiet.
  - destruct (IH H2) as (l1' & E & F & D & L).
    assert (Hc : List.length (List.filter waiting (l1 ++ f :: l2)) = List.length (List.filter waiting (l1 ++ [f]))).
    { rewrite !List.filter_app. simpl. rewrite Hw, (filter_none _ _ Hq). done. }
    assert (Hc' : List.length (List.filter waiting (l1' ++ MkFate 0 (returned_with p (ft_call f)) :: l2)) =
                  List.length (List.filter waiting l1')).
    { rewrite List.filter_app. simpl. rewrite (filter_none _ _ Hq). by rewrite app_nil_r. }
    unfold answered at 1. destruct (waiting x) eqn:Hx.
    + specialize (H1 eq_refl). rewrite Hc, <- L in H1. rewrite H1.
      set (y := MkFate (List.length (List.filter waiting l1')) (ft_call x)).
      assert (Hy : waiting y = true) by exact Hx.
      exists (y :: l1'). simpl. rewrite Hy, E. simpl.
      split_and!; [done|by constructor|by rewrite Hc'|done|by rewrite L].
    + exists (x :: l1'). simpl. rewrite E, Hx.
      split_and!; [done|by constructor|done|done|done].
Qed.

Lemma represents_answered t fs p :
  NoDup (map fate_seq fs) -> represents t fs -> depths_ok fs ->
  represents (match pending_call t with Some q => revise t q (returned_with p) | None => t end)
    (map (answered p) fs) /\ depths_ok (map (answered p) fs).
Proof.
  intros Hd Hr Ho. rewrite (pending_find _ _ Hr).
  destruct (List.find waiting (rev fs)) as [f|] eqn:Ef; simpl.
  - apply find_split in Ef as (a & b & E & Hw & Ha).
    apply (f_equal (@rev fate)) in E. rewrite rev_involutive, rev_app_distr in E. simpl in E.
    rewrite <- app_assoc in E. simpl in E. subst fs.
    assert (Hq : Forall (fun y => waiting y = false) (rev a)) by (by apply List.Forall_rev).
    destruct (answered_map p (rev b) f (rev a) Hw Hq Ho) as (l1' & E & F & D & _).
    rewrite E. split; [|done].
    assert (Hseq : map fate_seq l1' = map fate_seq (rev b)).
    { clear -F. induction F as [|x y l l' H _ IH]; simpl; [done|].
      unfold fate_seq at 1 3. by rewrite H, IH. }
    rewrite map_app in Hd. simpl in Hd. apply NoDup_app in Hd as (_ & D1 & D2).
    apply NoDup_cons in D2 as [D2 _]. destruct Hr as [H1 H2]. split; simpl.
    + rewrite H1, !map_app. simpl. by rewrite Hseq.
    + intros y Hy. apply elem_of_app in Hy as [Hy|Hy].
      * assert (Hny : fate_seq f <> fate_seq y).
        { intros Ey. apply (D1 (fate_seq y)); [|rewrite <- Ey; apply list_elem_of_here].
          rewrite <- Hseq. by apply list_elem_of_fmap_2. }
        rewrite lookup_alter_ne by done.
        apply list_elem_of_lookup in Hy as (i & Hi). destruct (Forall2_lookup_r _ _ _ _ _ F Hi) as (x & Hx & Ex).
        unfold fate_seq. rewrite Ex. apply (H2 x). apply elem_of_app. left. by eapply list_elem_of_lookup_2.
      * apply elem_of_cons in Hy as [->|Hy].
        -- change (fate_seq (MkFate 0 (returned_with p (ft_call f)))) with (fate_seq f).
           rewrite lookup_alter_eq, (H2 f); [done|]. apply elem_of_app. right. apply list_elem_of_here.
        -- rewrite lookup_alter_ne; [apply H2; apply elem_of_app; right; by apply list_elem_of_further|].
           intros Ey. apply D2. rewrite Ey. by apply list_elem_of_fmap_2.
  - assert (Hq : Forall (fun y => waiting y = false) fs).
    { apply List.Forall_forall. intros x Hx. apply (List.find_none _ _ Ef). by apply in_rev in Hx. }
    by rewrite map_quiet.
Qed.

Lemma trail_represents steps :
  NoDup (map S_Seq steps) -> represents (trail_of steps) (fates_in steps) /\ depths_ok (fates_in steps).
Proof.
  unfold trail_of. induction steps as [|s steps IH] using rev_ind; intros Hd.
  { split; [split; [done|]|done]. intros f Hf. by apply elem_of_nil in Hf. }
  rewrite map_app in Hd. simpl in Hd. pose proof Hd as Hd'.
  apply NoDup_app in Hd as (Hd & Hx & _). destruct (IH Hd) as [Hr Ho].
  pose proof (fates_NoDup _ Hd) as Hn. rewrite fold_left_app, fates_snoc. simpl.
  rewrite plan_step_note. set (t := fold_left plan_step steps (MkTrail ∅ [])) in *.
  destruct (note_of s) as [p|p|p|p|] eqn:En.
  - assert (Hm : map (fun f => fate_step f s) (fates_in steps) =
                 map (fun f => if waiting f then MkFate (S (ft_depth f)) (ft_call f) else f) (fates_in steps)).
    { apply map_ext. intros f. unfold fate_step. by rewrite En. }
    rewrite Hm. split; [|by apply depths_called]. rewrite <- Hm. destruct Hr as [H1 H2]. split; simpl.
    + rewrite H1, map_app, map_map. simpl. f_equal. apply map_ext. intros f. by rewrite fate_step_seq.
    + intros f Hf. apply elem_of_app in Hf as [Hf|Hf].
      * apply list_elem_of_fmap in Hf as (g & -> & Hg). rewrite fate_step_seq, lookup_insert_ne.
        -- rewrite (H2 g Hg). unfold fate_step. rewrite En. by case_match.
        -- intros E. apply (Hx (S_Seq s)); [|apply list_elem_of_here]. rewrite E.
           apply fates_seqs. by apply list_elem_of_fmap_2.
      * apply list_elem_of_singleton in Hf as ->. by rewrite lookup_insert_eq.
  - rewrite app_nil_r.
    replace (map (fun f => fate_step f s) (fates_in steps)) with (map (answered p) (fates_in steps));
      [by apply represents_answered|].
    apply map_ext. intros f. unfold fate_step. by rewrite En.
  - rewrite app_nil_r.
    replace (map (fun f => fate_step f s) (fates_in steps))
      with (map (fate_if (CS_ForSeq p) (undo_started p)) (fates_in steps)).
    + split; [by apply represents_revise|]. apply depths_map; [|done]. intros f. by apply fate_if_waiting.
    + apply map_ext. intros f. unfold fate_step. by rewrite En.
  - rewrite app_nil_r.
    replace (map (fun f => fate_step f s) (fates_in steps))
      with (map (fate_if (CP_ForSeq p) (undo_recorded p)) (fates_in steps)).
    + split; [apply represents_revise; [done|done|]; intros c; apply undo_recorded_kept|].
      apply depths_map; [|done]. intros f. apply fate_if_waiting. intros c. apply undo_recorded_kept.
    + apply map_ext. intros f. unfold fate_step. by rewrite En.
  - rewrite app_nil_r.
    replace (map (fun f => fate_step f s) (fates_in steps)) with (fates_in steps); [done|].
    rewrite <- map_id at 1. apply map_ext. intros f. unfold fate_step. by rewrite En.
Qed.

Lemma plan_fates catalogue steps :
  NoDup (map S_Seq steps) ->
  Plan catalogue steps = rev (omap (fun f => act_of catalogue (ft_call f)) (fates_in steps)).
Proof.
  intros Hd. destruct (trail_represents steps Hd) as [[H1 H2] _]. unfold Plan. rewrite H1.
  rewrite <- map_rev.
  assert (Hin : forall f, f ∈ rev (fates_in steps) -> f ∈ fates_in steps).
  { intros f Hf. by apply list_elem_of_In, in_rev, list_elem_of_In. }
  assert (Hrev : forall l : list fate, omap (fun f => act_of catalogue (ft_call f)) (rev l) =
                        rev (omap (fun f => act_of catalogue (ft_call f)) l)).
  { induction l as [|f l IH]; simpl; [done|]. rewrite omap_app, IH. simpl.
    destruct (act_of catalogue (ft_call f)); [done|]. by rewrite app_nil_r. }
  rewrite <- Hrev. revert Hin. induction (rev (fates_in steps)) as [|f l IH]; intros Hin; simpl; [done|].
  rewrite (H2 f) by (apply Hin, list_elem_of_here). simpl.
  assert (Hl : forall g, g ∈ l -> g ∈ fates_in steps) by (intros g Hg; by apply Hin, list_elem_of_further).
  destruct (act_of catalogue (ft_call f)); [f_equal|]; by apply IH.
Qed.

(** ** Attempts *)

(** [s] says an undo of the call at [q] may have left. *)
Definition attempts (s : Step) (q : Z) : Prop :=
  match note_of s with
  | NoteStarted p => CS_ForSeq p = q
  | NoteCompensated p => CP_ForSeq p = q /\ (CP_Succeeded p = true \/ CP_BeforeInvoke p = false)
  | _ => False
  end.

Lemma undo_recorded_attempted p c :
  (tc_attempted c = true -> tc_attempted (undo_recorded p c) = true) /\
  (tc_undone c = true -> tc_attempted c = true) ->
  tc_attempted (undo_recorded p c) = true <->
  tc_attempted c = true \/ CP_Succeeded p = true \/ CP_BeforeInvoke p = false.
Proof.
  intros [_ Hu]. unfold undo_recorded. cbv zeta.
  destruct (CP_Succeeded p), (CP_BeforeInvoke p), (tc_attempted c) eqn:Ea, (tc_undone c) eqn:Eu,
    (String.eqb (CP_Tool p) ""); simpl; rewrite ?Ea; naive_solver.
Qed.

Lemma undo_recorded_undone p c :
  (tc_undone c = true -> tc_attempted c = true) ->
  tc_undone (undo_recorded p c) = true -> tc_attempted (undo_recorded p c) = true.
Proof.
  intros Hu. unfold undo_recorded. cbv zeta.
  destruct (CP_Succeeded p), (CP_BeforeInvoke p), (tc_attempted c) eqn:Ea, (tc_undone c) eqn:Eu,
    (String.eqb (CP_Tool p) ""); simpl; rewrite ?Ea, ?Eu; naive_solver.
Qed.

Lemma fate_attempted s p after :
  let c := ft_call (fate_of s p after) in
  (tc_undone c = true -> tc_attempted c = true) /\
  (tc_attempted c = true <-> exists x, x ∈ after /\ attempts x (S_Seq s)).
Proof.
  unfold fate_of. induction after as [|x after IH] using rev_ind; simpl in *.
  { split; [done|]. split; [done|]. intros (x & Hx & _). by apply elem_of_nil in Hx. }
  rewrite fold_left_app. simpl.
  set (f := fold_left fate_step after (MkFate 0 (called_now s p))) in *.
  assert (Hs : tc_seq (ft_call f) = S_Seq s).
  { subst f. clear IH. induction after as [|y after IHa] using rev_ind; [done|].
    rewrite fold_left_app. simpl. change (fate_seq (fate_step (fold_left fate_step after (MkFate 0 (called_now s p))) y) = S_Seq s).
    by rewrite fate_step_seq. }
  assert (Hex : (exists y, y ∈ (after ++ [x])%list /\ attempts y (S_Seq s)) <->
                (exists y, y ∈ after /\ attempts y (S_Seq s)) \/ attempts x (S_Seq s)).
  { setoid_rewrite elem_of_app. setoid_rewrite list_elem_of_singleton. naive_solver. }
  rewrite Hex. destruct IH as [I1 I2]. rewrite <- I2.
  unfold fate_step, attempts, fate_if. destruct (note_of x) as [q|q|q|q|]; try rewrite Hs.
  - destruct (waiting f); simpl; tauto.
  - destruct (waiting f), (ft_depth f); simpl; tauto.
  - destruct (Z.eqb_spec (S_Seq s) (CS_ForSeq q)); simpl; naive_solver.
  - destruct (Z.eqb_spec (S_Seq s) (CP_ForSeq q)) as [E|D]; simpl; [|naive_solver].
    split; [by apply undo_recorded_undone|]. rewrite undo_recorded_attempted; [naive_solver|].
    split; [|done]. intros Ha. unfold undo_recorded. cbv zeta. repeat case_match; done.
  - tauto.
Qed.

Lemma fates_In steps f :
  f ∈ fates_in steps <->
  exists before s p after, steps = (before ++ s :: after)%list /\ note_of s = NoteCalled p /\
    f = fate_of s p after.
Proof.
  induction steps as [|x steps IH]; simpl.
  { split; [by intros ?%elem_of_nil|]. intros (b & s & p & a & E & _). by destruct b. }
  assert (Hrec : f ∈ fates_in steps <-> exists before s p after,
            x :: steps = ((x :: before) ++ s :: after)%list /\ note_of s = NoteCalled p /\ f = fate_of s p after).
  { rewrite IH. split; intros (b & s & p & a & E & H); exists b, s, p, a; (split; [|done]); simpl in *; congruence. }
  destruct (note_of x) as [p| | | |] eqn:En.
  1: rewrite elem_of_cons.
  all: rewrite Hrec; split.
  all: try (intros (b & s & q & a & E & H); by exists (x :: b), s, q, a).
  all: try (intros (b & s & q & a & E & Hn & H); destruct b as [|y b]; simpl in E;
            injection E as -> ->; [congruence|by exists b, s, q, a]).
  - intros [->|(b & s & q & a & E & H)]; [by exists [], x, p, steps|by exists (x :: b), s, q, a].
  - intros (b & s & q & a & E & Hn & H). destruct b as [|y b]; simpl in E; injection E as -> ->.
    + left. congruence.
    + right. by exists b, s, q, a.
Qed.

Lemma fate_kept s p after :
  let c := ft_call (fate_of s p after) in
  tc_tool c = TCd_Tool p /\ tc_seq c = S_Seq s /\ tc_effect c = TCd_Effect p.
Proof.
  unfold fate_of. induction after as [|x after IH] using rev_ind; [done|]. rewrite fold_left_app. simpl.
  simpl in IH. set (f := fold_left fate_step after _) in *. clearbody f.
  unfold fate_step, fate_if. destruct (note_of x) as [q|q|q|q|]; try done; repeat case_match; try done.
  cbn [ft_call]. destruct (undo_recorded_kept q (ft_call f)) as (E1 & E2 & E3 & _).
  by rewrite E1, E2, E3.
Qed.

(** Where an act of a plan comes from. *)
Lemma plan_act catalogue steps a :
  NoDup (map S_Seq steps) -> a ∈ Plan catalogue steps ->
  exists before s p after, steps = (before ++ s :: after)%list /\ note_of s = NoteCalled p /\
    Act_Seq a = S_Seq s /\ Act_Tool a = TCd_Tool p /\ TCd_Effect p <> EffectRead /\
    (Act_Attempted a = true <-> exists x, x ∈ after /\ attempts x (S_Seq s)).
Proof.
  intros Hd Ha. rewrite (plan_fates _ _ Hd) in Ha.
  apply list_elem_of_In, in_rev, list_elem_of_In, list_elem_of_omap in Ha as (f & Hf & Ha).
  apply fates_In in Hf as (b & s & p & af & -> & Hn & ->). exists b, s, p, af.
  destruct (fate_kept s p af) as (K1 & K2 & K3). destruct (fate_attempted s p af) as [_ At].
  unfold act_of in Ha. destruct (Z.eqb_spec (tc_effect (ft_call (fate_of s p af))) EffectRead) as [|De]; [done|].
  case_match; [done|]. injection Ha as <-. simpl. split_and!; try done; congruence.
Qed.

(** ** What a plan promises *)


(** A plan never forgets an attempt: every act of a plan is for one recorded
    call of its tool that was not a mere read, and it is marked attempted
    exactly when the trail, after that call, records that an undo of it started
    or came to an end that was not provably before it left. *)
Theorem plans_remember_attempts catalogue steps a :
  NoDup (map S_Seq steps) -> a ∈ Plan catalogue steps ->
  exists before s p after, steps = (before ++ s :: after)%list /\ note_of s = NoteCalled p /\
    Act_Seq a = S_Seq s /\ Act_Tool a = TCd_Tool p /\ TCd_Effect p <> EffectRead /\
    (Act_Attempted a = true <-> exists x, x ∈ after /\ attempts x (S_Seq s)).
Proof. apply plan_act. Qed.

(** ** Witnesses *)

(** Two calls, the second answered first; the first undone but for its answer. *)
Module SampleTrail.
Definition at_seq (seq : Z) (kind payload : string) : Step :=
  MkStep "run-1" seq kind (MkScope "acme" "cx") "triage" "v1" "ana" payload [] zeroCost "" "" 0 "" "".

Definition called (seq : Z) (tool : ToolID) : Step :=
  at_seq seq StepToolCalled (marshal c_ToolCalledPayload (MkToolCalledPayload tool EffectWrite "" "" "")).
Definition returned (seq : Z) (tool : ToolID) : Step :=
  at_seq seq StepToolReturned
    (marshal c_ToolReturnedPayload (MkToolReturnedPayload tool "r" "" 0 false "" false "" 0 None None)).
Definition undo_began (seq for_ : Z) : Step :=
  at_seq seq StepCompensationStarted
    (marshal c_CompensationStartedPayload (MkCompensationStartedPayload "crm.revert" for_)).

Definition steps : list Step :=
  [called 1 "crm.update"; called 2 "mail.send"; returned 3 "mail.send"; returned 4 "crm.update"; undo_began 5 1].

Definition catalogue (tool : ToolID) : ToolID := if String.eqb tool "mail.send" then "mail.recall" else "".

Definition first_act : Act := MkAct "crm.update" 1 "crm.revert" "r" true false.

Lemma steps_distinct : NoDup (map S_Seq steps).
Proof. apply (bool_decide_eq_true_1 _). vm_compute. reflexivity. Qed.

Lemma steps_plan : Plan catalogue steps = [MkAct "mail.send" 2 "mail.recall" "r" false false; first_act].
Proof. vm_compute. reflexivity. Qed.
End SampleTrail.


Lemma plans_remember_attempts_witness :
  exists before s p after, SampleTrail.steps = (before ++ s :: after)%list /\ note_of s = NoteCalled p /\
    Act_Seq SampleTrail.first_act = S_Seq s /\ Act_Tool SampleTrail.first_act = TCd_Tool p /\
    TCd_Effect p <> EffectRead /\
    (Act_Attempted SampleTrail.first_act = true <-> exists x, x ∈ after /\ attempts x (S_Seq s)).
Proof.
  apply (plans_remember_attempts SampleTrail.catalogue SampleTrail.steps SampleTrail.first_act
           SampleTrail.steps_distinct).
  rewrite SampleTrail.steps_plan. apply list_elem_of_further, list_elem_of_here.
Defined.
