(* ===== verification/Worker.v ===== *)
(** * Workers

    src/internal/worker: turn.go claims a run, advances it once and releases
    it; supervision.go decides what a failure leads to; fallback.go switches a
    run to its declared fallback; abandon.go undoes what an abandoned run left;
    worker.go holds the configuration. Metrics and logs are left out.

    A worker's collaborators are ports ([Ports.port]); renewing the lease while
    a turn runs is the queue's business at any moment, and what the turn learns
    of it is [OnLeaseCause], whether its context was cancelled for a lost lease.
    The rules by which the lease keeper cancels are at the end. *)

From Stdlib Require Import ZArith Lia Ascii String.
From stdpp Require Import base list strings gmap.
From S2P Require Import Prelude GoStrings Json Domain Policy Sha256 Dedupe Step Payload Encode WorkItem State Ledger Gate Ports Envelope Runner Calendar Compensate.

Local Open Scope string_scope.

(** ** Configuration (worker.go) *)

Record Config := MkConfig {
  Cfg_Owner : string;
  Cfg_Concurrency : Z;
  Cfg_Lease : Duration;
  Cfg_IdleWait : Duration;
  Cfg_MaxAttempts : Z;
  Cfg_BaseBackoff : Duration;
  Cfg_MaxBackoff : Duration
}.

Definition ms : Z := 1000000.

Definition withDefaults (c : Config) : Config :=
  let lease := if (Cfg_Lease c <=? 0)%Z then (120000 * ms)%Z else Cfg_Lease c in
  MkConfig (Cfg_Owner c)
    (if (Cfg_Concurrency c <=? 0)%Z then 4%Z else Cfg_Concurrency c)
    (if (lease <? 30 * ms)%Z then (30 * ms)%Z else lease)
    (if (Cfg_IdleWait c <=? 0)%Z then (1000 * ms)%Z else Cfg_IdleWait c)
    (if (Cfg_MaxAttempts c <=? 0)%Z then 5%Z else Cfg_MaxAttempts c)
    (if (Cfg_BaseBackoff c <=? 0)%Z then (2000 * ms)%Z else Cfg_BaseBackoff c)
    (if (Cfg_MaxBackoff c <=? 0)%Z then (300000 * ms)%Z else Cfg_MaxBackoff c).

(** The pool: its optional collaborators, the Curator's catalogue of undos, and
    the text of an error, which only the failure view shows. *)
Record Worker := MkWorkerPool {
  W_Config : Config;
  W_Deps : Deps;
  W_Ceilings : bool;
  W_Stages : bool;
  W_Undos : option (ToolID -> ToolID);
  W_ErrorText : RunError -> string
}.

(** ** What an error says of itself (model/errors.go, engine/errors.go,
    engine/unavailable.go, engine/fallback.go) *)

Definition CodeDedupeInFlight : string := "dedupe_in_flight".
Definition CodeToolServerUnavailable : string := "tool_server_unavailable".
Definition CodeProviderOverloaded : string := "model_provider_overloaded".
Definition CodeRateLimited : string := "model_rate_limited".
Definition CodeProviderUnavailable : string := "model_provider_unavailable".
Definition ParkFallbackUnrehearsed : string := "fallback_unrehearsed".

(** [model.FailureSummaryOf]: the first error of the chain that has a summary. *)
Definition FailureSummaryOf (e : RunError) : option FailureSummary :=
  match e with
  | RunPlan (PlanFailed f) => f
  | RunPlan (PlanSpent s) => Sp_Failure s
  | RunPort (PortFailed f) => f
  | RunDedupeInFlight => Some (MkFailureSummary CodeDedupeInFlight "" 0 "" true)
  | RunServerUnavailable server _ =>
      Some (MkFailureSummary CodeToolServerUnavailable server 0 "" true)
  | RunFallbackUnrehearsed f => Some f
  | _ => None
  end.

Definition lease_lost (e : RunError) : bool :=
  match e with RunLedger ErrLeaseLost | RunSpendNotRecorded _ ErrLeaseLost => true | _ => false end.

Definition head_moved (e : RunError) : bool :=
  match e with RunLedger ErrHeadMoved | RunSpendNotRecorded _ ErrHeadMoved => true | _ => false end.

(** ** Supervision (supervision.go) *)

Definition parkReasonOf (e : RunError) : option string :=
  match e with RunFallbackUnrehearsed _ => Some ParkFallbackUnrehearsed | _ => None end.

Definition parkedReasonFor (e : RunError) : string :=
  match parkReasonOf e with
  | Some reason => reason
  | None => match FailureSummaryOf e with Some f => FS_Code f | None => "attempts_exhausted" end
  end.

(** [for range attempts - 1]: doubling until the cap. *)
Fixpoint backoff_loop (rounds : nat) (cap d : Duration) : Duration :=
  match rounds with
  | O => d
  | S n => let d := wrap64 (d * 2) in if (cap <=? d)%Z then cap else backoff_loop n cap d
  end.

Definition backoff (cfg : Config) (attempts : Z) : Duration :=
  backoff_loop (Z.to_nat (attempts - 1)) (Cfg_MaxBackoff cfg) (Cfg_BaseBackoff cfg).

Definition emptyOutcome : ClaimOutcome := MkClaimOutcome 0 0 None None false.

Section Supervision.
Context (w : Worker).

Definition failed_outcome (e : RunError) (parked : bool) : ClaimOutcome :=
  MkClaimOutcome 0 0 (Some (W_ErrorText w e)) (FailureSummaryOf e) parked.

(** What a failed turn leads to; the clock is read only when it is retried. *)
Definition failure (c : Claim) (e : RunError) : turn ClaimOutcome :=
  let attempts := add64 (Cl_Attempts c) 1 in
  let retry :=
    if bool_decide (is_Some (parkReasonOf e)) || (Cfg_MaxAttempts (W_Config w) <=? attempts)%Z
    then mret (failed_outcome e true)
    else
      now ← call OnNow;
      mret (MkClaimOutcome 0 (Time_Add now (backoff (W_Config w) attempts))
              (Some (W_ErrorText w e)) (FailureSummaryOf e) false) in
  match FailureSummaryOf e with
  | Some f => if negb (FS_Retryable f) then mret (failed_outcome e true) else retry
  | None => retry
  end.

(** Hands the lease back under the claim's epoch; a lost lease has nobody to
    hand it to. *)
Definition release (c : Claim) (o : ClaimOutcome) : turn unit :=
  let o := MkClaimOutcome (Cl_Epoch c) (CO_NextAttemptAt o) (CO_Err o) (CO_Failure o) (CO_Parked o) in
  r ← call (QueueRelease (Cl_RunID c) o);
  match r with
  | Ok _ => mret tt
  | Err ErrLeaseLost => mret tt
  | Err e => fail_with (RunLedger e)
  end.

(** A step a worker writes for the run it claimed. *)
Definition step_of_claim (c : Claim) (kind : StepKind) (payload : string) (now : Time) : Step :=
  MkStep (Cl_RunID c) 0 kind (Cl_Scope c) (Cl_AgentID c) (Cl_VersionID c) (Cl_OnBehalfOf c)
    payload [] zeroCost "" "" now "" "".

Definition Worker_park (c : Claim) (reason : RunError) (code : string) : turn unit :=
  head ← ask RunLedger (LHead (Cl_RunID c));
  if StepKind_Terminal (S_Kind head) then release c (failed_outcome reason false)
  else if String.eqb (S_Kind head) StepAbandoned then release c emptyOutcome
  else
    let parked := MkParkedPayload code (add64 (Cl_Attempts c) 1) (FailureSummaryOf reason) None in
    now ← call OnNow;
    r ← call (LAppendIfLeaseAndHead (Cl_Epoch c) (MkStepRef (S_Seq head) (S_Kind head))
               (step_of_claim c StepParked (marshal c_ParkedPayload parked) now));
    match r with
    | Err ErrLeaseLost => mret tt
    | Err ErrHeadMoved => release c emptyOutcome
    | _ => release c (failed_outcome reason true)
    end.

(** ** Fallback (fallback.go) *)

Definition switchCodes : list string := [CodeProviderOverloaded; CodeRateLimited; CodeProviderUnavailable].

Definition switchable (fb : option Fallback) (e : RunError) : option (Fallback * FailureSummary) :=
  match fb, FailureSummaryOf e with
  | Some fb, Some f =>
      if FS_Retryable f && existsb (String.eqb (FS_Code f)) switchCodes then Some (fb, f) else None
  | _, _ => None
  end.

Definition fold_run (run : RunID) : turn State :=
  steps ← ask RunLedger (LRead run FirstSeq);
  match Fold steps with Ok s => mret s | Err e => fail_with (RunFold e) end.

Definition switchTo (c : Claim) (state : State) (start : Start) (fb : Fallback) (f : FailureSummary)
    (advErr : RunError) : turn unit :=
  let stepModel := fst (SpendAt start (St_Called state)) in
  let from := if String.eqb stepModel "" then Fb_From fb
              else MkModelPair (MPr_Provider (Fb_From fb)) stepModel in
  let payload := marshal c_ModelFallbackPayload
                   (MkModelFallbackPayload from (Fb_To fb) f (add64 (Cl_Attempts c) 1)) in
  now ← call OnNow;
  r ← call (LAppendIfLeaseAndHead (Cl_Epoch c) (St_Head state) (step_of_claim c StepModelFallback payload now));
  match r with
  | Err ErrLeaseLost => mret tt
  | Err ErrHeadMoved => release c emptyOutcome
  | Err _ => Worker_park c advErr (parkedReasonFor advErr)
  | Ok _ => release c emptyOutcome
  end.

(** [None] when the fallback does not take the run. *)
Definition exhausted (c : Claim) (start : Start) (fb : option Fallback) (advErr : RunError)
    : turn (option (result RunError unit)) :=
  match switchable fb advErr with
  | None => mret None
  | Some (fb, f) =>
      r ← attempt (fold_run (Cl_RunID c));
      match r with
      | Err _ => mret None
      | Ok state =>
          if bool_decide (is_Some (St_Fallback state)) || negb (Z.eqb (St_Phase state) PhaseRunning)
          then mret None
          else if String.eqb (Sa_Stage start) StageAutonomous
          then r ← attempt (Worker_park c advErr ParkFallbackUnrehearsed); mret (Some r)
          else r ← attempt (switchTo c state start fb f advErr); mret (Some r)
      end
  end.

Definition failed (c : Claim) (start : Start) (fb : option Fallback) (advErr : RunError) : turn unit :=
  outcome ← failure c advErr;
  took ← if CO_Parked outcome then exhausted c start fb advErr else mret None;
  match took with
  | Some (Ok _) => mret tt
  | Some (Err e) => fail_with e
  | None =>
      if CO_Parked outcome then Worker_park c advErr (parkedReasonFor advErr) else release c outcome
  end.

(** ** Undoing (abandon.go) *)

Definition abandonedFailure (standing unknown : nat) : FailedPayload :=
  let message := "abandoned by a person; " +:+ print_Z (Z.of_nat standing) +:+
                 " act(s) could not be undone" in
  let message := if (0 <? unknown)%nat
                 then message +:+ "; " +:+ print_Z (Z.of_nat unknown) +:+
                      " compensation outcome(s) unknown — manual reconciliation required"
                 else message in
  MkFailedPayload "abandoned" message false.

Definition end_abandoned (c : Claim) (standing unknown : nat) : turn unit :=
  let payload := marshal c_FailedPayload (abandonedFailure standing unknown) in
  now ← call OnNow;
  r ← call (LAppendIfLeaseAndHead (Cl_Epoch c) (MkStepRef 0 "") (step_of_claim c StepFailed payload now));
  match r with
  | Ok _ => release c emptyOutcome
  | Err ErrLeaseLost => mret tt
  | Err e => fail_with (RunLedger e)
  end.

Definition compensators : ToolID -> ToolID :=
  match W_Undos w with Some f => f | None => fun _ => "" end.

Definition undo_standing (o : UndoOutcome) : bool := negb (UO_Done o).
Definition undo_unknown (o : UndoOutcome) : bool :=
  negb (UO_Done o) && Act_Attempted (UO_Act o) && negb (Act_Failed (UO_Act o)).

Definition undo (c : Claim) (start : Start) : turn unit :=
  r ← call (LRead (Cl_RunID c) 0);
  match r with
  | Err e => Worker_park c (RunLedger e) "trail_unreadable"
  | Ok steps =>
      done ← prog_bind (Perform (W_Deps w) start (Plan compensators steps)) (fun x => Ret (Ok x));
      match done with
      | (_, Some e) => if lease_lost e then mret tt else Worker_park c e "compensation_interrupted"
      | (outcomes, None) =>
          end_abandoned c (List.length (List.filter undo_standing outcomes))
            (List.length (List.filter undo_unknown outcomes))
      end
  end.

(** ** One turn (turn.go) *)

Definition stageOf (agent : AgentID) : turn Stage :=
  if W_Stages w then ask RunPort (OnStageOf agent) else mret StageDraft.

Definition scopedBudget (scope : Scope) (agent : Budget) : turn Budget :=
  if negb (W_Ceilings w) then mret agent
  else
    '(ceiling, period) ← ask RunPort (OnCeiling scope);
    if String.eqb period "" then mret agent
    else
      now ← call OnNow;
      spent ← ask RunPort (OnSpentSince scope (Period_Since period now));
      mret (Budget_Narrow agent (Headroom ceiling spent)).

(** The claim's run under the version's configuration. *)
Definition claimed_start (c : Claim) (resolved : Start) (budget : Budget) (stage : Stage) : Start :=
  MkStart (Cl_RunID c) (Cl_Scope c) (Cl_AgentID c) (Cl_VersionID c) (Cl_OnBehalfOf c)
    (Sa_Pack resolved) (Sa_Steps resolved) budget (Sa_Budget resolved) stage (Sa_Trigger resolved)
    (Cl_Epoch c) (Sa_MemoryLearning resolved) (Sa_StandingApprovals resolved)
    (Sa_PublishesEvents resolved).

(** The pool's collaborators with this version's planners. *)
Definition turn_deps (fb : option Fallback) : Deps :=
  let d := W_Deps w in
  MkDeps (D_Gate d) (match fb with Some _ => true | None => D_Fallback d end) (D_Dedupe d)
    (D_DedupePendingTTL d) (D_DedupeTicks d) (D_Content d) true (D_Standing d) (D_Schemas d)
    (D_Servers d) (D_Connections d) (D_Binder d) (D_Evidencer d).

(** What the turn found of the claimed run before anything acts on it. *)
Definition prepare (c : Claim) : turn (result (RunError * string) (Start * option Fallback)) :=
  r ← attempt (resolved ← ask RunPort (OnResolve (Cl_AgentID c) (Cl_VersionID c));
               if Rs_Planner resolved then mret resolved
               else fail_with (RunNoPlanner (Cl_AgentID c) (Cl_VersionID c)));
  match r with
  | Err e => mret (Err (e, "spec_unresolved"))
  | Ok resolved =>
      r ← attempt (scopedBudget (Cl_Scope c) (Sa_Budget (Rs_Start resolved)));
      match r with
      | Err e => mret (Err (e, "budget_unreadable"))
      | Ok budget =>
          r ← attempt (stageOf (Cl_AgentID c));
          match r with
          | Err e => mret (Err (e, "stage_unreadable"))
          | Ok stage => mret (Ok (claimed_start c (Rs_Start resolved) budget stage, Rs_Fallback resolved))
          end
      end
  end.

(** What becomes of an advance. *)
Definition settle (c : Claim) (start : Start) (fb : option Fallback) (r : result RunError Status)
    : turn unit :=
  cause ← call OnLeaseCause;
  if cause : bool then mret tt
  else match r with
       | Ok _ => release c emptyOutcome
       | Err e =>
           if head_moved e then release c emptyOutcome
           else if lease_lost e then mret tt
           else failed c start fb e
       end.

Definition work (c : Claim) : turn unit :=
  r ← prepare c;
  match r with
  | Err (e, code) => Worker_park c e code
  | Ok (start, fb) =>
      if String.eqb (Cl_Phase c) (Phase_String PhaseCompensating) then undo c start
      else
        r ← attempt (Advance (turn_deps fb) start);
        settle c start fb r
  end.

(** Whether any work was found, and the error the turn ended in. *)
Definition Worker_turn : prog (bool * option RunError) :=
  Do (QueueClaim (Cfg_Owner (W_Config w)) (Cfg_Lease (W_Config w))) (fun r =>
    match r with
    | Err ErrNoClaimableRun => Ret (false, None)
    | Err e => Ret (false, Some (RunLedger e))
    | Ok c => prog_bind (work c) (fun r => Ret (true, match r with Ok _ => None | Err e => Some e end))
    end).
End Supervision.

(** ** Keeping the lease (turn.go, [keepLease]) *)

Definition renew_interval (cfg : Config) : Duration := Z.quot (Cfg_Lease cfg) 3.
Definition guard_margin (cfg : Config) : Duration :=
  (2 * renew_interval cfg + Z.quot (renew_interval cfg) 2)%Z.

(** What a renewal proved: the lease is held, it is a successor's, or nothing
    (an error, the call's own deadline, or no slot to ask from). *)
Inductive proof := Renewed | RenewLost | RenewFailed.

Definition judged (failures : nat) (p : proof) : option nat :=
  match p with
  | Renewed => Some O
  | RenewLost => None
  | RenewFailed => if (2 <=? S failures)%nat then None else Some (S failures)
  end.

(** One tick of the asker: how long its call took, what it proved, and which of
    the judge's two channels is taken when the answer and the guard are ready
    together. *)
Record tick := MkTick { tk_took : Duration; tk_proof : proof; tk_guard_first : bool }.

(** The judge: its count of failures in a row, and when its guard fires; times
    are measured from the turn's start. *)
Record judge_state := MkJudge { jd_failures : nat; jd_guard : Duration }.

Section Keeper.
Context (cfg : Config).

(** The [n]th tick's answer arrives; [None] is the turn cancelled as a lost
    lease. The asker's calls are cut off after one interval, so they are made
    at the ticks themselves. *)
Definition judge (n : nat) (j : judge_state) (t : tick) : option judge_state :=
  let at_ := (Z.of_nat n * renew_interval cfg + tk_took t)%Z in
  if (jd_guard j <? at_)%Z || (Z.eqb (jd_guard j) at_ && tk_guard_first t) then None
  else
    failures ← judged (jd_failures j) (tk_proof t);
    Some (MkJudge failures
            (match tk_proof t with Renewed => (at_ + guard_margin cfg)%Z | _ => jd_guard j end)).

(** The ticks of a turn in order, the first one interval after its start. *)
Fixpoint keepLease (n : nat) (j : judge_state) (ticks : list tick) : option judge_state :=
  match ticks with
  | [] => Some j
  | t :: rest => j' ← judge n j t; keepLease (S n) j' rest
  end.

Definition keeper : judge_state := MkJudge 0 (guard_margin cfg).
End Keeper.
