(* ===== verification/Pool.v ===== *)
(** * What a worker may do

    The discipline of one worker's turn (src/internal/worker, turn.go): it
    claims a run and touches that run only, under the claim's epoch. A run that
    moves is advanced by the engine under the engine's own discipline
    ([Turn.discipline]); an abandoned run is only undone
    (src/internal/compensate): each undo leaves after the gate let it through
    and its attempt was recorded, and only for an act the run's own trail left
    standing. *)

From Stdlib Require Import ZArith Lia Ascii String.
From stdpp Require Import base list strings gmap.
From S2P Require Import Prelude GoStrings Json Domain Policy Sha256 Dedupe Step Payload Encode WorkItem State StateFacts Ledger LedgerSafety Gate Ports Envelope Runner Drive Turn Calendar Compensate Worker.

Local Open Scope string_scope.

(** ** The claim a turn works under *)

Definition claimed_by {R} (op : port R) : R -> option Claim :=
  match op in port R return R -> option Claim with
  | QueueClaim _ _ => fun r => match r with Ok c => Some c | Err _ => None end
  | _ => fun _ => None
  end.

Fixpoint claim_of (tr : list event) : option Claim :=
  match tr with
  | [] => None
  | Ev op r :: tr => match claim_of tr with Some c => Some c | None => claimed_by op r end
  end.

Lemma claim_of_grows {R} (op : port R) r tr c : claim_of tr = Some c -> claim_of (Ev op r :: tr) = Some c.
Proof. cbn. by intros ->. Qed.

Section Pool.
Context (w : Worker).

(** ** The rules *)

(** What supervision does: it reads, parks, ends and releases the claimed run,
    and makes no call that leaves. *)
Definition supervises (c : Claim) (R : Type) (op : port R) : Prop :=
  match op with
  | LRead run fromSeq => run = Cl_RunID c /\ (fromSeq <= FirstSeq)%Z
  | LHead run => run = Cl_RunID c
  | LAppendIfLeaseAndHead epoch _ s =>
      S_RunID s = Cl_RunID c /\ epoch = Cl_Epoch c /\ S_IdemKey s = ""
  | QueueRelease run o => run = Cl_RunID c /\ CO_Epoch o = Cl_Epoch c
  | LAppend _ | LAppendIfHead _ _ | LFence _ _ _ | OnPlan _ _ | OnInvoke _ | QueueClaim _ _ => False
  | _ => True
  end.

(** An undo on record: an act the trail left standing, never attempted before,
    let through by the gate, its attempt sealed under its key. *)
Record undone (start : Start) (c : Call) (steps : list Step) (started : Step) : Prop := {
  undone_act : exists act seq effect args,
    act ∈ Plan (compensators w) steps /\ left_standing act = None /\
    Proceeds (D_Gate (W_Deps w)) (undo_request start seq act effect) /\
    c = undo_call start act args (S_Seq started);
  undone_kind : S_Kind started = StepCompensationStarted;
  undone_key : S_IdemKey started = Ca_IdemKey c
}.

Definition may_undo (start : Start) (tr : list event) (c : Call) : Prop :=
  pending tr = Some (Ca_IdemKey c) /\
  (Sa_LeaseEpoch start <> 0%Z ->
     exists head tr', tr = Ev (LFence (Sa_RunID start) (Sa_LeaseEpoch start) head) (Ok tt) :: tr') /\
  exists steps started, steps ∈ reads_in tr /\ started ∈ sealed_in tr /\ undone start c steps started.

Definition undoes (start : Start) (tr : list event) (R : Type) (op : port R) : Prop :=
  match op with
  | LHead run => run = Sa_RunID start
  | LAppend s | LAppendIfHead _ s => S_RunID s = Sa_RunID start /\ Sa_LeaseEpoch start = 0%Z
  | LAppendIfLeaseAndHead epoch _ s => S_RunID s = Sa_RunID start /\ epoch = Sa_LeaseEpoch start
  | LFence run epoch _ => run = Sa_RunID start /\ epoch = Sa_LeaseEpoch start
  | OnInvoke c => may_undo start tr c
  | LRead _ _ | OnPlan _ _ | QueueClaim _ _ | QueueRelease _ _ => False
  | _ => True
  end.

Definition compensating (c : Claim) : Prop := Cl_Phase c = Phase_String PhaseCompensating.

Definition pool_rule (tr : list event) (R : Type) (op : port R) : Prop :=
  match claim_of tr with
  | None => match op with QueueClaim _ _ => True | _ => False end
  | Some c =>
      supervises c R op \/
      exists resolved budget stage fb,
        let start := claimed_start c resolved budget stage in
        (~ compensating c /\ discipline (turn_deps w fb) start tr R op) \/
        (compensating c /\ undoes start tr R op)
  end.

Abbreviation working := (obeys pool_rule).

(** ** Supervision *)

Lemma only_release c o : only (supervises c) (release c o).
Proof. unfold release. apply only_bind; [by apply only_call|]. intros [|[]]; done. Qed.

Lemma only_park c e code : only (supervises c) (Worker_park w c e code).
Proof.
  unfold Worker_park. apply only_bind; [by apply only_ask|]. intros head.
  case_match; [apply only_release|]. case_match; [apply only_release|].
  apply only_bind; [by apply only_call|]. intros now. apply only_bind; [by apply only_call|].
  intros [|[]]; try done; apply only_release.
Qed.

Lemma only_switchTo c state start fb f e : only (supervises c) (switchTo w c state start fb f e).
Proof.
  unfold switchTo. cbv zeta. apply only_bind; [by apply only_call|]. intros now.
  apply only_bind; [by apply only_call|]. intros [|[]]; try done; auto using only_release, only_park.
Qed.

Lemma only_exhausted c start fb e : only (supervises c) (exhausted w c start fb e).
Proof.
  unfold exhausted. destruct (switchable fb e) as [[fb' f]|]; [|done].
  apply only_bind. { apply only_attempt. unfold fold_run. apply only_bind; [by apply only_ask|]. intros. by case_match. }
  intros [state|]; [|done]. case_match; [done|].
  case_match; (apply only_bind; [apply only_attempt|done]); auto using only_park, only_switchTo.
Qed.

Lemma only_failed c start fb e : only (supervises c) (failed w c start fb e).
Proof.
  unfold failed. apply only_bind; [unfold failure; by only_tac|]. intros o.
  apply only_bind; [case_match; [apply only_exhausted|done]|].
  intros [[|]|]; try done. case_match; auto using only_park, only_release.
Qed.

Lemma only_settle c start fb r : only (supervises c) (settle w c start fb r).
Proof.
  unfold settle. apply only_bind; [by apply only_call|]. intros [|]; [done|].
  destruct r as [|e]; [apply only_release|]. repeat case_match; auto using only_release, only_failed.
  done.
Qed.

Lemma only_end c standing unknown : only (supervises c) (end_abandoned c standing unknown).
Proof.
  unfold end_abandoned. apply only_bind; [by apply only_call|]. intros now.
  apply only_bind; [by apply only_call|]. intros [|[]]; try done. apply only_release.
Qed.

Lemma supervision_works {A} c (p : prog A) tr (post : list event -> A -> Prop) :
  claim_of tr = Some c -> only (supervises c) p -> (forall tr' a, post tr' a) -> working p tr post.
Proof.
  intros Hc Hp Hpost. eapply obeys_mono; [|by intros tr' a _].
  eapply (only_obeys (supervises c) pool_rule (fun tr => claim_of tr = Some c)); [| |done|done].
  - intros. by apply claim_of_grows.
  - intros past R op Hpast Hop. unfold pool_rule. rewrite Hpast. by left.
Qed.

(** ** Undoing *)

Section Undoing.
Context (c : Claim) (resolved : Start) (budget : Budget) (stage : Stage) (steps : list Step).
Context (Hphase : compensating c).
Local Abbreviation start := (claimed_start c resolved budget stage).

(** While it undoes, a worker holds its claim and has read the trail. *)
Definition undoing (tr : list event) : Prop := claim_of tr = Some c /\ steps ∈ reads_in tr.

Lemma undoing_grows past R (op : port R) r : undoing past -> undoing (Ev op r :: past).
Proof.
  intros [H1 H2]. split; [by apply claim_of_grows|]. cbn. case_match; [by apply list_elem_of_further|done].
Qed.

Lemma undoes_allowed tr R (op : port R) : undoing tr -> undoes start tr R op -> pool_rule tr R op.
Proof. intros [Hc _] Hop. unfold pool_rule. rewrite Hc. right. exists resolved, budget, stage, None. by right. Qed.

(** A call the undo's rule allows, and on. *)
Lemma undo_call_works {R A} (op : port R) (k : R -> prog A) tr post :
  undoing tr -> undoes start tr R op ->
  (forall r, honest op r -> undoing (Ev op r :: tr) -> working (k r) (Ev op r :: tr) post) ->
  working (Do op k) tr post.
Proof.
  intros Hu Hop Hk. split; [by apply undoes_allowed|]. intros r Hh. apply Hk; [done|].
  by apply undoing_grows.
Qed.

Lemma recordResult_works act succeeded before why tr :
  undoing tr -> working (recordResult start act succeeded before why) tr (fun tr' _ => undoing tr').
Proof.
  intros Hu. unfold recordResult. apply obeys_bind. apply undo_call_works; [done|done|].
  intros now _ Hu1. cbn [obeys]. apply obeys_bind. destruct (Z.eqb_spec (Sa_LeaseEpoch start) 0) as [E|E].
  - apply undo_call_works; [done|by split|]. by intros [|].
  - apply undo_call_works; [done|by split|]. by intros [|].
Qed.

(** The attempt is sealed and pending, or it was refused. *)
Definition started_ok (act : Act) (tr : list event) (r : result RunError Step) : Prop :=
  undoing tr /\
  match r with
  | Err _ => True
  | Ok started =>
      started ∈ sealed_in tr /\ S_Kind started = StepCompensationStarted /\
      S_IdemKey started = compensation_key (Cl_RunID c) (Act_Seq act) /\
      pending tr = Some (compensation_key (Cl_RunID c) (Act_Seq act))
  end.

Lemma started_lands {R} act (op : port R) r tr s sealed :
  undoing (Ev op r :: tr) -> drafted op = Some s -> sealed_by op r = Some sealed -> honest op r ->
  S_Kind s = StepCompensationStarted -> S_IdemKey s = compensation_key (Cl_RunID c) (Act_Seq act) ->
  started_ok act (Ev op r :: tr) (Ok sealed).
Proof.
  intros Hu Hd Hs Hh Hk Hi. split; [done|]. destruct (Hh _ _ Hd Hs) as (prev & Hn).
  destruct (sealed_keeps _ _ _ Hn) as (_ & Ei & Ek & _). rewrite Hk in Ek. rewrite Hi in Ei.
  repeat split; try done.
  - cbn. rewrite Hs. apply list_elem_of_here.
  - cbn [pending]. by rewrite Hs, Ek, Ei.
Qed.

Lemma recordStarted_works act head tr :
  undoing tr ->
  working (recordStarted start act head (compensation_key (Cl_RunID c) (Act_Seq act))) tr (started_ok act).
Proof.
  intros Hu. unfold recordStarted. apply obeys_bind. apply undo_call_works; [done|done|].
  intros now _ Hu1. cbn [obeys]. destruct (Z.eqb_spec (Sa_LeaseEpoch start) 0) as [E|E].
  - apply undo_call_works; [done|by split|]. intros [sealed|e] Hh Hu2; [|by split].
    by eapply started_lands.
  - apply undo_call_works; [done|by split|]. intros [sealed|e] Hh Hu2; [|by split].
    by eapply started_lands.
Qed.

Lemma invoke_undo_works act effect seq args started tr :
  act ∈ Plan (compensators w) steps -> left_standing act = None ->
  Proceeds (D_Gate (W_Deps w)) (undo_request start seq act effect) ->
  started_ok act tr (Ok started) ->
  working (_ ← undo_fence start started;
           answer ← call (OnInvoke (undo_call start act args (S_Seq started)));
           let '(result, ok) := answer in
           if negb ok then record_undo start act false WhyInvokeError
           else if Tr_Failed result
           then record_undo start act false (WhyToolFailed (codeOr (Tr_ErrorCode result)))
           else record_undo start act true WhyDone) tr (fun tr' _ => undoing tr').
Proof.
  intros Hact Hst Hp [Hu (Hin & Hk & Hi & Hpend)].
  assert (forall tr', undoing tr' -> started ∈ sealed_in tr' ->
    pending tr' = Some (compensation_key (Cl_RunID c) (Act_Seq act)) ->
    (Sa_LeaseEpoch start <> 0%Z -> exists head tr0,
       tr' = Ev (LFence (Sa_RunID start) (Sa_LeaseEpoch start) head) (Ok tt) :: tr0) ->
    working (answer ← call (OnInvoke (undo_call start act args (S_Seq started)));
           let '(result, ok) := answer in
           if negb ok then record_undo start act false WhyInvokeError
           else if Tr_Failed result
           then record_undo start act false (WhyToolFailed (codeOr (Tr_ErrorCode result)))
           else record_undo start act true WhyDone) tr' (fun tr' _ => undoing tr')) as Hinv.
  { intros tr' Hu' Hin' Hp' Hf'. apply obeys_bind. apply undo_call_works; [done| |].
    { split; [done|]. split; [done|]. exists steps, started. split; [apply Hu'|]. split; [done|].
      split; [|done|done]. by exists act, seq, effect, args. }
    intros [result ok] _ Hu2. cbn [obeys].
    destruct ok; cbn [negb]; [destruct (Tr_Failed result)|]; by apply recordResult_works. }
  apply obeys_bind. unfold undo_fence. destruct (Z.eqb_spec (Sa_LeaseEpoch start) 0) as [E|E]; cbn [negb].
  - by apply Hinv.
  - apply undo_call_works; [done|by split|]. intros [[]|e] _ Hu1; [|done]. apply Hinv; [done|done|done|].
    eauto.
Qed.

Lemma performOne_works act tr :
  act ∈ Plan (compensators w) steps -> left_standing act = None -> undoing tr ->
  working (performOne (W_Deps w) start act) tr (fun tr' _ => undoing tr').
Proof.
  intros Hact Hst Hu. unfold performOne. apply obeys_bind. apply undo_call_works; [done|done|].
  intros effect _ Hu1. cbn [obeys]. apply obeys_bind. apply undo_call_works; [done|done|].
  intros [head|e] _ Hu2; [|done]. cbn [obeys]. cbv zeta.
  set (decision := Evaluate _ _). destruct (Verdict_Executable (D_Verdict decision)) eqn:Ev; cbn [negb];
    [|by apply recordResult_works].
  apply obeys_bind. eapply obeys_mono with (post := fun tr' _ => undoing tr').
  { unfold undoArgs. case_match; [done|]. apply obeys_bind. apply undo_call_works; [done|done|]. by intros [|]. }
  intros tr3 [[args|]|e] Hu3; [|by apply recordResult_works|done].
  apply obeys_bind. apply undo_call_works; [done|done|]. intros [[]|e] _ Hu4; cbn [obeys];
    [|by apply recordResult_works].
  apply obeys_bind. eapply obeys_mono; [by apply recordStarted_works|]. intros tr5 [started|e] H5; [|apply H5].
  by eapply invoke_undo_works.
Qed.

Lemma Perform_works plan : forall out tr,
  (forall act, act ∈ plan -> act ∈ Plan (compensators w) steps) -> undoing tr ->
  working (perform_from (W_Deps w) start out plan) tr (fun tr' _ => undoing tr').
Proof.
  induction plan as [|act rest IH]; intros out tr Hin Hu; [done|]. cbn -[performOne].
  assert (forall act, act ∈ rest -> act ∈ Plan (compensators w) steps) as Hrest
    by (intros; by apply Hin, list_elem_of_further).
  destruct (left_standing act) eqn:Est; [by apply IH|].
  apply obeys_prog_bind. eapply obeys_mono; [apply performOne_works; [apply Hin, list_elem_of_here|done|done]|].
  intros tr' [outcome|e] Hu'; [by apply IH|done].
Qed.
End Undoing.

Lemma undo_works c resolved budget stage tr :
  compensating c -> claim_of tr = Some c ->
  working (undo w c (claimed_start c resolved budget stage)) tr (fun _ _ => True).
Proof.
  intros Hphase Hc. unfold undo. apply obeys_bind. split.
  { unfold pool_rule. rewrite Hc. left. split; [done|]. cbn. unfold FirstSeq. lia. }
  intros [steps|e] _; cbn [obeys].
  2: { eapply supervision_works; [by apply claim_of_grows|apply only_park|done]. }
  apply obeys_bind, obeys_prog_bind. eapply obeys_mono.
  { apply (Perform_works c resolved budget stage steps Hphase); [done|]. split; [by apply claim_of_grows|].
    apply list_elem_of_here. }
  intros tr' [outcomes [e|]] [Hc' _]; cbn [obeys].
  - case_match; [done|]. eapply supervision_works; [done|apply only_park|done].
  - eapply supervision_works; [done|apply only_end|done].
Qed.

(** ** The turn *)

Definition fresh (c : Claim) (tr : list event) : Prop := claim_of tr = Some c /\ held tr = None.

Lemma only_prepare c : only (fun R op => quiet_op op = true) (prepare w c).
Proof. unfold prepare, scopedBudget, stageOf. by only_tac. Qed.

Definition prepared (c : Claim) (r : result (RunError * string) (Start * option Fallback)) : Prop :=
  match r with
  | Ok (start, _) => exists resolved budget stage, start = claimed_start c resolved budget stage
  | Err _ => True
  end.

Lemma prepare_prepared c tr :
  obeys (fun _ _ _ => True) (prepare w c) tr
    (fun _ r => match r with Ok r => prepared c r | Err _ => True end).
Proof.
  unfold prepare. apply obeys_bind, obeys_attempt. eapply obeys_mono with (post := fun _ _ => True).
  { eapply (only_obeys (fun _ _ => True) _ (fun _ => True)); try done. by only_tac. }
  intros tr1 [resolved|e] _; [|done]. apply obeys_bind, obeys_attempt.
  eapply obeys_mono with (post := fun _ _ => True).
  { eapply (only_obeys (fun _ _ => True) _ (fun _ => True)); try done. unfold scopedBudget. by only_tac. }
  intros tr2 [budget|e] _; [|done]. apply obeys_bind, obeys_attempt.
  eapply obeys_mono with (post := fun _ _ => True).
  { eapply (only_obeys (fun _ _ => True) _ (fun _ => True)); try done. unfold stageOf. by only_tac. }
  intros tr3 [stage|e] _; [|done]. cbn. eauto.
Qed.

Lemma prepare_works c tr :
  fresh c tr ->
  working (prepare w c) tr
    (fun tr' r => fresh c tr' /\ match r with Ok r => prepared c r | Err _ => True end).
Proof.
  intros Hf. eapply obeys_and; [|apply prepare_prepared].
  eapply (only_obeys _ pool_rule (fresh c)); [| |done|apply only_prepare]; cbv beta.
  - intros past R op r [Hc Hh] Hq. split; [by apply claim_of_grows|].
    destruct (quiet_event op r past Hq) as [E _]. congruence.
  - intros past R op [Hc _] Hq. unfold pool_rule. rewrite Hc. left. by destruct op.
Qed.

Lemma Advance_works c resolved budget stage fb tr :
  ~ compensating c -> fresh c tr ->
  working (Advance (turn_deps w fb) (claimed_start c resolved budget stage)) tr
    (fun tr' _ => claim_of tr' = Some c).
Proof.
  intros Hphase [Hc Hh].
  eapply (obeys_mono _ _ _ (fun tr' _ => claim_of tr' = Some c /\ True)); [|by intros tr' a []].
  eapply (obeys_weaken _ pool_rule (fun tr => claim_of tr = Some c)); [| |done|by apply Advance_ends].
  - intros. by apply claim_of_grows.
  - intros past R op Hpast Hop. unfold pool_rule. rewrite Hpast. right.
    exists resolved, budget, stage, fb. by left.
Qed.

Lemma work_works c tr : fresh c tr -> working (work w c) tr (fun _ _ => True).
Proof.
  intros Hf. unfold work. apply obeys_bind. eapply obeys_mono; [by apply prepare_works|].
  intros tr1 [[[start fb]|[e code]]|e] [Hf1 Hp]; [| |done].
  - destruct Hp as (resolved & budget & stage & ->).
    destruct (String.eqb_spec (Cl_Phase c) (Phase_String PhaseCompensating)) as [E|E].
    + by apply undo_works; [|apply Hf1].
    + apply obeys_bind, obeys_attempt. eapply obeys_mono; [by apply Advance_works|].
      intros tr2 r Hc2. eapply supervision_works; [exact Hc2|apply only_settle|done].
  - eapply supervision_works; [apply Hf1|apply only_park|done].
Qed.

Lemma Worker_turn_works : working (Worker_turn w) [] (fun _ _ => True).
Proof.
  unfold Worker_turn. split; [done|]. intros [c|[]] _; try done.
  apply obeys_prog_bind. eapply obeys_mono; [by apply work_works|]. by intros tr' [|].
Qed.
End Pool.
