(* ===== verification/System.v ===== *)
(** * Workers, the ledger and the far side

    Any number of workers run against one in-memory ledger
    (src/internal/ledger), interleaved in any order: turns of the engine
    (src/internal/engine) on their own, and whole turns of a worker pool
    (src/internal/worker) that claim a run, advance it or undo what it left
    (src/internal/compensate), and release it. The ledger and its queue answer
    the calls made on them; every other collaborator answers anything. A worker
    that crashes is one that takes no further step, and the approval desk and
    any other writer act on the ledger at any moment. [sys_effects] lists the
    calls that left for the far side, the newest first. *)

From Stdlib Require Import ZArith Lia Ascii String.
From stdpp Require Import base list strings gmap.
From S2P Require Import Prelude GoStrings Json Domain Policy Sha256 Dedupe Step Payload Encode WorkItem State StateFacts Ledger LedgerSafety Gate Ports Envelope Runner Drive Turn Calendar Compensate Worker Pool.

Local Open Scope string_scope.

(** ** The system *)

(** What a worker is at: a turn of one run, or a turn of a pool. *)
Inductive job :=
| JobTurn (deps : Deps) (start : Start)
| JobPool (pool : Worker).

Definition job_answer (j : job) : Type :=
  match j with JobTurn _ _ => result RunError Status | JobPool _ => bool * option RunError end.

Definition job_prog (j : job) : prog (job_answer j) :=
  match j with JobTurn deps start => Advance deps start | JobPool pool => Worker_turn pool end.

Record worker := MkWorker {
  w_job : job;
  w_turn : prog (job_answer w_job);
  w_trace : list event
}.

Record sys := MkSys {
  sys_ledger : Memory;
  sys_workers : list worker;
  sys_effects : list (job * Call)
}.

Definition resumed {R} (w : worker) (op : port R) (k : R -> prog (job_answer (w_job w))) (r : R) : worker :=
  MkWorker (w_job w) (k r) (Ev op r :: w_trace w).

Definition left_by {R} (w : worker) (op : port R) : list (job * Call) :=
  match invoked_by op with Some c => [(w_job w, c)] | None => [] end.

Inductive sys_step : sys -> sys -> Prop :=
| sys_spawn m ws fx j :
    sys_step (MkSys m ws fx) (MkSys m (MkWorker j (job_prog j) [] :: ws) fx)
| sys_serve m ws1 w ws2 fx {R} (op : port R) k cancelled now m' r :
    w_turn w = Do op k -> serve m cancelled now op = Some (m', r) ->
    sys_step (MkSys m (ws1 ++ w :: ws2) fx) (MkSys m' (ws1 ++ resumed w op k r :: ws2) fx)
| sys_answer m ws1 w ws2 fx {R} (op : port R) k r :
    w_turn w = Do op k -> serve m false 0 op = None ->
    sys_step (MkSys m (ws1 ++ w :: ws2) fx)
             (MkSys m (ws1 ++ resumed w op k r :: ws2) (left_by w op ++ fx))
| sys_other m ws fx now o m' :
    mem_step m now o m' -> sys_step (MkSys m ws fx) (MkSys m' ws fx).

Inductive sys_reachable : sys -> Prop :=
| sys_new : sys_reachable (MkSys NewMemory [] [])
| sys_next s s' : sys_reachable s -> sys_step s s' -> sys_reachable s'.

(** ** The ledger as the workers see it *)

Lemma append_mem_step m now epoch expect s m' sealed :
  append m false now epoch expect s = Ok (m', sealed) -> mem_step m now (OpAppend epoch expect s) m'.
Proof. intros H. by econstructor. Qed.

Lemma serve_reaches {R} m cancelled now (op : port R) m' r :
  reachable m -> serve m cancelled now op = Some (m', r) -> reachable m'.
Proof.
  intros Hm H. apply serve_spec in H as [_ [[_ [-> |(o & Ho)]]|(? & ? & ? & ? & _ & _ & Ha)]];
    [done|by econstructor|].
  econstructor; [exact Hm|]. by eapply append_mem_step.
Qed.

Lemma mem_step_grows m now o m' run :
  mem_step m now o m' -> steps_of m run `prefix_of` steps_of m' run.
Proof.
  intros H. unfold steps_of. destruct (m_runs m !! run) as [steps|] eqn:E; [|apply prefix_nil].
  destruct (mem_step_prefix _ _ _ _ _ _ H E) as (more & ->). by exists more.
Qed.

Lemma serve_grows {R} m cancelled now (op : port R) m' r run :
  serve m cancelled now op = Some (m', r) -> steps_of m run `prefix_of` steps_of m' run.
Proof.
  intros H. apply serve_spec in H as [_ [[_ [-> |(o & Ho)]]|(? & ? & ? & ? & _ & _ & Ha)]];
    [done|by eapply mem_step_grows|].
  eapply mem_step_grows. by eapply append_mem_step.
Qed.

(** The sequence is an [int64] and sealing refuses one that wrapped, so no chain
    outgrows it. *)
Lemma chain_fits m run :
  reachable m -> (Z.of_nat (List.length (steps_of m run)) < 2 ^ 63)%Z.
Proof.
  intros H. revert run. induction H as [|m now o m' Hr IH Hs]; intros run.
  { unfold steps_of. cbn. by rewrite lookup_empty. }
  destruct (mem_step_runs _ _ _ _ Hs) as [[E _]|(epoch & expect & s & sealed & _ & Ha)].
  { unfold steps_of. rewrite E. apply IH. }
  apply append_Ok in Ha as (_ & _ & _ & _ & _ & Hn & ->). unfold steps_of at 1. rewrite store_runs.
  destruct (sealed_keeps _ _ _ Hn) as (Er & _). rewrite steps_of_insert. case_decide; [|apply IH].
  subst run. rewrite Er. destruct (chains_ok_of m (S_RunID s) (reachable_chains _ Hr)) as [Hv _].
  specialize (IH (S_RunID s)). pose proof (chain_last_seq _ Hv IH) as Hseq.
  apply NewStep_sealed in Hn as (-> & Hpos & _). rewrite length_app. cbn [List.length].
  destruct (last_or None (steps_of m (S_RunID s))) as [p|]; [|rewrite Hseq; cbn; lia].
  cbn in Hpos. rewrite Hseq in Hpos. unfold FirstSeq, add64, wrap64 in Hpos.
  destruct (Z.eq_dec (Z.of_nat (List.length (steps_of m (S_RunID s)))) (2 ^ 63 - 1)%Z) as [E|E]; [|lia].
  rewrite E in Hpos. by vm_compute in Hpos.
Qed.

(** The sequence of a step just stored counts the chain. *)
Lemma stored_seq m now epoch expect s m' sealed :
  reachable m -> append m false now epoch expect s = Ok (m', sealed) ->
  S_Seq sealed = (Z.of_nat (List.length (steps_of m (S_RunID s))) + 1)%Z /\
  steps_of m' (S_RunID s) = (steps_of m (S_RunID s) ++ [sealed])%list.
Proof.
  intros Hr Ha. assert (reachable m') as Hr' by (by econstructor; [|eapply append_mem_step]).
  apply append_Ok in Ha as (_ & _ & _ & _ & _ & Hn & ->).
  assert (steps_of (store_step m sealed) (S_RunID s) = (steps_of m (S_RunID s) ++ [sealed])%list) as E.
  { destruct (sealed_keeps _ _ _ Hn) as (Er & _). unfold steps_of at 1.
    rewrite store_runs, Er. by rewrite lookup_insert_eq. }
  split; [|done]. destruct (chains_ok_of _ (S_RunID s) (reachable_chains _ Hr')) as [Hv _].
  pose proof (chain_last_seq _ Hv (chain_fits _ _ Hr')) as Hseq.
  rewrite E, last_or_snoc, length_app in Hseq. cbn [List.length] in Hseq. lia.
Qed.

(** ** The rules of a job *)

Definition job_rule (j : job) (tr : list event) (R : Type) (op : port R) : Prop :=
  match j with
  | JobTurn deps start => discipline deps start tr R op
  | JobPool pool => pool_rule pool tr R op
  end.

(** The run a worker works on: its own, or the one it claimed. *)
Definition run_of (j : job) (tr : list event) : option RunID :=
  match j with JobTurn _ start => Some (Sa_RunID start) | JobPool _ => Cl_RunID <$> claim_of tr end.

Lemma run_of_grows j {R} (op : port R) r tr run : run_of j tr = Some run -> run_of j (Ev op r :: tr) = Some run.
Proof. destruct j; [done|]. cbn. by destruct (claim_of tr). Qed.

Lemma job_writes j tr R (op : port R) s :
  job_rule j tr R op -> drafted op = Some s -> run_of j tr = Some (S_RunID s).
Proof.
  intros Hr Hd. destruct j as [deps start|pool]; cbn in Hr.
  { destruct op; try done; injection Hd as ->; cbn; f_equal; symmetry; apply Hr. }
  unfold pool_rule in Hr. cbn. destruct (claim_of tr) as [c|]; [|by destruct op]. cbn. f_equal. symmetry.
  destruct Hr as [H|(resolved & budget & stage & fb & [[_ H]|[_ H]])];
    destruct op; try done; injection Hd as ->; apply H.
Qed.

Lemma job_reads j tr run fromSeq :
  job_rule j tr _ (LRead run fromSeq) -> run_of j tr = Some run /\ (fromSeq <= FirstSeq)%Z.
Proof.
  destruct j as [deps start|pool]; cbn; [by intros [-> ->]|].
  unfold pool_rule. destruct (claim_of tr) as [c|]; [|done].
  intros [[-> H]|(resolved & budget & stage & fb & [[_ [-> ->]]|[_ []]])]; done.
Qed.

Lemma job_obeys j : obeys (job_rule j) (job_prog j) [] (fun _ _ => True).
Proof. destruct j; [by apply Advance_ends|apply Worker_turn_works]. Qed.

(** ** What a worker holds is stored *)

Definition stored (m : Memory) (run : option RunID) (l : list Step) : Prop :=
  match run with Some run => l `prefix_of` steps_of m run | None => False end.

Definition on_record (m : Memory) (run : option RunID) (s : Step) : Prop :=
  match run with Some run => s ∈ steps_of m run | None => False end.

(** What the trace holds, has read and has sealed, the store has for the run. *)
Record backed (m : Memory) (j : job) (tr : list event) : Prop := {
  backed_held : forall l, held tr = Some l -> stored m (run_of j tr) l;
  backed_reads : forall l, l ∈ reads_in tr -> stored m (run_of j tr) l;
  backed_sealed : forall s, s ∈ sealed_in tr -> on_record m (run_of j tr) s
}.

Definition grows (m m' : Memory) : Prop := forall run, steps_of m run `prefix_of` steps_of m' run.

Lemma grows_refl m : grows m m.
Proof. by intros run. Qed.

Lemma stored_grows m m' run run' l :
  grows m m' -> (forall r, run = Some r -> run' = Some r) -> stored m run l -> stored m' run' l.
Proof. intros Hg Hr. destruct run as [run|]; [|done]. rewrite (Hr run eq_refl). cbn. intros. etrans; [done|apply Hg]. Qed.

Lemma on_record_grows m m' run run' s :
  grows m m' -> (forall r, run = Some r -> run' = Some r) -> on_record m run s -> on_record m' run' s.
Proof.
  intros Hg Hr. destruct run as [run|]; [|done]. rewrite (Hr run eq_refl). cbn. intros Hs.
  destruct (Hg run) as (more & ->). apply elem_of_app. by left.
Qed.

Lemma backed_grows m m' j tr : grows m m' -> backed m j tr -> backed m' j tr.
Proof.
  intros Hg [H1 H2 H3]. split; intros x Hx;
    [eapply stored_grows|eapply stored_grows|eapply on_record_grows]; eauto.
Qed.

Lemma held_app_inv {R} (op : port R) r tr sealed l' :
  sealed_by op r = Some sealed -> held (Ev op r :: tr) = Some l' ->
  exists l, held tr = Some l /\ l' = (l ++ [sealed])%list /\ is_ok (Fold l') = true.
Proof.
  intros Hs. cbn -[Fold]. rewrite Hs. destruct (held tr) as [l|]; [|done]. cbn -[Fold].
  destruct (is_ok (Fold (l ++ [sealed])%list)) eqn:E; [|done]. intros [= <-]. eauto.
Qed.

(** A step that folds on top of what was held was stored right after it. *)
Lemma held_append m now epoch expect s m' sealed l :
  reachable m -> append m false now epoch expect s = Ok (m', sealed) ->
  l `prefix_of` steps_of m (S_RunID s) -> is_ok (Fold (l ++ [sealed])%list) = true ->
  (l ++ [sealed])%list `prefix_of` steps_of m' (S_RunID s).
Proof.
  intros Hr Ha Hb Hf. destruct (stored_seq _ _ _ _ _ _ _ Hr Ha) as [Hseq E]. rewrite E.
  destruct (Fold (l ++ [sealed])%list) as [st'|] eqn:Ef; [|done].
  apply fold_snoc in Ef as (st & Hst & Happ). apply Apply_facts in Happ as [Hq _].
  pose proof (prefix_length _ _ Hb) as Hlen.
  assert (reachable m') as Hr' by (by econstructor; [|eapply append_mem_step]).
  pose proof (chain_fits m' (S_RunID s) Hr') as Hfit. rewrite E, length_app in Hfit. cbn in Hfit.
  rewrite (fold_seq _ _ Hst) in Hq by lia. rewrite Hseq in Hq. unfold add64 in Hq.
  rewrite wrap64_id in Hq by (apply in_int64_spec; lia).
  assert (l = steps_of m (S_RunID s)) as -> by (apply prefix_length_eq; [done|lia]). done.
Qed.

Lemma read_not_sealed {R} (op : port R) r sealed : sealed_by op r = Some sealed -> read_by op r = None.
Proof. by destruct op. Qed.

Lemma backed_append {R} (op : port R) r m now epoch expect s m' sealed j tr :
  reachable m -> run_of j tr = Some (S_RunID s) -> sealed_by op r = Some sealed ->
  append m false now epoch expect s = Ok (m', sealed) ->
  backed m j tr -> backed m' j (Ev op r :: tr).
Proof.
  intros Hr Hrun Hs Ha Hb.
  assert (grows m m') as Hg by (intros run; eapply mem_step_grows; by eapply append_mem_step).
  pose proof (run_of_grows j op r tr _ Hrun) as Hrun'.
  pose proof (backed_held _ _ _ Hb) as H1. apply (backed_grows _ _ _ _ Hg) in Hb as [_ H2 H3].
  destruct (stored_seq _ _ _ _ _ _ _ Hr Ha) as [_ E].
  split; rewrite Hrun'; rewrite Hrun in *; cbn [stored on_record] in *.
  - intros l' Hl'. destruct (held_app_inv _ _ _ _ _ Hs Hl') as (l & Hl & -> & Hf).
    eapply held_append; eauto.
  - intros l. cbn. rewrite (read_not_sealed _ _ _ Hs). apply H2.
  - intros x. cbn. rewrite Hs. intros [->|Hx]%elem_of_cons; [|by apply H3].
    rewrite E. apply elem_of_app. right. apply list_elem_of_here.
Qed.

Lemma backed_other {R} (op : port R) r m j tr :
  sealed_by op r = None -> (forall l, read_by op r = Some l -> stored m (run_of j tr) l) ->
  backed m j tr -> backed m j (Ev op r :: tr).
Proof.
  intros Hs Hread [H1 H2 H3].
  assert (forall run, run_of j tr = Some run -> run_of j (Ev op r :: tr) = Some run) as Hrun
    by (intros; by apply run_of_grows).
  split.
  - intros l. cbn. rewrite Hs. intros Hl. eapply stored_grows; [apply grows_refl|exact Hrun|].
    destruct (held tr) as [l0|] eqn:E; [injection Hl as <-; by apply H1|by apply Hread].
  - intros l. cbn. destruct (read_by op r) as [l0|]; intros Hl; (eapply stored_grows; [apply grows_refl|exact Hrun|]).
    + apply elem_of_cons in Hl as [->|Hl]; [by apply Hread|by apply H2].
    + by apply H2.
  - intros x. cbn. rewrite Hs. intros Hx. eapply on_record_grows; [apply grows_refl|exact Hrun|]. by apply H3.
Qed.

Lemma Read_backed m cancelled run fromSeq l :
  (fromSeq <= FirstSeq)%Z -> read_by (LRead run fromSeq) (Read m cancelled run fromSeq) = Some l ->
  l `prefix_of` steps_of m run.
Proof.
  intros Hf. unfold Read, steps_of. destruct cancelled; cbn; [done|]. apply Z.leb_le in Hf. rewrite Hf.
  destruct (m_runs m !! run) as [steps|]; cbn; intros [= <-]; [done|apply prefix_nil].
Qed.

Lemma serve_backed {R} m cancelled now (op : port R) m' r j tr :
  reachable m -> job_rule j tr R op -> serve m cancelled now op = Some (m', r) ->
  backed m j tr -> backed m' j (Ev op r :: tr).
Proof.
  intros Hr Hd Hs Hb. pose proof Hs as Hspec.
  apply serve_spec in Hspec as [_ [[E _]|(epoch & expect & s & sealed & Hdraft & E & Ha)]].
  - assert (backed m' j tr) as Hb' by (eapply backed_grows; [|exact Hb]; intros run; by eapply serve_grows).
    apply backed_other; [done| |done]. destruct op; try done.
    injection Hs as <- <-. apply job_reads in Hd as [-> Hle]. intros l. by apply Read_backed.
  - eapply backed_append; [done| |exact E|exact Ha|done]. by eapply job_writes.
Qed.

(** ** The invariant *)

(** A call a turn of the engine made, as the store records it. *)
Definition recorded_call (m : Memory) (deps : Deps) (start : Start) (c : Call) : Prop :=
  exists judged history state p effect already,
    Fold judged = Ok state /\ let_through deps start state c p effect already /\
    recorded start c judged history /\ history `prefix_of` steps_of m (Sa_RunID start).

(** An undo, as the store records it. *)
Definition recorded_undo (m : Memory) (pool : Worker) (start : Start) (c : Call) : Prop :=
  exists steps started,
    steps `prefix_of` steps_of m (Sa_RunID start) /\ started ∈ steps_of m (Sa_RunID start) /\
    undone pool start c steps started.

(** A call that left, as the store records it. *)
Definition accounted (m : Memory) (fx : job * Call) : Prop :=
  match fst fx with
  | JobTurn deps start => recorded_call m deps start (snd fx)
  | JobPool pool =>
      exists claim resolved budget stage fb,
        let start := claimed_start claim resolved budget stage in
        if String.eqb (Cl_Phase claim) (Phase_String PhaseCompensating)
        then recorded_undo m pool start (snd fx)
        else recorded_call m (turn_deps pool fb) start (snd fx)
  end.

Definition disciplined (w : worker) : Prop :=
  obeys (job_rule (w_job w)) (w_turn w) (w_trace w) (fun _ _ => True).

Record histories_ok (s : sys) : Prop := {
  ok_ledger : reachable (sys_ledger s);
  ok_workers : Forall (fun w => disciplined w /\ backed (sys_ledger s) (w_job w) (w_trace w))
                 (sys_workers s);
  ok_effects : Forall (accounted (sys_ledger s)) (sys_effects s)
}.

Lemma recorded_call_grows m m' deps start c :
  grows m m' -> recorded_call m deps start c -> recorded_call m' deps start c.
Proof.
  intros Hg (judged & history & state & p & effect & already & H1 & H2 & H3 & H4).
  exists judged, history, state, p, effect, already. do 3 (split; [done|]). etrans; [exact H4|apply Hg].
Qed.

Lemma recorded_undo_grows m m' pool start c :
  grows m m' -> recorded_undo m pool start c -> recorded_undo m' pool start c.
Proof.
  intros Hg (steps & started & H1 & H2 & H3). exists steps, started. split; [etrans; [exact H1|apply Hg]|].
  split; [|done]. by apply (on_record_grows m m' (Some (Sa_RunID start)) (Some (Sa_RunID start))).
Qed.

Lemma accounted_grows m m' fx : grows m m' -> accounted m fx -> accounted m' fx.
Proof.
  intros Hg. unfold accounted. destruct (fst fx); [by apply recorded_call_grows|].
  intros (claim & resolved & budget & stage & fb & H). exists claim, resolved, budget, stage, fb.
  cbv zeta in *. case_match; [by eapply recorded_undo_grows|by eapply recorded_call_grows].
Qed.

Lemma histories_grow m m' ws fx :
  reachable m' -> grows m m' -> histories_ok (MkSys m ws fx) -> histories_ok (MkSys m' ws fx).
Proof.
  intros Hr Hg [_ Hw Hf]. split; cbn in *; [done| |].
  - eapply List.Forall_impl; [|exact Hw]. intros w [Hd Hb]. split; [done|by eapply backed_grows].
  - eapply List.Forall_impl; [|exact Hf]. intros x. by apply accounted_grows.
Qed.

Lemma Forall_middle {A} (P : A -> Prop) l1 x x' l2 :
  Forall P (l1 ++ x :: l2) -> (P x -> P x') -> Forall P (l1 ++ x' :: l2).
Proof.
  rewrite !List.Forall_app, !List.Forall_cons_iff. tauto.
Qed.

Lemma resume_disciplined {R} w (op : port R) k r :
  w_turn w = Do op k -> disciplined w -> honest op r ->
  job_rule (w_job w) (w_trace w) R op /\ disciplined (resumed w op k r).
Proof.
  unfold disciplined. intros E H Hh. rewrite E in H. destruct H as [H1 H2]. split; [done|].
  by apply H2.
Qed.

Lemma other_backed {R} m (op : port R) r j tr :
  serve m false 0 op = None -> backed m j tr -> backed m j (Ev op r :: tr).
Proof. intros H. by apply backed_other; destruct op. Qed.

Lemma worker_ok m ws1 w ws2 fx :
  histories_ok (MkSys m (ws1 ++ w :: ws2) fx) ->
  disciplined w /\ backed m (w_job w) (w_trace w).
Proof. intros [_ Hw _]. cbn in Hw. by apply List.Forall_elt in Hw. Qed.

Lemma histories_serve {R} m ws1 w ws2 fx (op : port R) k cancelled now m' r :
  histories_ok (MkSys m (ws1 ++ w :: ws2) fx) -> w_turn w = Do op k ->
  serve m cancelled now op = Some (m', r) ->
  histories_ok (MkSys m' (ws1 ++ resumed w op k r :: ws2) fx).
Proof.
  intros Hok E Hsrv. pose proof (ok_ledger _ Hok) as Hr.
  destruct (worker_ok _ _ _ _ _ Hok) as [Hd Hb].
  destruct (resume_disciplined w op k r E Hd (serve_honest _ _ _ _ _ _ Hsrv)) as [Hop Hnext].
  apply (histories_grow m m') in Hok as [Hr' Hw Hf];
    [|by eapply serve_reaches|by intros run; eapply serve_grows].
  split; [done| |done]. eapply Forall_middle; [exact Hw|]. intros _.
  split; [done|]. by eapply serve_backed.
Qed.

Lemma invoke_recorded m deps start j tr c :
  run_of j tr = Some (Sa_RunID start) -> backed m j tr -> may_invoke deps start tr c ->
  recorded_call m deps start c.
Proof.
  intros Hrun [Hb _ _] (_ & _ & judged & history & state & p & effect & already & H1 & H2 & H3 & H4).
  exists judged, history, state, p, effect, already. do 3 (split; [done|]).
  specialize (Hb _ H4). by rewrite Hrun in Hb.
Qed.

Lemma undo_recorded_in m pool start j tr c :
  run_of j tr = Some (Sa_RunID start) -> backed m j tr -> may_undo pool start tr c ->
  recorded_undo m pool start c.
Proof.
  intros Hrun [_ Hr Hs] (_ & _ & steps & started & H1 & H2 & H3). exists steps, started.
  specialize (Hr _ H1). specialize (Hs _ H2). by rewrite Hrun in Hr, Hs.
Qed.

(** Every call a job's rule lets out is on record. *)
Lemma left_accounted m j tr c :
  backed m j tr -> job_rule j tr _ (OnInvoke c) -> accounted m (j, c).
Proof.
  intros Hb Hop. unfold accounted. destruct j as [deps start|pool]; cbn [fst snd].
  { by apply (invoke_recorded m deps start (JobTurn deps start) tr c). }
  cbn in Hop. unfold pool_rule in Hop. destruct (claim_of tr) as [claim|] eqn:Ec; [|done].
  assert (forall start, Sa_RunID start = Cl_RunID claim -> run_of (JobPool pool) tr = Some (Sa_RunID start)) as Hrun
    by (intros start ->; cbn; by rewrite Ec).
  destruct Hop as [[]|(resolved & budget & stage & fb & H)]. exists claim, resolved, budget, stage, fb. cbv zeta.
  destruct (String.eqb_spec (Cl_Phase claim) (Phase_String PhaseCompensating)) as [E|E];
    destruct H as [[Hn H]|[Hn H]]; try done.
  - eapply undo_recorded_in; [by apply Hrun|exact Hb|exact H].
  - eapply invoke_recorded; [by apply Hrun|exact Hb|exact H].
Qed.

Lemma histories_answer {R} m ws1 w ws2 fx (op : port R) k r :
  histories_ok (MkSys m (ws1 ++ w :: ws2) fx) -> w_turn w = Do op k -> serve m false 0 op = None ->
  histories_ok (MkSys m (ws1 ++ resumed w op k r :: ws2) (left_by w op ++ fx)).
Proof.
  intros Hok E Hsrv. destruct (worker_ok _ _ _ _ _ Hok) as [Hd Hb]. destruct Hok as [Hr Hw Hf].
  destruct (resume_disciplined w op k r E Hd (other_honest _ _ _ Hsrv)) as [Hop Hnext].
  split; [done| |].
  - eapply Forall_middle; [exact Hw|]. intros _. split; [done|]. by apply other_backed.
  - cbn. unfold left_by. destruct (invoked_by op) as [c|] eqn:Ei; [|done]. constructor; [|done].
    destruct op; try done. injection Ei as ->. by eapply left_accounted.
Qed.

Lemma histories_step s s' : histories_ok s -> sys_step s s' -> histories_ok s'.
Proof.
  intros Hok Hs. destruct Hs as [m ws fx j| | |m ws fx now o m' Hm].
  - destruct Hok as [Hr Hw Hf]. split; [done| |done]. constructor; [|done].
    split; [apply job_obeys|]. split; [done|by intros l ?%elem_of_nil..].
  - by eapply histories_serve.
  - by eapply histories_answer.
  - eapply histories_grow; [| |exact Hok]; [|by intros run; eapply mem_step_grows].
    econstructor; [apply Hok|exact Hm].
Qed.

Lemma reachable_histories s : sys_reachable s -> histories_ok s.
Proof.
  induction 1 as [|s s' _ IH Hs]; [|by eapply histories_step].
  split; [constructor|constructor..].
Qed.

(** ** Keys *)

(** The keys of the calls recorded and not made, and of the calls that left. *)
Definition pending_keys (ws : list worker) : list string :=
  flat_map (fun w => option_list (pending (w_trace w))) ws.

Definition effect_keys (fx : list (job * Call)) : list string :=
  List.map (fun x => Ca_IdemKey (snd x)) fx.

Definition tickets (s : sys) : list string :=
  (pending_keys (sys_workers s) ++ effect_keys (sys_effects s))%list.

(** Distinct keys, each taken in the store. *)
Definition issued (m : Memory) (keys : list string) : Prop :=
  NoDup keys /\ forall key, key ∈ keys -> key ∈ m_idems m.

#[export] Instance issued_proper m : Proper ((≡ₚ) ==> iff) (issued m).
Proof. intros a b E. unfold issued. by setoid_rewrite E. Qed.

Lemma issued_drop m a b : issued m (a ++ b)%list -> issued m b.
Proof.
  intros [Hn Hi]. apply NoDup_app in Hn as (_ & _ & Hn). split; [done|]. intros key Hk.
  apply Hi. apply elem_of_app. by right.
Qed.

Lemma issued_grows m now o m' keys : mem_step m now o m' -> issued m keys -> issued m' keys.
Proof.
  intros H [Hn Hi]. split; [done|]. intros key Hk. specialize (Hi key Hk).
  apply mem_step_runs in H as [[_ ->]|(epoch & expect & s & sealed & _ & Ha)]; [done|].
  apply append_Ok in Ha as (_ & _ & _ & _ & _ & _ & ->). rewrite store_idems. case_match; set_solver.
Qed.

(** The store takes a key once, so one it has just taken is new. *)
Lemma issued_append m now epoch expect s m' sealed keys :
  append m false now epoch expect s = Ok (m', sealed) -> issued m keys ->
  issued m' (option_list (called_key (S_Kind sealed) (S_IdemKey sealed)) ++ keys)%list.
Proof.
  intros Ha Hi. assert (issued m' keys) as [Hn' Hi']
    by (by eapply issued_grows; [eapply append_mem_step|]).
  unfold called_key. case_match eqn:E; [|done]. cbn. bsimp. destruct E as [_ Ek].
  apply append_Ok in Ha as (_ & _ & _ & Hk & _ & Hs & ->).
  destruct (sealed_keeps _ _ _ Hs) as (_ & Ekey & _). rewrite <- Ekey in Hk.
  destruct Hk as [Hk|Hk]; [done|]. split.
  - constructor; [|done]. intros Hin. by apply Hk, Hi.
  - intros key [->|Hin]%elem_of_cons; [|by apply Hi']. rewrite store_idems.
    apply String.eqb_neq in Ek. rewrite Ek. set_solver.
Qed.

Lemma tickets_middle m ws1 w ws2 fx :
  tickets (MkSys m (ws1 ++ w :: ws2) fx) ≡ₚ
  (option_list (pending (w_trace w)) ++ tickets (MkSys m (ws1 ++ ws2) fx))%list.
Proof.
  unfold tickets, pending_keys. cbn. rewrite !flat_map_app. cbn. rewrite <- !app_assoc.
  by rewrite Permutation_app_swap_app.
Qed.

Definition tickets_ok (s : sys) : Prop := issued (sys_ledger s) (tickets s).

Lemma tickets_serve {R} m ws1 w ws2 fx (op : port R) k cancelled now m' r :
  tickets_ok (MkSys m (ws1 ++ w :: ws2) fx) -> serve m cancelled now op = Some (m', r) ->
  tickets_ok (MkSys m' (ws1 ++ resumed w op k r :: ws2) fx).
Proof.
  unfold tickets_ok. rewrite !tickets_middle. cbn [sys_ledger]. intros Hi Hs.
  apply serve_spec in Hs as [Ei [[Es Hm]|(epoch & expect & s & sealed & _ & Es & Ha)]].
  - cbn [resumed w_trace pending]. rewrite Es, Ei. destruct Hm as [-> |(o & Hm)]; [done|].
    by eapply issued_grows.
  - apply issued_drop in Hi. cbn [resumed w_trace pending]. rewrite Es. by eapply issued_append.
Qed.

(** A call that leaves goes out under the key pending. *)
Lemma job_pending j tr c : job_rule j tr _ (OnInvoke c) -> pending tr = Some (Ca_IdemKey c).
Proof.
  destruct j as [deps start|pool]; [by intros []|]. cbn. unfold pool_rule. destruct (claim_of tr); [|done].
  by intros [[]|(resolved & budget & stage & fb & [[_ []]|[_ []]])].
Qed.

Lemma tickets_answer {R} m ws1 w ws2 fx (op : port R) k r :
  tickets_ok (MkSys m (ws1 ++ w :: ws2) fx) -> serve m false 0 op = None ->
  job_rule (w_job w) (w_trace w) R op ->
  tickets_ok (MkSys m (ws1 ++ resumed w op k r :: ws2) (left_by w op ++ fx)).
Proof.
  unfold tickets_ok. rewrite !tickets_middle. cbn [sys_ledger]. intros Hi Hs Hd.
  destruct op as [| | | | | | | | |c| | | | | | | | | | | | | | | | | | | | | | | | | | |]; try done.
  rewrite (job_pending _ _ _ Hd) in Hi. revert Hi. unfold tickets. cbn.
  by rewrite (Permutation_middle _ _ (Ca_IdemKey c)).
Qed.

Lemma reachable_tickets s : sys_reachable s -> tickets_ok s.
Proof.
  induction 1 as [|s s' Hr IH Hs]; [split; [constructor|by intros key ?%elem_of_nil]|].
  pose proof (reachable_histories _ Hr) as Hok.
  destruct Hs as [m ws fx j|m ws1 w ws2 fx R op k cancelled now m' r E Hsrv
    |m ws1 w ws2 fx R op k r E Hsrv|m ws fx now o m' Hm].
  - exact IH.
  - by eapply tickets_serve.
  - apply tickets_answer; [done|done|]. destruct (worker_ok _ _ _ _ _ Hok) as [Hd _].
    by apply (resume_disciplined w op k r E Hd (other_honest _ _ _ Hsrv)).
  - by eapply issued_grows.
Qed.

(** ** What the system guarantees *)

(** C1. An effect leaves at most once. However many workers run turns or undo
    what runs left, in whatever order, whoever crashes at whatever point and
    whatever the model, the tools and the other collaborators answer, no two
    calls ever leave under one idempotency key, and every key that left is taken
    in the ledger. *)
Theorem effects_leave_at_most_once s :
  sys_reachable s ->
  NoDup (effect_keys (sys_effects s)) /\
  forall key, key ∈ effect_keys (sys_effects s) -> key ∈ m_idems (sys_ledger s).
Proof. intros H. apply reachable_tickets in H. by apply issued_drop in H. Qed.


(** Workers never act on an invented past: the steps a turn's state is
    folded from, and the histories a worker plans its undos from, are at every
    moment and for every worker the beginning of the chain the ledger stores for
    its run. *)
Theorem workers_hold_stored_history s w l :
  sys_reachable s -> w ∈ sys_workers s ->
  held (w_trace w) = Some l \/ l ∈ reads_in (w_trace w) ->
  exists run, run_of (w_job w) (w_trace w) = Some run /\ l `prefix_of` steps_of (sys_ledger s) run.
Proof.
  intros H Hin Hl. apply reachable_histories in H as [_ Hw _]. rewrite List.Forall_forall in Hw.
  destruct (Hw w) as [_ Hb]; [by apply list_elem_of_In|].
  assert (stored (sys_ledger s) (run_of (w_job w) (w_trace w)) l) as Hs
    by (destruct Hl; [by apply (backed_held _ _ _ Hb)|by apply (backed_reads _ _ _ Hb)]).
  destruct (run_of (w_job w) (w_trace w)) as [run|]; [eauto|done].
Qed.

(** One worker driven alone is a run of the system. *)
Lemma drive_reaches answers stop now j ws p : forall m tr calls m' p' tr' calls' fx,
  drive answers stop now m p tr calls = (m', p', tr', calls') ->
  sys_reachable (MkSys m (MkWorker j p tr :: ws) (List.map (pair j) calls ++ fx)) ->
  sys_reachable (MkSys m' (MkWorker j p' tr' :: ws) (List.map (pair j) calls' ++ fx)).
Proof.
  induction p as [a|R op k IH]; intros m tr calls m' p' tr' calls' fx; cbn.
  { by intros [= <- <- <- <-]. }
  destruct (stop R op); [by intros [= <- <- <- <-]|].
  destruct (serve m false now op) as [[m1 r]|] eqn:Es; intros Hd Hr; eapply IH; try exact Hd.
  - eapply sys_next; [exact Hr|].
    by apply (sys_serve m [] (MkWorker j (Do op k) tr) ws _ op k false now).
  - assert (serve m false 0 op = None) as Es' by (by destruct op).
    pose proof (sys_answer m [] (MkWorker j (Do op k) tr) ws
      (List.map (pair j) calls ++ fx) op k (answers R op) eq_refl Es') as Hs.
    cbn in Hs. eapply sys_next in Hs; [|exact Hr].
    unfold left_by in Hs. cbn in Hs. by destruct (invoked_by op).
Qed.

(** ** Witnesses *)

(** A run that changed a record and was abandoned, and a pool that claims it. *)
Module Abandoned.
Definition entry (kind payload key : string) : Step :=
  MkStep "run-1" 0 kind (MkScope "acme" "cx") "triage" "v1" "ana" payload [] zeroCost key "" 0 "" "".

Definition entries : list Step :=
  [entry StepRunStarted (obj [kv "trigger" (quoted "manual")]) "";
   entry StepToolCalled (obj [kv "tool" (quoted "crm.update"); kv "effect" "2"]) "call-1";
   entry StepToolReturned (obj [kv "tool" (quoted "crm.update")]) "";
   entry StepAbandoned (obj [kv "compensate" "true"]) ""].

Definition noted (m : Memory) (s : Step) : Memory := fst (served m (Append m false 0 s)).
Definition ledger : Memory := fold_left noted entries NewMemory.

Definition pool : Worker :=
  MkWorkerPool (withDefaults (MkConfig "w1" 0 0 0 0 0 0)) plain_deps false true
    (Some (fun tool => if String.eqb tool "crm.update" then "crm.revert" else "")) (fun _ => "failed").

Definition version : Start :=
  MkStart "" (MkScope "" "") "" "" "" ["crm.revert"; "crm.update"] [] (Sa_Budget one_step) (Sa_Budget one_step)
    "" "manual" 0 (Sa_MemoryLearning one_step) "" false.

(** Collaborators that resolve the run's version and know its tools as writes. *)
Definition obliging (R : Type) (op : port R) : R :=
  match op in port R return R with
  | OnEffect _ => EffectWrite
  | OnResolve _ _ => Ok (MkResolution version true None)
  | op => agreeable _ op
  end.

Definition driven : Memory * prog (bool * option RunError) * list event * list Call :=
  drive obliging never 0 ledger (Worker_turn pool) [] [].

(** The pool undoes the act and ends the run. *)
Example one_undo :
  let '(m, p, _, calls) := driven in
  p = Ret (true, None) /\
  List.map S_Kind (steps_of m "run-1") =
    [StepRunStarted; StepToolCalled; StepToolReturned; StepAbandoned;
     StepCompensationStarted; StepCompensated; StepFailed] /\
  List.map (fun c => (Ca_Tool c, Ca_IdemKey c)) calls = [("crm.revert", "compensate:run-1:2")].
Proof. vm_compute. done. Qed.

Definition settled : sys :=
  let '(m, p, tr, calls) := driven in
  MkSys m [MkWorker (JobPool pool) p tr] (List.map (pair (JobPool pool)) calls).

Lemma noted_reaches m s : sys_reachable (MkSys m [] []) -> sys_reachable (MkSys (noted m s) [] []).
Proof.
  intros H. unfold noted, served. destruct (Append m false 0 s) as [[m' sealed]|e] eqn:E; [|done].
  eapply sys_next; [exact H|]. eapply sys_other, append_mem_step, E.
Qed.

Lemma ledger_reaches l m :
  sys_reachable (MkSys m [] []) -> sys_reachable (MkSys (fold_left noted l m) [] []).
Proof. revert m. induction l as [|s l IH]; intros m H; [done|]. by apply IH, noted_reaches. Qed.

Lemma abandoned_reachable : sys_reachable settled.
Proof.
  unfold settled. destruct driven as [[[m p] tr] calls] eqn:E.
  rewrite <- (app_nil_r (List.map _ calls)).
  eapply (drive_reaches obliging never 0 (JobPool pool) [] _ ledger [] []); [exact E|].
  eapply sys_next; [apply ledger_reaches, sys_new|apply (sys_spawn ledger [] [] (JobPool pool))].
Qed.

Lemma settled_effects : exists c, sys_effects settled = [(JobPool pool, c)] /\ Ca_Tool c = "crm.revert".
Proof.
  assert (List.map (fun x => Ca_Tool (snd x)) (sys_effects settled) = ["crm.revert"]) as Hl
    by (vm_compute; reflexivity).
  revert Hl. unfold settled. destruct driven as [[[m p] tr] calls]. cbn [sys_effects].
  destruct calls as [|c [|]]; try done. intros [= Hc]. by exists c.
Qed.
End Abandoned.

Lemma effects_leave_at_most_once_witness :
  List.length (sys_effects Abandoned.settled) = 1%nat /\ NoDup (effect_keys (sys_effects Abandoned.settled)).
Proof.
  split; [vm_compute; reflexivity|].
  apply (effects_leave_at_most_once Abandoned.settled Abandoned.abandoned_reachable).
Defined.


(** A turn on its own, driven to its end. *)
Definition settled : sys :=
  let '(m, p, tr, calls) := driven_to never in
  MkSys m [MkWorker (JobTurn plain_deps one_step) p tr]
    (List.map (pair (JobTurn plain_deps one_step)) calls).

Lemma settled_reachable : sys_reachable settled.
Proof.
  unfold settled. destruct (driven_to never) as [[[m p] tr] calls] eqn:E.
  rewrite <- (app_nil_r (List.map _ calls)).
  eapply (drive_reaches agreeable never 0 (JobTurn plain_deps one_step) [] _ NewMemory [] []); [exact E|].
  eapply sys_next; [apply sys_new|apply (sys_spawn NewMemory [] [] (JobTurn plain_deps one_step))].
Qed.

Lemma workers_hold_stored_history_witness :
  exists w l, w ∈ sys_workers settled /\ held (w_trace w) = Some l /\ List.length l = 7%nat /\
    exists run, run_of (w_job w) (w_trace w) = Some run /\ l `prefix_of` steps_of (sys_ledger settled) run.
Proof.
  assert (option_map (@List.length Step) (held (driven_to never).1.2) = Some 7%nat) as Hl
    by (vm_compute; reflexivity).
  pose proof settled_reachable as Hr. unfold settled in *.
  destruct (driven_to never) as [[[m p] tr] calls]. cbn [fst snd] in Hl.
  destruct (held tr) as [l|] eqn:Eh; [|done].
  exists (MkWorker (JobTurn plain_deps one_step) p tr), l. split; [constructor|]. split; [done|].
  split; [by injection Hl|].
  eapply (workers_hold_stored_history _ (MkWorker (JobTurn plain_deps one_step) p tr) l Hr);
    [constructor|by left].
Defined.
