(* ===== verification/WorkerSafety.v ===== *)
(** * What supervision promises

    Theorems about src/internal/worker: when a failed turn is retried and when
    it is parked, how long it waits, what supervision may write over, and that a
    turn whose lease cannot be proven is over before the lease is. *)

From Stdlib Require Import ZArith Lia Ascii String.
From stdpp Require Import base list strings gmap.
From S2P Require Import Prelude GoStrings Json Domain Policy Sha256 Dedupe Step Payload Encode WorkItem State StateFacts Ledger LedgerSafety Gate Ports Envelope Runner Drive Turn Calendar Compensate Worker.

Local Open Scope string_scope.

(** ** Backoff *)

Lemma backoff_loop_min rounds cap d :
  (0 < cap <= 2 ^ 62)%Z -> (0 < d < 2 ^ 62)%Z ->
  backoff_loop (S rounds) cap d = Z.min cap (d * 2 ^ Z.of_nat (S rounds))%Z.
Proof.
  intros Hcap. revert d. induction rounds as [|n IH]; intros d Hd.
  { cbn -[wrap64]. rewrite wrap64_id by (apply in_int64_spec; lia). destruct (Z.leb_spec cap (d * 2)); lia. }
  change (backoff_loop (S (S n)) cap d) with
    (let d := wrap64 (d * 2) in if (cap <=? d)%Z then cap else backoff_loop (S n) cap d).
  cbv zeta. rewrite wrap64_id by (apply in_int64_spec; lia).
  assert (2 ^ Z.of_nat (S (S n)) = 2 * 2 ^ Z.of_nat (S n))%Z as ->
    by (rewrite (Nat2Z.inj_succ (S n)); apply Z.pow_succ_r; lia).
  assert (0 < 2 ^ Z.of_nat (S n))%Z by (apply Z.pow_pos_nonneg; lia).
  destruct (Z.leb_spec cap (d * 2)); [nia|]. rewrite IH by lia. f_equal. lia.
Qed.

(** The wait before attempt [n + 1] is the base doubled [n - 1] times and no
    more than the cap; the first wait alone is the base whatever the cap. The
    doubling never wraps an [int64] when both are below 2^62 ns, 146 years. *)
Theorem backoff_doubles_to_its_cap cfg attempts :
  (0 < Cfg_BaseBackoff cfg < 2 ^ 62)%Z -> (0 < Cfg_MaxBackoff cfg <= 2 ^ 62)%Z -> (1 <= attempts)%Z ->
  backoff cfg attempts =
    if Z.eqb attempts 1 then Cfg_BaseBackoff cfg
    else Z.min (Cfg_MaxBackoff cfg) (Cfg_BaseBackoff cfg * 2 ^ (attempts - 1))%Z.
Proof.
  intros Hb Hm Ha. unfold backoff. destruct (Z.eqb_spec attempts 1) as [-> |Hne]; [done|].
  assert (Z.to_nat (attempts - 1) = S (Z.to_nat (attempts - 2))) as E by lia.
  rewrite E, backoff_loop_min by lia. do 3 f_equal. lia.
Qed.

Definition uncapped : Config := MkConfig "w1" 1 (30 * ms) (1000 * ms) 5 (8000 * ms) (2000 * ms).

Lemma backoff_doubles_to_its_cap_witness :
  backoff uncapped 1 = (8000 * ms)%Z /\
  backoff uncapped 3 = Z.min (2000 * ms) (8000 * ms * 2 ^ (3 - 1)).
Proof.
  split; [reflexivity|]. apply (backoff_doubles_to_its_cap uncapped 3); cbn; unfold ms; lia.
Defined.

(** ** Retrying and parking *)

(** An error that no retry can cure, or one that has been retried enough. *)
Definition hopeless (w : Worker) (c : Claim) (e : RunError) : bool :=
  match FailureSummaryOf e with Some f => negb (FS_Retryable f) | None => false end ||
  bool_decide (is_Some (parkReasonOf e)) ||
  (Cfg_MaxAttempts (W_Config w) <=? add64 (Cl_Attempts c) 1)%Z.

(** What is reported of a failure, the clock at [now]. *)
Definition reported (w : Worker) (c : Claim) (e : RunError) (now : Time) : ClaimOutcome :=
  MkClaimOutcome 0
    (if hopeless w c e then 0%Z
     else Time_Add now (backoff (W_Config w) (add64 (Cl_Attempts c) 1)))
    (Some (W_ErrorText w e)) (FailureSummaryOf e) (hopeless w c e).


(** A run that has failed before, and a refusal that is worth another try. *)
Definition tired : Claim := MkClaim "run-1" (MkScope "acme" "cx") "triage" "v1" "ana" "running" 3 0 7.

Definition plain_pool : Worker :=
  MkWorkerPool (withDefaults (MkConfig "w1" 0 0 0 0 0 0)) plain_deps false false None (fun _ => "failed").


(** ** What supervision writes over *)

Definition heads_in (tr : list event) : list Step :=
  omap (fun e => match ev_op e in port R return R -> option Step with
                 | LHead _ => fun r => match r with Ok s => Some s | Err _ => None end
                 | _ => fun _ => None
                 end (ev_answer e)) tr.

Definition ref_of (s : Step) : StepRef := MkStepRef (S_Seq s) (S_Kind s).

(** A parking replaces no ruling: its expected head was read, and is neither an
    ending nor a person's abandonment. *)
Definition parking (c : Claim) (tr : list event) (epoch : Z) (expected : StepRef) (s : Step) : Prop :=
  epoch = Cl_Epoch c /\ S_Kind s = StepParked /\
  exists head, head ∈ heads_in tr /\ expected = ref_of head /\
    StepKind_Terminal (S_Kind head) = false /\ S_Kind head <> StepAbandoned.

(** A switch is the run's first, on a version that is not autonomous, decided
    on a trail that was read and left the run running. *)
Definition switching (c : Claim) (start : Start) (tr : list event) (epoch : Z) (expected : StepRef)
    (s : Step) : Prop :=
  epoch = Cl_Epoch c /\ S_Kind s = StepModelFallback /\ Sa_Stage start <> StageAutonomous /\
  exists steps state, steps ∈ reads_in tr /\ Fold steps = Ok state /\ St_Fallback state = None /\
    St_Phase state = PhaseRunning /\ expected = St_Head state.

Definition spares (c : Claim) (start : Start) (tr : list event) (R : Type) (op : port R) : Prop :=
  match op with
  | LAppendIfLeaseAndHead epoch expected s =>
      S_RunID s = Cl_RunID c /\ (parking c tr epoch expected s \/ switching c start tr epoch expected s)
  | LAppend _ | LAppendIfHead _ _ | OnInvoke _ | OnPlan _ _ => False
  | QueueRelease run o => run = Cl_RunID c /\ CO_Epoch o = Cl_Epoch c
  | _ => True
  end.

Section Sparing.
Context (w : Worker) (c : Claim) (start : Start).
Local Abbreviation sparing p tr := (obeys (spares c start) p tr (fun _ _ => True)).

Lemma release_spares o tr : sparing (release c o) tr.
Proof. by split; [|intros [|[]]]. Qed.

Lemma park_spares e code tr : sparing (Worker_park w c e code) tr.
Proof.
  unfold Worker_park. apply obeys_bind. split; [done|]. intros [head|e'] _; [|done].
  cbn [obeys]. destruct (StepKind_Terminal (S_Kind head)) eqn:Et; [apply release_spares|].
  destruct (String.eqb_spec (S_Kind head) StepAbandoned) as [Ea|Ea]; [apply release_spares|].
  cbv zeta. apply obeys_bind. split; [done|]. intros now _. cbn [obeys]. apply obeys_bind. split.
  { split; [done|]. left. split; [done|]. split; [done|]. exists head. split; [|done].
    cbn. apply list_elem_of_here. }
  intros [sealed|[]] _; first [done|apply release_spares].
Qed.

Lemma switchTo_spares state steps fb f e tr :
  steps ∈ reads_in tr -> Fold steps = Ok state -> St_Fallback state = None ->
  St_Phase state = PhaseRunning -> Sa_Stage start <> StageAutonomous ->
  sparing (switchTo w c state start fb f e) tr.
Proof.
  intros Hr Hf Hn Hp Hs. unfold switchTo. cbv zeta. apply obeys_bind. split; [done|]. intros now _.
  cbn [obeys]. apply obeys_bind. split.
  { split; [done|]. right. split; [done|]. split; [done|]. split; [done|]. by exists steps, state. }
  intros [sealed|[]] _; first [done|apply release_spares|apply park_spares].
Qed.

Lemma exhausted_spares fb e tr : sparing (exhausted w c start fb e) tr.
Proof.
  unfold exhausted. destruct (switchable fb e) as [[fb' f]|]; [|done].
  apply obeys_bind, obeys_attempt. unfold fold_run. apply obeys_bind. split; [done|].
  intros [steps|e'] _; [|done]. cbn [obeys].
  destruct (Fold steps) as [state|e'] eqn:Ef; [|done]. cbn [obeys mret turn_ret].
  destruct (bool_decide (is_Some (St_Fallback state)) || negb (Z.eqb (St_Phase state) PhaseRunning)) eqn:Eg;
    [done|]. apply orb_false_iff in Eg as [Hn Hp]. apply bool_decide_eq_false in Hn.
  apply negb_false_iff, Z.eqb_eq in Hp. apply eq_None_not_Some in Hn.
  destruct (String.eqb_spec (Sa_Stage start) StageAutonomous) as [Es|Es]; apply obeys_bind, obeys_attempt.
  - by eapply obeys_mono; [apply park_spares|].
  - eapply obeys_mono; [|done]. apply (switchTo_spares state steps); try done. cbn. apply list_elem_of_here.
Qed.

Lemma failure_quiet e : only (fun R op => quiet_op op = true) (failure w c e).
Proof. unfold failure. by only_tac. Qed.

Lemma failed_spares fb e tr : sparing (failed w c start fb e) tr.
Proof.
  unfold failed. apply obeys_bind. eapply (obeys_mono _ _ _ (fun _ _ => True)).
  { eapply (only_obeys _ _ (fun _ => True)); [done| |done|apply failure_quiet]. by intros past R []. }
  intros tr1 [outcome|e1] _; [|done]. apply obeys_bind. eapply (obeys_mono _ _ _ (fun _ _ => True)).
  { destruct (CO_Parked outcome); [apply exhausted_spares|done]. }
  intros tr2 [[[|]|]|e2] _; try done. destruct (CO_Parked outcome); [apply park_spares|apply release_spares].
Qed.
End Sparing.

(** Supervision writes over nobody: whatever the collaborators answered,
    every step it appends for a failed turn is conditional on the claim's epoch
    and on a head it read itself. A parking never covers an ending or a
    person's abandonment; a switch of model is the run's first, never on an
    autonomous agent, and decided on the running state folded from the trail. *)
Theorem supervision_spares_rulings w c start fb e R (op : port R) k tr s :
  unfolds (failed w c start fb e) [] (Do op k) tr -> honest_trace tr -> drafted op = Some s ->
  S_RunID s = Cl_RunID c /\
  exists epoch expected, append_condition op = Some (epoch, expected) /\
    (parking c tr epoch expected s \/ switching c start tr epoch expected s).
Proof.
  intros Hu Hh Hd.
  destruct (obeys_unfolds _ _ _ _ _ _ (failed_spares w c start fb e []) Hu Hh) as [Hop _].
  destruct op; try done. injection Hd as ->. destruct Hop as [Hr Hop]. split; [done|]. eauto.
Qed.

Definition refused_for_good : RunError := RunPort (PortFailed (Some (MkFailureSummary "model_auth" "p" 401 "" false))).

Definition opened_run : Memory :=
  fst (served NewMemory (Append NewMemory false 0
    (MkStep "run-1" 0 StepRunStarted (MkScope "acme" "cx") "triage" "v1" "ana"
       (obj [kv "trigger" (quoted "manual")]) [] zeroCost "" "" 0 "" ""))).

Definition at_append (R : Type) (op : port R) : bool := bool_decide (is_Some (drafted op)).

(** The pool about to write what becomes of a turn refused for good. *)
Definition failing : Memory * prog (result RunError unit) * list event * list Call :=
  drive agreeable at_append 0 opened_run (failed plain_pool tired one_step None refused_for_good) [] [].

Lemma supervision_spares_rulings_witness :
  exists R (op : port R) k tr s,
    unfolds (failed plain_pool tired one_step None refused_for_good) [] (Do op k) tr /\ S_Kind s = StepParked /\
    S_RunID s = "run-1" /\
    exists epoch expected, append_condition op = Some (epoch, expected) /\
      (parking tired tr epoch expected s \/ switching tired one_step tr epoch expected s).
Proof.
  assert (about_to (fun R op => option_map S_Kind (drafted op)) failing.1.1.2 = Some StepParked) as H
    by (vm_compute; reflexivity).
  destruct failing as [[[m p] tr] calls] eqn:E. unfold failing in E.
  pose proof (drive_unfolds _ _ _ _ _ _ _ _ _ _ _ E) as Hu.
  assert (honest_trace tr) as Hh by (exact (drive_honest _ _ _ _ _ _ _ _ _ _ _ E ltac:(constructor))).
  clear E. cbn [fst snd] in H. destruct p as [a|R op k]; [done|]. cbn in H.
  destruct (drafted op) as [s|] eqn:Ed; [|done].
  exists R, op, k, tr, s. split; [exact Hu|]. split; [by injection H|].
  apply (supervision_spares_rulings plain_pool tired one_step None refused_for_good R op k tr s Hu Hh Ed).
Defined.

(** ** The lease of a turn *)

Lemma withDefaults_lease cfg :
  (30 * ms <= Cfg_Lease (withDefaults cfg))%Z.
Proof. unfold withDefaults, ms. cbn. repeat case_match; lia. Qed.

Lemma interval_thirds cfg :
  (0 <= Cfg_Lease cfg)%Z -> (0 <= renew_interval cfg /\ 3 * renew_interval cfg <= Cfg_Lease cfg)%Z.
Proof.
  intros H. unfold renew_interval. rewrite Z.quot_div_nonneg by lia. split; [apply Z.div_pos; lia|].
  apply Z.mul_div_le. lia.
Qed.

(** The tick the lease was last proven at, 0 being the claim; [n] is the first
    tick of the list and [last] the one before. *)
Fixpoint last_proof (n last : nat) (ticks : list tick) : nat :=
  match ticks with
  | [] => last
  | t :: rest => last_proof (S n) (match tk_proof t with Renewed => n | _ => last end) rest
  end.

Lemma keepLease_recent cfg ticks : forall n last j j',
  n = (last + jd_failures j + 1)%nat -> (jd_failures j <= 1)%nat ->
  keepLease cfg n j ticks = Some j' ->
  (n + List.length ticks = last_proof n last ticks + jd_failures j' + 1)%nat /\ (jd_failures j' <= 1)%nat.
Proof.
  induction ticks as [|t rest IH]; intros n last j j' Hn Hj; cbn [keepLease last_proof List.length].
  { intros [= <-]. lia. }
  unfold judge. case_match; [done|]. destruct (judged (jd_failures j) (tk_proof t)) as [fs|] eqn:Ej; [|done].
  cbn. intros Hk. rewrite <- Nat.add_succ_comm.
  destruct (tk_proof t); cbn in Ej; [injection Ej as <-| done|].
  - refine (IH _ _ _ _ _ _ Hk); cbn; lia.
  - destruct (jd_failures j) as [|[|]] eqn:Ef; try done. injection Ej as <-.
    refine (IH _ _ _ _ _ _ Hk); cbn; lia.
Qed.


(** A renewal that answered late, one that did not answer, and one that did. *)
Definition bumpy : list tick :=
  [MkTick (9 * ms) Renewed true; MkTick (10 * ms) RenewFailed true; MkTick (2 * ms) Renewed false].

Definition short_lease : Config := MkConfig "w1" 0 1 0 0 0 0.

