(* ===== verification/Ticket.v ===== *)
(** * Support tickets

    src/internal/ticket: store.go, validation.go, attempt.go and the in-memory
    store of memory.go, memory_revision.go, memory_execution.go,
    memory_attention.go, memory_closing.go and memory_review.go. A ticket is a
    support thread; every correction of the request is a new revision of it,
    and a revision is inspected, approved, executed and answered at most once.

    Every operation of the store runs under its lock, so it is one transition.
    [cancelled] is [ctx.Err() != nil]. The values here are immutable, so the
    source's [cloneTicket] and [cloneRevision] are the identity, and
    [time.Time.UTC] keeps the instant. An operation of the source returns a
    ticket, whether it changed anything, and an error: [answer] keeps the three
    together, since some errors come with a ticket. Assigning into the map of
    revisions of a key that has none is a panic ([Panicked]). *)

From Stdlib Require Import ZArith Lia Ascii String.
From stdpp Require Import base list strings gmap.
From S2P Require Import Prelude GoStrings Json Domain Payload.

Local Open Scope string_scope.

(** ** Data (store.go, attempt.go) *)

Abbreviation TicketKey := string (only parsing).
Abbreviation Phase := string (only parsing).

Inductive TicketError :=
| TErrContext
| TErrInvalid (why : string)
| TErrNotFound
| TErrMoved (current : option Z)
| TErrNotRequester
| TErrNotAddressSource
| TErrEventTaken
| TErrExecutionActive
| TErrAttemptConflict
| TErrSnapshotMoved
| TErrTooManyOpen
| TErrPhase (p : Phase)
| TErrTerminal (p : option Phase)
| TErrClosed.

Definition MaxOpenPerScope : Z := 200.

Definition TPhaseCollecting : Phase := "collecting".
Definition TPhaseAwaitingApproval : Phase := "awaiting_approval".
Definition TPhaseExecuting : Phase := "executing".
Definition TPhaseNeedsAttention : Phase := "needs_attention".
Definition TPhaseCompleted : Phase := "completed".
Definition TPhaseRejected : Phase := "rejected".
Definition TPhaseCancelled : Phase := "cancelled".

Definition phase_terminal (p : Phase) : bool :=
  String.eqb p TPhaseCompleted || String.eqb p TPhaseRejected || String.eqb p TPhaseCancelled.

Record ContentRef := MkContentRef { CR_Ref : string; CR_Digest : string }.

Record Origin := MkOrigin {
  O_Connection : string;
  O_Conversation : string;
  O_Root : string
}.

Record Approval := MkApproval {
  Ap_RunID : RunID;
  Ap_AtSeq : Z;
  Ap_Snapshot : ContentRef
}.

Record SupersededApproval := MkSupersededApproval {
  SA_Ref : TicketRef;
  SA_Approval : Approval
}.

Record Execution := MkExecution {
  Ex_Ref : TicketRef;
  Ex_RunID : RunID;
  Ex_ApprovalAtSeq : Z;
  Ex_Snapshot : ContentRef
}.

Record TicketOutcome := MkTicketOutcome { TO_Phase : Phase; TO_Result : ContentRef }.

Record Revision := MkRevision {
  Rv_Ref : TicketRef;
  Rv_Phase : Phase;
  Rv_Draft : ContentRef;
  Rv_Snapshot : ContentRef;
  Rv_Approval : option Approval;
  Rv_Recipients : list UserID;
  Rv_Outcome : option TicketOutcome;
  Rv_CreatedAt : Time;
  Rv_UpdatedAt : Time
}.

Record ReviewRoom := MkReviewRoom { RR_Conversation : string; RR_Root : string }.

Record Ticket := MkTicket {
  Tk_Key : TicketKey;
  Tk_Origin : Origin;
  Tk_Review : ReviewRoom;
  Tk_Closed : option Time;
  Tk_ClosedBy : UserID;
  Tk_Scope : Scope;
  Tk_Agent : AgentID;
  Tk_RunAs : UserID;
  Tk_RequestedBy : UserID;
  Tk_AddressedBy : string;
  Tk_Current : Revision;
  Tk_Active : option Execution;
  Tk_CreatedAt : Time;
  Tk_UpdatedAt : Time
}.

#[export] Instance ContentRef_eq_dec : EqDecision ContentRef.
Proof. solve_decision. Defined.
#[export] Instance Origin_eq_dec : EqDecision Origin.
Proof. solve_decision. Defined.
#[export] Instance Approval_eq_dec : EqDecision Approval.
Proof. solve_decision. Defined.
#[export] Instance Execution_eq_dec : EqDecision Execution.
Proof. solve_decision. Defined.
#[export] Instance TicketOutcome_eq_dec : EqDecision TicketOutcome.
Proof. solve_decision. Defined.
#[export] Instance Revision_eq_dec : EqDecision Revision.
Proof. solve_decision. Defined.
#[export] Instance ReviewRoom_eq_dec : EqDecision ReviewRoom.
Proof. solve_decision. Defined.
#[export] Instance Ticket_eq_dec : EqDecision Ticket.
Proof. solve_decision. Defined.
#[export] Instance TicketError_eq_dec : EqDecision TicketError.
Proof. solve_decision. Defined.

#[export] Instance TicketRef_countable : Countable TicketRef.
Proof.
  refine (inj_countable' (fun r => (TR_Key r, TR_Revision r)) (fun p => MkTicketRef p.1 p.2) _).
  by intros [].
Defined.

#[export] Instance Revision_eta : Eta Revision := fun r =>
  MkRevision (Rv_Ref r) (Rv_Phase r) (Rv_Draft r) (Rv_Snapshot r) (Rv_Approval r)
    (Rv_Recipients r) (Rv_Outcome r) (Rv_CreatedAt r) (Rv_UpdatedAt r).

#[export] Instance Ticket_eta : Eta Ticket := fun t =>
  MkTicket (Tk_Key t) (Tk_Origin t) (Tk_Review t) (Tk_Closed t) (Tk_ClosedBy t) (Tk_Scope t)
    (Tk_Agent t) (Tk_RunAs t) (Tk_RequestedBy t) (Tk_AddressedBy t) (Tk_Current t)
    (Tk_Active t) (Tk_CreatedAt t) (Tk_UpdatedAt t).

Definition zeroContentRef : ContentRef := MkContentRef "" "".
Definition zeroRevision : Revision :=
  MkRevision zeroTicketRef "" zeroContentRef zeroContentRef None [] None 0 0.
Definition zeroTicket : Ticket :=
  MkTicket "" (MkOrigin "" "" "") (MkReviewRoom "" "") None "" zeroScope "" "" "" "" zeroRevision
    None 0 0.

(** [strings.TrimSpace(s) == ""]. *)
Definition blank (s : string) : bool := String.eqb (trim_space s) "".

(** One part of a key or an origin: present and bounded. *)
Definition bounded_part (part : string) : bool :=
  negb (blank part || (512 <? String.length part)%nat).

Definition Origin_Valid (o : Origin) : bool :=
  forallb bounded_part [O_Connection o; O_Conversation o; O_Root o].

Definition ContentRef_Valid (r : ContentRef) : bool :=
  negb (blank (CR_Ref r)) && negb (blank (CR_Digest r)).

Definition Execution_Valid (e : Execution) : bool :=
  TicketRef_Valid (Ex_Ref e) && negb (String.eqb (Ex_RunID e) "") &&
  (0 <? Ex_ApprovalAtSeq e)%Z && ContentRef_Valid (Ex_Snapshot e).

Definition ReviewRoom_Open (r : ReviewRoom) : bool :=
  negb (blank (RR_Conversation r)) && negb (blank (RR_Root r)).

(** The requests *)

Record OpenInput := MkOpenInput {
  OI_Key : TicketKey;
  OI_Origin : Origin;
  OI_Scope : Scope;
  OI_Agent : AgentID;
  OI_RunAs : UserID;
  OI_RequestedBy : UserID;
  OI_AddressedBy : string;
  OI_ReviewIn : string;
  OI_EventID : string;
  OI_Draft : ContentRef;
  OI_At : Time
}.

Record ReviseInput := MkReviseInput {
  RI_Ref : TicketRef;
  RI_InReview : bool;
  RI_EventID : string;
  RI_By : UserID;
  RI_Draft : ContentRef;
  RI_At : Time
}.

Record ApprovalInput := MkApprovalInput {
  AI_Ref : TicketRef;
  AI_RunID : RunID;
  AI_AtSeq : Z;
  AI_Snapshot : ContentRef;
  AI_At : Time
}.

Record InspectionInput := MkInspectionInput {
  II_Ref : TicketRef;
  II_Snapshot : ContentRef;
  II_At : Time
}.

Record AddressInput := MkAddressInput {
  DI_Ref : TicketRef;
  DI_EventID : string;
  DI_By : string;
  DI_Recipients : list UserID;
  DI_At : Time
}.

Record ClaimInput := MkClaimInput {
  KI_Ref : TicketRef;
  KI_RunID : RunID;
  KI_ApprovalAtSeq : Z;
  KI_At : Time
}.

Record FinishInput := MkFinishInput {
  FI_Execution : Execution;
  FI_Phase : Phase;
  FI_Result : ContentRef;
  FI_At : Time
}.

Record AttentionInput := MkAttentionInput {
  NI_Execution : Execution;
  NI_Result : ContentRef;
  NI_At : Time
}.

Record CloseInput := MkCloseInput {
  CI_Ref : TicketRef;
  CI_Phase : Phase;
  CI_Result : ContentRef;
  CI_At : Time
}.

Record CloseTicketInput := MkCloseTicketInput {
  CT_Key : TicketKey;
  CT_By : UserID;
  CT_At : Time
}.

Record OutcomeNotice := MkOutcomeNotice {
  ON_Ref : TicketRef;
  ON_Origin : Origin;
  ON_Review : ReviewRoom;
  ON_Phase : Phase;
  ON_Result : ContentRef
}.

Record ApprovalRoute := MkApprovalRoute {
  AR_Origin : Origin;
  AR_Review : ReviewRoom;
  AR_Recipients : list UserID
}.

Record ReviewNotice := MkReviewNotice {
  RN_Key : TicketKey;
  RN_Origin : Origin;
  RN_Conversation : string;
  RN_Scope : Scope;
  RN_RequestedBy : UserID
}.

Record ExternalAttemptInput := MkExternalAttemptInput {
  EA_IdemKey : string;
  EA_Kind : string;
  EA_CallSeq : Z;
  EA_Instance : string;
  EA_Scope : Scope;
  EA_ContractDigest : string;
  EA_TargetID : string;
  EA_DecidedBy : UserID;
  EA_NextCheckAt : Time;
  EA_DeadlineAt : Time;
  EA_ClaimedBy : string;
  EA_ClaimedUntil : Time
}.

Record ClaimAttemptInput := MkClaimAttemptInput {
  KA_Claim : ClaimInput;
  KA_Attempt : ExternalAttemptInput
}.

Record ExternalAttempt := MkExternalAttempt {
  XA_Input : ExternalAttemptInput;
  XA_Execution : Execution;
  XA_CreatedAt : Time;
  XA_UpdatedAt : Time
}.

Definition zeroAttempt : ExternalAttempt :=
  MkExternalAttempt (MkExternalAttemptInput "" "" 0 "" zeroScope "" "" "" 0 0 "" 0)
    (MkExecution zeroTicketRef "" 0 zeroContentRef) 0 0.

#[export] Instance OutcomeNotice_eq_dec : EqDecision OutcomeNotice.
Proof. solve_decision. Defined.
#[export] Instance ReviewNotice_eq_dec : EqDecision ReviewNotice.
Proof. solve_decision. Defined.

(** ** Validation (validation.go, attempt.go) *)

(** The length-prefixed name of a thread. *)
Fixpoint key_parts (parts : list string) : option string :=
  match parts with
  | [] => Some ""
  | part :: rest =>
      if bounded_part part then
        match key_parts rest with
        | Some out => Some (print_Z (Z.of_nat (String.length part)) +:+ ":" +:+ part +:+ out)
        | None => None
        end
      else None
  end.

Definition Key (connection conversation root : string) : option TicketKey :=
  key_parts [connection; conversation; root].

Definition origin_key (o : Origin) : option TicketKey :=
  Key (O_Connection o) (O_Conversation o) (O_Root o).

Definition check (ok : bool) (why : string) : result TicketError unit :=
  guard_err ok (TErrInvalid why).

Definition validateOpen (i : OpenInput) : result TicketError unit :=
  _ ← check (negb (blank (OI_Key i) || negb (Origin_Valid (OI_Origin i)) ||
        negb (Scope_Valid (OI_Scope i)) || String.eqb (OI_Agent i) "" ||
        String.eqb (OI_RunAs i) "" || String.eqb (OI_RequestedBy i) "" ||
        blank (OI_EventID i) || negb (ContentRef_Valid (OI_Draft i)) || Time_IsZero (OI_At i)))
      "ticket: incomplete open request";
  _ ← check (bool_decide (origin_key (OI_Origin i) = Some (OI_Key i)))
      "ticket: key does not name its origin";
  let room := trim_space (OI_ReviewIn i) in
  check (negb (negb (String.eqb room (OI_ReviewIn i)) || (512 <? String.length room)%nat ||
           String.eqb room (O_Conversation (OI_Origin i))))
    "ticket: review room is not one other conversation".

Definition validateReviewClaim (owner : string) (now : Time) (lease : Duration) (limit : Z)
    : result TicketError unit :=
  check (negb (blank owner || Time_IsZero now || (lease <=? 0)%Z || (limit <=? 0)%Z))
    "ticket: incomplete review claim".

Definition validateReviewMark (key : TicketKey) (root owner : string) (at_ : Time)
    : result TicketError unit :=
  check (negb (blank key || blank root || (512 <? String.length root)%nat || blank owner ||
           Time_IsZero at_))
    "ticket: incomplete review thread".

Definition validateRevise (i : ReviseInput) : result TicketError unit :=
  check (negb (negb (TicketRef_Valid (RI_Ref i)) || blank (RI_EventID i) ||
           String.eqb (RI_By i) "" || negb (ContentRef_Valid (RI_Draft i)) ||
           Time_IsZero (RI_At i)))
    "ticket: incomplete revision".

Definition requireReviser (t : Ticket) (i : ReviseInput) : result TicketError unit :=
  if RI_InReview i then guard_err (ReviewRoom_Open (Tk_Review t)) TErrNotRequester
  else guard_err (String.eqb (Tk_RequestedBy t) (RI_By i)) TErrNotRequester.

Definition validateApproval (i : ApprovalInput) : result TicketError unit :=
  check (negb (negb (TicketRef_Valid (AI_Ref i)) || String.eqb (AI_RunID i) "" ||
           (AI_AtSeq i <=? 0)%Z || negb (ContentRef_Valid (AI_Snapshot i)) ||
           Time_IsZero (AI_At i)))
    "ticket: incomplete approval request".

Definition validateInspection (i : InspectionInput) : result TicketError unit :=
  check (negb (negb (TicketRef_Valid (II_Ref i)) || negb (ContentRef_Valid (II_Snapshot i)) ||
           Time_IsZero (II_At i)))
    "ticket: incomplete inspection".

Definition validateAddress (i : AddressInput) : result TicketError (list UserID) :=
  _ ← check (negb (negb (TicketRef_Valid (DI_Ref i)) || blank (DI_EventID i) || blank (DI_By i) ||
        Time_IsZero (DI_At i) || (20 <? List.length (DI_Recipients i))%nat))
      "ticket: incomplete addressing request";
  _ ← check (forallb (fun r => negb (blank r)) (DI_Recipients i)) "ticket: empty recipient";
  mret (sort_compact (DI_Recipients i)).

Definition validateClaim (i : ClaimInput) : result TicketError unit :=
  check (negb (negb (TicketRef_Valid (KI_Ref i)) || String.eqb (KI_RunID i) "" ||
           (KI_ApprovalAtSeq i <=? 0)%Z || Time_IsZero (KI_At i)))
    "ticket: incomplete execution claim".

Definition validateFinish (i : FinishInput) : result TicketError unit :=
  check (negb (negb (Execution_Valid (FI_Execution i)) || negb (ContentRef_Valid (FI_Result i)) ||
           Time_IsZero (FI_At i) ||
           (negb (String.eqb (FI_Phase i) TPhaseCompleted) &&
            negb (String.eqb (FI_Phase i) TPhaseRejected))))
    "ticket: incomplete execution result".

Definition validateAttention (i : AttentionInput) : result TicketError unit :=
  check (negb (negb (Execution_Valid (NI_Execution i)) || negb (ContentRef_Valid (NI_Result i)) ||
           Time_IsZero (NI_At i)))
    "ticket: incomplete manual intervention result".

Definition validateClose (i : CloseInput) : result TicketError unit :=
  check (negb (negb (TicketRef_Valid (CI_Ref i)) || negb (ContentRef_Valid (CI_Result i)) ||
           Time_IsZero (CI_At i) ||
           (negb (String.eqb (CI_Phase i) TPhaseRejected) &&
            negb (String.eqb (CI_Phase i) TPhaseCancelled))))
    "ticket: incomplete terminal result".

Definition validateOutcomeClaim (owner : string) (now : Time) (lease : Duration) (limit : Z)
    : result TicketError unit :=
  check (negb (blank owner || Time_IsZero now || (lease <=? 0)%Z || (limit <=? 0)%Z ||
           (100 <? limit)%Z))
    "ticket: invalid outcome claim".

Definition validateOutcomeMark (ref : TicketRef) (owner : string) (at_ : Time)
    : result TicketError unit :=
  check (negb (negb (TicketRef_Valid ref) || blank owner || Time_IsZero at_))
    "ticket: invalid outcome announcement".

Definition validateSupersededMark (ref : TicketRef) (at_ : Time) : result TicketError unit :=
  check (negb (negb (TicketRef_Valid ref) || Time_IsZero at_))
    "ticket: invalid superseded approval mark".

Definition requireCurrent (t : Ticket) (ref : TicketRef) : result TicketError unit :=
  guard_err (bool_decide (Rv_Ref (Tk_Current t) = ref))
    (TErrMoved (Some (TR_Revision (Rv_Ref (Tk_Current t))))).

Definition requireMutable (t : Ticket) (ref : TicketRef) : result TicketError unit :=
  _ ← requireCurrent t ref;
  guard_err (bool_decide (Tk_Closed t = None)) TErrClosed.

Definition validateCloseTicket (i : CloseTicketInput) : result TicketError unit :=
  check (negb (blank (CT_Key i) || String.eqb (CT_By i) "" || Time_IsZero (CT_At i)))
    "ticket: incomplete close".

Definition validateClaimAttempt (i : ClaimAttemptInput) : result TicketError unit :=
  _ ← validateClaim (KA_Claim i);
  let a := KA_Attempt i in
  check (negb (blank (EA_IdemKey a) || blank (EA_Kind a) || (EA_CallSeq a <=? 0)%Z ||
           blank (EA_Instance a) || negb (Scope_Valid (EA_Scope a)) ||
           blank (EA_ContractDigest a) || blank (EA_TargetID a) ||
           String.eqb (EA_DecidedBy a) "" || Time_IsZero (EA_NextCheckAt a) ||
           Time_After (EA_NextCheckAt a) (EA_DeadlineAt a) || blank (EA_ClaimedBy a) ||
           negb (Time_After (EA_ClaimedUntil a) (KI_At (KA_Claim i)))))
    "ticket: incomplete external attempt".

Definition attemptFor (e : Execution) (i : ClaimAttemptInput) : ExternalAttempt :=
  MkExternalAttempt (KA_Attempt i) e (KI_At (KA_Claim i)) (KI_At (KA_Claim i)).

Definition sameExternalAttempt (a b : ExternalAttempt) : bool :=
  let x := XA_Input a in let y := XA_Input b in
  String.eqb (EA_IdemKey x) (EA_IdemKey y) && String.eqb (EA_Kind x) (EA_Kind y) &&
  Z.eqb (EA_CallSeq x) (EA_CallSeq y) && String.eqb (EA_Instance x) (EA_Instance y) &&
  bool_decide (EA_Scope x = EA_Scope y) &&
  String.eqb (EA_ContractDigest x) (EA_ContractDigest y) &&
  String.eqb (EA_TargetID x) (EA_TargetID y) && String.eqb (EA_DecidedBy x) (EA_DecidedBy y) &&
  Z.eqb (EA_DeadlineAt x) (EA_DeadlineAt y) &&
  bool_decide (XA_Execution a = XA_Execution b).

(** ** The store (memory.go) *)

(** [outcomeClaim] and [reviewClaim]: who holds a notice, and until when. *)
Record noticeClaim := MkNoticeClaim { nc_owner : string; nc_until : Time }.

Definition zeroNoticeClaim : noticeClaim := MkNoticeClaim "" 0.

Record TicketMemory := MkTicketMemory {
  tm_tickets : gmap TicketKey Ticket;
  tm_revisions : gmap TicketKey (gmap Z Revision);
  tm_events : gmap string TicketRef;
  tm_attempts : gmap string ExternalAttempt;
  tm_outcomeClaims : gmap TicketRef noticeClaim;
  tm_reviewClaims : gmap TicketKey noticeClaim;
  tm_announced : gset TicketRef;
  tm_superseded : gset TicketRef
}.

#[export] Instance TicketMemory_eta : Eta TicketMemory := fun m =>
  MkTicketMemory (tm_tickets m) (tm_revisions m) (tm_events m) (tm_attempts m)
    (tm_outcomeClaims m) (tm_reviewClaims m) (tm_announced m) (tm_superseded m).

Definition NewTicketMemory : TicketMemory := MkTicketMemory ∅ ∅ ∅ ∅ ∅ ∅ ∅ ∅.

(** What an operation did: it returned, leaving the store as it is now, or it
    assigned into a nil map. *)
Inductive ran (A : Type) :=
| Done (a : A) (m : TicketMemory)
| Panicked.

Arguments Done {A} a m.
Arguments Panicked {A}.

(** The three values a ticket operation returns. *)
Definition answer : Type := Ticket * bool * option TicketError.

Definition refuse (e : TicketError) : answer := (zeroTicket, false, Some e).

(** [if err != nil { return Ticket{}, false, err }]. *)
Definition or_refuse {A} (m : TicketMemory) (r : result TicketError A) (k : A -> ran answer)
    : ran answer :=
  match r with Ok a => k a | Err e => Done (refuse e) m end.

(** Reading [m.revisions[key][n]]. *)
Definition revision_at (m : TicketMemory) (ref : TicketRef) : option Revision :=
  tm_revisions m !! TR_Key ref ≫= fun rs => rs !! TR_Revision ref.

(** Assigning to [m.revisions[key][n]]. *)
Definition put_revision {A} (m : TicketMemory) (key : TicketKey) (n : Z) (r : Revision)
    (k : TicketMemory -> ran A) : ran A :=
  match tm_revisions m !! key with
  | None => Panicked
  | Some rs => k (m <| tm_revisions := <[key := <[n := r]> rs]> (tm_revisions m) |>)
  end.

Definition put_ticket (m : TicketMemory) (key : TicketKey) (t : Ticket) : TicketMemory :=
  m <| tm_tickets := <[key := t]> (tm_tickets m) |>.

(** *** Opening *)

Definition open_in (scope : Scope) (held : Ticket) : bool :=
  bool_decide (Tk_Scope held = scope) && bool_decide (Tk_Closed held = None).

(** How many of a scope's tickets are open: the count does not depend on the
    order the map is visited in. *)
Definition open_count (m : TicketMemory) (scope : Scope) : nat :=
  List.length (List.filter (open_in scope) ((map_to_list (tm_tickets m)).*2)).

Definition opened (i : OpenInput) : Ticket :=
  let revision := MkRevision (MkTicketRef (OI_Key i) 1) TPhaseCollecting (OI_Draft i) zeroContentRef
    None [] None (OI_At i) (OI_At i) in
  MkTicket (OI_Key i) (OI_Origin i) (MkReviewRoom (OI_ReviewIn i) "") None "" (OI_Scope i)
    (OI_Agent i) (OI_RunAs i) (OI_RequestedBy i) (OI_AddressedBy i) revision None
    (OI_At i) (OI_At i).

Definition Open (cancelled : bool) (i : OpenInput) (m : TicketMemory) : ran answer :=
  if cancelled then Done (refuse TErrContext) m
  else or_refuse m (validateOpen i) (fun _ =>
    match tm_events m !! OI_EventID i with
    | Some ref =>
        if negb (String.eqb (TR_Key ref) (OI_Key i)) then Done (refuse TErrEventTaken) m
        else Done (default zeroTicket (tm_tickets m !! OI_Key i), false, None) m
    | None =>
        match tm_tickets m !! OI_Key i with
        | Some current => Done (current, false, Some (TErrMoved None)) m
        | None =>
            if (MaxOpenPerScope <=? Z.of_nat (open_count m (OI_Scope i)))%Z
            then Done (refuse TErrTooManyOpen) m
            else
              let t := opened i in
              Done (t, true, None)
                (m <| tm_tickets := <[OI_Key i := t]> (tm_tickets m) |>
                   <| tm_revisions := <[OI_Key i := {[1%Z := Tk_Current t]}]> (tm_revisions m) |>
                   <| tm_events := <[OI_EventID i := MkTicketRef (OI_Key i) 1]> (tm_events m) |>)
        end
    end).

(** *** Reading

    Where the source ranges over the map of tickets and returns the first that
    fits, [visit] is the order the range took. *)

Definition AtOrigin (cancelled : bool) (o : Origin) (visit : list Ticket)
    : result TicketError Ticket :=
  if cancelled then Err TErrContext
  else match List.find (fun held => bool_decide (Tk_Origin held = o)) visit with
       | Some held => Ok held
       | None => Err TErrNotFound
       end.

Definition at_review (o : Origin) (held : Ticket) : bool :=
  String.eqb (O_Connection (Tk_Origin held)) (O_Connection o) &&
  String.eqb (RR_Conversation (Tk_Review held)) (O_Conversation o) &&
  String.eqb (RR_Root (Tk_Review held)) (O_Root o) && ReviewRoom_Open (Tk_Review held).

Definition AtReview (cancelled : bool) (o : Origin) (visit : list Ticket)
    : result TicketError Ticket :=
  if cancelled then Err TErrContext
  else if negb (Origin_Valid o) then Err TErrNotFound
  else match List.find (at_review o) visit with
       | Some held => Ok held
       | None => Err TErrNotFound
       end.

Definition found {A} (o : option A) : result TicketError A :=
  match o with Some a => Ok a | None => Err TErrNotFound end.

Definition CurrentTicket (cancelled : bool) (key : TicketKey) (m : TicketMemory)
    : result TicketError Ticket :=
  if cancelled then Err TErrContext else found (tm_tickets m !! key).

Definition ReadRevision (cancelled : bool) (ref : TicketRef) (m : TicketMemory)
    : result TicketError Revision :=
  if cancelled then Err TErrContext else found (revision_at m ref).

(** The loop [for revision := 1; revision < current; revision++]. *)
Definition superseded_at (m : TicketMemory) (key : TicketKey) (n : Z) : option SupersededApproval :=
  match revision_at m (MkTicketRef key n) with
  | Some stored =>
      match Rv_Approval stored with
      | Some a =>
          if String.eqb (Rv_Phase stored) TPhaseCancelled &&
             negb (bool_decide (Rv_Ref stored ∈ tm_superseded m))
          then Some (MkSupersededApproval (Rv_Ref stored) a) else None
      | None => None
      end
  | None => None
  end.

Definition SupersededApprovals (cancelled : bool) (current : TicketRef) (m : TicketMemory)
    : result TicketError (list SupersededApproval) :=
  if cancelled then Err TErrContext
  else if negb (TicketRef_Valid current) then Err TErrNotFound
  else Ok (omap (superseded_at m (TR_Key current)) (seqZ 1 (TR_Revision current - 1))).

Definition approvalRoute (cancelled : bool) (ref : TicketRef) (m : TicketMemory)
    : result TicketError ApprovalRoute :=
  if cancelled then Err TErrContext
  else held ← found (tm_tickets m !! TR_Key ref);
       revision ← found (revision_at m ref);
       mret (MkApprovalRoute (Tk_Origin held) (Tk_Review held) (Rv_Recipients revision)).

Definition EventRevision (cancelled : bool) (eventID : string) (m : TicketMemory)
    : result TicketError (Ticket * Revision) :=
  if cancelled then Err TErrContext
  else ref ← found (tm_events m !! eventID);
       held ← found (tm_tickets m !! TR_Key ref);
       revision ← found (revision_at m ref);
       mret (held, revision).

Definition MarkApprovalSuperseded (cancelled : bool) (ref : TicketRef) (at_ : Time)
    (m : TicketMemory) : ran (option TicketError) :=
  match validateSupersededMark ref at_ with
  | Err e => Done (Some e) m
  | Ok _ =>
      if cancelled then Done (Some TErrContext) m
      else match revision_at m ref with
           | None => Done (Some TErrNotFound) m
           | Some revision =>
               if negb (String.eqb (Rv_Phase revision) TPhaseCancelled) ||
                  bool_decide (Rv_Approval revision = None)
               then Done (Some (TErrMoved None)) m
               else Done None (m <| tm_superseded := {[ref]} ∪ tm_superseded m |>)
           end
  end.

(** *** Helpers (memory_execution.go) *)

Definition ticketFor (cancelled : bool) (key : TicketKey) (m : TicketMemory)
    : result TicketError Ticket :=
  if cancelled then Err TErrContext else found (tm_tickets m !! key).

Definition currentFor (cancelled : bool) (ref : TicketRef) (m : TicketMemory)
    : result TicketError Ticket :=
  t ← ticketFor cancelled (TR_Key ref) m;
  _ ← requireCurrent t ref;
  mret t.

Definition putCurrent {A} (m : TicketMemory) (t : Ticket) (k : TicketMemory -> ran A) : ran A :=
  put_revision (put_ticket m (Tk_Key t) t) (Tk_Key t) (TR_Revision (Rv_Ref (Tk_Current t)))
    (Tk_Current t) k.

Definition existingClaim (t : Ticket) (active : Execution) (i : ClaimInput) : answer :=
  if bool_decide (Ex_Ref active = KI_Ref i) && String.eqb (Ex_RunID active) (KI_RunID i) &&
     Z.eqb (Ex_ApprovalAtSeq active) (KI_ApprovalAtSeq i)
  then (t, false, None)
  else refuse TErrExecutionActive.

Definition phaseError (p : Phase) : TicketError :=
  if phase_terminal p then TErrTerminal (Some p) else TErrPhase p.

Definition sameOutcome (o : option TicketOutcome) (p : Phase) (r : ContentRef) : bool :=
  match o with
  | Some o => String.eqb (TO_Phase o) p && bool_decide (TO_Result o = r)
  | None => false
  end.

(** *** Corrections (memory_revision.go) *)

Record revisionChange := MkRevisionChange {
  rc_eventID : string;
  rc_draft : ContentRef;
  rc_recipients : list UserID;
  rc_at : Time
}.

Definition replayed (m : TicketMemory) (eventID : string) (key : TicketKey)
    : result TicketError bool :=
  match tm_events m !! eventID with
  | None => Ok false
  | Some ref => if negb (String.eqb (TR_Key ref) key) then Err TErrEventTaken else Ok true
  end.

(** Whether the revision being replaced is cancelled by its replacement. *)
Definition cancels (p : Phase) : bool :=
  negb (String.eqb p TPhaseExecuting) && negb (String.eqb p TPhaseNeedsAttention) &&
  negb (phase_terminal p).

Definition next_revision (t : Ticket) (c : revisionChange) : Revision :=
  MkRevision (MkTicketRef (Tk_Key t) (add64 (TR_Revision (Rv_Ref (Tk_Current t))) 1))
    TPhaseCollecting (rc_draft c) zeroContentRef None (rc_recipients c) None (rc_at c) (rc_at c).

Definition cancel_previous {A} (m : TicketMemory) (t : Ticket) (at_ : Time)
    (k : TicketMemory -> ran A) : ran A :=
  if cancels (Rv_Phase (Tk_Current t)) then
    let previous := (Tk_Current t) <| Rv_Phase := TPhaseCancelled |> <| Rv_UpdatedAt := at_ |> in
    put_revision m (Tk_Key t) (TR_Revision (Rv_Ref previous)) previous k
  else k m.

Definition replace (m : TicketMemory) (t : Ticket) (c : revisionChange) : ran answer :=
  cancel_previous m t (rc_at c) (fun m =>
    let revision := next_revision t c in
    let t := t <| Tk_Current := revision |> <| Tk_UpdatedAt := rc_at c |> in
    put_revision (put_ticket m (Tk_Key t) t) (Tk_Key t) (TR_Revision (Rv_Ref revision)) revision
      (fun m => Done (t, true, None)
         (m <| tm_events := <[rc_eventID c := Rv_Ref revision]> (tm_events m) |>))).

(** [if replayed, err := m.replayed(..); err != nil || replayed { return }]. *)
Definition unless_replayed (m : TicketMemory) (t : Ticket) (eventID : string) (key : TicketKey)
    (k : ran answer) : ran answer :=
  match replayed m eventID key with
  | Err e => Done (t, false, Some e) m
  | Ok true => Done (t, false, None) m
  | Ok false => k
  end.

Definition Revise (cancelled : bool) (i : ReviseInput) (m : TicketMemory) : ran answer :=
  or_refuse m (validateRevise i) (fun _ =>
  or_refuse m (ticketFor cancelled (TR_Key (RI_Ref i)) m) (fun t =>
  or_refuse m (requireReviser t i) (fun _ =>
  unless_replayed m t (RI_EventID i) (TR_Key (RI_Ref i)) (
  or_refuse m (requireMutable t (RI_Ref i)) (fun _ =>
  replace m t (MkRevisionChange (RI_EventID i) (RI_Draft i) (Rv_Recipients (Tk_Current t))
                 (RI_At i))))))).

Definition Address (cancelled : bool) (i : AddressInput) (m : TicketMemory) : ran answer :=
  or_refuse m (validateAddress i) (fun recipients =>
  or_refuse m (ticketFor cancelled (TR_Key (DI_Ref i)) m) (fun t =>
  or_refuse m (guard_err (negb (String.eqb (Tk_AddressedBy t) "") &&
                          String.eqb (Tk_AddressedBy t) (DI_By i)) TErrNotAddressSource) (fun _ =>
  unless_replayed m t (DI_EventID i) (TR_Key (DI_Ref i)) (
  or_refuse m (requireMutable t (DI_Ref i)) (fun _ =>
  if bool_decide (Rv_Recipients (Tk_Current t) = recipients)
  then Done (t, false, None) (m <| tm_events := <[DI_EventID i := DI_Ref i]> (tm_events m) |>)
  else replace m t (MkRevisionChange (DI_EventID i) (Rv_Draft (Tk_Current t)) recipients
                      (DI_At i))))))).

(** *** Inspection, approval and execution (memory_execution.go) *)

Definition RecordInspection (cancelled : bool) (i : InspectionInput) (m : TicketMemory)
    : ran answer :=
  or_refuse m (validateInspection i) (fun _ =>
  or_refuse m (currentFor cancelled (II_Ref i) m) (fun t =>
  if negb (String.eqb (Rv_Phase (Tk_Current t)) TPhaseCollecting)
  then Done (refuse (phaseError (Rv_Phase (Tk_Current t)))) m
  else if bool_decide (Rv_Snapshot (Tk_Current t) = II_Snapshot i) then Done (t, false, None) m
  else
    let t := t <| Tk_Current := (Tk_Current t) <| Rv_Snapshot := II_Snapshot i |>
                                             <| Rv_UpdatedAt := II_At i |> |>
               <| Tk_UpdatedAt := II_At i |> in
    putCurrent m t (Done (t, true, None)))).

Definition AwaitApproval (cancelled : bool) (i : ApprovalInput) (m : TicketMemory) : ran answer :=
  or_refuse m (validateApproval i) (fun _ =>
  or_refuse m (currentFor cancelled (AI_Ref i) m) (fun t =>
  let approval := MkApproval (AI_RunID i) (AI_AtSeq i) (AI_Snapshot i) in
  if String.eqb (Rv_Phase (Tk_Current t)) TPhaseAwaitingApproval &&
     bool_decide (Rv_Approval (Tk_Current t) = Some approval)
  then Done (t, false, None) m
  else if negb (String.eqb (Rv_Phase (Tk_Current t)) TPhaseCollecting)
  then Done (refuse (phaseError (Rv_Phase (Tk_Current t)))) m
  else if negb (bool_decide (Rv_Snapshot (Tk_Current t) = AI_Snapshot i))
  then Done (refuse TErrSnapshotMoved) m
  else
    let t := t <| Tk_Current := (Tk_Current t) <| Rv_Phase := TPhaseAwaitingApproval |>
                                             <| Rv_Approval := Some approval |>
                                             <| Rv_UpdatedAt := AI_At i |> |>
               <| Tk_UpdatedAt := AI_At i |> in
    putCurrent m t (Done (t, true, None)))).

(** The approval a claim names, when the current revision waits on it. *)
Definition approval_for (t : Ticket) (i : ClaimInput) : result TicketError Approval :=
  let refusal := phaseError (Rv_Phase (Tk_Current t)) in
  match Rv_Approval (Tk_Current t) with
  | None => Err refusal
  | Some a =>
      if negb (String.eqb (Rv_Phase (Tk_Current t)) TPhaseAwaitingApproval) ||
         negb (String.eqb (Ap_RunID a) (KI_RunID i)) ||
         negb (Z.eqb (Ap_AtSeq a) (KI_ApprovalAtSeq i))
      then Err refusal else Ok a
  end.

Definition execution_of (i : ClaimInput) (a : Approval) : Execution :=
  MkExecution (KI_Ref i) (KI_RunID i) (KI_ApprovalAtSeq i) (Ap_Snapshot a).

Definition start_execution (t : Ticket) (e : Execution) (at_ : Time) : Ticket :=
  t <| Tk_Active := Some e |>
    <| Tk_Current := (Tk_Current t) <| Rv_Phase := TPhaseExecuting |> <| Rv_UpdatedAt := at_ |> |>
    <| Tk_UpdatedAt := at_ |>.

Definition ClaimExecution (cancelled : bool) (i : ClaimInput) (m : TicketMemory) : ran answer :=
  or_refuse m (validateClaim i) (fun _ =>
  or_refuse m (ticketFor cancelled (TR_Key (KI_Ref i)) m) (fun t =>
  match Tk_Active t with
  | Some active => Done (existingClaim t active i) m
  | None =>
      or_refuse m (requireCurrent t (KI_Ref i)) (fun _ =>
      or_refuse m (approval_for t i) (fun approval =>
      let t := start_execution t (execution_of i approval) (KI_At i) in
      putCurrent m t (Done (t, true, None))))
  end)).

Definition attempt_answer : Type := Ticket * ExternalAttempt * bool * option TicketError.

Definition refuse_attempt (e : TicketError) : attempt_answer :=
  (zeroTicket, zeroAttempt, false, Some e).

(** Whether a stored attempt belongs to the revision. *)
Definition attempted (m : TicketMemory) (ref : TicketRef) : bool :=
  existsb (fun stored => bool_decide (Ex_Ref (XA_Execution stored) = ref))
    ((map_to_list (tm_attempts m)).*2).

Definition ClaimExecutionWithAttempt (cancelled : bool) (i : ClaimAttemptInput) (m : TicketMemory)
    : ran attempt_answer :=
  match validateClaimAttempt i ≫= fun _ => ticketFor cancelled (TR_Key (KI_Ref (KA_Claim i))) m with
  | Err e => Done (refuse_attempt e) m
  | Ok t =>
      let key := EA_IdemKey (KA_Attempt i) in
      match Tk_Active t with
      | Some active =>
          match existingClaim t active (KA_Claim i) with
          | (_, _, Some e) => Done (refuse_attempt e) m
          | _ =>
              match tm_attempts m !! key with
              | Some stored =>
                  if sameExternalAttempt stored (attemptFor active i)
                  then Done (t, stored, false, None) m
                  else Done (refuse_attempt TErrAttemptConflict) m
              | None => Done (refuse_attempt TErrAttemptConflict) m
              end
          end
      | None =>
          if bool_decide (is_Some (tm_attempts m !! key))
          then Done (refuse_attempt TErrAttemptConflict) m
          else match requireCurrent t (KI_Ref (KA_Claim i)) ≫= fun _ => approval_for t (KA_Claim i) with
               | Err e => Done (refuse_attempt e) m
               | Ok approval =>
                   let execution := execution_of (KA_Claim i) approval in
                   let attempt := attemptFor execution i in
                   if attempted m (Ex_Ref execution)
                   then Done (refuse_attempt TErrAttemptConflict) m
                   else
                     let t := start_execution t execution (KI_At (KA_Claim i)) in
                     putCurrent (m <| tm_attempts := <[key := attempt]> (tm_attempts m) |>) t
                       (Done (t, attempt, true, None))
               end
      end
  end.

Definition CloseRevision (cancelled : bool) (i : CloseInput) (m : TicketMemory) : ran answer :=
  or_refuse m (validateClose i) (fun _ =>
  or_refuse m (currentFor cancelled (CI_Ref i) m) (fun t =>
  if sameOutcome (Rv_Outcome (Tk_Current t)) (CI_Phase i) (CI_Result i)
  then Done (t, false, None) m
  else if bool_decide (Ex_Ref <$> Tk_Active t = Some (CI_Ref i))
  then Done (refuse TErrExecutionActive) m
  else if phase_terminal (Rv_Phase (Tk_Current t)) then Done (refuse (TErrTerminal None)) m
  else
    let t := t <| Tk_Current := (Tk_Current t)
                    <| Rv_Phase := CI_Phase i |>
                    <| Rv_Outcome := Some (MkTicketOutcome (CI_Phase i) (CI_Result i)) |>
                    <| Rv_UpdatedAt := CI_At i |> |>
               <| Tk_UpdatedAt := CI_At i |> in
    putCurrent m t (Done (t, true, None)))).

(** The revision an execution is for: the zero value when there is none. *)
Definition settled_revision (m : TicketMemory) (ref : TicketRef) (p : Phase) (r : ContentRef)
    (at_ : Time) : Revision :=
  (default zeroRevision (revision_at m ref))
    <| Rv_Phase := p |> <| Rv_Outcome := Some (MkTicketOutcome p r) |> <| Rv_UpdatedAt := at_ |>.

(** What [FinishExecution] and [MarkExecutionNeedsAttention] write alike: the
    revision, its notice owed again, and the ticket. *)
Definition settle_execution (m : TicketMemory) (t : Ticket) (ref : TicketRef) (revision : Revision)
    : ran (Ticket * option TicketError) :=
  put_revision m (TR_Key ref) (TR_Revision ref) revision (fun m =>
    let t := if bool_decide (Rv_Ref (Tk_Current t) = ref)
             then t <| Tk_Current := revision |> else t in
    Done (t, None)
      (put_ticket (m <| tm_announced := tm_announced m ∖ {[ref]} |>
                     <| tm_outcomeClaims := delete ref (tm_outcomeClaims m) |>)
         (TR_Key ref) t)).

Definition FinishExecution (cancelled : bool) (i : FinishInput) (m : TicketMemory)
    : ran (Ticket * option TicketError) :=
  let ref := Ex_Ref (FI_Execution i) in
  match validateFinish i ≫= fun _ => ticketFor cancelled (TR_Key ref) m with
  | Err e => Done (zeroTicket, Some e) m
  | Ok t =>
      match Tk_Active t with
      | None =>
          if sameOutcome (revision_at m ref ≫= Rv_Outcome) (FI_Phase i) (FI_Result i)
          then Done (t, None) m else Done (zeroTicket, Some (TErrMoved None)) m
      | Some active =>
          if negb (bool_decide (active = FI_Execution i))
          then Done (zeroTicket, Some TErrExecutionActive) m
          else
            settle_execution m (t <| Tk_Active := None |> <| Tk_UpdatedAt := FI_At i |>) ref
              (settled_revision m ref (FI_Phase i) (FI_Result i) (FI_At i))
      end
  end.

(** *** Attention (memory_attention.go) and closing (memory_closing.go) *)

Definition MarkExecutionNeedsAttention (cancelled : bool) (i : AttentionInput) (m : TicketMemory)
    : ran (Ticket * option TicketError) :=
  let ref := Ex_Ref (NI_Execution i) in
  match validateAttention i ≫= fun _ => ticketFor cancelled (TR_Key ref) m with
  | Err e => Done (zeroTicket, Some e) m
  | Ok held =>
      if negb (bool_decide (Tk_Active held = Some (NI_Execution i)))
      then Done (zeroTicket, Some TErrExecutionActive) m
      else if sameOutcome (Rv_Outcome (default zeroRevision (revision_at m ref)))
                TPhaseNeedsAttention (NI_Result i)
      then Done (held, None) m
      else settle_execution m (held <| Tk_UpdatedAt := NI_At i |>) ref
             (settled_revision m ref TPhaseNeedsAttention (NI_Result i) (NI_At i))
  end.

Definition CloseTicket (cancelled : bool) (i : CloseTicketInput) (m : TicketMemory) : ran answer :=
  or_refuse m (validateCloseTicket i) (fun _ =>
  if cancelled then Done (refuse TErrContext) m
  else match tm_tickets m !! CT_Key i with
       | None => Done (refuse TErrNotFound) m
       | Some held =>
           match Tk_Closed held with
           | Some _ => Done (held, false, None) m
           | None =>
               let held := held <| Tk_Closed := Some (CT_At i) |> <| Tk_ClosedBy := CT_By i |>
                                <| Tk_UpdatedAt := CT_At i |> in
               Done (held, true, None) (put_ticket m (CT_Key i) held)
           end
       end).

(** ** Notices owed (memory.go, memory_review.go) *)

Definition ref_before (a b : TicketRef) : bool :=
  match String.compare (TR_Key a) (TR_Key b) with
  | Lt => true
  | Eq => (TR_Revision a <? TR_Revision b)%Z
  | Gt => false
  end.

(** A claim still running. *)
Definition lease_runs (c : noticeClaim) (now : Time) : bool :=
  negb (String.eqb (nc_owner c) "") && Time_After (nc_until c) now.

Definition announces (p : Phase) : bool :=
  String.eqb p TPhaseCompleted || String.eqb p TPhaseRejected || String.eqb p TPhaseNeedsAttention.

(** The notice one revision owes, if any. *)
Definition outcome_owed (m : TicketMemory) (now : Time) (key : TicketKey) (revision : Revision)
    : option OutcomeNotice :=
  let ref := Rv_Ref revision in
  match Rv_Outcome revision with
  | None => None
  | Some o =>
      if bool_decide (ref ∈ tm_announced m) || negb (announces (Rv_Phase revision)) then None
      else if lease_runs (default zeroNoticeClaim (tm_outcomeClaims m !! ref)) now then None
      else let t := default zeroTicket (tm_tickets m !! key) in
           Some (MkOutcomeNotice ref (Tk_Origin t) (Tk_Review t) (Rv_Phase revision) (TO_Result o))
  end.

(** Every stored revision with its ticket's key, in some order. *)
Definition all_revisions (m : TicketMemory) : list (TicketKey * Revision) :=
  map_to_list (tm_revisions m) ≫= fun kr => map (fun nr => (kr.1, nr.2)) (map_to_list kr.2).

Definition claim_outcomes (owner : string) (until : Time) (taken : list OutcomeNotice)
    (claims : gmap TicketRef noticeClaim) : gmap TicketRef noticeClaim :=
  fold_left (fun c n => <[ON_Ref n := MkNoticeClaim owner until]> c) taken claims.

(** [visit] is the order the nested ranges took. *)
Definition outcomes_from (visit : list (TicketKey * Revision)) (now : Time) (limit : Z)
    (m : TicketMemory) : list OutcomeNotice :=
  take (Z.to_nat limit)
    (sort_by (fun a b => ref_before (ON_Ref a) (ON_Ref b))
       (omap (fun kr => outcome_owed m now kr.1 kr.2) visit)).

Definition ClaimOutcomes (cancelled : bool) (owner : string) (now : Time) (lease : Duration)
    (limit : Z) (m : TicketMemory) : ran (result TicketError (list OutcomeNotice)) :=
  match validateOutcomeClaim owner now lease limit with
  | Err e => Done (Err e) m
  | Ok _ =>
      if cancelled then Done (Err TErrContext) m
      else
        let available := outcomes_from (all_revisions m) now limit m in
        Done (Ok available)
          (m <| tm_outcomeClaims :=
                claim_outcomes owner (Time_Add now lease) available (tm_outcomeClaims m) |>)
  end.

Definition MarkOutcomeAnnounced (cancelled : bool) (ref : TicketRef) (owner : string) (at_ : Time)
    (m : TicketMemory) : ran (option TicketError) :=
  match validateOutcomeMark ref owner at_ with
  | Err e => Done (Some e) m
  | Ok _ =>
      if cancelled then Done (Some TErrContext) m
      else if bool_decide (ref ∈ tm_announced m) then Done None m
      else if negb (String.eqb (nc_owner (default zeroNoticeClaim (tm_outcomeClaims m !! ref))) owner)
      then Done (Some (TErrMoved None)) m
      else Done None (m <| tm_announced := {[ref]} ∪ tm_announced m |>
                        <| tm_outcomeClaims := delete ref (tm_outcomeClaims m) |>)
  end.

Definition review_owed (m : TicketMemory) (now : Time) (key : TicketKey) (held : Ticket)
    : option ReviewNotice :=
  if String.eqb (RR_Conversation (Tk_Review held)) "" ||
     negb (String.eqb (RR_Root (Tk_Review held)) "") then None
  else if lease_runs (default zeroNoticeClaim (tm_reviewClaims m !! key)) now then None
  else Some (MkReviewNotice key (Tk_Origin held) (RR_Conversation (Tk_Review held))
               (Tk_Scope held) (Tk_RequestedBy held)).

Definition reviews_from (visit : list (TicketKey * Ticket)) (now : Time) (limit : Z)
    (m : TicketMemory) : list ReviewNotice :=
  take (Z.to_nat limit)
    (sort_by (fun a b => String.ltb (RN_Key a) (RN_Key b))
       (omap (fun kt => review_owed m now kt.1 kt.2) visit)).

Definition ClaimReviews (cancelled : bool) (owner : string) (now : Time) (lease : Duration)
    (limit : Z) (m : TicketMemory) : ran (result TicketError (list ReviewNotice)) :=
  match validateReviewClaim owner now lease limit with
  | Err e => Done (Err e) m
  | Ok _ =>
      if cancelled then Done (Err TErrContext) m
      else
        let owed := reviews_from (map_to_list (tm_tickets m)) now limit m in
        Done (Ok owed)
          (m <| tm_reviewClaims :=
                fold_left (fun c n => <[RN_Key n := MkNoticeClaim owner (Time_Add now lease)]> c)
                  owed (tm_reviewClaims m) |>)
  end.

Definition MarkReviewOpened (cancelled : bool) (key : TicketKey) (root owner : string) (at_ : Time)
    (m : TicketMemory) : ran (option TicketError) :=
  match validateReviewMark key root owner at_ with
  | Err e => Done (Some e) m
  | Ok _ =>
      if cancelled then Done (Some TErrContext) m
      else match tm_tickets m !! key with
           | None => Done (Some TErrNotFound) m
           | Some held =>
               if String.eqb (RR_Conversation (Tk_Review held)) "" then Done (Some TErrNotFound) m
               else if negb (String.eqb (RR_Root (Tk_Review held)) "") then Done None m
               else if negb (String.eqb
                          (nc_owner (default zeroNoticeClaim (tm_reviewClaims m !! key))) owner)
               then Done (Some (TErrMoved None)) m
               else
                 let held := held
                   <| Tk_Review := MkReviewRoom (RR_Conversation (Tk_Review held))
                                     (trim_space root) |>
                   <| Tk_UpdatedAt := at_ |> in
                 Done None ((put_ticket m key held) <| tm_reviewClaims := delete key (tm_reviewClaims m) |>)
           end
  end.

(** ** Requests and histories *)

(** The operations that write, as data: what one caller may ask of the store. *)
Inductive ticket_request :=
| QOpen (i : OpenInput)
| QRevise (i : ReviseInput)
| QAddress (i : AddressInput)
| QInspect (i : InspectionInput)
| QAwait (i : ApprovalInput)
| QClaim (i : ClaimInput)
| QClaimAttempt (i : ClaimAttemptInput)
| QAttention (i : AttentionInput)
| QClose (i : CloseInput)
| QFinish (i : FinishInput)
| QCloseTicket (i : CloseTicketInput)
| QSuperseded (ref : TicketRef) (at_ : Time)
| QClaimOutcomes (owner : string) (now : Time) (lease : Duration) (limit : Z)
| QAnnounced (ref : TicketRef) (owner : string) (at_ : Time)
| QClaimReviews (owner : string) (now : Time) (lease : Duration) (limit : Z)
| QReviewOpened (key : TicketKey) (root owner : string) (at_ : Time).

(** What the store answered. *)
Inductive ticket_reply :=
| YTicket (a : answer)
| YAttempt (a : attempt_answer)
| YSettled (a : Ticket * option TicketError)
| YError (e : option TicketError)
| YOutcomes (r : result TicketError (list OutcomeNotice))
| YReviews (r : result TicketError (list ReviewNotice)).

Definition ran_map {A B} (f : A -> B) (r : ran A) : ran B :=
  match r with Done a m => Done (f a) m | Panicked => Panicked end.

Definition handle (cancelled : bool) (q : ticket_request) (m : TicketMemory) : ran ticket_reply :=
  match q with
  | QOpen i => ran_map YTicket (Open cancelled i m)
  | QRevise i => ran_map YTicket (Revise cancelled i m)
  | QAddress i => ran_map YTicket (Address cancelled i m)
  | QInspect i => ran_map YTicket (RecordInspection cancelled i m)
  | QAwait i => ran_map YTicket (AwaitApproval cancelled i m)
  | QClaim i => ran_map YTicket (ClaimExecution cancelled i m)
  | QClaimAttempt i => ran_map YAttempt (ClaimExecutionWithAttempt cancelled i m)
  | QAttention i => ran_map YSettled (MarkExecutionNeedsAttention cancelled i m)
  | QClose i => ran_map YTicket (CloseRevision cancelled i m)
  | QFinish i => ran_map YSettled (FinishExecution cancelled i m)
  | QCloseTicket i => ran_map YTicket (CloseTicket cancelled i m)
  | QSuperseded ref at_ => ran_map YError (MarkApprovalSuperseded cancelled ref at_ m)
  | QClaimOutcomes owner now lease limit =>
      ran_map YOutcomes (ClaimOutcomes cancelled owner now lease limit m)
  | QAnnounced ref owner at_ => ran_map YError (MarkOutcomeAnnounced cancelled ref owner at_ m)
  | QClaimReviews owner now lease limit =>
      ran_map YReviews (ClaimReviews cancelled owner now lease limit m)
  | QReviewOpened key root owner at_ =>
      ran_map YError (MarkReviewOpened cancelled key root owner at_ m)
  end.

(** A history: the requests served one after the other, with what each was
    answered, newest last. *)
Fixpoint serve_all (qs : list (bool * ticket_request)) (m : TicketMemory)
    : option (TicketMemory * list (ticket_request * ticket_reply)) :=
  match qs with
  | [] => Some (m, [])
  | (cancelled, q) :: qs' =>
      match handle cancelled q m with
      | Panicked => None
      | Done y m' =>
          match serve_all qs' m' with
          | Some (m'', log) => Some (m'', (q, y) :: log)
          | None => None
          end
      end
  end.
