(* ===== verification/TicketFacts.v ===== *)
(** * The life of a support ticket

    What the ticket store keeps true of its tickets, whoever asks and in
    whatever order: the stored revisions are exactly the numbers up to the
    current one, the one execution is of a revision in an executing phase with
    the approval it names, and a revision only ever advances. [moves] is the
    state machine of one ticket; [handle_changes] shows that every operation of
    the store is one of its moves, or touches no ticket at all. *)

From Stdlib Require Import ZArith Lia Ascii String Sorting.Permutation.
From stdpp Require Import base list strings gmap.
From S2P Require Import Prelude GoStrings Json Domain Payload Ticket.

Local Open Scope string_scope.

(** ** Revisions and tickets in order *)

Definition waits (p : Phase) : bool :=
  String.eqb p TPhaseCollecting || String.eqb p TPhaseAwaitingApproval.

Definition runs (p : Phase) : bool :=
  String.eqb p TPhaseExecuting || String.eqb p TPhaseNeedsAttention.

(** An approval of exactly what the revision was inspected to be. *)
Definition approved (r : Revision) : Prop :=
  exists a, Rv_Approval r = Some a /\ Ap_Snapshot a = Rv_Snapshot r /\ Ap_RunID a <> "" /\
    (0 < Ap_AtSeq a)%Z /\ ContentRef_Valid (Ap_Snapshot a) = true.

(** Phases a revision only reaches with an approval. *)
Definition needs_approval (p : Phase) : bool :=
  String.eqb p TPhaseAwaitingApproval || runs p || String.eqb p TPhaseCompleted.

Record sound (r : Revision) : Prop := {
  sound_phase : waits (Rv_Phase r) || runs (Rv_Phase r) || phase_terminal (Rv_Phase r) = true;
  sound_silent : Rv_Outcome r = None -> announces (Rv_Phase r) = false;
  sound_outcome : forall o, Rv_Outcome r = Some o ->
    TO_Phase o = Rv_Phase r /\ (announces (Rv_Phase r) || phase_terminal (Rv_Phase r)) = true;
  sound_approved : needs_approval (Rv_Phase r) = true -> approved r
}.

Record keeps (bound : Z) (k : TicketKey) (t : Ticket) (rs : gmap Z Revision) : Prop := {
  kp_key : Tk_Key t = k;
  kp_origin : origin_key (Tk_Origin t) = Some k;
  kp_current : rs !! TR_Revision (Rv_Ref (Tk_Current t)) = Some (Tk_Current t);
  kp_bound : (1 <= TR_Revision (Rv_Ref (Tk_Current t)) <= bound)%Z;
  kp_range : forall i, is_Some (rs !! i) <-> (1 <= i <= TR_Revision (Rv_Ref (Tk_Current t)))%Z;
  kp_each : forall i r, rs !! i = Some r -> Rv_Ref r = MkTicketRef k i /\ sound r;
  kp_old : forall i r, rs !! i = Some r -> (i < TR_Revision (Rv_Ref (Tk_Current t)))%Z ->
    waits (Rv_Phase r) = false;
  kp_runs : forall i r, rs !! i = Some r -> runs (Rv_Phase r) = true ->
    Ex_Ref <$> Tk_Active t = Some (MkTicketRef k i);
  kp_active : forall e, Tk_Active t = Some e ->
    TR_Key (Ex_Ref e) = k /\
    exists r, rs !! TR_Revision (Ex_Ref e) = Some r /\ runs (Rv_Phase r) = true /\
      Rv_Approval r = Some (MkApproval (Ex_RunID e) (Ex_ApprovalAtSeq e) (Ex_Snapshot e))
}.

Definition kept (bound : Z) (k : TicketKey) (t : option Ticket) (rs : option (gmap Z Revision))
    : Prop :=
  match t, rs with
  | Some t, Some rs => keeps bound k t rs
  | None, None => True
  | _, _ => False
  end.

Definition coherent (bound : Z) (m : TicketMemory) : Prop :=
  forall k, kept bound k (tm_tickets m !! k) (tm_revisions m !! k).

(** ** The state machine of one ticket *)

(** A revision that waits: inspected again, put up for approval, or closed. *)
Inductive waiting_step (r : Revision) : Revision -> Prop :=
| ws_inspect snap at_ :
    Rv_Phase r = TPhaseCollecting ->
    waiting_step r (r <| Rv_Snapshot := snap |> <| Rv_UpdatedAt := at_ |>)
| ws_await a at_ :
    Rv_Phase r = TPhaseCollecting -> Ap_Snapshot a = Rv_Snapshot r -> Ap_RunID a <> "" ->
    (0 < Ap_AtSeq a)%Z -> ContentRef_Valid (Ap_Snapshot a) = true ->
    waiting_step r (r <| Rv_Phase := TPhaseAwaitingApproval |> <| Rv_Approval := Some a |>
                      <| Rv_UpdatedAt := at_ |>)
| ws_close p result at_ :
    waits (Rv_Phase r) = true -> p = TPhaseRejected \/ p = TPhaseCancelled ->
    waiting_step r (r <| Rv_Phase := p |> <| Rv_Outcome := Some (MkTicketOutcome p result) |>
                      <| Rv_UpdatedAt := at_ |>).

Inductive move_label :=
| MAside                        (** nothing a revision is about *)
| MWaiting
| MReplace (ref : TicketRef)    (** the new revision *)
| MClaim (i : ClaimInput)       (** the current revision starts executing *)
| MSettle (ref : TicketRef).

(** The revision as it stands when its correction is recorded. *)
Definition superseded_by (r : Revision) (at_ : Time) : Revision :=
  if cancels (Rv_Phase r) then r <| Rv_Phase := TPhaseCancelled |> <| Rv_UpdatedAt := at_ |> else r.

Inductive moves (t : Ticket) (rs : gmap Z Revision) : move_label -> Ticket -> gmap Z Revision -> Prop :=
| mv_aside t' :
    Tk_Key t' = Tk_Key t -> Tk_Origin t' = Tk_Origin t -> Tk_Current t' = Tk_Current t ->
    Tk_Active t' = Tk_Active t -> moves t rs MAside t' rs
| mv_waiting r' at_ :
    waiting_step (Tk_Current t) r' ->
    moves t rs MWaiting (t <| Tk_Current := r' |> <| Tk_UpdatedAt := at_ |>)
      (<[TR_Revision (Rv_Ref (Tk_Current t)) := r']> rs)
| mv_replace c :
    Tk_Closed t = None ->
    let r := Tk_Current t in let r' := next_revision t c in
    moves t rs (MReplace (Rv_Ref r')) (t <| Tk_Current := r' |> <| Tk_UpdatedAt := rc_at c |>)
      (<[TR_Revision (Rv_Ref r') := r']>
         (<[TR_Revision (Rv_Ref r) := superseded_by r (rc_at c)]> rs))
| mv_claim i a :
    Tk_Active t = None -> Rv_Ref (Tk_Current t) = KI_Ref i ->
    Rv_Phase (Tk_Current t) = TPhaseAwaitingApproval -> Rv_Approval (Tk_Current t) = Some a ->
    Ap_RunID a = KI_RunID i -> Ap_AtSeq a = KI_ApprovalAtSeq i ->
    let t' := start_execution t (execution_of i a) (KI_At i) in
    moves t rs (MClaim i) t'
      (<[TR_Revision (Rv_Ref (Tk_Current t)) := Tk_Current t']> rs)
| mv_settle e r p result at_ :
    Tk_Active t = Some e -> rs !! TR_Revision (Ex_Ref e) = Some r ->
    p = TPhaseCompleted \/ p = TPhaseRejected \/ p = TPhaseNeedsAttention ->
    let r' := r <| Rv_Phase := p |> <| Rv_Outcome := Some (MkTicketOutcome p result) |>
                <| Rv_UpdatedAt := at_ |> in
    let t' := (if String.eqb p TPhaseNeedsAttention then t else t <| Tk_Active := None |>)
                <| Tk_UpdatedAt := at_ |> in
    moves t rs (MSettle (Ex_Ref e))
      (if bool_decide (Rv_Ref (Tk_Current t) = Ex_Ref e) then t' <| Tk_Current := r' |> else t')
      (<[TR_Revision (Ex_Ref e) := r']> rs).

(** ** Phases *)

Lemma waits_cases p :
  waits p = true <-> p = TPhaseCollecting \/ p = TPhaseAwaitingApproval.
Proof. unfold waits. bsimp. done. Qed.

Lemma runs_cases p : runs p = true <-> p = TPhaseExecuting \/ p = TPhaseNeedsAttention.
Proof. unfold runs. bsimp. done. Qed.

Lemma terminal_cases p :
  phase_terminal p = true <-> p = TPhaseCompleted \/ p = TPhaseRejected \/ p = TPhaseCancelled.
Proof. unfold phase_terminal. bsimp. tauto. Qed.

Lemma sound_phases r :
  sound r -> Rv_Phase r ∈ [TPhaseCollecting; TPhaseAwaitingApproval; TPhaseExecuting;
                           TPhaseNeedsAttention; TPhaseCompleted; TPhaseRejected; TPhaseCancelled].
Proof.
  intros [H _ _ _]. bsimp. rewrite waits_cases, runs_cases, terminal_cases in H.
  rewrite !elem_of_cons, elem_of_nil. tauto.
Qed.

Lemma waiting_no_outcome r : sound r -> waits (Rv_Phase r) = true -> Rv_Outcome r = None.
Proof.
  intros [_ _ H _] Hw. destruct (Rv_Outcome r) as [o|]; [|done].
  destruct (H _ eq_refl) as [_ Ho]. apply waits_cases in Hw as [Hw|Hw]; rewrite Hw in Ho; done.
Qed.

(** Decides a test on a phase that is one of the constants. *)
Ltac phase_tac :=
  repeat match goal with
    | H : Rv_Phase ?r = _ |- context [Rv_Phase ?r] => rewrite H
    | H : Rv_Phase ?r = _, H' : context [Rv_Phase ?r] |- _ =>
        lazymatch H' with H => fail | _ => rewrite H in H' end
    end; try done.

Lemma waiting_step_spec r r' :
  waiting_step r r' ->
  waits (Rv_Phase r) = true /\ Rv_Ref r' = Rv_Ref r /\ runs (Rv_Phase r') = false /\
  (sound r -> sound r').
Proof.
  intros [snap at_ Hp|a at_ Hp H1 H2 H3 H4|p res at_ Hw Hp]; simpl.
  - split_and!; [by rewrite Hp|done|by rewrite Hp|].
    intros [X1 X2 X3 X4]. split; simpl; [done..|rewrite Hp; done].
  - split_and!; [by rewrite Hp|done|done|]. intros S. pose proof (waiting_no_outcome r S) as Hn.
    split; simpl; [done|done| |intros _; exists a; by split_and!].
    intros o Ho. rewrite Hn in Ho; [done|by rewrite Hp].
  - split_and!; [done|done|by destruct Hp as [-> | ->]|]. intros S.
    split; simpl; [by destruct Hp as [-> | ->]|done| |by destruct Hp as [-> | ->]].
    intros o [= <-]. by destruct Hp as [-> | ->].
Qed.

(** ** Moves keep a ticket in order *)

Section Keeping.
Context (b : Z) (k : TicketKey) (t : Ticket) (rs : gmap Z Revision).
Hypothesis K : keeps b k t rs.

Local Abbreviation n := (TR_Revision (Rv_Ref (Tk_Current t))).

Lemma kept_current : Rv_Ref (Tk_Current t) = MkTicketRef k n /\ sound (Tk_Current t).
Proof. apply (kp_each _ _ _ _ K). apply (kp_current _ _ _ _ K). Qed.

Lemma kept_in_range i r : rs !! i = Some r -> (1 <= i <= n)%Z.
Proof. intros H. apply (kp_range _ _ _ _ K). by rewrite H. Qed.

Lemma kept_running i r e :
  rs !! i = Some r -> Tk_Active t = Some e -> runs (Rv_Phase r) = true -> i = TR_Revision (Ex_Ref e).
Proof.
  intros H He Hr. pose proof (kp_runs _ _ _ _ K i r H Hr) as E. rewrite He in E.
  simpl in E. by injection E as ->.
Qed.

(** One revision rewritten in place. *)
Lemma keeps_update t' i r r' :
  rs !! i = Some r -> Rv_Ref r' = Rv_Ref r -> sound r' ->
  Tk_Key t' = Tk_Key t -> Tk_Origin t' = Tk_Origin t ->
  Tk_Current t' = (if Z.eqb i n then r' else Tk_Current t) ->
  ((i < n)%Z -> waits (Rv_Phase r') = false) ->
  (runs (Rv_Phase r') = true -> Ex_Ref <$> Tk_Active t' = Some (MkTicketRef k i)) ->
  (forall j s, j <> i -> rs !! j = Some s -> runs (Rv_Phase s) = true ->
     Ex_Ref <$> Tk_Active t' = Some (MkTicketRef k j)) ->
  (forall e, Tk_Active t' = Some e ->
     Ex_Ref e = MkTicketRef k i /\ runs (Rv_Phase r') = true /\
     Rv_Approval r' = Some (MkApproval (Ex_RunID e) (Ex_ApprovalAtSeq e) (Ex_Snapshot e)) \/
     Ex_Ref e <> MkTicketRef k i /\ Tk_Active t = Some e) ->
  keeps b k t' (<[i := r']> rs).
Proof.
  intros Hi Href Hs Hk Ho Hc Hold Hrun Hrest Hact.
  pose proof (kept_in_range _ _ Hi) as Bi.
  assert (Hn : TR_Revision (Rv_Ref (Tk_Current t')) = n).
  { rewrite Hc. case_match eqn:E; [|done]. apply Z.eqb_eq in E.
    rewrite Href. by destruct (kp_each _ _ _ _ K i r Hi) as [-> _]. }
  split; rewrite ?Hn, ?Hk, ?Ho; [apply K|apply K| | apply K| | | | |].
  - rewrite Hc. case_match eqn:E.
    + apply Z.eqb_eq in E. rewrite <- E. by rewrite lookup_insert_eq.
    + apply Z.eqb_neq in E. rewrite lookup_insert_ne by done. apply K.
  - intros j. destruct (decide (j = i)) as [->|D].
    + rewrite lookup_insert_eq. split; [by intros _|eauto].
    + rewrite lookup_insert_ne by done. apply K.
  - intros j s. destruct (decide (j = i)) as [->|D].
    + rewrite lookup_insert_eq. intros [= <-]. rewrite Href. split; [|done].
      by apply (kp_each _ _ _ _ K).
    + rewrite lookup_insert_ne by done. apply K.
  - intros j s. destruct (decide (j = i)) as [->|D].
    + rewrite lookup_insert_eq. by intros [= <-].
    + rewrite lookup_insert_ne by done. apply K.
  - intros j s. destruct (decide (j = i)) as [->|D].
    + rewrite lookup_insert_eq. by intros [= <-].
    + rewrite lookup_insert_ne by done. by apply Hrest.
  - intros e He. destruct (Hact e He) as [(E & H1 & H2)|[D He']].
    + rewrite E. simpl. split; [done|]. rewrite lookup_insert_eq. eauto.
    + destruct (kp_active _ _ _ _ K e He') as (E & s & Hs' & H1 & H2). split; [done|].
      exists s. rewrite lookup_insert_ne; [by split_and!|].
      intros ->. apply D. destruct (Ex_Ref e); simpl in *; congruence.
Qed.

Lemma active_elsewhere i e r :
  rs !! i = Some r -> runs (Rv_Phase r) = false -> Tk_Active t = Some e ->
  Ex_Ref e <> MkTicketRef k i.
Proof.
  intros Hi Hr He E. destruct (kp_active _ _ _ _ K e He) as (_ & s & Hs & H1 & _).
  rewrite E in Hs. simpl in Hs. rewrite Hi in Hs. injection Hs as <-. congruence.
Qed.

Lemma keeps_waiting r' at_ :
  waiting_step (Tk_Current t) r' ->
  keeps b k (t <| Tk_Current := r' |> <| Tk_UpdatedAt := at_ |>) (<[n := r']> rs).
Proof.
  intros H. destruct (waiting_step_spec _ _ H) as (Hw & Href & Hnr & Hs).
  pose proof (kp_current _ _ _ _ K) as Hc.
  assert (Hr : runs (Rv_Phase (Tk_Current t)) = false).
  { apply waits_cases in Hw as [-> | ->]; done. }
  eapply (keeps_update _ n (Tk_Current t)); simpl;
    [done|done|by apply Hs, kept_current|done|done|by rewrite Z.eqb_refl|lia|congruence| |].
  - intros j s _ Hj Hjr. by apply (kp_runs _ _ _ _ K) with (r := s).
  - intros e He. right. split; [|done]. by eapply active_elsewhere.
Qed.

Lemma sound_executing r at_ :
  sound r -> Rv_Phase r = TPhaseAwaitingApproval ->
  sound (r <| Rv_Phase := TPhaseExecuting |> <| Rv_UpdatedAt := at_ |>).
Proof.
  intros S Hp. pose proof (waiting_no_outcome r S) as Hn. rewrite Hp in Hn.
  destruct S as [_ _ _ X4]. split; simpl; [done|done| |].
  - intros o Ho. by rewrite Hn in Ho.
  - intros _. apply X4. by rewrite Hp.
Qed.

Lemma keeps_claim i a :
  Tk_Active t = None -> Rv_Ref (Tk_Current t) = KI_Ref i ->
  Rv_Phase (Tk_Current t) = TPhaseAwaitingApproval -> Rv_Approval (Tk_Current t) = Some a ->
  Ap_RunID a = KI_RunID i -> Ap_AtSeq a = KI_ApprovalAtSeq i ->
  let t' := start_execution t (execution_of i a) (KI_At i) in
  keeps b k t' (<[n := Tk_Current t']> rs).
Proof.
  intros Ha Href Hp Hap Hr Hq t'. destruct kept_current as [Hcr Hs].
  pose proof (kp_current _ _ _ _ K) as Hc.
  eapply (keeps_update _ n (Tk_Current t)); simpl;
    [done|done|by apply sound_executing|done|done|by rewrite Z.eqb_refl|lia| | |].
  - intros _. by rewrite <- Href, <- Hcr.
  - intros j s _ Hj Hjr. pose proof (kp_runs _ _ _ _ K j s Hj Hjr) as E. by rewrite Ha in E.
  - intros e [= <-]. simpl. left. split_and!; [congruence|done|]. rewrite Hap.
    destruct a as [run sq snap]; simpl in *. congruence.
Qed.

Lemma sound_settled r p res at_ :
  sound r -> runs (Rv_Phase r) = true ->
  p = TPhaseCompleted \/ p = TPhaseRejected \/ p = TPhaseNeedsAttention ->
  sound (r <| Rv_Phase := p |> <| Rv_Outcome := Some (MkTicketOutcome p res) |>
           <| Rv_UpdatedAt := at_ |>).
Proof.
  intros [_ _ _ X4] Hr Hp.
  split; simpl; [by destruct Hp as [-> |[-> | ->]]|done| |].
  - intros o [= <-]. by destruct Hp as [-> |[-> | ->]].
  - intros _. apply X4. unfold needs_approval. rewrite Hr. by rewrite orb_true_r.
Qed.

Lemma keeps_settle e r p res at_ :
  Tk_Active t = Some e -> rs !! TR_Revision (Ex_Ref e) = Some r ->
  p = TPhaseCompleted \/ p = TPhaseRejected \/ p = TPhaseNeedsAttention ->
  let r' := r <| Rv_Phase := p |> <| Rv_Outcome := Some (MkTicketOutcome p res) |>
              <| Rv_UpdatedAt := at_ |> in
  let t' := (if String.eqb p TPhaseNeedsAttention then t else t <| Tk_Active := None |>)
              <| Tk_UpdatedAt := at_ |> in
  keeps b k
    (if bool_decide (Rv_Ref (Tk_Current t) = Ex_Ref e) then t' <| Tk_Current := r' |> else t')
    (<[TR_Revision (Ex_Ref e) := r']> rs).
Proof.
  intros He Hr Hp r' t'. destruct (kp_active _ _ _ _ K e He) as (Ek & s & Hs & Hrun & Hap).
  rewrite Hr in Hs. injection Hs as <-. destruct (kp_each _ _ _ _ K _ _ Hr) as [Href Sr].
  assert (Ee : Ex_Ref e = MkTicketRef k (TR_Revision (Ex_Ref e))) by (destruct (Ex_Ref e); simpl in *; congruence).
  assert (Hcur : bool_decide (Rv_Ref (Tk_Current t) = Ex_Ref e) = Z.eqb (TR_Revision (Ex_Ref e)) n).
  { destruct kept_current as [Hcr _]. apply eq_true_iff_eq. rewrite bool_decide_eq_true, Z.eqb_eq.
    rewrite Hcr, Ee at 1. split; [intros [= ->]; done|intros ->; done]. }
  set (u := if bool_decide _ then _ else _).
  assert (Hu : Tk_Key u = Tk_Key t /\ Tk_Origin u = Tk_Origin t /\
               Tk_Current u = (if Z.eqb (TR_Revision (Ex_Ref e)) n then r' else Tk_Current t) /\
               Tk_Active u = (if String.eqb p TPhaseNeedsAttention then Some e else None)).
  { unfold u, t'. rewrite Hcur. by destruct (Z.eqb _ _), (String.eqb p _); simpl; rewrite ?He. }
  destruct Hu as (U1 & U2 & U3 & U4).
  eapply (keeps_update u _ r r'); [done|done|by apply sound_settled|done|done|done| | | |].
  - intros _. by destruct Hp as [-> |[-> | ->]].
  - simpl. intros Hrp. rewrite U4.
    destruct Hp as [-> |[-> | ->]]; [done|done|]. simpl. by rewrite <- Ee.
  - intros j s Hj Hjs Hjr. destruct Hj. eapply kept_running; done.
  - intros e'. rewrite U4. destruct (String.eqb p TPhaseNeedsAttention) eqn:Ep; [|done].
    intros [= <-]. left. apply String.eqb_eq in Ep as ->. by split_and!.
Qed.

Lemma sound_superseded at_ r : sound r -> sound (superseded_by r at_).
Proof.
  intros S. unfold superseded_by. destruct (cancels (Rv_Phase r)) eqn:E; [|done].
  split; simpl; [done|done| |done]. intros o Ho. exfalso.
  enough (waits (Rv_Phase r) = true) as Hw by (rewrite (waiting_no_outcome r S Hw) in Ho; done).
  destruct S as [X1 _ _ _]. unfold cancels, runs in *. bsimp. intuition congruence.
Qed.

Lemma superseded_rests at_ r :
  sound r -> Rv_Ref (superseded_by r at_) = Rv_Ref r /\ waits (Rv_Phase (superseded_by r at_)) = false /\
  (runs (Rv_Phase (superseded_by r at_)) = true -> superseded_by r at_ = r).
Proof.
  intros S. unfold superseded_by. destruct (cancels (Rv_Phase r)) eqn:E; [done|].
  split_and!; [done| |done]. destruct (waits (Rv_Phase r)) eqn:Hw; [|done].
  apply waits_cases in Hw as [Hw|Hw]; by rewrite Hw in E.
Qed.

Lemma keeps_superseded at_ :
  keeps b k (t <| Tk_Current := superseded_by (Tk_Current t) at_ |>)
    (<[n := superseded_by (Tk_Current t) at_]> rs).
Proof.
  destruct kept_current as [Hcr Hs]. pose proof (kp_current _ _ _ _ K) as Hc.
  destruct (superseded_rests at_ _ Hs) as (R1 & R2 & R3).
  eapply (keeps_update _ n (Tk_Current t)); simpl;
    [done|done|by apply sound_superseded|done|done|by rewrite Z.eqb_refl|done| | |].
  - intros Hr. rewrite (R3 Hr) in Hr. by apply (kp_runs _ _ _ _ K) with (r := Tk_Current t).
  - intros j s _ Hj Hjr. by apply (kp_runs _ _ _ _ K) with (r := s).
  - intros e He. destruct (decide (Ex_Ref e = MkTicketRef k n)) as [D|D]; [left|by right].
    destruct (kp_active _ _ _ _ K e He) as (_ & s & Hs' & H1 & H2).
    rewrite D in Hs'. simpl in Hs'. rewrite Hc in Hs'. injection Hs' as <-.
    assert (superseded_by (Tk_Current t) at_ = Tk_Current t) as ->; [|by split_and!].
    unfold superseded_by, cancels. apply runs_cases in H1 as [-> | ->]; done.
Qed.
End Keeping.

(** A new revision on top of the superseded one. *)
Lemma keeps_next b k t rs r' at_ :
  keeps b k t rs -> (b < int64_max)%Z -> waits (Rv_Phase (Tk_Current t)) = false ->
  Rv_Ref r' = MkTicketRef k (add64 (TR_Revision (Rv_Ref (Tk_Current t))) 1) ->
  sound r' -> runs (Rv_Phase r') = false ->
  keeps (b + 1) k (t <| Tk_Current := r' |> <| Tk_UpdatedAt := at_ |>)
    (<[TR_Revision (Rv_Ref r') := r']> rs).
Proof.
  intros K Hb Hw Href Hs Hr. pose proof (kp_bound _ _ _ _ K) as Bn.
  assert (En : add64 (TR_Revision (Rv_Ref (Tk_Current t))) 1 =
               (TR_Revision (Rv_Ref (Tk_Current t)) + 1)%Z).
  { apply wrap64_id, in_int64_spec. unfold int64_max in Hb. lia. }
  rewrite En in Href. rewrite Href. simpl.
  assert (Hf : forall i s, rs !! i = Some s -> i <> (TR_Revision (Rv_Ref (Tk_Current t)) + 1)%Z).
  { intros i s Hi. pose proof (kept_in_range _ _ _ _ K i s Hi). lia. }
  split; simpl; rewrite ?Href; simpl; [apply K|apply K|by rewrite lookup_insert_eq|lia| | | | |].
  - intros i. destruct (decide (i = (TR_Revision (Rv_Ref (Tk_Current t)) + 1)%Z)) as [->|D].
    + rewrite lookup_insert_eq. split; [lia|eauto].
    + rewrite lookup_insert_ne by done. rewrite (kp_range _ _ _ _ K). lia.
  - intros i s. rewrite lookup_insert_Some. intros [[<- <-]|[D Hi]]; [done|]. by apply K.
  - intros i s. rewrite lookup_insert_Some. intros [[<- <-]|[D Hi]]; [lia|]. intros _.
    destruct (decide (i = TR_Revision (Rv_Ref (Tk_Current t)))) as [->|D'].
    + rewrite (kp_current _ _ _ _ K) in Hi. by injection Hi as <-.
    + apply (kp_old _ _ _ _ K i s Hi). pose proof (kept_in_range _ _ _ _ K i s Hi). lia.
  - intros i s. rewrite lookup_insert_Some. intros [[<- <-]|[D Hi]]; [congruence|]. by apply K.
  - intros e He. destruct (kp_active _ _ _ _ K e He) as (E & s & Hs' & H1 & H2).
    split; [done|]. exists s. rewrite lookup_insert_ne; [done|]. by apply not_eq_sym, (Hf _ s).
Qed.

Lemma keeps_weaken b b' k t rs : (b <= b')%Z -> keeps b k t rs -> keeps b' k t rs.
Proof. intros Hb []. split; try done. lia. Qed.

Lemma sound_collecting r :
  Rv_Phase r = TPhaseCollecting -> Rv_Outcome r = None -> sound r.
Proof. intros Hp Ho. split; rewrite ?Hp, ?Ho; done. Qed.

Lemma moves_keep b k t rs l t' rs' :
  keeps b k t rs -> (b < int64_max)%Z -> moves t rs l t' rs' -> keeps (b + 1) k t' rs'.
Proof.
  intros K Hb [u H1 H2 H3 H4|r' at_ Hw|c Hcl r r'|i a Ha Href Hp Hap Hr Hq u|e r p res at_ He Hr Hp r' u].
  - apply (keeps_weaken b); [lia|].
    destruct K. split; rewrite ?H1, ?H2, ?H3, ?H4; done.
  - apply (keeps_weaken b); [lia|]. by apply keeps_waiting.
  - destruct (kept_current _ _ _ _ K) as [Hcr Hs].
    pose proof (keeps_superseded _ _ _ _ K (rc_at c)) as K'.
    destruct (superseded_rests (rc_at c) _ Hs) as (R1 & R2 & _).
    refine (keeps_next b k _ _ r' (rc_at c) K' Hb R2 _ (sound_collecting r' eq_refl eq_refl) eq_refl).
    simpl. rewrite R1. by rewrite (kp_key _ _ _ _ K).
  - apply (keeps_weaken b); [lia|]. by apply keeps_claim.
  - apply (keeps_weaken b); [lia|]. by apply keeps_settle.
Qed.

(** ** What a request does to the store *)

(** The claim an answer says has just been granted. *)
Definition newly_claimed (q : ticket_request) (y : ticket_reply) : option ClaimInput :=
  match q, y with
  | QClaim i, YTicket (_, true, None) => Some i
  | QClaimAttempt i, YAttempt (_, _, true, None) => Some (KA_Claim i)
  | _, _ => None
  end.

(** The notices an answer hands out, with who asked for them. *)
Definition handed (q : ticket_request) (y : ticket_reply) : list (string * OutcomeNotice) :=
  match q, y with
  | QClaimOutcomes owner _ _ _, YOutcomes (Ok l) => map (pair owner) l
  | _, _ => []
  end.

(** The bookkeeping of notices. *)
Inductive notes (m : TicketMemory) (given : list (string * OutcomeNotice)) : TicketMemory -> Prop :=
| nt_same m' :
    tm_announced m' = tm_announced m -> tm_outcomeClaims m' = tm_outcomeClaims m ->
    given = [] -> notes m given m'
| nt_claim owner now limit until m' :
    let l := outcomes_from (all_revisions m) now limit m in
    owner <> "" -> given = map (pair owner) l -> tm_announced m' = tm_announced m ->
    tm_outcomeClaims m' = claim_outcomes owner until l (tm_outcomeClaims m) -> notes m given m'
| nt_announce ref c m' :
    given = [] -> tm_outcomeClaims m !! ref = Some c ->
    tm_announced m' = {[ref]} ∪ tm_announced m ->
    tm_outcomeClaims m' = delete ref (tm_outcomeClaims m) -> notes m given m'.

Definition claim_of (l : move_label) : option ClaimInput :=
  match l with MClaim i => Some i | _ => None end.

(** How the maps beside the tickets follow a ticket's move. *)
Definition follows (m : TicketMemory) (l : move_label) (m' : TicketMemory) : Prop :=
  match l with
  | MReplace ref => exists ev, tm_events m !! ev = None /\ tm_events m' = <[ev := ref]> (tm_events m)
  | _ => tm_events m' = tm_events m
  end /\
  match l with
  | MClaim i =>
      tm_attempts m' = tm_attempts m \/
      exists x, Ex_Ref (XA_Execution x) = KI_Ref i /\
        tm_attempts m !! EA_IdemKey (XA_Input x) = None /\ attempted m (KI_Ref i) = false /\
        tm_attempts m' = <[EA_IdemKey (XA_Input x) := x]> (tm_attempts m)
  | _ => tm_attempts m' = tm_attempts m
  end /\
  match l with
  | MSettle ref =>
      tm_announced m' = tm_announced m ∖ {[ref]} /\
      tm_outcomeClaims m' = delete ref (tm_outcomeClaims m)
  | _ => tm_announced m' = tm_announced m /\ tm_outcomeClaims m' = tm_outcomeClaims m
  end.

Definition after_open (m : TicketMemory) (i : OpenInput) : TicketMemory :=
  m <| tm_tickets := <[OI_Key i := opened i]> (tm_tickets m) |>
    <| tm_revisions := <[OI_Key i := {[1%Z := Tk_Current (opened i)]}]> (tm_revisions m) |>
    <| tm_events := <[OI_EventID i := MkTicketRef (OI_Key i) 1]> (tm_events m) |>.

Inductive change (m : TicketMemory) (q : ticket_request) (y : ticket_reply) : TicketMemory -> Prop :=
| ch_notes m' :
    tm_tickets m' = tm_tickets m -> tm_revisions m' = tm_revisions m ->
    tm_events m' = tm_events m -> tm_attempts m' = tm_attempts m ->
    newly_claimed q y = None -> notes m (handed q y) m' -> change m q y m'
| ch_event ev ref t :
    tm_tickets m !! TR_Key ref = Some t -> Rv_Ref (Tk_Current t) = ref -> tm_events m !! ev = None ->
    newly_claimed q y = None -> handed q y = [] ->
    change m q y (m <| tm_events := <[ev := ref]> (tm_events m) |>)
| ch_open i :
    validateOpen i = Ok tt -> tm_tickets m !! OI_Key i = None -> tm_events m !! OI_EventID i = None ->
    (Z.of_nat (open_count m (OI_Scope i)) < MaxOpenPerScope)%Z ->
    newly_claimed q y = None -> handed q y = [] ->
    change m q y (after_open m i)
| ch_move k t rs l t' rs' m' :
    tm_tickets m !! k = Some t -> tm_revisions m !! k = Some rs -> moves t rs l t' rs' ->
    tm_tickets m' = <[k := t']> (tm_tickets m) -> tm_revisions m' = <[k := rs']> (tm_revisions m) ->
    Tk_Scope t' = Tk_Scope t -> (Tk_Closed t' = None -> Tk_Closed t = None) ->
    follows m l m' -> newly_claimed q y = claim_of l -> handed q y = [] ->
    change m q y m'.

(** A run of an operation that did not panic and changed the store as allowed. *)
Definition changes (m : TicketMemory) (q : ticket_request) (r : ran ticket_reply) : Prop :=
  match r with Done y m' => change m q y m' | Panicked => False end.

Lemma change_same m q y : newly_claimed q y = None -> handed q y = [] -> change m q y m.
Proof. intros H1 H2. apply ch_notes; try done. rewrite H2. by apply nt_same. Qed.

Lemma or_refuse_changes {A} m q (r : result TicketError A) kk :
  (forall a, r = Ok a -> changes m q (ran_map YTicket (kk a))) ->
  changes m q (ran_map YTicket (or_refuse m r kk)).
Proof.
  intros H. destruct r as [a|e]; simpl; [by apply H|].
  apply change_same; by destruct q.
Qed.

Section Handling.
Context (b : Z) (m : TicketMemory).
Hypothesis C : coherent b m.

Lemma kept_ticket k t :
  tm_tickets m !! k = Some t -> exists rs, tm_revisions m !! k = Some rs /\ keeps b k t rs.
Proof.
  intros H. specialize (C k). unfold kept in C. rewrite H in C. case_match; [eauto|done].
Qed.

Lemma kept_revisions k rs :
  tm_revisions m !! k = Some rs -> exists t, tm_tickets m !! k = Some t /\ keeps b k t rs.
Proof.
  intros H. specialize (C k). unfold kept in C. rewrite H in C. case_match; [eauto|done].
Qed.

Lemma ticketFor_Ok cancelled key t :
  ticketFor cancelled key m = Ok t -> tm_tickets m !! key = Some t.
Proof. unfold ticketFor, found. intros H. by case_all. Qed.

Lemma requireCurrent_Ok t ref u : requireCurrent t ref = Ok u -> Rv_Ref (Tk_Current t) = ref.
Proof. unfold requireCurrent. rewrite guard_err_Ok. apply bool_decide_eq_true. Qed.

Lemma currentFor_Ok cancelled ref t :
  currentFor cancelled ref m = Ok t ->
  tm_tickets m !! TR_Key ref = Some t /\ Rv_Ref (Tk_Current t) = ref.
Proof.
  unfold currentFor. intros H. inv_ok.
  match goal with H : requireCurrent _ _ = _ |- _ => apply requireCurrent_Ok in H end.
  split; [|done]. by eapply ticketFor_Ok.
Qed.

(** Rewriting the current revision of a stored ticket. *)
Lemma putCurrent_changes {A} q key t t' l (y : A) f (g : TicketMemory) :
  tm_tickets m !! key = Some t -> tm_tickets g = tm_tickets m ->
  tm_revisions g = tm_revisions m -> Tk_Key t' = Tk_Key t -> Tk_Scope t' = Tk_Scope t ->
  Tk_Closed t' = Tk_Closed t ->
  (forall rs, tm_revisions m !! key = Some rs -> keeps b key t rs ->
     moves t rs l t' (<[TR_Revision (Rv_Ref (Tk_Current t')) := Tk_Current t']> rs)) ->
  (forall tks rvs, follows m l (g <| tm_tickets := tks |> <| tm_revisions := rvs |>)) ->
  newly_claimed q (f y) = claim_of l -> handed q (f y) = [] ->
  changes m q (ran_map f (putCurrent g t' (Done y))).
Proof.
  intros Ht G1 G2 Hk Hsc Hcl Hm Hf Hn Hh. destruct (kept_ticket _ _ Ht) as (rs & Hrs & K).
  unfold putCurrent, put_revision, put_ticket. simpl.
  rewrite Hk, (kp_key _ _ _ _ K), G2, Hrs. simpl.
  eapply (ch_move _ _ _ key t rs l t'); try done; [by apply Hm|simpl; by rewrite G1|by rewrite Hcl|].
  exact (Hf _ _).
Qed.

(** An answer that leaves the store as it is. *)
Ltac unchanged := apply change_same; reflexivity.

Lemma Open_changes cancelled i : changes m (QOpen i) (ran_map YTicket (Open cancelled i m)).
Proof.
  unfold Open. destruct cancelled; [unchanged|]. apply or_refuse_changes. intros [] Hv.
  destruct (tm_events m !! OI_EventID i) as [ref|] eqn:Hev; [case_match; unchanged|].
  destruct (tm_tickets m !! OI_Key i) as [cur|] eqn:Ht; [unchanged|].
  case_match eqn:Hn; [unchanged|]. apply Z.leb_gt in Hn. by apply (ch_open m).
Qed.

Lemma unless_replayed_changes q t ev key r :
  (tm_events m !! ev = None -> changes m q (ran_map YTicket r)) ->
  (forall e, newly_claimed q (YTicket (t, false, e)) = None) ->
  (forall y, handed q (YTicket y) = []) ->
  changes m q (ran_map YTicket (unless_replayed m t ev key r)).
Proof.
  intros Hr Hn Hh. unfold unless_replayed, replayed.
  destruct (tm_events m !! ev); [|by apply Hr].
  destruct (negb _); apply change_same; auto.
Qed.

Lemma replace_changes q key t c :
  tm_tickets m !! key = Some t -> Tk_Closed t = None -> tm_events m !! rc_eventID c = None ->
  (forall y, newly_claimed q (YTicket y) = None) -> (forall y, handed q (YTicket y) = []) ->
  changes m q (ran_map YTicket (replace m t c)).
Proof.
  intros Ht Hcl Hev Hn Hh. destruct (kept_ticket _ _ Ht) as (rs & Hrs & K).
  pose proof (mv_replace t rs c Hcl) as Hm. simpl in Hm.
  pose proof (kp_current _ _ _ _ K) as Hcur. pose proof (kp_key _ _ _ _ K) as Hk.
  unfold replace, cancel_previous, superseded_by, put_revision, put_ticket in *.
  destruct (cancels (Rv_Phase (Tk_Current t))); simpl; rewrite Hk in *; rewrite Hrs; simpl.
  - rewrite lookup_insert_eq. simpl. rewrite insert_insert_eq.
    eapply (ch_move _ _ _ key t rs); try done. unfold follows; simpl; split_and!; [exists (rc_eventID c); done|done..].
  - rewrite (insert_id rs) in Hm by done.
    eapply (ch_move _ _ _ key t rs); try done. unfold follows; simpl; split_and!; [exists (rc_eventID c); done|done..].
Qed.

Lemma requireMutable_Ok t ref u :
  requireMutable t ref = Ok u -> Rv_Ref (Tk_Current t) = ref /\ Tk_Closed t = None.
Proof.
  unfold requireMutable. intros H. inv_ok.
  match goal with H : requireCurrent _ _ = _ |- _ => apply requireCurrent_Ok in H end.
  by bsimp.
Qed.

Lemma Revise_changes cancelled i : changes m (QRevise i) (ran_map YTicket (Revise cancelled i m)).
Proof.
  unfold Revise. apply or_refuse_changes. intros _ _. apply or_refuse_changes. intros t Ht.
  apply or_refuse_changes. intros _ _. apply unless_replayed_changes; [|done..]. intros Hev.
  apply or_refuse_changes. intros u Hm. apply requireMutable_Ok in Hm as [_ Hc].
  apply ticketFor_Ok in Ht. by apply (replace_changes _ _ _ _ Ht).
Qed.

Lemma Address_changes cancelled i :
  changes m (QAddress i) (ran_map YTicket (Address cancelled i m)).
Proof.
  unfold Address. apply or_refuse_changes. intros rcp _. apply or_refuse_changes. intros t Ht.
  apply or_refuse_changes. intros _ _. apply unless_replayed_changes; [|done..]. intros Hev.
  apply or_refuse_changes. intros u Hm. apply requireMutable_Ok in Hm as [Hr Hc].
  apply ticketFor_Ok in Ht. case_match.
  - by apply (ch_event _ _ _ _ _ t).
  - by apply (replace_changes _ _ _ _ Ht).
Qed.

Lemma follows_quiet l tks rvs :
  match l with MAside | MWaiting | MClaim _ => True | _ => False end ->
  follows m l (m <| tm_tickets := tks |> <| tm_revisions := rvs |>).
Proof. destruct l; try done; intros _; unfold follows; simpl; split_and!; auto. Qed.

Lemma RecordInspection_changes cancelled i :
  changes m (QInspect i) (ran_map YTicket (RecordInspection cancelled i m)).
Proof.
  unfold RecordInspection. apply or_refuse_changes. intros _ _. apply or_refuse_changes.
  intros t Ht. apply currentFor_Ok in Ht as [Ht Hr]. case_match eqn:Hp; [unchanged|].
  case_match; [unchanged|]. bsimp.
  eapply (putCurrent_changes _ _ _ _ MWaiting _ _ _ Ht); try done.
  intros rs _ _. exact (mv_waiting t rs _ _ (ws_inspect _ (II_Snapshot i) (II_At i) Hp)).
Qed.

Lemma AwaitApproval_changes cancelled i :
  changes m (QAwait i) (ran_map YTicket (AwaitApproval cancelled i m)).
Proof.
  unfold AwaitApproval. apply or_refuse_changes. intros [] Hv. apply or_refuse_changes.
  intros t Ht. apply currentFor_Ok in Ht as [Ht Hr]. case_match; [unchanged|].
  case_match eqn:Hp; [unchanged|]. case_match eqn:Hs; [unchanged|].
  unfold validateApproval, check in Hv. rewrite guard_err_Ok in Hv. bsimp.
  destruct Hv as ((((_ & Hrun) & Hseq) & Hval) & _).
  eapply (putCurrent_changes _ _ _ _ MWaiting _ _ _ Ht); try done.
  intros rs _ _.
  refine (mv_waiting t rs _ _ (ws_await _ (MkApproval _ _ _) (AI_At i) Hp _ _ _ _)); done.
Qed.

Lemma approval_for_Ok t i a :
  approval_for t i = Ok a ->
  Rv_Phase (Tk_Current t) = TPhaseAwaitingApproval /\ Rv_Approval (Tk_Current t) = Some a /\
  Ap_RunID a = KI_RunID i /\ Ap_AtSeq a = KI_ApprovalAtSeq i.
Proof.
  unfold approval_for. destruct (Rv_Approval (Tk_Current t)) as [a'|]; [|done].
  case_match eqn:E; [done|]. intros [= ->]. bsimp. tauto.
Qed.

Lemma claim_moves t rs i a :
  Tk_Active t = None -> Rv_Ref (Tk_Current t) = KI_Ref i -> approval_for t i = Ok a ->
  let t' := start_execution t (execution_of i a) (KI_At i) in
  moves t rs (MClaim i) t' (<[TR_Revision (Rv_Ref (Tk_Current t')) := Tk_Current t']> rs).
Proof. intros Ha Hr (H1 & H2 & H3 & H4)%approval_for_Ok. exact (mv_claim t rs i a Ha Hr H1 H2 H3 H4). Qed.

Lemma ClaimExecution_changes cancelled i :
  changes m (QClaim i) (ran_map YTicket (ClaimExecution cancelled i m)).
Proof.
  unfold ClaimExecution. apply or_refuse_changes. intros _ _. apply or_refuse_changes.
  intros t Ht. apply ticketFor_Ok in Ht. destruct (Tk_Active t) as [e|] eqn:Ha.
  { unfold existingClaim. case_match; unchanged. }
  apply or_refuse_changes. intros u Hr. apply requireCurrent_Ok in Hr.
  apply or_refuse_changes. intros a Hc.
  eapply (putCurrent_changes _ _ _ _ (MClaim i) _ _ _ Ht); try done.
  - intros rs _ _. by apply claim_moves.
  - intros. by apply follows_quiet.
Qed.

Lemma ClaimExecutionWithAttempt_changes cancelled i :
  changes m (QClaimAttempt i) (ran_map YAttempt (ClaimExecutionWithAttempt cancelled i m)).
Proof.
  unfold ClaimExecutionWithAttempt.
  destruct (_ ≫= _) as [t|e] eqn:Ht; [|unchanged]. inv_ok.
  match goal with H : ticketFor _ _ _ = _ |- _ => apply ticketFor_Ok in H; rename H into Ht end.
  destruct (Tk_Active t) as [act|] eqn:Ha.
  { unfold existingClaim. destruct (_ && _ && _); simpl; [|unchanged].
    destruct (tm_attempts m !! _); [case_match|]; unchanged. }
  case_match eqn:Hk; [unchanged|]. bsimp.
  destruct (requireCurrent _ _ ≫= _) as [a|e] eqn:Hc; [|unchanged]. inv_ok.
  match goal with H : requireCurrent _ _ = _ |- _ => apply requireCurrent_Ok in H end.
  case_match eqn:Hat; [unchanged|].
  eapply (putCurrent_changes _ _ _ _ (MClaim (KA_Claim i)) _ _ _ Ht); try done.
  - intros rs _ _. by apply claim_moves.
  - intros. unfold follows. split_and!; simpl; try done. right.
    exists (attemptFor (execution_of (KA_Claim i) a) i). split_and!; try done.
    simpl. by apply eq_None_not_Some.
Qed.

Lemma CloseRevision_changes cancelled i :
  changes m (QClose i) (ran_map YTicket (CloseRevision cancelled i m)).
Proof.
  unfold CloseRevision. apply or_refuse_changes. intros [] Hv. apply or_refuse_changes.
  intros t Ht. apply currentFor_Ok in Ht as [Ht Hr]. case_match; [unchanged|].
  case_match eqn:Ha; [unchanged|]. case_match eqn:Hp; [unchanged|].
  unfold validateClose, check in Hv. rewrite guard_err_Ok in Hv. bsimp. destruct Hv as [_ Hv].
  eapply (putCurrent_changes _ _ _ _ MWaiting _ _ _ Ht); try done.
  intros rs Hrs K.
  refine (mv_waiting t rs _ _ (ws_close _ (CI_Phase i) (CI_Result i) (CI_At i) _ _)); [|tauto].
  destruct (kept_current _ _ _ _ K) as [Hcr [Hph _ _ _]]. rewrite Hp, orb_false_r in Hph.
  apply orb_true_iff in Hph as [Hph|Hph]; [done|]. destruct Ha.
  rewrite (kp_runs _ _ _ _ K _ _ (kp_current _ _ _ _ K) Hph). congruence.
Qed.

(** A settled execution, whichever operation settles it. *)
Lemma settle_changes q t e p res at_ (f : Ticket * option TicketError -> ticket_reply) :
  tm_tickets m !! TR_Key (Ex_Ref e) = Some t -> Tk_Active t = Some e ->
  p = TPhaseCompleted \/ p = TPhaseRejected \/ p = TPhaseNeedsAttention ->
  (forall y, newly_claimed q (f y) = None) -> (forall y, handed q (f y) = []) ->
  changes m q (ran_map f (settle_execution m
    ((if String.eqb p TPhaseNeedsAttention then t else t <| Tk_Active := None |>)
       <| Tk_UpdatedAt := at_ |>)
    (Ex_Ref e) (settled_revision m (Ex_Ref e) p res at_))).
Proof.
  intros Ht Ha Hp Hn Hh. destruct (kept_ticket _ _ Ht) as (rs & Hrs & K).
  destruct (kp_active _ _ _ _ K _ Ha) as (_ & r & Hr & _).
  unfold settle_execution, put_revision, settled_revision, revision_at. rewrite Hrs.
  cbn [mbind option_bind]. rewrite Hr. cbn [ran_map changes default].
  pose proof (mv_settle t rs e r p res at_ Ha Hr Hp) as Hm. cbv zeta in Hm.
  destruct (String.eqb p TPhaseNeedsAttention);
    (eapply (ch_move _ _ _ _ t rs (MSettle (Ex_Ref e))); [done|done|exact Hm|done|done| | | |done|done]);
    try (by case_match); unfold follows; by split_and!.
Qed.

Lemma FinishExecution_changes cancelled i :
  changes m (QFinish i) (ran_map YSettled (FinishExecution cancelled i m)).
Proof.
  unfold FinishExecution. destruct (_ ≫= _) as [t|e] eqn:Ht; [|unchanged].
  apply result_bind_Ok in Ht as ([] & Hv & Ht). apply ticketFor_Ok in Ht.
  destruct (Tk_Active t) as [act|] eqn:Ha; [|case_match; unchanged].
  case_match eqn:He; [unchanged|]. bsimp. subst act.
  unfold validateFinish, check in Hv. rewrite guard_err_Ok in Hv. bsimp. destruct Hv as [_ Hv].
  pose proof (settle_changes (QFinish i) t (FI_Execution i) (FI_Phase i) (FI_Result i) (FI_At i)
    YSettled Ht Ha) as H.
  destruct Hv as [Hv|Hv]; rewrite Hv in *; apply H; auto.
Qed.

Lemma Attention_changes cancelled i :
  changes m (QAttention i) (ran_map YSettled (MarkExecutionNeedsAttention cancelled i m)).
Proof.
  unfold MarkExecutionNeedsAttention. destruct (_ ≫= _) as [t|e] eqn:Ht; [|unchanged].
  apply result_bind_Ok in Ht as ([] & Hv & Ht). apply ticketFor_Ok in Ht.
  case_match eqn:Ha; [unchanged|]. case_match; [unchanged|]. bsimp.
  by apply (settle_changes (QAttention i) t (NI_Execution i) TPhaseNeedsAttention); auto.
Qed.

Lemma CloseTicket_changes cancelled i :
  changes m (QCloseTicket i) (ran_map YTicket (CloseTicket cancelled i m)).
Proof.
  unfold CloseTicket. apply or_refuse_changes. intros _ _. destruct cancelled; [unchanged|].
  destruct (tm_tickets m !! CT_Key i) as [t|] eqn:Ht; [|unchanged].
  destruct (Tk_Closed t) eqn:Hc; [unchanged|].
  destruct (kept_ticket _ _ Ht) as (rs & Hrs & K).
  eapply (ch_move _ _ _ _ t rs MAside); try done; [by apply mv_aside|].
  simpl. by rewrite insert_id.
Qed.

Lemma Superseded_changes cancelled ref at_ :
  changes m (QSuperseded ref at_) (ran_map YError (MarkApprovalSuperseded cancelled ref at_ m)).
Proof.
  unfold MarkApprovalSuperseded. case_match; [|unchanged]. destruct cancelled; [unchanged|].
  destruct (revision_at m ref); [|unchanged]. case_match; [unchanged|].
  apply ch_notes; try done. by apply nt_same.
Qed.

Lemma blank_empty s : blank s = false -> s <> "".
Proof. by intros H ->. Qed.

Lemma ClaimOutcomes_changes cancelled owner now lease limit :
  changes m (QClaimOutcomes owner now lease limit)
    (ran_map YOutcomes (ClaimOutcomes cancelled owner now lease limit m)).
Proof.
  unfold ClaimOutcomes. destruct (validateOutcomeClaim _ _ _ _) as [[]|e] eqn:Hv; [|unchanged].
  destruct cancelled; [unchanged|]. unfold validateOutcomeClaim, check in Hv.
  rewrite guard_err_Ok in Hv. bsimp.
  apply ch_notes; try done. apply (nt_claim _ _ owner now limit (Time_Add now lease)); try done.
  apply blank_empty. tauto.
Qed.

Lemma Announced_changes cancelled ref owner at_ :
  changes m (QAnnounced ref owner at_) (ran_map YError (MarkOutcomeAnnounced cancelled ref owner at_ m)).
Proof.
  unfold MarkOutcomeAnnounced. destruct (validateOutcomeMark _ _ _) as [[]|e] eqn:Hv; [|unchanged].
  destruct cancelled; [unchanged|]. case_match; [unchanged|]. case_match eqn:Ho; [unchanged|].
  unfold validateOutcomeMark, check in Hv. rewrite guard_err_Ok in Hv. bsimp.
  assert (owner <> "") by (apply blank_empty; tauto).
  destruct (tm_outcomeClaims m !! ref) as [c|] eqn:Hc; [|done].
  apply ch_notes; try done. by apply (nt_announce _ _ ref c).
Qed.

Lemma ClaimReviews_changes cancelled owner now lease limit :
  changes m (QClaimReviews owner now lease limit)
    (ran_map YReviews (ClaimReviews cancelled owner now lease limit m)).
Proof.
  unfold ClaimReviews. case_match; [|unchanged]. destruct cancelled; [unchanged|].
  apply ch_notes; try done. by apply nt_same.
Qed.

Lemma ReviewOpened_changes cancelled key root owner at_ :
  changes m (QReviewOpened key root owner at_)
    (ran_map YError (MarkReviewOpened cancelled key root owner at_ m)).
Proof.
  unfold MarkReviewOpened. case_match; [|unchanged]. destruct cancelled; [unchanged|].
  destruct (tm_tickets m !! key) as [t|] eqn:Ht; [|unchanged].
  do 3 (case_match; [unchanged|]). destruct (kept_ticket _ _ Ht) as (rs & Hrs & K).
  eapply (ch_move _ _ _ _ t rs MAside); try done; [by apply mv_aside|].
  simpl. by rewrite insert_id.
Qed.

(** Every request is served, and the store changes as the state machine says. *)
Lemma handle_changes cancelled q : changes m q (handle cancelled q m).
Proof.
  destruct q; [apply Open_changes|apply Revise_changes|apply Address_changes
    |apply RecordInspection_changes|apply AwaitApproval_changes|apply ClaimExecution_changes
    |apply ClaimExecutionWithAttempt_changes|apply Attention_changes|apply CloseRevision_changes
    |apply FinishExecution_changes|apply CloseTicket_changes|apply Superseded_changes
    |apply ClaimOutcomes_changes|apply Announced_changes|apply ClaimReviews_changes
    |apply ReviewOpened_changes].
Qed.
End Handling.
