(* ===== verification/TicketSafety.v ===== *)
(** * Guarantees of the ticket store

    Over every history of requests: the store stays coherent and never panics,
    revisions only advance and end for good, a revision is executed at most once
    and only as approved, a scope holds a bounded number of open tickets, an
    outcome is announced only after somebody was handed it, and a thread names
    one ticket. *)

From Stdlib Require Import ZArith Lia Ascii String Sorting.Permutation Sorting.Sorted.
From stdpp Require Import base list strings gmap sorting.
From S2P Require Import Prelude GoStrings Json Domain Payload Encode Ticket TicketFacts.

Local Open Scope string_scope.

(** ** Coherence over histories *)

Lemma opened_keeps b i :
  (1 <= b)%Z -> validateOpen i = Ok tt ->
  keeps b (OI_Key i) (opened i) {[1%Z := Tk_Current (opened i)]}.
Proof.
  intros Hb Hv. unfold validateOpen, check in Hv. inv_ok. bsimp.
  split; simpl; try done.
  - intros j. split.
    + intros [r Hr%lookup_singleton_Some]. lia.
    + intros Hj. replace j with 1%Z by lia. rewrite lookup_singleton_eq. eauto.
  - intros j r [<- <-]%lookup_singleton_Some. split; [done|]. by apply sound_collecting.
  - intros j r [<- <-]%lookup_singleton_Some. lia.
  - by intros j r [<- <-]%lookup_singleton_Some.
Qed.

Lemma change_coherent b m q y m' :
  coherent b m -> (0 <= b < int64_max)%Z -> change m q y m' -> coherent (b + 1) m'.
Proof.
  intros C Hb H k. pose proof (C k) as Ck.
  assert (W : kept (b + 1) k (tm_tickets m !! k) (tm_revisions m !! k)).
  { unfold kept in *. repeat case_match; try done. by apply (keeps_weaken b); [lia|]. }
  destruct H as [m' H1 H2 _ _ _ _|ev ref t Ht Hr _ _ _|i Hv Ht _ _ _ _|k' t rs l t' rs' m' Ht Hrs Hm H1 H2 _ _ _ _ _].
  - by rewrite H1, H2.
  - done.
  - simpl. destruct (decide (k = OI_Key i)) as [->|D].
    + rewrite !lookup_insert_eq. apply opened_keeps; [lia|done].
    + by rewrite !lookup_insert_ne by done.
  - rewrite H1, H2. destruct (decide (k = k')) as [->|D].
    + rewrite !lookup_insert_eq. rewrite Ht, Hrs in Ck. simpl in *.
      eapply moves_keep; [done|lia|done].
    + by rewrite !lookup_insert_ne by done.
Qed.

(** A history from a coherent store runs to its end, each request changing the
    store as the state machine says. *)
Inductive history : Z -> TicketMemory -> list (ticket_request * ticket_reply) -> TicketMemory -> Prop :=
| hist_nil b m : history b m [] m
| hist_cons b m q y m1 log m2 :
    coherent b m -> change m q y m1 -> history (b + 1) m1 log m2 ->
    history b m ((q, y) :: log) m2.

Lemma serve_all_history qs b m :
  coherent b m -> (0 <= b)%Z -> (b + Z.of_nat (List.length qs) <= int64_max)%Z ->
  exists m' log, serve_all qs m = Some (m', log) /\ history b m log m' /\
    coherent (b + Z.of_nat (List.length qs)) m'.
Proof.
  revert b m. induction qs as [|[cancelled q] qs IH]; intros b m C Hb Hl; simpl List.length in *.
  - exists m, []. rewrite Z.add_0_r. repeat split; [constructor|done].
  - simpl. pose proof (handle_changes b m C cancelled q) as H.
    destruct (handle cancelled q m) as [y m1|]; [|done]. simpl in H.
    destruct (IH (b + 1)%Z m1) as (m2 & log & E & Hh & C2); [|lia|lia|].
    { eapply change_coherent; [done|lia|done]. }
    rewrite E. exists m2, ((q, y) :: log). split_and!; [done|by econstructor|].
    by replace (b + Z.of_nat (S (List.length qs)))%Z with (b + 1 + Z.of_nat (List.length qs))%Z by lia.
Qed.

Lemma coherent_new b : coherent b NewTicketMemory.
Proof. intros k. unfold NewTicketMemory. simpl. by rewrite !lookup_empty. Qed.

Lemma from_new qs m log :
  (Z.of_nat (List.length qs) <= int64_max)%Z -> serve_all qs NewTicketMemory = Some (m, log) ->
  history 0 NewTicketMemory log m /\ coherent (Z.of_nat (List.length qs)) m.
Proof.
  intros Hl H. destruct (serve_all_history qs 0 NewTicketMemory) as (m' & log' & E & Hh & C);
    [apply coherent_new|lia|lia|].
  rewrite E in H. injection H as <- <-. done.
Qed.

(** ** Revisions advance *)

Definition rank (p : Phase) : nat :=
  if String.eqb p TPhaseCollecting then 0
  else if String.eqb p TPhaseAwaitingApproval then 1
  else if String.eqb p TPhaseExecuting then 2
  else if String.eqb p TPhaseNeedsAttention then 3
  else 4.

(** What may become of a revision: its request stays what it was, what was
    approved of it stays approved, and an end is final. *)
Record advances (r r' : Revision) : Prop := {
  adv_same : Rv_Ref r' = Rv_Ref r /\ Rv_Draft r' = Rv_Draft r /\
    Rv_Recipients r' = Rv_Recipients r /\ Rv_CreatedAt r' = Rv_CreatedAt r;
  adv_rank : (rank (Rv_Phase r) <= rank (Rv_Phase r'))%nat;
  adv_fixed : (0 < rank (Rv_Phase r))%nat ->
    Rv_Approval r' = Rv_Approval r /\ Rv_Snapshot r' = Rv_Snapshot r;
  adv_ended : phase_terminal (Rv_Phase r) = true -> r' = r
}.

#[export] Instance advances_preorder : PreOrder advances.
Proof.
  split.
  - intros r. by split.
  - intros r1 r2 r3 [A1 A2 A3 A4] [B1 B2 B3 B4]. split.
    + destruct A1 as (E1 & E2 & E3 & E4).
      destruct B1 as (F1 & F2 & F3 & F4). by rewrite F1, F2, F3, F4.
    + lia.
    + intros H. destruct (A3 H) as [E1 E2]. destruct (B3 ltac:(lia)) as [F1 F2]. by rewrite F1, F2.
    + intros H. rewrite (A4 H) in *. by apply B4.
Qed.

Lemma waiting_advances r r' : waiting_step r r' -> advances r r'.
Proof.
  intros [snap at_ Hp|a at_ Hp _ _ _ _|p res at_ Hw Hp].
  - split; simpl; [done|done| |]; rewrite Hp; simpl; [intros H; vm_compute in H; lia|done].
  - split; simpl; [done| | |]; rewrite Hp; simpl; [vm_compute; lia|intros H; vm_compute in H; lia|done].
  - split; simpl; [done| |done|].
    + destruct Hp as [-> | ->], (proj1 (waits_cases _) Hw) as [-> | ->]; vm_compute; lia.
    + by destruct (proj1 (waits_cases _) Hw) as [-> | ->].
Qed.

Lemma superseded_advances r at_ : sound r -> advances r (superseded_by r at_).
Proof.
  intros S. unfold superseded_by. destruct (cancels (Rv_Phase r)) eqn:E; [|done].
  split; simpl; [done| |done|].
  - unfold rank at 2. simpl. unfold rank. repeat case_match; lia.
  - intros H. unfold cancels in E. rewrite H in E. by rewrite !andb_false_r in E.
Qed.

Lemma moves_advance b k t rs l t' rs' i r :
  keeps b k t rs -> (b < int64_max)%Z -> moves t rs l t' rs' -> rs !! i = Some r ->
  exists r', rs' !! i = Some r' /\ advances r r'.
Proof.
  intros K Hb Hm Hi.
  assert (P : forall j s s', rs !! j = Some s -> advances s s' ->
                exists r', <[j := s']> rs !! i = Some r' /\ advances r r').
  { intros j s s' Hj A. destruct (decide (i = j)) as [<-|D].
    - exists s'. rewrite lookup_insert_eq. by replace r with s by congruence.
    - exists r. by rewrite lookup_insert_ne. }
  pose proof (kp_current _ _ _ _ K) as Hc. destruct (kept_current _ _ _ _ K) as [Hcr Hs].
  destruct Hm as [u H1 H2 H3 H4|r' at_ Hw|c Hcl cur nxt|ci a Ha Href Hp Hap Hr Hq u|e er p res at_ He Her Hp er' u].
  - by exists r.
  - eapply P; [done|]. by apply waiting_advances.
  - destruct (P _ _ _ Hc (superseded_advances _ (rc_at c) Hs)) as (r' & Hr' & A).
    exists r'. split; [|done]. rewrite lookup_insert_ne; [done|]. simpl.
    pose proof (kept_in_range _ _ _ _ K _ _ Hi). pose proof (kp_bound _ _ _ _ K).
    unfold add64. rewrite wrap64_id; [lia|]. apply in_int64_spec. unfold int64_max in Hb. lia.
  - eapply P; [done|]. split; simpl; [done| |done|]; rewrite Hp; [vm_compute; lia|done].
  - eapply P; [done|]. destruct (kp_active _ _ _ _ K _ He) as (_ & s & Hs' & Hrun & _).
    rewrite Her in Hs'. injection Hs' as <-. apply runs_cases in Hrun.
    split; simpl; [done| |done|].
    + destruct Hrun as [-> | ->], Hp as [-> |[-> | ->]]; vm_compute; lia.
    + by destruct Hrun as [-> | ->].
Qed.

Lemma change_advances b m q y m' ref r :
  coherent b m -> (b < int64_max)%Z -> change m q y m' -> revision_at m ref = Some r ->
  exists r', revision_at m' ref = Some r' /\ advances r r'.
Proof.
  intros C Hb H Hr. unfold revision_at in *.
  destruct H as [m' H1 H2 _ _ _ _|ev rf t Ht Hrf _ _ _|i Hv Ht _ _ _ _|k' t rs l t' rs' m' Ht Hrs Hm H1 H2 _ _ _ _ _].
  - rewrite H2. by exists r.
  - by exists r.
  - simpl. exists r. split; [|done]. rewrite lookup_insert_ne; [done|]. intros E.
    specialize (C (OI_Key i)). rewrite Ht, E in C. simpl in C.
    destruct (tm_revisions m !! TR_Key ref); done.
  - rewrite H2. destruct (decide (TR_Key ref = k')) as [<-|D].
    + rewrite lookup_insert_eq. simpl. rewrite Hrs in Hr. simpl in Hr.
      specialize (C (TR_Key ref)). rewrite Ht, Hrs in C. simpl in C. by eapply moves_advance.
    + rewrite lookup_insert_ne by done. by exists r.
Qed.

Lemma history_advances b m log m' ref r :
  history b m log m' -> (b + Z.of_nat (List.length log) <= int64_max)%Z -> revision_at m ref = Some r ->
  exists r', revision_at m' ref = Some r' /\ advances r r'.
Proof.
  intros H. revert r. induction H as [b m|b m q y m1 log m2 C Hc Hh IH]; intros r Hl Hr; [by exists r|].
  simpl List.length in Hl.
  destruct (change_advances _ _ _ _ _ _ _ C ltac:(lia) Hc Hr) as (r1 & H1 & A1).
  destruct (IH r1 ltac:(lia) H1) as (r2 & H2 & A2). exists r2. split; [done|]. by etransitivity.
Qed.

(** ** Executions *)

Definition granted (log : list (ticket_request * ticket_reply)) : list ClaimInput :=
  omap (fun qy => newly_claimed qy.1 qy.2) log.

(** The revision a claim names carries the approval the claim names, of what
    was inspected, and has started. *)
Definition started_as_approved (m : TicketMemory) (i : ClaimInput) : Prop :=
  exists r a, revision_at m (KI_Ref i) = Some r /\ (2 <= rank (Rv_Phase r))%nat /\
    Rv_Approval r = Some a /\ Ap_RunID a = KI_RunID i /\ Ap_AtSeq a = KI_ApprovalAtSeq i /\
    Ap_Snapshot a = Rv_Snapshot r.

Lemma change_grants b m q y m' i :
  coherent b m -> change m q y m' -> newly_claimed q y = Some i ->
  (exists r, revision_at m (KI_Ref i) = Some r /\ rank (Rv_Phase r) = 1%nat) /\
  started_as_approved m' i.
Proof.
  intros C H Hn. destruct H as [| | |k t rs l t' rs' m' Ht Hrs Hm H1 H2 _ _ _ Hl _]; try congruence.
  rewrite Hn in Hl. destruct Hm as [| | |i' a Ha Href Hp Hap Hr Hq u|]; try done.
  injection Hl as <-. specialize (C k). rewrite Ht, Hrs in C. simpl in C.
  destruct (kept_current _ _ _ _ C) as [Hcr S]. pose proof (kp_current _ _ _ _ C) as Hc.
  assert (Hk : TR_Key (KI_Ref i) = k) by (rewrite <- Href, Hcr; done).
  unfold started_as_approved, revision_at. rewrite Hk, H2, Hrs, lookup_insert_eq, <- Href. simpl.
  rewrite Hc. split.
  - exists (Tk_Current t). split; [done|]. by rewrite Hp.
  - eexists _, a. rewrite lookup_insert_eq. split; [done|].
    destruct (sound_approved _ S) as (a' & E & Es & _); [by rewrite Hp|].
    rewrite Hap in E. injection E as <-. by split_and!; [vm_compute; lia|..].
Qed.

Lemma history_grants b m log m' :
  history b m log m' -> (b + Z.of_nat (List.length log) <= int64_max)%Z ->
  NoDup (map KI_Ref (granted log)) /\
  forall i, i ∈ granted log ->
    started_as_approved m' i /\
    (forall r, revision_at m (KI_Ref i) = Some r -> (rank (Rv_Phase r) <= 1)%nat).
Proof.
  induction 1 as [b m|b m q y m1 log m2 C Hc Hh IH]; intros Hl.
  { split; [constructor|]. intros i Hi. by apply elem_of_nil in Hi. }
  simpl List.length in Hl. destruct (IH ltac:(lia)) as [ND Hg].
  assert (Old : forall i, i ∈ granted log -> forall r, revision_at m (KI_Ref i) = Some r ->
                  (rank (Rv_Phase r) <= 1)%nat).
  { intros i Hi r Hr. destruct (change_advances _ _ _ _ _ _ _ C ltac:(lia) Hc Hr) as (r1 & H1 & A).
    destruct (Hg i Hi) as [_ L]. specialize (L _ H1). pose proof (adv_rank _ _ A). lia. }
  unfold granted in *. simpl. destruct (newly_claimed q y) as [i|] eqn:E; simpl.
  2:{ split; [done|]. intros i Hi. split; [by apply Hg|by apply Old]. }
  destruct (change_grants _ _ _ _ _ _ C Hc E) as [(r & Hr & R1) (r1 & a & H1 & R2 & S)].
  split.
  - apply NoDup_cons. split; [|done]. intros Hin. apply list_elem_of_fmap in Hin as (j & Ej & Hj).
    destruct (Hg j Hj) as [_ L]. rewrite <- Ej in L. specialize (L _ H1). lia.
  - intros j [-> |Hj]%elem_of_cons; [|split; [by apply Hg|by apply Old]]. split.
    + destruct (history_advances _ _ _ _ _ _ Hh ltac:(lia) H1) as (r2 & H2 & A).
      pose proof (adv_rank _ _ A). destruct (adv_fixed _ _ A ltac:(lia)) as [F1 F2].
      destruct S as (S1 & S2 & S3 & S4).
      exists r2, a. rewrite F1, F2. split_and!; try done. lia.
    + intros r' Hr'. rewrite Hr in Hr'. injection Hr' as <-. lia.
Qed.

(** ** Open tickets of a scope *)

Definition opens (scope : Scope) (tks : gmap TicketKey Ticket) : nat :=
  List.length (List.filter (open_in scope) ((map_to_list tks).*2)).

Lemma filter_length_perm {A} (f : A -> bool) l l' :
  Permutation l l' -> List.length (List.filter f l) = List.length (List.filter f l').
Proof. induction 1; simpl; repeat case_match; simpl; lia. Qed.

Lemma opens_fresh scope tks k t :
  tks !! k = None -> opens scope (<[k := t]> tks) = (Nat.b2n (open_in scope t) + opens scope tks)%nat.
Proof.
  intros H. unfold opens.
  rewrite (filter_length_perm _ _ ((k, t) :: map_to_list tks).*2);
    [simpl; by destruct (open_in scope t)|].
  apply fmap_Permutation. by apply map_to_list_insert.
Qed.

Lemma opens_replaced scope tks k t t' :
  tks !! k = Some t -> (open_in scope t' = true -> open_in scope t = true) ->
  (opens scope (<[k := t']> tks) <= opens scope tks)%nat.
Proof.
  intros H Ho. rewrite <- (insert_id _ _ _ H) at 2. rewrite <- insert_delete_eq.
  rewrite <- (insert_delete_eq _ k t), !opens_fresh by apply lookup_delete_eq.
  destruct (open_in scope t'), (open_in scope t); simpl; naive_solver lia.
Qed.

Lemma change_opens m q y m' scope :
  change m q y m' -> (Z.of_nat (open_count m scope) <= MaxOpenPerScope)%Z ->
  (Z.of_nat (open_count m' scope) <= MaxOpenPerScope)%Z.
Proof.
  change (open_count m scope) with (opens scope (tm_tickets m)).
  change (open_count m' scope) with (opens scope (tm_tickets m')).
  intros H Hl.
  destruct H as [m' H1 _ _ _ _ _|ev ref t _ _ _ _ _|i Hv Ht _ Hn _ _|k t rs l t' rs' m' Ht Hrs Hm H1 H2 Hsc Hcl _ _ _].
  - by rewrite H1.
  - done.
  - simpl. rewrite opens_fresh by done. unfold open_in at 1. simpl. unfold MaxOpenPerScope in *.
    destruct (bool_decide_reflect (OI_Scope i = scope)) as [E|_]; simpl; [|lia].
    rewrite E in Hn. change (open_count m scope) with (opens scope (tm_tickets m)) in Hn. lia.
  - rewrite H1. pose proof (opens_replaced scope _ _ _ t' Ht) as Hle.
    enough (open_in scope t' = true -> open_in scope t = true) by (specialize (Hle H); lia).
    unfold open_in. rewrite Hsc. bsimp. naive_solver.
Qed.

(** ** Events *)

(** Every revision was created by an event of its own, and an event names a
    revision that exists. *)
Definition events_ok (m : TicketMemory) : Prop :=
  (forall ev ref, tm_events m !! ev = Some ref -> is_Some (revision_at m ref)) /\
  (forall ref, is_Some (revision_at m ref) -> exists ev, tm_events m !! ev = Some ref).

Lemma moves_revisions b k t rs l t' rs' i :
  keeps b k t rs -> (b < int64_max)%Z -> moves t rs l t' rs' ->
  is_Some (rs' !! i) <-> is_Some (rs !! i) \/ l = MReplace (MkTicketRef k i).
Proof.
  intros K Hb Hm.
  split.
  - intros H. destruct (rs !! i) eqn:Hi; [by left; eauto|right].
    pose proof (kp_current _ _ _ _ K) as Hc. destruct (kept_current _ _ _ _ K) as [Hcr _].
    destruct Hm as [u|r' at_ Hw|c Hcl cur nxt|ci a Ha Href Hp Hap Hr Hq u|e er p res at_ He Her Hp er' u];
      try (rewrite lookup_insert_ne in H by congruence);
      try (rewrite Hi in H; by apply is_Some_None in H).
    assert (E : add64 (TR_Revision (Rv_Ref cur)) 1 = i).
    { destruct (decide (add64 (TR_Revision (Rv_Ref cur)) 1 = i)) as [|D]; [done|]. exfalso.
      rewrite lookup_insert_ne in H by done. rewrite lookup_insert_ne in H by (unfold cur in *; congruence).
      rewrite Hi in H. by apply is_Some_None in H. }
    subst nxt. simpl. rewrite (kp_key _ _ _ _ K). unfold cur in E. by rewrite E.
  - intros [[r Hr]|Hl].
    + destruct (moves_advance _ _ _ _ _ _ _ _ _ K Hb Hm Hr) as (r' & Hr' & _). eauto.
    + destruct Hm; try done. injection Hl as _ E. simpl. rewrite E, lookup_insert_eq. eauto.
Qed.

Lemma change_revisions b m q y m' ref :
  coherent b m -> (b < int64_max)%Z -> change m q y m' -> is_Some (revision_at m' ref) ->
  is_Some (revision_at m ref) \/
  (exists ev, tm_events m !! ev = None /\ tm_events m' = <[ev := ref]> (tm_events m)).
Proof.
  intros C Hb H Hr. unfold revision_at in *.
  destruct H as [m' H1 H2 _ _ _ _|ev rf t Ht Hrf _ _ _|i Hv Ht He _ _ _|k' t rs l t' rs' m' Ht Hrs Hm H1 H2 _ _ Hf _ _].
  - rewrite H2 in Hr. by left.
  - by left.
  - simpl in Hr. destruct (decide (TR_Key ref = OI_Key i)) as [E|D].
    + rewrite E, lookup_insert_eq in Hr. simpl in Hr. destruct Hr as [r [Er _]%lookup_singleton_Some].
      right. exists (OI_EventID i). split; [done|]. destruct ref; simpl in *. by subst.
    + rewrite lookup_insert_ne in Hr by done. by left.
  - rewrite H2 in Hr. destruct (decide (TR_Key ref = k')) as [<-|D].
    + rewrite lookup_insert_eq in Hr. simpl in Hr. rewrite Hrs. simpl.
      specialize (C (TR_Key ref)). rewrite Ht, Hrs in C. simpl in C.
      apply (moves_revisions _ _ _ _ _ _ _ _ C Hb Hm) in Hr as [Hr| ->]; [by left|right].
      destruct Hf as [(ev & E1 & E2) _]. exists ev. by destruct ref.
    + rewrite lookup_insert_ne in Hr by done. by left.
Qed.

Lemma change_events b m q y m' :
  coherent b m -> change m q y m' ->
  tm_events m' = tm_events m \/
  exists ev ref, tm_events m !! ev = None /\ tm_events m' = <[ev := ref]> (tm_events m) /\
    is_Some (revision_at m' ref).
Proof.
  intros C H.
  destruct H as [m' H1 H2 He _ _ _|ev rf t Ht Hrf Hev _ _|i Hv Ht He _ _ _|k t rs l t' rs' m' Ht Hrs Hm H1 H2 _ _ Hf _ _].
  - by left.
  - right. exists ev, rf. split_and!; [done|done|]. unfold revision_at. simpl.
    destruct (kept_ticket _ _ C _ _ Ht) as (rs & Hrs & K). rewrite Hrs. simpl.
    pose proof (kp_current _ _ _ _ K) as Hc. rewrite Hrf in Hc. eauto.
  - right. exists (OI_EventID i), (MkTicketRef (OI_Key i) 1). split_and!; [done|done|].
    unfold revision_at. simpl. rewrite lookup_insert_eq. simpl. rewrite lookup_singleton_eq. eauto.
  - destruct Hf as [Hf _]. destruct l as [| |ref| |]; try by left. right.
    destruct Hf as (ev & E1 & E2). exists ev, ref. split_and!; [done|done|].
    remember (MReplace ref) as lab eqn:El. destruct Hm; try done. injection El as <-.
    unfold revision_at. rewrite H2.
    specialize (C k). rewrite Ht, Hrs in C. simpl in *.
    rewrite (kp_key _ _ _ _ C), lookup_insert_eq. simpl. rewrite lookup_insert_eq. eauto.
Qed.

Lemma change_events_ok b m q y m' :
  coherent b m -> (b < int64_max)%Z -> change m q y m' -> events_ok m ->
  events_ok m' /\ tm_events m ⊆ tm_events m'.
Proof.
  intros C Hb H [O1 O2].
  assert (Sub : tm_events m ⊆ tm_events m').
  { destruct (change_events _ _ _ _ _ C H) as [-> |(ev & ref & E1 & -> & _)]; [done|].
    by apply insert_subseteq. }
  split; [split|done].
  - intros ev ref Hev.
    assert (Old : is_Some (revision_at m ref) -> is_Some (revision_at m' ref)).
    { intros [r Hr]. destruct (change_advances _ _ _ _ _ _ _ C Hb H Hr) as (r' & Hr' & _). eauto. }
    destruct (change_events _ _ _ _ _ C H) as [E|(ev' & ref' & E1 & E2 & Hr)].
    + rewrite E in Hev. eauto.
    + rewrite E2, lookup_insert_Some in Hev. destruct Hev as [[_ <-]|[_ Hev]]; eauto.
  - intros ref Hr. destruct (change_revisions _ _ _ _ _ _ C Hb H Hr) as [Hr'|(ev & _ & ->)].
    + destruct (O2 _ Hr') as [ev Hev]. exists ev. by eapply lookup_weaken.
    + exists ev. by rewrite lookup_insert_eq.
Qed.

(** ** Announcements *)

Definition given_out (log : list (ticket_request * ticket_reply)) : list (string * OutcomeNotice) :=
  log ≫= fun qy => handed qy.1 qy.2.

(** Somebody in [given] was handed the outcome [ref] has now. *)
Definition told (m : TicketMemory) (given : list (string * OutcomeNotice)) (ref : TicketRef) : Prop :=
  exists r o owner n, revision_at m ref = Some r /\ Rv_Outcome r = Some o /\ (owner, n) ∈ given /\
    ON_Ref n = ref /\ ON_Phase n = Rv_Phase r /\ ON_Result n = TO_Result o.

Definition notices_ok (m : TicketMemory) (given : list (string * OutcomeNotice)) : Prop :=
  (forall ref, ref ∈ tm_announced m -> told m given ref) /\
  (forall ref, is_Some (tm_outcomeClaims m !! ref) -> told m given ref).

(** A revision with an outcome keeps it, unless its execution is settled. *)
Lemma moves_outcome b k t rs l t' rs' i r o :
  keeps b k t rs -> (b < int64_max)%Z -> moves t rs l t' rs' -> rs !! i = Some r ->
  Rv_Outcome r = Some o ->
  (exists r', rs' !! i = Some r' /\ Rv_Outcome r' = Some o /\ Rv_Phase r' = Rv_Phase r) \/
  l = MSettle (MkTicketRef k i).
Proof.
  intros K Hb Hm Hi Ho.
  destruct (kp_each _ _ _ _ K _ _ Hi) as [_ S].
  assert (Hw : waits (Rv_Phase r) = false).
  { destruct (waits (Rv_Phase r)) eqn:W; [|done]. by rewrite (waiting_no_outcome _ S W) in Ho. }
  pose proof (kp_current _ _ _ _ K) as Hc.
  destruct Hm as [u|r' at_ Hst|c Hcl cur nxt|ci a Ha Href Hp Hap Hr Hq u|e er p res at_ He Her Hp er' u].
  - left. by exists r.
  - left. exists r. rewrite lookup_insert_ne; [done|]. intros <-.
    destruct (waiting_step_spec _ _ Hst) as [W _]. congruence.
  - left. exists r. split; [|done]. rewrite lookup_insert_ne.
    + destruct (decide (i = TR_Revision (Rv_Ref cur))) as [->|D]; [|by rewrite lookup_insert_ne].
      rewrite lookup_insert_eq. replace cur with r by (unfold cur in *; congruence).
      unfold superseded_by. destruct (cancels (Rv_Phase r)) eqn:E; [|done]. exfalso.
      destruct S as [X1 _ _ _]. unfold cancels, runs in *. rewrite Hw in X1. bsimp. intuition congruence.
    + simpl. pose proof (kept_in_range _ _ _ _ K _ _ Hi). pose proof (kp_bound _ _ _ _ K).
      unfold add64. rewrite wrap64_id; [unfold cur; lia|]. apply in_int64_spec. unfold int64_max in Hb.
      unfold cur. lia.
  - left. exists r. rewrite lookup_insert_ne; [done|]. intros <-.
    rewrite Hc in Hi. injection Hi as <-. by rewrite Hp in Hw.
  - destruct (decide (i = TR_Revision (Ex_Ref e))) as [->|D].
    + right. f_equal. destruct (kp_active _ _ _ _ K _ He) as [<- _]. by destruct (Ex_Ref e).
    + left. exists r. by rewrite lookup_insert_ne.
Qed.

Lemma told_mono m m' given given' ref :
  tm_revisions m' = tm_revisions m -> given ⊆ given' -> told m given ref -> told m' given' ref.
Proof.
  intros E Hs (r & o & owner & n & H1 & H2 & H3 & H4). unfold told, revision_at in *. rewrite E.
  exists r, o, owner, n. split_and!; try done; [by apply Hs|tauto..].
Qed.

Lemma all_revisions_In m key r :
  (key, r) ∈ all_revisions m -> exists rs n, tm_revisions m !! key = Some rs /\ rs !! n = Some r.
Proof.
  unfold all_revisions. intros (kr & H1 & H2)%list_elem_of_bind.
  destruct kr as [k rs]. apply list_elem_of_fmap in H1 as ([n r'] & E & Hn).
  apply elem_of_map_to_list in Hn, H2. simpl in *. injection E as -> ->. eauto.
Qed.

Lemma outcomes_from_In visit now limit m n :
  n ∈ outcomes_from visit now limit m ->
  exists key r, (key, r) ∈ visit /\ outcome_owed m now key r = Some n.
Proof.
  unfold outcomes_from. intros Hn%subseteq_take. rewrite sort_by_perm in Hn.
  apply list_elem_of_omap in Hn as ([key r] & H1 & H2). by exists key, r.
Qed.

Lemma stored_revision b m key r :
  coherent b m -> (key, r) ∈ all_revisions m ->
  revision_at m (Rv_Ref r) = Some r /\ TR_Key (Rv_Ref r) = key.
Proof.
  intros C Hin. apply all_revisions_In in Hin as (rs & j & Hrs & Hr).
  destruct (kept_revisions _ _ C _ _ Hrs) as (t & Ht & K).
  destruct (kp_each _ _ _ _ K _ _ Hr) as [-> _]. unfold revision_at. simpl. by rewrite Hrs.
Qed.

Lemma outcome_owed_ref m now key r n :
  outcome_owed m now key r = Some n ->
  ON_Ref n = Rv_Ref r /\ ON_Phase n = Rv_Phase r /\
  exists o, Rv_Outcome r = Some o /\ ON_Result n = TO_Result o.
Proof.
  unfold outcome_owed. destruct (Rv_Outcome r) as [o|]; [|done].
  repeat case_match; try done. intros [= <-]. simpl. eauto.
Qed.

Lemma outcome_owed_told b m now key r n owner given :
  coherent b m -> (key, r) ∈ all_revisions m -> outcome_owed m now key r = Some n ->
  (owner, n) ∈ given -> told m given (ON_Ref n).
Proof.
  intros C Hin (E1 & E2 & o & E3 & E4)%outcome_owed_ref Hg.
  destruct (stored_revision _ _ _ _ C Hin) as [Hr _]. exists r, o, owner, n. by rewrite E1.
Qed.

Lemma claim_outcomes_dom owner until l claims ref :
  is_Some (claim_outcomes owner until l claims !! ref) ->
  is_Some (claims !! ref) \/ exists n, n ∈ l /\ ON_Ref n = ref.
Proof.
  unfold claim_outcomes. revert claims. induction l as [|n l IH]; intros claims; simpl; [by left|].
  intros [H|(n' & H1 & H2)]%IH.
  - destruct (decide (ON_Ref n = ref)) as [E|D].
    + right. exists n. split; [|done]. by apply list_elem_of_here.
    + rewrite lookup_insert_ne in H by done. by left.
  - right. exists n'. split; [by apply list_elem_of_further|done].
Qed.

(** A told revision stays told, unless its execution is settled anew. *)
Lemma told_moves b m k t rs l t' rs' m' given ref :
  coherent b m -> (b < int64_max)%Z -> tm_tickets m !! k = Some t -> tm_revisions m !! k = Some rs ->
  moves t rs l t' rs' -> tm_revisions m' = <[k := rs']> (tm_revisions m) -> l <> MSettle ref ->
  told m given ref -> told m' given ref.
Proof.
  intros C Hb Ht Hrs Hm H2 Hl (r & o & owner & n & H3 & H4 & H5 & H6 & H7 & H8).
  unfold told, revision_at in *. rewrite H2. destruct (decide (TR_Key ref = k)) as [<-|D].
  - rewrite lookup_insert_eq. simpl. rewrite Hrs in H3. simpl in H3.
    specialize (C (TR_Key ref)). rewrite Ht, Hrs in C. simpl in C.
    destruct (moves_outcome _ _ _ _ _ _ _ _ _ _ C Hb Hm H3 H4) as [(r' & E1 & E2 & E3)|E].
    + exists r', o, owner, n. rewrite E3. by split_and!.
    + destruct Hl. by destruct ref.
  - rewrite lookup_insert_ne by done. exists r, o, owner, n. by split_and!.
Qed.

Lemma notes_ok b m g m' given :
  coherent b m -> tm_revisions m' = tm_revisions m -> notes m g m' -> notices_ok m given ->
  notices_ok m' (given ++ g).
Proof.
  intros C Hr Hn [O1 O2].
  assert (Mono : forall ref, told m given ref -> told m' (given ++ g) ref).
  { intros ref. apply told_mono; [done|]. set_solver. }
  destruct Hn as [m' A1 A2 ->|owner now limit until m' l Ho -> A1 A2|ref c m' -> Hc A1 A2];
    split; rewrite ?A1, ?A2; intros rf Hrf; auto.
  - apply claim_outcomes_dom in Hrf as [H|(n & Hn & <-)]; [auto|].
    destruct (outcomes_from_In _ _ _ _ _ Hn) as (key & r & H1 & H2).
    apply (told_mono m m' _ _ _ Hr (reflexivity _)), (outcome_owed_told b m now key r n owner); try done.
    apply elem_of_app. right. apply list_elem_of_fmap. eauto.
  - apply elem_of_union in Hrf as [->%elem_of_singleton|H]; eauto.
  - apply Mono, O2. destruct Hrf as [x [_ Hx]%lookup_delete_Some]. eauto.
Qed.

Lemma change_notices b m q y m' given :
  coherent b m -> (b < int64_max)%Z -> change m q y m' -> notices_ok m given ->
  notices_ok m' (given ++ handed q y).
Proof.
  intros C Hb H O.
  destruct H as [m' H1 H2 He _ _ Hn|ev rf t Ht Hrf Hev _ Hh|i Hv Ht He _ _ Hh|k t rs l t' rs' m' Ht Hrs Hm H1 H2 _ _ Hf _ Hh].
  - by eapply notes_ok.
  - rewrite Hh, app_nil_r. exact O.
  - rewrite Hh, app_nil_r.
    assert (T : forall ref, told m given ref -> told (after_open m i) given ref).
    { intros ref (r & o & owner & n & X & Y). exists r, o, owner, n. split; [|done].
      revert X. unfold revision_at. simpl. destruct (decide (OI_Key i = TR_Key ref)) as [E|D].
      - specialize (C (OI_Key i)). rewrite Ht, E in C. simpl in C.
        by destruct (tm_revisions m !! TR_Key ref).
      - by rewrite lookup_insert_ne. }
    destruct O as [O1 O2]. split; intros ref Hr; apply T; auto.
  - rewrite Hh, app_nil_r. destruct Hf as (_ & _ & Hf). destruct O as [O1 O2].
    assert (T : forall ref, l <> MSettle ref -> told m given ref -> told m' given ref).
    { intros ref Hl. by eapply told_moves. }
    unfold notices_ok.
    destruct l as [| |rref|ci|sref]; destruct Hf as [-> ->]; split; intros ref Hr; try (apply T; [done|auto]).
    + apply elem_of_difference in Hr as [Hr Hd]. apply T; [|auto]. intros [= ->]. set_solver.
    + destruct Hr as [c [Hd Hr]%lookup_delete_Some]. apply T; [congruence|]. apply O2. eauto.
Qed.

(** ** Names of threads *)

Lemma uint_no_colon d x : String.get x (DecimalString.NilEmpty.string_of_uint d) <> Some ":"%char.
Proof. revert x. induction d; intros [|x]; simpl; done. Qed.

Lemma length_prefix_cut n x :
  cut_byte ":" (print_Z (Z.of_nat n) +:+ String ":" x) = Some (print_Z (Z.of_nat n), x).
Proof.
  apply cut_byte_app. unfold print_Z. intros y. destruct n as [|n]; simpl.
  { by destruct y as [|[|y]]. }
  unfold DecimalString.NilZero.string_of_uint. case_match; [by destruct y as [|[|y]]|..];
    apply uint_no_colon.
Qed.

Lemma key_parts_inj ps qs k :
  List.length ps = List.length qs -> key_parts ps = Some k -> key_parts qs = Some k -> ps = qs.
Proof.
  revert qs k. induction ps as [|p ps IH]; intros [|q qs] k Hl Hp Hq; try done.
  simpl in Hp, Hq. repeat (case_match; try done). simplify_eq.
  match goal with H : _ = _ +:+ _ |- _ => rename H into E end.
  apply (f_equal (cut_byte ":")) in E. change (":" +:+ ?x) with (String ":" x) in E.
  rewrite !length_prefix_cut in E.
  injection E as E1 E2. apply print_Z_inj in E1. apply str_app_split in E2 as [-> ->]; [|lia].
  f_equal. eapply IH; [|done..]. simpl in Hl. lia.
Qed.

Lemma origin_key_inj o1 o2 k : origin_key o1 = Some k -> origin_key o2 = Some k -> o1 = o2.
Proof.
  unfold origin_key, Key. intros H1 H2.
  enough ([O_Connection o1; O_Conversation o1; O_Root o1] =
          [O_Connection o2; O_Conversation o2; O_Root o2]) as E by (destruct o1, o2; naive_solver).
  by eapply key_parts_inj.
Qed.

(** ** The guarantees *)

Lemma history_ok b m log m' given :
  history b m log m' -> (b + Z.of_nat (List.length log) <= int64_max)%Z ->
  events_ok m -> notices_ok m given ->
  (forall scope, (Z.of_nat (open_count m scope) <= MaxOpenPerScope)%Z) ->
  events_ok m' /\ notices_ok m' (given ++ given_out log) /\
  (forall scope, (Z.of_nat (open_count m' scope) <= MaxOpenPerScope)%Z).
Proof.
  intros H. revert given. induction H as [b m|b m q y m1 log m2 C Hc Hh IH];
    intros given Hl He Hn Ho; unfold given_out in *; simpl.
  { by rewrite app_nil_r. }
  simpl List.length in Hl. rewrite app_assoc. apply IH; [lia| | |].
  - eapply change_events_ok; [done|lia|done|done].
  - eapply change_notices; [done|lia|done|done].
  - intros scope. by eapply change_opens.
Qed.

Lemma new_ok :
  events_ok NewTicketMemory /\ notices_ok NewTicketMemory [] /\
  (forall scope, (Z.of_nat (open_count NewTicketMemory scope) <= MaxOpenPerScope)%Z).
Proof.
  assert (R : forall ref, revision_at NewTicketMemory ref = None).
  { intros ref. unfold revision_at, NewTicketMemory. simpl. by rewrite lookup_empty. }
  split_and!; [split|split|]; unfold NewTicketMemory; simpl.
  - intros ev ref. by rewrite lookup_empty.
  - intros ref [r Hr]. by rewrite R in Hr.
  - intros ref Hr. by apply not_elem_of_empty in Hr.
  - intros ref. rewrite lookup_empty. by intros [].
  - intros scope. done.
Qed.

Lemma served_length qs m m' log : serve_all qs m = Some (m', log) -> List.length log = List.length qs.
Proof.
  revert m m' log. induction qs as [|[c q] qs IH]; intros m m' log; simpl; [by intros [= <- <-]|].
  destruct (handle c q m); [|done]. destruct (serve_all qs m0) as [[m2 l2]|] eqn:E; [|done].
  intros [= <- <-]. simpl. f_equal. by eapply IH.
Qed.

(** C35. Whatever requests the ticket store is sent, in any order and however
    many are refused, it serves them all without panicking, and it stays
    coherent: a ticket's stored revisions are exactly the numbers up to its
    current one, each under its own reference and in one of the seven phases,
    only the current one still waits, at most one is executing and the ticket's
    active execution is that one with the approval it carries, an outcome names
    the phase it ended in, and each revision was created by an event of its
    own. *)
Theorem ticket_histories_stay_coherent qs :
  (Z.of_nat (List.length qs) <= int64_max)%Z ->
  exists m log, serve_all qs NewTicketMemory = Some (m, log) /\
    coherent (Z.of_nat (List.length qs)) m /\ events_ok m.
Proof.
  intros Hl. destruct (serve_all_history qs 0 NewTicketMemory) as (m & log & E & Hh & C);
    [apply coherent_new|lia|lia|].
  exists m, log. split_and!; [done|done|]. destruct new_ok as (O1 & O2 & O3).
  eapply history_ok; [done| |done..]. rewrite (served_length _ _ _ _ E). lia.
Qed.

(** A revision only advances. Whatever is asked of the store after a
    revision exists, it is still there under the same reference with the same
    draft and recipients; its phase is the same or a later one; once it awaits
    approval, its snapshot and its approval never change; and once it is
    completed, rejected or cancelled nothing about it ever changes. *)
Theorem revisions_only_advance qs1 qs2 m1 log1 m2 log2 ref r :
  (Z.of_nat (List.length (qs1 ++ qs2)) <= int64_max)%Z ->
  serve_all qs1 NewTicketMemory = Some (m1, log1) -> serve_all qs2 m1 = Some (m2, log2) ->
  revision_at m1 ref = Some r ->
  exists r', revision_at m2 ref = Some r' /\ advances r r'.
Proof.
  rewrite length_app. intros Hl H1 H2 Hr.
  destruct (from_new qs1 m1 log1) as [_ C]; [lia|done|].
  destruct (serve_all_history qs2 _ m1 C) as (m' & log' & E & Hh & _); [lia|lia|].
  rewrite E in H2. injection H2 as -> ->.
  eapply history_advances; [done| |done]. rewrite (served_length _ _ _ _ E). lia.
Qed.

(** C8. Execution of a ticket revision happens at most once, and only as
    approved: over any history, no two claims of the same revision are both
    granted, and every claim that was granted named the run and the step of the
    approval the revision carries, which is of the very snapshot that was
    inspected. *)
Theorem a_revision_is_executed_once qs m log :
  (Z.of_nat (List.length qs) <= int64_max)%Z ->
  serve_all qs NewTicketMemory = Some (m, log) ->
  NoDup (map KI_Ref (granted log)) /\ forall i, i ∈ granted log -> started_as_approved m i.
Proof.
  intros Hl H. destruct (from_new qs m log Hl H) as [Hh _].
  destruct (history_grants _ _ _ _ Hh) as [ND Hg]; [rewrite (served_length _ _ _ _ H); lia|].
  split; [done|]. intros i Hi. by apply Hg.
Qed.

(** A scope never holds more than two hundred open tickets, over any
    history of the store. *)
Theorem open_tickets_are_bounded qs m log scope :
  (Z.of_nat (List.length qs) <= int64_max)%Z ->
  serve_all qs NewTicketMemory = Some (m, log) ->
  (open_count m scope <= 200)%nat.
Proof.
  intros Hl H. destruct (from_new qs m log Hl H) as [Hh _]. destruct new_ok as (O1 & O2 & O3).
  destruct (history_ok _ _ _ _ _ Hh ltac:(rewrite (served_length _ _ _ _ H); lia) O1 O2 O3) as (_ & _ & O).
  specialize (O scope). unfold MaxOpenPerScope in O. lia.
Qed.

(** No outcome is marked announced before it was handed out: if the store
    holds a revision as announced, some claimer was given a notice with the
    very phase and result the revision has now. When an execution that needed
    attention is finished later, the mark is dropped, so the final outcome is
    owed anew. *)
Theorem announced_outcomes_were_handed_out qs m log ref :
  (Z.of_nat (List.length qs) <= int64_max)%Z ->
  serve_all qs NewTicketMemory = Some (m, log) -> ref ∈ tm_announced m ->
  told m (given_out log) ref.
Proof.
  intros Hl H Ha. destruct (from_new qs m log Hl H) as [Hh _]. destruct new_ok as (O1 & O2 & O3).
  destruct (history_ok _ _ _ _ _ Hh ltac:(rewrite (served_length _ _ _ _ H); lia) O1 O2 O3)
    as (_ & [O _] & _).
  by apply O.
Qed.

Lemma find_unique {A} (f : A -> bool) l x :
  x ∈ l -> f x = true -> (forall y, y ∈ l -> f y = true -> y = x) -> List.find f l = Some x.
Proof.
  intros Hx Hf Hu. destruct (List.find f l) as [y|] eqn:E.
  - apply List.find_some in E as [Hy Hfy]. f_equal. apply Hu; [by apply list_elem_of_In|done].
  - apply list_elem_of_In in Hx. by rewrite (List.find_none _ _ E _ Hx) in Hf.
Qed.

(** A support thread names one ticket: looking a ticket up by its origin
    finds the ticket stored under the origin's key, whichever order the map of
    tickets is visited in, because the length-prefixed key determines the
    connection, the conversation and the root. *)
Theorem a_thread_names_one_ticket qs m log o k visit :
  (Z.of_nat (List.length qs) <= int64_max)%Z ->
  serve_all qs NewTicketMemory = Some (m, log) ->
  visit ≡ₚ (map_to_list (tm_tickets m)).*2 -> origin_key o = Some k ->
  AtOrigin false o visit = CurrentTicket false k m.
Proof.
  intros Hl H Hv Ho. destruct (from_new qs m log Hl H) as [_ C].
  assert (Hm : forall t, t ∈ visit -> exists k', tm_tickets m !! k' = Some t /\ origin_key (Tk_Origin t) = Some k').
  { intros t Ht. rewrite Hv in Ht. apply list_elem_of_fmap in Ht as ([k' t'] & -> & Ht).
    apply elem_of_map_to_list in Ht. exists k'. split; [done|].
    destruct (kept_ticket _ _ C _ _ Ht) as (rs & _ & K). apply K. }
  unfold AtOrigin, CurrentTicket, found. destruct (tm_tickets m !! k) as [t|] eqn:Ht.
  - destruct (kept_ticket _ _ C _ _ Ht) as (rs & _ & K). pose proof (kp_origin _ _ _ _ K) as Hk.
    rewrite (find_unique _ _ t); [done| | |].
    + rewrite Hv. apply list_elem_of_fmap. exists (k, t). split; [done|]. by apply elem_of_map_to_list.
    + apply bool_decide_eq_true. by eapply origin_key_inj.
    + intros u Hu E. apply bool_decide_eq_true in E. destruct (Hm u Hu) as (k' & H1 & H2).
      rewrite E, Ho in H2. injection H2 as <-. congruence.
  - destruct (List.find _ visit) as [u|] eqn:E; [|done]. exfalso.
    apply List.find_some in E as [Hu E]. apply bool_decide_eq_true in E.
    destruct (Hm u) as (k' & H1 & H2); [by apply list_elem_of_In|].
    rewrite E, Ho in H2. injection H2 as <-. congruence.
Qed.

(** ** The order of a range over a map does not show *)

Lemma ref_before_lt a b :
  ref_before a b = true <->
  str_lt (TR_Key a) (TR_Key b) \/ TR_Key a = TR_Key b /\ (TR_Revision a < TR_Revision b)%Z.
Proof.
  unfold ref_before, str_lt. destruct (String.compare (TR_Key a) (TR_Key b)) eqn:E.
  - apply String.compare_eq_iff in E. rewrite Z.ltb_lt. split; [by right|]. by intros [[=]|[_ H]].
  - split; [by left|done].
  - split; [done|]. intros [[=]|[H _]]. rewrite H, compare_refl_eq in E. done.
Qed.

Lemma ref_before_total a b :
  ref_before a b = false -> ref_before b a = false -> a = b.
Proof.
  intros H1 H2. apply not_true_iff_false in H1, H2. rewrite ref_before_lt in H1, H2.
  destruct a as [k1 n1], b as [k2 n2]; simpl in *.
  destruct (decide (k1 = k2)) as [->|D]; [f_equal; destruct (Z.lt_total n1 n2) as [|[]]; naive_solver|].
  exfalso. destruct (decide (str_le k1 k2)) as [L|L].
  - apply str_le_lt_or_eq in L as [L|L]; naive_solver.
  - apply str_lt_not_le in L. naive_solver.
Qed.

Lemma ref_before_asym a b : ref_before a b = true -> ref_before b a = false.
Proof.
  rewrite ref_before_lt. intros H. apply not_true_iff_false. rewrite ref_before_lt.
  pose proof (fun x => str_lt_irrefl x) as I. intros H'.
  destruct H as [H|[E H]], H' as [H'|[E' H']]; [|rewrite E' in H|rewrite E in H'|lia];
    eapply I; try done. by eapply compare_lt_trans.
Qed.

Lemma ref_before_trans a b c :
  ref_before b a = false -> ref_before c b = false -> ref_before c a = false.
Proof.
  intros H1 H2. destruct (ref_before c a) eqn:E; [|done]. exfalso.
  destruct (ref_before a b) eqn:E1; [|assert (a = b) as -> by (by apply ref_before_total); congruence].
  destruct (ref_before b c) eqn:E2; [|assert (b = c) as -> by (by apply ref_before_total); congruence].
  enough (ref_before a c = true) as E3 by (apply ref_before_asym in E3; congruence).
  apply ref_before_lt in E1, E2. apply ref_before_lt.
  destruct E1 as [E1|[Q1 E1]], E2 as [E2|[Q2 E2]].
  - left. by eapply compare_lt_trans.
  - left. by rewrite <- Q2.
  - left. by rewrite Q1.
  - right. split; [congruence|lia].
Qed.

(** Which outcome notices are handed out, and in which order, does not
    depend on the order Go happens to visit the maps in: any visit of the
    stored revisions gives the same answer, bounded by the limit asked for. *)
Theorem notices_do_not_depend_on_map_order qs m log now limit visit :
  (Z.of_nat (List.length qs) <= int64_max)%Z ->
  serve_all qs NewTicketMemory = Some (m, log) -> visit ≡ₚ all_revisions m ->
  outcomes_from visit now limit m = outcomes_from (all_revisions m) now limit m /\
  (List.length (outcomes_from visit now limit m) <= Z.to_nat limit)%nat.
Proof.
  intros Hl H Hv. destruct (from_new qs m log Hl H) as [_ C].
  split; [|unfold outcomes_from; rewrite length_take; lia].
  unfold outcomes_from. f_equal. apply sort_by_visit.
  - intros x y. apply ref_before_asym.
  - intros x y z. apply ref_before_trans.
  - intros x y Hx Hy H1 H2. pose proof (ref_before_total _ _ H1 H2) as E.
    apply list_elem_of_omap in Hx as ([k1 r1] & V1 & O1). apply list_elem_of_omap in Hy as ([k2 r2] & V2 & O2).
    rewrite Hv in V1, V2.
    destruct (stored_revision _ _ _ _ C V1) as [R1 <-], (stored_revision _ _ _ _ C V2) as [R2 <-].
    pose proof (outcome_owed_ref _ _ _ _ _ O1) as [E1 _].
    pose proof (outcome_owed_ref _ _ _ _ _ O2) as [E2 _]. simpl in *. congruence.
  - by rewrite Hv.
Qed.

(** ** A worked thread *)

(** One request: opened, inspected, put up for approval, claimed with its
    external attempt, held up, announced as such, and finished; while it runs
    the requester corrects it, and a second thread is opened and closed. *)
Module Sample.
Definition at_ (n : Z) : Time := (1000 + n)%Z.
Definition content (s : string) : ContentRef := MkContentRef s "sha256:1".
Definition origin : Origin := MkOrigin "slack" "C1" "1700.1".
Definition other : Origin := MkOrigin "slack" "C1" "1700.2".
Definition key_of (o : Origin) : TicketKey := default "" (origin_key o).
Definition ref1 : TicketRef := MkTicketRef (key_of origin) 1.
Definition open_of (o : Origin) (ev : string) : OpenInput :=
  MkOpenInput (key_of o) o (MkScope "acme" "support") "helper" "svc" "ana" "" "C2" ev
    (content "draft") (at_ 0).
Definition claim_in : ClaimInput := MkClaimInput ref1 "run-1" 7 (at_ 3).
Definition attempt : ExternalAttemptInput :=
  MkExternalAttemptInput "idem-1" "reset" 8 "idp" (MkScope "acme" "support") "d" "u1" "bob"
    (at_ 4) (at_ 9) "w1" (at_ 8).
Definition execution : Execution := MkExecution ref1 "run-1" 7 (content "seen").
Definition requests : list (bool * ticket_request) := map (pair false) [
  QOpen (open_of origin "ev-1");
  QInspect (MkInspectionInput ref1 (content "seen") (at_ 1));
  QAwait (MkApprovalInput ref1 "run-1" 7 (content "seen") (at_ 2));
  QClaimAttempt (MkClaimAttemptInput claim_in attempt);
  QClaim claim_in;
  QAttention (MkAttentionInput execution (content "stuck") (at_ 4));
  QRevise (MkReviseInput ref1 false "ev-2" "ana" (content "draft2") (at_ 5));
  QClaimOutcomes "w1" (at_ 6) 10 5;
  QAnnounced ref1 "w1" (at_ 7);
  QOpen (open_of other "ev-3");
  QCloseTicket (MkCloseTicketInput (key_of other) "ana" (at_ 8))].
Definition final : list (bool * ticket_request) :=
  [(false, QFinish (MkFinishInput execution TPhaseCompleted (content "done") (at_ 9)))].
Definition run (m : TicketMemory) (qs : list (bool * ticket_request)) :=
  default (m, []) (serve_all qs m).
Definition served_store : TicketMemory := (run NewTicketMemory requests).1.
Definition log : list (ticket_request * ticket_reply) := (run NewTicketMemory requests).2.
Definition store2 : TicketMemory := (run served_store final).1.
Definition log2 : list (ticket_request * ticket_reply) := (run served_store final).2.
Definition running : Revision := default zeroRevision (revision_at served_store ref1).
(** A ticket closed before anybody looked at it. *)
Definition closed_requests : list (bool * ticket_request) := map (pair false) [
  QOpen (open_of origin "ev-1");
  QCloseTicket (MkCloseTicketInput (key_of origin) "ana" (at_ 1));
  QInspect (MkInspectionInput ref1 (content "seen") (at_ 2));
  QAwait (MkApprovalInput ref1 "run-1" 7 (content "seen") (at_ 3));
  QClaim claim_in].
Definition correction : ticket_request :=
  QRevise (MkReviseInput ref1 false "ev-2" "ana" (content "draft2") (at_ 5)).
End Sample.

Lemma sample_served :
  serve_all Sample.requests NewTicketMemory = Some (Sample.served_store, Sample.log).
Proof. vm_compute. reflexivity. Qed.

Lemma ticket_histories_stay_coherent_witness :
  exists m log, serve_all Sample.requests NewTicketMemory = Some (m, log) /\
    coherent 11 m /\ events_ok m.
Proof. apply (ticket_histories_stay_coherent Sample.requests). vm_compute. discriminate. Defined.

Lemma notices_do_not_depend_on_map_order_witness :
  List.length (outcomes_from (rev (all_revisions Sample.store2)) (Sample.at_ 20) 5 Sample.store2) = 1%nat /\
  outcomes_from (rev (all_revisions Sample.store2)) (Sample.at_ 20) 5 Sample.store2 =
  outcomes_from (all_revisions Sample.store2) (Sample.at_ 20) 5 Sample.store2 /\
  (List.length (outcomes_from (rev (all_revisions Sample.store2)) (Sample.at_ 20) 5 Sample.store2) <= 5)%nat.
Proof.
  split; [vm_compute; reflexivity|].
  apply (notices_do_not_depend_on_map_order (Sample.requests ++ Sample.final) _
           (Sample.log ++ Sample.log2)); [vm_compute; discriminate|vm_compute; reflexivity|].
  symmetry. apply Permutation_rev.
Defined.

Lemma revisions_only_advance_witness :
  Rv_Phase Sample.running = TPhaseNeedsAttention /\
  exists r', revision_at Sample.store2 Sample.ref1 = Some r' /\ advances Sample.running r'.
Proof.
  split; [vm_compute; reflexivity|].
  apply (revisions_only_advance Sample.requests Sample.final Sample.served_store Sample.log
           Sample.store2 Sample.log2); [vm_compute; discriminate|exact sample_served|..];
    vm_compute; reflexivity.
Defined.

Lemma a_revision_is_executed_once_witness :
  granted Sample.log = [Sample.claim_in] /\
  NoDup (map KI_Ref (granted Sample.log)) /\
  (forall i, i ∈ granted Sample.log -> started_as_approved Sample.served_store i).
Proof.
  split; [vm_compute; reflexivity|].
  apply (a_revision_is_executed_once Sample.requests); [vm_compute; discriminate|exact sample_served].
Defined.

Lemma open_tickets_are_bounded_witness :
  open_count Sample.served_store (MkScope "acme" "support") = 1%nat /\
  (open_count Sample.served_store (MkScope "acme" "support") <= 200)%nat.
Proof.
  split; [vm_compute; reflexivity|].
  apply (open_tickets_are_bounded Sample.requests _ Sample.log);
    [vm_compute; discriminate|exact sample_served].
Defined.

Lemma announced_outcomes_were_handed_out_witness :
  told Sample.served_store (given_out Sample.log) Sample.ref1.
Proof.
  apply (announced_outcomes_were_handed_out Sample.requests);
    [vm_compute; discriminate|exact sample_served|].
  apply (bool_decide_unpack _). vm_compute. exact I.
Defined.

Lemma a_thread_names_one_ticket_witness :
  AtOrigin false Sample.origin ((map_to_list (tm_tickets Sample.served_store)).*2) =
  CurrentTicket false (Sample.key_of Sample.origin) Sample.served_store.
Proof.
  apply (a_thread_names_one_ticket Sample.requests _ Sample.log);
    [vm_compute; discriminate|exact sample_served|reflexivity|vm_compute; reflexivity].
Defined.

(** A ticket that was closed is still inspected, put up for approval and
    executed: only a correction of it is refused, where the comment on
    [requireMutable] has nothing at all written to a closed ticket. *)
Theorem closed_ticket_still_executes :
  let m := (Sample.run NewTicketMemory Sample.closed_requests).1 in
  let log := (Sample.run NewTicketMemory Sample.closed_requests).2 in
  let t := default zeroTicket (tm_tickets m !! Sample.key_of Sample.origin) in
  granted log = [Sample.claim_in] /\ Tk_Closed t = Some (Sample.at_ 1) /\
  Rv_Phase (Tk_Current t) = TPhaseExecuting /\
  handle false Sample.correction m = Done (YTicket (refuse TErrClosed)) m.
Proof. vm_compute. repeat split. Qed.
