(* ===== verification/Answer.v ===== *)
(** * Answering a ticket

    src/internal/connectortools/ticket_answer.go and the tool names of types.go
    and gravitee_approval.go: the agent proposes an answer, a person decides
    about the exact words, and the platform publishes those words as the ticket's
    outcome. The content store is an interface. *)

From Stdlib Require Import ZArith Lia Ascii String.
From stdpp Require Import base list strings gmap.
From S2P Require Import Prelude GoStrings Json JsonFacts Regexp Domain Sha256 Dedupe Payload Encode State Ports Content MemoryTool Ticket TicketSafety.

Local Open Scope string_scope.

(** ** Names of native tools (types.go, gravitee_approval.go) *)

(** ^[a-z0-9][a-z0-9_-]{0,62}$ *)
Definition instanceNameRE : re :=
  let first c := lower_letter c || digit_char c in
  RAll [RBegin; RClass first; RAtMost 62 (RClass (or_one_of first "_-")); REnd].

Definition ValidInstanceName (name : string) : bool := MatchString instanceNameRE name.

Definition parseToolID (id : ToolID) : option (string * string * string) :=
  match split_byte "." id with
  | [connector; instance; operation] =>
      if String.eqb connector "" || negb (ValidInstanceName instance) || String.eqb operation "" then None
      else Some (connector, instance, operation)
  | _ => None
  end.

Definition RequiresApprovalEvidence (id : ToolID) : bool :=
  if String.eqb id ToolTicketAnswer then true
  else match parseToolID id with
       | Some (connector, _, operation) =>
           String.eqb connector "gravitee" && String.eqb operation "accept_subscription"
       | None => false
       end.

(** ** The sealed words *)

Definition MaxTicketAnswerBytes : Z := 8192.
Definition ticketAnswerKind : string := "ticket_answer".

Record ticketAnswerArgs := MkTicketAnswerArgs { Taa_Text : string }.

Definition d_ticketAnswerArgs : decoder ticketAnswerArgs := d_struct (fun cur fs =>
  f0 ← field "text" d_string (Taa_Text cur) fs;
  mret (MkTicketAnswerArgs f0)).

Record ticketAnswerResult := MkTicketAnswerResult { Tar_Kind : string; Tar_Text : string }.

#[export] Instance ticketAnswerResult_eq_dec : EqDecision ticketAnswerResult.
Proof. solve_decision. Defined.

Definition zeroTicketAnswerResult : ticketAnswerResult := MkTicketAnswerResult "" "".

Definition d_ticketAnswerResult : decoder ticketAnswerResult := d_struct (fun cur fs =>
  f0 ← field "kind" d_string (Tar_Kind cur) fs;
  f1 ← field "text" d_string (Tar_Text cur) fs;
  mret (MkTicketAnswerResult f0 f1)).

Definition e_ticketAnswerResult (r : ticketAnswerResult) : json := obj [
  fld "kind" c_string (Tar_Kind r);
  fld "text" c_string (Tar_Text r)].

Definition c_ticketAnswerResult : codec ticketAnswerResult :=
  struct_codec e_ticketAnswerResult d_ticketAnswerResult zeroTicketAnswerResult (fun r =>
    c_ok c_string (Tar_Kind r) /\ c_ok c_string (Tar_Text r)).

#[export] Instance laws_ticketAnswerResult : CodecLaws c_ticketAnswerResult.
Proof. struct_laws. Qed.

Definition decodeTicketAnswer (raw : string) : option ticketAnswerResult :=
  let '(out, ok) := unmarshal_into zeroTicketAnswerResult d_ticketAnswerResult raw in
  if negb ok then None
  else if negb (String.eqb (Tar_Kind out) ticketAnswerKind) || String.eqb (trim_space (Tar_Text out)) ""
  then None else Some out.

(** What an approver is shown. *)
Definition DecodeTicketAnswerEvidence (raw : string) (evidence : ApprovalEvidence) : option string :=
  if negb (String.eqb (AE_Kind evidence) ticketAnswerKind) || negb (ApprovalEvidence_Valid evidence) then None
  else if negb (String.eqb (ResultDigest raw) (AE_Digest evidence)) then None
  else Tar_Text <$> decodeTicketAnswer raw.

(** What the thread is answered with. *)
Definition RenderTicketOutcome (phase : Phase) (raw : string) : option string :=
  answer ← decodeTicketAnswer raw;
  if negb (String.eqb phase TPhaseCompleted) then None else Some (Tar_Text answer).

(** ** How the tool appears to an agent *)

Definition TicketAnswerEntry : ToolEntry :=
  MkToolEntry ToolTicketAnswer "fuseone"
    ("Propose the answer to publish in the ticket thread. " +:+
     "It is published only after somebody who may decide approves the exact text.")
    EffectWrite false true (MkScope "" "") "" (MkToolDedupe 0 []) None "" false false.

(** ** The tool *)

Inductive AnswerError :=
| ErrTicketAnswerScope
| ErrTicketAnswerText
| ErrTicketAnswerApproval
| ErrAnswerStore (e : ContentError)
| ErrAnswerTicket (e : TicketError).

(** The argument the model owns, bounded. *)
Definition proposed_text (call : Call) : result AnswerError string :=
  if negb (TicketRef_Valid (TC_Ref (Ca_Ticket call))) then Err ErrTicketAnswerScope
  else
    let '(args, ok) := unmarshal_into (MkTicketAnswerArgs "") d_ticketAnswerArgs (Ca_Args call) in
    if negb ok then Err ErrTicketAnswerText
    else
      let text := trim_space (Taa_Text args) in
      if String.eqb text "" || (MaxTicketAnswerBytes <? Z.of_nat (String.length text))%Z ||
         negb (utf8_valid text)
      then Err ErrTicketAnswerText else Ok text.

Section Answering.
Context {S : Type} `{ContentStore S}.

(** The content store and the ticket store, which every step may change; no
    value is a panic of the ticket store. *)
Definition answering (A : Type) : Type := S * TicketMemory -> option ((S * TicketMemory) * result AnswerError A).

#[export] Instance answering_ret : MRet answering := fun A a w => Some (w, Ok a).
#[export] Instance answering_bind : MBind answering := fun A B f m w =>
  match m w with
  | Some (w', Ok a) => f a w'
  | Some (w', Err e) => Some (w', Err e)
  | None => None
  end.

Definition answer_of {A} (r : result AnswerError A) : answering A := fun w => Some (w, r).

(** A request to the ticket store that returns a ticket, a flag and an error. *)
Definition ask_ticket (q : TicketMemory -> ran answer) : answering Ticket := fun '(s, m) =>
  match q m with
  | Panicked => None
  | Done (_, _, Some e) m' => Some ((s, m'), Err (ErrAnswerTicket e))
  | Done (t, _, None) m' => Some ((s, m'), Ok t)
  end.

Definition finish_ticket (q : TicketMemory -> ran (Ticket * option TicketError)) : answering unit := fun '(s, m) =>
  match q m with
  | Panicked => None
  | Done (_, Some e) m' => Some ((s, m'), Err (ErrAnswerTicket e))
  | Done (_, None) m' => Some ((s, m'), Ok tt)
  end.

Definition sealed_bytes (text : string) : string :=
  marshal c_ticketAnswerResult (MkTicketAnswerResult ticketAnswerKind text).

(** [seal]: the reference and the digest of the words. *)
Definition seal (cancelled : bool) (stored : Time) (call : Call) (text : string) : answering ContentRef :=
  fun '(s, m) =>
    let '(s', r) := content_put s cancelled stored (Ca_RunID call) (Ca_Seq call) (sealed_bytes text) in
    Some ((s', m), match r with
                   | Err e => Err (ErrAnswerStore e)
                   | Ok ref => Ok (MkContentRef ref (ResultDigest (sealed_bytes text)))
                   end).

(** [ApprovalEvidence]: the words are sealed and recorded against the ticket. *)
Definition ApprovalEvidenceOf (cancelled : bool) (stored : Time) (call : Call) : answering ApprovalEvidence :=
  text ← answer_of (proposed_text call);
  sealed ← seal cancelled stored call text;
  _ ← ask_ticket (RecordInspection cancelled
        (MkInspectionInput (TC_Ref (Ca_Ticket call)) sealed (Ca_At call)));
  mret (MkApprovalEvidence ticketAnswerKind (TC_Ref (Ca_Ticket call)) (CR_Ref sealed) (CR_Digest sealed)).

(** Whether these are the words the decision was about. *)
Definition approved (cancelled : bool) (call : Call) (text : string) (s : S) : bool :=
  let evidence := Ca_ApprovalEvidence call in
  if negb (String.eqb (AE_Kind evidence) ticketAnswerKind) || negb (ApprovalEvidence_Valid evidence) ||
     negb (bool_decide (AE_Ticket evidence = TC_Ref (Ca_Ticket call))) || (Ca_ApprovalAtSeq call <=? 0)%Z
  then false
  else match content_get s cancelled (AE_Ref evidence) with
       | Err _ => false
       | Ok raw => match decodeTicketAnswer raw with
                   | None => false
                   | Some sealed => String.eqb (Tar_Text sealed) text &&
                                    String.eqb (ResultDigest raw) (AE_Digest evidence)
                   end
       end.

Definition require_approved (cancelled : bool) (call : Call) (text : string) : answering unit := fun '(s, m) =>
  Some ((s, m), if approved cancelled call text s then Ok tt else Err ErrTicketAnswerApproval).

(** [Answer]: the ticket is completed with what was approved. [now] is the
    instant it settles, [stored] the instant the content store reads. *)
Definition TicketAnswers_Answer (cancelled : bool) (stored now : Time) (call : Call) : answering ToolResult :=
  text ← answer_of (proposed_text call);
  _ ← require_approved cancelled call text;
  let snapshot := MkContentRef (AE_Ref (Ca_ApprovalEvidence call)) (AE_Digest (Ca_ApprovalEvidence call)) in
  _ ← ask_ticket (AwaitApproval cancelled
        (MkApprovalInput (TC_Ref (Ca_Ticket call)) (Ca_RunID call) (Ca_ApprovalAtSeq call) snapshot (Ca_At call)));
  claimed ← ask_ticket (ClaimExecution cancelled
        (MkClaimInput (TC_Ref (Ca_Ticket call)) (Ca_RunID call) (Ca_ApprovalAtSeq call) (Ca_At call)));
  match Tk_Active claimed with
  | None => answer_of (Err (ErrAnswerTicket TErrExecutionActive))
  | Some active =>
      sealed ← seal cancelled stored call text;
      _ ← finish_ticket (FinishExecution cancelled (MkFinishInput active TPhaseCompleted sealed now));
      mret (MkToolResult (CR_Ref sealed) (CR_Digest sealed) (Z.of_nat (String.length text))
              [] zeroCost false "" false "" 0 None "")
  end.
End Answering.

(** ** Sizes *)

Lemma escape_byte_bound c : (String.length (escape_byte c) <= 6)%nat.
Proof. destruct c as [[] [] [] [] [] [] [] []]; vm_compute; lia. Qed.

Lemma escape_string_bound n : forall s, (String.length (escape_string n s) <= 6 * String.length s)%nat.
Proof.
  induction n as [|n IH]; intros [|c s]; cbn [escape_string]; try (simpl; lia).
  destruct (byte_of c <? 128)%N.
  - rewrite str_app_length. specialize (IH s). pose proof (escape_byte_bound c). cbn [String.length]. lia.
  - destruct (rune_len (String c s)) as [k|] eqn:Hk.
    + pose proof (rune_len_split _ _ Hk) as (Hk2 & _ & Hs & _). apply (f_equal String.length) in Hs.
      rewrite str_app_length in *. specialize (IH (drop_bytes k (String c s))).
      assert (1 <= String.length (take_bytes k (String c s)))%nat by (destruct k; [lia|]; simpl; lia).
      enough (String.length (if String.eqb (take_bytes k (String c s)) (utf8 8232) then "\u2028"
        else if String.eqb (take_bytes k (String c s)) (utf8 8233) then "\u2029" else take_bytes k (String c s)) <=
        6 * String.length (take_bytes k (String c s)))%nat by lia.
      repeat case_match; simpl; lia.
    + rewrite str_app_length. specialize (IH s). simpl. lia.
Qed.

Lemma sealed_bytes_text text :
  sealed_bytes text =
  "{" +:+ ((quote_json "kind" +:+ ":" +:+ quote_json ticketAnswerKind) +:+ "," +:+
           (quote_json "text" +:+ ":" +:+ quote_json text)) +:+ "}".
Proof. reflexivity. Qed.

Lemma sealed_bytes_bound text :
  (String.length (sealed_bytes text) <= 6 * String.length text + 64)%nat.
Proof.
  rewrite sealed_bytes_text, !str_app_length.
  assert (String.length (quote_json "kind") = 6%nat) as -> by reflexivity.
  assert (String.length (quote_json ticketAnswerKind) = 15%nat) as -> by reflexivity.
  assert (String.length (quote_json "text") = 6%nat) as -> by reflexivity.
  assert (String.length (quote_json text) = String.length (escape_string (String.length text) text) + 2)%nat as ->
    by (unfold quote_json; rewrite !str_app_length; simpl; lia).
  pose proof (escape_string_bound (String.length text) text). cbn [String.length]. lia.
Qed.

(** ** The words *)

Lemma proposed_ok call text :
  proposed_text call = Ok text ->
  trim_space text <> "" /\ (Z.of_nat (String.length text) <= MaxTicketAnswerBytes)%Z /\ utf8_valid text = true.
Proof.
  unfold proposed_text. destruct (negb _); [done|]. destruct (unmarshal_into _ _ _) as [args ok].
  destruct (negb ok); [done|]. case_match eqn:E; [done|]. intros [= <-].
  apply orb_false_iff in E as [E E3]. apply orb_false_iff in E as [E1 E2].
  apply negb_false_iff in E3. apply Z.ltb_ge in E2. split_and!; [|done..].
  rewrite trim_space_idem. by apply String.eqb_neq.
Qed.

(** Sealing and reading are inverse. *)
Lemma decode_sealed text :
  utf8_valid text = true -> trim_space text <> "" ->
  decodeTicketAnswer (sealed_bytes text) = Some (MkTicketAnswerResult ticketAnswerKind text).
Proof.
  intros Hu Ht. unfold decodeTicketAnswer, sealed_bytes, marshal, unmarshal_into.
  rewrite unmarshal_print; [|apply law_json; by split].
  change d_ticketAnswerResult with (c_dec c_ticketAnswerResult).
  change zeroTicketAnswerResult with (c_zero c_ticketAnswerResult).
  rewrite law_read by by split. cbn [negb Tar_Kind Tar_Text].
  apply String.eqb_neq in Ht. by rewrite Ht.
Qed.

(** ** The stores *)

Section Published.
Context {S : Type} `{ContentLaws S}.

Lemma answering_bind_Ok {A B} (f : A -> answering B) (p : answering A) (w : S * TicketMemory) w' b :
  (p ≫= f) w = Some (w', Ok b) -> exists w1 a, p w = Some (w1, Ok a) /\ f a w1 = Some (w', Ok b).
Proof using. unfold mbind, answering_bind. destruct (p w) as [[w1 [a|e]]|]; naive_solver. Qed.

Lemma claimed_reference cancelled i m t b m' :
  ClaimExecution cancelled i m = Done (t, b, None) m' ->
  exists e, Tk_Active t = Some e /\ Ex_Ref e = KI_Ref i.
Proof using.
  unfold ClaimExecution, or_refuse. destruct (validateClaim i); [|done].
  destruct (ticketFor _ _ m) as [t0|]; [|done]. destruct (Tk_Active t0) as [e|] eqn:Ea.
  - unfold existingClaim. destruct (bool_decide _) eqn:Er; cbn; [|done].
    destruct (_ && _); [|done]. intros [= <- <- <-]. exists e. split; [done|].
    by apply bool_decide_eq_true in Er.
  - destruct (requireCurrent t0 _); [|done]. destruct (approval_for t0 i) as [ap|]; [|done].
    unfold putCurrent, put_revision. destruct (tm_revisions _ !! _); [|done]. intros [= <- <- <-].
    by eexists.
Qed.

Lemma finished_outcome cancelled i m t m' :
  FinishExecution cancelled i m = Done (t, None) m' ->
  exists r, revision_at m' (Ex_Ref (FI_Execution i)) = Some r /\
    Rv_Outcome r = Some (MkTicketOutcome (FI_Phase i) (FI_Result i)).
Proof using.
  unfold FinishExecution. destruct (_ ≫= _) as [t0|]; [|done]. destruct (Tk_Active t0) as [a|].
  - destruct (negb (bool_decide (a = FI_Execution i))) eqn:Ea; [done|]. unfold settle_execution, put_revision.
    destruct (tm_revisions m !! _) as [rs|] eqn:Er; [|done]. intros [= <- <-].
    eexists. split; [unfold revision_at; simpl; rewrite lookup_insert_eq; simpl; apply lookup_insert_eq|done].
  - destruct (sameOutcome _ _ _) eqn:So; [|done]. intros [= <- <-].
    destruct (revision_at m _) as [r|] eqn:Er; [|done]. exists r. split; [done|]. simpl in So.
    destruct (Rv_Outcome r) as [o|]; [|done]. simpl in So. bsimp. destruct So as [P R].
    destruct o; simpl in *; congruence.
Qed.

(** What the tool did, when it answered: the sealed words it found under the
    evidence, the outcome it wrote, and the bytes it stored. *)
Lemma answered cancelled stored now call s m s' m' r :
  TicketAnswers_Answer cancelled stored now call (s, m) = Some ((s', m'), Ok r) ->
  exists raw text rev s0,
    proposed_text call = Ok text /\
    content_get s cancelled (AE_Ref (Ca_ApprovalEvidence call)) = Ok raw /\
    AE_Kind (Ca_ApprovalEvidence call) = ticketAnswerKind /\
    AE_Ticket (Ca_ApprovalEvidence call) = TC_Ref (Ca_Ticket call) /\
    ResultDigest raw = AE_Digest (Ca_ApprovalEvidence call) /\
    Tar_Text <$> decodeTicketAnswer raw = Some text /\
    revision_at m' (TC_Ref (Ca_Ticket call)) = Some rev /\
    Rv_Outcome rev = Some (MkTicketOutcome TPhaseCompleted (MkContentRef (Tr_ResultRef r) (Tr_ResultDigest r))) /\
    content_put s0 cancelled stored (Ca_RunID call) (Ca_Seq call) (sealed_bytes text) = (s', Ok (Tr_ResultRef r)) /\
    s0 = s.
Proof using.
  unfold TicketAnswers_Answer. intros Ha.
  apply answering_bind_Ok in Ha as (w1 & text & Ep & Ha). unfold answer_of in Ep. injection Ep as <- Ep.
  apply answering_bind_Ok in Ha as (w2 & [] & Eq & Ha). unfold require_approved in Eq.
  destruct (approved cancelled call text s) eqn:Eap; [|done]. injection Eq as <-.
  apply answering_bind_Ok in Ha as (w3 & t1 & Ew & Ha). unfold ask_ticket in Ew.
  destruct (AwaitApproval _ _ _) as [[[t1' b1] [e1|]] m1|]; [done| |done]. injection Ew as <- ->.
  apply answering_bind_Ok in Ha as (w4 & t2 & Ec & Ha). unfold ask_ticket in Ec.
  destruct (ClaimExecution _ _ _) as [[[t2' b2] [e2|]] m2|] eqn:Eclaim; [done| |done]. injection Ec as <- ->.
  apply claimed_reference in Eclaim as (e & Ee & Er). rewrite Ee in Ha.
  apply answering_bind_Ok in Ha as (w5 & sealed & Es & Ha). unfold seal in Es.
  destruct (content_put _ _ _ _ _ _) as [s1 [ref|ce]] eqn:Eput; [|done]. injection Es as <- <-.
  apply answering_bind_Ok in Ha as (w6 & [] & Ef & Ha). unfold finish_ticket in Ef.
  destruct (FinishExecution _ _ _) as [[t3 [e3|]] m3|] eqn:Efin; [done| |done]. injection Ef as <-.
  injection Ha as <- <- <-. apply finished_outcome in Efin as (rev & Hrev & Ho). simpl in *.
  unfold approved in Eap. destruct (negb _ || _ || _ || _) eqn:Eg; [done|].
  apply orb_false_iff in Eg as [Eg _]. apply orb_false_iff in Eg as [Eg Etk]. apply orb_false_iff in Eg as [Ek _].
  destruct (content_get s _ _) as [raw|] eqn:Eget; [|done]. destruct (decodeTicketAnswer raw) as [d|] eqn:Ed; [|done].
  bsimp. destruct Eap as [Et Edg].
  exists raw, text, rev, s. split_and!; try done; [rewrite Ed; simpl; by rewrite Et|by rewrite <- Er].
Qed.
End Published.

(** C13. The words a ticket's thread is answered with are the words somebody
    approved. When the tool answers a ticket, the content sealed as the evidence
    of its approval hashes to the digest the approval carries and spells the
    published text; the ticket's revision ends as completed with a result whose
    content, in the in-memory store, is rendered as exactly that text or has
    been erased; and whoever was shown other bytes under the same evidence read
    the same words, unless they exhibit a SHA-256 collision. *)
Theorem approved_words_are_published cancelled stored now call (s : MemoryContent) m s' m' r :
  mc_limit s = DefaultContentLimit ->
  TicketAnswers_Answer cancelled stored now call (s, m) = Some ((s', m'), Ok r) ->
  let evidence := Ca_ApprovalEvidence call in
  exists raw text rev,
    MemoryContent_Get s cancelled (AE_Ref evidence) = Ok raw /\
    DecodeTicketAnswerEvidence raw evidence = Some text /\
    revision_at m' (AE_Ticket evidence) = Some rev /\
    Rv_Outcome rev = Some (MkTicketOutcome TPhaseCompleted (MkContentRef (Tr_ResultRef r) (Tr_ResultDigest r))) /\
    match MemoryContent_Get s' false (Tr_ResultRef r) with
    | Ok published => RenderTicketOutcome TPhaseCompleted published = Some text
    | Err e => e = ErrContentErased (Tr_ResultRef r)
    end /\
    (forall seen shown, DecodeTicketAnswerEvidence seen evidence = Some shown ->
       shown = text \/ seen <> raw /\ hex_encode (sha256 seen) = hex_encode (sha256 raw)).
Proof.
  intros L Ha evidence. pose proof Ha as Hv.
  apply answered in Ha as (raw & text & rev & s0 & Ep & Eg & Ek & Et & Ed & Ew & Er & Eo & Es & ->).
  assert (V : ApprovalEvidence_Valid evidence = true).
  { unfold TicketAnswers_Answer in Hv. apply answering_bind_Ok in Hv as (w1 & x & Ex & Hv). injection Ex as <- Ex.
    apply answering_bind_Ok in Hv as (w2 & [] & Eq & _). unfold require_approved, approved in Eq.
    destruct (negb _ || _ || _ || _) eqn:G; [done|]. apply orb_false_iff in G as [G _].
    apply orb_false_iff in G as [G _]. apply orb_false_iff in G as [_ G]. by apply negb_false_iff in G. }
  pose proof (proposed_ok _ _ Ep) as (Hn & Hb & Hu).
  exists raw, text, rev. split; [exact Eg|]. split_and!.
  - unfold DecodeTicketAnswerEvidence, evidence. fold evidence. rewrite V. unfold evidence. rewrite Ek, Ed, !String.eqb_refl. done.
  - unfold evidence. by rewrite Et.
  - done.
  - apply put_get in Es. cbn [content_get content_kept memory_content] in Es. destruct Es as [-> | ->]; [|done].
    rewrite Truncate_whole.
    + unfold RenderTicketOutcome. by rewrite decode_sealed.
    + right. rewrite L. pose proof (sealed_bytes_bound text). unfold MaxTicketAnswerBytes, DefaultContentLimit in *. lia.
  - intros seen shown Hs. unfold DecodeTicketAnswerEvidence in Hs.
    destruct (_ || _); [done|]. destruct (String.eqb _ _) eqn:E; [|done]. apply String.eqb_eq in E.
    unfold evidence in E. rewrite <- Ed in E. destruct (decide (seen = raw)) as [-> |D].
    + left. simpl in Hs. congruence.
    + right. split; [done|]. unfold ResultDigest in E. by apply str_app_inj in E.
Qed.

(** A ticket is answer_opened, an answer proposed_text, approved at step seven and
    published. *)
Module Publish.
Definition answer_opened : TicketMemory := (Sample.run NewTicketMemory [(false, QOpen (Sample.open_of Sample.origin "ev-1"))]).1.
Definition call_with (evidence : ApprovalEvidence) (atSeq : Z) : Call :=
  MkCall "run-1" 8 (MkScope "acme" "support") "helper" ToolTicketAnswer
    (print_json (JObj [("text", JStr " It is fixed. ")])) "" evidence atSeq "ana" "ana" "" []
    (MkTicketContext Sample.ref1 "ana" "") (Sample.at_ 1) [] (MkMemoryLearningPolicy "" 0 0).
Definition asked : option ((MemoryContent * TicketMemory) * result AnswerError ApprovalEvidence) :=
  ApprovalEvidenceOf false (Sample.at_ 1) (call_with zeroApprovalEvidence 0) (NewMemoryContent, answer_opened).
Definition evidence : ApprovalEvidence :=
  match asked with Some (_, Ok e) => e | _ => zeroApprovalEvidence end.
Definition before : MemoryContent * TicketMemory := from_option fst (NewMemoryContent, answer_opened) asked.
Definition answered : option ((MemoryContent * TicketMemory) * result AnswerError ToolResult) :=
  TicketAnswers_Answer false (Sample.at_ 2) (Sample.at_ 3) (call_with evidence 7) before.
Definition after : MemoryContent * TicketMemory := from_option fst before answered.
Definition result_of : ToolResult :=
  match answered with Some (_, Ok r) => r | _ => MkToolResult "" "" 0 [] zeroCost false "" false "" 0 None "" end.
End Publish.

Lemma approved_words_are_published_witness :
  exists raw text rev,
    MemoryContent_Get Publish.before.1 false (AE_Ref Publish.evidence) = Ok raw /\
    DecodeTicketAnswerEvidence raw Publish.evidence = Some text /\
    revision_at Publish.after.2 (AE_Ticket Publish.evidence) = Some rev /\
    Rv_Outcome rev = Some (MkTicketOutcome TPhaseCompleted
      (MkContentRef (Tr_ResultRef Publish.result_of) (Tr_ResultDigest Publish.result_of))) /\
    match MemoryContent_Get Publish.after.1 false (Tr_ResultRef Publish.result_of) with
    | Ok published => RenderTicketOutcome TPhaseCompleted published = Some text
    | Err e => e = ErrContentErased (Tr_ResultRef Publish.result_of)
    end /\
    (forall seen shown, DecodeTicketAnswerEvidence seen Publish.evidence = Some shown ->
       shown = text \/ seen <> raw /\ hex_encode (sha256 seen) = hex_encode (sha256 raw)).
Proof.
  apply (approved_words_are_published false (Sample.at_ 2) (Sample.at_ 3) (Publish.call_with Publish.evidence 7)
           Publish.before.1 Publish.before.2 Publish.after.1 Publish.after.2 Publish.result_of);
    vm_compute; reflexivity.
Defined.
