(* ===== verification/Operate.v ===== *)
(** * What people do to runs

    src/internal/httpapi: the handlers that read, decide, abandon, resume, start
    and re-run (runs.go, approvals.go, approval_evidence.go, compensation.go,
    start_run.go, rerun.go, scoping.go, filters.go, mapping.go, fallback.go) with
    the authority they ask for (auth/middleware.go). A handler reads the ledger at
    one moment and writes at a later one: each such moment is an argument of its
    own, so that what others record in between is not hidden. *)

From Stdlib Require Import ZArith Lia Ascii String.
From stdpp Require Import base list strings gmap.
From S2P Require Import Prelude GoStrings Json JsonFacts Regexp Domain Sha256 Dedupe Step Payload Encode State Ledger Access Ports Content Runner Calendar MemoryTool Agent Open Dispatch Listing Compensate Answer.

Local Open Scope string_scope.

(** ** Authority (auth/middleware.go, httpapi/scoping.go, agents.go) *)

(** The caller of a request; none when nobody was authenticated. *)
Abbreviation Caller := (option Principal) (only parsing).

Definition mayRequire (caller : Caller) (perm : Permission) (scope : Scope) : bool :=
  match caller with None => false | Some p => Principal_Can p perm scope end.

Definition VisibleScopes (caller : Caller) (perm : Permission) : list Scope :=
  match caller with None => [] | Some p => Principal_ScopesFor p perm end.

Definition callerOf (caller : Caller) : UserID := match caller with None => "" | Some p => Pr_ID p end.

Definition readable (scope : Scope) (visible : list Scope) : bool :=
  existsb (fun v => Scope_Contains v scope) visible.

(** What a listing is bounded to, or none when the caller holds the permission
    nowhere it asked about. *)
Definition narrow (caller : Caller) (f : RunFilter) (perm : Permission) : option RunFilter :=
  if negb (String.eqb (Company (Rf_Scope f)) "") || negb (String.eqb (Area (Rf_Scope f)) "") then
    if mayRequire caller perm (Rf_Scope f)
    then Some (f <| Rf_Scopes := [Rf_Scope f] |> <| Rf_Scope := zeroScope |>) else None
  else
    match VisibleScopes caller perm with
    | [] => None
    | visible => Some (f <| Rf_Scopes := visible |>)
    end.

(** ** Answers *)

Inductive ServerError :=
| SrvStore (e : LedgerError)
| SrvFold (e : EngineError)
| SrvTools
| SrvVersions
| SrvNoRegistry
| SrvNoContent
| SrvContent
| SrvNotAnOpening
| SrvOpen (e : OpenError).

Inductive Conflict :=
| NotAwaiting
| AwaitingOther (pending asked : Z)
| EvidenceUnavailable
| Overtaken
| InPhase (p : Phase)
| OtherScope
| SourceInputErased
| NotRunning (e : OpenError).

Inductive Response (A : Type) :=
| Success (a : A)
| NotFound
| Forbidden (perm : Permission) (scope : Scope)
| BadNote
| BadVersion (v : VersionID)
| Conflicts (c : Conflict)
| Failure (e : ServerError).
Arguments Success {A}. Arguments NotFound {A}. Arguments Forbidden {A}. Arguments BadNote {A}.
Arguments BadVersion {A}. Arguments Conflicts {A}. Arguments Failure {A}.

(** A ledger that cannot be read answers with its error; a run that is not there
    as absent. *)
Definition read_failed {A} (e : LedgerError) : Response A :=
  match e with ErrNotFound => NotFound | _ => Failure (SrvStore e) end.

(** ** A run on the wire (mapping.go, fallback.go, filters.go) *)

Record CostView := MkCostView {
  Cv_Micros : Z; Cv_Input : Z; Cv_Output : Z; Cv_CacheRead : Z; Cv_CacheWrite : Z
}.

Definition toCost (c : Cost) : CostView :=
  MkCostView (Cost_Micros c) (InputTokens c) (OutputTokens c) (CacheReadTokens c) (CacheWriteTokens c).

(** What the steps were billed for, class by class; the money is the fold's. *)
Definition runCost (spent : Consumption) (steps : list Step) : CostView :=
  let billed := toCost (fold_left (fun c s => Cost_Add c (S_Cost s)) steps zeroCost) in
  MkCostView (C_Micros spent) (Cv_Input billed) (Cv_Output billed) (Cv_CacheRead billed) (Cv_CacheWrite billed).

Record FallbackView := MkFallbackView { Fv_From : ModelPair; Fv_To : ModelPair; Fv_Code : string; Fv_AtSeq : Z }.

(** The last step of a kind, when it decodes. *)
Definition last_of (kind : StepKind) (steps : list Step) : option Step :=
  List.find (fun s => String.eqb (S_Kind s) kind) (rev steps).

Definition runFallback (steps : list Step) : option FallbackView :=
  s ← last_of StepModelFallback steps;
  let '(p, ok) := unmarshal_into zeroModelFallbackPayload d_ModelFallbackPayload (S_Payload s) in
  if ok then Some (MkFallbackView (MF_From p) (MF_To p) (FS_Code (MF_Failure p)) (S_Seq s)) else None.

Definition parkedWith (steps : list Step) : option ParkedPayload :=
  s ← last_of StepParked steps;
  let '(p, ok) := unmarshal_into zeroParkedPayload d_ParkedPayload (S_Payload s) in
  if ok then Some p else None.

(** The recorded run a run was opened from. *)
Definition sourceRunOf (steps : list Step) : option string :=
  match steps with
  | first :: _ =>
      if negb (String.eqb (S_Kind first) StepRunStarted) then None
      else
        let '(src, ok) := unmarshal_into "" (d_struct (fun cur fs => field "source_run" d_string cur fs)) (S_Payload first) in
        if negb ok || String.eqb src "" then None else Some src
  | [] => None
  end.

Definition nonempty (s : string) : option string := if String.eqb s "" then None else Some s.
Definition nonzero (z : Z) : option Z := if Z.eqb z 0 then None else Some z.

Record FailureView := MkFailureView {
  Flv_Code : string; Flv_Provider : option string; Flv_Status : option Z; Flv_RequestID : option string;
  Flv_Retryable : bool; Flv_Reason : option string
}.

Definition toFailure (f : FailureSummary) (reason : option string) : FailureView :=
  MkFailureView (FS_Code f) (nonempty (FS_Provider f)) (nonzero (FS_Status f)) (nonempty (FS_RequestID f))
    (FS_Retryable f) reason.

Record PendingView := MkPendingView {
  Pv_RunID : RunID; Pv_Scope : Scope; Pv_AgentID : AgentID; Pv_Tool : ToolID; Pv_Rule : string; Pv_Reason : string;
  Pv_AtSeq : Z; Pv_RequestedAt : Time; Pv_Effect : option Effect
}.

Record RunView := MkRunView {
  Rv_RunID : RunID; Rv_Scope : Scope; Rv_AgentID : AgentID; Rv_VersionID : VersionID; Rv_Phase : string;
  Rv_Seq : Z; Rv_Cost : CostView; Rv_ReservedMicros : option Z; Rv_Fallback : option FallbackView;
  Rv_OnBehalfOf : option string; Rv_Labels : Labels; Rv_SourceRun : option string; Rv_StartedAt : Time;
  Rv_EndedAt : option Time; Rv_Pending : option PendingView; Rv_Failure : option FailureView
}.

Definition toPendingApproval (run : RunID) (s : State) (p : PendingApproval) : PendingView :=
  MkPendingView run (St_Scope s) (St_AgentID s) (State.PA_Tool p) (State.PA_Rule p) (State.PA_Reason p) (State.PA_AtSeq p) (PA_At p)
    (Some (PA_Effect p)).

Definition toRun (run : RunID) (s : State) (steps : list Step) : RunView :=
  MkRunView run (St_Scope s) (St_AgentID s) (St_VersionID s) (Phase_String (St_Phase s)) (St_Seq s)
    (runCost (St_Spent s) steps) (Some (C_Micros (St_Reserved s))) (runFallback steps) (nonempty (St_OnBehalfOf s))
    (St_Labels s) (sourceRunOf steps)
    (match steps with first :: _ => S_At first | [] => 0%Z end)
    (if State_Terminal s then S_At <$> last steps else None)
    (toPendingApproval run s <$> St_PendingApproval s)
    (p ← parkedWith steps; f ← PK_Failure p;
     Some (toFailure f (if String.eqb (PK_Reason p) (FS_Code f) then None else nonempty (PK_Reason p)))).

(** A row of a listing. *)
Definition runFromSummary (s : RunSummary) : RunView :=
  MkRunView (Ru_RunID s) (Ru_Scope s) (Ru_AgentID s) (Ru_VersionID s) (Ru_Phase s) (Ru_Seq s) (toCost (Ru_Cost s))
    (nonzero (Ru_ReservedMicros s)) None (nonempty (Ru_OnBehalfOf s)) (Ru_Labels s) None (Ru_StartedAt s)
    (if Time_IsZero (Ru_EndedAt s) then None else Some (Ru_EndedAt s))
    ((fun p => MkPendingView (Ru_RunID s) (Ru_Scope s) (Ru_AgentID s) (Dispatch.PA_Tool p) (Dispatch.PA_Rule p) (Dispatch.PA_Reason p) (Dispatch.PA_AtSeq p) 0 None)
       <$> Ru_PendingApproval s)
    ((fun f => toFailure f None) <$> Ru_Failure s).

(** ** What an abandonment and a resumption record *)

Definition e_AbandonedPayload (p : AbandonedPayload) : json := obj [
  fld "by" c_string (AB_By p);
  fld "reason" c_string (AB_Reason p);
  fld "compensate" c_bool (AB_Compensate p)].

Definition c_AbandonedPayload : codec AbandonedPayload :=
  struct_codec e_AbandonedPayload d_AbandonedPayload zeroAbandonedPayload (fun p =>
    c_ok c_string (AB_By p) /\ c_ok c_string (AB_Reason p) /\ c_ok c_bool (AB_Compensate p)).

#[export] Instance laws_AbandonedPayload : CodecLaws c_AbandonedPayload.
Proof. struct_laws. Qed.

Definition e_ResumedPayload (p : ResumedPayload) : json := obj [
  fld "by" c_string (Rs_By p);
  fopt "note" c_string (Rs_Note p)].

Definition c_ResumedPayload : codec ResumedPayload :=
  struct_codec e_ResumedPayload d_ResumedPayload zeroResumedPayload (fun p =>
    c_ok c_string (Rs_By p) /\ c_ok c_string (Rs_Note p)).

#[export] Instance laws_ResumedPayload : CodecLaws c_ResumedPayload.
Proof. struct_laws. Qed.

(** ** What the server is wired to

    The content store, the catalogue of tools and the opener's ports; the zero
    value is a port that is not wired. [ParseAddress] is net/mail's: the address
    of a mailbox somebody wrote. *)
Record Server := MkServer {
  sv_content : option (string -> result ContentError string);
  sv_tools : option (result PortError (list ToolEntry));
  sv_agents : option (AgentID -> result PortError (list AgentSummary));
  sv_put : option (RunID -> Z -> string -> result PortError string);
  sv_pauses : option (AgentID -> result PortError bool);
  sv_stops : option (result PortError (list Stop));
  sv_stages : option (AgentID -> result PortError Stage);
  sv_clock : string -> Time * Time;
  sv_ParseAddress : string -> option string
}.

(** [project]: the run as the ledger has it. *)
Definition project (m : Memory) (cancelled : bool) (run : RunID) : result ServerError (RunView * State) :=
  match Read m cancelled run FirstSeq with
  | Err e => Err (SrvStore e)
  | Ok steps =>
      match Fold steps with
      | Err e => Err (SrvFold e)
      | Ok state => Ok (toRun run state steps, state)
      end
  end.

(** The run as it is when an answer is written. *)
Definition projected (m : Memory) (cancelled : bool) (run : RunID) : Response RunView :=
  match project m cancelled run with Ok (v, _) => Success v | Err e => Failure e end.

(** ** Reading (runs.go) *)

Definition defaultLimit : Z := 50.
Definition limitOf (v : option Z) : Z :=
  match v with Some z => if (z <=? 0)%Z then defaultLimit else z | None => defaultLimit end.

Definition runFilter (company area agent : option string) (since until : option Time) : RunFilter :=
  zeroRunFilter <| Rf_Scope := MkScope (default "" company) (default "" area) |> <| Rf_AgentID := default "" agent |>
    <| Rf_Since := default 0%Z since |> <| Rf_Until := default 0%Z until |>.

Definition cursorFrom (token : option string) : option RunCursor := token ≫= DecodeRunCursor.

Record RunPage := MkRunPage { Rp_Items : list RunView; Rp_NextCursor : option string }.

(** An empty token is no cursor. *)
Definition next_token (rows : list RunSummary) (limit : Z) : option string :=
  nonempty (RunCursor_Encode (nextPage rows limit)).

Record ListParams := MkListParams {
  Lp_Company : option string; Lp_Area : option string; Lp_AgentID : option string; Lp_Since : option Time;
  Lp_Phase : option string; Lp_Q : option string; Lp_Cursor : option string; Lp_Limit : option Z
}.

Section Handlers.
Context `{Unicode} (sv : Server).

Definition ListRuns_handler (m : Memory) (cancelled : bool) (caller : Caller) (q : ListParams) : Response RunPage :=
  let f := runFilter (Lp_Company q) (Lp_Area q) (Lp_AgentID q) (Lp_Since q) None in
  let f := match Lp_Q q with Some s => f <| Rf_Search := trim_space s |> | None => f end in
  match narrow caller f PermRunRead with
  | None => Forbidden PermRunRead (MkScope (default "" (Lp_Company q)) (default "" (Lp_Area q)))
  | Some f =>
      let limit := limitOf (Lp_Limit q) in
      match ListRuns m cancelled (f <| Rf_After := cursorFrom (Lp_Cursor q) |>) (default "" (Lp_Phase q)) limit with
      | Err e => Failure (SrvStore e)
      | Ok rows => Success (MkRunPage (List.map runFromSummary rows) (next_token rows limit))
      end
  end.

Definition GetRun (m : Memory) (cancelled : bool) (caller : Caller) (run : RunID) : Response RunView :=
  match project m cancelled run with
  | Err (SrvStore ErrNotFound) => NotFound
  | Err e => Failure e
  | Ok (v, state) => if mayRequire caller PermRunRead (St_Scope state) then Success v else NotFound
  end.

Definition readableRun (m : Memory) (cancelled : bool) (caller : Caller) (run : RunID) : bool :=
  match Read m cancelled run FirstSeq with
  | Ok (first :: _) => mayRequire caller PermRunRead (S_Scope first)
  | _ => false
  end.

(** The steps of one page and where the next one starts. *)
Definition ListRunSteps (seen m : Memory) (cancelled : bool) (caller : Caller) (run : RunID) (from : option Z) (limit : option Z)
    : Response (list Step * option Z) :=
  if negb (readableRun seen cancelled caller run) then NotFound
  else match Read m cancelled run (default FirstSeq from) with
       | Err e => read_failed e
       | Ok steps =>
           let n := Z.to_nat (limitOf limit) in
           Success (take n steps, S_Seq <$> head (drop n steps))
       end.

Fixpoint first_broken (prev : option Step) (steps : list Step) : Z :=
  match steps with
  | [] => 0
  | s :: steps => match VerifyLink s prev with Some _ => S_Seq s | None => first_broken (Some s) steps end
  end.

Definition firstBrokenSeq (steps : list Step) : Z := first_broken None steps.

Record VerifyResult := MkVerifyResult { Vr_Valid : bool; Vr_StepsChecked : Z; Vr_BrokenAtSeq : option Z }.

Definition VerifyRun (m : Memory) (cancelled : bool) (caller : Caller) (run : RunID) : Response VerifyResult :=
  match Read m cancelled run FirstSeq with
  | Err e => read_failed e
  | Ok [] => NotFound
  | Ok ((first :: _) as steps) =>
      if negb (mayRequire caller PermRunRead (S_Scope first)) then NotFound
      else
        let n := Z.of_nat (List.length steps) in
        match VerifyChain steps with
        | None => Success (MkVerifyResult true n None)
        | Some _ => Success (MkVerifyResult false n (Some (firstBrokenSeq steps)))
        end
  end.

(** ** Evidence beside a decision (approval_evidence.go, connectortools/gravitee_inspect.go) *)

Definition graviteeID : re :=
  RAll [RBegin; RClass alnum; RAtMost 127 (RClass (or_one_of alnum "._-")); REnd].

(** Over valid UTF-8 a control character is its own byte. *)
Definition safeRemoteText (value : string) (max : nat) : bool :=
  negb (String.eqb value "") && (String.length value <=? max)%nat && utf8_valid value &&
  forallb (fun c => (32 <=? byte_of c)%N && negb (byte_of c =? 127)%N) (list_ascii_of_string value).

Record GraviteeResource := MkGraviteeResource { Gr_ID : string; Gr_Name : string }.

Record GraviteeSnapshot := MkGraviteeSnapshot {
  Gs_TicketRef : TicketRef; Gs_SubscriptionID : string; Gs_Status : string;
  Gs_Application : GraviteeResource; Gs_OwnerEmail : string; Gs_API : GraviteeResource; Gs_Plan : GraviteeResource;
  Gs_PlanSecurity : string; Gs_RequestedExpiration : option string; Gs_RemoteCreatedAt : string; Gs_RemoteUpdatedAt : string
}.

Definition d_GraviteeResource : decoder GraviteeResource := d_struct (fun cur fs =>
  f0 ← field "id" d_string (Gr_ID cur) fs;
  f1 ← field "name" d_string (Gr_Name cur) fs;
  mret (MkGraviteeResource f0 f1)).

(** The owner's address sits beside the resource it belongs to. *)
Definition d_GraviteeApplication : decoder (GraviteeResource * string) := d_struct (fun cur fs =>
  f0 ← field "id" d_string (Gr_ID (fst cur)) fs;
  f1 ← field "name" d_string (Gr_Name (fst cur)) fs;
  f2 ← field "primaryOwnerEmail" d_string (snd cur) fs;
  mret (MkGraviteeResource f0 f1, f2)).

Definition zeroGraviteeSnapshot : GraviteeSnapshot :=
  let none := MkGraviteeResource "" "" in
  MkGraviteeSnapshot (MkTicketRef "" 0) "" "" none "" none none "" None "" "".

Definition d_GraviteeSnapshot : decoder GraviteeSnapshot := d_struct (fun cur fs =>
  f0 ← field "ticketRef" d_TicketRef (Gs_TicketRef cur) fs;
  f1 ← field "subscriptionId" d_string (Gs_SubscriptionID cur) fs;
  f2 ← field "status" d_string (Gs_Status cur) fs;
  f3 ← field "application" d_GraviteeApplication (Gs_Application cur, Gs_OwnerEmail cur) fs;
  f4 ← field "api" d_GraviteeResource (Gs_API cur) fs;
  f5 ← field "plan" d_GraviteeResource (Gs_Plan cur) fs;
  f6 ← field "planSecurity" d_string (Gs_PlanSecurity cur) fs;
  f7 ← field "requestedExpiration" (d_ptr "" d_string) (Gs_RequestedExpiration cur) fs;
  f8 ← field "remoteCreatedAt" d_string (Gs_RemoteCreatedAt cur) fs;
  f9 ← field "remoteUpdatedAt" d_string (Gs_RemoteUpdatedAt cur) fs;
  mret (MkGraviteeSnapshot f0 f1 f2 (fst f3) (snd f3) f4 f5 f6 f7 f8 f9)).

Definition validRemoteResource (r : GraviteeResource) : bool :=
  MatchString graviteeID (Gr_ID r) && safeRemoteText (Gr_Name r) 512.

Definition validSnapshotOwner (email : string) : bool :=
  match sv_ParseAddress sv email with
  | None => false
  | Some address => String.eqb address email && String.eqb (trim_space email) email && (String.length email <=? 320)%nat
  end.

(** A moment already in the form it would be written in; what the layout also
    reads but would write differently is refused by the comparison. *)
Definition canonicalSnapshotTime (raw : string) : bool :=
  match ParseTime raw with None => false | Some t => String.eqb (rfc3339_nano t) raw end.

Definition validGraviteeSnapshot (s : GraviteeSnapshot) (ref : TicketRef) : bool :=
  bool_decide (Gs_TicketRef s = ref) && MatchString graviteeID (Gs_SubscriptionID s) &&
  String.eqb (Gs_Status s) "PENDING" && String.eqb (Gs_PlanSecurity s) "API_KEY" &&
  validRemoteResource (Gs_Application s) && validSnapshotOwner (Gs_OwnerEmail s) &&
  validRemoteResource (Gs_API s) && validRemoteResource (Gs_Plan s) &&
  canonicalSnapshotTime (Gs_RemoteCreatedAt s) && canonicalSnapshotTime (Gs_RemoteUpdatedAt s) &&
  match Gs_RequestedExpiration s with None => true | Some raw => canonicalSnapshotTime raw end.

Definition graviteeEvidenceKind : string := "gravitee_subscription".

Definition DecodeGraviteeApprovalEvidence (raw : string) (evidence : ApprovalEvidence) : option GraviteeSnapshot :=
  if negb (String.eqb (AE_Kind evidence) graviteeEvidenceKind) || negb (ApprovalEvidence_Valid evidence) ||
     negb (String.eqb (ResultDigest raw) (AE_Digest evidence)) then None
  else
    let '(s, ok) := unmarshal_into zeroGraviteeSnapshot d_GraviteeSnapshot raw in
    if negb ok || negb (validGraviteeSnapshot s (AE_Ticket evidence)) then None else Some s.

(** What an approver is shown beside the question. *)
Inductive EvidenceDetail :=
| EvidenceNone
| EvidenceAnswer (text : string)
| EvidenceGravitee (s : GraviteeSnapshot) (updated : Time) (expires : option Time).

Definition graviteeApprovalEvidence (s : GraviteeSnapshot) : option EvidenceDetail :=
  updated ← ParseTime (Gs_RemoteUpdatedAt s);
  match Gs_RequestedExpiration s with
  | None => Some (EvidenceGravitee s updated None)
  | Some raw => expires ← ParseTime raw; Some (EvidenceGravitee s updated (Some expires))
  end.

(** The evidence sealed into a request: none when the request carries none; an
    error when it cannot be told. *)
Definition approvalEvidenceAt (steps : list Step) (atSeq : Z) : result unit (option ApprovalEvidence) :=
  match List.find (fun s => Z.eqb (S_Seq s) atSeq && String.eqb (S_Kind s) StepApprovalRequested) steps with
  | None => Err tt
  | Some s =>
      let '(p, ok) := unmarshal_into zeroApprovalRequestedPayload d_ApprovalRequestedPayload (S_Payload s) in
      if negb ok then Err tt
      else match AR_Evidence p with
           | None => Ok None
           | Some e => if ApprovalEvidence_Valid e then Ok (Some e) else Err tt
           end
  end.

Definition approvalEvidenceDetail (state : State) (steps : list Step) (atSeq : Z) : option EvidenceDetail :=
  match approvalEvidenceAt steps atSeq with
  | Err _ => None
  | Ok None =>
      match St_PendingApproval state with
      | Some p => if RequiresApprovalEvidence (State.PA_Tool p) then None else Some EvidenceNone
      | None => Some EvidenceNone
      end
  | Ok (Some e) =>
      match sv_content sv with
      | None => None
      | Some get =>
          if negb (bool_decide (TC_Ref (St_Ticket state) = AE_Ticket e)) then None
          else match get (AE_Ref e) with
               | Err _ => None
               | Ok raw =>
                   if String.eqb (AE_Kind e) ticketAnswerKind
                   then EvidenceAnswer <$> DecodeTicketAnswerEvidence raw e
                   else DecodeGraviteeApprovalEvidence raw e ≫= graviteeApprovalEvidence
               end
      end
  end.

Definition GetApprovalEvidence (m : Memory) (cancelled : bool) (caller : Caller) (run : RunID) (atSeq : Z)
    : Response EvidenceDetail :=
  match Read m cancelled run FirstSeq with
  | Err e => read_failed e
  | Ok steps =>
      match Fold steps with
      | Err e => Failure (SrvFold e)
      | Ok state =>
          if negb (mayRequire caller PermApprovalAct (St_Scope state)) then Forbidden PermApprovalAct (St_Scope state)
          else match St_PendingApproval state with
               | None => NotFound
               | Some p =>
                   if negb (Z.eqb (State.PA_AtSeq p) atSeq) then NotFound
                   else match approvalEvidenceDetail state steps atSeq with
                        | None => Conflicts EvidenceUnavailable
                        | Some d => Success d
                        end
               end
      end
  end.

(** ** Deciding (approvals.go, domain/workitem_measures.go) *)

Definition ReservedApprovalNote (note : string) : bool :=
  has_prefix StandingApprovalNotePrefix (ToLower (trim_space note)).

Definition decidedAt (steps : list Step) (now : Time) : Time :=
  match last steps with
  | None => now
  | Some s => if (now <? S_At s)%Z then S_At s else now
  end.

Record DecisionBody := MkDecisionBody { Db_Approved : bool; Db_Note : option string; Db_AtSeq : Z }.

Definition decision_step (state : State) (steps : list Step) (caller : Caller) (now : Time) (run : RunID)
    (body : DecisionBody) : Step :=
  MkStep run 0 StepApprovalDecided (St_Scope state) (St_AgentID state) (St_VersionID state) (St_OnBehalfOf state)
    (marshal c_ApprovalDecidedPayload
       (MkApprovalDecidedPayload (Db_Approved body) (callerOf caller) (default "" (Db_Note body)) (Db_AtSeq body) ""))
    [] zeroCost (ApprovalDecisionKey run (Db_AtSeq body)) "" (decidedAt steps now) "" "".

(** What is settled before anything is written, from the trail as it was read. *)
Definition decision_to_record (seen : Memory) (cancelled : bool) (caller : Caller) (now : Time) (run : RunID) (body : DecisionBody)
    : Step + Response RunView :=
  match Read seen cancelled run FirstSeq with
  | Err e => inr (read_failed e)
  | Ok steps =>
      match Fold steps with
      | Err e => inr (Failure (SrvFold e))
      | Ok state =>
          if negb (mayRequire caller PermApprovalAct (St_Scope state)) then inr (Forbidden PermApprovalAct (St_Scope state))
          else if ReservedApprovalNote (default "" (Db_Note body)) then inr BadNote
          else match St_PendingApproval state with
               | None => inr (Conflicts NotAwaiting)
               | Some p =>
                   if negb (Z.eqb (State.PA_AtSeq p) (Db_AtSeq body))
                   then inr (Conflicts (AwaitingOther (State.PA_AtSeq p) (Db_AtSeq body)))
                   else if Db_Approved body && negb (bool_decide (is_Some (approvalEvidenceDetail state steps (Db_AtSeq body))))
                   then inr (Conflicts EvidenceUnavailable)
                   else inl (decision_step state steps caller now run body)
               end
      end
  end.

(** [seen] is the ledger when the trail was read, [m] when the decision is
    recorded, and [moved] what others have done to it by the time the answer is
    read back. *)
Definition DecideApproval (seen m : Memory) (moved : Memory -> Memory) (cancelled : bool) (caller : Caller) (now : Time)
    (run : RunID) (body : DecisionBody) : Memory * Response RunView :=
  match decision_to_record seen cancelled caller now run body with
  | inr answer => (m, answer)
  | inl decision =>
      match AppendIfHead m cancelled now (MkStepRef (Db_AtSeq body) StepApprovalRequested) decision with
      | Err ErrHeadMoved => (m, Conflicts Overtaken)
      | Err e => (m, Failure (SrvStore e))
      | Ok (m', _) => (m', projected (moved m') cancelled run)
      end
  end.

(** The inbox: what waits in the scopes the caller may decide in. *)
Definition toolEffects : gmap string Effect :=
  match sv_tools sv with
  | Some (Ok entries) => fold_left (fun m e => <[Te_ID e := Te_Effect e]> m) entries ∅
  | _ => ∅
  end.

Definition inbox_item (s : RunSummary) (p : PendingApprovalSummary) : PendingView :=
  MkPendingView (Ru_RunID s) (Ru_Scope s) (Ru_AgentID s) (Dispatch.PA_Tool p) (Dispatch.PA_Rule p)
    (Dispatch.PA_Reason p) (Dispatch.PA_AtSeq p) (Ru_UpdatedAt s) (toolEffects !! Dispatch.PA_Tool p).

Definition ListApprovals (m : Memory) (cancelled : bool) (caller : Caller) (company area cursor : option string) (limit : option Z)
    : Response (list PendingView * option string) :=
  match narrow caller (runFilter company area None None None) PermApprovalAct with
  | None => Success ([], None)
  | Some f =>
      let limit := limitOf limit in
      match ListRuns m cancelled (f <| Rf_After := cursorFrom cursor |>) "awaiting_approval" limit with
      | Err e => Failure (SrvStore e)
      | Ok waiting =>
          let visible := VisibleScopes caller PermApprovalAct in
          Success (omap (fun s => p ← Ru_PendingApproval s;
                                  if readable (Ru_Scope s) visible then Some (inbox_item s p) else None) waiting,
                   next_token waiting limit)
      end
  end.

(** ** Undoing (compensation.go) *)

(** A run and its state; none when there is no such run. *)
Definition trail_read (m : Memory) (cancelled : bool) (run : RunID) : result ServerError (option (list Step * State)) :=
  match Read m cancelled run FirstSeq with
  | Err ErrNotFound => Ok None
  | Err e => Err (SrvStore e)
  | Ok [] => Ok None
  | Ok steps => match Fold steps with Ok state => Ok (Some (steps, state)) | Err e => Err (SrvFold e) end
  end.

Definition undos : result ServerError (gmap string ToolID) :=
  match sv_tools sv with
  | None => Ok ∅
  | Some (Err _) => Err SrvTools
  | Some (Ok entries) =>
      Ok (fold_left (fun m e => if String.eqb (Te_CompensatedBy e) "" then m else <[Te_ID e := Te_CompensatedBy e]> m) entries ∅)
  end.

Definition CompensatedBy (m : gmap string ToolID) (tool : ToolID) : ToolID := default "" (m !! tool).

Record ActView := MkActView { Av_Tool : ToolID; Av_Seq : Z; Av_Undo : option ToolID }.

Definition actsFrom (plan : list Act) : list ActView :=
  List.map (fun a => MkActView (Act_Tool a) (Act_Seq a) (nonempty (Act_Undo a))) plan.

Definition GetCompensation (m : Memory) (cancelled : bool) (caller : Caller) (run : RunID) : Response (list ActView) :=
  match trail_read m cancelled run with
  | Err e => Failure e
  | Ok None => NotFound
  | Ok (Some (steps, state)) =>
      if negb (mayRequire caller PermRunRead (St_Scope state)) then Forbidden PermRunRead (St_Scope state)
      else match undos with
           | Err e => Failure e
           | Ok u => Success (actsFrom (Plan (CompensatedBy u) steps))
           end
  end.

Record AbandonBody := MkAbandonBody { Ab_Reason : string; Ab_Compensate : option bool }.

Inductive WhyNot := WhyAbandonedWithout | WhyNothing.

Definition abandonment (state : State) (caller : Caller) (now : Time) (reason : string) (compensating : bool) : Step :=
  MkStep (St_RunID state) 0 StepAbandoned (St_Scope state) (St_AgentID state) (St_VersionID state) (St_OnBehalfOf state)
    (marshal c_AbandonedPayload (MkAbandonedPayload (callerOf caller) reason compensating))
    [] zeroCost "" "" now "" "".

(** The abandonment is appended with no condition on the head. *)
Definition AbandonRun (seen m : Memory) (cancelled : bool) (caller : Caller) (now : Time) (run : RunID) (body : AbandonBody)
    : Memory * Response (list (ActView * option WhyNot)) :=
  match trail_read seen cancelled run with
  | Err e => (m, Failure e)
  | Ok None => (m, NotFound)
  | Ok (Some (steps, state)) =>
      if negb (mayRequire caller PermRunCancel (St_Scope state)) then (m, Forbidden PermRunCancel (St_Scope state))
      else if State_Terminal state then (m, Conflicts (InPhase (St_Phase state)))
      else
        let wants := default true (Ab_Compensate body) in
        match undos with
        | Err e => (m, Failure e)
        | Ok u =>
            match Append m cancelled now (abandonment state caller now (Ab_Reason body) wants) with
            | Err e => (m, Failure (SrvStore e))
            | Ok (m', _) =>
                (m', Success (List.map (fun a => (a, if negb wants then Some WhyAbandonedWithout
                                                     else match Av_Undo a with None => Some WhyNothing | Some _ => None end))
                                (actsFrom (Plan (CompensatedBy u) steps))))
            end
        end
  end.

Definition resumption (state : State) (caller : Caller) (now : Time) (run : RunID) (note : string) : Step :=
  MkStep run 0 StepResumed (St_Scope state) (St_AgentID state) (St_VersionID state) (St_OnBehalfOf state)
    (marshal c_ResumedPayload (MkResumedPayload (callerOf caller) note))
    [] zeroCost "" "" now "" "".

Definition ResumeRun (seen m : Memory) (moved : Memory -> Memory) (cancelled : bool) (caller : Caller) (now : Time) (run : RunID)
    (note : option string) : Memory * Response RunView :=
  match trail_read seen cancelled run with
  | Err e => (m, Failure e)
  | Ok None => (m, NotFound)
  | Ok (Some (steps, state)) =>
      if negb (mayRequire caller PermRunTrigger (St_Scope state)) then (m, Forbidden PermRunTrigger (St_Scope state))
      else if negb (Z.eqb (St_Phase state) PhaseParked) then (m, Conflicts (InPhase (St_Phase state)))
      else match Append m cancelled now (resumption state caller now run (default "" note)) with
           | Err e => (m, Failure (SrvStore e))
           | Ok (m', _) => (m', projected (moved m') cancelled run)
           end
  end.

(** ** Starting (start_run.go, rerun.go) *)

(** The shared opener over this server's ports. *)
Definition opener (registry : AgentID -> result PortError (list AgentSummary)) : Opener :=
  MkOpener registry (sv_put sv) (sv_pauses sv) (sv_stops sv) (sv_stages sv) (sv_clock sv).

(** The run that was opened, and whether it was by this request. *)
Definition opened_answer (moved : Memory -> Memory) (cancelled : bool) (m : Memory) (r : OpenResult)
    : Memory * Response (RunView * bool) :=
  (m, match project (moved m) cancelled (Or_RunID r) with
      | Ok (v, _) => Success (v, Or_Created r)
      | Err e => Failure e
      end).

Definition manual_request (agent : AgentID) (key : string) (caller : Caller) (input : option string) : Request_ :=
  MkRequest_ agent key "manual" (callerOf caller) (default "" input) [] None None [] "" "" 0 "" "" None None.

Definition StartRun (seen m : Memory) (moved : Memory -> Memory) (unread cancelled : bool) (caller : Caller) (agent : AgentID)
    (key : string) (input : option string) : Memory * Response (RunView * bool) :=
  match sv_agents sv with
  | None => (m, NotFound)
  | Some versions =>
      match versions agent with
      | Err _ => (m, Failure SrvVersions)
      | Ok [] => (m, NotFound)
      | Ok (published :: _) =>
          if negb (readable (As_Scope published) (VisibleScopes caller PermAgentRead)) then (m, NotFound)
          else if negb (mayRequire caller PermRunTrigger (As_Scope published))
          then (m, Forbidden PermRunTrigger (As_Scope published))
          else match Open_across (opener versions) (manual_request (As_ID published) key caller input) seen unread m cancelled with
               | (m', Err e) => (m', Failure (SrvOpen e))
               | (m', Ok r) => opened_answer moved cancelled m' r
               end
      end
  end.

(** The opening step of the recorded run, or the answer an absent run gets. *)
Definition recordedSource (m : Memory) (cancelled : bool) (caller : Caller) (run : RunID)
    : Step + Response (RunView * bool) :=
  match Read m cancelled run FirstSeq with
  | Err e => inr (read_failed e)
  | Ok [] => inr NotFound
  | Ok (first :: _) =>
      if negb (mayRequire caller PermRunRead (S_Scope first)) then inr NotFound
      else if negb (String.eqb (S_Kind first) StepRunStarted) then inr (Failure SrvNotAnOpening)
      else inl first
  end.

Definition rerunTarget (source : Step) (asked : VersionID)
    : ((AgentID -> result PortError (list AgentSummary)) * AgentSummary) + Response (RunView * bool) :=
  match sv_agents sv with
  | None => inr (Failure SrvNoRegistry)
  | Some versions =>
      match versions (S_AgentID source) with
      | Err _ => inr (Failure SrvVersions)
      | Ok vs =>
          match Pin (S_AgentID source) vs asked with
          | Err _ => inr (BadVersion asked)
          | Ok target =>
              if negb (bool_decide (As_Scope target = S_Scope source)) then inr (Conflicts OtherScope) else inl (versions, target)
          end
      end
  end.

Definition opening_payload (source : Step) : RunStartedPayload :=
  decode_best_effort zeroRunStartedPayload d_RunStartedPayload (S_Payload source).

Definition recordedInput (source : Step) : string + Response (RunView * bool) :=
  if String.eqb (RS_InputRef (opening_payload source)) "" then inl ""
  else match sv_content sv with
       | None => inr (Failure SrvNoContent)
       | Some get =>
           match get (RS_InputRef (opening_payload source)) with
           | Ok data => inl data
           | Err (ErrContentErased _) | Err (ErrContentAbsent _) => inr (Conflicts SourceInputErased)
           | Err _ => inr (Failure SrvContent)
           end
       end.

(** The input and the labels it was recorded under travel, and nothing else. *)
Definition rerun_request (source : Step) (target : AgentSummary) (key : string) (caller : Caller) (input : string) : Request_ :=
  MkRequest_ (As_ID target) key (RS_Trigger (opening_payload source)) (callerOf caller) input (S_Labels source)
    None None [] "" "" 0 (As_VersionID target) (S_RunID source) None None.

Definition openRefusal (e : OpenError) : Response (RunView * bool) :=
  match e with
  | ErrUnknownVersion v => BadVersion v
  | ErrPaused _ | ErrStopped _ | ErrDraft _ => Conflicts (NotRunning e)
  | _ => Failure (SrvOpen e)
  end.

(** [seen] is the ledger when the source was read, [asked] when the key was
    looked up, [looked] when the opener looked it up again. *)
Definition RunFromInput (seen asked looked m : Memory) (moved : Memory -> Memory) (cancelled : bool) (caller : Caller)
    (run : RunID) (idemKey : string) (version : option VersionID) : Memory * Response (RunView * bool) :=
  match recordedSource seen cancelled caller run with
  | inr answer => (m, answer)
  | inl source =>
      if negb (mayRequire caller PermRunTrigger (S_Scope source)) then (m, Forbidden PermRunTrigger (S_Scope source))
      else
        let key := RerunKey (S_RunID source) idemKey in
        let open :=
          match rerunTarget source (default "" version) with
          | inr answer => (m, answer)
          | inl (versions, target) =>
              match recordedInput source with
              | inr answer => (m, answer)
              | inl input =>
                  match Open_across (opener versions) (rerun_request source target key caller input) looked cancelled m cancelled with
                  | (m', Err e) => (m', openRefusal e)
                  | (m', Ok r) => opened_answer moved cancelled m' r
                  end
              end
          end in
        match RunByIdemKey asked cancelled key with
        | Ok existing => if negb (String.eqb idemKey "") then opened_answer moved cancelled m (MkOpenResult existing zeroScope false) else open
        | Err _ => open
        end
  end.
End Handlers.
