(* ===== verification/OperateSafety.v ===== *)
(** * What people may do to runs

    Theorems about the handlers of [Operate]: a decision is recorded on exactly
    the question it was judged by, once, by a person with the authority; every
    step the handlers append is in a scope the caller holds the permission in;
    and a listing shows nothing outside the scopes the caller reads. *)

From Stdlib Require Import ZArith Lia Ascii String.
From stdpp Require Import base list strings gmap sorting.
From S2P Require Import Prelude GoStrings Json Regexp Domain Step Payload Encode State StateFacts Ledger LedgerSafety Access Ports Content Runner MemoryTool Agent Open Dispatch OpenSafety Listing ListingSafety Compensate System Answer Operate.

Local Open Scope string_scope.

(** ** Trails read and trails written to *)

Lemma Read_first m cancelled run steps :
  Read m cancelled run FirstSeq = Ok steps -> cancelled = false /\ m_runs m !! run = Some steps.
Proof.
  unfold Read. intros ([] & Hc%guard_err_Ok & H)%result_bind_Ok. split; [by destruct cancelled|].
  destruct (m_runs m !! run); [|done]. rewrite Z.leb_refl in H. by injection H as <-.
Qed.

(** A request waiting for an answer is a step of the trail. *)
Lemma pending_seq steps s p :
  Fold steps = Ok s -> (Z.of_nat (List.length steps) < 2 ^ 63)%Z -> St_PendingApproval s = Some p ->
  (1 <= State.PA_AtSeq p <= Z.of_nat (List.length steps))%Z.
Proof.
  revert s. induction steps as [|step steps IH] using rev_ind; intros s' Hf Hn Hp.
  { injection Hf as <-. done. }
  pose proof (fold_step_seq _ _ step Hf Hn) as Hseq. rewrite in_app_iff in Hseq. specialize (Hseq ltac:(simpl; auto)).
  apply fold_snoc in Hf as (s & Hs & Ha). apply Apply_Ok in Ha as [_ Ha].
  destruct (noteWorkItem_shape (account s step) step) as (w & E). rewrite E in Ha.
  eapply applyKind_pending in Ha as [Hp'|Hp']; [| |exact Hp]; [|by rewrite Hp'].
  rewrite length_app in *. simpl in *. specialize (IH s Hs ltac:(lia) Hp'). lia.
Qed.

(** Appending onto a head means the trail ends there. *)
Lemma head_length m cancelled now head s m' sealed :
  reachable m -> AppendIfHead m cancelled now head s = Ok (m', sealed) ->
  Z.of_nat (List.length (steps_of m (S_RunID s))) = Ref_Seq head.
Proof.
  intros Hm Ha. apply append_Ok in Ha as (_ & _ & Hh & _).
  destruct (chains_ok_of m (S_RunID s) (reachable_chains _ Hm)) as [Hv _].
  pose proof (chain_last_seq _ Hv (chain_fits m (S_RunID s) Hm)) as Hq.
  unfold headIs in Hh. destruct (last_or None _) as [h|]; [|done].
  destruct (_ || _) eqn:E in Hh; [done|]. apply orb_false_iff in E as [E _]. bsimp. lia.
Qed.

Lemma steps_of_kept m os m' run :
  mem_steps m os m' -> exists more, steps_of m' run = (steps_of m run ++ more)%list.
Proof.
  intros Hs. unfold steps_of at 2. destruct (m_runs m !! run) as [steps|] eqn:E; [|by eexists].
  destruct (mem_steps_prefix _ _ _ _ _ Hs E) as (more & Hm). exists more. unfold steps_of. by rewrite Hm.
Qed.

Lemma mayRequire_Some caller perm scope :
  mayRequire caller perm scope = true -> exists p, caller = Some p /\ Principal_Can p perm scope = true.
Proof. destruct caller as [p|]; [eauto|done]. Qed.

(** Only people decide. *)
Lemma Can_approve_person p scope :
  Principal_Can p PermApprovalAct scope = true -> Pr_Kind p <> PrincipalService /\ Pr_Kind p <> PrincipalAgent.
Proof.
  intros Hc. apply Can_spec in Hc as (Hb & _). unfold barredFrom in Hb.
  split; intros E; rewrite E in Hb; vm_compute in Hb; done.
Qed.

Section Deciding.
  Context `{Unicode} (sv : Server).

(** What was settled from the trail as read. *)
Lemma decision_to_record_inl seen cancelled caller now run body s :
  decision_to_record sv seen cancelled caller now run body = inl s ->
  exists steps state p,
    cancelled = false /\ m_runs seen !! run = Some steps /\ Fold steps = Ok state /\
    mayRequire caller PermApprovalAct (St_Scope state) = true /\
    ReservedApprovalNote (default "" (Db_Note body)) = false /\
    St_PendingApproval state = Some p /\ State.PA_AtSeq p = Db_AtSeq body /\
    (Db_Approved body = true -> is_Some (approvalEvidenceDetail sv state steps (Db_AtSeq body))) /\
    s = decision_step state steps caller now run body.
Proof.
  unfold decision_to_record. destruct (Read seen cancelled run FirstSeq) as [steps|] eqn:Hr; [|done].
  apply Read_first in Hr as [-> Hr]. destruct (Fold steps) as [state|] eqn:Hf; [|done].
  destruct (mayRequire _ _ _) eqn:Hm; [|done]. destruct (ReservedApprovalNote _) eqn:Hn; [done|].
  destruct (St_PendingApproval state) as [p|] eqn:Hp; [|done].
  destruct (Z.eqb_spec (State.PA_AtSeq p) (Db_AtSeq body)) as [Hq|]; [|done]. cbn [negb].
  destruct (_ && _) eqn:He; [done|]. intros [= <-]. exists steps, state, p. repeat split; try done.
  intros Ha. rewrite Ha in He. cbn [andb] in He. by apply negb_false_iff, bool_decide_eq_true in He.
Qed.

(** A decision that was recorded, and onto what. *)
Definition decided_on (m m' : Memory) (caller : Caller) (now : Time) (run : RunID) (body : DecisionBody)
    (p : Principal) (state : State) : Prop :=
  exists q sealed,
    caller = Some p /\ Pr_Kind p <> PrincipalService /\ Pr_Kind p <> PrincipalAgent /\
    Fold (steps_of m run) = Ok state /\ Principal_Can p PermApprovalAct (St_Scope state) = true /\
    St_PendingApproval state = Some q /\ State.PA_AtSeq q = Db_AtSeq body /\
    Z.of_nat (List.length (steps_of m run)) = Db_AtSeq body /\
    ReservedApprovalNote (default "" (Db_Note body)) = false /\
    (Db_Approved body = true -> is_Some (approvalEvidenceDetail sv state (steps_of m run) (Db_AtSeq body))) /\
    m_runs m' = <[run := (steps_of m run ++ [sealed])%list]> (m_runs m) /\
    S_Kind sealed = StepApprovalDecided /\ S_IdemKey sealed = ApprovalDecisionKey run (Db_AtSeq body) /\
    S_Scope sealed = St_Scope state /\
    S_Payload sealed = CanonicalJSON (marshal c_ApprovalDecidedPayload
      (MkApprovalDecidedPayload (Db_Approved body) (Pr_ID p) (default "" (Db_Note body)) (Db_AtSeq body) "")).

Lemma DecideApproval_spec seen os m moved cancelled caller now run body m' answer :
  reachable seen -> mem_steps seen os m ->
  DecideApproval sv seen m moved cancelled caller now run body = (m', answer) ->
  (m' = m /\ forall v, answer <> Success v) \/
  steps_of seen run = steps_of m run /\ exists p state, decided_on m m' caller now run body p state.
Proof.
  intros Hre Hos Hd. pose proof (reachable_steps _ _ _ Hre Hos) as Hrm. unfold DecideApproval in Hd.
  destruct (decision_to_record sv seen cancelled caller now run body) as [s|a] eqn:Es.
  2: { injection Hd as <- <-. left. split; [done|]. intros v ->. unfold decision_to_record, read_failed in Es.
       by repeat case_match. }
  destruct (decision_to_record_inl _ _ _ _ _ _ _ Es) as (steps & state & q & -> & Hr & Hf & Hm & Hn & Hp & Hq & He & ->).
  set (s := decision_step state steps caller now run body) in *.
  destruct (AppendIfHead m false now _ s) as [[m1 sealed]|e] eqn:Ha.
  2: { destruct e; injection Hd as <- <-; left; split; done. }
  injection Hd as <- _. right.
  pose proof (head_length _ _ _ _ _ _ _ Hrm Ha) as Hlen. change (S_RunID s) with run in Hlen. cbn [Ref_Seq] in Hlen.
  assert (Hst : steps_of seen run = steps) by (unfold steps_of; by rewrite Hr).
  destruct (steps_of_kept _ _ _ run Hos) as (more & Hmore). rewrite Hst in Hmore.
  pose proof (pending_seq _ _ _ Hf ltac:(rewrite <- Hst; by apply chain_fits) Hp) as Hps.
  assert (more = []) as ->.
  { apply length_zero_iff_nil. rewrite Hmore, length_app in Hlen. lia. }
  rewrite app_nil_r in Hmore. split; [congruence|].
  destruct (mayRequire_Some _ _ _ Hm) as (p & Hc & Hcan). destruct (Can_approve_person _ _ Hcan) as [K1 K2].
  apply append_Ok in Ha as (_ & _ & _ & _ & _ & Hnew & ->). destruct (sealed_keeps _ _ _ Hnew) as (E1 & E2 & E3 & E4 & _ & E6).
  exists p, state, q, sealed. rewrite Hmore. rewrite Hmore in Hlen.
  repeat (split; [done|]). split; [by rewrite store_runs, E1; change (S_RunID s) with run; rewrite Hmore|].
  rewrite E2, E3, E4, E6. subst caller. done.
Qed.
End Deciding.

(** ** Every operation that writes *)

Inductive Operation :=
| ODecide (run : RunID) (body : DecisionBody)
| OAbandon (run : RunID) (body : AbandonBody)
| OResume (run : RunID) (note : option string)
| OStart (agent : AgentID) (key : string) (input : option string)
| ORerun (run : RunID) (key : string) (version : option VersionID).

(** The permission each asks for. *)
Definition needs (o : Operation) : Permission :=
  match o with
  | ODecide _ _ => PermApprovalAct
  | OAbandon _ _ => PermRunCancel
  | OResume _ _ | OStart _ _ _ | ORerun _ _ _ => PermRunTrigger
  end.

(** The ledger at each moment a handler looks at it. *)
Record Moments := MkMoments { at_read : Memory; at_key : Memory; at_lookup : Memory; at_write : Memory; at_answer : Memory -> Memory }.

(** The ledger an operation leaves behind. *)
Definition operate `{Unicode} (sv : Server) (w : Moments) (cancelled : bool) (caller : Caller) (now : Time) (o : Operation) : Memory :=
  match o with
  | ODecide run body => fst (DecideApproval sv (at_read w) (at_write w) (at_answer w) cancelled caller now run body)
  | OAbandon run body => fst (AbandonRun sv (at_read w) (at_write w) cancelled caller now run body)
  | OResume run note => fst (ResumeRun (at_read w) (at_write w) (at_answer w) cancelled caller now run note)
  | OStart agent key input => fst (StartRun sv (at_lookup w) (at_write w) (at_answer w) cancelled cancelled caller agent key input)
  | ORerun run key version =>
      fst (RunFromInput sv (at_read w) (at_key w) (at_lookup w) (at_write w) (at_answer w) cancelled caller run key version)
  end.

(** The registry answers an agent's name with versions of that agent. *)
Definition names_agents (sv : Server) : Prop :=
  forall versions agent vs v, sv_agents sv = Some versions -> versions agent = Ok vs -> In v vs -> As_ID v = agent.

(** One step of a scope the caller holds the permission in. *)
Definition authorised (m m' : Memory) (caller : Caller) (perm : Permission) : Prop :=
  m' = m \/ exists p sealed, caller = Some p /\ Principal_Can p perm (S_Scope sealed) = true /\ m' = store_step m sealed.

Lemma appended_authorised m cancelled now epoch expect s m' sealed caller perm :
  append m cancelled now epoch expect s = Ok (m', sealed) -> mayRequire caller perm (S_Scope s) = true ->
  authorised m m' caller perm.
Proof.
  intros Ha Hm. apply append_Ok in Ha as (_ & _ & _ & _ & _ & Hn & ->). destruct (sealed_keeps _ _ _ Hn) as (_ & _ & _ & E & _).
  destruct (mayRequire_Some _ _ _ Hm) as (p & Hc & Hcan). right. exists p, sealed. by rewrite E.
Qed.

Lemma opened_authorised o req seen unread m cancelled m' r caller perm :
  (forall published, admit_request o req = Ok published -> mayRequire caller perm (As_Scope published) = true) ->
  Open_across o req seen unread m cancelled = (m', r) -> authorised m m' caller perm.
Proof.
  intros Hadm. unfold Open_across. destruct (open_prepare o req seen unread) as [[r0|[s scope]]|e] eqn:E;
    [intros [= <- _]; by left| |intros [= <- _]; by left].
  apply prepared_new in E as (_ & _ & w & p & ref & _ & Hp & _ & _ & ->).
  intros [(_ & [sealed Ha] & _)|(-> & _)]%committed; [|by left].
  eapply appended_authorised; [exact Ha|]. by apply Hadm.
Qed.

Lemma admitted_version o req published :
  admit_request o req = Ok published ->
  exists vs, op_registry o (Rq_Agent req) = Ok vs /\ Pin (Rq_Agent req) vs (Rq_Version req) = Ok published.
Proof.
  unfold admit_request. intros ([] & _ & Hr)%result_bind_Ok. apply result_bind_Ok in Hr as ([] & _ & Hr).
  apply result_bind_Ok in Hr as ([] & _ & Hr). apply result_bind_Ok in Hr as (vs & Hv & Hr).
  apply result_bind_Ok in Hr as (p & Hp & Hr). apply result_bind_Ok in Hr as ([] & _ & Hr).
  apply result_bind_Ok in Hr as ([] & _ & Hr). injection Hr as <-. exists vs. split; [|done].
  by destruct (op_registry o (Rq_Agent req)); [injection Hv as ->|].
Qed.

(** Naming the version pinned pins it again. *)
Lemma Pin_again agent vs asked v : Pin agent vs asked = Ok v -> In v vs /\ Pin agent vs (As_VersionID v) = Ok v.
Proof.
  unfold Pin. destruct vs as [|first vs]; [done|]. destruct (String.eqb_spec asked "") as [->|Hne].
  - intros [= <-]. split; [by left|]. simpl. rewrite String.eqb_refl. by destruct (String.eqb _ "").
  - destruct (List.find _ _) as [x|] eqn:E; [|done]. intros [= <-]. pose proof E as E'.
    apply find_some in E as [Hin Hx%String.eqb_eq]. split; [done|]. rewrite Hx.
    apply String.eqb_neq in Hne. by rewrite Hne, E'.
Qed.

Lemma trail_read_Some m cancelled run steps state :
  trail_read m cancelled run = Ok (Some (steps, state)) -> m_runs m !! run = Some steps /\ Fold steps = Ok state.
Proof.
  unfold trail_read. destruct (Read m cancelled run FirstSeq) as [l|[]] eqn:E; try done.
  apply Read_first in E as [_ E]. destruct l; [done|]. destruct (Fold _) eqn:F; [|done]. by intros [= <- <-].
Qed.

Lemma opened_answer_fst moved cancelled m r : fst (opened_answer moved cancelled m r) = m.
Proof. done. Qed.

Section Authority.
  Context `{Unicode} (sv : Server) (w : Moments) (cancelled : bool) (caller : Caller) (now : Time).
  Local Abbreviation ok perm m' := (authorised (at_write w) m' caller perm).

Lemma decide_authorised run body :
  ok PermApprovalAct (fst (DecideApproval sv (at_read w) (at_write w) (at_answer w) cancelled caller now run body)).
Proof.
  unfold DecideApproval. destruct (decision_to_record _ _ _ _ _ _ _) as [s|a] eqn:Es; [|by left].
  apply decision_to_record_inl in Es as (steps & state & q & -> & _ & _ & Hm & _ & _ & _ & _ & ->).
  destruct (AppendIfHead _ _ _ _ _) as [[m1 sealed]|[]] eqn:Ha; try (by left). by eapply appended_authorised.
Qed.

Lemma abandon_authorised run body :
  ok PermRunCancel (fst (AbandonRun sv (at_read w) (at_write w) cancelled caller now run body)).
Proof.
  unfold AbandonRun. destruct (trail_read _ _ _) as [[[steps state]|]|]; try (by left).
  destruct (mayRequire _ _ _) eqn:Hm; [|by left]. destruct (State_Terminal state); [by left|].
  destruct (undos sv); [|by left]. destruct (Append _ _ _ _) as [[m1 sealed]|] eqn:Ha; [|by left].
  by eapply appended_authorised.
Qed.

Lemma resume_authorised run note :
  ok PermRunTrigger (fst (ResumeRun (at_read w) (at_write w) (at_answer w) cancelled caller now run note)).
Proof.
  unfold ResumeRun. destruct (trail_read _ _ _) as [[[steps state]|]|]; try (by left).
  destruct (mayRequire _ _ _) eqn:Hm; [|by left]. destruct (Z.eqb _ _); [|by left].
  destruct (Append _ _ _ _) as [[m1 sealed]|] eqn:Ha; [|by left]. by eapply appended_authorised.
Qed.

Lemma start_authorised agent key input :
  names_agents sv ->
  ok PermRunTrigger (fst (StartRun sv (at_lookup w) (at_write w) (at_answer w) cancelled cancelled caller agent key input)).
Proof.
  intros Hn. unfold StartRun. destruct (sv_agents sv) as [versions|] eqn:Hv; [|by left].
  destruct (versions agent) as [[|published vs]|] eqn:Hvs; try (by left).
  destruct (readable _ _); [|by left]. destruct (mayRequire _ _ _) eqn:Hm; [|by left].
  destruct (Open_across _ _ _ _ _ _) as [m' r] eqn:Ho.
  assert (ok PermRunTrigger m') as Hok.
  { eapply opened_authorised; [|exact Ho]. intros p (vs' & Hr & Hp)%admitted_version. cbn in Hr.
    rewrite (Hn _ _ _ _ Hv Hvs (or_introl eq_refl)), Hvs in Hr. injection Hr as <-. cbn in Hp. by injection Hp as <-. }
  by destruct r.
Qed.

Lemma rerun_authorised run key version :
  names_agents sv ->
  ok PermRunTrigger (fst (RunFromInput sv (at_read w) (at_key w) (at_lookup w) (at_write w) (at_answer w) cancelled caller run key version)).
Proof.
  intros Hn. unfold RunFromInput. destruct (recordedSource _ _ _ _) as [source|]; [|by left].
  destruct (mayRequire _ _ _) eqn:Hm; [|by left]. cbn [negb]. cbv zeta.
  set (open := match rerunTarget sv source _ with inl _ => _ | inr _ => _ end).
  assert (ok PermRunTrigger (fst open)) as Hok; [subst open|by destruct (RunByIdemKey _ _ _); [case_match; [by left|]|]].
  destruct (rerunTarget sv source _) as [[versions target]|] eqn:Ht; [|by left].
  destruct (recordedInput sv source) as [input|]; [|by left].
  unfold rerunTarget in Ht. destruct (sv_agents sv) as [versions'|] eqn:Hv; [|done].
  destruct (versions' (S_AgentID source)) as [vs|] eqn:Hvs; [|done]. destruct (Pin _ _ _) as [t|] eqn:Hp; [|done].
  case_bool_decide as Hscope; [|done]. injection Ht as -> ->.
  destruct (Open_across _ _ _ _ _ _) as [m' r] eqn:Ho.
  assert (ok PermRunTrigger m') as Hok; [|by destruct r].
  apply Pin_again in Hp as [Hin Hp].
  eapply opened_authorised; [|exact Ho]. intros p (vs' & Hr & Hp')%admitted_version. cbn in Hr, Hp'.
  rewrite (Hn _ _ _ _ Hv Hvs Hin), Hvs in Hr. injection Hr as <-. rewrite (Hn _ _ _ _ Hv Hvs Hin), Hp in Hp'.
  injection Hp' as <-. by rewrite Hscope.
Qed.
End Authority.

(** ** Scopes of a listing *)

Lemma Can_within p perm s t :
  Principal_Can p perm s = true -> Scope_Contains s t = true -> Principal_Can p perm t = true.
Proof.
  rewrite !Can_spec. intros (Hb & g & Hg & Hc & Ha) Hst. split; [done|]. exists g. repeat split; try done.
  by eapply Contains_trans.
Qed.

Lemma ScopesFor_Can p perm s t :
  s ∈ Principal_ScopesFor p perm -> Scope_Contains s t = true -> Principal_Can p perm t = true.
Proof.
  unfold Principal_ScopesFor. destruct (barredFrom p perm) eqn:Hb; [by intros ?%elem_of_nil|].
  rewrite list_elem_of_In, scopes_step_In. intros [[]|(g & Hg & <- & Ha)] Hc.
  apply Can_spec. split; [done|]. by exists g.
Qed.

(** What a narrowed filter matches is in a scope the caller holds. *)
Lemma narrowed_matches `{Unicode} caller f perm f' c first :
  narrow caller f perm = Some f' -> matches first (f' <| Rf_After := c |>) = true ->
  exists p, caller = Some p /\ Principal_Can p perm (S_Scope first) = true.
Proof.
  unfold narrow. intros Hn Hm. rewrite matches_after in Hm.
  assert (Hw : Rf_Scopes f' <> [] /\ withinAny (S_Scope first) (Rf_Scopes f') = true).
  { assert (Rf_Scopes f' <> []) as Hne.
    { destruct (_ || _) in Hn; [destruct (mayRequire _ _ _); [|done]|destruct (VisibleScopes _ _); [done|]]; by injection Hn as <-. }
    split; [done|]. unfold matches in Hm. cbv zeta in Hm. repeat (case_match; [done|]).
    rewrite bool_decide_eq_false_2 in * by done. destruct (withinAny _ _); done. }
  destruct Hw as [_ Hw]. apply existsb_exists in Hw as (a & Hin & Ha).
  destruct (_ || _) in Hn.
  - destruct (mayRequire _ _ _) eqn:Hr; [|done]. injection Hn as <-. destruct Hin as [<-|[]].
    destruct (mayRequire_Some _ _ _ Hr) as (p & -> & Hp). exists p. split; [done|]. by eapply Can_within.
  - destruct caller as [p|]; [|done]. cbn in Hn. destruct (Principal_ScopesFor p perm) as [|x l] eqn:E; [done|].
    injection Hn as <-. exists p. split; [done|]. eapply ScopesFor_Can; [|exact Ha]. rewrite E. by apply list_elem_of_In.
Qed.

(** ** Theorems *)

(** C5. Whatever somebody decides, at whatever moment the ledger was read and
    however it moved before the write: either nothing is recorded and the answer
    is no success, or the decision was made by a person holding approval:act in
    the run's scope, on the trail that person was shown - the run waits on the
    very request they named and nothing has been recorded since - with the
    evidence readable when it approves and a note that does not read as a
    standing grant's, and one step was added to that run alone, in their name. *)
Theorem a_decision_answers_the_question_asked `{Unicode} sv seen os m moved cancelled caller now run body m' answer :
  reachable seen -> mem_steps seen os m ->
  DecideApproval sv seen m moved cancelled caller now run body = (m', answer) ->
  (m' = m /\ forall v, answer <> Success v) \/
  steps_of seen run = steps_of m run /\ exists p state, decided_on sv m m' caller now run body p state.
Proof. apply DecideApproval_spec. Qed.

(** A question is answered once: after a decision was recorded, whatever happens
    next, another decision on the same request - by anybody, from a page opened
    before or after - records nothing. *)
Theorem a_question_is_answered_once `{Unicode} sv sv' seen os m moved c caller now run body m1 v
    later m2 seen' os' moved' c' caller' now' body' m2' answer :
  reachable seen -> mem_steps seen os m ->
  DecideApproval sv seen m moved c caller now run body = (m1, Success v) -> mem_steps m1 later m2 ->
  reachable seen' -> mem_steps seen' os' m2 -> Db_AtSeq body' = Db_AtSeq body ->
  DecideApproval sv' seen' m2 moved' c' caller' now' run body' = (m2', answer) ->
  m2' = m2 /\ forall v', answer <> Success v'.
Proof.
  intros Hs Hm Hd Hl Hs' Hm' Hq Hd'.
  apply (DecideApproval_spec _ _ _ _ _ _ _ _ _ _ _ _ Hs Hm) in Hd as [[_ C]|(_ & p & state & Hd)]; [by destruct (C v)|].
  apply (DecideApproval_spec _ _ _ _ _ _ _ _ _ _ _ _ Hs' Hm') in Hd' as [|(_ & p' & state' & Hd')]; [done|exfalso].
  destruct Hd as (q & sealed & _ & _ & _ & _ & _ & _ & _ & Hlen & _ & _ & Hr & _).
  destruct Hd' as (q' & sealed' & _ & _ & _ & _ & _ & _ & _ & Hlen' & _).
  destruct (steps_of_kept _ _ _ run Hl) as (more & Hmore). unfold steps_of at 2 in Hmore.
  rewrite Hr, lookup_insert_eq in Hmore. simpl in Hmore. rewrite Hmore, !length_app in Hlen'. simpl in Hlen'. lia.
Qed.


(** A page of runs shows only runs that opened in a scope where the caller holds
    run:read, each as the ledger has it: naming a scope, a search, a cursor from
    somebody else's page or asking for everything shows nothing more. *)
Theorem listings_stay_in_scope `{Unicode} m cancelled caller q page v :
  reachable m -> ListRuns_handler m cancelled caller q = Success page -> v ∈ Rp_Items page ->
  exists p first more, caller = Some p /\ m_runs m !! Rv_RunID v = Some (first :: more) /\
    Principal_Can p PermRunRead (S_Scope first) = true /\ v = runFromSummary (summarise first (first :: more)).
Proof.
  intros Hr. unfold ListRuns_handler. set (f0 := match Lp_Q q with Some _ => _ | None => _ end). clearbody f0.
  destruct (narrow caller f0 PermRunRead) as [f|] eqn:Hn; [|done].
  destruct cancelled; [done|]. rewrite page_of. intros [= <-] Hv. cbn [Rp_Items] in Hv.
  apply list_elem_of_In, in_map_iff in Hv as (s & <- & Hs). apply list_elem_of_In in Hs.
  assert (Hrow : s ∈ listing m (f <| Rf_After := cursorFrom (Lp_Cursor q) |>) (default "" (Lp_Phase q))).
  { rewrite <- (take_drop (limitOrDefault (limitOf (Lp_Limit q))) (listing _ _ _)). apply elem_of_app. by left. }
  unfold listing in Hrow. rewrite sort_by_perm, rows_of in Hrow. destruct Hrow as (run & first & more & H1 & H2 & -> & _).
  destruct (narrowed_matches _ _ _ _ _ _ Hn H2) as (p & -> & Hp).
  destruct (summarise_position first (first :: more)) as (E & _).
  destruct (reachable_chains _ Hr _ _ H1) as (_ & _ & Hf). apply Forall_cons in Hf as [Hf _].
  exists p, first, more. unfold runFromSummary at 1. cbn [Rv_RunID]. by rewrite E, Hf.
Qed.

(** ** Where the pieces do not fit *)

(** The store answers at most fifty rows to a request for more than five hundred,
    and such a page carries no cursor: the rest of the list cannot be reached. *)
Lemma a_wide_page_ends_the_list `{Unicode} m f phase limit rows :
  (500 < limit)%Z -> ListRuns m false f phase limit = Ok rows ->
  (List.length rows <= 50)%nat /\ nextPage rows limit = None.
Proof.
  intros Hl. rewrite page_of. intros [= <-]. unfold limitOrDefault.
  destruct (Z.leb_spec limit 0), (Z.ltb_spec 500 limit); try lia. cbn [orb]. change (Z.to_nat 50) with 50%nat.
  rewrite length_take. split; [lia|]. unfold nextPage. rewrite length_take.
  destruct (Z.ltb_spec (Z.of_nat (50 `min` List.length (listing m f phase))) limit); [done|lia].
Qed.

(** ** Witnesses *)

Definition ask_draft : Step :=
  run_step "run-1" StepApprovalRequested (print_json (JObj [("tool", JStr "crm.update"); ("rule", JStr "writes")])) "".
Definition asked_1 : Step := Eval vm_compute in Step.seal (Some opened_1) ask_draft.
Definition waiting : Memory := store_step demo_1 asked_1.

Lemma waiting_step : append demo_1 false 0 None None ask_draft = Ok (waiting, asked_1).
Proof. vm_compute. reflexivity. Qed.

Lemma waiting_reachable : reachable waiting.
Proof. eapply (reach_step demo_1 0 (OpAppend None None ask_draft)); [apply demo_1_reachable|]. econstructor. apply waiting_step. Qed.

(** A server with nothing wired but an empty registry. *)
Definition bare : Server :=
  MkServer None None (Some (fun _ => Ok [])) None None None None (fun _ => (0%Z, 0%Z)) (fun _ => None).
Definition approver : Principal :=
  Build_Principal "bo" "bo" "Bo" PrincipalUser [MkGrant (MkScope "acme" "cx") RoleAdmin] "".
Definition yes : DecisionBody := MkDecisionBody true (Some "fine by me") 2.

Definition decide_1 := DecideApproval (H := ascii_unicode) bare waiting waiting (fun m => m) false (Some approver) 5 "run-1" yes.

Lemma a_decision_answers_the_question_asked_witness :
  fst decide_1 <> waiting /\
  steps_of waiting "run-1" = steps_of waiting "run-1" /\
  exists p state, decided_on (H := ascii_unicode) bare waiting (fst decide_1) (Some approver) 5 "run-1" yes p state.
Proof.
  assert (N : fst decide_1 <> waiting).
  { intros E. apply (f_equal (fun m => List.length (steps_of m "run-1"))) in E. vm_compute in E. discriminate E. }
  split; [exact N|].
  destruct (a_decision_answers_the_question_asked (H := ascii_unicode) bare waiting [] waiting (fun m => m) false (Some approver) 5
              "run-1" yes (fst decide_1) (snd decide_1) waiting_reachable (steps_nil _)
              (surjective_pairing _)) as [[E _]|E]; [by destruct N|exact E].
Defined.

(** A second approver whose page was opened before the first decided. *)
Lemma a_question_is_answered_once_witness :
  let m1 := fst decide_1 in
  fst (DecideApproval (H := ascii_unicode) bare waiting m1 (fun m => m) false (Some approver) 9 "run-1" yes) = m1.
Proof.
  destruct (snd decide_1) as [v| | | | | |] eqn:E; try (vm_compute in E; discriminate E).
  assert (D : decide_1 = (fst decide_1, Success v)) by (rewrite <- E; apply surjective_pairing).
  assert (S : mem_steps waiting [OpAppend None (Some (MkStepRef 2 StepApprovalRequested))
                 (match decision_to_record (H := ascii_unicode) bare waiting false (Some approver) 5 "run-1" yes with inl s => s | inr _ => ask_draft end)]
                (fst decide_1)).
  { eapply (steps_cons _ 5); [|constructor]. eapply step_append. vm_compute. reflexivity. }
  apply (a_question_is_answered_once (H := ascii_unicode) bare bare waiting [] waiting (fun m => m) false (Some approver) 5 "run-1" yes
           (fst decide_1) v [] (fst decide_1) waiting _ (fun m => m) false (Some approver) 9 yes _ _
           waiting_reachable (steps_nil _) D (steps_nil _) waiting_reachable S eq_refl (surjective_pairing _)).
Defined.

Definition now_moments (m : Memory) : Moments := MkMoments m m m m (fun m => m).


Definition everything : ListParams := MkListParams None None None None None None None None.

Lemma listings_stay_in_scope_witness :
  exists page v, ListRuns_handler (H := ascii_unicode) waiting false (Some approver) everything = Success page /\ v ∈ Rp_Items page /\
  exists p first more, Some approver = Some p /\ m_runs waiting !! Rv_RunID v = Some (first :: more) /\
    Principal_Can p PermRunRead (S_Scope first) = true /\ v = runFromSummary (summarise first (first :: more)).
Proof.
  destruct (ListRuns_handler (H := ascii_unicode) waiting false (Some approver) everything) as [page| | | | | |] eqn:E;
    try (vm_compute in E; discriminate E).
  exists page. destruct (Rp_Items page) as [|v l] eqn:L; [vm_compute in E; injection E as <-; discriminate L|].
  exists v. split; [reflexivity|]. split; [left|].
  apply (listings_stay_in_scope (H := ascii_unicode) waiting false (Some approver) everything page v waiting_reachable E).
  rewrite L. left.
Defined.

(** *** An abandonment that comes too late, and a resumption *)

Definition finish_draft : Step := run_step "run-1" StepRunFinished (print_json (JObj [("outcome", JStr "done")])) "".
Definition finished_1 : Memory := store_step demo_1 (Step.seal (Some opened_1) finish_draft).

Definition phase_of_run (m : Memory) (run : RunID) : option Phase :=
  match Fold (steps_of m run) with Ok s => Some (St_Phase s) | Err _ => None end.

(** The run was running when the trail was read and had finished when the
    abandonment was written: it is recorded all the same, and the finished run
    goes into compensation. *)
Example an_abandonment_lands_on_a_finished_run :
  let m' := fst (AbandonRun bare demo_1 finished_1 false (Some approver) 7 "run-1" (MkAbandonBody "too slow" None)) in
  phase_of_run finished_1 "run-1" = Some PhaseFinished /\ phase_of_run m' "run-1" = Some PhaseCompensating.
Proof. vm_compute. split; reflexivity. Qed.

Definition park_draft : Step := run_step "run-1" StepParked (print_json (JObj [("reason", JStr "budget")])) "".
Definition parked_1 : Memory := store_step demo_1 (Step.seal (Some opened_1) park_draft).
Definition abandoned_1 : Memory :=
  fst (AbandonRun bare parked_1 parked_1 false (Some approver) 7 "run-1" (MkAbandonBody "no longer wanted" (Some false))).

(** And a resumption judged on the parked run is recorded after somebody ended
    it: the run is running again. *)
Example a_resumption_lands_on_an_abandoned_run :
  let m' := fst (ResumeRun parked_1 abandoned_1 (fun m => m) false (Some approver) 8 "run-1" None) in
  phase_of_run parked_1 "run-1" = Some PhaseParked /\ phase_of_run abandoned_1 "run-1" = Some PhaseFailed /\
  phase_of_run m' "run-1" = Some PhaseRunning.
Proof. vm_compute. repeat split; reflexivity. Qed.
