(* ===== verification/Channel.v ===== *)
(** * Conversations

    src/internal/channel: configured.go, origin.go, ask.go and the configuration
    of ticket_admission.go. An administrator says what a conversation is - which
    scope it speaks for, what may start an agent in it, which agent - and a
    message is read as an ask. Settings are rows the platform stores; only their
    order is the database's. *)

From Stdlib Require Import ZArith Lia Ascii String.
From stdpp Require Import base list strings.
From S2P Require Import Prelude GoStrings Json Regexp Domain Payload MemorySearch Agent Spec.

Local Open Scope string_scope.

(** ** Tables

    [strings.EqualFold] compares runes up to the orbits of unicode.SimpleFold, and
    %q escapes what the tables call unprintable: data of the platform's library. *)
Class TextTables := MkTextTables { FoldRune : N -> N; Quote : string -> string }.

Definition ascii_tables : TextTables := {|
  FoldRune := fun r => if (65 <=? r)%N && (r <=? 90)%N then (r + 32)%N else r;
  Quote := fun s => String "034" (s +:+ String "034" "")
|}.

Definition EqualFold `{TextTables} (s t : string) : bool :=
  bool_decide (List.map (fun x => FoldRune (fst x)) (runes s) = List.map (fun x => FoldRune (fst x)) (runes t)).

(** ** Who wrote a message (configured.go) *)

Record Source := MkSource { So_User : string; So_Bot : string; So_App : string }.

#[export] Instance Source_eq_dec : EqDecision Source.
Proof. solve_decision. Defined.

Definition Source_Key (s : Source) : string :=
  if negb (String.eqb (So_Bot s) "") then "bot:" +:+ So_Bot s
  else if negb (String.eqb (So_App s) "") then "app:" +:+ So_App s
  else if negb (String.eqb (So_User s) "") then "user:" +:+ So_User s
  else "".

Definition Source_Person (s : Source) : bool :=
  negb (String.eqb (trim_space (So_User s)) "") && String.eqb (trim_space (So_Bot s)) "".

Definition Source_Matches `{TextTables} (s : Source) (allowed : list string) : bool :=
  existsb (fun one =>
    let needle := trim_space one in
    if String.eqb needle "" then false
    else EqualFold needle (So_User s) || EqualFold needle (So_Bot s) || EqualFold needle (So_App s)) allowed.

Definition Source_MatchesKey (s : Source) (key : string) : bool :=
  match cut_byte ":" (trim_space key) with
  | None => false
  | Some (prefix, id) =>
      if String.eqb id "" then false
      else if String.eqb prefix "bot" then String.eqb (So_Bot s) id
      else if String.eqb prefix "app" then String.eqb (So_App s) id
      else false
  end.

(** ** What a conversation may start (configured.go) *)

Definition ConversationMentions : string := "mentions".
Definition ConversationWatch : string := "watch".
Definition ConversationBoth : string := "both".
Definition ConversationTicket : string := "ticket".
Definition ConversationAnnounce : string := "announce".

Definition StartsFromMentions (mode : string) : bool :=
  String.eqb mode "" || String.eqb mode ConversationMentions || String.eqb mode ConversationBoth.

Definition StartsFromWatch (mode : string) : bool :=
  String.eqb mode ConversationWatch || String.eqb mode ConversationBoth.

Definition StartsTickets (mode : string) : bool := String.eqb mode ConversationTicket.

(** [StoredMode], [ConversationMode], [KnownMode]: as configured, for a screen,
    and whether this version knows it. *)
Definition StoredMode (mode : string) : string := if String.eqb mode "" then ConversationMentions else mode.

Definition ConversationMode (mode : string) : string :=
  if String.eqb mode ConversationWatch then ConversationWatch
  else if String.eqb mode ConversationBoth then ConversationBoth
  else if String.eqb mode ConversationAnnounce then ConversationAnnounce
  else if String.eqb mode ConversationTicket then ConversationTicket
  else ConversationMentions.

Definition KnownMode (mode : string) : bool :=
  existsb (String.eqb mode)
    [""; ConversationMentions; ConversationWatch; ConversationBoth; ConversationAnnounce; ConversationTicket].

Definition startsSomething (mode : string) : bool :=
  StartsFromMentions mode || StartsFromWatch mode || StartsTickets mode.

(** ** Where a conversation is stored (configured.go) *)

Definition DeliveryHTTP : string := "http".
Definition DeliverySocket : string := "socket".

Definition DeliveryMode (mode : string) : string := if String.eqb mode DeliverySocket then DeliverySocket else DeliveryHTTP.
Definition StoredDeliveryMode (mode : string) : string := if String.eqb mode "" then DeliveryHTTP else mode.
Definition KnownDeliveryMode (mode : string) : bool :=
  String.eqb mode "" || String.eqb mode DeliveryHTTP || String.eqb mode DeliverySocket.
Definition DeliversOverHTTP (mode : string) : bool := String.eqb mode "" || String.eqb mode DeliveryHTTP.
Definition DeliversOverSocket (mode : string) : bool := String.eqb mode DeliverySocket.

Definition KeyVersionName : Z := 0.
Definition KeyVersionConnection : Z := 2.

Definition connection_prefix (channelName : string) : string :=
  print_Z (Z.of_nat (String.length channelName)) +:+ ":" +:+ channelName +:+ "/".

Definition ConversationKey (channelName id : string) : string := connection_prefix channelName +:+ id.

Definition ConversationIDOf (keyVersion : Z) (channelName name : string) : option string :=
  if Z.eqb keyVersion KeyVersionName then Some name
  else if Z.eqb keyVersion KeyVersionConnection then
    match cut_prefix (connection_prefix channelName) name with
    | Some id => if String.eqb id "" then None else Some id
    | None => None
    end
  else None.

(** The rule under which a room's messages become tickets (ticket_admission.go). *)
Record TicketRule := MkTicketRule {
  Tu_OpenFrom : string;
  Tu_AddressFrom : string;
  Tu_RootFrom : string;
  Tu_ReviewIn : string;
  Tu_ClosesOn : list string;
  Tu_Patterns : list string
}.

Definition zeroTicketRule : TicketRule := MkTicketRule "" "" "" "" [] [].

Definition d_TicketRule : decoder TicketRule := d_struct (fun cur fs =>
  f0 ← field "openFrom" d_string (Tu_OpenFrom cur) fs;
  f1 ← field "addressFrom" d_string (Tu_AddressFrom cur) fs;
  f2 ← field "rootFrom" d_string (Tu_RootFrom cur) fs;
  f3 ← field "reviewIn" d_string (Tu_ReviewIn cur) fs;
  f4 ← field "closesOn" (d_list "" d_string) (Tu_ClosesOn cur) fs;
  f5 ← field "patterns" (d_list "" d_string) (Tu_Patterns cur) fs;
  mret (MkTicketRule f0 f1 f2 f3 f4 f5)).

Record conversationValue := MkConversationValue {
  Cv_Channel : string;
  Cv_Label : string;
  Cv_KeyVersion : Z;
  Cv_Mode : string;
  Cv_Sources : list string;
  Cv_Agent : AgentID;
  Cv_RunAs : UserID;
  Cv_ThreadContext : bool;
  Cv_DirectApprovals : bool;
  Cv_FinishedAnswerOnly : bool;
  Cv_FormattedAnswers : bool;
  Cv_Wants : list string;
  Cv_Ticket : option TicketRule
}.

Definition zeroConversationValue : conversationValue :=
  MkConversationValue "" "" 0 "" [] "" "" false false false false [] None.

Definition d_conversationValue : decoder conversationValue := d_struct (fun cur fs =>
  f0 ← field "channel" d_string (Cv_Channel cur) fs;
  f1 ← field "label" d_string (Cv_Label cur) fs;
  f2 ← field "keyVersion" d_int (Cv_KeyVersion cur) fs;
  f3 ← field "mode" d_string (Cv_Mode cur) fs;
  f4 ← field "sources" (d_list "" d_string) (Cv_Sources cur) fs;
  f5 ← field "agent" d_string (Cv_Agent cur) fs;
  f6 ← field "runAs" d_string (Cv_RunAs cur) fs;
  f7 ← field "threadContext" d_bool (Cv_ThreadContext cur) fs;
  f8 ← field "directApprovals" d_bool (Cv_DirectApprovals cur) fs;
  f9 ← field "finishedAnswerOnly" d_bool (Cv_FinishedAnswerOnly cur) fs;
  f10 ← field "formattedAnswers" d_bool (Cv_FormattedAnswers cur) fs;
  f11 ← field "wants" (d_list "" d_string) (Cv_Wants cur) fs;
  f12 ← field "ticket" (d_ptr zeroTicketRule d_TicketRule) (Cv_Ticket cur) fs;
  mret (MkConversationValue f0 f1 f2 f3 f4 f5 f6 f7 f8 f9 f10 f11 f12)).

(** A stored setting, of which only these columns are read here. *)
Record Setting := MkSetting {
  Se_Scope : Scope;
  Se_Name : string;
  Se_Value : string;
  Se_Enabled : bool;
  Se_UpdatedAt : Time
}.

Definition value_of (s : Setting) : option conversationValue :=
  let '(v, ok) := unmarshal_into zeroConversationValue d_conversationValue (Se_Value s) in
  if ok then Some v else None.

(** One enabled row for one conversation on one connection. *)
Definition named_row (channelName id : string) (s : Setting) : option (Scope * conversationValue) :=
  if negb (Se_Enabled s) then None
  else match value_of s with
       | None => None
       | Some v =>
           if negb (String.eqb (Cv_Channel v) channelName) then None
           else if bool_decide (ConversationIDOf (Cv_KeyVersion v) (Cv_Channel v) (Se_Name s) = Some id)
           then Some (Se_Scope s, v) else None
       end.

Definition conversationsNamed (stored : list Setting) (channelName id : string) : list (Scope * conversationValue) :=
  omap (named_row channelName id) stored.

Inductive ResolveError := ErrNoConversation | ErrAmbiguousConversation | ErrAnnouncesOnly | ErrListConversations.

Record Mapped := MkMapped { Ma_Scope : Scope; Ma_Agent : AgentID; Ma_Mode : string }.

Definition Resolve (stored : option (list Setting)) (channelName id : string) : result ResolveError Mapped :=
  match stored with
  | None => Err ErrListConversations
  | Some rows =>
      match conversationsNamed rows channelName id with
      | [] => Err ErrNoConversation
      | [(scope, v)] =>
          if Scope_IsInstallation scope || negb (startsSomething (Cv_Mode v)) then Err ErrAnnouncesOnly
          else Ok (MkMapped scope (Cv_Agent v) (Cv_Mode v))
      | _ => Err ErrAmbiguousConversation
      end
  end.

Record WatchRule := MkWatchRule { Wr_Agent : AgentID; Wr_RunAs : UserID; Wr_Sources : list string }.

(** [WatchFor]: no value is a failed read, an empty answer is no rule. *)
Definition WatchFor `{TextTables} (stored : option (list Setting)) (channelName id : string) (source : Source)
    : option (option WatchRule) :=
  match stored with
  | None => None
  | Some rows => Some
      match conversationsNamed rows channelName id with
      | [(scope, v)] =>
          if Scope_IsInstallation scope || negb (StartsFromWatch (Cv_Mode v)) then None
          else if String.eqb (Cv_Agent v) "" || String.eqb (Cv_RunAs v) "" ||
                  negb (Source_Matches source (Cv_Sources v)) then None
          else Some (MkWatchRule (Cv_Agent v) (Cv_RunAs v) (Cv_Sources v))
      | _ => None
      end
  end.

Definition IncludeThreadContext (stored : option (list Setting)) (channelName id : string) : option bool :=
  match stored with
  | None => None
  | Some rows => Some
      match List.find (fun one => StartsFromMentions (Cv_Mode (snd one))) (conversationsNamed rows channelName id) with
      | Some one => Cv_ThreadContext (snd one)
      | None => false
      end
  end.

(** ** Reading an ask out of a message (ask.go) *)

Record Startable := MkStartable { Sa_ID : AgentID; Sa_Name : string }.
Record Ask := MkAsk { Ak_Agent : AgentID; Ak_Text : string }.

Inductive ReadError := ErrNoAgentNamed (listing : string) | ErrNotStartable (first listing : string).

(** The sentence the person is told. *)
Definition ReadError_text `{TextTables} (e : ReadError) : string :=
  match e with
  | ErrNoAgentNamed listing => "channel: the message names no agent. " +:+ listing
  | ErrNotStartable first listing =>
      "channel: no agent by that name can be started here: " +:+ Quote first +:+ ". " +:+ listing
  end.

Definition account_char (c : ascii) : bool := upper_letter c || digit_char c.

(** The longest run of characters of a class, and what follows it. *)
Fixpoint span_of (p : ascii -> bool) (s : string) : string * string :=
  match s with
  | String c s' => if p c then let '(run, rest) := span_of p s' in (String c run, rest) else ("", s)
  | EmptyString => ("", "")
  end.

(** <@[A-Z0-9]+> where the text begins: what follows the match. *)
Definition mention_at (s : string) : option string :=
  match cut_prefix "<@" s with
  | None => None
  | Some t =>
      let '(account, rest) := span_of account_char t in
      if String.eqb account "" then None else cut_prefix ">" rest
  end.

(** [ReplaceAllString] of the mention by a space; [skip] bytes belong to the
    mention replaced last. *)
Fixpoint replace_mentions (skip : nat) (s : string) : string :=
  match s, skip with
  | EmptyString, _ => ""
  | String _ s', S n => replace_mentions n s'
  | String c s', O =>
      match mention_at s with
      | Some rest => String " " (replace_mentions (String.length s - String.length rest - 1) s')
      | None => String c (replace_mentions 0 s')
      end
  end.

(** " \t\n:," and ":, \t\n". *)
Definition after_name : string := bytes_str [32; 9; 10; 58; 44].

Definition after `{TextTables} (said name : string) : option string :=
  if String.eqb name "" || (String.length said <? String.length name)%nat then None
  else if negb (EqualFold (take_bytes (String.length name) said) name) then None
  else
    let rest := drop_bytes (String.length name) said in
    match rest with
    | EmptyString => Some ""
    | String c _ => if negb (one_of after_name c) then None else Some (trim_left_set after_name (trim_space rest))
    end.

Definition addressing : Type := string * AgentID.

(** Every way an agent here can be addressed, longest first, the order of the
    listing kept among equals. *)
Definition addressings (startable : list Startable) : list addressing :=
  sort_by (fun a b => (String.length (fst b) <=? String.length (fst a))%nat)
    (List.concat (List.map (fun one =>
       (Sa_ID one, Sa_ID one) :: (if negb (String.eqb (Sa_Name one) "") then [(Sa_Name one, Sa_ID one)] else [])) startable)).

Definition listing (startable : list Startable) : string :=
  match startable with
  | [] => "No agent in this conversation's area is startable by a message."
  | _ => "Startable here: " +:+ join_str ", " (List.map Sa_ID startable) +:+ "."
  end.

(** The first way of addressing an agent the text begins with, and the rest. *)
Fixpoint addressed `{TextTables} (said : string) (forms : list addressing) : option Ask :=
  match forms with
  | [] => None
  | (text, agent) :: more =>
      match after said text with
      | Some rest => Some (MkAsk agent rest)
      | None => addressed said more
      end
  end.

Definition ReadAsk `{TextTables} (text : string) (startable : list Startable) (bound : AgentID) : result ReadError Ask :=
  let said := trim_space (replace_mentions 0 text) in
  match addressed said (addressings startable) with
  | Some ask => Ok ask
  | None =>
      if negb (String.eqb bound "") then Ok (MkAsk bound said)
      else if String.eqb said "" then Err (ErrNoAgentNamed (listing startable))
      else
        let first := match cut_byte " " said with Some (f, _) => f | None => said end in
        Err (ErrNotStartable first (listing startable))
  end.
