(* ===== verification/Inbox.v ===== *)
(** * The inbox

    src/internal/channel/inbox.go and the reservations of ceiling.go: an ask is
    written down before its sender is acknowledged, leased to one consumer at a
    time, and settled by the one that holds it. The table is a list of rows in
    the order they were written; each statement runs on its own, [now] is the
    clock of the database, and the rows another transaction has locked are an
    argument of a claim. The second half is about any interleaving of consumers:
    an ask is settled once, and what a lapsed lease does to the ceiling. *)

From Stdlib Require Import ZArith Lia Ascii String.
From stdpp Require Import base list strings gmap.
From S2P Require Import Prelude GoStrings Json JsonFacts Domain Sha256 Payload Encode Spec Ticket TicketSafety Channel.

Local Open Scope string_scope.

(** ** Routing decisions (ticket_route.go) *)

Record TicketIntent := MkTicketIntent {
  Ti_Key : TicketKey;
  Ti_Root : bool;
  Ti_Scope : Scope;
  Ti_Agent : AgentID;
  Ti_RunAs : UserID;
  Ti_AddressedBy : string;
  Ti_Marked : bool;
  Ti_RootFrom : string;
  Ti_ReviewIn : string;
  Ti_Review : bool;
  Ti_Close : bool
}.

#[export] Instance TicketIntent_eq_dec : EqDecision TicketIntent.
Proof. solve_decision. Defined.

Definition zeroTicketIntent : TicketIntent :=
  MkTicketIntent "" false zeroScope "" "" "" false "" "" false false.

(** [addressSource] (ticket_admission.go): one exact bot or app. *)
Definition space_bytes : string := bytes_str [32; 9; 13; 10].

Definition addressSource (source : string) : bool :=
  match cut_byte ":" (trim_space source) with
  | None => false
  | Some (prefix, id) =>
      (String.length source <=? 512)%nat && utf8_valid source &&
      (String.eqb prefix "bot" || String.eqb prefix "app") && negb (String.eqb id "") &&
      negb (existsb (Regexp.one_of space_bytes) (list_ascii_of_string id))
  end.

Definition TicketIntent_Valid (i : TicketIntent) : bool :=
  if String.eqb (trim_space (Ti_Key i)) "" then false
  else if negb (Ti_Root i) then
    bool_decide (Ti_Scope i = zeroScope) && String.eqb (Ti_Agent i) "" && String.eqb (Ti_RunAs i) "" &&
    String.eqb (Ti_AddressedBy i) "" && negb (Ti_Marked i) && String.eqb (Ti_RootFrom i) "" &&
    String.eqb (Ti_ReviewIn i) "" && negb (Ti_Review i && Ti_Close i)
  else if Ti_Review i then false
  else if xorb (Ti_Marked i) (negb (String.eqb (Ti_RootFrom i) "")) || (Ti_Marked i && negb (addressSource (Ti_RootFrom i)))
  then false
  else Scope_Valid (Ti_Scope i) && negb (String.eqb (Ti_Agent i) "") && negb (String.eqb (Ti_RunAs i) "") &&
       addressSource (Ti_AddressedBy i).

Definition d_Scope : decoder Scope := d_struct (fun cur fs =>
  f0 ← field "Company" d_string (Company cur) fs;
  f1 ← field "Area" d_string (Area cur) fs;
  mret (MkScope f0 f1)).

Definition e_Scope (s : Scope) : json := obj [fld "Company" c_string (Company s); fld "Area" c_string (Area s)].

Definition c_Scope : codec Scope :=
  struct_codec e_Scope d_Scope zeroScope (fun s => c_ok c_string (Company s) /\ c_ok c_string (Area s)).

#[export] Instance laws_Scope : CodecLaws c_Scope.
Proof. struct_laws. Qed.
#[export] Instance notnull_Scope : NeverNull c_Scope.
Proof. done. Qed.

Definition d_TicketIntent : decoder TicketIntent := d_struct (fun cur fs =>
  f0 ← field "key" d_string (Ti_Key cur) fs;
  f1 ← field "root" d_bool (Ti_Root cur) fs;
  f2 ← field "scope" d_Scope (Ti_Scope cur) fs;
  f3 ← field "agent" d_string (Ti_Agent cur) fs;
  f4 ← field "run_as" d_string (Ti_RunAs cur) fs;
  f5 ← field "addressed_by" d_string (Ti_AddressedBy cur) fs;
  f6 ← field "marked" d_bool (Ti_Marked cur) fs;
  f7 ← field "root_from" d_string (Ti_RootFrom cur) fs;
  f8 ← field "review_in" d_string (Ti_ReviewIn cur) fs;
  f9 ← field "review" d_bool (Ti_Review cur) fs;
  f10 ← field "close" d_bool (Ti_Close cur) fs;
  mret (MkTicketIntent f0 f1 f2 f3 f4 f5 f6 f7 f8 f9 f10)).

Definition e_TicketIntent (i : TicketIntent) : json := obj [
  fld "key" c_string (Ti_Key i);
  fopt "root" c_bool (Ti_Root i);
  fld "scope" c_Scope (Ti_Scope i);
  fopt "agent" c_string (Ti_Agent i);
  fopt "run_as" c_string (Ti_RunAs i);
  fopt "addressed_by" c_string (Ti_AddressedBy i);
  fopt "marked" c_bool (Ti_Marked i);
  fopt "root_from" c_string (Ti_RootFrom i);
  fopt "review_in" c_string (Ti_ReviewIn i);
  fopt "review" c_bool (Ti_Review i);
  fopt "close" c_bool (Ti_Close i)].

Definition c_TicketIntent : codec TicketIntent :=
  struct_codec e_TicketIntent d_TicketIntent zeroTicketIntent (fun i =>
    c_ok c_string (Ti_Key i) /\
    c_ok c_bool (Ti_Root i) /\
    c_ok c_Scope (Ti_Scope i) /\
    c_ok c_string (Ti_Agent i) /\
    c_ok c_string (Ti_RunAs i) /\
    c_ok c_string (Ti_AddressedBy i) /\
    c_ok c_bool (Ti_Marked i) /\
    c_ok c_string (Ti_RootFrom i) /\
    c_ok c_string (Ti_ReviewIn i) /\
    c_ok c_bool (Ti_Review i) /\
    c_ok c_bool (Ti_Close i)).

#[export] Instance laws_TicketIntent : CodecLaws c_TicketIntent.
Proof. struct_laws. Qed.

(** ** Asks and rows *)

Record Arrival := MkArrival {
  Av_Channel : string;
  Av_Conversation : string;
  Av_EventID : string;
  Av_Message : string;
  Av_AskedBy : string;
  Av_Text : string;
  Av_Thread : string;
  Av_Agent : AgentID;
  Av_RunAs : UserID;
  Av_Source : Source;
  Av_Ticket : option TicketIntent;
  Av_Payload : string
}.

Record Claimed := MkClaimed {
  Cl_Arrival : Arrival;
  Cl_Owner : string;
  Cl_RunID : RunID;
  Cl_ClaimAttempts : Z;
  Cl_PendingNotice : string;
  Cl_Detail : string
}.

(** The primary key of the table. *)
Definition ask_id : Type := string * string * string.

Definition id_of (a : Arrival) : ask_id := (Av_Channel a, Av_Conversation a, Av_EventID a).

Record InboxRow := MkInboxRow {
  ib_arrival : Arrival;
  (** The routing decision, as the column holds it. *)
  ib_ticket_intent : option string;
  ib_digest : string;
  ib_status : string;
  ib_detail : string;
  ib_reason : string;
  ib_run : RunID;
  ib_at : Time;
  ib_answered_at : option Time;
  ib_answer_due : bool;
  ib_leased_until : option Time;
  ib_lease_owner : string;
  ib_claim_attempts : Z;
  ib_pending_notice : string;
  ib_notice_answered_at : option Time;
  ib_reserved_at : option Time
}.

#[export] Instance InboxRow_eta : Eta InboxRow := fun r =>
  MkInboxRow (ib_arrival r) (ib_ticket_intent r) (ib_digest r) (ib_status r) (ib_detail r) (ib_reason r) (ib_run r)
    (ib_at r) (ib_answered_at r) (ib_answer_due r) (ib_leased_until r) (ib_lease_owner r) (ib_claim_attempts r)
    (ib_pending_notice r) (ib_notice_answered_at r) (ib_reserved_at r).

Definition Inbox : Type := list InboxRow.

Definition row_id (r : InboxRow) : ask_id := id_of (ib_arrival r).

Definition row_named (i : ask_id) (r : InboxRow) : bool := bool_decide (row_id r = i).

(** [update ... where ...]: the rows, and how many of them it changed. *)
Definition update_where (p : InboxRow -> bool) (f : InboxRow -> InboxRow) (t : Inbox) : Inbox :=
  List.map (fun r => if p r then f r else r) t.

Definition affected (p : InboxRow -> bool) (t : Inbox) : nat := List.length (List.filter p t).

Inductive InboxError := ErrIncompleteIntent | ErrNotClaimed (event : string) | ErrReadIntent (event : string).

(** ** Receiving *)

Definition received_row (a : Arrival) (now : Time) : InboxRow :=
  MkInboxRow a (marshal c_TicketIntent <$> Av_Ticket a)
    ("sha256:" +:+ hex_encode (take_bytes 8 (sha256 (Av_Payload a)))) "pending" "" "" "" now None false None "" 0 "" None None.

Definition Receive (t : Inbox) (now : Time) (a : Arrival) : Inbox * result InboxError bool :=
  if negb (from_option TicketIntent_Valid true (Av_Ticket a)) then (t, Err ErrIncompleteIntent)
  else if existsb (row_named (id_of a)) t then (t, Ok false)
  else ((t ++ [received_row a now])%list, Ok true).

(** ** Claiming *)

Definition status_is (r : InboxRow) (status : string) : bool := String.eqb (ib_status r) status.
Definition missing {A} (o : option A) : bool := match o with None => true | Some _ => false end.

(** leased_until is null or leased_until <= now(). *)
Definition lease_free (r : InboxRow) (now : Time) : bool :=
  match ib_leased_until r with None => true | Some u => (u <=? now)%Z end.

Definition notice_owed (r : InboxRow) : bool :=
  negb (String.eqb (ib_pending_notice r) "") && missing (ib_notice_answered_at r).

(** The rows one statement picks: oldest first, none that another holds a lock
    on, at most as many as asked for. *)
Definition picked (state : InboxRow -> bool) (locked : ask_id -> bool) (now : Time) (limit : nat) (t : Inbox) : list ask_id :=
  List.map row_id (take limit
    (sort_by (fun a b => (ib_at a <=? ib_at b)%Z)
       (List.filter (fun r => state r && lease_free r now && negb (locked (row_id r))) t))).

Definition lease_row (owner : string) (until : Time) (countAttempt : bool) (r : InboxRow) : InboxRow :=
  r <| ib_leased_until := Some until |> <| ib_lease_owner := owner |>
    <| ib_claim_attempts := if countAttempt then (ib_claim_attempts r + 1)%Z else ib_claim_attempts r |>.

(** A returned row, read back. *)
Definition claimed_row (owner : string) (r : InboxRow) : result InboxError Claimed :=
  let a := ib_arrival r in
  let event := Av_EventID a in
  intent ← (match ib_ticket_intent r with
            | None => Ok None
            | Some raw =>
                let '(i, ok) := unmarshal_into zeroTicketIntent d_TicketIntent raw in
                if ok && TicketIntent_Valid i then Ok (Some i) else Err (ErrReadIntent event)
            end);
  Ok (MkClaimed (MkArrival (Av_Channel a) (Av_Conversation a) event (Av_Message a) (Av_AskedBy a) (Av_Text a)
                   (Av_Thread a) (Av_Agent a) (Av_RunAs a) (Av_Source a) intent (Av_Payload a))
        owner (ib_run r) (ib_claim_attempts r) (ib_pending_notice r)
        (if negb (String.eqb (ib_pending_notice r) "") then ib_pending_notice r else ib_detail r)).

Fixpoint claimed_rows (owner : string) (rs : list InboxRow) : result InboxError (list Claimed) :=
  match rs with
  | [] => Ok []
  | r :: more => c ← claimed_row owner r; rest ← claimed_rows owner more; Ok (c :: rest)
  end.

(** The rows are leased by the statement that returns them: an answer that
    cannot be read leaves them leased. *)
Definition claim_rows (state : InboxRow -> bool) (countAttempt : bool) (t : Inbox) (owner : string)
    (locked : ask_id -> bool) (now : Time) (lease : Duration) (limit : nat) : Inbox * result InboxError (list Claimed) :=
  let taken := picked state locked now limit t in
  let mine r := bool_decide (row_id r ∈ taken) in
  let t' := update_where mine (lease_row owner (now + lease)%Z countAttempt) t in
  (t', claimed_rows owner (List.filter mine t')).

Definition claimable (r : InboxRow) : bool := status_is r "pending" && negb (notice_owed r).

Definition Inbox_Claim : Inbox -> string -> (ask_id -> bool) -> Time -> Duration -> nat -> Inbox * result InboxError (list Claimed) :=
  claim_rows claimable true.

Definition owed (r : InboxRow) : bool :=
  (status_is r "refused" && missing (ib_answered_at r)) || (status_is r "pending" && notice_owed r).

Definition Inbox_Owed : Inbox -> string -> (ask_id -> bool) -> Time -> Duration -> nat -> Inbox * result InboxError (list Claimed) :=
  claim_rows owed false.

(** [finished] says whether the run ended and was no rehearsal. *)
Definition answer_owed (finished : RunID -> bool) (r : InboxRow) : bool :=
  status_is r "opened" && ib_answer_due r && missing (ib_answered_at r) && negb (String.eqb (ib_run r) "") &&
  missing (ib_ticket_intent r) && finished (ib_run r).

Definition Inbox_Finished (finished : RunID -> bool)
    : Inbox -> string -> (ask_id -> bool) -> Time -> Duration -> nat -> Inbox * result InboxError (list Claimed) :=
  claim_rows (answer_owed finished) false.

(** ** Settling *)

(** An update of one row by the consumer that holds it; none changed is
    [ErrNotClaimed]. *)
Definition settle_row (t : Inbox) (c : Claimed) (p : InboxRow -> bool) (f : InboxRow -> InboxRow) : Inbox * result InboxError unit :=
  let mine r := row_named (id_of (Cl_Arrival c)) r && String.eqb (ib_lease_owner r) (Cl_Owner c) && p r in
  match affected mine t with
  | O => (t, Err (ErrNotClaimed (Av_EventID (Cl_Arrival c))))
  | S _ => (update_where mine f t, Ok tt)
  end.

Definition release (r : InboxRow) : InboxRow := r <| ib_leased_until := None |> <| ib_lease_owner := "" |>.

Record settled := MkSettled {
  sd_Status : string; sd_Detail : string; sd_Reason : string; sd_Run : RunID; sd_Answered : bool; sd_AnswerDue : bool
}.

Definition settle (t : Inbox) (c : Claimed) (s : settled) (at_ : Time) : Inbox * result InboxError unit :=
  settle_row t c (fun r => status_is r "pending") (fun r =>
    release (r <| ib_status := sd_Status s |> <| ib_detail := sd_Detail s |> <| ib_run := sd_Run s |>
               <| ib_at := at_ |> <| ib_reason := sd_Reason s |>
               <| ib_answered_at := if sd_Answered s then Some at_ else None |> <| ib_answer_due := sd_AnswerDue s |>)).

Definition Inbox_Opened (t : Inbox) (c : Claimed) (run : RunID) (at_ : Time) : Inbox * result InboxError unit :=
  settle t c (MkSettled "opened" "" "" run false true) at_.

Definition Inbox_OpenedTicket (t : Inbox) (c : Claimed) (run : RunID) (at_ : Time) : Inbox * result InboxError unit :=
  settle t c (MkSettled "opened" "" "" run false false) at_.

Record Refusal := MkRefusal { Rf_Why : string; Rf_Reason : string; Rf_Silent : bool }.

Definition Inbox_Refused (t : Inbox) (c : Claimed) (r : Refusal) (at_ : Time) : Inbox * result InboxError unit :=
  settle t c (MkSettled "refused" (Rf_Why r) (Rf_Reason r) "" (Rf_Silent r) false) at_.

Definition Inbox_Handled (t : Inbox) (c : Claimed) (reason : string) (at_ : Time) : Inbox * result InboxError unit :=
  settle t c (MkSettled "handled" reason reason "" true false) at_.

Definition ticketExecutionWaitingNotice : string :=
  "Your correction is saved. It will start after the ticket's current execution is resolved; do not resend it.".

Definition TicketWaiting (t : Inbox) (c : Claimed) : Inbox * result InboxError unit :=
  settle_row t c (fun r => status_is r "pending" && negb (missing (ib_ticket_intent r)) &&
                           (3 <=? ib_claim_attempts r)%Z && String.eqb (ib_pending_notice r) "")
    (fun r => release (r <| ib_pending_notice := ticketExecutionWaitingNotice |> <| ib_notice_answered_at := None |>)).

Definition Inbox_Answered (t : Inbox) (c : Claimed) (at_ : Time) : Inbox * result InboxError unit :=
  settle_row t c owed (fun r =>
    release (r <| ib_answered_at := if status_is r "refused" then Some at_ else ib_answered_at r |>
               <| ib_notice_answered_at := if status_is r "pending" then Some at_ else ib_notice_answered_at r |>)).

Definition Inbox_FinishedAnswered (t : Inbox) (c : Claimed) (at_ : Time) : Inbox * result InboxError unit :=
  settle_row t c (fun r => status_is r "opened" && missing (ib_answered_at r)) (fun r =>
    release (r <| ib_answered_at := Some at_ |> <| ib_answer_due := false |>)).

(** ** Reservations (ceiling.go) *)

(** What a correspondent has spent besides this ask: runs opened inside the
    window, and slots another consumer holds. *)
Definition spends (a : Arrival) (since now : Time) (r : InboxRow) : bool :=
  String.eqb (Av_Channel (ib_arrival r)) (Av_Channel a) && String.eqb (Av_AskedBy (ib_arrival r)) (Av_AskedBy a) &&
  negb (String.eqb (Av_Conversation (ib_arrival r)) (Av_Conversation a) && String.eqb (Av_EventID (ib_arrival r)) (Av_EventID a)) &&
  ((status_is r "opened" && (since <? ib_at r)%Z) ||
   (status_is r "pending" && negb (missing (ib_reserved_at r)) &&
    match ib_leased_until r with Some u => (now <? u)%Z | None => false end)).

(** One transaction, serialised on the correspondent. *)
Definition Reserve (t : Inbox) (now : Time) (c : Claimed) (runs : Z) (since : Time)
    : Inbox * result InboxError (Z * bool) :=
  let spent := Z.of_nat (affected (spends (Cl_Arrival c) since now) t) in
  if (runs <=? spent)%Z then (t, Ok (spent, false))
  else match settle_row t c (fun r => status_is r "pending") (fun r => r <| ib_reserved_at := Some now |>) with
       | (t', Ok _) => (t', Ok (spent, true))
       | (t', Err e) => (t', Err e)
       end.

Definition ToldSince (t : Inbox) (channelName account reason : string) (since : Time) : bool :=
  existsb (fun r => String.eqb (Av_Channel (ib_arrival r)) channelName && String.eqb (Av_AskedBy (ib_arrival r)) account &&
                    status_is r "refused" && String.eqb (ib_reason r) reason && (since <? ib_at r)%Z) t.

(** ** The key of an ask (consumer.go) *)

Definition ask_preimage (a : Arrival) : string :=
  let part s := print_Z (Z.of_nat (String.length s)) +:+ ":" +:+ s in
  part (Av_Channel a) +:+ part (Av_Conversation a) +:+ part (Av_EventID a).

Definition AskKey (a : Arrival) : string := "channel:" +:+ hex_encode (take_bytes 16 (sha256 (ask_preimage a))).

(** * The inbox under any interleaving

    Histories of [Inbox]: every statement any consumer runs against the table,
    in the order the database took them. An ask is settled once, by the consumer
    that holds it; what was decided about it never changes. *)

(** ** Histories *)

Inductive verdict := VOpened (run : RunID) | VOpenedTicket (run : RunID) | VRefused (r : Refusal) | VHandled (reason : string).

Inductive inbox_op :=
| IReceive (now : Time) (a : Arrival)
| IClaim (owner : string) (locked : ask_id -> bool) (now : Time) (lease : Duration) (limit : nat)
| IOwed (owner : string) (locked : ask_id -> bool) (now : Time) (lease : Duration) (limit : nat)
| IFinished (finished : RunID -> bool) (owner : string) (locked : ask_id -> bool) (now : Time) (lease : Duration) (limit : nat)
| IReserve (now : Time) (c : Claimed) (runs : Z) (since : Time)
| ISettle (c : Claimed) (v : verdict) (at_ : Time)
| IWaiting (c : Claimed)
| IAnswered (c : Claimed) (at_ : Time)
| IFinishedAnswered (c : Claimed) (at_ : Time).

Definition settling (t : Inbox) (c : Claimed) (v : verdict) (at_ : Time) : Inbox * result InboxError unit :=
  match v with
  | VOpened run => Inbox_Opened t c run at_
  | VOpenedTicket run => Inbox_OpenedTicket t c run at_
  | VRefused r => Inbox_Refused t c r at_
  | VHandled reason => Inbox_Handled t c reason at_
  end.

Definition inbox_do (op : inbox_op) (t : Inbox) : Inbox :=
  match op with
  | IReceive now a => fst (Receive t now a)
  | IClaim owner locked now lease limit => fst (Inbox_Claim t owner locked now lease limit)
  | IOwed owner locked now lease limit => fst (Inbox_Owed t owner locked now lease limit)
  | IFinished finished owner locked now lease limit => fst (Inbox_Finished finished t owner locked now lease limit)
  | IReserve now c runs since => fst (Reserve t now c runs since)
  | ISettle c v at_ => fst (settling t c v at_)
  | IWaiting c => fst (TicketWaiting t c)
  | IAnswered c at_ => fst (Inbox_Answered t c at_)
  | IFinishedAnswered c at_ => fst (Inbox_FinishedAnswered t c at_)
  end.

Definition inbox_run (ops : list inbox_op) : Inbox := fold_left (fun t op => inbox_do op t) ops [].

(** The ask a statement settled, when it did. *)
Definition settles (op : inbox_op) (t : Inbox) : option ask_id :=
  match op with
  | ISettle c v at_ => match snd (settling t c v at_) with Ok _ => Some (id_of (Cl_Arrival c)) | Err _ => None end
  | _ => None
  end.

(** What was decided about an ask: how it ended, why, the run it became, and
    when. *)
Definition standing (r : InboxRow) : Arrival * string * string * string * RunID * Time :=
  (ib_arrival r, ib_status r, ib_detail r, ib_reason r, ib_run r, ib_at r).

Definition decides (v : verdict) (at_ : Time) (r : InboxRow) : Prop :=
  ib_at r = at_ /\
  match v with
  | VOpened run => ib_status r = "opened" /\ ib_run r = run /\ ib_answer_due r = true
  | VOpenedTicket run => ib_status r = "opened" /\ ib_run r = run /\ ib_answer_due r = false
  | VRefused why => ib_status r = "refused" /\ ib_detail r = Rf_Why why /\ ib_reason r = Rf_Reason why /\ ib_run r = "" /\
      ib_answered_at r = (if Rf_Silent why then Some at_ else None)
  | VHandled reason => ib_status r = "handled" /\ ib_detail r = reason /\ ib_run r = ""
  end.

(** ** What one statement does to a row *)

Definition kept (r r' : InboxRow) : Prop :=
  ib_arrival r' = ib_arrival r /\ (ib_status r <> "pending" -> standing r' = standing r).

#[export] Instance kept_refl : Reflexive kept.
Proof. by intros r. Qed.

#[export] Instance kept_trans : Transitive kept.
Proof.
  intros r1 r2 r3 [A1 D1] [A2 D2]. split; [congruence|]. intros H. specialize (D1 H).
  rewrite <- D1. apply D2. by injection D1 as _ -> _.
Qed.

(** The table afterwards: every row it had, kept, and rows of asks it did not
    have. *)
Definition evolves_to (t t' : Inbox) : Prop :=
  exists old more, t' = (old ++ more)%list /\ Forall2 kept t old /\ NoDup (row_id <$> more) /\
    forall r, r ∈ more -> ib_status r = "pending" /\ row_id r ∉ (row_id <$> t).

#[export] Instance evolves_refl : Reflexive evolves_to.
Proof. intros t. exists t, []. split; [by rewrite app_nil_r|]. split; [done|]. split; [constructor|]. intros r Hr. by apply elem_of_nil in Hr. Qed.

Lemma update_evolves p f t :
  (forall r, r ∈ t -> p r = true -> kept r (f r)) -> evolves_to t (update_where p f t).
Proof.
  intros H. exists (update_where p f t), []. split; [by rewrite app_nil_r|].
  split; [|split; [constructor|intros r Hr; by apply elem_of_nil in Hr]]. induction t as [|r t IH]; [constructor|].
  constructor; [destruct (p r) eqn:E; [apply H; [left|done]|done]|]. apply IH. intros x Hx. apply H. by right.
Qed.

Lemma settle_row_evolves t c p f :
  (forall r, p r = true -> kept r (f r)) -> evolves_to t (fst (settle_row t c p f)).
Proof.
  intros H. unfold settle_row. destruct (affected _ t); [done|]. apply update_evolves.
  intros r _ Hr. apply H. by apply andb_true_iff in Hr as [_ Hr].
Qed.

Lemma claim_evolves state count t owner locked now lease limit :
  evolves_to t (fst (claim_rows state count t owner locked now lease limit)).
Proof. apply update_evolves. by intros r _ _. Qed.

Lemma settle_evolves t c s at_ : evolves_to t (fst (settle t c s at_)).
Proof.
  apply settle_row_evolves. intros r Hp. split; [done|]. intros Hn. destruct Hn. by apply String.eqb_eq in Hp.
Qed.

Lemma inbox_do_evolves op t : evolves_to t (inbox_do op t).
Proof.
  destruct op as [now a| | | |now c runs since|c v at_|c|c at_|c at_]; cbn [inbox_do].
  - unfold Receive. destruct (negb _); [done|]. destruct (existsb _ _) eqn:E; [done|]. cbn [fst].
    exists t, [received_row a now]. split; [done|]. split; [done|]. split; [apply NoDup_singleton|]. intros r ->%list_elem_of_singleton. split; [done|].
    intros Hin. apply list_elem_of_fmap in Hin as (r & Er & Hr).
    enough (existsb (row_named (id_of a)) t = true) by congruence.
    apply existsb_exists. exists r. split; [by apply list_elem_of_In|]. by apply bool_decide_eq_true.
  - apply claim_evolves.
  - apply claim_evolves.
  - apply claim_evolves.
  - unfold Reserve. destruct (_ <=? _)%Z; [done|].
    pose proof (settle_row_evolves t c (fun r => status_is r "pending") (fun r => r <| ib_reserved_at := Some now |>)) as H.
    destruct (settle_row _ _ _ _) as [t' [u|e]]; cbn [fst] in *; (apply H; by intros r _).
  - destruct v; apply settle_evolves.
  - apply settle_row_evolves. by intros r _.
  - apply settle_row_evolves. by intros r _.
  - apply settle_row_evolves. by intros r _.
Qed.

(** ** The table over a history *)

Definition sound_inbox (t : Inbox) : Prop := NoDup (row_id <$> t).

Lemma kept_ids t old : Forall2 kept t old -> row_id <$> old = row_id <$> t.
Proof. induction 1 as [|r r' t old [A _] _ IH]; [done|]. cbn. rewrite IH. unfold row_id. by rewrite A. Qed.

Lemma inbox_do_sound op t : sound_inbox t -> sound_inbox (inbox_do op t).
Proof.
  intros Hs. destruct (inbox_do_evolves op t) as (old & more & -> & K & N & M). unfold sound_inbox.
  rewrite fmap_app. apply NoDup_app. rewrite (kept_ids _ _ K). split; [done|]. split; [|done].
  intros i Hi Hm. apply list_elem_of_fmap in Hm as (r & -> & Hr). by apply M in Hr as [_ Hr].
Qed.

Lemma run_from_sound ops : forall t, sound_inbox t -> sound_inbox (fold_left (fun t op => inbox_do op t) ops t).
Proof. induction ops as [|op ops IH]; intros t Ht; [done|]. by apply IH, inbox_do_sound. Qed.

Lemma inbox_run_sound ops : sound_inbox (inbox_run ops).
Proof. apply run_from_sound. constructor. Qed.

Lemma row_unique t r1 r2 : sound_inbox t -> r1 ∈ t -> r2 ∈ t -> row_id r1 = row_id r2 -> r1 = r2.
Proof.
  intros Hs H1 H2 E. apply list_elem_of_lookup in H1 as [i H1]. apply list_elem_of_lookup in H2 as [j H2].
  assert (i = j) as ->; [|congruence].
  eapply NoDup_lookup; [exact Hs|..]; rewrite list_lookup_fmap; [by rewrite H1|by rewrite H2, E].
Qed.

Lemma evolves_row t t' r : evolves_to t t' -> r ∈ t -> exists r', r' ∈ t' /\ kept r r'.
Proof.
  intros (old & more & -> & K & _) Hr. apply list_elem_of_lookup in Hr as [i Hi].
  destruct (Forall2_lookup_l _ _ _ _ _ K Hi) as (r' & Hi' & Hk). exists r'. split; [|done].
  apply elem_of_app. left. by eapply list_elem_of_lookup_2.
Qed.

Lemma run_row ops : forall t r, r ∈ t -> exists r', r' ∈ fold_left (fun t op => inbox_do op t) ops t /\ kept r r'.
Proof.
  induction ops as [|op ops IH]; intros t r Hr; [by exists r|].
  destruct (evolves_row _ _ _ (inbox_do_evolves op t) Hr) as (r1 & H1 & K1).
  destruct (IH _ _ H1) as (r2 & H2 & K2). exists r2. split; [done|]. by etrans.
Qed.

(** ** Settling *)

Lemma settle_row_Ok t c p f t' :
  settle_row t c p f = (t', Ok tt) -> exists r, r ∈ t /\ row_id r = id_of (Cl_Arrival c) /\
    ib_lease_owner r = Cl_Owner c /\ p r = true /\ f r ∈ t'.
Proof.
  unfold settle_row, affected. destruct (List.filter _ t) as [|r rest] eqn:E; [done|]. cbn [List.length]. intros [= <-].
  assert (Hr : In r (List.filter (fun r => row_named (id_of (Cl_Arrival c)) r && String.eqb (ib_lease_owner r) (Cl_Owner c) && p r) t))
    by (rewrite E; by left).
  apply filter_In in Hr as [Hin Hp]. pose proof Hp as Hq. apply andb_true_iff in Hp as [Hp P].
  apply andb_true_iff in Hp as [N L]. apply bool_decide_eq_true in N. apply String.eqb_eq in L.
  exists r. split_and!; [by apply list_elem_of_In|done..|]. apply list_elem_of_In, in_map_iff. exists r. by rewrite Hq.
Qed.

Lemma settling_Ok t c v at_ t' :
  settling t c v at_ = (t', Ok tt) -> exists r r', r ∈ t /\ row_id r = id_of (Cl_Arrival c) /\ ib_status r = "pending" /\
    ib_lease_owner r = Cl_Owner c /\ r' ∈ t' /\ ib_arrival r' = ib_arrival r /\ decides v at_ r'.
Proof.
  intros H. assert (H' : exists s, settle t c s at_ = (t', Ok tt) /\ forall r, decides v at_ (
    release (r <| ib_status := sd_Status s |> <| ib_detail := sd_Detail s |> <| ib_run := sd_Run s |>
               <| ib_at := at_ |> <| ib_reason := sd_Reason s |>
               <| ib_answered_at := if sd_Answered s then Some at_ else None |> <| ib_answer_due := sd_AnswerDue s |>))).
  { destruct v; eexists; (split; [exact H|done]). }
  destruct H' as (s & Hs & Hd). apply settle_row_Ok in Hs as (r & Hr & Hi & Ho & Hp & Hf). apply String.eqb_eq in Hp.
  exists r. eexists. split_and!; [done..| |apply Hd]. done.
Qed.

Lemma settles_Some op t i : settles op t = Some i ->
  exists c v at_, op = ISettle c v at_ /\ i = id_of (Cl_Arrival c) /\ settling t c v at_ = (inbox_do op t, Ok tt).
Proof.
  destruct op as [| | | | |c v at_| | |]; try done. cbn [settles inbox_do]. destruct (settling t c v at_) as [t' [[]|e]] eqn:E; [|done].
  intros [= <-]. exists c, v, at_. split_and!; [done..|]. by rewrite E.
Qed.

Lemma settled_once t op i r : sound_inbox t -> r ∈ t -> row_id r = i -> ib_status r <> "pending" -> settles op t <> Some i.
Proof.
  intros Hs Hr Hi Hn Hop. apply settles_Some in Hop as (c & v & at_ & -> & E & H).
  apply settling_Ok in H as (r0 & _ & H0 & I0 & P0 & _). assert (r0 = r) as -> by (eapply row_unique; [done..|congruence]). done.
Qed.

Lemma decides_not_pending v at_ r : decides v at_ r -> ib_status r <> "pending".
Proof. destruct v; intros [_ H]; destruct_and? H; congruence. Qed.

(** ** Theorems *)

(** C20. An ask is settled once. Through any interleaving of deliveries, claims,
    lapsing leases, reservations, replies and settlements by any number of
    consumers: a settlement that succeeds is made by the consumer whose lease
    the row carries, on an ask nobody had settled; from then on every other
    settlement of that ask fails, the table keeps one row for it, and what was
    decided - the run it became, or why it became none - stays as it was written,
    with the ask as it first arrived. *)
Theorem an_ask_is_settled_once pre op post i :
  settles op (inbox_run pre) = Some i ->
  exists c v at_ r0 r1, op = ISettle c v at_ /\
    r0 ∈ inbox_run pre /\ row_id r0 = i /\ ib_status r0 = "pending" /\ ib_lease_owner r0 = Cl_Owner c /\
    r1 ∈ inbox_run (pre ++ op :: post) /\ ib_arrival r1 = ib_arrival r0 /\
    (exists r, decides v at_ r /\ standing r1 = standing r) /\
    (forall r, r ∈ inbox_run (pre ++ op :: post) -> row_id r = i -> r = r1) /\
    (forall k op', post !! k = Some op' -> settles op' (inbox_run (pre ++ op :: take k post)) <> Some i).
Proof.
  intros Hop. pose proof (settles_Some _ _ _ Hop) as (c & v & at_ & Eop & Ei & H).
  destruct (settling_Ok _ _ _ _ _ H) as (r0 & r & H0 & I0 & P0 & O0 & Hr & A & D).
  assert (Erun : forall l, inbox_run (pre ++ op :: l) = fold_left (fun t op => inbox_do op t) l (inbox_do op (inbox_run pre))).
  { intros l. unfold inbox_run. by rewrite fold_left_app. }
  assert (Hat : forall l, exists r1, r1 ∈ inbox_run (pre ++ op :: l) /\ kept r r1) by (intros l; rewrite Erun; by apply run_row).
  pose proof (decides_not_pending _ _ _ D) as Hn.
  destruct (Hat post) as (r1 & H1 & K1). pose proof (proj2 K1 Hn) as D1.
  assert (I1 : forall r', kept r r' -> row_id r' = i).
  { intros r' [A' _]. unfold row_id in *. by rewrite A', A, I0. }
  exists c, v, at_, r0, r1. split_and!; [done|done|by rewrite Ei|done|done|done|by rewrite (proj1 K1), A|by exists r| |].
  - intros r' H' I'. eapply row_unique; [apply inbox_run_sound|done..|]. by rewrite I', I1.
  - intros k op' _. destruct (Hat (take k post)) as (r2 & H2 & K2).
    eapply settled_once; [apply inbox_run_sound|exact H2|by apply I1|].
    pose proof (proj2 K2 Hn) as D2. injection D2 as _ -> _. done.
Qed.

(** ** Reservations *)

(** When a slot is granted, the asks of the correspondent that are spent or held
    at that moment, this one among them, fit the ceiling. *)
Lemma a_granted_slot_fits t now c runs since t' spent :
  Reserve t now c runs since = (t', Ok (spent, true)) ->
  (spent + 1 <= runs)%Z /\ spent = Z.of_nat (affected (spends (Cl_Arrival c) since now) t) /\
  exists r, r ∈ t' /\ row_id r = id_of (Cl_Arrival c) /\ ib_status r = "pending" /\ ib_reserved_at r = Some now.
Proof.
  unfold Reserve. destruct (_ <=? _)%Z eqn:E; [done|]. apply Z.leb_gt in E.
  destruct (settle_row _ _ _ _) as [t1 [[]|e]] eqn:Hs; [|done]. intros [= <- <-]. split; [lia|]. split; [done|].
  apply settle_row_Ok in Hs as (r & _ & I & _ & P & Hf). apply String.eqb_eq in P. eexists. split; [exact Hf|]. done.
Qed.

(** ** Examples *)

Definition somebody : Source := MkSource "U1" "" "".
Definition an_ask (event : string) : Arrival :=
  MkArrival "slack" "C1" event ("m" +:+ event) "U1" "<@BOT> triage" ("m" +:+ event) "" "" somebody None "{}".
Definition held_by (owner event : string) : Claimed := MkClaimed (an_ask event) owner "" 1 "" "".
Definition unlocked : ask_id -> bool := fun _ => false.
Definition sec (n : Z) : Time := (n * 1000000000)%Z.

(** Two consumers: the one whose lease lapsed comes back late. *)
Definition late : list inbox_op := [
  IReceive (sec 1) (an_ask "e1"); IClaim "a" unlocked (sec 2) (sec 60) 1;
  IClaim "b" unlocked (sec 63) (sec 60) 1].

Lemma an_ask_is_settled_once_witness :
  (exists r0, ib_lease_owner r0 = "b" /\ row_id r0 = ("slack", "C1", "e1")) /\
  settles (ISettle (held_by "a" "e1") (VOpened "run_2") (sec 66))
    (inbox_run (late ++ ISettle (held_by "b" "e1") (VOpened "run_1") (sec 64) :: [])) <> Some ("slack", "C1", "e1").
Proof.
  destruct (an_ask_is_settled_once late (ISettle (held_by "b" "e1") (VOpened "run_1") (sec 64))
              [ISettle (held_by "a" "e1") (VOpened "run_2") (sec 66)] ("slack", "C1", "e1") ltac:(vm_compute; reflexivity))
    as (c & v & at_ & r0 & r1 & E & _ & I & _ & O & _ & _ & _ & _ & H).
  injection E as <- _ _. split; [exists r0; split; [exact O|exact I]|]. exact (H 0%nat _ eq_refl).
Defined.

Definition reserving (owner event : string) (now : Time) : inbox_op := IReserve now (held_by owner event) 1 0.

(** The slot of a lapsed lease is given to the next ask while its holder still
    opens its run: a correspondent allowed one run has two. *)
Example a_lapsed_lease_exceeds_the_ceiling :
  let ops := [IReceive (sec 1) (an_ask "e1"); IClaim "a" unlocked (sec 2) (sec 60) 1; reserving "a" "e1" (sec 3);
              IReceive (sec 30) (an_ask "e2"); IClaim "b" unlocked (sec 31) (sec 60) 1; reserving "b" "e2" (sec 64);
              ISettle (held_by "b" "e2") (VOpened "run_2") (sec 65); ISettle (held_by "a" "e1") (VOpened "run_1") (sec 66)] in
  snd (Reserve (inbox_run (take 5 ops)) (sec 64) (held_by "b" "e2") 1 0) = Ok (0%Z, true) /\
  List.map (fun r => (ib_status r, ib_run r)) (inbox_run ops) = [("opened", "run_1"); ("opened", "run_2")].
Proof. split; vm_compute; reflexivity. Qed.
