(* ===== verification/TicketDoor.v ===== *)
(** * Tickets from conversations

    src/internal/channel: ticket_admission.go, ticket_route.go, ticket_mark.go,
    ticket_marked.go, ticket_draft.go, ticket_process.go, ticket_run.go,
    ticket_review.go, ticket_address.go and ticket_close.go. A message is routed
    to a ticket before its sender is acknowledged; a worker later turns that
    decision into one transition of the ticket and, when the transition names a
    revision, into one run. *)

From Stdlib Require Import ZArith Lia Ascii String.
From stdpp Require Import base list strings gmap.
From S2P Require Import Prelude GoStrings Json JsonFacts Regexp Domain Sha256 Step Payload Encode State Ledger Ports Content MemorySearch MemoryTool Agent Open Spec Ticket Channel Inbox.

Local Open Scope string_scope.

(** ** Admission (ticket_admission.go) *)

Definition TicketOpenLinkedUsers : string := "linked_users".
Definition TicketOpenMarkedThreads : string := "marked_threads".
Definition MaxTicketClosingEmoji : nat := 4.
Definition MaxTicketPatterns : nat := 8.
Definition MaxTicketPatternBytes : nat := 256.
Definition MaxTicketMatchBytes : Z := 8 * 1024.
Definition maxCompiledTicketRules : nat := 512.

Definition reviewRoom (conversation : string) : bool :=
  String.eqb conversation (trim_space conversation) && (String.length conversation <=? 512)%nat &&
  utf8_valid conversation && negb (ContainsAny conversation space_bytes).

Definition closingEmoji (names : list string) : bool :=
  (List.length names <=? MaxTicketClosingEmoji)%nat &&
  forallb (fun name => negb (String.eqb name "" || negb (String.eqb name (trim_space name)) ||
    (64 <? String.length name)%nat || negb (utf8_valid name) || ContainsAny name (":" +:+ space_bytes))) names.

(** Which field of a rule is wrong, in the order they are asked. *)
Inductive AdmissionError :=
| BadOpenFrom | BadAddressFrom | RootUnderLinked | BadRootFrom | BadReviewRoom | BadClosingEmoji | BadPatternCount
| BadPattern | NotRE2 | MatchesEmpty.

Definition admissible (rule : TicketRule) : option AdmissionError :=
  if negb (String.eqb (Tu_OpenFrom rule) TicketOpenLinkedUsers) &&
     negb (String.eqb (Tu_OpenFrom rule) TicketOpenMarkedThreads) then Some BadOpenFrom
  else if negb (addressSource (Tu_AddressFrom rule)) then Some BadAddressFrom
  else if String.eqb (Tu_OpenFrom rule) TicketOpenLinkedUsers && negb (String.eqb (Tu_RootFrom rule) "") then Some RootUnderLinked
  else if String.eqb (Tu_OpenFrom rule) TicketOpenMarkedThreads && negb (addressSource (Tu_RootFrom rule)) then Some BadRootFrom
  else if negb (reviewRoom (Tu_ReviewIn rule)) then Some BadReviewRoom
  else if negb (closingEmoji (Tu_ClosesOn rule)) then Some BadClosingEmoji
  else if (List.length (Tu_Patterns rule) =? 0)%nat || (MaxTicketPatterns <? List.length (Tu_Patterns rule))%nat
  then Some BadPatternCount
  else None.

Definition ClosesTicket (rule : TicketRule) (emoji : string) : bool :=
  existsb (String.eqb (trim_space emoji)) (Tu_ClosesOn rule).

Definition sameSourceKey `{TextTables} (key configured : string) : bool :=
  let key := trim_space key in
  let configured := trim_space configured in
  negb (String.eqb key "") && negb (String.eqb configured "") && EqualFold key configured.

(** ** Drafts (ticket_draft.go) *)

Definition MaxTicketDraftMessages : nat := 32.
Definition MaxTicketDraftBytes : Z := 32768.

Record ticketDraftMessage := MkTicketDraftMessage { Dm_Ref : string; Dm_By : UserID; Dm_Text : string }.

#[export] Instance ticketDraftMessage_eq_dec : EqDecision ticketDraftMessage.
Proof. solve_decision. Defined.

Definition zeroDraftMessage : ticketDraftMessage := MkTicketDraftMessage "" "" "".

Definition d_ticketDraftMessage : decoder ticketDraftMessage := d_struct (fun cur fs =>
  f0 ← field "ref" d_string (Dm_Ref cur) fs;
  f1 ← field "by" d_string (Dm_By cur) fs;
  f2 ← field "text" d_string (Dm_Text cur) fs;
  mret (MkTicketDraftMessage f0 f1 f2)).

Definition e_ticketDraftMessage (m : ticketDraftMessage) : json := obj [
  fld "ref" c_string (Dm_Ref m);
  fld "by" c_string (Dm_By m);
  fld "text" c_string (Dm_Text m)].

Definition c_ticketDraftMessage : codec ticketDraftMessage :=
  struct_codec e_ticketDraftMessage d_ticketDraftMessage zeroDraftMessage (fun m =>
    c_ok c_string (Dm_Ref m) /\ c_ok c_string (Dm_By m) /\ c_ok c_string (Dm_Text m)).

#[export] Instance laws_ticketDraftMessage : CodecLaws c_ticketDraftMessage.
Proof. struct_laws. Qed.
#[export] Instance notnull_ticketDraftMessage : NeverNull c_ticketDraftMessage.
Proof. done. Qed.

Record ticketDraft := MkTicketDraft { Td_Messages : list ticketDraftMessage }.

#[export] Instance ticketDraft_eq_dec : EqDecision ticketDraft.
Proof. solve_decision. Defined.

Definition d_ticketDraft : decoder ticketDraft := d_struct (fun cur fs =>
  f0 ← field "messages" (d_list zeroDraftMessage d_ticketDraftMessage) (Td_Messages cur) fs;
  mret (MkTicketDraft f0)).

Definition e_ticketDraft (d : ticketDraft) : json := obj [fld "messages" (c_list c_ticketDraftMessage) (Td_Messages d)].

Definition c_ticketDraft : codec ticketDraft :=
  struct_codec e_ticketDraft d_ticketDraft (MkTicketDraft []) (fun d => c_ok (c_list c_ticketDraftMessage) (Td_Messages d)).

#[export] Instance laws_ticketDraft : CodecLaws c_ticketDraft.
Proof. struct_laws. Qed.

(** Why a draft is refused; [full] is what the sentence about it turns on. *)
Inductive DraftError := TooManyMessages | EmptyMessage | TooLarge | Unavailable | Unreadable.

Definition draft_full (e : DraftError) : bool :=
  match e with TooManyMessages | TooLarge => true | _ => false end.

Definition draft_message_ok (m : ticketDraftMessage) : bool :=
  negb (blank (Dm_Ref m) || String.eqb (Dm_By m) "" || blank (Dm_Text m)).

Definition encodeTicketDraft (d : ticketDraft) : result DraftError string :=
  if (List.length (Td_Messages d) =? 0)%nat || (MaxTicketDraftMessages <? List.length (Td_Messages d))%nat
  then Err TooManyMessages
  else if negb (forallb draft_message_ok (Td_Messages d)) then Err EmptyMessage
  else
    let raw := marshal c_ticketDraft d in
    if (MaxTicketDraftBytes <? Z.of_nat (String.length raw))%Z then Err TooLarge else Ok raw.

Definition firstTicketDraft (ref : string) (by_ : UserID) (text : string) : result DraftError string :=
  encodeTicketDraft (MkTicketDraft [MkTicketDraftMessage ref by_ (trim_space text)]).

(** [DisallowUnknownFields] reaches into the messages. *)
Definition known_messages (j : json) : bool :=
  match j with
  | JObj fs => forallb (fun f => match snd f with
                                 | JArr l => forallb (known_fields ["ref"; "by"; "text"]) l
                                 | _ => true
                                 end) fs
  | _ => true
  end.

Definition decodeTicketDraft (raw : string) : result DraftError ticketDraft :=
  if String.eqb raw "" || (MaxTicketDraftBytes <? Z.of_nat (String.length raw))%Z then Err Unavailable
  else match decode_first raw with
       | None => Err Unreadable
       | Some (j, rest) =>
           let '(d, ok) := d_ticketDraft (MkTicketDraft []) j in
           if negb (ok && known_fields ["messages"] j && known_messages j) then Err Unreadable
           else if negb (String.eqb (skip_ws rest) "") then Err Unreadable
           else match encodeTicketDraft d with Ok _ => Ok d | Err e => Err e end
       end.

Definition appendTicketDraft (raw ref : string) (by_ : UserID) (text : string) : result DraftError string :=
  d ← decodeTicketDraft raw;
  encodeTicketDraft (MkTicketDraft (Td_Messages d ++ [MkTicketDraftMessage ref by_ (trim_space text)])%list).

(** ** Mentioned accounts (ticket_address.go) *)

Definition MaxTicketRecipients : nat := 20.

(** <@ACCOUNT> or <@ACCOUNT|label> where the text begins, of capital letters and
    digits: the account, and what follows the match. *)
Definition slack_mention_at (s : string) : option (string * string) :=
  match cut_prefix "<@" s with
  | None => None
  | Some t =>
      let '(account, rest) := span_of account_char t in
      if String.eqb account "" then None
      else match rest with
           | String c label =>
               if Ascii.eqb c "|" then
                 match cut_prefix ">" (snd (span_of (fun x => negb (Ascii.eqb x ">")) label)) with
                 | Some rest' => Some (account, rest')
                 | None => None
                 end
               else match cut_prefix ">" rest with Some rest' => Some (account, rest') | None => None end
           | EmptyString => None
           end
  end.

(** The accounts a text mentions, in order; [skip] bytes belong to the mention
    read last. *)
Fixpoint mentions_from (skip : nat) (s : string) : list string :=
  match s, skip with
  | EmptyString, _ => []
  | String _ s', S n => mentions_from n s'
  | String _ s', O =>
      match slack_mention_at s with
      | Some (account, rest) => account :: mentions_from (String.length s - String.length rest - 1) s'
      | None => mentions_from 0 s'
      end
  end.

Definition firstMentioned (text : string) : option string := hd_error (mentions_from 0 text).

(** [FindAllStringSubmatch] stops after one more than the bound. *)
Definition mentionedAccounts (text : string) : option (list string) :=
  let matches := take (MaxTicketRecipients + 1) (mentions_from 0 text) in
  if (MaxTicketRecipients <? List.length matches)%nat then None else Some (sort_compact matches).

Definition requesterOf (text : string) : option string :=
  firstMentioned (match cut_byte "010" text with Some (first, _) => first | None => text end).

(** ** Routing (ticket_route.go, ticket_mark.go, ticket_close.go) *)

Record TicketCandidate := MkTicketCandidate {
  Tn_Connection : string;
  Tn_Conversation : string;
  Tn_Message : string;
  Tn_Thread : string;
  Tn_Kind : string;
  Tn_Text : string;
  Tn_Reaction : string;
  Tn_Source : Source
}.

Record compiledTicketRule := MkCompiledTicketRule {
  ct_updatedAt : Time;
  ct_fingerprint : string;
  ct_patterns : list (string -> bool);
  ct_rule : TicketRule
}.

Inductive RouteError :=
| ErrReadRoute
| ErrRouteAmbiguous
| ErrCompileRule (e : AdmissionError)
| ErrFindTicket (e : TicketError)
| ErrRouteKey.

Definition nul : string := String "000" "".

Definition rule_fingerprint (rule : TicketRule) : string :=
  sha256 (Tu_OpenFrom rule +:+ nul +:+ Tu_AddressFrom rule +:+ nul +:+ Tu_RootFrom rule +:+ nul +:+
          Tu_ReviewIn rule +:+ nul +:+ join_str nul (Tu_ClosesOn rule) +:+ nul +:+ join_str nul (Tu_Patterns rule)).

Definition ticketAdmission : Type := Scope * conversationValue * compiledTicketRule.

Section Routing.
(** [regexp.Compile] of an expression an administrator typed, with its
    [MatchString]. *)
Context (compile : string -> option (string -> bool)).

Fixpoint compile_patterns (patterns : list string) : result AdmissionError (list (string -> bool)) :=
  match patterns with
  | [] => Ok []
  | pattern :: more =>
      if blank pattern || (MaxTicketPatternBytes <? String.length pattern)%nat || negb (utf8_valid pattern)
      then Err BadPattern
      else match compile ("(?i:" +:+ pattern +:+ ")") with
           | None => Err NotRE2
           | Some matches => if matches "" then Err MatchesEmpty
                             else rest ← compile_patterns more; Ok (matches :: rest)
           end
  end.

Definition CompileTicketPatterns (rule : TicketRule) : result AdmissionError (list (string -> bool)) :=
  match admissible rule with Some e => Err e | None => compile_patterns (Tu_Patterns rule) end.

Definition matchesTicket (patterns : list (string -> bool)) (text : string) : bool := existsb (fun p => p text) patterns.

(** The compiled rules of a process, by the name of the conversation's row. *)
Definition compiled_rules : Type := gmap string compiledTicketRule.

Definition matcher (cache : compiled_rules) (key : string) (updatedAt : Time) (rule : TicketRule)
    : compiled_rules * result AdmissionError compiledTicketRule :=
  let fingerprint := rule_fingerprint rule in
  let current held := Z.eqb (ct_updatedAt held) updatedAt && String.eqb (ct_fingerprint held) fingerprint in
  match cache !! key with
  | Some held => if current held then (cache, Ok held)
                 else match CompileTicketPatterns rule with
                      | Err e => (cache, Err e)
                      | Ok patterns =>
                          let c := MkCompiledTicketRule updatedAt fingerprint patterns rule in
                          (<[key := c]> (if (maxCompiledTicketRules <=? size cache)%nat then ∅ else cache), Ok c)
                      end
  | None => match CompileTicketPatterns rule with
            | Err e => (cache, Err e)
            | Ok patterns =>
                let c := MkCompiledTicketRule updatedAt fingerprint patterns rule in
                (<[key := c]> (if (maxCompiledTicketRules <=? size cache)%nat then ∅ else cache), Ok c)
            end
  end.

(** The enabled conversation rows with a name; no value is a failed read. *)
Context (named : string -> option (list Setting)).

Definition admission (cache : compiled_rules) (candidate : TicketCandidate)
    : compiled_rules * result RouteError (option ticketAdmission) :=
  let name := ConversationKey (Tn_Connection candidate) (Tn_Conversation candidate) in
  match named name with
  | None => (cache, Err ErrReadRoute)
  | Some [] => (cache, Ok None)
  | Some [set] =>
      match value_of set with
      | None => (cache, Ok None)
      | Some v =>
          if negb (String.eqb (Cv_Channel v) (Tn_Connection candidate)) || negb (String.eqb (Cv_Mode v) ConversationTicket)
          then (cache, Ok None)
          else match Cv_Ticket v with
               | None => (cache, Ok None)
               | Some rule =>
                   match matcher cache name (Se_UpdatedAt set) rule with
                   | (cache', Err e) => (cache', Err (ErrCompileRule e))
                   | (cache', Ok compiled) => (cache', Ok (Some (Se_Scope set, v, compiled)))
                   end
               end
      end
  | Some _ => (cache, Err ErrRouteAmbiguous)
  end.

(** A conversation's rule decides, when it has one. *)
Definition admitted (cache : compiled_rules) (candidate : TicketCandidate)
    (decide : Scope -> conversationValue -> compiledTicketRule -> result RouteError (option TicketIntent))
    : compiled_rules * result RouteError (option TicketIntent) :=
  match admission cache candidate with
  | (cache', Err e) => (cache', Err e)
  | (cache', Ok None) => (cache', Ok None)
  | (cache', Ok (Some (scope, v, compiled))) => (cache', decide scope v compiled)
  end.

Definition key_of (connection conversation root : string) (k : TicketKey -> TicketIntent) : result RouteError (option TicketIntent) :=
  match Key connection conversation root with
  | None => Err ErrRouteKey
  | Some key => Ok (Some (k key))
  end.

Definition route_root (cache : compiled_rules) (candidate : TicketCandidate) :=
  admitted cache candidate (fun scope v compiled =>
    let rule := ct_rule compiled in
    if negb (String.eqb (Tu_OpenFrom rule) TicketOpenLinkedUsers) ||
       negb (matchesTicket (ct_patterns compiled) (Tn_Text candidate)) then Ok None
    else key_of (Tn_Connection candidate) (Tn_Conversation candidate) (Tn_Message candidate) (fun key =>
      MkTicketIntent key true scope (Cv_Agent v) (Cv_RunAs v) (Tu_AddressFrom rule) false "" (Tu_ReviewIn rule) false false)).

Definition marksTickets (source : Source) (rule : TicketRule) : bool :=
  Source_MatchesKey source (Tu_AddressFrom rule) || Source_Person source.

Definition readable_text (candidate : TicketCandidate) : bool :=
  (Z.of_nat (String.length (Tn_Text candidate)) <=? MaxTicketMatchBytes)%Z && utf8_valid (Tn_Text candidate).

Definition mark (cache : compiled_rules) (candidate : TicketCandidate) : compiled_rules * result RouteError (option TicketIntent) :=
  if negb (String.eqb (Tn_Kind candidate) "message") || negb (readable_text candidate) then (cache, Ok None)
  else admitted cache candidate (fun scope v compiled =>
    let rule := ct_rule compiled in
    if negb (String.eqb (Tu_OpenFrom rule) TicketOpenMarkedThreads) then Ok None
    else if negb (marksTickets (Tn_Source candidate) rule) then Ok None
    else if negb (matchesTicket (ct_patterns compiled) (Tn_Text candidate)) then Ok None
    else key_of (Tn_Connection candidate) (Tn_Conversation candidate) (Tn_Thread candidate) (fun key =>
      MkTicketIntent key true scope (Cv_Agent v) (Cv_RunAs v) (Tu_AddressFrom rule) true (Tu_RootFrom rule)
        (Tu_ReviewIn rule) false false)).

(** Tickets as the store's range visits them. *)
Context (cancelled : bool) (visit : list Ticket).

Definition reply_intent (key : TicketKey) (review close : bool) : TicketIntent :=
  MkTicketIntent key false zeroScope "" "" "" false "" "" review close.

Definition route_reply (cache : compiled_rules) (candidate : TicketCandidate) : compiled_rules * result RouteError (option TicketIntent) :=
  let thread := MkOrigin (Tn_Connection candidate) (Tn_Conversation candidate) (Tn_Thread candidate) in
  match AtOrigin cancelled thread visit with
  | Ok held => (cache, Ok (Some (reply_intent (Tk_Key held) false false)))
  | Err TErrNotFound =>
      match AtReview cancelled thread visit with
      | Ok held => (cache, Ok (Some (reply_intent (Tk_Key held) true false)))
      | Err TErrNotFound => mark cache candidate
      | Err e => (cache, Err (ErrFindTicket e))
      end
  | Err e => (cache, Err (ErrFindTicket e))
  end.

Definition closing (cache : compiled_rules) (candidate : TicketCandidate) : compiled_rules * result RouteError (option TicketIntent) :=
  if String.eqb (So_User (Tn_Source candidate)) "" then (cache, Ok None)
  else match AtOrigin cancelled (MkOrigin (Tn_Connection candidate) (Tn_Conversation candidate) (Tn_Message candidate)) visit with
       | Err TErrNotFound => (cache, Ok None)
       | Err e => (cache, Err (ErrFindTicket e))
       | Ok held =>
           admitted cache candidate (fun _ _ compiled =>
             if negb (ClosesTicket (ct_rule compiled) (Tn_Reaction candidate)) then Ok None
             else Ok (Some (reply_intent (Tk_Key held) false true)))
       end.

Definition Route (cache : compiled_rules) (candidate : TicketCandidate) : compiled_rules * result RouteError (option TicketIntent) :=
  if String.eqb (Tn_Kind candidate) "reaction" then closing cache candidate
  else if negb (String.eqb (Tn_Thread candidate) (Tn_Message candidate)) then route_reply cache candidate
  else if negb (String.eqb (Tn_Kind candidate) "message") || negb (Source_Person (Tn_Source candidate)) ||
          negb (readable_text candidate) then (cache, Ok None)
  else route_root cache candidate.
End Routing.

(** ** Handling an arrival (ticket_process.go) *)

Record ThreadMessage := MkThreadMessage { Th_Ref : string; Th_Source : string; Th_Text : string }.

Record ThreadContext := MkThreadContext {
  Tx_Conversation : string;
  Tx_Thread : string;
  Tx_Messages : list ThreadMessage;
  Tx_Truncated : bool;
  Tx_Unavailable : string
}.

Record TicketResult := MkTicketResult { Tt_RunID : RunID; Tt_Refusal : Refusal; Tt_HandledReason : string }.

Definition noRefusal : Refusal := MkRefusal "" "" false.

Definition handled (reason : string) : TicketResult := MkTicketResult "" noRefusal reason.
Definition refused_ticket (why reason : string) : TicketResult := MkTicketResult "" (MkRefusal why reason false) "".
Definition started_run (run : RunID) : TicketResult := MkTicketResult run noRefusal "".

Inductive DoorError :=
| ErrNotWired (what : string)
| ErrInvalidIntent
| ErrDoorTicket (e : TicketError)
| ErrDoorContent (e : ContentError)
| ErrDoorPort
| ErrDoorOpen (e : OpenError)
| ErrDoorLedger (e : LedgerError)
| ErrNoApprovalRequest
| ErrNoDisposition
| ErrDoorInbox (e : InboxError).

(** The content store, the tickets and the ledger, which every step may change;
    no value is a panic of the ticket store. *)
Record DoorWorld := MkDoorWorld { dw_content : MemoryContent; dw_tickets : TicketMemory; dw_ledger : Memory }.

#[export] Instance DoorWorld_eta : Eta DoorWorld := fun w => MkDoorWorld (dw_content w) (dw_tickets w) (dw_ledger w).

Definition door (A : Type) : Type := DoorWorld -> option (DoorWorld * result DoorError A).

#[export] Instance door_ret : MRet door := fun A a w => Some (w, Ok a).
#[export] Instance door_bind : MBind door := fun A B f m w =>
  match m w with
  | Some (w', Ok a) => f a w'
  | Some (w', Err e) => Some (w', Err e)
  | None => None
  end.

Definition fail {A} (e : DoorError) : door A := fun w => Some (w, Err e).

Definition reading {A} (f : DoorWorld -> result DoorError A) : door A := fun w => Some (w, f w).

Definition from_port {A} (r : result PortError A) : door A := fun w => Some (w, match r with Ok a => Ok a | Err _ => Err ErrDoorPort end).

Definition read_ticket {A} (f : TicketMemory -> result TicketError A) : door (result TicketError A) := fun w => Some (w, Ok (f (dw_tickets w))).

Definition need {A} (r : result TicketError A) : door A :=
  fun w => Some (w, match r with Ok a => Ok a | Err e => Err (ErrDoorTicket e) end).

(** A request to the ticket store: the ticket and the flag, or its error. *)
Definition ask_store (q : TicketMemory -> ran answer) : door (Ticket * bool * option TicketError) := fun w =>
  match q (dw_tickets w) with
  | Panicked => None
  | Done a m' => Some (w <| dw_tickets := m' |>, Ok a)
  end.

Definition get_content (cancelled : bool) (ref : string) : door string :=
  reading (fun w => match MemoryContent_Get (dw_content w) cancelled ref with Ok raw => Ok raw | Err e => Err (ErrDoorContent e) end).

(** [storeTicketContent]: the reference and the digest of what was stored. *)
Definition storeTicketContent (cancelled : bool) (stored : Time) (kind : string) (key : TicketKey) (revision : Z) (raw : string)
    : door ContentRef := fun w =>
  let '(c', r) := MemoryContent_PutFor (dw_content w) cancelled stored kind key revision raw in
  Some (w <| dw_content := c' |>, match r with
                                   | Ok ref => Ok (MkContentRef ref (ResultDigest raw))
                                   | Err e => Err (ErrDoorContent e)
                                   end).

Definition ticketContextRefusal (e : DraftError) : TicketResult :=
  refused_ticket "This ticket has reached its context limit. Open a new root message to continue."
    (if draft_full e then "ticket_context_full" else "ticket_context_invalid").

Definition unboundRequester : TicketResult :=
  refused_ticket "Link your Slack account to FuseOne before opening a governed ticket." "ticket_unbound".

Definition ticketRunKey (ref : TicketRef) : string := "ticket:" +:+ TR_Key ref +:+ ":" +:+ print_Z (TR_Revision ref).

(** [declined] of the opener (opener.go). *)
Definition declined (e : OpenError) : bool :=
  match e with ErrPaused _ | ErrStopped _ | ErrDraft _ | ErrUnknownAgent _ => true | _ => false end.

Definition revision_request (held : Ticket) (revision : Revision) (raw : string) : Request_ :=
  MkRequest_ (Tk_Agent held) (ticketRunKey (Rv_Ref revision)) "channel_ticket" (Tk_RunAs held) raw
    (NewLabels [LabelUntrusted])
    (Some (MkRunOrigin (O_Connection (Tk_Origin held)) (O_Conversation (Tk_Origin held)) (O_Root (Tk_Origin held)) (O_Root (Tk_Origin held))))
    (Some (MkTicketContext (Rv_Ref revision) (Tk_RequestedBy held) (Tk_AddressedBy held)))
    [] "" "" 0 "" "" None None.

Section Handling.
Context `{TextTables}.
Context (cancelled : bool) (stored now : Time) (o : Opener).
(** Who an account speaks for, which accounts are bound, who may decide in a
    scope, and the messages of a thread. *)
Context (principalFor : string -> string -> result PortError (option UserID)).
Context (principalsOn : string -> list string -> result PortError (gmap string UserID)).
Context (decidersIn : Scope -> result PortError (list UserID)).
Context (threads : option (string -> string -> string -> string -> result PortError ThreadContext)).
(** What other workers did to the tickets before the n-th attempt to revise. *)
Context (others : nat -> TicketMemory -> TicketMemory).

(** *** Withdrawing a question (ticket_run.go) *)

Definition superseded_step (question : Step) (run : RunID) : Step :=
  MkStep run 0 StepFailed (S_Scope question) (S_AgentID question) (S_VersionID question) (S_OnBehalfOf question)
    (marshal c_FailedPayload (MkFailedPayload "ticket_revision_superseded" "" false)) (S_Labels question) zeroCost "" "" now "" "".

Definition closeSupersededApproval (approval : Approval) : door unit := fun w =>
  match Read (dw_ledger w) cancelled (Ap_RunID approval) (Ap_AtSeq approval) with
  | Err e => Some (w, Err (ErrDoorLedger e))
  | Ok [] => Some (w, Err ErrNoApprovalRequest)
  | Ok (question :: _) =>
      if negb (Z.eqb (S_Seq question) (Ap_AtSeq approval)) || negb (String.eqb (S_Kind question) StepApprovalRequested)
      then Some (w, Err ErrNoApprovalRequest)
      else match AppendIfHead (dw_ledger w) cancelled now (MkStepRef (Ap_AtSeq approval) StepApprovalRequested)
                   (superseded_step question (Ap_RunID approval)) with
           | Ok (m', _) => Some (w <| dw_ledger := m' |>, Ok tt)
           | Err ErrHeadMoved => Some (w, Ok tt)
           | Err e => Some (w, Err (ErrDoorLedger e))
           end
  end.

Definition mark_superseded (ref : TicketRef) : door unit := fun w =>
  match MarkApprovalSuperseded cancelled ref now (dw_tickets w) with
  | Panicked => None
  | Done (Some e) m' => Some (w <| dw_tickets := m' |>, Err (ErrDoorTicket e))
  | Done None m' => Some (w <| dw_tickets := m' |>, Ok tt)
  end.

Fixpoint close_each (approvals : list SupersededApproval) : door unit :=
  match approvals with
  | [] => mret tt
  | a :: more => _ ← closeSupersededApproval (SA_Approval a); _ ← mark_superseded (SA_Ref a); close_each more
  end.

Definition closeSupersededApprovals (current : TicketRef) : door unit :=
  if (TR_Revision current <=? 1)%Z then mret tt
  else approvals ← read_ticket (SupersededApprovals cancelled current); approvals ← need approvals; close_each approvals.

(** *** Starting a revision (ticket_run.go) *)

Definition cancelled_result : string :=
  print_json (JObj [("status", JStr "cancelled"); ("reason", JStr "agent_will_not_start")]).

Definition cancelUnstartable (held : Ticket) (revision : Revision) : door TicketResult :=
  result ← storeTicketContent cancelled stored "ticket-result" (Tk_Key held) (TR_Revision (Rv_Ref revision)) cancelled_result;
  closed ← ask_store (CloseRevision cancelled (MkCloseInput (Rv_Ref revision) TPhaseCancelled result now));
  match snd closed with
  | Some e => fail (ErrDoorTicket e)
  | None => mret (refused_ticket "The configured agent cannot start this ticket right now." "ticket_agent_unavailable")
  end.

Definition open_run (req : Request_) : door (result OpenError OpenResult) := fun w =>
  let '(m', r) := Opener_Open o req (dw_ledger w) cancelled in Some (w <| dw_ledger := m' |>, Ok r).

Definition openRevision (held : Ticket) (revision : Revision) : door TicketResult :=
  _ ← closeSupersededApprovals (Rv_Ref (Tk_Current held));
  if negb (String.eqb (Rv_Phase revision) TPhaseCollecting) then mret (handled "ticket_revision_already_advanced")
  else if match Tk_Active held with Some e => negb (bool_decide (Ex_Ref e = Rv_Ref revision)) | None => false end
  then fail (ErrDoorTicket TErrExecutionActive)
  else
    raw ← get_content cancelled (CR_Ref (Rv_Draft revision));
    opened ← open_run (revision_request held revision raw);
    match opened with
    | Ok r => mret (started_run (Or_RunID r))
    | Err e => if declined e then cancelUnstartable held revision else fail (ErrDoorOpen e)
    end.

(** *** Opening a ticket (ticket_process.go, ticket_marked.go) *)

Definition storeDraft : TicketKey -> Z -> string -> door ContentRef := storeTicketContent cancelled stored "ticket".

Definition open_ticket (arrival : Claimed) (intent : TicketIntent) (who : UserID) (ref text : string) : door TicketResult :=
  let a := Cl_Arrival arrival in
  match firstTicketDraft ref who text with
  | Err e => mret (ticketContextRefusal e)
  | Ok raw =>
      draft ← storeDraft (Ti_Key intent) 1 raw;
      answer ← ask_store (Ticket.Open cancelled
        (MkOpenInput (Ti_Key intent) (MkOrigin (Av_Channel a) (Av_Conversation a) (Av_Thread a)) (Ti_Scope intent)
           (Ti_Agent intent) (Ti_RunAs intent) who (Ti_AddressedBy intent) (Ti_ReviewIn intent) (Av_EventID a) draft now));
      match answer with
      | (_, _, Some TErrTooManyOpen) =>
          mret (refused_ticket "This area already has too many open tickets. Finish one before opening another." "ticket_scope_full")
      | (_, _, Some (TErrMoved _)) => mret (handled "ticket_root_already_open")
      | (_, _, Some e) => fail (ErrDoorTicket e)
      | (held, _, None) => openRevision held (Tk_Current held)
      end
  end.

Definition markedRoot (read : string -> string -> string -> string -> result PortError ThreadContext) (a : Arrival)
    : result PortError (option ThreadMessage) :=
  match read (Av_Channel a) (Av_Conversation a) (Av_Thread a) "" with
  | Err e => Err e
  | Ok thread => Ok (List.find (fun m => String.eqb (Th_Ref m) (Av_Thread a)) (Tx_Messages thread))
  end.

Definition openMarked (arrival : Claimed) (intent : TicketIntent) : door TicketResult :=
  let a := Cl_Arrival arrival in
  match threads with
  | None => fail (ErrNotWired "a thread reader")
  | Some read =>
      root ← from_port (markedRoot read a);
      match root with
      | None => mret (handled "ticket_root_unreadable")
      | Some root =>
          if negb (sameSourceKey (Th_Source root) (Ti_RootFrom intent)) then mret (handled "ticket_root_not_admitted")
          else match requesterOf (Th_Text root) with
               | None =>
                   mret (refused_ticket ("The first line of this thread names nobody, so there is no requester to open a " +:+
                           "ticket for. The form has to say who asked, as a Slack mention on its first line.") "ticket_requester_unnamed")
               | Some account =>
                   who ← from_port (principalFor (Av_Channel a) account);
                   match who with
                   | None => mret unboundRequester
                   | Some who => open_ticket arrival intent who (Th_Ref root) (Th_Text root)
                   end
               end
      end
  end.

Definition openRoot (arrival : Claimed) (intent : TicketIntent) : door TicketResult :=
  let a := Cl_Arrival arrival in
  if Ti_Marked intent then openMarked arrival intent
  else
    who ← from_port (principalFor (Av_Channel a) (So_User (Av_Source a)));
    match who with
    | None => mret unboundRequester
    | Some who => open_ticket arrival intent who (Av_Message a) (Av_Text a)
    end.

(** *** Replies (ticket_process.go, ticket_review.go, ticket_address.go) *)

(** [held.Current.Ref.Revision+1], at 64 bits. *)
Definition next_number (held : Ticket) : Z := wrap64 (TR_Revision (Rv_Ref (Tk_Current held)) + 1).

Fixpoint revise_loop (left_ : nat) (arrival : Claimed) (intent : TicketIntent) (held : Ticket) (who : UserID) : door TicketResult :=
  let a := Cl_Arrival arrival in
  match left_ with
  | O => fail (ErrDoorTicket (TErrMoved None))
  | S left_' =>
      previous ← get_content cancelled (CR_Ref (Rv_Draft (Tk_Current held)));
      match appendTicketDraft previous (Av_Message a) who (Av_Text a) with
      | Err e => mret (ticketContextRefusal e)
      | Ok raw =>
          draft ← storeDraft (Tk_Key held) (next_number held) raw;
          answer ← ask_store (fun m => Revise cancelled
            (MkReviseInput (Rv_Ref (Tk_Current held)) (Ti_Review intent) (Av_EventID a) who draft now) (others left_' m));
          match answer with
          | (updated, _, None) => openRevision updated (Tk_Current updated)
          | (_, _, Some (TErrMoved _)) =>
              held' ← read_ticket (CurrentTicket cancelled (Tk_Key held)); held' ← need held';
              revise_loop left_' arrival intent held' who
          | (_, _, Some e) => fail (ErrDoorTicket e)
          end
      end
  end.

Definition door_revise : Claimed -> TicketIntent -> Ticket -> UserID -> door TicketResult := revise_loop 4.

Definition allowedRecipients (connection : string) (scope : Scope) (accounts : list string) : door (list UserID) :=
  principals ← from_port (principalsOn connection accounts);
  allowed ← from_port (decidersIn scope);
  mret (sort_compact (List.filter (fun p => negb (String.eqb p "") && existsb (String.eqb p) allowed)
    (List.map (fun account => default "" (principals !! account)) accounts))).

Definition door_address (arrival : Claimed) (held : Ticket) : door TicketResult :=
  let a := Cl_Arrival arrival in
  match mentionedAccounts (Av_Text a) with
  | None => mret (handled "ticket_too_many_recipients")
  | Some [] => mret (handled "ticket_address_without_recipients")
  | Some accounts =>
      recipients ← allowedRecipients (Av_Channel a) (Tk_Scope held) accounts;
      if bool_decide (recipients = Rv_Recipients (Tk_Current held)) then mret (handled "ticket_recipients_unchanged")
      else
        answer ← ask_store (Address cancelled
          (MkAddressInput (Rv_Ref (Tk_Current held)) (Av_EventID a) (Tk_AddressedBy held) recipients now));
        match answer with
        | (updated, _, None) => openRevision updated (Tk_Current updated)
        | (_, _, Some e) => fail (ErrDoorTicket e)
        end
  end.

(** Who acts, when the account is bound and may decide in the ticket's scope. *)
Definition deciding (arrival : Claimed) (held : Ticket) (ignored : string) (k : UserID -> door TicketResult) : door TicketResult :=
  let a := Cl_Arrival arrival in
  who ← from_port (principalFor (Av_Channel a) (So_User (Av_Source a)));
  match who with
  | None => mret (handled ignored)
  | Some who =>
      allowed ← from_port (decidersIn (Tk_Scope held));
      if negb (existsb (String.eqb who) allowed) then mret (handled ignored) else k who
  end.

Definition correct (arrival : Claimed) (intent : TicketIntent) (held : Ticket) : door TicketResult :=
  if negb (Source_Person (Av_Source (Cl_Arrival arrival))) then mret (handled "ticket_source_ignored")
  else deciding arrival held "ticket_reviewer_ignored" (door_revise arrival intent held).

Definition keep (arrival : Claimed) (held : Ticket) (who : UserID) : door TicketResult :=
  let a := Cl_Arrival arrival in
  if negb (String.eqb (Rv_Phase (Tk_Current held)) TPhaseCollecting) then mret (handled "ticket_context_not_applied")
  else
    previous ← get_content cancelled (CR_Ref (Rv_Draft (Tk_Current held)));
    match appendTicketDraft previous (Av_Message a) who (Av_Text a) with
    | Err e => mret (ticketContextRefusal e)
    | Ok raw =>
        draft ← storeDraft (Tk_Key held) (next_number held) raw;
        answer ← ask_store (Revise cancelled (MkReviseInput (Rv_Ref (Tk_Current held)) false (Av_EventID a) who draft now));
        match snd answer with
        | None => mret (handled "ticket_context_kept")
        | Some e => fail (ErrDoorTicket e)
        end
    end.

Definition handleReply (arrival : Claimed) (intent : TicketIntent) : door TicketResult :=
  let a := Cl_Arrival arrival in
  held ← read_ticket (CurrentTicket cancelled (Ti_Key intent)); held ← need held;
  if negb (bool_decide (Tk_Closed held = None)) then mret (handled "ticket_already_closed")
  else if Ti_Review intent then correct arrival intent held
  else if String.eqb (RR_Conversation (Tk_Review held)) "" && Source_MatchesKey (Av_Source a) (Tk_AddressedBy held)
  then door_address arrival held
  else if negb (Source_Person (Av_Source a)) then mret (handled "ticket_source_ignored")
  else
    who ← from_port (principalFor (Av_Channel a) (So_User (Av_Source a)));
    match who with
    | None => mret (handled "ticket_author_ignored")
    | Some who =>
        if negb (String.eqb who (Tk_RequestedBy held)) then mret (handled "ticket_author_ignored")
        else if ReviewRoom_Open (Tk_Review held) then keep arrival held who
        else door_revise arrival intent held who
    end.

(** *** Closing (ticket_close.go) *)

Definition dropPendingAnswer (held : Ticket) : door TicketResult :=
  match Rv_Approval (Tk_Current held) with
  | Some approval =>
      if negb (String.eqb (Rv_Phase (Tk_Current held)) TPhaseAwaitingApproval) then mret (handled "ticket_closed")
      else
        _ ← closeSupersededApproval approval;
        closed ← ask_store (CloseRevision cancelled
          (MkCloseInput (Rv_Ref (Tk_Current held)) TPhaseCancelled (Rv_Draft (Tk_Current held)) now));
        match snd closed with
        | Some e => fail (ErrDoorTicket e)
        | None => mret (refused_ticket "This ticket was closed. The answer that was waiting for approval was not published."
                          "ticket_closed_with_answer_pending")
        end
  | None => mret (handled "ticket_closed")
  end.

Definition door_close (arrival : Claimed) (held : Ticket) : door TicketResult :=
  deciding arrival held "ticket_closer_ignored" (fun who =>
    answer ← ask_store (CloseTicket cancelled (MkCloseTicketInput (Tk_Key held) who now));
    match answer with
    | (_, _, Some e) => fail (ErrDoorTicket e)
    | (_, false, None) => mret (handled "ticket_already_closed")
    | (closed, true, None) => dropPendingAnswer closed
    end).

Definition handleClosing (arrival : Claimed) (intent : TicketIntent) : door TicketResult :=
  held ← read_ticket (CurrentTicket cancelled (Ti_Key intent)); held ← need held;
  if negb (bool_decide (Tk_Closed held = None)) then mret (handled "ticket_already_closed")
  else door_close arrival held.

(** *** One arrival *)

Definition TicketHandler_Handle (arrival : Claimed) : door TicketResult :=
  match Av_Ticket (Cl_Arrival arrival) with
  | None => fail ErrInvalidIntent
  | Some intent =>
      if negb (TicketIntent_Valid intent) then fail ErrInvalidIntent
      else
        event ← read_ticket (EventRevision cancelled (Av_EventID (Cl_Arrival arrival)));
        match event with
        | Ok (held, revision) => openRevision held revision
        | Err TErrNotFound =>
            if Ti_Root intent then openRoot arrival intent
            else if Ti_Close intent then handleClosing arrival intent
            else handleReply arrival intent
        | Err e => fail (ErrDoorTicket e)
        end
  end.

(** Where a ticket's own messages belong (ticket_review.go). *)
Definition ReviewPlace (tickets : TicketMemory) (intent : TicketIntent) : option (string * string) :=
  let in_room := match CurrentTicket cancelled (Ti_Key intent) tickets with
                 | Ok held => if ReviewRoom_Open (Tk_Review held)
                              then Some (RR_Conversation (Tk_Review held), RR_Root (Tk_Review held)) else None
                 | Err _ => None
                 end in
  match in_room with
  | Some place => Some place
  | None => if negb (String.eqb (Ti_ReviewIn intent) "") then Some (Ti_ReviewIn intent, "") else None
  end.
End Handling.
