(* ===== verification/Consumer.v ===== *)
(** * Asks into runs

    src/internal/channel: open.go, consumer.go, ceiling.go, opener.go and the
    replies owed. A sweep claims what arrived, narrows each ask - scope before
    agent, agent before ask, ask before run - and settles it; what is refused is
    said back later, under a claim of its own. *)

From Stdlib Require Import ZArith Lia Ascii String.
From stdpp Require Import base list strings gmap.
From S2P Require Import Prelude GoStrings Json JsonFacts Regexp Domain Sha256 Step Payload Encode State Ledger Ports Content Agent Open Spec Ticket Channel Inbox TicketDoor.

Local Open Scope string_scope.

(** ** Durations as text ([time.Duration.String]) *)

(** A number below a power of ten as its digits, the trailing zeros left out. *)
Fixpoint frac_digits (digits : nat) (v : Z) : string :=
  match digits with
  | O => ""
  | S n =>
      let high := (v / 10 ^ Z.of_nat n)%Z in
      let low := (v mod 10 ^ Z.of_nat n)%Z in
      if (v =? 0)%Z then "" else print_Z high +:+ frac_digits n low
  end.

Definition with_frac (digits : nat) (v : Z) : string :=
  let unit := (10 ^ Z.of_nat digits)%Z in
  let f := frac_digits digits (v mod unit)%Z in
  print_Z (v / unit) +:+ (if String.eqb f "" then "" else "." +:+ f).

Definition Duration_String (d : Duration) : string :=
  let u := Z.abs d in
  let sign := if (d <? 0)%Z then "-" else "" in
  if (u =? 0)%Z then "0s"
  else if (u <? 1000)%Z then sign +:+ print_Z u +:+ "ns"
  else if (u <? 1000000)%Z then sign +:+ with_frac 3 u +:+ bytes_str [194; 181] +:+ "s"
  else if (u <? 1000000000)%Z then sign +:+ with_frac 6 u +:+ "ms"
  else
    let secs := (u / 1000000000)%Z in
    let rest := with_frac 9 (u mod 60000000000)%Z +:+ "s" in
    let mins := (secs / 60)%Z in
    if (mins =? 0)%Z then sign +:+ rest
    else if (mins / 60 =? 0)%Z then sign +:+ print_Z (mins mod 60) +:+ "m" +:+ rest
    else sign +:+ print_Z (mins / 60) +:+ "h" +:+ print_Z (mins mod 60) +:+ "m" +:+ rest.

(** ** What the ledger holds about an ask (consumer.go) *)

Record askSubject := MkAskSubject { Sj_Kind : string; Sj_Run : string }.

Record structuredAsk := MkStructuredAsk {
  Sk_Subject : option askSubject;
  Sk_Text : string;
  Sk_AskedBy : string;
  Sk_Source : string;
  Sk_Thread : option ThreadContext
}.

Definition e_askSubject (s : askSubject) : json := obj [fld "kind" c_string (Sj_Kind s); fld "run" c_string (Sj_Run s)].

Definition e_ThreadMessage (m : ThreadMessage) : json := obj [
  fld "ref" c_string (Th_Ref m); fopt "source" c_string (Th_Source m); fld "text" c_string (Th_Text m)].

Definition e_ThreadContext (t : ThreadContext) : json := obj [
  fopt "conversation" c_string (Tx_Conversation t);
  fopt "thread" c_string (Tx_Thread t);
  (match Tx_Messages t with [] => [] | l => [("messages", JArr (List.map e_ThreadMessage l))] end);
  fopt "truncated" c_bool (Tx_Truncated t);
  fopt "unavailable" c_string (Tx_Unavailable t)].

Definition e_structuredAsk (a : structuredAsk) : json := obj [
  (match Sk_Subject a with Some s => [("subject", e_askSubject s)] | None => [] end);
  fld "text" c_string (Sk_Text a);
  fopt "asked_by" c_string (Sk_AskedBy a);
  fopt "source" c_string (Sk_Source a);
  (match Sk_Thread a with Some t => [("thread", e_ThreadContext t)] | None => [] end)].

Definition carriesAQuestion (r : structuredAsk) : bool :=
  if negb (String.eqb (trim_space (Sk_Text r)) "") then true
  else match Sk_Subject r with
       | Some _ => true
       | None => match Sk_Thread r with Some t => negb (List.length (Tx_Messages t) =? 0)%nat | None => false end
       end.

(** ** The consumer *)

Record Ceiling := MkCeiling { Ce_Runs : Z; Ce_Per : Duration }.

Definition DefaultCeiling : Ceiling := MkCeiling 20 3600000000000.
Definition reasonCeiling : string := "ceiling".

(** What a consumer reads and what it can do. The configuration, the registry's
    listing and its willingness, the account bindings, what a thread is about,
    whether and how its messages are read, and the opener; the ticket handler is
    wired where [cn_tickets] holds. A failed thread read has its text. *)
Record Consumer := MkConsumer {
  cn_settings : option (list Setting);
  cn_published : Scope -> result PortError (list AgentSummary);
  cn_willing : AgentID -> VersionID -> result PortError bool;
  cn_bindings : string -> string -> result PortError (option UserID);
  cn_subjects : string -> string -> string -> result PortError (option RunID);
  cn_threadPolicy : option (string -> string -> result PortError bool);
  cn_threads : option (string -> string -> string -> string -> result string ThreadContext);
  cn_opener : Opener;
  cn_ceiling : Ceiling;
  cn_owner : string;
  cn_tickets : bool;
  cn_principalsOn : string -> list string -> result PortError (gmap string UserID);
  cn_decidersIn : Scope -> result PortError (list UserID);
  cn_others : nat -> TicketMemory -> TicketMemory
}.

Record ChannelWorld := MkChannelWorld { cw_inbox : Inbox; cw_door : DoorWorld }.

#[export] Instance ChannelWorld_eta : Eta ChannelWorld := fun w => MkChannelWorld (cw_inbox w) (cw_door w).

Definition chan (A : Type) : Type := ChannelWorld -> option (ChannelWorld * result DoorError A).

#[export] Instance chan_ret : MRet chan := fun A a w => Some (w, Ok a).
#[export] Instance chan_bind : MBind chan := fun A B f m w =>
  match m w with
  | Some (w', Ok a) => f a w'
  | Some (w', Err e) => Some (w', Err e)
  | None => None
  end.

Definition chan_of {A} (r : result DoorError A) : chan A := fun w => Some (w, r).

Definition chan_port {A} (r : result PortError A) : chan A :=
  chan_of (match r with Ok a => Ok a | Err _ => Err ErrDoorPort end).

(** One statement against the inbox. *)
Definition on_inbox {A} (f : Inbox -> Inbox * result InboxError A) : chan A := fun w =>
  let '(t', r) := f (cw_inbox w) in
  Some (w <| cw_inbox := t' |>, match r with Ok a => Ok a | Err e => Err (ErrDoorInbox e) end).

Definition at_door {A} (f : door A) : chan A := fun w =>
  match f (cw_door w) with
  | Some (d', r) => Some (w <| cw_door := d' |>, r)
  | None => None
  end.

(** An ask is a run, or a refusal. *)
Definition opened_ask : Type := RunID + Refusal.

Definition refused (why reason : string) : Refusal := MkRefusal why reason false.

(** Go on, unless it was refused. *)
Definition unless_refused {A} (r : A + Refusal) (k : A -> chan opened_ask) : chan opened_ask :=
  match r with inl a => k a | inr why => mret (inr why) end.

Definition fromMention (a : Claimed) : bool := String.eqb (Av_Agent (Cl_Arrival a)) "".

Definition startsItsOwnThread (a : Claimed) : bool :=
  String.eqb (Av_Thread (Cl_Arrival a)) "" || String.eqb (Av_Thread (Cl_Arrival a)) (Av_Message (Cl_Arrival a)).

Definition canStart (startable : list Startable) (agent : AgentID) : bool :=
  existsb (fun one => String.eqb (Sa_ID one) agent) startable.

Definition cannotStartHere (agent : AgentID) : Refusal :=
  refused ("This conversation is configured to start " +:+ agent +:+ ", but that agent cannot start here.") "no_agent".

Definition watched (a : Claimed) (startable : list Startable) : (UserID * Ask) + Refusal :=
  let v := Cl_Arrival a in
  if String.eqb (Av_RunAs v) "" then
    inr (refused "This conversation is configured to watch messages, but no platform principal was chosen to run them." "misconfigured")
  else if negb (canStart startable (Av_Agent v)) then inr (cannotStartHere (Av_Agent v))
  else inl (Av_RunAs v, MkAsk (Av_Agent v) (Av_Text v)).

(** The text of a refusal of the opener (trigger/open.go, opener.go). *)
Definition declined_text (e : OpenError) : string :=
  match e with
  | ErrPaused agent => "trigger: the agent is paused: " +:+ agent
  | ErrStopped reason => "trigger: the platform is stopped: " +:+ reason
  | ErrDraft agent => "trigger: the agent is still a draft: " +:+ agent
  | ErrUnknownAgent agent => "trigger: no published version: " +:+ agent
  | _ => ""
  end.

Section Consuming.
Context `{TextTables}.
Context (cn : Consumer) (cancelled : bool).
(** The consumer's clock, the database's and the content store's. *)
Context (now dbnow stored : Time).

Definition mappingOf (a : Claimed) : chan (Mapped + Refusal) :=
  let v := Cl_Arrival a in
  match Resolve (cn_settings cn) (Av_Channel v) (Av_Conversation v) with
  | Err ErrNoConversation | Err ErrAmbiguousConversation =>
      mret (inr (refused "This conversation is not set up to start agents. An administrator maps it to an area." "no_scope"))
  | Err ErrAnnouncesOnly =>
      mret (inr (refused "This conversation only reports what runs do. Ask in the conversation configured for your area." "announces_only"))
  | Err ErrListConversations => chan_of (Err ErrDoorPort)
  | Ok mapped =>
      if fromMention a && negb (StartsFromMentions (Ma_Mode mapped)) then
        mret (inr (refused "This conversation only starts agents from its configured message sources, not from mentions." "not_from_mentions"))
      else mret (inl mapped)
  end.

Fixpoint willing_ones (published : list AgentSummary) : chan (list Startable) :=
  match published with
  | [] => mret []
  | one :: more =>
      willing ← chan_port (cn_willing cn (As_ID one) (As_VersionID one));
      rest ← willing_ones more;
      mret (if willing : bool then MkStartable (As_ID one) (As_Name one) :: rest else rest)
  end.

Definition startable_in (scope : Scope) : chan (list Startable) :=
  published ← chan_port (cn_published cn scope);
  willing_ones published.

Definition onBehalfOf (a : Claimed) : chan (UserID + Refusal) :=
  let v := Cl_Arrival a in
  bound ← chan_port (cn_bindings cn (Av_Channel v) (Av_AskedBy v));
  match bound with
  | Some asker => mret (inl asker)
  | None => mret (inr (refused "Your channel account is not linked to a platform user, so nothing can run on your behalf." "unbound"))
  end.

Definition mentioned (a : Claimed) (mapped : Mapped) (startable : list Startable) : chan ((UserID * Ask) + Refusal) :=
  who ← onBehalfOf a;
  match who with
  | inr r => mret (inr r)
  | inl asker =>
      match ReadAsk (Av_Text (Cl_Arrival a)) startable (Ma_Agent mapped) with
      | Err e => mret (inr (refused (ReadError_text e) "no_agent"))
      | Ok ask =>
          if negb (canStart startable (Ak_Agent ask)) then mret (inr (cannotStartHere (Ak_Agent ask)))
          else if negb (String.eqb (Ma_Agent mapped) "") && negb (String.eqb (Ak_Agent ask) (Ma_Agent mapped)) then
            mret (inr (refused ("This conversation starts " +:+ Ma_Agent mapped +:+
                                ". Mention the bot without naming another agent.") "not_this_agent"))
          else mret (inl (asker, ask))
      end
  end.

Definition resolveAsk (a : Claimed) (mapped : Mapped) (startable : list Startable) : chan ((UserID * Ask) + Refusal) :=
  if negb (fromMention a) then mret (watched a startable) else mentioned a mapped startable.

(** *** The ceiling (ceiling.go) *)

Definition ceiling_text (spent : Z) : string :=
  "You have started too many runs here recently " +:+ bytes_str [226; 128; 148] +:+ " " +:+ print_Z spent +:+
  " in the last " +:+ Duration_String (Ce_Per (cn_ceiling cn)) +:+ ", which is the limit. " +:+
  "Try again once the oldest of them falls outside that window.".

Definition overCeiling (a : Claimed) : chan (option Refusal) :=
  if (Ce_Runs (cn_ceiling cn) <=? 0)%Z then mret None
  else
    let since := (now - Ce_Per (cn_ceiling cn))%Z in
    spent ← on_inbox (A := Z * bool) (fun t => Reserve t dbnow a (Ce_Runs (cn_ceiling cn)) since);
    if (snd spent : bool) then mret None
    else
      told ← on_inbox (fun t => (t, Ok (ToldSince t (Av_Channel (Cl_Arrival a)) (Av_AskedBy (Cl_Arrival a)) reasonCeiling since)));
      mret (Some (MkRefusal (ceiling_text (fst spent)) reasonCeiling told)).

(** *** The record (open.go) *)

Definition readThreadContext (a : Claimed) : ThreadContext :=
  let v := Cl_Arrival a in
  let unavailable why := MkThreadContext (Av_Conversation v) (Av_Thread v) [] false why in
  match cn_threads cn with
  | None => unavailable "thread context is not wired"
  | Some read =>
      match read (Av_Channel v) (Av_Conversation v) (Av_Thread v) (Av_Message v) with
      | Err text => unavailable text
      | Ok got =>
          MkThreadContext (if String.eqb (Tx_Conversation got) "" then Av_Conversation v else Tx_Conversation got)
            (if String.eqb (Tx_Thread got) "" then Av_Thread v else Tx_Thread got)
            (Tx_Messages got) (Tx_Truncated got) (Tx_Unavailable got)
      end
  end.

Definition structured (a : Claimed) (ask : Ask) (asker : UserID) : chan structuredAsk :=
  let v := Cl_Arrival a in
  let out subject thread := MkStructuredAsk subject (Ak_Text ask) asker (Source_Key (Av_Source v)) thread in
  if startsItsOwnThread a then mret (out None None)
  else match cn_subjects cn (Av_Channel v) (Av_Conversation v) (Av_Thread v) with
       | Err _ => mret (out None None)
       | Ok (Some run) => mret (out (Some (MkAskSubject "run" run)) None)
       | Ok None =>
           include ← chan_port (match cn_threadPolicy cn with
                                | None => Ok false
                                | Some policy => policy (Av_Channel v) (Av_Conversation v)
                                end);
           mret (out None (if include : bool then Some (readThreadContext a) else None))
       end.

Definition recorded_ask (a : Claimed) (ask : Ask) (asker : UserID) : chan (string + Refusal) :=
  record ← structured a ask asker;
  if negb (carriesAQuestion record) then
    mret (inr (refused
      (if fromMention a then "Say what you need in the same message " +:+ bytes_str [226; 128; 148] +:+ " a mention on its own starts nothing."
       else "Nothing in this message could be read as a question, so no agent was started.") "no_ask"))
  else mret (inl (print_json (e_structuredAsk record))).

(** *** Opening (open.go, opener.go) *)

Definition ask_request (a : Claimed) (ask : Ask) (asker : UserID) (input : string) : Request_ :=
  let v := Cl_Arrival a in
  MkRequest_ (Ak_Agent ask) (AskKey v) "channel" asker input (NewLabels [LabelUntrusted])
    (Some (MkRunOrigin (Av_Channel v) (Av_Conversation v) (Av_Message v) (Av_Thread v)))
    None [] "" "" 0 "" "" None None.

Definition start_ask (a : Claimed) (ask : Ask) (asker : UserID) (input : string) : chan opened_ask :=
  opened ← at_door (open_run cancelled (cn_opener cn) (ask_request a ask asker input));
  match opened with
  | Ok r => mret (inl (Or_RunID r))
  | Err e =>
      if declined e then
        mret (inr (refused (Ak_Agent ask +:+ " will not start: channel: the agent will not start: " +:+ declined_text e) "wont_start"))
      else chan_of (Err (ErrDoorOpen e))
  end.

Definition open_ask (a : Claimed) : chan opened_ask :=
  mapped ← mappingOf a;
  unless_refused mapped (fun mapped =>
  startable ← startable_in (Ma_Scope mapped);
  resolved ← resolveAsk a mapped startable;
  unless_refused resolved (fun '(asker, ask) =>
  over ← overCeiling a;
  match over with
  | Some r => mret (inr r)
  | None =>
      input ← recorded_ask a ask asker;
      unless_refused input (start_ask a ask asker)
  end)).

(** *** Settling one ask (consumer.go, ticket_process.go) *)

Definition decline (a : Claimed) (r : Refusal) : chan bool :=
  _ ← on_inbox (fun t => Inbox_Refused t a r now); mret false.

(** The handler's answer, caught where the ticket waits for an execution. *)
Definition handleTicket (a : Claimed) : chan bool := fun w =>
  if negb (cn_tickets cn) then chan_of (Err (ErrNotWired "a ticket handler")) w
  else
    match at_door (TicketHandler_Handle cancelled stored now (cn_opener cn) (cn_bindings cn) (cn_principalsOn cn)
                     (cn_decidersIn cn) (option_map (fun read c v t b => match read c v t b with Ok x => Ok x | Err _ => Err (PortFailed None) end)
                        (cn_threads cn)) (cn_others cn) a) w with
    | None => None
    | Some (w', Err (ErrDoorTicket TErrExecutionActive)) =>
        if (3 <=? Cl_ClaimAttempts a)%Z && String.eqb (Cl_PendingNotice a) "" then
          (_ ← on_inbox (fun t => TicketWaiting t a); mret false) w'
        else Some (w', Ok false)
    | Some (w', Err e) => Some (w', Err e)
    | Some (w', Ok result) =>
        (if negb (String.eqb (Tt_RunID result) "") then
           _ ← on_inbox (fun t => Inbox_OpenedTicket t a (Tt_RunID result) now); mret true
         else if negb (String.eqb (Rf_Why (Tt_Refusal result)) "") then decline a (Tt_Refusal result)
         else if negb (String.eqb (Tt_HandledReason result) "") then
           _ ← on_inbox (fun t => Inbox_Handled t a (Tt_HandledReason result) now); mret false
         else chan_of (Err ErrNoDisposition)) w'
    end.

Definition handle_ask (a : Claimed) : chan bool :=
  match Av_Ticket (Cl_Arrival a) with
  | Some _ => handleTicket a
  | None =>
      opened ← open_ask a;
      match opened with
      | inr r => decline a r
      | inl run => _ ← on_inbox (fun t => Inbox_Opened t a run now); mret true
      end
  end.

(** *** The sweeps: how many, and what failed *)

Fixpoint each_claimed (one : Claimed -> chan bool) (claimed : list Claimed) (done_ : Z) (failures : list DoorError)
    : chan (Z * list DoorError) := fun w =>
  match claimed with
  | [] => Some (w, Ok (done_, failures))
  | c :: more =>
      match one c w with
      | None => None
      | Some (w', Err e) => each_claimed one more done_ (failures ++ [e])%list w'
      | Some (w', Ok did) => each_claimed one more (if did : bool then (done_ + 1)%Z else done_) failures w'
      end
  end.

Definition Sweep_asks (locked : ask_id -> bool) (lease : Duration) (limit : nat) : chan (Z * list DoorError) :=
  claimed ← on_inbox (fun t => Inbox_Claim t (cn_owner cn) locked dbnow lease limit);
  each_claimed handle_ask claimed 0 [].

Definition sayWhere (tickets : TicketMemory) (c : Claimed) : string * string :=
  let v := Cl_Arrival c in
  match Av_Ticket v with
  | None => (Av_Conversation v, Av_Thread v)
  | Some intent => match ReviewPlace cancelled tickets intent with
                   | Some place => place
                   | None => (Av_Conversation v, Av_Thread v)
                   end
  end.

(** Saying something where an ask was made; an error is a driver that was away. *)
Context (reply replyOutcome : string -> string -> string -> string -> result PortError unit).

Definition answer_one (c : Claimed) : chan bool := fun w =>
  let '(conversation, thread) := sayWhere (dw_tickets (cw_door w)) c in
  (_ ← chan_port (reply (Av_Channel (Cl_Arrival c)) conversation thread (Cl_Detail c));
   _ ← on_inbox (fun t => Inbox_Answered t c now); mret true) w.

Definition Consumer_Answer (locked : ask_id -> bool) (lease : Duration) (limit : nat) : chan (Z * list DoorError) :=
  owed ← on_inbox (fun t => Inbox_Owed t (cn_owner cn) locked dbnow lease limit);
  each_claimed answer_one owed 0 [].

(** [FinishedOutcome] (postgres.go): the payload of the last closing step. *)
Definition FinishedOutcome (m : Memory) (run : RunID) : result DoorError RunFinishedPayload :=
  match List.find (fun s => String.eqb (S_Kind s) StepRunFinished) (rev (steps_of m run)) with
  | None => Err ErrDoorPort
  | Some s => let '(p, ok) := unmarshal_into zeroRunFinishedPayload d_RunFinishedPayload (S_Payload s) in
              if ok then Ok p else Err ErrDoorPort
  end.

Definition erasedAnswer : string :=
  "The agent finished, but its closing answer was erased by retention or a data erasure request.".

Definition finished_text (w : DoorWorld) (run : RunID) : result DoorError string :=
  payload ← FinishedOutcome (dw_ledger w) run;
  if String.eqb (RF_OutcomeRef payload) "" then Ok (RF_Outcome payload)
  else match MemoryContent_Get (dw_content w) cancelled (RF_OutcomeRef payload) with
       | Ok text => Ok text
       | Err (ErrContentErased _) => Ok erasedAnswer
       | Err e => Err (ErrDoorContent e)
       end.

(** The answer is said, and the debt settled; a settled debt that was not ours
    leaves the words counted. *)
Definition finish_one (c : Claimed) (w : ChannelWorld) : ChannelWorld * bool * option DoorError :=
  let v := Cl_Arrival c in
  let mark_said said :=
    let '(t', r) := Inbox_FinishedAnswered (cw_inbox w) c now in
    (w <| cw_inbox := t' |>, said, match r with Ok _ => None | Err e => Some (ErrDoorInbox e) end) in
  match finished_text (cw_door w) (Cl_RunID c) with
  | Err e => (w, false, Some e)
  | Ok text =>
      if String.eqb text "" then mark_said false
      else match replyOutcome (Av_Channel v) (Av_Conversation v) (Av_Thread v) text with
           | Err _ => (w, false, Some ErrDoorPort)
           | Ok _ => mark_said true
           end
  end.

Fixpoint finish_each (owed : list Claimed) (said : Z) (failures : list DoorError) (w : ChannelWorld)
    : ChannelWorld * (Z * list DoorError) :=
  match owed with
  | [] => (w, (said, failures))
  | c :: more =>
      let '(w', did, failed) := finish_one c w in
      finish_each more (if did then (said + 1)%Z else said)
        (match failed with Some e => (failures ++ [e])%list | None => failures end) w'
  end.

Definition AnswerFinished (finished : RunID -> bool) (locked : ask_id -> bool) (lease : Duration) (limit : nat)
    : chan (Z * list DoorError) :=
  owed ← on_inbox (fun t => Inbox_Finished finished t (cn_owner cn) locked dbnow lease limit);
  (fun w => let '(w', r) := finish_each owed 0 [] w in Some (w', Ok r)) : chan (Z * list DoorError).
End Consuming.
