(* ===== verification/ConsumerSafety.v ===== *)
(** * From an ask to a run

    What [Consumer] opens: one run for one ask, however often it is taken up, in
    the name and within the limits its conversation was configured with. *)

From Stdlib Require Import ZArith Lia Ascii String.
From stdpp Require Import base list strings gmap.
From S2P Require Import Prelude GoStrings Json JsonFacts Regexp Domain Sha256 Step Payload Encode State Ledger LedgerSafety Ports Content Agent Open OpenSafety Spec Registry Ticket TicketSafety Channel Inbox TicketDoor Consumer.

Local Open Scope string_scope.

(** ** Running the steps *)

Lemma chan_bind_Ok {A B} (f : A -> chan B) (p : chan A) w w' b :
  (p ≫= f) w = Some (w', Ok b) -> exists w1 a, p w = Some (w1, Ok a) /\ f a w1 = Some (w', Ok b).
Proof. unfold mbind, chan_bind. destruct (p w) as [[w1 [a|e]]|]; naive_solver. Qed.

Lemma chan_of_Ok {A} (r : result DoorError A) w w' a : chan_of r w = Some (w', Ok a) -> w' = w /\ r = Ok a.
Proof. unfold chan_of. naive_solver. Qed.

Lemma chan_port_Ok {A} (r : result PortError A) w w' a : chan_port r w = Some (w', Ok a) -> w' = w /\ r = Ok a.
Proof. unfold chan_port. intros H. apply chan_of_Ok in H as [-> H]. split; [done|]. destruct r; naive_solver. Qed.

Lemma chan_ret_Ok {A} (a b : A) w w' : mret (M := chan) a w = Some (w', Ok b) -> w' = w /\ b = a.
Proof. unfold mret, chan_ret. naive_solver. Qed.

Lemma on_inbox_Ok {A} (f : Inbox -> Inbox * result InboxError A) w w' a :
  on_inbox f w = Some (w', Ok a) -> exists t', f (cw_inbox w) = (t', Ok a) /\ w' = w <| cw_inbox := t' |>.
Proof.
  unfold on_inbox. destruct (f (cw_inbox w)) as [t' [x|e]]; [|done]. intros [= <- ->]. by exists t'.
Qed.

Ltac chan_steps H :=
  lazymatch type of H with
  | (?p ≫= ?f) ?w = Some (?w', Ok ?b) =>
      let w1 := fresh "w" in let a := fresh "a" in let H1 := fresh "S" in
      apply chan_bind_Ok in H as (w1 & a & H1 & H)
  end.

Section Openings.
Context `{TextTables}.
Context (cn : Consumer) (cancelled : bool) (now dbnow stored : Time).

Lemma mappingOf_Ok a w w' m :
  mappingOf cn a w = Some (w', Ok (inl m)) ->
  w' = w /\ Resolve (cn_settings cn) (Av_Channel (Cl_Arrival a)) (Av_Conversation (Cl_Arrival a)) = Ok m /\
  (fromMention a = true -> StartsFromMentions (Ma_Mode m) = true).
Proof.
  unfold mappingOf. destruct (Resolve _ _ _) as [m'|[]]; [| |done..].
  - destruct (fromMention a && _) eqn:E; [done|]. intros [= <- <-]. split; [done|]. split; [done|].
    intros Hm. rewrite Hm in E. by apply negb_false_iff in E.
  - done.
Qed.

Lemma willing_ones_Ok published w w' l : forall (H : willing_ones cn published w = Some (w', Ok l)),
  w' = w /\ forall s, s ∈ l -> exists one, one ∈ published /\ Sa_ID s = As_ID one /\ Sa_Name s = As_Name one /\
    cn_willing cn (As_ID one) (As_VersionID one) = Ok true.
Proof.
  revert w w' l. induction published as [|one more IH]; intros w w' l Hl; cbn [willing_ones] in Hl.
  - apply chan_ret_Ok in Hl as [-> ->]. split; [done|]. intros s Hs. by apply elem_of_nil in Hs.
  - chan_steps Hl. apply chan_port_Ok in S as [-> Hw]. chan_steps Hl. apply IH in S as [-> Hin].
    apply chan_ret_Ok in Hl as [-> ->]. split; [done|]. intros s Hs. destruct a.
    + apply elem_of_cons in Hs as [->|Hs]; [exists one; split_and!; [left|..]; done|].
      destruct (Hin _ Hs) as (x & Hx & R). exists x. split; [by right|done].
    + destruct (Hin _ Hs) as (x & Hx & R). exists x. split; [by right|done].
Qed.

Lemma canStart_In startable agent : canStart startable agent = true -> exists s, s ∈ startable /\ Sa_ID s = agent.
Proof.
  unfold canStart. intros (s & Hs & E)%existsb_exists. exists s. split; [by apply list_elem_of_In|by apply String.eqb_eq].
Qed.

(** Who an ask may act for and which agent it may start. *)
Definition picked_for (a : Claimed) (m : Mapped) (startable : list Startable) (asker : UserID) (agent : AgentID) : Prop :=
  let v := Cl_Arrival a in
  (exists s, s ∈ startable /\ Sa_ID s = agent) /\
  if fromMention a
  then cn_bindings cn (Av_Channel v) (Av_AskedBy v) = Ok (Some asker) /\ (Ma_Agent m <> "" -> agent = Ma_Agent m)
  else asker = Av_RunAs v /\ asker <> "" /\ agent = Av_Agent v.

Lemma resolveAsk_Ok a m startable w w' asker ask :
  resolveAsk cn a m startable w = Some (w', Ok (inl (asker, ask))) -> w' = w /\ picked_for a m startable asker (Ak_Agent ask).
Proof.
  unfold resolveAsk, picked_for. destruct (fromMention a) eqn:Em; cbn [negb].
  - unfold mentioned, onBehalfOf. intros Hr. chan_steps Hr. chan_steps S. apply chan_port_Ok in S0 as [-> Hb].
    destruct a1 as [who|]; apply chan_ret_Ok in S as [-> ->]; [|done].
    destruct (ReadAsk _ _ _) as [k|]; [|done]. destruct (canStart _ _) eqn:Ec; [|done]. cbn [negb] in Hr.
    destruct (_ && _) eqn:Eb; [done|]. apply chan_ret_Ok in Hr as [-> [= -> ->]]. split; [done|].
    split; [by apply canStart_In|]. split; [done|]. intros Hm. apply andb_false_iff in Eb as [Eb|Eb];
      apply negb_false_iff, String.eqb_eq in Eb; done.
  - intros Hr. apply chan_ret_Ok in Hr as [-> Hr]. split; [done|]. unfold watched in Hr.
    destruct (String.eqb_spec (Av_RunAs (Cl_Arrival a)) ""); [done|]. destruct (canStart _ _) eqn:Ec; [|done].
    injection Hr as -> ->. split; [by apply canStart_In|]. done.
Qed.

Lemma overCeiling_Ok a w w' :
  overCeiling cn now dbnow a w = Some (w', Ok None) ->
  cw_door w' = cw_door w /\
  ((Ce_Runs (cn_ceiling cn) <= 0)%Z \/
   exists spent, Reserve (cw_inbox w) dbnow a (Ce_Runs (cn_ceiling cn)) (now - Ce_Per (cn_ceiling cn)) = (cw_inbox w', Ok (spent, true))).
Proof.
  unfold overCeiling. destruct (_ <=? _)%Z eqn:E.
  - intros Ho. apply chan_ret_Ok in Ho as [-> _]. split; [done|]. left. by apply Z.leb_le.
  - intros Ho. chan_steps Ho. apply on_inbox_Ok in S as (t' & Hr & ->). destruct a0 as [spent granted]. cbn [fst snd] in Ho.
    destruct granted.
    + apply chan_ret_Ok in Ho as [-> _]. split; [done|]. right. by exists spent.
    + chan_steps Ho. by apply chan_ret_Ok in Ho as [_ ?].
Qed.

Lemma structured_Ok a ask asker w w' r : structured cn a ask asker w = Some (w', Ok r) -> w' = w /\ Sk_AskedBy r = asker.
Proof.
  unfold structured. destruct (startsItsOwnThread a); [intros Hs; by apply chan_ret_Ok in Hs as [-> ->]|].
  destruct (cn_subjects cn _ _ _) as [[run|]|]; [intros Hs; by apply chan_ret_Ok in Hs as [-> ->]| |
    intros Hs; by apply chan_ret_Ok in Hs as [-> ->]].
  intros Hs. chan_steps Hs. apply chan_port_Ok in S as [-> _]. by apply chan_ret_Ok in Hs as [-> ->].
Qed.

(** An ask that became a run: what the opener was asked, against the ledger as
    it was, and what the narrowing found. *)
Lemma open_ask_run a w w' run :
  open_ask cn cancelled now dbnow a w = Some (w', Ok (inl run)) ->
  exists m published startable asker ask input r,
    Resolve (cn_settings cn) (Av_Channel (Cl_Arrival a)) (Av_Conversation (Cl_Arrival a)) = Ok m /\
    (fromMention a = true -> StartsFromMentions (Ma_Mode m) = true) /\
    cn_published cn (Ma_Scope m) = Ok published /\
    (forall s, s ∈ startable -> exists one, one ∈ published /\ Sa_ID s = As_ID one /\
       cn_willing cn (As_ID one) (As_VersionID one) = Ok true) /\
    picked_for a m startable asker (Ak_Agent ask) /\
    ((Ce_Runs (cn_ceiling cn) <= 0)%Z \/ exists spent,
       Reserve (cw_inbox w) dbnow a (Ce_Runs (cn_ceiling cn)) (now - Ce_Per (cn_ceiling cn)) = (cw_inbox w', Ok (spent, true))) /\
    Opener_Open (cn_opener cn) (ask_request a ask asker input) (dw_ledger (cw_door w)) cancelled = (dw_ledger (cw_door w'), Ok r) /\
    dw_tickets (cw_door w') = dw_tickets (cw_door w) /\ dw_content (cw_door w') = dw_content (cw_door w) /\
    run = Or_RunID r.
Proof.
  unfold open_ask. intros Ho. chan_steps Ho. destruct a0 as [m|]; cbn [unless_refused] in Ho; [|by apply chan_ret_Ok in Ho as [_ ?]].
  apply mappingOf_Ok in S as (-> & Hm & Hmode). chan_steps Ho. unfold startable_in in S. chan_steps S.
  apply chan_port_Ok in S0 as [-> Hp]. apply willing_ones_Ok in S as [-> Hw]. chan_steps Ho.
  destruct a2 as [[asker ask]|]; cbn [unless_refused] in Ho; [|by apply chan_ret_Ok in Ho as [_ ?]].
  apply resolveAsk_Ok in S as [-> Hc]. chan_steps Ho. destruct a2; [by apply chan_ret_Ok in Ho as [_ ?]|].
  apply overCeiling_Ok in S as [Ed Hr]. chan_steps Ho. unfold recorded_ask in S. chan_steps S.
  apply structured_Ok in S0 as [-> _]. destruct (carriesAQuestion _); cbn [negb] in S; apply chan_ret_Ok in S as [-> ->];
    cbn [unless_refused] in Ho; [|by apply chan_ret_Ok in Ho as [_ ?]].
  unfold start_ask in Ho. chan_steps Ho. unfold at_door, open_run in S.
  destruct (Opener_Open _ _ _ _) as [m' r] eqn:Eo in S. cbn in S. injection S as <- <-.
  destruct r as [r|e]; [|by destruct (declined e); [apply chan_ret_Ok in Ho as [_ ?]|apply chan_of_Ok in Ho as [_ ?]]].
  apply chan_ret_Ok in Ho as [-> [= ->]]. rewrite Ed in Eo. eexists m, _, _, asker, ask, _, r. rewrite <- Ed.
  split_and!; try done; [|rewrite Ed; exact Eo].
  intros s Hs. destruct (Hw s Hs) as (one & H1 & H2 & _ & H3). by exists one.
Qed.
End Openings.

(** ** The key of an ask *)

Definition unhex_char (c : ascii) : N := let n := N_of_ascii c in if (n <? 58)%N then (n - 48)%N else (n - 87)%N.

Lemma unhex_byte c : ascii_of_N (16 * unhex_char (hex_char (byte_of c / 16)) + unhex_char (hex_char (byte_of c mod 16))) = c.
Proof. destruct c as [[] [] [] [] [] [] [] []]; vm_compute; reflexivity. Qed.

Lemma hex_encode_inj : forall s t, hex_encode s = hex_encode t -> s = t.
Proof.
  induction s as [|c s IH]; intros [|d t]; cbn [hex_encode]; try done. intros [= E1 E2 E3].
  rewrite <- (unhex_byte c), <- (unhex_byte d), E1, E2. f_equal. by apply IH.
Qed.

Lemma part_inj a b x y :
  print_Z (Z.of_nat (String.length a)) +:+ ":" +:+ a +:+ x = print_Z (Z.of_nat (String.length b)) +:+ ":" +:+ b +:+ y -> a = b /\ x = y.
Proof.
  intros E. apply (f_equal (cut_byte ":")) in E.
  change (":" +:+ ?z) with (String ":" z) in E. rewrite !length_prefix_cut in E. injection E as E1 E2.
  apply print_Z_inj in E1. apply str_app_split in E2; [done|lia].
Qed.

Lemma ask_preimage_inj a b : ask_preimage a = ask_preimage b -> id_of a = id_of b.
Proof.
  unfold ask_preimage, id_of. rewrite !str_app_assoc. intros E.
  apply part_inj in E as [-> E]. apply part_inj in E as [-> E].
  assert (E' : forall x, print_Z (Z.of_nat (String.length x)) +:+ ":" +:+ x = print_Z (Z.of_nat (String.length x)) +:+ ":" +:+ x +:+ "")
    by (intros x; by rewrite str_app_nil).
  rewrite (E' (Av_EventID a)), (E' (Av_EventID b)) in E. by apply part_inj in E as [-> _].
Qed.

Lemma same_ask_key a b : id_of a = id_of b -> AskKey a = AskKey b.
Proof. unfold AskKey, ask_preimage, id_of. by intros [= -> -> ->]. Qed.

Lemma AskKey_inj a b : AskKey a = AskKey b ->
  id_of a = id_of b \/
  (ask_preimage a <> ask_preimage b /\ take_bytes 16 (sha256 (ask_preimage a)) = take_bytes 16 (sha256 (ask_preimage b))).
Proof.
  unfold AskKey. intros E. apply str_app_inj in E. apply hex_encode_inj in E.
  destruct (decide (ask_preimage a = ask_preimage b)) as [Ep|Ep]; [left; by apply ask_preimage_inj|by right].
Qed.

(** ** Theorems *)


Lemma opened_new o req m m' r :
  reachable m -> Opener_Open o req m false = (m', Ok r) -> m' <> m ->
  exists s scope, open_prepare o req m false = Ok (inr (s, scope)) /\ opening_of m m' s /\ Or_RunID r = S_RunID s.
Proof.
  intros R. unfold Opener_Open, Open_across. destruct (open_prepare o req m false) as [[r0|[s scope]]|e]; [by intros [= <- _]| |done].
  intros H Hne. apply committed in H as [(_ & Ho & [= ->])|[-> _]]; [|done]. by exists s, scope.
Qed.

Lemma room_resolved rows channelName id m :
  Resolve rows channelName id = Ok m -> exists stored v, rows = Some stored /\
    conversationsNamed stored channelName id = [(Ma_Scope m, v)] /\ Scope_IsInstallation (Ma_Scope m) = false /\
    startsSomething (Cv_Mode v) = true /\ Ma_Agent m = Cv_Agent v /\ Ma_Mode m = Cv_Mode v.
Proof.
  unfold Resolve. destruct rows as [stored|]; [|done]. destruct (conversationsNamed stored channelName id) as [|[scope v] [|? ?]] eqn:En; [done| |done].
  destruct (_ || _) eqn:E; [done|]. intros [= <-]. apply orb_false_iff in E as [E1 E2]. apply negb_false_iff in E2.
  exists stored, v. rewrite En. by split_and!.
Qed.


(** ** Examples *)

Module Rooms.
#[local] Existing Instance ascii_tables.
Definition front : frontmatter :=
  MkFrontmatter "triage" "Triagem" "" "ops" "openai" "m" "" None "" "" ["crm.read"]
    [MkTrigger TriggerChannel "" "" "" "" []] [] [] (MkBudget 500 0 0 60 0) None None "".
Definition spec : Spec := spec_of front "triage.md" "---" "Sort the tickets.".
Definition registered : Tables := match publishOn no_tables spec "ana" "acme" 1 with Ok t => t | Err _ => no_tables end.
Definition from_registry {A} (r : result RegistryError A) : result PortError A := match r with Ok a => Ok a | Err _ => Err (PortFailed None) end.

Definition opener : Opener :=
  MkOpener (fun agent => from_registry (Registry_Versions registered agent)) None (Some (fun _ => Ok false)) (Some (Ok []))
    (Some (fun _ => Ok StageCopilot)) (fun _ => (unix_epoch, unix_epoch)).

(** A conversation that takes mentions, mapped to a scope. *)
Definition room (scope : Scope) : Setting :=
  MkSetting scope (ConversationKey "slack" "C1")
    (print_json (JObj [("channel", JStr "slack"); ("keyVersion", JNum "2"); ("mode", JStr "mentions")])) true 1.

Definition consumer (scope : Scope) : Consumer :=
  MkConsumer (Some [room scope]) (fun s => from_registry (List_current registered s))
    (fun agent v => from_registry (s ← Registry_Get registered agent v; Ok (StartableFromConversation s)))
    (fun _ account => Ok (if String.eqb account "U1" then Some "ana" else None)) (fun _ _ _ => Ok None) None None opener
    DefaultCeiling "a" false (fun _ _ => Ok ∅) (fun _ => Ok []) (fun _ m => m).

Definition mention : Arrival := MkArrival "slack" "C1" "e1" "m1" "U1" "<@BOT> triagem: sort this" "m1" "" "" (MkSource "U1" "" "") None "{}".
Definition arrived : Inbox := inbox_run [IReceive (sec 1) mention; IClaim "a" unlocked (sec 2) (sec 60) 1].
Definition claimed : Claimed := MkClaimed mention "a" "" 1 "" "".
Definition empty : ChannelWorld := MkChannelWorld arrived (MkDoorWorld NewMemoryContent NewTicketMemory NewMemory).
Definition asked (scope : Scope) (w : ChannelWorld) : option (ChannelWorld * result DoorError opened_ask) :=
  open_ask (consumer scope) false (sec 3) (sec 3) claimed w.
Definition after_ask (scope : Scope) : ChannelWorld := match asked scope empty with Some (w, _) => w | None => empty end.
Definition run : RunID := match asked (MkScope "acme" "ops") empty with Some (_, Ok (inl r)) => r | _ => "" end.
End Rooms.

Definition company_room : Scope := MkScope "acme" "".



(** A conversation of the whole company starts the agents of every area: the
    listing it is checked against takes an empty area to mean any. *)
Example a_company_room_starts_every_area :
  match Rooms.asked company_room Rooms.empty with
  | Some (w, Ok (inl run)) => List.map S_Scope (steps_of (dw_ledger (cw_door w)) run)
  | _ => []
  end = [MkScope "acme" "ops"].
Proof. vm_compute. reflexivity. Qed.
