(* ===== verification/TicketDoorSafety.v ===== *)
(** * Who moves a ticket, and what it leaves behind

    What [TicketDoor] does to the stores: every request it makes of the tickets
    is one the arrival entitles it to, a new revision withdraws the questions of
    the old ones before its run starts, and drafts keep every word. *)

From Stdlib Require Import ZArith Lia Ascii String.
From stdpp Require Import base list strings gmap.
From S2P Require Import Prelude GoStrings Json JsonFacts Regexp Domain Sha256 Step Payload Encode State Ledger LedgerSafety Ports Content MemoryTool Agent Open OpenSafety Listing ListingSafety Spec Ticket TicketSafety Operate OperateSafety Channel Inbox TicketDoor Consumer ConsumerSafety.

Local Open Scope string_scope.

Create HintDb door.

(** ** Running the steps *)

Lemma door_bind_Ok {A B} (f : A -> door B) (p : door A) w w' b :
  (p ≫= f) w = Some (w', Ok b) -> exists w1 a, p w = Some (w1, Ok a) /\ f a w1 = Some (w', Ok b).
Proof. unfold mbind, door_bind. destruct (p w) as [[w1 [a|e]]|]; naive_solver. Qed.

Lemma door_ret_Ok {A} (a b : A) w w' : mret (M := door) a w = Some (w', Ok b) -> w' = w /\ b = a.
Proof. unfold mret, door_ret. naive_solver. Qed.

(** ** What happens to the tickets *)

(** Requests served one after the other, each of them entitled, with whatever
    other workers do in between. *)
Inductive moved (cancelled : bool) (foreign : TicketMemory -> TicketMemory -> Prop) (entitled : ticket_request -> Prop)
    : TicketMemory -> TicketMemory -> Prop :=
| moved_not m : moved cancelled foreign entitled m m
| moved_served m q y m1 m2 :
    entitled q -> Ticket.handle cancelled q m = Done y m1 -> moved cancelled foreign entitled m1 m2 ->
    moved cancelled foreign entitled m m2
| moved_foreign m m1 m2 : foreign m m1 -> moved cancelled foreign entitled m1 m2 -> moved cancelled foreign entitled m m2.

Section Moves.
Context `{TextTables}.
Context (cancelled : bool) (stored now : Time) (o : Opener).
Context (principalFor : string -> string -> result PortError (option UserID)).
Context (principalsOn : string -> list string -> result PortError (gmap string UserID)).
Context (decidersIn : Scope -> result PortError (list UserID)).
Context (threads : option (string -> string -> string -> string -> result PortError ThreadContext)).
Context (others : nat -> TicketMemory -> TicketMemory).
Context (foreign : TicketMemory -> TicketMemory -> Prop).

(** The person behind an arrival may decide in the ticket's scope. *)
Definition decider (a : Arrival) (held : Ticket) (who : UserID) : Prop :=
  principalFor (Av_Channel a) (So_User (Av_Source a)) = Ok (Some who) /\
  exists allowed, decidersIn (Tk_Scope held) = Ok allowed /\ who ∈ allowed.

(** What an arrival entitles its handling to ask of the ticket store [m] it is
    handled against. *)
Definition entitled (a : Arrival) (m : TicketMemory) (q : ticket_request) : Prop :=
  match Av_Ticket a with
  | None => False
  | Some intent =>
      match q with
      | QOpen i =>
          Ti_Root intent = true /\ OI_Key i = Ti_Key intent /\ OI_Scope i = Ti_Scope intent /\ OI_Agent i = Ti_Agent intent /\
          OI_RunAs i = Ti_RunAs intent /\ OI_AddressedBy i = Ti_AddressedBy intent /\ OI_ReviewIn i = Ti_ReviewIn intent /\
          exists account, principalFor (Av_Channel a) account = Ok (Some (OI_RequestedBy i)) /\
            if Ti_Marked intent
            then exists read thread root, threads = Some read /\
                 read (Av_Channel a) (Av_Conversation a) (Av_Thread a) "" = Ok thread /\ root ∈ Tx_Messages thread /\
                 Th_Ref root = Av_Thread a /\ sameSourceKey (Th_Source root) (Ti_RootFrom intent) = true /\
                 requesterOf (Th_Text root) = Some account
            else account = So_User (Av_Source a)
      | QRevise i =>
          exists held, tm_tickets m !! Ti_Key intent = Some held /\ Tk_Closed held = None /\ Source_Person (Av_Source a) = true /\
            if Ti_Review intent then decider a held (RI_By i)
            else principalFor (Av_Channel a) (So_User (Av_Source a)) = Ok (Some (RI_By i)) /\ RI_By i = Tk_RequestedBy held /\
                 RI_InReview i = false
      | QAddress i =>
          exists held allowed, tm_tickets m !! Ti_Key intent = Some held /\ Tk_Closed held = None /\
            RR_Conversation (Tk_Review held) = "" /\ Source_MatchesKey (Av_Source a) (Tk_AddressedBy held) = true /\
            DI_By i = Tk_AddressedBy held /\ decidersIn (Tk_Scope held) = Ok allowed /\
            forall p, p ∈ DI_Recipients i -> p ∈ allowed
      | QCloseTicket i =>
          Ti_Close intent = true /\ exists held, tm_tickets m !! Ti_Key intent = Some held /\ decider a held (CT_By i)
      | QClose i => CI_Phase i = TPhaseCancelled
      | QSuperseded _ _ => True
      | _ => False
      end
  end.

(** Whatever a step answers, it moves the tickets only by such requests. *)
Definition moves_by (E : ticket_request -> Prop) {A} (f : door A) (w : DoorWorld) : Prop :=
  forall w' r, f w = Some (w', r) -> moved cancelled foreign E (dw_tickets w) (dw_tickets w').

Lemma moved_trans E m1 m2 m3 : moved cancelled foreign E m1 m2 -> moved cancelled foreign E m2 m3 -> moved cancelled foreign E m1 m3.
Proof. induction 1; intros; [done|eapply moved_served; eauto|eapply moved_foreign; eauto]. Qed.

Lemma moves_bind E {A B} (p : door A) (f : A -> door B) w :
  moves_by E p w -> (forall w1 a, p w = Some (w1, Ok a) -> moves_by E (f a) w1) -> moves_by E (p ≫= f) w.
Proof.
  intros Hp Hf w' r. unfold mbind, door_bind. destruct (p w) as [[w1 [a|e]]|] eqn:Ep; [|by intros [= <- _]; eapply Hp|done].
  intros Hw. eapply moved_trans; [by eapply Hp|]. by eapply Hf.
Qed.

Lemma moves_still E {A} (f : door A) w : (forall w' r, f w = Some (w', r) -> dw_tickets w' = dw_tickets w) -> moves_by E f w.
Proof. intros Hf w' r Hw. rewrite (Hf _ _ Hw). constructor. Qed.

Lemma moves_ret E {A} (a : A) w : moves_by E (mret a) w.
Proof. apply moves_still. by intros w' r [= <- _]. Qed.

Lemma moves_fail E {A} (e : DoorError) w : moves_by E (fail (A := A) e) w.
Proof. apply moves_still. by intros w' r [= <- _]. Qed.

Lemma moves_reading E {A} (f : DoorWorld -> result DoorError A) w : moves_by E (reading f) w.
Proof. apply moves_still. by intros w' r [= <- _]. Qed.

Lemma moves_content E ref w : moves_by E (get_content cancelled ref) w.
Proof. apply moves_reading. Qed.

Lemma moves_port E {A} (r : result PortError A) w : moves_by E (from_port r) w.
Proof. apply moves_still. by intros w' x [= <- _]. Qed.

Lemma moves_read E {A} (f : TicketMemory -> result TicketError A) w : moves_by E (read_ticket f) w.
Proof. apply moves_still. by intros w' x [= <- _]. Qed.

Lemma moves_need E {A} (r : result TicketError A) w : moves_by E (need r) w.
Proof. apply moves_still. by intros w' x [= <- _]. Qed.

Lemma moves_store E kind key n raw w : moves_by E (storeTicketContent cancelled stored kind key n raw) w.
Proof.
  apply moves_still. intros w' r. unfold storeTicketContent. destruct (MemoryContent_PutFor _ _ _ _ _ _ _). by intros [= <- _].
Qed.

Lemma moves_open E req w : moves_by E (open_run cancelled o req) w.
Proof. apply moves_still. intros w' r. unfold open_run. destruct (Opener_Open _ _ _ _). by intros [= <- _]. Qed.

Lemma moves_close_approval E a w : moves_by E (closeSupersededApproval cancelled now a) w.
Proof. apply moves_still. intros w' r. unfold closeSupersededApproval. repeat case_match; intros [= <- _]; done. Qed.

Lemma moves_asked E (q : ticket_request) (f : TicketMemory -> ran answer) w :
  (forall m, Ticket.handle cancelled q m = ran_map YTicket (f m)) -> E q -> moves_by E (ask_store f) w.
Proof.
  intros Hq He w' r. unfold ask_store. destruct (f (dw_tickets w)) as [a m'|] eqn:Ef; [|done]. intros [= <- _]. cbn.
  eapply moved_served; [exact He| |constructor]. by rewrite Hq, Ef.
Qed.

Lemma moves_marked (E : ticket_request -> Prop) ref w : E (QSuperseded ref now) -> moves_by E (mark_superseded cancelled now ref) w.
Proof.
  intros He w' r. unfold mark_superseded. destruct (MarkApprovalSuperseded _ _ _ _) as [a m'|] eqn:Ef; [|done].
  intros Hr. assert (dw_tickets w' = m') as -> by (destruct a; by injection Hr as <- _).
  eapply moved_served; [exact He| |constructor]. cbn [Ticket.handle]. by rewrite Ef.
Qed.

(** Reading does not change the world, and answers what it read. *)
Lemma moves_read_bind E {A B} (f : TicketMemory -> result TicketError A) (k : result TicketError A -> door B) w :
  moves_by E (k (f (dw_tickets w))) w -> moves_by E (read_ticket f ≫= k) w.
Proof. intros Hk. apply moves_bind; [apply moves_read|]. intros w1 a [= <- <-]. exact Hk. Qed.

Lemma moves_need_bind E {A B} (r : result TicketError A) (k : A -> door B) w :
  (forall a, r = Ok a -> moves_by E (k a) w) -> moves_by E (need r ≫= k) w.
Proof. intros Hk. apply moves_bind; [apply moves_need|]. intros w1 a Hw. unfold need in Hw. destruct r; [|done]. injection Hw as <- <-. by apply Hk. Qed.

Lemma moves_port_bind E {A B} (r : result PortError A) (k : A -> door B) w :
  (forall a, r = Ok a -> moves_by E (k a) w) -> moves_by E (from_port r ≫= k) w.
Proof. intros Hk. apply moves_bind; [apply moves_port|]. intros w1 a Hw. unfold from_port in Hw. destruct r; [|done]. injection Hw as <- <-. by apply Hk. Qed.

#[local] Hint Resolve moves_ret moves_fail moves_reading moves_content moves_port moves_read moves_need moves_store moves_open moves_close_approval : door.

(** Walks a handler: binds in order, branches, and the steps that ask nothing. *)
Ltac walk := repeat first
  [ progress auto with door | apply moves_bind; [solve [auto with door]|intros ? ? ?] | case_match ].

(** *** What every revision does *)

Section Served.
Context (E : ticket_request -> Prop).
Hypothesis withdraws : forall ref, E (QSuperseded ref now).
Hypothesis cancels : forall i, CI_Phase i = TPhaseCancelled -> E (QClose i).

Lemma moves_close_each l w : moves_by E (close_each cancelled now l) w.
Proof.
  revert w. induction l as [|a l IH]; intros w; cbn [close_each]; [auto with door|].
  walk. apply moves_bind; [by apply moves_marked|]. auto.
Qed.

Lemma moves_cancel i w : CI_Phase i = TPhaseCancelled -> moves_by E (ask_store (CloseRevision cancelled i)) w.
Proof. intros Hi. apply (moves_asked _ (QClose i)); [done|auto]. Qed.

#[local] Hint Resolve moves_cancel moves_close_each : door.

Lemma moves_openRevision held rev w : moves_by E (openRevision cancelled stored now o held rev) w.
Proof.
  unfold openRevision. apply moves_bind.
  { unfold closeSupersededApprovals. case_match; [auto with door|]. apply moves_read_bind, moves_need_bind. auto with door. }
  intros. walk.
Qed.

Lemma moves_dropPendingAnswer held w : moves_by E (dropPendingAnswer cancelled now held) w.
Proof. unfold dropPendingAnswer. walk. Qed.
End Served.

(** *** One arrival *)

Section Arriving.
Context (arrival : Claimed) (intent : TicketIntent) (m : TicketMemory).
Hypothesis routed : Av_Ticket (Cl_Arrival arrival) = Some intent.
Hypothesis foreigners : forall n m, foreign m (others n m).

#[local] Abbreviation E := (entitled (Cl_Arrival arrival) m).

Lemma withdrawing ref : E (QSuperseded ref now).
Proof. unfold entitled. by rewrite routed. Qed.

Lemma cancelling i : CI_Phase i = TPhaseCancelled -> E (QClose i).
Proof. unfold entitled. by rewrite routed. Qed.

Lemma moves_revision held rev w : moves_by E (openRevision cancelled stored now o held rev) w.
Proof. apply moves_openRevision; [apply withdrawing|apply cancelling]. Qed.

Lemma moves_pending held w : moves_by E (dropPendingAnswer cancelled now held) w.
Proof. apply moves_dropPendingAnswer, cancelling. Qed.

#[local] Hint Resolve moves_revision moves_pending : door.

Lemma moves_open_ticket who ref text w :
  (forall i, OI_Key i = Ti_Key intent -> OI_Scope i = Ti_Scope intent -> OI_Agent i = Ti_Agent intent ->
     OI_RunAs i = Ti_RunAs intent -> OI_AddressedBy i = Ti_AddressedBy intent -> OI_ReviewIn i = Ti_ReviewIn intent ->
     OI_RequestedBy i = who -> E (QOpen i)) ->
  moves_by E (open_ticket cancelled stored now o arrival intent who ref text) w.
Proof.
  intros He. unfold open_ticket. case_match; [|auto with door]. apply moves_bind; [unfold storeDraft; auto with door|]. intros w1 draft _.
  apply moves_bind; [|intros; walk]. match goal with |- context [Ticket.Open cancelled ?i] => apply (moves_asked _ (QOpen i)) end; [done|]. by apply He.
Qed.

Lemma moves_openRoot w : Ti_Root intent = true -> moves_by E (openRoot cancelled stored now o principalFor threads arrival intent) w.
Proof.
  intros Hroot. unfold openRoot. destruct (Ti_Marked intent) eqn:Em.
  - unfold openMarked. destruct threads as [read|] eqn:Et; [|auto with door]. apply moves_port_bind. intros [root|] Hread; [|auto with door].
    destruct (sameSourceKey _ _) eqn:Es; cbn [negb]; [|auto with door]. destruct (requesterOf _) as [account|] eqn:Ea; [|auto with door].
    apply moves_port_bind. intros [who|] Hwho; [|auto with door]. apply moves_open_ticket. intros i; intros. unfold entitled. rewrite routed.
    unfold markedRoot in Hread. destruct (read _ _ _ _) as [thread|] eqn:Er; [|done]. injection Hread as Hread.
    apply List.find_some in Hread as [Hin Href]. apply String.eqb_eq in Href.
    split_and!; [done..|]. exists account. split; [congruence|]. rewrite Em. exists read, thread, root.
    split_and!; [done|done|by apply list_elem_of_In|done|done|done].
  - apply moves_port_bind. intros [who|] Hwho; [|auto with door]. apply moves_open_ticket. intros i; intros. unfold entitled. rewrite routed.
    split_and!; [done..|]. exists (So_User (Av_Source (Cl_Arrival arrival))). rewrite Em. split; [congruence|done].
Qed.

Lemma moves_revise n held who w :
  (forall i, RI_By i = who -> RI_InReview i = Ti_Review intent -> E (QRevise i)) ->
  moves_by E (revise_loop cancelled stored now o others n arrival intent held who) w.
Proof.
  intros He. revert held w. induction n as [|n IH]; intros held w; cbn [revise_loop]; [auto with door|].
  apply moves_bind; [auto with door|]. intros w1 previous _. case_match; [|auto with door].
  apply moves_bind; [unfold storeDraft; auto with door|]. intros w2 draft _. apply moves_bind.
  - intros w' r. unfold ask_store. destruct (Revise _ _ _) as [y m'|] eqn:Er; [|done]. intros [= <- _]. cbn.
    eapply moved_foreign; [apply foreigners|].
    match type of Er with Revise _ ?i _ = _ => eapply (moved_served _ _ _ _ (QRevise i)) end; [by apply He| |constructor].
    cbn [Ticket.handle]. by rewrite Er.
  - intros. walk.
Qed.

Lemma reads_recipients connection scope accounts w w' r :
  allowedRecipients principalsOn decidersIn connection scope accounts w = Some (w', r) ->
  w' = w /\ forall rs, r = Ok rs -> exists allowed, decidersIn scope = Ok allowed /\ forall p, p ∈ rs -> p ∈ allowed.
Proof.
  unfold allowedRecipients, mbind, door_bind, from_port. destruct (principalsOn _ _); [|naive_solver].
  destruct (decidersIn scope) as [allowed|]; [|naive_solver]. intros [= <- <-]. split; [done|]. intros rs [= <-].
  exists allowed. split; [done|]. intros p. rewrite list_elem_of_In, sort_compact_In, List.filter_In, andb_true_iff, existsb_exists.
  intros (_ & _ & q & Hq & Heq). apply String.eqb_eq in Heq as ->. by apply list_elem_of_In.
Qed.

Section Held.
Context (held : Ticket).
Hypothesis stands : tm_tickets m !! Ti_Key intent = Some held.

Lemma moves_address w :
  Tk_Closed held = None -> RR_Conversation (Tk_Review held) = "" ->
  Source_MatchesKey (Av_Source (Cl_Arrival arrival)) (Tk_AddressedBy held) = true ->
  moves_by E (door_address cancelled stored now o principalsOn decidersIn arrival held) w.
Proof.
  intros Hc Hr Hs. unfold door_address. case_match; [|auto with door]. case_match; [auto with door|]. apply moves_bind.
  { apply moves_still. intros w' r Hw. by apply reads_recipients in Hw as [-> _]. }
  intros w1 rs Hw. apply reads_recipients in Hw as (_ & Hrs). destruct (Hrs rs eq_refl) as (allowed & Ha & Hsub).
  case_match; [auto with door|]. apply moves_bind; [|intros; walk].
  match goal with |- context [Address cancelled ?i] => apply (moves_asked _ (QAddress i)) end; [done|].
  unfold entitled. rewrite routed. eauto 10.
Qed.

Lemma moves_deciding why k w :
  (forall who, decider (Cl_Arrival arrival) held who -> moves_by E (k who) w) ->
  moves_by E (deciding principalFor decidersIn arrival held why k) w.
Proof.
  intros Hk. unfold deciding. apply moves_port_bind. intros [who|] Hwho; [|auto with door].
  apply moves_port_bind. intros allowed Ha. destruct (existsb _ _) eqn:Ex; cbn [negb]; [|auto with door]. apply Hk. split; [done|].
  exists allowed. split; [done|]. apply existsb_exists in Ex as (q & Hq & Heq). apply String.eqb_eq in Heq as ->. by apply list_elem_of_In.
Qed.

Lemma moves_close w : Ti_Close intent = true -> moves_by E (door_close cancelled now principalFor decidersIn arrival held) w.
Proof.
  intros Hc. apply moves_deciding. intros who Hd. apply moves_bind; [|intros; walk].
  match goal with |- context [CloseTicket cancelled ?i] => apply (moves_asked _ (QCloseTicket i)) end; [done|].
  unfold entitled. rewrite routed. eauto.
Qed.

Lemma moves_correct w :
  Tk_Closed held = None -> Ti_Review intent = true ->
  moves_by E (correct cancelled stored now o principalFor decidersIn others arrival intent held) w.
Proof.
  intros Hc Hr. unfold correct. destruct (Source_Person _) eqn:Ep; cbn [negb]; [|auto with door]. apply moves_deciding. intros who Hd.
  apply moves_revise. intros i <- _. unfold entitled. rewrite routed, Hr. eauto 10.
Qed.

Lemma moves_kept_draft who w :
  (forall i, RI_By i = who -> RI_InReview i = false -> E (QRevise i)) ->
  moves_by E (keep cancelled stored now arrival held who) w.
Proof.
  intros He. unfold keep. case_match; [auto with door|]. apply moves_bind; [auto with door|]. intros w1 previous _.
  case_match; [|auto with door]. apply moves_bind; [unfold storeDraft; auto with door|]. intros w2 draft _.
  apply moves_bind; [|intros; walk]. match goal with |- context [Revise cancelled ?i] => apply (moves_asked _ (QRevise i)) end; [done|].
  by apply He.
Qed.
End Held.

Lemma CurrentTicket_Ok c key mem held : CurrentTicket c key mem = Ok held -> tm_tickets mem !! key = Some held.
Proof. unfold CurrentTicket, found. intros. by case_all. Qed.

Lemma moves_closing w : Ti_Close intent = true -> dw_tickets w = m ->
  moves_by E (handleClosing cancelled now principalFor decidersIn arrival intent) w.
Proof.
  intros Hc Hm. apply moves_read_bind, moves_need_bind. intros held Hh%CurrentTicket_Ok. rewrite Hm in Hh. case_match; [auto with door|by apply moves_close].
Qed.

Lemma moves_reply w : dw_tickets w = m ->
  moves_by E (handleReply cancelled stored now o principalFor principalsOn decidersIn others arrival intent) w.
Proof.
  intros Hm. apply moves_read_bind, moves_need_bind. intros held Hh%CurrentTicket_Ok. rewrite Hm in Hh.
  destruct (bool_decide (Tk_Closed held = None)) eqn:Ec; cbn [negb]; [|auto with door]. apply bool_decide_eq_true in Ec.
  destruct (Ti_Review intent) eqn:Er; [by apply moves_correct|].
  destruct (_ && Source_MatchesKey _ _) eqn:Ea; [apply andb_true_iff in Ea as [Ea%String.eqb_eq ?]; by apply moves_address|].
  destruct (Source_Person _) eqn:Ep; cbn [negb]; [|auto with door].
  apply moves_port_bind. intros [who|] Hwho; [|auto with door]. destruct (String.eqb_spec who (Tk_RequestedBy held)) as [->|]; cbn [negb]; [|auto with door].
  assert (forall i, RI_By i = Tk_RequestedBy held -> RI_InReview i = false -> E (QRevise i)) as He.
  { intros i Hby Hin. unfold entitled. rewrite routed, Er, Hby. exists held. split_and!; done. }
  case_match; [by apply moves_kept_draft|]. apply moves_revise. by rewrite Er.
Qed.
End Arriving.
End Moves.

(** ** The theorems *)


(** ** Questions of replaced revisions *)

(** Something stands on the ledger after the question. *)
Definition passed (m : Memory) (a : Approval) : Prop :=
  (Ap_AtSeq a < Z.of_nat (List.length (steps_of m (Ap_RunID a))))%Z.

(** No decision about the question is ever recorded again, whatever the ledger
    goes through and from wherever it is decided. *)
Definition unanswerable `{Regexp.Unicode} (m : Memory) (a : Approval) : Prop :=
  forall sv seen os later moved cancelled caller now body m' answer more,
    mem_steps m more later -> reachable seen -> mem_steps seen os later -> Db_AtSeq body = Ap_AtSeq a ->
    DecideApproval sv seen later moved cancelled caller now (Ap_RunID a) body = (m', answer) ->
    m' = later /\ forall v, answer <> Success v.

Lemma passed_kept m os m' a : mem_steps m os m' -> passed m a -> passed m' a.
Proof. intros Hs. unfold passed. destruct (steps_of_kept _ _ _ (Ap_RunID a) Hs) as [more ->]. rewrite length_app. intros. lia. Qed.

Lemma passed_unanswerable `{Regexp.Unicode} m a : passed m a -> unanswerable m a.
Proof.
  intros Hp sv seen os later moved cancelled caller now body m' ans more Hm Hr Hs Hb Hd.
  destruct (DecideApproval_spec _ _ _ _ _ _ _ _ _ _ _ _ Hr Hs Hd) as [?|(_ & p & state & q & sealed & Hq)]; [done|].
  destruct Hq as (_ & _ & _ & _ & _ & _ & _ & Hl & _). eapply passed_kept in Hp; [|exact Hm]. unfold passed in Hp. lia.
Qed.

Lemma Read_suffix m cancelled run seq q rest :
  Read m cancelled run seq = Ok (q :: rest) ->
  cancelled = false /\ exists before, steps_of m run = (before ++ q :: rest)%list /\ (seq <= Z.of_nat (List.length before) + 1)%Z.
Proof.
  unfold Read, steps_of. destruct cancelled; [done|]. cbn. destruct (m_runs m !! run) as [steps|]; [|done]. cbn.
  destruct (Z.leb_spec seq FirstSeq) as [Hle|Hgt].
  - intros [= ->]. split; [done|]. exists []. split; [done|]. unfold FirstSeq in Hle. cbn. lia.
  - destruct (_ <=? _)%Z eqn:El; [done|]. apply Z.leb_gt in El. intros [= Hq]. split; [done|].
    exists (take (Z.to_nat (seq - FirstSeq)) steps). rewrite <- Hq, take_drop. split; [done|].
    rewrite length_take. unfold FirstSeq in *. lia.
Qed.

Lemma append_head_moved m cancelled now epoch head s :
  append m cancelled now epoch (Some head) s = Err ErrHeadMoved ->
  headIs (Some head) (last_or None (steps_of m (S_RunID s))) = Err ErrHeadMoved.
Proof.
  unfold append, mbind, result_mbind, mret, result_mret, lift_err, guard_err. repeat case_match; naive_solver.
Qed.

Section Withdrawing.
Context (cancelled : bool) (now : Time).

Lemma close_passes a w w' :
  reachable (dw_ledger w) -> closeSupersededApproval cancelled now a w = Some (w', Ok tt) ->
  dw_tickets w' = dw_tickets w /\ dw_content w' = dw_content w /\ passed (dw_ledger w') a /\
  exists os, mem_steps (dw_ledger w) os (dw_ledger w').
Proof.
  intros Hre. unfold closeSupersededApproval. destruct (Read _ _ _ _) as [[|q rest]|] eqn:Hr; [done| |done].
  destruct (_ || _) eqn:Eq; [done|]. apply orb_false_iff in Eq as [Eq%negb_false_iff Ek%negb_false_iff].
  apply Z.eqb_eq in Eq. apply String.eqb_eq in Ek. apply Read_suffix in Hr as (Hc & before & Hst & Hlen).
  rewrite Hc.
  destruct (AppendIfHead _ _ _ _ _) as [[m' sealed]|e] eqn:Ha.
  - intros [= <-]. cbn. split; [done|]. split; [done|]. split; [|eexists; eapply steps_cons; [by eapply step_append|constructor]].
    pose proof (head_length _ _ _ _ _ _ _ Hre Ha) as Hl. apply append_Ok in Ha as (_ & _ & _ & _ & _ & Hn & ->).
    apply sealed_keeps in Hn as (Hrun & _). cbn in Hl, Hrun. unfold passed, steps_of. rewrite store_runs, Hrun, lookup_insert_eq. cbn.
    rewrite length_app. cbn. lia.
  - destruct e; try done. intros [= <-]. split; [done|]. split; [done|]. split; [|eexists; constructor].
    apply append_head_moved in Ha. cbn [superseded_step S_RunID] in Ha. unfold passed. rewrite Hst in Ha |- *. rewrite length_app. cbn [List.length].
    destruct rest as [|q2 rest]; [|cbn [List.length]; lia]. rewrite last_or_snoc in Ha. cbn in Ha. rewrite Eq, Ek, Z.eqb_refl, String.eqb_refl in Ha. done.
Qed.

Lemma marks_superseded ref w w' :
  mark_superseded cancelled now ref w = Some (w', Ok tt) ->
  dw_ledger w' = dw_ledger w /\ tm_revisions (dw_tickets w') = tm_revisions (dw_tickets w) /\ dw_content w' = dw_content w /\
  tm_superseded (dw_tickets w') = {[ref]} ∪ tm_superseded (dw_tickets w).
Proof. unfold mark_superseded, MarkApprovalSuperseded. intros H. repeat case_match; naive_solver. Qed.

(** What a walk over old questions leaves of a world. *)
Definition withdrew (l : list SupersededApproval) (w w' : DoorWorld) : Prop :=
  (exists os, mem_steps (dw_ledger w) os (dw_ledger w')) /\ tm_revisions (dw_tickets w') = tm_revisions (dw_tickets w) /\
  dw_content w' = dw_content w /\ tm_superseded (dw_tickets w) ⊆ tm_superseded (dw_tickets w') /\
  forall s, s ∈ l -> passed (dw_ledger w') (SA_Approval s) /\ SA_Ref s ∈ tm_superseded (dw_tickets w').

Lemma close_each_withdraws l w w' :
  reachable (dw_ledger w) -> close_each cancelled now l w = Some (w', Ok tt) -> withdrew l w w'.
Proof.
  revert w. induction l as [|s l IH]; intros w Hre H; cbn [close_each] in H.
  - apply door_ret_Ok in H as [-> _]. split; [eexists; constructor|]. split_and!; try done. intros ? []%elem_of_nil.
  - apply door_bind_Ok in H as (w1 & [] & H1 & H). apply door_bind_Ok in H as (w2 & [] & H2 & H).
    apply close_passes in H1 as (T1 & C1 & P1 & os1 & S1); [|done]. apply marks_superseded in H2 as (L2 & R2 & C2 & M2).
    pose proof (reachable_steps _ _ _ Hre S1) as Hre1. rewrite <- L2 in Hre1, S1, P1.
    destruct (IH _ Hre1 H) as ((os3 & S3) & R3 & C3 & M3 & P3). split; [eexists; by eapply mem_steps_trans|].
    split; [by rewrite R3, R2, T1|]. split; [by rewrite C3, C2|]. rewrite M2, T1 in M3. split; [set_solver|].
    intros s' [->|Hs]%elem_of_cons; [|by apply P3]. split; [by eapply passed_kept|set_solver].
Qed.

Lemma close_all_withdraws cur w w' :
  reachable (dw_ledger w) -> closeSupersededApprovals cancelled now cur w = Some (w', Ok tt) ->
  exists l, withdrew l w w' /\ forall n s, (1 <= n < TR_Revision cur)%Z -> superseded_at (dw_tickets w) (TR_Key cur) n = Some s -> s ∈ l.
Proof.
  intros Hre. unfold closeSupersededApprovals. destruct (Z.leb_spec (TR_Revision cur) 1).
  - intros [-> _]%door_ret_Ok. exists []. split; [|lia]. split; [eexists; constructor|]. split_and!; try done. intros ? []%elem_of_nil.
  - intros H1. apply door_bind_Ok in H1 as (w1 & a & [= <- <-] & H1). apply door_bind_Ok in H1 as (w2 & l & H2 & H1).
    unfold need, SupersededApprovals in H2. destruct cancelled eqn:Ec; [done|]. destruct (TicketRef_Valid cur); [|done]. cbn [negb] in H2.
    injection H2 as <- <-. rewrite <- Ec in H1. apply close_each_withdraws in H1; [|done]. eexists. split; [exact H1|].
    intros n s Hn Hs. apply list_elem_of_omap. exists n. split; [|done]. apply elem_of_seqZ. lia.
Qed.
End Withdrawing.

(** C21. A run is started for a revision only after the questions of the
    revisions it replaces were withdrawn. When [openRevision] starts a run, it
    is the one run of that revision, which was still collecting, with no other
    execution under way; and every earlier revision that was cancelled while it
    waited for an approval is marked, and if it was not marked before, nobody
    can have its question answered on the ledger any more. *)
Theorem old_questions_are_withdrawn `{Regexp.Unicode} cancelled stored now o held revision w w' r
    (Hre : reachable (dw_ledger w))
    (ran : openRevision cancelled stored now o held revision w = Some (w', Ok r)) (started : Tt_RunID r <> "") :
  Ticket.Rv_Phase revision = TPhaseCollecting /\ (forall e, Tk_Active held = Some e -> Ex_Ref e = Rv_Ref revision) /\
  recorded (dw_ledger w') (ticketRunKey (Rv_Ref revision)) (Tt_RunID r) /\
  let current := Rv_Ref (Tk_Current held) in
  forall n old a, (1 <= n < TR_Revision current)%Z ->
    revision_at (dw_tickets w) (MkTicketRef (TR_Key current) n) = Some old ->
    Ticket.Rv_Phase old = TPhaseCancelled -> Rv_Approval old = Some a ->
    Rv_Ref old ∈ tm_superseded (dw_tickets w') /\
    (Rv_Ref old ∉ tm_superseded (dw_tickets w) -> unanswerable (dw_ledger w') a).
Proof.
  unfold openRevision in ran. apply door_bind_Ok in ran as (w1 & [] & H1 & ran).
  apply close_all_withdraws in H1 as (l & ((os1 & S1) & R1 & _ & M1 & P1) & Hl); [|done].
  destruct (String.eqb_spec (Ticket.Rv_Phase revision) TPhaseCollecting) as [Hp|]; cbn [negb] in ran;
    [|by apply door_ret_Ok in ran as [_ ->]].
  destruct (match Tk_Active held with Some e => _ | None => _ end) eqn:Ea; [done|].
  apply door_bind_Ok in ran as (w2 & raw & H2 & ran). apply door_bind_Ok in ran as (w3 & opened & H3 & ran).
  unfold get_content, reading in H2. injection H2 as <- _. unfold open_run in H3.
  destruct (Opener_Open _ _ _ _) as [m3 res] eqn:Eo. injection H3 as <- <-.
  destruct res as [res|e]; [|destruct (declined e); [|done]].
  2: { apply door_bind_Ok in ran as (? & ? & _ & ran). apply door_bind_Ok in ran as (? & [? [?|]] & _ & ran); [done|].
       cbn in ran. by apply door_ret_Ok in ran as [_ ->]. }
  apply door_ret_Ok in ran as [-> ->]. cbn [dw_ledger dw_tickets Tt_RunID started_run]. cbn.
  pose proof (reachable_steps _ _ _ Hre S1) as Hre1.
  destruct (Open_across_Ok _ _ _ _ _ _ _ _ [] Hre1 ltac:(constructor) Eo) as (_ & Hrec & Hmoved & _).
  assert (exists os, mem_steps (dw_ledger w1) os m3) as (os3 & S3).
  { destruct Hmoved as [->|(s & _ & Ho)]; [by eexists; constructor|]. eexists. by apply opening_step_of. }
  split; [done|]. split; [|split; [done|]].
  { intros e He. rewrite He in Ea. apply negb_false_iff, bool_decide_eq_true in Ea. done. }
  intros n old a Hn Hold Hc Hap. destruct (decide (Rv_Ref old ∈ tm_superseded (dw_tickets w))) as [Hin|Hout].
  { split; [set_solver|done]. }
  destruct (P1 (MkSupersededApproval (Rv_Ref old) a)) as [Hq Hmark].
  { apply (Hl n); [done|]. unfold superseded_at. rewrite Hold, Hap, Hc. by rewrite bool_decide_eq_false_2. }
  split; [done|]. intros _. apply passed_unanswerable. by eapply passed_kept.
Qed.

(** ** Drafts *)

(** A decoder that keeps [P] of the value it fills, on a document whose strings
    are whole. *)
Definition keeps_of {A} (P : A -> Prop) (d : decoder A) : Prop :=
  forall cur j, json_ok j = true -> P cur -> P (fst (d cur j)).

Definition fields_ok (fs : list (string * json)) : Prop := Forall (fun f => json_ok (snd f) = true) fs.

Lemma keeps_string : keeps_of (fun s => utf8_valid s = true) d_string.
Proof. intros cur []; cbn; naive_solver. Qed.

Lemma keeps_field {A} (P : A -> Prop) name d cur fs :
  keeps_of P d -> fields_ok fs -> P cur -> P (fst (field name d cur fs)).
Proof.
  intros Hd Hfs. revert cur. induction Hfs as [|[k v] fs Hv _ IH]; intros cur Hc; cbn [field]; [done|].
  case_match; [|auto]. unfold mbind, Dec_bind. destruct (field name d (fst (d cur v)) fs) as [b ok] eqn:E. cbn.
  change b with (fst (b, ok)). rewrite <- E. auto.
Qed.

Lemma keeps_struct {A} (P : A -> Prop) (fields : A -> list (string * json) -> Dec A) :
  (forall cur fs, fields_ok fs -> P cur -> P (fst (fields cur fs))) -> keeps_of P (d_struct fields).
Proof.
  intros Hf cur [] Hj Hc; cbn; try done. apply Hf; [|done]. cbn in Hj. unfold fields_ok. apply Forall_forall. intros [k v] Hin.
  rewrite forallb_forall in Hj. apply list_elem_of_In in Hin. specialize (Hj _ Hin). cbn in Hj. by apply andb_true_iff in Hj as [_ ?].
Qed.

Lemma keeps_list {A} (P : A -> Prop) zero d : P zero -> keeps_of P d -> keeps_of (Forall P) (d_list zero d).
Proof.
  intros Hz Hd cur [] Hj Hc; cbn; try done. cbn in Hj. clear Hc. induction l as [|j l IH]; cbn [d_items]; [constructor|].
  cbn in Hj. apply andb_true_iff in Hj as [Hj Hl]. specialize (IH Hl). unfold mbind, Dec_bind. destruct (d_items zero d l) as [rest ok]. cbn.
  constructor; [by apply Hd|done].
Qed.

Lemma draft_decodes raw d : decodeTicketDraft raw = Ok d -> c_ok c_ticketDraft d.
Proof.
  unfold decodeTicketDraft. case_match; [done|]. destruct (decode_first raw) as [[j rest]|] eqn:Ej; [|done].
  destruct (d_ticketDraft (MkTicketDraft []) j) as [d' ok] eqn:Ed. repeat (case_match; [done|]). destruct (encodeTicketDraft d'); [|done].
  intros [= <-]. change d' with (fst (d', ok)). rewrite <- Ed. apply decoded_ok in Ej.
  pose (whole := fun m => utf8_valid (Dm_Ref m) = true /\ utf8_valid (Dm_By m) = true /\ utf8_valid (Dm_Text m) = true).
  refine (keeps_struct (fun d => Forall whole (Td_Messages d)) _ _ (MkTicketDraft []) j Ej ltac:(constructor)).
  intros cur fs Hfs Hc. refine (keeps_field (Forall whole) "messages" _ (Td_Messages cur) fs _ Hfs Hc).
  apply keeps_list; [done|]. apply keeps_struct. intros m fs' Hfs' (W1 & W2 & W3).
  unfold mbind, Dec_bind; cbn -[field]. split_and!; by apply (keeps_field (fun s => utf8_valid s = true)); [apply keeps_string|..].
Qed.

(** A draft that can be written reads back as it was. *)
Lemma draft_roundtrip d raw : c_ok c_ticketDraft d -> encodeTicketDraft d = Ok raw -> decodeTicketDraft raw = Ok d.
Proof.
  intros Hok He. pose proof He as He'. unfold encodeTicketDraft in He'. case_match; [done|]. case_match; [done|].
  destruct (Z.ltb_spec MaxTicketDraftBytes (Z.of_nat (String.length (marshal c_ticketDraft d)))) as [|Hb]; [done|].
  injection He' as <-. unfold decodeTicketDraft. rewrite (proj2 (Z.ltb_ge _ _) Hb).
  assert (String.eqb (marshal c_ticketDraft d) "" = false) as -> by done. cbn [orb].
  pose proof (decode_print (c_enc c_ticketDraft d) "" (law_json d Hok) eq_refl) as Hd. rewrite str_app_nil in Hd.
  unfold marshal at 1. rewrite Hd. change (MkTicketDraft []) with (c_zero c_ticketDraft).
  change (d_ticketDraft (c_zero c_ticketDraft)) with (c_dec c_ticketDraft (c_zero c_ticketDraft)). rewrite (law_read d Hok).
  assert (known_fields ["messages"] (c_enc c_ticketDraft d) && known_messages (c_enc c_ticketDraft d) = true) as Hk.
  { change (forallb (known_fields ["ref"; "by"; "text"]) (List.map e_ticketDraftMessage (Td_Messages d)) && true = true).
    rewrite andb_true_r. apply forallb_forall. intros x (m & <- & _)%in_map_iff. reflexivity. }
  cbn [andb]. rewrite Hk. cbn [negb skip_ws]. change (String.eqb "" "") with true. cbn [negb]. by rewrite He.
Qed.

(** C39. A ticket's draft keeps every word. Appending a message to a draft that
    reads, answers one that reads back as the same messages in their order with
    the new one last, trimmed; and no draft is answered past 32 messages or
    32768 bytes, so the conversation is refused rather than cut. *)
Theorem ticket_words_accumulate raw ref by_ text raw'
    (Href : utf8_valid ref = true) (Hby : utf8_valid by_ = true) (Htext : utf8_valid (trim_space text) = true)
    (appended : appendTicketDraft raw ref by_ text = Ok raw') :
  exists d, decodeTicketDraft raw = Ok d /\
    decodeTicketDraft raw' = Ok (MkTicketDraft (Td_Messages d ++ [MkTicketDraftMessage ref by_ (trim_space text)])) /\
    (List.length (Td_Messages d) < 32)%nat /\ (Z.of_nat (String.length raw') <= 32768)%Z.
Proof.
  unfold appendTicketDraft in appended. apply result_bind_Ok in appended as (d & Hd & He).
  exists d. split; [done|]. split; [apply draft_roundtrip; [|done]|].
  - pose proof (draft_decodes _ _ Hd) as Hok. apply Forall_app. split; [exact Hok|]. constructor; [done|constructor].
  - unfold encodeTicketDraft in He. destruct (_ || _) eqn:En in He; [done|]. apply orb_false_iff in En as [_ En%Nat.ltb_ge].
    case_match; [done|]. case_match eqn:Hb; [done|]. injection He as <-. apply Z.ltb_ge in Hb. cbn [Td_Messages] in En. rewrite length_app in En.
    cbn in En. unfold MaxTicketDraftMessages in En. split; [lia|exact Hb].
Qed.

(** ** Witnesses *)

(** A desk in a conversation: a ticket opened by its first message, whose first
    revision waits for an answer when its requester writes again. *)
Module Desk.
#[local] Existing Instance ascii_tables.

Definition key : TicketKey := default "" (Key "slack" "C1" "m1").
Definition person (account : string) : Source := MkSource account "" "".
Definition said (event message text : string) (intent : TicketIntent) : Claimed :=
  MkClaimed (MkArrival "slack" "C1" event message "U1" text "m1" "" "" (person "U1") (Some intent) "{}") "a" "" 1 "" "".
Definition first_message : Claimed := said "e1" "m1" "the printer is on fire"
  (MkTicketIntent key true (MkScope "acme" "ops") "triage" "bot" "bot:B1" false "" "" false false).
Definition correction : Claimed := said "e2" "m2" "it is the other printer"
  (MkTicketIntent key false zeroScope "" "" "" false "" "" false false).

Definition bound (connection account : string) : result PortError (option UserID) :=
  Ok (if String.eqb account "U1" then Some "ana" else None).

Definition handle (arrival : Claimed) (w : DoorWorld) : option (DoorWorld * result DoorError TicketResult) :=
  TicketHandler_Handle false (sec 3) (sec 3) Rooms.opener bound (fun _ _ => Ok ∅) (fun _ => Ok []) None (fun _ m => m) arrival w.

Definition world_of (r : option (DoorWorld * result DoorError TicketResult)) : DoorWorld :=
  match r with Some (w, _) => w | None => MkDoorWorld NewMemoryContent NewTicketMemory NewMemory end.
Definition tickets_of (r : ran answer) (m : TicketMemory) : TicketMemory := match r with Done _ m' => m' | Panicked => m end.

Definition quiet : DoorWorld := MkDoorWorld NewMemoryContent NewTicketMemory waiting.
Definition opened_desk : DoorWorld := world_of (handle first_message quiet).

(** The agent asks to publish an answer, on the run of [waiting]. *)
Definition snapshot : ContentRef := MkContentRef "s" "d".
Definition asking (w : DoorWorld) : DoorWorld :=
  let m1 := tickets_of (RecordInspection false (MkInspectionInput (MkTicketRef key 1) snapshot (sec 4)) (dw_tickets w)) (dw_tickets w) in
  w <| dw_tickets := tickets_of (AwaitApproval false (MkApprovalInput (MkTicketRef key 1) "run-1" 2 snapshot (sec 5)) m1) m1 |>.

(** The ticket as its requester's next message leaves it, before its revision
    is opened; the ledger holds the run that asks and nothing else. *)
Definition corrected : DoorWorld :=
  let w := asking opened_desk in
  let '(c, raw) := MemoryContent_PutFor (dw_content w) false (sec 6) "ticket" key 2 "{}" in
  let draft := MkContentRef (match raw with Ok r => r | Err _ => "" end) (ResultDigest "{}") in
  w <| dw_content := c |> <| dw_ledger := waiting |>
    <| dw_tickets := tickets_of (Revise false (MkReviseInput (MkTicketRef key 1) false "e2" "ana" draft (sec 6)) (dw_tickets w)) (dw_tickets w) |>.
Definition held : Ticket := default zeroTicket (tm_tickets (dw_tickets corrected) !! key).
Definition revising : option (DoorWorld * result DoorError TicketResult) :=
  openRevision false (sec 7) (sec 7) Rooms.opener held (Tk_Current held) corrected.

(** The run an answer names. *)
Definition run_of (r : option (DoorWorld * result DoorError TicketResult)) : option RunID :=
  match r with Some (_, Ok r) => Some (Tt_RunID r) | _ => None end.
Definition correction_run : RunID := Eval vm_compute in default "" (run_of (handle correction (asking opened_desk))).
Definition revising_run : RunID := Eval vm_compute in default "" (run_of revising).
End Desk.

Lemma run_of_Some r run : Desk.run_of r = Some run -> exists w t, r = Some (w, Ok t) /\ Tt_RunID t = run.
Proof. unfold Desk.run_of. intros. repeat case_match; naive_solver. Qed.


Lemma old_questions_are_withdrawn_witness :
  exists w r, Desk.revising = Some (w, Ok r) /\ Tt_RunID r = Desk.revising_run /\
    MkTicketRef Desk.key 1 ∈ tm_superseded (dw_tickets w) /\
    unanswerable (H := ascii_unicode) (dw_ledger w) (MkApproval "run-1" 2 Desk.snapshot).
Proof.
  destruct (run_of_Some Desk.revising Desk.revising_run) as (w & r & E & R); [vm_compute; reflexivity|].
  exists w, r. split; [exact E|]. split; [exact R|].
  destruct (old_questions_are_withdrawn (H := ascii_unicode) false (sec 7) (sec 7) Rooms.opener Desk.held (Tk_Current Desk.held)
    Desk.corrected w r) as (_ & _ & _ & W); [apply waiting_reachable|exact E|rewrite R; discriminate|].
  destruct (W 1%Z (default zeroRevision (revision_at (dw_tickets Desk.corrected) (MkTicketRef Desk.key 1)))
    (MkApproval "run-1" 2 Desk.snapshot)) as [M U]; [vm_compute; split; [discriminate|reflexivity]|vm_compute; reflexivity..|].
  split; [exact M|]. apply U. vm_compute. discriminate.
Defined.

Definition first_words : string :=
  match firstTicketDraft "m1" "ana" " the printer is on fire " with Ok raw => raw | Err _ => "" end.

Lemma ticket_words_accumulate_witness :
  exists raw, appendTicketDraft first_words "m2" "ana" "the other one" = Ok raw /\
    decodeTicketDraft raw = Ok (MkTicketDraft
      [MkTicketDraftMessage "m1" "ana" "the printer is on fire"; MkTicketDraftMessage "m2" "ana" "the other one"]).
Proof.
  destruct (appendTicketDraft first_words "m2" "ana" "the other one") as [raw|e] eqn:E; [|vm_compute in E; discriminate].
  exists raw. split; [reflexivity|].
  destruct (ticket_words_accumulate first_words "m2" "ana" "the other one" raw) as (d & D & R & _);
    [vm_compute; reflexivity..|exact E|].
  rewrite R. f_equal. f_equal. vm_compute in D. injection D as <-. vm_compute. reflexivity.
Defined.
