(* ===== verification/Announce.v ===== *)
(** * Telling people what happened

    The outbound half of src/internal/channel: channel.go, ports.go, deliveries.go,
    errors.go and refusal.go (what is said, where, and how saying it fails),
    [Configured.For] and [EnabledConnections] of configured.go, postgres.go (what
    is unreported and what was said), fanout.go, addressing.go, direct.go,
    owner.go, ticket_approvals.go, announce_answer.go and reporter.go (one
    sweep), cards.go and closer.go (closing cards), notice.go,
    ticket_outcomes.go and ticket_review_rooms.go; and the codes of
    src/internal/channelmetrics/metrics.go.

    Everything outside - the drivers, the configuration, the database being
    there, the clock - may answer differently every time it is asked: [Outside]
    is what it answers at one moment, and a sweep counts its moments. Texts of
    errors are left out; their codes are kept. The second half closes cards,
    chooses a driver (router.go) and says what tickets owe. *)

From Stdlib Require Import ZArith Lia Ascii String.
From stdpp Require Import base list strings gmap.
From S2P Require Import Prelude GoStrings Json Domain Step Payload State Ledger Ports Content MemoryTool Agent Ticket Channel Inbox TicketDoor Consumer.

Local Open Scope string_scope.

(** ** Events and places (channel.go) *)

Definition EventParked : string := "parked".
Definition EventFailed : string := "failed".
Definition EventGateRefusal : string := "gate_refusal".
Definition EventFinished : string := "finished".
Definition EventDrifted : string := "drifted".

Definition KnownEvent (e : string) : bool :=
  existsb (String.eqb e) [EventParked; EventFailed; EventFinished; EventDrifted].

Record Report := MkReport {
  Rp_RunID : RunID;
  Rp_AgentID : AgentID;
  Rp_Version : VersionID;
  Rp_Scope : Scope;
  Rp_Event : string;
  Rp_At : Time;
  Rp_Reason : string;
  Rp_Tool : string;
  Rp_AwaitingDecision : bool;
  Rp_AtSeq : Z;
  Rp_Ticket : TicketRef;
  Rp_Asked : bool;
  Rp_AskedChannel : string;
  Rp_AskedConversation : string;
  Rp_AskedThread : string
}.

Record Conversation := MkConversation {
  Co_Channel : string;
  Co_ID : string;
  Co_Thread : string;
  Co_Label : string;
  Co_Agent : AgentID;
  Co_FinishedAnswerOnly : bool;
  Co_FormattedAnswers : bool;
  Co_Wants : list string;
  Co_DirectApprovals : bool
}.

#[export] Instance Conversation_eq_dec : EqDecision Conversation.
Proof. solve_decision. Defined.
#[export] Instance Conversation_eta : Eta Conversation := fun c =>
  MkConversation (Co_Channel c) (Co_ID c) (Co_Thread c) (Co_Label c) (Co_Agent c) (Co_FinishedAnswerOnly c)
    (Co_FormattedAnswers c) (Co_Wants c) (Co_DirectApprovals c).

Definition zeroConversation : Conversation := MkConversation "" "" "" "" "" false false [] false.

Definition failedFamily (e : string) : string := if String.eqb e EventGateRefusal then EventFailed else "".

Definition wants (c : Conversation) (e : string) : bool :=
  let list_ := match Co_Wants c with [] => [EventParked; EventFailed; EventDrifted] | l => l end in
  existsb (fun want => String.eqb want e || String.eqb want (failedFamily e)) list_.

Definition Wants (list_ : list string) (e : string) : bool := wants (zeroConversation <| Co_Wants := list_ |>) e.

Definition reportsAgent (c : Conversation) (agent : AgentID) : bool :=
  String.eqb (Co_Agent c) "" || String.eqb agent "" || String.eqb (Co_Agent c) agent.

Record Message := MkMessage {
  Ms_Event : string;
  Ms_RunID : RunID;
  Ms_Agent : AgentID;
  Ms_Scope : Scope;
  Ms_Reason : string;
  Ms_Tool : string;
  Ms_AtSeq : Z;
  Ms_Link : string;
  Ms_AwaitingDecision : bool;
  Ms_Outcome : string;
  Ms_DecidedBy : UserID;
  Ms_Answer : string;
  Ms_Headline : string
}.

#[export] Instance Message_eta : Eta Message := fun m =>
  MkMessage (Ms_Event m) (Ms_RunID m) (Ms_Agent m) (Ms_Scope m) (Ms_Reason m) (Ms_Tool m) (Ms_AtSeq m) (Ms_Link m)
    (Ms_AwaitingDecision m) (Ms_Outcome m) (Ms_DecidedBy m) (Ms_Answer m) (Ms_Headline m).

Record Announcement := MkAnnouncement {
  An_RunID : RunID;
  An_Event : string;
  An_AtSeq : Z;
  An_Channel : string;
  An_Conversation : string
}.

#[export] Instance Announcement_eq_dec : EqDecision Announcement.
Proof. solve_decision. Defined.
#[export] Instance Announcement_countable : Countable Announcement.
Proof.
  refine (inj_countable' (fun a => (An_RunID a, An_Event a, An_AtSeq a, An_Channel a, An_Conversation a))
    (fun p => let '(r, e, s, c, v) := p in MkAnnouncement r e s c v) _).
  by intros [].
Defined.

Definition AnnouncementTo (r : Report) (place : Conversation) : Announcement :=
  MkAnnouncement (Rp_RunID r) (Rp_Event r) (Rp_AtSeq r) (Co_Channel place) (Co_ID place).

(** The shape "said everywhere" is filed under. *)
Definition everywhere (r : Report) : Announcement := MkAnnouncement (Rp_RunID r) (Rp_Event r) (Rp_AtSeq r) "" "".

(** ** Where conversations are configured (configured.go) *)

Definition configured_place (scope : Scope) (s : Setting) : option Conversation :=
  if negb (Se_Enabled s) || negb (Scope_Contains (Se_Scope s) scope) then None
  else match value_of s with
       | None => None
       | Some v =>
           match ConversationIDOf (Cv_KeyVersion v) (Cv_Channel v) (Se_Name s) with
           | None => None
           | Some id => Some (MkConversation (Cv_Channel v) id "" (Cv_Label v) (Cv_Agent v) (Cv_FinishedAnswerOnly v)
                                (Cv_FormattedAnswers v) (Cv_Wants v) (Cv_DirectApprovals v))
           end
       end.

(** No value is a failed read. *)
Definition Configured_For (stored : option (list Setting)) (scope : Scope) : option (list Conversation) :=
  match stored with None => None | Some rows => Some (omap (configured_place scope) rows) end.

Definition ScopeInstallation : string := "installation".

(** The rows of connections, each with the kind of scope it is stored under. *)
Definition EnabledConnections (stored : option (list (string * Setting))) : option (list string) :=
  match stored with
  | None => None
  | Some rows => Some (List.map (fun row => Se_Name (snd row))
      (List.filter (fun row => Se_Enabled (snd row) && String.eqb (fst row) ScopeInstallation &&
         bool_decide (Se_Scope (snd row) = zeroScope)) rows))
  end.

(** ** Failures (errors.go, refusal.go) *)

Definition CodeOther : string := "other".
Definition CodeNone : string := "none".
Definition CodeConfigurationReadFailed : string := "channel_configuration_read_failed".
Definition CodeConnectionDisabled : string := "channel_connection_disabled".
Definition CodeInvalidConfiguration : string := "channel_invalid_configuration".
Definition CodeMissingCredential : string := "channel_missing_credential".
Definition CodeUnsupportedKind : string := "channel_unsupported_kind".
Definition CodeDeliveryFailed : string := "channel_delivery_failed".
Definition CodeCredentialRejected : string := "channel_credential_rejected".
Definition CodeConversationUnavailable : string := "channel_conversation_unavailable".
Definition CodeMissingScope : string := "channel_missing_scope".
Definition CodeRateLimited : string := "channel_rate_limited".
Definition CodeTooManyRecipients : string := "channel_too_many_recipients".
Definition CodeUnsupportedCapability : string := "channel_unsupported_capability".
Definition CodeNoConnectionChosen : string := "channel_no_connection_chosen".
Definition CodeNamedNobodyWhoDecides : string := "channel_named_nobody_who_decides".
Definition CodeNobodyMayDecide : string := "channel_nobody_may_decide".
Definition CodeNobodyReachable : string := "channel_nobody_reachable".
Definition CodeNowhereToSayIt : string := "channel_nowhere_to_say_it".

Definition channel_codes : list string :=
  [CodeNone; CodeConfigurationReadFailed; CodeConnectionDisabled; CodeInvalidConfiguration; CodeMissingCredential;
   CodeUnsupportedKind; CodeDeliveryFailed; CodeCredentialRejected; CodeConversationUnavailable; CodeMissingScope;
   CodeRateLimited; CodeTooManyRecipients; CodeUnsupportedCapability; CodeNoConnectionChosen;
   CodeNamedNobodyWhoDecides; CodeNobodyMayDecide; CodeNobodyReachable; CodeNowhereToSayIt].

Definition MetricCode (code : string) : string := if existsb (String.eqb code) channel_codes then code else CodeOther.

(** An error as the package takes it apart: its own, one of another kind, one
    that wraps another, and several joined. *)
Inductive ChanError :=
| Coded (code : string)
| Uncoded
| Wrapping (e : ChanError)
| Joined (l : list ChanError).

Fixpoint collectFailureCodes (e : ChanError) : list string :=
  match e with
  | Coded code => [MetricCode (MetricCode code)]
  | Uncoded => [CodeOther]
  | Wrapping e => collectFailureCodes e
  | Joined l => List.concat (List.map collectFailureCodes l)
  end.

Definition FailureCodes (e : ChanError) : list string :=
  match collectFailureCodes e with [] => [CodeOther] | l => l end.

(** The first coded error [errors.As] finds. *)
Fixpoint coded_in (e : ChanError) : option string :=
  match e with
  | Coded code => Some code
  | Uncoded => None
  | Wrapping e => coded_in e
  | Joined l => (fix first (l : list ChanError) : option string :=
                   match l with
                   | [] => None
                   | e :: l' => match coded_in e with Some c => Some c | None => first l' end
                   end) l
  end.

Definition terminal_codes : list string :=
  [CodeMissingScope; CodeConversationUnavailable; CodeUnsupportedCapability; CodeTooManyRecipients; CodeNoConnectionChosen;
   CodeNamedNobodyWhoDecides].

Definition degrades (e : ChanError) : bool :=
  match coded_in e with Some code => existsb (String.eqb code) terminal_codes | None => false end.

(** [errors.Join]. *)
Definition errors_Join (l : list ChanError) : option ChanError := match l with [] => None | _ => Some (Joined l) end.

(** ** What was said (deliveries.go, postgres.go) *)

Record Placement := MkPlacement { Pl_Channel : string; Pl_Conversation : string; Pl_Ref : string }.

Record Delivery := MkDelivery { De_Announcement : Announcement; De_Ref : string; De_Placed : string; De_PostedAt : Time }.

Record DeliveryFailure := MkDeliveryFailure {
  Df_Announcement : Announcement;
  Df_ScopeWide : bool;
  Df_Code : string;
  Df_Scope : Scope;
  Df_AgentID : AgentID;
  Df_SeenAt : Time
}.

(** A row of channel_deliveries, by its key, and one of
    channel_delivery_failures, by its key and its code. *)
Record DeliveryRow := MkDeliveryRow { dr_ref : string; dr_placed_in : string; dr_posted_at : Time; dr_closed_at : option Time }.

Record FailureRow := MkFailureRow {
  fr_scope_wide : bool;
  fr_scope : Scope;
  fr_agent : AgentID;
  fr_attempts : Z;
  fr_first_seen : Time;
  fr_last_seen : Time
}.

Abbreviation Deliveries := (gmap Announcement DeliveryRow) (only parsing).
Abbreviation Failures := (gmap (Announcement * string) FailureRow) (only parsing).

(** [insert ... on conflict do nothing]. *)
Definition insert_delivery (a : Announcement) (row : DeliveryRow) (t : Deliveries) : Deliveries :=
  match t !! a with Some _ => t | None => <[a := row]> t end.

(** A delivery names a place, or it is refused: no value. *)
Definition Record_delivery (d : Delivery) (t : Deliveries) : option Deliveries :=
  let a := De_Announcement d in
  if String.eqb (An_Channel a) "" || String.eqb (An_Conversation a) "" then None
  else Some (insert_delivery a (MkDeliveryRow (De_Ref d) (De_Placed d) (De_PostedAt d) None) t).

(** A failure with no time of its own is given the process's. *)
Definition record_failure (now : Time) (t : Failures) (f : DeliveryFailure) : Failures :=
  let key := (Df_Announcement f, MetricCode (Df_Code f)) in
  let seen := if Time_IsZero (Df_SeenAt f) then now else Df_SeenAt f in
  match t !! key with
  | None => <[key := MkFailureRow (Df_ScopeWide f) (Df_Scope f) (Df_AgentID f) 1 seen seen]> t
  | Some row =>
      <[key := MkFailureRow (fr_scope_wide row || Df_ScopeWide f) (fr_scope row) (fr_agent row) (fr_attempts row + 1)
                 (Z.min (fr_first_seen row) seen) (Z.max (fr_last_seen row) seen)]> t
  end.

Definition RecordFailures (now : Time) (failures : list DeliveryFailure) (t : Failures) : Failures :=
  fold_left (record_failure now) failures t.

Definition Delivered (a : Announcement) (t : Deliveries) : bool := bool_decide (is_Some (t !! a)).

Definition Reported (r : Report) (at_ : Time) (t : Deliveries) : Deliveries :=
  insert_delivery (everywhere r) (MkDeliveryRow "" "" at_ None) t.

(** The latest message that was given a reference. *)
Definition posted_after (a b : Announcement * DeliveryRow) : bool := (dr_posted_at (snd b) <? dr_posted_at (snd a))%Z.

Definition AboutRun (t : Deliveries) (channel_ conversation ref : string) : option RunID :=
  if String.eqb channel_ "" || String.eqb conversation "" || String.eqb ref "" then None
  else match sort_by posted_after (List.filter (fun '(a, row) =>
               String.eqb (An_Channel a) channel_ && String.eqb (An_Conversation a) conversation && String.eqb (dr_ref row) ref)
             (map_to_list t)) with
       | (a, _) :: _ => Some (An_RunID a)
       | [] => None
       end.

(** *** What is owed *)

(** The columns of the table of runs that are read here. *)
Record RunRow := MkRunRow {
  rr_run : RunID;
  rr_agent : AgentID;
  rr_version : VersionID;
  rr_scope : Scope;
  rr_phase : string;
  rr_updated_at : Time;
  rr_pending_tool : option string;
  rr_pending_reason : option string;
  rr_failure_code : option string;
  rr_pending_at_seq : option Z;
  rr_last_seq : Z;
  rr_ticket : TicketRef;
  rr_simulated : bool
}.

(** [phases]. *)
Definition phase_event (phase : string) : option string :=
  if String.eqb phase "awaiting_approval" then Some EventParked
  else if String.eqb phase "parked" then Some EventParked
  else if String.eqb phase "failed" then Some EventFailed
  else if String.eqb phase "finished" then Some EventFinished
  else None.

Definition announcementSeq (r : RunRow) : Z :=
  if String.eqb (rr_phase r) "awaiting_approval" then default (rr_last_seq r) (rr_pending_at_seq r)
  else if String.eqb (rr_phase r) "parked" then rr_last_seq r
  else 0.

Definition minute : Z := 60 * 1000000000.

(** The wait after the [attempts]-th failure of one cause. *)
Definition backoff (unconfigured : bool) (attempts : Z) : Duration :=
  if unconfigured then Z.min (6 * 60 * minute) (15 * minute * 2 ^ Z.min (attempts - 1) 5)
  else Z.min (2 * 60 * minute) (minute * 2 ^ Z.min (attempts - 1) 7).

(** What went wrong last about one announcement: when, how often, and whether
    nothing was configured to hear it. *)
Record Tried := MkTried { tr_last_seen : Time; tr_attempts : Z; tr_unconfigured : bool }.

Definition later_failure (x y : (Announcement * string) * FailureRow) : bool :=
  let a := snd x in let b := snd y in
  ((fr_last_seen b <? fr_last_seen a) || ((fr_last_seen b =? fr_last_seen a) && (fr_attempts b <? fr_attempts a)))%Z.

Definition tried (t : Failures) (run : RunID) (event : string) (at_seq : Z) : option Tried :=
  match sort_by later_failure (List.filter (fun '((a, _), _) =>
          String.eqb (An_RunID a) run && String.eqb (An_Event a) event && Z.eqb (An_AtSeq a) at_seq) (map_to_list t)) with
  | ((_, code), row) :: _ => Some (MkTried (fr_last_seen row) (fr_attempts row) (String.eqb code CodeNowhereToSayIt))
  | [] => None
  end.

Definition nextAttempt (t : Tried) : Time := (tr_last_seen t + backoff (tr_unconfigured t) (tr_attempts t))%Z.

Definition due (now : Time) (t : option Tried) : bool :=
  match t with None => true | Some t => (nextAttempt t <=? now)%Z end.

(** The ask that opened the run, if one did: the first by its event. *)
Definition event_before (a b : InboxRow) : bool :=
  negb (String.leb (Av_EventID (ib_arrival b)) (Av_EventID (ib_arrival a))).

Definition asked_for (inbox : Inbox) (run : RunID) : option InboxRow :=
  hd_error (sort_by event_before (List.filter (fun i => String.eqb (ib_run i) run) inbox)).

Definition first_present (l : list (option string)) : string :=
  default "" (hd_error (omap (fun o => match o with Some s => if String.eqb s "" then None else Some s | None => None end) l)).

Definition report_of (inbox : Inbox) (r : RunRow) (event : string) : Report :=
  let asked := asked_for inbox (rr_run r) in
  let column (f : Arrival -> string) := match asked with Some i => f (ib_arrival i) | None => "" end in
  MkReport (rr_run r) (rr_agent r) (rr_version r) (rr_scope r) event (rr_updated_at r)
    (first_present [rr_pending_reason r; rr_failure_code r]) (default "" (rr_pending_tool r))
    (String.eqb (rr_phase r) "awaiting_approval") (announcementSeq r) (rr_ticket r)
    (bool_decide (is_Some asked)) (column Av_Channel) (column Av_Conversation) (column Av_Thread).

Definition owed_report (dbnow since : Time) (d : Deliveries) (f : Failures) (inbox : Inbox) (r : RunRow)
    : option (Report * option Tried) :=
  match phase_event (rr_phase r) with
  | None => None
  | Some event =>
      let report := report_of inbox r event in
      let before := tried f (rr_run r) event (announcementSeq r) in
      if rr_simulated r || (rr_updated_at r <? since)%Z || Delivered (everywhere report) d || negb (due dbnow before)
      then None else Some (report, before)
  end.

(** What has not been tried comes first, then what was tried longest ago. *)
Definition tried_before (x y : Report * option Tried) : bool :=
  let last (t : option Tried) := match t with Some t => tr_last_seen t | None => unix_epoch end in
  let a := last (snd x) in let b := last (snd y) in
  ((a <? b) || ((a =? b) && (Rp_At (fst y) <? Rp_At (fst x))))%Z.

Definition Unreported (runs : list RunRow) (inbox : Inbox) (dbnow : Time) (d : Deliveries) (f : Failures) (since : Time)
    (limit : nat) : list Report :=
  List.map fst (take limit (sort_by tried_before (omap (owed_report dbnow since d f inbox) runs))).

(** ** One sweep and what lies outside it *)

(** What everything outside answers at one moment. A driver that cannot say
    where it put a message answers only its reference. *)
Record Outside := MkOutside {
  ou_now : Time;
  (** Whether the database answers, and its clock. *)
  ou_database : bool;
  ou_dbnow : Time;
  ou_runs : list RunRow;
  ou_inbox : Inbox;
  ou_post : Conversation -> Message -> result ChanError (option string * string);
  ou_conversations : Scope -> result ChanError (list Conversation);
  ou_approversIn : Scope -> result ChanError (list UserID);
  ou_decidersIn : Scope -> result ChanError (list UserID);
  ou_accountsOn : string -> list UserID -> result ChanError (gmap UserID string);
  ou_policy : AgentID -> VersionID -> result ChanError ApprovalPolicy;
  ou_connections : result ChanError (list string);
  ou_route : TicketRef -> result ChanError ApprovalRoute;
  ou_outcome : RunID -> result ChanError RunFinishedPayload;
  ou_content : string -> result ContentError string
}.

(** Which of its ports a reporter was given. *)
Record Reporter := MkReporter {
  ro_outside : nat -> Outside;
  ro_direct : bool;
  ro_owner : bool;
  ro_tickets : bool;
  ro_outcomes : bool;
  ro_baseURL : string
}.

(** *** What a sweep remembers (fanout.go) *)

#[export] Instance Scope_countable : Countable Scope.
Proof. refine (inj_countable' (fun s => (Company s, Area s)) (fun p => MkScope p.1 p.2) _). by intros []. Defined.

Record fanout := MkFanout {
  fo_byScope : gmap Scope (result ChanError (list UserID));
  fo_mayDecide : gmap Scope (result ChanError (list UserID));
  fo_byChannel : gmap string (gmap UserID string);
  fo_failedChannel : gmap string ChanError;
  fo_connection : string;
  fo_askedConnections : bool;
  fo_connectionsErr : option ChanError;
  fo_byVersion : gmap (AgentID * VersionID) (result ChanError ApprovalPolicy);
  fo_byTicket : gmap TicketRef (result ChanError ApprovalRoute)
}.

#[export] Instance fanout_eta : Eta fanout := fun f =>
  MkFanout (fo_byScope f) (fo_mayDecide f) (fo_byChannel f) (fo_failedChannel f) (fo_connection f) (fo_askedConnections f)
    (fo_connectionsErr f) (fo_byVersion f) (fo_byTicket f).

Definition newFanout : fanout := MkFanout ∅ ∅ ∅ ∅ "" false None ∅ ∅.

(** A message that reached a driver: what it was owed for, where it was
    addressed and what it said. *)
Record Posted := MkPosted { po_owed : Announcement; po_place : Conversation; po_message : Message }.

Record Stage := MkStage {
  sg_deliveries : Deliveries;
  sg_failures : Failures;
  sg_posted : list Posted;
  sg_pass : fanout;
  (** How many answers from outside were used. *)
  sg_moment : nat
}.

#[export] Instance Stage_eta : Eta Stage := fun s =>
  MkStage (sg_deliveries s) (sg_failures s) (sg_posted s) (sg_pass s) (sg_moment s).

Definition announcing (A : Type) : Type := Stage -> Stage * A.

#[export] Instance announcing_ret : MRet announcing := fun A a s => (s, a).
#[export] Instance announcing_bind : MBind announcing := fun A B f m s => let '(s', a) := m s in f a s'.

Definition in_pass {A} (f : fanout -> A) : announcing A := fun s => (s, f (sg_pass s)).
Definition set_pass (f : fanout -> fanout) : announcing unit := fun s => (s <| sg_pass := f (sg_pass s) |>, tt).

(** [refusal]: what holds the run open, and what is written down. *)
Definition refusal : Type := list ChanError * list DeliveryFailure.
Definition no_refusal : refusal := ([], []).

(** *** What is said (announce_answer.go) *)

Definition MaxAnnouncedHeadline : nat := 300.
Definition MaxAnnouncedAnswer : nat := 2800.
Definition truncationNotice : string := bytes_str [10; 10] +:+ "_(truncated " +:+ utf8 8212%N +:+ " the full answer is in the console)_".

(** [utf8.RuneStart]. *)
Definition rune_start (c : ascii) : bool := negb (N.eqb (N.land (byte_of c) 192) 128).

(** The cut moved back to where a rune begins. *)
Fixpoint rune_cut (cut : nat) (s : string) : nat :=
  match cut with
  | O => O
  | S before => match String.get cut s with
                | Some c => if rune_start c then cut else rune_cut before s
                | None => cut
                end
  end.

Definition truncateHeadline (line : string) : string :=
  if (String.length line <=? MaxAnnouncedHeadline)%nat then line else take_bytes (rune_cut MaxAnnouncedHeadline line) line.

Definition truncateAnswer (text : string) : string :=
  if (String.length text <=? MaxAnnouncedAnswer)%nat then text
  else take_bytes (rune_cut (MaxAnnouncedAnswer - String.length truncationNotice) text) text +:+ truncationNotice.

Section Reporting.
Context (r : Reporter).

Definition outside {A} (f : Outside -> A) : announcing A := fun s =>
  (s <| sg_moment := S (sg_moment s) |>, f (ro_outside r (sg_moment s))).

(** A statement of the database: no value when it does not answer. *)
Definition database {A} (f : Outside -> Stage -> Stage * A) : announcing (option A) := fun s =>
  let o := ro_outside r (sg_moment s) in
  let s := s <| sg_moment := S (sg_moment s) |> in
  if ou_database o then let '(s', a) := f o s in (s', Some a) else (s, None).

(** *** Who and where (fanout.go, addressing.go) *)

Definition config_failed {A} (x : result ChanError A) : result ChanError A :=
  match x with Ok a => Ok a | Err _ => Err (Coded CodeConfigurationReadFailed) end.

Definition whoDecides (scope : Scope) : announcing (result ChanError (list UserID)) :=
  before ← in_pass (fun f => fo_byScope f !! scope);
  match before with
  | Some held => mret held
  | None => who ← outside (fun o => config_failed (ou_approversIn o scope));
            _ ← set_pass (fun f => f <| fo_byScope := <[scope := who]> (fo_byScope f) |>); mret who
  end.

Definition whoMayDecide (scope : Scope) : announcing (result ChanError (list UserID)) :=
  before ← in_pass (fun f => fo_mayDecide f !! scope);
  match before with
  | Some held => mret held
  | None => who ← outside (fun o => config_failed (ou_decidersIn o scope));
            _ ← set_pass (fun f => f <| fo_mayDecide := <[scope := who]> (fo_mayDecide f) |>); mret who
  end.

Definition policyFor (report : Report) : announcing (result ChanError ApprovalPolicy) :=
  let key := (Rp_AgentID report, Rp_Version report) in
  before ← in_pass (fun f => fo_byVersion f !! key);
  match before with
  | Some held => mret held
  | None => policy ← outside (fun o => config_failed (ou_policy o (Rp_AgentID report) (Rp_Version report)));
            _ ← set_pass (fun f => f <| fo_byVersion := <[key := policy]> (fo_byVersion f) |>); mret policy
  end.

Definition decidersAmong (scope : Scope) (only : list UserID) : announcing (result ChanError (list UserID)) :=
  match only with
  | [] => whoDecides scope
  | _ =>
      who ← whoMayDecide scope;
      mret (match who with
            | Err e => Err e
            | Ok who => Ok (List.filter (fun one => existsb (String.eqb one) only) who)
            end)
  end.

(** People looked up on a connection are remembered, whether or not they were found. *)
Definition remember_accounts (missing : list UserID) (found_ : gmap UserID string) (known : gmap UserID string) : gmap UserID string :=
  fold_left (fun known one => <[one := default "" (found_ !! one)]> known) missing known.

Definition whereReachable (channelName : string) (who : list UserID) : announcing (result ChanError (gmap UserID string)) :=
  known ← in_pass (fun f => default ∅ (fo_byChannel f !! channelName));
  let missing_ := List.filter (fun one => negb (bool_decide (is_Some (known !! one)))) who in
  match missing_ with
  | [] => mret (Ok known)
  | _ =>
      failed ← in_pass (fun f => fo_failedChannel f !! channelName);
      match failed with
      | Some e => mret (Err e)
      | None =>
          found_ ← outside (fun o => config_failed (ou_accountsOn o channelName missing_));
          match found_ with
          | Err e => _ ← set_pass (fun f => f <| fo_failedChannel := <[channelName := e]> (fo_failedChannel f) |>); mret (Err e)
          | Ok found_ =>
              let known := remember_accounts missing_ found_ known in
              _ ← set_pass (fun f => f <| fo_byChannel := <[channelName := known]> (fo_byChannel f) |>); mret (Ok known)
          end
      end
  end.

Definition MaxDirectRecipients : nat := 20.

Definition private_place (place : Conversation) (account : string) : Conversation :=
  MkConversation (Co_Channel place) account "" account "" false false (Co_Wants place) true.

(** No value when there are more than one approval should reach. *)
Definition reachable (place : Conversation) (who : list UserID) : announcing (result ChanError (option (list Conversation))) :=
  where_ ← whereReachable (Co_Channel place) who;
  mret (match where_ with
        | Err e => Err e
        | Ok where_ =>
            let to := List.map (private_place place)
              (List.filter (fun account => negb (String.eqb account "")) (List.map (fun one => default "" (where_ !! one)) who)) in
            Ok (if (MaxDirectRecipients <? List.length to)%nat then None else Some to)
        end).

Definition recipients (report : Report) (place : Conversation) : announcing (result ChanError (option (list Conversation))) :=
  who ← whoDecides (Rp_Scope report);
  match who with
  | Err e => mret (Err e)
  | Ok [] => mret (Ok (Some []))
  | Ok who => reachable place who
  end.

(** What the rooms say about the workspace: no value when they say nothing. *)
Fixpoint connection_among (named : string) (places : list Conversation) : option string :=
  match places with
  | [] => if String.eqb named "" then None else Some named
  | place :: more =>
      if String.eqb (Co_Channel place) "" || String.eqb (Co_Channel place) named then connection_among named more
      else if negb (String.eqb named "") then Some ""
      else connection_among (Co_Channel place) more
  end.

Definition connectionAmong (places : list Conversation) : option string := connection_among "" places.

Definition speakingConnection (places : list Conversation) : announcing (result ChanError string) :=
  match connectionAmong places with
  | Some named => mret (Ok named)
  | None =>
      asked ← in_pass fo_askedConnections;
      _ ← (if (asked : bool) then mret tt
           else enabled ← outside ou_connections;
                set_pass (fun f =>
                  let f := f <| fo_askedConnections := true |> in
                  match enabled with
                  | Err _ => f <| fo_connectionsErr := Some (Coded CodeConfigurationReadFailed) |>
                  | Ok [one] => f <| fo_connection := one |>
                  | Ok _ => f
                  end));
      in_pass (fun f => match fo_connectionsErr f with Some e => Err e | None => Ok (fo_connection f) end)
  end.

(** *** Where a ticket is worked (ticket_approvals.go) *)

Definition ticketApproval (report : Report) : bool :=
  TicketRef_Valid (Rp_Ticket report) && String.eqb (Rp_Event report) EventParked && Rp_AwaitingDecision report &&
  (0 <? Rp_AtSeq report)%Z.

Definition ticketReport (report : Report) : bool := TicketRef_Valid (Rp_Ticket report).

Definition ticketRoute (report : Report) : announcing (result ChanError ApprovalRoute) :=
  before ← in_pass (fun f => fo_byTicket f !! Rp_Ticket report);
  match before with
  | Some held => mret held
  | None =>
      route ← (if ro_tickets r
               then outside (fun o => match ou_route o (Rp_Ticket report) with
                                      | Ok route => if Origin_Valid (AR_Origin route) then Ok route else Err Uncoded
                                      | Err e => Err e
                                      end)
               else mret (Err Uncoded));
      _ ← set_pass (fun f => f <| fo_byTicket := <[Rp_Ticket report := route]> (fo_byTicket f) |>); mret route
  end.

(** The support thread, or the room; no value while the room has no thread. *)
Definition ticketRoom (route : ApprovalRoute) : option Origin :=
  if String.eqb (RR_Conversation (AR_Review route)) "" then Some (AR_Origin route)
  else if negb (ReviewRoom_Open (AR_Review route)) then None
  else Some (MkOrigin (O_Connection (AR_Origin route)) (RR_Conversation (AR_Review route)) (RR_Root (AR_Review route))).

Definition room_place (report : Report) (room : Origin) : Conversation :=
  MkConversation (O_Connection room) (O_Conversation room) (O_Root room) (O_Conversation room) "" false false [Rp_Event report] false.

(** No value is [errReviewPending]. *)
Definition ticketPlaces (report : Report) (places : list Conversation) : announcing (result ChanError (option (list Conversation))) :=
  if negb (ticketReport report) then mret (Ok (Some places))
  else
    route ← ticketRoute report;
    mret (match route with
          | Err e => Err e
          | Ok route => match ticketRoom route with
                        | None => Ok None
                        | Some room => Ok (Some [room_place report room])
                        end
          end).

Definition isTicketRoom (report : Report) (place : Conversation) (f : fanout) : bool :=
  ticketApproval report &&
  match fo_byTicket f !! Rp_Ticket report with
  | Some (Ok route) =>
      match ticketRoom route with
      | Some room => String.eqb (Co_Channel place) (O_Connection room) && String.eqb (Co_ID place) (O_Conversation room) &&
                     String.eqb (Co_Thread place) (O_Root room)
      | None => false
      end
  | _ => false
  end.

(** *** One message *)

(** A reference in the content store, or the words themselves. *)
Definition read_words (ref inline : string) : announcing (result ContentError string) :=
  if String.eqb ref "" then mret (Ok inline) else outside (fun o => ou_content o ref).

Definition answerFor (report : Report) : announcing (string * string) :=
  if negb (String.eqb (Rp_Event report) EventFinished) || Rp_Asked report || negb (ro_outcomes r) then mret ("", "")
  else
    payload ← outside (fun o => ou_outcome o (Rp_RunID report));
    match payload with
    | Err _ => mret ("", "")
    | Ok payload =>
        text ← read_words (RF_OutcomeRef payload) (RF_Outcome payload);
        match text with
        | Err (ErrContentErased _) => mret (erasedAnswer, "")
        | Err _ => mret ("", "")
        | Ok text =>
            headline ← read_words (RF_HeadlineRef payload) "";
            mret (truncateAnswer text, truncateHeadline (match headline with Ok h => h | Err _ => "" end))
        end
    end.

Definition run_link (baseURL : string) (run : RunID) : string :=
  if String.eqb baseURL "" then "" else baseURL +:+ "/runs/" +:+ run.

Definition message (report : Report) : announcing Message :=
  said ← answerFor report;
  mret (MkMessage (Rp_Event report) (Rp_RunID report) (Rp_AgentID report) (Rp_Scope report) (Rp_Reason report) (Rp_Tool report)
    (Rp_AtSeq report) (run_link (ro_baseURL r) (Rp_RunID report)) (Rp_AwaitingDecision report) "" "" (fst said) (snd said)).

(** [placed] (direct.go): a driver is handed the message, and says where it
    went, or is taken at its word that the address is the place. *)
Definition placed (owed : Announcement) (c : Conversation) (m : Message) : announcing (result ChanError Placement) := fun s =>
  let o := ro_outside r (sg_moment s) in
  (s <| sg_moment := S (sg_moment s) |> <| sg_posted := (sg_posted s ++ [MkPosted owed c m])%list |>,
   match ou_post o c m with
   | Ok (said, ref) => Ok (MkPlacement (Co_Channel c) (default (Co_ID c) said) ref)
   | Err e => Err e
   end).

Definition record (owed : Announcement) (at_ : Placement) : announcing (result ChanError bool) :=
  now ← outside ou_now;
  let d := MkDelivery owed (Pl_Ref at_) (Pl_Conversation at_) now in
  if String.eqb (An_Channel owed) "" || String.eqb (An_Conversation owed) "" then mret (Err (Wrapping Uncoded))
  else
    kept ← database (fun _ s => (s <| sg_deliveries := default (sg_deliveries s) (Record_delivery d (sg_deliveries s)) |>, tt));
    mret (match kept with Some _ => Ok true | None => Err (Wrapping Uncoded) end).

Definition postHeadlined (owed : Announcement) (place : Conversation) (msg : Message) : announcing (result ChanError bool) :=
  at_ ← placed owed place (msg <| Ms_Answer := Ms_Headline msg |> <| Ms_Headline := "" |>);
  match at_ with
  | Err e => mret (Err (Wrapping e))
  | Ok at_ =>
      body ← placed owed (place <| Co_Thread := Pl_Ref at_ |>) (msg <| Ms_Headline := "" |>);
      match body with Err e => mret (Err (Wrapping e)) | Ok _ => record owed at_ end
  end.

(** Whether a message left now; one that left before is not sent again. *)
Definition post (report : Report) (place : Conversation) (msg : Message) : announcing (result ChanError bool) :=
  let owed := AnnouncementTo report place in
  said ← database (fun _ s => (s, Delivered owed (sg_deliveries s)));
  match said with
  | None => mret (Err (Wrapping Uncoded))
  | Some true => mret (Ok false)
  | Some false =>
      if negb (String.eqb (Ms_Headline msg) "") && negb (String.eqb (Ms_Answer msg) "") then postHeadlined owed place msg
      else
        at_ ← placed owed place msg;
        match at_ with Err e => mret (Err (Wrapping e)) | Ok at_ => record owed at_ end
  end.

(** *** What could not be said (reporter.go, refusal.go) *)

Fixpoint failures_of (report : Report) (place : Conversation) (codes : list string) : announcing (list DeliveryFailure) :=
  match codes with
  | [] => mret []
  | code :: more =>
      now ← outside ou_now;
      rest ← failures_of report place more;
      mret (MkDeliveryFailure (AnnouncementTo report place) (String.eqb (Co_ID place) "") code (Rp_Scope report) (Rp_AgentID report) now :: rest)
  end.

Definition failuresFor (report : Report) (place : Conversation) (cause : ChanError) : announcing (list DeliveryFailure) :=
  failures_of report place (FailureCodes cause).

Definition recordFailures (failures : list DeliveryFailure) : announcing (option ChanError) :=
  match failures with
  | [] => mret None
  | _ => kept ← database (fun o s => (s <| sg_failures := RecordFailures (ou_now o) failures (sg_failures s) |>, tt));
         mret (match kept with Some _ => None | None => Some (Wrapping Uncoded) end)
  end.

Definition refuse (report : Report) (place : Conversation) (code : string) : announcing refusal :=
  recorded ← failuresFor report place (Coded code); mret ([], recorded).

(** This side being unavailable: kept, and written down. *)
Definition unavailable (report : Report) (place : Conversation) (e : ChanError) : announcing refusal :=
  recorded ← failuresFor report place e; mret ([e], recorded).

(** *** Telling people privately (direct.go, owner.go, ticket_approvals.go) *)

(** One message for every recipient: how many left, how many have it, and what
    could not be done. *)
Fixpoint tell_each (report : Report) (msg : Message) (to : list Conversation) : announcing (Z * Z * refusal) :=
  match to with
  | [] => mret (0%Z, 0%Z, no_refusal)
  | person :: more =>
      posted ← post report person msg;
      match posted with
      | Err e =>
          recorded ← failuresFor report person e;
          rest ← tell_each report msg more;
          let '(sent, has, (blocking, noted)) := rest in
          mret (sent, has, ((if degrades e then blocking else Wrapping e :: blocking), (recorded ++ noted)%list))
      | Ok left_ =>
          rest ← tell_each report msg more;
          let '(sent, has, refused) := rest in
          mret ((if left_ : bool then sent + 1 else sent)%Z, (has + 1)%Z, refused)
      end
  end.

Definition wanted (report : Report) (place : Conversation) : bool :=
  ro_direct r && negb (TicketRef_Valid (Rp_Ticket report)) && Co_DirectApprovals place && Rp_AwaitingDecision report &&
  (0 <? Rp_AtSeq report)%Z.

Definition direct (report : Report) (place : Conversation) : announcing (Z * refusal) :=
  if negb (wanted report place) then mret (0%Z, no_refusal)
  else
    to ← recipients report place;
    match to with
    | Err e => refused ← unavailable report place e; mret (0%Z, refused)
    | Ok None => refused ← refuse report place CodeTooManyRecipients; mret (0%Z, refused)
    | Ok (Some to) =>
        msg ← message report;
        told ← tell_each report msg to;
        let '(sent, _, refused) := told in mret (sent, refused)
    end.

Definition speaking_place (channel_ : string) : Conversation := zeroConversation <| Co_Channel := channel_ |> <| Co_DirectApprovals := true |>.

Definition directForTicket (report : Report) : announcing (Z * refusal) :=
  route ← ticketRoute report;
  match route with
  | Err e => refused ← unavailable report zeroConversation e; mret (0%Z, refused)
  | Ok route =>
      match AR_Recipients route with
      | [] => mret (0%Z, no_refusal)
      | named =>
          let place := speaking_place (O_Connection (AR_Origin route)) in
          who ← decidersAmong (Rp_Scope report) named;
          match who with
          | Err e => refused ← unavailable report place e; mret (0%Z, refused)
          | Ok [] => refused ← refuse report place CodeNamedNobodyWhoDecides; mret (0%Z, refused)
          | Ok who =>
              to ← reachable place who;
              match to with
              | Err e => refused ← unavailable report place e; mret (0%Z, refused)
              | Ok None => refused ← refuse report place CodeTooManyRecipients; mret (0%Z, refused)
              | Ok (Some []) => refused ← refuse report place CodeNobodyReachable; mret (0%Z, refused)
              | Ok (Some to) =>
                  msg ← message report;
                  told ← tell_each report msg to;
                  let '(sent, _, refused) := told in mret (sent, refused)
              end
          end
      end
  end.

Definition wantsOwnApprovals (report : Report) : bool :=
  ro_owner r && ro_direct r && negb (TicketRef_Valid (Rp_Ticket report)) && Rp_AwaitingDecision report &&
  (0 <? Rp_AtSeq report)%Z.

(** How many left, whether anybody has it, and what could not be done. *)
Definition directForOwner (report : Report) (places : list Conversation) : announcing (Z * Z * refusal) :=
  let nobody (p : announcing refusal) : announcing (Z * Z * refusal) := refused ← p; mret (0%Z, 0%Z, refused) in
  if negb (wantsOwnApprovals report) then mret (0%Z, 0%Z, no_refusal)
  else
    policy ← policyFor report;
    match policy with
    | Err e => nobody (unavailable report zeroConversation e)
    | Ok policy =>
        if negb (Ay_Direct policy) then mret (0%Z, 0%Z, no_refusal)
        else
          from ← speakingConnection places;
          match from with
          | Err e => nobody (unavailable report zeroConversation e)
          | Ok from =>
              if String.eqb from "" then nobody (refuse report zeroConversation CodeNoConnectionChosen)
              else
                let place := speaking_place from in
                who ← decidersAmong (Rp_Scope report) (Ay_Notify policy);
                match who with
                | Err e => nobody (unavailable report place e)
                | Ok [] => nobody (refuse report place
                             (match Ay_Notify policy with [] => CodeNobodyMayDecide | _ => CodeNamedNobodyWhoDecides end))
                | Ok who =>
                    to ← reachable place who;
                    match to with
                    | Err e => nobody (unavailable report place e)
                    | Ok None => nobody (refuse report place CodeTooManyRecipients)
                    | Ok (Some to) =>
                        msg ← message report;
                        told ← tell_each report msg to;
                        let '(sent, has, refused) := told in
                        match to with
                        | [] => nobody (refuse report place CodeNobodyReachable)
                        | _ => mret (if (has =? 0)%Z then (0%Z, 0%Z, refused) else (sent, 1%Z, refused))
                        end
                    end
                end
          end
    end.

(** *** Telling a room, and everybody (direct.go, reporter.go) *)

Definition tell (report : Report) (place : Conversation) (msg : Message) : announcing (Z * refusal) :=
  posted ← post report place msg;
  match posted with
  | Err e => refused ← unavailable report place e; mret (0%Z, refused)
  | Ok left_ =>
      ticket_room ← in_pass (isTicketRoom report place);
      private ← (if ticket_room : bool then directForTicket report else direct report place);
      mret (((if left_ : bool then 1 else 0) + fst private)%Z, snd private)
  end.

Definition threadedPlaces (report : Report) (places : list Conversation) : list Conversation :=
  if String.eqb (Rp_AskedThread report) "" then places
  else List.map (fun place =>
         if String.eqb (Co_Channel place) (Rp_AskedChannel report) && String.eqb (Co_ID place) (Rp_AskedConversation report)
         then place <| Co_Thread := Rp_AskedThread report |> else place) places.

Definition quietFinish (place : Conversation) (report : Report) (msg : Message) : bool :=
  Co_FinishedAnswerOnly place && String.eqb (Rp_Event report) EventFinished && String.eqb (Ms_Answer msg) "".

(** Whether a conversation is owed a message about this. *)
Definition hears (report : Report) (place : Conversation) : bool :=
  wants place (Rp_Event report) && reportsAgent place (Rp_AgentID report).

(** How many left, how many were owed one, and what could not be done. *)
Fixpoint tell_rooms (report : Report) (msg : Message) (places : list Conversation) : announcing (Z * Z * refusal) :=
  match places with
  | [] => mret (0%Z, 0%Z, no_refusal)
  | place :: more =>
      if negb (hears report place) then tell_rooms report msg more
      else if quietFinish place report msg then
        rest ← tell_rooms report msg more;
        let '(sent, told, refused) := rest in mret (sent, (told + 1)%Z, refused)
      else
        here ← tell report place msg;
        rest ← tell_rooms report msg more;
        let '(sent, told, refused) := rest in
        mret ((fst here + sent)%Z, (told + 1)%Z,
              ((fst (snd here) ++ fst refused)%list, (snd (snd here) ++ snd refused)%list))
  end.

(** Configuration that could not be read, with the record of it. *)
Definition unread (report : Report) : announcing (Z * Z * option ChanError) :=
  let e := Coded CodeConfigurationReadFailed in
  failures ← failuresFor report zeroConversation e;
  kept ← recordFailures failures;
  mret (0%Z, 0%Z, errors_Join (e :: match kept with Some e' => [e'] | None => [] end)).

Definition announce (report : Report) : announcing (Z * Z * option ChanError) :=
  places ← outside (fun o => ou_conversations o (Rp_Scope report));
  match places with
  | Err _ => unread report
  | Ok places =>
      routed ← ticketPlaces report (threadedPlaces report places);
      match routed with
      | Err _ => unread report
      | Ok None => mret (0%Z, 0%Z, None)
      | Ok (Some places) =>
          msg ← message report;
          rooms ← tell_rooms report msg places;
          let '(sent, told, refused) := rooms in
          owner ← directForOwner report places;
          let '(privately, owed, refusedPrivately) := owner in
          let told := (told + owed)%Z in
          let noted := (snd refused ++ snd refusedPrivately)%list in
          noted ← (if (told =? 0)%Z && match noted with [] => true | _ => false end
                   then failuresFor report zeroConversation (Coded CodeNowhereToSayIt) else mret noted);
          kept ← recordFailures noted;
          mret ((sent + privately)%Z, told,
                errors_Join (fst refused ++ fst refusedPrivately ++ match kept with Some e => [e] | None => [] end)%list)
      end
  end.

(** *** The sweep (reporter.go) *)

Definition Window : Duration := 24 * 60 * minute.

Definition mark_reported (report : Report) : announcing (option ChanError) :=
  now ← outside ou_now;
  kept ← database (fun _ s => (s <| sg_deliveries := Reported report now (sg_deliveries s) |>, tt));
  mret (match kept with Some _ => None | None => Some (Wrapping Uncoded) end).

(** One report: how many messages left, and what went wrong. *)
Definition sweep_one (report : Report) : announcing (Z * option ChanError) :=
  said ← announce report;
  let '(sent, told, failed) := said in
  match failed with
  | Some e => mret (sent, Some e)
  | None => if (told =? 0)%Z then mret (sent, None)
            else marked ← mark_reported report; mret (sent, marked)
  end.

Fixpoint sweep_each (pending : list Report) : announcing (Z * list ChanError) :=
  match pending with
  | [] => mret (0%Z, [])
  | report :: more =>
      one ← sweep_one report;
      rest ← sweep_each more;
      mret ((fst one + fst rest)%Z, (match snd one with Some e => e :: snd rest | None => snd rest end))
  end.

Definition read_unreported (limit : nat) : announcing (option (list Report)) :=
  now ← outside ou_now;
  database (fun o s => (s, Unreported (ou_runs o) (ou_inbox o) (ou_dbnow o) (sg_deliveries s) (sg_failures s) (now - Window) limit)).

Definition Reporter_Sweep (limit : nat) : announcing (Z * option ChanError) :=
  pending ← read_unreported limit;
  match pending with
  | None => mret (0%Z, Some (Wrapping Uncoded))
  | Some pending =>
      _ ← set_pass (fun _ => newFanout);
      swept ← sweep_each pending;
      mret (fst swept, errors_Join (snd swept))
  end.
End Reporting.

(** * Cards, notices, and what tickets still owe

    src/internal/channel: cards.go and closer.go (cards that still offer an
    answer to a settled question, and their rewriting), router.go (which driver
    speaks), notice.go (a message that is not about a run), ticket_outcomes.go
    (the final reply of a governed effect) and ticket_review_rooms.go (the thread
    a ticket is reviewed in). *)

(** ** Cards (cards.go) *)

Definition OutcomeApproved : string := "approved".
Definition OutcomeRefused : string := "refused".
Definition OutcomeMovedOn : string := "moved_on".

Record Card := MkCard {
  Ca_Announcement : Announcement;
  Ca_PlacedIn : string;
  Ca_Ref : string;
  Ca_AgentID : AgentID;
  Ca_Scope : Scope;
  Ca_Tool : string;
  Ca_Reason : string;
  Ca_Outcome : string;
  Ca_DecidedBy : UserID
}.

Definition outcomeOf (approved decided_ : bool) : string :=
  if negb decided_ then OutcomeMovedOn else if approved then OutcomeApproved else OutcomeRefused.

(** The first decision recorded after a step, and the question asked at it. *)
Definition decided_after (steps : list Step) (at_seq : Z) : option ApprovalDecidedPayload :=
  match List.find (fun s => String.eqb (S_Kind s) StepApprovalDecided && (at_seq <? S_Seq s)%Z) steps with
  | None => None
  | Some s => Some (fst (unmarshal_into zeroApprovalDecidedPayload d_ApprovalDecidedPayload (S_Payload s)))
  end.

Definition asked_at (steps : list Step) (at_seq : Z) : option ApprovalRequestedPayload :=
  match List.find (fun s => Z.eqb (S_Seq s) at_seq && String.eqb (S_Kind s) StepApprovalRequested) steps with
  | None => None
  | Some s => Some (fst (unmarshal_into zeroApprovalRequestedPayload d_ApprovalRequestedPayload (S_Payload s)))
  end.

Definition still_asks (row : RunRow) (at_seq : Z) : bool :=
  String.eqb (rr_phase row) "awaiting_approval" && Z.eqb (default 0%Z (rr_pending_at_seq row)) at_seq.

(** One delivery of a question that is no longer the run's, with when the run
    last moved. *)
Definition stale_card (runs : list RunRow) (steps : RunID -> list Step) (d : Announcement * DeliveryRow) : option (Card * Time) :=
  let '(a, row) := d in
  match List.find (fun r => String.eqb (rr_run r) (An_RunID a)) runs, asked_at (steps (An_RunID a)) (An_AtSeq a) with
  | Some run, Some asked =>
      if negb (String.eqb (An_Event a) EventParked) || (An_AtSeq a <=? 0)%Z || bool_decide (is_Some (dr_closed_at row)) ||
         String.eqb (dr_ref row) "" || String.eqb (An_Conversation a) "" || still_asks run (An_AtSeq a) then None
      else
        let decision := decided_after (steps (An_RunID a)) (An_AtSeq a) in
        Some (MkCard a (if String.eqb (dr_placed_in row) "" then An_Conversation a else dr_placed_in row) (dr_ref row)
                (rr_agent run) (rr_scope run) (AR_Tool asked) (AR_Reason asked)
                (outcomeOf (match decision with Some p => AD_Approved p | None => false end) (bool_decide (is_Some decision)))
                (match decision with Some p => AD_By p | None => "" end), rr_updated_at run)
  | _, _ => None
  end.

Definition Stale (runs : list RunRow) (steps : RunID -> list Step) (t : Deliveries) (limit : nat) : list Card :=
  List.map fst (take limit (sort_by (fun x y => (snd y <? snd x)%Z) (omap (stale_card runs steps) (map_to_list t)))).

Definition Closed (t : Deliveries) (c : Card) (at_ : Time) : Deliveries :=
  alter (fun row => MkDeliveryRow (dr_ref row) (dr_placed_in row) (dr_posted_at row) (Some at_)) (Ca_Announcement c) t.

(** ** Closing cards (closer.go) *)

Section Closing.
(** Rewriting a message, and whether the database keeps a closing. *)
Context (edit : Placement -> Message -> option ChanError) (kept : Card -> bool) (now : Time) (baseURL : string).

Definition answered (c : Card) : Message :=
  let a := Ca_Announcement c in
  MkMessage (An_Event a) (An_RunID a) (Ca_AgentID c) (Ca_Scope c) (Ca_Reason c) (Ca_Tool c) 0 (run_link baseURL (An_RunID a)) false
    (Ca_Outcome c) (Ca_DecidedBy c) "" "".

Definition close_one (t : Deliveries) (c : Card) : Deliveries * result ChanError unit :=
  let at_ := MkPlacement (An_Channel (Ca_Announcement c)) (Ca_PlacedIn c) (Ca_Ref c) in
  match edit at_ (answered c) with
  | Some e =>
      if negb (degrades e) then (t, Err (Wrapping e))
      else if kept c then (Closed t c now, Ok tt) else (t, Err (Wrapping Uncoded))
  | None => if kept c then (Closed t c now, Ok tt) else (t, Err (Wrapping Uncoded))
  end.

Fixpoint close_cards (t : Deliveries) (cards : list Card) : Deliveries * (Z * list ChanError) :=
  match cards with
  | [] => (t, (0%Z, []))
  | c :: more =>
      let '(t, one) := close_one t c in
      let '(t, (closed, failures)) := close_cards t more in
      match one with Ok _ => (t, ((closed + 1)%Z, failures)) | Err e => (t, (closed, e :: failures)) end
  end.

(** No list is a failed read. *)
Definition Closer_Sweep (t : Deliveries) (open_ : option (list Card)) : Deliveries * (Z * option ChanError) :=
  match open_ with
  | None => (t, (0%Z, Some (Wrapping Uncoded)))
  | Some cards => let '(t, (closed, failures)) := close_cards t cards in (t, (closed, errors_Join failures))
  end.
End Closing.

(** ** Which driver speaks (router.go) *)

(** A driver posts, may say where, and may rewrite what it posted. *)
Record Driver := MkDriver {
  dv_post : Conversation -> Message -> result ChanError (option string * string);
  dv_edit : option (Placement -> Message -> option ChanError)
}.

Definition driver_placed (d : Driver) (c : Conversation) (m : Message) : result ChanError Placement :=
  match dv_post d c m with
  | Ok (said, ref) => Ok (MkPlacement (Co_Channel c) (default (Co_ID c) said) ref)
  | Err e => Err e
  end.

Definition Router_PostPlaced (drivers : string -> result ChanError Driver) (c : Conversation) (m : Message) : result ChanError Placement :=
  match drivers (Co_Channel c) with Err e => Err (Wrapping e) | Ok d => driver_placed d c m end.

Definition RouterEditor_Edit (drivers : string -> result ChanError Driver) (at_ : Placement) (m : Message) : option ChanError :=
  match drivers (Pl_Channel at_) with
  | Err e => Some (Wrapping e)
  | Ok d => match dv_edit d with None => Some (Coded CodeUnsupportedCapability) | Some edit => edit at_ m end
  end.

(** ** Notices (notice.go) *)

Fixpoint notice_each (post_ : Conversation -> Message -> result ChanError (option string * string)) (m : Message) (places : list Conversation)
    : Z * list ChanError :=
  match places with
  | [] => (0%Z, [])
  | place :: more =>
      let '(sent, failures) := notice_each post_ m more in
      if negb (wants place (Ms_Event m)) || negb (reportsAgent place (Ms_Agent m)) then (sent, failures)
      else match post_ place m with Ok _ => ((sent + 1)%Z, failures) | Err e => (sent, Wrapping e :: failures) end
  end.

Definition AnnounceCount (conversations : Scope -> result ChanError (list Conversation))
    (post_ : Conversation -> Message -> result ChanError (option string * string)) (scope : Scope) (m : Message) : Z * option ChanError :=
  match conversations scope with
  | Err e => (0%Z, Some (Wrapping e))
  | Ok places => let '(sent, failures) := notice_each post_ m places in (sent, errors_Join failures)
  end.

(** ** What tickets owe (ticket_outcomes.go, ticket_review_rooms.go) *)

Section Owing.
Context (cancelled : bool) (now : Time) (owner : string).

(** A request that answers only an error. *)
Definition settle_ticket (q : TicketMemory -> ran (option TicketError)) : door unit := fun w =>
  match q (dw_tickets w) with
  | Panicked => None
  | Done (Some e) m' => Some (w <| dw_tickets := m' |>, Err (ErrDoorTicket e))
  | Done None m' => Some (w <| dw_tickets := m' |>, Ok tt)
  end.

Definition claim_owed {A} (q : TicketMemory -> ran (result TicketError (list A))) : door (list A) := fun w =>
  match q (dw_tickets w) with
  | Panicked => None
  | Done (Err e) m' => Some (w <| dw_tickets := m' |>, Err (ErrDoorTicket e))
  | Done (Ok l) m' => Some (w <| dw_tickets := m' |>, Ok l)
  end.

(** Every one is tried; the failures are kept. *)
Fixpoint each_owed {A} (one : A -> door unit) (owed_ : list A) : DoorWorld -> option (DoorWorld * (Z * list DoorError)) := fun w =>
  match owed_ with
  | [] => Some (w, (0%Z, []))
  | n :: more =>
      match one n w with
      | None => None
      | Some (w', did) =>
          match each_owed one more w' with
          | None => None
          | Some (w'', (count, failures)) =>
              Some (w'', match did with Ok _ => ((count + 1)%Z, failures) | Err e => (count, e :: failures) end)
          end
      end
  end.

Definition sweep_owed {A} (q : TicketMemory -> ran (result TicketError (list A))) (one : A -> door unit) : door (Z * list DoorError) := fun w =>
  match claim_owed q w with
  | None => None
  | Some (w', Err e) => Some (w', Err e)
  | Some (w', Ok owed_) => match each_owed one owed_ w' with Some (w'', r) => Some (w'', Ok r) | None => None end
  end.

(** The connector's words for an outcome, and the two ways of answering. *)
Context (render : Phase -> string -> result PortError string).
Context (reply replyOutcome : string -> string -> string -> string -> result PortError unit).

Definition closeReview (n : OutcomeNotice) : door unit :=
  if negb (ReviewRoom_Open (ON_Review n)) then mret tt
  else from_port (reply (O_Connection (ON_Origin n)) (RR_Conversation (ON_Review n)) (RR_Root (ON_Review n))
         "The reviewed answer is now in the ticket thread.").

(** The bytes are the ones the outcome names, or nothing is said. *)
Definition outcome_bytes (n : OutcomeNotice) : door string := fun w =>
  Some (w, match MemoryContent_Get (dw_content w) cancelled (CR_Ref (ON_Result n)) with
           | Ok raw => if String.eqb (ResultDigest raw) (CR_Digest (ON_Result n)) then Ok raw else Err ErrDoorPort
           | Err _ => Err ErrDoorPort
           end).

Definition say_outcome (n : OutcomeNotice) : door unit :=
  raw ← outcome_bytes n;
  words ← from_port (render (ON_Phase n) raw);
  if blank words then fail ErrDoorPort
  else
    _ ← from_port (replyOutcome (O_Connection (ON_Origin n)) (O_Conversation (ON_Origin n)) (O_Root (ON_Origin n)) words);
    _ ← settle_ticket (MarkOutcomeAnnounced cancelled (ON_Ref n) owner now);
    closeReview n.

Definition TicketOutcomeConsumer_Sweep (lease : Duration) (limit : Z) : door (Z * list DoorError) :=
  if String.eqb owner "" then fail (ErrNotWired "governed ticket outcomes")
  else sweep_owed (ClaimOutcomes cancelled owner now lease limit) say_outcome.

Record ReviewOpening := MkReviewOpening { Ro_Conversation : string; Ro_From : string; Ro_Root : string }.

Context (openReview : string -> ReviewOpening -> result PortError string).

Definition open_review (n : ReviewNotice) : door unit :=
  ref ← from_port (openReview (O_Connection (RN_Origin n))
    (MkReviewOpening (RN_Conversation n) (O_Conversation (RN_Origin n)) (O_Root (RN_Origin n))));
  if blank ref then fail ErrDoorPort
  else settle_ticket (MarkReviewOpened cancelled (RN_Key n) ref owner now).

Definition TicketReviewConsumer_Sweep (lease : Duration) (limit : Z) : door (Z * list DoorError) :=
  if String.eqb owner "" then fail (ErrNotWired "governed ticket review rooms")
  else sweep_owed (ClaimReviews cancelled owner now lease limit) open_review.
End Owing.
