(* ===== verification/AnnounceSafety.v ===== *)
(** * What a sweep says, and to whom

    One sweep of [Announce]: nothing that is on record as said is sent again,
    every message goes to a place that may hear it, a run is marked as reported
    only when every place that should hear was told, and a run nobody was told
    about leaves a record of why. *)

From Stdlib Require Import ZArith Lia Ascii String.
From stdpp Require Import base list strings gmap.
From S2P Require Import Prelude GoStrings Json Domain Payload State Content Agent Ticket Channel Inbox TicketDoor Consumer Announce.

Local Open Scope string_scope.

(** ** The table of deliveries *)

Lemma insert_delivery_keeps k x t a row : t !! a = Some row -> insert_delivery k x t !! a = Some row.
Proof. intros Ha. unfold insert_delivery. destruct (t !! k) eqn:E; [done|]. rewrite lookup_insert_ne; [done|congruence]. Qed.

Lemma insert_delivery_other k x t a : k <> a -> insert_delivery k x t !! a = t !! a.
Proof. intros Ha. unfold insert_delivery. destruct (t !! k) eqn:E; [done|]. by rewrite lookup_insert_ne. Qed.

Lemma insert_delivery_there k x t : is_Some (insert_delivery k x t !! k).
Proof. unfold insert_delivery. destruct (t !! k) eqn:E; [by rewrite E|by rewrite lookup_insert_eq]. Qed.

Section Sweeping.
Context (r : Reporter).

(** ** Who may hear *)

(** Somebody who may decide in a scope, as the grants answered at some moment. *)
Definition decides_in (scope : Scope) (who : UserID) : Prop :=
  exists t l, (ou_approversIn (ro_outside r t) scope = Ok l \/ ou_decidersIn (ro_outside r t) scope = Ok l) /\ who ∈ l.

(** The account bound to a person on a connection, as answered at some moment. *)
Definition bound_on (connection : string) (who : UserID) (account : string) : Prop :=
  account <> "" /\ exists t asked found_, ou_accountsOn (ro_outside r t) connection asked = Ok found_ /\ found_ !! who = Some account.

(** Where a report is worked when it is a ticket's. *)
Definition worked_in (report : Report) (place : Conversation) : Prop :=
  exists t route room, ou_route (ro_outside r t) (Rp_Ticket report) = Ok route /\ ticketRoom route = Some room /\
    place = room_place report room.

(** A conversation configured for the run's scope that wants this; the place its
    ticket is worked in; or, for a question, the account of a person who may
    answer it. *)
Definition may_hear (report : Report) (place : Conversation) : Prop :=
  (ticketReport report = false /\ hears report place = true /\
   exists t places, ou_conversations (ro_outside r t) (Rp_Scope report) = Ok places /\ place ∈ threadedPlaces report places) \/
  (ticketReport report = true /\ worked_in report place) \/
  (Rp_AwaitingDecision report = true /\ exists who, decides_in (Rp_Scope report) who /\ bound_on (Co_Channel place) who (Co_ID place)).

Definition addressed_well (p : Posted) : Prop :=
  exists report place, po_owed p = AnnouncementTo report place /\ Co_Channel (po_place p) = Co_Channel place /\
    Co_ID (po_place p) = Co_ID place /\ may_hear report place.

(** ** What a pass remembers *)

Record pass_ok (f : fanout) : Prop := MkPassOk {
  pass_decides : forall scope who one, fo_byScope f !! scope = Some (Ok who) -> one ∈ who -> decides_in scope one;
  pass_may : forall scope who one, fo_mayDecide f !! scope = Some (Ok who) -> one ∈ who -> decides_in scope one;
  pass_bound : forall connection known who account,
    fo_byChannel f !! connection = Some known -> known !! who = Some account -> account <> "" -> bound_on connection who account;
  pass_route : forall ref route, fo_byTicket f !! ref = Some (Ok route) -> exists t, ou_route (ro_outside r t) ref = Ok route
}.

Lemma new_pass_ok : pass_ok newFanout.
Proof. split; intros *; cbn; rewrite lookup_empty; done. Qed.

(** ** How the stage moves *)

(** What is on record stays; nothing is filed under no place; and whatever was
    handed to a driver was not on record, and went where it may. *)
Record moves_on (s s' : Stage) : Prop := MkMovesOn {
  moves_kept : forall a row, sg_deliveries s !! a = Some row -> sg_deliveries s' !! a = Some row;
  moves_placed : forall a, An_Channel a = "" -> sg_deliveries s !! a = None -> sg_deliveries s' !! a = None;
  moves_said : exists new, sg_posted s' = (sg_posted s ++ new)%list /\
    forall p, p ∈ new -> sg_deliveries s !! po_owed p = None /\ addressed_well p
}.

Lemma moves_on_refl s : moves_on s s.
Proof. split; [done..|]. exists []. rewrite app_nil_r. split; [done|]. intros p []%elem_of_nil. Qed.

Lemma moves_on_trans s1 s2 s3 : moves_on s1 s2 -> moves_on s2 s3 -> moves_on s1 s3.
Proof.
  intros [K1 E1 (n1 & P1 & N1)] [K2 E2 (n2 & P2 & N2)]. split; [by eauto|by eauto|].
  exists (n1 ++ n2)%list. rewrite P2, P1, app_assoc. split; [done|].
  intros p [Hp|Hp]%elem_of_app; [by apply N1|]. destruct (N2 p Hp) as [Hn Ha]. split; [|done].
  destruct (sg_deliveries s1 !! po_owed p) eqn:E; [|done]. apply K1 in E. congruence.
Qed.

(** A step moves the stage that way, and what it answers satisfies [Q]. *)
Definition yields {A} (p : announcing A) (Q : A -> Prop) : Prop :=
  forall s s' a, pass_ok (sg_pass s) -> p s = (s', a) -> pass_ok (sg_pass s') /\ moves_on s s' /\ Q a.

Lemma yields_bind {A B} (p : announcing A) (f : A -> announcing B) Q R :
  yields p Q -> (forall a, Q a -> yields (f a) R) -> yields (p ≫= f) R.
Proof.
  intros Hp Hf s s' b Hs H. unfold mbind, announcing_bind in H. destruct (p s) as [s1 a] eqn:E.
  destruct (Hp _ _ _ Hs E) as (H1 & M1 & Ha). destruct (Hf a Ha _ _ _ H1 H) as (H2 & M2 & Hb).
  split; [done|]. split; [by eapply moves_on_trans|done].
Qed.

Lemma yields_ret {A} (a : A) (Q : A -> Prop) : Q a -> yields (mret a) Q.
Proof. intros Ha s s' b Hs [= <- <-]. split; [done|]. split; [apply moves_on_refl|done]. Qed.

Lemma yields_weaken {A} (p : announcing A) (Q R : A -> Prop) : yields p Q -> (forall a, Q a -> R a) -> yields p R.
Proof. intros Hp HQ s s' a Hs H. destruct (Hp _ _ _ Hs H) as (? & ? & ?). auto. Qed.

Lemma yields_outside {A} (f : Outside -> A) : yields (outside r f) (fun a => exists t, a = f (ro_outside r t)).
Proof. intros s s' a Hs [= <- <-]. split; [done|]. split; [|by eexists]. destruct (moves_on_refl s). by split. Qed.

Lemma yields_in_pass {A} (f : fanout -> A) (Q : A -> Prop) : (forall p, pass_ok p -> Q (f p)) -> yields (in_pass f) Q.
Proof. intros HQ s s' a Hs [= <- <-]. split; [done|]. split; [apply moves_on_refl|by apply HQ]. Qed.

Lemma yields_set_pass (f : fanout -> fanout) : (forall p, pass_ok p -> pass_ok (f p)) -> yields (set_pass f) (fun _ => True).
Proof. intros Hf s s' a Hs [= <- <-]. split; [by apply Hf|]. split; [|done]. destruct (moves_on_refl s). by split. Qed.

(** A read of the database. *)
Lemma yields_read {A} (f : Outside -> Stage -> A) : yields (database r (fun o s => (s, f o s))) (fun _ => True).
Proof.
  intros s s' a Hs H. unfold database in H. destruct (ou_database _); injection H as <- <-; (split; [done|]; split; [|done]);
    destruct (moves_on_refl s); by split.
Qed.

(** ** Who and where *)

Lemma config_failed_Ok {A} (x : result ChanError A) a : config_failed x = Ok a -> x = Ok a.
Proof. by destruct x. Qed.

Definition all_decide (scope : Scope) (x : result ChanError (list UserID)) : Prop :=
  forall who, x = Ok who -> forall one, one ∈ who -> decides_in scope one.

Lemma yields_whoDecides scope : yields (whoDecides r scope) (all_decide scope).
Proof.
  apply (yields_bind _ _ (fun before => forall x, before = Some x -> all_decide scope x)).
  { apply yields_in_pass. intros p Hp x Hx who -> one. by eapply pass_decides. }
  intros [held|] Hheld; [apply yields_ret; by apply Hheld|].
  eapply yields_bind; [apply yields_outside|]. intros who [t Ht].
  assert (all_decide scope who) as Hall.
  { intros l -> one Hone. symmetry in Ht. apply config_failed_Ok in Ht. exists t, l. eauto. }
  eapply yields_bind; [|intros _ _; by apply yields_ret].
  apply yields_set_pass. intros p [H1 H2 H3 H4]. split; [|done..]. intros scope' l one. cbn. rewrite lookup_insert_Some.
  intros [[<- Hl]|[_ Hl]]; [by apply Hall|by eapply H1].
Qed.

Lemma yields_whoMayDecide scope : yields (whoMayDecide r scope) (all_decide scope).
Proof.
  apply (yields_bind _ _ (fun before => forall x, before = Some x -> all_decide scope x)).
  { apply yields_in_pass. intros p Hp x Hx who -> one. by eapply pass_may. }
  intros [held|] Hheld; [apply yields_ret; by apply Hheld|].
  eapply yields_bind; [apply yields_outside|]. intros who [t Ht].
  assert (all_decide scope who) as Hall.
  { intros l -> one Hone. symmetry in Ht. apply config_failed_Ok in Ht. exists t, l. eauto. }
  eapply yields_bind; [|intros _ _; by apply yields_ret].
  apply yields_set_pass. intros p [H1 H2 H3 H4]. split; [done| |done..]. intros scope' l one. cbn. rewrite lookup_insert_Some.
  intros [[<- Hl]|[_ Hl]]; [by apply Hall|by eapply H2].
Qed.

Lemma yields_decidersAmong scope only : yields (decidersAmong r scope only) (all_decide scope).
Proof.
  unfold decidersAmong. destruct only as [|u only]; [apply yields_whoDecides|].
  eapply yields_bind; [apply yields_whoMayDecide|]. intros [who|e] Hwho; apply yields_ret; [|done].
  intros l [= <-] one Hone. apply list_elem_of_In, List.filter_In in Hone as [Hone _].
  eapply Hwho; [done|]. by apply list_elem_of_In.
Qed.

(** What is known about the accounts of one connection. *)
Definition known_ok (connection : string) (known : gmap UserID string) : Prop :=
  forall who account, known !! who = Some account -> account <> "" -> bound_on connection who account.

Lemma remembered connection asked found_ known missing t :
  known_ok connection known -> ou_accountsOn (ro_outside r t) connection asked = Ok found_ ->
  known_ok connection (remember_accounts missing found_ known).
Proof.
  intros Hk Hf. unfold remember_accounts. revert known Hk. induction missing as [|one missing IH]; intros known Hk; cbn; [done|].
  apply IH. intros who account. rewrite lookup_insert_Some. intros [[<- Ha]|[_ Ha]]; [|by apply Hk].
  intros Hne. split; [done|]. exists t, asked, found_. split; [done|]. destruct (found_ !! one); cbn in Ha; congruence.
Qed.

Lemma yields_whereReachable connection who :
  yields (whereReachable r connection who) (fun x => forall known, x = Ok known -> known_ok connection known).
Proof.
  apply (yields_bind _ _ (known_ok connection)).
  { apply yields_in_pass. intros p Hp u account Hu Hne. destruct (fo_byChannel p !! connection) as [known|] eqn:E; cbn in Hu.
    - by eapply pass_bound.
    - by rewrite lookup_empty in Hu. }
  intros known Hk. cbn zeta. destruct (List.filter _ who) as [|m missing] eqn:Em; [apply yields_ret; by intros k [= <-]|].
  eapply yields_bind; [by apply (yields_in_pass _ (fun _ => True))|]. intros [e|] _; [by apply yields_ret|].
  eapply yields_bind; [apply yields_outside|]. intros [found_|e] [t Ht].
  - symmetry in Ht. apply config_failed_Ok in Ht. pose proof (remembered _ _ _ _ (m :: missing) _ Hk Ht) as Hr.
    eapply yields_bind; [|intros _ _; apply yields_ret; by intros k [= <-]].
    apply yields_set_pass. intros p [H1 H2 H3 H4]. split; [done..| |done]. intros c k who' account. cbn. rewrite lookup_insert_Some.
    intros [[<- <-]|[_ Hc]]; [by apply Hr|by eapply H3].
  - eapply yields_bind; [|intros _ _; by apply yields_ret].
    apply yields_set_pass. intros p [H1 H2 H3 H4]. by split.
Qed.

(** Private conversations of people who may decide, not too many. *)
Definition private_to (scope : Scope) (connection : string) (to : list Conversation) : Prop :=
  (List.length to <= MaxDirectRecipients)%nat /\
    forall person, person ∈ to -> Co_Channel person = connection /\
    exists who, decides_in scope who /\ bound_on connection who (Co_ID person).

Definition reached (scope : Scope) (connection : string) (x : result ChanError (option (list Conversation))) : Prop :=
  forall to, x = Ok (Some to) -> private_to scope connection to.

Lemma yields_reachable scope place who :
  (forall one, one ∈ who -> decides_in scope one) -> yields (reachable r place who) (reached scope (Co_Channel place)).
Proof.
  intros Hwho. unfold reachable. eapply yields_bind; [apply yields_whereReachable|]. intros [where_|e] Hk; apply yields_ret; [|done].
  intros to [= Hto]. destruct (Nat.ltb_spec MaxDirectRecipients (List.length (List.map (private_place place)
    (List.filter (fun account => negb (String.eqb account "")) (List.map (fun one => default "" (where_ !! one)) who))))) as [|Hle]; [done|].
  injection Hto as <-. split; [exact Hle|]. intros person Hp. apply list_elem_of_In, List.in_map_iff in Hp as (account & <- & Ha).
  split; [done|]. apply List.filter_In in Ha as [Ha Hne]. apply negb_true_iff, String.eqb_neq in Hne.
  apply List.in_map_iff in Ha as (one & Hone & Hin). exists one. split; [apply Hwho; by apply list_elem_of_In|].
  cbn. destruct (where_ !! one) eqn:E; cbn in Hone; [|congruence]. subst. by eapply Hk.
Qed.

Lemma yields_recipients report place : yields (recipients r report place) (reached (Rp_Scope report) (Co_Channel place)).
Proof.
  unfold recipients. eapply yields_bind; [apply yields_whoDecides|]. intros [[|one who]|e] Hwho.
  - apply yields_ret. intros to [= <-]. split; [cbn; unfold MaxDirectRecipients; lia|]. intros person []%elem_of_nil.
  - apply yields_reachable. by apply Hwho.
  - by apply yields_ret.
Qed.

Lemma yields_ticketRoute report :
  yields (ticketRoute r report) (fun x => forall route, x = Ok route -> exists t, ou_route (ro_outside r t) (Rp_Ticket report) = Ok route).
Proof.
  unfold ticketRoute. apply (yields_bind _ _ (fun before => forall route, before = Some (Ok route) ->
    exists t, ou_route (ro_outside r t) (Rp_Ticket report) = Ok route)).
  { apply yields_in_pass. intros p Hp route Hr. by eapply pass_route. }
  intros [held|] Hheld; [apply yields_ret; intros route ->; by apply Hheld|].
  apply (yields_bind _ _ (fun x => forall route, x = Ok route -> exists t, ou_route (ro_outside r t) (Rp_Ticket report) = Ok route)).
  { destruct (ro_tickets r); [|by apply yields_ret]. eapply yields_weaken; [apply yields_outside|].
    intros x [t ->] route Hr. exists t. destruct (ou_route _ _) as [x|]; [|done]. by destruct (Origin_Valid _). }
  intros route Hr. eapply yields_bind; [|intros _ _; by apply yields_ret].
  apply yields_set_pass. intros p [H1 H2 H3 H4]. split; [done..|]. intros ref x. cbn. rewrite lookup_insert_Some.
  intros [[<- ->]|[_ Hx]]; [by apply Hr|by apply H4].
Qed.

Lemma yields_policyFor report : yields (policyFor r report) (fun _ => True).
Proof.
  eapply yields_bind; [by apply (yields_in_pass _ (fun _ => True))|]. intros [held|] _; [by apply yields_ret|].
  eapply yields_bind; [apply yields_outside|]. intros policy _. eapply yields_bind; [|intros _ _; by apply yields_ret].
  apply yields_set_pass. intros p [H1 H2 H3 H4]. by split.
Qed.

Lemma yields_speakingConnection places : yields (speakingConnection r places) (fun _ => True).
Proof.
  unfold speakingConnection. destruct (connectionAmong places); [by apply yields_ret|].
  eapply yields_bind; [by apply (yields_in_pass _ (fun _ => True))|]. intros asked _.
  apply (yields_bind _ _ (fun _ => True)); [|intros _ _; by apply yields_in_pass].
  destruct asked; [by apply yields_ret|]. eapply yields_bind; [apply yields_outside|]. intros enabled _.
  apply yields_set_pass. intros p [H1 H2 H3 H4]. destruct enabled as [[|one [|]]|]; by split.
Qed.

(** ** What is said *)

Lemma yields_read_words ref inline : yields (read_words r ref inline) (fun _ => True).
Proof. unfold read_words. destruct (String.eqb ref ""); [by apply yields_ret|]. eapply yields_weaken; [apply yields_outside|done]. Qed.

Lemma yields_message report : yields (message r report) (fun _ => True).
Proof.
  unfold message. apply (yields_bind _ _ (fun _ => True)); [|intros said _; by apply yields_ret]. unfold answerFor.
  case_match; [by apply yields_ret|]. eapply yields_bind; [apply yields_outside|]. intros [payload|] _; [|by apply yields_ret].
  eapply yields_bind; [apply yields_read_words|]. intros [text|[]] _; try by apply yields_ret.
  eapply yields_bind; [apply yields_read_words|]. intros headline _. by apply yields_ret.
Qed.

Definition about (report : Report) (f : DeliveryFailure) : Prop :=
  exists place, Df_Announcement f = AnnouncementTo report place.

Lemma yields_failures report place codes :
  yields (failures_of r report place codes) (fun l => Forall (about report) l /\ List.length l = List.length codes).
Proof.
  induction codes as [|code codes IH]; cbn [failures_of]; [by apply yields_ret|].
  eapply yields_bind; [apply yields_outside|]. intros now _. eapply yields_bind; [apply IH|]. intros l [Hl Hn]. apply yields_ret.
  split; [|cbn; lia]. constructor; [by exists place|done].
Qed.

Lemma FailureCodes_some e : FailureCodes e <> [].
Proof. unfold FailureCodes. by destruct (collectFailureCodes e). Qed.

(** Every cause leaves a record. *)
Definition noted (report : Report) (l : list DeliveryFailure) : Prop := Forall (about report) l /\ l <> [].

Lemma yields_failuresFor report place cause : yields (failuresFor r report place cause) (noted report).
Proof.
  eapply yields_weaken; [apply yields_failures|]. intros l [Hl Hn]. split; [done|]. intros ->.
  pose proof (FailureCodes_some cause). by destruct (FailureCodes cause).
Qed.

(** Whatever blocks is written down, and all that is written down is about the report. *)
Definition told_of (report : Report) (x : refusal) : Prop :=
  Forall (about report) (snd x) /\ (fst x <> [] -> snd x <> []).

Lemma yields_refuse report place code : yields (refuse r report place code) (fun x => told_of report x /\ fst x = [] /\ snd x <> []).
Proof. eapply yields_bind; [apply yields_failuresFor|]. intros l [Hl Hn]. by apply yields_ret. Qed.

Lemma yields_unavailable report place e : yields (unavailable r report place e) (fun x => told_of report x /\ fst x <> [] /\ snd x <> []).
Proof. eapply yields_bind; [apply yields_failuresFor|]. intros l [Hl Hn]. by apply yields_ret. Qed.

(** A message handed to a driver is the first for its place on record. *)
Lemma placed_moves owed c m s s' x :
  pass_ok (sg_pass s) -> placed r owed c m s = (s', x) -> sg_deliveries s !! owed = None -> addressed_well (MkPosted owed c m) ->
  pass_ok (sg_pass s') /\ moves_on s s' /\ sg_deliveries s' = sg_deliveries s.
Proof.
  intros Hs [= <- _] Hn Ha. split; [done|]. split; [|done]. split; [done..|]. exists [MkPosted owed c m]. split; [done|].
  intros p ->%list_elem_of_singleton. done.
Qed.

Lemma record_moves owed at_ s s' x :
  pass_ok (sg_pass s) -> record r owed at_ s = (s', x) ->
  pass_ok (sg_pass s') /\ moves_on s s' /\ forall b, x = Ok b -> is_Some (sg_deliveries s' !! owed).
Proof.
  intros Hs H. unfold record, mbind, announcing_bind, outside in H. destruct (_ || _) eqn:E.
  { injection H as <- <-. split; [done|]. split; [|done]. destruct (moves_on_refl s). by split. }
  unfold database in H. destruct (ou_database _); cbn in H; injection H as <- <-; (split; [done|]); [|split; [|done]; destruct (moves_on_refl s); by split].
  unfold Record_delivery. cbn [De_Announcement]. rewrite E. cbn. split; [|intros b _; apply insert_delivery_there].
  split; cbn; [intros a row; apply insert_delivery_keeps| |exists []; by rewrite app_nil_r; split; [|intros p []%elem_of_nil]].
  intros a Hc Hn. rewrite insert_delivery_other; [done|]. intros <-. by rewrite Hc in E.
Qed.

Lemma bind_run {A B} (p : announcing A) (f : A -> announcing B) s s' b :
  (p ≫= f) s = (s', b) -> exists s1 a, p s = (s1, a) /\ f a s1 = (s', b).
Proof. unfold mbind, announcing_bind. destruct (p s) as [s1 a]. eauto. Qed.

(** A message leaves only where nothing is on record, and is on record after it left. *)
Lemma post_moves report place msg s s' x :
  may_hear report place -> pass_ok (sg_pass s) -> post r report place msg s = (s', x) ->
  pass_ok (sg_pass s') /\ moves_on s s' /\ forall b, x = Ok b -> is_Some (sg_deliveries s' !! AnnouncementTo report place).
Proof.
  intros Hmay Hs H. unfold post in H. set (owed := AnnouncementTo report place) in *.
  apply bind_run in H as (s1 & said & H1 & H). destruct (yields_read (fun _ s => Delivered owed (sg_deliveries s)) _ _ _ Hs H1) as (Hs1 & M1 & _).
  assert (sg_deliveries s1 = sg_deliveries s /\ (said = None \/ said = Some (Delivered owed (sg_deliveries s)))) as [D1 [->| ->]].
  { unfold database in H1. destruct (ou_database _); injection H1 as <- <-; by auto. }
  { by injection H as <- <-. }
  unfold Delivered in H. case_bool_decide as Hd; [injection H as <- <-; by rewrite D1|].
  apply eq_None_not_Some in Hd. rewrite <- D1 in Hd.
  assert (forall c m, Co_Channel c = Co_Channel place -> Co_ID c = Co_ID place -> addressed_well (MkPosted owed c m)) as Hwell
    by (intros c m Hc Hi; by exists report, place).
  destruct (_ && _).
  - apply bind_run in H as (s2 & at_ & H2 & H). destruct (placed_moves _ _ _ _ _ _ Hs1 H2 Hd ltac:(by apply Hwell)) as (Hs2 & M2 & D2).
    pose proof (moves_on_trans _ _ _ M1 M2) as M. destruct at_ as [at_|e]; [|by injection H as <- <-].
    apply bind_run in H as (s3 & body & H3 & H). rewrite <- D2 in Hd.
    destruct (placed_moves _ _ _ _ _ _ Hs2 H3 Hd ltac:(by apply Hwell)) as (Hs3 & M3 & D3).
    pose proof (moves_on_trans _ _ _ M M3) as M'. destruct body as [body|e]; [|by injection H as <- <-].
    destruct (record_moves _ _ _ _ _ Hs3 H) as (Hs4 & M4 & Hr). split; [done|]. split; [by eapply moves_on_trans|done].
  - apply bind_run in H as (s2 & at_ & H2 & H). destruct (placed_moves _ _ _ _ _ _ Hs1 H2 Hd ltac:(by apply Hwell)) as (Hs2 & M2 & D2).
    pose proof (moves_on_trans _ _ _ M1 M2) as M. destruct at_ as [at_|e]; [|by injection H as <- <-].
    destruct (record_moves _ _ _ _ _ Hs2 H) as (Hs3 & M3 & Hr). split; [done|]. split; [by eapply moves_on_trans|done].
Qed.

Lemma yields_post report place msg : may_hear report place -> yields (post r report place msg) (fun _ => True).
Proof. intros Hmay s s' x Hs H. destruct (post_moves _ _ _ _ _ _ Hmay Hs H) as (? & ? & _). done. Qed.

(** ** Telling people *)

Definition refused_ok (report : Report) (x : Z * refusal) : Prop := told_of report (snd x).

Lemma told_of_none report : told_of report no_refusal.
Proof. by split. Qed.

Lemma yields_tell_each report msg to :
  (forall person, person ∈ to -> may_hear report person) ->
  yields (tell_each r report msg to) (fun x => told_of report (snd x)).
Proof.
  induction to as [|person to IH]; intros Hto; cbn [tell_each]; [apply yields_ret, told_of_none|].
  assert (yields (tell_each r report msg to) (fun x => told_of report (snd x))) as Hrest.
  { apply IH. intros p Hp. apply Hto. by apply list_elem_of_further. }
  eapply yields_bind; [apply yields_post, Hto, list_elem_of_here|]. intros [left_|e] _.
  - eapply yields_bind; [apply Hrest|]. intros [[sent has] refused] Hr. by apply yields_ret.
  - eapply yields_bind; [apply yields_failuresFor|]. intros recorded [Ha Hn].
    eapply yields_bind; [apply Hrest|]. intros [[sent has] [blocking noted_]] [Hr1 Hr2]. apply yields_ret. split; cbn in *.
    + by apply Forall_app.
    + intros _. by destruct recorded.
Qed.

(** A private place of somebody who may decide, for a question. *)
Lemma private_may_hear report connection to :
  Rp_AwaitingDecision report = true -> private_to (Rp_Scope report) connection to ->
  forall person, person ∈ to -> may_hear report person.
Proof. intros Hd [_ Hto] person Hp. destruct (Hto person Hp) as (Hc & who & Hw & Hb). right. right. rewrite Hc. eauto. Qed.

Lemma yields_direct report place : yields (direct r report place) (refused_ok report).
Proof.
  unfold direct. destruct (wanted r report place) eqn:Ew; cbn [negb]; [|apply yields_ret, told_of_none].
  assert (Rp_AwaitingDecision report = true) as Hd.
  { unfold wanted in Ew. apply andb_true_iff in Ew as [Ew _]. by apply andb_true_iff in Ew as [_ ?]. }
  eapply yields_bind; [apply yields_recipients|]. intros [[to|]|e] Hto.
  - eapply yields_bind; [apply yields_message|]. intros msg _.
    eapply yields_bind; [apply yields_tell_each; eapply private_may_hear; [done|by apply Hto]|].
    intros [[sent has] refused] Hr. by apply yields_ret.
  - eapply yields_bind; [apply yields_refuse|]. intros refused (Hr & _). by apply yields_ret.
  - eapply yields_bind; [apply yields_unavailable|]. intros refused (Hr & _). by apply yields_ret.
Qed.

Lemma yields_directForTicket report : Rp_AwaitingDecision report = true -> yields (directForTicket r report) (refused_ok report).
Proof.
  intros Hd. unfold directForTicket. eapply yields_bind; [apply yields_ticketRoute|]. intros [route|e] _.
  2: { eapply yields_bind; [apply yields_unavailable|]. intros refused (Hr & _). by apply yields_ret. }
  destruct (AR_Recipients route) as [|u named]; [apply yields_ret, told_of_none|].
  eapply yields_bind; [apply yields_decidersAmong|]. intros [[|one who]|e] Hwho.
  - eapply yields_bind; [apply yields_refuse|]. intros refused (Hr & _). by apply yields_ret.
  - eapply yields_bind; [apply yields_reachable; by apply Hwho|]. intros [[[|person to]|]|e] Hto.
    + eapply yields_bind; [apply yields_refuse|]. intros refused (Hr & _). by apply yields_ret.
    + eapply yields_bind; [apply yields_message|]. intros msg _.
      eapply yields_bind; [apply yields_tell_each; eapply private_may_hear; [done|by apply Hto]|].
      intros [[sent has] refused] Hr. by apply yields_ret.
    + eapply yields_bind; [apply yields_refuse|]. intros refused (Hr & _). by apply yields_ret.
    + eapply yields_bind; [apply yields_unavailable|]. intros refused (Hr & _). by apply yields_ret.
  - eapply yields_bind; [apply yields_unavailable|]. intros refused (Hr & _). by apply yields_ret.
Qed.

(** *** With what is on record afterwards *)

Definition on_record (s : Stage) (report : Report) (place : Conversation) : Prop :=
  is_Some (sg_deliveries s !! AnnouncementTo report place).

Lemma on_record_kept s s' report place : moves_on s s' -> on_record s report place -> on_record s' report place.
Proof. intros M [row Hrow]. exists row. by eapply moves_kept. Qed.

(** What a step of [yields] did, from a run of it. *)
Lemma yields_run {A} (p : announcing A) Q s s' a :
  yields p Q -> pass_ok (sg_pass s) -> p s = (s', a) -> pass_ok (sg_pass s') /\ moves_on s s' /\ Q a.
Proof. intros Hp Hs H. by apply Hp. Qed.

Lemma tell_each_reaches report msg to s s' sent has refused :
  (forall person, person ∈ to -> may_hear report person) -> pass_ok (sg_pass s) ->
  tell_each r report msg to s = (s', (sent, has, refused)) ->
  (0 <= has)%Z /\ (has <> 0%Z -> exists person, on_record s' report person).
Proof.
  revert s s' sent has refused. induction to as [|person to IH]; intros s s' sent has refused Hto Hs H; cbn [tell_each] in H.
  { injection H as <- <- <- <-. done. }
  assert (forall p, p ∈ to -> may_hear report p) as Hto' by (intros p Hp; apply Hto; by apply list_elem_of_further).
  apply bind_run in H as (s1 & posted & H1 & H).
  destruct (post_moves _ _ _ _ _ _ (Hto person (list_elem_of_here _ _)) Hs H1) as (Hs1 & M1 & Hp).
  destruct posted as [left_|e].
  - apply bind_run in H as (s2 & [[sent2 has2] refused2] & H2 & H). injection H as <- <- <- <-.
    destruct (IH _ _ _ _ _ Hto' Hs1 H2) as [Hn _]. split; [lia|]. intros _. exists person.
    destruct (yields_tell_each _ _ _ Hto' _ _ _ Hs1 H2) as (_ & M2 & _). eapply on_record_kept; [exact M2|by eapply Hp].
  - apply bind_run in H as (s2 & recorded & H2 & H). apply bind_run in H as (s3 & [[sent3 has3] [b3 n3]] & H3 & H). injection H as <- <- <- <-.
    destruct (yields_failuresFor _ _ _ _ _ _ Hs1 H2) as (Hs2 & _ & _). by eapply IH.
Qed.

(** Nobody was told, and why. *)
Lemma yields_nobody report (p : announcing refusal) (Q : refusal -> Prop) :
  yields p (fun x => told_of report x /\ Q x) ->
  yields (refused ← p; mret (0%Z, 0%Z, refused)) (fun x => told_of report (snd x) /\ snd (fst x) = 0%Z).
Proof. intros Hp. eapply yields_bind; [apply Hp|]. intros refused [Hr _]. by apply yields_ret. Qed.

Lemma nobody_told report (p : announcing refusal) (Q : refusal -> Prop) s0 s s' sent owed refused :
  yields p (fun x => told_of report x /\ Q x) -> pass_ok (sg_pass s) -> moves_on s0 s ->
  (x ← p; mret (0%Z, 0%Z, x)) s = (s', (sent, owed, refused)) ->
  pass_ok (sg_pass s') /\ moves_on s0 s' /\ told_of report refused /\ (owed <> 0%Z -> exists person, on_record s' report person).
Proof.
  intros Hp Hs M H. destruct (yields_nobody _ _ _ Hp _ _ _ Hs H) as (H1 & H2 & H3 & H4). cbn in *. rewrite H4.
  split; [done|]. split; [by eapply moves_on_trans|done].
Qed.

(** The next step of a run: what it did, from its lemma. *)
Ltac next L H Hs M :=
  let s1 := fresh "s" in let a := fresh "a" in let H1 := fresh "H" in
  let Hs1 := fresh "Hs" in let M1 := fresh "M" in let Q := fresh "Q" in
  apply bind_run in H as (s1 & a & H1 & H);
  destruct (L _ _ _ Hs H1) as (Hs1 & M1 & Q);
  apply (moves_on_trans _ _ _ M) in M1; clear Hs M; rename Hs1 into Hs, M1 into M.

Lemma directForOwner_tells report places s s' sent owed refused :
  pass_ok (sg_pass s) -> directForOwner r report places s = (s', (sent, owed, refused)) ->
  pass_ok (sg_pass s') /\ moves_on s s' /\ told_of report refused /\
  (owed <> 0%Z -> exists person, on_record s' report person).
Proof.
  intros Hs H. unfold directForOwner in H. cbv zeta in H. pose proof (moves_on_refl s) as M.
  destruct (wantsOwnApprovals r report) eqn:Ew; cbn [negb] in H; [|injection H as <- <- <- <-; split_and!; [done..|apply told_of_none|done]].
  assert (Rp_AwaitingDecision report = true) as Hd.
  { unfold wantsOwnApprovals in Ew. apply andb_true_iff in Ew as [Ew _]. by apply andb_true_iff in Ew as [_ ?]. }
  next (yields_policyFor report) H Hs M. destruct a as [policy|e]; [|exact (nobody_told _ _ _ _ _ _ _ _ _ (yields_unavailable _ _ _) Hs M H)].
  destruct (Ay_Direct policy); cbn [negb] in H; [|injection H as <- <- <- <-; split_and!; [done..|apply told_of_none|done]].
  next (yields_speakingConnection places) H Hs M. destruct a as [from|e]; [|exact (nobody_told _ _ _ _ _ _ _ _ _ (yields_unavailable _ _ _) Hs M H)].
  destruct (String.eqb from ""); [exact (nobody_told _ _ _ _ _ _ _ _ _ (yields_refuse _ _ _) Hs M H)|].
  next (yields_decidersAmong (Rp_Scope report) (Ay_Notify policy)) H Hs M.
  destruct a as [[|one who]|e]; [exact (nobody_told _ _ _ _ _ _ _ _ _ (yields_refuse _ _ _) Hs M H)| |exact (nobody_told _ _ _ _ _ _ _ _ _ (yields_unavailable _ _ _) Hs M H)].
  next (yields_reachable _ (speaking_place from) _ (Q1 _ eq_refl)) H Hs M.
  destruct a as [[to|]|e]; [|exact (nobody_told _ _ _ _ _ _ _ _ _ (yields_refuse _ _ _) Hs M H)|exact (nobody_told _ _ _ _ _ _ _ _ _ (yields_unavailable _ _ _) Hs M H)].
  pose proof (private_may_hear _ _ _ Hd (Q2 _ eq_refl)) as Hmay.
  next (yields_message report) H Hs M. apply bind_run in H as (s6 & [[sent6 has] refused6] & H6 & H).
  destruct (tell_each_reaches _ _ _ _ _ _ _ _ Hmay Hs H6) as [_ Hhas].
  destruct (yields_tell_each _ _ _ Hmay _ _ _ Hs H6) as (Hs6 & M6 & Hr). apply (moves_on_trans _ _ _ M) in M6.
  destruct to as [|person to]; [exact (nobody_told _ _ _ _ _ _ _ _ _ (yields_refuse _ _ _) Hs6 M6 H)|].
  destruct (Z.eqb_spec has 0); injection H as <- <- <- <-; (split; [done|]; split; [done|]; split; [exact Hr|]); [done|].
  intros _. by apply Hhas.
Qed.

(** *** Rooms *)

Lemma awaiting_ticket report place f : isTicketRoom report place f = true -> Rp_AwaitingDecision report = true.
Proof.
  unfold isTicketRoom, ticketApproval. intros [Ht _]%andb_true_iff. apply andb_true_iff in Ht as [Ht _]. by apply andb_true_iff in Ht as [_ ?].
Qed.

Lemma tell_tells report place msg s s' sent refused :
  may_hear report place -> pass_ok (sg_pass s) -> tell r report place msg s = (s', (sent, refused)) ->
  pass_ok (sg_pass s') /\ moves_on s s' /\ told_of report refused /\ (fst refused = [] -> on_record s' report place).
Proof.
  intros Hmay Hs H. unfold tell in H. apply bind_run in H as (s1 & posted & H1 & H).
  destruct (post_moves _ _ _ _ _ _ Hmay Hs H1) as (Hs1 & M1 & Hp). destruct posted as [left_|e].
  - apply bind_run in H as (s2 & room & H2 & H). injection H2 as <- Hroom. apply bind_run in H as (s3 & private & H3 & H).
    injection H as <- <- <-. assert (yields (if room then directForTicket r report else direct r report place) (refused_ok report)) as Hy.
    { destruct room; [|apply yields_direct]. apply yields_directForTicket. by eapply awaiting_ticket. }
    destruct (Hy _ _ _ Hs1 H3) as (Hs3 & M3 & Hr). split; [done|]. split; [by eapply moves_on_trans|]. split; [done|].
    intros _. eapply on_record_kept; [exact M3|]. by eapply Hp.
  - apply bind_run in H as (s2 & refused2 & H2 & H). injection H as <- <- <-.
    destruct (yields_unavailable _ _ _ _ _ _ Hs1 H2) as (Hs2 & M2 & Hr & Hb & _). split; [done|]. split; [by eapply moves_on_trans|]. done.
Qed.

(** Every room that hears has it on record, unless it asked for silence. *)
Definition rooms_told (report : Report) (msg : Message) (places : list Conversation) (s : Stage) : Prop :=
  forall place, place ∈ places -> hears report place = true -> quietFinish place report msg = true \/ on_record s report place.

Lemma rooms_told_kept report msg places s s' : moves_on s s' -> rooms_told report msg places s -> rooms_told report msg places s'.
Proof. intros M H place Hp Hh. destruct (H place Hp Hh) as [?|?]; [by left|right]. by eapply on_record_kept. Qed.

Lemma told_of_app report x y : told_of report x -> told_of report y -> told_of report ((fst x ++ fst y)%list, (snd x ++ snd y)%list).
Proof.
  intros [X1 X2] [Y1 Y2]. split; cbn; [by apply Forall_app|]. intros H. destruct (fst x) as [|e l]; [|by destruct (snd x); [destruct X2|]].
  cbn in H. intros [_ ?]%app_eq_nil. by destruct Y2.
Qed.

Lemma tell_rooms_tells report msg places s s' sent told refused :
  (forall place, place ∈ places -> hears report place = true -> may_hear report place) -> pass_ok (sg_pass s) ->
  tell_rooms r report msg places s = (s', (sent, told, refused)) ->
  pass_ok (sg_pass s') /\ moves_on s s' /\ told_of report refused /\
  (fst refused = [] -> rooms_told report msg places s') /\
  (0 <= told)%Z /\ (told <> 0%Z -> exists place, place ∈ places /\ hears report place = true).
Proof.
  revert s s' sent told refused. induction places as [|place places IH]; intros s s' sent told refused Hmay Hs H; cbn [tell_rooms] in H.
  { injection H as <- <- <- <-. split; [done|]. split; [apply moves_on_refl|]. split; [apply told_of_none|].
    split; [|done]. intros _ place []%elem_of_nil. }
  assert (forall p, p ∈ places -> hears report p = true -> may_hear report p) as Hmay'
    by (intros p Hp; apply Hmay; by apply list_elem_of_further).
  destruct (hears report place) eqn:Eh; cbn [negb] in H; [destruct (quietFinish place report msg) eqn:Eq|].
  - apply bind_run in H as (s1 & [[sent1 told1] refused1] & H1 & H). injection H as <- <- <- <-.
    destruct (IH _ _ _ _ _ Hmay' Hs H1) as (Hs1 & M1 & Hr & Hall & Hn & Hsome). do 3 (split; [done|]).
    split; [|split; [lia|intros _; exists place; split; [apply list_elem_of_here|done]]].
    intros Hb p [->|Hp]%elem_of_cons Hh; [by left|by apply Hall].
  - apply bind_run in H as (s1 & [sent1 refused1] & H1 & H). apply bind_run in H as (s2 & [[sent2 told2] refused2] & H2 & H).
    injection H as <- <- <- <-. destruct (tell_tells _ _ _ _ _ _ _ (Hmay _ (list_elem_of_here _ _) Eh) Hs H1) as (Hs1 & M1 & Hr1 & Hp1).
    destruct (IH _ _ _ _ _ Hmay' Hs1 H2) as (Hs2 & M2 & Hr2 & Hall & Hn & Hsome). split; [done|]. split; [by eapply moves_on_trans|].
    split; [by apply told_of_app|]. split; [|split; [lia|intros _; exists place; split; [apply list_elem_of_here|done]]].
    cbn. intros [Hb1 Hb2]%app_eq_nil p [->|Hp]%elem_of_cons Hh; [|by apply Hall]. right. eapply on_record_kept; [exact M2|auto].
  - destruct (IH _ _ _ _ _ Hmay' Hs H) as (Hs1 & M1 & Hr & Hall & Hn & Hsome). do 3 (split; [done|]). split; [|split; [done|]].
    + intros Hb p [->|Hp]%elem_of_cons Hh; [congruence|by apply Hall].
    + intros Ht. destruct (Hsome Ht) as (p & Hp & Hh). exists p. split; [by apply list_elem_of_further|done].
Qed.

(** Where a report is announced: the place its ticket is worked in, or else the
    conversations configured for its scope. *)
Definition routes (report : Report) (places : list Conversation) : Prop :=
  if ticketReport report then exists place, places = [place] /\ worked_in report place
  else exists t found_, ou_conversations (ro_outside r t) (Rp_Scope report) = Ok found_ /\ places = threadedPlaces report found_.

(** The ticket's review room has no thread yet. *)
Definition review_pending (report : Report) : Prop :=
  ticketReport report = true /\ exists t route, ou_route (ro_outside r t) (Rp_Ticket report) = Ok route /\ ticketRoom route = None.

Definition routed (report : Report) (x : result ChanError (option (list Conversation))) : Prop :=
  match x with
  | Ok (Some places) => routes report places
  | Ok None => review_pending report
  | Err _ => True
  end.

Lemma yields_ticketPlaces report found_ t :
  ou_conversations (ro_outside r t) (Rp_Scope report) = Ok found_ ->
  yields (ticketPlaces r report (threadedPlaces report found_)) (routed report).
Proof.
  intros Hf. unfold ticketPlaces. destruct (ticketReport report) eqn:Et; cbn [negb].
  - eapply yields_bind; [apply yields_ticketRoute|]. intros [route|e] Hr; apply yields_ret; [|done].
    destruct (Hr _ eq_refl) as [t' Ht]. destruct (ticketRoom route) as [room|] eqn:Eroom; cbn.
    + unfold routes. rewrite Et. eexists. split; [done|]. by exists t', route, room.
    + split; [done|]. by exists t', route.
  - apply yields_ret. cbn. unfold routes. rewrite Et. eauto.
Qed.

Lemma routes_may_hear report places place :
  routes report places -> place ∈ places -> hears report place = true -> may_hear report place.
Proof.
  unfold routes. destruct (ticketReport report) eqn:Et.
  - intros (p & -> & Hw) ->%list_elem_of_singleton _. right. by left.
  - intros (t & found_ & Hf & ->) Hp Hh. left. eauto 10.
Qed.

(** ** One report *)

(** Why somebody was not told is written down. *)
Definition leaves_record (report : Report) (s : Stage) : Prop :=
  exists place code, is_Some (sg_failures s !! (AnnouncementTo report place, code)).

Lemma record_failure_there now t f : is_Some (record_failure now t f !! (Df_Announcement f, MetricCode (Df_Code f))).
Proof. unfold record_failure. cbv zeta. destruct (t !! _); rewrite lookup_insert_eq; done. Qed.

Lemma record_failure_keeps now t f key : is_Some (t !! key) -> is_Some (record_failure now t f !! key).
Proof.
  intros [row Hrow]. unfold record_failure. cbv zeta. destruct (decide ((Df_Announcement f, MetricCode (Df_Code f)) = key)) as [<-|Hne].
  - rewrite Hrow. by rewrite lookup_insert_eq.
  - destruct (t !! (Df_Announcement f, _)); rewrite lookup_insert_ne; done.
Qed.

Lemma RecordFailures_keeps now l t key : is_Some (t !! key) -> is_Some (RecordFailures now l t !! key).
Proof. revert t. induction l as [|f l IH]; intros t Ht; [done|]. apply IH. by apply record_failure_keeps. Qed.

Lemma recordFailures_keeps_record report l s s' x :
  Forall (about report) l -> pass_ok (sg_pass s) -> recordFailures r l s = (s', x) ->
  pass_ok (sg_pass s') /\ moves_on s s' /\ (l <> [] -> x = None -> leaves_record report s').
Proof.
  intros Hl Hs H. unfold recordFailures in H. destruct l as [|f l].
  { injection H as <- <-. split; [done|]. split; [apply moves_on_refl|done]. }
  apply bind_run in H as (s1 & kept & H1 & H). injection H as <- <-. unfold database in H1.
  destruct (ou_database _); injection H1 as <- <-; (split; [done|]; split; [destruct (moves_on_refl s); by split|]); [|done].
  intros _ _. apply Forall_cons in Hl as [[place Hp] _]. exists place, (MetricCode (Df_Code f)). cbn.
  apply RecordFailures_keeps. rewrite <- Hp. apply record_failure_there.
Qed.

Definition chose_silence (report : Report) (place : Conversation) : Prop :=
  Co_FinishedAnswerOnly place = true /\ Rp_Event report = EventFinished.

(** Everywhere a report goes has heard it or asked for silence, and there is
    somewhere that should, or somebody who has it. *)
Definition said_everywhere (report : Report) (s : Stage) : Prop :=
  exists places, routes report places /\
    (forall place, place ∈ places -> hears report place = true -> chose_silence report place \/ on_record s report place) /\
    ((exists place, place ∈ places /\ hears report place = true) \/ exists person, on_record s report person).

Lemma said_everywhere_kept s s' report :
  (forall a row, sg_deliveries s !! a = Some row -> sg_deliveries s' !! a = Some row) ->
  said_everywhere report s -> said_everywhere report s'.
Proof.
  intros M (places & Hr & Hall & Hsome). exists places. split; [done|]. split.
  - intros place Hp Hh. destruct (Hall place Hp Hh) as [?|[row ?]]; [by left|right]. exists row. by apply M.
  - destruct Hsome as [?|[person [row ?]]]; [by left|right]. exists person, row. by apply M.
Qed.

Lemma rooms_told_silence report msg places s place :
  rooms_told report msg places s -> place ∈ places -> hears report place = true -> chose_silence report place \/ on_record s report place.
Proof.
  intros H Hp Hh. destruct (H place Hp Hh) as [Hq|?]; [left|by right]. unfold quietFinish in Hq.
  apply andb_true_iff in Hq as [Hq _]. apply andb_true_iff in Hq as [? Hq]. by apply String.eqb_eq in Hq.
Qed.

Lemma errors_Join_None l : errors_Join l = None -> l = [].
Proof. by destruct l. Qed.

Lemma unread_says report s0 s s' sent told failed :
  pass_ok (sg_pass s) -> moves_on s0 s -> unread r report s = (s', (sent, told, failed)) ->
  pass_ok (sg_pass s') /\ moves_on s0 s' /\ failed <> None.
Proof.
  intros Hs M H. unfold unread in H. next (yields_failuresFor report zeroConversation (Coded CodeConfigurationReadFailed)) H Hs M.
  apply bind_run in H as (s2 & kept & H2 & H). destruct Q as [Ha _].
  destruct (recordFailures_keeps_record _ _ _ _ _ Ha Hs H2) as (Hs2 & M2 & _). injection H as <- <- <- <-.
  split; [done|]. split; [by eapply moves_on_trans|done].
Qed.

Lemma announce_says report s s' sent told failed :
  pass_ok (sg_pass s) -> announce r report s = (s', (sent, told, failed)) ->
  pass_ok (sg_pass s') /\ moves_on s s' /\
  (failed = None -> told <> 0%Z -> said_everywhere report s') /\
  (failed = None -> told = 0%Z -> review_pending report \/ leaves_record report s').
Proof.
  intros Hs H. pose proof (moves_on_refl s) as M. unfold announce in H.
  next (yields_outside (fun o => ou_conversations o (Rp_Scope report))) H Hs M. destruct Q as [t Ht].
  destruct a as [found_|e]; [|by destruct (unread_says _ _ _ _ _ _ _ Hs M H) as (? & ? & ?)].
  next (yields_ticketPlaces report found_ t (eq_sym Ht)) H Hs M. destruct a as [[places|]|e];
    [|injection H as <- <- <- <-; split_and!; [done..|by left]|by destruct (unread_says _ _ _ _ _ _ _ Hs M H) as (? & ? & ?)].
  cbn in Q. next (yields_message report) H Hs M. apply bind_run in H as (s4 & [[sent4 told4] refused4] & H4 & H).
  destruct (tell_rooms_tells _ _ _ _ _ _ _ _ (fun place => routes_may_hear _ _ place Q) Hs H4) as (Hs4 & M4 & Hr4 & Hall & Hn4 & Hsome).
  apply bind_run in H as (s5 & [[sent5 owed] refused5] & H5 & H).
  destruct (directForOwner_tells _ _ _ _ _ _ _ Hs4 H5) as (Hs5 & M5 & Hr5 & Howed).
  apply (moves_on_trans _ _ _ M) in M4. apply (moves_on_trans _ _ _ M4) in M5 as M05.
  set (noted_ := (snd refused4 ++ snd refused5)%list) in *. apply bind_run in H as (s6 & l & H6 & H).
  assert (yields (if (told4 + owed =? 0)%Z && match noted_ with [] => true | _ => false end
                  then failuresFor r report zeroConversation (Coded CodeNowhereToSayIt) else mret noted_)
            (fun l => Forall (about report) l /\ ((told4 + owed)%Z = 0%Z -> l <> []))) as Hy.
  { destruct (Z.eqb_spec (told4 + owed) 0) as [E|E]; cbn [andb]; [|apply yields_ret; split; [by apply told_of_app|done]].
    destruct noted_ as [|f noted'] eqn:En; [eapply yields_weaken; [apply yields_failuresFor|]; by intros l' [? ?]|].
    apply yields_ret. rewrite <- En. split; [by apply told_of_app|]. by rewrite En. }
  destruct (Hy _ _ _ Hs5 H6) as (Hs6 & M6 & Hl & Hne). apply (moves_on_trans _ _ _ M05) in M6 as M06.
  apply bind_run in H as (s7 & kept & H7 & H). destruct (recordFailures_keeps_record _ _ _ _ _ Hl Hs6 H7) as (Hs7 & M7 & Hkept).
  injection H as <- <- <- <-. split; [done|]. split; [by eapply moves_on_trans|]. split.
  - intros [Hb4 Hb]%errors_Join_None%app_eq_nil Htold. exists places. split; [done|].
    pose proof (moves_on_trans _ _ _ (moves_on_trans _ _ _ M5 M6) M7) as M47. split.
    + intros place Hp Hh. eapply rooms_told_silence; [eapply rooms_told_kept; [exact M47|by apply Hall]|done..].
    + destruct (Z.eqb_spec told4 0) as [E|E]; [|left; by apply Hsome]. right. destruct Howed as [person Hp]; [lia|].
      exists person. eapply on_record_kept; [|exact Hp]. by eapply moves_on_trans.
  - intros [Hb4 Hb]%errors_Join_None%app_eq_nil Htold. right. apply app_eq_nil in Hb as [_ Hb]. apply Hkept; [by apply Hne|]. by destruct kept.
Qed.

(** ** A sweep *)

(** What a sweep of these reports does to the stage: what is on record stays; a
    run filed under no place is one of them and was told everywhere; and whatever
    was handed to a driver was not on record, and went where it may. *)
Record sweeps (pending : list Report) (s s' : Stage) : Prop := MkSweeps {
  sweeps_kept : forall a row, sg_deliveries s !! a = Some row -> sg_deliveries s' !! a = Some row;
  sweeps_marked : forall a, An_Channel a = "" -> sg_deliveries s !! a = None -> is_Some (sg_deliveries s' !! a) ->
    exists report, report ∈ pending /\ a = everywhere report /\ said_everywhere report s';
  sweeps_said : exists new, sg_posted s' = (sg_posted s ++ new)%list /\
    forall p, p ∈ new -> sg_deliveries s !! po_owed p = None /\ addressed_well p
}.

Lemma moves_sweep pending s s' : moves_on s s' -> sweeps pending s s'.
Proof. intros [K E N]. split; [done| |done]. intros a Ha Hn [row Hrow]. rewrite (E a Ha Hn) in Hrow. done. Qed.

Lemma sweeps_trans pending more s1 s2 s3 : sweeps pending s1 s2 -> sweeps more s2 s3 -> sweeps (pending ++ more) s1 s3.
Proof.
  intros [K1 E1 (n1 & P1 & N1)] [K2 E2 (n2 & P2 & N2)]. split; [by eauto| |].
  - intros a Ha Hn Hs. destruct (sg_deliveries s2 !! a) as [row|] eqn:E.
    + destruct (E1 a Ha Hn) as (report & Hin & -> & Hsaid); [done|]. exists report. split; [by apply elem_of_app; left|].
      split; [done|]. by eapply said_everywhere_kept.
    + destruct (E2 a Ha E Hs) as (report & Hin & -> & Hsaid). exists report. split; [by apply elem_of_app; right|done].
  - exists (n1 ++ n2)%list. rewrite P2, P1, app_assoc. split; [done|].
    intros p [Hp|Hp]%elem_of_app; [by apply N1|]. destruct (N2 p Hp) as [Hn Ha]. split; [|done].
    destruct (sg_deliveries s1 !! po_owed p) eqn:E; [|done]. apply K1 in E. congruence.
Qed.

Lemma mark_reported_sweeps report s s' x :
  said_everywhere report s -> mark_reported r report s = (s', x) -> sg_pass s' = sg_pass s /\ sweeps [report] s s'.
Proof.
  intros Hsaid H. unfold mark_reported in H. apply bind_run in H as (s1 & now & H1 & H). injection H1 as <- _.
  apply bind_run in H as (s2 & kept & H2 & H). injection H as <- _. unfold database in H2.
  destruct (ou_database _); injection H2 as <- _; (split; [done|]); [|apply moves_sweep; destruct (moves_on_refl s); by split].
  assert (forall a row, sg_deliveries s !! a = Some row -> Reported report now (sg_deliveries s) !! a = Some row) as K
    by (intros a row; apply insert_delivery_keeps).
  split; [exact K| |exists []; cbn; rewrite app_nil_r; split; [done|]; intros p []%elem_of_nil].
  intros a _ Hn Ha. cbn in Ha. destruct (decide (everywhere report = a)) as [<-|Hne].
  - exists report. split; [by apply list_elem_of_singleton|]. split; [done|]. by eapply said_everywhere_kept.
  - unfold Reported in Ha. rewrite insert_delivery_other, Hn in Ha; [|done]. by destruct Ha.
Qed.

Lemma sweep_one_sweeps report s s' x :
  pass_ok (sg_pass s) -> sweep_one r report s = (s', x) -> pass_ok (sg_pass s') /\ sweeps [report] s s'.
Proof.
  intros Hs H. unfold sweep_one in H. apply bind_run in H as (s1 & [[sent told] failed] & H1 & H).
  destruct (announce_says _ _ _ _ _ _ Hs H1) as (Hs1 & M1 & Hsaid & _). pose proof (moves_sweep [] _ _ M1) as W1.
  destruct failed as [e|]; [injection H as <- _; split; [done|by apply moves_sweep]|].
  destruct (Z.eqb_spec told 0) as [E|E]; [injection H as <- _; split; [done|by apply moves_sweep]|].
  apply bind_run in H as (s2 & marked & H2 & H). injection H as <- _.
  destruct (mark_reported_sweeps _ _ _ _ (Hsaid eq_refl E) H2) as [Hp W2]. split; [by rewrite Hp|].
  by apply (sweeps_trans [] [report] _ _ _ W1).
Qed.

Lemma sweep_each_sweeps pending s s' x :
  pass_ok (sg_pass s) -> sweep_each r pending s = (s', x) -> sweeps pending s s'.
Proof.
  revert s s' x. induction pending as [|report pending IH]; intros s s' x Hs H; cbn [sweep_each] in H.
  { injection H as <- _. apply moves_sweep, moves_on_refl. }
  apply bind_run in H as (s1 & one & H1 & H). destruct (sweep_one_sweeps _ _ _ _ Hs H1) as [Hs1 W1].
  apply bind_run in H as (s2 & rest & H2 & H). injection H as <- _.
  apply (sweeps_trans [report] pending _ _ _ W1). by eapply IH.
Qed.

(** What the database lists as not yet reported when a sweep begins: the clock is
    read first, and the list at the next moment. *)
Definition pending_at (s : Stage) (limit : nat) : list Report :=
  let o := ro_outside r (S (sg_moment s)) in
  Unreported (ou_runs o) (ou_inbox o) (ou_dbnow o) (sg_deliveries s) (sg_failures s)
    (ou_now (ro_outside r (sg_moment s)) - Window)%Z limit.

Lemma Reporter_Sweep_sweeps limit s s' x : Reporter_Sweep r limit s = (s', x) -> sweeps (pending_at s limit) s s'.
Proof.
  intros H. unfold Reporter_Sweep in H. apply bind_run in H as (s1 & pending & H1 & H).
  unfold read_unreported in H1. apply bind_run in H1 as (s0 & now & H0 & H1). injection H0 as <- <-. unfold database in H1.
  assert (sweeps [] s s1) as W1.
  { apply moves_sweep. destruct (ou_database _); injection H1 as <- _; destruct (moves_on_refl s); by split. }
  destruct (ou_database _); injection H1 as <- <-; [|injection H as <- _; destruct W1 as [K E N]; split; [done| |done]].
  - apply bind_run in H as (s2 & [] & H2 & H). injection H2 as <-. apply bind_run in H as (s3 & swept & H3 & H). injection H as <- _.
    apply sweep_each_sweeps in H3 as [K E N]; [by split|exact new_pass_ok].
  - intros a Ha Hn Hs. destruct (E a Ha Hn Hs) as (report & Hin & _). by apply elem_of_nil in Hin.
Qed.

(** C11. What is on record as said is never said again: every message a sweep hands to
    a driver is for an announcement that was on nobody's record when the sweep
    began, and whatever was on record then still is, unchanged. *)
Theorem what_was_said_is_not_said_again limit s s' x :
  Reporter_Sweep r limit s = (s', x) ->
  (forall a row, sg_deliveries s !! a = Some row -> sg_deliveries s' !! a = Some row) /\
  exists new, sg_posted s' = (sg_posted s ++ new)%list /\ forall p, p ∈ new -> sg_deliveries s !! po_owed p = None.
Proof.
  intros H. destruct (Reporter_Sweep_sweeps _ _ _ _ H) as [K _ (new & P & N)]. split; [done|].
  exists new. split; [done|]. intros p Hp. by apply N.
Qed.


(** C19. A run is marked as reported only when it was: a mark a sweep leaves is the
    mark of a report that was pending, and after the sweep every room the report
    goes to that hears it has it on record, apart from rooms that asked to hear a
    finish only with its answer; and some room was owed it, or somebody has it. *)
Theorem reported_runs_were_told limit s s' x a :
  Reporter_Sweep r limit s = (s', x) ->
  An_Channel a = "" -> sg_deliveries s !! a = None -> is_Some (sg_deliveries s' !! a) ->
  exists report, report ∈ pending_at s limit /\ a = everywhere report /\ said_everywhere report s'.
Proof. intros H. destruct (Reporter_Sweep_sweeps _ _ _ _ H) as [_ E _]. exact (E a). Qed.

(** Silence is explained: when announcing a run went without an error and nobody
    was told, either its ticket's review room is still being opened, or the table
    of failures says why. *)
Theorem silence_leaves_a_record report s s' sent :
  pass_ok (sg_pass s) -> announce r report s = (s', (sent, 0%Z, None)) -> review_pending report \/ leaves_record report s'.
Proof. intros Hs H. destruct (announce_says _ _ _ _ _ _ Hs H) as (_ & _ & _ & Hn). by apply Hn. Qed.
End Sweeping.

(** ** One sweep, in full *)

Definition tuesday : Scope := MkScope "acme" "support".
Definition tuesday_room : Conversation :=
  MkConversation "slack" "C1" "" "support" "" false false ["parked"; "finished"] true.

(** A run that asks for a decision, a room that hears it, and one person who may
    answer and whose account is known. *)
Definition tuesday_outside : Outside :=
  MkOutside 5000 true 5000
    [MkRunRow "r1" "triage" "v1" tuesday "awaiting_approval" 4000 (Some "issue_refund") (Some "over the limit") None (Some 7%Z) 7
       (MkTicketRef "" 0) false] []
    (fun _ _ => Ok (None, "ts1")) (fun _ => Ok [tuesday_room]) (fun _ => Ok ["lead"]) (fun _ => Ok ["lead"])
    (fun _ _ => Ok {[ "lead" := "U1" ]}) (fun _ _ => Err Uncoded) (Ok ["slack"]) (fun _ => Err Uncoded) (fun _ => Err Uncoded)
    (fun _ => Err (ErrContentAbsent "")).

Definition tuesday_reporter : Reporter := MkReporter (fun _ => tuesday_outside) true false false false "".
Definition quiet_outside : Outside :=
  MkOutside 5000 true 5000 (ou_runs tuesday_outside) [] (ou_post tuesday_outside) (fun _ => Ok []) (fun _ => Ok []) (fun _ => Ok [])
    (fun _ _ => Ok ∅) (fun _ _ => Err Uncoded) (Ok []) (fun _ => Err Uncoded) (fun _ => Err Uncoded)
    (fun _ => Err (ErrContentAbsent "")).
Definition quiet_reporter : Reporter := MkReporter (fun _ => quiet_outside) true false false false "".
Definition nothing_said : Stage := MkStage ∅ ∅ [] newFanout 0.
Definition said_to (s : Stage) : list (string * string) := List.map (fun p => (Co_Channel (po_place p), Co_ID (po_place p))) (sg_posted s).
Definition tuesday_question : Report :=
  report_of [] (MkRunRow "r1" "triage" "v1" tuesday "awaiting_approval" 4000 (Some "issue_refund") (Some "over the limit") None (Some 7%Z) 7
    (MkTicketRef "" 0) false) EventParked.

(** The room and the person who may answer are told, once. *)
Lemma what_was_said_is_not_said_again_witness :
  let s := fst (Reporter_Sweep tuesday_reporter 5 nothing_said) in
  let s' := fst (Reporter_Sweep tuesday_reporter 5 s) in
  said_to s = [("slack", "C1"); ("slack", "U1")] /\ said_to s' = said_to s /\
  (forall a row, sg_deliveries s !! a = Some row -> sg_deliveries s' !! a = Some row) /\
  exists new, sg_posted s' = (sg_posted s ++ new)%list /\ forall p, p ∈ new -> sg_deliveries s !! po_owed p = None.
Proof.
  intros s s'. split; [vm_compute; reflexivity|]. split; [vm_compute; reflexivity|].
  exact (what_was_said_is_not_said_again tuesday_reporter 5 s s' _ (surjective_pairing _)).
Defined.


Lemma reported_runs_were_told_witness :
  exists report, report ∈ pending_at tuesday_reporter nothing_said 5 /\ everywhere tuesday_question = everywhere report /\
    said_everywhere tuesday_reporter report (fst (Reporter_Sweep tuesday_reporter 5 nothing_said)).
Proof.
  apply (reported_runs_were_told tuesday_reporter 5 nothing_said _ _ (everywhere tuesday_question) (surjective_pairing _)).
  - reflexivity.
  - apply lookup_empty.
  - assert (bool_decide (is_Some (sg_deliveries (fst (Reporter_Sweep tuesday_reporter 5 nothing_said)) !! everywhere tuesday_question)) = true)
      as E by (vm_compute; reflexivity).
    exact (proj1 (bool_decide_eq_true _) E).
Defined.

Lemma silence_leaves_a_record_witness :
  let s' := fst (announce quiet_reporter tuesday_question nothing_said) in
  review_pending quiet_reporter tuesday_question \/ leaves_record tuesday_question s'.
Proof.
  intros s'. apply (silence_leaves_a_record quiet_reporter tuesday_question nothing_said s' 0%Z); [apply new_pass_ok|].
  rewrite (surjective_pairing (announce quiet_reporter tuesday_question nothing_said)). reflexivity.
Defined.
