(* ===== verification/NetGuard.v ===== *)
(** * The network guard

    src/internal/netguard/netguard.go: where a tool server may be dialled. The
    addresses are those of net/netip: their parser, the unmapping of an IPv4
    address written in IPv6, and prefixes. The resolver and the connection itself
    are arguments; a host arrives already split from its port. *)

From Stdlib Require Import ZArith Lia Ascii String.
From stdpp Require Import base list strings.
From S2P Require Import Prelude GoStrings Regexp.

Local Open Scope string_scope.

(** ** Addresses (net/netip) *)

(** An address by its bits: 32 of them, or 128. *)
Inductive Addr := V4 (bits : Z) | V6 (bits : Z).

#[export] Instance Addr_eq_dec : EqDecision Addr.
Proof. solve_decision. Defined.

(** Bytes in order, most significant first. *)
Definition of_bytes (l : list Z) : Z := fold_left (fun acc b => (acc * 256 + b)%Z) l 0%Z.

Definition Unmap (a : Addr) : Addr :=
  match a with
  | V6 bits => if Z.eqb (Z.shiftr bits 32) 65535 then V4 (Z.land bits 4294967295) else a
  | V4 _ => a
  end.

Definition AddrFromSlice (l : list Z) : option Addr :=
  if (List.length l =? 4)%nat then Some (V4 (of_bytes l))
  else if (List.length l =? 16)%nat then Some (V6 (of_bytes l))
  else None.

Record Prefix := MkPrefix { pf_addr : Addr; pf_bits : Z }.

Definition Prefix_Contains (p : Prefix) (a : Addr) : bool :=
  match pf_addr p, a with
  | V4 x, V4 y => Z.eqb (Z.shiftr x (32 - pf_bits p)) (Z.shiftr y (32 - pf_bits p))
  | V6 x, V6 y => Z.eqb (Z.shiftr x (128 - pf_bits p)) (Z.shiftr y (128 - pf_bits p))
  | _, _ => false
  end.

(** [parseIPv4Fields]: the value and the digits of the field being read, and the
    fields already read. *)
Fixpoint ipv4_fields (s : string) (fresh : bool) (val : Z) (digits : nat) (fields : list Z) : option (list Z) :=
  match s with
  | EmptyString => if (List.length fields =? 3)%nat && negb fresh then Some (fields ++ [val])%list else None
  | String c s =>
      if digit_char c then
        if (digits =? 1)%nat && Z.eqb val 0 then None
        else
          let val := (val * 10 + (Z.of_N (N_of_ascii c) - 48))%Z in
          if (255 <? val)%Z then None else ipv4_fields s false val (S digits) fields
      else if Ascii.eqb c "." then
        if fresh || String.eqb s "" || (List.length fields =? 3)%nat then None
        else ipv4_fields s true 0 0 (fields ++ [val])%list
      else None
  end.

Definition parseIPv4 (s : string) : option (list Z) := ipv4_fields s true 0 0 [].

Definition hex_digit_val (c : ascii) : option Z :=
  let n := Z.of_N (N_of_ascii c) in
  if digit_char c then Some (n - 48)%Z
  else if between_ascii "a" "f" c then Some (n - 87)%Z
  else if between_ascii "A" "F" c then Some (n - 55)%Z
  else None.

(** A group of hexadecimal digits: its value, how many, and the rest. *)
Fixpoint hex_group (s : string) (acc : Z) (off : nat) : option (Z * nat * string) :=
  match s with
  | String c s' =>
      match hex_digit_val c with
      | Some d =>
          let acc := (acc * 16 + d)%Z in
          if (3 <? off)%nat || (65535 <? acc)%Z then None else hex_group s' acc (S off)
      | None => Some (acc, off, s)
      end
  | EmptyString => Some (acc, off, "")
  end.

(** The groups read so far as bytes, where the ellipsis stands among them, and
    what was not read: at most eight groups. *)
Fixpoint ipv6_groups (rounds : nat) (s : string) (ip : list Z) (ellipsis : option nat) : option (list Z * option nat * string) :=
  match rounds with
  | O => Some (ip, ellipsis, s)
  | S rounds =>
      match hex_group s 0 0 with
      | None | Some (_, O, _) => None
      | Some (acc, _, rest) =>
          match rest with
          | String "." _ =>
              if negb (bool_decide (is_Some ellipsis)) && negb (List.length ip =? 12)%nat then None
              else if (16 <? List.length ip + 4)%nat then None
              else match parseIPv4 s with Some fields => Some ((ip ++ fields)%list, ellipsis, "") | None => None end
          | _ =>
              let ip := (ip ++ [Z.shiftr acc 8; Z.land acc 255])%list in
              match rest with
              | EmptyString => Some (ip, ellipsis, "")
              | String ":" EmptyString => None
              | String ":" (String ":" after) =>
                  match ellipsis with
                  | Some _ => None
                  | None =>
                      if String.eqb after "" then Some (ip, Some (List.length ip), "")
                      else ipv6_groups rounds after ip (Some (List.length ip))
                  end
              | String ":" after => ipv6_groups rounds after ip ellipsis
              | _ => None
              end
          end
      end
  end.

Definition expand (ip : list Z) (ellipsis : option nat) : option (list Z) :=
  let i := List.length ip in
  if (i <? 16)%nat then
    match ellipsis with
    | None => None
    | Some at_ => Some (firstn at_ ip ++ repeat 0%Z (16 - i) ++ skipn at_ ip)%list
    end
  else match ellipsis with Some _ => None | None => Some ip end.

Definition parseIPv6 (s : string) : option (list Z) :=
  let '(s, ellipsis) := match s with String ":" (String ":" s') => (s', Some 0%nat) | _ => (s, None) end in
  if bool_decide (ellipsis = Some 0%nat) && String.eqb s "" then Some (repeat 0%Z 16)
  else
    match ipv6_groups 8 s [] ellipsis with
    | Some (ip, ellipsis, rest) => if String.eqb rest "" then expand ip ellipsis else None
    | None => None
    end.

(** [netip.ParseAddr] of a text without a zone: the first separator tells the
    family. *)
Definition ParseAddr (s : string) : option Addr :=
  match List.find (fun c => Ascii.eqb c "." || Ascii.eqb c ":") (list_ascii_of_string s) with
  | Some "."%char => option_map (fun l => V4 (of_bytes l)) (parseIPv4 s)
  | Some ":"%char => option_map (fun l => V6 (of_bytes l)) (parseIPv6 s)
  | _ => None
  end.

(** ** The guard *)

Definition prefix_of (s : string) (bits : Z) : Prefix := MkPrefix (default (V4 0) (ParseAddr s)) bits.

Definition blockedPrefixes : list Prefix :=
  [prefix_of "169.254.0.0" 16; prefix_of "fe80::" 10; prefix_of "fd00:ec2::" 64].

Definition IsBlocked (a : Addr) : bool := existsb (fun p => Prefix_Contains p (Unmap a)) blockedPrefixes.

(** [strings.Trim(host, "[]")], and what stands before a zone. *)
Fixpoint trim_right_set (set s : string) : string :=
  match s with
  | EmptyString => ""
  | String c s' => match trim_right_set set s' with
                   | EmptyString => if one_of set c then "" else String c ""
                   | rest => String c rest
                   end
  end.

Fixpoint trim_left_of (set s : string) : string :=
  match s with
  | String c s' => if one_of set c then trim_left_of set s' else s
  | EmptyString => ""
  end.

Definition parseAddr (host : string) : option Addr :=
  let host := trim_right_set "[]" (trim_left_of "[]" host) in
  let host := match cut_byte "%" host with Some (before, _) => before | None => host end in
  option_map Unmap (ParseAddr host).

Definition addrFromIP (ip : list Z) : option Addr := option_map Unmap (AddrFromSlice ip).

Inductive DialError :=
| ErrBlockedAddress
| ErrLookup
| ErrNoAddresses
| ErrConnect
| ErrNoUsable.

Definition CheckHostLiteral (host : string) : bool :=
  match parseAddr host with Some a => negb (IsBlocked a) | None => true end.

(** The addresses of a name in turn: the ones dialled so far, how many were
    blocked, and whether one was dialled in vain. *)
Fixpoint dial_each (connect : Addr -> bool) (addrs : list (list Z)) (dialled : list Addr) (blocked : nat) (failed : bool)
    : list Addr * nat * bool * bool :=
  match addrs with
  | [] => (dialled, blocked, failed, false)
  | ip :: addrs =>
      match addrFromIP ip with
      | None => dial_each connect addrs dialled blocked failed
      | Some a =>
          if IsBlocked a then dial_each connect addrs dialled (S blocked) failed
          else if connect a then ((dialled ++ [a])%list, blocked, failed, true)
          else dial_each connect addrs (dialled ++ [a])%list blocked true
      end
  end.

(** What was dialled, and the connection or the error. *)
Definition DialContext (connect : Addr -> bool) (lookup : string -> option (list (list Z))) (host : string)
    : list Addr * result DialError Addr :=
  match parseAddr host with
  | Some a => if IsBlocked a then ([], Err ErrBlockedAddress)
              else ([a], if connect a then Ok a else Err ErrConnect)
  | None =>
      match lookup host with
      | None => ([], Err ErrLookup)
      | Some [] => ([], Err ErrNoAddresses)
      | Some addrs =>
          let '(dialled, blocked, failed, connected) := dial_each connect addrs [] 0 false in
          (dialled,
           if connected then match last dialled with Some a => Ok a | None => Err ErrNoUsable end
           else if (blocked =? List.length addrs)%nat then Err ErrBlockedAddress
           else if failed then Err ErrConnect
           else Err ErrNoUsable)
      end
  end.

(** ** What is blocked *)

Lemma blocked_prefixes :
  blockedPrefixes = [MkPrefix (V4 2851995648) 16; MkPrefix (V6 338288524927261089654018896841347694592) 10;
                     MkPrefix (V6 336294982257581694735330614659971547136) 64].
Proof. vm_compute. reflexivity. Qed.

(** An address written in IPv4, or in IPv6 with an IPv4 address in its last 32
    bits. *)
Definition ipv4_value (a : Addr) : option Z :=
  match a with
  | V4 bits => Some bits
  | V6 bits => if (281470681743360 <=? bits)%Z && (bits <=? 281474976710655)%Z then Some (bits - 281470681743360)%Z else None
  end.

(** The networks the guard keeps out, as ranges: 169.254.0.0 to 169.254.255.255 in
    either spelling, fe80:: to febf:ffff:..., and fd00:ec2:0:0:: to
    fd00:ec2::ffff:.... *)
Definition kept_out (a : Addr) : Prop :=
  (exists v, ipv4_value a = Some v /\ (2851995648 <= v <= 2852061183)%Z) \/
  (exists bits, a = V6 bits /\
     ((338288524927261089654018896841347694592 <= bits <= 338620831926207318622244848606417780735)%Z \/
      (336294982257581694735330614659971547136 <= bits <= 336294982257581694753777358733681098751)%Z)).

Definition in_range (a : Addr) : Prop :=
  match a with V4 b => (0 <= b < 2 ^ 32)%Z | V6 b => (0 <= b < 2 ^ 128)%Z end.

Lemma same_top x y k : (0 <= k)%Z -> (0 <= x)%Z -> (0 <= y)%Z ->
  Z.shiftr x k = Z.shiftr y k <-> (2 ^ k * (x / 2 ^ k) <= y < 2 ^ k * (x / 2 ^ k) + 2 ^ k)%Z.
Proof.
  intros Hk Hx Hy. rewrite !Z.shiftr_div_pow2 by done. assert (0 < 2 ^ k)%Z as Hp by (by apply Z.pow_pos_nonneg).
  pose proof (Z.div_mod y (2 ^ k) ltac:(lia)) as Hd. pose proof (Z.mod_pos_bound y (2 ^ k) Hp) as Hm.
  split; [intros E; rewrite E; lia|]. intros H. apply (Z.div_unique_pos y (2 ^ k) (x / 2 ^ k) (y - 2 ^ k * (x / 2 ^ k))); lia.
Qed.

Lemma unmapped bits : (0 <= bits < 2 ^ 128)%Z ->
  Unmap (V6 bits) = match ipv4_value (V6 bits) with Some v => V4 v | None => V6 bits end.
Proof.
  intros H. cbn [Unmap ipv4_value]. rewrite Z.shiftr_div_pow2 by lia.
  assert (Hl : Z.land bits 4294967295 = (bits mod 2 ^ 32)%Z) by (change 4294967295%Z with (Z.ones 32); by rewrite Z.land_ones by lia).
  rewrite Hl. pose proof (Z.div_mod bits (2 ^ 32) ltac:(lia)) as Hd. pose proof (Z.mod_pos_bound bits (2 ^ 32) ltac:(lia)) as Hm.
  destruct (Z.eqb_spec (bits / 2 ^ 32) 65535) as [E|E].
  - assert ((281470681743360 <=? bits) && (bits <=? 281474976710655) = true)%Z as -> by (apply andb_true_iff; split; apply Z.leb_le; lia).
    f_equal. lia.
  - assert ((281470681743360 <=? bits) && (bits <=? 281474976710655) = false)%Z as ->; [|done].
    apply andb_false_iff. destruct (Z.leb_spec 281470681743360 bits); [right|by left]. apply Z.leb_gt.
    destruct (Z.le_gt_cases bits 281474976710655); [|lia]. exfalso. apply E. symmetry. apply Z.div_unique with (bits - 2 ^ 32 * 65535)%Z; lia.
Qed.

Lemma blocked_v4 bits : (0 <= bits < 2 ^ 32)%Z ->
  existsb (fun p => Prefix_Contains p (V4 bits)) blockedPrefixes = true <-> (2851995648 <= bits <= 2852061183)%Z.
Proof.
  intros H. rewrite blocked_prefixes. cbn [existsb Prefix_Contains pf_addr pf_bits]. rewrite orb_false_r, Z.eqb_eq.
  rewrite (same_top 2851995648 bits (32 - 16)) by lia. change (2 ^ (32 - 16) * (2851995648 / 2 ^ (32 - 16)))%Z with 2851995648%Z.
  change (2 ^ (32 - 16))%Z with 65536%Z. lia.
Qed.

Lemma blocked_v6 bits : (0 <= bits < 2 ^ 128)%Z ->
  existsb (fun p => Prefix_Contains p (V6 bits)) blockedPrefixes = true <->
  (338288524927261089654018896841347694592 <= bits <= 338620831926207318622244848606417780735)%Z \/
  (336294982257581694735330614659971547136 <= bits <= 336294982257581694753777358733681098751)%Z.
Proof.
  intros H. rewrite blocked_prefixes. cbn [existsb Prefix_Contains pf_addr pf_bits]. rewrite orb_false_r, orb_false_l, orb_true_iff, !Z.eqb_eq.
  rewrite (same_top _ bits (128 - 10)), (same_top _ bits (128 - 64)) by lia.
  change (2 ^ (128 - 10) * (338288524927261089654018896841347694592 / 2 ^ (128 - 10)))%Z with 338288524927261089654018896841347694592%Z.
  change (2 ^ (128 - 64) * (336294982257581694735330614659971547136 / 2 ^ (128 - 64)))%Z with 336294982257581694735330614659971547136%Z.
  change (2 ^ (128 - 10))%Z with 332306998946228968225951765070086144%Z. change (2 ^ (128 - 64))%Z with 18446744073709551616%Z. lia.
Qed.

Lemma blocked_exactly a : in_range a -> IsBlocked a = true <-> kept_out a.
Proof.
  intros H. unfold IsBlocked, kept_out. destruct a as [bits|bits]; cbn [in_range] in H.
  - cbn [Unmap ipv4_value]. rewrite blocked_v4 by done. split; [intros Hb; left; by exists bits|].
    intros [(v & [= <-] & Hv)|(b & [=] & _)]. done.
  - rewrite unmapped by done. destruct (ipv4_value (V6 bits)) as [v|] eqn:E; cbn [ipv4_value] in E.
    + destruct (_ && _) eqn:Er in E; [|done]. apply andb_true_iff in Er as [H1%Z.leb_le H2%Z.leb_le]. injection E as <-.
      rewrite blocked_v4 by lia. split; [intros Hb; left; eauto|].
      intros [(v & [= <-] & Hv)|(b & [= <-] & Hb)]; [done|lia].
    + rewrite blocked_v6 by done. split; [intros Hb; right; eauto|]. by intros [(v & [=] & _)|(b & [= <-] & Hb)].
Qed.

(** ** What is dialled *)

Lemma dial_each_free connect addrs : forall dialled blocked failed dialled' blocked' failed' connected,
  dial_each connect addrs dialled blocked failed = (dialled', blocked', failed', connected) ->
  Forall (fun a => IsBlocked a = false) dialled -> Forall (fun a => IsBlocked a = false) dialled'.
Proof.
  induction addrs as [|ip addrs IH]; intros dialled blocked failed d b f c; cbn [dial_each]; [by intros [= <- _ _ _]|].
  destruct (addrFromIP ip) as [a|]; [|apply IH]. destruct (IsBlocked a) eqn:E; [apply IH|].
  assert (Hs : Forall (fun a => IsBlocked a = false) dialled -> Forall (fun a => IsBlocked a = false) (dialled ++ [a]))
    by (intros H; apply Forall_app; split; [done|by constructor]).
  destruct (connect a); [intros [= <- _ _ _]; done|]. intros H Hd. eapply IH; [exact H|by apply Hs].
Qed.

(** The bytes of an address give an address in range. *)
Lemma of_bytes_bound l : Forall (fun b => 0 <= b <= 255)%Z l -> (0 <= of_bytes l < 2 ^ (8 * Z.of_nat (List.length l)))%Z.
Proof.
  induction l as [|b l IH] using rev_ind; intros H; [cbn; lia|]. apply Forall_app in H as [Hl Hb]. apply IH in Hl.
  inversion Hb as [|? ? Hb' _]; subst. unfold of_bytes in *. rewrite fold_left_app, length_app. cbn [fold_left List.length].
  replace (8 * Z.of_nat (List.length l + 1))%Z with (8 * Z.of_nat (List.length l) + 8)%Z by lia.
  rewrite Z.pow_add_r by lia. change (2 ^ 8)%Z with 256%Z. lia.
Qed.

Abbreviation byte_list := (Forall (fun b => 0 <= b <= 255)%Z).

Lemma ipv4_fields_spec s : forall fresh val digits fields l,
  ipv4_fields s fresh val digits fields = Some l -> (0 <= val <= 255)%Z -> byte_list fields ->
  List.length l = 4%nat /\ byte_list l.
Proof.
  induction s as [|c s IH]; intros fresh val digits fields l; cbn [ipv4_fields].
  - destruct (List.length fields =? 3)%nat eqn:E; cbn [andb]; [|done]. destruct fresh; [done|]. intros [= <-] Hv Hf.
    apply Nat.eqb_eq in E. rewrite length_app, E. split; [done|]. apply Forall_app. split; [done|by constructor].
  - intros H Hv Hf. destruct (digit_char c) eqn:Ed.
    + destruct (_ && _); [done|]. cbn zeta in H. destruct (Z.ltb_spec 255 (val * 10 + (Z.of_N (N_of_ascii c) - 48))); [done|].
      eapply IH; [exact H| |done]. unfold digit_char, between_ascii in Ed. apply andb_true_iff in Ed as [E1%N.leb_le _].
      change (N_of_ascii "0") with 48%N in E1. lia.
    + destruct (Ascii.eqb c "."); [|done]. destruct (_ || _); [done|].
      eapply IH; [exact H|lia|]. apply Forall_app. split; [done|by constructor].
Qed.

Lemma parseIPv4_bytes s l : parseIPv4 s = Some l -> List.length l = 4%nat /\ byte_list l.
Proof. intros H. eapply ipv4_fields_spec; [exact H|lia|constructor]. Qed.

Lemma hex_group_bound s : forall acc off v n rest, hex_group s acc off = Some (v, n, rest) ->
  (0 <= acc <= 65535)%Z -> (0 <= v <= 65535)%Z.
Proof.
  induction s as [|c s IH]; intros acc off v n rest; cbn [hex_group]; [by intros [= <- _ _]|].
  destruct (hex_digit_val c) as [d|] eqn:E; [|by intros [= <- _ _]]. cbn zeta.
  destruct (3 <? off)%nat; [done|]. cbn [orb]. destruct (Z.ltb_spec 65535 (acc * 16 + d)); [done|]. intros Hg Ha.
  eapply IH; [exact Hg|]. assert (0 <= d)%Z; [|lia]. unfold hex_digit_val, digit_char, between_ascii in E.
  destruct (_ && _) eqn:E1 in E; [apply andb_true_iff in E1 as [E1%N.leb_le _]; injection E as <-; change (N_of_ascii "0") with 48%N in E1; lia|].
  destruct (_ && _) eqn:E2 in E; [apply andb_true_iff in E2 as [E2%N.leb_le _]; injection E as <-; change (N_of_ascii "a") with 97%N in E2; lia|].
  destruct (_ && _) eqn:E3 in E; [|done]. apply andb_true_iff in E3 as [E3%N.leb_le _]. injection E as <-.
  change (N_of_ascii "A") with 65%N in E3. lia.
Qed.

Lemma group_bytes acc : (0 <= acc <= 65535)%Z -> byte_list [Z.shiftr acc 8; Z.land acc 255].
Proof.
  intros H. assert (Hl : Z.land acc 255 = (acc mod 2 ^ 8)%Z) by (change 255%Z with (Z.ones 8); by rewrite Z.land_ones by lia).
  rewrite Hl, Z.shiftr_div_pow2 by lia. pose proof (Z.mod_pos_bound acc (2 ^ 8) ltac:(lia)).
  constructor; [|constructor; [|constructor]]; [|lia]. split; [apply Z.div_pos; lia|].
  assert (acc / 2 ^ 8 < 256)%Z by (apply Z.div_lt_upper_bound; lia). lia.
Qed.

Lemma ipv6_groups_spec rounds : forall s ip ellipsis ip' ellipsis' rest,
  ipv6_groups rounds s ip ellipsis = Some (ip', ellipsis', rest) ->
  (List.length ip + 2 * rounds <= 16)%nat -> byte_list ip -> (List.length ip' <= 16)%nat /\ byte_list ip'.
Proof.
  induction rounds as [|rounds IH]; intros s ip ellipsis ip' ellipsis' rest; cbn [ipv6_groups].
  { intros [= <- _ _] Hl Hb. split; [lia|done]. }
  intros H Hl Hb. destruct (hex_group s 0 0) as [[[acc [|off]] after]|] eqn:Eg; [done| |done].
  pose proof (group_bytes acc (hex_group_bound _ _ _ _ _ _ Eg ltac:(lia))) as Hg.
  assert (Hn : byte_list (ip ++ [Z.shiftr acc 8; Z.land acc 255])) by (by apply Forall_app).
  assert (Hln : (List.length (ip ++ [Z.shiftr acc 8; Z.land acc 255]) + 2 * rounds <= 16)%nat) by (rewrite length_app; cbn; lia).
  assert (Hfin : (List.length (ip ++ [Z.shiftr acc 8; Z.land acc 255]) <= 16)%nat) by lia.
  repeat (case_match; try done); simplify_eq; try (by split); try (by eapply IH).
  match goal with H : parseIPv4 _ = Some _ |- _ => apply parseIPv4_bytes in H as [Hl4 Hb4] end.
  match goal with H : (16 <? _)%nat = false |- _ => apply Nat.ltb_ge in H end.
  rewrite length_app. split; [lia|by apply Forall_app].
Qed.

Lemma parseIPv6_bytes s l : parseIPv6 s = Some l -> List.length l = 16%nat /\ byte_list l.
Proof.
  assert (Hz : forall n, byte_list (repeat 0%Z n)) by (induction n; cbn; constructor; [lia|done]).
  unfold parseIPv6. match goal with |- context [let '(a, b) := ?x in _] => destruct x as [s' ellipsis] end.
  destruct (_ && _); [intros [= <-]; split; [done|apply (Hz 16%nat)]|].
  destruct (ipv6_groups 8 s' [] ellipsis) as [[[ip e] rest]|] eqn:E; [|done]. destruct (String.eqb rest ""); [|done].
  apply ipv6_groups_spec in E as [Hl Hb]; [|cbn; lia|constructor]. unfold expand. cbn zeta.
  destruct (Nat.ltb_spec (List.length ip) 16) as [Hlt|Hge]; destruct e as [at_|]; try done; intros [= <-]; [|split; [lia|done]].
  split.
  - rewrite !length_app, repeat_length, length_skipn, length_firstn. lia.
  - rewrite <- (firstn_skipn at_ ip) in Hb. apply Forall_app in Hb as [H1 H2]. repeat (apply Forall_app; split); done.
Qed.

Lemma ParseAddr_range s a : ParseAddr s = Some a -> in_range a.
Proof.
  assert (H4 : forall l, parseIPv4 s = Some l -> in_range (V4 (of_bytes l))).
  { intros l [Hl Hb]%parseIPv4_bytes. pose proof (of_bytes_bound _ Hb) as H. by rewrite Hl in H. }
  assert (H6 : forall l, parseIPv6 s = Some l -> in_range (V6 (of_bytes l))).
  { intros l [Hl Hb]%parseIPv6_bytes. pose proof (of_bytes_bound _ Hb) as H. by rewrite Hl in H. }
  unfold ParseAddr. intros H. repeat (case_match; try done);
    [destruct (parseIPv4 s) as [l|]; [|done]|destruct (parseIPv6 s) as [l|]; [|done]]; injection H as <-; auto.
Qed.

Lemma Unmap_range a : in_range a -> in_range (Unmap a).
Proof.
  destruct a as [b|b]; [done|]. intros H. cbn [in_range] in H. rewrite unmapped by done. cbn [ipv4_value].
  destruct (_ && _) eqn:E; [|done]. apply andb_true_iff in E as [E1%Z.leb_le E2%Z.leb_le]. cbn. lia.
Qed.

Lemma addrFromIP_range ip a : byte_list ip -> addrFromIP ip = Some a -> in_range a.
Proof.
  intros Hb. unfold addrFromIP, AddrFromSlice. pose proof (of_bytes_bound _ Hb) as H.
  destruct (List.length ip =? 4)%nat eqn:E4.
  - apply Nat.eqb_eq in E4. rewrite E4 in H. cbn [option_map].
    generalize (Unmap_range (V4 (of_bytes ip)) H). generalize (Unmap (V4 (of_bytes ip))). by intros u Hu [= <-].
  - destruct (List.length ip =? 16)%nat eqn:E6; [|done]. apply Nat.eqb_eq in E6. rewrite E6 in H. cbn [option_map].
    generalize (Unmap_range (V6 (of_bytes ip)) H). generalize (Unmap (V6 (of_bytes ip))). by intros u Hu [= <-].
Qed.

Lemma dial_each_range connect addrs : Forall byte_list addrs -> forall dialled blocked failed d b f c,
  dial_each connect addrs dialled blocked failed = (d, b, f, c) -> Forall in_range dialled -> Forall in_range d.
Proof.
  induction 1 as [|ip addrs Hip _ IH]; intros dialled blocked failed d b f c; cbn [dial_each]; [by intros [= <- _ _ _]|].
  destruct (addrFromIP ip) as [a|] eqn:Ea; [|apply IH]. destruct (IsBlocked a) eqn:E; [apply IH|].
  assert (Hs : Forall in_range dialled -> Forall in_range (dialled ++ [a])).
  { intros H. apply Forall_app. split; [done|]. constructor; [by eapply addrFromIP_range|constructor]. }
  destruct (connect a); [intros [= <- _ _ _]; done|]. intros H Hd. eapply IH; [exact H|by apply Hs].
Qed.

Lemma dial_each_blocked connect addrs : forall dialled blocked failed d b f c,
  dial_each connect addrs dialled blocked failed = (d, b, f, c) ->
  Forall (fun ip => exists a, addrFromIP ip = Some a /\ IsBlocked a = true) addrs ->
  d = dialled /\ b = (blocked + List.length addrs)%nat /\ c = false.
Proof.
  induction addrs as [|ip addrs IH]; intros dialled blocked failed d b f c; cbn [dial_each].
  { intros [= <- <- _ <-] _. cbn. by rewrite Nat.add_0_r. }
  intros H Hf. inversion Hf as [|? ? (a & Ha & Hb) Hrest]; subst. rewrite Ha, Hb in H. apply IH in H as (-> & -> & ->); [|done].
  cbn. split; [done|]. split; [lia|done].
Qed.

(** C29. Nothing on a metadata or link-local network is dialled. Whatever host a
    tool server names, as an address in any spelling or as a name, and whatever
    the resolver answers at that moment, no address the guard dials lies in
    169.254.0.0/16 (written in IPv4 or in IPv6), in fe80::/10 or in fd00:ec2::/64,
    and a connection it returns is to an address it dialled. A host all of whose
    addresses lie there is refused as blocked, with nothing dialled. *)
Theorem guarded_dials_stay_out connect lookup host dialled r :
  (forall addrs, lookup host = Some addrs -> Forall byte_list addrs) ->
  DialContext connect lookup host = (dialled, r) ->
  Forall (fun a => ~ kept_out a) dialled /\ (forall a, r = Ok a -> a ∈ dialled) /\
  (forall addrs, parseAddr host = None -> lookup host = Some addrs -> addrs <> [] ->
     Forall (fun ip => exists a, addrFromIP ip = Some a /\ kept_out a) addrs -> dialled = [] /\ r = Err ErrBlockedAddress).
Proof.
  intros Hl H.
  assert (Hout : Forall in_range dialled -> Forall (fun a => IsBlocked a = false) dialled -> Forall (fun a => ~ kept_out a) dialled).
  { intros Hr Hb. rewrite list.Forall_forall in *. intros a Ha Hk. apply (blocked_exactly a (Hr a Ha)) in Hk.
    by rewrite (Hb a Ha) in Hk. }
  unfold DialContext in H. destruct (parseAddr host) as [a|] eqn:Ep.
  { assert (Hr : in_range a).
    { unfold parseAddr in Ep. cbn zeta in Ep. destruct (ParseAddr _) as [a0|] eqn:E0; [|done].
      injection Ep as <-. apply Unmap_range. by eapply ParseAddr_range. }
    destruct (IsBlocked a) eqn:Eb; injection H as <- <-; [by repeat split|].
    split; [apply Hout; by repeat constructor|]. split; [|done]. intros b Hb. destruct (connect a); [|done].
    injection Hb as <-. left. }
  destruct (lookup host) as [[|ip addrs]|] eqn:El;
    [injection H as <- <-; split; [constructor|split; [done|by intros addrs' _ [= <-]]]| |by injection H as <- <-].
  specialize (Hl _ eq_refl). destruct (dial_each connect (ip :: addrs) [] 0 false) as [[[d b] f] c] eqn:Ed.
  injection H as <- <-. split; [|split].
  - apply Hout; [by eapply dial_each_range|by eapply dial_each_free].
  - intros a Ha. destruct c; [|repeat case_match; done]. destruct (last d) as [x|] eqn:Ex; [|done].
    injection Ha as <-. by apply last_Some_elem_of.
  - intros addrs' _ [= <-] _ Hf. apply dial_each_blocked in Ed as (-> & -> & ->).
    + by rewrite Nat.eqb_refl.
    + rewrite list.Forall_forall in *. intros x Hx. destruct (Hf x Hx) as (a & Ha & Hk). exists a. split; [done|].
      apply blocked_exactly; [|done]. eapply addrFromIP_range; [by apply Hl|done].
Qed.

(** ** Witness: a name that was rebound to the metadata service *)

Module Rebind.
Definition metadata : list Z := [169; 254; 169; 254]%Z.
Definition mapped : list Z := ([0; 0; 0; 0; 0; 0; 0; 0; 0; 0; 255; 255] ++ metadata)%Z%list.
Definition inside : list Z := [10; 0; 0; 7]%Z.
Definition lookup (host : string) : option (list (list Z)) := Some [metadata; mapped; inside].
End Rebind.

Lemma guarded_dials_stay_out_witness :
  DialContext (fun _ => true) Rebind.lookup "tools.internal" = ([V4 167772167], Ok (V4 167772167)) /\
  Forall (fun a => ~ kept_out a) [V4 167772167].
Proof.
  assert (H : DialContext (fun _ => true) Rebind.lookup "tools.internal" = ([V4 167772167], Ok (V4 167772167)))
    by (vm_compute; reflexivity).
  split; [exact H|].
  apply (guarded_dials_stay_out (fun _ => true) Rebind.lookup "tools.internal" [V4 167772167] (Ok (V4 167772167))); [|exact H].
  intros addrs [= <-]. repeat constructor; lia.
Defined.
